(* ===== verification/_CoqProject ===== *)
-Q . S2P
Prelude.v
Cstring.v
Sleeplock.v
Disk.v
Ring.v
Bio.v
Log.v
Transactions.v
Blocks.v
Fs.v
FsSpec.v
FsGrow.v
FsRun.v
Mkfs.v
MkfsSpec.v
MkfsImage.v
MkfsBoot.v
Kalloc.v
Hw.v
Irq.v
Pci.v
Arp.v
E1000.v
Spinlock.v
Proc.v
ProcInv.v
ProcSpec.v
ProcRun.v
Pipe.v
File.v
FileSpec.v
Vm.v
VmSpec.v
VmCopy.v
Grep.v
Umalloc.v
Syscall.v
Sysfile.v
Syspath.v
SyspathSpec.v
SyspathRun.v
Exec.v
ExecStack.v
ExecImage.v
ExecSpec.v
ExecRun.v
Format.v
UserProgs.v
UserProgsSpec.v
Kbd.v
Console.v
ConsoleSpec.v
Ide.v
Bootmain.v
IdeSpec.v
Sh.v
ShSpec.v
Mp.v
MpSpec.v
Trap.v
