(* ===== verification/Prelude.v ===== *)
(** * Verification of the xv6 kernel with the e1000 network driver

    This development models the xv6 teaching kernel of this repository (src/src),
    its network driver and a part of its user programs, and proves that they do
    what they are for. This file is the prelude; the header describes all files.

    ** How a routine is modelled

    C integers are values of [Z] with the wrap-around of their width ([u8], [u16],
    [u32], [s32]) written where the source's arithmetic has it. A routine is a
    function of [M S A], from the state [S] it works on to an outcome: [Ok] with a
    result and the new state, [Panic] for a call of panic(), [Blocked] for a sleep
    that only another thread can end (or an exit, which does not return), and
    [NoFuel] where a loop was cut short. Loops that are not over a list take fuel;
    theorems say how much is enough, usually as a bound on the argument, and conclude
    [Ok], so they are also proofs of termination. Memory is a function from
    addresses to bytes where the code does pointer arithmetic (Cstring, Kalloc, Vm,
    E1000, Umalloc, Mp), and a record or an array of records where it uses structures.
    A spin lock makes the code between acquire and release one step; what can
    happen between two such steps is either a step relation (Transactions, ProcRun,
    Pipe, IdeSpec) or an outcome [Blocked]. Hardware and the routines of other
    components are type classes or section variables with laws. Each class has an
    instance that shows that its laws can hold: the memory disk for [DiskDriver], the log
    over the buffer cache for the blocks of the file system and its operations, and small
    concrete examples for the devices, for what file.c and the process table call, and for
    the streams of the user programs. [kernel_env] (Exec) puts the kernel's own routines in
    the place of what the process table calls; the laws of [ProcEnvLaws], that loading
    registers, allocating and freeing memory do not panic, are not proved of it.

    ** The files

    - Prelude: integers, bytes, arrays, outcomes, the rules of [wp], tactics.
    - Cstring: string.c, ulib.c, util.c, over byte memory.
    - Sleeplock, Spinlock: sleeplock.c; spinlock.c with pushcli and popcli, and threads
      that interleave.
    - Disk (buf.h, memide.c) states what the buffer cache needs of a driver,
      [DiskDriver] and [DiskDriverLaws], and shows it of memide.c. Ide, IdeSpec: the
      interrupt-driven driver ide.c over an abstract controller.
    - Ring: the linked list of buffers. Bio: bio.c. Blocks: the view of the cache
      that the file system uses.
    - Log: log.c, with crashes at every disk write. Transactions: system calls that
      use the log concurrently.
    - Fs, FsSpec, FsGrow, FsRun: fs.c from balloc to namex; FsGrow has writei with the
      blocks it allocates; a small disk as an example.
      Mkfs, MkfsSpec, MkfsImage: mkfs.c, and that fs.c reads back what it writes.
      MkfsBoot: the kernel booted on the image, down to the memory disk.
    - Kalloc, Vm, VmSpec: kalloc.c and vm.c, page tables as words of memory. VmCopy:
      setupkvm and copyuvm.
    - Hw: ports and memory-mapped registers (x86.h). Irq: picirq.c, ioapic.c. Pci: pci.c.
      Mp, MpSpec: mp.c and lapic.c. Trap: trap.c and SETGATE.
    - Arp: arp_frame.c and the frames built in sysfile.c. E1000: e1000.c, nic.c, arp.c.
    - Proc, ProcInv, ProcSpec, ProcRun: proc.c and the system calls of sysproc.c on
      processes, as steps of several processors.
    - Pipe: pipe.c with any number of readers and writers. File, FileSpec: file.c.
    - Syscall: syscall.c, and sleep. Sysfile: the calls on descriptors of sysfile.c.
      Syspath, SyspathSpec, SyspathRun: its calls on paths.
    - Exec: exec.c, and the kernel put together - kernel_env makes the file system, the
      open files, the allocator and the page tables the environment [ProcEnv] of proc.c.
      ExecStack: the stack of the new program. ExecImage: its memory. ExecSpec: all of
      exec. ExecRun: a run on the small disk of SyspathRun.
    - Format: printf.c and cprintf. Kbd: kbd.c. Console, ConsoleSpec: console.c, uart.c.
    - Grep: grep.c. Umalloc: umalloc.c. Sh, ShSpec: the parser and runcmd of sh.c.
      UserProgs, UserProgsSpec: cat, wc, ls, echo, rm, mkdir, ln, kill, zombie and init, over an
      interface of system calls.
    - Bootmain: bootmain.c, with a drive for its theorem.

    ** What the theorems show

    Theorems that state a property of the program have a comment that begins with C
    and a number.
    - The first disk: for all files that fit, the kernel finds on the image of mkfs an
      empty log and exactly these files (MkfsImage); after recovery and iinit it finds
      each by its name and reads its bytes, through namei, ilock and readi (MkfsBoot).
    - Crash safety: a commit is atomic at every crash point and recovery completes
      it (Log). The reservations of concurrent system calls never exceed LOGSIZE blocks
      (Transactions); on the log that mkfs makes, which has one block less, the very last
      of them can panic, and the theorem says exactly when.
    - Invariants over all interleavings: the process table and its locks (ProcRun),
      lock exclusion (Spinlock), the log's reservations, the queue of the IDE driver.
    - Refinement of abstract objects: a file is a byte array (readi, writei), a pipe is
      a queue, the console is a line discipline, an address space is a map (Vm), the
      heap is a set of blocks (Umalloc), a command line is a syntax tree (Sh), the
      disk driver is a synchronous one while the controller reports no failure (IdeSpec),
      the keyboard decoder is a US keyboard (Kbd).
    - Balance: path calls leave locks, references and open operations as they were,
      on every path on which they return, errors included (SyspathSpec); a failed exec
      leaves the process, its memory, the pages, the inodes and the log as they were, and
      one that succeeds frees the old image (ExecSpec).
    - Error paths: allocation failures give everything back (allocuvm, setupkvm,
      pipealloc), and where one does not, the theorem says what is lost (copyuvm).
    - Order and adversaries: the network device sees a complete descriptor when it is
      told of it (E1000); trap is safe for arbitrary routines, those that never return
      included (Trap).
    - Progress and termination: the scheduler, sleep and wakeup, the sleepers in a pipe
      (but for the one whom a killed writer leaves asleep), a read of the clock, grep
      over any chunking of its input.

    ** Bounds and fuel

    The sizes are the source's: 30 buffers, 29 usable log blocks, 64 processes, 12
    direct and 128 indirect blocks, 512-byte blocks and pipes, 128 bytes of console
    input. Fuel is an argument of the loops; where it is fixed it is the number of
    items of the loop ([npages] for page tables, [NBUF] for the list of buffers), or the
    size of the user's half of the address space (the strings that exec measures).

    ** Not modelled

    main.c and the assembly files, which are boot order and register shuffling; the
    test programs (usertests, forktest, stressfs); arptest, icmptest and checknic, which are
    one system call each; the prompt loop of sh.c; messages to the console from kernel
    routines; defs.h and user.h, which only declare.
    Memory ordering, and code that runs with interrupts disabled for other reasons than
    a lock, are outside of the model. The directory next to src/src in the repository
    is a copy of it. *)

From stdpp Require Export base tactics list numbers gmap strings.
From Stdlib Require Export ZArith Lia.

#[global] Open Scope Z_scope.
#[global] Set Default Goal Selector "!".
#[global] Set Warnings "-clear-no-such-hyp".
#[global] Arguments Z.leb : simpl never.
#[global] Arguments Z.ltb : simpl never.

(** ** Machine integers

    C integers are values of [Z]; the wrap-around of each width is written
    where the source's arithmetic has it. *)

Definition u8 (x : Z) : Z := x mod 256.
Definition u16 (x : Z) : Z := x mod 65536.
Definition u32 (x : Z) : Z := x mod 4294967296.
Definition u64 (x : Z) : Z := x mod 18446744073709551616.

(** Two's complement reinterpretation of the low bits. *)
Definition s8 (x : Z) : Z := let y := u8 x in if y <? 128 then y else y - 256.
Definition s16 (x : Z) : Z := let y := u16 x in if y <? 32768 then y else y - 65536.
Definition s32 (x : Z) : Z :=
  let y := u32 x in if y <? 2147483648 then y else y - 4294967296.

Definition is_u8 (x : Z) : Prop := 0 <= x < 256.
Definition is_u16 (x : Z) : Prop := 0 <= x < 65536.
Definition is_u32 (x : Z) : Prop := 0 <= x < 4294967296.
Definition is_s32 (x : Z) : Prop := -2147483648 <= x < 2147483648.

(** [zmod] turns wrap-arounds into linear arithmetic. *)
Ltac zmod :=
  unfold s8, s16, s32, is_u8, is_u16, is_u32, is_s32 in *;
  unfold u8, u16, u32, u64 in *;
  repeat match goal with
         | |- context [?a <? ?b] => destruct (Z.ltb_spec a b)
         | H : context [?a <? ?b] |- _ => destruct (Z.ltb_spec a b)
         end;
  Z.to_euclidean_division_equations; lia.

Lemma u8_small x : is_u8 x → u8 x = x.
Proof. intros ?. by apply Z.mod_small. Qed.
Lemma u16_small x : is_u16 x → u16 x = x.
Proof. intros ?. by apply Z.mod_small. Qed.
Lemma u32_small x : is_u32 x → u32 x = x.
Proof. intros ?. by apply Z.mod_small. Qed.
Lemma u8_range x : is_u8 (u8 x).
Proof. by apply Z.mod_pos_bound. Qed.
Lemma u16_range x : is_u16 (u16 x).
Proof. by apply Z.mod_pos_bound. Qed.
Lemma u32_range x : is_u32 (u32 x).
Proof. by apply Z.mod_pos_bound. Qed.
Lemma u8_u8 x : u8 (u8 x) = u8 x.
Proof. apply u8_small, u8_range. Qed.
Lemma u32_u32 x : u32 (u32 x) = u32 x.
Proof. apply u32_small, u32_range. Qed.

(** A property of bytes that a boolean function decides is proved by
    evaluating it on all of them. *)
Lemma byte_forall (f : Z → bool) :
  forallb f (seqZ 0 256) = true → ∀ x, is_u8 x → f x = true.
Proof.
  intros Hf x Hx. rewrite forallb_forall in Hf.
  apply Hf, list_elem_of_In, elem_of_seqZ. unfold is_u8 in Hx. lia.
Qed.

(** [Z.lor] of values that share no bit is their sum. *)
Lemma lor_shiftl_add a b n :
  0 <= n → 0 <= a < 2 ^ n → Z.lor a (Z.shiftl b n) = a + b * 2 ^ n.
Proof.
  intros Hn Ha. rewrite <-Z.shiftl_mul_pow2 by done. symmetry.
  apply Z.add_nocarry_lor, Z.bits_inj'. intros i Hi.
  rewrite Z.land_spec, Z.bits_0.
  destruct (Z.lt_ge_cases i n).
  - rewrite Z.shiftl_spec_low by lia. apply andb_false_r.
  - rewrite (proj1 (Z.bounded_iff_bits_nonneg n a ltac:(lia) ltac:(lia))) by lia.
    done.
Qed.

Lemma lor_0_add a b n :
  0 <= n → 0 <= a < 2 ^ n → Z.lor (Z.shiftl b n) a = a + b * 2 ^ n.
Proof. intros. rewrite Z.lor_comm. by apply lor_shiftl_add. Qed.

(** Masks of low bits are remainders, and right shifts are divisions. *)
Lemma land_mask x n m : 0 <= n → m = 2 ^ n - 1 → Z.land x m = x mod 2 ^ n.
Proof. intros Hn ->. rewrite <-Z.land_ones by done. by rewrite Z.ones_equiv. Qed.

(** ** Byte strings, least significant byte first *)

Fixpoint le_bytes (n : nat) (v : Z) : list Z :=
  match n with
  | O => []
  | S n => u8 v :: le_bytes n (v / 256)
  end.

Fixpoint le_val (l : list Z) : Z :=
  match l with
  | [] => 0
  | b :: l => u8 b + 256 * le_val l
  end.

Lemma length_le_bytes n v : length (le_bytes n v) = n.
Proof. revert v. induction n; intros; simpl; auto. Qed.

Lemma le_bytes_is_u8 n v : Forall is_u8 (le_bytes n v).
Proof. revert v. induction n; intros; constructor; auto using u8_range. Qed.

Lemma le_val_bytes n v : le_val (le_bytes n v) = v mod 2 ^ (8 * Z.of_nat n).
Proof.
  revert v. induction n as [|n IH]; intros v; [simpl; by rewrite Z.mod_1_r|].
  cbn [le_bytes le_val]. rewrite IH, u8_u8. unfold u8.
  replace (8 * Z.of_nat (S n)) with (8 + 8 * Z.of_nat n) by lia.
  rewrite Z.pow_add_r, (Z.rem_mul_r v) by lia. done.
Qed.

Lemma le_val_range l : 0 <= le_val l < 2 ^ (8 * Z.of_nat (length l)).
Proof.
  induction l as [|b l IH]; [simpl; lia|]. cbn [le_val length].
  replace (8 * Z.of_nat (S (length l))) with (8 + 8 * Z.of_nat (length l)) by lia.
  rewrite Z.pow_add_r by lia. pose proof (u8_range b). unfold is_u8 in *. lia.
Qed.

Lemma le_bytes_val l : Forall is_u8 l → le_bytes (length l) (le_val l) = l.
Proof.
  induction 1 as [|b l Hb Hl IH]; [done|]. cbn [length le_bytes le_val].
  rewrite (u8_small b) by done. unfold is_u8 in Hb. f_equal.
  - unfold u8. rewrite (Z.mul_comm 256), Z.mod_add by lia. by apply Z.mod_small.
  - replace ((b + 256 * le_val l) / 256) with (le_val l); [done|].
    rewrite (Z.mul_comm 256), Z.div_add by lia. rewrite Z.div_small; lia.
Qed.

(** ** Arrays of bytes or words as lists, indexed by [Z] *)

Definition getZ {A} `{Inhabited A} (l : list A) (i : Z) : A := l !!! Z.to_nat i.
Definition setZ {A} (l : list A) (i : Z) (x : A) : list A := <[Z.to_nat i := x]> l.

Lemma getZ_setZ {A} `{Inhabited A} (l : list A) i j x :
  0 <= i < Z.of_nat (length l) → 0 <= j →
  getZ (setZ l i x) j = if decide (j = i) then x else getZ l j.
Proof.
  intros Hi Hj. unfold getZ, setZ. case_decide as E.
  - subst. apply list_lookup_total_insert_eq. lia.
  - apply list_lookup_total_insert_ne. lia.
Qed.
Lemma length_setZ {A} (l : list A) i x : length (setZ l i x) = length l.
Proof. apply length_insert. Qed.

(** [n] bytes of [l] from offset [off], and [l] with [new] stored there. *)
Definition sub {A} (l : list A) (off n : nat) : list A := take n (drop off l).
Definition splice {A} (l : list A) (off : nat) (new : list A) : list A :=
  take off l ++ new ++ drop (off + length new) l.

Lemma length_sub {A} (l : list A) off n :
  (off + n <= length l)%nat → length (sub l off n) = n.
Proof. intros. unfold sub. rewrite length_take, length_drop. lia. Qed.

Lemma length_splice {A} (l : list A) off new :
  (off + length new <= length l)%nat → length (splice l off new) = length l.
Proof.
  intros. unfold splice. rewrite !length_app, length_take, length_drop. lia.
Qed.

Lemma lookup_sub {A} (l : list A) off n i :
  sub l off n !! i = if decide (i < n)%nat then l !! (off + i)%nat else None.
Proof.
  unfold sub. case_decide.
  - by rewrite lookup_take_lt, lookup_drop by lia.
  - by rewrite lookup_take_ge by lia.
Qed.

Lemma lookup_splice {A} (l : list A) off new i :
  (off + length new <= length l)%nat →
  splice l off new !! i =
    if decide (off <= i < off + length new)%nat then new !! (i - off)%nat else l !! i.
Proof.
  intros Hl. unfold splice. case_decide.
  - rewrite lookup_app_r by (rewrite length_take; lia).
    rewrite lookup_app_l; rewrite length_take; [f_equal; lia|lia].
  - destruct (decide (i < off)%nat).
    + rewrite lookup_app_l by (rewrite length_take; lia).
      by rewrite lookup_take_lt by lia.
    + rewrite lookup_app_r by (rewrite length_take; lia).
      rewrite lookup_app_r by (rewrite length_take; lia).
      rewrite lookup_drop, length_take. f_equal. lia.
Qed.

Lemma sub_splice_eq {A} (l : list A) off new :
  (off + length new <= length l)%nat → sub (splice l off new) off (length new) = new.
Proof.
  intros. apply list_eq. intros i. rewrite lookup_sub. case_decide.
  - rewrite lookup_splice by done. case_decide; [f_equal; lia|lia].
  - symmetry. apply lookup_ge_None. lia.
Qed.

Lemma sub_splice_ne {A} (l : list A) off new off' n :
  (off + length new <= length l)%nat →
  (off' + n <= off ∨ off + length new <= off')%nat →
  sub (splice l off new) off' n = sub l off' n.
Proof.
  intros. apply list_eq. intros i. rewrite !lookup_sub. case_decide; [|done].
  rewrite lookup_splice by done. case_decide; [lia|done].
Qed.

Lemma splice_sub {A} (l : list A) off n :
  (off + n <= length l)%nat → splice l off (sub l off n) = l.
Proof.
  intros. apply list_eq. intros i.
  rewrite lookup_splice by (rewrite length_sub; lia). rewrite length_sub by lia.
  case_decide; [|done]. rewrite lookup_sub, decide_True by lia. f_equal. lia.
Qed.

(** A little-endian [w]-byte word at offset [off] of a byte array. *)
Definition getw (w : nat) (l : list Z) (off : nat) : Z := le_val (sub l off w).
Definition putw (w : nat) (l : list Z) (off : nat) (v : Z) : list Z :=
  splice l off (le_bytes w v).

Lemma length_putw w l off v : (off + w <= length l)%nat → length (putw w l off v) = length l.
Proof. intros. apply length_splice. by rewrite length_le_bytes. Qed.

Lemma getw_putw_eq w l off v :
  (off + w <= length l)%nat → getw w (putw w l off v) off = v mod 2 ^ (8 * Z.of_nat w).
Proof.
  intros Hl. unfold getw, putw. pose proof (sub_splice_eq l off (le_bytes w v)) as H.
  rewrite length_le_bytes in H. rewrite H by done. apply le_val_bytes.
Qed.

Lemma getw_putw_ne w w' l off off' v :
  (off + w <= length l)%nat → (off' + w' <= off ∨ off + w <= off')%nat →
  getw w' (putw w l off v) off' = getw w' l off'.
Proof.
  intros. unfold getw, putw. by rewrite sub_splice_ne by (by rewrite length_le_bytes).
Qed.

(** A range of integers split at one of them. *)
Lemma seqZ_split i n : 0 <= i < n → seqZ 0 n = seqZ 0 i ++ i :: seqZ (i + 1) (n - i - 1).
Proof.
  intros Hi. replace n with (i + (n - i)) at 1 by lia. rewrite seqZ_app by lia. f_equal.
  rewrite Z.add_0_l, seqZ_cons by lia. repeat f_equal; lia.
Qed.

Create HintDb xv6.
Create Rewrite HintDb xv6_len.
#[export] Hint Rewrite @length_splice @length_sub @length_le_bytes using lia : xv6_len.
#[export] Hint Resolve u8_range u16_range u32_range le_bytes_is_u8 : xv6.

(** ** Functions updated at a point *)

Definition fupd {A B} `{EqDecision A} (f : A → B) (x : A) (v : B) : A → B :=
  λ y, if decide (y = x) then v else f y.

Section fupd.
Context {A B : Type} `{!EqDecision A}.
Implicit Types (f g : A → B).

Lemma fupd_eq f x v : fupd f x v x = v.
Proof. unfold fupd. by rewrite decide_True. Qed.
Lemma fupd_ne f x v y : y ≠ x → fupd f x v y = f y.
Proof. intros. unfold fupd. by rewrite decide_False. Qed.

Lemma fupd_ext f g x v y : (∀ y, f y = g y) → fupd f x v y = fupd g x v y.
Proof. intros H. unfold fupd. by case_decide. Qed.
End fupd.

(** ** Effects

    A kernel routine is a function from the state it works on to an outcome.
    [Panic] is a call of panic() (the machine stops); [Blocked] is a call of
    sleep() that only another thread can end, in the state the thread sleeps
    in; [NoFuel] marks a run cut short by a fuel argument. *)

Inductive outcome (S A : Type) : Type :=
  | Ok (a : A) (s : S)
  | Panic (msg : string) (s : S)
  | Blocked (s : S)
  | NoFuel.
Arguments Ok {S A} a s.
Arguments Panic {S A} msg s.
Arguments Blocked {S A} s.
Arguments NoFuel {S A}.

Definition M (S A : Type) : Type := S → outcome S A.

#[export] Instance M_ret {S} : MRet (M S) := λ A a s, Ok a s.
#[export] Instance M_bind {S} : MBind (M S) := λ A B k m s,
  match m s with
  | Ok a s' => k a s'
  | Panic msg s' => Panic msg s'
  | Blocked s' => Blocked s'
  | NoFuel => NoFuel
  end.

Definition panic {S A} (msg : string) : M S A := λ s, Panic msg s.
Definition blocked {S A} : M S A := λ s, Blocked s.
Definition no_fuel {S A} : M S A := λ _, NoFuel.
Definition gets {S A} (f : S → A) : M S A := λ s, Ok (f s) s.
Definition modify {S} (f : S → S) : M S unit := λ s, Ok tt (f s).
Definition panic_if {S} (b : bool) (msg : string) : M S unit :=
  if b then panic msg else mret tt.

(** A routine of a component run inside a larger state. *)
Definition zoom {S T A} (get : S → T) (put : T → S → S) (m : M T A) : M S A := λ s,
  match m (get s) with
  | Ok a t => Ok a (put t s)
  | Panic msg t => Panic msg (put t s)
  | Blocked t => Blocked (put t s)
  | NoFuel => NoFuel
  end.

(** [for] loops over a list of index values; [for_until] is the loop whose body
    may return from the enclosing function. *)
Fixpoint for_each {S X} (l : list X) (body : X → M S unit) : M S unit :=
  match l with
  | [] => mret tt
  | x :: l => body x ≫= λ _, for_each l body
  end.

Fixpoint for_until {S X R} (l : list X) (body : X → M S (option R)) : M S (option R) :=
  match l with
  | [] => mret None
  | x :: l => body x ≫= λ r,
      match r with Some v => mret (Some v) | None => for_until l body end
  end.

Fixpoint for_acc {S X R} (l : list X) (acc : R) (body : R → X → M S R) : M S R :=
  match l with
  | [] => mret acc
  | x :: l => body acc x ≫= λ acc', for_acc l acc' body
  end.

Lemma for_each_ext {S X} (l : list X) (f g : X → M S unit) s :
  (∀ x, x ∈ l → f x = g x) → for_each l f s = for_each l g s.
Proof.
  revert s. induction l as [|x l IH]; intros s H; cbn [for_each]; [done|].
  unfold mbind, M_bind. rewrite H by set_solver. destruct (g x s); [|done..].
  apply IH. intros y ?. apply H. set_solver.
Qed.

(** [wp m Q s]: from [s], [m] returns, and [Q] holds of the result. *)
Definition wp {S A} (m : M S A) (Q : A → S → Prop) (s : S) : Prop :=
  match m s with Ok a s' => Q a s' | _ => False end.

(** [wlp m Q s]: the same when [m] may also panic or block. *)
Definition wlp {S A} (m : M S A) (Q : A → S → Prop) (s : S) : Prop :=
  match m s with Ok a s' => Q a s' | _ => True end.

Section wp.
Context {S : Type}.
Implicit Types (s : S).

Lemma wp_ret {A} (a : A) (Q : A → S → Prop) s : Q a s → wp (mret a) Q s.
Proof. done. Qed.

Lemma wp_bind {A B} (m : M S A) (k : A → M S B) (Q : B → S → Prop) s :
  wp m (λ a s', wp (k a) Q s') s → wp (m ≫= k) Q s.
Proof. unfold wp, mbind, M_bind. by destruct (m s). Qed.

Lemma wp_mono {A} (m : M S A) (P Q : A → S → Prop) s :
  wp m P s → (∀ a s', P a s' → Q a s') → wp m Q s.
Proof. unfold wp. destruct (m s); naive_solver. Qed.

Lemma wp_gets {A} (f : S → A) (Q : A → S → Prop) s : Q (f s) s → wp (gets f) Q s.
Proof. done. Qed.

Lemma wp_modify (f : S → S) (Q : unit → S → Prop) s : Q tt (f s) → wp (modify f) Q s.
Proof. done. Qed.

Lemma wp_panic_if b msg (Q : unit → S → Prop) s :
  b = false → Q tt s → wp (panic_if b msg) Q s.
Proof. by intros ->. Qed.

Lemma wp_inv {A} (m : M S A) (Q : A → S → Prop) s :
  wp m Q s → ∃ a s', m s = Ok a s' ∧ Q a s'.
Proof. unfold wp. destruct (m s); naive_solver. Qed.

Lemma wp_intro {A} (m : M S A) (Q : A → S → Prop) s a s' :
  m s = Ok a s' → Q a s' → wp m Q s.
Proof. unfold wp. by intros ->. Qed.

Lemma wlp_bind {A B} (m : M S A) (k : A → M S B) (Q : B → S → Prop) s :
  wlp m (λ a s', wlp (k a) Q s') s → wlp (m ≫= k) Q s.
Proof. unfold wlp, mbind, M_bind. by destruct (m s). Qed.

Lemma wlp_mono {A} (m : M S A) (P Q : A → S → Prop) s :
  wlp m P s → (∀ a s', P a s' → Q a s') → wlp m Q s.
Proof. unfold wlp. destruct (m s); naive_solver. Qed.

(** What a run of a sequence that returned says of its parts. *)
Lemma bind_Ok {A B} (m : M S A) (k : A → M S B) s b s' :
  (m ≫= k) s = Ok b s' → ∃ a s1, m s = Ok a s1 ∧ k a s1 = Ok b s'.
Proof. unfold mbind, M_bind. destruct (m s); naive_solver. Qed.

Lemma bind_run {A B} (m : M S A) (k : A → M S B) s a s1 :
  m s = Ok a s1 → (m ≫= k) s = k a s1.
Proof. unfold mbind, M_bind. by intros ->. Qed.

Lemma seq3_run {B} (m1 m2 m3 : M S unit) (m : M S B) s s' :
  (m1;; m2;; m3) s = Ok tt s' → (m1;; m2;; m3;; m) s = m s'.
Proof.
  unfold mbind, M_bind. destruct (m1 s); [|done..]. destruct (m2 _); [|done..]. by intros ->.
Qed.

(** Running the primitives, as rewrite rules. *)
Lemma run_ret {A B} (a : A) (k : A → M S B) s : (mret a ≫= k) s = k a s.
Proof. done. Qed.
Lemma run_gets {A B} (f : S → A) (k : A → M S B) s : (gets f ≫= k) s = k (f s) s.
Proof. done. Qed.
Lemma run_modify {B} (f : S → S) (k : unit → M S B) s : (modify f ≫= k) s = k tt (f s).
Proof. done. Qed.
Lemma run_panic_if {B} b msg (k : unit → M S B) s :
  b = false → (panic_if b msg ≫= k) s = k tt s.
Proof. by intros ->. Qed.
Lemma run_panic_if_true {B} b msg (k : unit → M S B) s :
  b = true → (panic_if b msg ≫= k) s = Panic msg s.
Proof. by intros ->. Qed.
Lemma run_assoc {A B C} (m : M S A) (f : A → M S B) (g : B → M S C) s :
  ((m ≫= f) ≫= g) s = (m ≫= λ a, f a ≫= g) s.
Proof. unfold mbind, M_bind. by destruct (m s). Qed.

(** The invariant rule of [for_each]: [I] holds of the items still to do. *)
Lemma wp_for_each {X} (I : list X → S → Prop) l (body : X → M S unit) Q s :
  I l s →
  (∀ x l' s, I (x :: l') s → wp (body x) (λ _ s', I l' s') s) →
  (∀ s, I [] s → Q tt s) →
  wp (for_each l body) Q s.
Proof.
  intros HI Hb HQ. revert s HI. induction l as [|x l IH]; intros s HI; cbn [for_each for_until].
  - apply wp_ret, HQ, HI.
  - apply wp_bind. eapply wp_mono; [by apply Hb|]. intros ? s'. apply IH.
Qed.

(** The invariant rule of [for_until]. *)
Lemma wp_for_until {X R} (I : list X → S → Prop) l
    (body : X → M S (option R)) (Q : option R → S → Prop) s :
  I l s →
  (∀ x l' s, I (x :: l') s →
     wp (body x) (λ r s', match r with Some v => Q (Some v) s' | None => I l' s' end) s) →
  (∀ s, I [] s → Q None s) →
  wp (for_until l body) Q s.
Proof.
  intros HI Hb HQ. revert s HI. induction l as [|x l IH]; intros s HI; cbn [for_each for_until].
  - apply wp_ret, HQ, HI.
  - apply wp_bind. eapply wp_mono; [by apply Hb|]. intros [v|] s'; [done|apply IH].
Qed.

(** A search that succeeds at [x], or not at all; [I] is kept while it goes on. *)
Lemma for_until_found {X R} (I Q : S → Prop) (l1 l2 : list X) x
    (body : X → M S (option R)) r s :
  I s → (∀ y s, y ∈ l1 → I s → ∃ s', body y s = Ok None s' ∧ I s') →
  (∀ s, I s → ∃ s', body x s = Ok (Some r) s' ∧ Q s') →
  ∃ s', for_until (l1 ++ x :: l2) body s = Ok (Some r) s' ∧ Q s'.
Proof.
  intros HI H1 Hx. revert s HI. induction l1 as [|y l1 IH]; intros s HI; cbn [app for_until].
  - destruct (Hx s HI) as (s' & Hs & HQ). exists s'. by rewrite (bind_run _ _ _ _ _ Hs).
  - destruct (H1 y s) as (s1 & Hs & HI1); [set_solver|done|].
    rewrite (bind_run _ _ _ _ _ Hs). apply IH; [|done]. intros z s2 Hz. apply H1. set_solver.
Qed.

(** A search that does not succeed in the first part goes on in the second. *)
Lemma for_until_skip {X R} (I : S → Prop) (l1 l2 : list X) (body : X → M S (option R)) s :
  I s → (∀ y s, y ∈ l1 → I s → ∃ s', body y s = Ok None s' ∧ I s') →
  ∃ s', for_until (l1 ++ l2) body s = for_until l2 body s' ∧ I s'.
Proof.
  intros HI H1. revert s HI. induction l1 as [|y l1 IH]; intros s HI; cbn [app for_until].
  - by exists s.
  - destruct (H1 y s) as (s1 & Hs & HI1); [set_solver|done|].
    rewrite (bind_run _ _ _ _ _ Hs). apply IH; [|done]. intros z s2 Hz. apply H1. set_solver.
Qed.

Lemma for_until_missing {X R} (I : S → Prop) (l : list X) (body : X → M S (option R)) s :
  I s → (∀ y s, y ∈ l → I s → ∃ s', body y s = Ok None s' ∧ I s') →
  ∃ s', for_until l body s = Ok None s' ∧ I s'.
Proof.
  intros HI H1. revert s HI. induction l as [|y l IH]; intros s HI; cbn [for_until].
  - by exists s.
  - destruct (H1 y s) as (s1 & Hs & HI1); [set_solver|done|].
    rewrite (bind_run _ _ _ _ _ Hs). apply IH; [|done]. intros z s2 Hz. apply H1. set_solver.
Qed.

Lemma for_each_inv {X} (I : list X → S → Prop) (l : list X) (body : X → M S unit) s :
  I l s → (∀ y l' s, I (y :: l') s → ∃ s', body y s = Ok tt s' ∧ I l' s') →
  ∃ s', for_each l body s = Ok tt s' ∧ I [] s'.
Proof.
  intros HI H1. revert s HI. induction l as [|y l IH]; intros s HI; cbn [for_each].
  - by exists s.
  - destruct (H1 y l s HI) as (s1 & Hs & HI1). rewrite (bind_run _ _ _ _ _ Hs). by apply IH.
Qed.

Lemma wp_for_acc {X R} (I : list X → R → S → Prop) l acc
    (body : R → X → M S R) (Q : R → S → Prop) s :
  I l acc s →
  (∀ x l' acc s, I (x :: l') acc s → wp (body acc x) (λ acc' s', I l' acc' s') s) →
  (∀ acc s, I [] acc s → Q acc s) →
  wp (for_acc l acc body) Q s.
Proof.
  intros HI Hb HQ. revert acc s HI. induction l as [|x l IH]; intros acc s HI; cbn [for_acc].
  - apply wp_ret, HQ, HI.
  - apply wp_bind. eapply wp_mono; [by apply Hb|]. intros acc' s'. apply IH.
Qed.
End wp.

Create Rewrite HintDb xv6_run.
#[export] Hint Rewrite @run_ret @run_gets @run_modify @run_assoc : xv6_run.

(** [run] executes the primitives at the head of a routine. *)
Ltac run := repeat (autorewrite with xv6_run; cbn beta iota; unfold id).

#[export] Instance wp_proper {S A} (m : M S A) :
  Proper (pointwise_relation A (pointwise_relation S iff) ==> pointwise_relation S iff) (wp m).
Proof. intros P Q HPQ s. unfold wp. destruct (m s); [apply HPQ|done..]. Qed.

(** [wp_step] runs the next primitive of a routine. *)
Ltac wp_step :=
  lazymatch goal with
  | |- wp (mbind _ _) _ _ => apply wp_bind
  | |- wp (mret _) _ _ => apply wp_ret
  | |- wp (gets _) _ _ => apply wp_gets
  | |- wp (modify _) _ _ => apply wp_modify
  | |- wp (panic_if _ _) _ _ => apply wp_panic_if
  end; simpl.
