(* ===== verification/Cstring.v ===== *)
(** * Memory and string routines (string.c, ulib.c, util.c, the string
    instructions of x86.h)

    Memory is a function from addresses to bytes. A pointer is an address; the
    regions the routines work on do not wrap around the address space.
    [Kernel] holds the routines of string.c, [User] those of ulib.c and
    [Util] those of util.c, which share names. *)

From S2P Require Import Prelude.

Definition mem := Z → Z.

(** A store of one byte. *)
Definition mset (m : mem) (a v : Z) : mem := λ x, if x =? a then u8 v else m x.

Lemma mset_eq m a v : mset m a v a = u8 v.
Proof. unfold mset. by rewrite Z.eqb_refl. Qed.
Lemma mset_ne m a v x : x ≠ a → mset m a v x = m x.
Proof. unfold mset. intros ?. by rewrite (proj2 (Z.eqb_neq x a)). Qed.

(** Every byte of memory is a byte. *)
Definition mem_ok (m : mem) : Prop := ∀ a, is_u8 (m a).

Lemma mset_ok m a v : mem_ok m → mem_ok (mset m a v).
Proof. intros Hm x. unfold mset. destruct (x =? a); auto using u8_range. Qed.

(** A memory holding [l] from address 0, with NULs after it. *)
Definition mem_of (l : list Z) : mem := λ a, u8 (default 0 (l !! Z.to_nat a)).
Lemma mem_of_ok l : mem_ok (mem_of l).
Proof. intros a. apply u8_range. Qed.
Lemma mem_of_lookup l a c : l !! Z.to_nat a = Some c → is_u8 c → mem_of l a = c.
Proof. intros H ?. unfold mem_of. rewrite H. by apply u8_small. Qed.
Lemma mem_of_end l a : (length l <= Z.to_nat a)%nat → mem_of l a = 0.
Proof. intros H. unfold mem_of. by rewrite lookup_ge_None_2. Qed.

(** [x86.h]: rep stosb and rep stosl. *)
Fixpoint stosb (m : mem) (a data : Z) (cnt : nat) : mem :=
  match cnt with
  | O => m
  | S cnt => stosb (mset m a data) (a + 1) data cnt
  end.

Definition store32 (m : mem) (a v : Z) : mem :=
  mset (mset (mset (mset m a v) (a + 1) (v / 256)) (a + 2) (v / 65536)) (a + 3)
    (v / 16777216).

Definition load32 (m : mem) (a : Z) : Z :=
  m a + 256 * m (a + 1) + 65536 * m (a + 2) + 16777216 * m (a + 3).

(** The bytes of [l], from [a] on. *)
Fixpoint store_bytes (m : mem) (a : Z) (l : list Z) : mem :=
  match l with
  | [] => m
  | b :: l => store_bytes (mset m a b) (a + 1) l
  end.

Fixpoint stosl (m : mem) (a data : Z) (cnt : nat) : mem :=
  match cnt with
  | O => m
  | S cnt => stosl (store32 m a data) (a + 4) data cnt
  end.

Lemma stosb_spec m a d n x :
  stosb m a d n x = if decide (a <= x < a + Z.of_nat n) then u8 d else m x.
Proof.
  revert m a. induction n as [|n IH]; intros m a; simpl.
  - case_decide; [lia|done].
  - rewrite IH. unfold mset. destruct (Z.eqb_spec x a); repeat case_decide; lia || done.
Qed.

Lemma stosl_spec m a d n x :
  stosl m a d n x =
    if decide (a <= x < a + 4 * Z.of_nat n)
    then u8 (d / 256 ^ ((x - a) mod 4)) else m x.
Proof.
  revert m a. induction n as [|n IH]; intros m a; simpl.
  - case_decide; [lia|done].
  - rewrite IH. unfold store32, mset.
    case_decide; [rewrite decide_True by lia; do 3 f_equal; zmod|].
    destruct (Z.eqb_spec x (a + 3)) as [->|];
      [|destruct (Z.eqb_spec x (a + 2)) as [->|];
        [|destruct (Z.eqb_spec x (a + 1)) as [->|];
          [|destruct (Z.eqb_spec x a) as [->|]]]].
    all: case_decide; try lia; try done.
    all: rewrite Z.add_simpl_l || rewrite Z.sub_diag; cbn; try done.
    by rewrite Z.div_1_r.
Qed.

Module Kernel.

(** memset: a word-wise fill when address and length are multiples of 4. *)
Definition memset (m : mem) (dst c n : Z) : mem :=
  if (dst mod 4 =? 0) && (n mod 4 =? 0) then
    let c := Z.land c 255 in
    stosl m dst
      (s32 (Z.lor (Z.lor (Z.lor (Z.shiftl c 24) (Z.shiftl c 16)) (Z.shiftl c 8)) c))
      (Z.to_nat (n / 4))
  else stosb m dst c (Z.to_nat n).

Fixpoint memcmp (m : mem) (s1 s2 : Z) (n : nat) : Z :=
  match n with
  | O => 0
  | S n => if m s1 =? m s2 then memcmp m (s1 + 1) (s2 + 1) n else m s1 - m s2
  end.

Fixpoint copy_down (m : mem) (d s : Z) (n : nat) : mem :=
  match n with
  | O => m
  | S n => let d := d - 1 in let s := s - 1 in copy_down (mset m d (m s)) d s n
  end.

Fixpoint copy_up (m : mem) (d s : Z) (n : nat) : mem :=
  match n with
  | O => m
  | S n => copy_up (mset m d (m s)) (d + 1) (s + 1) n
  end.

Definition memmove (m : mem) (dst src : Z) (n : nat) : mem :=
  if (src <? dst) && (src + Z.of_nat n >? dst)
  then copy_down m (dst + Z.of_nat n) (src + Z.of_nat n) n
  else copy_up m dst src n.

Definition memcpy (m : mem) (dst src : Z) (n : nat) : mem := memmove m dst src n.

Fixpoint strncmp (m : mem) (p q : Z) (n : nat) : Z :=
  match n with
  | O => 0
  | S n' => if negb (m p =? 0) && (m p =? m q) then strncmp m (p + 1) (q + 1) n'
            else m p - m q
  end.

(** The first loop of strncpy; it returns the memory, [s] and the count left
    after the terminator was copied. *)
Fixpoint strncpy_copy (m : mem) (s t : Z) (n : nat) : mem * Z * nat :=
  match n with
  | O => (m, s, O)
  | S n =>
      let m' := mset m s (m t) in
      if m t =? 0 then (m', s + 1, n) else strncpy_copy m' (s + 1) (t + 1) n
  end.

Definition strncpy (m : mem) (s t n : Z) : mem :=
  let '(m, s, n) := strncpy_copy m s t (Z.to_nat n) in stosb m s 0 n.

(** The copy loop of safestrcpy: [n] counts the copies allowed (the source
    pre-decrements); the terminator goes to where [s] stops. *)
Fixpoint safestrcpy_copy (m : mem) (s t : Z) (n : nat) : mem * Z :=
  match n with
  | O => (m, s)
  | S n =>
      let m' := mset m s (m t) in
      if m t =? 0 then (m', s + 1) else safestrcpy_copy m' (s + 1) (t + 1) n
  end.

Definition safestrcpy (m : mem) (s t n : Z) : mem :=
  if n <=? 0 then m else
  let '(m, s) := safestrcpy_copy m s t (Z.to_nat (n - 1)) in mset m s 0.

(** The scan of strlen; [fuel] bounds the number of bytes looked at. *)
Fixpoint strlen (fuel : nat) (m : mem) (s : Z) : option Z :=
  match fuel with
  | O => None
  | S fuel => if m s =? 0 then Some 0
              else n ← strlen fuel m (s + 1); Some (n + 1)
  end.

End Kernel.

Module User.

Fixpoint strcpy (fuel : nat) (m : mem) (s t : Z) : option mem :=
  match fuel with
  | O => None
  | S fuel =>
      let m' := mset m s (m t) in
      if m t =? 0 then Some m' else strcpy fuel m' (s + 1) (t + 1)
  end.

Fixpoint strcmp (fuel : nat) (m : mem) (p q : Z) : option Z :=
  match fuel with
  | O => None
  | S fuel => if negb (m p =? 0) && (m p =? m q) then strcmp fuel m (p + 1) (q + 1)
              else Some (m p - m q)
  end.

Fixpoint strlen (fuel : nat) (m : mem) (s : Z) : option Z :=
  match fuel with
  | O => None
  | S fuel => if m s =? 0 then Some 0
              else n ← strlen fuel m (s + 1); Some (n + 1)
  end.

Definition memset (m : mem) (dst c n : Z) : mem := stosb m dst c (Z.to_nat n).

(** strchr returns the address of the first [c], 0 (the null pointer) when
    the string has none. *)
Fixpoint strchr (fuel : nat) (m : mem) (s c : Z) : option Z :=
  match fuel with
  | O => None
  | S fuel => if m s =? 0 then Some 0
              else if m s =? c then Some s else strchr fuel m (s + 1) c
  end.

(** gets: [input] is what the successive read(0, &c, 1) calls deliver, its end
    the first call that returns less than 1. *)
Fixpoint gets_loop (m : mem) (buf i max : Z) (input : list Z) : mem * Z * list Z :=
  match input with
  | [] => (m, i, [])
  | c :: rest =>
      if i + 1 <? max then
        let m := mset m (buf + i) c in
        if (c =? 10) || (c =? 13) then (m, i + 1, rest)
        else gets_loop m buf (i + 1) max rest
      else (m, i, input)
  end.

Definition gets (m : mem) (buf max : Z) (input : list Z) : mem * list Z :=
  let '(m, i, rest) := gets_loop m buf 0 max input in (mset m (buf + i) 0, rest).

Fixpoint atoi_loop (fuel : nat) (m : mem) (s n : Z) : option Z :=
  match fuel with
  | O => None
  | S fuel => if (48 <=? m s) && (m s <=? 57)
              then atoi_loop fuel m (s + 1) (s32 (n * 10 + m s - 48)) else Some n
  end.
Definition atoi (fuel : nat) (m : mem) (s : Z) : option Z := atoi_loop fuel m s 0.

(** ulib.c copies upwards whatever the overlap. *)
Definition memmove (m : mem) (vdst vsrc n : Z) : mem :=
  Kernel.copy_up m vdst vsrc (Z.to_nat n).

End User.

Module Util.

Fixpoint util_atoi_loop (fuel : nat) (m : mem) (s n : Z) : option Z :=
  match fuel with
  | O => None
  | S fuel => if (48 <=? m s) && (m s <=? 57)
              then util_atoi_loop fuel m (s + 1) (s32 (n * 10 + m s - 48)) else Some n
  end.
Definition util_atoi (fuel : nat) (m : mem) (s : Z) : option Z := util_atoi_loop fuel m s 0.

Fixpoint util_strcmp (fuel : nat) (m : mem) (p q : Z) : option Z :=
  match fuel with
  | O => None
  | S fuel => if negb (m p =? 0) && (m p =? m q) then util_strcmp fuel m (p + 1) (q + 1)
              else Some (m p - m q)
  end.

End Util.

(** ** Strings as lists

    [cstr m a l]: the bytes of [l], none of them NUL, are at [a], and a NUL
    follows. *)
Fixpoint cstr (m : mem) (a : Z) (l : list Z) : Prop :=
  match l with
  | [] => m a = 0
  | c :: l => m a = c ∧ 0 < c < 256 ∧ cstr m (a + 1) l
  end.

(** The [n] bytes at [a]. *)
Fixpoint bytes_at (m : mem) (a : Z) (n : nat) : list Z :=
  match n with
  | O => []
  | S n => m a :: bytes_at m (a + 1) n
  end.

Definition agree_on (m m' : mem) (lo hi : Z) : Prop := ∀ x, lo <= x < hi → m x = m' x.

Lemma length_bytes_at m a n : length (bytes_at m a n) = n.
Proof. revert a. induction n; intros; simpl; auto. Qed.

Lemma lookup_bytes_at m a n i :
  (i < n)%nat → bytes_at m a n !! i = Some (m (a + Z.of_nat i)).
Proof.
  revert a i. induction n as [|n IH]; intros a [|i] Hi; try lia; simpl.
  - by rewrite Z.add_0_r.
  - rewrite IH by lia. f_equal. f_equal. lia.
Qed.

Lemma bytes_at_ext m m' a n :
  agree_on m m' a (a + Z.of_nat n) → bytes_at m a n = bytes_at m' a n.
Proof.
  intros H. apply list_eq. intros i. destruct (decide (i < n)%nat).
  - rewrite !lookup_bytes_at by done. f_equal. apply H. lia.
  - rewrite !(proj2 (lookup_ge_None _ _)); [done|rewrite length_bytes_at; lia..].
Qed.

Lemma cstr_ext m m' a l :
  agree_on m m' a (a + Z.of_nat (length l) + 1) → cstr m a l → cstr m' a l.
Proof.
  revert a. induction l as [|c l IH]; intros a Ha; simpl in *.
  - rewrite <-Ha by lia. done.
  - intros (<- & Hc & Hl). rewrite Ha by lia. rewrite <-Ha by lia.
    split_and!; [done|lia..|]. apply IH; [|done]. intros x Hx. apply Ha. lia.
Qed.

Lemma cstr_byte m a l i c : cstr m a l → l !! i = Some c → m (a + Z.of_nat i) = c ∧ 0 < c < 256.
Proof.
  revert a i. induction l as [|d l IH]; intros a i; [done|].
  intros (Ha & Hd & Hl). destruct i as [|i]; simpl.
  - intros [= <-]. rewrite Z.add_0_r. done.
  - intros Hi. replace (a + Z.of_nat (S i)) with (a + 1 + Z.of_nat i) by lia. by apply IH.
Qed.

Lemma cstr_inj m a l l' : cstr m a l → cstr m a l' → l = l'.
Proof.
  revert a l'. induction l as [|c l IH]; intros a [|c' l']; simpl; [done|lia..|].
  intros (<- & ? & ?) (<- & ? & ?). f_equal. eauto.
Qed.

(** ** string.c *)

(** Words of memory. *)

Lemma load32_ext m m' a :
  (∀ x, a <= x < a + 4 → m' x = m x) → load32 m' a = load32 m a.
Proof. intros H. unfold load32. by rewrite !H by lia. Qed.

Lemma store32_ne m a v x : ¬ a <= x < a + 4 → store32 m a v x = m x.
Proof. intros H. unfold store32. by rewrite !mset_ne by lia. Qed.

Lemma load32_store32_ne m a b v : a + 4 <= b ∨ b + 4 <= a → load32 (store32 m a v) b = load32 m b.
Proof. intros H. apply load32_ext. intros x Hx. apply store32_ne. lia. Qed.

Lemma load32_store32 m a v : is_u32 v → load32 (store32 m a v) a = v.
Proof.
  intros Hv. unfold load32, store32.
  rewrite (mset_ne _ (a + 3)), (mset_ne _ (a + 2)), (mset_ne _ (a + 1)), mset_eq by lia.
  rewrite (mset_ne _ (a + 3)), (mset_ne _ (a + 2)), mset_eq by lia.
  rewrite (mset_ne _ (a + 3)), mset_eq by lia. rewrite mset_eq. zmod.
Qed.

Lemma store32_ok m a v : mem_ok m → mem_ok (store32 m a v).
Proof. intros. unfold store32. auto using mset_ok. Qed.

Lemma store_bytes_spec m a l x :
  store_bytes m a l x = if decide (a <= x < a + Z.of_nat (length l)) then u8 (getZ l (x - a)) else m x.
Proof.
  revert m a. induction l as [|b l IH]; intros m a; cbn [store_bytes length].
  - case_decide; [lia|done].
  - rewrite IH. repeat case_decide; try lia.
    + f_equal. unfold getZ. replace (Z.to_nat (x - a)) with (S (Z.to_nat (x - (a + 1)))) by lia. done.
    + assert (x = a) as -> by lia. rewrite mset_eq, Z.sub_diag. done.
    + by rewrite mset_ne by lia.
Qed.

Module KernelSpec.
Import Kernel.

Lemma memset_word_bytes c k :
  0 <= k < 4 →
  u8 (s32 (Z.lor (Z.lor (Z.lor (Z.shiftl (Z.land c 255) 24) (Z.shiftl (Z.land c 255) 16))
    (Z.shiftl (Z.land c 255) 8)) (Z.land c 255)) / 256 ^ k) = u8 c.
Proof.
  intros Hk. rewrite (land_mask c 8 255) by done. change (c mod 2 ^ 8) with (u8 c).
  pose proof (u8_range c) as Hc. revert Hc. generalize (u8 c). intros b Hb.
  set (f := λ b, forallb (λ k, u8 (s32 (Z.lor (Z.lor (Z.lor (Z.shiftl b 24)
    (Z.shiftl b 16)) (Z.shiftl b 8)) b) / 256 ^ k) =? b) [0;1;2;3]).
  assert (f b = true) as Hf by (apply byte_forall; [by vm_compute|done]).
  unfold f in Hf. simpl forallb in Hf. rewrite !andb_true_iff, !Z.eqb_eq in Hf.
  destruct Hf as (H0 & H1 & H2 & H3 & _).
  assert (k = 0 ∨ k = 1 ∨ k = 2 ∨ k = 3) as [->|[->|[->| ->]]] by lia; done.
Qed.

Lemma memset_eq m dst c n x :
  0 <= n → memset m dst c n x = if decide (dst <= x < dst + n) then u8 c else m x.
Proof.
  intros Hn. unfold memset.
  destruct ((dst mod 4 =? 0) && (n mod 4 =? 0)) eqn:E.
  - apply andb_true_iff in E as [_ E%Z.eqb_eq]. rewrite stosl_spec.
    rewrite Z2Nat.id by (apply Z.div_pos; lia).
    replace (4 * (n / 4)) with n by zmod. case_decide; [|done].
    apply memset_word_bytes. apply Z.mod_pos_bound. lia.
  - rewrite stosb_spec, Z2Nat.id by done. done.
Qed.

(** memset writes the low byte of [c] to exactly the [n] bytes at [dst],
    whichever of its two paths (words or bytes) it takes. *)
Theorem memset_spec m dst c n x :
  0 <= n → memset m dst c n x = if decide (dst <= x < dst + n) then u8 c else m x.
Proof. apply memset_eq. Qed.

Lemma copy_up_spec m d s n x :
  mem_ok m → d <= s ∨ s + Z.of_nat n <= d →
  copy_up m d s n x = if decide (d <= x < d + Z.of_nat n) then m (s + (x - d)) else m x.
Proof.
  revert m d s. induction n as [|n IH]; intros m d s Hm Hd; simpl.
  - case_decide; [lia|done].
  - rewrite IH by (auto using mset_ok || lia).
    repeat case_decide; try lia.
    + rewrite mset_ne by lia. f_equal. lia.
    + assert (x = d) as -> by lia. rewrite mset_eq, u8_small by apply Hm. f_equal. lia.
    + by rewrite mset_ne by lia.
Qed.

Lemma copy_down_spec m d s n x :
  mem_ok m → s <= d ∨ d <= s - Z.of_nat n →
  copy_down m d s n x =
    if decide (d - Z.of_nat n <= x < d) then m (s - (d - x)) else m x.
Proof.
  revert m d s. induction n as [|n IH]; intros m d s Hm Hd; simpl.
  - case_decide; [lia|done].
  - rewrite IH by (auto using mset_ok || lia).
    repeat case_decide; try lia.
    + rewrite mset_ne by lia. f_equal. lia.
    + assert (x = d - 1) as -> by lia. rewrite mset_eq, u8_small by apply Hm. f_equal. lia.
    + by rewrite mset_ne by lia.
Qed.

Lemma memmove_eq m dst src n x :
  mem_ok m →
  memmove m dst src n x =
    if decide (dst <= x < dst + Z.of_nat n) then m (src + (x - dst)) else m x.
Proof.
  intros Hm. unfold memmove.
  destruct (Z.ltb_spec src dst); simpl; [destruct (Z.gtb_spec (src + Z.of_nat n) dst)|].
  - rewrite copy_down_spec by (done || lia).
    repeat case_decide; (lia || done || (f_equal; lia)).
  - apply copy_up_spec; [done|lia].
  - apply copy_up_spec; [done|lia].
Qed.

(** memmove copies the [n] bytes at [src] as they were before the call to
    [dst], however the two regions overlap, and touches no other byte. *)
Theorem memmove_spec m dst src n x :
  mem_ok m →
  memmove m dst src n x =
    if decide (dst <= x < dst + Z.of_nat n) then m (src + (x - dst)) else m x.
Proof. apply memmove_eq. Qed.

Lemma memcmp_zero m a b n :
  memcmp m a b n = 0 ↔ bytes_at m a n = bytes_at m b n.
Proof.
  revert a b. induction n as [|n IH]; intros a b; simpl; [done|].
  destruct (Z.eqb_spec (m a) (m b)) as [->|Hne].
  - rewrite IH. split; [by intros ->|by intros [= ->]].
  - split; [lia|by intros [=]].
Qed.

(** strncmp returns 0 exactly when the strings agree on their first [n] bytes. *)
Lemma strncmp_zero m p q n lp lq :
  cstr m p lp → cstr m q lq → strncmp m p q n = 0 ↔ take n lp = take n lq.
Proof.
  revert p q lp lq. induction n as [|n IH]; intros p q lp lq Hp Hq; [done|].
  cbn [strncmp]. destruct lp as [|c lp], lq as [|d lq]; cbn [cstr] in Hp, Hq; simpl take.
  - rewrite Hp, Hq. done.
  - destruct Hq as (-> & ? & _). rewrite Hp. simpl. split; [lia|done].
  - destruct Hp as (-> & ? & _). rewrite Hq.
    rewrite (proj2 (Z.eqb_neq c 0)) by lia. simpl. split; [lia|done].
  - destruct Hp as (-> & ? & Hp), Hq as (-> & ? & Hq).
    rewrite (proj2 (Z.eqb_neq c 0)) by lia. simpl.
    destruct (Z.eqb_spec c d) as [->|].
    + rewrite (IH _ _ lp lq) by done. split; [by intros ->|by intros [= ->]].
    + split; [lia|]. intros [=]; lia.
Qed.

Lemma strlen_spec m s l fuel :
  cstr m s l → (length l < fuel)%nat → strlen fuel m s = Some (Z.of_nat (length l)).
Proof.
  revert s l. induction fuel as [|fuel IH]; intros s l Hl Hf; [lia|]. simpl.
  destruct l as [|c l]; simpl in *.
  - by rewrite Hl.
  - destruct Hl as (-> & ? & Hl). rewrite (proj2 (Z.eqb_neq c 0)) by lia.
    rewrite (IH _ l) by (done || lia). simpl. f_equal. lia.
Qed.

(** The part of [l] that a copy limited to [n] bytes reads, its NUL included. *)
Lemma strncpy_copy_spec m s t n l m' s' n' :
  mem_ok m → cstr m t l →
  s + Z.of_nat n <= t ∨ t + Z.of_nat (length l) < s →
  strncpy_copy m s t n = (m', s', n') →
  s' = s + Z.of_nat (Nat.min n (length l + 1)) ∧
  n' = (n - (length l + 1))%nat ∧ mem_ok m' ∧
  ∀ x, m' x = if decide (s <= x < s') then m (t + (x - s)) else m x.
Proof.
  revert m s t l. induction n as [|n IH]; intros m s t l Hm Hl Hd; simpl.
  { intros [= <- <- <-]. split_and!; [lia..|done|]. intros x. case_decide; [lia|done]. }
  destruct l as [|c l]; simpl in Hl, Hd |- *.
  { rewrite Hl. simpl. intros [= <- <- <-]. split_and!; [lia..|by apply mset_ok|].
    intros x. case_decide.
    - assert (x = s) as -> by lia. rewrite mset_eq. replace (t + (s - s)) with t by lia. by rewrite Hl.
    - by rewrite mset_ne by lia. }
  destruct Hl as (Hc & ? & Hl). rewrite Hc, (proj2 (Z.eqb_neq c 0)) by lia.
  intros E. eapply (IH _ _ _ l) in E as (-> & -> & Hm' & Hx); [|by apply mset_ok| |lia].
  2: { eapply cstr_ext; [|done]. intros x Hx. rewrite mset_ne by lia. done. }
  split_and!; [lia|lia|done|]. intros x. rewrite Hx. repeat case_decide; try lia.
  - rewrite mset_ne by lia. f_equal. lia.
  - assert (x = s) as -> by lia. rewrite mset_eq, u8_small by (unfold is_u8; lia).
    rewrite <-Hc. f_equal. lia.
  - by rewrite mset_ne by lia.
Qed.

(** strncpy leaves at [s] the first [n] bytes of the string, padded with
    NULs to exactly [n] bytes, and changes nothing else: the format of a
    directory entry's name. *)
Theorem strncpy_spec m s t n l :
  mem_ok m → cstr m t l →
  s + Z.of_nat n <= t ∨ t + Z.of_nat (length l) < s →
  bytes_at (strncpy m s t (Z.of_nat n)) s n =
    take n l ++ replicate (n - length l) 0 ∧
  ∀ x, ¬ s <= x < s + Z.of_nat n → strncpy m s t (Z.of_nat n) x = m x.
Proof.
  intros Hm Hl Hd. unfold strncpy. rewrite Nat2Z.id.
  destruct (strncpy_copy m s t n) as [[m' s'] n'] eqn:E.
  eapply strncpy_copy_spec in E as (-> & -> & Hm' & Hx); [|done..].
  split; [|intros x Hout; rewrite stosb_spec, Hx; repeat case_decide; lia || done].
  apply list_eq. intros i. destruct (decide (i < n)%nat) as [Hi|Hi].
  2: { rewrite !(proj2 (lookup_ge_None _ _)); [done|..].
       - rewrite length_app, length_take, length_replicate. lia.
       - rewrite length_bytes_at. lia. }
  rewrite lookup_bytes_at, stosb_spec, Hx by done.
  destruct (decide (i < length l)%nat) as [Hil|Hil].
  - rewrite decide_False, decide_True by lia.
    destruct (lookup_lt_is_Some_2 l i Hil) as [c Hc].
    rewrite lookup_app_l, lookup_take_lt, Hc by (rewrite ?length_take; lia). f_equal.
    replace (t + (s + Z.of_nat i - s)) with (t + Z.of_nat i) by lia.
    by apply (cstr_byte m t l).
  - rewrite lookup_app_r by (rewrite length_take; lia).
    rewrite lookup_replicate_2 by (rewrite length_take; lia). f_equal.
    repeat case_decide; try lia; try done.
    replace (t + (s + Z.of_nat i - s)) with (t + Z.of_nat (length l)) by lia.
    clear -Hl. revert t Hl. induction l as [|c l IH]; intros t Hl; simpl in *.
    + by rewrite Z.add_0_r.
    + destruct Hl as (_ & _ & Hl). rewrite <-(IH _ Hl). f_equal. lia.
Qed.

Lemma safestrcpy_copy_eq m s t n :
  safestrcpy_copy m s t n = fst (strncpy_copy m s t n).
Proof.
  revert m s t. induction n as [|n IH]; intros m s t; simpl; [done|].
  by destruct (m t =? 0).
Qed.

Lemma cstr_intro m a l :
  (∀ i c, l !! i = Some c → m (a + Z.of_nat i) = c ∧ 0 < c < 256) →
  m (a + Z.of_nat (length l)) = 0 → cstr m a l.
Proof.
  revert a. induction l as [|c l IH]; intros a Hl Hz; simpl in *.
  - by rewrite Z.add_0_r in Hz.
  - destruct (Hl O c eq_refl) as [H0 Hc]. rewrite Z.add_0_r in H0.
    split_and!; [done|lia..|]. apply IH.
    + intros i d Hi. specialize (Hl (S i) d Hi).
      by replace (a + 1 + Z.of_nat i) with (a + Z.of_nat (S i)) by lia.
    + rewrite <-Hz. f_equal. lia.
Qed.

Lemma cstr_end m a l : cstr m a l → m (a + Z.of_nat (length l)) = 0.
Proof.
  revert a. induction l as [|c l IH]; intros a Hl; simpl in *.
  - by rewrite Z.add_0_r.
  - destruct Hl as (_ & _ & Hl). rewrite <-(IH _ Hl). f_equal. lia.
Qed.

(** safestrcpy always leaves a NUL-terminated string, the first [n-1]
    bytes of the source, and stays inside the [n] bytes of the destination. *)
Theorem safestrcpy_spec m s t n l :
  mem_ok m → cstr m t l → 0 < n → s + n <= t ∨ t + Z.of_nat (length l) < s →
  cstr (safestrcpy m s t n) s (take (Z.to_nat (n - 1)) l) ∧
  ∀ x, ¬ s <= x < s + n → safestrcpy m s t n x = m x.
Proof.
  intros Hm Hl Hn Hd. unfold safestrcpy. rewrite (proj2 (Z.leb_gt n 0)) by lia.
  rewrite safestrcpy_copy_eq.
  destruct (strncpy_copy m s t (Z.to_nat (n - 1))) as [[m' s'] n'] eqn:E.
  eapply strncpy_copy_spec in E as (-> & -> & Hm' & Hx); [|done|done|lia]. cbn [fst].
  split.
  - apply cstr_intro.
    + intros i c Hi. apply lookup_take_Some in Hi as [Hi ?].
      destruct (cstr_byte m t l i c Hl Hi) as [<- ?].
      pose proof (lookup_lt_Some _ _ _ Hi).
      split; [|done]. rewrite mset_ne, Hx, decide_True by lia. f_equal. lia.
    + rewrite length_take. unfold mset.
      destruct (Z.eqb_spec (s + Z.of_nat (Nat.min (Z.to_nat (n - 1)) (length l)))
        (s + Z.of_nat (Nat.min (Z.to_nat (n - 1)) (length l + 1)))); [done|]. rewrite Hx.
      destruct (decide (Z.to_nat (n - 1) <= length l)%nat); [lia|].
      rewrite decide_True by lia. rewrite <-(cstr_end _ _ _ Hl). f_equal. lia.
  - intros x Hout. rewrite mset_ne, Hx by lia. case_decide; [lia|done].
Qed.

(** *** Concrete runs *)

Lemma memset_spec_witness :
  memset (mem_of []) 8 258 6 12 = 2 ∧ memset (mem_of []) 8 258 8 15 = 2.
Proof.
  split.
  - rewrite (memset_spec (mem_of []) 8 258 6 12); [reflexivity|lia].
  - rewrite (memset_spec (mem_of []) 8 258 8 15); [reflexivity|lia].
Defined.

(** Overlapping regions: the three bytes at 1 move to 2. *)
Lemma memmove_spec_witness :
  map (memmove (mem_of [1; 2; 3; 4; 5]) 2 1 3) [0; 1; 2; 3; 4] = [1; 2; 2; 3; 4].
Proof.
  cbn [map]. rewrite !(memmove_spec (mem_of [1; 2; 3; 4; 5]) 2 1 3) by apply mem_of_ok.
  reflexivity.
Defined.

Lemma strncpy_spec_witness :
  bytes_at (strncpy (mem_of [97; 98; 0]) 10 0 (Z.of_nat 4)) 10 4 = [97; 98; 0; 0].
Proof.
  refine (proj1 (strncpy_spec (mem_of [97; 98; 0]) 10 0 4 [97; 98] _ _ _)).
  - apply mem_of_ok.
  - vm_compute. repeat split.
  - simpl. lia.
Defined.

Lemma safestrcpy_spec_witness :
  cstr (safestrcpy (mem_of [120; 118; 54; 47; 97; 0]) 6 0 4) 6 [120; 118; 54].
Proof.
  refine (proj1 (safestrcpy_spec (mem_of [120; 118; 54; 47; 97; 0]) 6 0 4
    [120; 118; 54; 47; 97] _ _ _ _)).
  - apply mem_of_ok.
  - vm_compute. repeat split.
  - lia.
  - simpl. lia.
Defined.

End KernelSpec.

(** ** ulib.c and util.c *)

Module UserSpec.
Import User.

Lemma strcmp_zero fuel m p q lp lq :
  cstr m p lp → cstr m q lq → (length lp < fuel)%nat →
  ∃ r, strcmp fuel m p q = Some r ∧ (r = 0 ↔ lp = lq).
Proof.
  revert p q lp lq. induction fuel as [|fuel IH]; intros p q lp lq Hp Hq Hf; [lia|].
  cbn [strcmp]. destruct lp as [|c lp], lq as [|d lq]; cbn [cstr] in Hp, Hq.
  - rewrite Hp, Hq. by exists 0.
  - destruct Hq as (-> & ? & _). rewrite Hp. simpl. eexists. split; [done|].
    split; [lia|done].
  - destruct Hp as (-> & ? & _). rewrite Hq, (proj2 (Z.eqb_neq c 0)) by lia. simpl.
    eexists. split; [done|]. split; [lia|done].
  - destruct Hp as (-> & ? & Hp), Hq as (-> & ? & Hq).
    rewrite (proj2 (Z.eqb_neq c 0)) by lia. simpl in Hf |- *.
    destruct (Z.eqb_spec c d) as [->|Hne].
    + destruct (IH (p + 1) (q + 1) lp lq) as (r & Hr & Hz); [done|done|lia|].
      exists r. split; [done|]. rewrite Hz. split; [by intros ->|by intros [= ->]].
    + eexists. split; [done|]. split; [lia|intros [=]; lia].
Qed.

(** The value of a string of decimal digits. *)
Definition digits_val (n : Z) (l : list Z) : Z := fold_left (λ n c, n * 10 + (c - 48)) l n.
Definition is_digit (c : Z) : Prop := 48 <= c <= 57.

Lemma digits_val_mono n l : 0 <= n → Forall is_digit l → n <= digits_val n l.
Proof.
  intros Hn Hl. revert n Hn. induction Hl as [|c l Hc Hl IH]; intros n Hn; simpl; [lia|].
  unfold is_digit in Hc. specialize (IH (n * 10 + (c - 48)) ltac:(lia)). lia.
Qed.

Lemma atoi_loop_spec fuel m s n l rest :
  cstr m s (l ++ rest) → Forall is_digit l →
  (∀ c, head rest = Some c → ¬ is_digit c) →
  (length l < fuel)%nat → 0 <= n → digits_val n l < 2147483648 →
  atoi_loop fuel m s n = Some (digits_val n l).
Proof.
  revert s n l. induction fuel as [|fuel IH]; intros s n l Hs Hl Hr Hf Hn Hv; [lia|].
  cbn [atoi_loop]. destruct Hl as [|c l Hc Hl]; cbn [app length cstr] in Hs, Hf.
  - destruct (Z.leb_spec 48 (m s)), (Z.leb_spec (m s) 57); simpl; try done. exfalso.
    destruct rest as [|c rest]; simpl in *; [lia|]. destruct Hs as (Hc & _).
    apply (Hr c eq_refl). unfold is_digit. lia.
  - destruct Hs as (-> & ? & Hs). unfold is_digit in Hc.
    change (digits_val n (c :: l)) with (digits_val (n * 10 + (c - 48)) l) in *.
    rewrite (proj2 (Z.leb_le 48 c)), (proj2 (Z.leb_le c 57)) by lia. simpl.
    pose proof (digits_val_mono (n * 10 + (c - 48)) l ltac:(lia) Hl).
    replace (s32 (n * 10 + c - 48)) with (n * 10 + (c - 48)) by zmod.
    apply IH; done || lia.
Qed.

(** atoi returns the value of the digits the string starts with, when
    that value fits in an int. *)
Theorem atoi_spec fuel m s l rest :
  cstr m s (l ++ rest) → Forall is_digit l →
  (∀ c, head rest = Some c → ¬ is_digit c) →
  (length l < fuel)%nat → digits_val 0 l < 2147483648 →
  atoi fuel m s = Some (digits_val 0 l).
Proof. intros. by eapply atoi_loop_spec. Qed.

(** The kernel's copy of atoi is the same function. *)
Lemma util_atoi_eq fuel m s : Util.util_atoi fuel m s = atoi fuel m s.
Proof. reflexivity. Qed.

Lemma util_strcmp_eq fuel m p q : Util.util_strcmp fuel m p q = strcmp fuel m p q.
Proof. reflexivity. Qed.

Definition is_eol (c : Z) : bool := (c =? 10) || (c =? 13).

(** The input gets consumes: up to [n] characters, up to an end of line. *)
Fixpoint gets_line (n : nat) (input : list Z) : list Z :=
  match n, input with
  | S n, c :: rest => if is_eol c then [c] else c :: gets_line n rest
  | _, _ => []
  end.

Lemma gets_loop_spec m buf i max input m' i' rest :
  0 <= i →
  gets_loop m buf i max input = (m', i', rest) →
  let line := gets_line (Z.to_nat (max - 1 - i)) input in
  input = line ++ rest ∧ i' = i + Z.of_nat (length line) ∧
  (∀ x, m' x = if decide (buf + i <= x < buf + i')
               then u8 (getZ line (x - (buf + i))) else m x).
Proof.
  revert m i. induction input as [|c input IH]; intros m i Hi.
  { simpl. intros [= <- <- <-]. destruct (Z.to_nat _); simpl.
    all: split_and!; [done|lia|]; intros x; case_decide; [lia|done]. }
  cbn [gets_loop]. destruct (Z.ltb_spec (i + 1) max) as [Hmax|Hmax].
  2: { intros [= <- <- <-]. replace (Z.to_nat _) with O by lia. simpl.
       split_and!; [done|lia|]. intros x. case_decide; [lia|done]. }
  replace (Z.to_nat (max - 1 - i)) with (S (Z.to_nat (max - 1 - (i + 1)))) by lia.
  fold (is_eol c). cbn [gets_line]. destruct (is_eol c).
  - intros [= <- <- <-]. simpl. split_and!; [done|lia|]. intros x. case_decide.
    + assert (x = buf + i) as -> by lia. by rewrite mset_eq, Z.sub_diag.
    + by rewrite mset_ne by lia.
  - intros E. apply IH in E as (Hin & -> & Hx); [|lia]. simpl.
    split_and!; [by f_equal|lia|]. intros x. rewrite Hx. repeat case_decide; try lia.
    + f_equal. unfold getZ.
      replace (Z.to_nat (x - (buf + i))) with (S (Z.to_nat (x - (buf + (i + 1))))) by lia.
      done.
    + assert (x = buf + i) as -> by lia. by rewrite mset_eq, Z.sub_diag.
    + by rewrite mset_ne by lia.
Qed.

Lemma length_gets_line n input : (length (gets_line n input) <= n)%nat.
Proof.
  revert input. induction n as [|n IH]; intros [|c input]; simpl; try lia.
  destruct (is_eol c); simpl; [lia|]. specialize (IH input). lia.
Qed.

(** gets stores the next line of the input (at most [max-1] characters),
    NUL-terminated, in the [max] bytes at [buf], leaves the rest of the input
    unread, and changes no other byte. *)
Theorem gets_spec m buf max input :
  0 < max →
  let line := gets_line (Z.to_nat (max - 1)) input in
  let '(m', rest) := gets m buf max input in
  input = line ++ rest ∧
  bytes_at m' buf (length line) = map u8 line ∧ m' (buf + Z.of_nat (length line)) = 0 ∧
  (∀ x, ¬ buf <= x < buf + max → m' x = m x).
Proof.
  intros Hmax line. unfold gets.
  destruct (gets_loop m buf 0 max input) as [[m1 i] rest] eqn:E.
  apply gets_loop_spec in E as (Hin & -> & Hx); [|lia].
  rewrite Z.sub_0_r in *. fold line in Hin, Hx |- *. rewrite Z.add_0_l in *.
  assert (∀ x, m1 x = if decide (buf <= x < buf + Z.of_nat (length line))
    then u8 (getZ line (x - buf)) else m x) as Hx'.
  { intros x. rewrite Hx, !Z.add_0_r. by repeat case_decide. }
  clear Hx. rename Hx' into Hx.
  pose proof (length_gets_line (Z.to_nat (max - 1)) input) as Hlen. fold line in Hlen.
  split_and!; [done| |by rewrite mset_eq|].
  - apply list_eq. intros i. rewrite list_lookup_fmap.
    destruct (decide (i < length line)%nat) as [Hi|Hi].
    + rewrite lookup_bytes_at by done. rewrite mset_ne, Hx by lia.
      rewrite decide_True by lia. unfold getZ.
      replace (Z.to_nat (buf + Z.of_nat i - buf)) with i by lia.
      destruct (lookup_lt_is_Some_2 line i Hi) as [c Hc].
      by rewrite (list_lookup_total_correct _ _ _ Hc), Hc.
    + rewrite !(proj2 (lookup_ge_None _ _)); [done|lia|rewrite length_bytes_at; lia].
  - intros x Hout. rewrite mset_ne, Hx by lia. case_decide; [lia|done].
Qed.

(** ulib.c's memmove is right when the destination is below the source or the
    regions are disjoint. *)
Lemma user_memmove_spec m d s n x :
  mem_ok m → d <= s ∨ s + n <= d → 0 <= n →
  memmove m d s n x = if decide (d <= x < d + n) then m (s + (x - d)) else m x.
Proof.
  intros Hm Hd Hn. unfold memmove.
  rewrite KernelSpec.copy_up_spec by (done || lia). by rewrite Z2Nat.id.
Qed.

(** *** Concrete runs *)

Lemma atoi_spec_witness : atoi 10 (mem_of [52; 50; 120; 0]) 0 = Some 42.
Proof.
  refine (atoi_spec 10 (mem_of [52; 50; 120; 0]) 0 [52; 50] [120] _ _ _ _ _).
  - vm_compute. repeat split.
  - repeat constructor; unfold is_digit; lia.
  - intros c [= <-]. unfold is_digit. lia.
  - simpl. lia.
  - reflexivity.
Defined.

Lemma gets_spec_witness :
  snd (gets (mem_of []) 100 8 [104; 105; 10; 120; 10]) = [120; 10].
Proof.
  pose proof (gets_spec (mem_of []) 100 8 [104; 105; 10; 120; 10] ltac:(lia)) as H.
  destruct (gets (mem_of []) 100 8 [104; 105; 10; 120; 10]) as [m rest].
  destruct H as (H & _). symmetry. exact (f_equal (drop 3) H).
Defined.

End UserSpec.
