(* ===== verification/Sleeplock.v ===== *)
(** * Sleep locks (sleeplock.c), as one thread sees them

    The spin lock inside a sleep lock makes each of these routines one atomic
    section; what is left of acquiresleep's loop is that the thread sleeps while
    the lock is held. [Blocked] is that sleep. *)

From S2P Require Import Prelude.

(** struct sleeplock, without its inner spin lock and debug name. *)
Record sleeplock := Sleeplock { sl_locked : bool; sl_pid : Z }.

Definition initsleeplock : sleeplock := Sleeplock false 0.

Definition acquiresleep (pid : Z) : M sleeplock unit :=
  locked ← gets sl_locked;
  if locked : bool then blocked else modify (λ _, Sleeplock true pid).

Definition releasesleep : M sleeplock unit := modify (λ _, Sleeplock false 0).

Definition holdingsleep : M sleeplock bool := gets sl_locked.

Lemma acquiresleep_free pid lk :
  sl_locked lk = false → acquiresleep pid lk = Ok tt (Sleeplock true pid).
Proof. intros H. unfold acquiresleep, gets, mbind, M_bind. by rewrite H. Qed.

Lemma acquiresleep_held pid lk :
  sl_locked lk = true → acquiresleep pid lk = Blocked lk.
Proof. intros H. unfold acquiresleep, gets, mbind, M_bind. by rewrite H. Qed.
