(* ===== verification/Disk.v ===== *)
(** * Disk blocks, buffers and the disk driver's interface (buf.h, memide.c)

    [buf] is struct buf. [DiskDriver] is what the buffer cache needs of a
    driver: a function [iderw] that reads or writes the block a buffer names;
    [DiskDriverLaws] is its contract. [Memide] is the driver of memide.c, which
    keeps the disk in memory; it satisfies the contract.

    A disk is a function from block numbers to blocks: every access of the
    source moves one whole block. *)

From S2P Require Import Prelude Sleeplock.

Definition BSIZE : nat := 512.
Abbreviation block := (list Z).
Definition zero_block : block := replicate BSIZE 0.

Definition B_VALID : Z := 2.
Definition B_DIRTY : Z := 4.

(** [b_prev], [b_next] and [b_qnext] are indices into the array of buffers. *)
Record buf := Buf {
  b_flags : Z;
  b_dev : Z;
  b_blockno : Z;
  b_lock : sleeplock;
  b_refcnt : Z;
  b_prev : nat;
  b_next : nat;
  b_data : block
}.

Definition buf0 : buf := Buf 0 0 0 initsleeplock 0 0 0 zero_block.
#[export] Instance buf_inhabited : Inhabited buf := populate buf0.

Definition set_flags (v : Z) (b : buf) : buf :=
  Buf v (b_dev b) (b_blockno b) (b_lock b) (b_refcnt b) (b_prev b) (b_next b) (b_data b).
Definition set_lock (v : sleeplock) (b : buf) : buf :=
  Buf (b_flags b) (b_dev b) (b_blockno b) v (b_refcnt b) (b_prev b) (b_next b) (b_data b).
Definition set_refcnt (v : Z) (b : buf) : buf :=
  Buf (b_flags b) (b_dev b) (b_blockno b) (b_lock b) v (b_prev b) (b_next b) (b_data b).
Definition set_prev (v : nat) (b : buf) : buf :=
  Buf (b_flags b) (b_dev b) (b_blockno b) (b_lock b) (b_refcnt b) v (b_next b) (b_data b).
Definition set_next (v : nat) (b : buf) : buf :=
  Buf (b_flags b) (b_dev b) (b_blockno b) (b_lock b) (b_refcnt b) (b_prev b) v (b_data b).
Definition set_data (v : block) (b : buf) : buf :=
  Buf (b_flags b) (b_dev b) (b_blockno b) (b_lock b) (b_refcnt b) (b_prev b) (b_next b) v.

(** Flag tests: [b->flags & m]. *)
Definition has_flag (b : buf) (m : Z) : bool := negb (Z.land (b_flags b) m =? 0).

Lemma has_flag_valid f d n l r p q x :
  has_flag (Buf (Z.lor f B_VALID) d n l r p q x) B_VALID = true.
Proof.
  unfold has_flag, B_VALID. simpl. rewrite negb_true_iff, Z.eqb_neq.
  intros H. apply (f_equal (λ z, Z.testbit z 1)) in H.
  rewrite Z.land_spec, Z.lor_spec, Z.bits_0 in H.
  by destruct (Z.testbit f 1).
Qed.

(** ** The driver *)

Class DiskDriver (D : Type) := {
  iderw : buf → M D buf;
  (** the blocks the disk holds, how many, and the writes so far in order *)
  dd_block : D → Z → block;
  dd_size : D → Z;
  dd_hist : D → list (Z * block);
  dd_dev : Z
}.

(** Where iderw does not panic, it writes a dirty buffer and leaves it clean,
    and fills an invalid one. *)
Class DiskDriverLaws (D : Type) `{DiskDriver D} := {
  dd_dev_pos : dd_dev ≠ 0;
  iderw_write : ∀ b d,
    sl_locked (b_lock b) = true → b_dev b = dd_dev → 0 <= b_blockno b < dd_size d →
    b_flags b = Z.lor B_VALID B_DIRTY → length (b_data b) = BSIZE →
    ∃ d', iderw b d = Ok (set_flags B_VALID b) d' ∧ dd_size d' = dd_size d ∧
      dd_hist d' = dd_hist d ++ [(b_blockno b, b_data b)] ∧
      ∀ n, dd_block d' n = if decide (n = b_blockno b) then b_data b else dd_block d n;
  iderw_read : ∀ b d,
    sl_locked (b_lock b) = true → b_dev b = dd_dev → 0 <= b_blockno b < dd_size d →
    b_flags b = 0 →
    iderw b d = Ok (set_data (dd_block d (b_blockno b)) (set_flags B_VALID b)) d
}.

(** ** memide.c *)

Module Memide.

(** [memdisk] maps the blocks written so far; [hist] records the writes in
    order, the oldest first, for the statements about crashes. *)
Record memide := MkMemide {
  memdisk : gmap Z block;
  disksize : Z;
  hist : list (Z * block)
}.

Definition disk_block (d : memide) (n : Z) : block := default zero_block (memdisk d !! n).

(** ideinit takes the image linked into the kernel. *)
Definition ideinit (fs_img : gmap Z block) (fs_img_size : Z) : memide :=
  MkMemide fs_img (fs_img_size / Z.of_nat BSIZE) [].

Definition ideintr (d : memide) : memide := d.

Definition iderw (b : buf) : M memide buf :=
  panic_if (negb (sl_locked (b_lock b))) "iderw: buf not locked";;
  panic_if (Z.land (b_flags b) (Z.lor B_VALID B_DIRTY) =? B_VALID) "iderw: nothing to do";;
  panic_if (negb (b_dev b =? 1)) "iderw: request not for disk 1";;
  d ← gets id;
  panic_if (disksize d <=? b_blockno b) "iderw: block out of range";;
  b ← (if has_flag b B_DIRTY then
         modify (λ d, MkMemide (<[b_blockno b := b_data b]> (memdisk d)) (disksize d)
                        (hist d ++ [(b_blockno b, b_data b)]));;
         mret (set_flags (Z.land (b_flags b) (Z.lnot B_DIRTY)) b)
       else mret (set_data (disk_block d (b_blockno b)) b));
  mret (set_flags (Z.lor (b_flags b) B_VALID) b).

#[global] Instance memide_driver : DiskDriver memide := {
  iderw := iderw;
  dd_block := disk_block;
  dd_size := disksize;
  dd_hist := hist;
  dd_dev := 1
}.

Lemma iderw_write_eq b d :
  sl_locked (b_lock b) = true → b_dev b = 1 → b_blockno b < disksize d →
  b_flags b = Z.lor B_VALID B_DIRTY →
  iderw b d = Ok (set_flags B_VALID b)
    (MkMemide (<[b_blockno b := b_data b]> (memdisk d)) (disksize d)
       (hist d ++ [(b_blockno b, b_data b)])).
Proof.
  intros Hl Hd Hb Hf. unfold iderw. rewrite Hl, Hd, Hf.
  rewrite !run_panic_if by done. run. rewrite run_panic_if by (by apply Z.leb_gt).
  unfold has_flag. rewrite Hf. done.
Qed.

Lemma iderw_read_eq b d :
  sl_locked (b_lock b) = true → b_dev b = 1 → b_blockno b < disksize d →
  b_flags b = 0 →
  iderw b d = Ok (set_data (disk_block d (b_blockno b)) (set_flags B_VALID b)) d.
Proof.
  intros Hl Hd Hb Hf. unfold iderw. rewrite Hl, Hd, Hf.
  rewrite !run_panic_if by done. run. rewrite run_panic_if by (by apply Z.leb_gt).
  unfold has_flag. rewrite Hf.
  unfold mbind, M_bind, mret, M_ret, set_data, set_flags. simpl. by rewrite Hf.
Qed.

#[global] Instance memide_laws : DiskDriverLaws memide.
Proof.
  split; [done| |].
  - intros b d Hl Hd [_ Hb] Hf Hlen. eexists. split_and!; [by apply iderw_write_eq|done..|].
    intros n. unfold dd_block; simpl. unfold disk_block; simpl.
    destruct (decide (n = b_blockno b)) as [->|Hne].
    + by rewrite lookup_insert_eq.
    + by rewrite lookup_insert_ne.
  - intros b d Hl Hd [_ Hb] Hf. by apply iderw_read_eq.
Qed.

End Memide.
