(* ===== verification/Ring.v ===== *)
(** * Circular doubly-linked lists

    [chain f a l z]: following [f] from [a] goes through the nodes of [l] and
    then reaches [z]. A ring through the nodes [l] and the head [h] is a chain
    of [next] from [h] back to [h] and a chain of [prev] through the reversed
    nodes. The lemmas say what unlinking a node and linking it back at the front
    do to a ring. *)

From S2P Require Import Prelude.

Section ring.
Context {A : Type} `{!EqDecision A}.
Implicit Types (f g n p : A → A) (a x y z h : A) (l : list A).

Fixpoint chain f a l z : Prop :=
  match l with
  | [] => f a = z
  | x :: l => f a = x ∧ chain f x l z
  end.

Lemma chain_app f a l1 x l2 z :
  chain f a (l1 ++ x :: l2) z ↔ chain f a l1 x ∧ chain f x l2 z.
Proof.
  revert a. induction l1 as [|y l1 IH]; intros a; simpl; [done|].
  rewrite IH. tauto.
Qed.

Lemma chain_ext f g a l z :
  (∀ x, x ∈ a :: l → f x = g x) → chain f a l z → chain g a l z.
Proof.
  revert a. induction l as [|y l IH]; intros a Hfg; simpl.
  - by rewrite Hfg by set_solver.
  - rewrite Hfg by set_solver. intros [? Hl]. split; [done|].
    apply IH; [|done]. intros x Hx. apply Hfg. set_solver.
Qed.

Lemma chain_fupd f a l z x v :
  x ∉ a :: l → chain f a l z → chain (fupd f x v) a l z.
Proof.
  intros Hx. apply chain_ext. intros y Hy. rewrite fupd_ne; [done|]. by intros ->.
Qed.

Lemma chain_first f a l z : chain f a l z → f a = hd z l.
Proof. destruct l; simpl; [done|]. by intros [? _]. Qed.

(** The last of [a :: l]. *)
Fixpoint lastd a l : A :=
  match l with
  | [] => a
  | x :: l => lastd x l
  end.

Lemma lastd_snoc a l x : lastd a (l ++ [x]) = x.
Proof. revert a. induction l as [|y l IH]; intros a; simpl; auto. Qed.

Lemma lastd_reverse a l : lastd a (reverse l) = hd a l.
Proof. destruct l as [|x l]; [done|]. by rewrite reverse_cons, lastd_snoc. Qed.

Lemma lastd_elem a l : lastd a l ∈ a :: l.
Proof.
  revert a. induction l as [|x l IH]; intros a; simpl; [set_solver|].
  specialize (IH x). set_solver.
Qed.

Lemma chain_last f a l z : chain f a l z → f (lastd a l) = z.
Proof. revert a. induction l as [|x l IH]; intros a; simpl; naive_solver. Qed.

(** Redirecting the last node of a chain moves its end. *)
Lemma chain_redirect f a l z z' :
  NoDup (a :: l) → chain f a l z → chain (fupd f (lastd a l) z') a l z'.
Proof.
  revert a. induction l as [|x l IH]; intros a Hnd; simpl.
  { intros _. apply fupd_eq. }
  intros [Hx Hl]. apply NoDup_cons in Hnd as [Ha Hnd]. split; [|by apply IH].
  rewrite fupd_ne; [done|]. intros ->. apply Ha, lastd_elem.
Qed.

(** Unlinking [x]. *)
Lemma chain_unlink f h l1 x l2 z :
  NoDup (h :: l1 ++ x :: l2) → chain f h (l1 ++ x :: l2) z →
  chain (fupd f (lastd h l1) (f x)) h (l1 ++ l2) z.
Proof.
  intros Hnd Hc. apply chain_app in Hc as [H1 H2].
  rewrite app_comm_cons in Hnd. apply NoDup_app in Hnd as (Hnd1 & Hd & _).
  pose proof (lastd_elem h l1) as Hlast.
  destruct l2 as [|y l2].
  - rewrite app_nil_r. simpl in H2. rewrite H2. by eapply chain_redirect.
  - destruct H2 as [Hx H2]. rewrite Hx. apply chain_app. split.
    + by eapply chain_redirect.
    + apply chain_fupd; [|done]. intros Hin. apply (Hd _ Hlast). set_solver.
Qed.

(** Linking [x] after the head. *)
Lemma chain_link_front f h l x z :
  x ≠ h → x ∉ l → h ∉ l → chain f h l z →
  chain (fupd (fupd f x (f h)) h x) h (x :: l) z.
Proof.
  intros Hxh Hx Hh Hl. split; [apply fupd_eq|].
  destruct l as [|y l]; simpl in Hl |- *.
  - by rewrite fupd_ne, fupd_eq.
  - destruct Hl as [Hy Hl]. rewrite fupd_ne, fupd_eq by done. split; [done|].
    apply chain_fupd; [done|]. by apply chain_fupd.
Qed.

(** A ring through [h] and [l]. *)
Definition ring n p h l : Prop :=
  NoDup (h :: l) ∧ chain n h l h ∧ chain p h (reverse l) h.

Lemma ring_ext n n' p p' h l :
  (∀ x, n x = n' x) → (∀ x, p x = p' x) → ring n p h l → ring n' p' h l.
Proof. intros Hn Hp (? & ? & ?). split_and!; [done|eapply chain_ext; [|done]; auto..]. Qed.

(** The pointer updates of moving [x] to the front, in the source's order. *)
Definition move_front n p h x : (A → A) * (A → A) :=
  let p1 := fupd p (n x) (p x) in
  let n1 := fupd n (p1 x) (n x) in
  let n2 := fupd n1 x (n1 h) in
  let p2 := fupd p1 x h in
  let p3 := fupd p2 (n2 h) x in
  (fupd n2 h x, p3).

Lemma NoDup_reverse l : NoDup l → NoDup (reverse l).
Proof. intros H. by rewrite reverse_Permutation. Qed.

Lemma chain_range f a l z x : chain f a l z → x ∈ a :: l → f x ∈ l ++ [z].
Proof.
  revert a. induction l as [|y l IH]; intros a; simpl.
  - intros <- Hx. set_solver.
  - intros [<- Hl] [->|Hx]%elem_of_cons; [set_solver|].
    specialize (IH _ Hl Hx). set_solver.
Qed.

Lemma ring_range n p h l x :
  ring n p h l → x ∈ h :: l → n x ∈ h :: l ∧ p x ∈ h :: l.
Proof.
  intros (_ & Hn & Hp) Hx. split.
  - pose proof (chain_range _ _ _ _ _ Hn Hx). set_solver.
  - assert (x ∈ h :: reverse l) as Hx'.
    { rewrite elem_of_cons, elem_of_reverse. by apply elem_of_cons in Hx. }
    pose proof (chain_range _ _ _ _ _ Hp Hx') as H.
    rewrite elem_of_app, elem_of_reverse in H. set_solver.
Qed.

(** The list with [x] taken out. *)
Lemma ring_unlink n p h l1 x l2 :
  ring n p h (l1 ++ x :: l2) →
  ring (fupd n (p x) (n x)) (fupd p (n x) (p x)) h (l1 ++ l2) ∧
  n x ≠ x ∧ p x ≠ x ∧ x ≠ h ∧ x ∉ l1 ++ l2.
Proof.
  intros (Hnd & Hn & Hp).
  assert (NoDup (h :: reverse (l1 ++ x :: l2))) as Hndr.
  { apply NoDup_cons in Hnd as [? ?]. apply NoDup_cons. rewrite elem_of_reverse.
    auto using NoDup_reverse. }
  assert (reverse (l1 ++ x :: l2) = reverse l2 ++ x :: reverse l1) as Hrev.
  { rewrite reverse_app, reverse_cons, <-app_assoc. done. }
  rewrite Hrev in Hp, Hndr.
  assert (p x = lastd h l1) as Hpx.
  { apply chain_app in Hp as [_ Hp]. apply chain_first in Hp.
    by rewrite Hp, <-lastd_reverse, reverse_involutive. }
  assert (n x = lastd h (reverse l2)) as Hnx.
  { apply chain_app in Hn as [_ Hn]. apply chain_first in Hn.
    by rewrite Hn, lastd_reverse. }
  pose proof (lastd_elem h l1). pose proof (lastd_elem h (reverse l2)) as Hl2.
  rewrite elem_of_cons, elem_of_reverse in Hl2.
  apply NoDup_cons in Hnd as [Hh Hnd]. apply NoDup_app in Hnd as (Hnd1 & Hd & Hnd2).
  apply NoDup_cons in Hnd2 as [Hx2 Hnd2].
  split; [|rewrite Hpx, Hnx; split_and!; set_solver].
  split_and!.
  - apply NoDup_cons. split; [set_solver|]. apply NoDup_app. set_solver.
  - rewrite Hpx. apply chain_unlink; [|done].
    apply NoDup_cons. split; [done|]. apply NoDup_app. split_and!; [done..|].
    by apply NoDup_cons.
  - rewrite reverse_app, Hnx. by apply chain_unlink.
Qed.

(** Moving [x] to the front of a ring gives the ring with [x] first. *)
Lemma ring_move_front n p h l1 x l2 :
  ring n p h (l1 ++ x :: l2) →
  ring (fst (move_front n p h x)) (snd (move_front n p h x)) h (x :: l1 ++ l2).
Proof.
  intros Hr. destruct (ring_unlink _ _ _ _ _ _ Hr) as ((Hnd & Hn & Hp) & Hnx & Hpx & Hxh & Hx).
  unfold move_front; simpl. rewrite (fupd_ne p (n x)) by done.
  apply NoDup_cons in Hnd as [Hh Hnd].
  set (n1 := fupd n (p x) (n x)) in *. set (p1 := fupd p (n x) (p x)) in *.
  split_and!.
  - apply NoDup_cons. split; [set_solver|]. by apply NoDup_cons.
  - by apply chain_link_front.
  - rewrite (fupd_ne n1 x) by done. rewrite reverse_cons.
    assert (n1 h = lastd h (reverse (l1 ++ l2))) as ->.
    { rewrite lastd_reverse. by eapply chain_first. }
    assert (x ∉ h :: reverse (l1 ++ l2)) as Hxr.
    { rewrite elem_of_cons, elem_of_reverse. naive_solver. }
    pose proof (lastd_elem h (reverse (l1 ++ l2))).
    apply chain_app. split.
    + eapply chain_redirect.
      * apply NoDup_cons. rewrite elem_of_reverse. auto using NoDup_reverse.
      * by apply chain_fupd.
    + simpl. rewrite fupd_ne, fupd_eq; [done|]. intros ->. done.
Qed.

End ring.
