(* ===== verification/Bio.v ===== *)
(** * The buffer cache (bio.c)

    The array of buffers, with the list head bcache.head at index [NBUF], and
    the doubly-linked LRU list threaded through it by indices, exactly as the
    source threads it by pointers. bcache.lock makes the list operations of
    bget and brelse atomic sections. *)

From S2P Require Import Prelude Sleeplock Disk Ring.

Definition NBUF : nat := 30.

(** The cache, the disk under it and the pid of the running process. *)
Record bcache (D : Type) := Bcache { bc_buf : list buf; bc_drv : D; bc_pid : Z }.
Arguments Bcache {D} _ _ _.
Arguments bc_buf {D} _.
Arguments bc_drv {D} _.
Arguments bc_pid {D} _.

Section bio.
Context {D : Type} `{!DiskDriver D, !DiskDriverLaws D}.
Implicit Types (s : bcache D) (b : nat).

Definition bp s b : buf := bc_buf s !!! b.
Definition upd_buf b (f : buf → buf) s : bcache D :=
  Bcache (alter f b (bc_buf s)) (bc_drv s) (bc_pid s).
Definition set_buf b (f : buf → buf) : M (bcache D) unit := modify (upd_buf b f).

(** ** The operations *)

Definition binit : M (bcache D) unit :=
  set_buf NBUF (set_prev NBUF);;
  set_buf NBUF (set_next NBUF);;
  for_each (seq 0 NBUF) (λ b,
    hn ← gets (λ s, b_next (bp s NBUF));
    set_buf b (set_next hn);;
    set_buf b (set_prev NBUF);;
    set_buf b (set_lock initsleeplock);;
    hn ← gets (λ s, b_next (bp s NBUF));
    set_buf hn (set_prev b);;
    set_buf NBUF (set_next b)).

(** A scan of the list from [b], along [step], for a buffer with [p]. *)
Fixpoint bscan (fuel : nat) (step : buf → nat) (p : buf → bool) b :
    M (bcache D) (option nat) :=
  match fuel with
  | O => no_fuel
  | S fuel =>
      if decide (b = NBUF) then mret None
      else bf ← gets (λ s, bp s b);
           if p bf : bool then mret (Some b) else bscan fuel step p (step bf)
  end.

Definition acquiresleep_buf b : M (bcache D) unit := λ s,
  match acquiresleep (bc_pid s) (b_lock (bp s b)) with
  | Ok _ lk => Ok tt (upd_buf b (set_lock lk) s)
  | Panic msg lk => Panic msg s
  | Blocked lk => Blocked s
  | NoFuel => NoFuel
  end.

Definition releasesleep_buf b : M (bcache D) unit := λ s,
  match releasesleep (b_lock (bp s b)) with
  | Ok _ lk => Ok tt (upd_buf b (set_lock lk) s)
  | Panic msg lk => Panic msg s
  | Blocked lk => Blocked s
  | NoFuel => NoFuel
  end.

Definition bget (dev blockno : Z) : M (bcache D) nat :=
  (* Is the block already cached? *)
  first ← gets (λ s, b_next (bp s NBUF));
  hit ← bscan (S NBUF) b_next
    (λ x, (b_dev x =? dev) && (b_blockno x =? blockno)) first;
  match hit with
  | Some b =>
      n ← gets (λ s, b_refcnt (bp s b));
      set_buf b (set_refcnt (u32 (n + 1)));;
      acquiresleep_buf b;;
      mret b
  | None =>
      (* Not cached; recycle an unused buffer. *)
      last ← gets (λ s, b_prev (bp s NBUF));
      free ← bscan (S NBUF) b_prev
        (λ x, (b_refcnt x =? 0) && (Z.land (b_flags x) B_DIRTY =? 0)) last;
      match free with
      | Some b =>
          set_buf b (λ x, Buf 0 dev blockno (b_lock x) 1 (b_prev x) (b_next x) (b_data x));;
          acquiresleep_buf b;;
          mret b
      | None => panic "bget: no buffers"
      end
  end.

(** The driver is called with the buffer, which it changes. *)
Definition call_iderw b : M (bcache D) unit := λ s,
  match iderw (bp s b) (bc_drv s) with
  | Ok x d => Ok tt (Bcache (alter (λ _, x) b (bc_buf s)) d (bc_pid s))
  | Panic msg d => Panic msg (Bcache (bc_buf s) d (bc_pid s))
  | Blocked d => Blocked (Bcache (bc_buf s) d (bc_pid s))
  | NoFuel => NoFuel
  end.

Definition bread (dev blockno : Z) : M (bcache D) nat :=
  b ← bget dev blockno;
  f ← gets (λ s, b_flags (bp s b));
  (if Z.land f B_VALID =? 0 then call_iderw b else mret tt);;
  mret b.

Definition bwrite b : M (bcache D) unit :=
  held ← gets (λ s, sl_locked (b_lock (bp s b)));
  panic_if (negb held) "bwrite";;
  set_buf b (λ x, set_flags (Z.lor (b_flags x) B_DIRTY) x);;
  call_iderw b.

(** The list operations of brelse: buffer [b] moves to the front of the list. *)
Definition to_front b : M (bcache D) unit :=
  x ← gets (λ s, bp s b);
  set_buf (b_next x) (set_prev (b_prev x));;
  x ← gets (λ s, bp s b);
  set_buf (b_prev x) (set_next (b_next x));;
  hn ← gets (λ s, b_next (bp s NBUF));
  set_buf b (set_next hn);;
  set_buf b (set_prev NBUF);;
  hn ← gets (λ s, b_next (bp s NBUF));
  set_buf hn (set_prev b);;
  set_buf NBUF (set_next b).

Definition brelse b : M (bcache D) unit :=
  held ← gets (λ s, sl_locked (b_lock (bp s b)));
  panic_if (negb held) "brelse";;
  releasesleep_buf b;;
  set_buf b (λ x, set_refcnt (u32 (b_refcnt x - 1)) x);;
  n ← gets (λ s, b_refcnt (bp s b));
  if n =? 0 then
    (* no one is waiting for it *)
    to_front b
  else mret tt.

(** Direct access to [bp->data]. *)
Definition bdata b s : block := b_data (bp s b).
Definition bstore b (d : block) : M (bcache D) unit := set_buf b (set_data d).
Definition bupd b (f : block → block) : M (bcache D) unit := d ← gets (bdata b); bstore b (f d).

(** ** The invariant

    One thread runs, so a buffer is referenced at most once, by the thread that
    holds its lock. *)

Record buf_ok (d : D) (x : buf) : Prop := {
  ok_len : length (b_data x) = BSIZE;
  ok_ref : (b_refcnt x = 0 ∧ sl_locked (b_lock x) = false) ∨
           (b_refcnt x = 1 ∧ sl_locked (b_lock x) = true);
  ok_flags : (b_flags x = 0 ∧ b_dev x = 0 ∧ b_refcnt x = 0) ∨
             ((b_flags x = B_VALID ∨ b_flags x = Z.lor B_VALID B_DIRTY) ∧
              b_dev x = dd_dev ∧ 0 <= b_blockno x < dd_size d);
  ok_clean : b_flags x = B_VALID → b_refcnt x = 0 → b_data x = dd_block d (b_blockno x)
}.

Record bc_inv s : Prop := {
  inv_len : length (bc_buf s) = S NBUF;
  inv_ring : ∃ order, order ≡ₚ seq 0 NBUF ∧
    ring (λ i, b_next (bp s i)) (λ i, b_prev (bp s i)) NBUF order;
  inv_uniq : ∀ i j, (i < NBUF)%nat → (j < NBUF)%nat →
    b_dev (bp s i) = dd_dev → b_dev (bp s j) = dd_dev →
    b_blockno (bp s i) = b_blockno (bp s j) → i = j;
  inv_bufs : ∀ i, (i < NBUF)%nat → buf_ok (bc_drv s) (bp s i);
  inv_blocks : ∀ n, length (dd_block (bc_drv s) n) = BSIZE
}.

(** Buffer [i] caches block [n]. *)
Definition caches s i (n : Z) : Prop :=
  (i < NBUF)%nat ∧ b_dev (bp s i) = dd_dev ∧ b_blockno (bp s i) = n.

Definition dirty s i : Prop := b_flags (bp s i) = Z.lor B_VALID B_DIRTY.
Definition held s i : Prop := b_refcnt (bp s i) = 1.

#[export] Instance caches_dec s i n : Decision (caches s i n).
Proof. unfold caches. apply _. Defined.
#[export] Instance dirty_dec s i : Decision (dirty s i).
Proof. unfold dirty. apply _. Defined.

(** What reading block [n] gives: the cached copy if there is one. *)
Definition view s (n : Z) : block :=
  match list_find (λ i, caches s i n) (seq 0 NBUF) with
  | Some (_, i) => b_data (bp s i)
  | None => dd_block (bc_drv s) n
  end.

Lemma view_hit s i n : bc_inv s → caches s i n → view s n = b_data (bp s i).
Proof.
  intros Hs Hi. unfold view. destruct (list_find _ _) as [[k j]|] eqn:E.
  - apply list_find_Some in E as (_ & Hj & _).
    destruct Hi as (? & ? & ?), Hj as (? & ? & ?). do 2 f_equal.
    apply (inv_uniq s Hs); congruence.
  - apply list_find_None in E. rewrite Forall_forall in E. exfalso.
    apply (E i); [|done]. apply elem_of_seq. destruct Hi. lia.
Qed.

Lemma view_miss s n : (∀ i, ¬ caches s i n) → view s n = dd_block (bc_drv s) n.
Proof.
  intros H. unfold view. destruct (list_find _ _) as [[k j]|] eqn:E; [|done].
  apply list_find_Some in E as (_ & Hj & _). by destruct (H j).
Qed.

Lemma caches_inj s i j n : bc_inv s → caches s i n → caches s j n → i = j.
Proof.
  intros Hs (? & ? & ?) (? & ? & ?). apply (inv_uniq s Hs); congruence.
Qed.

Lemma length_view s n : bc_inv s → length (view s n) = BSIZE.
Proof.
  intros Hs. unfold view. destruct (list_find _ _) as [[k j]|] eqn:E.
  - apply list_find_Some in E as (_ & [Hj _] & _). by apply (inv_bufs s Hs).
  - apply (inv_blocks s Hs).
Qed.

(** ** Primitive steps *)

Lemma bp_upd s b f i :
  (b < length (bc_buf s))%nat →
  bp (upd_buf b f s) i = if decide (i = b) then f (bp s b) else bp s i.
Proof.
  intros Hb. unfold bp, upd_buf; simpl. rewrite !list_lookup_total_alt.
  destruct (decide (i = b)) as [->|Hne].
  - rewrite list_lookup_alter_eq.
    by destruct (lookup_lt_is_Some_2 (bc_buf s) b Hb) as [x ->].
  - by rewrite list_lookup_alter_ne by congruence.
Qed.

Lemma bp_upd_eq s b f : (b < length (bc_buf s))%nat → bp (upd_buf b f s) b = f (bp s b).
Proof. intros. rewrite bp_upd by done. by rewrite decide_True. Qed.

Lemma bp_upd_ne s b f i : i ≠ b → bp (upd_buf b f s) i = bp s i.
Proof.
  intros Hne. unfold bp, upd_buf; simpl.
  by rewrite !list_lookup_total_alt, list_lookup_alter_ne by congruence.
Qed.

Lemma length_upd s b f : length (bc_buf (upd_buf b f s)) = length (bc_buf s).
Proof. apply length_alter. Qed.

Lemma run_set_buf {B} b f (k : unit → M (bcache D) B) s :
  (set_buf b f ≫= k) s = k tt (upd_buf b f s).
Proof. done. Qed.

Lemma bscan_chain s step p a l fuel :
  chain (λ i, step (bp s i)) a l NBUF → NBUF ∉ l → (length l < fuel)%nat →
  ∃ r, bscan fuel step p (step (bp s a)) s = Ok r s ∧
    match r with
    | Some b => b ∈ l ∧ p (bp s b) = true
    | None => ∀ b, b ∈ l → p (bp s b) = false
    end.
Proof.
  revert a fuel. induction l as [|x l IH]; intros a fuel Hc Hl Hf;
    (destruct fuel as [|fuel]; simpl in Hf; [lia|]); cbn [bscan].
  - simpl in Hc. rewrite Hc, decide_True by done. exists None. split; [done|set_solver].
  - destruct Hc as [-> Hc]. rewrite decide_False by set_solver. run.
    destruct (p (bp s x)) eqn:E.
    + exists (Some x). split; [done|]. split; [set_solver|done].
    + destruct (IH x fuel) as (r & Hr & Hp); [done|set_solver|lia|].
      exists r. split; [done|]. destruct r; [set_solver|].
      intros b [->|Hb]%elem_of_cons; auto.
Qed.

Lemma upd_upd b f g s : upd_buf b g (upd_buf b f s) = upd_buf b (λ x, g (f x)) s.
Proof.
  unfold upd_buf; simpl. f_equal. generalize (bc_buf s). intros l. revert b.
  induction l as [|x l IH]; intros [|b]; simpl; [done..|]. f_equal. apply IH.
Qed.

Lemma upd_ext s b f g :
  (b < length (bc_buf s))%nat → f (bp s b) = g (bp s b) → upd_buf b f s = upd_buf b g s.
Proof.
  intros Hb Hfg. unfold upd_buf. f_equal. apply list_eq. intros i.
  destruct (decide (i = b)) as [->|Hne].
  - rewrite !list_lookup_alter_eq. unfold bp in Hfg. rewrite list_lookup_total_alt in Hfg.
    destruct (lookup_lt_is_Some_2 (bc_buf s) b Hb) as [x Hx]. rewrite Hx in *. simpl in *.
    by rewrite Hfg.
  - by rewrite !list_lookup_alter_ne by congruence.
Qed.

Lemma run_acquiresleep {B} b (k : unit → M (bcache D) B) s :
  sl_locked (b_lock (bp s b)) = false →
  (acquiresleep_buf b ≫= k) s = k tt (upd_buf b (set_lock (Sleeplock true (bc_pid s))) s).
Proof.
  intros H. unfold acquiresleep_buf, mbind at 1, M_bind at 1.
  by rewrite acquiresleep_free.
Qed.

(** A step that keeps a buffer's links preserves the invariant when the new
    buffer is well formed and caches a block no other buffer caches. *)
Lemma inv_upd s b f d :
  bc_inv s → (b < NBUF)%nat →
  b_prev (f (bp s b)) = b_prev (bp s b) → b_next (f (bp s b)) = b_next (bp s b) →
  (∀ i n, i ≠ b → caches s i n → b_dev (f (bp s b)) = dd_dev → b_blockno (f (bp s b)) ≠ n) →
  (∀ n, length (dd_block d n) = BSIZE) →
  (∀ i, (i < NBUF)%nat → i ≠ b → buf_ok d (bp s i)) →
  buf_ok d (f (bp s b)) →
  bc_inv (Bcache (bc_buf (upd_buf b f s)) d (bc_pid s)).
Proof.
  intros Hs Hb Hp Hn Huniq Hd Hoth Hok.
  assert (∀ i, bp (Bcache (bc_buf (upd_buf b f s)) d (bc_pid s)) i =
    if decide (i = b) then f (bp s b) else bp s i) as Hbp.
  { intros i. rewrite <-bp_upd by (rewrite (inv_len s Hs); lia). done. }
  split; simpl bc_drv.
  - simpl. by rewrite length_alter, (inv_len s Hs).
  - destruct (inv_ring s Hs) as (order & Hperm & Hring). exists order. split; [done|].
    eapply ring_ext; [..|done]; intros i; simpl; rewrite Hbp; case_decide; congruence.
  - intros i j Hi Hj. rewrite !Hbp. repeat case_decide; subst; intros.
    + done.
    + exfalso. eapply (Huniq j); [done|by split_and!|done|done].
    + exfalso. eapply (Huniq i); [done|by split_and!|done|done].
    + by apply (inv_uniq s Hs).
  - intros i Hi. rewrite Hbp. case_decide; auto.
  - done.
Qed.

Lemma inv_upd_same s b f :
  bc_inv s → (b < NBUF)%nat →
  b_prev (f (bp s b)) = b_prev (bp s b) → b_next (f (bp s b)) = b_next (bp s b) →
  (∀ i n, i ≠ b → caches s i n → b_dev (f (bp s b)) = dd_dev → b_blockno (f (bp s b)) ≠ n) →
  buf_ok (bc_drv s) (f (bp s b)) →
  bc_inv (upd_buf b f s).
Proof.
  intros Hs Hb Hp Hn Hu Hok. eapply (inv_upd s b f (bc_drv s)); eauto.
  - apply (inv_blocks s Hs).
  - intros. by apply (inv_bufs s Hs).
Qed.

Lemma caches_upd s b f i n :
  bc_inv s → (b < NBUF)%nat →
  caches (upd_buf b f s) i n ↔
    if decide (i = b) then b_dev (f (bp s b)) = dd_dev ∧ b_blockno (f (bp s b)) = n
    else caches s i n.
Proof.
  intros Hs Hb. unfold caches. rewrite bp_upd by (rewrite (inv_len s Hs); lia).
  case_decide; subst; naive_solver.
Qed.

(** ** bget *)

Lemma bget_hit s b n :
  bc_inv s → caches s b n → b_refcnt (bp s b) = 0 →
  bget dd_dev n s = Ok b (upd_buf b (λ x, set_lock (Sleeplock true (bc_pid s)) (set_refcnt 1 x)) s).
Proof.
  intros Hs Hc Href. pose proof Hc as (Hb & Hdev & Hn).
  destruct (inv_ring s Hs) as (order & Hperm & (Hnd & Hnext & _)).
  apply NoDup_cons in Hnd as [Hh _].
  destruct (bscan_chain s b_next (λ x, (b_dev x =? dd_dev) && (b_blockno x =? n))
    NBUF order (S NBUF) Hnext Hh) as (r & Hr & Hp).
  { rewrite Hperm, length_seq. lia. }
  unfold bget. run. rewrite (bind_run _ _ _ _ _ Hr). destruct r as [b'|].
  2: { exfalso. specialize (Hp b). rewrite Hdev, Hn, !Z.eqb_refl in Hp.
       discriminate Hp. rewrite Hperm. apply elem_of_seq. lia. }
  destruct Hp as [Hin Hp]. rewrite andb_true_iff, !Z.eqb_eq in Hp. destruct Hp as [Hd' Hn'].
  assert (b' = b) as ->.
  { eapply (caches_inj s); [done| |done]. split; [|done].
    rewrite Hperm, elem_of_seq in Hin. lia. }
  run. rewrite run_set_buf, Href.
  destruct (ok_ref _ _ (inv_bufs s Hs b Hb)) as [[_ Hl]|[? _]]; [|lia].
  rewrite run_acquiresleep, upd_upd.
  - done.
  - rewrite bp_upd_eq by (rewrite (inv_len s Hs); lia). done.
Qed.

Lemma bget_miss s n :
  bc_inv s → (∀ i, ¬ caches s i n) →
  (∃ i, (i < NBUF)%nat ∧ b_refcnt (bp s i) = 0 ∧ ¬ dirty s i) →
  ∃ b, bget dd_dev n s = Ok b (upd_buf b (λ x,
         Buf 0 dd_dev n (Sleeplock true (bc_pid s)) 1 (b_prev x) (b_next x) (b_data x)) s) ∧
    (b < NBUF)%nat ∧ b_refcnt (bp s b) = 0 ∧ ¬ dirty s b.
Proof.
  intros Hs Hmiss (i & Hi & Hiref & Hidirty).
  destruct (inv_ring s Hs) as (order & Hperm & (Hnd & Hnext & Hprev)).
  apply NoDup_cons in Hnd as [Hh _].
  assert (∀ b, b ∈ order ↔ (b < NBUF)%nat) as Hord.
  { intros b. rewrite Hperm, elem_of_seq. lia. }
  destruct (bscan_chain s b_next (λ x, (b_dev x =? dd_dev) && (b_blockno x =? n))
    NBUF order (S NBUF) Hnext Hh) as (r & Hr & Hp).
  { rewrite Hperm, length_seq. lia. }
  unfold bget. run. rewrite (bind_run _ _ _ _ _ Hr). destruct r as [b'|].
  { destruct Hp as [Hin Hp]. rewrite andb_true_iff, !Z.eqb_eq in Hp.
    exfalso. apply (Hmiss b'). by split; [apply Hord|]. }
  run. clear Hr Hp.
  destruct (bscan_chain s b_prev (λ x, (b_refcnt x =? 0) && (Z.land (b_flags x) B_DIRTY =? 0))
    NBUF (reverse order) (S NBUF) Hprev) as (r & Hr & Hp).
  { by rewrite elem_of_reverse. }
  { rewrite length_reverse, Hperm, length_seq. lia. }
  rewrite (bind_run _ _ _ _ _ Hr). destruct r as [b|].
  - destruct Hp as [Hin Hp]. rewrite andb_true_iff, !Z.eqb_eq in Hp. destruct Hp as [Href Hd].
    rewrite elem_of_reverse, Hord in Hin.
    exists b. split_and!; [|done|done|].
    + rewrite run_set_buf. destruct (ok_ref _ _ (inv_bufs s Hs b Hin)) as [[_ Hl]|[? _]]; [|lia].
      rewrite run_acquiresleep, upd_upd; [done|].
      rewrite bp_upd_eq by (rewrite (inv_len s Hs); lia). done.
    + intros Hdi. unfold dirty in Hdi. by rewrite Hdi in Hd.
  - exfalso. specialize (Hp i). rewrite elem_of_reverse, Hord, Hiref in Hp.
    specialize (Hp Hi). simpl in Hp. rewrite Z.eqb_neq in Hp. apply Hp.
    destruct (ok_flags _ _ (inv_bufs s Hs i Hi)) as [(-> & _)|([->|Hd] & _)]; done.
Qed.

(** ** Specifications

    In terms of what clients see: the contents of blocks ([view]), which
    buffers are held, which blocks are dirty, and the disk. *)

Definition heldblk s i (n : Z) : Prop := caches s i n ∧ held s i.
Definition dirtyblk s (n : Z) : Prop := ∃ i, caches s i n ∧ dirty s i.

(** A buffer that may be recycled exists. *)
Definition has_free s : Prop :=
  ∃ i, (i < NBUF)%nat ∧ b_refcnt (bp s i) = 0 ∧ ¬ dirty s i.

Lemma not_held_refcnt s i n :
  bc_inv s → caches s i n → ¬ held s i → b_refcnt (bp s i) = 0.
Proof.
  intros Hs (Hi & _) Hh. by destruct (ok_ref _ _ (inv_bufs s Hs i Hi)) as [[? _]|[? _]].
Qed.

Lemma caches_flags s i n :
  bc_inv s → caches s i n →
  (b_flags (bp s i) = B_VALID ∨ b_flags (bp s i) = Z.lor B_VALID B_DIRTY) ∧
  0 <= n < dd_size (bc_drv s).
Proof.
  intros Hs (Hi & Hd & <-). destruct (ok_flags _ _ (inv_bufs s Hs i Hi)) as [(_ & H0 & _)|(? & _ & ?)].
  - exfalso. by apply dd_dev_pos; rewrite <-Hd.
  - done.
Qed.

Lemma dirty_uncached s i :
  bc_inv s → (i < NBUF)%nat → dirty s i → caches s i (b_blockno (bp s i)).
Proof.
  intros Hs Hi Hd. destruct (ok_flags _ _ (inv_bufs s Hs i Hi)) as [(H & _)|(_ & ? & _)].
  - unfold dirty in Hd. by rewrite Hd in H.
  - by split_and!.
Qed.

(** The state bread leaves: buffer [b], with its new contents [x]. *)
Lemma bread_run s n :
  bc_inv s → 0 <= n < dd_size (bc_drv s) → (∀ i, ¬ heldblk s i n) →
  (∃ i, caches s i n) ∨ has_free s →
  ∃ b f, bread dd_dev n s = Ok b (upd_buf b (λ x,
      Buf f dd_dev n (Sleeplock true (bc_pid s)) 1 (b_prev x) (b_next x) (view s n)) s) ∧
    (b < NBUF)%nat ∧ b_refcnt (bp s b) = 0 ∧
    ((caches s b n ∧ f = b_flags (bp s b)) ∨
     ((∀ i, ¬ caches s i n) ∧ ¬ dirty s b ∧ f = B_VALID)).
Proof.
  intros Hs Hn Hnh Hav. unfold bread.
  destruct (list_find (λ i, caches s i n) (seq 0 NBUF)) as [[k b]|] eqn:E.
  - apply list_find_Some in E as (_ & Hc & _).
    pose proof (not_held_refcnt s b n Hs Hc ltac:(intros ?; by apply (Hnh b))) as Href.
    pose proof Hc as (Hb & Hdev & Hblk). exists b, (b_flags (bp s b)).
    split_and!; [|done|done|by left]. rewrite (bind_run _ _ _ _ _ (bget_hit s b n Hs Hc Href)).
    run. rewrite bp_upd_eq by (rewrite (inv_len s Hs); lia). simpl.
    destruct (caches_flags s b n Hs Hc) as [Hf _].
    assert ((Z.land (b_flags (bp s b)) B_VALID =? 0) = false) as ->.
    { by destruct Hf as [->| ->]. }
    unfold mbind, M_bind, mret, M_ret. f_equal. rewrite (view_hit s b n Hs Hc).
    apply upd_ext; [rewrite (inv_len s Hs); lia|].
    destruct (bp s b); simpl in *. by subst.
  - apply list_find_None in E. rewrite Forall_forall in E.
    assert (∀ i, ¬ caches s i n) as Hmiss.
    { intros i Hi. eapply (E i); [|done]. apply elem_of_seq. destruct Hi. lia. }
    destruct Hav as [[i Hi]|Hav]; [by destruct (Hmiss i)|].
    destruct (bget_miss s n Hs Hmiss Hav) as (b & Hrun & Hb & Href & Hnd).
    exists b, B_VALID. split_and!; [|done|done|by right]. rewrite (bind_run _ _ _ _ _ Hrun).
    run. rewrite bp_upd_eq by (rewrite (inv_len s Hs); lia). simpl.
    unfold call_iderw at 1, mbind, M_bind. rewrite bp_upd_eq by (rewrite (inv_len s Hs); lia).
    rewrite iderw_read by done. simpl. unfold mret, M_ret.
    f_equal. rewrite (view_miss s n Hmiss). etransitivity; [apply upd_upd|].
    apply upd_ext; [rewrite (inv_len s Hs); lia|done].
Qed.

#[export] Instance caches_other_dec s b m : Decision (∃ i, i ≠ b ∧ caches s i m).
Proof.
  destruct (list_find (λ i, i ≠ b ∧ caches s i m) (seq 0 NBUF)) as [[k i]|] eqn:E.
  - left. apply list_find_Some in E as (_ & H & _). by exists i.
  - right. apply list_find_None in E. rewrite Forall_forall in E.
    intros (i & Hne & Hi). eapply (E i); [|done]. apply elem_of_seq. destruct Hi. lia.
Defined.

Lemma held_upd s b f i :
  bc_inv s → (b < NBUF)%nat →
  held (upd_buf b f s) i ↔ if decide (i = b) then b_refcnt (f (bp s b)) = 1 else held s i.
Proof.
  intros Hs Hb. unfold held. rewrite bp_upd by (rewrite (inv_len s Hs); lia).
  by case_decide.
Qed.

Lemma dirty_upd s b f i :
  bc_inv s → (b < NBUF)%nat →
  dirty (upd_buf b f s) i ↔
    if decide (i = b) then b_flags (f (bp s b)) = Z.lor B_VALID B_DIRTY else dirty s i.
Proof.
  intros Hs Hb. unfold dirty. rewrite bp_upd by (rewrite (inv_len s Hs); lia).
  by case_decide.
Qed.

(** The contents seen after buffer [b] changed. *)
Lemma view_upd s b f m :
  bc_inv s → bc_inv (upd_buf b f s) → (b < NBUF)%nat →
  view (upd_buf b f s) m =
    if decide (caches (upd_buf b f s) b m) then b_data (f (bp s b))
    else if decide (caches s b m) then dd_block (bc_drv s) m else view s m.
Proof.
  intros Hs Hs' Hb. destruct (decide (caches (upd_buf b f s) b m)) as [Hc|Hnc].
  { rewrite (view_hit _ b m Hs' Hc). by rewrite bp_upd_eq by (rewrite (inv_len s Hs); lia). }
  destruct (decide (∃ i, i ≠ b ∧ caches s i m)) as [(i & Hne & Hi)|Hno]; cycle 1.
  - rewrite (view_miss (upd_buf b f s)).
    + case_decide as Hcb; [done|]. rewrite view_miss; [done|].
      intros i Hi. destruct (decide (i = b)) as [->|]; [done|]. apply Hno. eauto.
    + intros i Hi. destruct (decide (i = b)) as [->|Hne]; [done|]. apply Hno. exists i.
      split; [done|]. apply caches_upd in Hi; [|done..]. by rewrite decide_False in Hi.
  - assert (caches (upd_buf b f s) i m) as Hi'.
    { apply caches_upd; [done..|]. by rewrite decide_False. }
    rewrite (view_hit _ _ _ Hs' Hi'), bp_upd_ne by done.
    rewrite decide_False; [by rewrite (view_hit s i m)|].
    intros Hcb. apply Hne. by eapply (caches_inj s).
Qed.

Record bread_post s n b s' : Prop := {
  bread_inv : bc_inv s';
  bread_drv : bc_drv s' = bc_drv s;
  bread_pid : bc_pid s' = bc_pid s;
  bread_new : ¬ held s b;
  bread_held : ∀ i m, heldblk s' i m ↔ (i = b ∧ m = n) ∨ heldblk s i m;
  bread_view : ∀ m, view s' m = view s m;
  bread_dirty : ∀ m, dirtyblk s' m ↔ dirtyblk s m
}.

Lemma bread_spec s n :
  bc_inv s → 0 <= n < dd_size (bc_drv s) → (∀ i, ¬ heldblk s i n) →
  (∃ i, caches s i n) ∨ has_free s →
  ∃ b s', bread dd_dev n s = Ok b s' ∧ bread_post s n b s'.
Proof.
  intros Hs Hn Hnh Hav.
  destruct (bread_run s n Hs Hn Hnh Hav) as (b & f & Hrun & Hb & Href & Hcase).
  set (g := λ x : buf, Buf f dd_dev n (Sleeplock true (bc_pid s)) 1 (b_prev x) (b_next x)
    (view s n)) in *.
  assert (f = B_VALID ∨ f = Z.lor B_VALID B_DIRTY) as Hf.
  { destruct Hcase as [[Hc ->]|(_ & _ & ->)]; [|by left]. by eapply caches_flags. }
  assert (¬ held s b) as Hnew by (unfold held; lia).
  assert (∀ i, i ≠ b → ¬ caches s i n) as Hother.
  { intros i Hi Hc. destruct Hcase as [[Hcb _]|(Hno & _)]; [|by eapply Hno].
    by apply Hi; eapply (caches_inj s). }
  assert (bc_inv (upd_buf b g s)) as Hs'.
  { apply inv_upd_same; [done..| |].
    - intros i m Hi Hc _ Hm. simpl in Hm. subst m. by eapply Hother.
    - split; simpl; [by apply length_view|by right|by right|lia]. }
  exists b, (upd_buf b g s). split; [done|]. split; [done..| | |].
  - intros i m. unfold heldblk. rewrite caches_upd, held_upd by done. case_decide; subst; simpl.
    + naive_solver.
    + naive_solver.
  - intros m. rewrite view_upd by done.
    destruct (decide (caches (upd_buf b g s) b m)) as [Hm|Hm];
      rewrite caches_upd, decide_True in Hm by done; simpl in Hm.
    { by destruct Hm as [_ ->]. }
    destruct (decide (caches s b m)) as [Hcb|]; [|done].
    destruct Hcase as [[Hc _]|(_ & Hnd & _)].
    { destruct Hc as (_ & _ & <-), Hcb as (_ & _ & <-). by destruct Hm. }
    destruct (caches_flags s b m Hs Hcb) as [[Hfl|Hfl] _]; [|done].
    rewrite (view_hit s b m) by done. destruct Hcb as (_ & _ & <-).
    symmetry. by apply (ok_clean _ _ (inv_bufs s Hs b Hb)).
  - intros m. unfold dirtyblk. split; intros (i & Hi & Hd).
    + rewrite caches_upd in Hi by done. rewrite dirty_upd in Hd by done.
      destruct (decide (i = b)) as [->|]; [|by exists i]. simpl in Hi, Hd.
      destruct Hi as [_ <-]. destruct Hcase as [[Hc ->]|(_ & _ & ->)]; [by exists b|done].
    + exists i. rewrite caches_upd, dirty_upd by done.
      destruct (decide (i = b)) as [->|]; [|done]. simpl.
      destruct Hcase as [[Hc ->]|(_ & Hnd & _)]; [|done].
      split; [|done]. split; [done|]. destruct Hc as (_ & _ & <-). by destruct Hi as (_ & _ & <-).
Qed.

(** An update of a held buffer's data and flags. *)
Record touch_post s b n (fl : Z) (x : block) s' : Prop := {
  touch_inv : bc_inv s';
  touch_pid : bc_pid s' = bc_pid s;
  touch_held : ∀ i m, heldblk s' i m ↔ heldblk s i m;
  touch_view : ∀ m, view s' m = if decide (m = n) then x else view s m;
  touch_dirty : ∀ m, dirtyblk s' m ↔
    if decide (m = n) then fl = Z.lor B_VALID B_DIRTY else dirtyblk s m
}.

Lemma held_lt s b n : heldblk s b n → (b < NBUF)%nat.
Proof. by intros [[? _] _]. Qed.

Lemma touch s b n fl x :
  bc_inv s → heldblk s b n → fl = B_VALID ∨ fl = Z.lor B_VALID B_DIRTY →
  length x = BSIZE →
  touch_post s b n fl x (upd_buf b (λ y, set_data x (set_flags fl y)) s).
Proof.
  intros Hs [Hc Hh] Hfl Hx. pose proof Hc as (Hb & Hdev & Hn).
  set (g := λ y, set_data x (set_flags fl y)).
  destruct (caches_flags s b n Hs Hc) as [_ Hrange].
  assert (bc_inv (upd_buf b g s)) as Hs'.
  { apply inv_upd_same; [done..| |].
    - intros i m Hi Hcm _ Hm. apply Hi. eapply (caches_inj s); [done..|].
      split_and!; [done..|]. by simpl in Hm.
    - destruct (inv_bufs s Hs b Hb) as [_ Hr _ _]. split; simpl; [done|done| |].
      + right. rewrite Hn. done.
      + unfold held in Hh. lia. }
  assert (∀ m, caches (upd_buf b g s) b m ↔ m = n) as Hcb.
  { intros m. rewrite caches_upd, decide_True by done. simpl. naive_solver. }
  split; [done..| | |].
  - intros i m. unfold heldblk. rewrite caches_upd, held_upd by done.
    case_decide; subst; simpl; [|done]. unfold caches. naive_solver.
  - intros m. rewrite view_upd by done.
    destruct (decide (caches (upd_buf b g s) b m)) as [Hm|Hm]; rewrite Hcb in Hm.
    { by rewrite decide_True. }
    rewrite (decide_False (P := m = n)) by done.
    destruct (decide (caches s b m)) as [(_ & _ & Hm')|]; [|done]. congruence.
  - intros m. unfold dirtyblk. destruct (decide (m = n)) as [->|Hm].
    + split.
      * intros (i & Hi & Hd). destruct (decide (i = b)) as [->|Hne].
        { rewrite dirty_upd, decide_True in Hd by done. done. }
        exfalso. rewrite caches_upd, decide_False in Hi by done. by eapply Hne, (caches_inj s).
      * intros Hd. exists b. rewrite Hcb, dirty_upd, decide_True by done. done.
    + split; intros (i & Hi & Hd).
      * destruct (decide (i = b)) as [->|Hne]; [by apply Hcb in Hi|].
        exists i. rewrite caches_upd, decide_False in Hi by done.
        rewrite dirty_upd, decide_False in Hd by done. done.
      * destruct (decide (i = b)) as [->|Hne].
        { destruct Hi as (_ & _ & Hi). congruence. }
        exists i. rewrite caches_upd, dirty_upd, !decide_False by done. done.
Qed.

Lemma held_view s b n : bc_inv s → heldblk s b n → view s n = bdata b s.
Proof. intros Hs [Hc _]. by apply view_hit. Qed.

Lemma bstore_spec s b n x :
  bc_inv s → heldblk s b n → length x = BSIZE →
  ∃ s' fl, bstore b x s = Ok tt s' ∧ bc_drv s' = bc_drv s ∧ touch_post s b n fl x s' ∧
    (fl = Z.lor B_VALID B_DIRTY ↔ dirtyblk s n).
Proof.
  intros Hs Hh Hx. exists (upd_buf b (set_data x) s), (b_flags (bp s b)).
  pose proof Hh as [Hc _]. pose proof Hc as (Hb & _).
  destruct (caches_flags s b n Hs Hc) as [Hfl _].
  split_and!; [done..| |].
  - replace (upd_buf b (set_data x) s) with
      (upd_buf b (λ y, set_data x (set_flags (b_flags (bp s b)) y)) s); [by apply touch|].
    apply upd_ext; [rewrite (inv_len s Hs); lia|]. by destruct (bp s b).
  - split; [intros H; by exists b|]. intros (i & Hi & Hd).
    by rewrite (caches_inj s b i n) by done.
Qed.

Definition mark_dirty b : M (bcache D) unit :=
  set_buf b (λ x, set_flags (Z.lor (b_flags x) B_DIRTY) x).

Lemma mark_dirty_spec s b n :
  bc_inv s → heldblk s b n →
  ∃ s', mark_dirty b s = Ok tt s' ∧ bc_drv s' = bc_drv s ∧
    touch_post s b n (Z.lor B_VALID B_DIRTY) (view s n) s'.
Proof.
  intros Hs Hh. eexists. split_and!; [done..|].
  pose proof Hh as [Hc _]. pose proof Hc as (Hb & _).
  destruct (caches_flags s b n Hs Hc) as [Hfl _].
  replace (upd_buf b (λ x, set_flags (Z.lor (b_flags x) B_DIRTY) x) s) with
    (upd_buf b (λ y, set_data (view s n) (set_flags (Z.lor B_VALID B_DIRTY) y)) s).
  - apply touch; auto using length_view.
  - apply upd_ext; [rewrite (inv_len s Hs); lia|]. rewrite (held_view s b n) by done.
    unfold bdata. destruct (bp s b); simpl in *. by destruct Hfl as [->| ->].
Qed.

Definition set_drv (d : D) s : bcache D := Bcache (bc_buf s) d (bc_pid s).

(** Replacing the disk by one that agrees on the blocks held clean in the cache. *)
Lemma set_drv_inv s d :
  bc_inv s → dd_size d = dd_size (bc_drv s) → (∀ n, length (dd_block d n) = BSIZE) →
  (∀ i n, caches s i n → ¬ held s i → dd_block d n = dd_block (bc_drv s) n) →
  bc_inv (set_drv d s).
Proof.
  intros [Hl Hr Hu Hb Hbl] Hsz Hlen Heq. split; [done..| |done].
  intros i Hi. destruct (Hb i Hi) as [H1 H2 H3 H4]. split; [done|done| |].
  - simpl. by rewrite Hsz.
  - simpl. intros Hf Href. rewrite Heq with (i := i); [by apply H4| |].
    + split_and!; [done| |done]. destruct H3 as [(H3 & _)|(_ & ? & _)]; [|done].
      change (b_flags (bp s i) = B_VALID) in Hf. by rewrite H3 in Hf.
    + unfold held. change (b_refcnt (bp s i) = 0) in Href. lia.
Qed.

Lemma set_drv_view s d n :
  (∀ n, (∀ i, ¬ caches s i n) → dd_block d n = dd_block (bc_drv s) n) →
  view (set_drv d s) n = view s n.
Proof.
  intros Heq. unfold view.
  change (λ i, caches (set_drv d s) i n) with (λ i, caches s i n).
  change (λ x, caches_dec (set_drv d s) x n) with (λ x, caches_dec s x n).
  destruct (list_find _ _) as [[k j]|] eqn:E; [done|].
  apply Heq. intros i Hi. apply list_find_None in E. rewrite Forall_forall in E.
  eapply (E i); [|done]. apply elem_of_seq. destruct Hi. lia.
Qed.

Record bwrite_post s b n s' : Prop := {
  bwrite_inv : bc_inv s';
  bwrite_pid : bc_pid s' = bc_pid s;
  bwrite_size : dd_size (bc_drv s') = dd_size (bc_drv s);
  bwrite_hist : dd_hist (bc_drv s') = dd_hist (bc_drv s) ++ [(n, view s n)];
  bwrite_disk : ∀ m, dd_block (bc_drv s') m =
    if decide (m = n) then view s n else dd_block (bc_drv s) m;
  bwrite_held : ∀ i m, heldblk s' i m ↔ heldblk s i m;
  bwrite_view : ∀ m, view s' m = view s m;
  bwrite_dirty : ∀ m, dirtyblk s' m ↔ m ≠ n ∧ dirtyblk s m
}.

Lemma bwrite_spec s b n :
  bc_inv s → heldblk s b n → ∃ s', bwrite b s = Ok tt s' ∧ bwrite_post s b n s'.
Proof.
  intros Hs Hh. pose proof Hh as [Hc Hheld]. pose proof Hc as (Hb & Hdev & Hn).
  destruct (caches_flags s b n Hs Hc) as [Hfl Hrange].
  destruct (inv_bufs s Hs b Hb) as [Hlen Href _ _].
  assert (sl_locked (b_lock (bp s b)) = true) as Hlock.
  { unfold held in Hheld. destruct Href as [[? _]|[_ ?]]; [lia|done]. }
  set (x := set_flags (Z.lor B_VALID B_DIRTY) (bp s b)).
  destruct (iderw_write x (bc_drv s)) as (d' & Hrun & Hsz & Hhist & Hblk); try done.
  { by unfold x; simpl; rewrite Hn. }
  assert (view s n = b_data (bp s b)) as Hview by by apply held_view.
  destruct (touch s b n B_VALID (view s n)) as [Hi1 _ Hh1 Hv1 Hd1];
    [done|done|by left|by apply length_view|].
  set (s1 := upd_buf b _ s) in *.
  assert (∀ m, dd_block d' m = if decide (m = n) then view s n else dd_block (bc_drv s) m) as Hblk'.
  { intros m. rewrite Hblk. unfold x; simpl. by rewrite Hn, Hview. }
  exists (set_drv d' s1). split.
  - unfold bwrite. run. rewrite Hlock, run_panic_if, run_set_buf by done.
    unfold call_iderw. rewrite bp_upd_eq by (rewrite (inv_len s Hs); lia).
    replace (set_flags (Z.lor (b_flags (bp s b)) B_DIRTY) (bp s b)) with x
      by (unfold x; by destruct Hfl as [->| ->]).
    change (bc_drv (upd_buf b _ s)) with (bc_drv s).
    rewrite Hrun. f_equal. unfold set_drv. f_equal.
    pose proof (upd_upd b (λ x, set_flags (Z.lor (b_flags x) B_DIRTY) x)
      (λ _, set_flags B_VALID x) s) as Hu.
    apply (f_equal bc_buf) in Hu. simpl in Hu |- *. rewrite Hu.
    assert (b < length (bc_buf s))%nat as Hbl by (rewrite (inv_len s Hs); lia).
    refine (f_equal bc_buf (upd_ext s b _ _ Hbl _)). rewrite Hview.
    unfold x. by destruct (bp s b).
  - split; try done.
    + apply set_drv_inv; [done|done| |].
      * intros m. rewrite Hblk'. case_decide; [by apply length_view|apply (inv_blocks s Hs)].
      * intros i m Hi Hnh. rewrite Hblk', decide_False; [done|]. intros ->.
        apply Hnh. assert (heldblk s1 b n) as [Hcb Hhb] by by apply Hh1.
        by rewrite (caches_inj s1 i b n).
    + simpl. rewrite Hhist, Hview. unfold x; simpl. by rewrite Hn.
    + intros m. rewrite set_drv_view.
      * rewrite Hv1. by case_decide; subst.
      * intros k Hk. rewrite Hblk', decide_False; [done|]. intros ->.
        apply (Hk b). by apply Hh1.
    + intros m. etransitivity; [apply Hd1|]. case_decide; naive_solver.
Qed.

(** *** brelse *)

(** A step that changes only the links of the list. *)
Record links_only s s' : Prop := {
  links_len : length (bc_buf s') = length (bc_buf s);
  links_drv : bc_drv s' = bc_drv s;
  links_pid : bc_pid s' = bc_pid s;
  links_eq : ∀ i, set_prev 0 (set_next 0 (bp s' i)) = set_prev 0 (set_next 0 (bp s i))
}.

#[export] Instance links_only_preorder : PreOrder links_only.
Proof.
  split; [done|]. intros s1 s2 s3 [? ? ? H1] [? ? ? H2].
  split; [congruence..|]. intros i. by rewrite H2, H1.
Qed.

Lemma links_set_prev s i v : links_only s (upd_buf i (set_prev v) s).
Proof.
  split; [apply length_alter|done..|]. intros j.
  destruct (decide (i < length (bc_buf s))%nat).
  - rewrite bp_upd by done. by case_decide; subst.
  - unfold upd_buf, bp; simpl. rewrite !list_lookup_total_alt, list_lookup_alter.
    case_decide; [subst|done]. by rewrite lookup_ge_None_2 by lia.
Qed.

Lemma links_set_next s i v : links_only s (upd_buf i (set_next v) s).
Proof.
  split; [apply length_alter|done..|]. intros j.
  destruct (decide (i < length (bc_buf s))%nat).
  - rewrite bp_upd by done. by case_decide; subst.
  - unfold upd_buf, bp; simpl. rewrite !list_lookup_total_alt, list_lookup_alter.
    case_decide; [subst|done]. by rewrite lookup_ge_None_2 by lia.
Qed.

Definition nexts s : nat → nat := λ i, b_next (bp s i).
Definition prevs s : nat → nat := λ i, b_prev (bp s i).

Lemma nexts_set_next s i v j :
  (i < length (bc_buf s))%nat → nexts (upd_buf i (set_next v) s) j = fupd (nexts s) i v j.
Proof. intros Hi. unfold nexts, fupd. rewrite bp_upd by done. by case_decide. Qed.
Lemma prevs_set_prev s i v j :
  (i < length (bc_buf s))%nat → prevs (upd_buf i (set_prev v) s) j = fupd (prevs s) i v j.
Proof. intros Hi. unfold prevs, fupd. rewrite bp_upd by done. by case_decide. Qed.

Lemma nexts_set_prev s i v j : nexts (upd_buf i (set_prev v) s) j = nexts s j.
Proof.
  unfold nexts. pose proof (links_set_prev s i v) as H.
  destruct (decide (i < length (bc_buf s))%nat).
  - rewrite bp_upd by done. by case_decide; subst.
  - unfold upd_buf, bp; simpl. rewrite !list_lookup_total_alt, list_lookup_alter.
    case_decide; [subst|done]. by rewrite lookup_ge_None_2 by lia.
Qed.
Lemma prevs_set_next s i v j : prevs (upd_buf i (set_next v) s) j = prevs s j.
Proof.
  unfold prevs. destruct (decide (i < length (bc_buf s))%nat).
  - rewrite bp_upd by done. by case_decide; subst.
  - unfold upd_buf, bp; simpl. rewrite !list_lookup_total_alt, list_lookup_alter.
    case_decide; [subst|done]. by rewrite lookup_ge_None_2 by lia.
Qed.

Lemma to_front_spec s b l1 l2 :
  length (bc_buf s) = S NBUF → l1 ++ b :: l2 ≡ₚ seq 0 NBUF →
  ring (nexts s) (prevs s) NBUF (l1 ++ b :: l2) →
  ∃ s', to_front b s = Ok tt s' ∧ links_only s s' ∧
    b :: l1 ++ l2 ≡ₚ seq 0 NBUF ∧ ring (nexts s') (prevs s') NBUF (b :: l1 ++ l2).
Proof.
  intros Hlen Hperm Hring.
  destruct (ring_unlink _ _ _ _ _ _ Hring) as (Hun & Hnx & Hpx & Hbh & Hb).
  assert (∀ i, i ∈ NBUF :: l1 ++ b :: l2 → (i < length (bc_buf s))%nat) as Hlt.
  { intros i Hi. rewrite Hlen. rewrite Hperm, elem_of_cons, elem_of_seq in Hi. lia. }
  assert (b ∈ NBUF :: l1 ++ b :: l2) as Hb' by set_solver.
  destruct (ring_range _ _ _ _ b Hring Hb') as [Hnb Hpb].
  destruct (ring_range _ _ _ _ NBUF Hun ltac:(set_solver)) as [Hh1 _].
  set (n := nexts s) in *. set (p := prevs s) in *.
  assert (fupd n (p b) (n b) NBUF ∈ NBUF :: l1 ++ b :: l2) as Hh1' by set_solver.
  pose proof (ring_move_front _ _ _ _ _ _ Hring) as Hmf. unfold move_front in Hmf; simpl in Hmf.
  set (s1 := upd_buf (n b) (set_prev (p b)) s).
  set (s2 := upd_buf (prevs s1 b) (set_next (nexts s1 b)) s1).
  set (s3 := upd_buf b (set_next (nexts s2 NBUF)) s2).
  set (s4 := upd_buf b (set_prev NBUF) s3).
  set (s5 := upd_buf (nexts s4 NBUF) (set_prev b) s4).
  set (s6 := upd_buf NBUF (set_next b) s5).
  exists s6. split_and!; [done| | |].
  { unfold s6, s5, s4, s3, s2, s1.
    etransitivity; [|apply links_set_next]. etransitivity; [|apply links_set_prev].
    etransitivity; [|apply links_set_prev]. etransitivity; [|apply links_set_next].
    etransitivity; [|apply links_set_next]. apply links_set_prev. }
  { rewrite <-Hperm. by rewrite Permutation_middle. }
  assert (∀ j, prevs s1 j = fupd p (n b) (p b) j) as Hp1.
  { intros j. apply prevs_set_prev, Hlt, Hnb. }
  assert (∀ j, nexts s1 j = n j) as Hn1 by (intros j; apply nexts_set_prev).
  assert (prevs s1 b = p b) as Hp1b by (by rewrite Hp1, fupd_ne by done).
  assert (∀ j, nexts s2 j = fupd n (p b) (n b) j) as Hn2.
  { intros j. unfold s2. rewrite nexts_set_next, Hp1b, Hn1.
    - unfold fupd. case_decide; [done|apply Hn1].
    - rewrite Hp1b. unfold s1. rewrite length_upd. by apply Hlt. }
  assert (∀ j, prevs s2 j = fupd p (n b) (p b) j) as Hp2.
  { intros j. unfold s2. by rewrite prevs_set_next, Hp1. }
  assert (∀ j, nexts s3 j = fupd (fupd n (p b) (n b)) b (fupd n (p b) (n b) NBUF) j) as Hn3.
  { intros j. unfold s3. rewrite nexts_set_next, Hn2.
    - unfold fupd at 1 3. case_decide; [done|apply Hn2].
    - unfold s2, s1. rewrite !length_upd. by apply Hlt. }
  assert (∀ j, prevs s4 j = fupd (fupd p (n b) (p b)) b NBUF j) as Hp4.
  { intros j. unfold s4. rewrite prevs_set_prev.
    - unfold fupd at 1 2. case_decide; [done|]. unfold s3. by rewrite prevs_set_next, Hp2.
    - unfold s3, s2, s1. rewrite !length_upd. by apply Hlt. }
  assert (nexts s4 NBUF = fupd n (p b) (n b) NBUF) as Hn4.
  { unfold s4. rewrite nexts_set_prev, Hn3, fupd_ne; congruence. }
  rewrite (fupd_ne p (n b)) in Hmf by done. rewrite (fupd_ne (fupd n (p b) (n b)) b _ NBUF) in Hmf by congruence.
  eapply ring_ext; [..|apply Hmf]; intros j.
  - unfold s6. rewrite nexts_set_next.
    + apply fupd_ext. intros i. unfold s5, s4. by rewrite !nexts_set_prev, Hn3.
    + unfold s5, s4, s3, s2, s1. rewrite !length_upd, Hlen. lia.
  - unfold s6. rewrite prevs_set_next. unfold s5. rewrite prevs_set_prev, Hn4.
    + apply fupd_ext. intros i. by rewrite Hp4.
    + rewrite Hn4. unfold s4, s3, s2, s1. rewrite !length_upd. by apply Hlt.
Qed.

Lemma bp_links s s' i :
  links_only s s' →
  bp s' i = set_prev (b_prev (bp s' i)) (set_next (b_next (bp s' i)) (bp s i)).
Proof.
  intros H. pose proof (links_eq _ _ H i) as He.
  destruct (bp s' i), (bp s i). unfold set_prev, set_next in *. simpl in *. congruence.
Qed.

Lemma caches_links s s' i n : links_only s s' → caches s' i n ↔ caches s i n.
Proof. intros H. unfold caches. by rewrite (bp_links s s' i H). Qed.
Lemma held_links s s' i : links_only s s' → held s' i ↔ held s i.
Proof. intros H. unfold held. by rewrite (bp_links s s' i H). Qed.
Lemma dirty_links s s' i : links_only s s' → dirty s' i ↔ dirty s i.
Proof. intros H. unfold dirty. by rewrite (bp_links s s' i H). Qed.

Lemma inv_links s s' order :
  bc_inv s → links_only s s' → order ≡ₚ seq 0 NBUF → ring (nexts s') (prevs s') NBUF order →
  bc_inv s'.
Proof.
  intros [Hl Hr Hu Hb Hbl] H Hperm Hring. split.
  - by rewrite (links_len _ _ H).
  - by exists order.
  - intros i j Hi Hj. rewrite (bp_links s s' i H), (bp_links s s' j H). simpl. by apply Hu.
  - intros i Hi. rewrite (bp_links s s' i H), (links_drv _ _ H).
    destruct (Hb i Hi). by split.
  - by rewrite (links_drv _ _ H).
Qed.

Lemma view_links s s' n : bc_inv s → bc_inv s' → links_only s s' → view s' n = view s n.
Proof.
  intros Hs Hs' H. unfold view at 2.
  destruct (list_find (λ i, caches s i n) (seq 0 NBUF)) as [[k j]|] eqn:E.
  - apply list_find_Some in E as (_ & Hj & _). rewrite (view_hit s' j n Hs').
    + by rewrite (bp_links s s' j H).
    + by apply (caches_links s).
  - rewrite view_miss; [by rewrite (links_drv _ _ H)|].
    apply list_find_None in E. rewrite Forall_forall in E.
    intros i Hi%(caches_links s); [|done]. eapply (E i); [|done].
    apply elem_of_seq. destruct Hi. lia.
Qed.

Record brelse_post s b s' : Prop := {
  brelse_inv : bc_inv s';
  brelse_drv : bc_drv s' = bc_drv s;
  brelse_pid : bc_pid s' = bc_pid s;
  brelse_held : ∀ i m, heldblk s' i m ↔ i ≠ b ∧ heldblk s i m;
  brelse_view : ∀ m, view s' m = view s m;
  brelse_dirty : ∀ m, dirtyblk s' m ↔ dirtyblk s m
}.

Lemma brelse_run s b n l1 l2 :
  bc_inv s → heldblk s b n → dirtyblk s n ∨ view s n = dd_block (bc_drv s) n →
  ring (nexts s) (prevs s) NBUF (l1 ++ b :: l2) → l1 ++ b :: l2 ≡ₚ seq 0 NBUF →
  ∃ s', brelse b s = Ok tt s' ∧ ring (nexts s') (prevs s') NBUF (b :: l1 ++ l2) ∧
    brelse_post s b s'.
Proof.
  intros Hs Hh Hclean Hring Hperm. pose proof Hh as [Hc Hheld]. pose proof Hc as (Hb & Hdev & Hn).
  assert (b < length (bc_buf s))%nat as Hbl by (rewrite (inv_len s Hs); lia).
  destruct (inv_bufs s Hs b Hb) as [Hlen Href Hfl _].
  assert (sl_locked (b_lock (bp s b)) = true) as Hlock.
  { unfold held in Hheld. destruct Href as [[? _]|[_ ?]]; [lia|done]. }
  set (g := λ x, set_refcnt 0 (set_lock (Sleeplock false 0) x)).
  set (s1 := upd_buf b g s).
  assert (bc_inv s1) as Hs1.
  { apply inv_upd_same; [done..| |].
    - intros i m Hi Hcm _ Hm. apply Hi. eapply (caches_inj s); [done..|].
      by split_and!.
    - split; simpl; [done|by left|naive_solver|]. intros Hf _.
      rewrite Hn. destruct Hclean as [(i & Hi & Hd)|Hv].
      + rewrite (caches_inj s i b n) in Hd by done. unfold dirty in Hd. by rewrite Hf in Hd.
      + by rewrite <-Hv, (view_hit s b n). }
  destruct (to_front_spec s1 b l1 l2) as (s' & Hrun & Hlinks & Hperm' & Hring').
  { apply (inv_len s1 Hs1). } { done. }
  { eapply ring_ext; [..|done]; intros j; unfold s1, nexts, prevs;
      (destruct (decide (j = b)) as [->|]; [by rewrite bp_upd_eq by done|by rewrite bp_upd_ne]). }
  exists s'. pose proof (inv_links _ _ _ Hs1 Hlinks Hperm' Hring') as Hs'. split_and!; [|done|].
  - unfold brelse. run. rewrite Hlock, run_panic_if by done.
    unfold releasesleep_buf, mbind at 1, M_bind at 1. cbn [releasesleep modify].
    unfold releasesleep, modify. rewrite run_set_buf. run. rewrite upd_upd.
    rewrite bp_upd_eq by done. simpl. rewrite Hheld.
    replace (upd_buf b _ s) with s1; [done|]. apply upd_ext; [done|].
    unfold g, set_refcnt, set_lock; simpl. by rewrite Hheld.
  - split; [done|by rewrite (links_drv _ _ Hlinks)|by rewrite (links_pid _ _ Hlinks)| | |].
    + intros i m. unfold heldblk. rewrite (caches_links s1), (held_links s1) by done.
      unfold s1. rewrite caches_upd, held_upd by done.
      destruct (decide (i = b)); subst; simpl; naive_solver lia.
    + intros m. rewrite (view_links s1) by done. unfold s1. rewrite view_upd by done.
      destruct (decide (caches (upd_buf b g s) b m)) as [Hm|Hm];
        rewrite caches_upd, decide_True in Hm by done; simpl in Hm.
      * by rewrite (view_hit s b m).
      * rewrite decide_False; [done|]. intros (_ & _ & ?). by destruct Hm.
    + intros m. unfold dirtyblk. apply exist_proper. intros i.
      rewrite (caches_links s1), (dirty_links s1) by done. unfold s1.
      rewrite caches_upd, dirty_upd by done. unfold caches, dirty.
      destruct (decide (i = b)); subst; simpl; naive_solver.
Qed.

Lemma brelse_spec s b n :
  bc_inv s → heldblk s b n → dirtyblk s n ∨ view s n = dd_block (bc_drv s) n →
  ∃ s', brelse b s = Ok tt s' ∧ brelse_post s b s'.
Proof.
  intros Hs Hh Hclean. destruct (inv_ring s Hs) as (order & Hperm & Hring).
  assert (b ∈ order) as Hin by (rewrite Hperm, elem_of_seq; destruct Hh as [[? _] _]; lia).
  apply list_elem_of_split in Hin as (l1 & l2 & ->).
  destruct (brelse_run s b n l1 l2) as (s' & Hrun & _ & Hpost); [done..|]. by exists s'.
Qed.

(** *** Boot *)

(** bcache lies in the BSS segment: all zeros. *)
Definition bcache0 (d : D) (pid : Z) : bcache D := Bcache (replicate (S NBUF) buf0) d pid.

Lemma binit_run d pid :
  ∃ s, binit (bcache0 d pid) = Ok tt s ∧ bc_drv s = d ∧ bc_pid s = pid ∧
    length (bc_buf s) = S NBUF ∧
    ring (nexts s) (prevs s) NBUF (rev (seq 0 NBUF)) ∧
    Forall (λ x, b_flags x = 0 ∧ b_dev x = 0 ∧ b_refcnt x = 0 ∧
                 b_lock x = initsleeplock ∧ length (b_data x) = BSIZE) (bc_buf s).
Proof.
  eexists. split_and!; [vm_compute; reflexivity|done|done|done| |].
  - vm_compute. split_and!; try done. apply (bool_decide_unpack _). by vm_compute.
  - repeat constructor.
Qed.

(** Nothing is cached, held or dirty. *)
Definition empty_cache s : Prop :=
  bc_inv s ∧ (∀ i n, ¬ caches s i n) ∧ (∀ n, view s n = dd_block (bc_drv s) n).

Lemma binit_empty d pid :
  (∀ n, length (dd_block d n) = BSIZE) →
  ∃ s, binit (bcache0 d pid) = Ok tt s ∧ bc_drv s = d ∧ bc_pid s = pid ∧ empty_cache s.
Proof.
  intros Hd. destruct (binit_run d pid) as (s & Hrun & Hdrv & Hpid & Hlen & Hring & Hall).
  exists s. split_and!; [done..|]. rewrite Forall_lookup in Hall.
  assert (∀ i, (i < NBUF)%nat → bc_buf s !! i = Some (bp s i)) as Hbp.
  { intros i Hi. apply list_lookup_lookup_total_lt. lia. }
  assert (∀ i n, ¬ caches s i n) as Hnc.
  { intros i n (Hi & Hdev & _). destruct (Hall i _ (Hbp i Hi)) as (_ & Hz & _).
    pose proof dd_dev_pos. congruence. }
  split_and!; [split|done|].
  - done.
  - exists (rev (seq 0 NBUF)). split; [by rewrite rev_alt, <-reverse_Permutation|done].
  - intros i j Hi _ Hdi. by destruct (Hnc i (b_blockno (bp s i))).
  - intros i Hi. destruct (Hall i _ (Hbp i Hi)) as (Hf & Hdev & Hr & Hl & Hlend). split.
    + done.
    + left. by rewrite Hl.
    + by left.
    + intros Hf'. by rewrite Hf in Hf'.
  - intros n. by rewrite Hdrv.
  - intros n. by apply view_miss.
Qed.

(** *** Room in the cache *)

(** A buffer can be recycled when the blocks held or dirty number less than [NBUF]. *)
Lemma has_free_intro s (X : list Z) :
  bc_inv s → (∀ i n, heldblk s i n → n ∈ X) → (∀ n, dirtyblk s n → n ∈ X) →
  (length X < NBUF)%nat → has_free s.
Proof.
  intros Hs Hh Hd Hlen.
  destruct (decide (Exists (λ i, b_refcnt (bp s i) = 0 ∧ ¬ dirty s i) (seq 0 NBUF)))
    as [Hex|Hno].
  { apply Exists_exists in Hex as (i & Hi & ? & ?). exists i.
    apply elem_of_seq in Hi. split_and!; [lia|done..]. }
  exfalso. rewrite <-Forall_Exists_neg, Forall_forall in Hno.
  assert (∀ i, (i < NBUF)%nat → b_dev (bp s i) = dd_dev ∧ b_blockno (bp s i) ∈ X) as Hin.
  { intros i Hi. destruct (inv_bufs s Hs i Hi) as [_ Href Hfl _].
    destruct (decide (dirty s i)) as [Hdi|Hdi].
    - pose proof (dirty_uncached s i Hs Hi Hdi) as Hc.
      split; [apply Hc|]. apply Hd. by exists i.
    - assert (b_refcnt (bp s i) ≠ 0) as Hr.
      { intros ?. eapply (Hno i); [apply elem_of_seq; lia|done]. }
      destruct Href as [[? _]|[Hr1 _]]; [done|].
      destruct Hfl as [(_ & _ & ?)|(_ & Hdev & _)]; [done|].
      split; [done|]. apply (Hh i). by split_and!. }
  assert (NoDup ((λ i, b_blockno (bp s i)) <$> seq 0 NBUF)) as Hnd.
  { apply NoDup_fmap_2_strong; [|apply NoDup_seq]. intros i j Hi Hj Heq.
    apply elem_of_seq in Hi, Hj. apply (inv_uniq s Hs); [lia..| | |done]; apply Hin; lia. }
  assert (length ((λ i, b_blockno (bp s i)) <$> seq 0 NBUF) <= length X)%nat as Hle.
  { apply submseteq_length, NoDup_submseteq; [done|]. intros n Hn.
    apply list_elem_of_fmap in Hn as (i & -> & Hi). apply elem_of_seq in Hi. apply Hin. lia. }
  rewrite length_fmap, length_seq in Hle. lia.
Qed.

(** A block nobody holds is dirty in the cache or as it is on the disk. *)
Lemma clean_view s n :
  bc_inv s → (∀ i, ¬ heldblk s i n) → dirtyblk s n ∨ view s n = dd_block (bc_drv s) n.
Proof.
  intros Hs Hnh.
  destruct (decide (Exists (λ i, caches s i n) (seq 0 NBUF))) as [Hex|Hno].
  - apply Exists_exists in Hex as (i & _ & Hc).
    destruct (decide (dirty s i)) as [Hdi|Hdi]; [left; by exists i|right].
    rewrite (view_hit s i n) by done. destruct Hc as (Hi & Hdev & Hn). rewrite <-Hn.
    destruct (caches_flags s i n Hs) as [Hf _]; [done|].
    apply (inv_bufs s Hs i Hi).
    + unfold dirty in Hdi. tauto.
    + apply (not_held_refcnt s i n Hs); [done|]. intros ?. by apply (Hnh i).
  - right. apply view_miss. rewrite <-Forall_Exists_neg, Forall_forall in Hno.
    intros i Hi. eapply (Hno i); [|done]. apply elem_of_seq. destruct Hi. lia.
Qed.

Lemma empty_has_free s : empty_cache s → has_free s.
Proof.
  intros (Hs & Hnc & _). apply (has_free_intro s []); [done| | |vm_compute; lia].
  - intros i n [Hc _]. by destruct (Hnc i n).
  - intros n (i & Hc & _). by destruct (Hnc i n).
Qed.

(** *** Sequences of operations *)

Lemma run_bupd {B} b f (k : unit → M (bcache D) B) s :
  (bupd b f ≫= k) s = k tt (upd_buf b (set_data (f (bdata b s))) s).
Proof. done. Qed.

(** A loop of stores into one buffer is one store. *)
Lemma for_each_bupd {X} b (f : X → block → block) l s :
  (b < length (bc_buf s))%nat →
  for_each l (λ i, bupd b (f i)) s =
    Ok tt (upd_buf b (set_data (foldl (λ d i, f i d) (bdata b s) l)) s).
Proof.
  revert s. induction l as [|x l IH]; intros s Hb; cbn [for_each foldl].
  - unfold mret, M_ret. f_equal. rewrite (upd_ext s b _ id); [|done|unfold bdata; by destruct (bp s b)].
    unfold upd_buf. rewrite list_alter_id by done. by destruct s.
  - rewrite run_bupd, IH by (by rewrite length_upd).
    rewrite upd_upd. unfold bdata. rewrite bp_upd_eq by done. done.
Qed.

(** Nobody holds a buffer. *)
Definition quiet s : Prop := ∀ i n, ¬ heldblk s i n.

(** Two blocks read one after the other. *)
Record bread2_post s n1 n2 b1 b2 s' : Prop := {
  bread2_inv : bc_inv s';
  bread2_drv : bc_drv s' = bc_drv s;
  bread2_held : ∀ i m, heldblk s' i m ↔ (i = b1 ∧ m = n1) ∨ (i = b2 ∧ m = n2);
  bread2_view : ∀ m, view s' m = view s m;
  bread2_dirty : ∀ m, dirtyblk s' m ↔ dirtyblk s m
}.

Lemma bread2_spec s n1 n2 (X : list Z) :
  bc_inv s → quiet s → 0 <= n1 < dd_size (bc_drv s) → 0 <= n2 < dd_size (bc_drv s) →
  n1 ≠ n2 → (∀ m, dirtyblk s m → m ∈ X) → (length X < NBUF)%nat →
  dirtyblk s n2 ∨ (S (length X) < NBUF)%nat →
  ∃ b1 b2 s1 s2, bread dd_dev n1 s = Ok b1 s1 ∧ bread dd_dev n2 s1 = Ok b2 s2 ∧
    bread2_post s n1 n2 b1 b2 s2.
Proof.
  intros Hs Hq Hn1 Hn2 Hne HX Hl Hl2.
  destruct (bread_spec s n1 Hs Hn1) as (b1 & s1 & H1 & [Hs1 Hdrv1 _ _ Hh1 Hv1 Hd1]).
  { intros i. apply Hq. }
  { right. apply (has_free_intro s X); [done| |done|done]. intros i n Hi. by destruct (Hq i n). }
  destruct (bread_spec s1 n2 Hs1) as (b2 & s2 & H2 & [Hs2 Hdrv2 _ _ Hh2 Hv2 Hd2]).
  { by rewrite Hdrv1. }
  { intros i. rewrite Hh1. intros [[_ ?]|?]; [done|]. by eapply Hq. }
  { destruct Hl2 as [Hd|Hl2].
    - left. apply Hd1 in Hd as (i & Hi & _). by exists i.
    - right. apply (has_free_intro s1 (n1 :: X)); [done| | |done].
      + intros i n. rewrite Hh1. intros [[_ ->]|Hi]; [set_solver|]. by destruct (Hq i n).
      + intros n. rewrite Hd1. intros ?%HX. set_solver. }
  exists b1, b2, s1, s2. split_and!; [done..|]. split.
  - done.
  - by rewrite Hdrv2.
  - intros i m. rewrite Hh2, Hh1. pose proof (Hq i m). tauto.
  - intros m. by rewrite Hv2.
  - intros m. by rewrite Hd2.
Qed.

(** The state after the block [n] is written with contents [x] and nothing
    else happens. *)
Record wrote s n (x : block) s' : Prop := {
  wrote_inv : bc_inv s';
  wrote_quiet : quiet s';
  wrote_size : dd_size (bc_drv s') = dd_size (bc_drv s);
  wrote_hist : dd_hist (bc_drv s') = dd_hist (bc_drv s) ++ [(n, x)];
  wrote_disk : ∀ m, dd_block (bc_drv s') m = if decide (m = n) then x else dd_block (bc_drv s) m;
  wrote_view : ∀ m, view s' m = if decide (m = n) then x else view s m;
  wrote_dirty : ∀ m, dirtyblk s' m ↔ m ≠ n ∧ dirtyblk s m
}.

(** A buffer is given new contents and written. *)
Lemma store_write_spec s b n x :
  bc_inv s → heldblk s b n → length x = BSIZE →
  ∃ s1 s', bstore b x s = Ok tt s1 ∧ bwrite b s1 = Ok tt s' ∧ bc_inv s' ∧
    dd_size (bc_drv s') = dd_size (bc_drv s) ∧
    dd_hist (bc_drv s') = dd_hist (bc_drv s) ++ [(n, x)] ∧
    (∀ m, dd_block (bc_drv s') m = if decide (m = n) then x else dd_block (bc_drv s) m) ∧
    (∀ m, view s' m = if decide (m = n) then x else view s m) ∧
    (∀ m, dirtyblk s' m ↔ m ≠ n ∧ dirtyblk s m) ∧
    (∀ i m, heldblk s' i m ↔ heldblk s i m).
Proof.
  intros Hs Hb Hx.
  destruct (bstore_spec s b n x Hs Hb Hx) as (s1 & fl & H1 & Hdrv & [Hs1 _ Hh1 Hv1 Hd1] & Hfl).
  destruct (bwrite_spec s1 b n Hs1) as (s2 & H2 & [Hs2 _ Hsz Hhist Hdisk Hh2 Hv2 Hd2]);
    [by apply Hh1|].
  assert (view s1 n = x) as Hvn by (by rewrite Hv1, decide_True).
  rewrite Hvn in *. rewrite Hdrv in *.
  exists s1, s2. split_and!; try done.
  - intros m. by rewrite Hv2, Hv1.
  - intros m. rewrite Hd2, Hd1. case_decide; naive_solver.
  - intros i m. by rewrite Hh2.
Qed.

(** Releasing both buffers of [bread2_spec] after the second one's or the first
    one's block was written. *)
Lemma brelse2_spec s b1 b2 n1 n2 :
  bc_inv s → (∀ i m, heldblk s i m ↔ (i = b1 ∧ m = n1) ∨ (i = b2 ∧ m = n2)) → n1 ≠ n2 →
  dirtyblk s n1 ∨ view s n1 = dd_block (bc_drv s) n1 →
  dirtyblk s n2 ∨ view s n2 = dd_block (bc_drv s) n2 →
  ∃ s1 s', brelse b1 s = Ok tt s1 ∧ brelse b2 s1 = Ok tt s' ∧ bc_inv s' ∧ quiet s' ∧
    bc_drv s' = bc_drv s ∧ (∀ m, view s' m = view s m) ∧ (∀ m, dirtyblk s' m ↔ dirtyblk s m).
Proof.
  intros Hs Hh Hne Hc1 Hc2.
  assert (heldblk s b1 n1) as Hb1 by (apply Hh; by left).
  assert (heldblk s b2 n2) as Hb2 by (apply Hh; by right).
  assert (b1 ≠ b2) as Hbne.
  { intros ->. destruct Hb1 as [(_ & _ & ?) _], Hb2 as [(_ & _ & ?) _]. congruence. }
  destruct (brelse_spec s b1 n1 Hs Hb1 Hc1) as (s1 & H1 & [Hs1 Hdrv1 _ Hh1 Hv1 Hd1]).
  assert (heldblk s1 b2 n2) as Hb2' by (apply Hh1; naive_solver).
  destruct (brelse_spec s1 b2 n2 Hs1 Hb2') as (s2 & H2 & [Hs2 Hdrv2 _ Hh2 Hv2 Hd2]).
  { by rewrite Hd1, Hv1, Hdrv1. }
  exists s1, s2. split_and!; try done.
  - intros i m. rewrite Hh2, Hh1, Hh. naive_solver.
  - by rewrite Hdrv2.
  - intros m. by rewrite Hv2.
  - intros m. by rewrite Hd2.
Qed.

(** Only buffers [b1] and [b2], of blocks [n1] and [n2], are held. *)
Definition quiet_but s b1 b2 n1 n2 : Prop :=
  ∀ i m, heldblk s i m ↔ (i = b1 ∧ m = n1) ∨ (i = b2 ∧ m = n2).

(** Block [src] is copied over block [dst] through the cache and written. The
    two orders of reads are those of write_log and install_trans. *)
Definition copy_block (src dst : Z) (src_first : bool) : M (bcache D) unit :=
  if src_first then
    lbuf ← bread dd_dev src; dbuf ← bread dd_dev dst;
    d ← gets (bdata lbuf); bstore dbuf d;; bwrite dbuf;; brelse lbuf;; brelse dbuf
  else
    to ← bread dd_dev dst; from ← bread dd_dev src;
    d ← gets (bdata from); bstore to d;; bwrite to;; brelse from;; brelse to.

Lemma copy_tail_spec s bs bd src dst :
  bc_inv s → quiet_but s bs bd src dst → src ≠ dst →
  dirtyblk s src ∨ view s src = dd_block (bc_drv s) src →
  ∃ s', (d ← gets (bdata bs); bstore bd d;; bwrite bd;; brelse bs;; brelse bd) s = Ok tt s' ∧
    wrote s dst (view s src) s'.
Proof.
  intros Hs Hh Hne Hc.
  assert (heldblk s bs src) as Hbs by (apply Hh; by left).
  assert (heldblk s bd dst) as Hbd by (apply Hh; by right).
  destruct (store_write_spec s bd dst (view s src) Hs Hbd) as
    (s1 & s2 & H1 & H2 & Hs2 & Hsz & Hhist & Hdisk & Hv & Hd & Hh2); [by apply length_view|].
  destruct (brelse2_spec s2 bs bd src dst Hs2) as (s3 & s4 & H3 & H4 & Hs4 & Hq & Hdrv & Hv4 & Hd4).
  - intros i m. by rewrite Hh2.
  - done.
  - rewrite Hd, Hv, Hdisk, !decide_False by done. naive_solver.
  - right. by rewrite Hv, Hdisk, !decide_True by done.
  - exists s4. split.
    + run. rewrite <-(held_view s bs src) by done.
      by rewrite (bind_run _ _ _ _ _ H1), (bind_run _ _ _ _ _ H2), (bind_run _ _ _ _ _ H3).
    + split; [done|done|by rewrite Hdrv|by rewrite Hdrv|..]; intros m.
      * by rewrite Hdrv.
      * by rewrite Hv4.
      * by rewrite Hd4.
Qed.

Lemma copy_block_spec s src dst (first : bool) (X : list Z) :
  bc_inv s → quiet s → 0 <= src < dd_size (bc_drv s) → 0 <= dst < dd_size (bc_drv s) →
  src ≠ dst → (∀ m, dirtyblk s m → m ∈ X) → (length X < NBUF)%nat →
  dirtyblk s (if first then dst else src) ∨ (S (length X) < NBUF)%nat →
  ∃ s', copy_block src dst first s = Ok tt s' ∧ wrote s dst (view s src) s'.
Proof.
  intros Hs Hq Hsrc Hdst Hne HX Hl Hl2.
  assert (dirtyblk s src ∨ view s src = dd_block (bc_drv s) src) as Hc by by apply clean_view.
  destruct first; unfold copy_block.
  - destruct (bread2_spec s src dst X) as (bs & bd & s1 & s2 & H1 & H2 & [Hs2 Hdrv Hh Hv Hd]);
      [done..|].
    rewrite (bind_run _ _ _ _ _ H1), (bind_run _ _ _ _ _ H2).
    destruct (copy_tail_spec s2 bs bd src dst) as (s' & Hrun & [? ? Hsz Hhi Hdi Hvi Hdir]);
      [done|done|done|by rewrite Hd, Hv, Hdrv|].
    exists s'. split; [done|]. rewrite Hdrv, ?Hv in *. split; [done..| |]; intros m.
    + by rewrite Hvi, Hv.
    + by rewrite Hdir, Hd.
  - destruct (bread2_spec s dst src X) as (bd & bs & s1 & s2 & H1 & H2 & [Hs2 Hdrv Hh Hv Hd]);
      [done..|].
    rewrite (bind_run _ _ _ _ _ H1), (bind_run _ _ _ _ _ H2).
    destruct (copy_tail_spec s2 bs bd src dst) as (s' & Hrun & [? ? Hsz Hhi Hdi Hvi Hdir]);
      [done|intros i m; rewrite Hh; tauto|done|by rewrite Hd, Hv, Hdrv|].
    exists s'. split; [done|]. rewrite Hdrv, ?Hv in *. split; [done..| |]; intros m.
    + by rewrite Hvi, Hv.
    + by rewrite Hdir, Hd.
Qed.

(** One block is read, given the contents [f] computes, written and released. *)
Lemma rewrite_block_spec s n (f : block → block) (m : nat → M (bcache D) unit) (X : list Z) :
  bc_inv s → quiet s → 0 <= n < dd_size (bc_drv s) →
  (∀ i, dirtyblk s i → i ∈ X) → (length X < NBUF)%nat → length (f (view s n)) = BSIZE →
  (∀ b s, (b < length (bc_buf s))%nat → m b s = bstore b (f (bdata b s)) s) →
  ∃ s', (b ← bread dd_dev n; m b;; bwrite b;; brelse b) s = Ok tt s' ∧
    wrote s n (f (view s n)) s'.
Proof.
  intros Hs Hq Hn HX Hl Hlen Hm.
  destruct (bread_spec s n Hs Hn) as (b & s1 & H1 & [Hs1 Hdrv1 _ _ Hh1 Hv1 Hd1]).
  { intros i. apply Hq. }
  { right. apply (has_free_intro s X); [done| |done|done]. intros i k Hi. by destruct (Hq i k). }
  assert (heldblk s1 b n) as Hb by (apply Hh1; by left).
  destruct (store_write_spec s1 b n (f (view s n)) Hs1 Hb) as
    (s2 & s3 & H2 & H3 & Hs3 & Hsz & Hhist & Hdisk & Hv & Hd & Hh3); [done|].
  destruct (brelse_spec s3 b n Hs3) as (s4 & H4 & [Hs4 Hdrv4 _ Hh4 Hv4 Hd4]).
  { by apply Hh3. }
  { right. by rewrite Hv, Hdisk, !decide_True by done. }
  rewrite (bind_run _ _ _ _ _ H1). exists s4. split.
  - rewrite (bind_run (m b) _ s1 tt s2).
    + by rewrite (bind_run _ _ _ _ _ H3).
    + rewrite Hm by (rewrite (inv_len s1 Hs1); destruct Hb as [[? _] _]; lia).
      by rewrite <-(held_view s1 b n), Hv1.
  - split; rewrite ?Hdrv4, <-?Hdrv1; try done.
    + intros i k. rewrite Hh4, Hh3, Hh1. intros [? [[? _]|?]]; [done|]. by eapply Hq.
    + intros k. by rewrite Hv4, Hv, Hv1.
    + intros k. by rewrite Hd4, Hd, Hd1.
Qed.

(** ** What the cache promises *)

(** C19. bread returns a locked buffer that no caller had, which holds the
    current contents of the block: the cached copy if there is one, the disk's
    block otherwise. No two buffers cache the same block, and neither the disk
    nor the contents of any block change. *)
Theorem bread_correct s n :
  bc_inv s → 0 <= n < dd_size (bc_drv s) → (∀ i, ¬ heldblk s i n) →
  (∃ i, caches s i n) ∨ has_free s →
  ∃ b s', bread dd_dev n s = Ok b s' ∧ bc_inv s' ∧ bdata b s' = view s n ∧
    ¬ held s b ∧ heldblk s' b n ∧ sl_locked (b_lock (bp s' b)) = true ∧
    (∀ i, caches s' i n → i = b) ∧ bc_drv s' = bc_drv s ∧ (∀ m, view s' m = view s m).
Proof.
  intros Hs Hn Hnh Hf. destruct (bread_spec s n Hs Hn Hnh Hf) as (b & s' & Hrun & []).
  assert (heldblk s' b n) as Hb by (apply bread_held0; by left).
  exists b, s'. split_and!; try done.
  - by rewrite <-bread_view0, (held_view s' b n).
  - destruct Hb as [(Hb & _) Hh]. destruct (ok_ref _ _ (inv_bufs s' bread_inv0 b Hb)) as [[H0 _]|[_ H1]].
    + unfold held in Hh. lia.
    + done.
  - intros i Hi. apply (caches_inj s' i b n); [done..|]. apply Hb.
Qed.

(** bwrite writes exactly one block to the disk, the buffer's contents at
    the buffer's block number, and leaves the buffer clean; every other block,
    what every block reads as and who holds what stay as they were. *)
Theorem bwrite_correct s b n :
  bc_inv s → heldblk s b n →
  ∃ s', bwrite b s = Ok tt s' ∧ bc_inv s' ∧
    dd_hist (bc_drv s') = dd_hist (bc_drv s) ++ [(n, bdata b s)] ∧
    (∀ m, dd_block (bc_drv s') m = if decide (m = n) then bdata b s else dd_block (bc_drv s) m) ∧
    (∀ m, view s' m = view s m) ∧ (∀ i m, heldblk s' i m ↔ heldblk s i m) ∧
    (∀ m, dirtyblk s' m ↔ m ≠ n ∧ dirtyblk s m).
Proof.
  intros Hs Hb. destruct (bwrite_spec s b n Hs Hb) as (s' & Hrun & []).
  rewrite <-(held_view s b n) by done. by exists s'.
Qed.

(** brelse gives the lock and the reference back, moves the buffer to the
    front of the recently-used list, and keeps every other buffer in its order;
    the contents of every block stay as they were. *)
Theorem brelse_correct s b n l1 l2 :
  bc_inv s → heldblk s b n → dirtyblk s n ∨ view s n = dd_block (bc_drv s) n →
  ring (nexts s) (prevs s) NBUF (l1 ++ b :: l2) → l1 ++ b :: l2 ≡ₚ seq 0 NBUF →
  ∃ s', brelse b s = Ok tt s' ∧ bc_inv s' ∧ ring (nexts s') (prevs s') NBUF (b :: l1 ++ l2) ∧
    (∀ i m, heldblk s' i m ↔ i ≠ b ∧ heldblk s i m) ∧
    (∀ m, view s' m = view s m) ∧ (∀ m, dirtyblk s' m ↔ dirtyblk s m).
Proof.
  intros Hs Hb Hclean Hring Hperm.
  destruct (brelse_run s b n l1 l2 Hs Hb Hclean Hring Hperm) as (s' & Hrun & Hring' & []).
  by exists s'.
Qed.

End bio.


(** ** A run on the memory disk *)

Definition disk_ex : Memide.memide := Memide.MkMemide ∅ 1000 [].

Lemma disk_ex_len n : length (dd_block disk_ex n) = BSIZE.
Proof. apply length_replicate. Qed.

Lemma bio_ex : ∃ s : bcache Memide.memide,
  binit (bcache0 disk_ex 7) = Ok tt s ∧ bc_drv s = disk_ex ∧ empty_cache s.
Proof. destruct (binit_empty disk_ex 7 disk_ex_len) as (s & ? & ? & ? & ?). by exists s. Qed.

Lemma bio_held_ex : ∃ (s : bcache Memide.memide) b l1 l2,
  bc_inv s ∧ heldblk s b 5 ∧ view s 5 = dd_block (bc_drv s) 5 ∧
  ring (nexts s) (prevs s) NBUF (l1 ++ b :: l2) ∧ l1 ++ b :: l2 ≡ₚ seq 0 NBUF.
Proof.
  destruct bio_ex as (s & _ & Hd & He). pose proof He as (Hs & Hnc & Hv).
  destruct (bread_spec s 5 Hs) as (b & s' & _ & [Hs' Hdrv _ _ Hh Hview _]).
  { rewrite Hd. simpl. lia. }
  { intros i [Hc _]. by destruct (Hnc i 5). }
  { right. by apply empty_has_free. }
  assert (heldblk s' b 5) as Hb by (apply Hh; by left).
  destruct (inv_ring s' Hs') as (order & Hperm & Hring).
  assert (b ∈ order) as Hin by (rewrite Hperm, elem_of_seq; destruct Hb as [[? _] _]; lia).
  apply list_elem_of_split in Hin as (l1 & l2 & ->).
  exists s', b, l1, l2. split_and!; try done. by rewrite Hview, Hv, Hdrv.
Qed.

Lemma bread_correct_witness : ∃ (s : bcache Memide.memide) b s',
  bread dd_dev 5 s = Ok b s' ∧ bdata b s' = zero_block.
Proof.
  destruct bio_ex as (s & _ & Hd & He). pose proof He as (Hs & Hnc & Hv).
  destruct (bread_correct s 5 Hs) as (b & s' & Hrun & _ & Hdata & _).
  - rewrite Hd. simpl. lia.
  - intros i [Hc _]. by destruct (Hnc i 5).
  - right. by apply empty_has_free.
  - exists s, b, s'. split; [done|]. by rewrite Hdata, Hv, Hd.
Defined.

Lemma bwrite_correct_witness : ∃ (s : bcache Memide.memide) b s',
  bwrite b s = Ok tt s' ∧ dd_hist (bc_drv s') = dd_hist (bc_drv s) ++ [(5, bdata b s)].
Proof.
  destruct bio_held_ex as (s & b & _ & _ & Hs & Hb & _).
  destruct (bwrite_correct s b 5 Hs Hb) as (s' & Hrun & _ & Hh & _).
  by exists s, b, s'.
Defined.

Lemma brelse_correct_witness : ∃ (s : bcache Memide.memide) b s' l,
  brelse b s = Ok tt s' ∧ ring (nexts s') (prevs s') NBUF (b :: l) ∧ ¬ heldblk s' b 5.
Proof.
  destruct bio_held_ex as (s & b & l1 & l2 & Hs & Hb & Hv & Hring & Hperm).
  destruct (brelse_correct s b 5 l1 l2 Hs Hb (or_intror Hv) Hring Hperm)
    as (s' & Hrun & _ & Hring' & Hh & _).
  exists s, b, s', (l1 ++ l2). split_and!; [done..|]. rewrite Hh. naive_solver.
Defined.
