(* ===== verification/Log.v ===== *)
(** * The write-ahead log (log.c)

    A system call brackets its writes with begin_op and end_op and records them
    with log_write; the last end_op commits. [logst] is struct log with the
    buffer cache under it. log.lock makes begin_op, the first part of end_op and
    log_write atomic sections; [Blocked] is a sleep on [&log], and [lg_wake]
    counts the calls wakeup(&log) that end such sleeps.

    [recover_disk] says on bare disks what recovery is for; the theorems at the
    end relate the code to it and show that a commit is atomic: a crash after
    any prefix of its disk writes leaves a disk that recovers to all or none of
    the transaction. *)

From S2P Require Import Prelude Sleeplock Disk Ring Bio.

Definition MAXOPBLOCKS : Z := 10.
Definition LOGSIZE : Z := MAXOPBLOCKS * 3.

(** ** Header blocks

    struct logheader as the source overlays it on a block: n, then block[]. *)

Definition hd_n (d : block) : Z := s32 (getw 4 d 0).
Definition hd_block (d : block) (i : Z) : Z := s32 (getw 4 d (4 + 4 * Z.to_nat i)).
Definition set_hd_n (d : block) (v : Z) : block := putw 4 d 0 v.
Definition set_hd_block (d : block) (i v : Z) : block := putw 4 d (4 + 4 * Z.to_nat i) v.

(** ** struct superblock, and readsb of fs.c *)

Record superblock := Superblock {
  sb_size : Z;
  sb_nblocks : Z;
  sb_ninodes : Z;
  sb_nlog : Z;
  sb_logstart : Z;
  sb_inodestart : Z;
  sb_bmapstart : Z
}.

Definition sb_decode (d : block) : superblock :=
  Superblock (getw 4 d 0) (getw 4 d 4) (getw 4 d 8) (getw 4 d 12) (getw 4 d 16)
    (getw 4 d 20) (getw 4 d 24).

(** ** struct log *)

Record logst (D : Type) := Log {
  lg_bc : bcache D;
  lg_start : Z;
  lg_size : Z;
  lg_outstanding : Z;
  lg_committing : bool;
  lg_dev : Z;
  lh_n : Z;
  lh_block : list Z;
  lg_wake : nat
}.
Arguments Log {D} _ _ _ _ _ _ _ _ _.
Arguments lg_bc {D} _.
Arguments lg_start {D} _.
Arguments lg_size {D} _.
Arguments lg_outstanding {D} _.
Arguments lg_committing {D} _.
Arguments lg_dev {D} _.
Arguments lh_n {D} _.
Arguments lh_block {D} _.
Arguments lg_wake {D} _.

Section log.
Context {D : Type} `{!DiskDriver D, !DiskDriverLaws D}.
Implicit Types (s : bcache D) (l : logst D).

Definition set_bc s l : logst D := Log s (lg_start l) (lg_size l) (lg_outstanding l)
  (lg_committing l) (lg_dev l) (lh_n l) (lh_block l) (lg_wake l).
Definition set_geom (start size dev : Z) l : logst D := Log (lg_bc l) start size
  (lg_outstanding l) (lg_committing l) dev (lh_n l) (lh_block l) (lg_wake l).
Definition set_outstanding v l : logst D := Log (lg_bc l) (lg_start l) (lg_size l) v
  (lg_committing l) (lg_dev l) (lh_n l) (lh_block l) (lg_wake l).
Definition set_committing v l : logst D := Log (lg_bc l) (lg_start l) (lg_size l)
  (lg_outstanding l) v (lg_dev l) (lh_n l) (lh_block l) (lg_wake l).
Definition set_lh_n v l : logst D := Log (lg_bc l) (lg_start l) (lg_size l)
  (lg_outstanding l) (lg_committing l) (lg_dev l) v (lh_block l) (lg_wake l).
Definition set_lh_block v l : logst D := Log (lg_bc l) (lg_start l) (lg_size l)
  (lg_outstanding l) (lg_committing l) (lg_dev l) (lh_n l) v (lg_wake l).
Definition wakeup_log l : logst D := Log (lg_bc l) (lg_start l) (lg_size l)
  (lg_outstanding l) (lg_committing l) (lg_dev l) (lh_n l) (lh_block l) (S (lg_wake l)).

(** A routine of the buffer cache. *)
Definition bc {A} (m : M (bcache D) A) : M (logst D) A := zoom lg_bc set_bc m.

Definition get_log : M (logst D) (logst D) := gets id.

(** ** The operations *)

Definition readsb (dev : Z) : M (bcache D) superblock :=
  b ← bread dev 1;
  d ← gets (bdata b);
  brelse b;;
  mret (sb_decode d).

(** Copy committed blocks from log to their home location *)
Definition install_trans : M (logst D) unit :=
  l ← get_log;
  for_each (seqZ 0 (lh_n l)) (λ tail, bc (
    lbuf ← bread (lg_dev l) (lg_start l + tail + 1);
    dbuf ← bread (lg_dev l) (u32 (getZ (lh_block l) tail));
    d ← gets (bdata lbuf);
    bstore dbuf d;;
    bwrite dbuf;;
    brelse lbuf;;
    brelse dbuf)).

(** Read the log header from disk into the in-memory log header *)
Definition read_head : M (logst D) unit :=
  l ← get_log;
  b ← bc (bread (lg_dev l) (lg_start l));
  lh ← gets (λ l, bdata b (lg_bc l));
  modify (set_lh_n (hd_n lh));;
  n ← gets lh_n;
  for_each (seqZ 0 n) (λ i,
    modify (λ l, set_lh_block (setZ (lh_block l) i (hd_block lh i)) l));;
  bc (brelse b).

(** Write in-memory log header to disk. *)
Definition write_head : M (logst D) unit :=
  l ← get_log;
  bc (b ← bread (lg_dev l) (lg_start l);
      (bupd b (λ d, set_hd_n d (lh_n l));;
       for_each (seqZ 0 (lh_n l)) (λ i,
         bupd b (λ d, set_hd_block d i (getZ (lh_block l) i))));;
      bwrite b;;
      brelse b).

Definition recover_from_log : M (logst D) unit :=
  read_head;;
  install_trans;;
  modify (set_lh_n 0);;
  write_head.

Definition initlog (dev : Z) : M (logst D) unit :=
  panic_if (Z.of_nat BSIZE <=? 4 + 4 * LOGSIZE) "initlog: too big logheader";;
  sb ← bc (readsb dev);
  modify (set_geom (s32 (sb_logstart sb)) (s32 (sb_nlog sb)) dev);;
  recover_from_log.

(** called at the start of each FS system call. *)
Definition begin_op : M (logst D) unit :=
  l ← get_log;
  if lg_committing l : bool then blocked
  else if LOGSIZE <? lh_n l + (lg_outstanding l + 1) * MAXOPBLOCKS then blocked
  else modify (set_outstanding (lg_outstanding l + 1)).

(** Copy modified blocks from cache to log. *)
Definition write_log : M (logst D) unit :=
  l ← get_log;
  for_each (seqZ 0 (lh_n l)) (λ tail, bc (
    to ← bread (lg_dev l) (lg_start l + tail + 1);
    from ← bread (lg_dev l) (u32 (getZ (lh_block l) tail));
    d ← gets (bdata from);
    bstore to d;;
    bwrite to;;
    brelse from;;
    brelse to)).

Definition commit : M (logst D) unit :=
  n ← gets lh_n;
  if (0 <? n) : bool then
    write_log;;
    write_head;;
    install_trans;;
    modify (set_lh_n 0);;
    write_head
  else mret tt.

(** called at the end of each FS system call. The first part, under log.lock,
    says whether this operation is to commit. *)
Definition end_op_enter : M (logst D) bool :=
  n ← gets lg_outstanding;
  modify (set_outstanding (n - 1));;
  c ← gets lg_committing;
  panic_if c "log.committing";;
  n ← gets lg_outstanding;
  if (n =? 0) : bool then
    modify (set_committing true);;
    mret true
  else
    modify wakeup_log;;
    mret false.

Definition end_op_commit : M (logst D) unit :=
  commit;;
  modify (set_committing false);;
  modify wakeup_log.

Definition end_op : M (logst D) unit :=
  do_commit ← end_op_enter;
  if do_commit : bool then end_op_commit else mret tt.

(** The first index below [n] whose logged block is [blockno], or [n]. *)
Fixpoint log_find (blocks : list Z) (blockno : Z) (i : nat) (n : nat) : nat :=
  match n with
  | O => i
  | S n => if u32 (blocks !!! i) =? blockno then i else log_find blocks blockno (S i) n
  end.

Definition log_write (b : nat) : M (logst D) unit :=
  l ← get_log;
  panic_if ((LOGSIZE <=? lh_n l) || (lg_size l - 1 <=? lh_n l)) "too big a transaction";;
  panic_if (lg_outstanding l <? 1) "log_write outside of trans";;
  blockno ← gets (λ l, b_blockno (bp (lg_bc l) b));
  let i := log_find (lh_block l) blockno 0 (Z.to_nat (lh_n l)) in
  modify (set_lh_block (<[i := s32 blockno]> (lh_block l)));;
  (if Z.of_nat i =? lh_n l then modify (set_lh_n (lh_n l + 1)) else mret tt);;
  bc (mark_dirty b).

(** ** Disks

    A disk is a function from block numbers to blocks; [apply_writes] is the
    disk after a sequence of block writes. *)

Definition disk := Z → block.

Definition apply_writes (ws : list (Z * block)) (d : disk) : disk :=
  foldl (λ d w, fupd d w.1 w.2) d ws.

Lemma apply_writes_app ws1 ws2 d :
  apply_writes (ws1 ++ ws2) d = apply_writes ws2 (apply_writes ws1 d).
Proof. apply foldl_app. Qed.

Lemma apply_writes_ext ws d d' m :
  (∀ m, d m = d' m) → apply_writes ws d m = apply_writes ws d' m.
Proof.
  revert d d'. induction ws as [|w ws IH]; intros d d' H; simpl; [done|].
  apply IH. intros ?. by apply fupd_ext.
Qed.

Lemma apply_writes_ne ws d m : m ∉ ws.*1 → apply_writes ws d m = d m.
Proof.
  revert d. induction ws as [|w ws IH]; intros d H; simpl; [done|].
  rewrite IH by set_solver. apply fupd_ne. set_solver.
Qed.

Lemma apply_writes_in ws d n x :
  NoDup ws.*1 → (n, x) ∈ ws → apply_writes ws d n = x.
Proof.
  revert d. induction ws as [|w ws IH]; intros d Hnd Hin; [set_solver|].
  simpl in *. apply NoDup_cons in Hnd as [Hw Hnd].
  apply elem_of_cons in Hin as [<-|Hin]; [|by apply IH].
  rewrite apply_writes_ne by done. apply fupd_eq.
Qed.

(** The cache after the writes [ws], with no buffer held. *)
Record wrotes s (ws : list (Z * block)) s' : Prop := {
  wrotes_inv : bc_inv s';
  wrotes_quiet : quiet s';
  wrotes_size : dd_size (bc_drv s') = dd_size (bc_drv s);
  wrotes_hist : dd_hist (bc_drv s') = dd_hist (bc_drv s) ++ ws;
  wrotes_disk : ∀ m, dd_block (bc_drv s') m = apply_writes ws (dd_block (bc_drv s)) m;
  wrotes_view : ∀ m, view s' m = apply_writes ws (view s) m;
  wrotes_dirty : ∀ m, dirtyblk s' m ↔ (m ∉ ws.*1) ∧ dirtyblk s m
}.

Lemma wrotes_nil s : bc_inv s → quiet s → wrotes s [] s.
Proof. intros. split; try done; [by rewrite app_nil_r|set_solver]. Qed.

Lemma wrote_wrotes s n x s' : wrote s n x s' → wrotes s [(n, x)] s'.
Proof. intros []. split; try done. intros m. rewrite wrote_dirty. set_solver. Qed.

Lemma wrotes_trans s1 ws1 s2 ws2 s3 :
  wrotes s1 ws1 s2 → wrotes s2 ws2 s3 → wrotes s1 (ws1 ++ ws2) s3.
Proof.
  intros [? ? Hsz1 Hh1 Hb1 Hv1 Hd1] [? ? Hsz2 Hh2 Hb2 Hv2 Hd2]. split; try done.
  - by rewrite Hsz2.
  - by rewrite Hh2, Hh1, app_assoc.
  - intros m. rewrite Hb2, apply_writes_app. by apply apply_writes_ext.
  - intros m. rewrite Hv2, apply_writes_app. by apply apply_writes_ext.
  - intros m. rewrite Hd2, Hd1. set_solver.
Qed.

(** A loop of block copies whose sources are not written. *)
Lemma copies_spec s (f g : Z → Z) (first : bool) (X ts : list Z) :
  bc_inv s → quiet s →
  (∀ t, t ∈ ts → 0 <= f t < dd_size (bc_drv s) ∧ 0 <= g t < dd_size (bc_drv s)) →
  (∀ t t', t ∈ ts → t' ∈ ts → f t ≠ g t') → NoDup (g <$> ts) →
  (∀ m, dirtyblk s m → m ∈ X) → (length X < NBUF)%nat →
  (∀ t, t ∈ ts → dirtyblk s (if first then g t else f t)) ∨ (S (length X) < NBUF)%nat →
  ∃ s', for_each ts (λ t, copy_block (f t) (g t) first) s = Ok tt s' ∧
    wrotes s ((λ t, (g t, view s (f t))) <$> ts) s'.
Proof.
  revert s. induction ts as [|t ts IH]; intros s Hs Hq Hr Hd Hnd HX Hl Hl2.
  { exists s. split; [done|by apply wrotes_nil]. }
  destruct (Hr t) as [Hf Hg]; [set_solver|].
  rewrite fmap_cons in Hnd. apply NoDup_cons in Hnd as [Hgt Hnd].
  destruct (copy_block_spec s (f t) (g t) first X) as (s1 & H1 & Hw1);
    [done..|apply Hd; set_solver|done|done| |].
  { destruct Hl2 as [Hl2|?]; [left; apply Hl2; set_solver|by right]. }
  pose proof Hw1 as [Hs1 Hq1 Hsz1 _ _ Hv1 Hd1].
  destruct (IH s1) as (s2 & H2 & Hw2); [done|done| | |done| |done| |].
  - intros t' ?. rewrite Hsz1. apply Hr. set_solver.
  - intros t1 t2 ? ?. apply Hd; set_solver.
  - intros m [_ Hm]%Hd1. by apply HX.
  - destruct Hl2 as [Hl2|?]; [left|by right]. intros t' Ht'. apply Hd1.
    split; [|apply Hl2; set_solver]. destruct first.
    + intros Heq. apply Hgt. rewrite <-Heq. by apply list_elem_of_fmap_2.
    + apply Hd; set_solver.
  - exists s2. split; [cbn [for_each]; by rewrite (bind_run _ _ _ _ _ H1)|].
    rewrite fmap_cons.
    replace ((λ t, (g t, view s (f t))) <$> ts) with ((λ t, (g t, view s1 (f t))) <$> ts).
    + apply (wrotes_trans s [(g t, view s (f t))] s1); [by apply wrote_wrotes|done].
    + apply list_fmap_ext. intros i t' Ht'%list_elem_of_lookup_2.
      rewrite Hv1, decide_False; [done|]. apply Hd; set_solver.
Qed.

(** ** The header block *)

(** The block write_head writes: the count and the first [n] block numbers. *)
Definition head_of (n : Z) (blocks : list Z) (d : block) : block :=
  foldl (λ d i, set_hd_block d i (getZ blocks i)) (set_hd_n d n) (seqZ 0 n).

Lemma s32_mod x : is_s32 x → s32 (x mod 2 ^ (8 * Z.of_nat 4)) = x.
Proof. change (2 ^ (8 * Z.of_nat 4)) with 4294967296. zmod. Qed.

Lemma head_fold (n : nat) blocks (d : block) :
  length d = BSIZE → Z.of_nat n <= LOGSIZE →
  let d' := foldl (λ d i, set_hd_block d i (getZ blocks i)) d (seqZ 0 (Z.of_nat n)) in
  length d' = BSIZE ∧ getw 4 d' 0 = getw 4 d 0 ∧
  ∀ i, 0 <= i < Z.of_nat n → is_s32 (getZ blocks i) → hd_block d' i = getZ blocks i.
Proof.
  intros Hd. induction n as [|n IH]; intros Hn; simpl; [split_and!; auto; lia|].
  rewrite Nat2Z.inj_succ, <-Z.add_1_r, seqZ_app, foldl_app by lia.
  destruct IH as (Hlen & H0 & Hi); [lia|]. cbn [foldl seqZ].
  set (d1 := foldl _ d (seqZ 0 (Z.of_nat n))) in *. change (seqZ (0 + Z.of_nat n) 1) with [0 + Z.of_nat n].
  cbn [foldl]. unfold set_hd_block, LOGSIZE, MAXOPBLOCKS, BSIZE in *.
  assert (4 + 4 * Z.to_nat (0 + Z.of_nat n) + 4 <= length d1)%nat as Hr by lia.
  split_and!.
  - by rewrite length_putw.
  - by rewrite getw_putw_ne by lia.
  - intros i Hir Hs. unfold hd_block in *. destruct (decide (i = Z.of_nat n)) as [->|].
    + rewrite Z.add_0_l, getw_putw_eq by lia. by apply s32_mod.
    + rewrite getw_putw_ne by lia. apply Hi; [lia|done].
Qed.

Lemma head_of_spec n blocks (d : block) :
  length d = BSIZE → 0 <= n <= LOGSIZE →
  length (head_of n blocks d) = BSIZE ∧ hd_n (head_of n blocks d) = n ∧
  ∀ i, 0 <= i < n → is_s32 (getZ blocks i) → hd_block (head_of n blocks d) i = getZ blocks i.
Proof.
  intros Hd Hn. unfold head_of. destruct (Z_of_nat_complete n) as [k ->]; [lia|].
  destruct (head_fold k blocks (set_hd_n d (Z.of_nat k))) as (H1 & H2 & H3); [|lia|].
  { unfold set_hd_n. rewrite length_putw; [done|]. unfold BSIZE in Hd. lia. }
  split_and!; [done| |done].
  unfold hd_n. rewrite H2. unfold set_hd_n. rewrite getw_putw_eq by (unfold BSIZE in Hd; lia).
  apply s32_mod. unfold LOGSIZE, MAXOPBLOCKS, is_s32 in *. lia.
Qed.

(** ** Running the cache inside the log *)

Lemma bc_run {A} (m : M (bcache D) A) l a s' :
  m (lg_bc l) = Ok a s' → bc m l = Ok a (set_bc s' l).
Proof. unfold bc, zoom. by intros ->. Qed.

Lemma set_bc_same l : set_bc (lg_bc l) l = l.
Proof. by destruct l. Qed.

(** A loop of cache routines is a loop of the cache. *)
Lemma for_each_bc {X} (m : X → M (bcache D) unit) ts l s' :
  for_each ts m (lg_bc l) = Ok tt s' → for_each ts (λ t, bc (m t)) l = Ok tt (set_bc s' l).
Proof.
  revert l. induction ts as [|t ts IH]; intros l; cbn [for_each].
  { intros [= <-]. by rewrite set_bc_same. }
  intros (a & s1 & H1 & H2)%bind_Ok. destruct a.
  rewrite (bind_run _ _ _ _ _ (bc_run _ _ _ _ H1)).
  rewrite (IH (set_bc s1 l) H2). by destruct l.
Qed.

(** ** The invariant

    [logged l] are the block numbers of the transaction in memory. *)

Definition logged l : list Z := take (Z.to_nat (lh_n l)) (lh_block l).

(** The log occupies [lg_size] blocks from [lg_start]; [data_block l m] says
    that [m] is a block of the disk outside the log. *)
Definition data_block l (m : Z) : Prop :=
  0 <= m < dd_size (bc_drv (lg_bc l)) ∧ ¬ (lg_start l <= m < lg_start l + lg_size l).

Record log_geom l : Prop := {
  geom_dev : lg_dev l = dd_dev;
  geom_start : 0 <= lg_start l;
  geom_size : 1 <= lg_size l;
  geom_end : lg_start l + lg_size l <= dd_size (bc_drv (lg_bc l)) <= 2147483648
}.

Record log_shape l : Prop := {
  log_geo :> log_geom l;
  log_len : Z.of_nat (length (lh_block l)) = LOGSIZE;
  log_n : 0 <= lh_n l <= LOGSIZE ∧ lh_n l <= lg_size l - 1;
  log_nodup : NoDup (logged l);
  log_data : ∀ m, m ∈ logged l → data_block l m
}.

(** The logged blocks are pinned dirty in the cache, and the log on the disk
    holds no committed transaction. *)
Record log_inv l : Prop := {
  log_shp :> log_shape l;
  log_cache : bc_inv (lg_bc l);
  log_dirty : ∀ m, dirtyblk (lg_bc l) m ↔ m ∈ logged l;
  log_clear : hd_n (dd_block (bc_drv (lg_bc l)) (lg_start l)) = 0
}.

Lemma length_logged l : log_shape l → Z.of_nat (length (logged l)) = lh_n l.
Proof. intros []. unfold logged. rewrite length_take. lia. Qed.

Lemma logged_lookup l t :
  log_shape l → 0 <= t < lh_n l → logged l !! Z.to_nat t = Some (getZ (lh_block l) t).
Proof.
  intros Hl Ht. pose proof (log_len l Hl). pose proof (log_n l Hl).
  unfold logged, getZ. rewrite lookup_take_lt by lia.
  apply list_lookup_lookup_total_lt. lia.
Qed.

Lemma logged_elem l t : log_shape l → 0 <= t < lh_n l → getZ (lh_block l) t ∈ logged l.
Proof. intros Hl Ht. eapply list_elem_of_lookup_2, (logged_lookup l t Hl Ht). Qed.

Lemma logged_range l t :
  log_shape l → 0 <= t < lh_n l → is_s32 (getZ (lh_block l) t) ∧
  u32 (getZ (lh_block l) t) = getZ (lh_block l) t ∧ data_block l (getZ (lh_block l) t).
Proof.
  intros Hl Ht. pose proof (log_data l Hl _ (logged_elem l t Hl Ht)) as Hd.
  pose proof (geom_end l (log_geo l Hl)). destruct Hd as [Hd ?]. split_and!.
  - unfold is_s32. lia.
  - apply u32_small. unfold is_u32. lia.
  - by split.
Qed.

(** What write_head does to the disk. *)
Lemma write_head_spec l (X : list Z) :
  log_geom l → bc_inv (lg_bc l) → quiet (lg_bc l) →
  (∀ m, dirtyblk (lg_bc l) m → m ∈ X) → (length X < NBUF)%nat → 0 <= lh_n l <= LOGSIZE →
  ∃ s', write_head l = Ok tt (set_bc s' l) ∧
    wrotes (lg_bc l) [(lg_start l, head_of (lh_n l) (lh_block l) (view (lg_bc l) (lg_start l)))] s'.
Proof.
  intros Hg Hs Hq HX Hl Hn.
  destruct (rewrite_block_spec (lg_bc l) (lg_start l) (head_of (lh_n l) (lh_block l))
    (λ b, bupd b (λ d, set_hd_n d (lh_n l));;
       for_each (seqZ 0 (lh_n l)) (λ i,
         bupd b (λ d, set_hd_block d i (getZ (lh_block l) i)))) X) as (s' & Hrun & Hw); try done.
  - destruct Hg. lia.
  - apply head_of_spec; [by apply length_view|done].
  - intros b s Hb. rewrite run_bupd, for_each_bupd by (by rewrite length_upd).
    rewrite upd_upd. unfold bdata at 1. rewrite bp_upd_eq by done. done.
  - exists s'. split; [|by apply wrote_wrotes].
    unfold write_head, get_log. run. apply bc_run. by rewrite (geom_dev l Hg).
Qed.

(** The block writes of write_log and of install_trans. *)
Definition log_writes l (v : disk) : list (Z * block) :=
  (λ t, (lg_start l + t + 1, v (getZ (lh_block l) t))) <$> seqZ 0 (lh_n l).
Definition home_writes l (v : Z → block) : list (Z * block) :=
  (λ t, (getZ (lh_block l) t, v t)) <$> seqZ 0 (lh_n l).

Lemma home_nodup l : log_shape l → NoDup ((λ t, getZ (lh_block l) t) <$> seqZ 0 (lh_n l)).
Proof.
  intros Hl. apply NoDup_fmap_2_strong; [|apply NoDup_seqZ].
  intros i j Hi%elem_of_seqZ Hj%elem_of_seqZ Heq.
  assert (Z.to_nat i = Z.to_nat j); [|lia].
  eapply NoDup_lookup; [apply (log_nodup l Hl)|apply (logged_lookup l i Hl); lia|].
  rewrite Heq. apply (logged_lookup l j Hl). lia.
Qed.

Lemma slot_nodup l : NoDup ((λ t, lg_start l + t + 1) <$> seqZ 0 (lh_n l)).
Proof. apply NoDup_fmap_2_strong; [|apply NoDup_seqZ]. intros i j _ _. lia. Qed.

Lemma slot_ne l t t' :
  log_shape l → 0 <= t < lh_n l → 0 <= t' < lh_n l →
  getZ (lh_block l) t ≠ lg_start l + t' + 1 ∧
  0 <= lg_start l + t' + 1 < dd_size (bc_drv (lg_bc l)) ∧
  0 <= getZ (lh_block l) t < dd_size (bc_drv (lg_bc l)).
Proof.
  intros Hl Ht Ht'. destruct (logged_range l t Hl Ht) as (_ & _ & [? Hr]).
  pose proof (geom_end l (log_geo l Hl)). pose proof (geom_start l (log_geo l Hl)).
  pose proof (log_n l Hl). split_and!; [intros ?; apply Hr|..]; lia.
Qed.

(** Each loop of the log is a loop of [copy_block]. *)
Lemma write_log_eq l :
  log_shape l → write_log l = for_each (seqZ 0 (lh_n l))
    (λ t, bc (copy_block (getZ (lh_block l) t) (lg_start l + t + 1) false)) l.
Proof.
  intros Hl. unfold write_log, get_log. run. rewrite (geom_dev l (log_geo l Hl)).
  apply for_each_ext. intros t Ht%elem_of_seqZ.
  by destruct (logged_range l t) as (_ & -> & _); [done|lia|].
Qed.

Lemma install_trans_eq l :
  lg_dev l = dd_dev → (∀ t, 0 <= t < lh_n l → u32 (getZ (lh_block l) t) = getZ (lh_block l) t) →
  install_trans l = for_each (seqZ 0 (lh_n l))
    (λ t, bc (copy_block (lg_start l + t + 1) (getZ (lh_block l) t) true)) l.
Proof.
  intros Hdev Hb. unfold install_trans, get_log. run. rewrite Hdev.
  apply for_each_ext. intros t Ht%elem_of_seqZ. by rewrite Hb by lia.
Qed.

(** ** The commit *)

Lemma write_log_spec l :
  log_inv l → quiet (lg_bc l) → (S (length (logged l)) <= NBUF)%nat →
  ∃ s', write_log l = Ok tt (set_bc s' l) ∧ wrotes (lg_bc l) (log_writes l (view (lg_bc l))) s'.
Proof.
  intros Hl Hq Hcap. rewrite (write_log_eq l Hl).
  destruct (copies_spec (lg_bc l) (λ t, getZ (lh_block l) t) (λ t, lg_start l + t + 1) false
    (logged l) (seqZ 0 (lh_n l))) as (s' & Hrun & Hw).
  - apply Hl.
  - done.
  - intros t Ht%elem_of_seqZ. destruct (slot_ne l t t Hl) as (_ & ? & ?); [lia..|done].
  - intros t t' Ht%elem_of_seqZ Ht'%elem_of_seqZ. apply (slot_ne l _ _ Hl); lia.
  - apply slot_nodup.
  - intros m. apply (log_dirty l Hl).
  - done.
  - left. intros t Ht%elem_of_seqZ. apply (log_dirty l Hl), (logged_elem l t Hl). lia.
  - exists s'. split; [by apply for_each_bc|done].
Qed.

Lemma install_trans_spec l (s : bcache D) :
  log_shape l → bc_inv s → quiet s → dd_size (bc_drv s) = dd_size (bc_drv (lg_bc l)) →
  (∀ m, dirtyblk s m ↔ m ∈ logged l) → (S (length (logged l)) <= NBUF)%nat →
  ∃ s', install_trans (set_bc s l) = Ok tt (set_bc s' l) ∧
    wrotes s (home_writes l (λ t, view s (lg_start l + t + 1))) s'.
Proof.
  intros Hl Hs Hq Hsz Hd Hcap. rewrite install_trans_eq.
  2: { apply (log_geo l Hl). }
  2: { intros t Ht. by apply (logged_range l t). }
  destruct (copies_spec s (λ t, lg_start l + t + 1) (λ t, getZ (lh_block l) t) true
    (logged l) (seqZ 0 (lh_n l))) as (s' & Hrun & Hw).
  - done.
  - done.
  - intros t Ht%elem_of_seqZ. rewrite Hsz. destruct (slot_ne l t t Hl) as (_ & ? & ?); [lia..|done].
  - intros t t' Ht%elem_of_seqZ Ht'%elem_of_seqZ. symmetry. apply (slot_ne l _ _ Hl); lia.
  - apply (home_nodup l Hl).
  - intros m. apply Hd.
  - done.
  - left. intros t Ht%elem_of_seqZ. apply Hd, (logged_elem l t Hl). lia.
  - exists s'. split; [|done].
    exact (for_each_bc _ _ (set_bc s l) s' Hrun).
Qed.

(** The writes of a commit, in order: the log, the header that commits, the
    home locations, the header that clears the log. *)
Definition commit_head l : block :=
  head_of (lh_n l) (lh_block l) (view (lg_bc l) (lg_start l)).
Definition commit_writes l : list (Z * block) :=
  log_writes l (view (lg_bc l)) ++
  (lg_start l, commit_head l) ::
  home_writes l (λ t, view (lg_bc l) (getZ (lh_block l) t)) ++
  [(lg_start l, set_hd_n (commit_head l) 0)].

Lemma start_not_written l v v' :
  log_shape l → (lg_start l ∉ (log_writes l v).*1) ∧ (lg_start l ∉ (home_writes l v').*1).
Proof.
  intros Hl. unfold log_writes, home_writes. rewrite <-!list_fmap_compose.
  split; intros (t & Heq & Ht%elem_of_seqZ)%list_elem_of_fmap; simpl in Heq; [lia|].
  destruct (logged_range l t Hl) as (_ & _ & [_ Hr]); [lia|].
  pose proof (geom_size l (log_geo l Hl)). apply Hr. rewrite <-Heq. lia.
Qed.

Lemma view_slot l s' t :
  log_inv l → wrotes (lg_bc l) (log_writes l (view (lg_bc l))) s' → 0 <= t < lh_n l →
  view s' (lg_start l + t + 1) = view (lg_bc l) (getZ (lh_block l) t).
Proof.
  intros Hl Hw Ht. rewrite (wrotes_view _ _ _ Hw). apply apply_writes_in.
  - unfold log_writes. rewrite <-list_fmap_compose. apply slot_nodup.
  - unfold log_writes. apply list_elem_of_fmap. exists t.
    split; [done|]. apply elem_of_seqZ. lia.
Qed.

Lemma commit_run l :
  log_inv l → quiet (lg_bc l) → (S (length (logged l)) <= NBUF)%nat → 0 < lh_n l →
  ∃ s', commit l = Ok tt (set_lh_n 0 (set_bc s' l)) ∧ wrotes (lg_bc l) (commit_writes l) s'.
Proof.
  intros Hl Hq Hcap Hn. pose proof (log_geo l Hl) as Hg. pose proof Hg as [Hgd Hgs Hgz Hge].
  destruct (write_log_spec l Hl Hq Hcap) as (s1 & H1 & Hw1).
  pose proof Hw1 as [Hs1 Hq1 Hsz1 _ _ Hv1 Hd1].
  destruct (start_not_written l (view (lg_bc l))
    (λ t, view (lg_bc l) (getZ (lh_block l) t)) Hl) as [Hst Hst'].
  assert (view s1 (lg_start l) = view (lg_bc l) (lg_start l)) as Hvst
    by (by rewrite Hv1, apply_writes_ne).
  assert (∀ m, dirtyblk s1 m ↔ m ∈ logged l) as Hd1'.
  { intros m. rewrite Hd1, <-(log_dirty l Hl m). split; [tauto|]. intros Hm. split; [|done].
    unfold log_writes. rewrite <-list_fmap_compose.
    intros (t & -> & Ht%elem_of_seqZ)%list_elem_of_fmap. simpl in Hm.
    apply (log_dirty l Hl), (log_data l Hl) in Hm as [_ Hm]. pose proof (log_n l Hl). lia. }
  destruct (write_head_spec (set_bc s1 l) (logged l)) as (s2 & H2 & Hw2);
    [by split; simpl; rewrite ?Hsz1|done|done|by intros m ?%Hd1'|done|apply (log_n l Hl)|].
  simpl in Hw2. rewrite Hvst in Hw2. fold (commit_head l) in Hw2.
  pose proof Hw2 as [Hs2 Hq2 Hsz2 _ _ Hv2 Hd2].
  assert (∀ m, dirtyblk s2 m ↔ m ∈ logged l) as Hd2'.
  { intros m. rewrite Hd2, Hd1'. split; [tauto|]. intros Hm. split; [|done].
    intros Heq%list_elem_of_singleton. simpl in Heq. subst m.
    apply (log_data l Hl) in Hm as [_ Hm]. lia. }
  destruct (install_trans_spec l s2 Hl) as (s3 & H3 & Hw3); [done|done|congruence|done|done|].
  assert (home_writes l (λ t, view s2 (lg_start l + t + 1)) =
          home_writes l (λ t, view (lg_bc l) (getZ (lh_block l) t))) as Hhw.
  { unfold home_writes. apply list_fmap_ext. intros i t Ht%list_elem_of_lookup_2%elem_of_seqZ.
    rewrite Hv2. simpl. rewrite fupd_ne by lia. rewrite (view_slot l s1 t) by (done || lia). done. }
  rewrite Hhw in Hw3. pose proof Hw3 as [Hs3 Hq3 Hsz3 _ _ Hv3 Hd3].
  destruct (write_head_spec (set_lh_n 0 (set_bc s3 l)) (logged l)) as (s4 & H4 & Hw4).
  { split; simpl; [done..|]. by rewrite Hsz3, Hsz2, Hsz1. }
  { done. } { done. } { intros m Hm. simpl in Hm. by apply Hd3 in Hm as [_ ?%Hd2']. }
  { done. } { simpl. unfold LOGSIZE, MAXOPBLOCKS. lia. }
  simpl in Hw4. rewrite Hv3, apply_writes_ne, Hv2 in Hw4 by done.
  simpl in Hw4. rewrite fupd_eq in Hw4.
  exists s4. split.
  - unfold commit. run. rewrite (proj2 (Z.ltb_lt 0 (lh_n l))) by done.
    rewrite (bind_run _ _ _ _ _ H1), (bind_run _ _ _ _ _ H2).
    change (set_bc s2 (set_bc s1 l)) with (set_bc s2 l).
    rewrite (bind_run _ _ _ _ _ H3). run.
    change (set_lh_n 0 (set_bc s4 l)) with (set_bc s4 (set_lh_n 0 (set_bc s3 l))). done.
  - unfold commit_writes. eapply wrotes_trans; [done|].
    apply (wrotes_trans _ [_] s2); [done|]. eapply wrotes_trans; [done|].
    change (seqZ 0 0) with (@nil Z) in Hw4. done.
Qed.

(** ** Recovery

    On bare disks: what the header says was committed is copied home, and the
    header is cleared. *)

Definition recover_writes (start : Z) (d : disk) : list (Z * block) :=
  (λ t, (hd_block (d start) t, d (start + t + 1))) <$> seqZ 0 (hd_n (d start)).
Definition recover_disk (start : Z) (d : disk) : disk :=
  fupd (apply_writes (recover_writes start d) d) start (set_hd_n (d start) 0).

(** The log in memory at boot: nothing is cached yet. *)
Record fresh l : Prop := {
  fresh_geo :> log_geom l;
  fresh_cache : empty_cache (lg_bc l);
  fresh_len : Z.of_nat (length (lh_block l)) = LOGSIZE
}.

(** A header that can be installed. *)
Record header_ok l (h : block) : Prop := {
  hd_bound : 0 <= hd_n h <= LOGSIZE ∧ hd_n h <= lg_size l - 1;
  hd_nodup : NoDup (hd_block h <$> seqZ 0 (hd_n h));
  hd_data : ∀ t, 0 <= t < hd_n h → data_block l (hd_block h t)
}.

(** The log at boot, before the header is read. *)
Record boot l : Prop := {
  boot_fresh :> fresh l;
  boot_head : header_ok l (dd_block (bc_drv (lg_bc l)) (lg_start l))
}.

(** The in-memory header after read_head. *)
Definition load_head (h : block) (blocks : list Z) : list Z :=
  foldl (λ bl i, setZ bl i (hd_block h i)) blocks (seqZ 0 (hd_n h)).

Lemma load_fold (h : block) (n : nat) blocks :
  (n <= length blocks)%nat →
  let bl := foldl (λ bl i, setZ bl i (hd_block h i)) blocks (seqZ 0 (Z.of_nat n)) in
  length bl = length blocks ∧ take n bl = hd_block h <$> seqZ 0 (Z.of_nat n).
Proof.
  intros Hn. induction n as [|n IH]; simpl; [done|]. destruct IH as [Hlen Ht]; [lia|].
  rewrite Nat2Z.inj_succ, <-Z.add_1_r, seqZ_app, foldl_app, fmap_app by lia.
  change (seqZ (0 + Z.of_nat n) 1) with [0 + Z.of_nat n]. cbn [foldl fmap list_fmap].
  set (bl := foldl _ blocks _) in *. unfold setZ. rewrite Z.add_0_l, Nat2Z.id.
  split; [by rewrite length_insert|].
  rewrite (take_S_r _ _ (hd_block h (Z.of_nat n))) by (apply list_lookup_insert_eq; lia).
  by rewrite take_insert_ge, Ht by lia.
Qed.

Lemma run_modify_loop {X} (f : X → logst D → logst D) (ts : list X) l :
  for_each ts (λ t, modify (f t)) l = Ok tt (foldl (λ l t, f t l) l ts).
Proof. revert l. induction ts as [|t ts IH]; intros l; [done|]. apply (IH (f t l)). Qed.

Lemma load_loop (h : block) l ts :
  foldl (λ l t, set_lh_block (setZ (lh_block l) t (hd_block h t)) l) l ts =
  set_lh_block (foldl (λ bl i, setZ bl i (hd_block h i)) (lh_block l) ts) l.
Proof.
  revert l. induction ts as [|t ts IH]; intros l; simpl; [by destruct l|]. by rewrite IH.
Qed.

Lemma read_head_spec l :
  log_geom l → empty_cache (lg_bc l) →
  let h := dd_block (bc_drv (lg_bc l)) (lg_start l) in
  ∃ s', read_head l =
      Ok tt (set_bc s' (set_lh_block (load_head h (lh_block l)) (set_lh_n (hd_n h) l))) ∧
    wrotes (lg_bc l) [] s'.
Proof.
  intros Hg He h. pose proof He as (Hs & Hnc & Hv).
  destruct (bread_spec (lg_bc l) (lg_start l) Hs) as (b & s1 & H1 & [Hs1 Hdrv1 _ _ Hh1 Hv1 Hd1]).
  { destruct Hg. lia. }
  { intros i [Hc _]. by destruct (Hnc i (lg_start l)). }
  { right. by apply empty_has_free. }
  assert (heldblk s1 b (lg_start l)) as Hb by (apply Hh1; by left).
  destruct (brelse_spec s1 b (lg_start l) Hs1 Hb) as (s2 & H2 & [Hs2 Hdrv2 _ Hh2 Hv2 Hd2]).
  { right. by rewrite Hv1, Hdrv1, Hv. }
  exists s2. split.
  - unfold read_head, get_log. run. rewrite (geom_dev l Hg).
    rewrite (bind_run _ _ _ _ _ (bc_run _ _ _ _ H1)). run.
    assert (bdata b (lg_bc (set_bc s1 l)) = h) as ->.
    { simpl. by rewrite <-(held_view s1 b (lg_start l)), Hv1, Hv. }
    rewrite (bind_run _ _ _ _ _ (run_modify_loop _ _ _)), load_loop.
    exact (bc_run (brelse b) (set_lh_block _ (set_lh_n _ (set_bc s1 l))) tt s2 H2).
  - split; [done| |by rewrite Hdrv2, Hdrv1|by rewrite app_nil_r, Hdrv2, Hdrv1|..].
    + intros i m. rewrite Hh2, Hh1. intros [? [[? _]|[Hc _]]]; [done|]. by eapply Hnc.
    + intros m. by rewrite Hdrv2, Hdrv1.
    + intros m. by rewrite Hv2, Hv1.
    + intros m. rewrite Hd2, Hd1. set_solver.
Qed.

Lemma boot_shape l :
  boot l → let h := dd_block (bc_drv (lg_bc l)) (lg_start l) in
  log_shape (set_lh_block (load_head h (lh_block l)) (set_lh_n (hd_n h) l)) ∧
  ∀ t, 0 <= t < hd_n h → getZ (load_head h (lh_block l)) t = hd_block h t.
Proof.
  intros [[Hg He Hlen] [Hb Hnd Hdata]] h. fold h in Hb, Hnd, Hdata.
  destruct (load_fold h (Z.to_nat (hd_n h)) (lh_block l)) as [Hl Ht]; [lia|].
  rewrite Z2Nat.id in * by lia. fold (load_head h (lh_block l)) in Hl, Ht. split.
  - split; simpl; [by destruct Hg|congruence|done|..]; unfold logged; simpl; rewrite Ht; [done|].
    intros m (t & -> & Hin%elem_of_seqZ)%list_elem_of_fmap. apply Hdata. lia.
  - intros t Htr. unfold getZ. apply list_lookup_total_correct.
    rewrite <-(lookup_take_lt _ (Z.to_nat (hd_n h))), Ht, list_lookup_fmap by lia.
    rewrite lookup_seqZ_lt by lia. simpl. do 2 f_equal. lia.
Qed.

Lemma recover_run l :
  boot l → let d := dd_block (bc_drv (lg_bc l)) in
  ∃ s', recover_from_log l =
      Ok tt (set_lh_n 0 (set_bc s' (set_lh_block (load_head (d (lg_start l)) (lh_block l)) l))) ∧
    wrotes (lg_bc l) (recover_writes (lg_start l) d ++ [(lg_start l, set_hd_n (d (lg_start l)) 0)]) s'.
Proof.
  intros Hl d. destruct (boot_shape l Hl) as [Hsh Hbl].
  pose proof Hl as [[Hg (Hs & Hnc & Hv) _] Hh]. set (h := dd_block _ _) in *.
  destruct (read_head_spec l Hg (fresh_cache l Hl)) as (s1 & H1 & Hw1). fold h in H1.
  pose proof Hw1 as [Hs1 Hq1 Hsz1 _ Hb1 Hv1 Hd1]. simpl in Hb1, Hv1.
  set (l1 := set_lh_block (load_head h (lh_block l)) (set_lh_n (hd_n h) l)) in *.
  assert (∀ m, ¬ dirtyblk s1 m) as Hnd1.
  { intros m [_ (i & Hc & _)]%Hd1. by destruct (Hnc i m). }
  destruct (copies_spec s1 (λ t, lg_start l1 + t + 1) (λ t, getZ (lh_block l1) t) true
    [] (seqZ 0 (lh_n l1))) as (s2 & H2 & Hw2).
  { done. } { done. }
  { intros t Ht%elem_of_seqZ. rewrite Hsz1.
    by destruct (slot_ne l1 t t Hsh) as (_ & ? & ?); [lia..|]. }
  { intros t t' Ht%elem_of_seqZ Ht'%elem_of_seqZ. symmetry. apply (slot_ne l1 _ _ Hsh); lia. }
  { apply (home_nodup l1 Hsh). } { intros m ?. by destruct (Hnd1 m). }
  { vm_compute; lia. } { right. vm_compute; lia. }
  assert (((λ t, (getZ (lh_block l1) t, view s1 (lg_start l1 + t + 1))) <$> seqZ 0 (lh_n l1)) =
    recover_writes (lg_start l) d) as Heq.
  { unfold recover_writes. fold h. apply list_fmap_ext.
    intros i t Ht%list_elem_of_lookup_2%elem_of_seqZ. unfold d.
    change (hd_n (d (lg_start l))) with (hd_n h) in Ht.
    rewrite Hv1, Hv. simpl. by rewrite Hbl by lia. }
  rewrite Heq in Hw2. pose proof Hw2 as [Hs2 Hq2 Hsz2 _ _ Hv2 Hd2].
  destruct (write_head_spec (set_lh_n 0 (set_bc s2 l1)) []) as (s3 & H3 & Hw3).
  { destruct Hg. split; simpl; [done..|]. by rewrite Hsz2, Hsz1. }
  { done. } { done. } { intros m Hm. simpl in Hm. apply Hd2 in Hm as [_ Hm]. by destruct (Hnd1 m). }
  { vm_compute; lia. } { simpl. unfold LOGSIZE, MAXOPBLOCKS. lia. }
  simpl in Hw3.
  assert (view s2 (lg_start l) = d (lg_start l)) as Hvs.
  { rewrite Hv2, apply_writes_ne, Hv1, Hv; [done|]. unfold recover_writes. change (d (lg_start l)) with h.
    rewrite <-list_fmap_compose. intros (t & Ht & Hin%elem_of_seqZ)%list_elem_of_fmap.
    simpl in Ht. destruct (hd_data l h Hh t) as [_ Hn]; [lia|].
    apply Hn. rewrite <-Ht. destruct Hg. lia. }
  rewrite Hvs in Hw3. exists s3. split.
  - unfold recover_from_log. rewrite (bind_run _ _ _ _ _ H1).
    rewrite (bind_run install_trans _ _ tt (set_bc s2 l1)).
    + run. rewrite H3. done.
    + rewrite (install_trans_eq (set_bc s1 l1)); [exact (for_each_bc _ _ (set_bc s1 l1) s2 H2)|apply Hg|].
      intros t Ht. apply (logged_range l1 t Hsh Ht).
  - eapply (wrotes_trans _ []); [done|]. by eapply wrotes_trans.
Qed.

Lemma recover_disk_writes start d m :
  apply_writes (recover_writes start d ++ [(start, set_hd_n (d start) 0)]) d m = recover_disk start d m.
Proof. by rewrite apply_writes_app. Qed.

(** ** Crashes *)

Lemma home_keys l v : log_shape l → (home_writes l v).*1 = logged l.
Proof.
  intros Hl. unfold home_writes. rewrite <-list_fmap_compose. apply list_eq. intros i.
  rewrite list_lookup_fmap. destruct (decide (i < Z.to_nat (lh_n l))%nat).
  - rewrite lookup_seqZ_lt by lia. simpl. rewrite <-(logged_lookup l (0 + Z.of_nat i) Hl) by lia.
    f_equal. lia.
  - rewrite lookup_seqZ_ge by lia. simpl. symmetry. apply lookup_ge_None.
    pose proof (length_logged l Hl). lia.
Qed.

(** Writing the transaction home gives every block its new contents. *)
Lemma home_apply l v d m :
  log_shape l → (m ∉ logged l → d m = v m) →
  apply_writes (home_writes l (λ t, v (getZ (lh_block l) t))) d m = v m.
Proof.
  intros Hl Hd. destruct (decide (m ∈ logged l)) as [Hm|Hm].
  - apply apply_writes_in; [rewrite home_keys by done; apply (log_nodup l Hl)|].
    rewrite <-(home_keys l (λ t, v (getZ (lh_block l) t))) in Hm by done.
    unfold home_writes in *. rewrite <-list_fmap_compose in Hm.
    apply list_elem_of_fmap in Hm as (t & -> & Ht). apply list_elem_of_fmap. by exists t.
  - rewrite apply_writes_ne; [by apply Hd|]. by rewrite home_keys.
Qed.

Lemma take_home l v j :
  log_shape l → ∀ m, m ∈ (take j (home_writes l v)).*1 → m ∈ logged l.
Proof.
  intros Hl m Hm. rewrite <-(home_keys l v Hl).
  apply list_elem_of_fmap in Hm as (w & -> & Hw%elem_of_take).
  destruct Hw as (i & Hw & _). apply list_elem_of_fmap_2, (list_elem_of_lookup_2 _ _ _ Hw).
Qed.

Lemma log_keys l v m :
  log_shape l → m ∈ (log_writes l v).*1 → lg_start l < m < lg_start l + lg_size l.
Proof.
  intros Hl Hm. unfold log_writes in Hm. rewrite <-list_fmap_compose in Hm.
  apply list_elem_of_fmap in Hm as (t & -> & Ht%elem_of_seqZ). simpl.
  pose proof (log_n l Hl). lia.
Qed.

(** The disk after the first [k] writes of a commit, and what it recovers to. *)
Definition crash_disk l (k : nat) : disk :=
  apply_writes (take k (commit_writes l)) (dd_block (bc_drv (lg_bc l))).

Lemma length_log_writes l v : length (log_writes l v) = Z.to_nat (lh_n l).
Proof. unfold log_writes. by rewrite length_fmap, length_seqZ. Qed.
Lemma length_home_writes l v : length (home_writes l v) = Z.to_nat (lh_n l).
Proof. unfold home_writes. by rewrite length_fmap, length_seqZ. Qed.

(** The commit is cut before, between or after the two header writes. *)
Lemma take_commit l k :
  let n := Z.to_nat (lh_n l) in
  let logs := log_writes l (view (lg_bc l)) in
  let homes := home_writes l (λ t, view (lg_bc l) (getZ (lh_block l) t)) in
  (k <= length (commit_writes l))%nat →
  ((k <= n)%nat ∧ take k (commit_writes l) = take k logs) ∨
  (n < k)%nat ∧ ((∃ j, take k (commit_writes l) = logs ++ (lg_start l, commit_head l) :: take j homes) ∨
  take k (commit_writes l) = logs ++ (lg_start l, commit_head l) :: homes ++
    [(lg_start l, set_hd_n (commit_head l) 0)]).
Proof.
  intros n logs homes. unfold commit_writes. fold logs homes.
  pose proof (length_log_writes l (view (lg_bc l))) as Hl. fold logs n in Hl.
  pose proof (length_home_writes l (λ t, view (lg_bc l) (getZ (lh_block l) t))) as Hh.
  fold homes n in Hh. rewrite length_app. cbn [length]. rewrite length_app. simpl. intros Hk.
  destruct (decide (k <= n)%nat) as [Hkn|Hkn]; [left|right; split; [lia|]].
  - split; [done|]. rewrite take_app_le by lia. done.
  - rewrite take_app_ge by lia.
    destruct (k - length logs)%nat as [|j] eqn:Hj; [lia|]. simpl.
    destruct (decide (j <= n)%nat); [left|right].
    + exists j. by rewrite take_app_le by lia.
    + rewrite (take_ge (homes ++ _)); [done|]. rewrite length_app. simpl. lia.
Qed.

Lemma commit_head_spec l :
  log_inv l → length (commit_head l) = BSIZE ∧ hd_n (commit_head l) = lh_n l ∧
  ∀ t, 0 <= t < lh_n l → hd_block (commit_head l) t = getZ (lh_block l) t.
Proof.
  intros Hl.
  destruct (head_of_spec (lh_n l) (lh_block l) (view (lg_bc l) (lg_start l))) as (? & ? & Hb).
  - apply length_view, (log_cache l Hl).
  - apply (log_n l Hl).
  - split_and!; [done..|]. intros t Ht. apply Hb; [done|]. apply (logged_range l t Hl Ht).
Qed.

Lemma hd_n_clear d : length d = BSIZE → hd_n (set_hd_n d 0) = 0.
Proof.
  intros Hd. unfold hd_n, set_hd_n. by rewrite getw_putw_eq by (unfold BSIZE in Hd; lia).
Qed.

Lemma recover_clear start d m : hd_n (d start) = 0 → m ≠ start → recover_disk start d m = d m.
Proof.
  intros H Hm. unfold recover_disk, recover_writes. rewrite H. by rewrite fupd_ne.
Qed.

(** Outside the transaction the cache shows what is on the disk. *)
Lemma clean_data l m :
  log_inv l → quiet (lg_bc l) → m ∉ logged l →
  dd_block (bc_drv (lg_bc l)) m = view (lg_bc l) m.
Proof.
  intros Hl Hq Hm. destruct (clean_view (lg_bc l) m) as [Hd|]; [apply Hl| | |done].
  - intros i. apply Hq.
  - by apply (log_dirty l Hl) in Hd.
Qed.

Lemma recover_logged l (d : disk) m :
  log_inv l → quiet (lg_bc l) → d (lg_start l) = commit_head l → m ≠ lg_start l →
  (∀ t, 0 <= t < lh_n l → d (lg_start l + t + 1) = view (lg_bc l) (getZ (lh_block l) t)) →
  (m ∉ logged l → d m = view (lg_bc l) m) →
  recover_disk (lg_start l) d m = view (lg_bc l) m.
Proof.
  intros Hl Hq Hh Hm Hs Hd. destruct (commit_head_spec l Hl) as (_ & Hn & Hb).
  unfold recover_disk. rewrite fupd_ne by done. unfold recover_writes. rewrite Hh, Hn.
  replace (_ <$> seqZ 0 (lh_n l)) with
    (home_writes l (λ t, view (lg_bc l) (getZ (lh_block l) t))); [by apply (home_apply l _ _ _ Hl)|].
  apply list_fmap_ext. intros i t Ht%list_elem_of_lookup_2%elem_of_seqZ.
  by rewrite Hb, Hs by lia.
Qed.

Lemma header_clear l h : log_geom l → hd_n h = 0 → header_ok l h.
Proof.
  intros Hg Hn. split; rewrite Hn.
  - destruct Hg. unfold LOGSIZE, MAXOPBLOCKS. lia.
  - constructor.
  - lia.
Qed.

Lemma header_logged l : log_inv l → header_ok l (commit_head l).
Proof.
  intros Hl. destruct (commit_head_spec l Hl) as (_ & Hn & Hb). split; rewrite Hn.
  - apply (log_n l Hl).
  - replace (_ <$> seqZ 0 (lh_n l)) with ((λ t, getZ (lh_block l) t) <$> seqZ 0 (lh_n l)).
    + apply (home_nodup l Hl).
    + apply list_fmap_ext. intros i t Ht%list_elem_of_lookup_2%elem_of_seqZ. symmetry. apply Hb. lia.
  - intros t Ht. rewrite Hb by done. apply (logged_range l t Hl Ht).
Qed.

Lemma crash_recovers l k m :
  log_inv l → quiet (lg_bc l) → (k <= length (commit_writes l))%nat →
  header_ok l (crash_disk l k (lg_start l)) ∧
  (data_block l m → recover_disk (lg_start l) (crash_disk l k) m =
    if decide (k <= Z.to_nat (lh_n l))%nat then dd_block (bc_drv (lg_bc l)) m else view (lg_bc l) m).
Proof.
  intros Hl Hq Hk. set (v := view (lg_bc l)). set (d0 := dd_block (bc_drv (lg_bc l))).
  set (homes := home_writes l (λ t, v (getZ (lh_block l) t))).
  destruct (start_not_written l v (λ t, v (getZ (lh_block l) t)) Hl) as [Hst Hst'].
  destruct (commit_head_spec l Hl) as (Hlen & Hhn & _).
  pose proof (geom_size l (log_geo l Hl)) as Hgz.
  assert (∀ j, lg_start l ∉ (take j homes).*1) as Hhomes.
  { intros j Hin%(take_home l _ j Hl). apply (log_data l Hl) in Hin as [_ Hin]. lia. }
  assert (∀ j, lg_start l ∉ (take j (log_writes l v)).*1) as Hlogs.
  { intros j Hin. apply Hst. rewrite <-(take_drop j (log_writes l v)), fmap_app. set_solver. }
  assert (data_block l m → m ∉ (log_writes l v).*1) as Hmlog.
  { intros [_ Hm] Hin%(log_keys l v m Hl). lia. }
  assert (data_block l m → m ≠ lg_start l) as Hmst.
  { intros [_ Hm] ->. lia. }
  destruct (take_commit l k Hk) as [[Hkn Ht]|[Hkn [[j Ht]|Ht]]]; unfold crash_disk;
    rewrite Ht; fold v d0 homes.
  - assert (hd_n (apply_writes (take k (log_writes l v)) d0 (lg_start l)) = 0) as H0.
    { rewrite apply_writes_ne by done. apply (log_clear l Hl). }
    split; [exact (header_clear l _ Hl H0)|]. intros Hm. rewrite decide_True by done.
    rewrite recover_clear by auto. apply apply_writes_ne. intros Hin. apply (Hmlog Hm).
    rewrite <-(take_drop k (log_writes l v)), fmap_app. set_solver.
  - rewrite apply_writes_app. cbn [apply_writes foldl fst snd].
    fold (apply_writes (log_writes l v) d0).
    set (d1 := fupd (apply_writes (log_writes l v) d0) (lg_start l) (commit_head l)).
    fold (apply_writes (take j homes) d1).
    assert (apply_writes (take j homes) d1 (lg_start l) = commit_head l) as Hh.
    { rewrite apply_writes_ne by done. apply fupd_eq. }
    rewrite Hh. split; [by apply header_logged|]. intros Hm. rewrite decide_False by lia.
    apply recover_logged; auto.
    + intros t Htr. rewrite apply_writes_ne.
      * unfold d1. rewrite fupd_ne by lia. apply apply_writes_in.
        -- unfold log_writes. rewrite <-list_fmap_compose. apply slot_nodup.
        -- apply list_elem_of_fmap. exists t. split; [done|]. apply elem_of_seqZ. lia.
      * intros Hin%(take_home l _ j Hl). apply (log_data l Hl) in Hin as [_ Hin].
        pose proof (log_n l Hl). lia.
    + intros Hml. rewrite apply_writes_ne.
      * unfold d1. rewrite fupd_ne, apply_writes_ne by auto. by apply clean_data.
      * by intros Hin%(take_home l _ j Hl).
  - rewrite apply_writes_app. cbn [apply_writes foldl fst snd].
    fold (apply_writes (log_writes l v) d0).
    set (d1 := fupd (apply_writes (log_writes l v) d0) (lg_start l) (commit_head l)).
    rewrite foldl_app. cbn [foldl fst snd]. fold (apply_writes homes d1).
    set (d2 := fupd _ (lg_start l) (set_hd_n _ 0)).
    assert (hd_n (d2 (lg_start l)) = 0) as H0.
    { unfold d2. rewrite fupd_eq. by apply hd_n_clear. }
    split; [exact (header_clear l _ Hl H0)|]. intros Hm. rewrite decide_False by lia.
    rewrite recover_clear by auto. unfold d2. rewrite fupd_ne by auto.
    apply home_apply; [apply Hl|]. intros Hml. unfold d1.
    rewrite fupd_ne, apply_writes_ne by auto. by apply clean_data.
Qed.

(** ** Recovery and commit, from the state they leave *)

Lemma recover_ok l :
  boot l → let d := dd_block (bc_drv (lg_bc l)) in
  ∃ l1, recover_from_log l = Ok tt l1 ∧ log_inv l1 ∧ quiet (lg_bc l1) ∧ lh_n l1 = 0 ∧
    lg_start l1 = lg_start l ∧ lg_size l1 = lg_size l ∧
    (∀ m, dd_block (bc_drv (lg_bc l1)) m = recover_disk (lg_start l) d m) ∧
    (∀ m, view (lg_bc l1) m = recover_disk (lg_start l) d m) ∧
    dd_hist (bc_drv (lg_bc l1)) = dd_hist (bc_drv (lg_bc l)) ++
      recover_writes (lg_start l) d ++ [(lg_start l, set_hd_n (d (lg_start l)) 0)].
Proof.
  intros Hl d. destruct (recover_run l Hl) as (s' & Hrun & Hw). fold d in Hrun, Hw.
  pose proof Hw as [Hs Hq Hsz Hhist Hdisk Hview Hd].
  pose proof (fresh_cache l Hl) as (Hs0 & Hnc & Hv).
  assert (∀ m, ¬ dirtyblk s' m) as Hnd.
  { intros m [_ (i & Hc & _)]%Hd. by destruct (Hnc i m). }
  assert (∀ m, dd_block (bc_drv s') m = recover_disk (lg_start l) d m) as Hdisk'.
  { intros m. by rewrite Hdisk, recover_disk_writes. }
  eexists. split; [done|]. split_and!; simpl; try done.
  - pose proof (fresh_geo l Hl) as [? ? ? ?]. split.
    + split; simpl.
      * split; simpl; [done..|]. by rewrite Hsz.
      * rewrite <-(fresh_len l Hl). f_equal.
        destruct (boot_shape l Hl) as [[_ Hlen _ _ _] _]. simpl in Hlen.
        pose proof (fresh_len l Hl). unfold d. lia.
      * unfold LOGSIZE, MAXOPBLOCKS. lia.
      * constructor.
      * unfold logged; simpl. intros m. by rewrite elem_of_nil.
    + done.
    + intros m. unfold logged; simpl. rewrite elem_of_nil. pose proof (Hnd m). tauto.
    + simpl. rewrite Hdisk'. unfold recover_disk. rewrite fupd_eq.
      apply hd_n_clear, (inv_blocks _ Hs0).
  - intros m. rewrite Hview, <-recover_disk_writes. by apply apply_writes_ext.
Qed.

Lemma commit_ok l :
  log_inv l → quiet (lg_bc l) → (S (length (logged l)) <= NBUF)%nat → 0 < lh_n l →
  ∃ l', commit l = Ok tt l' ∧ log_inv l' ∧ quiet (lg_bc l') ∧ lh_n l' = 0 ∧
    l' = set_lh_n 0 (set_bc (lg_bc l') l) ∧
    wrotes (lg_bc l) (commit_writes l) (lg_bc l') ∧
    ∀ m, data_block l m →
      dd_block (bc_drv (lg_bc l')) m = view (lg_bc l) m ∧ view (lg_bc l') m = view (lg_bc l) m.
Proof.
  intros Hl Hq Hcap Hn. destruct (commit_run l Hl Hq Hcap Hn) as (s' & Hrun & Hw).
  pose proof Hw as [Hs' Hq' Hsz _ Hb Hv Hd].
  assert (∀ m, ¬ dirtyblk s' m) as Hnd.
  { intros m [Hm Hdm]%Hd. apply (log_dirty l Hl) in Hdm. apply Hm.
    unfold commit_writes. rewrite fmap_app. cbn [fmap list_fmap]. rewrite fmap_app, home_keys by apply Hl.
    set_solver. }
  pose proof (geom_size l (log_geo l Hl)) as Hgz.
  assert (dd_block (bc_drv s') (lg_start l) = set_hd_n (commit_head l) 0) as Hst.
  { rewrite Hb. unfold commit_writes. rewrite app_comm_cons, app_assoc, apply_writes_app. apply fupd_eq. }
  assert (∀ m, data_block l m → dd_block (bc_drv s') m = view (lg_bc l) m) as Hfin.
  { intros m Hm.
    destruct (crash_recovers l (length (commit_writes l)) m Hl Hq) as [_ Hrec]; [lia|].
    assert (Z.to_nat (lh_n l) < length (commit_writes l))%nat as Hlen.
    { unfold commit_writes. rewrite length_app, length_log_writes. simpl. lia. }
    rewrite decide_False in Hrec by lia. rewrite <-Hrec by done.
    unfold crash_disk. rewrite take_ge by lia. rewrite recover_clear.
    - by rewrite Hb.
    - rewrite <-Hb, Hst. apply hd_n_clear. by destruct (commit_head_spec l Hl).
    - destruct Hm as [_ Hm]. intros ->. lia. }
  exists (set_lh_n 0 (set_bc s' l)). split_and!; try done.
  - destruct (log_geo l Hl). split; simpl.
    + split; simpl.
      * split; simpl; [done..|]. by rewrite Hsz.
      * apply (log_len l Hl).
      * unfold LOGSIZE, MAXOPBLOCKS. lia.
      * constructor.
      * unfold logged; simpl. intros m. by rewrite elem_of_nil.
    + done.
    + intros m. unfold logged; simpl. rewrite elem_of_nil. pose proof (Hnd m). tauto.
    + rewrite Hst. apply hd_n_clear. by destruct (commit_head_spec l Hl).
  - intros m Hm. simpl. split; [by apply Hfin|]. rewrite <-Hfin by done.
    destruct (clean_view s' m) as [Hdm|]; [done| |by destruct (Hnd m)|done].
    intros i. apply Hq'.
Qed.

(** *** log_write *)

Lemma log_find_spec blocks m i n :
  let r := log_find blocks m i n in
  (i <= r <= i + n)%nat ∧ ((r < i + n)%nat → u32 (blocks !!! r) = m) ∧
  ∀ j, (i <= j < r)%nat → u32 (blocks !!! j) ≠ m.
Proof.
  revert i. induction n as [|n IH]; intros i; simpl; [split_and!; lia|].
  destruct (Z.eqb_spec (u32 (blocks !!! i)) m) as [He|He].
  - split_and!; [lia..|done|lia].
  - destruct (IH (S i)) as (H1 & H2 & H3). split_and!; [lia..| |].
    + intros ?. apply H2. lia.
    + intros j Hj. destruct (decide (j = i)) as [->|]; [done|]. apply H3. lia.
Qed.

(** The transaction after block [m] is recorded. *)
Definition absorb (m : Z) (ms : list Z) : list Z :=
  if decide (m ∈ ms) then ms else ms ++ [m].

Lemma log_write_list l m :
  log_shape l → data_block l m → lh_n l < LOGSIZE → lh_n l < lg_size l - 1 →
  let i := log_find (lh_block l) m 0 (Z.to_nat (lh_n l)) in
  let l' := set_lh_block (<[i := s32 m]> (lh_block l)) l in
  let l'' := if Z.of_nat i =? lh_n l then set_lh_n (lh_n l + 1) l' else l' in
  logged l'' = absorb m (logged l) ∧ log_shape l''.
Proof.
  intros Hl Hm Hn Hsz i l' l''.
  destruct (log_find_spec (lh_block l) m 0 (Z.to_nat (lh_n l))) as (Hi & Hhit & Hmiss).
  fold i in Hi, Hhit, Hmiss. pose proof Hl as [Hg Hlen Hn0 Hnd Hdata].
  pose proof (geom_end l Hg) as Hge. pose proof Hm as [Hmr _].
  assert (s32 m = m) as Hms by zmod.
  assert (logged l'' = absorb m (logged l)) as Hlog.
  { unfold l'', l', absorb. destruct (Z.eqb_spec (Z.of_nat i) (lh_n l)) as [Hin|Hin].
    - rewrite decide_False.
      + unfold logged; simpl. replace (Z.to_nat (lh_n l + 1)) with (S (Z.to_nat (lh_n l))) by lia.
        rewrite (take_S_r _ _ m).
        * rewrite take_insert_ge by lia. done.
        * replace (Z.to_nat (lh_n l)) with i by lia.
          rewrite list_lookup_insert_eq by lia. by rewrite Hms.
      + intros (j & Hj)%list_elem_of_lookup. unfold logged in Hj.
        apply lookup_take_Some in Hj as [Hj Hjn].
        apply (Hmiss j); [lia|]. rewrite (list_lookup_total_correct _ _ _ Hj).
        apply u32_small. unfold is_u32. lia.
    - assert (i < Z.to_nat (lh_n l))%nat as Hilt by lia.
      assert (lh_block l !! i = Some m) as Him.
      { assert (getZ (lh_block l) (Z.of_nat i) = m) as Hget.
        { destruct (logged_range l (Z.of_nat i) Hl) as (_ & <- & _); [lia|].
          unfold getZ. rewrite Nat2Z.id. apply Hhit. lia. }
        rewrite <-Hget. unfold getZ. rewrite Nat2Z.id. apply list_lookup_lookup_total_lt. lia. }
      rewrite Hms. rewrite decide_True.
      + unfold logged; simpl. by rewrite list_insert_id.
      + apply list_elem_of_lookup. exists i. unfold logged. by rewrite lookup_take_lt. }
  split; [done|]. split.
  - unfold l'', l'. by case_match; destruct Hg.
  - unfold l'', l'. by case_match; simpl; rewrite length_insert.
  - unfold l'', l'. case_match; simpl; lia.
  - rewrite Hlog. unfold absorb. case_decide; [done|]. apply NoDup_app.
    split_and!; [done|set_solver|apply NoDup_singleton].
  - rewrite Hlog. unfold absorb. intros k Hk.
    assert (k ∈ logged l ∨ k = m) as Hk' by (case_decide; set_solver).
    assert (data_block l k) as Hkd by (destruct Hk' as [?| ->]; auto).
    unfold l'', l'. clear Hk. by case_match.
Qed.

Lemma log_write_ok l b m :
  log_inv l → heldblk (lg_bc l) b m → data_block l m →
  lh_n l < LOGSIZE → lh_n l < lg_size l - 1 → 1 <= lg_outstanding l →
  ∃ l', log_write b l = Ok tt l' ∧ log_inv l' ∧ logged l' = absorb m (logged l) ∧
    lg_outstanding l' = lg_outstanding l ∧ lg_committing l' = lg_committing l ∧
    lg_start l' = lg_start l ∧ lg_size l' = lg_size l ∧
    bc_drv (lg_bc l') = bc_drv (lg_bc l) ∧
    (∀ k, view (lg_bc l') k = view (lg_bc l) k) ∧
    (∀ i k, heldblk (lg_bc l') i k ↔ heldblk (lg_bc l) i k).
Proof.
  intros Hl Hb Hm Hn Hsz Ho. pose proof (log_cache l Hl) as Hs.
  destruct (log_write_list l m (log_shp l Hl) Hm Hn Hsz) as [Hlog Hshape].
  destruct (mark_dirty_spec (lg_bc l) b m Hs Hb) as (s' & Hrun & Hdrv & [Hs' _ Hh Hv Hd]).
  assert (b_blockno (bp (lg_bc l) b) = m) as Hbm by apply Hb.
  set (l1 := set_lh_block _ l) in *. set (l2 := if _ =? _ then _ else l1) in *.
  assert (lg_bc l2 = lg_bc l) as Hbc2 by (unfold l2; by case_match).
  assert (∀ k, view s' k = view (lg_bc l) k) as Hv'.
  { intros k. rewrite Hv. by case_decide; subst. }
  exists (set_bc s' l2). split.
  { unfold log_write, get_log. run.
    rewrite run_panic_if by (apply orb_false_intro; apply Z.leb_gt; lia).
    rewrite run_panic_if by (apply Z.ltb_ge; lia). run. rewrite Hbm. fold l1.
    unfold l2. case_match; run; (etransitivity; [apply bc_run; exact Hrun|done]). }
  split_and!; try (unfold l2; by case_match); simpl; try done.
  split; simpl.
  - destruct Hshape as [[? ? ? ?] ? ? ? Hdata]. split; try done.
    + split; try done. simpl. rewrite Hdrv, <-Hbc2. done.
    + intros k Hk. specialize (Hdata k Hk). unfold data_block in *. simpl. by rewrite Hdrv, <-Hbc2.
  - done.
  - intros k. change (logged (set_bc s' l2)) with (logged l2). rewrite Hd, Hlog.
    unfold absorb. pose proof (log_dirty l Hl k) as Hdk.
    destruct (decide (k = m)) as [->|]; case_decide; set_solver.
  - rewrite Hdrv. rewrite <-(log_clear l Hl). do 2 f_equal. unfold l2. by case_match.
Qed.

(** The invariant says nothing of the operation count, the flag and wakeups. *)
Lemma log_inv_ctl l o c w :
  log_inv l → log_inv (Log (lg_bc l) (lg_start l) (lg_size l) o c (lg_dev l) (lh_n l) (lh_block l) w).
Proof.
  intros [[[? ? ? ?] Hlen Hn Hnd Hdata] ? Hd ?].
  split; [split; [by split|done..]|done..].
Qed.

(** Nor of the locks of the cache. *)
Lemma log_inv_cache l s :
  log_inv l → bc_inv s → bc_drv s = bc_drv (lg_bc l) →
  (∀ m, dirtyblk s m ↔ dirtyblk (lg_bc l) m) → log_inv (set_bc s l).
Proof.
  intros [[[? ? ? ?] Hlen Hn Hnd Hdata] ? Hd ?] Hs Hdrv Hds.
  split; [split; [by split; simpl; rewrite ?Hdrv|done..|]|done| |by simpl; rewrite Hdrv].
  - intros m Hm. unfold data_block; simpl. rewrite Hdrv. by apply Hdata.
  - intros m. simpl. by rewrite Hds.
Qed.

(** *** Crashes during recovery *)

Lemma recover_ext start (d d' : disk) m :
  (∀ m, d m = d' m) → recover_disk start d m = recover_disk start d' m.
Proof.
  intros H. unfold recover_disk, recover_writes. rewrite H. unfold fupd. case_decide; [done|].
  rewrite (list_fmap_ext _ (λ t, (hd_block (d' start) t, d' (start + t + 1)))).
  - by apply apply_writes_ext.
  - intros i t _. by rewrite H.
Qed.

Lemma recover_keys l (d : disk) :
  header_ok l (d (lg_start l)) →
  NoDup (recover_writes (lg_start l) d).*1 ∧
  ∀ m, m ∈ (recover_writes (lg_start l) d).*1 → data_block l m.
Proof.
  intros [Hb Hnd Hd]. unfold recover_writes. rewrite <-list_fmap_compose. split; [done|].
  intros m (t & -> & Ht%elem_of_seqZ)%list_elem_of_fmap. apply Hd. lia.
Qed.

Lemma apply_prefix (ws : list (Z * block)) j (d : disk) m :
  NoDup ws.*1 → apply_writes ws (apply_writes (take j ws) d) m = apply_writes ws d m.
Proof.
  intros Hnd. destruct (decide (m ∈ ws.*1)) as [Hm|Hm].
  - apply list_elem_of_fmap in Hm as ([k x] & -> & Hin). by rewrite !(apply_writes_in _ _ _ x).
  - rewrite !apply_writes_ne; [done..| |done]. intros Hin. apply Hm.
    rewrite <-(take_drop j ws), fmap_app. set_solver.
Qed.

Lemma recover_prefix l (d : disk) j m :
  log_geom l → header_ok l (d (lg_start l)) → length (d (lg_start l)) = BSIZE →
  let ws := recover_writes (lg_start l) d ++ [(lg_start l, set_hd_n (d (lg_start l)) 0)] in
  m ≠ lg_start l →
  recover_disk (lg_start l) (apply_writes (take j ws) d) m = recover_disk (lg_start l) d m.
Proof.
  intros Hg Hh Hlen ws Hm. destruct (recover_keys l d Hh) as [Hnd Hkeys].
  set (rw := recover_writes (lg_start l) d) in *.
  assert (∀ k, ¬ data_block l k → k ∉ (take j rw).*1) as Hout.
  { intros k Hk Hin. apply Hk, Hkeys. rewrite <-(take_drop j rw), fmap_app. set_solver. }
  assert (∀ k, lg_start l <= k < lg_start l + lg_size l → ¬ data_block l k) as Hreg.
  { intros k Hk [_ ?]. done. }
  pose proof (geom_size l Hg).
  destruct (decide (j <= length rw)%nat) as [Hj|Hj].
  - unfold ws. rewrite take_app_le by done.
    unfold recover_disk. rewrite !fupd_ne by done.
    assert (recover_writes (lg_start l) (apply_writes (take j rw) d) = rw) as ->.
    { unfold rw at 2, recover_writes. rewrite apply_writes_ne by (apply Hout, Hreg; lia).
      apply list_fmap_ext. intros i t Ht%list_elem_of_lookup_2%elem_of_seqZ. f_equal.
      pose proof (hd_bound l _ Hh). apply apply_writes_ne, Hout, Hreg. lia. }
    by apply apply_prefix.
  - rewrite take_ge by (unfold ws; rewrite length_app; simpl; lia).
    unfold ws. rewrite apply_writes_app. simpl. rewrite recover_clear; [| |done].
    + done.
    + rewrite fupd_eq. by apply hd_n_clear.
Qed.

(** ** What the log promises *)

(** C1. A commit is atomic. If the machine stops after any number [k] of the
    commit's disk writes, then booting on the disk it left and running
    recover_from_log succeeds, and every block outside the log then reads as
    before the transaction, if the header was not yet written, or as the
    transaction left it, if it was; no block is left in between. *)
Theorem commit_crash_atomic l :
  log_inv l → quiet (lg_bc l) → (S (length (logged l)) <= NBUF)%nat → 0 < lh_n l →
  ∃ l' ws, commit l = Ok tt l' ∧
    dd_hist (bc_drv (lg_bc l')) = dd_hist (bc_drv (lg_bc l)) ++ ws ∧
    ∀ k l0, (k <= length ws)%nat → fresh l0 →
      lg_start l0 = lg_start l → lg_size l0 = lg_size l →
      dd_size (bc_drv (lg_bc l0)) = dd_size (bc_drv (lg_bc l)) →
      (∀ m, dd_block (bc_drv (lg_bc l0)) m =
              apply_writes (take k ws) (dd_block (bc_drv (lg_bc l))) m) →
      ∃ l1, recover_from_log l0 = Ok tt l1 ∧ log_inv l1 ∧ lh_n l1 = 0 ∧
        ∀ m, data_block l m → view (lg_bc l1) m =
          if decide (k <= Z.to_nat (lh_n l))%nat then dd_block (bc_drv (lg_bc l)) m
          else view (lg_bc l) m.
Proof.
  intros Hl Hq Hcap Hn.
  destruct (commit_ok l Hl Hq Hcap Hn) as (l' & Hrun & _ & _ & _ & _ & [_ _ _ Hhist _ _ _] & _).
  exists l', (commit_writes l). split_and!; [done..|].
  intros k l0 Hk Hf Hst Hsz Hdsz Hdisk.
  assert (∀ m, data_block l0 m ↔ data_block l m) as Hdb.
  { intros m. unfold data_block. by rewrite Hst, Hsz, Hdsz. }
  assert (boot l0) as Hboot.
  { split; [done|]. rewrite Hst, Hdisk.
    destruct (crash_recovers l k 0 Hl Hq Hk) as [[Hb Hnd Hd] _]. fold (crash_disk l k).
    split; [by rewrite Hsz|done|]. intros t Ht. by apply Hdb, Hd. }
  destruct (recover_ok l0 Hboot) as (l1 & Hrun1 & Hl1 & _ & Hn1 & _ & _ & _ & Hv1 & _).
  exists l1. split_and!; [done..|]. intros m Hm. rewrite Hv1, Hst.
  destruct (crash_recovers l k m Hl Hq Hk) as [_ <-]; [|done].
  by apply recover_ext.
Qed.

(** C2. recover_from_log implements [recover_disk]: the committed transaction,
    if the header names one, is copied home and the header is cleared; memory
    and disk then agree and no transaction is open. Recovery is idempotent, and
    a crash after any number [j] of its own disk writes is harmless: the disk
    it leaves recovers to the same contents. *)
Theorem recover_from_log_correct l :
  boot l → let d := dd_block (bc_drv (lg_bc l)) in
  ∃ l1 ws, recover_from_log l = Ok tt l1 ∧ log_inv l1 ∧ lh_n l1 = 0 ∧
    dd_hist (bc_drv (lg_bc l1)) = dd_hist (bc_drv (lg_bc l)) ++ ws ∧
    (∀ m, dd_block (bc_drv (lg_bc l1)) m = recover_disk (lg_start l) d m) ∧
    (∀ m, view (lg_bc l1) m = recover_disk (lg_start l) d m) ∧
    (∀ m, m ≠ lg_start l →
      recover_disk (lg_start l) (dd_block (bc_drv (lg_bc l1))) m = recover_disk (lg_start l) d m) ∧
    (∀ j m, m ≠ lg_start l →
      recover_disk (lg_start l) (apply_writes (take j ws) d) m = recover_disk (lg_start l) d m).
Proof.
  intros Hl d. destruct (recover_ok l Hl) as (l1 & H1 & H2 & H3 & H4 & Hst & H6 & H7 & H8 & H9).
  fold d in H7, H8, H9. eexists l1, _. split_and!; [done..| |].
  - intros m Hm. rewrite recover_clear; [by rewrite H7| |done].
    rewrite <-Hst. apply (log_clear l1 H2).
  - intros j m Hm. apply recover_prefix; [apply Hl|apply (boot_head l Hl)| |done].
    apply (inv_blocks (lg_bc l)). apply (fresh_cache l Hl).
Qed.

(** log_write adds the buffer's block to the transaction, once: a block
    logged before is absorbed, and otherwise it becomes the last. The block is
    pinned dirty in the cache, what every block reads as does not change, and
    nothing is written to the disk. *)
Theorem log_write_correct l b m :
  log_inv l → heldblk (lg_bc l) b m → data_block l m →
  lh_n l < LOGSIZE → lh_n l < lg_size l - 1 → 1 <= lg_outstanding l →
  ∃ l', log_write b l = Ok tt l' ∧ log_inv l' ∧
    logged l' = (if decide (m ∈ logged l) then logged l else logged l ++ [m]) ∧
    dirtyblk (lg_bc l') m ∧ (∀ k, view (lg_bc l') k = view (lg_bc l) k) ∧
    bc_drv (lg_bc l') = bc_drv (lg_bc l).
Proof.
  intros Hl Hb Hm Hn Hsz Ho.
  destruct (log_write_ok l b m) as (l' & Hrun & Hl' & Hlog & _ & _ & _ & _ & Hdrv & Hv & _);
    [done..|].
  exists l'. split_and!; try done. apply (log_dirty l' Hl'). rewrite Hlog. unfold absorb.
  case_decide; set_solver.
Qed.

(** C33. The end_op of the last outstanding operation makes the transaction
    durable: it returns, every block outside the log is on the disk as the
    cache showed it, the log is empty again, sleepers are woken, and begin_op
    is open to everyone. *)
Theorem end_op_durable l :
  log_inv l → quiet (lg_bc l) → (S (length (logged l)) <= NBUF)%nat →
  lg_outstanding l = 1 → lg_committing l = false →
  ∃ l', end_op l = Ok tt l' ∧ log_inv l' ∧ quiet (lg_bc l') ∧ lh_n l' = 0 ∧
    lg_outstanding l' = 0 ∧ lg_committing l' = false ∧ lg_wake l' = S (lg_wake l) ∧
    ∀ m, data_block l m →
      dd_block (bc_drv (lg_bc l')) m = view (lg_bc l) m ∧ view (lg_bc l') m = view (lg_bc l) m.
Proof.
  intros Hl Hq Hcap Ho Hc. set (l2 := set_committing true (set_outstanding 0 l)).
  assert (log_inv l2) as Hl2 by exact (log_inv_ctl l _ _ _ Hl).
  assert (end_op l = end_op_commit l2) as Hend.
  { unfold end_op, end_op_enter. run. rewrite run_panic_if by done. run. by rewrite Ho. }
  rewrite Hend. unfold end_op_commit. destruct (log_n l Hl) as [Hn _].
  destruct (decide (0 < lh_n l)) as [Hpos|Hz].
  - destruct (commit_ok l2 Hl2 Hq Hcap Hpos) as (l' & Hrun & Hl' & Hq' & Hn' & Heq & _ & Hfin).
    exists (wakeup_log (set_committing false l')). rewrite (bind_run _ _ _ _ _ Hrun).
    split_and!; [done|exact (log_inv_ctl l' _ _ _ Hl')|done|done|..];
      try (by rewrite Heq); done.
  - exists (wakeup_log (set_committing false l2)).
    assert (commit l2 = Ok tt l2) as Hrun.
    { unfold commit. run. rewrite (proj2 (Z.ltb_ge _ _)); [done|]. simpl. lia. }
    rewrite (bind_run _ _ _ _ _ Hrun). split_and!; try done.
    + exact (log_inv_ctl l2 _ _ _ Hl2).
    + simpl. lia.
    + intros m _. simpl. split; [|done]. apply (clean_data l m Hl Hq).
      unfold logged. replace (Z.to_nat (lh_n l)) with 0%nat by lia.
      rewrite take_0. apply not_elem_of_nil.
Qed.

End log.


(** ** A transaction on the memory disk *)

Definition log0_ex (s : bcache Memide.memide) : logst Memide.memide :=
  Log s 2 31 0 false 1 0 (replicate 30 0) 0.

Lemma fresh_ex s : Memide.disksize (bc_drv s) = 1000 → empty_cache s → fresh (log0_ex s).
Proof.
  intros Hd He. split; [split; simpl; try done; unfold dd_size; simpl; rewrite ?Hd; lia|done|done].
Qed.

Lemma boot_ex : ∃ l : logst Memide.memide, boot l ∧ bc_drv (lg_bc l) = disk_ex ∧ lg_start l = 2 ∧
  lg_size l = 31 ∧ lg_outstanding l = 0 ∧ lg_committing l = false ∧ lh_n l = 0.
Proof.
  destruct bio_ex as (s & _ & Hd & He). exists (log0_ex s).
  assert (fresh (log0_ex s)) as Hf by (apply fresh_ex; [by rewrite Hd|done]). split_and!; try done.
  split; [done|]. apply header_clear; [apply Hf|]. simpl. by rewrite Hd.
Qed.

(** Booted, with one operation open. *)
Lemma log_open_at (d : Memide.memide) :
  (∀ n, length (dd_block d n) = BSIZE) → Memide.disksize d = 1000 → hd_n (dd_block d 2) = 0 →
  ∃ l : logst Memide.memide, log_inv l ∧ quiet (lg_bc l) ∧ lh_n l = 0 ∧
    lg_start l = 2 ∧ lg_size l = 31 ∧ lg_outstanding l = 1 ∧ lg_committing l = false ∧
    bc_drv (lg_bc l) = d ∧ ∀ n, view (lg_bc l) n = dd_block d n.
Proof.
  intros Hlen Hsz Hh. destruct (binit_empty d 7 Hlen) as (s & _ & Hd & _ & He).
  assert (fresh (log0_ex s)) as Hf by (apply fresh_ex; [by rewrite Hd|done]).
  pose proof He as (Hs & Hnc & Hv). exists (set_outstanding 1 (log0_ex s)).
  split_and!; try done.
  - apply (log_inv_ctl (log0_ex s)). split.
    + split; [apply Hf|apply Hf|by vm_compute|constructor|intros m; by rewrite elem_of_nil].
    + done.
    + intros m. change (logged (log0_ex s)) with (@nil Z). rewrite elem_of_nil.
      split; [|done]. intros (i & Hc & _). by destruct (Hnc i m).
    + simpl. by rewrite Hd.
  - intros i n [Hc _]. by destruct (Hnc i n).
  - intros n. rewrite <-Hd. apply Hv.
Qed.

Lemma log_open_ex : ∃ l : logst Memide.memide, log_inv l ∧ quiet (lg_bc l) ∧ lh_n l = 0 ∧
  lg_start l = 2 ∧ lg_size l = 31 ∧ lg_outstanding l = 1 ∧ lg_committing l = false ∧
  dd_size (bc_drv (lg_bc l)) = 1000.
Proof.
  destruct (log_open_at disk_ex disk_ex_len eq_refl ltac:(by vm_compute))
    as (l & ? & ? & ? & ? & ? & ? & ? & Hd & _).
  exists l. by rewrite Hd.
Qed.

(** A buffer of block 100 held inside it. *)
Lemma log_held_ex : ∃ (l : logst Memide.memide) b, log_inv l ∧ heldblk (lg_bc l) b 100 ∧
  (∀ i n, heldblk (lg_bc l) i n → i = b) ∧ data_block l 100 ∧ lh_n l = 0 ∧ lg_size l = 31 ∧
  lg_outstanding l = 1 ∧ lg_committing l = false.
Proof.
  destruct log_open_ex as (l & Hl & Hq & Hn & Hst & Hsz & Ho & Hc & Hdsz).
  pose proof (log_cache l Hl) as Hs.
  destruct (bread_spec (lg_bc l) 100 Hs) as (b & s & _ & [Hs' Hdrv _ _ Hh _ Hd]).
  { rewrite Hdsz. lia. }
  { intros i. apply Hq. }
  { right. apply (has_free_intro _ []); [done| | |by vm_compute; lia].
    - intros i n Hi. by destruct (Hq i n).
    - intros n ?%(log_dirty l Hl). unfold logged in *. by rewrite Hn in *. }
  exists (set_bc s l), b. split_and!; try done.
  - by apply log_inv_cache.
  - apply Hh. by left.
  - intros i n [[? _]|Hi]%Hh; [done|by destruct (Hq i n)].
  - unfold data_block. cbn [lg_bc set_bc lg_start lg_size].
    rewrite Hdrv, Hdsz, Hst, Hsz. lia.
Qed.

(** Block 100 is logged and released. *)
Lemma log_ready_ex : ∃ l : logst Memide.memide, log_inv l ∧ quiet (lg_bc l) ∧ lh_n l = 1 ∧
  lg_outstanding l = 1 ∧ lg_committing l = false.
Proof.
  destruct log_held_ex as (l & b & Hl & Hb & Hq & Hm & Hn & Hsz & Ho & Hc).
  destruct (log_write_ok l b 100 Hl Hb Hm) as
    (l1 & _ & Hl1 & Hlog & Ho1 & Hc1 & _ & _ & _ & _ & Hh1);
    [unfold LOGSIZE, MAXOPBLOCKS; lia|lia|lia|].
  destruct (brelse_spec (lg_bc l1) b 100) as (s & _ & [Hs Hdrv _ Hh _ Hd]).
  { apply (log_cache l1 Hl1). } { by apply Hh1. }
  { left. apply (log_dirty l1 Hl1). rewrite Hlog. unfold absorb. case_decide; set_solver. }
  assert (log_inv (set_bc s l1)) as Hl2 by (by apply log_inv_cache).
  exists (set_bc s l1). split_and!; [done| | |exact (eq_trans Ho1 Ho)|exact (eq_trans Hc1 Hc)].
  - intros i n [Hi Hin]%Hh. apply Hh1, Hq in Hin. done.
  - change (lh_n l1 = 1). rewrite <-(length_logged l1 Hl1), Hlog. unfold absorb, logged. by rewrite Hn.
Qed.

Lemma log_ready_cap (l : logst Memide.memide) :
  log_inv l → lh_n l = 1 → (S (length (logged l)) <= NBUF)%nat.
Proof. intros Hl Hn. pose proof (length_logged l Hl). unfold NBUF. lia. Qed.

Lemma commit_crash_atomic_witness : ∃ l l' : logst Memide.memide,
  lh_n l = 1 ∧ commit l = Ok tt l'.
Proof.
  destruct log_ready_ex as (l & Hl & Hq & Hn & _ & _).
  destruct (commit_crash_atomic l Hl Hq (log_ready_cap l Hl Hn)) as (l' & ws & Hrun & _); [lia|].
  by exists l, l'.
Defined.

Lemma recover_from_log_correct_witness : ∃ l l1 : logst Memide.memide,
  recover_from_log l = Ok tt l1 ∧ lh_n l1 = 0.
Proof.
  destruct boot_ex as (l & Hl & _).
  destruct (recover_from_log_correct l Hl) as (l1 & ws & Hrun & _ & Hn & _). by exists l, l1.
Defined.

Lemma log_write_correct_witness : ∃ (l l' : logst Memide.memide) b,
  log_write b l = Ok tt l' ∧ logged l' = [100].
Proof.
  destruct log_held_ex as (l & b & Hl & Hb & _ & Hm & Hn & Hsz & Ho & _).
  destruct (log_write_correct l b 100 Hl Hb Hm) as (l' & Hrun & _ & Hlog & _);
    [unfold LOGSIZE, MAXOPBLOCKS; lia|lia|lia|].
  exists l, l', b. split; [done|]. rewrite Hlog. unfold logged. by rewrite Hn.
Defined.

Lemma end_op_durable_witness : ∃ l l' : logst Memide.memide,
  lh_n l = 1 ∧ end_op l = Ok tt l' ∧ lh_n l' = 0.
Proof.
  destruct log_ready_ex as (l & Hl & Hq & Hn & Ho & Hc).
  destruct (end_op_durable l Hl Hq (log_ready_cap l Hl Hn) Ho Hc) as (l' & Hrun & _ & _ & Hn' & _).
  by exists l, l'.
Defined.
