(* ===== verification/Transactions.v ===== *)
(** * Concurrent transactions (log.c)

    The atomic sections of begin_op, log_write, end_op and the commit as a step
    relation between threads that share one log. [ts_ops] is a ghost map from
    the threads inside an operation to the number of blocks each may still
    write; [ts_commit] says that some thread is committing. Between the steps
    of the log, the buffer cache may change in any way. *)

From S2P Require Import Prelude Sleeplock Disk Ring Bio Log.

Record tstate (D : Type) := TState {
  ts_log : logst D;
  ts_ops : gmap nat nat;
  ts_commit : bool
}.
Arguments TState {D} _ _ _.
Arguments ts_log {D} _.
Arguments ts_ops {D} _.
Arguments ts_commit {D} _.

Section transactions.
Context {D : Type} `{!DiskDriver D, !DiskDriverLaws D}.
Implicit Types (s : bcache D) (l : logst D) (ops : gmap nat nat).

Inductive tstep : tstate D → tstate D → Prop :=
  | t_begin t l l' ops c :
      ops !! t = None → begin_op l = Ok tt l' →
      tstep (TState l ops c) (TState l' (<[t := Z.to_nat MAXOPBLOCKS]> ops) c)
  | t_write t k b l l' ops c :
      ops !! t = Some (S k) → log_write b l = Ok tt l' →
      tstep (TState l ops c) (TState l' (<[t := k]> ops) c)
  | t_end t l l' ops c do_commit :
      is_Some (ops !! t) → end_op_enter l = Ok do_commit l' →
      tstep (TState l ops c) (TState l' (delete t ops) (c || do_commit))
  | t_commit l l' ops :
      end_op_commit l = Ok tt l' → tstep (TState l ops true) (TState l' ops false)
  | t_cache s l ops c :
      tstep (TState l ops c) (TState (set_bc s l) ops c).

(** The blocks the threads inside operations may still write. *)
Definition reserved ops : nat := map_fold (λ _ k n, (k + n)%nat) 0%nat ops.

Lemma reserved_insert t k ops :
  ops !! t = None → reserved (<[t := k]> ops) = (k + reserved ops)%nat.
Proof. intros. unfold reserved. rewrite map_fold_insert_L; [done|lia|done]. Qed.

Lemma reserved_delete t k ops :
  ops !! t = Some k → reserved ops = (k + reserved (delete t ops))%nat.
Proof. intros. unfold reserved. rewrite (map_fold_delete_L _ _ t k); [done|lia|done]. Qed.

Record tinv (size : Z) (st : tstate D) : Prop := {
  tinv_size : lg_size (ts_log st) = size;
  tinv_out : lg_outstanding (ts_log st) = Z.of_nat (base.size (ts_ops st));
  tinv_com : lg_committing (ts_log st) = ts_commit st;
  tinv_excl : ts_commit st = true → ts_ops st = ∅;
  tinv_idle : ts_commit st = false → ts_ops st = ∅ → lh_n (ts_log st) = 0;
  tinv_n : 0 <= lh_n (ts_log st);
  tinv_each : ∀ t k, ts_ops st !! t = Some k → Z.of_nat k <= MAXOPBLOCKS;
  tinv_sum : lh_n (ts_log st) + Z.of_nat (reserved (ts_ops st)) <= LOGSIZE
}.

Lemma reserved_bound ops :
  (∀ t k, ops !! t = Some k → Z.of_nat k <= MAXOPBLOCKS) →
  Z.of_nat (reserved ops) <= MAXOPBLOCKS * Z.of_nat (size ops).
Proof.
  induction ops as [|t k ops Ht IH] using map_ind; intros H.
  { unfold reserved. rewrite map_fold_empty, map_size_empty. unfold MAXOPBLOCKS. lia. }
  rewrite reserved_insert, map_size_insert_None by done.
  assert (Z.of_nat k <= MAXOPBLOCKS) by (apply (H t); by rewrite lookup_insert_eq).
  assert (Z.of_nat (reserved ops) <= MAXOPBLOCKS * Z.of_nat (size ops)); [|lia].
  apply IH. intros t' k' Ht'. apply (H t'). rewrite lookup_insert_ne; [done|congruence].
Qed.

(** *** What the sections do to the counters *)

Lemma begin_op_inv l l' :
  begin_op l = Ok tt l' →
  lg_committing l = false ∧ lh_n l + (lg_outstanding l + 1) * MAXOPBLOCKS <= LOGSIZE ∧
  l' = set_outstanding (lg_outstanding l + 1) l.
Proof.
  unfold begin_op, get_log. run. destruct (lg_committing l); [done|].
  destruct (Z.ltb_spec LOGSIZE (lh_n l + (lg_outstanding l + 1) * MAXOPBLOCKS)); [done|].
  by intros [= <-].
Qed.

Lemma bc_inv_Ok {A} (m : M (bcache D) A) l a l' : bc m l = Ok a l' → l' = set_bc (lg_bc l') l.
Proof. unfold bc, zoom. destruct (m (lg_bc l)); naive_solver. Qed.

Lemma log_write_inv b l l' :
  log_write b l = Ok tt l' →
  lg_size l' = lg_size l ∧ lg_outstanding l' = lg_outstanding l ∧
  lg_committing l' = lg_committing l ∧ (lh_n l' = lh_n l ∨ lh_n l' = lh_n l + 1).
Proof.
  unfold log_write, get_log. run. destruct (_ || _); [done|]. destruct (_ <? _); [done|].
  intros H. repeat (unfold panic_if in H; autorewrite with xv6_run in H; cbn beta iota in H).
  revert H. case_match; run; intros ->%bc_inv_Ok; simpl; auto.
Qed.

Lemma end_op_enter_inv d l l' :
  end_op_enter l = Ok d l' →
  lg_committing l = false ∧ d = (lg_outstanding l =? 1) ∧ lg_size l' = lg_size l ∧
  lg_outstanding l' = lg_outstanding l - 1 ∧ lg_committing l' = d ∧ lh_n l' = lh_n l.
Proof.
  unfold end_op_enter. run. unfold panic_if. cbn [lg_committing set_outstanding].
  destruct (lg_committing l) eqn:Hc; [done|]. run. cbn [lg_outstanding set_outstanding].
  destruct (Z.eqb_spec (lg_outstanding l - 1) 0); run; intros [= <- <-]; simpl; split_and!; try done.
  - symmetry. apply Z.eqb_eq. lia.
  - symmetry. apply Z.eqb_neq. lia.
Qed.

Lemma for_each_bc_inv {X} (m : X → M (bcache D) unit) ts l l' :
  for_each ts (λ t, bc (m t)) l = Ok tt l' → l' = set_bc (lg_bc l') l.
Proof.
  revert l. induction ts as [|t ts IH]; intros l; cbn [for_each].
  { intros [= <-]. by rewrite set_bc_same. }
  intros (a & l1 & ->%bc_inv_Ok & H2%IH)%bind_Ok. rewrite H2 at 1. by destruct l.
Qed.

Lemma commit_inv l l' :
  commit l = Ok tt l' → l' = set_lh_n (lh_n l') (set_bc (lg_bc l') l) ∧
    lh_n l' = (if 0 <? lh_n l then 0 else lh_n l).
Proof.
  unfold commit. run. destruct (0 <? lh_n l).
  2: { intros [= <-]. by destruct l. }
  intros (a & l1 & H1 & H)%bind_Ok.
  apply bind_Ok in H as (a2 & l2 & H2 & H). apply bind_Ok in H as (a3 & l3 & H3 & H4).
  destruct a, a2, a3. autorewrite with xv6_run in H4.
  unfold write_log, write_head, install_trans, get_log in *. autorewrite with xv6_run in *.
  unfold id in *. apply for_each_bc_inv in H1, H3. apply bc_inv_Ok in H2, H4.
  rewrite H4, H3, H2, H1. by destruct l.
Qed.

Lemma end_op_commit_inv l l' :
  end_op_commit l = Ok tt l' →
  lg_size l' = lg_size l ∧ lg_outstanding l' = lg_outstanding l ∧ lg_committing l' = false ∧
  lh_n l' = (if 0 <? lh_n l then 0 else lh_n l).
Proof.
  unfold end_op_commit. intros (a & l1 & H1 & H)%bind_Ok. destruct a.
  autorewrite with xv6_run in H. injection H as <-. apply commit_inv in H1 as [H1 Hn].
  rewrite H1. by simpl.
Qed.

(** *** The invariant is kept *)

Lemma tstep_inv sz st st' : tinv sz st → tstep st st' → tinv sz st'.
Proof.
  intros [Hsz Hout Hcom Hexcl Hidle Hn Heach Hsum] Hstep.
  destruct Hstep as [t l l' ops c Ht Hb|t k b l l' ops c Ht Hw|t l l' ops c d [k Ht] He|l l' ops Hc|s l ops c];
    simpl in *.
  - apply begin_op_inv in Hb as (Hc & Hcap & ->). assert (c = false) as -> by congruence.
    split; simpl; try done.
    + rewrite map_size_insert_None by done. lia.
    + intros _ Hemp. by apply insert_non_empty in Hemp.
    + intros t' k' [[<- <-]|[? ?]]%lookup_insert_Some; [by vm_compute|by apply (Heach t')].
    + rewrite reserved_insert by done. pose proof (reserved_bound ops Heach).
      rewrite Hout in Hcap. unfold MAXOPBLOCKS in *. lia.
  - apply log_write_inv in Hw as (Hs' & Ho' & Hc' & Hn').
    assert (c = false) as -> by (destruct c; [by rewrite Hexcl in Ht|done]).
    split; simpl; try done.
    + congruence.
    + rewrite map_size_insert_Some by by rewrite Ht. congruence.
    + congruence.
    + intros _ Hemp. by apply insert_non_empty in Hemp.
    + lia.
    + intros t' k' [[<- <-]|[? ?]]%lookup_insert_Some; [specialize (Heach t (S k) Ht); lia|by apply (Heach t')].
    + rewrite <-insert_delete_eq, reserved_insert by apply lookup_delete_eq.
      rewrite (reserved_delete t (S k)) in Hsum by done. lia.
  - apply end_op_enter_inv in He as (Hc & Hd & Hs' & Ho' & Hc' & Hn'). assert (c = false) as -> by congruence.
    assert (size ops ≠ 0%nat) as Hne.
    { rewrite map_size_non_empty_iff. intros ->. by rewrite lookup_empty in Ht. }
    assert (d = true → delete t ops = ∅) as Hlast.
    { intros ->. symmetry in Hd. apply Z.eqb_eq in Hd. apply map_size_empty_inv.
      rewrite map_size_delete, Ht. simpl. lia. }
    split; simpl; try done.
    + congruence.
    + rewrite map_size_delete, Ht. simpl. lia.
    + intros -> Hemp%map_size_empty_iff. exfalso. symmetry in Hd. apply Z.eqb_neq in Hd.
      rewrite map_size_delete, Ht in Hemp. simpl in Hemp. lia.
    + lia.
    + intros t' k' [? ?]%lookup_delete_Some. by apply (Heach t').
    + rewrite (reserved_delete t k) in Hsum by done. lia.
  - apply end_op_commit_inv in Hc as (Hs' & Ho' & Hc' & Hn').
    pose proof (Hexcl eq_refl) as ->. 
    destruct (Z.ltb_spec 0 (lh_n l)); split; simpl; try done; try lia; try congruence.
  - by split.
Qed.

Lemma treach_inv sz st st' : tinv sz st → rtc tstep st st' → tinv sz st'.
Proof. intros H Hr. induction Hr; [done|]. eauto using tstep_inv. Qed.

(** An idle log: no operation, no commit, nothing logged. *)
Definition idle l : Prop := lg_outstanding l = 0 ∧ lg_committing l = false ∧ lh_n l = 0.

Lemma idle_inv l : idle l → tinv (lg_size l) (TState l ∅ false).
Proof.
  intros (Ho & Hc & Hn). split; simpl; try done; try lia.
  - rewrite Hn. unfold reserved. rewrite map_fold_empty. unfold LOGSIZE, MAXOPBLOCKS. lia.
Qed.

(** *** Filling the log *)

(** The blocks logged are those below [100 + lh_n]. *)
Definition filling l : Prop :=
  0 <= lh_n l ∧ Z.of_nat (length (lh_block l)) = LOGSIZE ∧ 1 <= lg_outstanding l ∧
  ∀ i, Z.of_nat i < lh_n l → u32 (lh_block l !!! i) < 100 + lh_n l.

(** A buffer of block [n]. *)
Definition cache_of (n : Z) s : bcache D := Bcache [Buf 0 1 n initsleeplock 1 0 0 zero_block] (bc_drv s) (bc_pid s).

Lemma write_new l : filling l → lh_n l < LOGSIZE → lh_n l < lg_size l - 1 → ∃ l',
  log_write 0 (set_bc (cache_of (100 + lh_n l) (lg_bc l)) l) = Ok tt l' ∧ filling l' ∧ lh_n l' = lh_n l + 1 ∧
  lg_size l' = lg_size l ∧ lg_outstanding l' = lg_outstanding l ∧ lg_committing l' = lg_committing l.
Proof.
  intros (Hn & Hlen & Ho & Hb) Hcap Hsz. set (s := cache_of _ _). set (n := 100 + lh_n l) in *.
  destruct (log_find_spec (lh_block l) n 0 (Z.to_nat (lh_n l))) as (Hr & Hhit & _).
  assert (log_find (lh_block l) n 0 (Z.to_nat (lh_n l)) = Z.to_nat (lh_n l)) as Hf.
  { destruct (decide (log_find (lh_block l) n 0 (Z.to_nat (lh_n l)) < 0 + Z.to_nat (lh_n l))%nat) as [H|]; [|lia].
    specialize (Hhit H). pose proof (Hb (log_find (lh_block l) n 0 (Z.to_nat (lh_n l))) ltac:(lia)). lia. }
  assert (u32 (s32 n) = n) as Hun by (unfold LOGSIZE, MAXOPBLOCKS in Hcap; unfold n; zmod).
  eexists. split; [|split; [|split_and!]].
  - unfold log_write, get_log. run. cbn [lh_n lg_size lg_outstanding lh_block lg_bc set_bc].
    rewrite run_panic_if by (apply orb_false_intro; apply Z.leb_gt; lia). rewrite run_panic_if by (apply Z.ltb_ge; lia).
    run. cbn [lh_n lh_block lg_bc set_bc]. change (b_blockno (bp s 0)) with n. rewrite Hf. run. rewrite (proj2 (Z.eqb_eq _ _)) by (simpl; lia). reflexivity.
  - split_and!; simpl; [lia|by rewrite length_insert|done|]. intros i Hi.
    destruct (decide (i = Z.to_nat (lh_n l))) as [->|].
    + rewrite list_lookup_total_insert_eq by lia. lia.
    + rewrite list_lookup_total_insert_ne by done. specialize (Hb i ltac:(lia)). lia.
  - done. - done. - done. - done.
Qed.

Lemma fill_log m : ∀ l ops t k, filling l → (m <= k)%nat → ops !! t = Some k →
  lh_n l + Z.of_nat m <= LOGSIZE → lh_n l + Z.of_nat m <= lg_size l - 1 →
  ∃ l', rtc tstep (TState l ops false) (TState l' (<[t := (k - m)%nat]> ops) false) ∧ filling l' ∧
    lh_n l' = lh_n l + Z.of_nat m ∧ lg_size l' = lg_size l ∧ lg_outstanding l' = lg_outstanding l ∧ lg_committing l' = lg_committing l.
Proof.
  induction m as [|m IH]; intros l ops t k Hl Hk Ht Hcap Hsz.
  { exists l. rewrite Nat.sub_0_r, insert_id by done. split; [reflexivity|]. split_and!; try done; lia. }
  destruct k as [|k]; [lia|]. destruct (write_new l Hl) as (l1 & Hw & Hl1 & Hn1 & Hs1 & Ho1 & Hc1); [lia|lia|].
  destruct (IH l1 (<[t := k]> ops) t k Hl1) as (l2 & Hr & Hl2 & Hn2 & Hs2 & Ho2 & Hc2); [lia|apply lookup_insert_eq|lia|lia|].
  exists l2. split_and!; try done; try lia; try congruence. eapply rtc_l; [apply t_cache|]. eapply rtc_l; [by eapply t_write|].
  by rewrite insert_insert_eq in Hr.
Qed.

Lemma begin_run l ops t : ops !! t = None → lg_committing l = false → lh_n l + (lg_outstanding l + 1) * MAXOPBLOCKS <= LOGSIZE →
  tstep (TState l ops false) (TState (set_outstanding (lg_outstanding l + 1) l) (<[t := Z.to_nat MAXOPBLOCKS]> ops) false).
Proof.
  intros Ht Hc Hcap. apply t_begin; [done|]. unfold begin_op, get_log. run. rewrite Hc.
  by rewrite (proj2 (Z.ltb_ge _ _)) by lia.
Qed.

(** On the log of mkfs, of LOGSIZE blocks with the header, three operations that use
    their shares reach the panic. *)
Lemma overflow_reachable l0 : idle l0 → Z.of_nat (length (lh_block l0)) = LOGSIZE → lg_size l0 = LOGSIZE →
  ∃ st t k, rtc tstep (TState l0 ∅ false) st ∧ ts_ops st !! t = Some (S k) ∧
    ∀ b, log_write b (ts_log st) = Panic "too big a transaction" (ts_log st).
Proof.
  intros (Ho & Hc & Hn) Hlen Hsz. set (l1 := set_outstanding 3 l0). set (ops := <[2%nat := 10%nat]> (<[1%nat := 10%nat]> (<[0%nat := 10%nat]> ∅)) : gmap nat nat).
  assert (rtc tstep (TState l0 ∅ false) (TState l1 ops false)) as H0.
  { assert (∀ n, 0 <= n <= 2 → lh_n l0 + (n + 1) * MAXOPBLOCKS <= LOGSIZE) as Hcap by (intros n ?; rewrite Hn; unfold LOGSIZE, MAXOPBLOCKS; lia).
    eapply rtc_l; [apply (begin_run l0 ∅ 0); [done|done|rewrite Ho; apply Hcap; lia]|]. rewrite Ho.
    eapply rtc_l; [apply (begin_run _ _ 1); [done|done|apply (Hcap 1); lia]|].
    eapply rtc_l; [apply (begin_run _ _ 2); [done|done|apply (Hcap 2); lia]|]. reflexivity. }
  assert (filling l1) as Hl1 by (split_and!; simpl; [lia|done|lia|rewrite Hn; lia]).
  assert (lh_n l1 = 0 ∧ lg_size l1 = 30) as [Hn1 Hs1] by (split; [exact Hn|exact Hsz]).
  assert (LOGSIZE = 30) as HL by done.
  destruct (fill_log 10 l1 ops 0 10 Hl1) as (l2 & H1 & Hl2 & Hn2 & Hs2 & _); [lia|done|lia|lia|].
  destruct (fill_log 10 l2 (<[0%nat := 0%nat]> ops) 1 10 Hl2) as (l3 & H2 & Hl3 & Hn3 & Hs3 & _); [lia|done|lia|lia|].
  destruct (fill_log 9 l3 (<[1%nat := 0%nat]> (<[0%nat := 0%nat]> ops)) 2 10 Hl3) as (l4 & H3 & _ & Hn4 & Hs4 & _); [lia|done|lia|lia|].
  eexists _, 2%nat, 0%nat. split; [etrans; [exact H0|]; etrans; [exact H1|]; etrans; [exact H2|exact H3]|].
  split; [done|]. intros b. unfold log_write, get_log. run. apply run_panic_if_true. simpl. apply orb_true_intro. right. apply Z.leb_le. lia.
Qed.

(** C3. begin_op reserves enough log space for every interleaving of the
    threads: what is logged and what the threads inside operations may still write, each
    within its share of MAXOPBLOCKS blocks, never exceeds LOGSIZE. A log_write within its share
    succeeds, unless the log on the disk is too small: it panics exactly when
    lg_size - 1 blocks are logged. So none panics on a log with room for LOGSIZE blocks. On
    the log that mkfs makes, which has one block less, only the very last reserved block
    can panic, and this does happen: three operations that use their shares reach it.
    No end_op panics, only that of the last operation commits, and the log is never
    stuck: when nobody is inside an operation or committing, begin_op returns. *)
Theorem log_reservation l0 :
  idle l0 → Z.of_nat (length (lh_block l0)) = LOGSIZE →
  (∀ st, rtc tstep (TState l0 ∅ false) st → let l := ts_log st in
    lh_n l + Z.of_nat (reserved (ts_ops st)) <= LOGSIZE ∧
    (∀ t k b, ts_ops st !! t = Some (S k) →
      if lg_size l0 - 1 <=? lh_n l then log_write b l = Panic "too big a transaction" l
      else ∃ l', log_write b l = Ok tt l') ∧
    (LOGSIZE <= lg_size l0 - 1 → ∀ t k b, ts_ops st !! t = Some (S k) → ∃ l', log_write b l = Ok tt l') ∧
    (lg_size l0 = LOGSIZE → ∀ t k b, ts_ops st !! t = Some (S k) →
      (∃ l', log_write b l = Ok tt l') ∨ (lh_n l = LOGSIZE - 1 ∧ reserved (ts_ops st) = 1%nat)) ∧
    (∀ t, is_Some (ts_ops st !! t) → ∃ l', end_op_enter l = Ok (bool_decide (size (ts_ops st) = 1%nat)) l') ∧
    (ts_ops st = ∅ → ts_commit st = false → ∃ l', begin_op l = Ok tt l')) ∧
  (lg_size l0 = LOGSIZE → ∃ st t k, rtc tstep (TState l0 ∅ false) st ∧ ts_ops st !! t = Some (S k) ∧
    ∀ b, log_write b (ts_log st) = Panic "too big a transaction" (ts_log st)).
Proof.
  intros Hi Hlen. split; [intros st Hr|by apply overflow_reachable]. destruct (treach_inv _ _ _ (idle_inv l0 Hi) Hr)
    as [Hsize Hout Hcom Hexcl Hidle Hn Heach Hsum].
  destruct st as [l ops c]; simpl in *.
  assert (∀ t k, ops !! t = Some (S k) → lh_n l + Z.of_nat (S k) + Z.of_nat (reserved (delete t ops)) <= LOGSIZE) as Hshare.
  { intros t k Ht. rewrite (reserved_delete t (S k)) in Hsum by done. lia. }
  assert (∀ t k b, ops !! t = Some (S k) →
      if lg_size l0 - 1 <=? lh_n l then log_write b l = Panic "too big a transaction" l
      else ∃ l', log_write b l = Ok tt l') as Hwrite.
  { intros t k b Ht. specialize (Hshare t k Ht).
    assert (size ops ≠ 0%nat) as Hne by (rewrite map_size_non_empty_iff; intros ->; by rewrite lookup_empty in Ht).
    unfold log_write, get_log. run. destruct (Z.leb_spec (lg_size l0 - 1) (lh_n l)).
    - rewrite run_panic_if_true; [done|]. apply orb_true_intro. right. apply Z.leb_le. lia.
    - rewrite run_panic_if by (apply orb_false_intro; apply Z.leb_gt; lia).
      rewrite run_panic_if by (apply Z.ltb_ge; lia). run. case_match; run; by eexists. }
  split_and!; [done|done|..].
  - intros Hroom t k b Ht. specialize (Hwrite t k b Ht). specialize (Hshare t k Ht). by rewrite (proj2 (Z.leb_gt _ _)) in Hwrite by lia.
  - intros Hmk t k b Ht. specialize (Hwrite t k b Ht). specialize (Hshare t k Ht).
    destruct (Z.leb_spec (lg_size l0 - 1) (lh_n l)); [|by left]. right. rewrite (reserved_delete t (S k)) by done. lia.
  - intros t [k Ht].
    assert (c = false) as -> by (destruct c; [by rewrite Hexcl in Ht|done]).
    unfold end_op_enter. run. rewrite run_panic_if by done. run. cbn [lg_outstanding set_outstanding].
    rewrite Hout. destruct (Z.eqb_spec (Z.of_nat (size ops) - 1) 0) as [H|H]; run; eexists; cbv [mret M_ret]; f_equal.
    + symmetry. apply bool_decide_eq_true. lia.
    + symmetry. apply bool_decide_eq_false. lia.
  - intros -> ->. unfold begin_op, get_log. run. rewrite Hcom, Hout, (Hidle eq_refl eq_refl).
    rewrite map_size_empty. by eexists.
Qed.

End transactions.

(** On a log as mkfs makes it: in the operation that begin_op opens, log_write succeeds. *)
Lemma log_reservation_witness : ∃ l : logst Memide.memide, lg_size l = LOGSIZE ∧ ∃ l', log_write 0 l = Ok tt l'.
Proof.
  destruct boot_ex as (l & Hb & _). pose proof (fresh_len l (boot_fresh l Hb)) as Hlen.
  set (l0 := Log (lg_bc l) 2 30 0 false 1 0 (lh_block l) 0).
  assert (idle l0) as Hi by done. assert (Z.of_nat (length (lh_block l0)) = LOGSIZE) as Hl0 by exact Hlen.
  destruct (log_reservation l0 Hi Hl0) as [H _].
  set (st := TState (set_outstanding 1 l0) {[0%nat := Z.to_nat MAXOPBLOCKS]} false).
  assert (rtc tstep (TState l0 ∅ false) st) as Hr by (apply rtc_once; apply (begin_run l0 ∅ 0); by vm_compute).
  destruct (H st Hr) as (_ & Hw & _). exists (set_outstanding 1 l0). split; [reflexivity|]. exact (Hw 0%nat 9%nat 0%nat eq_refl).
Defined.
