(* ===== verification/Blocks.v ===== *)
(** * The interface between the log and the file system

    [BlockLayer] is what fs.c uses of bio.c and log.c: operations on buffers, and
    what they promise in terms of [bl_view], the contents every block reads as.
    A client never sees flags, the LRU list, the disk or the log's header.
    [log_layer] shows that the log over the buffer cache implements it. *)

From S2P Require Import Prelude Sleeplock Disk Ring Bio Log.

Class BlockLayer (K : Type) := {
  bl_dev : Z;
  bl_bread : Z → Z → M K nat;
  bl_data : nat → K → block;
  bl_upd : nat → (block → block) → M K unit;
  bl_log_write : nat → M K unit;
  bl_brelse : nat → M K unit;
  bl_begin_op : M K unit;
  bl_end_op : M K unit;
  (** the invariant, the contents, the buffers held with their blocks, and the
      blocks of the open transaction *)
  bl_inv : K → Prop;
  bl_view : K → Z → block;
  bl_held : K → list (nat * Z);
  bl_logged : K → list Z;
  bl_block : K → Z → Prop;     (** blocks the file system may use *)
  bl_open : K → Prop;          (** inside a transaction *)
  bl_stable : K → Z → Prop;    (** not changed since it was read or logged *)
  bl_bufs : nat;
  bl_cap : K → nat
}.

(** What does not change while the file system works inside a transaction. *)
Record bl_same {K} `{!BlockLayer K} (k k' : K) : Prop := {
  same_inv : bl_inv k';
  same_block : ∀ n, bl_block k' n ↔ bl_block k n;
  same_open : bl_open k → bl_open k';
  same_cap : bl_cap k' = bl_cap k
}.

Class BlockLayerLaws (K : Type) `{!BlockLayer K} := {
  bl_length : ∀ k n, bl_inv k → length (bl_view k n) = BSIZE;
  bl_held_data : ∀ k b n, bl_inv k → (b, n) ∈ bl_held k → bl_data b k = bl_view k n;
  bl_bread_ok : ∀ k n, bl_inv k → bl_block k n → n ∉ (bl_held k).*2 →
    (length (bl_held k) + length (bl_logged k) < bl_bufs)%nat →
    ∃ b k', bl_bread bl_dev n k = Ok b k' ∧ bl_same k k' ∧ (∀ m, bl_view k' m = bl_view k m) ∧
      bl_held k' ≡ₚ (b, n) :: bl_held k ∧ bl_logged k' = bl_logged k ∧ bl_stable k' n ∧
      (∀ m, bl_stable k m → bl_stable k' m);
  bl_upd_ok : ∀ k b n f, bl_inv k → (b, n) ∈ bl_held k → length (f (bl_view k n)) = BSIZE →
    ∃ k', bl_upd b f k = Ok tt k' ∧ bl_same k k' ∧
      (∀ m, bl_view k' m = if decide (m = n) then f (bl_view k n) else bl_view k m) ∧
      bl_held k' ≡ₚ bl_held k ∧ bl_logged k' = bl_logged k ∧
      (∀ m, m ≠ n → bl_stable k m → bl_stable k' m);
  bl_log_write_ok : ∀ k b n, bl_inv k → (b, n) ∈ bl_held k → bl_block k n → bl_open k →
    (length (bl_logged k) < bl_cap k)%nat →
    ∃ k', bl_log_write b k = Ok tt k' ∧ bl_same k k' ∧ (∀ m, bl_view k' m = bl_view k m) ∧
      bl_held k' ≡ₚ bl_held k ∧
      bl_logged k' = (if decide (n ∈ bl_logged k) then bl_logged k else bl_logged k ++ [n]) ∧
      bl_stable k' n ∧ (∀ m, bl_stable k m → bl_stable k' m);
  bl_brelse_ok : ∀ k b n, bl_inv k → (b, n) ∈ bl_held k → bl_stable k n →
    ∃ k', bl_brelse b k = Ok tt k' ∧ bl_same k k' ∧ (∀ m, bl_view k' m = bl_view k m) ∧
      bl_held k ≡ₚ (b, n) :: bl_held k' ∧ bl_logged k' = bl_logged k ∧
      (∀ m, bl_stable k m → bl_stable k' m)
}.

(** ** The log implements it *)

Section log_layer.
Context {D : Type} `{!DiskDriver D, !DiskDriverLaws D}.
Implicit Types (l : logst D) (s : bcache D).

(** The buffers held, with the blocks they cache. *)
Definition held_list s : list (nat * Z) :=
  omap (λ i, if decide (b_refcnt (bp s i) = 1 ∧ b_dev (bp s i) = dd_dev)
             then Some (i, b_blockno (bp s i)) else None) (seq 0 NBUF).

Lemma elem_of_held_list s i n : (i, n) ∈ held_list s ↔ heldblk s i n.
Proof.
  unfold held_list. rewrite list_elem_of_omap. unfold heldblk, caches, held. split.
  - intros (j & Hj & H). case_decide as Hd; [|done]. injection H as -> <-.
    apply elem_of_seq in Hj. split_and!; [lia|apply Hd|done|apply Hd].
  - intros ((Hi & Hd & Hn) & Hr). exists i. rewrite decide_True by done.
    split; [apply elem_of_seq; lia|by rewrite Hn].
Qed.

Lemma held_list_nodup s : NoDup (held_list s).
Proof.
  apply (NoDup_fmap_1 fst). unfold held_list.
  generalize (NoDup_seq 0 NBUF). generalize (seq 0 NBUF). intros js.
  induction js as [|i js IH]; intros Hnd; [constructor|]. apply NoDup_cons in Hnd as [Hi Hnd].
  simpl. case_decide; [|by apply IH]. simpl. constructor; [|by apply IH].
  intros (x & Hx & Hin)%list_elem_of_fmap. apply list_elem_of_omap in Hin as (j & Hj & Heq).
  case_decide; [|done]. injection Heq as <-. simpl in Hx. by subst.
Qed.

Lemma held_list_perm s s' (ls : list (nat * Z)) :
  NoDup ls → (∀ i n, heldblk s' i n ↔ (i, n) ∈ ls) → held_list s' ≡ₚ ls.
Proof.
  intros Hnd H. apply NoDup_Permutation; [apply held_list_nodup|done|].
  intros [i n]. by rewrite elem_of_held_list.
Qed.

Definition stable s (n : Z) : Prop := dirtyblk s n ∨ view s n = dd_block (bc_drv s) n.

#[export] Instance log_layer : BlockLayer (logst D) := {
  bl_dev := dd_dev;
  bl_bread := λ dev n, bc (bread dev n);
  bl_data := λ b l, bdata b (lg_bc l);
  bl_upd := λ b f, bc (bupd b f);
  bl_log_write := log_write;
  bl_brelse := λ b, bc (brelse b);
  bl_begin_op := begin_op;
  bl_end_op := end_op;
  bl_inv := log_inv;
  bl_view := λ l, view (lg_bc l);
  bl_held := λ l, held_list (lg_bc l);
  bl_logged := logged;
  bl_block := data_block;
  bl_open := λ l, 1 <= lg_outstanding l;
  bl_stable := λ l, stable (lg_bc l);
  bl_bufs := NBUF;
  bl_cap := λ l, Z.to_nat (Z.min LOGSIZE (lg_size l - 1))
}.

Lemma same_cache l s :
  log_inv l → bc_inv s → bc_drv s = bc_drv (lg_bc l) →
  (∀ m, dirtyblk s m ↔ dirtyblk (lg_bc l) m) → bl_same l (set_bc s l).
Proof.
  intros Hl Hs Hdrv Hd. split; [by apply log_inv_cache| |done|done].
  intros n. simpl. unfold data_block. simpl. by rewrite Hdrv.
Qed.

Lemma log_held_data l b n :
  log_inv l → (b, n) ∈ held_list (lg_bc l) → bdata b (lg_bc l) = view (lg_bc l) n.
Proof.
  intros Hl Hb. apply elem_of_held_list in Hb. symmetry.
  exact (held_view _ b n (log_cache l Hl) Hb).
Qed.

Lemma log_bread_ok l n :
  log_inv l → data_block l n → n ∉ (held_list (lg_bc l)).*2 →
  (length (held_list (lg_bc l)) + length (logged l) < NBUF)%nat →
  ∃ b l', bc (bread dd_dev n) l = Ok b l' ∧ bl_same l l' ∧
    (∀ m, view (lg_bc l') m = view (lg_bc l) m) ∧
    held_list (lg_bc l') ≡ₚ (b, n) :: held_list (lg_bc l) ∧ logged l' = logged l ∧
    stable (lg_bc l') n ∧ (∀ m, stable (lg_bc l) m → stable (lg_bc l') m).
Proof.
  intros Hl [Hn _] Hnh Hcap. pose proof (log_cache l Hl) as Hs.
  assert (∀ i, ¬ heldblk (lg_bc l) i n) as Hnh'.
  { intros i Hi%elem_of_held_list. apply Hnh. by apply (list_elem_of_fmap_2 snd) in Hi. }
  destruct (bread_spec (lg_bc l) n Hs Hn Hnh') as (b & s & Hrun & [Hs' Hdrv _ Hnew Hh Hv Hd]).
  { right. apply (has_free_intro _ ((held_list (lg_bc l)).*2 ++ logged l)); [done| | |].
    - intros i m Hi%elem_of_held_list. apply elem_of_app. left.
      by apply (list_elem_of_fmap_2 snd) in Hi.
    - intros m Hm%(log_dirty l Hl). apply elem_of_app. by right.
    - rewrite length_app, length_fmap. lia. }
  assert (∀ m, stable (lg_bc l) m → stable s m) as Hst.
  { intros m. unfold stable. by rewrite Hd, Hv, Hdrv. }
  exists b, (set_bc s l). split_and!; simpl; [by apply bc_run|by apply same_cache|done| |done| |done].
  - apply (held_list_perm (lg_bc l)).
    + apply NoDup_cons. split; [|apply held_list_nodup].
      rewrite elem_of_held_list. by intros [_ ?].
    + intros i m. rewrite Hh, elem_of_cons, elem_of_held_list. naive_solver.
  - apply Hst, clean_view; [done|]. apply Hnh'.
Qed.

Lemma log_upd_ok l b n f :
  log_inv l → (b, n) ∈ held_list (lg_bc l) → length (f (view (lg_bc l) n)) = BSIZE →
  ∃ l', bc (bupd b f) l = Ok tt l' ∧ bl_same l l' ∧
    (∀ m, view (lg_bc l') m = if decide (m = n) then f (view (lg_bc l) n) else view (lg_bc l) m) ∧
    held_list (lg_bc l') ≡ₚ held_list (lg_bc l) ∧ logged l' = logged l ∧
    (∀ m, m ≠ n → stable (lg_bc l) m → stable (lg_bc l') m).
Proof.
  intros Hl Hb%elem_of_held_list Hlen. pose proof (log_cache l Hl) as Hs.
  destruct (bstore_spec (lg_bc l) b n (f (view (lg_bc l) n)) Hs Hb Hlen)
    as (s & fl & Hrun & Hdrv & [Hs' _ Hh Hv Hd] & Hfl).
  assert (∀ m, dirtyblk s m ↔ dirtyblk (lg_bc l) m) as Hd'.
  { intros m. rewrite Hd. case_decide; [subst; apply Hfl|done]. }
  exists (set_bc s l). split_and!; simpl; [|by apply same_cache|done| |done|].
  - apply bc_run. unfold bupd. run. by rewrite <-(held_view (lg_bc l) b n).
  - apply (held_list_perm (lg_bc l)); [apply held_list_nodup|].
    intros i m. by rewrite Hh, elem_of_held_list.
  - intros m Hm. unfold stable. by rewrite Hd', Hv, Hdrv, decide_False.
Qed.

Lemma log_log_write_ok l b n :
  log_inv l → (b, n) ∈ held_list (lg_bc l) → data_block l n → 1 <= lg_outstanding l →
  (length (logged l) < Z.to_nat (Z.min LOGSIZE (lg_size l - 1)))%nat →
  ∃ l', log_write b l = Ok tt l' ∧ bl_same l l' ∧
    (∀ m, view (lg_bc l') m = view (lg_bc l) m) ∧
    held_list (lg_bc l') ≡ₚ held_list (lg_bc l) ∧
    logged l' = (if decide (n ∈ logged l) then logged l else logged l ++ [n]) ∧
    stable (lg_bc l') n ∧ (∀ m, stable (lg_bc l) m → stable (lg_bc l') m).
Proof.
  intros Hl Hb%elem_of_held_list Hn Ho Hcap. pose proof (length_logged l Hl) as Hlen.
  destruct (log_write_ok l b n Hl Hb Hn) as
    (l' & Hrun & Hl' & Hlog & Hout & Hcom & Hst & Hsz & Hdrv & Hv & Hh); [lia..|].
  assert (∀ m, dirtyblk (lg_bc l') m ↔ m = n ∨ dirtyblk (lg_bc l) m) as Hd.
  { intros m. rewrite (log_dirty l' Hl'), (log_dirty l Hl), Hlog. unfold absorb.
    case_decide; set_solver. }
  exists l'. split_and!; simpl; [done| |done| |done| |].
  - split; simpl; [done| |by rewrite Hout|by rewrite Hsz].
    intros m. unfold data_block. by rewrite Hdrv, Hst, Hsz.
  - apply (held_list_perm (lg_bc l)); [apply held_list_nodup|].
    intros i m. by rewrite Hh, elem_of_held_list.
  - left. apply Hd. by left.
  - intros m. unfold stable. rewrite Hd, Hv, Hdrv. tauto.
Qed.

Lemma log_brelse_ok l b n :
  log_inv l → (b, n) ∈ held_list (lg_bc l) → stable (lg_bc l) n →
  ∃ l', bc (brelse b) l = Ok tt l' ∧ bl_same l l' ∧
    (∀ m, view (lg_bc l') m = view (lg_bc l) m) ∧
    held_list (lg_bc l) ≡ₚ (b, n) :: held_list (lg_bc l') ∧ logged l' = logged l ∧
    (∀ m, stable (lg_bc l) m → stable (lg_bc l') m).
Proof.
  intros Hl Hb%elem_of_held_list Hst. pose proof (log_cache l Hl) as Hs.
  destruct (brelse_spec (lg_bc l) b n Hs Hb Hst) as (s & Hrun & [Hs' Hdrv _ Hh Hv Hd]).
  exists (set_bc s l). split_and!; simpl; [by apply bc_run|by apply same_cache|done| |done|].
  - apply (held_list_perm s).
    + apply NoDup_cons. split; [|apply held_list_nodup].
      rewrite elem_of_held_list, Hh. naive_solver.
    + intros i m. rewrite elem_of_cons, elem_of_held_list, Hh.
      destruct (decide (i = b)) as [->|Hne]; [|naive_solver].
      split; [|intros [[=]|[? _]]; [by subst|done]].
      intros Hb'. left. f_equal. destruct Hb as [(_ & _ & <-) _], Hb' as [(_ & _ & <-) _]. done.
  - intros m. unfold stable. by rewrite Hd, Hv, Hdrv.
Qed.

#[export] Instance log_layer_laws : BlockLayerLaws (logst D).
Proof.
  split.
  - intros l n Hl. exact (length_view _ _ (log_cache l Hl)).
  - exact log_held_data.
  - exact log_bread_ok.
  - exact log_upd_ok.
  - exact log_log_write_ok.
  - exact log_brelse_ok.
Qed.

End log_layer.

(** ** Transactions of a client *)

Section client.
Context {K : Type} `{!BlockLayer K, !BlockLayerLaws K}.
Implicit Types (k : K).

Definition absorb_all (ns : list Z) (l : list Z) : list Z := foldl (λ l n, absorb n l) l ns.

(** A routine that worked on blocks: the contents are now [v], the buffers held
    are [h], and the blocks [ns] were logged. *)
Record bl_step k (v : Z → block) (h : list (nat * Z)) (ns : list Z) k' : Prop := {
  step_same : bl_same k k';
  step_view : ∀ m, bl_view k' m = v m;
  step_held : bl_held k' ≡ₚ h;
  step_logged : bl_logged k' = absorb_all ns (bl_logged k);
  step_stable : ∀ m, bl_stable k m → bl_stable k' m
}.

(** There is room for [b] more buffers and [n] more logged blocks. *)
Record bl_room k (b n : nat) : Prop := {
  room_bufs : (length (bl_held k) + length (bl_logged k) + b + n <= bl_bufs)%nat;
  room_log : (length (bl_logged k) + n <= bl_cap k)%nat
}.

Lemma length_absorb n l : (length l <= length (absorb n l) <= S (length l))%nat.
Proof. unfold absorb. case_decide; rewrite ?length_app; simpl; lia. Qed.

Lemma length_absorb_all ns l :
  (length l <= length (absorb_all ns l) <= length l + length ns)%nat.
Proof.
  revert l. induction ns as [|n ns IH]; intros l; simpl; [lia|].
  pose proof (length_absorb n l). specialize (IH (absorb n l)). lia.
Qed.

Lemma bl_same_refl k : bl_inv k → bl_same k k.
Proof. done. Qed.

Lemma bl_same_trans k1 k2 k3 : bl_same k1 k2 → bl_same k2 k3 → bl_same k1 k3.
Proof.
  intros [? Hb1 Ho1 Hc1] [? Hb2 Ho2 Hc2]. split; [done| |auto|congruence].
  intros n. by rewrite Hb2, Hb1.
Qed.

Lemma bl_step_refl k : bl_inv k → bl_step k (bl_view k) (bl_held k) [] k.
Proof. by split. Qed.

Lemma bl_step_trans k1 v1 h1 ns1 k2 v2 h2 ns2 k3 :
  bl_step k1 v1 h1 ns1 k2 → bl_step k2 v2 h2 ns2 k3 → bl_step k1 v2 h2 (ns1 ++ ns2) k3.
Proof.
  intros [Hs1 Hv1 Hh1 Hl1 Hst1] [Hs2 Hv2 Hh2 Hl2 Hst2]. split.
  - by eapply bl_same_trans.
  - done.
  - done.
  - rewrite Hl2, Hl1. unfold absorb_all. by rewrite foldl_app.
  - auto.
Qed.

(** Contents up to extensionality, buffers up to order. *)
Lemma bl_step_ext k v v' h h' ns k' :
  (∀ m, v m = v' m) → h ≡ₚ h' → bl_step k v h ns k' → bl_step k v' h' ns k'.
Proof.
  intros Hv Hh [? Hw Hh' ? ?]. split; [done| | |done..].
  - intros m. by rewrite Hw, Hv.
  - by rewrite Hh'.
Qed.

Lemma bl_step_room k v h ns k' b n b' n' :
  bl_step k v h ns k' → bl_room k b' n' →
  (length h + length ns + b + n <= length (bl_held k) + b' + n')%nat →
  (length ns + n <= n')%nat → bl_room k' b n.
Proof.
  intros [Hs _ Hh Hl _] [Hb Hc] Hle Hle'. pose proof (length_absorb_all ns (bl_logged k)).
  pose proof (same_cap _ _ Hs) as Hcap.
  split; rewrite ?Hl, ?Hh, ?Hcap; lia.
Qed.

Lemma step_inv k v h ns k' : bl_step k v h ns k' → bl_inv k'.
Proof. intros [[]]. done. Qed.
Lemma step_open k v h ns k' : bl_step k v h ns k' → bl_open k → bl_open k'.
Proof. intros [[]]. done. Qed.
Lemma step_block k v h ns k' n : bl_step k v h ns k' → bl_block k n → bl_block k' n.
Proof. intros [[? H]] ?. by apply H. Qed.
Lemma step_not_held k v h ns k' m : bl_step k v h ns k' → m ∉ h.*2 → m ∉ (bl_held k').*2.
Proof. intros Hs. by rewrite (step_held _ _ _ _ _ Hs). Qed.
Lemma step_is_held k v h ns k' x : bl_step k v h ns k' → x ∈ h → x ∈ bl_held k'.
Proof. intros Hs. by rewrite (step_held _ _ _ _ _ Hs). Qed.

(** The operations of the interface, as steps. *)
Lemma bread_step k n :
  bl_inv k → bl_block k n → n ∉ (bl_held k).*2 → bl_room k 1 0 →
  ∃ b k', bl_bread bl_dev n k = Ok b k' ∧
    bl_step k (bl_view k) ((b, n) :: bl_held k) [] k' ∧ bl_stable k' n.
Proof.
  intros Hk Hn Hnh [Hb _].
  destruct (bl_bread_ok k n Hk Hn Hnh) as (b & k1 & H1 & Hs1 & Hv1 & Hh1 & Hl1 & Hst & Hst1); [lia|].
  exists b, k1. split_and!; [done| |done]. by split.
Qed.

Lemma brelse_step k b n h :
  bl_inv k → bl_held k ≡ₚ (b, n) :: h → bl_stable k n →
  ∃ k', bl_brelse b k = Ok tt k' ∧ bl_step k (bl_view k) h [] k'.
Proof.
  intros Hk Hb Hst.
  destruct (bl_brelse_ok k b n Hk) as (k2 & H2 & Hs2 & Hv2 & Hh2 & Hl2 & Hst2);
    [rewrite Hb; by left|done|].
  exists k2. split; [done|]. split; [done..| |done|done].
  rewrite Hb in Hh2. symmetry. by apply (Permutation_cons_inv (a := (b, n))).
Qed.

(** A block is read. *)
Lemma read_spec {A} k n (g : block → A) :
  bl_inv k → bl_block k n → n ∉ (bl_held k).*2 → bl_room k 1 0 →
  ∃ k', (b ← bl_bread bl_dev n; d ← gets (bl_data b); bl_brelse b;; mret (g d)) k =
      Ok (g (bl_view k n)) k' ∧ bl_step k (bl_view k) (bl_held k) [] k'.
Proof.
  intros Hk Hn Hnh Hr.
  destruct (bread_step k n Hk Hn Hnh Hr) as (b & k1 & H1 & Hs1 & Hst1).
  pose proof (step_inv _ _ _ _ _ Hs1) as Hk1.
  pose proof (step_is_held _ _ _ _ _ (b, n) Hs1 ltac:(by left)) as Hb.
  destruct (brelse_step k1 b n (bl_held k) Hk1 (step_held _ _ _ _ _ Hs1) Hst1) as (k2 & H2 & Hs2).
  exists k2. split.
  - rewrite (bind_run _ _ _ _ _ H1). run. rewrite (bind_run _ _ _ _ _ H2).
    by rewrite (bl_held_data k1 b n Hk1 Hb), (step_view _ _ _ _ _ Hs1).
  - eapply bl_step_ext; [|reflexivity|exact (bl_step_trans _ _ _ _ _ _ _ _ _ Hs1 Hs2)].
    apply (step_view _ _ _ _ _ Hs1).
Qed.

(** A held block is changed and logged. *)
Lemma upd_log_spec k b n (f : block → block) :
  bl_inv k → bl_open k → bl_block k n → (b, n) ∈ bl_held k →
  (length (bl_logged k) < bl_cap k)%nat → length (f (bl_view k n)) = BSIZE →
  ∃ k', (bl_upd b f;; bl_log_write b) k = Ok tt k' ∧
    bl_step k (fupd (bl_view k) n (f (bl_view k n))) (bl_held k) [n] k' ∧ bl_stable k' n.
Proof.
  intros Hk Ho Hn Hb Hc Hlen.
  destruct (bl_upd_ok k b n f Hk Hb Hlen) as (k1 & H1 & Hs1 & Hv1 & Hh1 & Hl1 & Hst1).
  pose proof (same_inv _ _ Hs1) as Hk1.
  destruct (bl_log_write_ok k1 b n Hk1) as (k2 & H2 & Hs2 & Hv2 & Hh2 & Hl2 & Hst2 & Hst2').
  { by rewrite Hh1. } { by apply (same_block _ _ Hs1). } { by apply (same_open _ _ Hs1). }
  { by rewrite Hl1, (same_cap _ _ Hs1). }
  exists k2. split_and!; [by rewrite (bind_run _ _ _ _ _ H1)| |done]. split.
  - by eapply bl_same_trans.
  - intros m. by rewrite Hv2, Hv1.
  - by rewrite Hh2.
  - by rewrite Hl2, Hl1.
  - intros m Hm. destruct (decide (m = n)) as [->|]; auto.
Qed.

(** ... and released. *)
Lemma logged_write_spec k b n (f : block → block) h :
  bl_inv k → bl_open k → bl_block k n → bl_held k ≡ₚ (b, n) :: h →
  (length (bl_logged k) < bl_cap k)%nat → length (f (bl_view k n)) = BSIZE →
  ∃ k', (bl_upd b f;; bl_log_write b;; bl_brelse b) k = Ok tt k' ∧
    bl_step k (fupd (bl_view k) n (f (bl_view k n))) h [n] k'.
Proof.
  intros Hk Ho Hn Hb Hc Hlen.
  destruct (upd_log_spec k b n f) as (k1 & H1 & Hs1 & Hst1); try done.
  { rewrite Hb. by left. }
  destruct (brelse_step k1 b n h (step_inv _ _ _ _ _ Hs1)) as (k2 & H2 & Hs2); [|done|].
  { by rewrite (step_held _ _ _ _ _ Hs1). }
  exists k2. split.
  - rewrite <-(run_assoc (bl_upd b f) (λ _, bl_log_write b) (λ _, bl_brelse b)).
    by rewrite (bind_run _ _ _ _ _ H1).
  - eapply bl_step_ext; [|reflexivity|exact (bl_step_trans _ _ _ _ _ _ _ _ _ Hs1 Hs2)].
    apply (step_view _ _ _ _ _ Hs1).
Qed.

(** A block is read, changed, logged and released. *)
Lemma modify_spec k n (f : block → block) :
  bl_inv k → bl_open k → bl_block k n → n ∉ (bl_held k).*2 → bl_room k 1 1 →
  length (f (bl_view k n)) = BSIZE →
  ∃ k', (b ← bl_bread bl_dev n; bl_upd b f;; bl_log_write b;; bl_brelse b) k = Ok tt k' ∧
    bl_step k (fupd (bl_view k) n (f (bl_view k n))) (bl_held k) [n] k'.
Proof.
  intros Hk Ho Hn Hnh Hr Hlen.
  assert (bl_room k 1 0) as Hr' by (destruct Hr; split; lia).
  destruct (bread_step k n Hk Hn Hnh Hr') as (b & k1 & H1 & Hs1 & _).
  pose proof (step_view _ _ _ _ _ Hs1) as Hv1.
  destruct (logged_write_spec k1 b n f (bl_held k)) as (k2 & H2 & Hs2).
  { exact (step_inv _ _ _ _ _ Hs1). } { exact (step_open _ _ _ _ _ Hs1 Ho). }
  { exact (step_block _ _ _ _ _ _ Hs1 Hn). } { exact (step_held _ _ _ _ _ Hs1). }
  { rewrite (step_logged _ _ _ _ _ Hs1), (same_cap _ _ (step_same _ _ _ _ _ Hs1)).
    destruct Hr. simpl. lia. }
  { by rewrite Hv1. }
  exists k2. split; [by rewrite (bind_run _ _ _ _ _ H1)|].
  eapply bl_step_ext; [|reflexivity|exact (bl_step_trans _ _ _ _ _ _ _ _ _ Hs1 Hs2)].
  intros m. unfold fupd. by rewrite !Hv1.
Qed.

End client.

#[export] Hint Resolve step_inv step_open step_block step_not_held step_is_held : xv6.
