(* ===== verification/Fs.v ===== *)
(** * The file system (fs.c): operations

    Written against the interface [BlockLayer]. A pointer to an in-core inode is
    an index into icache.inode; icache.lock makes iget, idup and the reference
    counting of iput atomic sections. A C string is the list of its characters
    without the NUL; a name is the array of DIRSIZ characters. readi returns the
    bytes it copies out and writei takes the bytes it copies in. The device
    table devsw is a parameter: the functions that the console registers. *)

From S2P Require Import Prelude Cstring Sleeplock Disk Log Blocks.

Definition ROOTDEV : Z := 1.
Definition ROOTINO : Z := 1.
Definition NINODE : nat := 50.
Definition NDEV : Z := 10.
Definition NDIRECT : Z := 12.
Definition NINDIRECT : Z := Z.of_nat BSIZE / 4.
Definition MAXFILE : Z := NDIRECT + NINDIRECT.
Definition DIRSIZ : Z := 14.
Definition T_DIR : Z := 1.
Definition T_FILE : Z := 2.
Definition T_DEV : Z := 3.
Definition BPB : Z := Z.of_nat BSIZE * 8.
Definition IPB : Z := Z.of_nat BSIZE / 64.
Definition BSZ : Z := Z.of_nat BSIZE.

Definition IBLOCK (i : Z) (sb : superblock) : Z := i / IPB + sb_inodestart sb.
Definition BBLOCK (b : Z) (sb : superblock) : Z := b / BPB + sb_bmapstart sb.

(** ** On-disk inodes: struct dinode at byte [off] of a block *)

Record dinode := Dinode {
  d_type : Z; d_major : Z; d_minor : Z; d_nlink : Z; d_size : Z; d_addrs : list Z
}.

Definition dip_off (inum : Z) : nat := Z.to_nat (inum mod IPB) * 64.

Definition dinode_get (d : block) (off : nat) : dinode :=
  Dinode (s16 (getw 2 d off)) (s16 (getw 2 d (off + 2))) (s16 (getw 2 d (off + 4)))
    (s16 (getw 2 d (off + 6))) (getw 4 d (off + 8))
    ((λ i, getw 4 d (off + 12 + 4 * i)) <$> seq 0 13).

Definition dinode_put (off : nat) (x : dinode) (d : block) : block :=
  let d := putw 2 d off (d_type x) in
  let d := putw 2 d (off + 2) (d_major x) in
  let d := putw 2 d (off + 4) (d_minor x) in
  let d := putw 2 d (off + 6) (d_nlink x) in
  let d := putw 4 d (off + 8) (d_size x) in
  splice d (off + 12) (mjoin (le_bytes 4 <$> d_addrs x)).

(** ** In-core inodes *)

Record inode := Inode {
  i_dev : Z; i_inum : Z; i_ref : Z; i_lock : sleeplock; i_valid : bool; i_d : dinode
}.
Definition inode0 : inode := Inode 0 0 0 initsleeplock false (Dinode 0 0 0 0 0 (replicate 13 0)).
#[export] Instance inode_inhabited : Inhabited inode := populate inode0.

Definition set_ref v (i : inode) := Inode (i_dev i) (i_inum i) v (i_lock i) (i_valid i) (i_d i).
Definition set_ilock v (i : inode) := Inode (i_dev i) (i_inum i) (i_ref i) v (i_valid i) (i_d i).
Definition set_valid v (i : inode) := Inode (i_dev i) (i_inum i) (i_ref i) (i_lock i) v (i_d i).
Definition set_d v (i : inode) := Inode (i_dev i) (i_inum i) (i_ref i) (i_lock i) (i_valid i) v.

Definition set_type v (d : dinode) := Dinode v (d_major d) (d_minor d) (d_nlink d) (d_size d) (d_addrs d).
Definition set_size v (d : dinode) := Dinode (d_type d) (d_major d) (d_minor d) (d_nlink d) v (d_addrs d).
Definition set_nlink v (d : dinode) := Dinode (d_type d) (d_major d) (d_minor d) v (d_size d) (d_addrs d).
Definition set_majmin v w (d : dinode) := Dinode (d_type d) v w (d_nlink d) (d_size d) (d_addrs d).
Definition set_addr i v (d : dinode) :=
  Dinode (d_type d) (d_major d) (d_minor d) (d_nlink d) (d_size d) (setZ (d_addrs d) i v).

(** The kernel below, the superblock, the inode cache, and of the running
    process its pid and current directory. *)
Record fsst (K : Type) := FsSt {
  fs_k : K; fs_sb : superblock; fs_icache : list inode; fs_pid : Z; fs_cwd : nat
}.
Arguments FsSt {K} _ _ _ _ _.
Arguments fs_k {K} _.
Arguments fs_sb {K} _.
Arguments fs_icache {K} _.
Arguments fs_pid {K} _.
Arguments fs_cwd {K} _.

Section fs.
Context {K : Type} `{!BlockLayer K}.
Implicit Types (f : fsst K) (ip : nat).

Definition set_k k f : fsst K := FsSt k (fs_sb f) (fs_icache f) (fs_pid f) (fs_cwd f).
Definition set_sb s f : fsst K := FsSt (fs_k f) s (fs_icache f) (fs_pid f) (fs_cwd f).
Definition set_icache c f : fsst K := FsSt (fs_k f) (fs_sb f) c (fs_pid f) (fs_cwd f).
Definition set_cwd c f : fsst K := FsSt (fs_k f) (fs_sb f) (fs_icache f) (fs_pid f) c.

Definition kk {A} (m : M K A) : M (fsst K) A := zoom fs_k set_k m.
Definition inode_of ip f : inode := fs_icache f !!! ip.
Definition upd_inode ip (g : inode → inode) : M (fsst K) unit :=
  modify (λ f, set_icache (alter g ip (fs_icache f)) f).
Definition upd_d ip (g : dinode → dinode) : M (fsst K) unit :=
  upd_inode ip (λ i, set_d (g (i_d i)) i).

(** The two functions of a devsw entry, where one is registered. *)
Context (devsw_read : Z → option (nat → Z → M (fsst K) (Z * list Z))).
Context (devsw_write : Z → option (nat → list Z → M (fsst K) Z)).

Definition fs_readsb (dev : Z) : M (fsst K) superblock :=
  kk (b ← bl_bread dev 1; d ← gets (bl_data b); bl_brelse b;; mret (sb_decode d)).

(** ** Blocks *)

(** Zero a block. *)
Definition bzero (dev bno : Z) : M K unit :=
  b ← bl_bread dev bno;
  bl_upd b (λ _, zero_block);;
  bl_log_write b;;
  bl_brelse b.

Definition bit_set (d : block) (bi : Z) : bool := negb (Z.land (getZ d (bi / 8)) (Z.shiftl 1 (bi mod 8)) =? 0).
Definition mark_bit (bi : Z) (d : block) : block :=
  setZ d (bi / 8) (Z.lor (getZ d (bi / 8)) (Z.shiftl 1 (bi mod 8))).
Definition clear_bit (bi : Z) (d : block) : block :=
  setZ d (bi / 8) (Z.land (getZ d (bi / 8)) (Z.lnot (Z.shiftl 1 (bi mod 8)))).

(** Allocate a zeroed disk block: the loop over one bitmap block. *)
Definition balloc_bits (dev b size : Z) (bp : nat) : M K (option Z) :=
  for_until (seqZ 0 (Z.min BPB (size - b))) (λ bi,
    d ← gets (bl_data bp);
    if negb (bit_set d bi) then
      bl_upd bp (mark_bit bi);;
      bl_log_write bp;;
      bl_brelse bp;;
      bzero dev (b + bi);;
      mret (Some (b + bi))
    else mret None).

Definition balloc (dev : Z) : M (fsst K) Z :=
  sb ← gets fs_sb;
  r ← for_until ((λ i, i * BPB) <$> seqZ 0 ((sb_size sb + BPB - 1) / BPB)) (λ b, kk (
    bp ← bl_bread dev (BBLOCK b sb);
    r ← balloc_bits dev b (sb_size sb) bp;
    match r with
    | Some a => mret (Some a)
    | None => bl_brelse bp;; mret None
    end));
  match r with
  | Some a => mret a
  | None => panic "balloc: out of blocks"
  end.

(** Free a disk block. *)
Definition bfree (dev b : Z) : M (fsst K) unit :=
  sb ← fs_readsb dev;
  modify (set_sb sb);;
  kk (bp ← bl_bread dev (BBLOCK b sb);
      let bi := b mod BPB in
      d ← gets (bl_data bp);
      panic_if (negb (bit_set d bi)) "freeing free block";;
      bl_upd bp (clear_bit bi);;
      bl_log_write bp;;
      bl_brelse bp).

(** ** Inodes *)

Definition iinit (dev : Z) : M (fsst K) unit :=
  for_each (seq 0 NINODE) (λ i, upd_inode i (set_ilock initsleeplock));;
  sb ← fs_readsb dev;
  modify (set_sb sb).

(** The scan of iget: the cached entry if there is one, and the first free one
    seen before the scan stops. *)
Fixpoint iget_scan (dev inum : Z) (l : list inode) (i : nat) (empty : option nat) :
    option nat * option nat :=
  match l with
  | [] => (None, empty)
  | ip :: l =>
      if (0 <? i_ref ip) && (i_dev ip =? dev) && (i_inum ip =? inum) then (Some i, empty)
      else iget_scan dev inum l (S i)
             (match empty with
              | None => if i_ref ip =? 0 then Some i else None
              | Some _ => empty
              end)
  end.

Definition iget (dev inum : Z) : M (fsst K) nat :=
  l ← gets fs_icache;
  match iget_scan dev inum l 0 None with
  | (Some ip, _) => upd_inode ip (λ i, set_ref (i_ref i + 1) i);; mret ip
  | (None, None) => panic "iget: no inodes"
  | (None, Some ip) =>
      upd_inode ip (λ i, Inode dev inum 1 (i_lock i) false (i_d i));;
      mret ip
  end.

(** Allocate an inode on device dev. *)
Definition ialloc (dev type : Z) : M (fsst K) nat :=
  sb ← gets fs_sb;
  r ← for_until (seqZ 1 (sb_ninodes sb - 1)) (λ inum,
    b ← kk (bl_bread dev (IBLOCK inum sb));
    d ← gets (λ f, bl_data b (fs_k f));
    if d_type (dinode_get d (dip_off inum)) =? 0 then
      kk (bl_upd b (λ d, putw 2 (splice d (dip_off inum) (replicate 64 0)) (dip_off inum) type);;
          bl_log_write b;;
          bl_brelse b);;
      ip ← iget dev inum;
      mret (Some ip)
    else kk (bl_brelse b);; mret None);
  match r with
  | Some ip => mret ip
  | None => panic "ialloc: no inodes"
  end.

(** Copy a modified in-memory inode to disk. *)
Definition iupdate ip : M (fsst K) unit :=
  i ← gets (inode_of ip);
  sb ← gets fs_sb;
  kk (b ← bl_bread (i_dev i) (IBLOCK (i_inum i) sb);
      bl_upd b (dinode_put (dip_off (i_inum i)) (i_d i));;
      bl_log_write b;;
      bl_brelse b).

Definition idup ip : M (fsst K) nat :=
  upd_inode ip (λ i, set_ref (i_ref i + 1) i);; mret ip.

Definition acquiresleep_inode ip : M (fsst K) unit := λ f,
  match acquiresleep (fs_pid f) (i_lock (inode_of ip f)) with
  | Ok _ lk => upd_inode ip (set_ilock lk) f
  | Panic msg _ => Panic msg f
  | Blocked _ => Blocked f
  | NoFuel => NoFuel
  end.

Definition releasesleep_inode ip : M (fsst K) unit := upd_inode ip (set_ilock (Sleeplock false 0)).

(** Lock the given inode; read it from disk if necessary. *)
Definition ilock ip : M (fsst K) unit :=
  i ← gets (inode_of ip);
  panic_if (i_ref i <? 1) "ilock";;
  acquiresleep_inode ip;;
  i ← gets (inode_of ip);
  if i_valid i : bool then mret tt
  else
    sb ← gets fs_sb;
    b ← kk (bl_bread (i_dev i) (IBLOCK (i_inum i) sb));
    d ← gets (λ f, bl_data b (fs_k f));
    upd_d ip (λ _, dinode_get d (dip_off (i_inum i)));;
    kk (bl_brelse b);;
    upd_inode ip (set_valid true);;
    i ← gets (inode_of ip);
    panic_if (d_type (i_d i) =? 0) "ilock: no type".

Definition iunlock ip : M (fsst K) unit :=
  i ← gets (inode_of ip);
  panic_if (negb (sl_locked (i_lock i)) || (i_ref i <? 1)) "iunlock";;
  releasesleep_inode ip.

(** ** Inode content *)

(** Return the disk block address of the nth block in inode ip, allocating it
    if there is none. *)
Definition bmap ip (bn : Z) : M (fsst K) Z :=
  i ← gets (inode_of ip);
  if bn <? NDIRECT then
    let addr := getZ (d_addrs (i_d i)) bn in
    if addr =? 0 then
      addr ← balloc (i_dev i);
      upd_d ip (set_addr bn addr);;
      mret addr
    else mret addr
  else
    let bn := bn - NDIRECT in
    if bn <? NINDIRECT then
      let addr := getZ (d_addrs (i_d i)) NDIRECT in
      addr ← (if addr =? 0 then
                addr ← balloc (i_dev i);
                upd_d ip (set_addr NDIRECT addr);;
                mret addr
              else mret addr);
      b ← kk (bl_bread (i_dev i) addr);
      d ← gets (λ f, bl_data b (fs_k f));
      let addr := getw 4 d (Z.to_nat (4 * bn)) in
      addr ← (if addr =? 0 then
                addr ← balloc (i_dev i);
                kk (bl_upd b (λ d, putw 4 d (Z.to_nat (4 * bn)) addr);; bl_log_write b);;
                mret addr
              else mret addr);
      kk (bl_brelse b);;
      mret addr
    else panic "bmap: out of range".

(** Truncate inode (discard contents). *)
Definition itrunc ip : M (fsst K) unit :=
  for_each (seqZ 0 NDIRECT) (λ i,
    x ← gets (inode_of ip);
    if negb (getZ (d_addrs (i_d x)) i =? 0) then
      bfree (i_dev x) (getZ (d_addrs (i_d x)) i);;
      upd_d ip (set_addr i 0)
    else mret tt);;
  x ← gets (inode_of ip);
  (if negb (getZ (d_addrs (i_d x)) NDIRECT =? 0) then
     b ← kk (bl_bread (i_dev x) (getZ (d_addrs (i_d x)) NDIRECT));
     for_each (seqZ 0 NINDIRECT) (λ j,
       d ← gets (λ f, bl_data b (fs_k f));
       let a := getw 4 d (Z.to_nat (4 * j)) in
       if negb (a =? 0) then bfree (i_dev x) a else mret tt);;
     kk (bl_brelse b);;
     bfree (i_dev x) (getZ (d_addrs (i_d x)) NDIRECT);;
     upd_d ip (set_addr NDIRECT 0)
   else mret tt);;
  upd_d ip (set_size 0);;
  iupdate ip.

(** Drop a reference to an in-memory inode; free it if it was the last. *)
Definition iput ip : M (fsst K) unit :=
  acquiresleep_inode ip;;
  i ← gets (inode_of ip);
  (if i_valid i && (d_nlink (i_d i) =? 0) then
     if i_ref i =? 1 then
       itrunc ip;;
       upd_d ip (set_type 0);;
       iupdate ip;;
       upd_inode ip (set_valid false)
     else mret tt
   else mret tt);;
  releasesleep_inode ip;;
  upd_inode ip (λ i, set_ref (i_ref i - 1) i).

Definition iunlockput ip : M (fsst K) unit := iunlock ip;; iput ip.

(** struct stat, in the order of its fields. *)
Definition stati ip f : Z * Z * Z * Z * Z :=
  let i := inode_of ip f in
  (d_type (i_d i), i_dev i, i_inum i, d_nlink (i_d i), d_size (i_d i)).

(** The copy loop of readi; each round copies at least one byte. *)
Fixpoint readi_loop (fuel : nat) ip (tot off n : Z) (acc : list Z) : M (fsst K) (list Z) :=
  match fuel with
  | O => no_fuel
  | S fuel =>
      if tot <? n then
        i ← gets (inode_of ip);
        a ← bmap ip (off / BSZ);
        b ← kk (bl_bread (i_dev i) a);
        let m := Z.min (n - tot) (BSZ - off mod BSZ) in
        d ← gets (λ f, bl_data b (fs_k f));
        kk (bl_brelse b);;
        readi_loop fuel ip (tot + m) (off + m) n
          (acc ++ sub d (Z.to_nat (off mod BSZ)) (Z.to_nat m))
      else mret acc
  end.

(** Read data from inode: the return value and the bytes. *)
Definition readi ip (off n : Z) : M (fsst K) (Z * list Z) :=
  i ← gets (inode_of ip);
  let d := i_d i in
  if d_type d =? T_DEV then
    if (d_major d <? 0) || (NDEV <=? d_major d) then mret (-1, [])
    else match devsw_read (d_major d) with
         | None => mret (-1, [])
         | Some rd => rd ip n
         end
  else if (d_size d <? off) || (u32 (off + n) <? off) then mret (-1, [])
  else
    let n := if d_size d <? off + n then d_size d - off else n in
    l ← readi_loop (S (Z.to_nat n)) ip 0 off n [];
    mret (n, l).

Fixpoint writei_loop (fuel : nat) ip (tot off n : Z) (src : list Z) : M (fsst K) Z :=
  match fuel with
  | O => no_fuel
  | S fuel =>
      if tot <? n then
        i ← gets (inode_of ip);
        a ← bmap ip (off / BSZ);
        let m := Z.min (n - tot) (BSZ - off mod BSZ) in
        kk (b ← bl_bread (i_dev i) a;
            bl_upd b (λ d, splice d (Z.to_nat (off mod BSZ)) (take (Z.to_nat m) src));;
            bl_log_write b;;
            bl_brelse b);;
        writei_loop fuel ip (tot + m) (off + m) n (drop (Z.to_nat m) src)
      else mret off
  end.

(** Write data to inode. *)
Definition writei ip (src : list Z) (off n : Z) : M (fsst K) Z :=
  i ← gets (inode_of ip);
  let d := i_d i in
  if d_type d =? T_DEV then
    if (d_major d <? 0) || (NDEV <=? d_major d) then mret (-1)
    else match devsw_write (d_major d) with
         | None => mret (-1)
         | Some wr => wr ip (take (Z.to_nat n) src)
         end
  else if (d_size d <? off) || (u32 (off + n) <? off) then mret (-1)
  else if MAXFILE * BSZ <? off + n then mret (-1)
  else
    off ← writei_loop (S (Z.to_nat n)) ip 0 off n src;
    i ← gets (inode_of ip);
    (if (0 <? n) && (d_size (i_d i) <? off) then upd_d ip (set_size off);; iupdate ip else mret tt);;
    mret n.

(** ** Directories *)

(** struct dirent: the inode number and the name's bytes. *)
Definition de_inum (de : list Z) : Z := getw 2 de 0.
Definition de_name (de : list Z) : list Z := sub de 2 14.
Definition dirent (inum : Z) (name : list Z) : list Z := le_bytes 2 inum ++ name.

(** Two strings in one memory, each followed by NULs: [s] at 0, [t] at 32. *)
Definition mem2 (s t : list Z) : mem := λ a, if a <? 32 then mem_of s a else mem_of t (a - 32).

Definition namecmp (s t : list Z) : Z := Kernel.strncmp (mem2 s t) 0 32 (Z.to_nat DIRSIZ).

(** strncpy(de.name, name, DIRSIZ). *)
Definition name_copy (name : list Z) : list Z :=
  bytes_at (Kernel.strncpy (mem2 [] name) 0 32 DIRSIZ) 0 14.

(** Look for a directory entry: the inode, and the byte offset of the entry. *)
Definition dirlookup ip (name : list Z) : M (fsst K) (option (nat * Z)) :=
  dp ← gets (inode_of ip);
  panic_if (negb (d_type (i_d dp) =? T_DIR)) "dirlookup not DIR";;
  for_until ((λ i, i * 16) <$> seqZ 0 ((d_size (i_d dp) + 15) / 16)) (λ off,
    r ← readi ip off 16;
    panic_if (negb (fst r =? 16)) "dirlookup read";;
    let de := snd r in
    if de_inum de =? 0 then mret None
    else if namecmp name (de_name de) =? 0 then
      next ← iget (i_dev dp) (de_inum de);
      mret (Some (next, off))
    else mret None).

(** Write a new directory entry (name, inum) into the directory dp. *)
Definition dirlink ip (name : list Z) (inum : Z) : M (fsst K) Z :=
  r ← dirlookup ip name;
  match r with
  | Some (next, _) => iput next;; mret (-1)
  | None =>
      dp ← gets (inode_of ip);
      slot ← for_until ((λ i, i * 16) <$> seqZ 0 ((d_size (i_d dp) + 15) / 16)) (λ off,
        r ← readi ip off 16;
        panic_if (negb (fst r =? 16)) "dirlink read";;
        if de_inum (snd r) =? 0 then mret (Some off) else mret None);
      let off := match slot with
                 | Some off => off
                 | None => (d_size (i_d dp) + 15) / 16 * 16
                 end in
      r ← writei ip (dirent (u16 inum) (name_copy name)) off 16;
      panic_if (negb (r =? 16)) "dirlink";;
      mret 0
  end.

(** ** Paths *)

(** The two loops over the characters of the path: past slashes, and up to one. *)
Fixpoint skip_slashes (path : list Z) : list Z :=
  match path with
  | c :: rest => if c =? 47 then skip_slashes rest else path
  | [] => []
  end.
Fixpoint span_elem (path : list Z) : list Z * list Z :=
  match path with
  | c :: rest => if c =? 47 then ([], path) else let '(s, rest) := span_elem rest in (c :: s, rest)
  | [] => ([], [])
  end.

(** Copy the next path element into name: the rest of the path and the new
    contents of name, or None if there is no element. *)
Definition skipelem (path name : list Z) : option (list Z * list Z) :=
  let path := skip_slashes path in
  match path with
  | [] => None
  | _ =>
      let '(s, rest) := span_elem path in
      let len := Z.of_nat (length s) in
      let name := if DIRSIZ <=? len then splice name 0 (take (Z.to_nat DIRSIZ) s)
                  else setZ (splice name 0 s) len 0 in
      Some (skip_slashes rest, name)
  end.

(** The walk along the path; every round consumes a path element. *)
Fixpoint namex_loop (fuel : nat) (nameiparent : bool) ip (path name : list Z) :
    M (fsst K) (option (nat * list Z)) :=
  match fuel with
  | O => no_fuel
  | S fuel =>
      match skipelem path name with
      | None =>
          if nameiparent : bool then iput ip;; mret None else mret (Some (ip, name))
      | Some (path, name) =>
          ilock ip;;
          i ← gets (inode_of ip);
          if negb (d_type (i_d i) =? T_DIR) then iunlockput ip;; mret None
          else if nameiparent && bool_decide (path = []) then
            iunlock ip;; mret (Some (ip, name))
          else
            next ← dirlookup ip name;
            match next with
            | None => iunlockput ip;; mret None
            | Some (next, _) => iunlockput ip;; namex_loop fuel nameiparent next path name
            end
      end
  end.

Definition namex (path : list Z) (nameiparent : bool) (name : list Z) :
    M (fsst K) (option (nat * list Z)) :=
  ip ← (if hd 0 path =? 47 then iget ROOTDEV ROOTINO
        else cwd ← gets fs_cwd; idup cwd);
  namex_loop (S (length path)) nameiparent ip path name.

Definition namei (path : list Z) : M (fsst K) (option nat) :=
  r ← namex path false (replicate 14 0);
  mret (fst <$> r).

Definition nameiparent (path name : list Z) : M (fsst K) (option (nat * list Z)) :=
  namex path true name.

End fs.
