(* ===== verification/FsSpec.v ===== *)
(** * The file system: what its operations promise

    Bitmap allocation, on-disk inodes, the inode cache, file contents,
    directory entries and path elements, over any [BlockLayer]. *)

From S2P Require Import Prelude Cstring Sleeplock Disk Log Blocks Fs.

(** ** Bitmaps *)

Lemma land_bit x k : 0 <= k → negb (Z.land x (Z.shiftl 1 k) =? 0) = Z.testbit x k.
Proof.
  intros Hk. destruct (Z.testbit x k) eqn:E.
  - apply negb_true_iff, Z.eqb_neq. intros H. apply (f_equal (λ z, Z.testbit z k)) in H.
    rewrite Z.land_spec, Z.bits_0, Z.shiftl_spec, Z.sub_diag, E in H by done. done.
  - apply negb_false_iff, Z.eqb_eq, Z.bits_inj'. intros n Hn.
    rewrite Z.land_spec, Z.bits_0, Z.shiftl_spec by done.
    destruct (decide (n = k)) as [->|]; [by rewrite E|].
    destruct (Z.lt_ge_cases n k).
    + by rewrite (Z.testbit_neg_r 1), andb_false_r by lia.
    + rewrite (Z.bits_above_log2 1 (n - k)), andb_false_r; [done|lia|simpl; lia].
Qed.

Lemma bit_set_testbit d bi : bit_set d bi = Z.testbit (getZ d (bi / 8)) (bi mod 8).
Proof. unfold bit_set. apply land_bit. apply Z.mod_pos_bound. lia. Qed.

Lemma testbit_one k j : 0 <= j → Z.testbit (Z.shiftl 1 k) j = bool_decide (j = k).
Proof.
  intros Hj. rewrite Z.shiftl_spec by done. case_bool_decide as E; [by rewrite E, Z.sub_diag|].
  destruct (Z.lt_ge_cases j k); [by apply Z.testbit_neg_r; lia|].
  apply Z.bits_above_log2; simpl; lia.
Qed.

Lemma bit_pos bi bi' : bi / 8 = bi' / 8 → bi mod 8 = bi' mod 8 → bi = bi'.
Proof. intros. Z.to_euclidean_division_equations; lia. Qed.

(** Bits of a bitmap block after one of them changed. *)
Lemma bit_set_change d bi bi' y b :
  0 <= bi < 8 * Z.of_nat (length d) → 0 <= bi' →
  (∀ j, 0 <= j → Z.testbit y j = if bool_decide (j = bi mod 8) then b else Z.testbit (getZ d (bi / 8)) j) →
  bit_set (setZ d (bi / 8) y) bi' = if bool_decide (bi' = bi) then b else bit_set d bi'.
Proof.
  intros Hbi Hbi' Hy. rewrite !bit_set_testbit.
  rewrite getZ_setZ by (Z.to_euclidean_division_equations; lia).
  pose proof (Z.mod_pos_bound bi' 8 ltac:(lia)). case_decide as E.
  - rewrite Hy by lia. rewrite E. pose proof (bit_pos bi' bi E). repeat case_bool_decide; naive_solver.
  - by rewrite bool_decide_false by (by intros ->).
Qed.

Lemma bit_set_mark d bi bi' :
  0 <= bi < 8 * Z.of_nat (length d) → 0 <= bi' →
  bit_set (mark_bit bi d) bi' = if bool_decide (bi' = bi) then true else bit_set d bi'.
Proof.
  intros. apply bit_set_change; [done..|]. intros j Hj.
  rewrite Z.lor_spec, testbit_one by done. case_bool_decide; [apply orb_true_r|apply orb_false_r].
Qed.

Lemma bit_set_clear d bi bi' :
  0 <= bi < 8 * Z.of_nat (length d) → 0 <= bi' →
  bit_set (clear_bit bi d) bi' = if bool_decide (bi' = bi) then false else bit_set d bi'.
Proof.
  intros. apply bit_set_change; [done..|]. intros j Hj.
  rewrite Z.land_spec, Z.lnot_spec, testbit_one by done.
  case_bool_decide; [apply andb_false_r|apply andb_true_r].
Qed.

Lemma length_mark_bit bi d : length (mark_bit bi d) = length d.
Proof. apply length_setZ. Qed.
Lemma length_clear_bit bi d : length (clear_bit bi d) = length d.
Proof. apply length_setZ. Qed.

(** The free map: is block [n] in use? *)
Definition used (sb : superblock) (v : Z → block) (n : Z) : bool :=
  bit_set (v (BBLOCK n sb)) (n mod BPB).

Lemma BPB_eq : BPB = 4096.
Proof. reflexivity. Qed.

Lemma used_change sb v w n m (f : block → block) b :
  length (v (BBLOCK n sb)) = BSIZE →
  (∀ i, 0 <= i → bit_set (f (v (BBLOCK n sb))) i =
     if bool_decide (i = n mod BPB) then b else bit_set (v (BBLOCK n sb)) i) →
  (w (BBLOCK m sb) = fupd v (BBLOCK n sb) (f (v (BBLOCK n sb))) (BBLOCK m sb)) →
  used sb w m = if bool_decide (m = n) then b else used sb v m.
Proof.
  intros Hl Hf Hw. unfold used. rewrite Hw. unfold fupd, BBLOCK. rewrite BPB_eq in *.
  pose proof (Z.mod_pos_bound m 4096 ltac:(lia)). case_decide as E.
  - assert (m / 4096 = n / 4096) as E' by lia. fold (BBLOCK n sb). rewrite Hf by lia.
    unfold BBLOCK. rewrite BPB_eq, E'.
    repeat case_bool_decide; try done; exfalso; Z.to_euclidean_division_equations; lia.
  - by rewrite bool_decide_false by (by intros ->).
Qed.

(** ** On-disk inodes *)

Definition is_s16 (x : Z) : Prop := -32768 <= x < 32768.
Record dinode_ok (x : dinode) : Prop := {
  ok_type : is_s16 (d_type x); ok_major : is_s16 (d_major x); ok_minor : is_s16 (d_minor x);
  ok_nlink : is_s16 (d_nlink x); ok_size : is_u32 (d_size x);
  ok_addrs : length (d_addrs x) = 13%nat ∧ Forall is_u32 (d_addrs x)
}.

Lemma length_mjoin_le (l : list Z) : length (mjoin (le_bytes 4 <$> l)) = (4 * length l)%nat.
Proof.
  induction l as [|x l IH]; [done|]. rewrite fmap_cons.
  change (mjoin (le_bytes 4 x :: (le_bytes 4 <$> l))) with (le_bytes 4 x ++ mjoin (le_bytes 4 <$> l)).
  rewrite length_app, length_le_bytes, IH. simpl. lia.
Qed.

Lemma sub_mjoin (l : list Z) i :
  (i < length l)%nat → sub (mjoin (le_bytes 4 <$> l)) (4 * i) 4 = le_bytes 4 (l !!! i).
Proof.
  revert i. induction l as [|x l IH]; intros i Hi; simpl in Hi; [lia|].
  destruct i as [|i]; [done|]. replace (4 * S i)%nat with (4 + 4 * i)%nat by lia.
  cbn [lookup_total list_lookup_total]. by rewrite <-IH by lia.
Qed.

Lemma sub_sub {A} (l : list A) off n off' n' :
  (off' + n' <= n)%nat → sub (sub l off n) off' n' = sub l (off + off') n'.
Proof.
  intros. apply list_eq. intros i. rewrite !lookup_sub. repeat case_decide; try done; [|lia].
  f_equal. lia.
Qed.

Ltac len_putw := first [lia | rewrite length_mjoin_le; len_putw | rewrite length_putw; len_putw
  | rewrite length_splice; len_putw | rewrite length_le_bytes; len_putw].

Lemma dinode_put_length off x d :
  (off + 64 <= length d)%nat → length (d_addrs x) = 13%nat → length (dinode_put off x d) = length d.
Proof. intros. unfold dinode_put. len_putw. Qed.

(** The bytes of the other inodes in the block do not change. *)
Lemma dinode_put_sub off x d off' n :
  (off + 64 <= length d)%nat → length (d_addrs x) = 13%nat →
  (off' + n <= off ∨ off + 64 <= off')%nat → sub (dinode_put off x d) off' n = sub d off' n.
Proof.
  intros Hl Ha Ho. unfold dinode_put.
  rewrite sub_splice_ne by len_putw.
  unfold putw. by rewrite !sub_splice_ne by len_putw.
Qed.

Lemma dinode_get_ne off x d off' :
  (off + 64 <= length d)%nat → length (d_addrs x) = 13%nat →
  (off' + 64 <= off ∨ off + 64 <= off')%nat →
  dinode_get (dinode_put off x d) off' = dinode_get d off'.
Proof.
  intros Hl Ha Ho. unfold dinode_get, getw.
  rewrite !dinode_put_sub by (done || lia). f_equal.
  apply list_fmap_ext. intros i j Hj%lookup_seq. by rewrite dinode_put_sub by (done || lia).
Qed.

Lemma s16_mod x : is_s16 x → s16 (x mod 2 ^ (8 * Z.of_nat 2)) = x.
Proof. unfold is_s16. change (2 ^ (8 * Z.of_nat 2)) with 65536. zmod. Qed.

Lemma dinode_get_eq off x d :
  (off + 64 <= length d)%nat → dinode_ok x → dinode_get (dinode_put off x d) off = x.
Proof.
  intros Hl [H1 H2 H3 H4 H5 [H6 H7]]. destruct x as [ty mj mn nl sz addrs]; simpl in *.
  unfold dinode_get, dinode_put; cbn [d_type d_major d_minor d_nlink d_size d_addrs]. f_equal.
  1-5: unfold getw at 1; rewrite sub_splice_ne by len_putw.
  1-5: match goal with |- context [le_val (sub ?l ?o ?n)] => change (le_val (sub l o n)) with (getw n l o) end.
  1-5: repeat (rewrite getw_putw_ne by len_putw); rewrite getw_putw_eq by len_putw.
  1-4: by apply s16_mod.
  1: by apply Z.mod_small.
  apply list_eq. intros i. rewrite list_lookup_fmap. destruct (decide (i < 13)%nat) as [Hi|Hi].
  - rewrite lookup_seq_lt by done. cbn [fmap option_fmap option_map].
    unfold getw. rewrite Nat.add_0_l, <-(sub_sub _ (off + 12) (4 * 13) (4 * i) 4) by lia.
    match goal with |- context [splice ?l ?o ?n] =>
      pose proof (sub_splice_eq l o n) as Hs; rewrite length_mjoin_le, H6 in Hs; rewrite Hs by len_putw end.
    rewrite sub_mjoin by lia. rewrite le_val_bytes.
    rewrite Forall_lookup in H7. destruct (lookup_lt_is_Some_2 addrs i) as [a Ea]; [lia|].
    rewrite (list_lookup_total_correct _ _ _ Ea), Ea. f_equal. apply Z.mod_small. exact (H7 _ _ Ea).
  - rewrite (lookup_ge_None_2 addrs) by lia. by rewrite lookup_ge_None_2 by (rewrite length_seq; lia).
Qed.

(** Inode number [i] as the disk has it. *)
Definition dinode_at (sb : superblock) (v : Z → block) (i : Z) : dinode :=
  dinode_get (v (IBLOCK i sb)) (dip_off i).

Lemma dip_off_bound i : (dip_off i + 64 <= BSIZE)%nat.
Proof.
  unfold dip_off. change IPB with 8. pose proof (Z.mod_pos_bound i 8). unfold BSIZE. lia.
Qed.

Lemma dinode_at_put sb v x i j :
  length (v (IBLOCK i sb)) = BSIZE → dinode_ok x → 0 <= i → 0 <= j →
  dinode_at sb (fupd v (IBLOCK i sb) (dinode_put (dip_off i) x (v (IBLOCK i sb)))) j =
    if decide (j = i) then x else dinode_at sb v j.
Proof.
  intros Hl Hx Hi Hj. unfold dinode_at. pose proof (dip_off_bound i).
  case_decide as E; [subst; rewrite fupd_eq; apply dinode_get_eq; [lia|done]|].
  unfold fupd. case_decide as E'; [|done]. rewrite E'.
  apply dinode_get_ne; [lia|apply Hx|]. unfold IBLOCK, dip_off in *.
  change IPB with 8 in *. Z.to_euclidean_division_equations; lia.
Qed.

(** The lowest number below [n] where [u] is false, if there is one. *)
Lemma least_false (u : Z → bool) n : 0 <= n →
  (∀ i, 0 <= i < n → u i = true) ∨
  ∃ a, 0 <= a < n ∧ u a = false ∧ ∀ i, 0 <= i < a → u i = true.
Proof.
  revert n. apply natlike_ind; [left; lia|]. intros n Hn [H|(a & Ha & H)].
  - destruct (u n) eqn:E; [left|right; exists n; eauto with lia].
    intros i Hi. destruct (decide (i = n)) as [->|]; [done|]. apply H. lia.
  - right. exists a. split; [lia|done].
Qed.

Section blocks.
Context {K : Type} `{!BlockLayer K, !BlockLayerLaws K}.
Implicit Types (k : K) (f : fsst K).

Lemma kk_run {A} (m : M K A) f a k :
  m (fs_k f) = Ok a k → kk m f = Ok a (set_k k f).
Proof. intros H. unfold kk, zoom. by rewrite H. Qed.

Lemma kk_panic {A} (m : M K A) f msg k :
  m (fs_k f) = Panic msg k → kk m f = Panic msg (set_k k f).
Proof. intros H. unfold kk, zoom. by rewrite H. Qed.

Lemma bzero_spec k n :
  bl_inv k → bl_open k → bl_block k n → n ∉ (bl_held k).*2 → bl_room k 1 1 →
  ∃ k', bzero bl_dev n k = Ok tt k' ∧ bl_step k (fupd (bl_view k) n zero_block) (bl_held k) [n] k'.
Proof. intros. by apply (modify_spec k n (λ _, zero_block)). Qed.

(** The scan of one bitmap block, when it has a free bit and when it has none. *)
Lemma balloc_bits_found k bp bm b size bi h :
  bl_inv k → bl_open k → bl_held k ≡ₚ (bp, bm) :: h → bl_block k bm →
  0 <= bi < Z.min BPB (size - b) →
  (∀ j, 0 <= j < bi → bit_set (bl_view k bm) j = true) → bit_set (bl_view k bm) bi = false →
  bl_block k (b + bi) → ((b + bi) ∉ h.*2) → bl_room k 0 2 →
  ∃ k', balloc_bits bl_dev b size bp k = Ok (Some (b + bi)) k' ∧
    bl_step k (fupd (fupd (bl_view k) bm (mark_bit bi (bl_view k bm))) (b + bi) zero_block)
      h [bm; b + bi] k'.
Proof.
  intros Hk Ho Hb Hbm Hbi Hset Hfree Ha Hah Hr.
  assert (bl_data bp k = bl_view k bm) as Hd by (apply bl_held_data; [done|rewrite Hb; by left]).
  unfold balloc_bits. rewrite (seqZ_split bi) by done.
  apply (for_until_found (λ k', k' = k) (λ k', bl_step k _ h _ k')); [done| |].
  - intros j k1 Hj%elem_of_seqZ ->. exists k. run. by rewrite Hd, (Hset j) by lia.
  - intros k1 ->. run. rewrite Hd, Hfree. cbn [negb].
    destruct (logged_write_spec k bp bm (mark_bit bi) h Hk Ho Hbm Hb) as (k2 & H2 & Hs2).
    { destruct Hr; lia. } { by rewrite length_mark_bit, bl_length. }
    destruct (bzero_spec k2 (b + bi)) as (k3 & H3 & Hs3).
    { exact (step_inv _ _ _ _ _ Hs2). } { exact (step_open _ _ _ _ _ Hs2 Ho). }
    { exact (step_block _ _ _ _ _ _ Hs2 Ha). } { exact (step_not_held _ _ _ _ _ _ Hs2 Hah). }
    { eapply bl_step_room; [done..|rewrite Hb; simpl; lia|simpl; lia]. }
    exists k3. split.
    + rewrite (seq3_run _ _ _ _ _ _ H2). by rewrite (bind_run _ _ _ _ _ H3).
    + eapply bl_step_ext; [| |exact (bl_step_trans _ _ _ _ _ _ _ _ _ Hs2 Hs3)].
      * intros m. apply fupd_ext, (step_view _ _ _ _ _ Hs2).
      * apply (step_held _ _ _ _ _ Hs2).
Qed.

Lemma balloc_bits_none k bp bm b size :
  bl_inv k → (bp, bm) ∈ bl_held k →
  (∀ j, 0 <= j < Z.min BPB (size - b) → bit_set (bl_view k bm) j = true) →
  balloc_bits bl_dev b size bp k = Ok None k.
Proof.
  intros Hk Hb Hset. unfold balloc_bits.
  destruct (for_until_missing (λ k', k' = k) (seqZ 0 (Z.min BPB (size - b))) (λ bi,
    d ← gets (bl_data bp);
    if negb (bit_set d bi) then
      bl_upd bp (mark_bit bi);; bl_log_write bp;; bl_brelse bp;;
      bzero bl_dev (b + bi);; mret (Some (b + bi))
    else mret None) k) as (k' & H & ->); [done| |done].
  intros j k1 Hj%elem_of_seqZ ->. exists k. run.
  by rewrite (bl_held_data k bp bm), Hset by (done || lia).
Qed.

(** The bitmap blocks of [size] blocks may be used, and are not held. *)
Definition bitmap_ready k (sb : superblock) (size : Z) : Prop :=
  ∀ n, 0 <= n < size → bl_block k (BBLOCK n sb) ∧ (BBLOCK n sb ∉ (bl_held k).*2).

Lemma bitmap_ready_step k sb size v ns k' :
  bitmap_ready k sb size → bl_step k v (bl_held k) ns k' → bitmap_ready k' sb size.
Proof.
  intros H Hs n Hn. destruct (H n Hn). split.
  - exact (step_block _ _ _ _ _ _ Hs ltac:(done)).
  - exact (step_not_held _ _ _ _ _ _ Hs ltac:(done)).
Qed.

(** The [i]th bitmap block, scanned without success. *)
Lemma balloc_block_none f sb i :
  fs_sb f = sb → bl_inv (fs_k f) → 0 <= i * BPB < sb_size sb →
  bitmap_ready (fs_k f) sb (sb_size sb) → bl_room (fs_k f) 1 0 →
  (∀ n, 0 <= n < sb_size sb → n / BPB = i → used sb (bl_view (fs_k f)) n = true) →
  ∃ k', kk (bp ← bl_bread bl_dev (BBLOCK (i * BPB) sb);
            r ← balloc_bits bl_dev (i * BPB) (sb_size sb) bp;
            match r with
            | Some a => mret (Some a)
            | None => bl_brelse bp;; mret None
            end) f = Ok None (set_k k' f) ∧
    bl_step (fs_k f) (bl_view (fs_k f)) (bl_held (fs_k f)) [] k'.
Proof.
  intros Hsb Hk Hi Hbm Hr Hu. destruct (Hbm (i * BPB) Hi) as [Hn Hnh].
  destruct (bread_step (fs_k f) (BBLOCK (i * BPB) sb)) as (bp & k1 & H1 & Hs1 & Hst); [done..|].
  destruct (brelse_step k1 bp (BBLOCK (i * BPB) sb) (bl_held (fs_k f))) as (k2 & H2 & Hs2).
  { exact (step_inv _ _ _ _ _ Hs1). } { exact (step_held _ _ _ _ _ Hs1). } { done. }
  exists k2. split.
  - apply kk_run. rewrite (bind_run _ _ _ _ _ H1).
    rewrite (bind_run _ _ k1 None k1); [cbn beta iota; by rewrite (bind_run _ _ _ _ _ H2)|].
    eapply balloc_bits_none.
    + exact (step_inv _ _ _ _ _ Hs1).
    + apply (step_is_held _ _ _ _ _ _ Hs1). by left.
    + intros j Hj. rewrite (step_view _ _ _ _ _ Hs1). rewrite BPB_eq in *.
      specialize (Hu (i * 4096 + j) ltac:(lia)). unfold used, BBLOCK in *. rewrite BPB_eq in *.
      rewrite Z.div_mul by lia. rewrite Z.div_add_l, Z.div_small, Z.add_0_r in Hu by lia.
      rewrite <-(Z.mod_small j 4096), <-(Z.mod_add j i 4096), (Z.add_comm j) by lia. by apply Hu.
  - eapply bl_step_ext; [|reflexivity|exact (bl_step_trans _ _ _ _ _ _ _ _ _ Hs1 Hs2)].
    apply (step_view _ _ _ _ _ Hs1).
Qed.

(** The same after earlier blocks were scanned. *)
Lemma balloc_block_skip f sb y (l : list Z) :
  fs_sb f = sb → bl_inv (fs_k f) →
  bitmap_ready (fs_k f) sb (sb_size sb) → bl_room (fs_k f) 1 0 →
  (∀ i, i ∈ l → 0 <= i * BPB < sb_size sb ∧
    ∀ n, 0 <= n < sb_size sb → n / BPB = i → used sb (bl_view (fs_k f)) n = true) →
  ∀ f1, y ∈ (λ i, i * BPB) <$> l →
  (∃ k', f1 = set_k k' f ∧ bl_step (fs_k f) (bl_view (fs_k f)) (bl_held (fs_k f)) [] k') →
  ∃ f2, kk (bp ← bl_bread bl_dev (BBLOCK y sb);
            r ← balloc_bits bl_dev y (sb_size sb) bp;
            match r with
            | Some a => mret (Some a)
            | None => bl_brelse bp;; mret None
            end) f1 = Ok None f2 ∧
    ∃ k', f2 = set_k k' f ∧ bl_step (fs_k f) (bl_view (fs_k f)) (bl_held (fs_k f)) [] k'.
Proof.
  intros Hsb Hk Hbm Hr Hl f1 (i & -> & Hi)%list_elem_of_fmap (k1 & -> & Hs1).
  destruct (Hl i Hi) as [Hi1 Hi2]. pose proof (step_view _ _ _ _ _ Hs1) as Hv1.
  destruct (balloc_block_none (set_k k1 f) sb i) as (k2 & H2 & Hs2); try done; simpl.
  { eauto with xv6. } { by eapply bitmap_ready_step. }
  { eapply bl_step_room; [done..|simpl; lia|simpl; lia]. }
  { intros n Hn Hni. unfold used. rewrite Hv1. by apply Hi2. }
  exists (set_k k2 f). split; [done|]. exists k2. split; [done|].
  eapply bl_step_ext; [done| |exact (bl_step_trans _ _ _ _ _ _ _ _ _ Hs1 Hs2)].
  exact (step_held _ _ _ _ _ Hs1).
Qed.

(** The bitmap block that has the lowest free block. *)
Lemma balloc_block_found f sb a :
  fs_sb f = sb → bl_inv (fs_k f) → bl_open (fs_k f) → 0 <= a < sb_size sb →
  bitmap_ready (fs_k f) sb (sb_size sb) → bl_room (fs_k f) 1 2 →
  (∀ n, 0 <= n < a → used sb (bl_view (fs_k f)) n = true) →
  used sb (bl_view (fs_k f)) a = false →
  bl_block (fs_k f) a → (a ∉ (bl_held (fs_k f)).*2) →
  ∃ k', kk (bp ← bl_bread bl_dev (BBLOCK (a / BPB * BPB) sb);
            r ← balloc_bits bl_dev (a / BPB * BPB) (sb_size sb) bp;
            match r with
            | Some a => mret (Some a)
            | None => bl_brelse bp;; mret None
            end) f = Ok (Some a) (set_k k' f) ∧
    bl_step (fs_k f) (fupd (fupd (bl_view (fs_k f)) (BBLOCK a sb)
        (mark_bit (a mod BPB) (bl_view (fs_k f) (BBLOCK a sb)))) a zero_block)
      (bl_held (fs_k f)) [BBLOCK a sb; a] k'.
Proof.
  intros Hsb Hk Ho Ha Hbm Hr Hlow Hfree Hab Hah. destruct (Hbm a Ha) as [Hn Hnh].
  assert (BBLOCK (a / BPB * BPB) sb = BBLOCK a sb) as Hbb.
  { unfold BBLOCK. by rewrite BPB_eq, Z.div_mul by lia. }
  assert (a = a / BPB * BPB + a mod BPB) as Hdm by (rewrite BPB_eq; Z.to_euclidean_division_equations; lia).
  destruct (bread_step (fs_k f) (BBLOCK a sb)) as (bp & k1 & H1 & Hs1 & Hst); [done..| |].
  { destruct Hr. split; lia. }
  pose proof (step_view _ _ _ _ _ Hs1) as Hv1.
  destruct (balloc_bits_found k1 bp (BBLOCK a sb) (a / BPB * BPB) (sb_size sb) (a mod BPB)
    (bl_held (fs_k f))) as (k2 & H2 & Hs2); rewrite ?Hv1, <-?Hdm.
  { eauto with xv6. } { eauto with xv6. } { exact (step_held _ _ _ _ _ Hs1). }
  { eauto with xv6. } { rewrite BPB_eq in *. Z.to_euclidean_division_equations; lia. }
  { intros j Hj. specialize (Hlow (a / BPB * BPB + j)). unfold used, BBLOCK in *.
    rewrite BPB_eq in *. pose proof (Z.mod_pos_bound a 4096 ltac:(lia)).
    rewrite Z.div_add_l, (Z.div_small j), Z.add_0_r in Hlow by lia.
    rewrite <-(Z.mod_small j 4096), <-(Z.mod_add j (a / 4096)), (Z.add_comm j) by lia.
    apply Hlow. Z.to_euclidean_division_equations; lia. }
  { done. } { eauto with xv6. } { done. }
  { eapply bl_step_room; [done..|simpl; lia|simpl; lia]. }
  rewrite <-Hdm in H2, Hs2. exists k2. split.
  - apply kk_run. by rewrite Hbb, (bind_run _ _ _ _ _ H1), (bind_run _ _ _ _ _ H2).
  - eapply bl_step_ext; [|reflexivity|exact (bl_step_trans _ _ _ _ _ _ _ _ _ Hs1 Hs2)].
    intros m. apply fupd_ext. intros y. rewrite Hv1. apply fupd_ext, Hv1.
Qed.

Lemma balloc_run f sb a :
  fs_sb f = sb → bl_inv (fs_k f) → bl_open (fs_k f) → 0 <= a < sb_size sb →
  bitmap_ready (fs_k f) sb (sb_size sb) → bl_room (fs_k f) 1 2 →
  (∀ n, 0 <= n < a → used sb (bl_view (fs_k f)) n = true) →
  used sb (bl_view (fs_k f)) a = false →
  bl_block (fs_k f) a → (a ∉ (bl_held (fs_k f)).*2) →
  ∃ k', balloc bl_dev f = Ok a (set_k k' f) ∧
    bl_step (fs_k f) (fupd (fupd (bl_view (fs_k f)) (BBLOCK a sb)
        (mark_bit (a mod BPB) (bl_view (fs_k f) (BBLOCK a sb)))) a zero_block)
      (bl_held (fs_k f)) [BBLOCK a sb; a] k'.
Proof.
  intros Hsb Hk Ho Ha Hbm Hr Hlow Hfree Hab Hah. unfold balloc. run. rewrite Hsb.
  rewrite (seqZ_split (a / BPB)), fmap_app
    by (rewrite BPB_eq; Z.to_euclidean_division_equations; lia). cbn [fmap list_fmap].
  destruct (for_until_found (λ f', ∃ k', f' = set_k k' f ∧
        bl_step (fs_k f) (bl_view (fs_k f)) (bl_held (fs_k f)) [] k')
      (λ f', ∃ k', f' = set_k k' f ∧ bl_step (fs_k f) (fupd (fupd (bl_view (fs_k f)) (BBLOCK a sb)
        (mark_bit (a mod BPB) (bl_view (fs_k f) (BBLOCK a sb)))) a zero_block)
      (bl_held (fs_k f)) [BBLOCK a sb; a] k')
      ((λ i, i * BPB) <$> seqZ 0 (a / BPB)) ((λ i, i * BPB) <$>
        seqZ (a / BPB + 1) ((sb_size sb + BPB - 1) / BPB - a / BPB - 1)) (a / BPB * BPB)
      (λ b, kk (bp ← bl_bread bl_dev (BBLOCK b sb);
            r ← balloc_bits bl_dev b (sb_size sb) bp;
            match r with
            | Some a => mret (Some a)
            | None => bl_brelse bp;; mret None
            end)) a f) as (f' & H & k' & -> & Hs).
  - exists (fs_k f). split; [by destruct f|by apply bl_step_refl].
  - intros y f1 Hy Hf1. eapply balloc_block_skip; try done.
    { destruct Hr. split; lia. }
    intros i Hi%elem_of_seqZ. rewrite BPB_eq in *.
    split; [Z.to_euclidean_division_equations; lia|]. intros n Hn Hni. apply Hlow.
    Z.to_euclidean_division_equations; lia.
  - intros f1 (k1 & -> & Hs1). pose proof (step_view _ _ _ _ _ Hs1) as Hv1.
    destruct (balloc_block_found (set_k k1 f) sb a) as (k2 & H2 & Hs2); try done; simpl.
    { eauto with xv6. } { eauto with xv6. } { by eapply bitmap_ready_step. }
    { eapply bl_step_room; [done..|simpl; lia|simpl; lia]. }
    { intros n Hn. unfold used. rewrite Hv1. by apply Hlow. }
    { unfold used. by rewrite Hv1. }
    { eauto with xv6. } { eauto with xv6. }
    exists (set_k k2 f). split; [done|]. exists k2. split; [done|].
    eapply bl_step_ext; [| |exact (bl_step_trans _ _ _ _ _ _ _ _ _ Hs1 Hs2)]; simpl.
    + intros m. apply fupd_ext. intros m'. rewrite Hv1. apply fupd_ext, Hv1.
    + exact (step_held _ _ _ _ _ Hs1).
  - exists k'. split; [|done]. by rewrite (bind_run _ _ _ _ _ H).
Qed.

Lemma balloc_none f sb :
  fs_sb f = sb → bl_inv (fs_k f) → 0 <= sb_size sb →
  bitmap_ready (fs_k f) sb (sb_size sb) → bl_room (fs_k f) 1 0 →
  (∀ n, 0 <= n < sb_size sb → used sb (bl_view (fs_k f)) n = true) →
  ∃ k', balloc bl_dev f = Panic "balloc: out of blocks" (set_k k' f) ∧
    bl_step (fs_k f) (bl_view (fs_k f)) (bl_held (fs_k f)) [] k'.
Proof.
  intros Hsb Hk Hsz Hbm Hr Hu. unfold balloc. run. rewrite Hsb.
  destruct (for_until_missing (λ f', ∃ k', f' = set_k k' f ∧
        bl_step (fs_k f) (bl_view (fs_k f)) (bl_held (fs_k f)) [] k')
      ((λ i, i * BPB) <$> seqZ 0 ((sb_size sb + BPB - 1) / BPB))
      (λ b, kk (bp ← bl_bread bl_dev (BBLOCK b sb);
            r ← balloc_bits bl_dev b (sb_size sb) bp;
            match r with
            | Some a => mret (Some a)
            | None => bl_brelse bp;; mret None
            end)) f) as (f' & H & k' & -> & Hs).
  - exists (fs_k f). split; [by destruct f|by apply bl_step_refl].
  - intros y f1 Hy Hf1. eapply balloc_block_skip; try done.
    intros i Hi%elem_of_seqZ. rewrite BPB_eq in *.
    split; [Z.to_euclidean_division_equations; lia|]. intros n Hn _. by apply Hu.
  - exists k'. split; [|done]. by rewrite (bind_run _ _ _ _ _ H).
Qed.

(** balloc takes the free block with the lowest number: it is marked in the
    bitmap and zeroed, and no other block changes or becomes used; if every
    block is in use it panics. *)
Theorem balloc_correct f sb :
  fs_sb f = sb → bl_inv (fs_k f) → bl_open (fs_k f) → 0 <= sb_size sb →
  bitmap_ready (fs_k f) sb (sb_size sb) → bl_room (fs_k f) 1 2 →
  (∀ n, 0 <= n < sb_size sb → used sb (bl_view (fs_k f)) n = false →
     bl_block (fs_k f) n ∧ (n ∉ (bl_held (fs_k f)).*2) ∧
     (∀ m, 0 <= m < sb_size sb → BBLOCK m sb ≠ n)) →
  (∃ a f', balloc bl_dev f = Ok a f' ∧ 0 <= a < sb_size sb ∧
     used sb (bl_view (fs_k f)) a = false ∧
     (∀ n, 0 <= n < a → used sb (bl_view (fs_k f)) n = true) ∧
     (∀ n, 0 <= n < sb_size sb →
        used sb (bl_view (fs_k f')) n = (n =? a) || used sb (bl_view (fs_k f)) n) ∧
     bl_view (fs_k f') a = zero_block ∧
     (∀ n, n ≠ a → n ≠ BBLOCK a sb → bl_view (fs_k f') n = bl_view (fs_k f) n) ∧
     bl_inv (fs_k f') ∧ bl_held (fs_k f') ≡ₚ bl_held (fs_k f)) ∨
  (∃ f', balloc bl_dev f = Panic "balloc: out of blocks" f' ∧
     ∀ n, 0 <= n < sb_size sb → used sb (bl_view (fs_k f)) n = true).
Proof.
  intros Hsb Hk Ho Hsz Hbm Hr Hfree. set (u := used sb (bl_view (fs_k f))).
  assert ((∀ n, 0 <= n < sb_size sb → u n = true) ∨
    ∃ a, 0 <= a < sb_size sb ∧ u a = false ∧ ∀ n, 0 <= n < a → u n = true) as [Hall|(a & Ha & Hua & Hlow)].
  { apply least_false. lia. }
  { right. destruct (balloc_none f sb) as (k' & H & _); try done; [destruct Hr; split; lia|].
    by exists (set_k k' f). }
  left. destruct (Hfree a Ha Hua) as (Hab & Hah & Hbb).
  destruct (balloc_run f sb a) as (k' & H & Hs); try done.
  exists a, (set_k k' f). split_and!; try done; simpl; try lia.
  - intros n Hn. pose proof (step_view _ _ _ _ _ Hs) as Hv.
    rewrite (used_change sb (bl_view (fs_k f)) (bl_view k') a n (mark_bit (a mod BPB)) true).
    + destruct (Z.eqb_spec n a); [by rewrite bool_decide_true|by rewrite bool_decide_false].
    + by apply bl_length.
    + intros i Hi. apply bit_set_mark; [|done]. rewrite bl_length by done.
      rewrite BPB_eq. pose proof (Z.mod_pos_bound a 4096). unfold BSIZE. lia.
    + rewrite Hv. by apply fupd_ne, Hbb.
  - rewrite (step_view _ _ _ _ _ Hs). apply fupd_eq.
  - intros n Hn1 Hn2. rewrite (step_view _ _ _ _ _ Hs). by rewrite !fupd_ne.
  - eauto with xv6.
  - apply (step_held _ _ _ _ _ Hs).
Qed.

(** ** Freeing a block *)

Lemma fs_readsb_run f :
  bl_inv (fs_k f) → bl_block (fs_k f) 1 → (1 ∉ (bl_held (fs_k f)).*2) → bl_room (fs_k f) 1 0 →
  ∃ k', fs_readsb bl_dev f = Ok (sb_decode (bl_view (fs_k f) 1)) (set_k k' f) ∧
    bl_step (fs_k f) (bl_view (fs_k f)) (bl_held (fs_k f)) [] k'.
Proof.
  intros Hk Hn Hnh Hr. destruct (read_spec (fs_k f) 1 sb_decode Hk Hn Hnh Hr) as (k' & H & Hs).
  exists k'. split; [|done]. by apply kk_run.
Qed.

(** bfree reads the superblock again and clears the block's bit, which no other
    block's bit depends on; freeing a block that is free is a panic. *)
Theorem bfree_correct f b :
  let sb := sb_decode (bl_view (fs_k f) 1) in
  bl_inv (fs_k f) → bl_open (fs_k f) → 0 <= b →
  bl_block (fs_k f) 1 → (1 ∉ (bl_held (fs_k f)).*2) →
  bl_block (fs_k f) (BBLOCK b sb) → (BBLOCK b sb ∉ (bl_held (fs_k f)).*2) →
  bl_room (fs_k f) 1 1 →
  if used sb (bl_view (fs_k f)) b then
    ∃ f', bfree bl_dev b f = Ok tt f' ∧ fs_sb f' = sb ∧ bl_inv (fs_k f') ∧
      (∀ n, 0 <= n → used sb (bl_view (fs_k f')) n = negb (n =? b) && used sb (bl_view (fs_k f)) n) ∧
      (∀ n, n ≠ BBLOCK b sb → bl_view (fs_k f') n = bl_view (fs_k f) n) ∧
      bl_held (fs_k f') ≡ₚ bl_held (fs_k f)
  else ∃ f', bfree bl_dev b f = Panic "freeing free block" f'.
Proof.
  intros sb Hk Ho Hb H1 H1h Hbb Hbbh Hr. unfold bfree.
  destruct (fs_readsb_run f Hk H1 H1h) as (k1 & R1 & Hs1); [destruct Hr; split; lia|].
  rewrite (bind_run _ _ _ _ _ R1). run. fold sb. pose proof (step_view _ _ _ _ _ Hs1) as Hv1.
  destruct (bread_step k1 (BBLOCK b sb)) as (bp & k2 & R2 & Hs2 & Hst); [eauto with xv6..| |].
  { eapply bl_step_room; [done..|simpl; lia|simpl; lia]. }
  assert (bl_data bp k2 = bl_view (fs_k f) (BBLOCK b sb)) as Hd.
  { rewrite (bl_held_data k2 bp (BBLOCK b sb)), (step_view _ _ _ _ _ Hs2), Hv1; [done| |];
      [eauto with xv6|]. apply (step_is_held _ _ _ _ _ _ Hs2). by left. }
  unfold used. destruct (bit_set _ (b mod BPB)) eqn:Hu.
  2: { eexists. apply kk_panic. simpl. rewrite (bind_run _ _ _ _ _ R2). run.
       rewrite run_panic_if_true; [done|]. by rewrite Hd, Hu. }
  pose proof (bl_step_trans _ _ _ _ _ _ _ _ _ Hs1 Hs2) as Hs12.
  destruct (logged_write_spec k2 bp (BBLOCK b sb) (clear_bit (b mod BPB)) (bl_held (fs_k f)))
    as (k3 & R3 & Hs3).
  { eauto with xv6. } { eauto with xv6. } { eauto with xv6. }
  { rewrite (step_held _ _ _ _ _ Hs2). f_equiv. apply (step_held _ _ _ _ _ Hs1). }
  { rewrite (step_logged _ _ _ _ _ Hs12), (same_cap _ _ (step_same _ _ _ _ _ Hs12)).
    destruct Hr. simpl. lia. }
  { rewrite length_clear_bit. apply bl_length. eauto with xv6. }
  exists (set_k k3 (set_sb sb (set_k k1 f))). split_and!; simpl; [|done|eauto with xv6| | |].
  - apply kk_run. simpl. rewrite (bind_run _ _ _ _ _ R2). run.
    rewrite run_panic_if by (by rewrite Hd, Hu). exact R3.
  - intros n Hn. fold (used sb (bl_view k3) n) (used sb (bl_view (fs_k f)) n).
    rewrite (used_change sb (bl_view (fs_k f)) (bl_view k3) b n (clear_bit (b mod BPB)) false).
    + destruct (Z.eqb_spec n b); [by rewrite bool_decide_true|by rewrite bool_decide_false].
    + by apply bl_length.
    + intros i Hi. apply bit_set_clear; [|done]. rewrite bl_length by done.
      rewrite BPB_eq. pose proof (Z.mod_pos_bound b 4096). unfold BSIZE. lia.
    + rewrite (step_view _ _ _ _ _ Hs3). unfold fupd.
      by rewrite !(step_view _ _ _ _ _ Hs2), !Hv1.
  - intros n Hn. rewrite (step_view _ _ _ _ _ Hs3), fupd_ne by done.
    by rewrite (step_view _ _ _ _ _ Hs2), Hv1.
  - apply (step_held _ _ _ _ _ Hs3).
Qed.

(** ** Writing an inode back, and loading it *)

Lemma iupdate_run ip f :
  let i := inode_of ip f in let n := IBLOCK (i_inum i) (fs_sb f) in
  bl_inv (fs_k f) → bl_open (fs_k f) → i_dev i = bl_dev → length (d_addrs (i_d i)) = 13%nat →
  bl_block (fs_k f) n → (n ∉ (bl_held (fs_k f)).*2) → bl_room (fs_k f) 1 1 →
  ∃ k', iupdate ip f = Ok tt (set_k k' f) ∧
    bl_step (fs_k f) (fupd (bl_view (fs_k f)) n
       (dinode_put (dip_off (i_inum i)) (i_d i) (bl_view (fs_k f) n))) (bl_held (fs_k f)) [n] k'.
Proof.
  intros i n Hk Ho Hd Ha Hn Hnh Hr. pose proof (dip_off_bound (i_inum i)) as Hb.
  destruct (modify_spec (fs_k f) n (dinode_put (dip_off (i_inum i)) (i_d i))) as (k' & H & Hs);
    [done..|by rewrite dinode_put_length; rewrite ?bl_length|].
  exists k'. split; [|done]. unfold iupdate. run. fold i. rewrite Hd. by apply kk_run.
Qed.

(** iupdate writes the in-core copy to the inode's place on the disk: the disk
    then holds exactly that inode, every other inode is as it was, and no other
    block changes. *)
Theorem iupdate_correct ip f :
  let i := inode_of ip f in let n := IBLOCK (i_inum i) (fs_sb f) in
  bl_inv (fs_k f) → bl_open (fs_k f) → i_dev i = bl_dev → 0 <= i_inum i → dinode_ok (i_d i) →
  bl_block (fs_k f) n → (n ∉ (bl_held (fs_k f)).*2) → bl_room (fs_k f) 1 1 →
  ∃ f', iupdate ip f = Ok tt f' ∧ bl_inv (fs_k f') ∧ fs_icache f' = fs_icache f ∧
    (∀ j, 0 <= j → dinode_at (fs_sb f) (bl_view (fs_k f')) j =
       if decide (j = i_inum i) then i_d i else dinode_at (fs_sb f) (bl_view (fs_k f)) j) ∧
    (∀ m, m ≠ n → bl_view (fs_k f') m = bl_view (fs_k f) m).
Proof.
  intros i n Hk Ho Hd Hi Hok Hn Hnh Hr.
  destruct (iupdate_run ip f) as (k' & H & Hs); try done.
  { apply Hok. }
  pose proof (step_view _ _ _ _ _ Hs) as Hv.
  exists (set_k k' f). split_and!; [done|eauto with xv6|done| |]; simpl.
  - intros j Hj. rewrite <-(dinode_at_put (fs_sb f) (bl_view (fs_k f)) (i_d i) (i_inum i) j)
      by (done || by apply bl_length). unfold dinode_at. by rewrite Hv.
  - intros m Hm. rewrite Hv. by apply fupd_ne.
Qed.

Lemma inode_of_alter ip g f :
  (ip < length (fs_icache f))%nat →
  inode_of ip (set_icache (alter g ip (fs_icache f)) f) = g (inode_of ip f).
Proof. intros H. by apply list_lookup_total_alter_eq. Qed.

(** ilock takes the inode's lock and, the first time, reads the inode from the
    disk; an inode the disk says is free is a panic. *)
Theorem ilock_correct ip f :
  let i := inode_of ip f in let n := IBLOCK (i_inum i) (fs_sb f) in
  let d := dinode_at (fs_sb f) (bl_view (fs_k f)) (i_inum i) in
  (ip < length (fs_icache f))%nat → 1 <= i_ref i → sl_locked (i_lock i) = false →
  bl_inv (fs_k f) → i_dev i = bl_dev →
  bl_block (fs_k f) n → (n ∉ (bl_held (fs_k f)).*2) → bl_room (fs_k f) 1 0 →
  if i_valid i then ilock ip f = Ok tt (set_icache (alter (set_ilock (Sleeplock true (fs_pid f))) ip (fs_icache f)) f)
  else if d_type d =? 0 then ∃ f', ilock ip f = Panic "ilock: no type" f'
  else ∃ k', ilock ip f = Ok tt (set_icache (alter (λ i, Inode (i_dev i) (i_inum i) (i_ref i) (Sleeplock true (fs_pid f)) true d)
                                   ip (fs_icache f)) (set_k k' f)) ∧
    bl_step (fs_k f) (bl_view (fs_k f)) (bl_held (fs_k f)) [] k'.
Proof.
  intros i n d Hip Hr Hl Hk Hd Hn Hnh Hroom.
  destruct (bread_step (fs_k f) n Hk Hn Hnh Hroom) as (b & k1 & H1 & Hs1 & Hst).
  destruct (brelse_step k1 b n (bl_held (fs_k f))) as (k2 & H2 & Hs2);
    [eauto with xv6|exact (step_held _ _ _ _ _ Hs1)|done|].
  assert (bl_data b k1 = bl_view (fs_k f) n) as Hb.
  { rewrite (bl_held_data k1 b n); [by rewrite (step_view _ _ _ _ _ Hs1)|eauto with xv6|].
    apply (step_is_held _ _ _ _ _ _ Hs1). by left. }
  set (f1 := set_icache (alter (set_ilock (Sleeplock true (fs_pid f))) ip (fs_icache f)) f).
  assert (inode_of ip f1 = set_ilock (Sleeplock true (fs_pid f)) i) as Hi1 by (by apply inode_of_alter).
  assert (acquiresleep_inode ip f = Ok tt f1) as Ha.
  { unfold acquiresleep_inode. by rewrite acquiresleep_free by done. }
  unfold ilock. run. fold i. rewrite run_panic_if by (apply Z.ltb_ge; lia).
  rewrite (bind_run _ _ _ _ _ Ha). run. rewrite Hi1. cbn [i_valid set_ilock].
  destruct (i_valid i); [done|]. run. cbn [i_dev i_inum set_ilock]. rewrite Hd.
  rewrite (bind_run _ _ _ _ _ (kk_run (bl_bread bl_dev n) f1 b k1 H1)). run.
  change (bl_data b (fs_k (set_k k1 f1))) with (bl_data b k1). rewrite Hb.
  change (dinode_get (bl_view (fs_k f) n) (dip_off (i_inum i))) with d.
  set (f2 := set_icache (alter (λ i, set_d d i) ip (fs_icache (set_k k1 f1))) (set_k k1 f1)).
  assert (upd_d ip (λ _, d) (set_k k1 f1) = Ok tt f2) as Hu by done.
  rewrite (bind_run _ _ _ _ _ Hu).
  rewrite (bind_run _ _ _ _ _ (kk_run (bl_brelse b) f2 tt k2 H2)).
  set (f3 := set_icache (alter (set_valid true) ip (fs_icache (set_k k2 f2))) (set_k k2 f2)).
  assert (upd_inode ip (set_valid true) (set_k k2 f2) = Ok tt f3) as Hu3 by done.
  rewrite (bind_run _ _ _ _ _ Hu3). run.
  assert (i_d (inode_of ip f3) = d) as ->.
  { unfold f3. rewrite inode_of_alter by (simpl; by rewrite !length_alter).
    change (inode_of ip (set_k k2 f2)) with (inode_of ip f2). unfold f2.
    rewrite inode_of_alter by (simpl; by rewrite !length_alter). done. }
  destruct (d_type d =? 0); [by eexists|].
  exists k2. split.
  - unfold mret, M_ret, f3, f2, f1. f_equal. cbn [fs_icache set_icache set_k]. rewrite !list_alter_alter_eq. done.
  - eapply bl_step_ext; [| |exact (bl_step_trans _ _ _ _ _ _ _ _ _ Hs1 Hs2)]; [|done]. apply (step_view _ _ _ _ _ Hs1).
Qed.

(** ** File contents *)

(** The disk block of the [bn]th block of a file, and the file's byte [o]. *)
Definition iblock (v : Z → block) (d : dinode) (bn : Z) : Z :=
  if bn <? NDIRECT then getZ (d_addrs d) bn
  else getw 4 (v (getZ (d_addrs d) NDIRECT)) (Z.to_nat (4 * (bn - NDIRECT))).

Definition content (v : Z → block) (d : dinode) (o : Z) : Z :=
  getZ (v (iblock v d (o / BSZ))) (o mod BSZ).

Lemma content_ext v w d o : (∀ m, w m = v m) → content w d o = content v d o.
Proof. intros H. unfold content, iblock. by rewrite !H. Qed.

(** The blocks behind block [bn] of a file are allocated, and not held. *)
Definition usable k (n : Z) : Prop := n ≠ 0 ∧ bl_block k n ∧ (n ∉ (bl_held k).*2).
Record mapped k (d : dinode) (bn : Z) : Prop := {
  map_range : 0 <= bn < MAXFILE;
  map_block : usable k (iblock (bl_view k) d bn);
  map_indirect : NDIRECT <= bn → usable k (getZ (d_addrs d) NDIRECT)
}.

Lemma BSZ_eq : BSZ = 512.
Proof. reflexivity. Qed.

Lemma usable_step k v ns k' n : bl_step k v (bl_held k) ns k' → usable k n → usable k' n.
Proof. intros Hs (? & ? & ?). split_and!; [done|eauto with xv6..]. Qed.

Lemma iblock_ext v w d bn :
  (NDIRECT <= bn → w (getZ (d_addrs d) NDIRECT) = v (getZ (d_addrs d) NDIRECT)) →
  iblock w d bn = iblock v d bn.
Proof.
  intros H. unfold iblock. destruct (Z.ltb_spec bn NDIRECT); [done|]. by rewrite H.
Qed.

Lemma mapped_step k v ns k' d bn :
  bl_step k v (bl_held k) ns k' →
  (NDIRECT <= bn → v (getZ (d_addrs d) NDIRECT) = bl_view k (getZ (d_addrs d) NDIRECT)) →
  mapped k d bn → mapped k' d bn.
Proof.
  intros Hs Hv [H1 H2 H3]. split; [done| |].
  - rewrite (iblock_ext (bl_view k)); [by eapply usable_step|].
    intros. by rewrite (step_view _ _ _ _ _ Hs), Hv.
  - intros. eapply usable_step; eauto.
Qed.

(** bmap of an allocated block only reads. *)
Lemma bmap_run ip bn f :
  let i := inode_of ip f in
  bl_inv (fs_k f) → i_dev i = bl_dev → mapped (fs_k f) (i_d i) bn → bl_room (fs_k f) 1 0 →
  ∃ k', bmap ip bn f = Ok (iblock (bl_view (fs_k f)) (i_d i) bn) (set_k k' f) ∧
    bl_step (fs_k f) (bl_view (fs_k f)) (bl_held (fs_k f)) [] k'.
Proof.
  intros i Hk Hd [Hbn (Hnz & Hb & Hbh) Hind] Hr. unfold bmap. run. fold i.
  unfold iblock in *. destruct (Z.ltb_spec bn NDIRECT) as [Hlt|Hge].
  - rewrite (proj2 (Z.eqb_neq _ _) Hnz). exists (fs_k f).
    split; [by destruct f|by apply bl_step_refl].
  - destruct (Hind Hge) as (Hinz & Hi & Hih).
    rewrite (proj2 (Z.ltb_lt _ _)) by (unfold MAXFILE in *; lia).
    rewrite (proj2 (Z.eqb_neq _ _) Hinz). run. rewrite Hd.
    set (n := getZ (d_addrs (i_d i)) NDIRECT) in *.
    destruct (bread_step (fs_k f) n Hk Hi Hih Hr) as (b & k1 & H1 & Hs1 & Hst).
    destruct (brelse_step k1 b n (bl_held (fs_k f))) as (k2 & H2 & Hs2);
      [eauto with xv6|exact (step_held _ _ _ _ _ Hs1)|done|].
    assert (bl_data b k1 = bl_view (fs_k f) n) as Hbd.
    { rewrite (bl_held_data k1 b n); [by rewrite (step_view _ _ _ _ _ Hs1)|eauto with xv6|].
      apply (step_is_held _ _ _ _ _ _ Hs1). by left. }
    exists k2. split.
    + rewrite (bind_run _ _ _ _ _ (kk_run (bl_bread bl_dev n) f b k1 H1)). run.
      change (bl_data b (fs_k (set_k k1 f))) with (bl_data b k1). rewrite Hbd.
      rewrite (proj2 (Z.eqb_neq _ _) Hnz). run.
      by rewrite (bind_run _ _ _ _ _ (kk_run (bl_brelse b) (set_k k1 f) tt k2 H2)).
    + eapply bl_step_ext; [|reflexivity|exact (bl_step_trans _ _ _ _ _ _ _ _ _ Hs1 Hs2)].
      apply (step_view _ _ _ _ _ Hs1).
Qed.

(** The bytes of one block that a round of the loops moves. *)
Lemma sub_content v d o m :
  length (v (iblock v d (o / BSZ))) = BSIZE → 0 <= m <= BSZ - o mod BSZ →
  sub (v (iblock v d (o / BSZ))) (Z.to_nat (o mod BSZ)) (Z.to_nat m) =
    content v d <$> seqZ o m.
Proof.
  rewrite BSZ_eq. intros Hl Hm. pose proof (Z.mod_pos_bound o 512).
  change BSIZE with 512%nat in Hl.
  apply list_eq. intros j. rewrite lookup_sub, list_lookup_fmap. case_decide.
  - rewrite lookup_seqZ_lt by lia. cbn [fmap option_fmap option_map]. unfold content.
    rewrite BSZ_eq. assert ((o + Z.of_nat j) / 512 = o / 512 ∧ (o + Z.of_nat j) mod 512 = o mod 512 + Z.of_nat j) as [-> ->]
      by (Z.to_euclidean_division_equations; lia).
    unfold getZ. rewrite Z2Nat.inj_add, Nat2Z.id by lia. apply list_lookup_lookup_total_lt. lia.
  - by rewrite lookup_seqZ_ge by lia.
Qed.

Lemma readi_loop_run ip f d : ∀ fuel k tot off n acc,
  i_dev (inode_of ip f) = bl_dev → i_d (inode_of ip f) = d →
  bl_inv k → bl_room k 1 0 → 0 <= off → 0 <= tot <= n → n - tot < Z.of_nat fuel →
  (∀ bn, off / BSZ <= bn → bn * BSZ < off + (n - tot) → mapped k d bn) →
  ∃ k', readi_loop fuel ip tot off n acc (set_k k f) =
      Ok (acc ++ (content (bl_view k) d <$> seqZ off (n - tot))) (set_k k' f) ∧
    bl_step k (bl_view k) (bl_held k) [] k'.
Proof.
  induction fuel as [|fuel IH]; intros k tot off n acc Hdev Hd Hk Hr Hoff Htot Hfuel Hmap; [lia|].
  cbn [readi_loop]. destruct (Z.ltb_spec tot n) as [Hlt|Hge].
  2: { replace (n - tot) with 0 by lia. exists k. split; [|by apply bl_step_refl].
       simpl. by rewrite app_nil_r. }
  run. change (inode_of ip (set_k k f)) with (inode_of ip f). rewrite BSZ_eq in *.
  pose proof (Z.mod_pos_bound off 512 ltac:(lia)). pose proof (Z.div_mod off 512 ltac:(lia)).
  destruct (bmap_run ip (off / 512) (set_k k f)) as (k1 & H1 & Hs1); simpl; [done|done| |done|].
  { change (inode_of ip (set_k k f)) with (inode_of ip f). rewrite Hd. apply Hmap; lia. }
  rewrite (bind_run _ _ _ _ _ H1). simpl fs_k in *.
  change (inode_of ip (set_k k f)) with (inode_of ip f) in *. rewrite Hd in *.
  destruct (Hmap (off / 512)) as [_ Hu _]; [lia..|].
  set (a := iblock (bl_view k) d (off / 512)) in *.
  destruct (usable_step _ _ _ _ _ Hs1 Hu) as (_ & Ha & Hah). rewrite Hdev.
  pose proof (step_view _ _ _ _ _ Hs1) as Hv1.
  destruct (bread_step k1 a) as (b & k2 & H2 & Hs2 & Hst); [eauto with xv6|done..| |].
  { eapply bl_step_room; [done..|simpl; lia|simpl; lia]. }
  destruct (brelse_step k2 b a (bl_held k)) as (k3 & H3 & Hs3); [eauto with xv6| |done|].
  { rewrite (step_held _ _ _ _ _ Hs2). f_equiv. apply (step_held _ _ _ _ _ Hs1). }
  assert (bl_data b k2 = bl_view k a) as Hbd.
  { rewrite (bl_held_data k2 b a); [by rewrite (step_view _ _ _ _ _ Hs2), Hv1|eauto with xv6|].
    apply (step_is_held _ _ _ _ _ _ Hs2). by left. }
  assert (bl_step k (bl_view k) (bl_held k) [] k3) as Hs.
  { eapply bl_step_ext; [| |exact (bl_step_trans _ _ _ _ _ _ _ _ _
      (bl_step_trans _ _ _ _ _ _ _ _ _ Hs1 Hs2) Hs3)]; [|done].
    intros m. by rewrite (step_view _ _ _ _ _ Hs2), Hv1. }
  rewrite (bind_run _ _ _ _ _ (kk_run (bl_bread bl_dev a) (set_k k1 (set_k k f)) b k2 H2)). run.
  match goal with |- context [bl_data b ?x] => change (bl_data b x) with (bl_data b k2) end.
  rewrite Hbd. set (m := Z.min (n - tot) (512 - off mod 512)).
  rewrite (bind_run _ _ _ _ _ (kk_run (bl_brelse b)
    (set_k k2 (set_k k1 (set_k k f))) tt k3 H3)).
  pose proof (sub_content (bl_view k) d off m) as Hsub. rewrite BSZ_eq in Hsub. fold a in Hsub.
  rewrite Hsub by (by rewrite bl_length || lia).
  destruct (IH k3 (tot + m) (off + m) n (acc ++ (content (bl_view k) d <$> seqZ off m)))
    as (k4 & H4 & Hs4); try done; try lia.
  { eauto with xv6. } { eapply bl_step_room; [done..|simpl; lia|simpl; lia]. }
  { intros bn Hbn1 Hbn2. eapply mapped_step; [done|done|].
    apply Hmap; Z.to_euclidean_division_equations; lia. }
  exists k4. split.
  - etransitivity; [exact H4|]. f_equal. rewrite <-app_assoc. f_equal.
    assert (seqZ off (n - tot) = seqZ off m ++ seqZ (off + m) (n - (tot + m))) as ->
      by (rewrite <-seqZ_app by lia; f_equal; lia).
    rewrite fmap_app. f_equal. apply list_fmap_ext.
    intros j o _. apply content_ext, (step_view _ _ _ _ _ Hs).
  - eapply bl_step_ext; [| |exact (bl_step_trans _ _ _ _ _ _ _ _ _ Hs Hs4)].
    + apply (step_view _ _ _ _ _ Hs).
    + apply (step_held _ _ _ _ _ Hs).
Qed.

Lemma readi_run rd ip off n f :
  let i := inode_of ip f in let d := i_d i in let m := Z.min n (d_size d - off) in
  bl_inv (fs_k f) → i_dev i = bl_dev → d_type d ≠ T_DEV → bl_room (fs_k f) 1 0 →
  0 <= off <= d_size d → 0 <= n → off + n < 4294967296 →
  (∀ bn, off / BSZ <= bn → bn * BSZ < off + m → mapped (fs_k f) d bn) →
  ∃ k', readi rd ip off n f = Ok (m, content (bl_view (fs_k f)) d <$> seqZ off m) (set_k k' f) ∧
    bl_step (fs_k f) (bl_view (fs_k f)) (bl_held (fs_k f)) [] k'.
Proof.
  intros i d m Hk Hdev Ht Hr Hoff Hn Hw Hmap. unfold readi. run. fold i d.
  rewrite (proj2 (Z.eqb_neq _ _) Ht), (proj2 (Z.ltb_ge _ _)) by lia.
  rewrite u32_small by (unfold is_u32; lia). rewrite (proj2 (Z.ltb_ge (off + n) off)) by lia.
  cbn [orb]. assert ((if d_size d <? off + n then d_size d - off else n) = m) as ->.
  { unfold m. destruct (Z.ltb_spec (d_size d) (off + n)); lia. }
  destruct (readi_loop_run ip f d (S (Z.to_nat m)) (fs_k f) 0 off m [] Hdev eq_refl Hk Hr)
    as (k' & H & Hs); [lia..|rewrite Z.sub_0_r; exact Hmap|].
  exists k'. split; [|done]. replace (set_k (fs_k f) f) with f in H by (by destruct f).
  rewrite (bind_run _ _ _ _ _ H). simpl. by rewrite Z.sub_0_r.
Qed.

(** C8. readi returns the bytes of the file from [off], as many as it has up to
    [n]; an offset beyond the end or a range that wraps around is refused. It
    changes nothing. *)
Theorem readi_correct rd ip off n f :
  let i := inode_of ip f in let d := i_d i in
  bl_inv (fs_k f) → i_dev i = bl_dev → d_type d ≠ T_DEV → bl_room (fs_k f) 1 0 →
  is_u32 off → is_u32 n → is_u32 (d_size d) →
  (∀ bn, 0 <= bn → bn * BSZ < d_size d → mapped (fs_k f) d bn) →
  if (d_size d <? off) || (4294967296 <=? off + n) then readi rd ip off n f = Ok (-1, []) f
  else ∃ f', let m := Z.min n (d_size d - off) in
    readi rd ip off n f = Ok (m, content (bl_view (fs_k f)) d <$> seqZ off m) f' ∧
    bl_inv (fs_k f') ∧ fs_icache f' = fs_icache f ∧
    (∀ b, bl_view (fs_k f') b = bl_view (fs_k f) b) ∧ bl_held (fs_k f') ≡ₚ bl_held (fs_k f).
Proof.
  intros i d Hk Hdev Ht Hr Hoff Hn Hsz Hmap. unfold is_u32 in *.
  destruct (Z.ltb_spec (d_size d) off) as [Hlt|Hge]; [|destruct (Z.leb_spec 4294967296 (off + n))].
  1-2: unfold readi; run; fold i d; rewrite (proj2 (Z.eqb_neq _ _) Ht).
  - by rewrite (proj2 (Z.ltb_lt _ _) Hlt).
  - assert ((u32 (off + n) <? off) = true) as -> by (apply Z.ltb_lt; zmod). by rewrite !orb_true_r.
  - cbn [orb]. destruct (readi_run rd ip off n f) as (k' & HR & Hs); try done; try lia.
    { fold i d. lia. }
    { intros bn Hb1 Hb2. change (bn * BSZ < off + Z.min n (d_size d - off)) in Hb2.
      rewrite BSZ_eq in *. pose proof (Z.div_pos off 512). apply Hmap; lia. }
    exists (set_k k' f). split_and!; [done|eauto with xv6|done| |].
    + exact (step_view _ _ _ _ _ Hs).
    + exact (step_held _ _ _ _ _ Hs).
Qed.

(** How many blocks [r] bytes from [off] touch. *)
Definition touched (off r : Z) : nat :=
  if r <=? 0 then 0%nat else Z.to_nat ((off + r - 1) / BSZ - off / BSZ + 1).

Lemma touched_round off r m :
  0 <= off → 0 < r → m = Z.min r (BSZ - off mod BSZ) →
  (touched (off + m) (r - m) + 1 = touched off r)%nat.
Proof.
  unfold touched. rewrite BSZ_eq. intros Hoff Hr ->. rewrite (proj2 (Z.leb_gt r 0)) by lia.
  pose proof (Z.mod_pos_bound off 512). pose proof (Z.div_mod off 512).
  set (q := off / 512) in *. set (s := off mod 512) in *.
  destruct (Z.min_spec r (512 - s)) as [[? ->]|[? ->]].
  - rewrite (proj2 (Z.leb_le (r - r) 0)) by lia.
    assert ((off + r - 1) / 512 = q) as -> by (Z.to_euclidean_division_equations; lia). lia.
  - assert ((off + (512 - s)) / 512 = q + 1) as -> by (Z.to_euclidean_division_equations; lia).
    destruct (Z.leb_spec (r - (512 - s)) 0).
    + assert ((off + r - 1) / 512 = q) as -> by (Z.to_euclidean_division_equations; lia). lia.
    + replace (off + (512 - s) + (r - (512 - s)) - 1) with (off + r - 1) by lia.
      assert (q + 1 <= (off + r - 1) / 512) by (Z.to_euclidean_division_equations; lia). lia.
Qed.

End blocks.

(** ** The inode cache *)

Section icache.
Implicit Types (l : list inode).

Definition caches_inode (dev inum : Z) (x : inode) : Prop :=
  0 < i_ref x ∧ i_dev x = dev ∧ i_inum x = inum.

(** An inode in use has one entry. *)
Record icache_ok l : Prop := {
  icache_ref : ∀ i x, l !! i = Some x → 0 <= i_ref x;
  icache_uniq : ∀ i j x y, l !! i = Some x → l !! j = Some y →
    0 < i_ref x → caches_inode (i_dev x) (i_inum x) y → i = j
}.

Lemma iget_scan_spec dev inum l : ∀ i e,
  match iget_scan dev inum l i e with
  | (Some ip, _) => ∃ j x, ip = (i + j)%nat ∧ l !! j = Some x ∧ caches_inode dev inum x
  | (None, e') => (∀ j x, l !! j = Some x → ¬ caches_inode dev inum x) ∧
      match e with
      | Some _ => e' = e
      | None => match e' with
                | Some ip => ∃ j x, ip = (i + j)%nat ∧ l !! j = Some x ∧ i_ref x = 0
                | None => ∀ j x, l !! j = Some x → i_ref x ≠ 0
                end
      end
  end.
Proof.
  induction l as [|x l IH]; intros i e; simpl.
  - split; [done|]. by destruct e.
  - destruct (_ && _) eqn:Hc.
    { exists 0%nat, x. split_and!; [lia|done|]. unfold caches_inode. lia. }
    match goal with |- context [iget_scan dev inum l (S i) ?e1] => specialize (IH (S i) e1);
      destruct (iget_scan dev inum l (S i) e1) as [[ip|] e'] end.
    { destruct IH as (j & y & -> & Hj & Hy). exists (S j), y. split_and!; [lia|done|done]. }
    destruct IH as [IHn IHe]. split.
    { intros [|j] y Hy; simpl in Hy; [|by eapply IHn]. injection Hy as <-.
      unfold caches_inode. lia. }
    destruct e as [e|]; [done|]. destruct (Z.eqb_spec (i_ref x) 0) as [H0|H0].
    + subst e'. exists 0%nat, x. split_and!; [lia|done|done].
    + destruct e' as [ip|].
      * destruct IHe as (j & y & -> & Hj & Hy). exists (S j), y. split_and!; [lia|done|done].
      * intros [|j] y Hy; simpl in Hy; [by simplify_eq|by eapply IHe].
Qed.

Lemma icache_ok_alter l ip x g :
  icache_ok l → l !! ip = Some x → 0 <= i_ref (g x) →
  (0 < i_ref (g x) → ∀ j y, l !! j = Some y → caches_inode (i_dev (g x)) (i_inum (g x)) y → j = ip) →
  icache_ok (alter g ip l).
Proof.
  intros [Hr Hu] Hx H0 Hg. split.
  - intros i y Hy. destruct (decide (i = ip)) as [->|Hne].
    + rewrite list_lookup_alter_eq, Hx in Hy. by simplify_eq/=.
    + rewrite list_lookup_alter_ne in Hy by done. by eapply Hr.
  - intros i j y z Hy Hz Hp Hc.
    destruct (decide (i = ip)) as [->|Hi], (decide (j = ip)) as [->|Hj]; [done|..].
    + rewrite list_lookup_alter_eq, Hx in Hy. rewrite list_lookup_alter_ne in Hz by done.
      simplify_eq/=. symmetry. by eapply Hg.
    + rewrite list_lookup_alter_eq, Hx in Hz. rewrite list_lookup_alter_ne in Hy by done.
      simplify_eq/=. destruct Hc as (Hc1 & Hc2 & Hc3). eapply Hg; [done..|].
      by split_and!.
    + rewrite list_lookup_alter_ne in Hy, Hz by done. by eapply Hu.
Qed.
End icache.

(** iget returns the entry of the inode if it is cached, and otherwise takes a
    free entry for it, not yet read from the disk; either way the inode has one
    entry afterwards and one reference more. It panics when every entry is in
    use by other inodes. *)
Theorem iget_correct {K} (f : fsst K) dev inum :
  icache_ok (fs_icache f) →
  (∃ ip x y f', iget dev inum f = Ok ip f' ∧
     fs_icache f !! ip = Some x ∧ fs_icache f' = <[ip := y]> (fs_icache f) ∧
     icache_ok (fs_icache f') ∧ caches_inode dev inum y ∧ i_ref y = i_ref x + 1 ∧
     ((caches_inode dev inum x ∧ i_valid y = i_valid x) ∨
      (i_ref x = 0 ∧ i_valid y = false ∧
       ∀ j z, fs_icache f !! j = Some z → ¬ caches_inode dev inum z)) ∧
     fs_k f' = fs_k f) ∨
  (iget dev inum f = Panic "iget: no inodes" f ∧
   ∀ j z, fs_icache f !! j = Some z → i_ref z ≠ 0 ∧ ¬ caches_inode dev inum z).
Proof.
  intros Hok. unfold iget. run.
  pose proof (iget_scan_spec dev inum (fs_icache f) 0 None) as H.
  destruct (iget_scan dev inum (fs_icache f) 0 None) as [[ip|] e]; [|destruct H as [Hn He]; destruct e as [ip|]].
  - left. destruct H as (j & x & -> & Hx & Hc). exists (0 + j)%nat, x, (set_ref (i_ref x + 1) x).
    eexists. split_and!; [done|done| | | |done| |done]; simpl.
    + rewrite list_insert_alter. by apply list_alter_ext; intros; simplify_eq.
    + apply (icache_ok_alter _ _ x); [done..|simpl; destruct Hc; lia|].
      intros _ i y Hy Hcy. simpl in Hcy. symmetry. by eapply (icache_uniq _ Hok j i x y); [..|apply Hc|].
    + destruct Hc as (? & ? & ?). split_and!; simpl; [lia|done..].
    + left. done.
  - left. destruct He as (j & x & -> & Hx & H0).
    exists (0 + j)%nat, x, (Inode dev inum 1 (i_lock x) false (i_d x)).
    eexists. split_and!; [done|done| | |done|simpl; lia| |done]; simpl.
    + rewrite list_insert_alter. by apply list_alter_ext; intros; simplify_eq.
    + apply (icache_ok_alter _ _ x); [done..|]. simpl. intros _ i y Hy Hcy. by destruct (Hn i y).
    + right. done.
  - right. split; [done|]. intros j z Hz. split; [by eapply He|by eapply Hn].
Qed.

(** ** Names and directories *)

(** The characters of an array up to its first NUL. *)
Fixpoint upto_nul (l : list Z) : list Z :=
  match l with
  | c :: l => if c =? 0 then [] else c :: upto_nul l
  | [] => []
  end.

Lemma cstr_upto m a l :
  Forall is_u8 l → (∀ i c, l !! i = Some c → m (a + Z.of_nat i) = c) →
  m (a + Z.of_nat (length l)) = 0 → cstr m a (upto_nul l).
Proof.
  intros Hl. revert a. induction Hl as [|c l Hc Hl IH]; intros a Hm Hend; simpl.
  - by rewrite Z.add_0_r in Hend.
  - pose proof (Hm 0%nat c eq_refl) as H0. rewrite Z.add_0_r in H0. unfold is_u8 in Hc.
    destruct (Z.eqb_spec c 0) as [->|Hne]; simpl; [done|]. split_and!; [done|lia..|].
    apply IH.
    + intros i d Hi. rewrite <-(Hm (S i) d Hi). f_equal. lia.
    + rewrite <-Hend. f_equal. simpl. lia.
Qed.

Lemma namecmp_zero s t :
  Forall is_u8 s → Forall is_u8 t → (length s < 32)%nat → (length t <= 14)%nat →
  namecmp s t = 0 ↔ take 14 (upto_nul s) = upto_nul t.
Proof.
  intros Hs Ht Hls Hlt.
  assert (∀ l, (length (upto_nul l) <= length l)%nat) as Hu.
  { induction l as [|c l IH]; simpl; [lia|]. destruct (c =? 0); simpl; lia. }
  unfold namecmp. rewrite (KernelSpec.strncmp_zero _ 0 32 14 (upto_nul s) (upto_nul t)).
  - by rewrite (take_ge (upto_nul t)) by (specialize (Hu t); lia).
  - apply cstr_upto; [done| |]; unfold mem2.
    + intros i c Hi. pose proof (lookup_lt_Some _ _ _ Hi). rewrite (proj2 (Z.ltb_lt _ _)) by lia.
      apply mem_of_lookup; [by rewrite Z.add_0_l, Nat2Z.id|by eapply Forall_lookup_1 in Hi].
    + rewrite (proj2 (Z.ltb_lt _ _)) by lia. apply mem_of_end. lia.
  - apply cstr_upto; [done| |]; unfold mem2.
    + intros i c Hi. rewrite (proj2 (Z.ltb_ge _ _)) by lia. apply mem_of_lookup.
      * by replace (Z.to_nat (32 + Z.of_nat i - 32)) with i by lia.
      * by eapply Forall_lookup_1 in Hi.
    + rewrite (proj2 (Z.ltb_ge _ _)) by lia. apply mem_of_end. lia.
Qed.

Section directory.
Context {K : Type} `{!BlockLayer K, !BlockLayerLaws K}.
Implicit Types (k : K) (f : fsst K).

(** The [j]th entry of a directory, and whether it has a name. *)
Definition entry (v : Z → block) (d : dinode) (j : Z) : list Z := content v d <$> seqZ (16 * j) 16.

Definition matches (name : list Z) (de : list Z) : bool :=
  negb (de_inum de =? 0) && (namecmp name (de_name de) =? 0).

(** The body of dirlookup's loop. *)
Lemma dirlookup_round rd ip f k j :
  let i := inode_of ip f in let d := i_d i in let v := bl_view (fs_k f) in
  bl_inv (fs_k f) → i_dev i = bl_dev → d_type d = T_DIR → bl_room (fs_k f) 1 0 →
  (∀ bn, 0 <= bn → bn * BSZ < d_size d → mapped (fs_k f) d bn) →
  0 <= j → 16 * j + 16 <= d_size d < 4294967296 →
  bl_step (fs_k f) v (bl_held (fs_k f)) [] k →
  ∃ k', readi rd ip (j * 16) 16 (set_k k f) = Ok (16, entry v d j) (set_k k' f) ∧
    bl_step (fs_k f) v (bl_held (fs_k f)) [] k'.
Proof.
  intros i d v Hk Hdev Ht Hr Hmap Hj Hsz Hs. pose proof (step_view _ _ _ _ _ Hs) as Hv.
  assert (Z.min 16 (d_size d - j * 16) = 16) as Hmin by lia.
  destruct (readi_run rd ip (j * 16) 16 (set_k k f)) as (k' & H & Hs'); simpl.
  all: change (inode_of ip (set_k k f)) with i; fold d; try done; try lia.
  { eauto with xv6. } { by rewrite Ht. } { eapply bl_step_room; [done..|simpl; lia|simpl; lia]. }
  { intros bn Hb1 Hb2. rewrite Hmin in Hb2. eapply mapped_step; [done|done|].
    rewrite BSZ_eq in *. pose proof (Z.div_pos (j * 16) 512). apply Hmap; lia. }
  change (inode_of ip (set_k k f)) with i in H. fold d in H. rewrite Hmin in H. cbn [fs_k set_k] in H.
  exists k'. split.
  - assert (entry v d j = content (bl_view k) d <$> seqZ (j * 16) 16) as ->; [|exact H].
    unfold entry. replace (j * 16) with (16 * j) by lia.
    apply list_fmap_ext. intros n o _. symmetry. by apply content_ext.
  - eapply bl_step_ext; [exact Hv|exact (step_held _ _ _ _ _ Hs)|].
    exact (bl_step_trans _ _ _ _ _ _ _ _ _ Hs Hs').
Qed.

(** dirlookup finds the first entry in use that has the name, and returns its
    inode with a reference and the entry's offset; without one it returns 0. It
    changes nothing on the disk. *)
Theorem dirlookup_correct rd ip (name : list Z) f n :
  let i := inode_of ip f in let d := i_d i in let v := bl_view (fs_k f) in
  bl_inv (fs_k f) → i_dev i = bl_dev → d_type d = T_DIR → bl_room (fs_k f) 1 0 →
  (∀ bn, 0 <= bn → bn * BSZ < d_size d → mapped (fs_k f) d bn) →
  d_size d = 16 * n → 0 <= n → d_size d < 4294967296 →
  ∃ k1, let f1 := set_k k1 f in bl_step (fs_k f) v (bl_held (fs_k f)) [] k1 ∧
    ((∃ j, 0 <= j < n ∧ matches name (entry v d j) = true ∧
        (∀ j', 0 <= j' < j → matches name (entry v d j') = false) ∧
        dirlookup rd ip name f =
          (next ← iget bl_dev (de_inum (entry v d j)); mret (Some (next, 16 * j))) f1) ∨
     ((∀ j, 0 <= j < n → matches name (entry v d j) = false) ∧
        dirlookup rd ip name f = Ok None f1)).
Proof.
  intros i d v Hk Hdev Ht Hr Hmap Hsz Hn Hmax. unfold dirlookup. run. fold i d.
  rewrite run_panic_if by (by rewrite Ht).
  assert ((d_size d + 15) / 16 = n) as -> by (Z.to_euclidean_division_equations; lia).
  set (body := λ off, _ : M (fsst K) (option (nat * Z))).
  set (I f1 := ∃ k', f1 = set_k k' f ∧ bl_step (fs_k f) v (bl_held (fs_k f)) [] k').
  assert (I f) as HI by (exists (fs_k f); split; [by destruct f|by apply bl_step_refl]).
  assert (∀ j f1, 0 <= j < n → I f1 → ∃ f2, I f2 ∧
    body (j * 16) f1 = if matches name (entry v d j)
      then (next ← iget bl_dev (de_inum (entry v d j)); mret (Some (next, 16 * j))) f2
      else Ok None f2) as Hround.
  { intros j f1 Hj (k1 & -> & Hs1).
    destruct (dirlookup_round rd ip f k1 j Hk Hdev Ht Hr Hmap) as (k2 & H2 & Hs2); [lia| |done|].
    { fold i d. lia. }
    exists (set_k k2 f). split; [by exists k2|]. unfold body. rewrite (bind_run _ _ _ _ _ H2).
    rewrite run_panic_if by done. cbn [snd]. fold i d v. unfold matches.
    destruct (de_inum (entry v d j) =? 0); [done|]. cbn [negb andb].
    destruct (namecmp name (de_name (entry v d j)) =? 0); [|done].
    rewrite Hdev. by replace (j * 16) with (16 * j) by lia. }
  assert (∀ (l : list Z) f1 y, (∀ j, j ∈ l → 0 <= j < n ∧ matches name (entry v d j) = false) →
    y ∈ (λ j, j * 16) <$> l → I f1 → ∃ f2, body y f1 = Ok None f2 ∧ I f2) as Hskip.
  { intros l f1 y Hl (j & -> & Hj)%list_elem_of_fmap HI1. destruct (Hl j Hj) as [Hjn Hm].
    destruct (Hround j f1 Hjn HI1) as (f2 & HI2 & H2). exists f2. by rewrite H2, Hm. }
  destruct (least_false (λ j, negb (matches name (entry v d j))) n Hn) as [Hall|(j & Hj & Hm & Hlow)].
  - destruct (for_until_missing I ((λ j, j * 16) <$> seqZ 0 n) body f HI) as (f1 & H1 & HI1).
    { intros y f1 Hy HI1. apply (Hskip (seqZ 0 n)); [|done..]. intros j Hj%elem_of_seqZ.
      split; [lia|]. apply negb_true_iff, Hall. lia. }
    destruct HI1 as (k1 & -> & Hs1). exists k1. split; [done|].
    right. split; [|done]. intros j Hj. by apply negb_true_iff, Hall.
  - rewrite (seqZ_split j n Hj), fmap_app.
    destruct (for_until_skip I ((λ j, j * 16) <$> seqZ 0 j)
      ((λ j, j * 16) <$> (j :: seqZ (j + 1) (n - j - 1))) body f HI) as (f1 & H1 & HI1).
    { intros y f1 Hy HI1. apply (Hskip (seqZ 0 j)); [|done..]. intros j' Hj'%elem_of_seqZ.
      split; [lia|]. apply negb_true_iff, Hlow. lia. }
    destruct (Hround j f1 Hj HI1) as (f2 & HI2 & H2).
    destruct HI2 as (k2 & -> & Hs2). exists k2. split; [done|].
    left. apply negb_false_iff in Hm. exists j. split_and!; [lia|lia|done| |].
    + intros j' Hj'. by apply negb_true_iff, Hlow.
    + rewrite H1, fmap_cons. cbn [for_until]. unfold mbind at 1, M_bind at 1. rewrite H2, Hm.
      unfold mbind, M_bind, mret, M_ret. by destruct (iget _ _ (set_k k2 f)).
Qed.
End directory.

(** ** Path elements *)

(** The pieces of a path between slashes, and those that are not empty. *)
Fixpoint split_slash (path : list Z) : list (list Z) :=
  match path with
  | [] => [[]]
  | c :: path =>
      if c =? 47 then [] :: split_slash path
      else match split_slash path with
           | s :: ss => (c :: s) :: ss
           | [] => [[c]]
           end
  end.
Definition elems (path : list Z) : list (list Z) := filter (λ s, s ≠ []) (split_slash path).

Lemma split_slash_nonempty path : ∃ s ss, split_slash path = s :: ss.
Proof.
  induction path as [|c path (s & ss & IH)]; simpl; [by eexists _, _|].
  rewrite IH. destruct (c =? 47); by eexists _, _.
Qed.

Lemma elems_skip path : elems (skip_slashes path) = elems path.
Proof.
  unfold elems. induction path as [|c path IH]; simpl; [done|].
  destruct (c =? 47) eqn:E; [|simpl; by rewrite E].
  rewrite IH, filter_cons_False by naive_solver. done.
Qed.

Lemma skip_slashes_hd path c rest : skip_slashes path = c :: rest → c ≠ 47.
Proof.
  induction path as [|d path IH]; simpl; [done|]. destruct (Z.eqb_spec d 47); [done|congruence].
Qed.

Lemma length_skip_slashes path : (length (skip_slashes path) <= length path)%nat.
Proof. induction path as [|c path IH]; simpl; [done|]. destruct (c =? 47); simpl; lia. Qed.

Lemma span_elem_spec path s rest :
  span_elem path = (s, rest) → path = s ++ rest ∧ split_slash path = s :: drop 1 (split_slash path) ∧
  filter (λ s, s ≠ []) (drop 1 (split_slash path)) = elems rest.
Proof.
  revert s rest. induction path as [|c path IH]; intros s rest; simpl.
  { intros [= <- <-]. done. }
  destruct (c =? 47) eqn:E.
  - intros [= <- <-]. split_and!; [done|done|]. unfold elems. simpl. rewrite E.
    by rewrite filter_cons_False by naive_solver.
  - destruct (span_elem path) as [s' rest'] eqn:Hs. intros [= <- <-].
    destruct (IH s' rest' eq_refl) as (-> & H2 & H3).
    destruct (split_slash_nonempty (s' ++ rest')) as (t & ts & Ht). rewrite Ht in H2, H3 |- *.
    simpl in *. injection H2 as ->. split_and!; done.
Qed.

Lemma upto_nul_app s l : Forall (λ c, c ≠ 0) s → upto_nul (s ++ 0 :: l) = s.
Proof.
  induction 1 as [|c s Hc Hs IH]; simpl; [done|].
  by rewrite (proj2 (Z.eqb_neq _ _) Hc), IH.
Qed.

Lemma upto_nul_id s : Forall (λ c, c ≠ 0) s → upto_nul s = s.
Proof.
  induction 1 as [|c s Hc Hs IH]; simpl; [done|]. by rewrite (proj2 (Z.eqb_neq _ _) Hc), IH.
Qed.

(** The array of a name, after an element was copied into it. *)
Lemma name_stored name s :
  length name = 14%nat → Forall (λ c, c ≠ 0) s →
  let name' := if DIRSIZ <=? Z.of_nat (length s) then splice name 0 (take (Z.to_nat DIRSIZ) s)
               else setZ (splice name 0 s) (Z.of_nat (length s)) 0 in
  length name' = 14%nat ∧ upto_nul name' = take 14 s.
Proof.
  intros Hn Hs. unfold DIRSIZ. change (Z.to_nat 14) with 14%nat.
  destruct (Z.leb_spec 14 (Z.of_nat (length s))); cbn zeta.
  - assert (splice name 0 (take 14 s) = take 14 s) as ->.
    { unfold splice. rewrite length_take, drop_ge, app_nil_r by lia. done. }
    rewrite length_take. split; [lia|]. apply upto_nul_id. by apply Forall_take.
  - rewrite take_ge by lia. unfold setZ. rewrite Nat2Z.id.
    split; [rewrite length_insert, length_splice; lia|].
    unfold splice. simpl.
    destruct (drop (length s) name) as [|c l] eqn:E.
    { apply (f_equal length) in E. rewrite length_drop in E. simpl in E. lia. }
    rewrite (insert_app_r_alt s) by lia. rewrite Nat.sub_diag. simpl. by apply upto_nul_app.
Qed.

(** skipelem takes the path's elements one after the other: it returns the
    first element, cut to DIRSIZ characters, and a shorter path that has the
    others and does not begin with a slash; of a path of slashes it returns 0. *)
Theorem skipelem_correct path name :
  length name = 14%nat → Forall (λ c, c ≠ 0) path →
  match elems path with
  | [] => skipelem path name = None
  | s :: ss => ∃ rest name', skipelem path name = Some (rest, name') ∧
      elems rest = ss ∧ (length rest < length path)%nat ∧ hd 0 rest ≠ 47 ∧
      length name' = 14%nat ∧ upto_nul name' = take 14 s
  end.
Proof.
  intros Hn Hp. unfold skipelem. rewrite <-elems_skip.
  pose proof (length_skip_slashes path) as Hlen.
  assert (Forall (λ c, c ≠ 0) (skip_slashes path)) as Hp'.
  { clear -Hp. induction Hp as [|c path Hc Hp IH]; simpl; [done|]. destruct (c =? 47); auto. }
  destruct (skip_slashes path) as [|c p] eqn:E; [done|].
  pose proof (skip_slashes_hd _ _ _ E) as Hc.
  destruct (span_elem (c :: p)) as [s rest] eqn:Hs.
  destruct (span_elem_spec _ _ _ Hs) as (Hcp & Hsp & Hrest).
  assert (s ≠ []) as Hne.
  { simpl in Hs. rewrite (proj2 (Z.eqb_neq _ _) Hc) in Hs.
    destruct (span_elem p) as [s' ?]. by injection Hs as <- _. }
  unfold elems at 1. rewrite Hsp, filter_cons_True, Hrest by done.
  eexists _, _. split; [done|]. split; [apply elems_skip|]. split_and!.
  - pose proof (length_skip_slashes rest) as H1. apply (f_equal length) in Hcp.
    rewrite length_app in Hcp. destruct s; [done|]. simpl in *. lia.
  - destruct (skip_slashes rest) as [|d r] eqn:Er; simpl; [done|]. by apply skip_slashes_hd in Er.
  - apply name_stored; [done|]. rewrite Hcp in Hp'. by apply Forall_app in Hp' as [? _].
  - apply name_stored; [done|]. rewrite Hcp in Hp'. by apply Forall_app in Hp' as [? _].
Qed.
