(* ===== verification/FsGrow.v ===== *)
(** * Writing a file (writei of fs.c), growth included

    A file's blocks may be missing beyond its end; bmap allocates them, and the
    indirect block, while writei runs. [fs_ok] is what ties the inode to the
    bitmap, [ext] is what allocation may change, and [writei_correct] is the
    whole routine, its refusals and its panic included. *)

From S2P Require Import Prelude Sleeplock Disk Log Blocks Fs FsSpec.

(** ** The blocks of a file, 0 for one that is missing *)

Definition ind (d : dinode) : Z := getZ (d_addrs d) NDIRECT.
Definition fblock (v : Z → block) (d : dinode) (bn : Z) : Z :=
  if (NDIRECT <=? bn) && (ind d =? 0) then 0 else iblock v d bn.

(** Block [n] is one of them. *)
Definition fowns (v : Z → block) (d : dinode) (n : Z) : Prop :=
  n ≠ 0 ∧ (n = ind d ∨ ∃ bn, 0 <= bn < MAXFILE ∧ n = fblock v d bn).

(** The blocks of the bitmap. *)
Definition bitmap_block (sb : superblock) (n : Z) : Prop := ∃ m, 0 <= m < sb_size sb ∧ n = BBLOCK m sb.
Definition bms (sb : superblock) : list Z :=
  (λ i, i + sb_bmapstart sb) <$> seqZ 0 ((sb_size sb + BPB - 1) / BPB).

Lemma elem_of_bms sb n : bitmap_block sb n → n ∈ bms sb.
Proof.
  intros (m & Hm & ->). apply list_elem_of_fmap. exists (m / BPB). split; [done|].
  apply elem_of_seqZ. rewrite BPB_eq. Z.to_euclidean_division_equations; lia.
Qed.

Lemma NDIRECT_eq : NDIRECT = 12.
Proof. done. Qed.
Lemma MAXFILE_value : MAXFILE = 140.
Proof. done. Qed.

Lemma fblock_iblock v d bn : fblock v d bn ≠ 0 → fblock v d bn = iblock v d bn.
Proof. unfold fblock. by destruct (_ && _). Qed.
Lemma fblock_ind v d bn : fblock v d bn ≠ 0 → NDIRECT <= bn → ind d ≠ 0.
Proof.
  intros H Hb E. apply H. unfold fblock.
  by rewrite (proj2 (Z.leb_le _ _) Hb), (proj2 (Z.eqb_eq _ _) E).
Qed.

(** It depends on the indirect block's contents only. *)
Lemma fblock_ext v w d bn : (ind d ≠ 0 → w (ind d) = v (ind d)) → fblock w d bn = fblock v d bn.
Proof.
  intros H. unfold fblock. destruct (Z.leb_spec NDIRECT bn); cbn [andb].
  - destruct (Z.eqb_spec (ind d) 0); [done|]. apply iblock_ext. auto.
  - apply iblock_ext. lia.
Qed.

Lemma ind_set_addr j a d : length (d_addrs d) = 13%nat → 0 <= j <= NDIRECT →
  ind (set_addr j a d) = if decide (j = NDIRECT) then a else ind d.
Proof.
  intros Hl Hj. rewrite NDIRECT_eq in *. unfold ind, set_addr. cbn [d_addrs].
  rewrite getZ_setZ by (rewrite ?NDIRECT_eq; lia). rewrite NDIRECT_eq. repeat case_decide; (done || lia).
Qed.

Lemma fblock_direct v bn a d bn' : length (d_addrs d) = 13%nat → 0 <= bn < NDIRECT → 0 <= bn' →
  fblock v (set_addr bn a d) bn' = if decide (bn' = bn) then a else fblock v d bn'.
Proof.
  intros Hl Hbn Hbn'. unfold fblock. rewrite ind_set_addr by lia. rewrite decide_False by lia.
  unfold iblock. destruct (Z.leb_spec NDIRECT bn'), (Z.ltb_spec bn' NDIRECT); try lia; cbn [andb].
  - rewrite decide_False by lia. destruct (ind d =? 0); [done|].
    change (getZ (d_addrs (set_addr bn a d)) NDIRECT) with (ind (set_addr bn a d)).
    rewrite ind_set_addr, decide_False by lia. done.
  - unfold set_addr; cbn [d_addrs]. apply getZ_setZ; rewrite ?NDIRECT_eq in *; lia.
Qed.

(** A new, zeroed indirect block has no entries. *)
Lemma fblock_new_ind v a d bn : length (d_addrs d) = 13%nat → ind d = 0 → v a = zero_block →
  0 <= bn < MAXFILE → fblock v (set_addr NDIRECT a d) bn = fblock v d bn.
Proof.
  intros Hl H0 Hz Hbn. rewrite MAXFILE_value in Hbn. unfold fblock. rewrite H0, ind_set_addr, decide_True by (rewrite ?NDIRECT_eq; lia || done).
  unfold iblock. destruct (Z.leb_spec NDIRECT bn), (Z.ltb_spec bn NDIRECT); try lia; cbn [andb].
  - rewrite Z.eqb_refl. destruct (a =? 0); [done|].
    change (getZ (d_addrs (set_addr NDIRECT a d)) NDIRECT) with (ind (set_addr NDIRECT a d)).
    rewrite ind_set_addr, decide_True, Hz by (rewrite ?NDIRECT_eq; lia || done).
    rewrite NDIRECT_eq in *. unfold getw.
    assert (sub zero_block (Z.to_nat (4 * (bn - 12))) 4 = replicate 4 0) as ->; [|done].
    apply list_eq. intros i. rewrite lookup_sub. unfold zero_block. case_decide.
    + rewrite !lookup_replicate_2 by (unfold BSIZE; lia). done.
    + by rewrite (lookup_ge_None_2 (replicate 4 0)) by (rewrite length_replicate; lia).
  - unfold set_addr; cbn [d_addrs]. rewrite getZ_setZ by (rewrite NDIRECT_eq in *; lia).
    by rewrite decide_False by lia.
Qed.

(** An entry of the indirect block is set. *)
Lemma fblock_leaf v w d bn a bn' : ind d ≠ 0 → NDIRECT <= bn < MAXFILE → 0 <= bn' < MAXFILE → is_u32 a →
  length (v (ind d)) = BSIZE → w (ind d) = putw 4 (v (ind d)) (Z.to_nat (4 * (bn - NDIRECT))) a →
  fblock w d bn' = if decide (bn' = bn) then a else fblock v d bn'.
Proof.
  intros H0 Hbn Hbn' Ha Hl Hw. unfold fblock. rewrite (proj2 (Z.eqb_neq _ _) H0), andb_false_r.
  unfold iblock. fold (ind d). rewrite Hw. rewrite NDIRECT_eq, MAXFILE_value in *. unfold BSIZE in Hl.
  destruct (Z.ltb_spec bn' 12); [by rewrite decide_False by lia|].
  case_decide; [subst|].
  - rewrite getw_putw_eq by lia. by apply Z.mod_small.
  - apply getw_putw_ne; lia.
Qed.

(** Byte [o] of the file; where a block is missing there are zeroes. *)
Definition fcontent v d (o : Z) : Z :=
  let b := fblock v d (o / BSZ) in if b =? 0 then 0 else getZ (v b) (o mod BSZ).

(** It is what readi returns of a block that is there. *)
Lemma fcontent_content v d o : fblock v d (o / BSZ) ≠ 0 → fcontent v d o = content v d o.
Proof. intros H. unfold fcontent, content. by rewrite (proj2 (Z.eqb_neq _ _) H), fblock_iblock. Qed.

Lemma getZ_zero_block o : getZ zero_block (o mod BSZ) = 0.
Proof.
  rewrite BSZ_eq. pose proof (Z.mod_pos_bound o 512). unfold getZ, zero_block.
  by rewrite lookup_total_replicate_2 by (unfold BSIZE; lia).
Qed.

Lemma block_of o : 0 <= o < MAXFILE * BSZ → 0 <= o / BSZ < MAXFILE.
Proof. rewrite BSZ_eq. intros. Z.to_euclidean_division_equations; lia. Qed.

(** Block [bn] of a file has a byte of the [r] bytes from [off]. *)
Definition covers (off r bn : Z) : Prop := 0 < r ∧ off / BSZ <= bn ∧ bn * BSZ < off + r.

Section grow.
Context {K : Type} `{!BlockLayer K, !BlockLayerLaws K}.
Implicit Types (k : K) (v : Z → block) (d : dinode).

(** ** The file and the bitmap *)

(** A block that the bitmap has in use, and that holds neither a part of the
    bitmap nor the inode (whose block is [ib]). *)
Record taken k sb (ib n : Z) : Prop := {
  tk_usable : usable k n; tk_size : 0 <= n < sb_size sb;
  tk_used : used sb (bl_view k) n = true; tk_bitmap : ¬ bitmap_block sb n; tk_ib : n ≠ ib
}.

(** The bitmap blocks and the free blocks may be used; the file's blocks are
    taken, each for one purpose. *)
Record fs_ok k sb (ib : Z) d : Prop := {
  ok_sb : 0 <= sb_size sb < 4294967296;
  ok_bitmap : bitmap_ready k sb (sb_size sb);
  ok_free : ∀ n, 0 <= n < sb_size sb → used sb (bl_view k) n = false →
    usable k n ∧ ¬ bitmap_block sb n ∧ n ≠ ib;
  ok_block : ∀ bn, 0 <= bn < MAXFILE → fblock (bl_view k) d bn ≠ 0 →
    taken k sb ib (fblock (bl_view k) d bn);
  ok_ind : ind d ≠ 0 → taken k sb ib (ind d);
  ok_inj : ∀ bn bn', 0 <= bn < MAXFILE → 0 <= bn' < MAXFILE → fblock (bl_view k) d bn ≠ 0 →
    fblock (bl_view k) d bn = fblock (bl_view k) d bn' → bn = bn';
  ok_sep : ∀ bn, 0 <= bn < MAXFILE → fblock (bl_view k) d bn ≠ 0 → fblock (bl_view k) d bn ≠ ind d
}.

Lemma fs_ok_owned k sb ib d n : fs_ok k sb ib d → fowns (bl_view k) d n → taken k sb ib n.
Proof. intros Hf [Hn [->|(bn & Hb & ->)]]; [by apply (ok_ind _ _ _ _ Hf)|by apply (ok_block _ _ _ _ Hf)]. Qed.

Lemma mapped_fblock k sb ib d bn : fs_ok k sb ib d → 0 <= bn < MAXFILE →
  fblock (bl_view k) d bn ≠ 0 → mapped k d bn.
Proof.
  intros Hf Hb Hn. split; [done| |].
  - rewrite <-fblock_iblock by done. by apply (ok_block _ _ _ _ Hf).
  - intros Hd. apply (ok_ind _ _ _ _ Hf). by eapply fblock_ind.
Qed.

(** The next state: the blocks [fresh] were free and are in use, and the file
    has them at places where it had nothing. *)
Lemma fs_ok_step k sb ib d v ns k' d' (fresh : Z → Prop) :
  fs_ok k sb ib d → bl_step k v (bl_held k) ns k' →
  (∀ n, 0 <= n < sb_size sb → used sb v n = true ↔ used sb (bl_view k) n = true ∨ fresh n) →
  (∀ n, fresh n → 0 <= n < sb_size sb ∧ used sb (bl_view k) n = false) →
  (∀ bn, 0 <= bn < MAXFILE → fblock v d' bn = fblock (bl_view k) d bn ∨ fresh (fblock v d' bn)) →
  (∀ bn bn', 0 <= bn < MAXFILE → 0 <= bn' < MAXFILE → fresh (fblock v d' bn) →
     fblock v d' bn = fblock v d' bn' → bn = bn') →
  (ind d' = ind d ∨ fresh (ind d')) →
  (∀ bn, 0 <= bn < MAXFILE → fresh (fblock v d' bn) → fblock v d' bn ≠ ind d') →
  fs_ok k' sb ib d'.
Proof.
  intros Hf Hs Hu Hfr Hb Hinj Hi Hsep. pose proof (step_view _ _ _ _ _ Hs) as Hv.
  assert (∀ n, used sb (bl_view k') n = used sb v n) as Hu' by (intros; unfold used; by rewrite Hv).
  assert (∀ bn, fblock (bl_view k') d' bn = fblock v d' bn) as Hb' by (intros; by apply fblock_ext).
  assert (∀ n, taken k sb ib n → taken k' sb ib n) as Ht.
  { intros n [T1 T2 T3 T4 T5]. split; [by eapply usable_step|done| |done..]. rewrite Hu'. apply Hu; auto. }
  assert (∀ n, fresh n → taken k' sb ib n) as Ht'.
  { intros n Hn. destruct (Hfr n Hn) as [Hr Hn0]. destruct (ok_free _ _ _ _ Hf n Hr Hn0) as (F1 & F2 & F3).
    split; [by eapply usable_step|done| |done..]. rewrite Hu'. apply Hu; auto. }
  assert (∀ n, taken k sb ib n → ¬ fresh n) as Hnf.
  { intros n Hn [_ Hn0]%Hfr. by rewrite (tk_used _ _ _ _ Hn) in Hn0. }
  split.
  - apply Hf.
  - eapply bitmap_ready_step; [apply Hf|done].
  - intros n Hn Hn0. rewrite Hu' in Hn0.
    destruct (ok_free _ _ _ _ Hf n Hn) as (F1 & F2 & F3).
    { destruct (used sb (bl_view k) n) eqn:E; [|done]. by rewrite (proj2 (Hu n Hn)) in Hn0 by auto. }
    split_and!; [by eapply usable_step|done..].
  - intros bn Hbn. rewrite Hb'. intros Hn. destruct (Hb bn Hbn) as [E|E]; [|by apply Ht'].
    rewrite E in *. by apply Ht, (ok_block _ _ _ _ Hf).
  - intros Hn. destruct Hi as [E|E]; [|by apply Ht']. rewrite E in *. by apply Ht, (ok_ind _ _ _ _ Hf).
  - intros bn bn' Hbn Hbn'. rewrite !Hb'. intros Hn He. destruct (Hb bn Hbn) as [E|E]; [|by apply Hinj].
    destruct (Hb bn' Hbn') as [E'|E']; [|symmetry; by apply Hinj].
    rewrite E in Hn, He. rewrite E' in He. by apply (ok_inj _ _ _ _ Hf).
  - intros bn Hbn. rewrite Hb'. intros Hn. destruct (Hb bn Hbn) as [E|E]; [|by apply Hsep].
    rewrite E in *. destruct Hi as [->|E']; [by apply (ok_sep _ _ _ _ Hf)|].
    intros Ee. rewrite <-Ee in E'. by apply (Hnf _ (ok_block _ _ _ _ Hf bn Hbn Hn)).
Qed.

(** ** What allocation may change *)

(** From one state to a later one: the blocks of the file stay, those of the set
    [S] that were missing may have been added, and the bitmap has in use what it
    had and what the file has. No block changed that was in use for something else,
    and none that is not the file's now. *)
Record ext sb (S : Z → Prop) v d v' d' : Prop := {
  e_meta : d' = Dinode (d_type d) (d_major d) (d_minor d) (d_nlink d) (d_size d) (d_addrs d');
  e_same : (∀ bn, 0 <= bn < MAXFILE → S bn → fblock v d bn ≠ 0) → d' = d;
  e_block : ∀ bn, 0 <= bn < MAXFILE → ¬ S bn ∨ fblock v d bn ≠ 0 → fblock v' d' bn = fblock v d bn;
  e_ind : ind d ≠ 0 → ind d' = ind d;
  e_ind_new : ind d = 0 → ind d' ≠ 0 → used sb v (ind d') = false ∧ 0 <= ind d' < sb_size sb;
  e_used : ∀ n, 0 <= n < sb_size sb → used sb v' n = true ↔ used sb v n = true ∨ fowns v' d' n;
  e_frame : ∀ b, ¬ bitmap_block sb b → ¬ fowns v' d' b → v' b = v b
}.

Lemma fowns_ext sb S v d v' d' n : ext sb S v d v' d' → fowns v d n → fowns v' d' n.
Proof.
  intros He [Hn [->|(bn & Hb & ->)]]; split; try done.
  - left. by rewrite (e_ind _ _ _ _ _ _ He).
  - right. exists bn. split; [done|]. symmetry. apply (e_block _ _ _ _ _ _ He); auto.
Qed.

Lemma ext_unchanged sb S k ib d : fs_ok k sb ib d → ext sb S (bl_view k) d (bl_view k) d.
Proof.
  intros Hf. split; try done; [by destruct d|]. intros n Hn. split; [by left|]. intros [?|Ho]; [done|].
  by apply (tk_used _ _ _ _ (fs_ok_owned _ _ _ _ _ Hf Ho)).
Qed.

Lemma ext_same sb S k ib d v' : fs_ok k sb ib d → (∀ b, v' b = bl_view k b) → ext sb S (bl_view k) d v' d.
Proof.
  intros Hf Hv. destruct (ext_unchanged sb S k ib d Hf) as [A1 A2 A3 A4 A5 A6 A7].
  assert (∀ bn, fblock v' d bn = fblock (bl_view k) d bn) as Hb by (intros; by apply fblock_ext).
  split; try done.
  - intros n Hn. unfold used at 1. rewrite Hv. fold (used sb (bl_view k) n). rewrite A6 by done.
    unfold fowns. setoid_rewrite Hb. tauto.
Qed.

Lemma ext_both sb S v d v1 d1 v2 d2 : ext sb S v d v1 d1 → ext sb S v1 d1 v2 d2 → ext sb S v d v2 d2.
Proof.
  intros H1 H2. pose proof (λ n, fowns_ext _ _ _ _ _ _ n H2) as Hm.
  destruct H1 as [A1 A2 A3 A4 A5 A6 A7], H2 as [B1 B2 B3 B4 B5 B6 B7]. split.
  - rewrite B1, A1. done.
  - intros H. rewrite (A2 H) in *. apply B2. intros bn Hb Hs. rewrite A3; auto.
  - intros bn Hb Hs. rewrite B3; [auto|done|]. destruct Hs as [?|?]; [by left|right]. rewrite A3; auto.
  - intros H. rewrite B4, A4; [done..|]. by rewrite A4.
  - intros H H'. destruct (decide (ind d1 = 0)) as [E|E].
    + destruct (B5 E H') as [Hu Hr]. split; [|done]. destruct (used sb v (ind d2)) eqn:Eu; [|done].
      by rewrite (proj2 (A6 _ Hr)) in Hu by auto.
    + rewrite (B4 E) in *. auto.
  - intros n Hn. rewrite B6, A6 by done. naive_solver.
  - intros b Hb Ho. rewrite B7, A7; auto.
Qed.

(** balloc, as a step. *)
Lemma balloc_take f sb ib :
  let k := fs_k f in let v := bl_view k in
  fs_sb f = sb → bl_inv k → bl_open k → 0 <= sb_size sb → bitmap_ready k sb (sb_size sb) →
  (∀ n, 0 <= n < sb_size sb → used sb v n = false → usable k n ∧ ¬ bitmap_block sb n ∧ n ≠ ib) →
  bl_room k 1 2 →
  (∃ a k', balloc bl_dev f = Ok a (set_k k' f) ∧ 0 <= a < sb_size sb ∧ used sb v a = false ∧
     bl_step k (bl_view k') (bl_held k) [BBLOCK a sb; a] k' ∧ bl_view k' a = zero_block ∧
     (∀ n, 0 <= n < sb_size sb → used sb (bl_view k') n = true ↔ used sb v n = true ∨ n = a) ∧
     (∀ b, ¬ bitmap_block sb b → b ≠ a → bl_view k' b = v b)) ∨
  (∃ k', balloc bl_dev f = Panic "balloc: out of blocks" (set_k k' f) ∧ bl_step k v (bl_held k) [] k' ∧
     ∀ n, 0 <= n < sb_size sb → used sb v n = true).
Proof.
  intros k v Hsb Hk Ho Hsz Hbm Hfree Hr. subst k v.
  destruct (least_false (used sb (bl_view (fs_k f))) (sb_size sb) Hsz) as [Hall|(a & Ha & Hua & Hlow)].
  { right. destruct (balloc_none f sb) as (k' & H & Hs); try done; [destruct Hr; split; lia|].
    by exists k'. }
  left. destruct (Hfree a Ha Hua) as ((_ & Hab & Hah) & Hnb & _).
  destruct (balloc_run f sb a) as (k' & H & Hs); try done. pose proof (step_view _ _ _ _ _ Hs) as Hv.
  exists a, k'. split; [done|]. split; [done|]. split_and!; try done.
  - eapply bl_step_ext; [|reflexivity|exact Hs]. done.
  - rewrite Hv. apply fupd_eq.
  - intros n Hn. rewrite (used_change sb (bl_view (fs_k f)) (bl_view k') a n (mark_bit (a mod BPB)) true).
    + case_bool_decide; naive_solver.
    + by apply bl_length.
    + intros j Hj. apply bit_set_mark; [|done]. rewrite bl_length by done.
      rewrite BPB_eq. pose proof (Z.mod_pos_bound a 4096). unfold BSIZE. lia.
    + rewrite Hv. apply fupd_ne. intros E. apply Hnb. by exists n.
  - intros b Hb Hba. rewrite Hv, !fupd_ne; [done| |done]. intros ->. apply Hb. by exists a.
Qed.

(** ** Room in the log *)

Lemma absorb_all_app ns L : ∃ M, absorb_all ns L = L ++ M ∧ NoDup M ∧ ∀ n, n ∈ M → n ∈ ns ∧ n ∉ L.
Proof.
  revert L. induction ns as [|n ns IH]; intros L.
  { exists []. rewrite app_nil_r. split_and!; [done|constructor|]. by intros n ?%elem_of_nil. }
  change (absorb_all (n :: ns) L) with (absorb_all ns (absorb n L)). unfold absorb. case_decide as Hn.
  - destruct (IH L) as (M & H1 & H2 & H3). exists M. split_and!; [done..|].
    intros m Hm. destruct (H3 m Hm). split; [by right|done].
  - destruct (IH (L ++ [n])) as (M & H1 & H2 & H3). exists (n :: M). rewrite H1, <-app_assoc.
    split_and!; [done| |].
    + constructor; [|done]. intros [_ Hx]%H3. apply Hx, elem_of_app. right. by left.
    + intros m [->|Hm]%elem_of_cons; [split; [by left|done]|].
      destruct (H3 m Hm) as [A B]. split; [by right|]. intros ?. apply B, elem_of_app. by left.
Qed.

(** The blocks logged are among [W]: so many they are, however often. *)
Lemma room_within k v h ns k' W b n b' n' :
  bl_step k v h ns k' → (∀ m, m ∈ ns → m ∈ W) → bl_room k b' n' →
  (length h + length W + b + n <= length (bl_held k) + b' + n')%nat →
  (length W + n <= n')%nat → bl_room k' b n.
Proof.
  intros [Hs _ Hh Hl _] HW [Hb Hc] Hle Hle'. pose proof (same_cap _ _ Hs) as Hcap.
  destruct (absorb_all_app ns (bl_logged k)) as (M & HM & Hnd & HMn).
  assert (length M <= length W)%nat as HlM.
  { apply submseteq_length, NoDup_submseteq; [done|]. intros m Hm. by apply HW, HMn. }
  split; rewrite ?Hl, ?HM, ?Hh, ?Hcap, length_app; lia.
Qed.

(** A run that began at [k0]: it logged parts of the bitmap, the indirect
    block, and the blocks [T]. *)
Definition grown k0 sb (T : list Z) d k : Prop :=
  ∃ ns, bl_step k0 (bl_view k) (bl_held k0) ns k ∧
    ∀ n, n ∈ ns → bitmap_block sb n ∨ (n ≠ 0 ∧ n = ind d) ∨ n ∈ T.

Definition log_need sb (T : list Z) : nat := length (bms sb) + 1 + length T.

Lemma grown_room k0 sb T d k h ns1 k1 R b c :
  grown k0 sb T d k → bl_step k (bl_view k1) h ns1 k1 →
  (∀ n, n ∈ ns1 → bitmap_block sb n ∨ (n ≠ 0 ∧ n = ind d) ∨ n ∈ T) →
  bl_room k0 2 R → (length h + b <= length (bl_held k0) + 2)%nat → (log_need sb T + c <= R)%nat →
  bl_room k1 b c.
Proof.
  intros (ns & Hs & Hns) Hs1 Hns1 HR Hh Hc. unfold log_need in Hc.
  eapply (room_within _ _ _ _ _ (bms sb ++ ind d :: T)); [exact (bl_step_trans _ _ _ _ _ _ _ _ _ Hs Hs1)| |done|..].
  - intros m [Hm|Hm]%elem_of_app; (destruct (Hns m Hm) as [H|[[_ H]|H]] || destruct (Hns1 m Hm) as [H|[[_ H]|H]]).
    all: apply elem_of_app; rewrite elem_of_cons; auto using elem_of_bms.
  - rewrite length_app. simpl. lia.
  - rewrite length_app. simpl. lia.
Qed.

Lemma grown_next k0 sb T d k ns1 k1 d' T' :
  grown k0 sb T d k → bl_step k (bl_view k1) (bl_held k) ns1 k1 →
  (∀ n, n ∈ ns1 → bitmap_block sb n ∨ (n ≠ 0 ∧ n = ind d') ∨ n ∈ T') →
  (ind d ≠ 0 → ind d' = ind d) → (∀ n, n ∈ T → n ∈ T') → grown k0 sb T' d' k1.
Proof.
  intros (ns & Hs & Hns) Hs1 Hns1 Hi HT. exists (ns ++ ns1). split.
  - eapply bl_step_ext; [done| |exact (bl_step_trans _ _ _ _ _ _ _ _ _ Hs Hs1)]. apply (step_held _ _ _ _ _ Hs).
  - intros n [Hn|Hn]%elem_of_app; [|auto]. destruct (Hns n Hn) as [?|[[? E]|?]]; [auto| |auto].
    right; left. rewrite Hi; [done|congruence].
Qed.

Lemma grown_step k0 sb T d k : grown k0 sb T d k → ∃ ns, bl_step k0 (bl_view k) (bl_held k0) ns k.
Proof. intros (ns & Hs & _). by exists ns. Qed.
Lemma grown_inv k0 sb T d k : grown k0 sb T d k → bl_inv k.
Proof. intros (ns & Hs & _). eauto with xv6. Qed.
Lemma grown_open k0 sb T d k : grown k0 sb T d k → bl_open k0 → bl_open k.
Proof. intros (ns & Hs & _) ?. eauto with xv6. Qed.
Lemma grown_held k0 sb T d k : grown k0 sb T d k → bl_held k ≡ₚ bl_held k0.
Proof. intros (ns & Hs & _). apply (step_held _ _ _ _ _ Hs). Qed.

(** ** bmap *)

(** Blocks that were in use for something else than a map of blocks keep their
    contents. *)
Definition keeps sb v d v' : Prop :=
  ∀ b, 0 <= b < sb_size sb → ¬ bitmap_block sb b → used sb v b = true → b ≠ ind d → v' b = v b.

Lemma keeps_trans sb S v d v1 d1 v2 :
  keeps sb v d v1 → ext sb S v d v1 d1 → keeps sb v1 d1 v2 → keeps sb v d v2.
Proof.
  intros H1 He H2 b Hr Hb Hu Hi. rewrite H2, H1; try done.
  - apply (e_used _ _ _ _ _ _ He); auto.
  - intros ->. destruct (decide (ind d = 0)) as [E|E].
    + destruct (decide (ind d1 = 0)) as [E'|E']; [congruence|].
      destruct (e_ind_new _ _ _ _ _ _ He E E'). congruence.
    + by rewrite (e_ind _ _ _ _ _ _ He) in Hi.
Qed.

Section file.
Context (f : fsst K) (ip : nat) (k0 : K) (R : nat) (S : Z → Prop).
Let i := inode_of ip f.
Let sb := fs_sb f.
Let ib := IBLOCK (i_inum i) sb.
Context (Hip : (ip < length (fs_icache f))%nat) (Hdev : i_dev i = bl_dev).
Context (Ho : bl_open k0) (HR : bl_room k0 2 R).

(** The state while writei works: the contents and the inode are others. *)
Definition at_ k d : fsst K := set_icache (<[ip := set_d d i]> (fs_icache f)) (set_k k f).

Lemma at_inode k d : inode_of ip (at_ k d) = set_d d i.
Proof. unfold inode_of, at_. simpl. by apply list_lookup_total_insert_eq. Qed.
Lemma at_start : at_ (fs_k f) (i_d i) = f.
Proof.
  unfold at_, set_icache, set_k. destruct f as [k s ic pid cwd]; simpl in *. f_equal.
  apply list_insert_id. unfold i, inode_of; simpl. rewrite (list_lookup_lookup_total_lt _ _ Hip).
  f_equal. by destruct (ic !!! ip).
Qed.
Lemma at_upd g k d : upd_d ip g (at_ k d) = Ok tt (at_ k (g d)).
Proof.
  unfold upd_d, upd_inode, modify, at_. f_equal. unfold set_icache; simpl. f_equal.
  rewrite !list_insert_alter, list_alter_alter_eq. by apply list_alter_ext.
Qed.

Record st (T : list Z) k d : Prop := {
  st_fs : fs_ok k sb ib d; st_d : dinode_ok d; st_log : grown k0 sb T d k
}.

Lemma set_addr_valid j a d : dinode_ok d → is_u32 a → 0 <= j → dinode_ok (set_addr j a d).
Proof.
  intros [? ? ? ? ? [H1 H2]] Ha Hj. split; try done. unfold set_addr; simpl. split; [by rewrite length_setZ|].
  by apply Forall_insert.
Qed.

(** No block is free. *)
Definition all_used k : Prop := ∀ n, 0 <= n < sb_size sb → used sb (bl_view k) n = true.

(** A new block for an empty place of the inode. *)
Lemma take_slot T k d bn0 :
  let j := Z.min bn0 NDIRECT in
  st T k d → 0 <= bn0 < MAXFILE → getZ (d_addrs d) j = 0 → S bn0 → (log_need sb T + 2 <= R)%nat →
  let m := addr ← balloc bl_dev; upd_d ip (set_addr j addr);; mret addr in
  (∃ a k', let d' := set_addr j a d in
     m (at_ k d) = Ok a (at_ k' d') ∧ a ≠ 0 ∧ fs_ok k' sb ib d' ∧ dinode_ok d' ∧
     (∀ T', (∀ n, n ∈ T → n ∈ T') → j = NDIRECT ∨ a ∈ T' → grown k0 sb T' d' k') ∧
     ext sb S (bl_view k) d (bl_view k') d' ∧ keeps sb (bl_view k) d (bl_view k') ∧ bl_view k' a = zero_block ∧
     ∀ bn, 0 <= bn < MAXFILE → bn ≠ bn0 → fblock (bl_view k') d' bn = fblock (bl_view k) d bn) ∨
  (∃ k', m (at_ k d) = Panic "balloc: out of blocks" (at_ k' d) ∧ all_used k' ∧
     ext sb S (bl_view k) d (bl_view k') d).
Proof.
  intros j [Hf Hd Hg] Hbn0 Hslot HS Hneed m. pose proof (proj1 (ok_addrs _ Hd)) as Hl.
  assert (0 <= j <= NDIRECT ∧ (j < NDIRECT → j = bn0)) as [Hj Hjb]
    by (unfold j; rewrite NDIRECT_eq; lia).
  assert (fblock (bl_view k) d bn0 = 0) as Hmiss.
  { unfold fblock, iblock, ind. destruct (Z.leb_spec NDIRECT bn0), (Z.ltb_spec bn0 NDIRECT); try lia; cbn [andb].
    - replace j with NDIRECT in Hslot by (unfold j; lia). by rewrite Hslot.
    - by replace j with bn0 in Hslot by (unfold j; lia). }
  clearbody j.
  destruct (balloc_take (at_ k d) sb ib) as [(a & k' & H & Ha & Hua & Hs & Hz & Hu & Hv)|(k' & H & Hs & Hu)].
  { done. } { by eapply grown_inv. } { by eapply grown_open. } { apply Hf. } { apply Hf. } { apply Hf. }
  { eapply (grown_room k0 sb T d k (bl_held k) []); [done| |by intros ? ?%elem_of_nil|exact HR| |exact Hneed].
    - apply bl_step_refl. by eapply grown_inv.
    - rewrite (grown_held _ _ _ _ _ Hg). lia. }
  2: { right. exists k'. split; [unfold m, mbind, M_bind; by rewrite H|]. split.
       - intros n Hn. unfold used. rewrite (step_view _ _ _ _ _ Hs). by apply Hu.
       - eapply ext_same; [done|]. apply (step_view _ _ _ _ _ Hs). }
  left. change (fs_k (at_ k d)) with k in *. exists a, k'. cbn zeta. set (d' := set_addr j a d).
  assert (∀ n, taken k sb ib n → n ≠ a) as Hne by (intros n Hn ->; by rewrite (tk_used _ _ _ _ Hn) in Hua).
  destruct (ok_free _ _ _ _ Hf a Ha Hua) as ((Ha0 & _) & Hab & Hai).
  assert (ind d ≠ 0 → bl_view k' (ind d) = bl_view k (ind d)) as Hvi.
  { intros Hn. pose proof (ok_ind _ _ _ _ Hf Hn) as Ht. apply Hv; [apply Ht|by apply Hne]. }
  assert (∀ bn, 0 <= bn < MAXFILE → fblock (bl_view k) d bn ≠ a) as Hbne.
  { intros bn Hbn E. apply (Hne (fblock (bl_view k) d bn)); [|done].
    apply (ok_block _ _ _ _ Hf); congruence. }
  assert (ind d ≠ a) as Hine by (intros E; apply (Hne (ind d)); [apply (ok_ind _ _ _ _ Hf)|]; congruence).
  assert (∀ bn, 0 <= bn < MAXFILE → fblock (bl_view k') d' bn = fblock (bl_view k) d bn ∨
    (bn = j ∧ j < NDIRECT ∧ fblock (bl_view k) d bn = 0 ∧ fblock (bl_view k') d' bn = a)) as Hb.
  { intros bn Hbn. unfold d'. destruct (decide (j = NDIRECT)) as [->|Hjn].
    - left. rewrite fblock_new_ind; [|done..]. by apply fblock_ext.
    - rewrite fblock_direct by lia. case_decide as E; [|left; by apply fblock_ext].
      right. subst bn. split_and!; [done|lia| |done]. unfold fblock, iblock.
      by rewrite (proj2 (Z.leb_gt _ _)), (proj2 (Z.ltb_lt _ _)) by lia. }
  assert ((j < NDIRECT ∧ ind d' = ind d) ∨ (j = NDIRECT ∧ ind d = 0 ∧ ind d' = a)) as Hi.
  { unfold d'. rewrite ind_set_addr by lia. case_decide as E; [right; by subst j|left; lia]. }
  assert (fowns (bl_view k') d' a) as Hoa.
  { split; [done|]. destruct Hi as [[E _]|(_ & _ & E)]; [|by left]. right. exists j.
    unfold d'. rewrite MAXFILE_value, fblock_direct, decide_True, NDIRECT_eq in * by (rewrite ?NDIRECT_eq in *; lia || done). lia. }
  assert (is_u32 a) as Ha32 by (unfold is_u32; pose proof (ok_sb _ _ _ _ Hf); lia).
  assert (fs_ok k' sb ib d') as Hf'.
  { apply (fs_ok_step k sb ib d (bl_view k') [BBLOCK a sb; a] k' d' (λ n, n = a)); try done.
    - by intros n ->.
    - intros bn Hbn. destruct (Hb bn Hbn) as [?|(_ & _ & _ & ?)]; auto.
    - intros bn bn' Hbn Hbn' E1 E2. specialize (Hbne bn Hbn) as N1. specialize (Hbne bn' Hbn') as N2.
      destruct (Hb bn Hbn) as [E|(-> & _)], (Hb bn' Hbn') as [E'|(-> & _)]; congruence.
    - destruct Hi as [[_ ?]|(_ & _ & ?)]; auto.
    - intros bn Hbn E E'. specialize (Hbne bn Hbn).
      destruct (Hb bn Hbn) as [E1|(_ & Hlt & _)]; [congruence|].
      destruct Hi as [[_ E2]|(E2 & _)]; [congruence|lia]. }
  split_and!; [|done|done|apply set_addr_valid; [done..|lia]|..].
  - unfold m. rewrite (bind_run _ _ _ _ _ H). change (set_k k' (at_ k d)) with (at_ k' d). by rewrite (bind_run _ _ _ _ _ (at_upd _ _ _)).
  - intros T' HT HT'. eapply grown_next; [done|exact Hs| | |done].
    + intros n [->|[->|[]%elem_of_nil]%elem_of_cons]%elem_of_cons; [left; by exists a|].
      destruct HT' as [->|?]; [|auto]. destruct Hi as [[? _]|(_ & _ & ->)]; [lia|auto].
    + intros Hn. destruct Hi as [[_ ?]|(_ & ? & _)]; done.
  - split.
    + done.
    + intros Hall. by destruct (Hall bn0 Hbn0 HS).
    + intros bn Hbn Hor. destruct (Hb bn Hbn) as [?|(-> & Hlt & E & _)]; [done|].
      destruct Hor as [Hor|]; [|done]. by rewrite (Hjb Hlt) in Hor.
    + intros Hn. destruct Hi as [[_ ?]|(_ & ? & _)]; done.
    + intros H0 Hn. destruct Hi as [[_ ?]|(_ & _ & ->)]; [congruence|done].
    + intros n Hn. rewrite Hu by done. split; [intros [?| ->]; auto|]. intros [?|Hn']; [auto|].
      destruct Hn' as [Hn0 [E|(bn & Hbn & E)]].
      * destruct Hi as [[_ E2]|(_ & _ & E2)]; [left|right; congruence]. 
        rewrite E, E2 in *. apply (tk_used _ _ _ _ (ok_ind _ _ _ _ Hf Hn0)).
      * destruct (Hb bn Hbn) as [E2|(_ & _ & _ & E2)]; [left|right; congruence].
        rewrite E, E2 in *. apply (tk_used _ _ _ _ (ok_block _ _ _ _ Hf bn Hbn Hn0)).
    + intros b Hbb Hbo. apply Hv; [done|]. by intros ->.
  - intros b _ Hbb Hbu _. apply Hv; [done|]. intros ->. congruence.
  - done.
  - intros bn Hbn Hn. destruct (Hb bn Hbn) as [?|(E & Hlt & _)]; [done|]. destruct Hn. rewrite E. auto.
Qed.

Lemma at_kk {A} (m : M K A) k d a k' : m k = Ok a k' → kk m (at_ k d) = Ok a (at_ k' d).
Proof. intros H. by rewrite (kk_run m (at_ k d) a k' H). Qed.

Lemma grown_mono T T' d k : grown k0 sb T d k → (∀ n, n ∈ T → n ∈ T') → grown k0 sb T' d k.
Proof. intros (ns & Hs & Hns) HT. exists ns. split; [done|]. intros n Hn. destruct (Hns n Hn) as [?|[?|?]]; auto. Qed.

(** What bmap promises of block [bn]: it is at [a] now. *)
Record bmapped T k d bn a k' d' : Prop := {
  bm_block : fblock (bl_view k') d' bn = a;
  bm_nonzero : a ≠ 0;
  bm_st : st (T ++ [a]) k' d';
  bm_ext : ext sb S (bl_view k) d (bl_view k') d';
  bm_keeps : keeps sb (bl_view k) d (bl_view k');
  bm_zero : fblock (bl_view k) d bn = 0 → bl_view k' a = zero_block;
  bm_other : ∀ bn', 0 <= bn' < MAXFILE → bn' ≠ bn → fblock (bl_view k') d' bn' = fblock (bl_view k) d bn'
}.

(** The block was there. *)
Lemma bmapped_same T k d bn k' :
  st T k d → 0 <= bn < MAXFILE → fblock (bl_view k) d bn ≠ 0 →
  bl_step k (bl_view k) (bl_held k) [] k' → bmapped T k d bn (fblock (bl_view k) d bn) k' d.
Proof.
  intros [Hf Hd Hg] Hbn Hn Hs. pose proof (step_view _ _ _ _ _ Hs) as Hv.
  assert (fs_ok k' sb ib d) as Hf'.
  { apply (fs_ok_step k sb ib d (bl_view k) [] k' d (λ _, False)); try done; tauto. }
  split; [|done| | | |done|].
  - by apply fblock_ext.
  - split; [done|done|]. eapply grown_next; [done| | |done|].
    + eapply bl_step_ext; [|reflexivity|exact Hs]. done.
    + by intros ? ?%elem_of_nil.
    + intros m Hm. apply elem_of_app. by left.
  - by eapply ext_same.
  - intros b _ _ _ _. apply Hv.
  - intros bn' _ _. by apply fblock_ext.
Qed.

(** The indirect block, made if there is none. *)
Lemma ind_run T k d bn :
  st T k d → NDIRECT <= bn < MAXFILE → S bn → (log_need sb T + 2 <= R)%nat →
  let m := if ind d =? 0
           then addr ← balloc bl_dev; upd_d ip (set_addr NDIRECT addr);; mret addr
           else mret (ind d) in
  (∃ k' d', m (at_ k d) = Ok (ind d') (at_ k' d') ∧ ind d' ≠ 0 ∧ st T k' d' ∧
     ext sb S (bl_view k) d (bl_view k') d' ∧ keeps sb (bl_view k) d (bl_view k') ∧
     ∀ bn', 0 <= bn' < MAXFILE → fblock (bl_view k') d' bn' = fblock (bl_view k) d bn') ∨
  (∃ k' d', m (at_ k d) = Panic "balloc: out of blocks" (at_ k' d') ∧ all_used k' ∧
     ext sb S (bl_view k) d (bl_view k') d' ∧ fblock (bl_view k) d bn = 0).
Proof.
  intros Hst Hbn HS Hneed m. unfold m. destruct (Z.eqb_spec (ind d) 0) as [H0|H0].
  2: { left. exists k, d. split_and!; try done. by eapply ext_unchanged, Hst. }
  assert (0 <= bn < MAXFILE) as Hbn' by (rewrite NDIRECT_eq in Hbn; lia).
  pose proof (take_slot T k d bn Hst Hbn') as H. rewrite Z.min_r in H by lia.
  destruct (H H0 HS Hneed) as [(a & k' & Hr & Ha & Hf & Hd & Hg & He & Hk & Hz & _)|(k' & Hr & Hu & He)].
  - pose proof (proj1 (ok_addrs _ (st_d _ _ _ Hst))) as Hl.
    left. exists k', (set_addr NDIRECT a d). rewrite ind_set_addr, decide_True by (rewrite ?NDIRECT_eq; done || lia).
    split_and!; try done; [split; [done..|]; apply Hg; auto|].
    intros bn' Hb'. rewrite fblock_new_ind by done. by apply fblock_ext.
  - right. exists k', d. split_and!; [done..|]. unfold fblock.
    by rewrite H0, (proj2 (Z.leb_le _ _)) by lia.
Qed.

(** The entry of the indirect block. *)
Definition leaf bn (addr : Z) : M (fsst K) Z :=
  b ← kk (bl_bread (i_dev i) addr);
  x ← gets (λ f, bl_data b (fs_k f));
  let addr := getw 4 x (Z.to_nat (4 * (bn - NDIRECT))) in
  addr ← (if addr =? 0 then
            addr ← balloc (i_dev i);
            kk (bl_upd b (λ x, putw 4 x (Z.to_nat (4 * (bn - NDIRECT))) addr);; bl_log_write b);;
            mret addr
          else mret addr);
  kk (bl_brelse b);;
  mret addr.

(** A new block for an empty entry, with the buffer [b] of the indirect block held. *)
Lemma take_leaf T k d bn b k1 :
  st T k d → ind d ≠ 0 → NDIRECT <= bn < MAXFILE → (log_need sb T + 2 <= R)%nat →
  fblock (bl_view k) d bn = 0 →
  bl_step k (bl_view k) ((b, ind d) :: bl_held k) [] k1 →
  let m := addr ← balloc bl_dev;
           kk (bl_upd b (λ x, putw 4 x (Z.to_nat (4 * (bn - NDIRECT))) addr);; bl_log_write b);;
           mret addr in
  (∃ a k3, m (at_ k1 d) = Ok a (at_ k3 d) ∧ a ≠ 0 ∧ 0 <= a < sb_size sb ∧ used sb (bl_view k) a = false ∧
     bl_stable k3 (ind d) ∧
     bl_step k (bl_view k3) ((b, ind d) :: bl_held k) [BBLOCK a sb; a; ind d] k3 ∧
     bl_view k3 a = zero_block ∧
     bl_view k3 (ind d) = putw 4 (bl_view k (ind d)) (Z.to_nat (4 * (bn - NDIRECT))) a ∧
     (∀ n, 0 <= n < sb_size sb → used sb (bl_view k3) n = true ↔ used sb (bl_view k) n = true ∨ n = a) ∧
     (∀ c, ¬ bitmap_block sb c → c ≠ a → c ≠ ind d → bl_view k3 c = bl_view k c)) ∨
  (∃ k', m (at_ k1 d) = Panic "balloc: out of blocks" (at_ k' d) ∧ all_used k' ∧
     ext sb S (bl_view k) d (bl_view k') d).
Proof.
  intros [Hf Hd Hg] Hi Hbn Hneed Hmiss Hs1 m. pose proof (step_view _ _ _ _ _ Hs1) as Hv1.
  pose proof (ok_ind _ _ _ _ Hf Hi) as Hti. rewrite NDIRECT_eq, MAXFILE_value in Hbn.
  assert (∀ n, used sb (bl_view k1) n = used sb (bl_view k) n) as Hu1 by (intros; unfold used; by rewrite Hv1).
  assert (∀ n, n ≠ ind d → n ∉ (bl_held k).*2 → n ∉ (bl_held k1).*2) as Hh1.
  { intros n Hn Hnh. rewrite (step_held _ _ _ _ _ Hs1). simpl. rewrite elem_of_cons. tauto. }
  assert (bl_step k (bl_view k1) ((b, ind d) :: bl_held k) [] k1) as Hs1'
    by (eapply bl_step_ext; [|reflexivity|exact Hs1]; done).
  destruct (balloc_take (at_ k1 d) sb ib) as [(a & k2 & H & Ha & Hua & Hs2 & Hz & Hu & Hv)|(k' & H & Hs & Hu)];
    change (fs_k (at_ k1 d)) with k1 in *.
  { done. } { eauto with xv6. } { eapply step_open; [exact Hs1|]. by eapply grown_open. } { apply Hf. }
  { intros n Hn. destruct (ok_bitmap _ _ _ _ Hf n Hn) as [B1 B2]. split; [eauto with xv6|].
    apply Hh1; [|done]. intros E. apply (tk_bitmap _ _ _ _ Hti). rewrite <-E. by exists n. }
  { intros n Hn. rewrite Hu1. intros Hn0. destruct (ok_free _ _ _ _ Hf n Hn Hn0) as ((F1 & F2 & F3) & F4 & F5).
    split; [|done]. split; [done|]. split; [eauto with xv6|]. apply Hh1; [|done].
    intros ->. by rewrite (tk_used _ _ _ _ Hti) in Hn0. }
  { eapply (grown_room k0 sb T d k); [done|exact Hs1'|by intros ? ?%elem_of_nil|exact HR| |exact Hneed].
    simpl. rewrite (grown_held _ _ _ _ _ Hg). lia. }
  2: { right. exists k'. split; [unfold m, mbind, M_bind; by rewrite H|]. split.
       - intros n Hn. unfold used. rewrite (step_view _ _ _ _ _ Hs). by apply Hu.
       - eapply ext_same; [done|]. intros c. rewrite (step_view _ _ _ _ _ Hs). apply Hv1. }
  left. rewrite Hu1 in Hua. destruct (ok_free _ _ _ _ Hf a Ha Hua) as ((Ha0 & _) & Hab & Hai).
  assert (ind d ≠ a) as Hia by (intros <-; by rewrite (tk_used _ _ _ _ Hti) in Hua).
  assert (bl_view k2 (ind d) = bl_view k (ind d)) as Hvi by (rewrite Hv; [apply Hv1|apply Hti|done]).
  assert (bl_step k (bl_view k2) ((b, ind d) :: bl_held k) [BBLOCK a sb; a] k2) as Hs12.
  { eapply bl_step_ext; [done| |exact (bl_step_trans _ _ _ _ _ _ _ _ _ Hs1 Hs2)]. apply (step_held _ _ _ _ _ Hs1). }
  destruct (upd_log_spec k2 b (ind d) (λ x, putw 4 x (Z.to_nat (4 * (bn - NDIRECT))) a)) as (k3 & H3 & Hs3 & Hst3).
  { eauto with xv6. } { eapply step_open; [exact Hs12|]. by eapply grown_open. }
  { eapply step_block; [exact Hs12|]. apply Hti. } { eapply step_is_held; [exact Hs12|]. by left. }
  { assert (bl_room k2 0 1) as [_ ?]; [|lia].
    eapply (grown_room k0 sb (T ++ [a]) d k); [|exact Hs12| |exact HR| |].
    - eapply grown_mono; [done|]. intros n Hn. apply elem_of_app. by left.
    - intros n [->|[->|[]%elem_of_nil]%elem_of_cons]%elem_of_cons; [left; by exists a|].
      right; right. apply elem_of_app. right. by left.
    - simpl. rewrite (grown_held _ _ _ _ _ Hg). lia.
    - unfold log_need in *. rewrite length_app. simpl. lia. }
  { assert (length (bl_view k2 (ind d)) = BSIZE) as Hl by (apply bl_length; eauto with xv6).
    rewrite length_putw; rewrite Hl; [done|]. rewrite NDIRECT_eq. unfold BSIZE. lia. }
  pose proof (step_view _ _ _ _ _ Hs3) as Hv3.
  exists a, k3. split.
  { unfold m. rewrite (bind_run _ _ _ _ _ H). change (set_k k2 (at_ k1 d)) with (at_ k2 d).
    by rewrite (bind_run _ _ _ _ _ (at_kk _ k2 d tt k3 H3)). }
  split; [done|]. split; [done|]. split_and!; try done.
  - eapply bl_step_ext; [intros c; symmetry; apply Hv3| |exact (bl_step_trans _ _ _ _ _ _ _ _ _ Hs12 Hs3)].
    apply (step_held _ _ _ _ _ Hs12).
  - rewrite Hv3, fupd_ne by done. done.
  - rewrite Hv3, fupd_eq, Hvi. done.
  - intros n Hn. rewrite <-Hu1, <-Hu by done. unfold used. rewrite Hv3, fupd_ne; [done|].
    intros E. apply (tk_bitmap _ _ _ _ Hti). rewrite <-E. by exists n.
  - intros c C1 C2 C3. rewrite Hv3, fupd_ne, Hv by done. apply Hv1.
Qed.

(** The state after it. *)
Lemma leaf_mapped T k d bn a k' :
  st T k d → ind d ≠ 0 → NDIRECT <= bn < MAXFILE → S bn → fblock (bl_view k) d bn = 0 →
  a ≠ 0 → 0 <= a < sb_size sb → used sb (bl_view k) a = false →
  bl_step k (bl_view k') (bl_held k) [BBLOCK a sb; a; ind d] k' → bl_view k' a = zero_block →
  bl_view k' (ind d) = putw 4 (bl_view k (ind d)) (Z.to_nat (4 * (bn - NDIRECT))) a →
  (∀ n, 0 <= n < sb_size sb → used sb (bl_view k') n = true ↔ used sb (bl_view k) n = true ∨ n = a) →
  (∀ c, ¬ bitmap_block sb c → c ≠ a → c ≠ ind d → bl_view k' c = bl_view k c) →
  bmapped T k d bn a k' d.
Proof.
  intros [Hf Hd Hg] Hi Hbn HS Hmiss Ha0 Ha Hua Hs Hz Hleaf Hu Hv.
  assert (0 <= bn < MAXFILE) as Hbn' by (rewrite NDIRECT_eq in Hbn; lia).
  assert (∀ n, taken k sb ib n → n ≠ a) as Hne by (intros n Hn ->; by rewrite (tk_used _ _ _ _ Hn) in Hua).
  assert (∀ bn', 0 <= bn' < MAXFILE → fblock (bl_view k) d bn' ≠ a) as Hbne.
  { intros bn' Hb E. apply (Hne (fblock (bl_view k) d bn')); [|done].
    apply (ok_block _ _ _ _ Hf); congruence. }
  pose proof (Hne _ (ok_ind _ _ _ _ Hf Hi)) as Hia.
  assert (∀ bn', 0 <= bn' < MAXFILE →
    fblock (bl_view k') d bn' = if decide (bn' = bn) then a else fblock (bl_view k) d bn') as Hb.
  { intros bn' Hb. apply fblock_leaf; try done.
    - unfold is_u32. pose proof (ok_sb _ _ _ _ Hf). lia.
    - apply bl_length. by eapply grown_inv. }
  assert (fs_ok k' sb ib d) as Hf'.
  { apply (fs_ok_step k sb ib d (bl_view k') _ k' d (λ n, n = a) Hf Hs); try done.
    - by intros n ->.
    - intros bn' Hb'. rewrite Hb by done. case_decide; auto.
    - intros b1 b2 H1 H2. specialize (Hbne b1 H1) as N1. specialize (Hbne b2 H2) as N2.
      rewrite !Hb by done. repeat case_decide; congruence.
    - by left.
    - intros bn' Hb' ->. done. }
  assert (fowns (bl_view k') d a) as Hoa.
  { split; [done|]. right. exists bn. by rewrite Hb, decide_True. }
  split; try done.
  - by rewrite Hb, decide_True.
  - split; [done..|]. eapply grown_next; [exact Hg|exact Hs| |done|].
    + intros n [->|[->|[->|[]%elem_of_nil]%elem_of_cons]%elem_of_cons]%elem_of_cons; [left; by exists a| |auto].
      right; right. apply elem_of_app. right. by left.
    + intros n Hn. apply elem_of_app. by left.
  - split; try done.
    + by destruct d.
    + intros bn' Hb' Hor. rewrite Hb by done. case_decide; [|done]. subst bn'. by destruct Hor.
    + intros n Hn. rewrite Hu by done. split; [intros [?| ->]; auto|]. intros [?|[Hn0 [E|(bn' & Hb' & E)]]]; [auto|..].
      * left. rewrite E in *. apply (tk_used _ _ _ _ (ok_ind _ _ _ _ Hf Hn0)).
      * rewrite Hb in E by done. case_decide; [by right|left]. rewrite E in *.
        apply (tk_used _ _ _ _ (ok_block _ _ _ _ Hf bn' Hb' Hn0)).
    + intros c Hc Hco. apply Hv; [done| |]; intros ->; [done|]. apply Hco. split; [done|by left].
  - intros c _ Hc Hcu Hci. apply Hv; [done| |done]. by intros ->; rewrite Hua in Hcu.
  - intros bn' Hb' Hn. by rewrite Hb, decide_False.
Qed.

Lemma leaf_run T k d bn :
  st T k d → ind d ≠ 0 → NDIRECT <= bn < MAXFILE → S bn → (log_need sb T + 2 <= R)%nat →
  (∃ a k', leaf bn (ind d) (at_ k d) = Ok a (at_ k' d) ∧ bmapped T k d bn a k' d) ∨
  (∃ k', leaf bn (ind d) (at_ k d) = Panic "balloc: out of blocks" (at_ k' d) ∧ all_used k' ∧
     ext sb S (bl_view k) d (bl_view k') d ∧ fblock (bl_view k) d bn = 0).
Proof.
  intros Hst Hi Hbn HS Hneed. destruct (Hst) as [Hf Hd Hg].
  assert (0 <= bn < MAXFILE) as Hbn' by (rewrite NDIRECT_eq in Hbn; lia).
  pose proof (ok_ind _ _ _ _ Hf Hi) as Hti. destruct (tk_usable _ _ _ _ Hti) as (_ & Hu1 & Hu2).
  destruct (bread_step k (ind d)) as (b & k1 & H1 & Hs1 & Hst1); [by eapply grown_inv|done|done| |].
  { eapply (grown_room k0 sb T d k (bl_held k) []); [done| |by intros ? ?%elem_of_nil|exact HR| |].
    - apply bl_step_refl. by eapply grown_inv.
    - rewrite (grown_held _ _ _ _ _ Hg). lia.
    - lia. }
  assert (bl_data b k1 = bl_view k (ind d)) as Hbd.
  { rewrite (bl_held_data k1 b (ind d)); [apply (step_view _ _ _ _ _ Hs1)|eauto with xv6|].
    apply (step_is_held _ _ _ _ _ _ Hs1). by left. }
  assert (getw 4 (bl_view k (ind d)) (Z.to_nat (4 * (bn - NDIRECT))) = fblock (bl_view k) d bn) as Hg4.
  { unfold fblock, iblock. rewrite (proj2 (Z.eqb_neq _ _) Hi), andb_false_r.
    by rewrite (proj2 (Z.ltb_ge _ _)) by lia. }
  unfold leaf. rewrite Hdev, (bind_run _ _ _ _ _ (at_kk _ k d b k1 H1)). run.
  change (fs_k (at_ k1 d)) with k1. rewrite Hbd, Hg4.
  destruct (Z.eqb_spec (fblock (bl_view k) d bn) 0) as [Hmiss|Hn].
  - destruct (take_leaf T k d bn b k1 Hst Hi Hbn Hneed Hmiss Hs1)
      as [(a & k3 & H3 & Ha0 & Ha & Hua & Hst3 & Hs3 & Hz & Hl & Hu & Hv)|(k' & H3 & Hu & He)].
    2: { right. exists k'. split; [|done]. unfold mbind at 1, M_bind at 1. by rewrite H3. }
    destruct (brelse_step k3 b (ind d) (bl_held k)) as (k4 & H4 & Hs4);
      [eauto with xv6|exact (step_held _ _ _ _ _ Hs3)|done|]. pose proof (step_view _ _ _ _ _ Hs4) as Hv4.
    left. exists a, k4. split.
    { rewrite (bind_run _ _ _ _ _ H3). by rewrite (bind_run _ _ _ _ _ (at_kk _ k3 d tt k4 H4)). }
    apply leaf_mapped; rewrite ?Hv4; try done.
    + eapply bl_step_ext; [|reflexivity|exact (bl_step_trans _ _ _ _ _ _ _ _ _ Hs3 Hs4)]. done.
    + intros n Hn. rewrite <-Hu by done. unfold used. by rewrite Hv4.
    + intros c C1 C2 C3. rewrite Hv4. auto.
  - destruct (brelse_step k1 b (ind d) (bl_held k)) as (k2 & H2 & Hs2);
      [eauto with xv6|exact (step_held _ _ _ _ _ Hs1)|done|].
    left. exists (fblock (bl_view k) d bn), k2. split.
    { run. by rewrite (bind_run _ _ _ _ _ (at_kk _ k1 d tt k2 H2)). }
    apply bmapped_same; try done.
    eapply bl_step_ext; [|reflexivity|exact (bl_step_trans _ _ _ _ _ _ _ _ _ Hs1 Hs2)].
    apply (step_view _ _ _ _ _ Hs1).
Qed.

(** bmap returns the block, allocated if it was missing, or panics because no
    block is free. *)
Lemma bmap_grow T k d bn :
  st T k d → 0 <= bn < MAXFILE → S bn → (log_need sb T + 2 <= R)%nat →
  (∃ a k' d', bmap ip bn (at_ k d) = Ok a (at_ k' d') ∧ bmapped T k d bn a k' d') ∨
  (∃ k' d', bmap ip bn (at_ k d) = Panic "balloc: out of blocks" (at_ k' d') ∧ all_used k' ∧
     ext sb S (bl_view k) d (bl_view k') d' ∧ fblock (bl_view k) d bn = 0).
Proof.
  intros Hst Hbn HS Hneed. unfold bmap. run. rewrite at_inode. cbn [i_d i_dev set_d]. rewrite Hdev.
  destruct (Z.ltb_spec bn NDIRECT) as [Hlt|Hge].
  - assert (fblock (bl_view k) d bn = getZ (d_addrs d) bn) as Hfb.
    { unfold fblock, iblock. by rewrite (proj2 (Z.leb_gt _ _)), (proj2 (Z.ltb_lt _ _)) by lia. }
    destruct (Z.eqb_spec (getZ (d_addrs d) bn) 0) as [H0|Hn].
    + pose proof (take_slot T k d bn Hst Hbn) as H. rewrite Z.min_l in H by lia. destruct Hst as [Hf Hd Hg].
      destruct (H H0 HS Hneed) as [(a & k' & Hr & Ha & Hf' & Hd' & Hg' & He & Hk & Hz & Hoth)|(k' & Hr & Hu & He)].
      2: { right. exists k', d. split_and!; [done..|]. by rewrite Hfb. }
      left. exists a, k', (set_addr bn a d). split; [done|].
      pose proof (proj1 (ok_addrs _ Hd)) as Hl. split; try done.
      * by rewrite fblock_direct, decide_True by (done || lia).
      * split; [done..|]. apply Hg'; [intros n ?; apply elem_of_app; by left|].
        right. apply elem_of_app. right. by left.
    + left. exists (getZ (d_addrs d) bn), k, d. split; [done|]. rewrite <-Hfb in *.
      apply bmapped_same; try done. apply bl_step_refl. by eapply grown_inv, Hst.
  - rewrite (proj2 (Z.ltb_lt (bn - NDIRECT) NINDIRECT)) by (unfold MAXFILE in Hbn; lia). fold (ind d).
    destruct (ind_run T k d bn Hst) as [(k1 & d1 & H1 & Hi & Hst1 & He & Hk & Hb)|(k' & d' & H1 & Hu & He & Hb)]; [lia|done..| |].
    2: { right. exists k', d'. split; [|done]. unfold mbind at 1, M_bind at 1. by rewrite H1. }
    rewrite (bind_run _ _ _ _ _ H1). fold (leaf bn (ind d1)).
    destruct (leaf_run T k1 d1 bn Hst1 Hi) as [(a & k2 & H2 & [M1 M2 M3 M4 M5 M6 M7])|(k' & H2 & Hu & He' & Hm)]; [lia|done|done| |].
    2: { right. exists k', d1. split_and!; [by rewrite <-Hdev|done|by eapply ext_both|by rewrite <-Hb]. }
    left. exists a, k2, d1. split; [by rewrite <-Hdev|]. split; [done..| | | |].
    + by eapply ext_both.
    + by eapply keeps_trans.
    + intros Hm. apply M6. by rewrite Hb.
    + intros bn' Hb' Hn. rewrite M7 by done. by apply Hb.
Qed.

(** ** Bytes *)

(** bmap leaves the bytes alone. *)
Lemma bmapped_content T k d bn a k' d' o :
  fs_ok k sb ib d → bmapped T k d bn a k' d' → 0 <= o < MAXFILE * BSZ →
  fcontent (bl_view k') d' o = fcontent (bl_view k) d o.
Proof.
  intros Hf [M1 M2 M3 M4 M5 M6 M7] Ho'%block_of. unfold fcontent. set (b := o / BSZ) in *.
  destruct (Z.eqb_spec (fblock (bl_view k) d b) 0) as [E|E].
  - destruct (decide (b = bn)) as [->|Hn].
    + rewrite M1, (M6 E), (proj2 (Z.eqb_neq _ _) M2). apply getZ_zero_block.
    + by rewrite M7, E.
  - rewrite (e_block _ _ _ _ _ _ M4) by auto. rewrite (proj2 (Z.eqb_neq _ _) E). f_equal.
    destruct (ok_block _ _ _ _ Hf b Ho' E). apply M5; try done. by apply (ok_sep _ _ _ _ Hf).
Qed.

(** The bytes [src] go into block [a] at [off]. *)
Lemma put_bytes T k d bn off src k' :
  let a := fblock (bl_view k) d bn in
  st T k d → 0 <= bn < MAXFILE → S bn → a ≠ 0 → a ∈ T → bn = off / BSZ → 0 <= off →
  off mod BSZ + Z.of_nat (length src) <= BSZ →
  bl_step k (fupd (bl_view k) a (splice (bl_view k a) (Z.to_nat (off mod BSZ)) src)) (bl_held k) [a] k' →
  st T k' d ∧ ext sb S (bl_view k) d (bl_view k') d ∧
  (∀ bn', fblock (bl_view k') d bn' = fblock (bl_view k) d bn') ∧
  ∀ o, 0 <= o < MAXFILE * BSZ → fcontent (bl_view k') d o =
    if decide (off <= o < off + Z.of_nat (length src)) then getZ src (o - off) else fcontent (bl_view k) d o.
Proof.
  intros a [Hf Hd Hg] Hbn HS Ha HaT Hoff Hoff0 Hlen Hs. pose proof (step_view _ _ _ _ _ Hs) as Hv.
  pose proof (ok_block _ _ _ _ Hf bn Hbn Ha) as Hta. pose proof (ok_sep _ _ _ _ Hf bn Hbn Ha) as Hai.
  fold a in Hta, Hai.
  set (v' := fupd _ _ _) in Hs, Hv.
  assert (∀ bn', fblock v' d bn' = fblock (bl_view k) d bn') as Hb'.
  { intros. apply fblock_ext. intros _. apply fupd_ne. congruence. }
  assert (∀ bn', fblock (bl_view k') d bn' = fblock (bl_view k) d bn') as Hb.
  { intros. rewrite <-Hb'. by apply fblock_ext. }
  assert (∀ n, 0 <= n < sb_size sb → used sb v' n = used sb (bl_view k) n) as Hu'.
  { intros n Hn. unfold used. unfold v'. rewrite fupd_ne; [done|]. intros E. apply (tk_bitmap _ _ _ _ Hta). by exists n. }
  assert (fs_ok k' sb ib d) as Hf'.
  { apply (fs_ok_step k sb ib d v' [a] k' d (λ _, False) Hf Hs); try done; try tauto.
    - intros n Hn. rewrite Hu' by done. tauto.
    - intros bn' _. left. apply Hb'. }
  split_and!; [| |done|].
  - split; [done..|]. eapply grown_next; [exact Hg| | |done|done].
    + eapply bl_step_ext; [|reflexivity|exact Hs]. done.
    + intros n [->|[]%elem_of_nil]%elem_of_cons. auto.
  - pose proof (ext_unchanged sb S k' ib d Hf') as [A1 A2 A3 A4 A5 A6 A7]. split; try done.
    + intros n Hn. rewrite A6 by done. rewrite <-Hu' by done. unfold used. by rewrite Hv.
    + intros b Hbb Hbo. rewrite Hv. apply fupd_ne. intros ->. apply Hbo. split; [done|]. right. exists bn. by rewrite Hb.
  - intros o Ho'. pose proof (block_of o Ho') as Hbo. unfold fcontent. rewrite Hb. rewrite !Hv.
    assert (length (bl_view k a) = BSIZE) as Hl by (apply bl_length; by eapply grown_inv).
    destruct (decide (o / BSZ = bn)) as [E|E].
    + rewrite E. fold a. rewrite (proj2 (Z.eqb_neq _ _) Ha). unfold v'. rewrite fupd_eq.
      rewrite BSZ_eq in *. unfold getZ. rewrite !list_lookup_total_alt, lookup_splice
        by (rewrite Hl; unfold BSIZE; pose proof (Z.mod_pos_bound off 512); lia).
      repeat case_decide; try done; try (exfalso; Z.to_euclidean_division_equations; lia).
      do 2 f_equal. Z.to_euclidean_division_equations; lia.
    + rewrite decide_False.
      2: { intros Hr. apply E. subst bn. rewrite BSZ_eq in *. Z.to_euclidean_division_equations; lia. }
      destruct (Z.eqb_spec (fblock (bl_view k) d (o / BSZ)) 0) as [|En]; [done|]. unfold v'. rewrite fupd_ne; [done|].
      intros Ea. apply E. by apply (ok_inj _ _ _ _ Hf).
Qed.

(** One round of writei's loop. *)
Definition round off (m : Z) (src : list Z) : M (fsst K) unit :=
  a ← bmap ip (off / BSZ);
  kk (b ← bl_bread (i_dev i) a;
      bl_upd b (λ x, splice x (Z.to_nat (off mod BSZ)) src);;
      bl_log_write b;;
      bl_brelse b).

Lemma round_run T k d off src :
  let m := Z.of_nat (length src) in
  st T k d → 0 <= off < MAXFILE * BSZ → S (off / BSZ) → off mod BSZ + m <= BSZ → (log_need sb T + 2 <= R)%nat →
  (∃ k' d' a, round off m src (at_ k d) = Ok tt (at_ k' d') ∧ st (T ++ [a]) k' d' ∧
     ext sb S (bl_view k) d (bl_view k') d' ∧ fblock (bl_view k') d' (off / BSZ) ≠ 0 ∧
     ∀ o, 0 <= o < MAXFILE * BSZ → fcontent (bl_view k') d' o =
       if decide (off <= o < off + m) then getZ src (o - off) else fcontent (bl_view k) d o) ∨
  (∃ k' d', round off m src (at_ k d) = Panic "balloc: out of blocks" (at_ k' d') ∧ all_used k' ∧
     ext sb S (bl_view k) d (bl_view k') d' ∧ fblock (bl_view k) d (off / BSZ) = 0).
Proof.
  intros m Hst Hoff HS Hm Hneed. pose proof (block_of off Hoff) as Hbn.
  destruct (bmap_grow T k d (off / BSZ) Hst Hbn HS Hneed) as [(a & k1 & d1 & H1 & Hbm)|(k' & d' & H1 & Hu & He & Hb)].
  2: { right. exists k', d'. split; [|done]. unfold round, mbind at 1, M_bind at 1. by rewrite H1. }
  left. pose proof (λ o, bmapped_content T k d _ a k1 d1 o (st_fs _ _ _ Hst) Hbm) as Hc1.
  destruct Hbm as [M1 M2 M3 M4 _ _ _]. destruct (M3) as [Hf1 Hd1 Hg1].
  pose proof (ok_block _ _ _ _ Hf1 (off / BSZ) Hbn ltac:(congruence)) as Hta. rewrite M1 in Hta.
  destruct (tk_usable _ _ _ _ Hta) as (_ & Hu1 & Hu2).
  destruct (modify_spec k1 a (λ x, splice x (Z.to_nat (off mod BSZ)) src)) as (k2 & H2 & Hs2);
    [by eapply grown_inv|by eapply grown_open|done|done| | |].
  { eapply (grown_room k0 sb (T ++ [a]) d1 k1 (bl_held k1) []); [done| |by intros ? ?%elem_of_nil|exact HR| |].
    - apply bl_step_refl. by eapply grown_inv.
    - rewrite (grown_held _ _ _ _ _ Hg1). lia.
    - unfold log_need in *. rewrite length_app. simpl. lia. }
  { assert (length (bl_view k1 a) = BSIZE) as Hl by (apply bl_length; by eapply grown_inv).
    unfold BSZ in *. rewrite length_splice; rewrite Hl; [done|].
    pose proof (Z.mod_pos_bound off (Z.of_nat BSIZE)). unfold BSIZE in *. lia. }
  rewrite <-M1 in Hs2.
  destruct (put_bytes (T ++ [a]) k1 d1 (off / BSZ) off src k2 M3 Hbn HS) as (P1 & P2 & P3 & P4); rewrite ?M1; try done; try lia.
  { apply elem_of_app. right. by left. } { by rewrite M1 in Hs2. }
  exists k2, d1, a. split_and!; [|done|by eapply ext_both|by rewrite P3, M1|].
  - unfold round. rewrite (bind_run _ _ _ _ _ H1), Hdev. by apply at_kk.
  - intros o Ho'. rewrite P4 by done. fold m. case_decide; [done|]. by apply Hc1.
Qed.

Lemma writei_loop_grow : ∀ fuel T k d tot off n src,
  st T k d → 0 <= off → 0 <= tot <= n → n - tot < Z.of_nat fuel →
  Z.of_nat (length src) = n - tot → off + (n - tot) <= MAXFILE * BSZ →
  (∀ bn, covers off (n - tot) bn → S bn) →
  (log_need sb T + touched off (n - tot) + 1 <= R)%nat →
  (∃ k' d' T', writei_loop fuel ip tot off n src (at_ k d) = Ok (off + (n - tot)) (at_ k' d') ∧
     st T' k' d' ∧ (length T' = length T + touched off (n - tot))%nat ∧
     ext sb S (bl_view k) d (bl_view k') d' ∧
     (∀ bn, covers off (n - tot) bn → fblock (bl_view k') d' bn ≠ 0) ∧
     ∀ o, 0 <= o < MAXFILE * BSZ → fcontent (bl_view k') d' o =
       if decide (off <= o < off + (n - tot)) then getZ src (o - off) else fcontent (bl_view k) d o) ∨
  (∃ k' d' bn, writei_loop fuel ip tot off n src (at_ k d) = Panic "balloc: out of blocks" (at_ k' d') ∧
     all_used k' ∧ ext sb S (bl_view k) d (bl_view k') d' ∧ covers off (n - tot) bn ∧ fblock (bl_view k) d bn = 0).
Proof.
  induction fuel as [|fuel IH]; intros T k d tot off n src Hst Hoff Htot Hfuel Hsrc Hmax HS Hneed; [lia|].
  cbn [writei_loop]. destruct (Z.ltb_spec tot n) as [Hlt|Hge].
  2: { left. replace (n - tot) with 0 in * by lia. exists k, d, T. rewrite !Z.add_0_r.
       split_and!; [done|done|by unfold touched; simpl; lia|by eapply ext_unchanged, Hst| |].
       - intros bn [? _]. lia.
       - intros o _. by rewrite decide_False by lia. }
  run. rewrite at_inode. cbn [i_dev set_d].
  set (m := Z.min (n - tot) (BSZ - off mod BSZ)).
  pose proof (touched_round off (n - tot) m Hoff ltac:(lia) eq_refl) as Htr.
  assert (0 < m <= n - tot ∧ off mod BSZ + m <= BSZ ∧ 0 <= off mod BSZ) as (Hm1 & Hm2 & Hm3).
  { unfold m. rewrite BSZ_eq. pose proof (Z.mod_pos_bound off 512). lia. }
  assert (Z.of_nat (length (take (Z.to_nat m) src)) = m) as Hlm by (rewrite length_take; lia).
  assert (off / BSZ * BSZ <= off) as Hdiv by (rewrite BSZ_eq; Z.to_euclidean_division_equations; lia).
  assert (∀ bn, (off + m) / BSZ <= bn → off / BSZ <= bn) as Hmono.
  { intros bn. rewrite BSZ_eq. intros. Z.to_euclidean_division_equations; lia. }
  assert (off + (n - tot) = off + m + (n - (tot + m))) as Hend by lia.
  pose proof (round_run T k d off (take (Z.to_nat m) src) Hst) as Hround. rewrite Hlm in Hround.
  assert (∀ (g : unit → M (fsst K) Z) x, (a ← bmap ip (off / BSZ); kk (b ← bl_bread (i_dev i) a;
      bl_upd b (λ x, splice x (Z.to_nat (off mod BSZ)) (take (Z.to_nat m) src));;
      bl_log_write b;; bl_brelse b);; g tt) x =
      (round off m (take (Z.to_nat m) src) ≫= g) x) as Hassoc.
  { intros g x. unfold round, mbind, M_bind. destruct (bmap ip (off / BSZ) x) as [a y| | |]; [|done..].
    by destruct (kk _ y) as [[] ?| | |]. }
  destruct Hround as [(k1 & d1 & a & H1 & Hst1 & He1 & Hnz & Hc1)|(k' & d' & H1 & Hu & He & Hb)];
    [lia|apply HS; split_and!; lia|done|lia| |].
  2: { right. exists k', d', (off / BSZ). split; [|split; [done|split; [done|split; [split_and!; lia|done]]]].
       rewrite (Hassoc (λ _, writei_loop fuel ip (tot + m) (off + m) n (drop (Z.to_nat m) src))). unfold mbind, M_bind. by rewrite H1. }
  rewrite (Hassoc (λ _, writei_loop fuel ip (tot + m) (off + m) n (drop (Z.to_nat m) src))), (bind_run _ _ _ _ _ H1).
  destruct (IH (T ++ [a]) k1 d1 (tot + m) (off + m) n (drop (Z.to_nat m) src) Hst1)
    as [(k2 & d2 & T' & H2 & Hst2 & HT & He2 & Hnz2 & Hc2)|(k' & d' & bn & H2 & Hu & He2 & Hcov & Hb)]; try lia.
  { rewrite length_drop. lia. }
  { intros bn (B0 & B1 & B2). apply HS. split_and!; [lia|auto|lia]. }
  { unfold log_need in *. rewrite length_app. simpl. replace (n - (tot + m)) with (n - tot - m) by lia. lia. }
  - left. exists k2, d2, T'. rewrite Hend. split_and!; [done|done| |by eapply ext_both| |].
    + rewrite HT, length_app. simpl. replace (n - (tot + m)) with (n - tot - m) by lia.
      replace (m + (n - (tot + m))) with (n - tot) by lia. lia.
    + intros bn (B0 & B1 & B2). destruct (decide (bn = off / BSZ)) as [->|Hne].
      * rewrite (e_block _ _ _ _ _ _ He2); auto. apply block_of. lia.
      * apply Hnz2. unfold covers, m in *. rewrite BSZ_eq in *. Z.to_euclidean_division_equations; lia.
    + intros o Ho'. rewrite Hc2, Hc1 by done. repeat case_decide; try done; try lia.
      * unfold getZ. rewrite !list_lookup_total_alt, lookup_drop. do 2 f_equal. lia.
      * unfold getZ. by rewrite !list_lookup_total_alt, lookup_take_lt by lia.
  - right. exists k', d', bn. destruct Hcov as (B0 & B1 & B2). split; [done|]. split; [done|].
    split; [by eapply ext_both|]. split; [split_and!; [lia|auto|lia]|].
    destruct (decide (fblock (bl_view k) d bn = 0)) as [|Hn]; [done|].
    rewrite (e_block _ _ _ _ _ _ He1) in Hb; auto.
    rewrite BSZ_eq in *. pose proof (Z.div_pos off 512). split; [specialize (Hmono _ B1); lia|lia].
Qed.
End file.

(** The new size goes into the inode and onto the disk. *)
Lemma resize_run f ip k d s :
  let i := inode_of ip f in let sb := fs_sb f in let ib := IBLOCK (i_inum i) sb in let d' := set_size s d in
  (ip < length (fs_icache f))%nat → i_dev i = bl_dev → 0 <= i_inum i → bl_inv k → bl_open k →
  bl_room k 1 1 → usable k ib → ¬ bitmap_block sb ib → fs_ok k sb ib d → dinode_ok d → is_u32 s →
  ∃ k', (upd_d ip (set_size s);; iupdate ip) (at_ f ip k d) = Ok tt (at_ f ip k' d') ∧
    bl_inv k' ∧ bl_held k' ≡ₚ bl_held k ∧ fs_ok k' sb ib d' ∧
    (∀ bn, fblock (bl_view k') d' bn = fblock (bl_view k) d bn) ∧
    (∀ o, 0 <= o < MAXFILE * BSZ → fcontent (bl_view k') d' o = fcontent (bl_view k) d o) ∧
    (∀ j, 0 <= j → IBLOCK j sb = ib → dinode_at sb (bl_view k') j =
       if decide (j = i_inum i) then d' else dinode_at sb (bl_view k) j) ∧
    (∀ n, 0 <= n < sb_size sb → used sb (bl_view k') n = used sb (bl_view k) n) ∧
    ∀ b, b ≠ ib → bl_view k' b = bl_view k b.
Proof.
  intros i sb ib d' Hip Hdev Hin Hk Ho Hr (Hib0 & Hib1 & Hib2) Hibm Hf Hd Hs.
  assert (dinode_ok d') as Hd' by (destruct Hd; split; done).
  assert (inode_of ip (at_ f ip k d') = set_d d' i) as Hi by (by rewrite at_inode).
  destruct (iupdate_run ip (at_ f ip k d')) as (k' & H & Hst); rewrite ?Hi; try done; [apply Hd'|].
  change (fs_k (at_ f ip k d')) with k in *. change (fs_sb (at_ f ip k d')) with sb in *.
  rewrite Hi in Hst. cbn [i_inum i_d set_d] in Hst. fold i ib in Hst.
  pose proof (step_view _ _ _ _ _ Hst) as Hv. set (v' := fupd _ _ _) in *.
  assert (∀ b, b ≠ ib → bl_view k' b = bl_view k b) as Hfr by (intros b ?; rewrite Hv; by apply fupd_ne).
  assert (∀ bn, fblock (bl_view k') d' bn = fblock (bl_view k) d bn) as Hb.
  { intros bn. change (fblock (bl_view k') d' bn) with (fblock (bl_view k') d bn). apply fblock_ext.
    intros Hn. by apply Hfr, (ok_ind _ _ _ _ Hf). }
  assert (∀ n, 0 <= n < sb_size sb → used sb (bl_view k') n = used sb (bl_view k) n) as Hu.
  { intros n Hn. unfold used. rewrite Hfr; [done|]. intros E. apply Hibm. by exists n. }
  exists k'. split_and!; [|eauto with xv6|exact (step_held _ _ _ _ _ Hst)| |done| | |done|done].
  - by rewrite (bind_run _ _ _ _ _ (at_upd f ip _ k d)).
  - apply (fs_ok_step k sb ib d v' _ k' d' (λ _, False) Hf Hst); try done; try tauto.
    + intros n Hn. rewrite <-Hu by done. unfold used. rewrite Hv. tauto.
    + intros bn _. left. rewrite <-Hb. by apply fblock_ext.
  - intros o Ho'. pose proof (block_of o Ho'). unfold fcontent. rewrite Hb. destruct (Z.eqb_spec (fblock (bl_view k) d (o / BSZ)) 0) as [|Hn]; [done|].
    rewrite Hfr; [done|]. by apply (ok_block _ _ _ _ Hf).
  - intros j Hj Hjb. rewrite <-(dinode_at_put sb (bl_view k) d' (i_inum i) j) by (done || by apply bl_length).
    unfold dinode_at. by rewrite Hv.
Qed.

(** C7. writei on a file. An offset beyond the end, a range that wraps around
    2^32, or one that ends beyond MAXFILE blocks is refused with -1 and changes
    nothing. Otherwise every byte of the range is the given one and every other
    byte of the file is as it was; blocks of the range that were missing have been
    allocated, with the indirect block, and no others; the size is the larger of
    the old one and the end of the range, and when the file grew its inode on the
    disk is the new one, while every other inode of that block is as it was. In the
    inode cache nothing changes but this file's copy. A block of the disk that is
    neither the file's, nor its inode's, nor a part of the bitmap is as it was, and
    the bitmap marks just the blocks it marked before and those of the file. If
    blocks of the range were missing and there are too few free blocks, writei panics
    in balloc, and then every block that was free is the file's. *)
Theorem writei_correct wr ip src off n f :
  let i := inode_of ip f in let d := i_d i in let v := bl_view (fs_k f) in let sb := fs_sb f in
  let ib := IBLOCK (i_inum i) sb in
  (ip < length (fs_icache f))%nat → bl_inv (fs_k f) → bl_open (fs_k f) →
  i_dev i = bl_dev → 0 <= i_inum i → d_type d ≠ T_DEV → dinode_ok d → d_size d <= MAXFILE * BSZ →
  is_u32 off → is_u32 n → Z.of_nat (length src) = n →
  usable (fs_k f) ib → ¬ bitmap_block sb ib → fs_ok (fs_k f) sb ib d →
  (∀ bn, 0 <= bn → bn * BSZ < d_size d → fblock v d bn ≠ 0) →
  bl_room (fs_k f) 2 (length (bms sb) + touched off n + 2) →
  if (d_size d <? off) || (4294967296 <=? off + n) || (MAXFILE * BSZ <? off + n)
  then writei wr ip src off n f = Ok (-1) f
  else
    (∃ k' d', let v' := bl_view k' in
       writei wr ip src off n f = Ok n (set_icache (<[ip := set_d d' i]> (fs_icache f)) (set_k k' f)) ∧
       d' = Dinode (d_type d) (d_major d) (d_minor d) (d_nlink d) (Z.max (d_size d) (off + n)) (d_addrs d') ∧
       bl_inv k' ∧ bl_held k' ≡ₚ bl_held (fs_k f) ∧ fs_ok k' sb ib d' ∧
       (∀ bn, covers off n bn → fblock v' d' bn ≠ 0) ∧
       (∀ bn, 0 <= bn < MAXFILE → ¬ covers off n bn → fblock v' d' bn = fblock v d bn) ∧
       (∀ o, 0 <= o < MAXFILE * BSZ → fcontent v' d' o =
          if decide (off <= o < off + n) then getZ src (o - off) else fcontent v d o) ∧
       (∀ j, 0 <= j → IBLOCK j sb = ib → dinode_at sb v' j =
          if decide (j = i_inum i ∧ d_size d < off + n) then d' else dinode_at sb v j) ∧
       (∀ b, b ≠ ib → ¬ bitmap_block sb b → ¬ fowns v' d' b → v' b = v b) ∧
       (∀ b, 0 <= b < sb_size sb → used sb v' b = true ↔ used sb v b = true ∨ fowns v' d' b)) ∨
    (∃ k' d', let v' := bl_view k' in
       writei wr ip src off n f = Panic "balloc: out of blocks"
         (set_icache (<[ip := set_d d' i]> (fs_icache f)) (set_k k' f)) ∧
       (∃ bn, covers off n bn ∧ fblock v d bn = 0) ∧
       (∀ bn, 0 <= bn < MAXFILE → ¬ covers off n bn → fblock v' d' bn = fblock v d bn) ∧
       ∀ b, 0 <= b < sb_size sb → used sb v' b = true ∧ (used sb v b = true ∨ fowns v' d' b)).
Proof.
  intros i d v sb ib Hip Hk Ho Hdev Hin Ht Hd Hmaxd Hoff Hn Hsrc Hib Hibm Hf Hmap HR.
  pose proof (ok_size d Hd) as Hsz. unfold is_u32 in *. assert (MAXFILE * BSZ = 71680) as Hmf by done.
  unfold writei. run. fold i d. rewrite (proj2 (Z.eqb_neq _ _) Ht).
  destruct (Z.ltb_spec (d_size d) off) as [|Hle]; [done|]. cbn [orb].
  destruct (Z.leb_spec 4294967296 (off + n)) as [|Hw]; cbn [orb].
  { by replace (u32 (off + n) <? off) with true by (symmetry; apply Z.ltb_lt; zmod). }
  rewrite u32_small, (proj2 (Z.ltb_ge (off + n) off)) by (unfold is_u32; lia).
  destruct (Z.ltb_spec (MAXFILE * BSZ) (off + n)) as [|Hmax]; [done|].
  pose proof (at_start f ip Hip Hdev) as Hat. fold i d in Hat.
  assert (st f ip (fs_k f) [] (fs_k f) d) as Hst.
  { split; [done..|]. exists []. split; [by apply bl_step_refl|]. by intros ? ?%elem_of_nil. }
  destruct (writei_loop_grow f ip (fs_k f) _ (covers off n) Hip Hdev Ho HR (S (Z.to_nat n)) [] (fs_k f) d 0 off n src Hst)
    as [(k1 & d1 & T & H1 & [Hf1 Hd1 Hg1] & HT & He & Hnz & Hc)|(k1 & d1 & bn & H1 & Hu & He & Hcov & Hb)];
    rewrite ?Z.sub_0_r in *; try done; try lia.
  { unfold log_need. fold sb. cbn [length]. lia. }
  2: { right. exists k1, d1. rewrite Hat in H1. split; [unfold mbind, M_bind; by rewrite H1|].
       split; [by exists bn|]. split; [intros bn' Hb' Hc'; apply He; auto|].
       intros b Hbr. split; [by apply Hu|]. apply He; [done|]. by apply Hu. }
  left. rewrite Hat in H1. rewrite (bind_run _ _ _ _ _ H1). run.
  rewrite (at_inode f ip Hip). cbn [i_d set_d].
  assert (d_size d1 = d_size d) as Hs1 by (by rewrite (e_meta _ _ _ _ _ _ He)).
  assert (∀ b, ¬ bitmap_block sb b → ¬ fowns (bl_view k1) d1 b → bl_view k1 b = v b) as Hfr by apply He.
  assert (bl_view k1 ib = v ib) as Hvib.
  { apply Hfr; [done|]. intros Hw'%(fs_ok_owned _ _ _ _ _ Hf1). by apply (tk_ib _ _ _ _ Hw'). }
  assert (∀ j, IBLOCK j sb = ib → dinode_at sb (bl_view k1) j = dinode_at sb v j) as Hdin.
  { intros j Hj. unfold dinode_at. by rewrite Hj, Hvib. }
  rewrite Hs1. destruct (Z.ltb_spec (d_size d) (off + n)) as [Hgrow|Hge].
  - rewrite (proj2 (Z.ltb_lt 0 n)) by lia. cbn [andb].
    destruct (resize_run f ip k1 d1 (off + n)) as (k2 & H2 & Hk2 & Hh2 & Hf2 & Hb2 & Hc2 & Hj2 & Hu2 & Hv2); try done.
    { by eapply grown_inv. } { by eapply grown_open. }
    { eapply (grown_room (fs_k f) sb T d1 k1 (bl_held k1) []); [done| |by intros ? ?%elem_of_nil|exact HR| |].
      - apply bl_step_refl. by eapply grown_inv.
      - rewrite (grown_held _ _ _ _ _ Hg1). lia.
      - unfold log_need. rewrite HT. simpl. lia. }
    { destruct Hib as (I1 & I2 & I3). split; [done|]. destruct (grown_step _ _ _ _ _ Hg1) as (ns & Hs1').
      split; eauto with xv6. }
    { unfold is_u32. lia. }
    exists k2, (set_size (off + n) d1). cbn zeta. rewrite Z.max_r by lia.
    assert (∀ b, fowns (bl_view k2) (set_size (off + n) d1) b ↔ fowns (bl_view k1) d1 b) as Ho2.
    { intros b. unfold fowns. change (ind (set_size (off + n) d1)) with (ind d1).
      split; intros [B1 [->|(bn & Hbn & ->)]]; (split; [done|]); [by left| |by left|];
        right; exists bn; rewrite Hb2 in *; done. }
    split_and!; try done.
    + rewrite (bind_run _ _ _ _ _ H2). done.
    + unfold set_size. cbn [d_type d_major d_minor d_nlink d_addrs]. by rewrite (e_meta _ _ _ _ _ _ He).
    + rewrite Hh2. by eapply grown_held.
    + intros bn Hcov. rewrite Hb2. by apply Hnz.
    + intros bn Hbn Hcov. rewrite Hb2. apply He; auto.
    + intros o Ho'. rewrite Hc2 by done. by apply Hc.
    + intros j Hj Hjb. rewrite Hj2 by done. rewrite Hdin by done. repeat case_decide; (done || tauto).
    + intros b B1 B2 B3. rewrite Hv2 by done. apply Hfr; [done|]. by rewrite <-Ho2.
    + intros b Hb. rewrite Hu2, Ho2 by done. by apply He.
  - rewrite andb_false_r. exists k1, d1. cbn zeta.
    assert (d1 = d) as ->.
    { apply He. intros bn Hbn (_ & _ & Hcov). apply Hmap; lia. }
    rewrite Z.max_l by lia. split_and!; try done.
    + by destruct d.
    + by eapply grown_inv.
    + by eapply grown_held.
    + intros bn Hbn Hcov. apply He; auto.
    + intros j Hj Hjb. rewrite decide_False by lia. by apply Hdin.
    + intros b _. apply Hfr.
    + apply He.
Qed.
End grow.
