(* ===== verification/FsRun.v ===== *)
(** * A small file system, on which the theorems of FsSpec are applied

    The disk of [fs_disk] has a superblock, the bitmap in block 59, the inodes
    from block 33, a root directory in block 60 with entries for inodes 1 and 2,
    and a file of five bytes in block 61. *)

From S2P Require Import Prelude Cstring Sleeplock Disk Ring Bio Log Blocks Fs FsSpec FsGrow.

Definition pad (l : list Z) : block := l ++ replicate (BSIZE - length l) 0.

Definition sb_ex : superblock := Superblock 1000 900 200 31 2 33 59.
Definition dir_ex : dinode := Dinode T_DIR 0 0 1 32 (60 :: replicate 12 0).
Definition file_ex : dinode := Dinode T_FILE 0 0 1 5 (61 :: replicate 12 0).

Definition fs_disk : Memide.memide := Memide.MkMemide
  (list_to_map [
     (1, pad (mjoin (le_bytes 4 <$> [1000; 900; 200; 31; 2; 33; 59])));
     (33, dinode_put 128 file_ex (dinode_put 64 dir_ex zero_block));
     (59, pad (replicate 7 255 ++ [63]));
     (60, pad (dirent 1 (name_copy [46]) ++ dirent 2 (name_copy [97])));
     (61, pad [104; 101; 108; 108; 111])]) 1000 [].

Lemma fs_disk_len n : length (dd_block fs_disk n) = BSIZE.
Proof.
  unfold dd_block; simpl. unfold Memide.disk_block, fs_disk; cbn [Memide.memdisk].
  destruct (list_to_map _ !! n) as [b|] eqn:E; [|by apply length_replicate].
  apply elem_of_list_to_map_2 in E.
  repeat (apply elem_of_cons in E as [[= _ ->]|E]; [by vm_compute|]).
  by apply elem_of_nil in E.
Qed.

(** Booted, with one operation open, and nothing held or logged. *)
Lemma log_run : ∃ l : logst Memide.memide, bl_inv l ∧ bl_open l ∧ bl_held l = [] ∧
  bl_logged l = [] ∧ bl_cap l = 30%nat ∧ (∀ n, bl_view l n = dd_block fs_disk n) ∧
  ∀ n, bl_block l n ↔ 0 <= n < 1000 ∧ ¬ (2 <= n < 33).
Proof.
  destruct (log_open_at fs_disk fs_disk_len eq_refl ltac:(by vm_compute))
    as (l & Hl & Hq & Hn & Hst & Hsz & Ho & _ & Hd & Hv).
  exists l. split_and!; simpl; [done|lia| | | |done|].
  - apply elem_of_nil_inv. intros [i n] Hi%elem_of_held_list. by apply (Hq i n).
  - unfold logged. by rewrite Hn.
  - by rewrite Hsz.
  - intros n. unfold data_block. rewrite Hd, Hst, Hsz. done.
Qed.

(** The root directory and the file are cached and locked by process 5. *)
Definition icache_ex : list inode :=
  Inode 1 1 1 (Sleeplock true 5) true dir_ex :: Inode 1 2 1 (Sleeplock true 5) true file_ex ::
  replicate 48 inode0.
Definition fs_ex (l : logst Memide.memide) : fsst (logst Memide.memide) := FsSt l sb_ex icache_ex 5 0.

(** What the runs start from. *)
Record ex_ok (l : logst Memide.memide) : Prop := {
  ex_inv : bl_inv l; ex_open : bl_open l;
  ex_held : bl_held l = []; ex_logged : bl_logged l = []; ex_cap : bl_cap l = 30%nat;
  ex_view : ∀ n, bl_view l n = dd_block fs_disk n;
  ex_block : ∀ n, bl_block l n ↔ 0 <= n < 1000 ∧ ¬ (2 <= n < 33)
}.

Lemma ex_state : ∃ l, ex_ok l.
Proof. destruct log_run as (l & ? & ? & ? & ? & ? & ? & ?). by exists l. Qed.

Section runs.
Context (l : logst Memide.memide) (Hl : ex_ok l).

Lemma ex_room b n : (b + n <= 30)%nat → bl_room l b n.
Proof. intros H. split; rewrite ?(ex_held l Hl), ?(ex_logged l Hl), ?(ex_cap l Hl); simpl; unfold NBUF; lia. Qed.

Lemma ex_free_map n : (n ∉ (bl_held l).*2).
Proof. rewrite (ex_held l Hl). apply not_elem_of_nil. Qed.

Lemma ex_usable n : 33 <= n < 1000 → usable l n.
Proof. intros Hn. split_and!; [lia|apply (ex_block l Hl); lia|apply ex_free_map]. Qed.

Lemma ex_bblock n : 0 <= n < 1000 → BBLOCK n sb_ex = 59.
Proof.
  intros Hn. unfold BBLOCK. rewrite BPB_eq. change (sb_bmapstart sb_ex) with 59.
  rewrite Z.div_small; lia.
Qed.

Lemma ex_used n : used sb_ex (bl_view l) n = used sb_ex (dd_block fs_disk) n.
Proof. unfold used. by rewrite (ex_view l Hl). Qed.

Lemma ex_used_low n : 0 <= n < 62 → used sb_ex (bl_view l) n = true.
Proof.
  intros Hn. rewrite ex_used.
  assert (forallb (used sb_ex (dd_block fs_disk)) (seqZ 0 62) = true) as H by (by vm_compute).
  rewrite forallb_forall in H. apply H, list_elem_of_In, elem_of_seqZ. lia.
Qed.

Lemma ex_iblock d bn : 0 <= bn < 1 → iblock (bl_view l) d bn = getZ (d_addrs d) 0.
Proof. intros. unfold iblock. replace bn with 0 by lia. done. Qed.

Lemma ex_mapped d a bn : d_addrs d = a :: replicate 12 0 → 33 <= a < 1000 → 0 <= bn < 1 → mapped l d bn.
Proof.
  intros Hd Ha Hbn. split; [unfold MAXFILE; change NINDIRECT with 128; unfold NDIRECT; lia| |].
  - rewrite ex_iblock, Hd by done. by apply ex_usable.
  - unfold NDIRECT. lia.
Qed.

(** Its bitmap, and the file: nothing but block 61. *)
Lemma ex_fblock bn : 0 <= bn < MAXFILE → fblock (bl_view l) file_ex bn = if bn =? 0 then 61 else 0.
Proof.
  intros Hbn. rewrite (fblock_ext (dd_block fs_disk)) by (intros []; by vm_compute).
  assert (forallb (λ bn, fblock (dd_block fs_disk) file_ex bn =? (if bn =? 0 then 61 else 0)) (seqZ 0 140) = true)
    as H by (by vm_compute).
  rewrite forallb_forall in H. apply Z.eqb_eq, H, list_elem_of_In, elem_of_seqZ. rewrite MAXFILE_value in Hbn. lia.
Qed.

Lemma ex_bitmap n : bitmap_block sb_ex n ↔ n = 59.
Proof.
  split; [intros (m & Hm & ->); by apply ex_bblock|]. intros ->. exists 0. rewrite ex_bblock; by split.
Qed.

Lemma ex_fs_ok : fs_ok l sb_ex 33 file_ex.
Proof.
  assert (∀ bn, 0 <= bn < MAXFILE → fblock (bl_view l) file_ex bn ≠ 0 → bn = 0 ∧ fblock (bl_view l) file_ex bn = 61) as Hb.
  { intros bn Hbn. rewrite ex_fblock by done. by destruct (Z.eqb_spec bn 0). }
  split.
  - done.
  - intros n Hn. change (sb_size sb_ex) with 1000 in Hn. rewrite ex_bblock by done.
    split; [apply (ex_block l Hl); lia|apply ex_free_map].
  - intros n Hn Hu. change (sb_size sb_ex) with 1000 in Hn.
    assert (62 <= n) by (destruct (decide (n < 62)); [rewrite ex_used_low in Hu by lia; done|lia]).
    rewrite ex_bitmap. split_and!; [apply ex_usable|..]; lia.
  - intros bn Hbn [_ ->]%Hb; [|done]. split; [by apply ex_usable|done|by apply ex_used_low|by rewrite ex_bitmap|done].
  - intros H. by destruct H.
  - intros bn bn' Hbn Hbn' Hn E. destruct (Hb bn Hbn Hn) as [-> _]. rewrite E in Hn. by destruct (Hb bn' Hbn' Hn) as [-> _].
  - intros bn Hbn [_ ->]%Hb; done.
Qed.
End runs.

Lemma balloc_correct_witness : ∃ l f', balloc bl_dev (fs_ex l) = Ok 62 f'.
Proof.
  destruct ex_state as (l & Hl). exists l.
  destruct (balloc_correct (fs_ex l) sb_ex) as [(a & f' & H & Ha & Hu & Hlow & _)|(f' & _ & H)].
  - done. - apply Hl. - apply Hl. - done.
  - intros n Hn. rewrite ex_bblock by done. split; [apply (ex_block l Hl); lia|by apply ex_free_map].
  - apply ex_room; [done|lia].
  - intros n Hn Hu. assert (62 <= n) by (destruct (decide (n < 62)); [rewrite (ex_used_low l Hl) in Hu by lia; done|lia]).
    split_and!; [apply (ex_block l Hl)| |]; simpl in *; [lia|by apply ex_free_map|].
    intros m Hm. rewrite ex_bblock by done. lia.
  - exists f'. rewrite H. f_equal. destruct (Z.lt_trichotomy a 62) as [?|[->|?]]; [|done|].
    + simpl in Hu. by rewrite (ex_used_low l Hl) in Hu by lia.
    + specialize (Hlow 62 ltac:(lia)). simpl in Hlow. rewrite (ex_used l Hl) in Hlow. by vm_compute in Hlow.
  - specialize (H 62 ltac:(simpl; lia)). simpl in H. rewrite (ex_used l Hl) in H. by vm_compute in H.
Defined.

Lemma bfree_correct_witness : ∃ l f', bfree bl_dev 61 (fs_ex l) = Ok tt f' ∧
  used sb_ex (bl_view (fs_k f')) 61 = false ∧ used sb_ex (bl_view (fs_k f')) 60 = true.
Proof.
  destruct ex_state as (l & Hl). exists l. pose proof (bfree_correct (fs_ex l) 61) as H.
  assert (sb_decode (bl_view l 1) = sb_ex) as Hsb by (rewrite (ex_view l Hl); by vm_compute).
  cbn zeta in H. change (fs_k (fs_ex l)) with l in H. rewrite Hsb, (ex_used_low l Hl 61) in H by lia.
  destruct H as (f' & Hf & _ & _ & Hu & _).
  - apply Hl. - apply Hl. - lia. - apply (ex_block l Hl). lia. - by apply ex_free_map.
  - rewrite ex_bblock by lia. apply (ex_block l Hl). lia. - by apply ex_free_map.
  - apply ex_room; [done|lia].
  - exists f'. split_and!; [done| |]; rewrite Hu by lia; [done|]. by apply ex_used_low.
Defined.

Lemma iupdate_correct_witness : ∃ l f', iupdate 1 (fs_ex l) = Ok tt f' ∧
  dinode_at sb_ex (bl_view (fs_k f')) 2 = file_ex ∧ dinode_at sb_ex (bl_view (fs_k f')) 1 = dir_ex.
Proof.
  destruct ex_state as (l & Hl). exists l.
  destruct (iupdate_correct 1 (fs_ex l)) as (f' & H & _ & _ & Hd & _).
  - apply Hl. - apply Hl. - done. - done.
  - split; simpl; unfold is_s16, is_u32, T_FILE; try lia. split; [done|]. by repeat constructor.
  - change (IBLOCK _ _) with 33. apply (ex_block l Hl). lia. - by apply ex_free_map.
  - apply ex_room; [done|lia].
  - exists f'. change (fs_sb (fs_ex l)) with sb_ex in Hd. split_and!; [done| |].
    + by rewrite (Hd 2 ltac:(lia)).
    + rewrite (Hd 1 ltac:(lia)). change (fs_k (fs_ex l)) with l.
      rewrite decide_False by done. unfold dinode_at. rewrite (ex_view l Hl). by vm_compute.
Defined.

Lemma ilock_correct_witness : ∃ l f',
  let f := FsSt l sb_ex (Inode 1 2 1 initsleeplock false (i_d inode0) :: replicate 49 inode0) 5 0 in
  ilock 0 f = Ok tt f' ∧ i_d (inode_of 0 f') = file_ex.
Proof.
  destruct ex_state as (l & Hl). exists l.
  set (f := FsSt l sb_ex (Inode 1 2 1 initsleeplock false (i_d inode0) :: replicate 49 inode0) 5 0).
  pose proof (ilock_correct 0 f) as H. cbn zeta in H.
  assert (dinode_at (fs_sb f) (bl_view (fs_k f)) (i_inum (inode_of 0 f)) = file_ex) as Hd.
  { change (fs_k f) with l. unfold dinode_at. rewrite (ex_view l Hl). by vm_compute. }
  rewrite Hd in H. change (i_valid (inode_of 0 f)) with false in H. cbn iota in H.
  change (d_type file_ex =? 0) with false in H. cbn iota in H.
  destruct H as (k' & H & _).
  - simpl. lia. - done. - done. - apply Hl. - done.
  - change (IBLOCK _ _) with 33. apply (ex_block l Hl). lia. - by apply ex_free_map.
  - apply ex_room; [done|lia].
  - eexists. split; [exact H|done].
Defined.

Definition no_dev {A B} (major : Z) : option (nat → A → M (fsst (logst Memide.memide)) B) := None.

Lemma readi_correct_witness : ∃ l f', readi no_dev 1 1 100 (fs_ex l) = Ok (4, [101; 108; 108; 111]) f'.
Proof.
  destruct ex_state as (l & Hl). exists l. pose proof (readi_correct no_dev 1 1 100 (fs_ex l)) as H.
  cbn zeta in H. change (d_size (i_d (inode_of 1 (fs_ex l)))) with 5 in H.
  change ((5 <? 1) || (4294967296 <=? 1 + 100)) with false in H. cbn iota in H.
  destruct H as (f' & H & _); unfold is_u32; try done; try lia; try apply Hl.
  - apply ex_room; [done|lia].
  - intros bn Hb Hlt. apply (ex_mapped l Hl _ 61); [done|lia|]. rewrite BSZ_eq in Hlt. simpl. lia.
  - exists f'. rewrite H. do 2 f_equal.
    rewrite (list_fmap_ext _ (content (dd_block fs_disk) file_ex)); [by vm_compute|].
    intros i o _. apply content_ext, (ex_view l Hl).
Defined.

Lemma writei_correct_witness : ∃ l k' d', let f' := set_icache (<[1%nat := set_d d' (inode_of 1 (fs_ex l))]> icache_ex) (set_k k' (fs_ex l)) in
  writei no_dev 1 (replicate 600 74) 3 600 (fs_ex l) = Ok 600 f' ∧
  d_size d' = 603 ∧ fblock (bl_view k') d' 1 ≠ 0 ∧ fcontent (bl_view k') d' 602 = 74 ∧ fcontent (bl_view k') d' 2 = 108 ∧
  dinode_at sb_ex (bl_view k') 2 = d' ∧ dinode_at sb_ex (bl_view k') 1 = dir_ex.
Proof.
  destruct ex_state as (l & Hl). exists l.
  pose proof (writei_correct no_dev 1 (replicate 600 74) 3 600 (fs_ex l)) as H. cbn zeta in H.
  change (fs_k (fs_ex l)) with l in H. change (fs_sb (fs_ex l)) with sb_ex in H.
  change (i_d (inode_of 1 (fs_ex l))) with file_ex in H. change (i_inum (inode_of 1 (fs_ex l))) with 2 in H.
  change (IBLOCK 2 sb_ex) with 33 in H.
  assert (∀ bn, covers 3 600 bn ↔ bn = 0 ∨ bn = 1) as Hcov.
  { intros bn. unfold covers. rewrite BSZ_eq. change (3 / 512) with 0. lia. }
  destruct H as [(k' & d' & H & Hd & _ & _ & _ & Hnz & _ & Hc & Hj & _)|(k' & d' & _ & _ & Hsame & Hall)].
  - simpl. lia. - apply Hl. - apply Hl. - done. - done. - done.
  - split; simpl; unfold is_s16, is_u32, T_FILE; try lia. split; [done|]. by repeat constructor.
  - by vm_compute. - by vm_compute. - by vm_compute. - done.
  - by apply (ex_usable l Hl). - by rewrite ex_bitmap. - by apply ex_fs_ok.
  - intros bn Hb0 Hb1. change (d_size file_ex) with 5 in Hb1. rewrite BSZ_eq in Hb1.
    assert (bn = 0) as -> by lia. by rewrite (ex_fblock l).
  - apply ex_room; [done|]. apply Nat.leb_le. by vm_compute.
  - exists k', d'. cbn zeta. split; [exact H|]. split; [by rewrite Hd|]. split; [apply Hnz, Hcov; auto|].
    split; [by rewrite Hc|]. split; [rewrite Hc by done|].
    + cbn [decide]. rewrite decide_False by lia. rewrite fcontent_content by (by rewrite (ex_fblock l)).
      rewrite (content_ext (dd_block fs_disk)) by apply (ex_view l Hl). by vm_compute.
    + split; rewrite Hj by done; [done|]. rewrite decide_False by (intros [? _]; done).
      unfold dinode_at. rewrite (ex_view l Hl). by vm_compute.
  - exfalso.
    assert (∀ b, 62 <= b < 66 → b = ind d' ∨ b = fblock (bl_view k') d' 0 ∨ b = fblock (bl_view k') d' 1) as H.
    { intros b Hb. destruct (Hall b) as [_ [Hu|[Hn [->|(bn & Hbn & ->)]]]]; [change (sb_size sb_ex) with 1000; lia| |auto|].
      - rewrite (ex_used l Hl) in Hu. assert (b = 62 ∨ b = 63 ∨ b = 64 ∨ b = 65) as Hb' by lia.
        by destruct Hb' as [-> | [-> | [-> | ->]]]; vm_compute in Hu.
      - destruct (decide (bn = 0 ∨ bn = 1)) as [[-> | ->]|Hn']; [auto..|].
        rewrite Hsame in Hb; [|done|by rewrite Hcov]. rewrite (ex_fblock l) in Hb by done.
        rewrite (proj2 (Z.eqb_neq _ _)) in Hb by tauto. lia. }
    pose proof (H 62). pose proof (H 63). pose proof (H 64). pose proof (H 65). lia.
Defined.

Lemma icache_ex_ok : icache_ok icache_ex.
Proof.
  assert (∀ i x, icache_ex !! i = Some x → 0 < i_ref x →
    (i = 0%nat ∧ i_inum x = 1) ∨ (i = 1%nat ∧ i_inum x = 2)) as H.
  { intros [|[|i]] x Hx Hr; unfold icache_ex in Hx; cbn [lookup list_lookup] in Hx; [by simplify_eq; auto..|].
    apply lookup_replicate in Hx as [-> _]. simpl in Hr. lia. }
  split.
  - intros i x Hx. destruct (decide (0 < i_ref x)); [lia|].
    destruct i as [|[|i]]; unfold icache_ex in Hx; cbn [lookup list_lookup] in Hx; [by simplify_eq..|].
    by apply lookup_replicate in Hx as [-> _].
  - intros i j x y Hx Hy Hr (Hr' & _ & Hc).
    destruct (H i x Hx Hr) as [[-> ?]|[-> ?]], (H j y Hy Hr') as [[-> ?]|[-> ?]]; (done || lia).
Qed.

Lemma iget_correct_witness : ∃ l f', iget 1 2 (fs_ex l) = Ok 1%nat f' ∧ i_ref (inode_of 1 f') = 2.
Proof.
  destruct ex_state as (l & Hl). exists l.
  destruct (iget_correct (fs_ex l) 1 2) as [(ip & x & y & f' & H & Hx & Hf & _ & Hy & Hr & _)|[H _]].
  - exact icache_ex_ok.
  - assert (iget 1 2 (fs_ex l) = Ok 1%nat (set_icache (alter (λ i, set_ref (i_ref i + 1) i) 1%nat icache_ex) (fs_ex l)))
      as H' by done.
    rewrite H' in H. simplify_eq. eexists. split; [done|]. done.
  - done.
Defined.

Lemma dirlookup_correct_witness : ∃ l f', dirlookup no_dev 0 [97] (fs_ex l) = Ok (Some (1%nat, 16)) f'.
Proof.
  destruct ex_state as (l & Hl). exists l.
  destruct (dirlookup_correct no_dev 0 [97] (fs_ex l) 2) as (k1 & _ & H).
  - apply Hl. - done. - done. - apply ex_room; [done|lia].
  - intros bn Hb Hlt. change (d_size _) with 32 in Hlt. rewrite BSZ_eq in Hlt.
    apply (ex_mapped l Hl _ 60); [done|lia|lia].
  - done. - done. - done.
  - assert (∀ j, entry (bl_view (fs_k (fs_ex l))) (i_d (inode_of 0 (fs_ex l))) j =
      entry (dd_block fs_disk) dir_ex j) as He.
    { intros j. apply list_fmap_ext. intros i o _. apply content_ext, (ex_view l Hl). }
    destruct H as [(j & Hj & Hm & Hlow & H)|[H _]].
    + rewrite He in Hm, H. assert (j = 0 ∨ j = 1) as [->| ->] by lia; [by vm_compute in Hm|].
      rewrite H. change (de_inum (entry (dd_block fs_disk) dir_ex 1)) with 2.
      eexists. done.
    + specialize (H 1 ltac:(lia)). rewrite He in H. by vm_compute in H.
Defined.

Lemma skipelem_correct_witness :
  elems [47; 97; 47; 47; 98] = [[97]; [98]] ∧
  ∃ rest name', skipelem [47; 97; 47; 47; 98] (replicate 14 0) = Some (rest, name') ∧ rest = [98] ∧
    upto_nul name' = [97].
Proof.
  split; [done|]. pose proof (skipelem_correct [47; 97; 47; 47; 98] (replicate 14 0) eq_refl) as H.
  change (elems [47; 97; 47; 47; 98]) with [[97]; [98]] in H. cbn iota in H.
  destruct H as (rest & name' & H & _ & _ & _ & _ & Hn); [by repeat constructor|].
  exists rest, name'. split_and!; [done| |done]. vm_compute in H. by injection H as <- _.
Defined.
