(* ===== verification/Mkfs.v ===== *)
(** * The builder of the first disk image (mkfs.c)

    The image is a file of the host, of [im_len] sectors; [host_open] is what the
    host has under a name: the pieces that successive reads of 512 bytes deliver,
    up to the first empty one. The host is little endian, as the kernel is. exit(1)
    and a failed assert are [Panic]. The on-disk structures are those of Fs and Log. *)

From S2P Require Import Prelude Cstring Sleeplock Disk Log Blocks Fs.

Definition FSSIZE : Z := 1000.
Definition NINODES : Z := 200.

Definition nbitmap : Z := FSSIZE / (BSZ * 8) + 1.
Definition ninodeblocks : Z := NINODES / IPB + 1.
Definition nlog : Z := LOGSIZE.
(** main: the number of meta blocks, and of data blocks. *)
Definition nmeta : Z := 2 + nlog + ninodeblocks + nbitmap.
Definition nblocks : Z := FSSIZE - nmeta.

(** The file behind fsfd, and the global variables sb, freeinode and freeblock. *)
Record image := Image {
  im_img : Z → block; im_len : Z; im_sb : superblock; im_freeinode : Z; im_freeblock : Z
}.

(** Convert to intel byte order. *)
Definition xshort (x : Z) : Z := le_val [u8 x; u8 (Z.shiftr x 8)].
Definition xint (x : Z) : Z := le_val [u8 x; u8 (Z.shiftr x 8); u8 (Z.shiftr x 16); u8 (Z.shiftr x 24)].

(** The sector at byte sec * BSIZE, a uint; a write behind the end extends the file. *)
Definition wsect (sec : Z) (buf : block) : M image unit :=
  let n := u32 (sec * BSZ) / BSZ in
  modify (λ s, Image (fupd (im_img s) n buf) (Z.max (im_len s) (n + 1)) (im_sb s) (im_freeinode s) (im_freeblock s)).

Definition rsect (sec : Z) : M image block :=
  let n := u32 (sec * BSZ) / BSZ in
  len ← gets im_len;
  panic_if (len <=? n) "read";;
  gets (λ s, im_img s n).

Definition winode (inum : Z) (ip : dinode) : M image unit :=
  bn ← gets (λ s, u32 (IBLOCK inum (im_sb s)));
  buf ← rsect bn;
  wsect bn (dinode_put (dip_off inum) ip buf).

Definition rinode (inum : Z) : M image dinode :=
  bn ← gets (λ s, u32 (IBLOCK inum (im_sb s)));
  buf ← rsect bn;
  mret (dinode_get buf (dip_off inum)).

Definition mk_ialloc (type : Z) : M image Z :=
  inum ← gets im_freeinode;
  modify (λ s, Image (im_img s) (im_len s) (im_sb s) (u32 (inum + 1)) (im_freeblock s));;
  winode inum (Dinode (s16 (xshort type)) 0 0 (s16 (xshort 1)) (xint 0) (replicate 13 0));;
  mret inum.

(** Write the bitmap: the first [used] blocks have been allocated. *)
Definition mk_balloc (used : Z) : M image unit :=
  panic_if (negb (used <? BSZ * 8)) "assert: used < BSIZE*8";;
  sb ← gets im_sb;
  wsect (sb_bmapstart sb) (foldl (λ buf i, setZ buf (i / 8) (u8 (Z.lor (getZ buf (i / 8)) (Z.shiftl 1 (i mod 8)))))
    zero_block (seqZ 0 used)).

(** freeblock++ *)
Definition next_block : M image Z :=
  b ← gets im_freeblock;
  modify (λ s, Image (im_img s) (im_len s) (im_sb s) (im_freeinode s) (u32 (b + 1)));;
  mret b.

(** The entry [i] of din.addrs, with a new block if it has none. *)
Definition have_addr (i : Z) (din : dinode) : M image dinode :=
  if xint (getZ (d_addrs din) i) =? 0 then
    b ← next_block;
    mret (set_addr i (xint b) din)
  else mret din.

(** The block [fbn] of a file, and the inode. *)
Definition file_block (fbn : Z) (din : dinode) : M image (dinode * Z) :=
  if fbn <? NDIRECT then
    din ← have_addr fbn din;
    mret (din, xint (getZ (d_addrs din) fbn))
  else
    din ← have_addr NDIRECT din;
    let ind := xint (getZ (d_addrs din) NDIRECT) in
    let o := Z.to_nat (4 * (fbn - NDIRECT)) in
    indirect ← rsect ind;
    indirect ← (if getw 4 indirect o =? 0 then
                  b ← next_block;
                  let indirect := putw 4 indirect o (xint b) in
                  wsect ind indirect;;
                  mret indirect
                else mret indirect);
    mret (din, xint (getw 4 indirect o)).

Fixpoint iappend_loop (fuel : nat) (p : list Z) (off : Z) (din : dinode) : M image (Z * dinode) :=
  match fuel with
  | O => no_fuel
  | S fuel =>
      if 0 <? Z.of_nat (length p) then
        let fbn := off / BSZ in
        panic_if (negb (fbn <? MAXFILE)) "assert: fbn < MAXFILE";;
        r ← file_block fbn din;
        let n1 := Z.min (Z.of_nat (length p)) (u32 ((fbn + 1) * BSZ - off)) in
        buf ← rsect r.2;
        wsect r.2 (splice buf (Z.to_nat (off - fbn * BSZ)) (take (Z.to_nat n1) p));;
        iappend_loop fuel (drop (Z.to_nat n1) p) (u32 (off + n1)) r.1
      else mret (off, din)
  end.

(** Append the bytes [p] to the file. Each round takes at least one of them. *)
Definition iappend (inum : Z) (p : list Z) : M image unit :=
  din ← rinode inum;
  r ← iappend_loop (S (length p)) p (xint (d_size din)) din;
  winode inum (set_size (xint r.1) r.2).

Section main.
Context (host_open : list Z → option (list (list Z))).

(** while((cc = read(fd, buf, sizeof(buf))) > 0) *)
Fixpoint append_chunks (inum : Z) (chunks : list (list Z)) : M image unit :=
  match chunks with
  | [] => mret tt
  | [] :: _ => mret tt
  | c :: chunks => iappend inum c;; append_chunks inum chunks
  end.

(** Skip the leading _ in a name. *)
Definition skip_underscore (arg : list Z) : list Z :=
  match arg with c :: r => if c =? 95 then r else arg | [] => arg end.

Definition add_file (rootino : Z) (arg : list Z) : M image unit :=
  panic_if (bool_decide (47 ∈ arg)) "assert: index(argv[i], '/') == 0";;
  match host_open arg with
  | None => panic "open"
  | Some chunks =>
      inum ← mk_ialloc T_FILE;
      iappend rootino (dirent (xshort inum) (name_copy (skip_underscore arg)));;
      append_chunks inum chunks
  end.

(** The superblock, and its bytes in the block. *)
Definition mk_sb : superblock :=
  Superblock (xint FSSIZE) (xint nblocks) (xint NINODES) (xint nlog) (xint 2) (xint (2 + nlog))
    (xint (2 + nlog + ninodeblocks)).
Definition sb_bytes (sb : superblock) : list Z :=
  mjoin (le_bytes 4 <$> [sb_size sb; sb_nblocks sb; sb_ninodes sb; sb_nlog sb; sb_logstart sb; sb_inodestart sb; sb_bmapstart sb]).

(** main, on the files argv[2], ... and the truncated image. *)
Definition mkfs (args : list (list Z)) : M image unit :=
  modify (λ s, Image (im_img s) (im_len s) mk_sb (im_freeinode s) nmeta);;
  for_each (seqZ 0 FSSIZE) (λ i, wsect i zero_block);;
  wsect 1 (splice zero_block 0 (sb_bytes mk_sb));;
  rootino ← mk_ialloc T_DIR;
  panic_if (negb (rootino =? ROOTINO)) "assert: rootino == ROOTINO";;
  iappend rootino (dirent (xshort rootino) (name_copy [46]));;
  iappend rootino (dirent (xshort rootino) (name_copy [46; 46]));;
  for_each args (add_file rootino);;
  din ← rinode rootino;
  let off := (xint (d_size din) / BSZ + 1) * BSZ in
  winode rootino (set_size (xint (u32 off)) din);;
  b ← gets im_freeblock;
  mk_balloc b.

(** After open with O_TRUNC, and the initial values of the variables. *)
Definition image0 : image := Image (λ _, zero_block) 0 (Superblock 0 0 0 0 0 0 0) 1 0.
End main.
