(* ===== verification/MkfsSpec.v ===== *)
(** * mkfs builds a file system that fs.c reads back

    A file is its type and its bytes. [fsys] relates the image to the list of the
    files, inode 1 first; a ghost map [own] gives each allocated block to one file
    and one place in it. *)

From S2P Require Import Prelude Cstring Sleeplock Disk Log Blocks Fs FsSpec Mkfs.

Lemma nmeta_eq : nmeta = 59.
Proof. reflexivity. Qed.
Lemma FSSIZE_eq : FSSIZE = 1000.
Proof. reflexivity. Qed.
Lemma MAXFILE_eq : MAXFILE = 140.
Proof. reflexivity. Qed.

Ltac mk_lia := rewrite ?nmeta_eq, ?FSSIZE_eq, ?MAXFILE_eq, ?BSZ_eq in *; unfold NDIRECT in *; lia.

Lemma xint_small x : is_u32 x → xint x = x.
Proof.
  intros Hx. unfold xint. rewrite !Z.shiftr_div_pow2 by lia. cbn [le_val].
  change (2 ^ 8) with 256. change (2 ^ 16) with 65536. change (2 ^ 24) with 16777216. zmod.
Qed.
Lemma xshort_small x : is_u16 x → xshort x = x.
Proof. intros Hx. unfold xshort. rewrite !Z.shiftr_div_pow2 by lia. cbn [le_val]. change (2 ^ 8) with 256. zmod. Qed.

(** ** Sectors *)

Definition set_block (sec : Z) (buf : block) (s : image) : image :=
  Image (fupd (im_img s) sec buf) (im_len s) (im_sb s) (im_freeinode s) (im_freeblock s).
Definition set_fb (b : Z) (s : image) : image :=
  Image (im_img s) (im_len s) (im_sb s) (im_freeinode s) b.

Record base (s : image) : Prop := {
  b_sb : im_sb s = mk_sb; b_len : im_len s = FSSIZE;
  b_blk : ∀ b, length (im_img s b) = BSIZE;
  b_fb : nmeta <= im_freeblock s <= FSSIZE;
  b_fresh : ∀ b, im_freeblock s <= b → im_img s b = zero_block
}.

Lemma sector_eq sec : 0 <= sec < FSSIZE → u32 (sec * BSZ) / BSZ = sec.
Proof. intros H. rewrite u32_small by (unfold is_u32; mk_lia). rewrite BSZ_eq. by apply Z.div_mul. Qed.

Lemma wsect_run sec buf s : base s → 0 <= sec < FSSIZE → wsect sec buf s = Ok tt (set_block sec buf s).
Proof.
  intros Hb Hs. unfold wsect, modify. rewrite sector_eq by done. rewrite Z.max_l; [done|]. rewrite (b_len s Hb). lia.
Qed.

Lemma rsect_run sec s : base s → 0 <= sec < FSSIZE → rsect sec s = Ok (im_img s sec) s.
Proof.
  intros Hb Hs. unfold rsect. rewrite sector_eq by done. run. rewrite (b_len s Hb).
  rewrite (proj2 (Z.leb_gt _ _)) by lia. done.
Qed.

Lemma base_set_block sec buf s : base s → length buf = BSIZE → sec < im_freeblock s → base (set_block sec buf s).
Proof.
  intros [H1 H2 H3 H4 H5] Hl Hs. split; simpl; try done.
  - intros b. unfold fupd. by case_decide.
  - intros b Hb. rewrite fupd_ne by lia. auto.
Qed.

Lemma base_set_fb b s : base s → im_freeblock s <= b <= FSSIZE → base (set_fb b s).
Proof. intros [H1 H2 H3 H4 H5] Hb. split; simpl; try done; [lia|]. intros x Hx. apply H5. lia. Qed.

Lemma next_block_run s : base s → im_freeblock s < FSSIZE →
  next_block s = Ok (im_freeblock s) (set_fb (im_freeblock s + 1) s).
Proof.
  intros Hb Hf. pose proof (b_fb s Hb). unfold next_block. run. unfold modify, mbind, M_bind, set_fb. rewrite u32_small; [done|].
  unfold is_u32. mk_lia.
Qed.

(** ** The blocks of one file *)

(** Inode [i] has the blocks 0, ..., nb - 1, and the indirect block if [ind]; every
    block belongs to it in [own]; their bytes are [C]. *)
Record irep (own : Z → Z * Z) (v : Z → block) (fb i : Z) (d : dinode) (ind : bool) (nb : Z) (C : Z → Z) : Prop := {
  r_ok : length (d_addrs d) = 13%nat ∧ Forall is_u32 (d_addrs d);
  r_nb : 0 <= nb <= MAXFILE;
  r_big : NDIRECT < nb → ind = true;
  r_blk : ∀ bn, 0 <= bn < nb → nmeta <= iblock v d bn < fb ∧ own (iblock v d bn) = (i, bn);
  r_ind : if ind then nmeta <= getZ (d_addrs d) NDIRECT < fb ∧ own (getZ (d_addrs d) NDIRECT) = (i, -1)
          else getZ (d_addrs d) NDIRECT = 0;
  r_none : ∀ bn, nb <= bn < MAXFILE → bn < NDIRECT ∨ ind = true → iblock v d bn = 0;
  r_content : ∀ o, 0 <= o < nb * BSZ → content v d o = C o
}.

(** What an operation on inode [i] does to the others. *)
Record grows (i : Z) (own own' : Z → Z * Z) (s s' : image) : Prop := {
  g_fb : im_freeblock s <= im_freeblock s';
  g_fi : im_freeinode s' = im_freeinode s;
  g_meta : ∀ b, b < nmeta → im_img s' b = im_img s b;
  g_own : ∀ b, b < im_freeblock s → own' b = own b;
  g_other : ∀ b, nmeta <= b < im_freeblock s → (own b).1 ≠ i → im_img s' b = im_img s b
}.

Lemma fs_grows_refl i own s : grows i own own s s.
Proof. by split. Qed.

Lemma fs_grows_trans i own own1 own2 s s1 s2 :
  grows i own own1 s s1 → grows i own1 own2 s1 s2 → grows i own own2 s s2.
Proof.
  intros [A1 A2 A3 A4 A5] [B1 B2 B3 B4 B5]. split; [lia|congruence| | |].
  - intros b Hb. by rewrite B3, A3.
  - intros b Hb. rewrite B4 by lia. by apply A4.
  - intros b Hb Ho. rewrite B5; [by apply A5|lia|]. by rewrite A4 by lia.
Qed.

(** The file only depends on its own blocks. *)
Lemma irep_frame own own' v v' fb fb' j d ind nb C :
  irep own v fb j d ind nb C → fb <= fb' →
  (∀ b, nmeta <= b < fb → (own b).1 = j → own' b = own b ∧ v' b = v b) → irep own' v' fb' j d ind nb C.
Proof.
  intros [H1 H2 H3 H4 H5 H6 H7] Hfb Hv.
  assert (ind = true → v' (getZ (d_addrs d) NDIRECT) = v (getZ (d_addrs d) NDIRECT)) as Hi.
  { intros ->. destruct H5 as [H5 Ho]. apply Hv; [done|]. by rewrite Ho. }
  assert (∀ bn, 0 <= bn < nb → iblock v' d bn = iblock v d bn) as Hib.
  { intros bn Hbn. apply iblock_ext. intros Hd. apply Hi, H3. lia. }
  split; try done.
  - intros bn Hbn. rewrite Hib by done. destruct (H4 bn Hbn) as [Hr Ho].
    destruct (Hv _ Hr) as [-> _]; [by rewrite Ho|]. split; [lia|done].
  - destruct ind; [|done]. destruct H5 as [Hr Ho]. destruct (Hv _ Hr) as [-> _]; [by rewrite Ho|]. split; [lia|done].
  - intros bn Hbn Hd. rewrite <-(H6 bn Hbn Hd). apply iblock_ext. intros Hge. apply Hi. destruct Hd; [lia|done].
  - intros o Ho. rewrite <-(H7 o Ho). unfold content. rewrite BSZ_eq in *.
    assert (0 <= o / 512 < nb) as Hbn by (Z.to_euclidean_division_equations; lia).
    rewrite Hib by done. destruct (H4 _ Hbn) as [Hr Hw]. destruct (Hv _ Hr) as [_ ->]; [by rewrite Hw|done].
Qed.

Lemma irep_grows i own own' s s' j d ind nb C :
  grows i own own' s s' → j ≠ i → irep own (im_img s) (im_freeblock s) j d ind nb C →
  irep own' (im_img s') (im_freeblock s') j d ind nb C.
Proof.
  intros [A1 A2 A3 A4 A5] Hj Hr. eapply irep_frame; [exact Hr|done|]. intros b Hb Ho.
  split; [apply A4; lia|apply A5; [done|by rewrite Ho]].
Qed.

Lemma getZ_addr d n a m : length (d_addrs d) = 13%nat → 0 <= n < 13 → 0 <= m →
  getZ (d_addrs (set_addr n a d)) m = if decide (m = n) then a else getZ (d_addrs d) m.
Proof. intros Hl Hn Hm. simpl. apply getZ_setZ; lia. Qed.

Lemma set_addr_ok d n a : length (d_addrs d) = 13%nat ∧ Forall is_u32 (d_addrs d) → is_u32 a →
  length (d_addrs (set_addr n a d)) = 13%nat ∧ Forall is_u32 (d_addrs (set_addr n a d)).
Proof. intros [H1 H2] Ha. simpl. split; [by rewrite length_setZ|]. by apply Forall_insert. Qed.

Lemma addr_u32 own v fb i d ind nb C n : irep own v fb i d ind nb C → 0 <= n < 13 → is_u32 (getZ (d_addrs d) n).
Proof.
  intros [[H1 H2] _ _ _ _ _ _] Hn. rewrite Forall_lookup in H2. apply (H2 (Z.to_nat n)).
  unfold getZ. apply list_lookup_lookup_total_lt. lia.
Qed.

(** The next free block goes to [x]. *)
Lemma grows_alloc own s x : base s → im_freeblock s < FSSIZE →
  grows x.1 own (fupd own (im_freeblock s) x) s (set_fb (im_freeblock s + 1) s) ∧ base (set_fb (im_freeblock s + 1) s).
Proof.
  intros Hb Hf. split; [|apply base_set_fb; [done|lia]]. split; simpl; try done; [lia|]. intros b Hlt. apply fupd_ne. lia.
Qed.

Lemma fresh_block s : base s → im_img s (im_freeblock s) = zero_block.
Proof. intros Hb. apply (b_fresh s Hb). lia. Qed.

Lemma zero_byte o : 0 <= o < 512 → getZ zero_block o = 0.
Proof.
  intros Ho. unfold getZ, zero_block. apply list_lookup_total_correct, lookup_replicate. split; [done|]. unfold BSIZE. lia.
Qed.

Lemma zero_word o : (o + 4 <= 512)%nat → getw 4 zero_block o = 0.
Proof.
  intros Ho. unfold getw, sub, zero_block. rewrite drop_replicate, take_replicate.
  replace (4 `min` (BSIZE - o))%nat with 4%nat by (unfold BSIZE; lia). reflexivity.
Qed.

Lemma getw_u32 l o : is_u32 (getw 4 l o).
Proof.
  unfold getw, is_u32. pose proof (le_val_range (sub l o 4)) as H. split; [lia|]. eapply Z.lt_le_trans; [apply H|].
  change 4294967296 with (2 ^ (8 * 4)). apply Z.pow_le_mono_r; [lia|]. unfold sub. rewrite length_take. lia.
Qed.

(** A new block for the place [nb], among the direct ones. *)
Lemma alloc_direct own s i d ind nb C :
  base s → im_freeblock s < FSSIZE → irep own (im_img s) (im_freeblock s) i d ind nb C → nb < NDIRECT →
  (∀ o, nb * BSZ <= o < (nb + 1) * BSZ → C o = 0) →
  irep (fupd own (im_freeblock s) (i, nb)) (im_img s) (im_freeblock s + 1) i (set_addr nb (im_freeblock s) d) ind (nb + 1) C.
Proof.
  intros Hb Hf Hr Hlt HC. pose proof (b_fb s Hb) as Hfb. set (fb := im_freeblock s) in *. set (own' := fupd own fb (i, nb)).
  assert (irep own' (im_img s) (fb + 1) i d ind nb C) as Hr'.
  { eapply irep_frame; [exact Hr|lia|]. intros b Hb' _. split; [|done]. apply fupd_ne. lia. }
  destruct Hr' as [H1 H2 H3 H4 H5 H6 H7]. clear Hr. pose proof H1 as [Hl _].
  assert (∀ m, 0 <= m → getZ (d_addrs (set_addr nb fb d)) m = if decide (m = nb) then fb else getZ (d_addrs d) m) as Ha
    by (intros m Hm; apply getZ_addr; [done|mk_lia|done]).
  assert (getZ (d_addrs (set_addr nb fb d)) NDIRECT = getZ (d_addrs d) NDIRECT) as H12.
  { rewrite Ha by mk_lia. rewrite decide_False by mk_lia. done. }
  assert (∀ bn, 0 <= bn → iblock (im_img s) (set_addr nb fb d) bn = if decide (bn = nb) then fb else iblock (im_img s) d bn) as Hib.
  { intros bn Hbn. unfold iblock. rewrite H12, Ha by done. destruct (Z.ltb_spec bn NDIRECT); [done|]. by rewrite decide_False by lia. }
  split.
  - apply set_addr_ok; [done|]. unfold is_u32. mk_lia.
  - mk_lia.
  - intros. lia.
  - intros bn Hbn. rewrite Hib by lia. case_decide as E; [|apply H4; lia].
    subst bn. unfold own'. rewrite fupd_eq. split; [lia|done].
  - by rewrite H12.
  - intros bn Hbn Hd. rewrite Hib by lia. rewrite decide_False by lia. apply H6; [lia|done].
  - intros o Ho. unfold content. rewrite BSZ_eq in *.
    rewrite Hib by (Z.to_euclidean_division_equations; lia). case_decide as E.
    + unfold fb. rewrite fresh_block by done. rewrite HC by (Z.to_euclidean_division_equations; lia).
      apply zero_byte, Z.mod_pos_bound. lia.
    + apply H7. Z.to_euclidean_division_equations; lia.
Qed.

(** A block of addresses for a file that needs one. *)
Lemma alloc_indirect own s i d C :
  base s → im_freeblock s < FSSIZE → irep own (im_img s) (im_freeblock s) i d false NDIRECT C →
  irep (fupd own (im_freeblock s) (i, -1)) (im_img s) (im_freeblock s + 1) i (set_addr NDIRECT (im_freeblock s) d) true NDIRECT C.
Proof.
  intros Hb Hf Hr. pose proof (b_fb s Hb) as Hfb. set (fb := im_freeblock s) in *. set (own' := fupd own fb (i, -1)).
  assert (irep own' (im_img s) (fb + 1) i d false NDIRECT C) as Hr'.
  { eapply irep_frame; [exact Hr|lia|]. intros b Hb' _. split; [|done]. apply fupd_ne. lia. }
  destruct Hr' as [H1 H2 H3 H4 H5 H6 H7]. clear Hr. pose proof H1 as [Hl _].
  assert (∀ m, 0 <= m → getZ (d_addrs (set_addr NDIRECT fb d)) m = if decide (m = NDIRECT) then fb else getZ (d_addrs d) m) as Ha
    by (intros m Hm; apply getZ_addr; [done|mk_lia|done]).
  assert (∀ bn, 0 <= bn < NDIRECT → iblock (im_img s) (set_addr NDIRECT fb d) bn = iblock (im_img s) d bn) as Hib.
  { intros bn Hbn. unfold iblock. rewrite (proj2 (Z.ltb_lt _ _)) by lia. rewrite Ha by lia. by rewrite decide_False by lia. }
  split; try done.
  - apply set_addr_ok; [done|]. unfold is_u32. mk_lia.
  - intros bn Hbn. rewrite Hib by lia. apply H4. lia.
  - rewrite Ha by mk_lia. rewrite decide_True by done. unfold own'. rewrite fupd_eq. split; [mk_lia|done].
  - intros bn Hbn _. unfold iblock. rewrite (proj2 (Z.ltb_ge _ _)) by lia. rewrite Ha by mk_lia.
    rewrite decide_True by done. unfold fb. rewrite fresh_block by done. apply zero_word. mk_lia.
  - intros o Ho. rewrite <-(H7 o Ho). unfold content. rewrite BSZ_eq in *.
    by rewrite Hib by (unfold NDIRECT in *; Z.to_euclidean_division_equations; lia).
Qed.

(** A new block for the place [nb], entered in the block of addresses. *)
Lemma alloc_entry own s i d nb C :
  let ind := getZ (d_addrs d) NDIRECT in let o := Z.to_nat (4 * (nb - NDIRECT)) in
  base s → im_freeblock s < FSSIZE → irep own (im_img s) (im_freeblock s) i d true nb C → NDIRECT <= nb < MAXFILE →
  (∀ o, nb * BSZ <= o < (nb + 1) * BSZ → C o = 0) →
  irep (fupd own (im_freeblock s) (i, nb)) (fupd (im_img s) ind (putw 4 (im_img s ind) o (im_freeblock s)))
    (im_freeblock s + 1) i d true (nb + 1) C.
Proof.
  intros ind o Hb Hf Hr Hlt HC. pose proof (b_fb s Hb) as Hfb. set (fb := im_freeblock s) in *.
  set (own' := fupd own fb (i, nb)). set (v := im_img s) in *. set (v' := fupd v ind _).
  pose proof Hr as [H1 H2 H3 H4 [Hi Hio] H6 H7].
  assert (length (v ind) = 512%nat) as Hlen by apply (b_blk s Hb).
  assert (∀ bn, 0 <= bn < MAXFILE → iblock v' d bn = if decide (bn = nb) then fb else iblock v d bn) as Hib.
  { intros bn Hbn. unfold iblock. destruct (Z.ltb_spec bn NDIRECT); [by rewrite decide_False by lia|].
    unfold v'. fold ind. rewrite fupd_eq. case_decide as E.
    - subst bn. unfold o. rewrite getw_putw_eq by mk_lia. apply Z.mod_small. change (2 ^ (8 * Z.of_nat 4)) with 4294967296. mk_lia.
    - unfold o. by rewrite getw_putw_ne by mk_lia. }
  assert (∀ bn, 0 <= bn < nb → iblock v d bn ≠ ind ∧ iblock v d bn ≠ fb) as Hne.
  { intros bn Hbn. destruct (H4 bn Hbn) as [Hr1 Ho1]. split; [|lia]. intros E. rewrite E in Ho1. unfold ind in Ho1.
    rewrite Hio in Ho1. injection Ho1. lia. }
  split; try done.
  - mk_lia.
  - intros bn Hbn. rewrite Hib by mk_lia. unfold own'. case_decide as E.
    + subst bn. rewrite fupd_eq. split; [lia|done].
    + rewrite fupd_ne by (apply Hne; lia). destruct (H4 bn ltac:(lia)). split; [lia|done].
  - unfold own'. rewrite fupd_ne by (fold ind in Hi; unfold ind in Hi; lia). split; [lia|done].
  - intros bn Hbn _. rewrite Hib by lia. rewrite decide_False by lia. apply H6; [lia|by right].
  - intros x Hx. unfold content. rewrite BSZ_eq in *.
    rewrite Hib by (rewrite MAXFILE_eq in *; Z.to_euclidean_division_equations; lia). unfold v'. case_decide as E.
    + rewrite fupd_ne by (fold ind in Hi; lia). unfold fb, v. rewrite fresh_block by done.
      rewrite HC by (Z.to_euclidean_division_equations; lia). apply zero_byte, Z.mod_pos_bound. lia.
    + rewrite fupd_ne by (apply Hne; Z.to_euclidean_division_equations; lia).
      rewrite <-(H7 x) by (Z.to_euclidean_division_equations; lia). unfold content. by rewrite BSZ_eq.
Qed.

(** New contents for a block of the file. *)
Lemma irep_write own s i d ind nb C bn buf :
  base s → irep own (im_img s) (im_freeblock s) i d ind nb C → 0 <= bn < nb →
  irep own (fupd (im_img s) (iblock (im_img s) d bn) buf) (im_freeblock s) i d ind nb
    (λ o, if decide (o / BSZ = bn) then getZ buf (o mod BSZ) else C o) ∧
  (length buf = BSIZE → let s' := set_block (iblock (im_img s) d bn) buf s in base s' ∧ grows i own own s s').
Proof.
  intros Hb [H1 H2 H3 H4 H5 H6 H7] Hbn. set (x := iblock (im_img s) d bn). set (v' := fupd _ x buf).
  destruct (H4 bn Hbn) as [Hxr Hxo]. fold x in Hxr, Hxo. split.
  - assert (ind = true → getZ (d_addrs d) NDIRECT ≠ x) as Hix.
    { intros -> E. destruct H5 as [_ H5]. rewrite E in H5. rewrite Hxo in H5. injection H5. lia. }
    assert (∀ n, n < NDIRECT ∨ ind = true → iblock v' d n = iblock (im_img s) d n) as Hib.
    { intros n Hn. apply iblock_ext. intros Hge. unfold v'. apply fupd_ne, Hix. destruct Hn; [lia|done]. }
    assert (∀ n, 0 <= n < nb → n < NDIRECT ∨ ind = true) as Hcase.
    { intros n Hn. destruct (decide (n < NDIRECT)); [by left|]. right. apply H3. lia. }
    split; try done.
    + intros n Hn. rewrite Hib by auto. by apply H4.
    + intros n Hn Hc. rewrite Hib by done. by apply H6.
    + intros o Ho. unfold content. rewrite BSZ_eq in *.
      assert (0 <= o / 512 < nb) as Hn by (Z.to_euclidean_division_equations; lia). rewrite Hib by auto.
      unfold v'. case_decide as E; [rewrite E; fold x; by rewrite fupd_eq|].
      rewrite fupd_ne; [rewrite <-(H7 o Ho); unfold content; by rewrite BSZ_eq|].
      destruct (H4 _ Hn) as [_ Hw]. intros E'. rewrite E' in Hw. rewrite Hxo in Hw. injection Hw. lia.
  - intros Hl. split; [apply base_set_block; [done|done|lia]|]. split; simpl; try done.
    + intros b Hlt. apply fupd_ne. lia.
    + intros b Hlt Ho. apply fupd_ne. intros ->. by rewrite Hxo in Ho.
Qed.

(** ** iappend *)

Definition nblk (nb : Z) : Z := nb + Z.b2z (NDIRECT <? nb).
Definition blocks_of (n : Z) : Z := (n + 511) / 512.
(** The bytes of a file, zero behind them. *)
Definition byte_of (data : list Z) (o : Z) : Z := default 0 (data !! Z.to_nat o).

Lemma have_addr_old n d s : getZ (d_addrs d) n ≠ 0 → is_u32 (getZ (d_addrs d) n) → have_addr n d s = Ok d s.
Proof. intros Hz Hu. unfold have_addr. rewrite xint_small by done. by rewrite (proj2 (Z.eqb_neq _ _) Hz). Qed.

Lemma have_addr_new n d s : base s → im_freeblock s < FSSIZE → getZ (d_addrs d) n = 0 →
  have_addr n d s = Ok (set_addr n (im_freeblock s) d) (set_fb (im_freeblock s + 1) s).
Proof.
  intros Hb Hf Hz. pose proof (b_fb s Hb). unfold have_addr. rewrite Hz. change (xint 0 =? 0) with true. cbv iota.
  rewrite (bind_run _ _ _ _ _ (next_block_run s Hb Hf)). rewrite xint_small; [done|]. unfold is_u32. mk_lia.
Qed.

(** An outcome of file_block: the file has the place [bn], and the rest is as before. *)
Definition placed own s i d nb C bn (r : dinode * Z) s' : Prop :=
  ∃ own' a, r.1 = Dinode (d_type d) (d_major d) (d_minor d) (d_nlink d) (d_size d) a ∧
    r.2 = iblock (im_img s') r.1 bn ∧ base s' ∧ grows i own own' s s' ∧
    im_freeblock s' = im_freeblock s + nblk (Z.max nb (bn + 1)) - nblk nb ∧
    irep own' (im_img s') (im_freeblock s') i r.1 (NDIRECT <? Z.max nb (bn + 1)) (Z.max nb (bn + 1)) C.

Lemma file_block_direct own s i d nb C bn :
  base s → irep own (im_img s) (im_freeblock s) i d (NDIRECT <? nb) nb C → 0 <= bn <= nb → bn < NDIRECT →
  im_freeblock s + nblk (Z.max nb (bn + 1)) - nblk nb <= FSSIZE →
  (∀ o, nb * BSZ <= o < (nb + 1) * BSZ → C o = 0) →
  wp (file_block bn d) (placed own s i d nb C bn) s.
Proof.
  intros Hb Hr Hbn Hlt Hroom HC. unfold file_block. rewrite (proj2 (Z.ltb_lt _ _) Hlt).
  pose proof Hr as [Hok Hnb Hbig Hblk Hind Hnone Hcon]. pose proof (b_fb s Hb) as Hfb.
  assert (iblock (im_img s) d bn = getZ (d_addrs d) bn) as Hi by (unfold iblock; by rewrite (proj2 (Z.ltb_lt _ _) Hlt)).
  destruct (decide (bn = nb)) as [->|Hne].
  - rewrite Z.max_r in Hroom by lia. unfold nblk in Hroom. rewrite !(proj2 (Z.ltb_ge NDIRECT _)) in Hroom by lia.
    assert (im_freeblock s < FSSIZE) as Hf by (simpl in Hroom; lia).
    pose proof (Hnone nb ltac:(mk_lia) (or_introl Hlt)) as Hz. rewrite Hi in Hz.
    eapply wp_bind, wp_intro; [by apply have_addr_new|]. apply wp_ret.
    destruct (grows_alloc own s (i, nb) Hb Hf) as [Hg Hb']. eexists _, _.
    split; [unfold set_addr; reflexivity|]. split.
    { unfold iblock. rewrite (proj2 (Z.ltb_lt _ _) Hlt). cbn [fst snd im_img set_fb]. apply xint_small.
      rewrite getZ_addr by (by apply Hok || mk_lia). rewrite decide_True by done. unfold is_u32. mk_lia. }
    split; [done|]. split; [exact Hg|]. rewrite Z.max_r by lia. unfold nblk.
    rewrite (proj2 (Z.ltb_ge NDIRECT nb)), (proj2 (Z.ltb_ge NDIRECT (nb + 1))) in * by lia.
    split; [simpl; lia|]. simpl. by apply alloc_direct.
  - destruct (Hblk bn ltac:(lia)) as [Hr1 _]. rewrite Hi in Hr1.
    eapply wp_bind, wp_intro; [apply have_addr_old; [mk_lia|unfold is_u32; mk_lia]|]. apply wp_ret.
    exists own, (d_addrs d). split; [by destruct d|]. split; [simpl; rewrite Hi; apply xint_small; unfold is_u32; mk_lia|].
    split; [done|]. split; [apply fs_grows_refl|]. rewrite Z.max_l by lia. split; [lia|done].
Qed.

(** Past the direct blocks, once there is a block of addresses. *)
Lemma file_block_entry own s i d nb C bn :
  base s → irep own (im_img s) (im_freeblock s) i d true nb C → 0 <= bn <= nb → NDIRECT <= bn < MAXFILE →
  im_freeblock s + (Z.max nb (bn + 1) - nb) <= FSSIZE →
  (∀ o, nb * BSZ <= o < (nb + 1) * BSZ → C o = 0) →
  wp (let ind := xint (getZ (d_addrs d) NDIRECT) in
      let o := Z.to_nat (4 * (bn - NDIRECT)) in
      indirect ← rsect ind;
      indirect ← (if getw 4 indirect o =? 0 then
                    b ← next_block;
                    let indirect := putw 4 indirect o (xint b) in
                    wsect ind indirect;;
                    mret indirect
                  else mret indirect);
      mret (d, xint (getw 4 indirect o)))
    (λ r s', ∃ own', r = (d, iblock (im_img s') d bn) ∧ base s' ∧ grows i own own' s s' ∧
       im_freeblock s' = im_freeblock s + (Z.max nb (bn + 1) - nb) ∧
       irep own' (im_img s') (im_freeblock s') i d true (Z.max nb (bn + 1)) C) s.
Proof.
  intros Hb Hr Hbn Hge Hroom HC. pose proof Hr as [Hok Hnb Hbig Hblk [Hi Hio] Hnone Hcon]. pose proof (b_fb s Hb) as Hfb.
  set (a := getZ (d_addrs d) NDIRECT) in *. cbv zeta. rewrite (xint_small a) by (unfold is_u32; mk_lia).
  set (o := Z.to_nat (4 * (bn - NDIRECT))).
  assert (getw 4 (im_img s a) o = iblock (im_img s) d bn) as Hw.
  { unfold iblock. rewrite (proj2 (Z.ltb_ge _ _)) by lia. reflexivity. }
  eapply wp_bind, wp_intro; [apply rsect_run; [done|mk_lia]|]. rewrite Hw. destruct (decide (bn = nb)) as [->|Hne].
  - rewrite Z.max_r in * by lia. assert (im_freeblock s < FSSIZE) as Hf by lia.
    rewrite (Hnone nb) by (lia || by right). cbn [Z.eqb].
    destruct (grows_alloc own s (i, nb) Hb Hf) as [Hg Hb1]. set (fb := im_freeblock s) in *.
    pose proof (alloc_entry own s i d nb C Hb Hf Hr Hge HC) as Hr'. cbv zeta in Hr'. fold a o fb in Hr'.
    set (buf := putw 4 (im_img s a) o fb) in *.
    assert (length buf = BSIZE) as Hl.
    { unfold buf. rewrite length_putw; [apply Hb|]. rewrite (b_blk s Hb). unfold o, BSIZE. mk_lia. }
    eapply wp_bind, wp_bind, wp_intro; [by apply next_block_run|]. fold fb. rewrite xint_small by (unfold is_u32; mk_lia).
    fold buf. eapply wp_bind, wp_intro; [apply wsect_run; [done|mk_lia]|]. apply wp_ret, wp_ret.
    assert (base (set_block a buf (set_fb (fb + 1) s))) as Hb2 by (apply base_set_block; [done|done|simpl; lia]).
    eexists (fupd own fb (i, nb)). split.
    { f_equal. unfold iblock. rewrite (proj2 (Z.ltb_ge _ _)) by lia. fold a. simpl. rewrite fupd_eq. fold o.
      apply xint_small, getw_u32. }
    split; [done|]. split.
    { eapply fs_grows_trans; [exact Hg|]. split; simpl; try done.
      - intros b Hlt. apply fupd_ne. lia.
      - intros b Hlt Ho. apply fupd_ne. intros ->. rewrite fupd_ne in Ho by lia. by rewrite Hio in Ho. }
    split; [simpl; lia|]. exact Hr'.
  - destruct (Hblk bn ltac:(lia)) as [Hr1 _]. rewrite (proj2 (Z.eqb_neq _ _)) by mk_lia.
    apply wp_bind, wp_ret, wp_ret. exists own. rewrite Hw, xint_small by (unfold is_u32; mk_lia). split; [done|].
    split; [done|]. split; [apply fs_grows_refl|]. rewrite Z.max_l by lia. split; [lia|done].
Qed.

Lemma file_block_run own s i d nb C bn :
  base s → irep own (im_img s) (im_freeblock s) i d (NDIRECT <? nb) nb C → 0 <= bn <= nb → bn < MAXFILE →
  im_freeblock s + nblk (Z.max nb (bn + 1)) - nblk nb <= FSSIZE →
  (∀ o, nb * BSZ <= o < (nb + 1) * BSZ → C o = 0) →
  wp (file_block bn d) (placed own s i d nb C bn) s.
Proof.
  intros Hb Hr Hbn Hmax Hroom HC. destruct (decide (bn < NDIRECT)) as [Hlt|Hge]; [by apply file_block_direct|].
  unfold file_block. rewrite (proj2 (Z.ltb_ge _ _)) by lia. pose proof Hr as [Hok Hnb Hbig Hblk Hind Hnone Hcon].
  pose proof (b_fb s Hb) as Hfb. unfold nblk in Hroom. unfold placed, nblk.
  rewrite (proj2 (Z.ltb_lt NDIRECT (Z.max nb (bn + 1)))) in * by lia. cbn [Z.b2z] in *.
  destruct (Z.ltb_spec NDIRECT nb) as [Hn|Hn].
  - destruct Hind as [Hi Hio]. eapply wp_bind, wp_intro.
    { apply have_addr_old; [mk_lia|]. eapply addr_u32; [exact Hr|mk_lia]. }
    eapply wp_mono; [apply (file_block_entry own s i d nb C bn); [done|done|done|lia|simpl in Hroom; lia|done]|].
    intros r s' (own' & -> & A & B & D & E). exists own', (d_addrs d). split; [by destruct d|]. split; [done|].
    split; [done|]. split; [done|]. split; [simpl; lia|done].
  - assert (nb = NDIRECT ∧ bn = NDIRECT) as [-> ->] by lia. simpl in Hroom.
    assert (im_freeblock s < FSSIZE) as Hf by lia.
    eapply wp_bind, wp_intro; [by apply have_addr_new|].
    destruct (grows_alloc own s (i, -1) Hb Hf) as [Hg Hb1].
    pose proof (alloc_indirect own s i d C Hb Hf Hr) as Hr1.
    eapply wp_mono; [apply (file_block_entry _ (set_fb (im_freeblock s + 1) s) i _ NDIRECT C NDIRECT Hb1 Hr1); [lia|mk_lia|simpl; lia|done]|].
    intros r s' (own' & -> & A & B & D & E). eexists own', _. split; [unfold set_addr; reflexivity|]. split; [done|].
    split; [done|]. split; [by eapply fs_grows_trans|]. simpl in D. split; [simpl; lia|done].
Qed.

Lemma byte_of_app data p o : 0 <= o →
  byte_of (data ++ p) o = if decide (Z.of_nat (length data) <= o) then byte_of p (o - Z.of_nat (length data)) else byte_of data o.
Proof.
  intros Ho. unfold byte_of. case_decide.
  - rewrite lookup_app_r by lia. do 2 f_equal. lia.
  - by rewrite lookup_app_l by lia.
Qed.

Lemma byte_of_end data o : Z.of_nat (length data) <= o → byte_of data o = 0.
Proof. intros Ho. unfold byte_of. by rewrite lookup_ge_None_2 by lia. Qed.

Lemma byte_of_take data n o : 0 <= o < n → byte_of (take (Z.to_nat n) data) o = byte_of data o.
Proof. intros Ho. unfold byte_of. by rewrite lookup_take_lt by lia. Qed.

Lemma getZ_byte (l : list Z) o : 0 <= o < Z.of_nat (length l) → getZ l o = byte_of l o.
Proof.
  intros Ho. unfold getZ, byte_of. rewrite list_lookup_total_alt. destruct (lookup_lt_is_Some_2 l (Z.to_nat o)) as [x ->]; [lia|done].
Qed.

Lemma irep_ext own v fb i d ind nb C C' :
  irep own v fb i d ind nb C → (∀ o, 0 <= o < nb * BSZ → C o = C' o) → irep own v fb i d ind nb C'.
Proof. intros [H1 H2 H3 H4 H5 H6 H7] H. split; try done. intros o Ho. rewrite <-H by done. by apply H7. Qed.

(** One round: the part of [p] that goes to the block [bn]. *)
Lemma splice_block (buf p data : list Z) bn n1 :
  let len := Z.of_nat (length data) in
  length buf = BSIZE → bn = len / 512 → 0 < n1 <= Z.of_nat (length p) → n1 <= (bn + 1) * 512 - len →
  (∀ j, 0 <= j < 512 → getZ buf j = byte_of data (bn * 512 + j)) →
  let buf' := splice buf (Z.to_nat (len - bn * 512)) (take (Z.to_nat n1) p) in
  length buf' = BSIZE ∧ ∀ j, 0 <= j < 512 → getZ buf' j = byte_of (data ++ take (Z.to_nat n1) p) (bn * 512 + j).
Proof.
  intros len Hl Hbn Hn Hn1 Hbuf buf'.
  assert (bn * 512 <= len < (bn + 1) * 512) as Hlen by (subst bn; unfold len; Z.to_euclidean_division_equations; lia).
  assert (length (take (Z.to_nat n1) p) = Z.to_nat n1) as Ht by (rewrite length_take; lia).
  assert (length buf' = BSIZE) as Hl'.
  { unfold buf'. rewrite length_splice; [done|]. rewrite Hl, Ht. unfold BSIZE. lia. }
  split; [done|]. intros j Hj. rewrite getZ_byte by (rewrite Hl'; unfold BSIZE; lia). unfold byte_of at 1. unfold buf'.
  rewrite lookup_splice by (rewrite Hl, Ht; unfold BSIZE; lia). rewrite Ht, byte_of_app by lia. fold len.
  case_decide as E.
  - rewrite decide_True by lia. unfold byte_of. do 2 f_equal. lia.
  - change (default 0 (buf !! Z.to_nat j)) with (byte_of buf j). rewrite <-getZ_byte by (rewrite Hl; unfold BSIZE; lia).
    rewrite Hbuf by done. case_decide; [|done]. rewrite !byte_of_end by lia. done.
Qed.

Lemma iappend_loop_run i : ∀ fuel p s own d data,
  (length p < fuel)%nat → base s → let len := Z.of_nat (length data) in
  irep own (im_img s) (im_freeblock s) i d (NDIRECT <? blocks_of len) (blocks_of len) (byte_of data) →
  let len' := Z.of_nat (length (data ++ p)) in len' <= MAXFILE * BSZ →
  im_freeblock s + nblk (blocks_of len') - nblk (blocks_of len) <= FSSIZE →
  wp (iappend_loop fuel p len d) (λ r s', ∃ own' a,
    r = (len', Dinode (d_type d) (d_major d) (d_minor d) (d_nlink d) (d_size d) a) ∧ base s' ∧ grows i own own' s s' ∧
    im_freeblock s' = im_freeblock s + nblk (blocks_of len') - nblk (blocks_of len) ∧
    irep own' (im_img s') (im_freeblock s') i r.2 (NDIRECT <? blocks_of len') (blocks_of len') (byte_of (data ++ p))) s.
Proof.
  induction fuel as [|fuel IH]; intros p s own d data Hfuel Hb len Hr len' Hmax Hroom; [lia|]. cbn [iappend_loop].
  destruct (Z.ltb_spec 0 (Z.of_nat (length p))) as [Hp|Hp].
  2: { destruct p; [|simpl in Hp; lia]. unfold len'. rewrite app_nil_r. fold len. apply wp_ret. exists own, (d_addrs d). split; [by destruct d|].
    split; [done|]. split; [apply fs_grows_refl|]. split; [lia|done]. }
  rewrite BSZ_eq, MAXFILE_eq in *. set (bn := len / 512). set (nb := blocks_of len) in *. pose proof (b_fb s Hb) as Hfb.
  assert (len' = len + Z.of_nat (length p)) as Hlen' by (unfold len', len; rewrite length_app; lia).
  assert (0 <= bn <= nb ∧ bn < 140 ∧ nb <= bn + 1) as (Hbn & Hbm & Hnb)
    by (unfold bn, nb, blocks_of, len in *; Z.to_euclidean_division_equations; lia).
  rewrite (proj2 (Z.ltb_lt _ _) Hbm). apply wp_bind, wp_panic_if; [done|].
  set (n1 := Z.min (Z.of_nat (length p)) (u32 ((bn + 1) * 512 - len))).
  assert (n1 = Z.min (Z.of_nat (length p)) ((bn + 1) * 512 - len)) as Hn1
    by (unfold n1; rewrite u32_small; [done|unfold is_u32, bn, len; Z.to_euclidean_division_equations; lia]).
  assert (0 < n1 <= Z.of_nat (length p) ∧ n1 <= (bn + 1) * 512 - len) as [Hn2 Hn3]
    by (rewrite Hn1; unfold bn; Z.to_euclidean_division_equations; lia).
  set (q := take (Z.to_nat n1) p). assert (Z.of_nat (length q) = n1) as Hq by (unfold q; rewrite length_take; lia).
  assert (Z.of_nat (length (data ++ q)) = len + n1) as Hdq by (rewrite length_app; unfold len; lia).
  assert (blocks_of (len + n1) = bn + 1) as Hnb' by (unfold blocks_of, bn in *; Z.to_euclidean_division_equations; lia).
  assert (nblk (bn + 1) <= nblk (blocks_of len')) as Hmono.
  { assert (bn + 1 <= blocks_of len') by (unfold blocks_of in *; Z.to_euclidean_division_equations; lia).
    unfold nblk. destruct (Z.ltb_spec NDIRECT (bn + 1)), (Z.ltb_spec NDIRECT (blocks_of len')); simpl; lia. }
  eapply wp_bind, wp_mono; [apply (file_block_run own s i d nb (byte_of data) bn)|]; try done; try mk_lia.
  { rewrite Z.max_r by lia. mk_lia. }
  { intros o Ho. apply byte_of_end. fold len. unfold nb, blocks_of in Ho. rewrite BSZ_eq in Ho. Z.to_euclidean_division_equations; lia. }
  intros [d1 x] s1 (own1 & a1 & E1 & E2 & Hb1 & Hg1 & Hf1 & Hr1). rewrite Z.max_r in * by lia. cbn [fst snd] in *.
  pose proof (r_blk _ _ _ _ _ _ _ _ Hr1 bn ltac:(lia)) as [Hx _]. rewrite <-E2 in Hx. pose proof (b_fb s1 Hb1).
  eapply wp_bind, wp_intro; [apply rsect_run; [done|mk_lia]|].
  eapply wp_bind, wp_intro; [apply wsect_run; [done|mk_lia]|].
  destruct (splice_block (im_img s1 x) p data bn n1 (b_blk s1 Hb1 x) eq_refl Hn2 Hn3) as [Hl Hbuf].
  { intros j Hj. rewrite <-(r_content _ _ _ _ _ _ _ _ Hr1) by (rewrite BSZ_eq; lia). unfold content. rewrite BSZ_eq.
    assert ((bn * 512 + j) / 512 = bn ∧ (bn * 512 + j) mod 512 = j) as [-> ->] by (Z.to_euclidean_division_equations; lia).
    by rewrite E2. }
  fold len q in Hl, Hbuf. fold q. set (buf := splice _ _ q) in *.
  destruct (irep_write own1 s1 i d1 _ _ _ bn buf Hb1 Hr1) as [Hr2 Hw]; [lia|]. destruct (Hw Hl) as [Hb2 Hg2]. rewrite <-E2 in *.
  rewrite (u32_small (len + n1)) by (unfold is_u32, len; lia). rewrite <-Hdq.
  assert ((data ++ q) ++ drop (Z.to_nat n1) p = data ++ p) as Hcat by (rewrite <-app_assoc; unfold q; by rewrite take_drop).
  eapply wp_mono; [apply (IH (drop (Z.to_nat n1) p) (set_block x buf s1) own1 d1 (data ++ q))|].
  - rewrite length_drop. lia.
  - done.
  - rewrite Hdq, Hnb'. eapply irep_ext; [exact Hr2|]. cbv beta. rewrite BSZ_eq. intros o Ho. case_decide as E.
    + rewrite Hbuf by (apply Z.mod_pos_bound; lia). f_equal. Z.to_euclidean_division_equations; lia.
    + rewrite byte_of_app by lia. rewrite decide_False; [done|]. fold len. intros Hge. apply E. unfold bn. Z.to_euclidean_division_equations; lia.
  - by rewrite Hcat.
  - rewrite Hcat. fold len'. rewrite Hdq, Hnb'. simpl. lia.
  - intros r s2 (own2 & a2 & -> & Hb3 & Hg3 & Hf3 & Hr3). rewrite Hcat in *. fold len' in Hf3, Hr3. fold len'. exists own2, a2. split; [by rewrite E1|]. split; [done|].
    split; [eapply fs_grows_trans; [exact Hg1|]; by eapply fs_grows_trans|]. rewrite Hdq, Hnb' in Hf3. simpl in Hf3. split; [lia|exact Hr3].
Qed.

(** ** The files of the image *)

Definition sb_block : block := splice zero_block 0 (sb_bytes mk_sb).
Definition file_len (data : list Z) : Z := Z.of_nat (length data).

(** Inode [i] on the disk is that of a file of type [t] with the bytes [data]. *)
Definition holds_file own s (i t : Z) (data : list Z) : Prop :=
  let d := dinode_at mk_sb (im_img s) i in let nb := blocks_of (file_len data) in
  d = Dinode t 0 0 1 (file_len data) (d_addrs d) ∧ file_len data <= MAXFILE * BSZ ∧
  irep own (im_img s) (im_freeblock s) i d (NDIRECT <? nb) nb (byte_of data).

Record fsys (own : Z → Z * Z) (s : image) (fs : list (Z * list Z)) : Prop := {
  f_base : base s;
  f_free : im_freeinode s = 1 + Z.of_nat (length fs);
  f_room : Z.of_nat (length fs) < ninodeblocks * IPB;
  f_type : Forall (λ f, is_s16 f.1) fs;
  f_meta : ∀ b, b < sb_inodestart mk_sb ∨ b = sb_bmapstart mk_sb → im_img s b = if decide (b = 1) then sb_block else zero_block;
  f_files : ∀ i t data, fs !! i = Some (t, data) → holds_file own s (1 + Z.of_nat i) t data
}.

Lemma inode_block i : 0 <= i < 208 → 32 <= IBLOCK i mk_sb < 58 ∧ u32 (IBLOCK i mk_sb) = IBLOCK i mk_sb.
Proof.
  intros Hi. assert (32 <= IBLOCK i mk_sb < 58) as H.
  { unfold IBLOCK. change IPB with 8. change (sb_inodestart mk_sb) with 32. Z.to_euclidean_division_equations; lia. }
  split; [done|]. apply u32_small. unfold is_u32. lia.
Qed.

Lemma rinode_run i s : base s → 0 <= i < 208 → rinode i s = Ok (dinode_at mk_sb (im_img s) i) s.
Proof.
  intros Hb Hi. destruct (inode_block i Hi) as [Hr Hu]. unfold rinode. run. rewrite (b_sb s Hb), Hu.
  by rewrite (bind_run _ _ _ _ _ (rsect_run (IBLOCK i mk_sb) s Hb ltac:(mk_lia))).
Qed.

(** A new inode [i] on the disk: the other inodes, and the files, are as before. *)
Lemma winode_run i d s : base s → 0 <= i < 208 → dinode_ok d →
  ∃ s', winode i d s = Ok tt s' ∧ base s' ∧ im_freeinode s' = im_freeinode s ∧ im_freeblock s' = im_freeblock s ∧
    (∀ b, nmeta <= b ∨ b < 32 ∨ b = 58 → im_img s' b = im_img s b) ∧
    ∀ j, 0 <= j → dinode_at mk_sb (im_img s') j = if decide (j = i) then d else dinode_at mk_sb (im_img s) j.
Proof.
  intros Hb Hi Hd. destruct (inode_block i Hi) as [Hr Hu]. pose proof (b_fb s Hb). unfold winode. run. rewrite (b_sb s Hb), Hu.
  rewrite (bind_run _ _ _ _ _ (rsect_run (IBLOCK i mk_sb) s Hb ltac:(mk_lia))).
  rewrite wsect_run by (done || mk_lia). eexists. split; [done|]. pose proof (dip_off_bound i).
  split; [apply base_set_block; [done| |mk_lia]; rewrite dinode_put_length; [apply Hb|by rewrite (b_blk s Hb)|apply Hd]|].
  do 2 (split; [done|]). split.
  - intros b Hb'. simpl. apply fupd_ne. mk_lia.
  - intros j Hj. simpl. apply dinode_at_put; [apply Hb|done|lia|done].
Qed.

Lemma irep_meta own s s' i d ind nb C :
  irep own (im_img s) (im_freeblock s) i d ind nb C → im_freeblock s' = im_freeblock s →
  (∀ b, nmeta <= b → im_img s' b = im_img s b) → irep own (im_img s') (im_freeblock s') i d ind nb C.
Proof. intros Hr Hf H. rewrite Hf. eapply irep_frame; [exact Hr|lia|]. intros b Hb _. split; [done|]. apply H. lia. Qed.

(** The contents of inode [i] do not depend on the rest of its record. *)
Lemma irep_size own v fb i d d' ind nb C :
  d_addrs d' = d_addrs d → irep own v fb i d ind nb C → irep own v fb i d' ind nb C.
Proof.
  intros E [H1 H2 H3 H4 H5 H6 H7].
  assert (∀ bn, iblock v d' bn = iblock v d bn) as Hib by (intros bn; unfold iblock; by rewrite E).
  split; try done.
  - by rewrite E.
  - intros bn Hbn. rewrite Hib. by apply H4.
  - by rewrite E.
  - intros bn Hbn Hc. rewrite Hib. by apply H6.
  - intros o Ho. unfold content. rewrite Hib. by apply H7.
Qed.

Lemma mk_ialloc_run own s fs t : fsys own s fs → Z.of_nat (length fs) < ninodeblocks * IPB - 1 → is_s16 t →
  wp (mk_ialloc t) (λ i s', i = 1 + Z.of_nat (length fs) ∧ im_freeblock s' = im_freeblock s ∧ fsys own s' (fs ++ [(t, [])])) s.
Proof.
  intros [Hb Hf Hroom Ht Hm Hfs] Hr Hty. change (ninodeblocks * IPB) with 208 in *.
  unfold mk_ialloc. eapply wp_bind, wp_gets. rewrite Hf. set (i := 1 + Z.of_nat (length fs)).
  eapply wp_bind, wp_modify. set (s0 := Image _ _ _ _ _). set (d0 := Dinode _ _ _ _ _ _).
  assert (d0 = Dinode t 0 0 1 0 (replicate 13 0)) as Ed.
  { unfold d0. f_equal. unfold xshort. rewrite Z.shiftr_div_pow2 by lia. cbn [le_val]. change (2 ^ 8) with 256.
    unfold is_s16 in Hty. zmod. }
  assert (base s0) as Hb0 by (by destruct Hb; split).
  assert (dinode_ok d0) as Hd0.
  { rewrite Ed. split; simpl; try done; unfold is_u32; try lia. split; [done|]. repeat constructor; unfold is_u32; lia. }
  destruct (winode_run i d0 s0 Hb0 ltac:(lia) Hd0) as (s' & Hrun & Hb' & Hfi & Hfb & Himg & Hdin).
  eapply wp_bind, wp_intro; [exact Hrun|]. apply wp_ret. split; [done|]. split; [by rewrite Hfb|]. split; try done.
  - rewrite Hfi. simpl. rewrite length_app. cbn [length]. rewrite u32_small; unfold is_u32; lia.
  - rewrite length_app. cbn [length]. change (ninodeblocks * IPB) with 208. lia.
  - apply Forall_app. split; [done|by constructor].
  - intros b Hb1. rewrite Himg; [by apply Hm|]. change (sb_inodestart mk_sb) with 32 in Hb1. change (sb_bmapstart mk_sb) with 58 in Hb1. lia.
  - intros j t' data Hj. unfold holds_file. rewrite Hdin by lia. apply lookup_app_Some in Hj as [Hj|[Hge Hj]].
    + pose proof (lookup_lt_Some _ _ _ Hj). rewrite decide_False by (unfold i; lia). destruct (Hfs j t' data Hj) as (H1 & H2 & H3).
      split; [done|]. split; [done|]. eapply irep_meta; [exact H3|by rewrite Hfb|]. intros b Hb1. rewrite Himg by lia. done.
    + apply list_lookup_singleton_Some in Hj as [Hj [= <- <-]]. rewrite decide_True by lia. rewrite Ed.
      split; [done|]. split; [by vm_compute|]. pose proof (b_fb s' Hb'). cbv zeta. change (blocks_of (file_len [])) with 0. split; try done.
      * simpl. split; [done|]. repeat constructor; unfold is_u32; lia.
      * intros bn Hbn. lia.
      * intros bn Hbn Hc. destruct Hc as [Hc|Hc]; [|by vm_compute in Hc]. unfold iblock. rewrite (proj2 (Z.ltb_lt _ _) Hc).
        unfold getZ. apply list_lookup_total_correct. apply (lookup_replicate 13 0). split; [done|]. mk_lia.
      * intros o Ho. lia.
Qed.

(** The blocks that a file of [n] bytes takes. *)
Definition need (n : Z) : Z := nblk (blocks_of n).

Lemma iappend_run own s fs i t data p :
  fsys own s fs → fs !! i = Some (t, data) → file_len (data ++ p) <= MAXFILE * BSZ →
  im_freeblock s + need (file_len (data ++ p)) - need (file_len data) <= FSSIZE →
  wp (iappend (1 + Z.of_nat i) p) (λ _ s', ∃ own', fsys own' s' (<[i := (t, data ++ p)]> fs) ∧
    im_freeblock s' = im_freeblock s + need (file_len (data ++ p)) - need (file_len data)) s.
Proof.
  intros [Hb Hf Hroom Ht Hm Hfs] Hi Hmax Hneed. change (ninodeblocks * IPB) with 208 in *.
  pose proof (lookup_lt_Some _ _ _ Hi) as Hlt. destruct (Hfs i t data Hi) as (H1 & H2 & H3). set (d := dinode_at _ _ _) in *.
  assert (is_s16 t) as Hst by (rewrite Forall_lookup in Ht; apply (Ht i (t, data) Hi)).
  set (ino := 1 + Z.of_nat i) in *. unfold iappend. eapply wp_bind, wp_intro; [apply rinode_run; [done|lia]|]. fold d.
  assert (d_size d = file_len data) as Hsz by (by rewrite H1). rewrite Hsz.
  rewrite MAXFILE_eq, BSZ_eq in *. assert (0 <= file_len data) by (unfold file_len; lia). rewrite xint_small by (unfold is_u32; lia).
  eapply wp_bind, wp_mono; [apply (iappend_loop_run ino (S (length p)) p s own d data); [lia|done|exact H3| |exact Hneed]|].
  { by rewrite MAXFILE_eq, BSZ_eq. }
  intros r s1 (own1 & a & Er & Hb1 & Hg & Hf1 & Hr1). rewrite Er in *. cbn [fst snd] in *.
  change (Z.of_nat (length (data ++ p))) with (file_len (data ++ p)) in *. set (len' := file_len (data ++ p)) in *.
  rewrite xint_small by (unfold is_u32, len', file_len in *; lia).
  assert (set_size len' (Dinode (d_type d) (d_major d) (d_minor d) (d_nlink d) (d_size d) a) = Dinode t 0 0 1 len' a) as Ed.
  { change (Dinode (d_type d) (d_major d) (d_minor d) (d_nlink d) len' a = Dinode t 0 0 1 len' a). by rewrite H1. }
  rewrite Ed. destruct (winode_run ino (Dinode t 0 0 1 len' a) s1) as (s' & Hrun & Hb' & Hfi & Hfb & Himg & Hdin); [done|lia| |].
  { split; simpl; try done; unfold is_u32, len', file_len in *; try lia. apply (r_ok _ _ _ _ _ _ _ _ Hr1). }
  eapply wp_intro; [exact Hrun|]. exists own1. split; [|rewrite Hfb; exact Hf1].
  split; try done.
  - rewrite Hfi, (g_fi _ _ _ _ _ Hg), length_insert. done.
  - rewrite length_insert. done.
  - by apply Forall_insert.
  - intros b Hb2. change (sb_inodestart mk_sb) with 32 in Hb2. change (sb_bmapstart mk_sb) with 58 in Hb2.
    rewrite Himg by lia. rewrite (g_meta _ _ _ _ _ Hg) by mk_lia. by apply Hm.
  - intros j t' data' Hj. unfold holds_file. rewrite Hdin by lia. destruct (decide (j = i)) as [->|Hne].
    + rewrite list_lookup_insert_eq in Hj by done. injection Hj as <- <-. fold ino len'. rewrite decide_True by done.
      split; [done|]. split; [by rewrite MAXFILE_eq, BSZ_eq|]. eapply irep_size; [|eapply irep_meta; [exact Hr1|done|]]; [done|].
      intros b Hb2. apply Himg. lia.
    + rewrite list_lookup_insert_ne in Hj by done. rewrite decide_False by lia.
      destruct (Hfs j t' data' Hj) as (J1 & J2 & J3). pose proof (lookup_lt_Some _ _ _ Hj).
      assert (dinode_at mk_sb (im_img s1) (1 + Z.of_nat j) = dinode_at mk_sb (im_img s) (1 + Z.of_nat j)) as ->.
      { unfold dinode_at. rewrite (g_meta _ _ _ _ _ Hg); [done|]. destruct (inode_block (1 + Z.of_nat j)) as [? _]; [lia|mk_lia]. }
      split; [done|]. split; [done|]. eapply irep_meta; [|exact Hfb|]; [eapply irep_grows; [exact Hg| |exact J3]; lia|].
      intros b Hb2. apply Himg. lia.
Qed.

(** ** main *)

(** The bytes that successive reads deliver. *)
Fixpoint file_bytes (chunks : list (list Z)) : list Z :=
  match chunks with
  | [] => []
  | [] :: _ => []
  | c :: chunks => c ++ file_bytes chunks
  end.

Lemma need_mono a b : 0 <= a <= b → need a <= need b.
Proof.
  intros H. unfold need, nblk, blocks_of.
  destruct (Z.ltb_spec NDIRECT ((a + 511) / 512)), (Z.ltb_spec NDIRECT ((b + 511) / 512)); simpl;
    Z.to_euclidean_division_equations; lia.
Qed.

Lemma file_len_app a b : file_len (a ++ b) = file_len a + file_len b.
Proof. unfold file_len. rewrite length_app. lia. Qed.
Lemma file_len_nonneg a : 0 <= file_len a.
Proof. unfold file_len. lia. Qed.

Lemma append_chunks_run i t : ∀ chunks own s fs data,
  fsys own s fs → fs !! i = Some (t, data) → file_len (data ++ file_bytes chunks) <= MAXFILE * BSZ →
  im_freeblock s + need (file_len (data ++ file_bytes chunks)) - need (file_len data) <= FSSIZE →
  wp (append_chunks (1 + Z.of_nat i) chunks) (λ _ s', ∃ own', fsys own' s' (<[i := (t, data ++ file_bytes chunks)]> fs) ∧
    im_freeblock s' = im_freeblock s + need (file_len (data ++ file_bytes chunks)) - need (file_len data)) s.
Proof.
  induction chunks as [|[|x c] chunks IH]; intros own s fs data Hf Hi Hmax Hneed; cbn [file_bytes append_chunks] in *.
  1-2: rewrite app_nil_r in *; apply wp_ret; exists own; split; [by rewrite list_insert_id|lia].
  rewrite app_assoc in *. set (c' := x :: c) in *. set (rest := file_bytes chunks) in *.
  pose proof (file_len_app (data ++ c') rest) as E1. pose proof (file_len_app data c') as E2.
  pose proof (file_len_nonneg rest). pose proof (file_len_nonneg c'). pose proof (file_len_nonneg data).
  pose proof (need_mono (file_len (data ++ c')) (file_len ((data ++ c') ++ rest)) ltac:(lia)).
  eapply wp_bind, wp_mono; [apply (iappend_run own s fs i t data c' Hf Hi); lia|].
  intros _ s1 (own1 & Hf1 & Hb1). eapply wp_mono; [apply (IH own1 s1 _ (data ++ c') Hf1)|].
  - apply list_lookup_insert_eq. by apply lookup_lt_Some in Hi.
  - exact Hmax.
  - lia.
  - intros _ s2 (own2 & Hf2 & Hb2). exists own2. rewrite list_insert_insert_eq in Hf2. split; [done|lia].
Qed.

Section main.
Context (host_open : list Z → option (list (list Z))).

(** The host has the bytes [data] under the name [arg], and a file can hold them. *)
Definition host_file (arg data : list Z) : Prop :=
  (47 ∉ arg) ∧ (∃ chunks, host_open arg = Some chunks ∧ file_bytes chunks = data) ∧ file_len data <= MAXFILE * BSZ.

Definition entry_of (inum : Z) (arg : list Z) : list Z := dirent inum (name_copy (skip_underscore arg)).

Lemma length_dirent inum name : length (dirent inum (name_copy name)) = 16%nat.
Proof. unfold dirent, name_copy. by rewrite length_app, length_le_bytes, length_bytes_at. Qed.

(** One argument: an entry for it in the root directory, and a file. *)
Lemma add_file_run own s root fs arg data :
  fsys own s ((T_DIR, root) :: fs) → host_file arg data → Z.of_nat (length fs) < 198 → file_len root + 16 <= MAXFILE * BSZ →
  im_freeblock s + need (file_len root + 16) - need (file_len root) + need (file_len data) <= FSSIZE →
  wp (add_file host_open 1 arg) (λ _ s', ∃ own',
    fsys own' s' ((T_DIR, root ++ entry_of (2 + Z.of_nat (length fs)) arg) :: fs ++ [(T_FILE, data)]) ∧
    im_freeblock s' = im_freeblock s + need (file_len root + 16) - need (file_len root) + need (file_len data)) s.
Proof.
  intros Hf (Hsl & (chunks & Hop & Hch) & Hmax) Hn Hroot Hroom. unfold add_file.
  apply wp_bind, wp_panic_if; [by apply bool_decide_eq_false|]. rewrite Hop.
  pose proof (file_len_nonneg data) as Hd0. pose proof (need_mono 0 (file_len data) ltac:(lia)) as Hm0. change (need 0) with 0 in Hm0.
  eapply wp_bind, wp_mono; [apply (mk_ialloc_run _ _ _ T_FILE Hf); [simpl; change (ninodeblocks * IPB) with 208; lia|done]|].
  intros i s1 (-> & Hb1 & Hf1). cbn [app length] in *.
  assert (1 + Z.of_nat (S (length fs)) = 2 + Z.of_nat (length fs)) as Ei by lia. rewrite Ei.
  rewrite xshort_small by (unfold is_u16; lia). fold (entry_of (2 + Z.of_nat (length fs)) arg).
  set (e := entry_of _ arg). assert (file_len (root ++ e) = file_len root + 16) as Es.
  { rewrite file_len_app. unfold e, entry_of, file_len at 2. by rewrite length_dirent. }
  eapply wp_bind, wp_mono; [apply (iappend_run own s1 _ 0 T_DIR root e Hf1); [done|by rewrite Es|rewrite Es; lia]|].
  intros _ s2 (own2 & Hf2 & Hb2). cbn [list_insert insert] in Hf2. rewrite Es in Hb2.
  change (1 + Z.of_nat 0) with 1 in *.
  replace (2 + Z.of_nat (length fs)) with (1 + Z.of_nat (S (length fs))) by lia.
  eapply wp_mono; [apply (append_chunks_run (S (length fs)) T_FILE chunks own2 s2 _ [] Hf2)|].
  - cbn. by apply list_lookup_middle.
  - by rewrite Hch.
  - simpl. rewrite Hch. change (need (file_len [])) with 0. lia.
  - intros _ s3 (own3 & Hf3 & Hb3). exists own3. cbn [app] in Hf3, Hb3. rewrite Hch in Hf3, Hb3.
    change (need (file_len [])) with 0 in Hb3. split; [|lia].
    change (fsys own3 s3 ((T_DIR, root ++ e) :: <[length fs := (T_FILE, data)]> (fs ++ [(T_FILE, [])]))) in Hf3.
    rewrite insert_app_r_alt in Hf3 by done. by rewrite Nat.sub_diag in Hf3.
Qed.
End main.
