(* ===== verification/MkfsImage.v ===== *)
(** * The image that mkfs leaves

    main of mkfs.c on any list of files, and what the kernel finds on the image. *)

From S2P Require Import Prelude Cstring Sleeplock Disk Log Blocks Fs FsSpec Mkfs MkfsSpec.

(** ** The empty image *)

Lemma wp_seq3 {S A} (m1 m2 m3 : M S unit) (m : M S A) Q s s' :
  (m1;; m2;; m3) s = Ok tt s' → wp m Q s' → wp (m1;; m2;; m3;; m) Q s.
Proof. intros H. unfold wp. by rewrite (seq3_run m1 m2 m3 m s s' H). Qed.

Lemma format_loop n : ∀ k s, 0 <= k → k + Z.of_nat n <= FSSIZE → im_len s = k → (∀ b, im_img s b = zero_block) →
  wp (for_each (seqZ k (Z.of_nat n)) (λ i, wsect i zero_block)) (λ _ s', im_len s' = k + Z.of_nat n ∧
    (∀ b, im_img s' b = zero_block) ∧ im_sb s' = im_sb s ∧ im_freeinode s' = im_freeinode s ∧ im_freeblock s' = im_freeblock s) s.
Proof.
  induction n as [|n IH]; intros k s Hk Hn Hl Hz.
  - simpl. apply wp_ret. split; [lia|done].
  - rewrite seqZ_cons by lia. cbn [for_each]. replace (Z.pred (Z.of_nat (S n))) with (Z.of_nat n) by lia.
    apply wp_bind. unfold wsect. rewrite sector_eq by lia. apply wp_modify.
    replace (Z.succ k) with (k + 1) by lia.
    eapply wp_mono; [apply IH; [lia|lia|simpl; lia|]|].
    + intros b. simpl. unfold fupd. by case_decide.
    + intros _ s' (H1 & H2 & H3 & H4 & H5). split; [lia|]. by split_and!.
Qed.

Section main.
Context (host_open : list Z → option (list (list Z))).
Implicit Types (args : list (list Z)) (datas : list (list Z)).

Definition total datas : Z := foldr (λ d n, need (file_len d) + n) 0 datas.
(** The entries that main makes, the first for inode [i]. *)
Fixpoint entries (i : Z) args : list Z :=
  match args with [] => [] | a :: args => entry_of i a ++ entries (i + 1) args end.

Lemma file_len_entries args : ∀ i, file_len (entries i args) = 16 * Z.of_nat (length args).
Proof.
  induction args as [|a args IH]; intros i; [done|]. cbn [entries length]. rewrite file_len_app, IH.
  unfold entry_of, file_len. rewrite length_dirent. lia.
Qed.

Lemma total_nonneg datas : 0 <= total datas.
Proof.
  induction datas as [|d datas IH]; [done|]. cbn [total foldr]. pose proof (file_len_nonneg d).
  pose proof (need_mono 0 (file_len d) ltac:(lia)) as H1. change (need 0) with 0 in H1. unfold total in IH. lia.
Qed.

Lemma add_files_run : ∀ args datas own s root fs,
  Forall2 (host_file host_open) args datas → fsys own s ((T_DIR, root) :: fs) →
  let n := Z.of_nat (length args) in Z.of_nat (length fs) + n <= 198 → file_len root + 16 * n <= MAXFILE * BSZ →
  im_freeblock s + need (file_len root + 16 * n) - need (file_len root) + total datas <= FSSIZE →
  wp (for_each args (add_file host_open 1)) (λ _ s', ∃ own',
    fsys own' s' ((T_DIR, root ++ entries (2 + Z.of_nat (length fs)) args) :: fs ++ (pair T_FILE <$> datas)) ∧
    im_freeblock s' = im_freeblock s + need (file_len root + 16 * n) - need (file_len root) + total datas) s.
Proof.
  induction args as [|a args IH]; intros datas own s root fs Hin Hf n Hn Hmax Hroom.
  { apply Forall2_nil_inv_l in Hin as ->. simpl. apply wp_ret. exists own. rewrite !app_nil_r.
    split; [done|]. replace (file_len root + 16 * n) with (file_len root) by (unfold n; simpl; lia). lia. }
  apply Forall2_cons_inv_l in Hin as (d & datas' & Hd & Hin & ->). unfold n in *. cbn [length for_each entries total foldr] in *.
  fold (total datas') in Hroom. pose proof (total_nonneg datas'). pose proof (file_len_nonneg root).
  pose proof (need_mono (file_len root + 16) (file_len root + 16 * Z.of_nat (S (length args))) ltac:(lia)).
  eapply wp_bind, wp_mono; [apply (add_file_run host_open own s root fs a d Hf Hd); lia|].
  intros _ s1 (own1 & Hf1 & Hb1). set (e := entry_of _ a) in *.
  assert (file_len (root ++ e) = file_len root + 16) as Es.
  { rewrite file_len_app. unfold e, entry_of, file_len at 2. by rewrite length_dirent. }
  pose proof (file_len_entries args (2 + Z.of_nat (length fs) + 1)).
  eapply wp_mono; [apply (IH datas' own1 s1 _ _ Hin Hf1)|].
  - rewrite length_app. simpl. lia.
  - rewrite Es. lia.
  - rewrite Es, Hb1. replace (file_len root + 16 + 16 * Z.of_nat (length args)) with (file_len root + 16 * Z.of_nat (S (length args))) by lia. lia.
  - intros _ s2 (own2 & Hf2 & Hb2). exists own2. rewrite fmap_cons. rewrite <-!app_assoc in Hf2. rewrite length_app in Hf2.
    cbn [length app] in Hf2. replace (2 + Z.of_nat (length fs + 1)) with (2 + Z.of_nat (length fs) + 1) in Hf2 by lia.
    split; [done|]. rewrite Hb2, Hb1, Es. fold (total datas').
    replace (file_len root + 16 + 16 * Z.of_nat (length args)) with (file_len root + 16 * Z.of_nat (S (length args))) by lia. lia.
Qed.

(** ** The bitmap *)

Lemma u8_bit x k : is_u8 x → 0 <= k < 8 → is_u8 (Z.lor x (Z.shiftl 1 k)).
Proof.
  intros Hx Hk. unfold is_u8 in *. split; [apply Z.lor_nonneg; split; [lia|apply Z.shiftl_nonneg; lia]|].
  change 256 with (2 ^ 8). apply Z.log2_lt_cancel. rewrite Z.log2_pow2 by lia.
  rewrite Z.log2_lor by (try apply Z.shiftl_nonneg; lia). rewrite Z.log2_shiftl by lia. simpl (Z.log2 1).
  apply Z.max_lub_lt; [|lia]. destruct (decide (x = 0)) as [->|]; [simpl; lia|]. apply Z.log2_lt_pow2; [lia|]. change (2 ^ 8) with 256. lia.
Qed.

Definition mark (buf : block) (i : Z) : block := setZ buf (i / 8) (u8 (Z.lor (getZ buf (i / 8)) (Z.shiftl 1 (i mod 8)))).

Lemma getZ_u8 (l : block) i : Forall is_u8 l → 0 <= i < Z.of_nat (length l) → is_u8 (getZ l i).
Proof.
  intros Hl Hi. rewrite Forall_lookup in Hl. apply (Hl (Z.to_nat i)). unfold getZ. apply list_lookup_lookup_total_lt. lia.
Qed.

Lemma mark_all n : ∀ k buf, 0 <= k → k + Z.of_nat n <= 4096 → length buf = BSIZE → Forall is_u8 buf →
  (∀ j, 0 <= j < 4096 → bit_set buf j = bool_decide (j < k)) →
  let buf' := foldl mark buf (seqZ k (Z.of_nat n)) in
  length buf' = BSIZE ∧ ∀ j, 0 <= j < 4096 → bit_set buf' j = bool_decide (j < k + Z.of_nat n).
Proof.
  induction n as [|n IH]; intros k buf Hk Hn Hl Hu Hb.
  - simpl. split; [done|]. intros j Hj. rewrite Hb by done. by rewrite Z.add_0_r.
  - rewrite seqZ_cons by lia. cbn [foldl]. replace (Z.pred (Z.of_nat (S n))) with (Z.of_nat n) by lia.
    replace (Z.succ k) with (k + 1) by lia. replace (k + Z.of_nat (S n)) with (k + 1 + Z.of_nat n) by lia.
    assert (0 <= k / 8 < Z.of_nat (length buf)) as Hk8 by (rewrite Hl; unfold BSIZE; Z.to_euclidean_division_equations; lia).
    assert (mark buf k = mark_bit k buf) as Em.
    { unfold mark, mark_bit. f_equal. apply u8_small, u8_bit; [by apply getZ_u8|apply Z.mod_pos_bound; lia]. }
    rewrite Em. apply IH; [lia|lia|by rewrite length_mark_bit| |].
    + rewrite <-Em. unfold mark, setZ. apply Forall_insert; [done|]. apply u8_range.
    + intros j Hj. rewrite bit_set_mark by (rewrite ?Hl; unfold BSIZE; lia). rewrite Hb by done.
      repeat case_bool_decide; try done; lia.
Qed.

Lemma mk_balloc_run s n : base s → 0 <= n < 4096 →
  ∃ buf, mk_balloc n s = Ok tt (set_block 58 buf s) ∧ length buf = BSIZE ∧ ∀ j, 0 <= j < 4096 → bit_set buf j = bool_decide (j < n).
Proof.
  intros Hb Hn. unfold mk_balloc. rewrite BSZ_eq. rewrite (proj2 (Z.ltb_lt _ _)) by lia. cbn [negb panic_if]. run. rewrite (b_sb s Hb).
  change (sb_bmapstart mk_sb) with 58. rewrite wsect_run by (done || mk_lia). eexists. split; [done|].
  destruct (mark_all (Z.to_nat n) 0 zero_block) as [H1 H2]; rewrite ?Z2Nat.id in * by lia; try lia; [done| | |by split].
  - apply Forall_replicate. unfold is_u8. lia.
  - intros j Hj. rewrite bit_set_testbit. rewrite zero_byte by (Z.to_euclidean_division_equations; lia).
    rewrite Z.bits_0. rewrite bool_decide_false; [done|lia].
Qed.

(** ** What the kernel reads *)

Lemma read_bytes (C : Z → Z) o (l : list Z) :
  (∀ x, 0 <= x < file_len l → C (o + x) = byte_of l x) → C <$> seqZ o (file_len l) = l.
Proof.
  intros H. unfold file_len in *. apply list_eq. intros j. rewrite list_lookup_fmap. destruct (decide (j < length l)%nat).
  - rewrite lookup_seqZ_lt by lia. cbn [fmap option_fmap option_map]. rewrite H by lia. unfold byte_of. rewrite Nat2Z.id.
    destruct (lookup_lt_is_Some_2 l j) as [x ->]; [lia|done].
  - rewrite lookup_seqZ_ge by lia. rewrite (lookup_ge_None_2 l) by lia. done.
Qed.

Lemma byte_of_entries args : ∀ i k a x, args !! k = Some a → 0 <= x < 16 →
  byte_of (entries i args) (16 * Z.of_nat k + x) = byte_of (entry_of (i + Z.of_nat k) a) x.
Proof.
  induction args as [|a' args IH]; intros i k a x Hk Hx; [done|]. cbn [entries].
  assert (length (entry_of i a') = 16%nat) as Hl by apply length_dirent.
  rewrite byte_of_app by lia. rewrite Hl. destruct k as [|k].
  - injection Hk as <-. rewrite decide_False by lia. replace (i + Z.of_nat 0) with i by lia. by replace (16 * Z.of_nat 0 + x) with x by lia.
  - rewrite decide_True by lia. replace (16 * Z.of_nat (S k) + x - Z.of_nat 16) with (16 * Z.of_nat k + x) by lia.
    rewrite (IH (i + 1) k a x Hk Hx). do 2 f_equal. lia.
Qed.

(** The root directory's bytes. *)
Definition root_bytes args : list Z := dirent 1 (name_copy [46]) ++ dirent 1 (name_copy [46; 46]) ++ entries 2 args.

Lemma size_root args : file_len (root_bytes args) = 16 * (Z.of_nat (length args) + 2).
Proof. unfold root_bytes. rewrite !file_len_app, file_len_entries. unfold file_len. rewrite !length_dirent. lia. Qed.

Lemma root_entries args (C : Z → Z) nb : (∀ o, 0 <= o < nb * 512 → C o = byte_of (root_bytes args) o) →
  16 * (Z.of_nat (length args) + 2) <= nb * 512 →
  let entry j := C <$> seqZ (16 * j) 16 in
  entry 0 = dirent 1 (name_copy [46]) ∧ entry 1 = dirent 1 (name_copy [46; 46]) ∧
  (∀ k a, args !! k = Some a → entry (2 + Z.of_nat k) = entry_of (2 + Z.of_nat k) a) ∧
  (∀ j, Z.of_nat (length args) + 2 <= j < 32 * nb → de_inum (entry j) = 0).
Proof.
  intros HC Hnb entry. set (d1 := dirent 1 (name_copy [46])). set (d2 := dirent 1 (name_copy [46; 46])).
  assert (length d1 = 16%nat ∧ length d2 = 16%nat) as [L1 L2] by (split; apply length_dirent).
  assert (∀ l j, length l = 16%nat → 0 <= j → 16 * j + 16 <= nb * 512 →
    (∀ x, 0 <= x < 16 → byte_of (root_bytes args) (16 * j + x) = byte_of l x) → entry j = l) as Hent.
  { intros l j Hl Hj Hr H. pose proof (read_bytes C (16 * j) l) as Hrd. unfold file_len in Hrd. rewrite Hl in Hrd. apply Hrd.
    intros x Hx. rewrite HC by lia. by apply H. }
  split; [|split; [|split]].
  - apply Hent; [done|lia|lia|]. intros x Hx. unfold root_bytes. fold d1. rewrite byte_of_app by lia. by rewrite L1, decide_False by lia.
  - apply Hent; [done|lia|lia|]. intros x Hx. unfold root_bytes. fold d1 d2. rewrite byte_of_app by lia. rewrite L1, decide_True by lia.
    rewrite byte_of_app by lia. rewrite L2, decide_False by lia. f_equal. lia.
  - intros k a Hk. pose proof (lookup_lt_Some _ _ _ Hk). apply Hent; [apply length_dirent|lia|lia|]. intros x Hx.
    unfold root_bytes. fold d1 d2. rewrite byte_of_app by lia. rewrite L1, decide_True by lia.
    rewrite byte_of_app by lia. rewrite L2, decide_True by lia. rewrite <-(byte_of_entries args 2 k a x Hk Hx). f_equal. lia.
  - intros j Hj. assert (entry j = replicate 16 0) as ->; [|done]. apply list_eq. intros x. unfold entry. rewrite list_lookup_fmap.
    destruct (decide (x < 16)%nat).
    + rewrite lookup_seqZ_lt by lia. cbn [fmap option_fmap option_map]. rewrite HC by lia. rewrite byte_of_end.
      * symmetry. by apply lookup_replicate.
      * pose proof (size_root args) as Hs. unfold file_len in Hs. lia.
    + rewrite lookup_seqZ_ge by lia. symmetry. apply lookup_ge_None_2. rewrite length_replicate. lia.
Qed.

(** ** main *)

(** The blocks that the image takes: the metadata, and for the root directory and
    each file its data blocks and, beyond twelve of them, a block of addresses. *)
Definition taken_blocks args datas : Z := nmeta + need (16 * (Z.of_nat (length args) + 2)) + total datas.

(** The host has the files, and they fit on the disk with their directory. *)
Definition fits args datas : Prop :=
  Forall2 (host_file host_open) args datas ∧ Z.of_nat (length args) <= 198 ∧ taken_blocks args datas <= FSSIZE.

Lemma format_run : ∃ s, (modify (λ s, Image (im_img s) (im_len s) mk_sb (im_freeinode s) nmeta);;
    for_each (seqZ 0 FSSIZE) (λ i, wsect i zero_block);; wsect 1 (splice zero_block 0 (sb_bytes mk_sb))) image0 = Ok tt s ∧
  im_freeblock s = nmeta ∧ fsys (λ _, (0, 0)) s [].
Proof.
  set (s0 := Image (λ _, zero_block) 0 mk_sb 1 nmeta).
  destruct (wp_inv _ _ _ (format_loop (Z.to_nat FSSIZE) 0 s0 ltac:(lia) ltac:(rewrite Z2Nat.id by done; lia) eq_refl (λ _, eq_refl)))
    as ([] & s1 & H1 & Hl & Hz & Hsb & Hfi & Hfb).
  rewrite Z2Nat.id in H1, Hl by done. rewrite run_modify. cbv beta. change (Image _ _ _ _ _) with s0. rewrite (bind_run _ _ _ _ _ H1).
  change (im_freeblock s0) with nmeta in Hfb. change (im_freeinode s0) with 1 in Hfi.
  assert (base s1) as Hb.
  { split; [by rewrite Hsb|by rewrite Hl| |rewrite Hfb; mk_lia|done]. intros b. by rewrite Hz. }
  rewrite wsect_run by (done || mk_lia). fold sb_block. eexists. split; [done|]. split; [by rewrite <-Hfb|].
  split; simpl; try done.
  - apply base_set_block; [done|by vm_compute|rewrite Hfb; mk_lia].
  - intros b _. unfold fupd. by case_decide.
Qed.

(** The root directory, its first entries, and the files. *)
Lemma files_run args datas own s (k : Z → M image unit) Q :
  fits args datas → im_freeblock s = nmeta → fsys own s [] →
  (∀ own' s', fsys own' s' ((T_DIR, root_bytes args) :: (pair T_FILE <$> datas)) →
     im_freeblock s' = taken_blocks args datas → wp (k 1) Q s') →
  wp (rootino ← mk_ialloc T_DIR;
      panic_if (negb (rootino =? ROOTINO)) "assert: rootino == ROOTINO";;
      iappend rootino (dirent (xshort rootino) (name_copy [46]));;
      iappend rootino (dirent (xshort rootino) (name_copy [46; 46]));;
      for_each args (add_file host_open rootino);; k rootino) Q s.
Proof.
  intros (Hin & Hn & Hroom) Hb Hf Hk. unfold taken_blocks in *. pose proof (total_nonneg datas).
  pose proof (need_mono 32 (16 * (Z.of_nat (length args) + 2)) ltac:(lia)) as Hm. change (need 32) with 1 in Hm.
  set (d1 := dirent 1 (name_copy [46])). set (d2 := dirent 1 (name_copy [46; 46])).
  assert (file_len d1 = 16 ∧ file_len (d1 ++ d2) = 32) as [L1 L2]
    by (split; rewrite ?file_len_app; unfold file_len, d1, d2; by rewrite ?length_dirent).
  eapply wp_bind, wp_mono; [apply (mk_ialloc_run _ _ _ T_DIR Hf); [by vm_compute|done]|].
  intros i s1 (-> & Hb1 & Hf1). change (1 + Z.of_nat (length [])) with (1 + Z.of_nat 0). change (xshort _) with 1.
  apply wp_bind, wp_panic_if; [done|]. fold d1 d2. cbn [app] in Hf1.
  eapply wp_bind, wp_mono; [apply (iappend_run _ _ _ 0 T_DIR [] d1 Hf1); change ([] ++ d1) with d1; [done|by rewrite L1|]|].
  { rewrite L1. change (need 16) with 1. change (need (file_len [])) with 0. lia. }
  intros _ s2 (own2 & Hf2 & Hb2). change ([] ++ d1) with d1 in *. rewrite L1 in Hb2. change (need 16) with 1 in Hb2. change (need (file_len [])) with 0 in Hb2.
  change (fsys own2 s2 [(T_DIR, d1)]) in Hf2.
  eapply wp_bind, wp_mono; [apply (iappend_run _ _ _ 0 T_DIR d1 d2 Hf2); [done|by rewrite L2|]|].
  { rewrite L2, L1. change (need 16) with 1. change (need 32) with 1. lia. }
  intros _ s3 (own3 & Hf3 & Hb3). rewrite L1, L2 in Hb3. change (need 16) with 1 in Hb3. change (need 32) with 1 in Hb3.
  change (fsys own3 s3 [(T_DIR, d1 ++ d2)]) in Hf3. change (1 + Z.of_nat 0) with 1.
  eapply wp_bind, wp_mono; [apply (add_files_run args datas own3 s3 (d1 ++ d2) [] Hin Hf3); cbv zeta|].
  - simpl. lia.
  - rewrite L2, MAXFILE_eq, BSZ_eq. lia.
  - rewrite L2. change (need 32) with 1. replace (32 + 16 * Z.of_nat (length args)) with (16 * (Z.of_nat (length args) + 2)) by lia. lia.
  - intros _ s4 (own4 & Hf4 & Hb4). apply (Hk own4); [unfold root_bytes; fold d1 d2; by rewrite <-app_assoc in Hf4|].
    rewrite Hb4, L2. change (need 32) with 1. replace (32 + 16 * Z.of_nat (length args)) with (16 * (Z.of_nat (length args) + 2)) by lia. lia.
Qed.

(** The last steps of main: the size of the root directory, and the bitmap. *)
Lemma finish_run own s files root :
  fsys own s ((T_DIR, root) :: files) → file_len root <= 16 * 200 →
  wp (din ← rinode 1;
      let off := (xint (d_size din) / BSZ + 1) * BSZ in
      winode 1 (set_size (xint (u32 off)) din);;
      b ← gets im_freeblock;
      mk_balloc b) (λ _ s', base s' ∧ im_freeblock s' = im_freeblock s ∧
    (∀ b, 0 <= b < 4096 → bit_set (im_img s' 58) b = bool_decide (b < im_freeblock s)) ∧
    (∀ b, nmeta <= b ∨ b < 32 → im_img s' b = im_img s b) ∧
    (∀ j, 0 <= j < 208 → dinode_at mk_sb (im_img s') j =
       let d := dinode_at mk_sb (im_img s) j in if decide (j = 1) then set_size ((file_len root / 512 + 1) * 512) d else d)) s.
Proof.
  intros Hf Hroot. pose proof (file_len_nonneg root) as Hr0. pose proof (f_base _ _ _ Hf) as Hb. pose proof (b_fb s Hb) as Hfb.
  destruct (f_files _ _ _ Hf 0%nat T_DIR root eq_refl) as (Hd & _ & Hrep). change (1 + Z.of_nat 0) with 1 in *.
  eapply wp_bind, wp_intro; [by apply rinode_run|]. set (d := dinode_at mk_sb (im_img s) 1) in *. cbv zeta.
  assert (d_size d = file_len root) as -> by (by rewrite Hd). rewrite BSZ_eq. rewrite (xint_small (file_len root)) by (unfold is_u32; lia).
  set (off := (file_len root / 512 + 1) * 512). assert (0 <= off < 4096) as Hoff by (unfold off; Z.to_euclidean_division_equations; lia).
  rewrite u32_small, xint_small by (rewrite ?u32_small; unfold is_u32; lia).
  destruct (winode_run 1 (set_size off d) s) as (s1 & Hrun & Hb1 & Hfi & Hfb1 & Himg & Hdin); [done|done| |].
  { rewrite Hd. split; simpl; try done; [unfold is_u32; lia|apply (r_ok _ _ _ _ _ _ _ _ Hrep)]. }
  eapply wp_bind, wp_intro; [exact Hrun|]. apply wp_bind, wp_gets. rewrite Hfb1.
  destruct (mk_balloc_run s1 (im_freeblock s) Hb1) as (buf & Hbal & Hl & Hbits); [mk_lia|].
  eapply wp_intro; [exact Hbal|].
  assert (∀ b, b ≠ 58 → im_img (set_block 58 buf s1) b = im_img s1 b) as Hne by (intros b ?; simpl; by rewrite fupd_ne).
  split; [apply base_set_block; [done|done|rewrite Hfb1; mk_lia]|]. split; [exact Hfb1|]. split; [simpl; by rewrite fupd_eq|]. split.
  - intros b Hb2. rewrite Hne by mk_lia. apply Himg. lia.
  - intros j Hj. destruct (inode_block j Hj) as [Hjb _]. unfold dinode_at at 1. rewrite Hne by lia.
    change (dinode_get _ _) with (dinode_at mk_sb (im_img s1) j). rewrite Hdin by lia. cbv zeta. case_decide as E; [by rewrite E|done].
Qed.

(** The files of the image, the root directory first, and the sizes of their inodes. *)
Definition image_files args datas : list (Z * list Z) := (T_DIR, root_bytes args) :: (pair T_FILE <$> datas).
Definition inode_size (j : nat) (data : list Z) : Z := match j with O => (file_len data / 512 + 1) * 512 | _ => file_len data end.

(** What main leaves, with the owners of the blocks up to [fb]. *)
Record built own (fb : Z) args datas (s : image) : Prop := {
  bu_base : base s; bu_fb : nmeta <= fb <= FSSIZE; bu_exact : fb = taken_blocks args datas;
  bu_sb : sb_decode (im_img s 1) = mk_sb; bu_log : im_img s 2 = zero_block;
  bu_out : ∀ b, b < 0 ∨ fb <= b → im_img s b = zero_block;
  bu_bits : ∀ b, 0 <= b < 4096 → bit_set (im_img s 58) b = bool_decide (b < fb);
  bu_files : ∀ j t data, image_files args datas !! j = Some (t, data) →
    let d := dinode_at mk_sb (im_img s) (1 + Z.of_nat j) in
    d = Dinode t 0 0 1 (inode_size j data) (d_addrs d) ∧
    irep own (im_img s) fb (1 + Z.of_nat j) d (NDIRECT <? blocks_of (file_len data)) (blocks_of (file_len data)) (byte_of data)
}.

Lemma mkfs_built args datas : fits args datas → ∃ s own fb, mkfs host_open args image0 = Ok tt s ∧ built own fb args datas s.
Proof.
  intros Hfit. destruct format_run as (s0 & H0 & Hb0 & Hf0). pose proof Hfit as (Hin & Hn & _). pose proof (Forall2_length _ _ _ Hin) as Hlen.
  assert (wp (mkfs host_open args) (λ _ s', ∃ own fb, built own fb args datas s') image0) as Hwp.
  2: { destruct (wp_inv _ _ _ Hwp) as ([] & s & H & own & fb & Hb).
    exists s, own, fb. split; [exact H|exact Hb]. }
  unfold mkfs. eapply wp_seq3; [exact H0|]. apply (files_run args datas _ s0 _ _ Hfit Hb0 Hf0).
  intros own s Hf Hex. eapply wp_mono; [apply (finish_run own s _ _ Hf); rewrite size_root; lia|].
  intros ? s' (Hb & Hfb & Hbits & Himg & Hdin). exists own, (im_freeblock s). split; [done|by rewrite <-Hfb; apply Hb|done| | | |done|].
  - rewrite Himg by lia. rewrite (f_meta _ _ _ Hf) by (left; by vm_compute). by vm_compute.
  - rewrite Himg by lia. rewrite (f_meta _ _ _ Hf) by (left; by vm_compute). reflexivity.
  - intros b [Hneg|Hge]; [|apply (b_fresh s' Hb); lia]. rewrite Himg by lia.
    rewrite (f_meta _ _ _ Hf) by (left; change (sb_inodestart mk_sb) with 32; lia). by rewrite decide_False by lia.
  - intros j t data Hj. destruct (f_files _ _ _ Hf j t data Hj) as (Hd & _ & Hr). pose proof (lookup_lt_Some _ _ _ Hj) as Hlt.
    unfold image_files in Hlt. cbn [length] in Hlt. rewrite length_fmap in Hlt. cbv zeta. rewrite Hdin by lia. cbv zeta.
    assert (irep own (im_img s') (im_freeblock s) (1 + Z.of_nat j) (dinode_at mk_sb (im_img s) (1 + Z.of_nat j))
      (NDIRECT <? blocks_of (file_len data)) (blocks_of (file_len data)) (byte_of data)) as Hr'.
    { rewrite <-Hfb. eapply irep_meta; [exact Hr|done|]. intros b Hbb. apply Himg. by left. }
    destruct j as [|j]; [rewrite decide_True by done|rewrite decide_False by lia; by split].
    injection Hj as <- <-. split; [by rewrite Hd|]. eapply irep_size; [|exact Hr']. done.
Qed.

(** The places where a file of [sz] bytes has a block: its data blocks, numbered
    from 0, and -1 for its block of addresses; and the block that is there. *)
Definition has_place (sz bn : Z) : Prop := 0 <= bn ∧ bn * 512 < sz ∨ bn = -1 ∧ NDIRECT * 512 < sz.
Definition place (v : Z → block) (d : dinode) (bn : Z) : Z :=
  if bn <? 0 then getZ (d_addrs d) NDIRECT else iblock v d bn.

Section built.
Context own fb args datas s (Hbu : built own fb args datas s).
Implicit Types (b : Z).

Lemma built_blocks i t data bn : image_files args datas !! i = Some (t, data) → has_place (file_len data) bn →
  let b := place (im_img s) (dinode_at mk_sb (im_img s) (1 + Z.of_nat i)) bn in nmeta <= b < fb ∧ own b = (1 + Z.of_nat i, bn).
Proof.
  intros Hi Hp. destruct (bu_files _ _ _ _ _ Hbu i t data Hi) as [_ Hr]. unfold place.
  destruct Hp as [[Hbn Hlt]|[-> Hlt]].
  - rewrite (proj2 (Z.ltb_ge _ _)) by lia. apply (r_blk _ _ _ _ _ _ _ _ Hr).
    unfold blocks_of. Z.to_euclidean_division_equations; lia.
  - pose proof (r_ind _ _ _ _ _ _ _ _ Hr) as Hind. rewrite (proj2 (Z.ltb_lt _ _)) in Hind; [exact Hind|].
    unfold blocks_of, NDIRECT in *. Z.to_euclidean_division_equations; lia.
Qed.

Lemma file_of_size i sz : (16 * (Z.of_nat (length args) + 2) :: (file_len <$> datas)) !! i = Some sz →
  ∃ t data, image_files args datas !! i = Some (t, data) ∧ file_len data = sz.
Proof.
  destruct i as [|i]; intros Hi; [injection Hi as <-; exists T_DIR, (root_bytes args); split; [done|apply size_root]|].
  change ((file_len <$> datas) !! i = Some sz) in Hi. rewrite list_lookup_fmap in Hi. apply fmap_Some in Hi as (data & Hd & ->).
  exists T_FILE, data. split; [|done]. change ((pair T_FILE <$> datas) !! i = Some (T_FILE, data)). by rewrite list_lookup_fmap, Hd.
Qed.

Lemma built_used b : 0 <= b < FSSIZE → used mk_sb (im_img s) b = bool_decide (b < fb).
Proof.
  intros Hb. unfold used. change (BBLOCK b mk_sb) with (b / BPB + 58). rewrite BPB_eq, FSSIZE_eq in *.
  rewrite Z.div_small, Z.mod_small by lia. apply (bu_bits _ _ _ _ _ Hbu). lia.
Qed.

Lemma built_file k data : datas !! k = Some data → let d := dinode_at mk_sb (im_img s) (2 + Z.of_nat k) in
  d_type d = T_FILE ∧ d_nlink d = 1 ∧ d_size d = file_len data ∧ content (im_img s) d <$> seqZ 0 (d_size d) = data.
Proof.
  intros Hk. assert (image_files args datas !! S k = Some (T_FILE, data)) as Hk'
    by (change ((pair T_FILE <$> datas) !! k = Some (T_FILE, data)); by rewrite list_lookup_fmap, Hk).
  destruct (bu_files _ _ _ _ _ Hbu _ _ _ Hk') as [Hd Hr]. replace (1 + Z.of_nat (S k)) with (2 + Z.of_nat k) in * by lia.
  set (d := dinode_at _ _ _) in *. assert (d_size d = file_len data) as Esz by (by rewrite Hd).
  split; [by rewrite Hd|]. split; [by rewrite Hd|]. split; [done|]. rewrite Esz. apply read_bytes. intros x Hx.
  rewrite Z.add_0_l. apply (r_content _ _ _ _ _ _ _ _ Hr). rewrite BSZ_eq. unfold blocks_of. Z.to_euclidean_division_equations; lia.
Qed.
End built.

(** C9. mkfs and the kernel agree on the disk. For any files of the host that fit,
    with any way of reading them, mkfs returns, and on the image the kernel finds: the
    superblock of this layout; an empty log, so that recovery does nothing; in inode 1
    a directory with dot, dot-dot, an entry for each file under its name without the
    leading underscore and its inode number, and empty entries after them; in the inode
    of each file its length and exactly its bytes; a bitmap in which the first blocks
    are in use, exactly as many as the metadata, the files' data and their blocks of
    addresses take ([taken_blocks]), and all others are free. Each block of a file is
    among them, behind the metadata, as is the block of addresses of a file of more than
    twelve, and no block has two such uses. *)
Theorem mkfs_correct args datas : fits args datas →
  ∃ s, mkfs host_open args image0 = Ok tt s ∧
    let v := im_img s in let sb := sb_decode (v 1) in let root := dinode_at sb v ROOTINO in
    let n := Z.of_nat (length args) in
    let sizes := 16 * (n + 2) :: (file_len <$> datas) in
    im_len s = FSSIZE ∧ sb = Superblock 1000 941 200 30 2 32 58 ∧ hd_n (v (sb_logstart sb)) = 0 ∧
    (d_type root = T_DIR ∧ d_nlink root = 1 ∧ d_size root = (16 * (n + 2) / 512 + 1) * 512) ∧
    (entry v root 0 = dirent ROOTINO (name_copy [46]) ∧ entry v root 1 = dirent ROOTINO (name_copy [46; 46]) ∧
     (∀ k a, args !! k = Some a → entry v root (2 + Z.of_nat k) = dirent (2 + Z.of_nat k) (name_copy (skip_underscore a))) ∧
     (∀ j, n + 2 <= j < 32 * blocks_of (16 * (n + 2)) → de_inum (entry v root j) = 0)) ∧
    (∀ k data, datas !! k = Some data → let d := dinode_at sb v (2 + Z.of_nat k) in
       d_type d = T_FILE ∧ d_nlink d = 1 ∧ d_size d = file_len data ∧ content v d <$> seqZ 0 (d_size d) = data) ∧
    (∀ b, 0 <= b < FSSIZE → used sb v b = bool_decide (b < taken_blocks args datas)) ∧
    ∀ i sz bn, sizes !! i = Some sz → has_place sz bn →
      let b := place v (dinode_at sb v (1 + Z.of_nat i)) bn in
      nmeta <= b < taken_blocks args datas ∧
      ∀ i' sz' bn', sizes !! i' = Some sz' → has_place sz' bn' →
        place v (dinode_at sb v (1 + Z.of_nat i')) bn' = b → i' = i ∧ bn' = bn.
Proof.
  intros Hfit. destruct (mkfs_built args datas Hfit) as (s & own & fb & Hrun & Hbu). exists s. split; [exact Hrun|]. cbv zeta.
  rewrite (bu_sb _ _ _ _ _ Hbu). destruct (bu_files _ _ _ _ _ Hbu 0%nat T_DIR (root_bytes args) eq_refl) as [Hd Hr].
  change (1 + Z.of_nat 0) with ROOTINO in *. unfold inode_size in Hd. rewrite size_root in Hd, Hr. set (n := Z.of_nat (length args)) in *.
  split; [apply (bu_base _ _ _ _ _ Hbu)|]. split; [done|]. split; [|split; [|split; [|split]]].
  - change (sb_logstart mk_sb) with 2. by rewrite (bu_log _ _ _ _ _ Hbu).
  - rewrite Hd. split; [reflexivity|split; reflexivity].
  - apply (root_entries args); [|unfold blocks_of; fold n; Z.to_euclidean_division_equations; lia].
    intros o Ho. apply (r_content _ _ _ _ _ _ _ _ Hr). by rewrite BSZ_eq.
  - intros k data Hk. by apply (built_file own fb args datas s Hbu).
  - rewrite <-(bu_exact _ _ _ _ _ Hbu). split; [intros b; by apply (built_used own fb args datas)|].
    intros i sz bn (t & data & Hi & <-)%file_of_size Hbn.
    destruct (built_blocks own fb args datas s Hbu i t data bn Hi Hbn) as [Hb Ho]. split; [done|].
    intros i' sz' bn' (t' & data' & Hi' & <-)%file_of_size Hbn' E.
    destruct (built_blocks own fb args datas s Hbu i' t' data' bn' Hi' Hbn') as [_ Ho']. rewrite E, Ho in Ho'.
    injection Ho' as ? ?. split; lia.
Qed.
End main.

(** Two files, _cat of three bytes in two pieces and README of one. *)
Definition host_ex (name : list Z) : option (list (list Z)) :=
  if bool_decide (name = [95; 99; 97; 116]) then Some [[1; 2]; [3]; []]
  else if bool_decide (name = [82; 69; 65; 68; 77; 69]) then Some [[9]] else None.

Lemma mkfs_correct_witness : ∃ s, mkfs host_ex [[95; 99; 97; 116]; [82; 69; 65; 68; 77; 69]] image0 = Ok tt s ∧
  (let sb := sb_decode (im_img s 1) in
   content (im_img s) (dinode_at sb (im_img s) 2) <$> seqZ 0 (d_size (dinode_at sb (im_img s) 2)) = [1; 2; 3]).
Proof.
  assert (fits host_ex [[95; 99; 97; 116]; [82; 69; 65; 68; 77; 69]] [[1; 2; 3]; [9]]) as Hfit.
  { split; [|split; by vm_compute]. constructor; [|constructor; [|constructor]].
    - split; [by apply (bool_decide_unpack _)|]. split; [by exists [[1; 2]; [3]; []]|by vm_compute].
    - split; [by apply (bool_decide_unpack _)|]. split; [by exists [[9]]|by vm_compute]. }
  destruct (mkfs_correct host_ex _ _ Hfit) as (s & H & _ & _ & _ & _ & _ & Hc & _). exists s. split; [exact H|].
  destruct (Hc 0%nat [1; 2; 3] eq_refl) as (_ & _ & _ & H4). exact H4.
Defined.
