(* ===== verification/MkfsBoot.v ===== *)
(** * From mkfs to read

    A kernel that has booted on an image of mkfs finds each file by its name and
    reads its bytes: namei, ilock and readi of fs.c, over any [BlockLayer] that shows
    the image. The log over the buffer cache and the memory disk is one. *)

From S2P Require Import Prelude Cstring Sleeplock Disk Ring Bio Log Blocks Fs FsSpec Mkfs MkfsSpec MkfsImage.

(** ** Names *)

Definition good_name (nm : list Z) : Prop := nm ≠ [] ∧ (47 ∉ nm) ∧ Forall (λ c, 0 < c < 256) nm.

Lemma name_u8 nm : Forall (λ c, 0 < c < 256) nm → Forall is_u8 nm.
Proof. intros H. eapply Forall_impl; [exact H|]. intros c Hc. simpl in Hc. unfold is_u8. lia. Qed.
Lemma name_nonzero nm : Forall (λ c, 0 < c < 256) nm → Forall (λ c, c ≠ 0) nm.
Proof. intros H. eapply Forall_impl; [exact H|]. intros c Hc. simpl in Hc. lia. Qed.

Lemma name_cstr nm : Forall (λ c, 0 < c < 256) nm → cstr (mem2 [] nm) 32 nm.
Proof.
  intros Hn. apply KernelSpec.cstr_intro.
  - intros i c Hi. rewrite Forall_lookup in Hn. pose proof (Hn i c Hi) as Hc. split; [|lia]. unfold mem2.
    rewrite (proj2 (Z.ltb_ge _ _)) by lia. apply mem_of_lookup; [|unfold is_u8; lia]. by replace (Z.to_nat (32 + Z.of_nat i - 32)) with i by lia.
  - unfold mem2. rewrite (proj2 (Z.ltb_ge _ _)) by lia. apply mem_of_end. lia.
Qed.

Lemma name_copy_eq nm : Forall (λ c, 0 < c < 256) nm → name_copy nm = take 14 nm ++ replicate (14 - length nm) 0.
Proof.
  intros Hn. unfold name_copy. change DIRSIZ with (Z.of_nat 14).
  apply (KernelSpec.strncpy_spec (mem2 [] nm) 0 32 14 nm); [|by apply name_cstr|lia].
  intros a. unfold mem2. destruct (a <? 32); apply mem_of_ok.
Qed.

Lemma upto_nul_copy nm : Forall (λ c, 0 < c < 256) nm → upto_nul (take 14 nm ++ replicate (14 - length nm) 0) = take 14 nm.
Proof.
  intros Hn. destruct (decide (14 <= length nm)%nat).
  - replace (14 - length nm)%nat with 0%nat by lia. rewrite app_nil_r. by apply upto_nul_id, Forall_take, name_nonzero.
  - replace (14 - length nm)%nat with (S (13 - length nm)) by lia. cbn [replicate]. by apply upto_nul_app, Forall_take, name_nonzero.
Qed.

Lemma dirent_fields i nm : 0 <= i < 65536 → de_inum (dirent i (name_copy nm)) = i ∧ de_name (dirent i (name_copy nm)) = name_copy nm.
Proof.
  intros Hi. assert (length (name_copy nm) = 14%nat) as Hl by (unfold name_copy; by rewrite length_bytes_at).
  unfold dirent, de_inum, de_name, getw, sub. rewrite drop_0. split.
  - rewrite take_app_length' by done. rewrite le_val_bytes. by apply Z.mod_small.
  - rewrite drop_app_length' by done. by rewrite take_ge by lia.
Qed.

(** An entry matches the name that the path had iff the first 14 characters agree. *)
Lemma matches_eq nm' nm i name' : 0 < i < 65536 → Forall (λ c, 0 < c < 256) nm → Forall (λ c, 0 < c < 256) nm' →
  length name' = 14%nat → Forall is_u8 name' → upto_nul name' = take 14 nm' →
  matches name' (dirent i (name_copy nm)) = bool_decide (take 14 nm' = take 14 nm).
Proof.
  intros Hi Hn Hn' Hl Hu E. destruct (dirent_fields i nm ltac:(lia)) as [E1 E2]. unfold matches. rewrite E1, E2, (proj2 (Z.eqb_neq i 0)) by lia.
  cbn [negb andb]. rewrite name_copy_eq by done.
  assert (Forall is_u8 (take 14 nm ++ replicate (14 - length nm) 0)) as Hu2.
  { apply Forall_app. split; [by apply Forall_take, name_u8|]. apply Forall_replicate. unfold is_u8. lia. }
  pose proof (namecmp_zero name' _ Hu Hu2 ltac:(lia) ltac:(rewrite length_app, length_take, length_replicate; lia)) as H.
  rewrite E, upto_nul_copy, take_take in H by done. change (14 `min` 14)%nat with 14%nat in H.
  case_bool_decide as E3; [by apply Z.eqb_eq, H|apply Z.eqb_neq; by intros ?%H].
Qed.

(** The name that skipelem leaves. *)
Lemma skipelem_name nm : good_name nm → ∃ name', skipelem (47 :: nm) (replicate 14 0) = Some ([], name') ∧
  length name' = 14%nat ∧ Forall is_u8 name' ∧ upto_nul name' = take 14 nm.
Proof.
  intros (Hne & H47 & Hn). unfold skipelem. cbn [skip_slashes]. rewrite Z.eqb_refl.
  assert (skip_slashes nm = nm) as ->.
  { destruct nm as [|c nm]; [done|]. simpl. rewrite (proj2 (Z.eqb_neq c 47)); [done|]. intros ->. apply H47. left. }
  assert (span_elem nm = (nm, [])) as Hs.
  { clear Hne Hn. induction nm as [|c nm IH]; [done|]. cbn [span_elem]. apply not_elem_of_cons in H47 as [H1 H2].
    rewrite (proj2 (Z.eqb_neq c 47)) by congruence. by rewrite IH. }
  destruct nm as [|c nm]; [done|]. rewrite Hs. cbn [skip_slashes]. set (l := c :: nm) in *. eexists. split; [done|].
  destruct (name_stored (replicate 14 0) l) as [H1 H2]; [done|by apply name_nonzero|].
  split; [exact H1|]. split; [|exact H2]. pose proof (name_u8 l Hn) as Hu.
  assert (Forall is_u8 (replicate 14 0)) as Hz by (apply Forall_replicate; unfold is_u8; lia).
  destruct (DIRSIZ <=? Z.of_nat (length l)).
  - unfold splice. rewrite take_0. apply Forall_app. split; [done|]. apply Forall_app. split; [by apply Forall_take|by apply Forall_drop].
  - unfold setZ. apply Forall_insert; [|unfold is_u8; lia]. unfold splice. rewrite take_0. apply Forall_app. split; [done|].
    apply Forall_app. split; [done|by apply Forall_drop].
Qed.

(** ** The kernel *)

Section boot.
Context {K : Type} `{!BlockLayer K, !BlockLayerLaws K}.
Context (rd : Z → option (nat → Z → M (fsst K) (Z * list Z))).
Context (own : Z → Z * Z) (fb : Z) (args datas : list (list Z)) (s : image) (Hbu : built own fb args datas s).
Context (Hn : Z.of_nat (length args) <= 198) (Hlen : length args = length datas).
Context (Hround : (Z.of_nat (length args) + 2) mod 32 ≠ 0).
Implicit Types (k : K).

(** The kernel below the file system shows the image, and has a buffer to spare. *)
Record shows k : Prop := {
  sh_inv : bl_inv k; sh_dev : bl_dev = ROOTDEV; sh_view : ∀ b, bl_view k b = im_img s b;
  sh_block : ∀ b, b = 1 ∨ 32 <= b < FSSIZE → bl_block k b; sh_held : bl_held k = []; sh_room : bl_room k 1 0
}.

Lemma shows_step k k' : shows k → bl_step k (bl_view k) (bl_held k) [] k' → shows k'.
Proof.
  intros [H1 H2 H3 H4 H5 H6] Hs. split.
  - eauto with xv6.
  - done.
  - intros b. by rewrite (step_view _ _ _ _ _ Hs).
  - intros b Hb. eapply step_block; [exact Hs|by apply H4].
  - pose proof (step_held _ _ _ _ _ Hs) as Hp. rewrite H5 in Hp. by apply Permutation_nil_r in Hp.
  - eapply bl_step_room; [exact Hs|exact H6| |]; simpl; lia.
Qed.

Lemma shows_usable k b : shows k → 32 <= b < FSSIZE → usable k b.
Proof. intros H Hb. split; [lia|]. split; [by apply (sh_block k H); right|]. rewrite (sh_held k H). apply not_elem_of_nil. Qed.

(** The dinode of inode [i + 1], and its blocks. *)
Definition din (i : nat) : dinode := dinode_at mk_sb (im_img s) (1 + Z.of_nat i).

Lemma image_lookup i : (i <= length datas)%nat → ∃ t data, image_files args datas !! i = Some (t, data) ∧
  (t = T_DIR ∨ t = T_FILE) ∧ (i = 0%nat → t = T_DIR ∧ data = root_bytes args).
Proof.
  intros Hi. destruct i as [|i]; [by exists T_DIR, (root_bytes args); split_and!; [|left|]|].
  destruct (lookup_lt_is_Some_2 datas i) as [data Hd]; [lia|]. exists T_FILE, data. split_and!; [|by right|done].
  change ((pair T_FILE <$> datas) !! i = Some (T_FILE, data)). by rewrite list_lookup_fmap, Hd.
Qed.

Lemma din_view k i : shows k → dinode_at mk_sb (bl_view k) (1 + Z.of_nat i) = din i.
Proof. intros H. unfold din, dinode_at. by rewrite (sh_view k H). Qed.

Lemma din_mapped k i t data bn : shows k → image_files args datas !! i = Some (t, data) → 0 <= bn < blocks_of (file_len data) →
  mapped k (din i) bn.
Proof.
  intros H Hi Hb. destruct (bu_files _ _ _ _ _ Hbu i t data Hi) as [_ Hr]. fold (din i) in Hr. pose proof (bu_fb _ _ _ _ _ Hbu) as Hfb.
  assert (iblock (bl_view k) (din i) bn = iblock (im_img s) (din i) bn) as Ei by (apply iblock_ext; intros _; apply (sh_view k H)).
  split.
  - pose proof (r_nb _ _ _ _ _ _ _ _ Hr). lia.
  - rewrite Ei. apply shows_usable; [done|]. pose proof (r_blk _ _ _ _ _ _ _ _ Hr bn Hb) as [? _]. mk_lia.
  - intros Hd. pose proof (r_ind _ _ _ _ _ _ _ _ Hr) as Hind. rewrite (proj2 (Z.ltb_lt _ _)) in Hind by lia. destruct Hind as [? _].
    apply shows_usable; [done|mk_lia].
Qed.

(** ilock of an inode that is in the cache and not locked, and not yet read. *)
Lemma ilock_image (f : fsst K) ip i : shows (fs_k f) → fs_sb f = mk_sb → (i <= length datas)%nat → (ip < length (fs_icache f))%nat →
  i_dev (inode_of ip f) = ROOTDEV → i_inum (inode_of ip f) = 1 + Z.of_nat i → i_ref (inode_of ip f) = 1 →
  sl_locked (i_lock (inode_of ip f)) = false → i_valid (inode_of ip f) = false →
  ∃ k', ilock ip f = Ok tt (set_icache (<[ip := Inode ROOTDEV (1 + Z.of_nat i) 1 (Sleeplock true (fs_pid f)) true (din i)]> (fs_icache f)) (set_k k' f)) ∧
    shows k'.
Proof.
  intros H Hsb Hi Hip Hdev Hnum Href Hlk Hval. destruct (image_lookup i Hi) as (t & data & Hd & Ht & _).
  destruct (bu_files _ _ _ _ _ Hbu i t data Hd) as [Hdin _]. fold (din i) in Hdin.
  destruct (inode_block (1 + Z.of_nat i)) as [Hib _]; [lia|].
  pose proof (ilock_correct ip f) as HL. cbv zeta in HL. rewrite Hval, Hsb, Hnum, din_view in HL by done.
  assert (d_type (din i) = t) as Ety by (by rewrite Hdin). rewrite Ety in HL.
  assert ((t =? 0) = false) as Et by (by destruct Ht as [-> | ->]). rewrite Et in HL.
  destruct HL as (k' & HL & Hs); [done|lia|done|apply H|by rewrite Hdev, (sh_dev _ H)|apply (sh_block _ H); right; mk_lia| |apply H|].
  { rewrite (sh_held _ H). apply not_elem_of_nil. }
  exists k'. split; [|by eapply shows_step]. rewrite HL, list_insert_alter.
  match goal with |- Ok tt (set_icache ?a _) = Ok tt (set_icache ?b _) => assert (a = b) as ->; [|done] end.
  apply list_alter_ext; [|done]. intros x Hx. unfold inode_of in *.
  rewrite (list_lookup_total_correct _ _ _ Hx) in *. by rewrite Hdev, Hnum, Href.
Qed.

(** ** The root directory *)

(** The names of the directory's entries in order, and their inodes. *)
Definition dir_names : list (list Z) := [46] :: [46; 46] :: (skip_underscore <$> args).
Definition ino_of (j : nat) : Z := match j with O => 1 | S O => 1 | S (S k) => 2 + Z.of_nat k end.
Context (Hgood : Forall (λ a, good_name (skip_underscore a)) args) (Hnd : NoDup (take 14 <$> dir_names)).
Let nb : Z := blocks_of (16 * (Z.of_nat (length args) + 2)).

Lemma nb_eq : nb = 16 * (Z.of_nat (length args) + 2) / 512 + 1.
Proof. unfold nb, blocks_of. clear -Hround. Z.to_euclidean_division_equations. lia. Qed.

Lemma dir_names_good j nm : dir_names !! j = Some nm → Forall (λ c, 0 < c < 256) nm ∧ 0 < ino_of j < 65536 ∧ Z.of_nat j < Z.of_nat (length args) + 2.
Proof.
  intros Hj. pose proof (lookup_lt_Some _ _ _ Hj) as Hlt. unfold dir_names in Hlt. cbn [length] in Hlt. rewrite length_fmap in Hlt.
  destruct j as [|[|j]]; [injection Hj as <-; split_and!; simpl; [repeat constructor; lia|lia..]|injection Hj as <-; split_and!; simpl; [repeat constructor; lia|lia..]|].
  change ((skip_underscore <$> args) !! j = Some nm) in Hj. rewrite list_lookup_fmap in Hj. apply fmap_Some in Hj as (a & Ha & ->).
  split; [|simpl; lia]. rewrite Forall_lookup in Hgood. apply (Hgood j a Ha).
Qed.

Lemma root_din : d_type (din 0) = T_DIR ∧ d_nlink (din 0) = 1 ∧ d_size (din 0) = 16 * (32 * nb) ∧ 0 <= nb <= 7.
Proof.
  destruct (bu_files _ _ _ _ _ Hbu 0%nat _ _ eq_refl) as [Hd _]. fold (din 0) in Hd. unfold inode_size in Hd. rewrite size_root in Hd.
  pose proof nb_eq as E. rewrite Hd. split; [done|]. split; [done|]. clear Hd. simpl. split; [lia|].
  rewrite E. clear -Hn. Z.to_euclidean_division_equations. lia.
Qed.

(** What dirlookup compares the name with. *)
Lemma root_matches k name' nm' : shows k → Forall (λ c, 0 < c < 256) nm' → length name' = 14%nat → Forall is_u8 name' → upto_nul name' = take 14 nm' →
  ∀ j, 0 <= j < 32 * nb → matches name' (entry (bl_view k) (din 0) j) = true →
  ∃ nm, dir_names !! Z.to_nat j = Some nm ∧ take 14 nm' = take 14 nm ∧ de_inum (entry (bl_view k) (din 0) j) = ino_of (Z.to_nat j).
Proof.
  intros H Hn' Hl Hu E j Hj Hm. destruct (bu_files _ _ _ _ _ Hbu 0%nat _ _ eq_refl) as [_ Hr]. fold (din 0) in Hr. rewrite size_root in Hr. fold nb in Hr.
  assert (entry (bl_view k) (din 0) j = entry (im_img s) (din 0) j) as Ev.
  { apply list_fmap_ext. intros i o _. apply content_ext, (sh_view k H). }
  rewrite Ev in Hm |- *. destruct (root_entries args (content (im_img s) (din 0)) nb) as (E0 & E1 & E2 & E3).
  { intros o Ho. apply (r_content _ _ _ _ _ _ _ _ Hr). by rewrite BSZ_eq. }
  { unfold nb, blocks_of. clear. Z.to_euclidean_division_equations. lia. }
  fold (entry (im_img s) (din 0) 0) in E0. fold (entry (im_img s) (din 0) 1) in E1.
  assert (∀ i nm, 0 < i < 65536 → Forall (λ c, 0 < c < 256) nm → entry (im_img s) (din 0) j = dirent i (name_copy nm) →
    take 14 nm' = take 14 nm ∧ de_inum (entry (im_img s) (din 0) j) = i) as Hent.
  { intros i nm Hi Hnm He. rewrite He in Hm |- *. rewrite (matches_eq nm' nm i name') in Hm by done. apply bool_decide_eq_true_1 in Hm.
    split; [done|]. apply dirent_fields. lia. }
  destruct (decide (Z.of_nat (length args) + 2 <= j)).
  { unfold matches in Hm. unfold entry in Hm at 1. by rewrite (E3 j) in Hm by lia. }
  destruct (lookup_lt_is_Some_2 dir_names (Z.to_nat j)) as [nm Hnm].
  { unfold dir_names. cbn [length]. rewrite length_fmap. lia. }
  exists nm. split; [done|]. destruct (dir_names_good _ _ Hnm) as (Hg & Hi & _). apply Hent; [done|done|].
  destruct (decide (j = 0)) as [->|]; [injection Hnm as <-; exact E0|].
  destruct (decide (j = 1)) as [->|]; [injection Hnm as <-; exact E1|].
  destruct (Z.to_nat j) as [|[|k']] eqn:Ek; [lia|lia|].
  change ((skip_underscore <$> args) !! k' = Some nm) in Hnm. rewrite list_lookup_fmap in Hnm. apply fmap_Some in Hnm as (a & Ha & ->).
  cbn [ino_of]. replace j with (2 + Z.of_nat k') by lia. exact (E2 k' a Ha).
Qed.

Lemma dirlookup_root (f : fsst K) ip (k : nat) a name' : shows (fs_k f) → i_dev (inode_of ip f) = ROOTDEV → i_d (inode_of ip f) = din 0 →
  args !! k = Some a → length name' = 14%nat → Forall is_u8 name' → upto_nul name' = take 14 (skip_underscore a) →
  ∃ k1, shows k1 ∧ dirlookup rd ip name' f =
    (next ← iget ROOTDEV (2 + Z.of_nat k); mret (Some (next, 16 * (2 + Z.of_nat k)))) (set_k k1 f).
Proof.
  intros H Hdev Hd Hk Hl Hu E. destruct root_din as (Ht & _ & Hsz & Hnb). pose proof (sh_dev _ H) as Ed.
  pose proof (dirlookup_correct rd ip name' f (32 * nb)) as HL. cbv zeta in HL. rewrite Hd, Hdev, Hsz, Ed in HL.
  assert (dir_names !! S (S k) = Some (skip_underscore a)) as Hk'.
  { change ((skip_underscore <$> args) !! k = Some (skip_underscore a)). by rewrite list_lookup_fmap, Hk. }
  destruct (dir_names_good _ _ Hk') as (Hg & Hi & Hlt).
  assert (Z.of_nat (S (S k)) < 32 * nb) as Hkn by (rewrite nb_eq; clear -Hlt; Z.to_euclidean_division_equations; lia).
  pose proof (root_matches (fs_k f) name' _ H Hg Hl Hu E) as Hm.
  destruct HL as (k1 & Hs & HL); [apply H|done|done|apply H| |done|lia|lia|].
  { intros bn Hb1 Hb2. rewrite BSZ_eq in Hb2. apply (din_mapped _ 0 T_DIR (root_bytes args)); [done|done|].
    rewrite size_root. fold nb. lia. }
  exists k1. split; [by eapply shows_step|]. destruct HL as [(j & Hj & Hmj & _ & HL)|[Hno _]].
  - destruct (Hm j Hj Hmj) as (nm & Hnm & E2 & Hino). rewrite HL, Hino.
    assert (Z.to_nat j = S (S k)) as Ej.
    { apply (NoDup_lookup _ _ _ (take 14 nm) Hnd); rewrite list_lookup_fmap; [by rewrite Hnm|by rewrite Hk', <-E2]. }
    rewrite Ej. cbn [ino_of]. by replace j with (2 + Z.of_nat k) by lia.
  - exfalso. destruct (bu_files _ _ _ _ _ Hbu 0%nat _ _ eq_refl) as [_ Hr]. fold (din 0) in Hr. rewrite size_root in Hr. fold nb in Hr.
    assert (entry (bl_view (fs_k f)) (din 0) (2 + Z.of_nat k) = dirent (2 + Z.of_nat k) (name_copy (skip_underscore a))) as Ee.
    { transitivity (entry (im_img s) (din 0) (2 + Z.of_nat k)).
      { apply list_fmap_ext. intros i o _. apply content_ext, (sh_view _ H). }
      destruct (root_entries args (content (im_img s) (din 0)) nb) as (_ & _ & E2 & _); [| |exact (E2 k a Hk)].
      - intros o Ho. apply (r_content _ _ _ _ _ _ _ _ Hr). by rewrite BSZ_eq.
      - unfold nb, blocks_of. clear. Z.to_euclidean_division_equations. lia. }
    specialize (Hno (2 + Z.of_nat k) ltac:(lia)). rewrite Ee in Hno. rewrite (matches_eq (skip_underscore a)) in Hno by (done || (simpl in Hi; lia)).
    by rewrite bool_decide_true in Hno.
Qed.

(** ** namei *)

(** The cache when the root directory was read and let go, and the inode was found. *)
Definition found_cache (pid inum : Z) (valid : bool) (lk : sleeplock) (d : dinode) : list inode :=
  Inode ROOTDEV ROOTINO 0 (Sleeplock false 0) true (din 0) :: Inode ROOTDEV inum 1 lk valid d :: replicate 48 inode0.

Lemma iget_free k pid cwd inum :
  iget ROOTDEV inum (FsSt k mk_sb (replicate NINODE inode0) pid cwd) =
    Ok 0%nat (FsSt k mk_sb (Inode ROOTDEV inum 1 initsleeplock false (i_d inode0) :: replicate 49 inode0) pid cwd).
Proof. reflexivity. Qed.

Lemma iget_scan_free dev inum n : ∀ i e, iget_scan dev inum (replicate n inode0) i e =
  (None, match e with Some _ => e | None => if decide (n = 0%nat) then None else Some i end).
Proof.
  induction n as [|n IH]; intros i e; [by destruct e|]. cbn [replicate iget_scan]. change (0 <? i_ref inode0) with false.
  cbn [andb]. rewrite IH. change (i_ref inode0 =? 0) with true. cbn iota. by destruct e.
Qed.

Lemma iget_scan_second x inum n : i_ref x = 1 → i_inum x ≠ inum →
  iget_scan ROOTDEV inum (x :: replicate (S n) inode0) 0 None = (None, Some 1%nat).
Proof.
  intros Hr Hi. cbn [iget_scan]. rewrite Hr, (proj2 (Z.eqb_neq _ _) Hi), andb_false_r. change (1 =? 0) with false. cbn iota.
  rewrite iget_scan_free. by rewrite decide_False by done.
Qed.

Lemma iget_second_run (k : K) pid cwd x inum l : iget_scan ROOTDEV inum (x :: inode0 :: l) 0 None = (None, Some 1%nat) →
  iget ROOTDEV inum (FsSt k mk_sb (x :: inode0 :: l) pid cwd) =
    Ok 1%nat (FsSt k mk_sb (x :: Inode ROOTDEV inum 1 initsleeplock false (i_d inode0) :: l) pid cwd).
Proof. intros E. unfold iget. rewrite run_gets. cbn [fs_icache]. rewrite E. reflexivity. Qed.

Lemma iget_second k pid cwd x inum : i_ref x = 1 → i_inum x ≠ inum →
  iget ROOTDEV inum (FsSt k mk_sb (x :: replicate 49 inode0) pid cwd) =
    Ok 1%nat (FsSt k mk_sb (x :: Inode ROOTDEV inum 1 initsleeplock false (i_d inode0) :: replicate 48 inode0) pid cwd).
Proof. intros Hr Hi. apply iget_second_run. exact (iget_scan_second x inum 48 Hr Hi). Qed.

(** Unlocking and dropping an inode that has a link. *)
Lemma iunlockput_first k pid cwd d l : d_nlink d = 1 →
  iunlockput 0 (FsSt k mk_sb (Inode ROOTDEV ROOTINO 1 (Sleeplock true pid) true d :: l) pid cwd) =
    Ok tt (FsSt k mk_sb (Inode ROOTDEV ROOTINO 0 (Sleeplock false 0) true d :: l) pid cwd).
Proof.
  intros Hnl. set (f := FsSt _ _ _ _ _). set (g := λ lk, FsSt k mk_sb (Inode ROOTDEV ROOTINO 1 lk true d :: l) pid cwd).
  assert (iunlock 0 f = Ok tt (g (Sleeplock false 0))) as H1 by reflexivity.
  assert (acquiresleep_inode 0 (g (Sleeplock false 0)) = Ok tt f) as H2 by reflexivity.
  unfold iunlockput. rewrite (bind_run _ _ _ _ _ H1). unfold iput. rewrite (bind_run _ _ _ _ _ H2), run_gets.
  change (inode_of 0 f) with (Inode ROOTDEV ROOTINO 1 (Sleeplock true pid) true d). cbn [i_valid i_d]. rewrite Hnl. reflexivity.
Qed.

Lemma namei_image k pid cwd (i : nat) a : shows k → args !! i = Some a → ∃ k',
  namei rd (47 :: skip_underscore a) (FsSt k mk_sb (replicate NINODE inode0) pid cwd) =
    Ok (Some 1%nat) (FsSt k' mk_sb (found_cache pid (2 + Z.of_nat i) false initsleeplock (i_d inode0)) pid cwd) ∧ shows k'.
Proof.
  intros H Hi. assert (good_name (skip_underscore a)) as Hg by (rewrite Forall_lookup in Hgood; by apply (Hgood i)).
  destruct (skipelem_name _ Hg) as (name' & Hsk & Hl & Hu & E). destruct root_din as (Ht & Hnl & _).
  unfold namei, namex. cbn [hd]. rewrite Z.eqb_refl. rewrite run_assoc, (bind_run _ _ _ _ _ (iget_free _ _ _ _)).
  cbn [namex_loop length]. rewrite Hsk.
  destruct (ilock_image (FsSt k mk_sb (Inode ROOTDEV ROOTINO 1 initsleeplock false (i_d inode0) :: replicate 49 inode0) pid cwd) 0 0)
    as (k1 & H1 & Hs1); [done|done|lia|simpl; lia|done..|].
  set (f1 := FsSt k1 mk_sb (Inode ROOTDEV ROOTINO 1 (Sleeplock true pid) true (din 0) :: replicate 49 inode0) pid cwd).
  lazymatch type of H1 with ?a = _ => change (a = Ok tt f1) in H1 end. rewrite run_assoc, (bind_run _ _ _ _ _ H1), run_assoc, run_gets.
  change (inode_of 0 f1) with (Inode ROOTDEV ROOTINO 1 (Sleeplock true pid) true (din 0)). cbn [i_d]. rewrite Ht. cbn [negb andb Z.eqb T_DIR Pos.eqb].
  destruct (dirlookup_root f1 0 i a name' Hs1 eq_refl eq_refl Hi Hl Hu E) as (k2 & Hs2 & H2).
  change (set_k k2 f1) with (FsSt k2 mk_sb (Inode ROOTDEV ROOTINO 1 (Sleeplock true pid) true (din 0) :: replicate 49 inode0) pid cwd) in H2.
  set (r := Inode ROOTDEV ROOTINO 1 (Sleeplock true pid) true (din 0)) in *.
  rewrite (bind_run _ _ _ _ _ (iget_second k2 pid cwd r (2 + Z.of_nat i) eq_refl ltac:(change (1 ≠ 2 + Z.of_nat i); lia))) in H2.
  set (x := Inode ROOTDEV (2 + Z.of_nat i) 1 initsleeplock false (i_d inode0)) in *.
  pose proof (iunlockput_first k2 pid cwd (din 0) (x :: replicate 48 inode0) Hnl) as H3. fold r in H3.
  exists k2. split; [|done]. rewrite run_assoc, (bind_run _ _ _ _ _ H2), run_assoc, (bind_run _ _ _ _ _ H3).
  reflexivity.
Qed.

(** ** Booting, and reading *)

(** iinit on the cache of the bss: it reads the superblock of the image. *)
Lemma iinit_image k sb0 pid cwd : shows k → ∃ k',
  iinit ROOTDEV (FsSt k sb0 (replicate NINODE inode0) pid cwd) = Ok tt (FsSt k' mk_sb (replicate NINODE inode0) pid cwd) ∧ shows k'.
Proof.
  intros H. set (f := FsSt _ _ _ _ _). assert (for_each (seq 0 NINODE) (λ i, upd_inode i (set_ilock initsleeplock)) f = Ok tt f) as H1 by reflexivity.
  unfold iinit. rewrite (bind_run _ _ _ _ _ H1). destruct (fs_readsb_run f) as (k' & H2 & Hs); [apply H|apply (sh_block _ H); by left| |apply H|].
  { simpl. rewrite (sh_held _ H). apply not_elem_of_nil. }
  change (fs_k f) with k in *. rewrite (sh_view _ H), (bu_sb _ _ _ _ _ Hbu), (sh_dev _ H) in H2. rewrite (bind_run _ _ _ _ _ H2).
  exists k'. split; [reflexivity|by eapply shows_step].
Qed.

Lemma read_image k pid cwd (i : nat) data n : shows k → datas !! i = Some data → file_len data <= n < 4294967296 → ∃ f2 k3,
  ilock 1 (FsSt k mk_sb (found_cache pid (2 + Z.of_nat i) false initsleeplock (i_d inode0)) pid cwd) = Ok tt f2 ∧
  d_type (i_d (inode_of 1 f2)) = T_FILE ∧
  readi rd 1 0 n f2 = Ok (file_len data, data) (FsSt k3 mk_sb (found_cache pid (2 + Z.of_nat i) true (Sleeplock true pid) (din (S i))) pid cwd) ∧ shows k3.
Proof.
  intros H Hi Hmax. pose proof (lookup_lt_Some _ _ _ Hi) as Hlt. pose proof (file_len_nonneg data) as H0.
  assert (image_files args datas !! S i = Some (T_FILE, data)) as Hi'
    by (change ((pair T_FILE <$> datas) !! i = Some (T_FILE, data)); by rewrite list_lookup_fmap, Hi).
  destruct (bu_files _ _ _ _ _ Hbu _ _ _ Hi') as [Hd Hr]. fold (din (S i)) in Hd, Hr.
  assert (d_type (din (S i)) = T_FILE ∧ d_size (din (S i)) = file_len data) as [Ht Hsz] by (by rewrite Hd).
  destruct (ilock_image (FsSt k mk_sb (found_cache pid (2 + Z.of_nat i) false initsleeplock (i_d inode0)) pid cwd) 1 (S i))
    as (k1 & H1 & Hs1); [done|done|lia|simpl; lia|done| |done..|]; [simpl; lia|].
  replace (1 + Z.of_nat (S i)) with (2 + Z.of_nat i) in H1 by lia.
  set (f2 := FsSt k1 mk_sb (found_cache pid (2 + Z.of_nat i) true (Sleeplock true pid) (din (S i))) pid cwd).
  lazymatch type of H1 with ?a = _ => change (a = Ok tt f2) in H1 end. exists f2.
  pose proof (readi_run rd 1 0 n f2) as HR. cbv zeta in HR.
  change (inode_of 1 f2) with (Inode ROOTDEV (2 + Z.of_nat i) 1 (Sleeplock true pid) true (din (S i))) in *. cbn [i_d i_dev] in *.
  rewrite Hsz, Ht, Z.sub_0_r, Z.min_r in HR by lia.
  destruct HR as (k3 & HR & Hs3); [apply Hs1|by rewrite (sh_dev _ Hs1)|done|apply Hs1|lia|lia|lia| |].
  { intros bn Hb1 Hb2. apply (din_mapped _ (S i) T_FILE data); [done|done|]. rewrite BSZ_eq in *. unfold blocks_of.
    clear -Hb1 Hb2. Z.to_euclidean_division_equations. lia. }
  exists k3. split; [exact H1|]. split; [exact Ht|]. split; [|by eapply shows_step]. rewrite HR.
  assert (content (bl_view (fs_k f2)) (din (S i)) <$> seqZ 0 (file_len data) = data) as ->; [|reflexivity].
  apply read_bytes. intros x Hx. rewrite Z.add_0_l. rewrite (content_ext (im_img s)) by apply (sh_view _ Hs1).
  apply (r_content _ _ _ _ _ _ _ _ Hr). rewrite BSZ_eq. unfold blocks_of. clear -Hx. Z.to_euclidean_division_equations. lia.
Qed.
End boot.

(** ** The log over the disk *)

Section recovery.
Context {D : Type} `{!DiskDriver D, !DiskDriverLaws D}.

(** A log at boot over a disk that holds the image, where its superblock says. *)
Record holds_image (s : image) (l : logst D) : Prop := {
  hi_fresh : fresh l; hi_dev : dd_dev = ROOTDEV; hi_size : dd_size (bc_drv (lg_bc l)) = FSSIZE;
  hi_disk : ∀ b, dd_block (bc_drv (lg_bc l)) b = im_img s b;
  hi_start : lg_start l = sb_logstart (sb_decode (im_img s 1)); hi_nlog : lg_size l = sb_nlog (sb_decode (im_img s 1))
}.

Lemma set_hd_zero : set_hd_n zero_block 0 = zero_block.
Proof. by vm_compute. Qed.
Lemma hd_n_zero : hd_n zero_block = 0.
Proof. by vm_compute. Qed.

(** Recovery finds an empty log, and leaves the disk as it was. *)
Lemma recover_empty (l : logst D) : fresh l → dd_block (bc_drv (lg_bc l)) (lg_start l) = zero_block →
  ∃ l1, recover_from_log l = Ok tt l1 ∧ log_inv l1 ∧ quiet (lg_bc l1) ∧ lh_n l1 = 0 ∧ lg_start l1 = lg_start l ∧ lg_size l1 = lg_size l ∧
    dd_size (bc_drv (lg_bc l1)) = dd_size (bc_drv (lg_bc l)) ∧ ∀ m, view (lg_bc l1) m = dd_block (bc_drv (lg_bc l)) m.
Proof.
  intros Hf Hz. assert (boot l) as Hb by (split; [done|]; apply header_clear; [apply Hf|by rewrite Hz, hd_n_zero]).
  destruct (recover_ok l Hb) as (l1 & Hrun & Hinv & Hq & Hn & Hs1 & Hs2 & _ & Hv & _).
  destruct (recover_run l Hb) as (s' & Hrun' & Hw). rewrite Hrun in Hrun'. injection Hrun' as E. exists l1. split_and!; try assumption.
  - rewrite E. exact (wrotes_size _ _ _ Hw).
  - intros m. rewrite Hv. unfold recover_disk, recover_writes. rewrite Hz, hd_n_zero, set_hd_zero. change (seqZ 0 0) with (@nil Z).
    cbn [fmap list_fmap apply_writes foldl]. unfold fupd. case_decide as Em; [by rewrite Em|reflexivity].
Qed.

Lemma quiet_room (l : logst D) : quiet (lg_bc l) → lh_n l = 0 → held_list (lg_bc l) = [] ∧ logged l = [].
Proof.
  intros Hq Hn. split.
  - apply elem_of_nil_inv. intros [i n] Hi%elem_of_held_list. by apply (Hq i n).
  - unfold logged. rewrite Hn. reflexivity.
Qed.

Lemma recover_shows own fb args datas s (l : logst D) : built own fb args datas s → holds_image s l →
  ∃ l1, recover_from_log l = Ok tt l1 ∧ shows s l1.
Proof.
  intros Hbu [Hf Hdev Hsz Hd Hst Hnl]. rewrite (bu_sb _ _ _ _ _ Hbu) in Hst, Hnl. change (sb_logstart mk_sb) with 2 in Hst. change (sb_nlog mk_sb) with 30 in Hnl.
  destruct (recover_empty l Hf) as (l1 & Hrun & Hinv & Hq & Hn & Hs1 & Hs2 & Hds & Hv); [by rewrite Hst, Hd, (bu_log _ _ _ _ _ Hbu)|].
  destruct (quiet_room l1 Hq Hn) as [Hh Hlg]. exists l1. split; [exact Hrun|]. split.
  - exact Hinv.
  - exact Hdev.
  - intros b. rewrite <-Hd. exact (Hv b).
  - intros b Hb. split; [rewrite Hds, Hsz; mk_lia|rewrite Hs1, Hs2, Hst, Hnl; mk_lia].
  - exact Hh.
  - split; cbn [bl_held bl_logged bl_bufs bl_cap log_layer]; rewrite ?Hh, Hlg; unfold NBUF; cbn [length]; lia.
Qed.
End recovery.

(** C10. The image builder and the kernel agree end to end. For any files of the host
    that fit, with names that are good and differ in their first fourteen characters (and a
    number of directory entries that does not fill its last block), after mkfs wrote
    the image: a kernel that boots on a disk with it recovers the log without a change, reads
    the superblock, and for each file finds an inode under its name without the leading
    underscore; ilock and readi then return exactly the bytes that the file had on the host.
    The composition is of Log, Bio, the disk driver and Fs as they are. *)
Theorem boot_reads_files `{!DiskDriver D, !DiskDriverLaws D} host_open
    (rd : Z → option (nat → Z → M (fsst (logst D)) (Z * list Z))) args datas (l : logst D) sb0 pid cwd :
  fits host_open args datas → (Z.of_nat (length args) + 2) mod 32 ≠ 0 →
  Forall (λ a, good_name (skip_underscore a)) args → NoDup (take 14 <$> dir_names args) →
  (∃ s, mkfs host_open args image0 = Ok tt s ∧ holds_image s l) →
  ∃ l1 f1, recover_from_log l = Ok tt l1 ∧
    iinit ROOTDEV (FsSt l1 sb0 (replicate NINODE inode0) pid cwd) = Ok tt f1 ∧
    ∀ i a data n, args !! i = Some a → datas !! i = Some data → file_len data <= n < 4294967296 →
      ∃ ip f2 f3 f4, namei rd (47 :: skip_underscore a) f1 = Ok (Some ip) f2 ∧
        i_inum (inode_of ip f2) = 2 + Z.of_nat i ∧
        ilock ip f2 = Ok tt f3 ∧ d_type (i_d (inode_of ip f3)) = T_FILE ∧
        readi rd ip 0 n f3 = Ok (file_len data, data) f4.
Proof.
  intros Hfit Hround Hgood Hnd (s & Hrun & Hl). destruct (mkfs_built host_open args datas Hfit) as (s' & own & fb & Hrun' & Hbu).
  rewrite Hrun in Hrun'. injection Hrun' as <-. pose proof Hfit as (Hin & Hn & _). pose proof (Forall2_length _ _ _ Hin) as Hlen.
  destruct (recover_shows own fb args datas s l Hbu Hl) as (l1 & Hrec & H1).
  destruct (iinit_image own fb args datas s Hbu Hlen l1 sb0 pid cwd H1) as (k1 & Hii & Hk1).
  exists l1, (FsSt k1 mk_sb (replicate NINODE inode0) pid cwd). split; [exact Hrec|]. split; [exact Hii|].
  intros i a data n Ha Hd Hmax.
  destruct (namei_image rd own fb args datas s Hbu Hn Hlen Hround Hgood Hnd k1 pid cwd i a Hk1 Ha) as (k2 & Hna & Hk2).
  destruct (read_image rd own fb args datas s Hbu Hn Hlen k2 pid cwd i data n Hk2 Hd Hmax) as (f3 & k4 & Hil & Ht & Hre & _).
  do 4 eexists. split; [exact Hna|]. split; [reflexivity|]. split; [exact Hil|]. split; [exact Ht|exact Hre].
Qed.

(** The image on a memory disk. *)
Definition image_disk (s : image) : Memide.memide := Memide.MkMemide (list_to_map ((λ b, (b, im_img s b)) <$> seqZ 0 1000)) 1000 [].

Lemma image_disk_block own fb args datas s b : built own fb args datas s → dd_block (image_disk s) b = im_img s b.
Proof.
  intros Hbu. change (dd_block (image_disk s) b) with (Memide.disk_block (image_disk s) b). unfold Memide.disk_block, image_disk. cbn [Memide.memdisk].
  destruct (list_to_map _ !! b) as [x|] eqn:E.
  - apply elem_of_list_to_map_2, list_elem_of_fmap in E as (b' & [= -> ->] & _). done.
  - apply not_elem_of_list_to_map_2 in E. simpl. symmetry. apply (bu_out _ _ _ _ _ Hbu). pose proof (bu_fb _ _ _ _ _ Hbu) as Hfb.
    destruct (decide (b < 0)); [by left|]. right. destruct (decide (fb <= b)); [done|]. exfalso. apply E.
    rewrite <-list_fmap_compose. apply list_elem_of_fmap. exists b. split; [done|]. apply elem_of_seqZ. mk_lia.
Qed.

Lemma boot_reads_files_witness : ∃ (l1 : logst Memide.memide) f1 ip f2 f3 f4,
  iinit ROOTDEV (FsSt l1 mk_sb (replicate NINODE inode0) 1 0) = Ok tt f1 ∧
  namei (λ _, None) [47; 99; 97; 116] f1 = Ok (Some ip) f2 ∧ ilock ip f2 = Ok tt f3 ∧
  readi (λ _, None) ip 0 512 f3 = Ok (3, [1; 2; 3]) f4.
Proof.
  set (args := [[95; 99; 97; 116]; [82; 69; 65; 68; 77; 69]]). set (datas := [[1; 2; 3]; [9]]).
  assert (fits host_ex args datas) as Hfit.
  { split; [|split; by vm_compute]. constructor; [|constructor; [|constructor]].
    - split; [by apply (bool_decide_unpack _)|]. split; [by exists [[1; 2]; [3]; []]|by vm_compute].
    - split; [by apply (bool_decide_unpack _)|]. split; [by exists [[9]]|by vm_compute]. }
  destruct (mkfs_built host_ex args datas Hfit) as (s & own & fb & Hrun & Hbu).
  pose proof (image_disk_block own fb args datas s) as Hdb.
  destruct (binit_empty (image_disk s) 7) as (c & _ & Hd & _ & He).
  { intros b. rewrite Hdb by exact Hbu. apply (b_blk s (bu_base _ _ _ _ _ Hbu)). }
  destruct (boot_reads_files host_ex (λ _, None) args datas (Log c 2 30 0 false 1 0 (replicate 30 0) 0) mk_sb 1 0 Hfit)
    as (l1 & f1 & _ & Hii & Hf).
  - by vm_compute.
  - constructor; [|constructor; [|constructor]]; (split; [done|]); (split; [by apply (bool_decide_unpack _)|]); repeat constructor; lia.
  - apply (bool_decide_unpack _). by vm_compute.
  - exists s. split; [exact Hrun|]. rewrite <-Hd in Hdb. split.
    + split; [split|exact He|reflexivity]; cbn [lg_dev lg_start lg_size lg_bc]; [reflexivity|lia|lia|].
      change (dd_size (bc_drv c)) with (Memide.disksize (bc_drv c)). rewrite Hd. cbn [Memide.disksize image_disk]. lia.
    + reflexivity.
    + simpl. change (dd_size (bc_drv c)) with (Memide.disksize (bc_drv c)). by rewrite Hd.
    + intros b. exact (Hdb b Hbu).
    + by rewrite (bu_sb _ _ _ _ _ Hbu).
    + by rewrite (bu_sb _ _ _ _ _ Hbu).
  - destruct (Hf 0%nat [95; 99; 97; 116] [1; 2; 3] 512 eq_refl eq_refl ltac:(split; by vm_compute)) as (ip & f2 & f3 & f4 & H1 & _ & H2 & _ & H3).
    exists l1, f1, ip, f2, f3, f4. split; [exact Hii|]. split; [exact H1|]. split; [exact H2|exact H3].
Defined.
