(* ===== verification/Kalloc.v ===== *)
(** * The page allocator (kalloc.c)

    Free pages form a linked list through their own first words, in the
    kernel's memory. [kmst] is that memory with kmem; kmem.lock makes each
    routine an atomic section. [kend] is the linker's symbol [end]. *)

From S2P Require Import Prelude Cstring.

Definition PGSIZE : Z := 4096.
Definition PHYSTOP : Z := 0xE000000.
Definition KERNBASE : Z := 0x80000000.
Definition V2P (a : Z) : Z := u32 (a - KERNBASE).
Definition P2V (a : Z) : Z := u32 (a + KERNBASE).
Definition PGROUNDUP (sz : Z) : Z := Z.land (u32 (sz + PGSIZE - 1)) (Z.lnot (PGSIZE - 1)).
Definition PGROUNDDOWN (a : Z) : Z := Z.land a (Z.lnot (PGSIZE - 1)).

Record kmst := KmSt { km_mem : mem; use_lock : bool; freelist : Z }.

Section kalloc.
Variable kend : Z.
Implicit Types (k : kmst).

(** kmem.freelist after [r] is pushed on it. *)
Definition kfree (v : Z) : M kmst unit :=
  panic_if (negb (v mod PGSIZE =? 0) || (v <? kend) || (PHYSTOP <=? V2P v)) "kfree";;
  modify (λ k, KmSt (Kernel.memset (km_mem k) v 1 PGSIZE) (use_lock k) (freelist k));;
  next ← gets freelist;
  modify (λ k, KmSt (store32 (km_mem k) v next) (use_lock k) (freelist k));;
  modify (λ k, KmSt (km_mem k) (use_lock k) v).

Definition kalloc : M kmst Z :=
  r ← gets freelist;
  (if negb (r =? 0) then
     modify (λ k, KmSt (km_mem k) (use_lock k) (load32 (km_mem k) r))
   else mret tt);;
  mret r.

(** The pages between [p] and [vend]. *)
Fixpoint freerange_loop (fuel : nat) (p vend : Z) : M kmst unit :=
  match fuel with
  | O => no_fuel
  | S fuel => if u32 (p + PGSIZE) <=? vend then kfree p;; freerange_loop fuel (u32 (p + PGSIZE)) vend
              else mret tt
  end.

Definition freerange (vstart vend : Z) : M kmst unit :=
  freerange_loop (Z.to_nat 1048577) (PGROUNDUP vstart) vend.

Definition kinit1 (vstart vend : Z) : M kmst unit :=
  modify (λ k, KmSt (km_mem k) false (freelist k));;
  freerange vstart vend.

Definition kinit2 (vstart vend : Z) : M kmst unit :=
  freerange vstart vend;;
  modify (λ k, KmSt (km_mem k) true (freelist k)).

(** ** The free list *)

(** An address kfree accepts. *)
Definition is_page (p : Z) : Prop :=
  p mod 4096 = 0 ∧ kend <= p ∧ KERNBASE <= p < KERNBASE + PHYSTOP.

(** The pages of [l] are linked from [a] in memory [m]. *)
Fixpoint linked (m : mem) (a : Z) (l : list Z) : Prop :=
  match l with
  | [] => a = 0
  | p :: l => a = p ∧ linked m (load32 m p) l
  end.

(** The allocator's state: the free pages, each once, in list order. *)
Record km_inv k (l : list Z) : Prop := {
  km_ok : mem_ok (km_mem k);
  km_nodup : NoDup l;
  km_pages : Forall is_page l;
  km_list : linked (km_mem k) (freelist k) l
}.

(** Two memories agree outside of the page at [p]. *)
Definition same_outside (p : Z) (m m' : mem) : Prop := ∀ x, ¬ p <= x < p + 4096 → m' x = m x.

Lemma page_apart p q : is_page p → is_page q → p ≠ q → p + 4096 <= q ∨ q + 4096 <= p.
Proof. intros (Hp & _) (Hq & _) Hne. Z.to_euclidean_division_equations; lia. Qed.

Lemma linked_ext m m' a l p :
  same_outside p m m' → is_page p → Forall is_page l → p ∉ l → linked m a l → linked m' a l.
Proof.
  intros Hm Hp. revert a. induction l as [|q l IH]; intros a Hl Hin; [done|]. simpl.
  apply Forall_cons in Hl as [Hq Hl]. intros [-> Hlk]. split; [done|].
  rewrite (load32_ext m m') by (intros x Hx; apply Hm; destruct (page_apart p q Hp Hq); [set_solver|lia..]).
  apply IH; [done|set_solver|done].
Qed.

Lemma linked_cons m a l :
  Forall is_page l → linked m a l →
  match l with [] => a = 0 | p :: l => a = p ∧ a ≠ 0 ∧ linked m (load32 m p) l end.
Proof.
  destruct l as [|p l]; [done|]. intros [(_ & _ & Hp) _]%Forall_cons [-> Hl].
  split_and!; [done| |done]. unfold KERNBASE in Hp. lia.
Qed.

Lemma page_kfree_ok v :
  is_page v → negb (v mod PGSIZE =? 0) || (v <? kend) || (PHYSTOP <=? V2P v) = false.
Proof.
  intros (Hm & Hk & Hr). unfold PGSIZE. rewrite Hm. simpl.
  rewrite (proj2 (Z.ltb_ge _ _)) by done. simpl. apply Z.leb_gt. unfold V2P, KERNBASE, PHYSTOP in *.
  rewrite u32_small; unfold is_u32; lia.
Qed.

Lemma linked_head_u32 m a l : Forall is_page l → linked m a l → is_u32 a.
Proof.
  destruct l as [|p l]; simpl; [intros _ ->; unfold is_u32; lia|].
  intros [(_ & _ & Hp) _]%Forall_cons [-> _]. unfold KERNBASE, PHYSTOP, is_u32 in *. lia.
Qed.

Lemma kfree_run k l v :
  km_inv k l → is_page v → v ∉ l →
  ∃ k', kfree v k = Ok tt k' ∧ km_inv k' (v :: l) ∧ same_outside v (km_mem k) (km_mem k') ∧
    use_lock k' = use_lock k.
Proof.
  intros [Hm Hnd Hp Hl] Hv Hin. unfold kfree. rewrite run_panic_if by by apply page_kfree_ok.
  run. cbn [freelist].
  eexists. split; [done|]. set (m1 := Kernel.memset _ _ _ _). set (m2 := store32 m1 v (freelist k)).
  assert (∀ x, m1 x = if decide (v <= x < v + 4096) then u8 1 else km_mem k x) as Hm1.
  { intros x. apply KernelSpec.memset_eq. unfold PGSIZE. lia. }
  assert (same_outside v (km_mem k) m2) as Hs.
  { intros x Hx. unfold m2. rewrite store32_ne by lia. by rewrite Hm1, decide_False. }
  split; [split; simpl|done].
  - apply store32_ok. intros x. rewrite Hm1. case_decide; [apply u8_range|apply Hm].
  - by constructor.
  - by constructor.
  - split; [done|]. rewrite load32_store32 by by eapply linked_head_u32.
    by eapply linked_ext.
Qed.

(** The allocator is a stack of free pages. kfree of a page that is not free
    pushes it, kalloc pops the page freed last, so a page handed out is never
    on the free list, and returns 0 exactly when no page is free; only the
    bytes of the freed page change. *)
Theorem kalloc_kfree_correct k l v :
  km_inv k l → is_page v → v ∉ l →
  (∃ k', kfree v k = Ok tt k' ∧ km_inv k' (v :: l) ∧ same_outside v (km_mem k) (km_mem k')) ∧
  (∃ k', kalloc k = Ok (hd 0 l) k' ∧ km_inv k' (tl l) ∧ (hd 0 l ∉ tl l) ∧
     (hd 0 l = 0 ↔ l = []) ∧ km_mem k' = km_mem k).
Proof.
  intros Hk Hv Hin. split; [destruct (kfree_run k l v Hk Hv Hin) as (k' & ? & ? & ? & _); by exists k'|].
  destruct Hk as [Hm Hnd Hp Hl].
  pose proof (linked_cons _ _ _ Hp Hl) as Hc. unfold kalloc. run.
  destruct l as [|p l]; simpl in *.
  - rewrite Hc. simpl. eexists. split; [done|].
    split_and!; [by split|by apply not_elem_of_nil|done|done].
  - destruct Hc as (-> & Hz & Hlk). rewrite (proj2 (Z.eqb_neq p 0)) by done. simpl. run.
    apply NoDup_cons in Hnd as [Hpl Hnd]. apply Forall_cons in Hp as [_ Hp].
    eexists. split; [done|]. by split_and!.
Qed.

(** The pages freerange frees, the last one first. *)
Definition range_pages (p : Z) (n : nat) : list Z := rev ((λ i, p + 4096 * i) <$> seqZ 0 (Z.of_nat n)).

Lemma range_pages_S p n : range_pages p (S n) = range_pages (p + 4096) n ++ [p].
Proof.
  unfold range_pages. rewrite Nat2Z.inj_succ, seqZ_cons, Z.pred_succ by lia. rewrite fmap_cons.
  cbn [rev]. f_equal; [|f_equal; lia]. f_equal. change (Z.succ 0) with 1.
  rewrite <-(Z.add_0_r 1), <-fmap_add_seqZ, <-list_fmap_compose. apply list_fmap_ext.
  intros _ i _. simpl. lia.
Qed.

Lemma freerange_loop_run fuel n k l p vend :
  km_inv k l → (n < fuel)%nat → (∀ i, 0 <= i < Z.of_nat n → is_page (p + 4096 * i) ∧ p + 4096 * i ∉ l) →
  p + 4096 * Z.of_nat n <= vend < p + 4096 * Z.of_nat n + 4096 → 0 <= p →
  vend <= KERNBASE + PHYSTOP →
  ∃ k', freerange_loop fuel p vend k = Ok tt k' ∧ km_inv k' (range_pages p n ++ l) ∧
    use_lock k' = use_lock k.
Proof.
  revert n k l p. induction fuel as [|fuel IH]; intros n k l p Hk Hf Hpg Hv Hp0 Hve; [lia|].
  unfold KERNBASE, PHYSTOP in Hve. cbn [freerange_loop]. unfold PGSIZE. rewrite u32_small by (unfold is_u32; lia).
  destruct n as [|n].
  - rewrite (proj2 (Z.leb_gt _ _)) by lia. by exists k.
  - rewrite (proj2 (Z.leb_le _ _)) by lia.
    destruct (Hpg 0) as [Hp Hpl]; [lia|]. rewrite Z.mul_0_r, Z.add_0_r in Hp, Hpl.
    destruct (kfree_run k l p Hk Hp Hpl) as (k1 & H1 & Hk1 & _ & Hu1).
    rewrite (bind_run _ _ _ _ _ H1).
    destruct (IH n k1 (p :: l) (p + 4096) Hk1) as (k2 & H2 & Hk2 & Hu2);
      [lia| |lia|lia|unfold KERNBASE, PHYSTOP; lia|].
    + intros i Hi. destruct (Hpg (i + 1)) as [Ha Hb]; [lia|].
      replace (p + 4096 + 4096 * i) with (p + 4096 * (i + 1)) by lia. split; [done|].
      intros [Heq|?]%elem_of_cons; [lia|done].
    + exists k2. rewrite range_pages_S, <-app_assoc. split_and!; [done..|congruence].
Qed.

Lemma PGROUNDUP_eq x : 0 <= x → x + 4095 < 4294967296 → PGROUNDUP x = (x + 4095) / 4096 * 4096.
Proof.
  intros Hx Hl. unfold PGROUNDUP, PGSIZE. rewrite u32_small by (unfold is_u32; lia).
  change (4096 - 1) with (Z.ones 12). rewrite <-Z.ldiff_land, Z.ldiff_ones_r by lia.
  rewrite Z.shiftl_mul_pow2, Z.shiftr_div_pow2 by lia. change (2 ^ 12) with 4096.
  f_equal. f_equal. lia.
Qed.

Lemma elem_of_range_pages p n q :
  q ∈ range_pages p n ↔ ∃ i, 0 <= i < Z.of_nat n ∧ q = p + 4096 * i.
Proof.
  unfold range_pages. rewrite list_elem_of_In, <-in_rev, <-list_elem_of_In, list_elem_of_fmap. split.
  - intros (i & -> & Hi%elem_of_seqZ). exists i. split; [lia|done].
  - intros (i & Hi & ->). exists i. split; [done|]. apply elem_of_seqZ. lia.
Qed.

(** kinit1 frees exactly the whole pages between its arguments: from an
    empty list, the free list then holds every page-aligned address of the
    range, each once, and the allocator runs without its lock. *)
Theorem kinit1_correct m vstart vend :
  mem_ok m → kend <= vstart → KERNBASE <= vstart → vstart + 4096 <= vend →
  vend <= KERNBASE + PHYSTOP →
  ∃ k' l, kinit1 vstart vend (KmSt m true 0) = Ok tt k' ∧ km_inv k' l ∧ use_lock k' = false ∧
    ∀ p, p ∈ l ↔ p mod 4096 = 0 ∧ vstart <= p ∧ p + 4096 <= vend.
Proof.
  intros Hm Hk Hb Hv Hve. unfold kinit1, freerange. run. cbn [km_mem freelist].
  unfold KERNBASE, PHYSTOP in *. rewrite PGROUNDUP_eq by lia.
  set (p := (vstart + 4095) / 4096 * 4096).
  assert (p mod 4096 = 0) as Hp0 by (unfold p; apply Z.mod_mul; lia).
  assert (vstart <= p < vstart + 4096) as Hpr by (unfold p; Z.to_euclidean_division_equations; lia).
  clearbody p. set (n := Z.to_nat ((vend - p) / 4096)).
  assert (Z.of_nat n = (vend - p) / 4096) as Hn.
  { unfold n. rewrite Z2Nat.id; [done|]. apply Z.div_pos; lia. }
  assert (4096 * Z.of_nat n <= vend - p < 4096 * Z.of_nat n + 4096) as Hnr.
  { rewrite Hn. Z.to_euclidean_division_equations; lia. }
  clearbody n.
  destruct (freerange_loop_run (Z.to_nat 1048577) n (KmSt m false 0) [] p vend)
    as (k' & Hrun & Hk' & Hu); [| |intros i Hi; split; [|apply not_elem_of_nil]|lia|lia|
      unfold KERNBASE, PHYSTOP; lia|].
  - split; [done|constructor|constructor|done].
  - lia.
  - split_and!.
    + rewrite Z.mul_comm, Z.mod_add by lia. done.
    + lia.
    + unfold KERNBASE, PHYSTOP. lia.
    + unfold KERNBASE, PHYSTOP. lia.
  - exists k', (range_pages p n ++ []). split_and!; [done..|]. intros q.
    rewrite app_nil_r, elem_of_range_pages. split.
    + intros (i & Hi & ->). rewrite (Z.mul_comm 4096), Z.mod_add by lia. lia.
    + intros (Hq & Hlo & Hhi). exists ((q - p) / 4096).
      Z.to_euclidean_division_equations; lia.
Qed.

End kalloc.

(** A memory of zeros. *)
Definition mem0 : mem := λ _, 0.
Lemma mem0_ok : mem_ok mem0.
Proof. intros a. unfold mem0, is_u8. lia. Qed.

(** Two free pages behind a kernel that ends at 0x80101000. *)
Definition km_ex : kmst := KmSt (store32 mem0 0x80103000 0x80102000) false 0x80103000.

Lemma km_ex_inv : km_inv 0x80101000 km_ex [0x80103000; 0x80102000].
Proof.
  split.
  - apply store32_ok, mem0_ok.
  - apply (bool_decide_unpack _). by vm_compute.
  - repeat (apply Forall_cons; split; [unfold is_page, KERNBASE, PHYSTOP; split_and!; [done|lia..]|]).
    apply Forall_nil_2.
  - by vm_compute.
Qed.

Lemma kalloc_kfree_correct_witness :
  ∃ k', kalloc km_ex = Ok 0x80103000 k' ∧ km_inv 0x80101000 k' [0x80102000].
Proof.
  destruct (kalloc_kfree_correct 0x80101000 km_ex [0x80103000; 0x80102000] 0x80105000)
    as (_ & k' & Hrun & Hk & _).
  - apply km_ex_inv.
  - unfold is_page, KERNBASE, PHYSTOP. split_and!; [done|lia..].
  - rewrite !elem_of_cons, elem_of_nil. lia.
  - by exists k'.
Defined.

Lemma kinit1_correct_witness :
  ∃ k' l, kinit1 0x80101000 0x80101001 0x80104fff (KmSt mem0 true 0) = Ok tt k' ∧
    0x80103000 ∈ l ∧ (0x80104000 ∉ l) ∧ km_inv 0x80101000 k' l.
Proof.
  destruct (kinit1_correct 0x80101000 mem0 0x80101001 0x80104fff)
    as (k' & l & Hrun & Hk & _ & Hl); [apply mem0_ok|unfold KERNBASE, PHYSTOP; lia..|].
  exists k', l. split_and!; [done| | |done]; rewrite Hl; [|lia]. split_and!; [done|lia..].
Defined.
