(* ===== verification/Hw.v ===== *)
(** * The machine's I/O (x86.h)

    I/O ports and memory-mapped registers are behind the class [Machine]: what
    an access does is the hardware's, not the kernel's. [Trace] is a machine
    that records the accesses, for statements about what a driver writes. *)

From S2P Require Import Prelude.

Class Machine (H : Type) := {
  hw_inb : Z → H → Z * H;
  hw_outb : Z → Z → H → H;
  hw_inl : Z → H → Z * H;
  hw_outl : Z → Z → H → H;
  hw_read : Z → H → Z * H;
  hw_write : Z → Z → H → H
}.

Section machine.
Context {H : Type} `{!Machine H}.

Definition inb (port : Z) : M H Z := λ h, let '(v, h) := hw_inb port h in Ok (u8 v) h.
Definition outb (port data : Z) : M H unit := λ h, Ok tt (hw_outb (u16 port) (u8 data) h).
Definition inl (port : Z) : M H Z := λ h, let '(v, h) := hw_inl port h in Ok (u32 v) h.
Definition outl (port data : Z) : M H unit := λ h, Ok tt (hw_outl (u16 port) (u32 data) h).

(** A 32-bit access of a memory-mapped register. *)
Definition mmio_read (a : Z) : M H Z := λ h, let '(v, h) := hw_read (u32 a) h in Ok (u32 v) h.
Definition mmio_write (a v : Z) : M H unit := λ h, Ok tt (hw_write (u32 a) (u32 v) h).

End machine.

(** A machine that records what is written, oldest first, and answers reads
    from fixed functions. *)
Inductive access := OutB (port v : Z) | OutL (port v : Z) | Mmio (a v : Z).

Record trace := Trace {
  tr_log : list access;
  tr_in : Z → Z;
  tr_mmio : Z → Z
}.

Definition tr_add (e : access) (t : trace) : trace :=
  Trace (tr_log t ++ [e]) (tr_in t) (tr_mmio t).

#[export] Instance trace_machine : Machine trace := {
  hw_inb := λ p t, (tr_in t p, t);
  hw_outb := λ p v, tr_add (OutB p v);
  hw_inl := λ p t, (tr_in t p, t);
  hw_outl := λ p v, tr_add (OutL p v);
  hw_read := λ a t, (tr_mmio t a, t);
  hw_write := λ a v, tr_add (Mmio a v)
}.
