(* ===== verification/Irq.v ===== *)
(** * Interrupt controllers (picirq.c, ioapic.c) *)

From S2P Require Import Prelude Hw.

Definition T_IRQ0 : Z := 32.
Definition IO_PIC1 : Z := 0x20.
Definition IO_PIC2 : Z := 0xA0.
Definition IRQ_SLAVE : Z := 2.

(** The interrupt mask variable of picirq.c, with the machine. *)
Record irqst (H : Type) := IrqSt { iq_hw : H; irqmask : Z }.
Arguments IrqSt {H} _ _.
Arguments iq_hw {H} _.
Arguments irqmask {H} _.

Definition irqmask0 : Z := Z.land 0xFFFF (Z.lnot (Z.shiftl 1 IRQ_SLAVE)).

Section irq.
Context {H : Type} `{!Machine H}.

Definition iq {A} (m : M H A) : M (irqst H) A :=
  zoom iq_hw (λ h q, IrqSt h (irqmask q)) m.

(** *** picirq.c *)

Definition picsetmask (mask : Z) : M (irqst H) unit :=
  modify (λ q, IrqSt (iq_hw q) (u16 mask));;
  iq (outb (IO_PIC1 + 1) (u16 mask);;
      outb (IO_PIC2 + 1) (Z.shiftr (u16 mask) 8)).

Definition picenable (irq : Z) : M (irqst H) unit :=
  m ← gets irqmask;
  picsetmask (Z.land m (Z.lnot (Z.shiftl 1 irq))).

Definition picinit : M (irqst H) unit :=
  iq (outb (IO_PIC1 + 1) 0xFF;;
      outb (IO_PIC2 + 1) 0xFF;;
      outb IO_PIC1 0x11;;
      outb (IO_PIC1 + 1) T_IRQ0;;
      outb (IO_PIC1 + 1) (Z.shiftl 1 IRQ_SLAVE);;
      outb (IO_PIC1 + 1) 0x3;;
      outb IO_PIC2 0x11;;
      outb (IO_PIC2 + 1) (T_IRQ0 + 8);;
      outb (IO_PIC2 + 1) IRQ_SLAVE;;
      outb (IO_PIC2 + 1) 0x3;;
      outb IO_PIC1 0x68;;
      outb IO_PIC1 0x0a;;
      outb IO_PIC2 0x68;;
      outb IO_PIC2 0x0a);;
  m ← gets irqmask;
  if negb (m =? 0xFFFF) then picsetmask m else mret tt.

(** *** ioapic.c *)

Definition IOAPIC : Z := 0xFEC00000.
Definition REG_ID : Z := 0.
Definition REG_VER : Z := 1.
Definition REG_TABLE : Z := 16.
Definition INT_DISABLED : Z := 0x10000.

(** The registers of struct ioapic: reg at offset 0, data at offset 16. *)
Definition ioapicread (reg : Z) : M H Z :=
  mmio_write IOAPIC reg;;
  mmio_read (IOAPIC + 16).

Definition ioapicwrite (reg data : Z) : M H unit :=
  mmio_write IOAPIC reg;;
  mmio_write (IOAPIC + 16) data.

(** The result says whether the ids differ, which is printed. *)
Definition ioapicinit (ioapicid : Z) : M H bool :=
  v ← ioapicread REG_VER;
  let maxintr := Z.land (Z.shiftr v 16) 0xFF in
  v ← ioapicread REG_ID;
  let id := Z.shiftr v 24 in
  for_each (seqZ 0 (maxintr + 1)) (λ i,
    ioapicwrite (REG_TABLE + 2 * i) (Z.lor INT_DISABLED (T_IRQ0 + i));;
    ioapicwrite (REG_TABLE + 2 * i + 1) 0);;
  mret (negb (id =? ioapicid)).

Definition ioapicenable (irq cpunum : Z) : M H unit :=
  ioapicwrite (REG_TABLE + 2 * irq) (T_IRQ0 + irq);;
  ioapicwrite (REG_TABLE + 2 * irq + 1) (Z.shiftl cpunum 24).

End irq.
