(* ===== verification/Pci.v ===== *)
(** * PCI (pci.c, pciregisters.h)

    Configuration space is reached through two I/O ports ("mechanism one"). A
    struct pci_func is a record; of the bus it points to only the bus number is
    used. The attach tables hold functions of the kernel state [K], of which the
    machine is a part. *)

From S2P Require Import Prelude Hw.

Record pci_func := PciFunc {
  pf_bus : Z;
  pf_dev : Z;
  pf_func : Z;
  dev_id : Z;
  dev_class : Z;
  reg_base : list Z;
  reg_size : list Z;
  irq_line : Z
}.

Definition pci_func0 (busno : Z) : pci_func :=
  PciFunc busno 0 0 0 0 (replicate 6 0) (replicate 6 0) 0.

Definition set_dev (d : Z) (f : pci_func) : pci_func :=
  PciFunc (pf_bus f) d (pf_func f) (dev_id f) (dev_class f) (reg_base f) (reg_size f) (irq_line f).
Definition set_func (n : Z) (f : pci_func) : pci_func :=
  PciFunc (pf_bus f) (pf_dev f) n (dev_id f) (dev_class f) (reg_base f) (reg_size f) (irq_line f).
Definition set_ids (id class irq : Z) (f : pci_func) : pci_func :=
  PciFunc (pf_bus f) (pf_dev f) (pf_func f) id class (reg_base f) (reg_size f) irq.
Definition set_bar (regnum base size : Z) (f : pci_func) : pci_func :=
  PciFunc (pf_bus f) (pf_dev f) (pf_func f) (dev_id f) (dev_class f)
    (setZ (reg_base f) regnum base) (setZ (reg_size f) regnum size) (irq_line f).

(** ** Registers and their fields (pciregisters.h) *)

Definition PCI_ID_REG : Z := 0x00.
Definition PCI_COMMAND_STATUS_REG : Z := 0x04.
Definition PCI_CLASS_REG : Z := 0x08.
Definition PCI_BHLC_REG : Z := 0x0c.
Definition PCI_INTERRUPT_REG : Z := 0x3c.
Definition PCI_BRIDGE_BUS_REG : Z := 0x18.
Definition PCI_BRIDGE_STATIO_REG : Z := 0x1c.
Definition PCI_MAPREG_START : Z := 0x10.
Definition PCI_MAPREG_END : Z := 0x28.

Definition PCI_VENDOR (id : Z) : Z := Z.land id 0xffff.
Definition PCI_PRODUCT (id : Z) : Z := Z.land (Z.shiftr id 16) 0xffff.
Definition PCI_CLASS (cr : Z) : Z := Z.land (Z.shiftr cr 24) 0xff.
Definition PCI_SUBCLASS (cr : Z) : Z := Z.land (Z.shiftr cr 16) 0xff.
Definition PCI_HDRTYPE (bhlcr : Z) : Z := Z.land (Z.shiftr bhlcr 16) 0xff.
Definition PCI_HDRTYPE_TYPE (bhlcr : Z) : Z := Z.land (PCI_HDRTYPE bhlcr) 0x7f.
Definition PCI_HDRTYPE_MULTIFN (bhlcr : Z) : bool := negb (Z.land (PCI_HDRTYPE bhlcr) 0x80 =? 0).
Definition PCI_INTERRUPT_LINE (icr : Z) : Z := Z.land icr 0xff.
Definition PCI_MAPREG_NUM (offset : Z) : Z := (offset - PCI_MAPREG_START) / 4.
Definition PCI_MAPREG_TYPE (mr : Z) : Z := Z.land mr 1.
Definition PCI_MAPREG_MEM_TYPE (mr : Z) : Z := Z.land mr 6.
Definition PCI_MAPREG_MEM_ADDR (mr : Z) : Z := Z.land mr 0xfffffff0.
Definition PCI_MAPREG_MEM_SIZE (mr : Z) : Z :=
  Z.land (PCI_MAPREG_MEM_ADDR mr) (u32 (- PCI_MAPREG_MEM_ADDR mr)).
Definition PCI_MAPREG_IO_ADDR (mr : Z) : Z := Z.land mr 0xfffffffc.
Definition PCI_MAPREG_IO_SIZE (mr : Z) : Z :=
  Z.land (PCI_MAPREG_IO_ADDR mr) (u32 (- PCI_MAPREG_IO_ADDR mr)).
Definition PCI_BRIDGE_IO_32BITS (reg : Z) : bool := Z.land reg 0xf =? 1.

(** ** Configuration space *)

Definition pci_conf1_addr_ioport : Z := 0x0cf8.
Definition pci_conf1_data_ioport : Z := 0x0cfc.

Definition conf1_addr (bus dev func offset : Z) : Z :=
  Z.lor (Z.lor (Z.lor (Z.lor (Z.shiftl 1 31) (Z.shiftl bus 16)) (Z.shiftl dev 11))
    (Z.shiftl func 8)) offset.

Section conf.
Context {H : Type} `{!Machine H}.

Definition pci_conf1_set_addr (bus dev func offset : Z) : M H unit :=
  outl pci_conf1_addr_ioport (u32 (conf1_addr bus dev func offset)).

Definition pci_conf_read (f : pci_func) (off : Z) : M H Z :=
  pci_conf1_set_addr (pf_bus f) (pf_dev f) (pf_func f) off;;
  inl pci_conf1_data_ioport.

Definition pci_conf_write (f : pci_func) (off v : Z) : M H unit :=
  pci_conf1_set_addr (pf_bus f) (pf_dev f) (pf_func f) off;;
  outl pci_conf1_data_ioport v.

(** The loop over the base address registers. *)
Fixpoint enable_bars (fuel : nat) (bar : Z) (f : pci_func) : M H pci_func :=
  match fuel with
  | O => no_fuel
  | S fuel =>
      if bar <? PCI_MAPREG_END then
        oldv ← pci_conf_read f bar;
        pci_conf_write f bar 0xffffffff;;
        rv ← pci_conf_read f bar;
        if rv =? 0 then enable_bars fuel (bar + 4) f
        else
          let regnum := PCI_MAPREG_NUM bar in
          let '(width, size, base) :=
            if PCI_MAPREG_TYPE rv =? 0 then
              (if PCI_MAPREG_MEM_TYPE rv =? 4 then 8 else 4,
               PCI_MAPREG_MEM_SIZE rv, PCI_MAPREG_MEM_ADDR oldv)
            else (4, PCI_MAPREG_IO_SIZE rv, PCI_MAPREG_IO_ADDR oldv) in
          pci_conf_write f bar oldv;;
          enable_bars fuel (bar + width) (set_bar regnum base size f)
      else mret f
  end.

Definition pci_func_enable (f : pci_func) : M H pci_func :=
  pci_conf_write f PCI_COMMAND_STATUS_REG 7;;
  enable_bars 7 PCI_MAPREG_START f.

End conf.

(** ** Enumeration *)

Section scan.
Context {H : Type} `{!Machine H} {K : Type} (get_hw : K → H) (set_hw : H → K → K).

Record pci_driver := PciDriver {
  key1 : Z;
  key2 : Z;
  attachfn : pci_func → M K Z
}.

Definition hw {A} (m : M H A) : M K A := zoom get_hw set_hw m.

(** The first driver that attaches; a failure is printed and the search goes on. *)
Fixpoint pci_attach_match (k1 k2 : Z) (list : list pci_driver) (f : pci_func) : M K Z :=
  match list with
  | [] => mret 0
  | d :: list =>
      if (key1 d =? k1) && (key2 d =? k2) then
        r ← attachfn d f;
        if 0 <? r then mret r else pci_attach_match k1 k2 list f
      else pci_attach_match k1 k2 list f
  end.

Definition pci_attach (class vendor : list pci_driver) (f : pci_func) : M K bool :=
  r ← pci_attach_match (PCI_CLASS (dev_class f)) (PCI_SUBCLASS (dev_class f)) class f;
  if negb (r =? 0) then mret true
  else
    r ← pci_attach_match (PCI_VENDOR (dev_id f)) (PCI_PRODUCT (dev_id f)) vendor f;
    mret (negb (r =? 0)).

(** The bridge driver, over the scan of the bus behind the bridge. *)
Definition pci_bridge_attach (scan : Z → M K Z) (f : pci_func) : M K Z :=
  ioreg ← hw (pci_conf_read f PCI_BRIDGE_STATIO_REG);
  busreg ← hw (pci_conf_read f PCI_BRIDGE_BUS_REG);
  if PCI_BRIDGE_IO_32BITS ioreg then mret 0
  else
    scan (Z.land (Z.shiftr busreg 8) 0xff);;
    mret 1.

Definition pci_attach_class (scan : Z → M K Z) : list pci_driver :=
  [PciDriver 0x06 0x04 (pci_bridge_attach scan)].

(** One device of the scan: its functions are identified and attached. *)
Definition scan_funcs (class vendor : list pci_driver) (df : pci_func) (bhlc : Z) : M K unit :=
  for_each (seqZ 0 (if PCI_HDRTYPE_MULTIFN bhlc then 8 else 1)) (λ func,
    let f := set_func func df in
    id ← hw (pci_conf_read f PCI_ID_REG);
    if PCI_VENDOR id =? 0xffff then mret tt
    else
      intr ← hw (pci_conf_read f PCI_INTERRUPT_REG);
      cls ← hw (pci_conf_read f PCI_CLASS_REG);
      pci_attach class vendor (set_ids id cls (PCI_INTERRUPT_LINE intr) f);;
      mret tt).

(** Bridges nest, each on a bus of its own; [fuel] bounds the nesting. *)
Fixpoint pci_scan_bus (fuel : nat) (vendor : list pci_driver) (busno : Z) : M K Z :=
  match fuel with
  | O => no_fuel
  | S fuel =>
      let class := pci_attach_class (pci_scan_bus fuel vendor) in
      for_acc (seqZ 0 32) 0 (λ totaldev dev,
        let df := set_dev dev (pci_func0 busno) in
        bhlc ← hw (pci_conf_read df PCI_BHLC_REG);
        if 1 <? PCI_HDRTYPE_TYPE bhlc then mret totaldev
        else
          scan_funcs class vendor df bhlc;;
          mret (totaldev + 1))
  end.

Definition pci_init (vendor : list pci_driver) : M K Z := pci_scan_bus 256 vendor 0.

End scan.

(** ** Properties *)

(** The fields of an address as the host bridge decodes them. *)
Definition addr_bus (v : Z) : Z := Z.land (Z.shiftr v 16) 255.
Definition addr_dev (v : Z) : Z := Z.land (Z.shiftr v 11) 31.
Definition addr_func (v : Z) : Z := Z.land (Z.shiftr v 8) 7.
Definition addr_off (v : Z) : Z := Z.land v 255.

Lemma conf1_addr_sum bus dev func off :
  0 <= bus < 256 → 0 <= dev < 32 → 0 <= func < 8 → 0 <= off < 256 →
  conf1_addr bus dev func off = 2147483648 + bus * 65536 + dev * 2048 + func * 256 + off.
Proof.
  intros Hb Hd Hf Ho. unfold conf1_addr.
  rewrite <-!(Z.lor_assoc _ _ off), <-!Z.lor_assoc.
  rewrite (lor_0_add off func 8) by lia. change (2 ^ 8) with 256.
  rewrite (lor_0_add (off + func * 256) dev 11) by lia. change (2 ^ 11) with 2048.
  rewrite (lor_0_add (off + func * 256 + dev * 2048) bus 16) by lia. change (2 ^ 16) with 65536.
  rewrite (lor_0_add _ 1 31) by lia. lia.
Qed.

Lemma conf1_addr_decode bus dev func off :
  0 <= bus < 256 → 0 <= dev < 32 → 0 <= func < 8 → 0 <= off < 256 →
  let v := u32 (conf1_addr bus dev func off) in
  Z.testbit v 31 = true ∧ addr_bus v = bus ∧ addr_dev v = dev ∧ addr_func v = func ∧ addr_off v = off.
Proof.
  intros Hb Hd Hf Ho v. unfold v. rewrite conf1_addr_sum by done. rewrite u32_small by (unfold is_u32; lia).
  unfold addr_bus, addr_dev, addr_func, addr_off.
  rewrite (land_mask _ 8 255), (land_mask _ 5 31), (land_mask _ 3 7), (land_mask _ 8 255) by done.
  rewrite !Z.shiftr_div_pow2 by lia. rewrite Z.testbit_eqb, Z.eqb_eq by lia.
  change (2 ^ 31) with 2147483648. change (2 ^ 16) with 65536. change (2 ^ 11) with 2048.
  change (2 ^ 8) with 256. change (2 ^ 5) with 32. change (2 ^ 3) with 8.
  split_and!; Z.to_euclidean_division_equations; lia.
Qed.

(** A host bridge: the data port reads the register that the address port
    selects, among the registers [cfg] of all functions. *)
Definition host_bridge {H} `{!Machine H} (cfg : Z → Z → Z → Z → Z) : Prop :=
  ∀ v h, Z.testbit v 31 = true →
    fst (hw_inl pci_conf1_data_ioport (hw_outl pci_conf1_addr_ioport v h)) =
      cfg (addr_bus v) (addr_dev v) (addr_func v) (addr_off v).

(** pci_conf_read reads the register it names: for every bus, device,
    function and offset in range, the address it writes selects exactly that
    register, so no two functions are ever confused. *)
Theorem pci_conf_read_correct {H} `{!Machine H} cfg (f : pci_func) off h :
  host_bridge cfg → 0 <= pf_bus f < 256 → 0 <= pf_dev f < 32 → 0 <= pf_func f < 8 →
  0 <= off < 256 →
  ∃ h', pci_conf_read f off h = Ok (u32 (cfg (pf_bus f) (pf_dev f) (pf_func f) off)) h'.
Proof.
  intros Hh Hb Hd Hf Ho. unfold pci_conf_read, pci_conf1_set_addr, outl, inl.
  destruct (conf1_addr_decode (pf_bus f) (pf_dev f) (pf_func f) off) as (H31 & Hdb & Hdd & Hdf & Hdo);
    [done..|].
  set (v := u32 (conf1_addr _ _ _ _)) in *.
  assert (u32 v = v) as Hv by apply u32_u32.
  specialize (Hh v h H31). rewrite Hdb, Hdd, Hdf, Hdo in Hh.
  unfold mbind, M_bind. rewrite Hv. change (u16 pci_conf1_addr_ioport) with pci_conf1_addr_ioport.
  change (u16 pci_conf1_data_ioport) with pci_conf1_data_ioport.
  destruct (hw_inl _ _) as [x h']. simpl in Hh. exists h'. by rewrite Hh.
Qed.

(** A bridge in front of the registers [cfg], for runs. *)
Record bridge := Bridge { br_addr : Z }.
Definition bridge_machine (cfg : Z → Z → Z → Z → Z) : Machine bridge := {|
  hw_inb := λ _ b, (0, b); hw_outb := λ _ _ b, b;
  hw_inl := λ p b, (if p =? pci_conf1_data_ioport then
    cfg (addr_bus (br_addr b)) (addr_dev (br_addr b)) (addr_func (br_addr b)) (addr_off (br_addr b))
    else 0, b);
  hw_outl := λ p v b, if p =? pci_conf1_addr_ioport then Bridge v else b;
  hw_read := λ _ b, (0, b); hw_write := λ _ _ b, b
|}.

Lemma pci_conf_read_correct_witness :
  let cfg := λ b d f o, 65536 * d + 256 * f + o in
  ∃ h', @pci_conf_read bridge (bridge_machine cfg) (set_func 2 (set_dev 3 (pci_func0 0))) 0x10 (Bridge 0)
    = Ok (65536 * 3 + 256 * 2 + 0x10) h'.
Proof.
  intros cfg.
  apply (@pci_conf_read_correct bridge (bridge_machine cfg) cfg (set_func 2 (set_dev 3 (pci_func0 0))) 0x10);
    simpl; [|lia..]. intros v h Hv. done.
Defined.

(** The lowest set bit. *)
Lemma land_opp_pow k : 0 <= k < 32 → ∀ m, 0 <= m → 0 < 2 ^ k * (2 * m + 1) < 4294967296 →
  Z.land (2 ^ k * (2 * m + 1)) (u32 (- (2 ^ k * (2 * m + 1)))) = 2 ^ k.
Proof.
  intros Hk m Hm Hr. unfold u32. change 4294967296 with (2 ^ 32) in *.
  rewrite <-Z.land_ones, Z.land_assoc by lia.
  assert (Z.land (2 ^ k * (2 * m + 1)) (- (2 ^ k * (2 * m + 1))) = 2 ^ k) as ->.
  { rewrite Z.mul_comm, <-Z.mul_opp_l, <-!Z.shiftl_mul_pow2 by lia.
    rewrite <-Z.shiftl_land. rewrite Z.shiftl_mul_pow2 by lia.
    replace (- (2 * m + 1)) with (2 * (- m - 1) + 1) by lia.
    assert (Z.land (2 * m + 1) (2 * (- m - 1) + 1) = 1) as ->; [|lia].
    apply Z.bits_inj'. intros n Hn. rewrite Z.land_spec.
    destruct (decide (n = 0)) as [->|]; [by rewrite !Z.testbit_odd_0|].
    replace n with (Z.succ (n - 1)) by lia.
    rewrite !Z.testbit_odd_succ by lia. replace (- m - 1) with (Z.lnot m) by (unfold Z.lnot; lia).
    rewrite Z.lnot_spec, andb_negb_r by lia.
    change 1 with (2 * 0 + 1). rewrite Z.testbit_odd_succ by lia. by rewrite Z.bits_0. }
  rewrite Z.land_ones by lia. apply Z.mod_small. split; [lia|]. apply Z.pow_lt_mono_r; lia.
Qed.

(** The size of a memory BAR: a device that decodes a region of 2^k bytes
    reads back ones above bit k and its flag bits below bit 4, and
    PCI_MAPREG_MEM_SIZE computes 2^k from that. *)
Theorem pci_mem_size k flags :
  4 <= k < 32 → 0 <= flags < 16 → PCI_MAPREG_MEM_SIZE (4294967296 - 2 ^ k + flags) = 2 ^ k.
Proof.
  intros Hk Hf. unfold PCI_MAPREG_MEM_SIZE.
  assert (PCI_MAPREG_MEM_ADDR (4294967296 - 2 ^ k + flags) = 4294967296 - 2 ^ k) as ->.
  { assert (2 ^ k = 16 * 2 ^ (k - 4)) as Hp.
    { change 16 with (2 ^ 4). rewrite <-Z.pow_add_r by lia. f_equal. lia. }
    unfold PCI_MAPREG_MEM_ADDR. rewrite Hp.
    replace (4294967296 - 16 * 2 ^ (k - 4) + flags) with
      (Z.lor flags (Z.shiftl (268435456 - 2 ^ (k - 4)) 4)).
    2: { rewrite lor_shiftl_add by lia. change (2 ^ 4) with 16. lia. }
    rewrite Z.land_lor_distr_l. change 0xfffffff0 with (Z.shiftl 0xfffffff 4).
    rewrite <-Z.shiftl_land. change 0xfffffff with (Z.ones 28). rewrite Z.land_ones by lia.
    assert (0 < 2 ^ (k - 4)) by lia.
    assert (2 ^ (k - 4) < 2 ^ 28) by (apply Z.pow_lt_mono_r; lia). change (2 ^ 28) with 268435456 in *.
    rewrite Z.mod_small by lia.
    assert (Z.land flags (Z.shiftl (Z.ones 28) 4) = 0) as ->.
    { assert (Z.land flags 15 = flags) as <-.
      { rewrite (land_mask flags 4 15) by done. by apply Z.mod_small. }
      rewrite <-Z.land_assoc. change (Z.land 15 (Z.shiftl (Z.ones 28) 4)) with 0. apply Z.land_0_r. }
    rewrite Z.lor_0_l, Z.shiftl_mul_pow2 by lia. change (2 ^ 4) with 16. lia. }
  assert (2 ^ 32 = 2 ^ k * 2 ^ (32 - k)) as Hp by (rewrite <-Z.pow_add_r by lia; f_equal; lia).
  assert (2 ^ (32 - k) = 2 * 2 ^ (31 - k)) as Hp'.
  { rewrite <-Z.pow_succ_r by lia. f_equal. lia. }
  assert (0 < 2 ^ (31 - k)) by lia. assert (0 < 2 ^ k) by lia.
  change (2 ^ 32) with 4294967296 in Hp.
  replace (4294967296 - 2 ^ k) with (2 ^ k * (2 * (2 ^ (31 - k) - 1) + 1)) by nia.
  apply land_opp_pow; [lia..|]. nia.
Qed.

Lemma pci_mem_size_witness : PCI_MAPREG_MEM_SIZE (4294967296 - 2 ^ 17 + 0) = 131072.
Proof. rewrite pci_mem_size; [done|lia|lia]. Defined.
