(* ===== verification/Arp.v ===== *)
(** * Network frames (arp_frame.c, and the ICMP part of sysfile.c)

    Frames and buffers are lists of bytes; [struct ethr_hdr] is a record with
    [eth_bytes] its layout in memory. A C string is the list of its characters.
    A function is partial ([None]) where the source's behaviour is undefined:
    it reads or writes outside of a local array, or reads a cell that was never
    written. *)

From S2P Require Import Prelude Cstring.

(** Character constants of the source. *)
Definition codes (s : string) : list Z :=
  (λ a, Z.of_N (Ascii.N_of_ascii a)) <$> String.list_ascii_of_string s.

Definition BROADCAST_MAC : list Z := codes "FF:FF:FF:FF:FF:FF".

(** ** MAC addresses as text *)

Definition hex_to_int (ch : Z) : Z :=
  if (48 <=? ch) && (ch <=? 57) then ch - 48
  else if (65 <=? ch) && (ch <=? 70) then 10 + (ch - 65)
  else if (97 <=? ch) && (ch <=? 102) then 10 + (ch - 97)
  else 0.

(** The six bytes stored at dest. *)
Definition pack_mac (src : list Z) : list Z :=
  (λ i, let i1 := hex_to_int (getZ src i) in
        let i2 := hex_to_int (getZ src (i + 1)) in
        u8 (Z.shiftl i1 4 + i2)) <$> [0; 3; 6; 9; 12; 15].

Definition int_to_hex (n : Z) : Z :=
  if (0 <=? n) && (n <=? 9) then 48 + n
  else if (10 <=? n) && (n <=? 15) then 65 + (n - 10)
  else 48.

(** The characters left in mac_str; the last separator becomes the NUL. *)
Definition unpack_mac (mac : list Z) : list Z :=
  let s := flat_map (λ m,
    let i2 := Z.land m 15 in
    let i1 := Z.shiftr (Z.land m 240) 4 in
    [int_to_hex i1; int_to_hex i2; 58]) (take 6 mac) in
  setZ s (Z.of_nat (length s) - 1) 0.

(** ** IP addresses as text *)

(** A store to a local array of [n] cells. *)
Definition local_set (n : Z) (a : list Z) (i v : Z) : option (list Z) :=
  if (0 <=? i) && (i <? n) then Some (setZ a i v) else None.

(** ip_vals[n2++] = util_atoi(arr), with the cells written so far in [vals]. *)
Definition push_val (arr vals : list Z) : option (list Z) :=
  v ← Util.util_atoi 5 (mem_of arr) 0;
  if (length vals <? 4)%nat then Some (vals ++ [u32 v]) else None.

Fixpoint get_ip_loop (ip arr : list Z) (n1 : Z) (vals : list Z) :
    option (list Z * Z * list Z) :=
  match ip with
  | [] => Some (arr, n1, vals)
  | ch :: ip =>
      if ch =? 46 then
        arr ← local_set 4 arr n1 0;
        vals ← push_val arr vals;
        get_ip_loop ip arr 0 vals
      else
        arr ← local_set 4 arr n1 ch;
        get_ip_loop ip arr (n1 + 1) vals
  end.

Definition get_ip (ip : list Z) (len : Z) : option Z :=
  '(arr, n1, vals) ← get_ip_loop (take (Z.to_nat len) ip) (replicate 4 0) 0 [];
  arr ← local_set 4 arr n1 0;
  vals ← push_val arr vals;
  if decide (length vals = 4%nat) then
    Some (u32 (Z.shiftl (getZ vals 3) 24 + Z.shiftl (getZ vals 2) 16 +
               Z.shiftl (getZ vals 1) 8 + getZ vals 0))
  else None.

(** The while loop of parse_ip that stores the digits of [ip1] in arr[3], the
    least significant first. *)
Fixpoint digits_loop (fuel : nat) (ip1 : Z) (arr : list Z) : option (list Z) :=
  if 0 <? ip1 then
    match fuel with
    | O => None
    | S fuel => if (length arr <? 3)%nat then digits_loop fuel (ip1 / 10) (arr ++ [ip1 mod 10 + 48])
                else None
    end
  else Some arr.

(** [junk] is what the cells of ip_vals hold that are never written. *)
Definition parse_ip (junk : list Z) (ip : Z) : option (list Z) :=
  let ip_vals := setZ junk 0 (if negb (ip =? 0) && negb (255 =? 0) then 1 else 0) in
  parts ← mapM (λ ip1,
    if ip1 =? 0 then Some [48; 58]
    else ds ← digits_loop 4 ip1 []; Some (rev ds ++ [58])) (take 4 ip_vals);
  let s := concat parts in
  Some (setZ s (Z.of_nat (length s) - 1) 0).

(** ** Byte order *)

Definition htons (v : Z) : Z := u16 (Z.lor (Z.shiftr v 8) (Z.shiftl v 8)).
Definition htonl (v : Z) : Z :=
  u32 (Z.lor (htons (u16 (Z.shiftr v 16))) (Z.shiftl (htons (u16 v)) 16)).

(** ** Ethernet and ARP headers *)

Record ethr_hdr := EthrHdr {
  dmac : list Z;
  smac : list Z;
  ethr_type : Z;
  hwtype : Z;
  protype : Z;
  hwsize : Z;
  prosize : Z;
  opcode : Z;
  arp_smac : list Z;
  sip : Z;
  arp_dmac : list Z;
  dip : Z;
  dip2 : Z;
  padd : Z
}.

(** The struct in memory: its fields lie one after the other, 44 bytes. *)
Definition eth_bytes (e : ethr_hdr) : list Z :=
  dmac e ++ smac e ++ le_bytes 2 (ethr_type e) ++ le_bytes 2 (hwtype e) ++
  le_bytes 2 (protype e) ++ le_bytes 1 (hwsize e) ++ le_bytes 1 (prosize e) ++
  le_bytes 2 (opcode e) ++ arp_smac e ++ le_bytes 4 (sip e) ++ arp_dmac e ++
  le_bytes 2 (dip e) ++ le_bytes 2 (dip2 e) ++ le_bytes 2 (padd e).

(** [pad] is what the padding, which is not written, holds. The store through
    [&eth->dip] fills dip and dip2. *)
Definition create_eth_arp_frame (pad : Z) (mac ipAddr : list Z) : option ethr_hdr :=
  let my_ip := codes "10.0.2.15" in
  src ← get_ip my_ip (Z.of_nat (length my_ip));
  dst ← get_ip ipAddr (Z.of_nat (length ipAddr));
  Some {|
    dmac := pack_mac BROADCAST_MAC;
    smac := take 6 mac;
    ethr_type := htons 0x0806;
    hwtype := htons 1;
    protype := htons 0x0800;
    hwsize := 6;
    prosize := 4;
    opcode := htons 1;
    arp_smac := take 6 mac;
    sip := src;
    arp_dmac := pack_mac BROADCAST_MAC;
    dip := u16 dst;
    dip2 := u16 (dst / 65536);
    padd := pad
  |}.

(** What parse_arp_reply prints. *)
Definition parse_arp_reply (junk : list Z) (eth : ethr_hdr) : option (list Z) :=
  if negb (ethr_type eth =? 0x0806) then Some (codes "Not an ARP packet")
  else if negb (protype eth =? 0x0800) then Some (codes "Not IPV4 protocol" ++ [10])
  else if negb (opcode eth =? 2) then Some (codes "Not an ARP reply" ++ [10])
  else
    let dst_mac := unpack_mac (arp_dmac eth) in
    r ← Util.util_strcmp 18 (λ a, if a <? 32 then mem_of BROADCAST_MAC a
                                  else mem_of dst_mac (a - 32)) 0 32;
    if negb (r =? 0) then Some (codes "Not the intended recipient" ++ [10])
    else
      dst_ip ← parse_ip junk (dip eth);
      r ← Util.util_strcmp 18 (λ a, if a <? 32 then mem_of (codes "255.255.255.255") a
                                    else mem_of dst_ip (a - 32)) 0 32;
      if negb (r =? 0) then Some (codes "Not the intended recipient" ++ [10])
      else Some (removelast (unpack_mac (arp_smac eth))).

(** ** ICMP (sysfile.c) *)

Definition calc_checksum (buffer : list Z) (size : Z) : Z :=
  let cksum := foldl (λ c w, u32 (c + u16 w)) 0 (take (Z.to_nat (size - 1)) buffer) in
  let cksum := Z.shiftr cksum 16 + Z.land cksum 65535 in
  let cksum := cksum + Z.shiftr cksum 16 in
  u16 (Z.lnot cksum).

(** One number of getIP: the digits up to [stop], and the rest after it. *)
Fixpoint getIP_num (stop : Z) (s : list Z) (v : Z) : option (Z * list Z) :=
  match s with
  | [] => None
  | c :: s => if c =? stop then Some (v, s) else getIP_num stop s (u32 (v * 10 + c - 48))
  end.

(** [s] is the string with its NUL. *)
Definition getIP (s : list Z) : option Z :=
  '(v1, s) ← getIP_num 46 s 0;
  '(v2, s) ← getIP_num 46 s 0;
  '(v3, s) ← getIP_num 46 s 0;
  '(v4, _) ← getIP_num 0 s 0;
  Some (u32 (Z.shiftl v1 24 + Z.shiftl v2 16 + Z.shiftl v3 8 + v4)).

(** fillbuf: the bytes stored from buf[k], and the new position. *)
Fixpoint fillbuf (buf : list Z) (k num : Z) (len : nat) : list Z * Z :=
  match len with
  | O => (buf, k)
  | S j => fillbuf (setZ buf k (Z.land (Z.shiftr num (Z.shiftl (Z.of_nat j) 3)) 255)) (u8 (k + 1)) num j
  end.

(** A sequence of fillbuf calls, each from where the one before stopped. *)
Fixpoint fill_all (buf : list Z) (pos : Z) (fs : list (Z * nat)) : list Z * Z :=
  match fs with
  | [] => (buf, pos)
  | (num, len) :: fs => let '(buf, pos) := fillbuf buf pos num len in fill_all buf pos fs
  end.

(** The 16-bit words a uint16_t pointer to [l] reads. *)
Fixpoint words16 (l : list Z) : list Z :=
  match l with
  | a :: b :: l => a + 256 * b :: words16 l
  | _ => []
  end.

(** The packet send_icmpRequest hands to the device, from the buffer kalloc
    returned, the id counter and the target address. *)
Definition icmp_packet (buffer : list Z) (id tarip srcip type code : Z) : list Z * Z :=
  let '(buffer, pos) := fill_all buffer 0
    [(0x52550a000202, 6%nat); (0x525400123456, 6%nat); (0x0800, 2%nat)] in
  let piphdr := pos in
  let '(buffer, pos) := fill_all buffer pos
    [(Z.shiftl 4 4 + 5, 1%nat); (0, 1%nat); (28, 2%nat); (id, 2%nat);
     (Z.shiftl 0 13 + 0, 2%nat); (32, 1%nat); (1, 1%nat)] in
  let posiphdrcks := pos in
  let '(buffer, pos) := fill_all buffer pos [(0, 2%nat); (srcip, 4%nat); (tarip, 4%nat)] in
  let picmphdr := pos in
  let '(buffer, pos) := fill_all buffer pos [(type, 1%nat); (code, 1%nat)] in
  let posicmphdrcks := pos in
  let '(buffer, pos) := fill_all buffer pos [(0, 2%nat); (1108, 2%nat); (921, 2%nat)] in
  let cksum := calc_checksum (words16 (drop (Z.to_nat piphdr) buffer)) 10 in
  let icmpcksum := calc_checksum (words16 (drop (Z.to_nat picmphdr) buffer)) 4 in
  let '(buffer, _) := fillbuf buffer posiphdrcks cksum 2 in
  let '(buffer, _) := fillbuf buffer posicmphdrcks icmpcksum 2 in
  (buffer, pos).

(** With the addresses parsed from their text. *)
Definition icmp_request (buffer : list Z) (id : Z) (tarips : list Z) (type code : Z) :
    option (list Z * Z) :=
  srcip ← getIP (codes "10.0.2.15" ++ [0]);
  tarip ← getIP (tarips ++ [0]);
  Some (icmp_packet buffer id tarip srcip type code).

(** ** MAC addresses *)

Lemma hex_int_digit n : 0 <= n <= 15 → hex_to_int (int_to_hex n) = n.
Proof.
  intros Hn. assert (n = 0 ∨ n = 1 ∨ n = 2 ∨ n = 3 ∨ n = 4 ∨ n = 5 ∨ n = 6 ∨ n = 7 ∨ n = 8 ∨
    n = 9 ∨ n = 10 ∨ n = 11 ∨ n = 12 ∨ n = 13 ∨ n = 14 ∨ n = 15) as H by lia.
  by repeat destruct H as [->|H]; [..|subst].
Qed.

Lemma pack_byte m :
  is_u8 m →
  u8 (Z.shiftl (hex_to_int (int_to_hex (Z.shiftr (Z.land m 240) 4))) 4 +
      hex_to_int (int_to_hex (Z.land m 15))) = m.
Proof.
  intros Hm. apply Z.eqb_eq. revert m Hm. apply byte_forall. by vm_compute.
Qed.

(** The text of a MAC address that unpack_mac writes is eighteen characters,
    ends with the NUL, and pack_mac reads the same six bytes back from it. *)
Theorem pack_unpack_mac mac :
  length mac = 6%nat → Forall is_u8 mac →
  length (unpack_mac mac) = 18%nat ∧ last (unpack_mac mac) = Some 0 ∧
  pack_mac (unpack_mac mac) = mac.
Proof.
  intros Hl Hb. do 6 (destruct mac as [|? mac]; [done|]). destruct mac; [|done].
  repeat match goal with H : Forall _ (_ :: _) |- _ => inversion_clear H end.
  split_and!; [done..|]. unfold unpack_mac, pack_mac. simpl. unfold getZ, setZ. simpl.
  by rewrite !pack_byte.
Qed.

Lemma pack_unpack_mac_witness :
  pack_mac (unpack_mac [0x52; 0x54; 0x00; 0x12; 0x34; 0x56]) = [0x52; 0x54; 0x00; 0x12; 0x34; 0x56].
Proof. apply pack_unpack_mac; [done|]. repeat constructor; lia. Defined.

(** ** Dotted quads *)

(** The decimal digits of a byte, and an address as text. *)
Definition octet (x : Z) : list Z :=
  if x <? 10 then [48 + x]
  else if x <? 100 then [48 + x / 10; 48 + x mod 10]
  else [48 + x / 100; 48 + x / 10 mod 10; 48 + x mod 10].

Definition dotted (a b c d : Z) : list Z :=
  octet a ++ 46 :: octet b ++ 46 :: octet c ++ 46 :: octet d.

Record octet_facts (x : Z) : Prop := {
  octet_len : (1 <= length (octet x) <= 3)%nat;
  octet_digits : Forall UserSpec.is_digit (octet x);
  octet_val : UserSpec.digits_val 0 (octet x) = x
}.

Lemma octet_ok x : is_u8 x → octet_facts x.
Proof.
  intros Hx. pose (f := λ x, (1 <=? length (octet x))%nat && (length (octet x) <=? 3)%nat &&
    forallb (λ c, (48 <=? c) && (c <=? 57)) (octet x) &&
    (UserSpec.digits_val 0 (octet x) =? x)).
  assert (f x = true) as Hf by (revert x Hx; apply byte_forall; by vm_compute).
  unfold f in Hf. rewrite !andb_true_iff, forallb_forall, Z.eqb_eq, !Nat.leb_le in Hf.
  destruct Hf as [[[H1 H2] H3] H4]. split; [lia| |done].
  rewrite Forall_forall. intros c Hc%list_elem_of_In%H3.
  rewrite andb_true_iff, !Z.leb_le in Hc. unfold UserSpec.is_digit. lia.
Qed.

Lemma digit_not_dot c : UserSpec.is_digit c → (c =? 46) = false.
Proof. unfold UserSpec.is_digit. intros. apply Z.eqb_neq. lia. Qed.

(** The characters of a number are stored in arr. *)
Lemma get_ip_store cs rest arr n1 vals :
  Forall UserSpec.is_digit cs → length arr = 4%nat → 0 <= n1 →
  n1 + Z.of_nat (length cs) <= 4 →
  get_ip_loop (cs ++ rest) arr n1 vals =
  get_ip_loop rest (splice arr (Z.to_nat n1) cs) (n1 + Z.of_nat (length cs)) vals.
Proof.
  intros Hcs. revert arr n1. induction Hcs as [|c cs Hc Hcs IH]; intros arr n1 Ha Hn Hl.
  - cbn [app length]. rewrite Z.add_0_r. f_equal. unfold splice. simpl.
    by rewrite Nat.add_0_r, take_drop.
  - cbn [app length get_ip_loop] in *. rewrite digit_not_dot by done. unfold local_set.
    rewrite (proj2 (Z.leb_le 0 n1)), (proj2 (Z.ltb_lt n1 4)) by lia. simpl.
    unfold setZ. rewrite IH by (rewrite ?length_insert; lia). f_equal; [|lia].
    apply list_eq. intros i. rewrite !lookup_splice by (simpl; rewrite ?length_insert; lia).
    replace (Z.to_nat (n1 + 1)) with (S (Z.to_nat n1)) by lia. simpl length.
    destruct (decide (i = Z.to_nat n1)) as [->|].
    + rewrite decide_False, decide_True by lia.
      rewrite list_lookup_insert_eq by lia. by rewrite Nat.sub_diag.
    + rewrite list_lookup_insert_ne by lia. repeat case_decide; try lia; [|done].
      by replace (i - Z.to_nat n1)%nat with (S (i - S (Z.to_nat n1))) by lia.
Qed.

(** util_atoi reads the number back. *)
Lemma atoi_stored x arr :
  is_u8 x → length arr = 4%nat →
  Util.util_atoi 5 (mem_of (setZ (splice arr 0 (octet x)) (Z.of_nat (length (octet x))) 0)) 0 = Some x.
Proof.
  intros Hx Ha. destruct (octet_ok x Hx) as [Hl Hd Hv].
  rewrite UserSpec.util_atoi_eq. unfold User.atoi.
  rewrite (UserSpec.atoi_loop_spec _ _ _ _ (octet x) []); [by rewrite Hv|..].
  - rewrite app_nil_r. apply KernelSpec.cstr_intro.
    + intros i c Hi. rewrite Forall_lookup in Hd. pose proof (Hd _ _ Hi) as Hc.
      apply lookup_lt_Some in Hi as Hil. unfold UserSpec.is_digit in Hc. split; [|lia].
      apply mem_of_lookup; [|unfold is_u8; lia].
      unfold setZ. rewrite Z.add_0_l, Nat2Z.id, list_lookup_insert_ne by lia.
      rewrite lookup_splice by lia. rewrite decide_True by lia. by rewrite Nat.sub_0_r.
    + apply mem_of_lookup; [|done]. unfold setZ.
      rewrite Z.add_0_l, !Nat2Z.id, list_lookup_insert_eq; [done|].
      rewrite length_splice by lia. lia.
  - done.
  - done.
  - lia.
  - lia.
  - rewrite Hv. unfold is_u8 in Hx. lia.
Qed.

(** The length of arr is kept. *)
Lemma get_ip_octet x arr rest vals :
  is_u8 x → length arr = 4%nat → (length vals < 4)%nat →
  ∃ arr', length arr' = 4%nat ∧
    get_ip_loop (octet x ++ 46 :: rest) arr 0 vals = get_ip_loop rest arr' 0 (vals ++ [x]) ∧
    (arr2 ← local_set 4 (splice arr 0 (octet x)) (Z.of_nat (length (octet x))) 0;
     push_val arr2 vals) = Some (vals ++ [x]).
Proof.
  intros Hx Ha Hv. destruct (octet_ok x Hx) as [Hl Hd Hval].
  exists (setZ (splice arr 0 (octet x)) (Z.of_nat (length (octet x))) 0).
  assert (local_set 4 (splice arr 0 (octet x)) (Z.of_nat (length (octet x))) 0 =
    Some (setZ (splice arr 0 (octet x)) (Z.of_nat (length (octet x))) 0)) as Hset.
  { unfold local_set. by rewrite (proj2 (Z.leb_le _ _)), (proj2 (Z.ltb_lt _ _)) by lia. }
  assert (push_val (setZ (splice arr 0 (octet x)) (Z.of_nat (length (octet x))) 0) vals =
    Some (vals ++ [x])) as Hpush.
  { unfold push_val. rewrite atoi_stored by done. simpl.
    rewrite (proj2 (Nat.ltb_lt _ _)) by done. rewrite u32_small; [done|].
    unfold is_u8, is_u32 in *. lia. }
  split_and!.
  - unfold setZ. rewrite length_insert, length_splice; lia.
  - rewrite get_ip_store by (done || lia). cbn [get_ip_loop]. rewrite Z.eqb_refl, Z.add_0_l.
    change (Z.to_nat 0) with 0%nat.
    rewrite Hset. simpl. by rewrite Hpush.
  - by rewrite Hset.
Qed.

Lemma get_ip_dotted a b c d :
  is_u8 a → is_u8 b → is_u8 c → is_u8 d →
  get_ip (dotted a b c d) (Z.of_nat (length (dotted a b c d))) =
    Some (a + 256 * b + 65536 * c + 16777216 * d).
Proof.
  intros Ha Hb Hc Hd. unfold get_ip. rewrite Nat2Z.id, take_ge by done. unfold dotted.
  destruct (get_ip_octet a (replicate 4 0) (octet b ++ 46 :: octet c ++ 46 :: octet d) [])
    as (arr1 & H1 & -> & _); [done|done|simpl; lia|].
  destruct (get_ip_octet b arr1 (octet c ++ 46 :: octet d) ([] ++ [a]))
    as (arr2 & H2 & -> & _); [done|done|simpl; lia|].
  destruct (get_ip_octet c arr2 (octet d) (([] ++ [a]) ++ [b]))
    as (arr3 & H3 & -> & _); [done|done|simpl; lia|].
  destruct (get_ip_octet d arr3 [] ((([] ++ [a]) ++ [b]) ++ [c])) as (_ & _ & _ & H4);
    [done|done|simpl; lia|].
  destruct (octet_ok d Hd) as [Hl Hdd _].
  rewrite <-(app_nil_r (octet d)), get_ip_store by (done || lia). cbn [get_ip_loop].
  cbn [mbind option_bind]. rewrite Z.add_0_l. change (Z.to_nat 0) with 0%nat.
  destruct (local_set 4 _ _ 0) as [arr4|]; [|done]. cbn [mbind option_bind app] in H4 |- *.
  rewrite H4. simpl. f_equal. rewrite !Z.shiftl_mul_pow2 by lia.
  unfold getZ; simpl. unfold is_u8 in *. rewrite u32_small; [lia|]. unfold is_u32. lia.
Qed.

Lemma getIP_num_digits cs stop rest v :
  Forall UserSpec.is_digit cs → ¬ UserSpec.is_digit stop → 0 <= v →
  UserSpec.digits_val v cs < 4294967296 →
  getIP_num stop (cs ++ stop :: rest) v = Some (UserSpec.digits_val v cs, rest).
Proof.
  intros Hcs Hstop. revert v. induction Hcs as [|c cs Hc Hcs IH]; intros v Hv Hd.
  - simpl. by rewrite Z.eqb_refl.
  - cbn [app getIP_num]. rewrite (proj2 (Z.eqb_neq c stop)) by (intros ->; done).
    change (UserSpec.digits_val v (c :: cs)) with (UserSpec.digits_val (v * 10 + (c - 48)) cs) in *.
    unfold UserSpec.is_digit in Hc.
    pose proof (UserSpec.digits_val_mono (v * 10 + (c - 48)) cs ltac:(lia) Hcs).
    replace (u32 (v * 10 + c - 48)) with (v * 10 + (c - 48)) by zmod. apply IH; lia.
Qed.

Lemma getIP_octet x stop rest :
  is_u8 x → ¬ UserSpec.is_digit stop → getIP_num stop (octet x ++ stop :: rest) 0 = Some (x, rest).
Proof.
  intros Hx Hs. destruct (octet_ok x Hx) as [_ Hd Hv]. rewrite getIP_num_digits; [by rewrite Hv|done..|].
  rewrite Hv. unfold is_u8 in Hx. lia.
Qed.

Lemma getIP_dotted a b c d :
  is_u8 a → is_u8 b → is_u8 c → is_u8 d →
  getIP (dotted a b c d ++ [0]) = Some (16777216 * a + 65536 * b + 256 * c + d).
Proof.
  intros Ha Hb Hc Hd. unfold getIP, dotted. repeat (rewrite <-app_assoc || cbn [app]).
  assert (¬ UserSpec.is_digit 46) by (unfold UserSpec.is_digit; lia).
  assert (¬ UserSpec.is_digit 0) by (unfold UserSpec.is_digit; lia).
  do 4 (rewrite getIP_octet by done; cbn [mbind option_bind]). f_equal.
  rewrite !Z.shiftl_mul_pow2 by lia. unfold is_u8 in *. rewrite u32_small; [lia|].
  unfold is_u32. lia.
Qed.

(** The two parsers of dotted quads agree: on the text of any IPv4 address,
    get_ip returns the address in network byte order, getIP returns it in host
    byte order, and htonl converts one into the other. *)
Theorem get_ip_getIP a b c d :
  is_u8 a → is_u8 b → is_u8 c → is_u8 d →
  let s := dotted a b c d in
  ∃ n h, get_ip s (Z.of_nat (length s)) = Some n ∧ getIP (s ++ [0]) = Some h ∧
    le_bytes 4 n = [a; b; c; d] ∧ rev (le_bytes 4 h) = [a; b; c; d] ∧ htonl h = n.
Proof.
  intros Ha Hb Hc Hd s. do 2 eexists.
  split; [by apply get_ip_dotted|]. split; [by apply getIP_dotted|]. unfold is_u8 in *.
  assert (∀ x y, 0 <= x < 256 → 0 <= y < 256 → htons (256 * x + y) = 256 * y + x) as Hswap.
  { intros x y Hx Hy. unfold htons. rewrite Z.shiftr_div_pow2 by lia.
    change (2 ^ 8) with 256. replace ((256 * x + y) / 256) with x by (Z.to_euclidean_division_equations; lia).
    rewrite (lor_shiftl_add x (256 * x + y) 8) by lia. change (2 ^ 8) with 256. zmod. }
  split_and!.
  - cbn [le_bytes]. repeat f_equal; zmod.
  - cbn [le_bytes rev app]. repeat f_equal; zmod.
  - unfold htonl. rewrite Z.shiftr_div_pow2 by lia. change (2 ^ 16) with 65536.
    replace (u16 ((16777216 * a + 65536 * b + 256 * c + d) / 65536)) with (256 * a + b) by zmod.
    replace (u16 (16777216 * a + 65536 * b + 256 * c + d)) with (256 * c + d) by zmod.
    rewrite !Hswap by lia. rewrite (lor_shiftl_add _ _ 16) by lia.
    change (2 ^ 16) with 65536. rewrite u32_small; [lia|]. unfold is_u32. lia.
Qed.

Lemma get_ip_getIP_witness :
  ∃ n, get_ip (codes "10.0.2.15") 9 = Some n ∧ le_bytes 4 n = [10; 0; 2; 15].
Proof.
  destruct (get_ip_getIP 10 0 2 15) as (n & h & Hn & _ & Hb & _); [unfold is_u8; lia..|].
  by exists n.
Defined.

(** ** The ARP request *)

(** The request for the address a.b.c.d: Ethernet header, ARP header, sender and
    target addresses. *)
Definition arp_request (mac : list Z) (a b c d : Z) : list Z :=
  [255; 255; 255; 255; 255; 255] ++ mac ++ [8; 6] ++
  [0; 1] ++ [8; 0] ++ [6] ++ [4] ++ [0; 1] ++
  mac ++ [10; 0; 2; 15] ++ [255; 255; 255; 255; 255; 255] ++ [a; b; c; d].

(** The frame that create_eth_arp_frame builds is the broadcast ARP request of
    RFC 826 for the given address, byte for byte: the struct is 44 bytes long,
    and its first 42 bytes are the Ethernet header, the ARP header with all
    16-bit fields in network byte order, the sender's addresses, and the target
    address; the padding behind them is not part of it. *)
Lemma create_eth_arp_frame_rfc826 pad mac a b c d :
  length mac = 6%nat → is_u8 a → is_u8 b → is_u8 c → is_u8 d →
  ∃ e, create_eth_arp_frame pad mac (dotted a b c d) = Some e ∧
    length (eth_bytes e) = 44%nat ∧
    take 42 (eth_bytes e) = arp_request mac a b c d ∧ drop 42 (eth_bytes e) = le_bytes 2 pad.
Proof.
  intros Hm Ha Hb Hc Hd. unfold create_eth_arp_frame.
  change (get_ip (codes "10.0.2.15") _) with (Some 251789322). cbn [mbind option_bind].
  rewrite get_ip_dotted by done. cbn [mbind option_bind]. eexists. split; [done|].
  do 6 (destruct mac as [|? mac]; [done|]). destruct mac; [|done].
  split; [done|]. split; [|done]. unfold is_u8 in *. cbn -[u8 u16]. unfold arp_request. cbn [app].
  repeat f_equal; zmod.
Qed.

(** The ARP reply of RFC 826 that answers it, as the fields of the struct read
    the received bytes. *)
Definition reply_bytes (mac peer : list Z) (a b c d : Z) : list Z :=
  mac ++ peer ++ [8; 6; 0; 1; 8; 0; 6; 4; 0; 2] ++ peer ++ [a; b; c; d] ++ mac ++ [10; 0; 2; 15].

Definition eth_decode (l : list Z) : ethr_hdr := {|
  dmac := sub l 0 6; smac := sub l 6 6; ethr_type := getw 2 l 12; hwtype := getw 2 l 14;
  protype := getw 2 l 16; hwsize := getw 1 l 18; prosize := getw 1 l 19; opcode := getw 2 l 20;
  arp_smac := sub l 22 6; sip := getw 4 l 28; arp_dmac := sub l 32 6; dip := getw 2 l 38;
  dip2 := getw 2 l 40; padd := getw 2 l 42
|}.

(** parse_arp_reply compares the 16-bit fields without converting them from
    network byte order, so it takes every well-formed ARP reply for something
    else, whatever the addresses in it. *)
Theorem parse_arp_reply_rejects junk mac peer a b c d :
  length mac = 6%nat → length peer = 6%nat →
  parse_arp_reply junk (eth_decode (reply_bytes mac peer a b c d)) = Some (codes "Not an ARP packet").
Proof.
  intros Hm Hp. do 6 (destruct mac as [|? mac]; [done|]). destruct mac; [|done].
  do 6 (destruct peer as [|? peer]; [done|]). destruct peer; [|done]. done.
Qed.

Lemma parse_arp_reply_rejects_witness :
  parse_arp_reply [0; 0; 0; 0] (eth_decode (reply_bytes [0x52; 0x54; 0; 0x12; 0x34; 0x56]
    [0x52; 0x55; 10; 0; 2; 2] 10 0 2 2)) = Some (codes "Not an ARP packet").
Proof. by apply parse_arp_reply_rejects. Defined.

(** ** Packets *)

Definition be_bytes (n : nat) (v : Z) : list Z := rev (le_bytes n v).

Lemma length_be_bytes n v : length (be_bytes n v) = n.
Proof. unfold be_bytes. by rewrite length_rev, length_le_bytes. Qed.

Lemma be_bytes_S n v : be_bytes (S n) v = u8 (v / 256 ^ Z.of_nat n) :: be_bytes n v.
Proof.
  unfold be_bytes. revert v. induction n as [|n IH]; intros v; [by rewrite Z.div_1_r|].
  change (rev (le_bytes (S (S n)) v)) with (rev (le_bytes (S n) (v / 256)) ++ [u8 v]).
  rewrite IH. cbn [app]. f_equal. rewrite Z.div_div by lia. f_equal. f_equal.
  rewrite Nat2Z.inj_succ, Z.pow_succ_r by lia. lia.
Qed.

Lemma fillbuf_byte num j :
  Z.land (Z.shiftr num (Z.shiftl (Z.of_nat j) 3)) 255 = u8 (num / 256 ^ Z.of_nat j).
Proof.
  rewrite (land_mask _ 8 255) by done. unfold u8. change (2 ^ 8) with 256. f_equal.
  rewrite Z.shiftl_mul_pow2, Z.shiftr_div_pow2 by lia. f_equal.
  change 256 with (2 ^ 8). rewrite <-Z.pow_mul_r by lia. f_equal. lia.
Qed.

(** fillbuf stores a number in network byte order. *)
Lemma fillbuf_spec pre old post num k len :
  k = Z.of_nat (length pre) → length old = len → (length pre + len < 256)%nat →
  fillbuf (pre ++ old ++ post) k num len = (pre ++ be_bytes len num ++ post, k + Z.of_nat len).
Proof.
  intros -> <-. revert pre. induction old as [|x old IH]; intros pre Hl; simpl length in *.
  - cbn [fillbuf be_bytes]. simpl. f_equal. lia.
  - cbn [fillbuf]. rewrite fillbuf_byte. set (y := u8 (num / 256 ^ Z.of_nat (length old))).
    replace (setZ (pre ++ (x :: old) ++ post) (Z.of_nat (length pre)) y)
      with ((pre ++ [y]) ++ old ++ post).
    2: { unfold setZ. rewrite Nat2Z.id, insert_app_r_alt, Nat.sub_diag by lia.
         simpl. by rewrite <-app_assoc. }
    rewrite u8_small by (unfold is_u8; lia).
    replace (Z.of_nat (length pre) + 1) with (Z.of_nat (length (pre ++ [y])))
      by (rewrite length_app; simpl; lia).
    rewrite IH by (rewrite length_app; simpl; lia).
    rewrite be_bytes_S. fold y. f_equal; [by rewrite <-app_assoc|]. rewrite length_app. simpl. lia.
Qed.

(** A list cut at a position. *)
Lemma fillbuf_at l k num len :
  0 <= k → (Z.to_nat k + len <= length l)%nat → (Z.to_nat k + len < 256)%nat →
  fillbuf l k num len = (splice l (Z.to_nat k) (be_bytes len num), k + Z.of_nat len).
Proof.
  intros Hk Hl Hs. unfold splice. rewrite length_be_bytes.
  rewrite <-(fillbuf_spec _ (sub l (Z.to_nat k) len)).
  - f_equal. unfold sub.
    rewrite <-(take_drop (Z.to_nat k) l) at 1. f_equal.
    rewrite <-(take_drop len (drop (Z.to_nat k) l)) at 1. by rewrite drop_drop.
  - rewrite length_take. lia.
  - apply length_sub. lia.
  - rewrite length_take. lia.
Qed.

(** Adjacent stores are one store. *)
Lemma splice_app {A} (l : list A) p x y :
  (p + length x + length y <= length l)%nat →
  splice (splice l p x) (p + length x) y = splice l p (x ++ y).
Proof.
  intros Hl. apply list_eq. intros i.
  rewrite !lookup_splice by (rewrite ?length_splice, ?length_app; lia).
  rewrite length_app.
  repeat case_decide; try lia; [|by rewrite lookup_app_l by lia|done].
  rewrite lookup_app_r by lia. f_equal. lia.
Qed.

Lemma splice_nil {A} (l : list A) p : splice l p [] = l.
Proof. unfold splice. simpl. by rewrite Nat.add_0_r, take_drop. Qed.

Lemma fill_all_spec fs l pos :
  0 <= pos → (Z.to_nat pos + sum_list (snd <$> fs) <= length l)%nat →
  (Z.to_nat pos + sum_list (snd <$> fs) < 256)%nat →
  fill_all l pos fs =
    (splice l (Z.to_nat pos) (flat_map (λ f, be_bytes f.2 f.1) fs),
     pos + Z.of_nat (sum_list (snd <$> fs))).
Proof.
  revert l pos. induction fs as [|[num len] fs IH]; intros l pos Hp Hl Hs.
  - simpl. by rewrite splice_nil, Z.add_0_r.
  - rewrite fmap_cons in Hl, Hs. cbn [sum_list fold_right fmap list_fmap snd] in *. simpl in Hl, Hs.
    cbn [fill_all]. rewrite fillbuf_at by lia.
    rewrite IH; rewrite ?length_splice by (rewrite ?length_be_bytes; lia); [|lia..].
    f_equal; [|simpl; lia]. cbn [flat_map fst snd].
    assert (length (flat_map (λ f, be_bytes f.2 f.1) fs) = sum_list (snd <$> fs)) as Hlen.
    { clear. induction fs as [|[n k] fs IH]; [done|].
      cbn [flat_map]. rewrite length_app, length_be_bytes, IH. done. }
    rewrite <-splice_app by (rewrite length_be_bytes, Hlen; lia).
    rewrite length_be_bytes. f_equal. lia.
Qed.

(** ** The checksum *)

Definition sum16 (l : list Z) : Z := foldr (λ w s, w + s) 0 l.

Lemma checksum_sum ws c :
  Forall is_u16 ws → 0 <= c → c + 65535 * Z.of_nat (length ws) < 4294967296 →
  foldl (λ c w, u32 (c + u16 w)) c ws = c + sum16 ws ∧
  0 <= sum16 ws <= 65535 * Z.of_nat (length ws).
Proof.
  intros Hws. revert c. induction Hws as [|w ws Hw Hws IH]; intros c Hc Hl; simpl in *; [lia|].
  unfold is_u16 in Hw. rewrite (u16_small w) by (unfold is_u16; lia).
  rewrite u32_small by (unfold is_u32; lia). destruct (IH (c + w)) as [-> ?]; lia.
Qed.

(** calc_checksum is the one's-complement checksum of RFC 1071 of the words
    before the last: its loop stops at size > 1, so the last word of the header
    is never added, and changing it does not change the checksum. *)
Theorem calc_checksum_spec ws w :
  Forall is_u16 ws → Z.of_nat (length ws) <= 60000 →
  let r := calc_checksum (ws ++ [w]) (Z.of_nat (length (ws ++ [w]))) in
  is_u16 r ∧ (r + sum16 ws) mod 65535 = 0 ∧ (r = 65535 ↔ sum16 ws = 0).
Proof.
  intros Hws Hl r. unfold r, calc_checksum. rewrite length_app. simpl length.
  rewrite take_app_le by lia. rewrite take_ge by lia.
  destruct (checksum_sum ws 0 Hws) as [-> Hs]; [lia..|]. rewrite Z.add_0_l.
  set (s := sum16 ws) in *. rewrite !Z.shiftr_div_pow2, (land_mask s 16 65535) by done.
  change (2 ^ 16) with 65536. unfold Z.lnot, Z.pred.
  assert (0 <= s < 4294967296) as Hs' by lia.
  set (c := s / 65536 + s mod 65536).
  assert (c = s - 65535 * (s / 65536)) as Hc by (unfold c; Z.to_euclidean_division_equations; lia).
  assert (0 <= s / 65536 < 65536) as Hq by (Z.to_euclidean_division_equations; lia).
  assert (0 <= c <= 131070) as Hcr by (unfold c; Z.to_euclidean_division_equations; lia).
  assert (c = 0 → s = 0) as Hc0 by (unfold c; Z.to_euclidean_division_equations; lia).
  clearbody c.
  assert (u16 (- (c + c / 65536) + -1) = 65535 - (c - 65535 * (c / 65536))) as ->.
  { unfold u16. Z.to_euclidean_division_equations; lia. }
  assert (0 <= c / 65536 <= 1) as Hc1 by (Z.to_euclidean_division_equations; lia).
  assert (c / 65536 = 1 → 65536 <= c) by (Z.to_euclidean_division_equations; lia).
  assert (c / 65536 = 0 → c < 65536) by (Z.to_euclidean_division_equations; lia).
  split_and!.
  - unfold is_u16. lia.
  - rewrite Hc. replace (65535 - (s - 65535 * (s / 65536) - 65535 * ((s - 65535 * (s / 65536)) / 65536)) + s)
      with ((1 + s / 65536 + (s - 65535 * (s / 65536)) / 65536) * 65535) by lia.
    apply Z.mod_mul. lia.
  - split; [|intros Hz].
    + intros H1. assert (c = 0 ∨ c = 65535 * (c / 65536)) as [Hz|Hz] by lia; [by apply Hc0|].
      apply Hc0. lia.
    + rewrite Hz in Hc. replace (0 / 65536) with 0 in Hc by done. rewrite Hc. done.
Qed.

Lemma calc_checksum_spec_witness :
  calc_checksum [0x4500; 0x1c00; 7] 3 = calc_checksum ([0x4500; 0x1c00] ++ [9]) 3 ∧
  (calc_checksum [0x4500; 0x1c00; 7] 3 + (0x4500 + (0x1c00 + 0))) mod 65535 = 0.
Proof.
  split; [done|]. apply (calc_checksum_spec [0x4500; 0x1c00] 7).
  - repeat (apply Forall_cons; split; [unfold is_u16; lia|]). apply Forall_nil_2.
  - simpl. lia.
Defined.

(** What a receiver checks: the words of a header in network byte order,
    checksum included, sum to a multiple of 65535. *)
Fixpoint be_words (l : list Z) : list Z :=
  match l with
  | a :: b :: l => 256 * a + b :: be_words l
  | _ => []
  end.
Definition rfc1071_ok (l : list Z) : bool := sum16 (be_words l) mod 65535 =? 0.

(** The bytes of a sequence of fields. *)
Definition fbytes (fs : list (Z * nat)) : list Z := flat_map (λ f, be_bytes f.2 f.1) fs.
Definition ftotal (fs : list (Z * nat)) : nat := sum_list (snd <$> fs).

Lemma length_fbytes fs : length (fbytes fs) = ftotal fs.
Proof.
  unfold fbytes, ftotal. induction fs as [|[n k] fs IH]; [done|].
  cbn [flat_map]. rewrite length_app, length_be_bytes, IH. done.
Qed.

Lemma fbytes_app fs fs' : fbytes (fs ++ fs') = fbytes fs ++ fbytes fs'.
Proof. apply flat_map_app. Qed.
Lemma ftotal_app fs fs' : ftotal (fs ++ fs') = (ftotal fs + ftotal fs')%nat.
Proof. by rewrite <-!length_fbytes, fbytes_app, length_app. Qed.

(** Filling goes on from where it stopped. *)
Lemma fill_more l fs fs' :
  (ftotal (fs ++ fs') <= length l)%nat → (ftotal (fs ++ fs') < 256)%nat →
  fill_all (splice l 0 (fbytes fs)) (Z.of_nat (ftotal fs)) fs' =
    (splice l 0 (fbytes (fs ++ fs')), Z.of_nat (ftotal (fs ++ fs'))).
Proof.
  rewrite ftotal_app. intros Hl Hs. pose proof (length_fbytes fs) as Hf.
  pose proof (length_fbytes fs') as Hf'. unfold ftotal in *.
  rewrite fill_all_spec; rewrite ?Nat2Z.id, ?length_splice by lia; [|lia..].
  fold (fbytes fs'). f_equal; [|lia].
  rewrite fbytes_app, <-splice_app by lia. by rewrite Hf.
Qed.

Lemma splice_mid {A} (l x y y' z : list A) :
  length y' = length y → (length (x ++ y ++ z) <= length l)%nat →
  splice (splice l 0 (x ++ y ++ z)) (length x) y' = splice l 0 (x ++ y' ++ z).
Proof.
  intros Hy Hl. unfold splice at 2. rewrite take_0, app_nil_l. unfold splice.
  rewrite take_0, app_nil_l, !length_app, Hy.
  rewrite <-!app_assoc, take_app_length. do 2 f_equal.
  rewrite <-drop_drop, drop_app_length, drop_app_length. done.
Qed.

(** A field is filled in later. *)
Lemma refill l fs v v' n fs' :
  (ftotal (fs ++ (v, n) :: fs') <= length l)%nat →
  splice (splice l 0 (fbytes (fs ++ (v, n) :: fs'))) (ftotal fs) (be_bytes n v') =
  splice l 0 (fbytes (fs ++ (v', n) :: fs')).
Proof.
  intros Hl. rewrite !fbytes_app, <-length_fbytes. apply splice_mid.
  - by rewrite !length_be_bytes.
  - pose proof (length_fbytes (fs ++ (v, n) :: fs')) as H. rewrite fbytes_app in H.
    etransitivity; [|exact Hl]. apply Nat.eq_le_incl, H.
Qed.

(** The packet of send_icmpRequest: 42 bytes at the front of the buffer, with
    the Ethernet, IPv4 and ICMP fields at their places in network byte order
    around the two checksums the routine computes, and nothing behind them
    changed. *)
Theorem icmp_packet_layout buffer id tarip srcip type code :
  (42 <= length buffer)%nat →
  ∃ ck ick, icmp_packet buffer id tarip srcip type code =
    ([0x52; 0x55; 0x0a; 0x00; 0x02; 0x02] ++ [0x52; 0x54; 0x00; 0x12; 0x34; 0x56] ++ [8; 0] ++
     [0x45; 0; 0; 28] ++ be_bytes 2 id ++ [0; 0; 32; 1] ++ be_bytes 2 ck ++
     be_bytes 4 srcip ++ be_bytes 4 tarip ++
     [u8 type; u8 code] ++ be_bytes 2 ick ++ be_bytes 2 1108 ++ be_bytes 2 921 ++
     drop 42 buffer, 42).
Proof.
  intros Hl. unfold icmp_packet.
  assert (fill_all buffer 0 = fill_all (splice buffer 0 (fbytes [])) (Z.of_nat (ftotal []))) as ->
    by (change (fbytes []) with (@nil Z); by rewrite splice_nil).
  do 5 (rewrite fill_more by (cbn; lia)). cbn [app].
  match goal with |- context [calc_checksum ?w 10] => generalize (calc_checksum w 10) end.
  match goal with |- context [calc_checksum ?w 4] => generalize (calc_checksum w 4) end.
  intros ick ck. exists ck, ick.
  rewrite fillbuf_at by (rewrite ?length_splice; cbn; lia).
  rewrite fillbuf_at by (rewrite ?length_splice by (rewrite ?length_splice; cbn; lia); cbn; lia).
  rewrite !Nat2Z.id.
  match goal with |- context [splice buffer 0 (fbytes ?l)] => set (fs := l) end.
  set (fs' := take 10 fs ++ (ck, 2%nat) :: drop 11 fs).
  assert (splice (splice buffer 0 (fbytes fs)) (ftotal (take 10 fs)) (be_bytes 2 ck) =
    splice buffer 0 (fbytes fs')) as E1 by (apply (refill buffer (take 10 fs) 0 ck 2 (drop 11 fs)); cbn; lia).
  assert (splice (splice buffer 0 (fbytes fs')) (ftotal (take 15 fs')) (be_bytes 2 ick) =
    splice buffer 0 (fbytes (take 15 fs' ++ (ick, 2%nat) :: drop 16 fs'))) as E2
    by (apply (refill buffer (take 15 fs') 0 ick 2 (drop 16 fs')); cbn; lia).
  etransitivity; [exact (f_equal (λ b, (splice b (ftotal (take 15 fs')) (be_bytes 2 ick), 42)) E1)|].
  etransitivity; [exact (f_equal (λ b, (b, 42)) E2)|].
  done.
Qed.

Lemma icmp_packet_layout_witness :
  ∃ ck, drop 24 (take 26 (fst (icmp_packet (replicate 64 1) 1 0x0a000202 0x0a00020f 8 0))) = be_bytes 2 ck.
Proof.
  destruct (icmp_packet_layout (replicate 64 1) 1 0x0a000202 0x0a00020f 8 0) as (ck & ick & ->);
    [simpl; lia|]. by exists ck.
Defined.

(** The first packet that sys_icmptest sends fails the checks of both of its
    checksums: calc_checksum adds little-endian words, leaves out the last, and
    the result is stored most significant byte first. *)
Theorem icmp_checksums_rejected :
  ∃ p, icmp_request (replicate 4096 1) 1 (codes "10.0.2.2") 8 0 = Some (p, 42) ∧
    take 2 (drop 12 p) = [8; 0] ∧
    rfc1071_ok (sub p 14 20) = false ∧ rfc1071_ok (sub p 34 8) = false.
Proof. eexists. split; [by vm_compute|]. by vm_compute. Qed.
