(* ===== verification/E1000.v ===== *)
(** * The e1000 driver and the network device table (e1000.c, nic.c, arp.c)

    The descriptors and packet buffers lie in memory that the device reads and
    writes by DMA. A descriptor ring is a list of records; packet buffers are in
    the kernel's byte memory, at the addresses of [tx_buf] and [rx_buf]. What
    the device does to all of that, when a register is written and while the
    processor waits, is the class [E1000Device]: it sees the rings and the memory
    as they are at that moment. Console output is left out. *)

From S2P Require Import Prelude Cstring Hw Irq Pci Kalloc Arp.

Definition E1000_SLOTS : Z := 128.

(** struct e1000_tbd and struct e1000_rbd. *)
Record e1000_tbd := Tbd {
  t_addr : Z; t_length : Z; t_cso : Z; t_cmd : Z; t_status : Z; t_css : Z; t_special : Z
}.
Record e1000_rbd := Rbd {
  r_addr : Z; r_length : Z; r_checksum : Z; r_status : Z; r_errors : Z; r_special : Z
}.
#[export] Instance tbd_inhabited : Inhabited e1000_tbd := populate (Tbd 0 0 0 0 0 0 0).
#[export] Instance rbd_inhabited : Inhabited e1000_rbd := populate (Rbd 0 0 0 0 0 0).

(** struct e1000; [tbd_base] and [rbd_base] are the addresses of the rings. *)
Record e1000 := E1000 {
  tbd : list e1000_tbd; tbd_base : Z;
  rbd : list e1000_rbd; rbd_base : Z;
  tx_buf : list Z; rx_buf : list Z;
  tbd_head : Z; tbd_tail : Z; rbd_head : Z; rbd_tail : Z;
  iobase : Z; membase : Z; e_irq_line : Z; e_mac_addr : list Z
}.

Definition set_tbd v d := E1000 v (tbd_base d) (rbd d) (rbd_base d) (tx_buf d) (rx_buf d)
  (tbd_head d) (tbd_tail d) (rbd_head d) (rbd_tail d) (iobase d) (membase d) (e_irq_line d) (e_mac_addr d).
Definition set_tbd_base v d := E1000 (tbd d) v (rbd d) (rbd_base d) (tx_buf d) (rx_buf d)
  (tbd_head d) (tbd_tail d) (rbd_head d) (rbd_tail d) (iobase d) (membase d) (e_irq_line d) (e_mac_addr d).
Definition set_rbd v d := E1000 (tbd d) (tbd_base d) v (rbd_base d) (tx_buf d) (rx_buf d)
  (tbd_head d) (tbd_tail d) (rbd_head d) (rbd_tail d) (iobase d) (membase d) (e_irq_line d) (e_mac_addr d).
Definition set_rbd_base v d := E1000 (tbd d) (tbd_base d) (rbd d) v (tx_buf d) (rx_buf d)
  (tbd_head d) (tbd_tail d) (rbd_head d) (rbd_tail d) (iobase d) (membase d) (e_irq_line d) (e_mac_addr d).
Definition set_tx_buf v d := E1000 (tbd d) (tbd_base d) (rbd d) (rbd_base d) v (rx_buf d)
  (tbd_head d) (tbd_tail d) (rbd_head d) (rbd_tail d) (iobase d) (membase d) (e_irq_line d) (e_mac_addr d).
Definition set_rx_buf v d := E1000 (tbd d) (tbd_base d) (rbd d) (rbd_base d) (tx_buf d) v
  (tbd_head d) (tbd_tail d) (rbd_head d) (rbd_tail d) (iobase d) (membase d) (e_irq_line d) (e_mac_addr d).
Definition set_tails th tt rh rt d := E1000 (tbd d) (tbd_base d) (rbd d) (rbd_base d) (tx_buf d)
  (rx_buf d) th tt rh rt (iobase d) (membase d) (e_irq_line d) (e_mac_addr d).
Definition set_bases io mb irq d := E1000 (tbd d) (tbd_base d) (rbd d) (rbd_base d) (tx_buf d)
  (rx_buf d) (tbd_head d) (tbd_tail d) (rbd_head d) (rbd_tail d) io mb irq (e_mac_addr d).
Definition set_mac v d := E1000 (tbd d) (tbd_base d) (rbd d) (rbd_base d) (tx_buf d) (rx_buf d)
  (tbd_head d) (tbd_tail d) (rbd_head d) (rbd_tail d) (iobase d) (membase d) (e_irq_line d) v.

(** Registers (e1000.h). *)
Definition E1000_RCV_RAL0 : Z := 0x05400.
Definition E1000_RCV_RAH0 : Z := 0x05404.
Definition E1000_TDBAL : Z := 0x03800.
Definition E1000_TDBAH : Z := 0x03804.
Definition E1000_TDLEN : Z := 0x03808.
Definition E1000_TDH : Z := 0x03810.
Definition E1000_TDT : Z := 0x03818.
Definition E1000_RDBAL : Z := 0x02800.
Definition E1000_RDBAH : Z := 0x02804.
Definition E1000_RDLEN : Z := 0x02808.
Definition E1000_RDH : Z := 0x02810.
Definition E1000_RDT : Z := 0x02818.
Definition E1000_TCTL : Z := 0x00400.
Definition E1000_TIPG : Z := 0x00410.
Definition E1000_RCTL : Z := 0x00100.

Definition E1000_TCTL_CT_SET (v : Z) : Z := Z.land (Z.shiftl v 4) 0x00000ff0.
Definition E1000_TCTL_COLD_SET (v : Z) : Z := Z.land (Z.shiftl v 12) 0x003ff000.
Definition E1000_TIPG_IPGT_SET (v : Z) : Z := Z.land v 0x000003ff.
Definition E1000_TIPG_IPGR1_SET (v : Z) : Z := Z.land (Z.shiftl v 10) 0x000ffc00.
Definition E1000_TIPG_IPGR2_SET (v : Z) : Z := Z.land (Z.shiftl v 20) 0x3ff00000.

Definition E1000_TDESC_STATUS_DONE (status : Z) : bool := negb (Z.land status 1 =? 0).
Definition E1000_RXD_STAT_DD : Z := 1.
Definition E1000_RXD_STAT_EOP : Z := 2.

(** What the device does to the rings and the memory: at the write of a value to a
    register, and during one port read. *)
Class E1000Device (H : Type) `{!Machine H} := {
  dev_kick : Z → Z → H → list e1000_tbd → list e1000_rbd → mem →
             H * list e1000_tbd * list e1000_rbd * mem;
  dev_poll : H → list e1000_tbd → list e1000_rbd → mem →
             H * list e1000_tbd * list e1000_rbd * mem
}.

(** struct nic_device; the function pointers are null or the driver's. *)
Record nic_device (K : Type) := NicDevice {
  nic_mac : list Z;
  send_packet : option (Z → Z → M K unit);
  recv_packet : option (Z → M K Z)
}.
Arguments NicDevice {K} _ _ _.
Arguments nic_mac {K} _.
Arguments send_packet {K} _.
Arguments recv_packet {K} _.

(** The machine, the kernel's memory and the driver. *)
Record netst (H : Type) := NetSt { n_irq : irqst H; n_km : kmst; n_drv : e1000 }.
Arguments NetSt {H} _ _ _.
Arguments n_irq {H} _.
Arguments n_km {H} _.
Arguments n_drv {H} _.

Section e1000.
Context {H : Type} `{!Machine H, !E1000Device H}.
Implicit Types (n : netst H).

Definition n_hw n : H := iq_hw (n_irq n).
Definition n_mem n : mem := km_mem (n_km n).
Definition set_irq q n : netst H := NetSt q (n_km n) (n_drv n).
Definition set_hw h n : netst H := NetSt (IrqSt h (irqmask (n_irq n))) (n_km n) (n_drv n).
Definition set_km k n : netst H := NetSt (n_irq n) k (n_drv n).
Definition set_mem m n : netst H :=
  NetSt (n_irq n) (KmSt m (use_lock (n_km n)) (freelist (n_km n))) (n_drv n).
Definition set_drv (f : e1000 → e1000) n : netst H := NetSt (n_irq n) (n_km n) (f (n_drv n)).

Definition drv : M (netst H) e1000 := gets n_drv.
Definition nhw {A} (m : M H A) : M (netst H) A := zoom n_hw set_hw m.
Definition nkalloc : M (netst H) Z := zoom n_km set_km kalloc.

(** The device acts on the whole state. *)
Definition on_device (act : H → list e1000_tbd → list e1000_rbd → mem →
    H * list e1000_tbd * list e1000_rbd * mem) n : netst H :=
  let '(h, t, r, m) := act (n_hw n) (tbd (n_drv n)) (rbd (n_drv n)) (n_mem n) in
  set_drv (λ d, set_rbd r (set_tbd t d)) (set_mem m (set_hw h n)).

(** The store to a register, and what the device does at it. *)
Definition tell_device (a v : Z) n : netst H :=
  on_device (λ h, dev_kick (u32 a) (u32 v) (hw_write (u32 a) (u32 v) h)) n.
Definition e1000_reg_write (reg_addr value : Z) : M (netst H) unit :=
  d ← drv; modify (tell_device (membase d + reg_addr) value).
Definition e1000_reg_read (reg_addr : Z) : M (netst H) Z :=
  d ← drv; nhw (mmio_read (membase d + reg_addr)).

(** The device works while the processor reads port 0x84. *)
Definition poll_device n : netst H := on_device dev_poll n.

Definition udelay (u : Z) : M (netst H) unit :=
  for_each (seqZ 0 u) (λ _, nhw (inb 0x84);; modify poll_device).

(** Change descriptor [i]. *)
Definition upd_tbd (i : Z) (f : e1000_tbd → e1000_tbd) : M (netst H) unit :=
  modify (set_drv (λ d, set_tbd (setZ (tbd d) i (f (getZ (tbd d) i))) d)).
Definition upd_rbd (i : Z) (f : e1000_rbd → e1000_rbd) : M (netst H) unit :=
  modify (set_drv (λ d, set_rbd (setZ (rbd d) i (f (getZ (rbd d) i))) d)).

(** while(!E1000_TDESC_STATUS_DONE(...)) udelay(2); *)
Fixpoint send_wait (fuel : nat) (oldtail : Z) : M (netst H) unit :=
  match fuel with
  | O => no_fuel
  | S fuel =>
      d ← drv;
      if E1000_TDESC_STATUS_DONE (t_status (getZ (tbd d) oldtail)) then mret tt
      else udelay 2;; send_wait fuel oldtail
  end.

Definition e1000_send (fuel : nat) (pkt length : Z) : M (netst H) unit :=
  d ← drv;
  let t := tbd_tail d in
  let buf := getZ (tx_buf d) t in
  upd_tbd t (λ _, Tbd 0 0 0 0 0 0 0);;
  modify (λ n, set_mem (Kernel.memmove (n_mem n) buf pkt (Z.to_nat length)) n);;
  upd_tbd t (λ x, Tbd (V2P buf) (t_length x) (t_cso x) (t_cmd x) (t_status x) (t_css x) (t_special x));;
  upd_tbd t (λ x, Tbd (t_addr x) length (t_cso x) (t_cmd x) (t_status x) (t_css x) (t_special x));;
  upd_tbd t (λ x, Tbd (t_addr x) (t_length x) (t_cso x) 9 (t_status x) (t_css x) (t_special x));;
  upd_tbd t (λ x, Tbd (t_addr x) (t_length x) 0 (t_cmd x) (t_status x) (t_css x) (t_special x));;
  let oldtail := t in
  modify (set_drv (λ d, set_tails (tbd_head d) ((t + 1) mod E1000_SLOTS) (rbd_head d) (rbd_tail d) d));;
  d ← drv;
  e1000_reg_write E1000_TDT (tbd_tail d);;
  send_wait fuel oldtail.

(** The result is the length stored through the last argument. *)
Definition e1000_recv (pkt : Z) : M (netst H) Z :=
  d ← drv;
  let i := (rbd_tail d + 1) mod E1000_SLOTS in
  let r := getZ (rbd d) i in
  if (Z.land (r_status r) E1000_RXD_STAT_DD =? 0) || (Z.land (r_status r) E1000_RXD_STAT_EOP =? 0)
  then mret 0
  else
    let length := r_length r in
    modify (λ n, set_mem (Kernel.memmove (n_mem n) pkt (P2V (u32 (r_addr r))) (Z.to_nat length)) n);;
    upd_rbd i (λ x, Rbd (r_addr x) (r_length x) (r_checksum x) 0 (r_errors x) (r_special x));;
    modify (set_drv (λ d, set_tails (tbd_head d) (tbd_tail d) (rbd_head d) i d));;
    mret length.

(** The loop of e1000_init over the base address registers. *)
Fixpoint init_bars (bases sizes : list Z) : M (netst H) unit :=
  match bases, sizes with
  | base :: bases, size :: sizes =>
      if base <=? 0xffff then
        modify (set_drv (λ d, set_bases base (membase d) (e_irq_line d) d));;
        panic_if (negb (size =? 64)) "I/O space BAR size != 64"
      else
        modify (set_drv (λ d, set_bases (iobase d) base (e_irq_line d) d));;
        panic_if (negb (size =? Z.shiftl 1 17)) "Mem space BAR size != 128KB";;
        init_bars bases sizes
  | _, _ => mret tt
  end.

(** The struct starts as whatever the page held. The result carries the bytes
    stored at mac_addr, eight of them. *)
Definition e1000_init (pcif : pci_func) : M (netst H) (Z * list Z) :=
  the_e1000 ← nkalloc;
  init_bars (reg_base pcif) (reg_size pcif);;
  d ← drv;
  panic_if (iobase d =? 0) "Fail to find a valid I/O port base for E1000.";;
  panic_if (membase d =? 0) "Fail to find a valid Mem I/O base for E1000.";;
  modify (set_drv (λ d, set_bases (iobase d) (membase d) (irq_line pcif) d));;
  modify (set_drv (set_tails 0 0 0 0));;
  macaddr_l ← e1000_reg_read E1000_RCV_RAL0;
  macaddr_h ← e1000_reg_read E1000_RCV_RAH0;
  modify (set_drv (set_mac (le_bytes 4 macaddr_l ++ le_bytes 2 macaddr_h)));;
  let mac_addr := le_bytes 4 macaddr_l ++ le_bytes 4 (u16 macaddr_h) in
  ttmp ← nkalloc;
  modify (set_drv (set_tbd_base ttmp));;
  for_each (seqZ 0 E1000_SLOTS) (λ i, upd_tbd i (λ _, Tbd 0 0 0 0 1 0 0));;
  if negb (Z.land (V2P ttmp) 0xf =? 0) then mret (-1, mac_addr) else
  rtmp ← nkalloc;
  modify (set_drv (set_rbd_base rtmp));;
  for_each (seqZ 0 E1000_SLOTS) (λ i,
    upd_rbd i (λ x, Rbd (r_addr x) (r_length x) 0 0 0 (r_special x)));;
  if negb (Z.land (V2P rtmp) 0xf =? 0) then mret (-1, mac_addr) else
  for_each (seqZ 0 (E1000_SLOTS / 2)) (λ j,
    tmp ← nkalloc;
    modify (set_drv (λ d, set_tx_buf (setZ (tx_buf d) (2 * j) tmp) d));;
    modify (set_drv (λ d, set_tx_buf (setZ (tx_buf d) (2 * j + 1) (tmp + 2046)) d)));;
  e1000_reg_write E1000_TDBAL (V2P ttmp);;
  e1000_reg_write E1000_TDBAH 0;;
  e1000_reg_write E1000_TDLEN (E1000_SLOTS * 16);;
  e1000_reg_write E1000_TDH 0;;
  e1000_reg_write E1000_TCTL
    (Z.lor (Z.lor (Z.lor 0x2 0x8) (E1000_TCTL_CT_SET 0x0f)) (E1000_TCTL_COLD_SET 0x200));;
  e1000_reg_write E1000_TDT 0;;
  e1000_reg_write E1000_TIPG
    (Z.lor (Z.lor (E1000_TIPG_IPGT_SET 10) (E1000_TIPG_IPGR1_SET 10)) (E1000_TIPG_IPGR2_SET 10));;
  modify (set_drv (set_tails 0 0 0 (E1000_SLOTS - 1)));;
  e1000_reg_write E1000_RCV_RAL0 0x12005452;;
  e1000_reg_write E1000_RCV_RAH0 (Z.lor 0x5634 0x80000000);;
  e1000_reg_write E1000_RDBAL (V2P rtmp);;
  e1000_reg_write E1000_RDBAH 0;;
  e1000_reg_write E1000_RDLEN (E1000_SLOTS * 16);;
  for_each (seqZ 0 E1000_SLOTS) (λ i,
    tmp ← nkalloc;
    modify (set_drv (λ d, set_rx_buf (setZ (rx_buf d) i tmp) d));;
    upd_rbd i (λ x, Rbd (V2P (u32 (tmp + 4))) (r_length x) (r_checksum x) (r_status x) (r_errors x) (r_special x)));;
  e1000_reg_write E1000_RDT (E1000_SLOTS - 1);;
  e1000_reg_write E1000_RDH 0;;
  let rflag := Z.lor (Z.lor (Z.lor (Z.land 0x2 (Z.lnot 0xC00)) 0x8000) 0) 0x04000000 in
  e1000_reg_write E1000_RCTL rflag;;
  d ← drv;
  zoom n_irq set_irq (picenable (e_irq_line d));;
  nhw (ioapicenable (e_irq_line d) 0);;
  nhw (ioapicenable (e_irq_line d) 1);;
  mret (0, mac_addr).

(** *** nic.c, over the one-entry device table *)

Definition get_device (nd : nic_device (netst H)) : option (nic_device (netst H)) :=
  match send_packet nd, recv_packet nd with
  | Some _, Some _ => Some nd
  | _, _ => None
  end.

Definition register_device (nd : nic_device (netst H)) (table : nic_device (netst H)) :
    nic_device (netst H) := nd.

(** e1000_attach of pci.c: the return value, and the table entry it leaves. *)
Definition e1000_attach (fuel : nat) (pcif : pci_func) : M (netst H) (Z * nic_device (netst H)) :=
  pcif ← nhw (pci_func_enable pcif);
  let mac := fst (fillbuf (replicate 6 0) 0 0x563412005452 6) in
  r ← e1000_init pcif;
  mret (0, NicDevice (take 6 (splice mac 0 (snd r))) (Some (e1000_send fuel)) (Some e1000_recv)).

(** *** arp.c *)

(** The frame is on the stack, at [eth]. *)

Definition send_arpRequest (nd : nic_device (netst H)) (eth pad : Z) (ipAddr : list Z) :
    M (netst H) Z :=
  match get_device nd with
  | None => mret (-1)
  | Some nd =>
      match create_eth_arp_frame pad (nic_mac nd) ipAddr with
      | None => panic "undefined behaviour in get_ip"
      | Some e =>
          modify (λ n, set_mem (store_bytes (n_mem n) eth (eth_bytes e)) n);;
          match send_packet nd with
          | Some send => send eth (Z.of_nat (length (eth_bytes e)) - 2);; mret 0
          | None => panic "null function pointer"
          end
      end
  end.

(** send_icmpRequest of sysfile.c, with its packet counter [id]. *)
Definition send_icmpRequest (nd : nic_device (netst H)) (id : Z) (tarips : list Z) (type code : Z) :
    M (netst H) Z :=
  buffer ← nkalloc;
  n ← gets (λ n : netst H, n_mem n);
  match icmp_request (bytes_at n buffer 4096) id tarips type code with
  | None => panic "undefined behaviour in getIP"
  | Some (p, pos) =>
      modify (λ n, set_mem (store_bytes (n_mem n) buffer p) n);;
      match get_device nd with
      | None => mret (-1)
      | Some nd =>
          match send_packet nd with
          | Some send => send buffer pos;; mret 0
          | None => panic "null function pointer"
          end
      end
  end.

(** The receive loop of sys_arp: up to 65535 polls; the result is the length
    of the packet received, 0 if none came. *)
Fixpoint arp_poll (tries : nat) (p : Z) : M (netst H) Z :=
  match tries with
  | O => mret 0
  | S tries =>
      length ← e1000_recv p;
      if negb (length =? 0) then mret length else arp_poll tries p
  end.

(** sys_arp after its arguments were fetched: the return value, and the bytes of
    the received packet. *)
Definition sys_arp (nd : nic_device (netst H)) (eth pad : Z) (ipAddr : list Z) :
    M (netst H) (Z * list Z) :=
  r ← send_arpRequest nd eth pad ipAddr;
  if r <? 0 then mret (-1, [])
  else
    p ← nkalloc;
    length ← arp_poll (Z.to_nat 65535) p;
    m ← gets (λ n : netst H, n_mem n);
    mret (0, bytes_at m p (Z.to_nat length)).

Definition sys_icmptest (nd : nic_device (netst H)) (id : Z) : M (netst H) Z :=
  r ← send_icmpRequest nd id (codes "10.0.2.2") 8 0;
  if r <? 0 then mret (-1) else mret 0.

(** The two registers it prints, and the packet. *)
Definition sys_checknic : M (netst H) (Z * Z * list Z) :=
  head ← e1000_reg_read E1000_RDH;
  tail ← e1000_reg_read E1000_RDT;
  p ← nkalloc;
  length ← e1000_recv p;
  m ← gets (λ n : netst H, n_mem n);
  mret (head, tail, bytes_at m p (Z.to_nat length)).

(** ** Transmission *)

Implicit Types (m : mem).

(** udelay never fails; [waits k n] is the state after [k] rounds of the loop
    that waits for the device. *)
Lemma udelay_total u n : ∃ n', udelay u n = Ok tt n'.
Proof.
  unfold udelay. generalize (seqZ 0 u). intros l. revert n.
  induction l as [|x l IH]; intros n; [by exists n|]. cbn [for_each].
  assert (∃ n1, (nhw (inb 0x84);; modify poll_device) n = Ok tt n1) as (n1 & H1).
  { unfold nhw, zoom, inb, mbind, M_bind. destruct (hw_inb 0x84 (n_hw n)) as [v h]. by eexists. }
  rewrite (bind_run _ _ _ _ _ H1). apply IH.
Qed.

Definition wait1 n : netst H := match udelay 2 n with Ok _ n' => n' | _ => n end.
Fixpoint waits (k : nat) n : netst H :=
  match k with O => n | S k => waits k (wait1 n) end.

Definition tx_done (t : Z) n : bool := E1000_TDESC_STATUS_DONE (t_status (getZ (tbd (n_drv n)) t)).

Lemma send_wait_run fuel t k n :
  tx_done t (waits k n) = true → (∀ j, (j < k)%nat → tx_done t (waits j n) = false) →
  (k < fuel)%nat → send_wait fuel t n = Ok tt (waits k n).
Proof.
  revert k n. induction fuel as [|fuel IH]; intros k n Hk Hj Hf; [lia|].
  cbn [send_wait]. unfold drv. run. destruct k as [|k].
  - cbn [waits] in Hk |- *. unfold tx_done in Hk. by rewrite Hk.
  - pose proof (Hj 0%nat ltac:(lia)) as H0. cbn [waits] in H0. unfold tx_done in H0. rewrite H0.
    destruct (udelay_total 2 n) as (n1 & H1). rewrite (bind_run _ _ _ _ _ H1).
    assert (wait1 n = n1) as Hw by (unfold wait1; by rewrite H1).
    cbn [waits] in Hk |- *. rewrite Hw in *. apply IH; [done| |lia].
    intros j Hjk. specialize (Hj (S j) ltac:(lia)). cbn [waits] in Hj. by rewrite Hw in Hj.
Qed.

(** The state in which the new tail is given to the device, and the one after. *)
Definition filled n (pkt len : Z) : netst H :=
  let d := n_drv n in
  let t := tbd_tail d in
  let buf := getZ (tx_buf d) t in
  set_drv (λ d, set_tails (tbd_head d) ((t + 1) mod E1000_SLOTS) (rbd_head d) (rbd_tail d)
                  (set_tbd (setZ (tbd d) t (Tbd (V2P buf) len 0 9 0 0 0)) d))
    (set_mem (Kernel.memmove (n_mem n) buf pkt (Z.to_nat len)) n).
Definition handed n (pkt len : Z) : netst H :=
  tell_device (membase (n_drv n) + E1000_TDT) ((tbd_tail (n_drv n) + 1) mod E1000_SLOTS) (filled n pkt len).

(** Projections of updated states. *)
Tactic Notation "net_simpl" :=
  unfold set_tails, set_tbd, set_rbd, set_hw, set_drv, set_mem, n_hw, n_mem;
  cbn [n_irq n_km n_drv iq_hw irqmask km_mem use_lock freelist tbd tbd_base rbd rbd_base
       tx_buf rx_buf tbd_head tbd_tail rbd_head rbd_tail iobase membase e_irq_line e_mac_addr].
Tactic Notation "net_simpl" "in" hyp(H) :=
  unfold set_tails, set_tbd, set_rbd, set_hw, set_drv, set_mem, n_hw, n_mem in H;
  cbn [n_irq n_km n_drv iq_hw irqmask km_mem use_lock freelist tbd tbd_base rbd rbd_base
       tx_buf rx_buf tbd_head tbd_tail rbd_head rbd_tail iobase membase e_irq_line e_mac_addr] in H.

Lemma upd_tbd_run {B} i f (k : unit → M (netst H) B) n :
  (upd_tbd i f ≫= k) n = k tt (set_drv (λ d, set_tbd (setZ (tbd d) i (f (getZ (tbd d) i))) d) n).
Proof. done. Qed.

Lemma getZ_setZ_eq {A} `{!Inhabited A} (l : list A) i x :
  (Z.to_nat i < length l)%nat → getZ (setZ l i x) i = x.
Proof. intros. unfold getZ, setZ. by apply list_lookup_total_insert_eq. Qed.

Lemma setZ_setZ {A} (l : list A) i x y : setZ (setZ l i x) i y = setZ l i y.
Proof. apply list_insert_insert_eq. Qed.

(** Two changes of one descriptor are one. *)
Lemma upd_tbd_fuse {B} i f g (k : unit → M (netst H) B) n :
  (Z.to_nat i < length (tbd (n_drv n)))%nat →
  (upd_tbd i f ≫= λ _, upd_tbd i g ≫= k) n = (upd_tbd i (λ x, g (f x)) ≫= k) n.
Proof.
  intros Hi. rewrite !upd_tbd_run. f_equal. unfold set_drv. cbn [n_drv n_irq n_km]. f_equal.
  unfold set_tbd. cbn [tbd tbd_base rbd rbd_base tx_buf rx_buf tbd_head tbd_tail rbd_head rbd_tail
    iobase membase e_irq_line e_mac_addr]. by rewrite getZ_setZ_eq, setZ_setZ.
Qed.

Lemma e1000_send_run fuel n pkt len k :
  let t := tbd_tail (n_drv n) in
  (Z.to_nat t < length (tbd (n_drv n)))%nat →
  tx_done t (waits k (handed n pkt len)) = true →
  (∀ j, (j < k)%nat → tx_done t (waits j (handed n pkt len)) = false) → (k < fuel)%nat →
  e1000_send fuel pkt len n = Ok tt (waits k (handed n pkt len)).
Proof.
  intros t Ht Hk Hj Hf. rewrite <-(send_wait_run fuel t k (handed n pkt len)) by done.
  unfold e1000_send, drv. run. fold t. rewrite upd_tbd_run. run.
  do 3 rewrite upd_tbd_fuse by (cbn; unfold setZ; by rewrite length_insert).
  rewrite upd_tbd_run. cbn [t_addr t_length t_cso t_cmd t_status t_css t_special]. run.
  unfold e1000_reg_write, drv. run. f_equal. clear Hk Hj Hf. unfold handed.
  destruct n as [[h im] km d]. unfold filled. destruct d. subst t. net_simpl in Ht. net_simpl.
  rewrite getZ_setZ_eq, setZ_setZ by exact Ht. cbn [t_addr t_length t_cso t_cmd t_status t_css t_special].
  done.
Qed.

(** C21. e1000_send gives the packet to the device, whatever the device does when it
    is told. At the moment the tail register is written, and with it the next slot,
    modulo the ring, the descriptor at the old tail points to the slot's buffer, has
    the packet's length and the end-of-packet and report-status command, and a
    clear status; the buffer holds the packet's bytes as they were; no other
    byte of memory, no other descriptor, and nothing of the machine has changed. The
    register is written once, and nothing else is done to the device but waiting: the
    call returns as soon as the device has reported the descriptor done, whenever that
    is. *)
Theorem e1000_send_correct fuel n pkt len k :
  let d := n_drv n in
  let t := tbd_tail d in
  let buf := getZ (tx_buf d) t in
  let n0 := filled n pkt len in
  let n1 := tell_device (membase d + 0x3818) ((t + 1) mod 128) n0 in
  mem_ok (n_mem n) → length (tbd d) = 128%nat → 0 <= t < 128 → 0 <= len →
  tx_done t (waits k n1) = true → (∀ j, (j < k)%nat → tx_done t (waits j n1) = false) →
  (k < fuel)%nat →
  e1000_send fuel pkt len n = Ok tt (waits k n1) ∧
  n_irq n0 = n_irq n ∧ rbd (n_drv n0) = rbd d ∧ tbd_tail (n_drv n0) = (t + 1) mod 128 ∧
  (∀ i, 0 <= i < 128 → getZ (tbd (n_drv n0)) i =
     if decide (i = t) then Tbd (V2P buf) len 0 9 0 0 0 else getZ (tbd d) i) ∧
  (∀ x, n_mem n0 x = if decide (buf <= x < buf + len) then n_mem n (pkt + (x - buf)) else n_mem n x).
Proof.
  intros d t buf n0 n1 Hm Hl Ht Hlen Hk Hj Hf. split_and!; [|done|done|done|..].
  - apply e1000_send_run; [|done..]. fold d t. rewrite Hl. lia.
  - intros i Hi. unfold n0, filled. simpl. fold d t buf. unfold getZ, setZ. case_decide as Hit.
    + subst i. apply list_lookup_total_insert_eq. lia.
    + apply list_lookup_total_insert_ne. lia.
  - intros x. unfold n0, filled. fold d t buf. net_simpl.
    rewrite KernelSpec.memmove_eq by done. rewrite Z2Nat.id by done. done.
Qed.

(** ** Reception *)

(** C22. e1000_recv takes packets in ring order: when the descriptor after the
    last one taken is complete, its length is returned, the packet's bytes are
    copied out, its status is cleared and it becomes the last one taken;
    otherwise 0 is returned and nothing changes. No device register is written:
    the driver never gives a descriptor back to the device. *)
Theorem e1000_recv_correct n pkt :
  let d := n_drv n in
  let i := (rbd_tail d + 1) mod 128 in
  let r := getZ (rbd d) i in
  mem_ok (n_mem n) → length (rbd d) = 128%nat → 0 <= r_length r →
  ∃ len n', e1000_recv pkt n = Ok len n' ∧ n_irq n' = n_irq n ∧
    if decide (Z.land (r_status r) 1 ≠ 0 ∧ Z.land (r_status r) 2 ≠ 0) then
      len = r_length r ∧ rbd_tail (n_drv n') = i ∧ r_status (getZ (rbd (n_drv n')) i) = 0 ∧
      (∀ j, 0 <= j < 128 → j ≠ i → getZ (rbd (n_drv n')) j = getZ (rbd d) j) ∧
      (∀ x, n_mem n' x = if decide (pkt <= x < pkt + len)
                         then n_mem n (P2V (u32 (r_addr r)) + (x - pkt)) else n_mem n x)
    else len = 0 ∧ n' = n.
Proof.
  intros d i r Hm Hl Hr. unfold e1000_recv, drv. run. fold d. unfold E1000_SLOTS. fold i r.
  unfold E1000_RXD_STAT_DD, E1000_RXD_STAT_EOP.
  assert (0 <= i < 128) as Hi by (apply Z.mod_pos_bound; lia).
  destruct (decide (Z.land (r_status r) 1 ≠ 0 ∧ Z.land (r_status r) 2 ≠ 0)) as [[H1 H2]|Hn].
  - rewrite (proj2 (Z.eqb_neq _ _) H1), (proj2 (Z.eqb_neq _ _) H2). simpl.
    do 2 eexists. split; [done|]. split_and!; [done..| | |].
    + simpl. fold d. unfold getZ, setZ. by rewrite list_lookup_total_insert_eq by lia.
    + intros j Hj Hne. simpl. fold d. unfold getZ, setZ. rewrite list_lookup_total_insert_ne; [done|lia].
    + intros x. net_simpl. rewrite KernelSpec.memmove_eq by done. by rewrite Z2Nat.id.
  - exists 0, n. split_and!; try done.
    destruct (Z.eqb_spec (Z.land (r_status r) 1) 0); simpl; [done|].
    destruct (Z.eqb_spec (Z.land (r_status r) 2) 0); simpl; [done|naive_solver].
Qed.

(** ** The ARP request on the wire *)

Lemma bytes_at_stored m m' buf pkt (l l' : list Z) :
  (∀ x, m' x = if decide (buf <= x < buf + Z.of_nat (length l)) then store_bytes m pkt (l ++ l') (pkt + (x - buf))
               else store_bytes m pkt (l ++ l') x) →
  Forall is_u8 l → bytes_at m' buf (length l) = l.
Proof.
  intros Hm Hl. apply list_eq. intros i. destruct (decide (i < length l)%nat) as [Hi|Hi].
  - rewrite lookup_bytes_at by done. rewrite Hm, decide_True by lia.
    rewrite store_bytes_spec, length_app, decide_True by lia.
    replace (pkt + (buf + Z.of_nat i - buf) - pkt) with (Z.of_nat i) by lia.
    unfold getZ. rewrite Nat2Z.id, lookup_total_app_l by done.
    pose proof (list_lookup_lookup_total_lt l i Hi) as Hli. rewrite Hli. f_equal.
    apply u8_small. rewrite Forall_lookup in Hl. by apply (Hl i).
  - rewrite !lookup_ge_None_2; [done|lia|]. rewrite length_bytes_at. lia.
Qed.

(** send_arpRequest puts the broadcast ARP request of RFC 826 for the given
    address on the wire: when the device is told to send, the buffer that the
    descriptor points to holds, byte for byte, the 42-byte frame from the
    device's MAC address and 10.0.2.15, all 16-bit fields in network byte order,
    and the descriptor's length is 42. *)
Theorem send_arpRequest_correct fuel n nd eth pad a b c d k recv :
  let t := tbd_tail (n_drv n) in
  let frame := arp_request (nic_mac nd) a b c d in
  let n0 := set_mem (store_bytes (n_mem n) eth (frame ++ le_bytes 2 pad)) n in
  let n1 := handed n0 eth 42 in
  let n2 := filled n0 eth 42 in
  mem_ok (n_mem n) → length (tbd (n_drv n)) = 128%nat → 0 <= t < 128 →
  length (nic_mac nd) = 6%nat → Forall is_u8 (nic_mac nd) →
  is_u8 a → is_u8 b → is_u8 c → is_u8 d →
  send_packet nd = Some (e1000_send fuel) → recv_packet nd = Some recv →
  tx_done t (waits k n1) = true → (∀ j, (j < k)%nat → tx_done t (waits j n1) = false) →
  (k < fuel)%nat →
  send_arpRequest nd eth pad (dotted a b c d) n = Ok 0 (waits k n1) ∧
  n1 = tell_device (membase (n_drv n) + 0x3818) ((t + 1) mod 128) n2 ∧
  bytes_at (n_mem n2) (getZ (tx_buf (n_drv n2)) t) 42 = frame ∧
  getZ (tbd (n_drv n2)) t = Tbd (V2P (getZ (tx_buf (n_drv n2)) t)) 42 0 9 0 0 0.
Proof.
  intros t frame n0 n1 n2 Hm Hl Ht Hmac Hu8 Ha Hb Hc Hd Hsend Hrecv Hk Hj Hf.
  destruct (create_eth_arp_frame_rfc826 pad (nic_mac nd) a b c d) as (e & He & Hlen & Hfr & Hpad);
    [done..|]. fold frame in Hfr.
  assert (eth_bytes e = frame ++ le_bytes 2 pad) as Hbytes.
  { by rewrite <-(take_drop 42 (eth_bytes e)), Hfr, Hpad. }
  assert (length frame = 42%nat) as Hfl.
  { rewrite <-Hfr, length_take, Hlen. done. }
  split_and!.
  - unfold send_arpRequest, get_device. rewrite Hsend, Hrecv, He. run. rewrite Hsend, Hlen, Hbytes.
    fold n0. change (Z.of_nat 44 - 2) with 42.
    by rewrite (bind_run _ _ _ _ _ (e1000_send_run fuel n0 eth 42 k ltac:(simpl; lia) Hk Hj Hf)).
  - done.
  - unfold n2, filled, n0. fold t. net_simpl. rewrite <-Hfl.
    apply (bytes_at_stored (km_mem (n_km n)) _ _ eth frame (le_bytes 2 pad)).
    + intros x. rewrite Hfl. rewrite KernelSpec.memmove_eq; [done|]. intros y. rewrite store_bytes_spec.
      case_decide; [apply u8_range|apply Hm].
    + unfold frame, arp_request. repeat (apply Forall_app; split); try done;
        repeat (apply Forall_cons; split; [unfold is_u8 in *; lia|]); apply Forall_nil_2.
  - unfold n2, filled. simpl. fold t. rewrite getZ_setZ_eq by lia. done.
Qed.

End e1000.

(** ** A device that takes packets when it is told, and completes them while it is waited for

    At a write of the tail it takes the descriptors that have a length then, which
    it notes in their last field. *)

Definition take_tbd (x : e1000_tbd) : e1000_tbd :=
  if t_length x =? 0 then x
  else Tbd (t_addr x) (t_length x) (t_cso x) (t_cmd x) (t_status x) (t_css x) 1.
Definition done_tbd (x : e1000_tbd) : e1000_tbd :=
  if t_special x =? 1 then Tbd (t_addr x) (t_length x) (t_cso x) (t_cmd x) 1 (t_css x) (t_special x) else x.
#[export] Instance trace_device : E1000Device trace := {
  dev_kick := λ a v h t r m, (h, if a mod 2 ^ 17 =? E1000_TDT then take_tbd <$> t else t, r, m);
  dev_poll := λ h t r m, (h, done_tbd <$> t, r, m)
}.

Definition drv_ex : e1000 := E1000 (replicate 128 (Tbd 0 0 0 0 1 0 0)) 0x80200000
  (replicate 128 (Rbd 0 60 0 3 0 0)) 0x80201000 ((λ i, 0x80300000 + 4096 * i) <$> seqZ 0 128)
  ((λ i, 0x80400000 + 4096 * i) <$> seqZ 0 128) 0 127 0 126 0xc000 0xfebc0000 11 [0x52; 0x54; 0; 0x12; 0x34; 0x56].
Definition net_ex : netst trace :=
  NetSt (IrqSt (Trace [] (λ _, 0) (λ _, 0)) 0) (KmSt mem0 false 0) drv_ex.
Definition nic_ex : nic_device (netst trace) :=
  NicDevice [0x52; 0x54; 0; 0x12; 0x34; 0x56] (Some (e1000_send 3)) (Some e1000_recv).

Lemma e1000_send_correct_witness : ∃ n', e1000_send 3 0x80500000 60 net_ex = Ok tt n' ∧
  tr_log (n_hw n') = [Mmio (0xfebc0000 + 0x3818) 0].
Proof.
  destruct (e1000_send_correct 3 net_ex 0x80500000 60 1) as (Hrun & _);
    [apply mem0_ok|done|simpl; lia|lia|by vm_compute| |lia|].
  - intros j Hj. replace j with 0%nat by lia. by vm_compute.
  - eexists. split; [exact Hrun|]. by vm_compute.
Defined.

Lemma e1000_recv_correct_witness : ∃ n', e1000_recv 0x80500000 net_ex = Ok 60 n' ∧
  rbd_tail (n_drv n') = 127.
Proof.
  destruct (e1000_recv_correct net_ex 0x80500000) as (len & n' & Hrun & _ & Hpost);
    [apply mem0_ok|done|by vm_compute|].
  rewrite decide_True in Hpost by (split; by vm_compute).
  destruct Hpost as (-> & Ht & _). exists n'. by split.
Defined.

Lemma send_arpRequest_correct_witness :
  ∃ n', send_arpRequest nic_ex 0x80600000 0 (dotted 10 0 2 2) net_ex = Ok 0 n'.
Proof.
  destruct (send_arpRequest_correct 3 net_ex nic_ex 0x80600000 0 10 0 2 2 1 e1000_recv) as (Hrun & _).
  - apply mem0_ok.
  - by vm_compute.
  - vm_compute. by split.
  - by vm_compute.
  - repeat (apply Forall_cons; split; [unfold is_u8; lia|]). apply Forall_nil_2.
  - unfold is_u8; lia.
  - unfold is_u8; lia.
  - unfold is_u8; lia.
  - unfold is_u8; lia.
  - reflexivity.
  - reflexivity.
  - by vm_compute.
  - intros j Hj. replace j with 0%nat by lia. by vm_compute.
  - lia.
  - eexists. exact Hrun.
Defined.
