(* ===== verification/Spinlock.v ===== *)
(** * Spin locks and interrupt masking (spinlock.c; mycpu and cpuid of proc.c)

    The CPUs and the locks of the kernel. An operation is run by the CPU [me],
    the index of its entry in cpus[]. [Blocked] is the loop of acquire while
    another CPU holds the lock: the state is left with interrupts off. The
    name and the pcs of a lock are for debugging and are left out. *)

From S2P Require Import Prelude.

(** struct cpu, with the interrupt flag of the processor's eflags. *)
Record cpu := Cpu {
  c_apicid : Z; c_if : bool; c_ncli : Z; c_intena : bool; c_proc : option nat
}.
Record spinlock := Spinlock { lk_locked : bool; lk_cpu : option nat }.
Record mach := Mach { m_cpus : list cpu; m_locks : list spinlock }.

Definition cpu0 : cpu := Cpu 0 false 0 false None.
#[export] Instance cpu_inhabited : Inhabited cpu := populate cpu0.
#[export] Instance spinlock_inhabited : Inhabited spinlock := populate (Spinlock false None).

Definition set_if v (c : cpu) := Cpu (c_apicid c) v (c_ncli c) (c_intena c) (c_proc c).
Definition set_ncli v (c : cpu) := Cpu (c_apicid c) (c_if c) v (c_intena c) (c_proc c).
Definition set_intena v (c : cpu) := Cpu (c_apicid c) (c_if c) (c_ncli c) v (c_proc c).
Definition set_cproc v (c : cpu) := Cpu (c_apicid c) (c_if c) (c_ncli c) (c_intena c) v.

Definition cpu_of (i : nat) (m : mach) : cpu := m_cpus m !!! i.
Definition lock_of (lk : nat) (m : mach) : spinlock := m_locks m !!! lk.
Definition on_cpu (i : nat) (f : cpu → cpu) (m : mach) : mach :=
  Mach (alter f i (m_cpus m)) (m_locks m).
Definition on_lock (lk : nat) (v : spinlock) (m : mach) : mach :=
  Mach (m_cpus m) (<[lk := v]> (m_locks m)).

Section ops.
Variable me : nat.

Definition readeflags : M mach bool := gets (λ m, c_if (cpu_of me m)).
Definition cli : M mach unit := modify (on_cpu me (set_if false)).
Definition sti : M mach unit := modify (on_cpu me (set_if true)).
Definition lapicid : M mach Z := gets (λ m, c_apicid (cpu_of me m)).

Definition mycpu : M mach nat :=
  fl ← readeflags;
  panic_if fl "mycpu called with interrupts enabled";;
  apicid ← lapicid;
  cs ← gets m_cpus;
  match list_find (λ c, c_apicid c = apicid) cs with
  | Some (i, _) => mret i
  | None => panic "unknown apicid"
  end.

Definition cpuid : M mach nat := mycpu.

Definition initlock (lk : nat) : M mach unit := modify (on_lock lk (Spinlock false None)).

Definition pushcli : M mach unit :=
  fl ← readeflags;
  cli;;
  c ← mycpu;
  n ← gets (λ m, c_ncli (cpu_of c m));
  (if n =? 0 then c ← mycpu; modify (on_cpu c (set_intena fl)) else mret tt);;
  c ← mycpu;
  modify (on_cpu c (λ c, set_ncli (c_ncli c + 1) c)).

Definition popcli : M mach unit :=
  fl ← readeflags;
  panic_if fl "popcli - interruptible";;
  c ← mycpu;
  modify (on_cpu c (λ c, set_ncli (c_ncli c - 1) c));;
  n ← gets (λ m, c_ncli (cpu_of c m));
  panic_if (n <? 0) "popcli";;
  c ← mycpu;
  n ← gets (λ m, c_ncli (cpu_of c m));
  if n =? 0 then
    c ← mycpu;
    ena ← gets (λ m, c_intena (cpu_of c m));
    if ena : bool then sti else mret tt
  else mret tt.

Definition holding (lk : nat) : M mach bool :=
  l ← gets (lock_of lk);
  if lk_locked l then c ← mycpu; mret (bool_decide (lk_cpu l = Some c)) else mret false.

Definition acquire (lk : nat) : M mach unit :=
  pushcli;;
  h ← holding lk;
  panic_if h "acquire";;
  l ← gets (lock_of lk);
  if lk_locked l then blocked
  else
    modify (on_lock lk (Spinlock true (lk_cpu l)));;
    c ← mycpu;
    modify (on_lock lk (Spinlock true (Some c))).

Definition release (lk : nat) : M mach unit :=
  h ← holding lk;
  panic_if (negb h) "release";;
  modify (on_lock lk (Spinlock true None));;
  modify (on_lock lk (Spinlock false None));;
  popcli.
End ops.

(** ** The invariant *)

(** The locks that CPU [i] holds. *)
Definition held_by (i : nat) (m : mach) : list spinlock :=
  filter (λ l, lk_cpu l = Some i) (m_locks m).

(** [push i] is how many calls of pushcli on CPU [i] are still to be matched by
    a popcli, not counting those inside acquire. *)
Record mach_inv (m : mach) (push : nat → Z) : Prop := {
  mi_apic : NoDup (c_apicid <$> m_cpus m);
  mi_owner : ∀ lk l, m_locks m !! lk = Some l →
    match lk_cpu l with
    | Some i => lk_locked l = true ∧ (i < length (m_cpus m))%nat
    | None => lk_locked l = false
    end;
  mi_ncli : ∀ i c, m_cpus m !! i = Some c → 0 <= push i ∧
    c_ncli c = Z.of_nat (length (held_by i m)) + push i ∧ (0 < c_ncli c → c_if c = false)
}.

(** ** Running the operations *)

Lemma cpu_of_on i f m : (i < length (m_cpus m))%nat → cpu_of i (on_cpu i f m) = f (cpu_of i m).
Proof. apply list_lookup_total_alter_eq. Qed.
Lemma cpu_of_on_ne i j f m : i ≠ j → cpu_of j (on_cpu i f m) = cpu_of j m.
Proof. intros. by apply list_lookup_total_alter_ne. Qed.
Lemma cpu_of_lookup i m : (i < length (m_cpus m))%nat → m_cpus m !! i = Some (cpu_of i m).
Proof. intros. by apply list_lookup_lookup_total_lt. Qed.
Lemma on_cpu_on i f g m : on_cpu i f (on_cpu i g m) = on_cpu i (f ∘ g) m.
Proof. unfold on_cpu. simpl. by rewrite list_alter_alter_eq. Qed.
Lemma on_cpu_ext i f g m :
  (i < length (m_cpus m))%nat → f (cpu_of i m) = g (cpu_of i m) → on_cpu i f m = on_cpu i g m.
Proof.
  intros Hi H. unfold on_cpu. f_equal. apply list_alter_ext; [|done].
  intros x Hx. rewrite cpu_of_lookup in Hx by done. by simplify_eq.
Qed.
Lemma length_on_cpu i f m : length (m_cpus (on_cpu i f m)) = length (m_cpus m).
Proof. apply length_alter. Qed.
Lemma apic_on_cpu i f m :
  (∀ c, c_apicid (f c) = c_apicid c) → c_apicid <$> m_cpus (on_cpu i f m) = c_apicid <$> m_cpus m.
Proof.
  intros H. simpl. rewrite (list_fmap_alter _ f id); [by apply list_alter_id|].
  apply Forall_true. intros. apply H.
Qed.

(** A CPU of the machine, with interrupts off. *)
Definition cpu_ok me m : Prop := (me < length (m_cpus m))%nat ∧ NoDup (c_apicid <$> m_cpus m).

Lemma cpu_ok_on me i f m : (∀ c, c_apicid (f c) = c_apicid c) → cpu_ok me m → cpu_ok me (on_cpu i f m).
Proof. intros Hf [? ?]. split; [by rewrite length_on_cpu|by rewrite apic_on_cpu]. Qed.

Lemma mycpu_run me m : cpu_ok me m → c_if (cpu_of me m) = false → mycpu me m = Ok me m.
Proof.
  intros [Hi Hnd] Hif. unfold mycpu, readeflags, lapicid. run. rewrite Hif, run_panic_if by done. run.
  destruct (list_find _ _) as [[i c]|] eqn:E.
  - apply list_find_Some in E as (Hc & Heq & _). unfold mret, M_ret. f_equal.
    eapply (NoDup_lookup _ i me (c_apicid c) Hnd); rewrite list_lookup_fmap; [by rewrite Hc|].
    rewrite cpu_of_lookup by done. simpl. by rewrite Heq.
  - apply list_find_None in E. rewrite Forall_lookup in E.
    destruct (E me (cpu_of me m)); [by apply cpu_of_lookup|done].
Qed.

Lemma mycpu_bind {A} me m (k : nat → M mach A) :
  cpu_ok me m → c_if (cpu_of me m) = false → (mycpu me ≫= k) m = k me m.
Proof. intros. apply bind_run. by apply mycpu_run. Qed.

Definition pushed (c : cpu) : cpu :=
  Cpu (c_apicid c) false (c_ncli c + 1) (if c_ncli c =? 0 then c_if c else c_intena c) (c_proc c).
Definition popped (c : cpu) : cpu :=
  Cpu (c_apicid c) ((c_ncli c =? 1) && c_intena c) (c_ncli c - 1) (c_intena c) (c_proc c).

Lemma pushcli_run me m : cpu_ok me m → pushcli me m = Ok tt (on_cpu me pushed m).
Proof.
  intros Hok. pose proof Hok as [Hi _]. unfold pushcli, readeflags, cli. run.
  set (m1 := on_cpu me (set_if false) m). assert (cpu_ok me m1) as Hok1 by (by apply cpu_ok_on).
  assert (cpu_of me m1 = set_if false (cpu_of me m)) as H1 by (by apply cpu_of_on).
  rewrite mycpu_bind by (done || by rewrite H1). run. rewrite H1.
  change (c_ncli (set_if false (cpu_of me m))) with (c_ncli (cpu_of me m)).
  destruct (c_ncli (cpu_of me m) =? 0) eqn:E.
  - rewrite run_assoc, mycpu_bind by (done || by rewrite H1). run.
    rewrite mycpu_bind.
    + unfold modify, m1. rewrite !on_cpu_on. f_equal. apply on_cpu_ext; [done|].
      unfold pushed. by rewrite E.
    + by apply cpu_ok_on.
    + unfold m1. rewrite on_cpu_on, cpu_of_on; done.
  - run. rewrite mycpu_bind by (done || by rewrite H1).
    unfold modify, m1. rewrite !on_cpu_on. f_equal. apply on_cpu_ext; [done|].
    unfold pushed. by rewrite E.
Qed.

Lemma popcli_run me m :
  cpu_ok me m → c_if (cpu_of me m) = false → 0 < c_ncli (cpu_of me m) →
  popcli me m = Ok tt (on_cpu me popped m).
Proof.
  intros Hok Hif Hn. pose proof Hok as [Hi _]. unfold popcli, readeflags. run.
  rewrite Hif, run_panic_if by done. rewrite mycpu_bind by done. run.
  set (dec := λ c, set_ncli (c_ncli c - 1) c).
  set (m1 := on_cpu me dec m). assert (cpu_ok me m1) as Hok1 by (by apply cpu_ok_on).
  assert (cpu_of me m1 = dec (cpu_of me m)) as H1 by (by apply cpu_of_on).
  assert (c_if (cpu_of me m1) = false) as Hif1 by (by rewrite H1).
  rewrite run_panic_if by (apply Z.ltb_ge; rewrite H1; simpl; lia).
  rewrite mycpu_bind by done. run. rewrite H1. cbn [c_ncli dec set_ncli].
  destruct (Z.eqb_spec (c_ncli (cpu_of me m) - 1) 0) as [E|E].
  - rewrite mycpu_bind by done. run. rewrite H1. cbn [c_intena dec set_ncli].
    destruct (c_intena (cpu_of me m)) eqn:Hena; unfold sti, modify, mret, M_ret, m1;
      rewrite ?on_cpu_on; f_equal; apply on_cpu_ext; try done.
    + unfold popped, dec, set_ncli, set_if, compose. cbn [c_apicid c_if c_ncli c_intena c_proc].
      by rewrite Hena, (proj2 (Z.eqb_eq (c_ncli (cpu_of me m)) 1)) by lia.
    + unfold popped, dec, set_ncli. by rewrite Hena, Hif, andb_false_r.
  - unfold mret, M_ret, m1. f_equal. apply on_cpu_ext; [done|].
    unfold popped, dec, set_ncli. by rewrite Hif, (proj2 (Z.eqb_neq (c_ncli (cpu_of me m)) 1)) by lia.
Qed.

Lemma holding_run me lk m :
  cpu_ok me m → c_if (cpu_of me m) = false →
  holding me lk m = Ok (lk_locked (lock_of lk m) && bool_decide (lk_cpu (lock_of lk m) = Some me)) m.
Proof.
  intros Hok Hif. unfold holding. run. destruct (lk_locked (lock_of lk m)); [|done].
  by rewrite mycpu_bind.
Qed.

Lemma release_if me lk m :
  c_if (cpu_of me m) = true → lk_locked (lock_of lk m) = true →
  release me lk m = Panic "mycpu called with interrupts enabled" m.
Proof.
  intros Hif Hl. assert (holding me lk m = Panic "mycpu called with interrupts enabled" m) as H.
  { unfold holding, mycpu, readeflags. run. rewrite Hl. run. by rewrite Hif. }
  unfold release. unfold mbind at 1, M_bind at 1. by rewrite H.
Qed.

Lemma on_cpu_lock i f lk v m : on_lock lk v (on_cpu i f m) = on_cpu i f (on_lock lk v m).
Proof. done. Qed.

(** acquire of a lock that is free, that another CPU holds, and that this CPU
    holds. *)
Lemma acquire_run me lk m :
  cpu_ok me m →
  acquire me lk m =
    if lk_locked (lock_of lk m) then
      if bool_decide (lk_cpu (lock_of lk m) = Some me) then Panic "acquire" (on_cpu me pushed m)
      else Blocked (on_cpu me pushed m)
    else Ok tt (on_cpu me pushed (on_lock lk (Spinlock true (Some me)) m)).
Proof.
  intros Hok. pose proof Hok as [Hi _]. unfold acquire. rewrite (bind_run _ _ _ _ _ (pushcli_run me m Hok)).
  set (m1 := on_cpu me pushed m). assert (cpu_ok me m1) as Hok1 by (by apply cpu_ok_on).
  assert (c_if (cpu_of me m1) = false) as Hif1 by (unfold m1; by rewrite cpu_of_on).
  rewrite (bind_run _ _ _ _ _ (holding_run me lk m1 Hok1 Hif1)).
  change (lock_of lk m1) with (lock_of lk m).
  destruct (lk_locked (lock_of lk m)) eqn:E; cbn [andb].
  - case_bool_decide as Ho; [by rewrite run_panic_if_true|].
    rewrite run_panic_if by done. run. change (lock_of lk m1) with (lock_of lk m). by rewrite E.
  - rewrite run_panic_if by done. run. change (lock_of lk m1) with (lock_of lk m). rewrite E. run.
    rewrite mycpu_bind by done. unfold modify. unfold on_lock, on_cpu, m1; simpl.
    by rewrite list_insert_insert_eq.
Qed.

(** release by the holder, and by anyone else. *)
Lemma release_run me lk m :
  cpu_ok me m → c_if (cpu_of me m) = false → 0 < c_ncli (cpu_of me m) →
  lock_of lk m = Spinlock true (Some me) →
  release me lk m = Ok tt (on_cpu me popped (on_lock lk (Spinlock false None) m)).
Proof.
  intros Hok Hif Hn Hl. unfold release. rewrite (bind_run _ _ _ _ _ (holding_run me lk m Hok Hif)).
  rewrite Hl. cbn [lk_locked lk_cpu]. rewrite bool_decide_true, run_panic_if by done. run.
  rewrite popcli_run by done. f_equal. unfold on_cpu, on_lock; simpl. by rewrite list_insert_insert_eq.
Qed.

Lemma release_panics me lk m :
  cpu_ok me m → c_if (cpu_of me m) = false → lk_cpu (lock_of lk m) ≠ Some me →
  release me lk m = Panic "release" m.
Proof.
  intros Hok Hif Hl. unfold release. rewrite (bind_run _ _ _ _ _ (holding_run me lk m Hok Hif)).
  by rewrite (bool_decide_false _ Hl), andb_false_r, run_panic_if_true.
Qed.

(** ** Keeping the invariant *)

Lemma length_filter_insert {A} (P : A → Prop) `{∀ x, Decision (P x)} (l : list A) i x y :
  l !! i = Some x →
  (length (filter P (<[i := y]> l)) + (if decide (P x) then 1 else 0) =
   length (filter P l) + (if decide (P y) then 1 else 0))%nat.
Proof.
  intros Hx. pose proof (lookup_lt_Some _ _ _ Hx) as Hi.
  rewrite insert_take_drop by done. rewrite <-(take_drop_middle l i x Hx) at 3.
  rewrite !filter_app, !filter_cons, !length_app. repeat case_decide; simpl; lia.
Qed.

Lemma held_by_on_cpu i j f m : held_by i (on_cpu j f m) = held_by i m.
Proof. done. Qed.

Lemma held_by_on_lock i lk v m :
  (lk < length (m_locks m))%nat →
  (length (held_by i (on_lock lk v m)) + (if decide (lk_cpu (lock_of lk m) = Some i) then 1 else 0) =
   length (held_by i m) + (if decide (lk_cpu v = Some i) then 1 else 0))%nat.
Proof.
  intros Hlk.
  pose proof (length_filter_insert (λ l, lk_cpu l = Some i) (m_locks m) lk (lock_of lk m) v) as H.
  rewrite list_lookup_lookup_total_lt in H by done. specialize (H eq_refl).
  unfold held_by. cbn [on_lock m_locks]. repeat case_decide; done.
Qed.

Lemma lock_lookup lk m : (lk < length (m_locks m))%nat → m_locks m !! lk = Some (lock_of lk m).
Proof. intros. by apply list_lookup_lookup_total_lt. Qed.

Lemma mi_cpu_ok m push i : mach_inv m push → (i < length (m_cpus m))%nat → cpu_ok i m.
Proof. intros H Hi. split; [done|apply (mi_apic _ _ H)]. Qed.

(** A change of one CPU, and of the locks it owns. *)
Lemma mach_inv_cpu m push push' me f :
  mach_inv m push → (me < length (m_cpus m))%nat → (∀ c, c_apicid (f c) = c_apicid c) →
  (∀ i, i ≠ me → push' i = push i) → 0 <= push' me →
  c_ncli (f (cpu_of me m)) = Z.of_nat (length (held_by me m)) + push' me →
  (0 < c_ncli (f (cpu_of me m)) → c_if (f (cpu_of me m)) = false) →
  mach_inv (on_cpu me f m) push'.
Proof.
  intros [Ha Ho Hn] Hme Hf Hp H0 Hc Hi. split.
  - by rewrite apic_on_cpu.
  - intros lk l Hl. specialize (Ho lk l Hl). destruct (lk_cpu l); [|done]. by rewrite length_on_cpu.
  - intros i c Hic. destruct (decide (i = me)) as [->|Hne].
    + assert (c = f (cpu_of me m)) as ->.
      { rewrite <-cpu_of_on by done. by apply list_lookup_total_correct in Hic as <-. }
      done.
    + simpl in Hic. rewrite list_lookup_alter_ne in Hic by done.
      rewrite Hp by done. by apply Hn.
Qed.

(** A change of a lock that CPU [me] takes or gives back, and of that CPU. *)
Lemma mach_inv_lock m push me f lk v :
  mach_inv m push → (me < length (m_cpus m))%nat → (lk < length (m_locks m))%nat →
  (∀ c, c_apicid (f c) = c_apicid c) →
  lk_cpu (lock_of lk m) = None ∨ lk_cpu (lock_of lk m) = Some me →
  v = Spinlock false None ∨ v = Spinlock true (Some me) →
  c_ncli (f (cpu_of me m)) = Z.of_nat (length (held_by me (on_lock lk v m))) + push me →
  (0 < c_ncli (f (cpu_of me m)) → c_if (f (cpu_of me m)) = false) →
  mach_inv (on_cpu me f (on_lock lk v m)) push.
Proof.
  intros [Ha Ho Hn] Hme Hlk Hf Hold Hv Hc Hi. split.
  - by rewrite apic_on_cpu.
  - intros k l Hk. rewrite length_on_cpu.
    apply list_lookup_insert_Some in Hk as [(-> & <- & _)|(_ & Hk)].
    + by destruct Hv as [-> | ->].
    + by apply (Ho k).
  - intros i c Hic. destruct (decide (i = me)) as [->|Hne].
    + assert (c = f (cpu_of me m)) as ->.
      { change (cpu_of me m) with (cpu_of me (on_lock lk v m)).
        rewrite <-cpu_of_on by done. by apply list_lookup_total_correct in Hic as <-. }
      split_and!; [|done|done]. by apply (Hn me (cpu_of me m)), cpu_of_lookup.
    + simpl in Hic. rewrite list_lookup_alter_ne in Hic by done.
      pose proof (held_by_on_lock i lk v m Hlk) as H. rewrite held_by_on_cpu.
      destruct (Hn i c Hic) as (? & ? & ?). split_and!; [done| |done].
      destruct Hold as [Hold|Hold], Hv as [-> | ->]; rewrite Hold in H; simpl in H;
        repeat case_decide; simplify_eq; lia.
Qed.

Lemma free_no_owner m push lk :
  mach_inv m push → (lk < length (m_locks m))%nat →
  lk_locked (lock_of lk m) = false ↔ lk_cpu (lock_of lk m) = None.
Proof.
  intros Hm Hlk. pose proof (mi_owner _ _ Hm lk _ (lock_lookup lk m Hlk)) as H.
  destruct (lk_cpu (lock_of lk m)); [destruct H; naive_solver congruence|done].
Qed.

Lemma acquire_inv m push me lk :
  mach_inv m push → (me < length (m_cpus m))%nat → (lk < length (m_locks m))%nat →
  lk_locked (lock_of lk m) = false →
  mach_inv (on_cpu me pushed (on_lock lk (Spinlock true (Some me)) m)) push.
Proof.
  intros Hm Hme Hlk Hfree. apply (free_no_owner m push lk Hm Hlk) in Hfree.
  pose proof (held_by_on_lock me lk (Spinlock true (Some me)) m Hlk) as H. rewrite Hfree in H. simpl in H.
  destruct (mi_ncli _ _ Hm me (cpu_of me m) (cpu_of_lookup me m Hme)) as (? & ? & ?).
  apply mach_inv_lock; auto. simpl. repeat case_decide; simplify_eq; lia.
Qed.

Lemma release_inv m push me lk :
  mach_inv m push → (me < length (m_cpus m))%nat → (lk < length (m_locks m))%nat →
  lk_cpu (lock_of lk m) = Some me →
  mach_inv (on_cpu me popped (on_lock lk (Spinlock false None) m)) push.
Proof.
  intros Hm Hme Hlk Ho.
  pose proof (held_by_on_lock me lk (Spinlock false None) m Hlk) as H. rewrite Ho in H. simpl in H.
  destruct (mi_ncli _ _ Hm me (cpu_of me m) (cpu_of_lookup me m Hme)) as (? & ? & ?).
  apply mach_inv_lock; auto; simpl.
  - repeat case_decide; simplify_eq; lia.
  - intros. by rewrite (proj2 (Z.eqb_neq (c_ncli (cpu_of me m)) 1)) by lia.
Qed.

(** What the holder of a lock can rely on. *)
Lemma holder_spec m push me lk :
  mach_inv m push → (lk < length (m_locks m))%nat → lk_cpu (lock_of lk m) = Some me →
  (me < length (m_cpus m))%nat ∧ c_if (cpu_of me m) = false ∧ 0 < c_ncli (cpu_of me m) ∧
  lock_of lk m = Spinlock true (Some me).
Proof.
  intros Hm Hlk Ho. pose proof (mi_owner _ _ Hm lk _ (lock_lookup lk m Hlk)) as H.
  rewrite Ho in H. destruct H as [Hl Hme].
  destruct (mi_ncli _ _ Hm me (cpu_of me m) (cpu_of_lookup me m Hme)) as (? & Hn & Hi).
  assert (0 < length (held_by me m))%nat.
  { assert (lock_of lk m ∈ held_by me m) as Hin.
    { apply list_elem_of_filter. split; [done|]. eapply list_elem_of_lookup_2, lock_lookup, Hlk. }
    destruct (held_by me m); [by apply elem_of_nil in Hin|simpl; lia]. }
  split_and!; [done|apply Hi; lia|lia|]. destruct (lock_of lk m). simpl in *. by subst.
Qed.

(** ** CPUs running side by side *)

(** One operation of one CPU. acquire is a step once it gets the lock; [push]
    counts the pushcli calls to be matched. Interrupts are turned on and off by
    the trap path and by sti and cli while nothing is pushed. *)
Inductive spin_step : mach * (nat → Z) → mach * (nat → Z) → Prop :=
  | step_acquire me lk m m' push :
      (me < length (m_cpus m))%nat → (lk < length (m_locks m))%nat →
      acquire me lk m = Ok tt m' → spin_step (m, push) (m', push)
  | step_release me lk m m' push :
      (me < length (m_cpus m))%nat → (lk < length (m_locks m))%nat →
      release me lk m = Ok tt m' → spin_step (m, push) (m', push)
  | step_pushcli me m m' push :
      (me < length (m_cpus m))%nat → pushcli me m = Ok tt m' →
      spin_step (m, push) (m', fupd push me (push me + 1))
  | step_popcli me m m' push :
      (me < length (m_cpus m))%nat → 0 < push me → popcli me m = Ok tt m' →
      spin_step (m, push) (m', fupd push me (push me - 1))
  | step_if me b m push :
      (me < length (m_cpus m))%nat → c_ncli (cpu_of me m) = 0 →
      spin_step (m, push) (on_cpu me (set_if b) m, push).

Definition spin_init (m : mach) (push : nat → Z) : Prop :=
  NoDup (c_apicid <$> m_cpus m) ∧ (∀ l, l ∈ m_locks m → l = Spinlock false None) ∧
  (∀ c, c ∈ m_cpus m → c_ncli c = 0) ∧ ∀ i, push i = 0.

Lemma spin_init_inv m push : spin_init m push → mach_inv m push.
Proof.
  intros (Ha & Hl & Hc & Hp). split; [done| |].
  - intros lk l H%list_elem_of_lookup_2. by rewrite (Hl l H).
  - intros i c H%list_elem_of_lookup_2. rewrite (Hc c H), Hp. split_and!; [done| |done].
    assert (held_by i m = []) as ->; [|done]. apply elem_of_nil_inv. intros l Hin.
    apply list_elem_of_filter in Hin as [Ho Hin]. by rewrite (Hl l Hin) in Ho.
Qed.

Lemma popcli_if me m m' : popcli me m = Ok tt m' → c_if (cpu_of me m) = false.
Proof. unfold popcli, readeflags. run. by destruct (c_if (cpu_of me m)). Qed.

Lemma spin_step_inv s s' : mach_inv (fst s) (snd s) → spin_step s s' → mach_inv (fst s') (snd s').
Proof.
  intros Hm Hs. destruct Hs as [me lk m m' push Hme Hlk H|me lk m m' push Hme Hlk H|me m m' push Hme H
    |me m m' push Hme Hp H|me b m push Hme H]; simpl in *; pose proof (mi_cpu_ok _ _ me Hm Hme) as Hok.
  all: destruct (mi_ncli _ _ Hm me (cpu_of me m) (cpu_of_lookup me m Hme)) as (Hp0 & Hn & Hi).
  - rewrite acquire_run in H by done. destruct (lk_locked (lock_of lk m)) eqn:E; [by case_bool_decide|].
    injection H as <-. by apply acquire_inv.
  - destruct (lk_cpu (lock_of lk m)) as [i|] eqn:E.
    + destruct (decide (i = me)) as [->|Hne].
      * destruct (holder_spec m push me lk Hm Hlk E) as (_ & Hif & Hn1 & Hl).
        rewrite release_run in H by done. injection H as <-. by apply release_inv.
      * destruct (c_if (cpu_of me m)) eqn:Hif.
        -- destruct (holder_spec m push i lk Hm Hlk E) as (_ & _ & _ & Hl).
           by rewrite release_if in H by (done || by rewrite Hl).
        -- by rewrite release_panics in H by (done || congruence).
    + apply (free_no_owner m push lk Hm Hlk) in E. unfold release, holding in H. revert H. run. by rewrite E.
  - rewrite pushcli_run in H by done. injection H as <-.
    apply (mach_inv_cpu m push); try done; rewrite ?fupd_eq; simpl; [|lia..].
    intros i ?. by apply fupd_ne.
  - rewrite popcli_run in H by (done || (by eapply popcli_if) || lia). injection H as <-.
    apply (mach_inv_cpu m push); try done; rewrite ?fupd_eq; simpl; [|lia..|].
    + intros i ?. by apply fupd_ne.
    + intros. by rewrite (proj2 (Z.eqb_neq (c_ncli (cpu_of me m)) 1)) by lia.
  - apply (mach_inv_cpu m push); try done; simpl. lia.
Qed.

Lemma spin_reach_inv m0 push0 m push :
  spin_init m0 push0 → rtc spin_step (m0, push0) (m, push) → mach_inv m push.
Proof.
  intros H0%spin_init_inv Hs. remember (m0, push0) as s. remember (m, push) as s'.
  revert m0 push0 Heqs H0. induction Hs as [s|s s1 s2 H1 H2 IH]; intros m0 push0 -> H0; [by simplify_eq|].
  destruct s1 as [m1 push1]. eapply IH; [done|done|]. by apply (spin_step_inv (m0, push0) (m1, push1)).
Qed.

(** C6. Mutual exclusion. However the CPUs interleave, a lock that is held has
    one holder, which runs with interrupts off: it may release the lock and
    panics if it acquires it again; the acquire of every other CPU spins, and
    its release panics. A lock that is free is acquired at once. *)
Theorem spinlock_exclusion m0 push0 m push me lk :
  spin_init m0 push0 → rtc spin_step (m0, push0) (m, push) →
  (me < length (m_cpus m))%nat → (lk < length (m_locks m))%nat →
  match lk_cpu (lock_of lk m) with
  | None => ∃ m', acquire me lk m = Ok tt m' ∧ lk_cpu (lock_of lk m') = Some me
  | Some i =>
      c_if (cpu_of i m) = false ∧
      if decide (i = me) then
        (∃ m', release me lk m = Ok tt m' ∧ lk_cpu (lock_of lk m') = None) ∧
        (∃ m', acquire me lk m = Panic "acquire" m')
      else (∃ m', acquire me lk m = Blocked m' ∧ lock_of lk m' = lock_of lk m) ∧
        ∃ msg m', release me lk m = Panic msg m'
  end.
Proof.
  intros H0 Hs Hme Hlk. pose proof (spin_reach_inv _ _ _ _ H0 Hs) as Hm.
  pose proof (mi_cpu_ok _ _ me Hm Hme) as Hok.
  assert (∀ v m', lock_of lk (on_cpu me m' (on_lock lk v m)) = v) as Hlo.
  { intros v f. apply list_lookup_total_insert_eq. done. }
  destruct (lk_cpu (lock_of lk m)) as [i|] eqn:E.
  - destruct (holder_spec m push i lk Hm Hlk E) as (Hi & Hif & Hn & Hl). split; [done|].
    case_decide as Hd; [subst i|].
    + split.
      * eexists. split; [by apply release_run|]. by rewrite Hlo.
      * eexists. rewrite acquire_run by done. by rewrite Hl, bool_decide_true.
    + split.
      * exists (on_cpu me pushed m). split; [|done]. rewrite acquire_run by done. rewrite Hl. simpl.
        by rewrite bool_decide_false by congruence.
      * destruct (c_if (cpu_of me m)) eqn:Hifm.
        -- eexists _, m. apply release_if; [done|by rewrite Hl].
        -- eexists _, m. apply release_panics; [done|done|]. rewrite E. congruence.
  - eexists. rewrite acquire_run by done. apply (free_no_owner m push lk Hm Hlk) in E. rewrite E.
    split; [done|]. by rewrite Hlo.
Qed.

(** ** Two CPUs and a lock *)

Definition mach_ex : mach :=
  Mach [Cpu 3 true 0 false None; Cpu 7 true 0 false None] [Spinlock false None].

Lemma spinlock_exclusion_witness : ∃ m m1 m2,
  acquire 0 0 mach_ex = Ok tt m ∧ acquire 1 0 m = Blocked m1 ∧ release 0 0 m = Ok tt m2.
Proof.
  destruct (acquire 0 0 mach_ex) as [[] m| | |] eqn:Ha; try done. exists m.
  pose proof (spinlock_exclusion mach_ex (λ _, 0) m (λ _, 0) 1 0) as H1.
  pose proof (spinlock_exclusion mach_ex (λ _, 0) m (λ _, 0) 0 0) as H0.
  assert (spin_init mach_ex (λ _, 0)) as Hi.
  { split_and!; [|set_solver..|done]. apply (bool_decide_unpack _). by vm_compute. }
  assert (rtc spin_step (mach_ex, λ _, 0) (m, λ _, 0)) as Hr.
  { eapply rtc_once, step_acquire; [| |exact Ha]; simpl; lia. }
  specialize (H0 Hi Hr). specialize (H1 Hi Hr). vm_compute in Ha. injection Ha as <-.
  cbn in H0, H1. destruct H0 as (_ & (m2 & H2 & _) & _); [lia..|].
  destruct H1 as (_ & (m1 & H1 & _) & _); [lia..|]. by exists m1, m2.
Defined.
