(* ===== verification/Proc.v ===== *)
(** * Processes and the scheduler (proc.c; switchuvm of vm.c)

    A process is an index into ptable.proc. The routines are run by the CPU [c].
    The code between two calls of swtch is one definition: swtch saves where the
    kernel thread is to go on, a [context], and continues at the context it
    switches to, so a routine that gives up the CPU goes on with the scheduler
    of that CPU, and ends when the next process to run has returned to its own
    code or the scheduler found none.

    What proc.c needs of the rest of the kernel (pages, page tables, files and
    the log) is the interface [ProcEnv]. *)

From S2P Require Import Prelude Cstring Spinlock.

Definition NPROC : nat := 64.
Definition NOFILE : nat := 16.
Definition KSTACKSIZE : Z := 4096.
Definition SEG_UCODE : Z := 3.
Definition SEG_UDATA : Z := 4.
Definition DPL_USER : Z := 3.
Definition FL_IF : Z := 512.

(** ptable.lock is the first lock; the others belong to the other parts. *)
Definition PTLOCK : nat := 0.

Inductive procstate := UNUSED | EMBRYO | SLEEPING | RUNNABLE | RUNNING | ZOMBIE.
#[export] Instance procstate_eq_dec : EqDecision procstate.
Proof. solve_decision. Defined.

(** Where swtch returns to, with the [intena] that sched keeps on the stack:
    the start of forkret, the end of sched in yield, in sleep and in exit. A
    thread that runs has no saved context; [ctx_acquire] is a thread that is at
    the end of sleep, about to acquire the lock again. *)
Inductive context :=
  | ctx_none
  | ctx_forkret
  | ctx_yield (intena : bool)
  | ctx_sleep (lk : nat) (intena : bool)
  | ctx_exit
  | ctx_acquire (lk : nat).
#[export] Instance context_eq_dec : EqDecision context.
Proof. solve_decision. Defined.

(** struct trapframe; [tf_regs] are the registers the kernel only copies. *)
Record trapframe := Trapframe {
  tf_eax : Z; tf_cs : Z; tf_ds : Z; tf_es : Z; tf_ss : Z; tf_eflags : Z; tf_esp : Z; tf_eip : Z;
  tf_regs : list Z; tf_trapno : Z
}.

Record proc := Proc {
  p_sz : Z; p_pgdir : Z; p_kstack : Z; p_state : procstate; p_pid : Z; p_parent : option nat;
  p_tf : trapframe; p_context : context; p_chan : Z; p_killed : bool;
  p_ofile : list (option nat); p_cwd : option nat; p_name : list Z
}.
Definition tf0 : trapframe := Trapframe 0 0 0 0 0 0 0 0 [] 0.
Definition proc0 : proc :=
  Proc 0 0 0 UNUSED 0 None tf0 ctx_none 0 false (replicate NOFILE None) None (replicate 16 0).
#[export] Instance proc_inhabited : Inhabited proc := populate proc0.

Definition set_state v p := Proc (p_sz p) (p_pgdir p) (p_kstack p) v (p_pid p) (p_parent p) (p_tf p) (p_context p) (p_chan p) (p_killed p) (p_ofile p) (p_cwd p) (p_name p).
Definition set_pid v p := Proc (p_sz p) (p_pgdir p) (p_kstack p) (p_state p) v (p_parent p) (p_tf p) (p_context p) (p_chan p) (p_killed p) (p_ofile p) (p_cwd p) (p_name p).
Definition set_kstack v p := Proc (p_sz p) (p_pgdir p) v (p_state p) (p_pid p) (p_parent p) (p_tf p) (p_context p) (p_chan p) (p_killed p) (p_ofile p) (p_cwd p) (p_name p).
Definition set_mem sz pg p := Proc sz pg (p_kstack p) (p_state p) (p_pid p) (p_parent p) (p_tf p) (p_context p) (p_chan p) (p_killed p) (p_ofile p) (p_cwd p) (p_name p).
Definition set_parent v p := Proc (p_sz p) (p_pgdir p) (p_kstack p) (p_state p) (p_pid p) v (p_tf p) (p_context p) (p_chan p) (p_killed p) (p_ofile p) (p_cwd p) (p_name p).
Definition set_tf v p := Proc (p_sz p) (p_pgdir p) (p_kstack p) (p_state p) (p_pid p) (p_parent p) v (p_context p) (p_chan p) (p_killed p) (p_ofile p) (p_cwd p) (p_name p).
Definition set_context v p := Proc (p_sz p) (p_pgdir p) (p_kstack p) (p_state p) (p_pid p) (p_parent p) (p_tf p) v (p_chan p) (p_killed p) (p_ofile p) (p_cwd p) (p_name p).
Definition set_chan v p := Proc (p_sz p) (p_pgdir p) (p_kstack p) (p_state p) (p_pid p) (p_parent p) (p_tf p) (p_context p) v (p_killed p) (p_ofile p) (p_cwd p) (p_name p).
Definition set_killed v p := Proc (p_sz p) (p_pgdir p) (p_kstack p) (p_state p) (p_pid p) (p_parent p) (p_tf p) (p_context p) (p_chan p) v (p_ofile p) (p_cwd p) (p_name p).
Definition set_ofile v p := Proc (p_sz p) (p_pgdir p) (p_kstack p) (p_state p) (p_pid p) (p_parent p) (p_tf p) (p_context p) (p_chan p) (p_killed p) v (p_cwd p) (p_name p).
Definition set_pcwd v p := Proc (p_sz p) (p_pgdir p) (p_kstack p) (p_state p) (p_pid p) (p_parent p) (p_tf p) (p_context p) (p_chan p) (p_killed p) (p_ofile p) v (p_name p).
Definition set_name v p := Proc (p_sz p) (p_pgdir p) (p_kstack p) (p_state p) (p_pid p) (p_parent p) (p_tf p) (p_context p) (p_chan p) (p_killed p) (p_ofile p) (p_cwd p) v.

(** The rest of the kernel: kalloc.c, vm.c, file.c, fs.c and log.c, and the
    processor's task and page-table registers. A pointer is an address, 0 for
    none; a file or an inode is an index. *)
Class ProcEnv (E : Type) := {
  env_kalloc : M E Z;
  env_kfree : Z → M E unit;
  env_setupkvm : M E Z;
  env_inituvm : Z → M E unit;
  env_allocuvm : Z → Z → Z → M E Z;
  env_deallocuvm : Z → Z → Z → M E Z;
  env_copyuvm : Z → Z → M E Z;
  env_freevm : Z → M E unit;
  env_ltr : Z → M E unit;
  env_lcr3 : Z → M E unit;
  env_kpgdir : E → Z;
  env_filedup : nat → M E nat;
  env_fileclose : nat → M E unit;
  env_idup : nat → M E nat;
  env_iput : nat → M E unit;
  env_begin_op : M E unit;
  env_end_op : M E unit;
  env_namei_root : M E (option nat);
  env_init : M E unit
}.

(** [ps_loop] is the stack of each CPU's scheduler thread: the processes that
    its loop over the table has still to look at. *)
Record pst (E : Type) := Pst {
  ps_mach : mach; ps_table : list proc; ps_nextpid : Z; ps_init : option nat; ps_first : bool;
  ps_loop : list (list nat); ps_env : E
}.
Arguments Pst {E} _ _ _ _ _ _ _.
Arguments ps_mach {E} _.
Arguments ps_table {E} _.
Arguments ps_nextpid {E} _.
Arguments ps_init {E} _.
Arguments ps_first {E} _.
Arguments ps_loop {E} _.
Arguments ps_env {E} _.

(** The channel that wait sleeps on: the address of a process's table entry. *)
Definition chan_of (p : nat) : Z := Z.of_nat p + 1.

(** The result of wait that a resumed process finds in eax. *)
Definition wait_ret (pid : Z) (t : trapframe) : trapframe :=
  Trapframe pid (tf_cs t) (tf_ds t) (tf_es t) (tf_ss t) (tf_eflags t) (tf_esp t) (tf_eip t)
    (tf_regs t) (tf_trapno t).

(** safestrcpy(dst, src, 16), for a dst of 16 bytes. *)
Definition safe_name (src dst : list Z) : list Z :=
  bytes_at (Kernel.safestrcpy (λ a, if a <? 32 then mem_of src a else mem_of dst (a - 32)) 32 0 16) 32 16.

Section proc.
Context {E : Type} `{!ProcEnv E}.
Variable c : nat.

Definition put_mach m (s : pst E) := Pst m (ps_table s) (ps_nextpid s) (ps_init s) (ps_first s) (ps_loop s) (ps_env s).
Definition put_table t (s : pst E) := Pst (ps_mach s) t (ps_nextpid s) (ps_init s) (ps_first s) (ps_loop s) (ps_env s).
Definition put_nextpid n (s : pst E) := Pst (ps_mach s) (ps_table s) n (ps_init s) (ps_first s) (ps_loop s) (ps_env s).
Definition put_init i (s : pst E) := Pst (ps_mach s) (ps_table s) (ps_nextpid s) i (ps_first s) (ps_loop s) (ps_env s).
Definition put_first b (s : pst E) := Pst (ps_mach s) (ps_table s) (ps_nextpid s) (ps_init s) b (ps_loop s) (ps_env s).
Definition put_loop l (s : pst E) := Pst (ps_mach s) (ps_table s) (ps_nextpid s) (ps_init s) (ps_first s) l (ps_env s).
Definition put_env (e : E) (s : pst E) := Pst (ps_mach s) (ps_table s) (ps_nextpid s) (ps_init s) (ps_first s) (ps_loop s) e.

Definition mm {A} (m : M mach A) : M (pst E) A := zoom ps_mach put_mach m.
Definition ee {A} (m : M E A) : M (pst E) A := zoom ps_env put_env m.
Definition proc_of (p : nat) (s : pst E) : proc := ps_table s !!! p.
Definition upd_proc (p : nat) (f : proc → proc) : M (pst E) unit :=
  modify (λ s, put_table (alter f p (ps_table s)) s).

Definition pinit : M (pst E) unit := mm (initlock PTLOCK).

(** mycpu()->proc, with interrupts off while it is read. *)
Definition myproc : M (pst E) (option nat) := mm (
  pushcli c;;
  i ← mycpu c;
  p ← gets (λ m, c_proc (cpu_of i m));
  popcli c;;
  mret p).

(** The process that runs here; a null pointer would fault. *)
Definition curproc : M (pst E) nat :=
  p ← myproc;
  match p with Some p => mret p | None => panic "no process" end.

(** ** vm.c: switching page tables *)

Definition switchkvm : M (pst E) unit :=
  kp ← gets (λ s, env_kpgdir (ps_env s));
  ee (env_lcr3 kp).

Definition switchuvm (p : nat) : M (pst E) unit :=
  x ← gets (proc_of p);
  panic_if (p_kstack x =? 0) "switchuvm: no kstack";;
  panic_if (p_pgdir x =? 0) "switchuvm: no pgdir";;
  mm (pushcli c);;
  ee (env_ltr (p_kstack x + KSTACKSIZE));;
  ee (env_lcr3 (p_pgdir x));;
  mm (popcli c).

(** ** Creating processes *)

(** Look for an UNUSED process, and give it a kernel stack on which it will
    start in forkret. *)
Definition allocproc : M (pst E) (option nat) :=
  mm (acquire c PTLOCK);;
  ps ← gets ps_table;
  match list_find (λ p, p_state p = UNUSED) ps with
  | None => mm (release c PTLOCK);; mret None
  | Some (p, _) =>
      pid ← gets ps_nextpid;
      upd_proc p (λ x, set_pid pid (set_state EMBRYO x));;
      modify (put_nextpid (s32 (pid + 1)));;
      mm (release c PTLOCK);;
      ks ← ee env_kalloc;
      upd_proc p (set_kstack ks);;
      if ks =? 0 then
        upd_proc p (set_state UNUSED);; mret None
      else
        upd_proc p (set_context ctx_forkret);; mret (Some p)
  end.

Definition user_tf (t : trapframe) : trapframe :=
  Trapframe 0 (Z.lor (Z.shiftl SEG_UCODE 3) DPL_USER) (Z.lor (Z.shiftl SEG_UDATA 3) DPL_USER)
    (Z.lor (Z.shiftl SEG_UDATA 3) DPL_USER) (Z.lor (Z.shiftl SEG_UDATA 3) DPL_USER)
    FL_IF 4096 0 (replicate 7 0) 0.

(** The characters of initcode, for safestrcpy. *)
Definition initcode_name : list Z := [105; 110; 105; 116; 99; 111; 100; 101].

Definition userinit : M (pst E) unit :=
  r ← allocproc;
  match r with
  | None => panic "no process"
  | Some p =>
      modify (put_init (Some p));;
      pg ← ee env_setupkvm;
      upd_proc p (λ x, set_mem (p_sz x) pg x);;
      panic_if (pg =? 0) "userinit: out of memory?";;
      ee (env_inituvm pg);;
      upd_proc p (λ x, set_tf (user_tf (p_tf x)) (set_mem 4096 pg x));;
      upd_proc p (λ x, set_name (safe_name initcode_name (p_name x)) x);;
      cwd ← ee env_namei_root;
      upd_proc p (set_pcwd cwd);;
      mm (acquire c PTLOCK);;
      upd_proc p (set_state RUNNABLE);;
      mm (release c PTLOCK)
  end.

(** Grow the current process's memory by n bytes. *)
Definition growproc (n : Z) : M (pst E) Z :=
  p ← curproc;
  x ← gets (proc_of p);
  let sz := p_sz x in
  sz ← (if 0 <? n then ee (env_allocuvm (p_pgdir x) sz (u32 (sz + n)))
        else if n <? 0 then ee (env_deallocuvm (p_pgdir x) sz (u32 (sz + n)))
        else mret sz);
  if negb (n =? 0) && (sz =? 0) then mret (-1)
  else
    upd_proc p (λ x, set_mem sz (p_pgdir x) x);;
    switchuvm p;;
    mret 0.

Definition fork_eax (t : trapframe) : trapframe :=
  Trapframe 0 (tf_cs t) (tf_ds t) (tf_es t) (tf_ss t) (tf_eflags t) (tf_esp t) (tf_eip t)
    (tf_regs t) (tf_trapno t).

(** The loop that shares the open files. *)
Definition dup_files (p np : nat) : M (pst E) unit :=
  for_each (seq 0 NOFILE) (λ i,
    x ← gets (proc_of p);
    match p_ofile x !!! i with
    | Some f =>
        f' ← ee (env_filedup f);
        upd_proc np (λ y, set_ofile (<[i := Some f']> (p_ofile y)) y)
    | None => mret tt
    end).

(** fork after allocproc gave it [np], up to the child's start. *)
Definition fork_copy (p np : nat) : M (pst E) bool :=
  x ← gets (proc_of p);
  pg ← ee (env_copyuvm (p_pgdir x) (p_sz x));
  upd_proc np (λ y, set_mem (p_sz y) pg y);;
  if pg =? 0 then
    y ← gets (proc_of np);
    ee (env_kfree (p_kstack y));;
    upd_proc np (λ y, set_state UNUSED (set_kstack 0 y));;
    mret false
  else
    upd_proc np (λ y, set_tf (fork_eax (p_tf x)) (set_parent (Some p) (set_mem (p_sz x) pg y)));;
    dup_files p np;;
    match p_cwd x with
    | Some ip => cwd ← ee (env_idup ip); upd_proc np (set_pcwd (Some cwd))
    | None => panic "no inode"
    end;;
    upd_proc np (λ y, set_name (safe_name (p_name x) (p_name y)) y);;
    mret true.

Definition fork_start (np : nat) : M (pst E) Z :=
  y ← gets (proc_of np);
  mm (acquire c PTLOCK);;
  upd_proc np (set_state RUNNABLE);;
  mm (release c PTLOCK);;
  mret (p_pid y).

Definition fork : M (pst E) Z :=
  p ← curproc;
  r ← allocproc;
  match r with
  | None => mret (-1)
  | Some np =>
      ok ← fork_copy p np;
      if ok : bool then fork_start np else mret (-1)
  end.

(** ** The scheduler *)

Definition wakeup1_table (chan : Z) (ps : list proc) : list proc :=
  (λ p, if decide (p_state p = SLEEPING ∧ p_chan p = chan) then set_state RUNNABLE p else p) <$> ps.

Definition wakeup1 (chan : Z) : M (pst E) unit := modify (λ s, put_table (wakeup1_table chan (ps_table s)) s).

Definition wakeup (chan : Z) : M (pst E) unit :=
  mm (acquire c PTLOCK);;
  wakeup1 chan;;
  mm (release c PTLOCK).

(** What sched checks, up to its swtch; the value of intena it saves. *)
Definition sched_enter : M (pst E) bool :=
  p ← curproc;
  h ← mm (holding c PTLOCK);
  panic_if (negb h) "sched ptable.lock";;
  i ← mm (mycpu c);
  n ← mm (gets (λ m, c_ncli (cpu_of i m)));
  panic_if (negb (n =? 1)) "sched locks";;
  x ← gets (proc_of p);
  panic_if (bool_decide (p_state x = RUNNING)) "sched running";;
  fl ← mm (readeflags c);
  panic_if fl "sched interruptible";;
  i ← mm (mycpu c);
  mm (gets (λ m, c_intena (cpu_of i m))).

(** The end of sched, after swtch came back. *)
Definition sched_return (intena : bool) : M (pst E) unit :=
  i ← mm (mycpu c);
  mm (modify (on_cpu i (set_intena intena))).

(** The state in which a sleeping process waits; wait keeps ptable.lock as its
    lock. *)
Definition sleep_on (p : nat) (chan : Z) : M (pst E) unit :=
  upd_proc p (set_chan chan);;
  upd_proc p (set_state SLEEPING).

(** One scan of wait over the table: the pid of a dead child, which is freed;
    -1 without children or if killed; [None] if it has to sleep. *)
Fixpoint wait_scan (p : nat) (l : list nat) (havekids : bool) : M (pst E) (option Z) :=
  match l with
  | [] =>
      x ← gets (proc_of p);
      if negb havekids || p_killed x then mm (release c PTLOCK);; mret (Some (-1))
      else mret None
  | q :: l =>
      y ← gets (proc_of q);
      if bool_decide (p_parent y ≠ Some p) then wait_scan p l havekids
      else if bool_decide (p_state y = ZOMBIE) then
        ee (env_kfree (p_kstack y));;
        upd_proc q (set_kstack 0);;
        ee (env_freevm (p_pgdir y));;
        upd_proc q (λ y, set_state UNUSED (set_killed false
          (set_name (<[0%nat := 0]> (p_name y)) (set_parent None (set_pid 0 y)))));;
        mm (release c PTLOCK);;
        mret (Some (p_pid y))
      else wait_scan p l true
  end.

(** swtch to a process: it goes on where it called swtch, to the point where it
    runs its own code again. [Some] is the result of its call of wait, [None]
    tells the scheduler that it went back to sleep. *)
Definition resume (p : nat) (ctx : context) : M (pst E) bool :=
  match ctx with
  | ctx_forkret =>
      upd_proc p (set_context ctx_none);;
      mm (release c PTLOCK);;
      first ← gets ps_first;
      (if first : bool then modify (put_first false);; ee env_init else mret tt);;
      mret true
  | ctx_yield intena =>
      upd_proc p (set_context ctx_none);;
      sched_return intena;;
      mm (release c PTLOCK);;
      mret true
  | ctx_sleep lk intena =>
      sched_return intena;;
      upd_proc p (set_chan 0);;
      if decide (lk = PTLOCK) then
        r ← wait_scan p (seq 0 NPROC) false;
        match r with
        | Some pid =>
            upd_proc p (λ x, set_context ctx_none (set_tf (wait_ret pid (p_tf x)) x));;
            mret true
        | None =>
            sleep_on p (chan_of p);;
            intena ← sched_enter;
            upd_proc p (set_context (ctx_sleep PTLOCK intena));;
            mret false
        end
      else
        upd_proc p (set_context (ctx_acquire lk));;
        mm (release c PTLOCK);;
        mret true
  | ctx_exit => panic "zombie exit"
  | _ => panic "no context"
  end.

(** The loop of the scheduler over the processes [l], with ptable.lock held. *)
Fixpoint scheduler_loop (l : list nat) : M (pst E) unit :=
  match l with
  | [] => mm (release c PTLOCK)
  | p :: l =>
      x ← gets (proc_of p);
      if bool_decide (p_state x ≠ RUNNABLE) then scheduler_loop l
      else
        mm (modify (on_cpu c (set_cproc (Some p))));;
        switchuvm p;;
        upd_proc p (set_state RUNNING);;
        modify (λ s, put_loop (<[c := l]> (ps_loop s)) s);;
        x ← gets (proc_of p);
        ran ← resume p (p_context x);
        if ran : bool then mret tt
        else
          switchkvm;;
          mm (modify (on_cpu c (set_cproc None)));;
          scheduler_loop l
  end.

(** The start of a CPU's scheduler. *)
Definition scheduler_start : M (pst E) unit :=
  i ← mm (mycpu c);
  mm (modify (on_cpu i (set_cproc None))).

(** One round of scheduler, from the top of its loop. *)
Definition scheduler : M (pst E) unit :=
  mm (sti c);;
  mm (acquire c PTLOCK);;
  scheduler_loop (seq 0 NPROC).

(** swtch to the scheduler, from a process that saved its context. *)
Definition swtch_scheduler : M (pst E) unit :=
  switchkvm;;
  mm (modify (on_cpu c (set_cproc None)));;
  l ← gets (λ s, ps_loop s !!! c);
  scheduler_loop l.

(** ** Giving up the CPU *)

Definition yield : M (pst E) unit :=
  mm (acquire c PTLOCK);;
  p ← curproc;
  upd_proc p (set_state RUNNABLE);;
  intena ← sched_enter;
  upd_proc p (set_context (ctx_yield intena));;
  swtch_scheduler.

(** Release [lk] and sleep on [chan], for a lock other than ptable.lock. *)
Definition sleep (chan : Z) (lk : nat) : M (pst E) unit :=
  r ← myproc;
  match r with
  | None => panic "sleep"
  | Some p =>
      mm (acquire c PTLOCK);;
      mm (release c lk);;
      sleep_on p chan;;
      intena ← sched_enter;
      upd_proc p (set_context (ctx_sleep lk intena));;
      swtch_scheduler
  end.

(** The end of sleep: acquire the lock again. *)
Definition sleep_end : M (pst E) unit :=
  p ← curproc;
  x ← gets (proc_of p);
  match p_context x with
  | ctx_acquire lk =>
      mm (acquire c lk);;
      upd_proc p (set_context ctx_none)
  | _ => panic "not in sleep"
  end.

(** Wait for a child to exit: [Some] is the result, [None] if the process went to
    sleep, in which case [resume] delivers it. *)
Definition wait : M (pst E) (option Z) :=
  p ← curproc;
  mm (acquire c PTLOCK);;
  r ← wait_scan p (seq 0 NPROC) false;
  match r with
  | Some pid => mret (Some pid)
  | None =>
      sleep_on p (chan_of p);;
      intena ← sched_enter;
      upd_proc p (set_context (ctx_sleep PTLOCK intena));;
      swtch_scheduler;;
      mret None
  end.

(** ** Exit *)

Definition close_files (p : nat) : M (pst E) unit :=
  for_each (seq 0 NOFILE) (λ fd,
    x ← gets (proc_of p);
    match p_ofile x !!! fd with
    | Some f =>
        ee (env_fileclose f);;
        upd_proc p (λ x, set_ofile (<[fd := None]> (p_ofile x)) x)
    | None => mret tt
    end).

(** The loop that passes the children to init. *)
Definition reparent (p init : nat) : M (pst E) unit :=
  for_each (seq 0 NPROC) (λ q,
    y ← gets (proc_of q);
    if bool_decide (p_parent y = Some p) then
      upd_proc q (set_parent (Some init));;
      if bool_decide (p_state y = ZOMBIE) then wakeup1 (chan_of init) else mret tt
    else mret tt).

(** The part of exit that runs under ptable.lock. *)
Definition exit_switch (p init : nat) : M (pst E) unit :=
  mm (acquire c PTLOCK);;
  x ← gets (proc_of p);
  wakeup1 (match p_parent x with Some q => chan_of q | None => 0 end);;
  reparent p init;;
  upd_proc p (set_state ZOMBIE);;
  _ ← sched_enter;
  upd_proc p (set_context ctx_exit);;
  swtch_scheduler.

Definition exit : M (pst E) unit :=
  p ← curproc;
  ini ← gets ps_init;
  panic_if (bool_decide (ini = Some p)) "init exiting";;
  close_files p;;
  ee env_begin_op;;
  x ← gets (proc_of p);
  match p_cwd x with
  | Some ip => ee (env_iput ip)
  | None => panic "no inode"
  end;;
  ee env_end_op;;
  upd_proc p (set_pcwd None);;
  match ini with
  | Some init => exit_switch p init
  | None => panic "no init"
  end.

(** Mark the process with the given pid killed, and wake it. *)
Definition kill (pid : Z) : M (pst E) Z :=
  mm (acquire c PTLOCK);;
  ps ← gets ps_table;
  match list_find (λ p, p_pid p = pid) ps with
  | Some (q, _) =>
      upd_proc q (set_killed true);;
      y ← gets (proc_of q);
      (if bool_decide (p_state y = SLEEPING) then upd_proc q (set_state RUNNABLE) else mret tt);;
      mm (release c PTLOCK);;
      mret 0
  | None => mm (release c PTLOCK);; mret (-1)
  end.
End proc.
