(* ===== verification/ProcInv.v ===== *)
(** * The process table: what every interleaving keeps

    The invariant of the process table and of the CPUs, the steps of the kernel
    on it, and the theorems on fork, wait, exit, sleep, wakeup and kill. *)

From S2P Require Import Prelude Cstring Spinlock Proc.

(** ** Sections under ptable.lock *)

(** What a section of CPU [c] leaves as it is. *)
Record mframe (c : nat) (m m' : mach) : Prop := {
  mf_cpus : length (m_cpus m') = length (m_cpus m);
  mf_proc : ∀ i, i ≠ c → c_proc (cpu_of i m') = c_proc (cpu_of i m);
  mf_locks : length (m_locks m') = length (m_locks m);
  mf_lock : ∀ lk, lk ≠ PTLOCK → lock_of lk m' = lock_of lk m;
  mf_held : ∀ i, i ≠ c → length (held_by i m') = length (held_by i m)
}.

Lemma mframe_refl c m : mframe c m m.
Proof. by split. Qed.
Lemma mframe_trans c m1 m2 m3 : mframe c m1 m2 → mframe c m2 m3 → mframe c m1 m3.
Proof.
  intros [] []. split; [congruence| |congruence| |].
  - intros. by rewrite mf_proc1, mf_proc0.
  - intros. by rewrite mf_lock1, mf_lock0.
  - intros. by rewrite mf_held1, mf_held0.
Qed.

Lemma mframe_cpu c f m : mframe c m (on_cpu c f m).
Proof.
  split; [apply length_on_cpu| |done|done|done]. intros i Hi. by rewrite cpu_of_on_ne.
Qed.

(** Outside of sections, and inside one of a CPU that holds [n] locks. *)
Record mfree (m : mach) : Prop := {
  mfr_inv : mach_inv m (λ _, 0);
  mfr_pt : (PTLOCK < length (m_locks m))%nat;
  mfr_free : lk_cpu (lock_of PTLOCK m) = None
}.
Record msec (c n : nat) (m : mach) : Prop := {
  ms_inv : mach_inv m (λ _, 0);
  ms_pt : (PTLOCK < length (m_locks m))%nat;
  ms_own : lk_cpu (lock_of PTLOCK m) = Some c;
  ms_held : length (held_by c m) = n
}.

Lemma msec_cpu c n m :
  msec c n m → cpu_ok c m ∧ c_if (cpu_of c m) = false ∧ c_ncli (cpu_of c m) = Z.of_nat n ∧
    (0 < n)%nat ∧ lock_of PTLOCK m = Spinlock true (Some c).
Proof.
  intros [Hm Hpt Ho Hn]. destruct (holder_spec m _ c PTLOCK Hm Hpt Ho) as (Hi & Hif & Hncli & Hl).
  destruct (mi_ncli _ _ Hm c (cpu_of c m) (cpu_of_lookup c m Hi)) as (_ & Hc & _).
  split_and!; [by eapply mi_cpu_ok|done|lia|lia|done].
Qed.

Lemma ptlock_acquire c n m :
  mfree m → (c < length (m_cpus m))%nat → length (held_by c m) = n →
  ∃ m', acquire c PTLOCK m = Ok tt m' ∧ msec c (S n) m' ∧ mframe c m m' ∧
    c_proc (cpu_of c m') = c_proc (cpu_of c m).
Proof.
  intros [Hm Hpt Hf] Hc Hn. pose proof (mi_cpu_ok _ _ c Hm Hc) as Hok.
  pose proof (proj2 (free_no_owner m _ PTLOCK Hm Hpt) Hf) as Hl.
  set (v := Spinlock true (Some c)).
  assert (∀ i, length (held_by i (on_lock PTLOCK v m)) = (length (held_by i m) + if decide (i = c) then 1 else 0)%nat) as Hh.
  { intros i. pose proof (held_by_on_lock i PTLOCK v m Hpt) as H. rewrite Hf in H. simpl in H.
    repeat case_decide; simplify_eq; lia. }
  exists (on_cpu c pushed (on_lock PTLOCK v m)). rewrite acquire_run, Hl by done. split_and!; [done|split|split|].
  - by apply acquire_inv.
  - simpl. by rewrite length_insert.
  - change (lock_of PTLOCK (on_cpu c pushed (on_lock PTLOCK v m))) with (<[PTLOCK := v]> (m_locks m) !!! PTLOCK).
    by rewrite list_lookup_total_insert_eq.
  - rewrite held_by_on_cpu, Hh, decide_True by done. lia.
  - apply length_alter.
  - intros i Hi. by rewrite cpu_of_on_ne.
  - simpl. by rewrite length_insert.
  - intros lk Hlk. by apply list_lookup_total_insert_ne.
  - intros i Hi. rewrite held_by_on_cpu, Hh, decide_False by done. lia.
  - by rewrite cpu_of_on.
Qed.

Lemma ptlock_release c n m :
  msec c n m → ∃ m', release c PTLOCK m = Ok tt m' ∧ mfree m' ∧ mframe c m m' ∧
    length (held_by c m') = (n - 1)%nat ∧ c_proc (cpu_of c m') = c_proc (cpu_of c m).
Proof.
  intros Hs. destruct (msec_cpu c n m Hs) as (Hok & Hif & Hn & Hpos & Hl). pose proof Hs as [Hm Hpt Ho Hh].
  pose proof Hok as [Hc _]. set (v := Spinlock false None).
  assert (∀ i, length (held_by i (on_lock PTLOCK v m)) = (length (held_by i m) - if decide (i = c) then 1 else 0)%nat) as Hh'.
  { intros i. pose proof (held_by_on_lock i PTLOCK v m Hpt) as H. rewrite Ho in H. simpl in H.
    repeat case_decide; simplify_eq; lia. }
  exists (on_cpu c popped (on_lock PTLOCK v m)). split_and!; [|split|split| |].
  - apply release_run; [done|done|lia|done].
  - by apply release_inv.
  - simpl. by rewrite length_insert.
  - change (lock_of PTLOCK (on_cpu c popped (on_lock PTLOCK v m))) with (<[PTLOCK := v]> (m_locks m) !!! PTLOCK).
    by rewrite list_lookup_total_insert_eq.
  - apply length_alter.
  - intros i Hi. by rewrite cpu_of_on_ne.
  - simpl. by rewrite length_insert.
  - intros lk Hlk. by apply list_lookup_total_insert_ne.
  - intros i Hi. rewrite held_by_on_cpu, Hh', decide_False by done. lia.
  - rewrite held_by_on_cpu, Hh', decide_True by done. lia.
  - by rewrite cpu_of_on.
Qed.

(** A change of a CPU that its locks do not depend on. *)
Lemma mach_inv_same m c f :
  mach_inv m (λ _, 0) → (c < length (m_cpus m))%nat →
  (∀ x, c_apicid (f x) = c_apicid x) → (∀ x, c_ncli (f x) = c_ncli x) → (∀ x, c_if (f x) = c_if x) →
  mach_inv (on_cpu c f m) (λ _, 0).
Proof.
  intros Hm Hc Ha Hn Hi. destruct (mi_ncli _ _ Hm c (cpu_of c m) (cpu_of_lookup c m Hc)) as (_ & H1 & H2).
  apply (mach_inv_cpu m (λ _, 0)); try done; rewrite ?Hn, ?Hi; done.
Qed.

Lemma msec_on c n m f :
  msec c n m → (∀ x, c_apicid (f x) = c_apicid x) → (∀ x, c_ncli (f x) = c_ncli x) →
  (∀ x, c_if (f x) = c_if x) → msec c n (on_cpu c f m).
Proof.
  intros Hs Ha Hn Hi. destruct (msec_cpu c n m Hs) as ([Hc _] & _). destruct Hs as [Hm ? ? ?].
  split; [by apply mach_inv_same|done..].
Qed.

(** pushcli and popcli inside a section change nothing. *)
Lemma push_pop_id c m :
  cpu_ok c m → c_if (cpu_of c m) = false → 0 < c_ncli (cpu_of c m) →
  pushcli c m = Ok tt (on_cpu c pushed m) ∧ popcli c (on_cpu c pushed m) = Ok tt m.
Proof.
  intros Hok Hif Hn. pose proof Hok as [Hc _]. split; [by apply pushcli_run|].
  rewrite popcli_run; [|by apply cpu_ok_on|by rewrite cpu_of_on|rewrite cpu_of_on by done; simpl; lia].
  rewrite on_cpu_on. f_equal. rewrite (on_cpu_ext c _ id); [|done|].
  - unfold on_cpu. rewrite list_alter_id by done. by destruct m.
  - unfold popped, pushed, compose. cbn [c_apicid c_if c_ncli c_intena c_proc].
    rewrite (proj2 (Z.eqb_neq (c_ncli (cpu_of c m)) 0)) by lia.
    rewrite (proj2 (Z.eqb_neq (c_ncli (cpu_of c m) + 1) 1)) by lia. simpl.
    destruct (cpu_of c m); simpl in *. subst. f_equal. lia.
Qed.

(** ** The process table *)

Definition live (st : procstate) : Prop := st = SLEEPING ∨ st = RUNNABLE ∨ st = RUNNING.

(** Where a process of each state is. *)
Definition context_ok (st : procstate) (ctx : context) : Prop :=
  match st with
  | SLEEPING => ∃ lk b, ctx = ctx_sleep lk b
  | RUNNABLE => ctx = ctx_forkret ∨ (∃ b, ctx = ctx_yield b) ∨ ∃ lk b, ctx = ctx_sleep lk b
  | RUNNING => ctx = ctx_none ∨ ∃ lk, ctx = ctx_acquire lk ∧ lk ≠ PTLOCK
  | ZOMBIE => ctx = ctx_exit
  | EMBRYO => ctx = ctx_forkret
  | UNUSED => True
  end.

Record proc_ok (npid : Z) (x : proc) : Prop := {
  ok_pid : p_state x ≠ UNUSED → 1 <= p_pid x < npid;
  ok_kstack : p_state x ≠ UNUSED → p_kstack x ≠ 0;
  ok_pgdir : live (p_state x) ∨ p_state x = ZOMBIE → p_pgdir x ≠ 0;
  ok_context : context_ok (p_state x) (p_context x);
  ok_unused : p_state x = UNUSED → p_parent x = None ∧ p_kstack x = 0;
  ok_embryo : p_state x = EMBRYO → p_parent x ≠ None → p_pgdir x ≠ 0;
  ok_ofile : length (p_ofile x) = NOFILE;
  ok_closed : p_state x = UNUSED ∨ p_state x = ZOMBIE ∨ p_state x = EMBRYO ∧ p_parent x = None →
    p_ofile x = replicate NOFILE None
}.

Definition pids_ok (ps : list proc) : Prop := ∀ p q x y,
  ps !! p = Some x → ps !! q = Some y → p_state x ≠ UNUSED → p_state y ≠ UNUSED →
  p_pid x = p_pid y → p = q.

(** A parent is alive. *)
Definition parents_ok (ps : list proc) : Prop := ∀ p x q,
  ps !! p = Some x → p_parent x = Some q → ∃ y, ps !! q = Some y ∧ live (p_state y).

Record tab_inv (ps : list proc) (npid : Z) (init : option nat) : Prop := {
  tab_len : length ps = NPROC;
  tab_ok : Forall (proc_ok npid) ps;
  tab_pids : pids_ok ps;
  tab_parents : parents_ok ps;
  tab_init : ∀ i, init = Some i → ∃ x, ps !! i = Some x ∧ live (p_state x);
  tab_npid : 1 <= npid
}.

(** The processes that run, and the CPUs they run on; CPU [ex] is left out. *)
Record runs_ok (ex : nat) (m : mach) (ps : list proc) : Prop := {
  runs_sound : ∀ i p, (i < length (m_cpus m))%nat → i ≠ ex → c_proc (cpu_of i m) = Some p →
    ∃ x, ps !! p = Some x ∧ p_state x = RUNNING;
  runs_complete : ∀ p x, ps !! p = Some x → p_state x = RUNNING →
    ∃ i, (i < length (m_cpus m))%nat ∧ i ≠ ex ∧ c_proc (cpu_of i m) = Some p;
  runs_unique : ∀ i j p, (i < length (m_cpus m))%nat → (j < length (m_cpus m))%nat → i ≠ ex → j ≠ ex →
    c_proc (cpu_of i m) = Some p → c_proc (cpu_of j m) = Some p → i = j
}.

(** How an entry may change without a change of the process it holds. *)
Record pchange (x y : proc) : Prop := {
  pc_pid : p_pid y = p_pid x;
  pc_parent : p_parent y = p_parent x;
  pc_unused : p_state y = UNUSED ↔ p_state x = UNUSED;
  pc_live : live (p_state x) → live (p_state y)
}.
Definition same_running (x y : proc) : Prop := p_state y = RUNNING ↔ p_state x = RUNNING.

Lemma pchange_refl x : pchange x x.
Proof. by split. Qed.

Lemma tab_inv_change ps ps' npid init :
  tab_inv ps npid init → Forall2 pchange ps ps' → Forall (proc_ok npid) ps' → tab_inv ps' npid init.
Proof.
  intros [Hl Hok Hpid Hpar Hi Hn1] H Hok'. split.
  - by rewrite <-(Forall2_length _ _ _ H).
  - done.
  - intros p q x' y' Hx Hy Hux Huy Heq.
    destruct (Forall2_lookup_r _ _ _ _ _ H Hx) as (x & Hx0 & []).
    destruct (Forall2_lookup_r _ _ _ _ _ H Hy) as (y & Hy0 & []).
    eapply (Hpid p q x y); [done|done|tauto|tauto|congruence].
  - intros p x' q Hx Hq. destruct (Forall2_lookup_r _ _ _ _ _ H Hx) as (x & Hx0 & []).
    destruct (Hpar p x q Hx0) as (y & Hy & Hly); [congruence|].
    destruct (Forall2_lookup_l _ _ _ _ _ H Hy) as (y' & Hy' & []). eauto.
  - intros i Hi'. destruct (Hi i Hi') as (x & Hx & Hlx).
    destruct (Forall2_lookup_l _ _ _ _ _ H Hx) as (x' & Hx' & []). eauto.
  - done.
Qed.

Lemma runs_ok_change ex m ps ps' : runs_ok ex m ps → Forall2 same_running ps ps' → runs_ok ex m ps'.
Proof.
  intros [Hs Hc Hu] H. split; [| |done].
  - intros i p Hi Hne Hp. destruct (Hs i p Hi Hne Hp) as (x & Hx & Hr).
    destruct (Forall2_lookup_l _ _ _ _ _ H Hx) as (x' & Hx' & Hsr). exists x'.
    split; [done|by apply Hsr].
  - intros p x' Hx' Hr. destruct (Forall2_lookup_r _ _ _ _ _ H Hx') as (x & Hx & Hsr).
    apply (Hc p x Hx). by apply Hsr.
Qed.

Lemma runs_ok_mach ex m m' ps :
  length (m_cpus m') = length (m_cpus m) → (∀ i, i ≠ ex → c_proc (cpu_of i m') = c_proc (cpu_of i m)) →
  runs_ok ex m ps → runs_ok ex m' ps.
Proof.
  intros Hl Hp [Hs Hc Hu]. split; rewrite Hl.
  - intros i p Hi Hne. rewrite Hp by done. by apply Hs.
  - intros p x Hx Hr. destruct (Hc p x Hx Hr) as (i & ? & ? & ?). exists i. by rewrite Hp.
  - intros i j p Hi Hj Hni Hnj. rewrite !Hp by done. by apply Hu.
Qed.

Lemma Forall2_alter (f : proc → proc) p ps x :
  ps !! p = Some x → pchange x (f x) → Forall2 pchange ps (alter f p ps).
Proof.
  intros Hx Hf. apply Forall2_same_length_lookup_2; [by rewrite length_alter|].
  intros i y y' Hy Hy'. destruct (decide (i = p)) as [->|Hne].
  - rewrite list_lookup_alter_eq, Hx in Hy'. by simplify_eq/=.
  - rewrite list_lookup_alter_ne in Hy' by done. simplify_eq. apply pchange_refl.
Qed.

Lemma Forall_alter_ok npid f p ps x :
  Forall (proc_ok npid) ps → ps !! p = Some x → (proc_ok npid x → proc_ok npid (f x)) →
  Forall (proc_ok npid) (alter f p ps).
Proof. intros H Hx Hf. apply Forall_alter; [done|]. intros y Hy Hp. simplify_eq. auto. Qed.

(** A process stops running on CPU [c], or starts. *)
Lemma runs_leave m ps c p x f :
  runs_ok (length (m_cpus m)) m ps → (c < length (m_cpus m))%nat → c_proc (cpu_of c m) = Some p →
  ps !! p = Some x → p_state (f x) ≠ RUNNING → runs_ok c m (alter f p ps).
Proof.
  intros [Hs Hc Hu] Hcl Hp Hx Hf. split.
  - intros i q Hi Hne Hq. assert (q ≠ p) as Hqp.
    { intros ->. apply Hne. apply (Hu i c p); (done || lia). }
    rewrite list_lookup_alter_ne by done. by apply (Hs i q); [|lia|].
  - intros q y Hy Hr. destruct (decide (q = p)) as [->|Hne].
    { rewrite list_lookup_alter_eq, Hx in Hy. by simplify_eq/=. }
    rewrite list_lookup_alter_ne in Hy by done. destruct (Hc q y Hy Hr) as (i & Hi & _ & Hiq).
    exists i. split_and!; [done| |done]. intros ->. congruence.
  - intros i j q Hi Hj _ _. apply Hu; lia.
Qed.

Lemma runs_enter m m' ps c p x f :
  runs_ok c m ps → length (m_cpus m') = length (m_cpus m) → (c < length (m_cpus m))%nat →
  (∀ i, i ≠ c → c_proc (cpu_of i m') = c_proc (cpu_of i m)) → c_proc (cpu_of c m') = Some p →
  ps !! p = Some x → p_state x ≠ RUNNING → p_state (f x) = RUNNING →
  runs_ok (length (m_cpus m')) m' (alter f p ps).
Proof.
  intros [Hs Hc Hu] Hl Hcl Hm Hp Hx Hnr Hf.
  assert (∀ i q, (i < length (m_cpus m))%nat → i ≠ c → c_proc (cpu_of i m) = Some q → q ≠ p) as Hne.
  { intros i q Hi Hic Hq ->. destruct (Hs i p Hi Hic Hq) as (y & Hy & Hr). by simplify_eq. }
  split; rewrite Hl.
  - intros i q Hi _ Hq. destruct (decide (i = c)) as [->|Hic].
    + assert (q = p) as -> by congruence. exists (f x). by rewrite list_lookup_alter_eq, Hx.
    + rewrite Hm in Hq by done. rewrite list_lookup_alter_ne by (by apply not_eq_sym, (Hne i q)).
      by apply (Hs i).
  - intros q y Hy Hr. destruct (decide (q = p)) as [->|Hqp].
    + exists c. split_and!; [done|lia|done].
    + rewrite list_lookup_alter_ne in Hy by done. destruct (Hc q y Hy Hr) as (i & Hi & Hic & Hiq).
      exists i. split_and!; [done|lia|]. by rewrite Hm.
  - intros i j q Hi Hj _ _ Hiq Hjq.
    destruct (decide (i = c)) as [->|Hic], (decide (j = c)) as [->|Hjc]; [done|..].
    + rewrite Hm in Hjq by done. destruct (Hne j q Hj Hjc Hjq). congruence.
    + rewrite Hm in Hiq by done. destruct (Hne i q Hi Hic Hiq). congruence.
    + rewrite Hm in Hiq, Hjq by done. by apply (Hu i j q).
Qed.

Lemma runs_idle m ps c :
  runs_ok c m ps → c_proc (cpu_of c m) = None → runs_ok (length (m_cpus m)) m ps.
Proof.
  intros [Hs Hc Hu] Hn. split.
  - intros i p Hi _ Hp. apply (Hs i); [done| |done]. intros ->. congruence.
  - intros p x Hx Hr. destruct (Hc p x Hx Hr) as (i & ? & ? & ?). exists i. split_and!; [done|lia|done].
  - intros i j p Hi Hj _ _ Hip Hjp. apply (Hu i j p); try done; intros ->; congruence.
Qed.

(** ** The state of the kernel *)

(** What the sections under ptable.lock rely on: loading the processor's
    registers and freeing memory of a process cannot fail. *)
Class ProcEnvLaws (E : Type) `{!ProcEnv E} := {
  env_lcr3_ok : ∀ v e, ∃ e', env_lcr3 v e = Ok tt e';
  env_ltr_ok : ∀ v e, ∃ e', env_ltr v e = Ok tt e';
  env_kfree_ok : ∀ v e, v ≠ 0 → ∃ e', env_kfree v e = Ok tt e';
  env_freevm_ok : ∀ v e, v ≠ 0 → ∃ e', env_freevm v e = Ok tt e';
  env_kalloc_ok : ∀ e, ∃ v e', env_kalloc e = Ok v e';
  env_init_ok : ∀ e, ∃ e', env_init e = Ok tt e'
}.

Section inv.
Context {E : Type} `{!ProcEnv E, !ProcEnvLaws E}.
Implicit Types (s : pst E).

Definition ncpu s : nat := length (m_cpus (ps_mach s)).
Definition table_inv s : Prop := tab_inv (ps_table s) (ps_nextpid s) (ps_init s).
Definition loops_ok s : Prop :=
  length (ps_loop s) = ncpu s ∧ Forall (Forall (λ p, p < NPROC)%nat) (ps_loop s).

Record pinv s : Prop := {
  pi_mach : mfree (ps_mach s);
  pi_tab : table_inv s;
  pi_runs : runs_ok (ncpu s) (ps_mach s) (ps_table s);
  pi_loop : loops_ok s
}.

(** In a section of CPU [c], whose process is not counted as running. *)
Record psec (c n : nat) s : Prop := {
  se_mach : msec c n (ps_mach s);
  se_tab : table_inv s;
  se_runs : runs_ok c (ps_mach s) (ps_table s);
  se_loop : loops_ok s
}.

Lemma mm_run {A} (m : M mach A) s a x : m (ps_mach s) = Ok a x → mm m s = Ok a (put_mach x s).
Proof. intros H. unfold mm, zoom. by rewrite H. Qed.
Lemma ee_run {A} (m : M E A) s a x : m (ps_env s) = Ok a x → ee m s = Ok a (put_env x s).
Proof. intros H. unfold ee, zoom. by rewrite H. Qed.

Lemma put_mach_id s : put_mach (ps_mach s) s = s.
Proof. by destruct s. Qed.

Lemma proc_lookup s p : table_inv s → (p < NPROC)%nat → ps_table s !! p = Some (proc_of p s).
Proof. intros Ht Hp. apply list_lookup_lookup_total_lt. by rewrite (tab_len _ _ _ Ht). Qed.

Lemma proc_inv s p : table_inv s → (p < NPROC)%nat → proc_ok (ps_nextpid s) (proc_of p s).
Proof.
  intros Ht Hp. pose proof (tab_ok _ _ _ Ht) as H. rewrite Forall_lookup in H.
  by apply (H p), proc_lookup.
Qed.

Lemma table_lt s p x : table_inv s → ps_table s !! p = Some x → (p < NPROC)%nat.
Proof. intros Ht Hx. rewrite <-(tab_len _ _ _ Ht). by eapply lookup_lt_Some. Qed.

Lemma loops_ok_mach s m : length (m_cpus m) = ncpu s → loops_ok s → loops_ok (put_mach m s).
Proof. intros Hm [Hl Hf]. split; [|done]. unfold ncpu in *. simpl. by rewrite Hm. Qed.

(** The process of the CPU; reading it may only note the interrupt flag. *)
Definition noted (c : nat) (s s' : pst E) : Prop :=
  ∃ v, s' = put_mach (on_cpu c (set_intena v) (ps_mach s)) s.

Lemma myproc_run c s :
  cpu_ok c (ps_mach s) → (0 < c_ncli (cpu_of c (ps_mach s)) → c_if (cpu_of c (ps_mach s)) = false) →
  0 <= c_ncli (cpu_of c (ps_mach s)) →
  ∃ s', myproc c s = Ok (c_proc (cpu_of c (ps_mach s))) s' ∧ noted c s s' ∧
    (0 < c_ncli (cpu_of c (ps_mach s)) → s' = s).
Proof.
  intros Hok Hif Hn. pose proof Hok as [Hc _]. set (m := ps_mach s) in *.
  set (m1 := on_cpu c pushed m).
  assert (cpu_ok c m1) as Hok1 by (by apply cpu_ok_on).
  assert (cpu_of c m1 = pushed (cpu_of c m)) as H1 by (by apply cpu_of_on).
  assert (popcli c m1 = Ok tt (on_cpu c popped m1)) as Hpop.
  { apply popcli_run; [done|by rewrite H1|rewrite H1; simpl; lia]. }
  exists (put_mach (on_cpu c popped m1) s). split_and!.
  - unfold myproc. apply mm_run. fold m. rewrite (bind_run _ _ _ _ _ (pushcli_run c m Hok)).
    fold m1. rewrite mycpu_bind by (done || by rewrite H1). run.
    rewrite (bind_run _ _ _ _ _ Hpop). by rewrite H1.
  - exists (if c_ncli (cpu_of c m) =? 0 then c_if (cpu_of c m) else c_intena (cpu_of c m)).
    unfold m1. rewrite on_cpu_on. fold m. f_equal. apply on_cpu_ext; [done|].
    unfold popped, pushed, compose, set_intena. cbn [c_apicid c_if c_ncli c_intena c_proc].
    f_equal; [|lia]. destruct (Z.eqb_spec (c_ncli (cpu_of c m)) 0) as [E0|E0].
    + rewrite E0. by destruct (c_if (cpu_of c m)).
    + rewrite (proj2 (Z.eqb_neq _ _)) by lia. symmetry. apply Hif. lia.
  - intros Hpos. destruct (push_pop_id c m Hok (Hif Hpos) Hpos) as [_ H2].
    fold m1 in H2. rewrite Hpop in H2. injection H2 as ->. by destruct s.
Qed.

Lemma pinv_noted c s s' : pinv s → (c < ncpu s)%nat → noted c s s' → pinv s'.
Proof.
  intros [[Hm Hpt Hf] Ht Hr Hl] Hc [v ->]. split; simpl.
  - split; [by apply mach_inv_same|done|done].
  - done.
  - unfold ncpu in *. simpl. rewrite length_alter.
    apply (runs_ok_mach _ (ps_mach s)); [by rewrite length_on_cpu| |done].
    intros i Hi. destruct (decide (i = c)) as [->|]; [by rewrite cpu_of_on|by rewrite cpu_of_on_ne].
  - apply loops_ok_mach; [|done]. by rewrite length_on_cpu.
Qed.

Lemma pinv_cpu c s : pinv s → (c < ncpu s)%nat →
  cpu_ok c (ps_mach s) ∧ 0 <= c_ncli (cpu_of c (ps_mach s)) ∧
  (0 < c_ncli (cpu_of c (ps_mach s)) → c_if (cpu_of c (ps_mach s)) = false) ∧
  c_ncli (cpu_of c (ps_mach s)) = Z.of_nat (length (held_by c (ps_mach s))).
Proof.
  intros [[Hm Hpt Hf] _ _ _] Hc. destruct (mi_ncli _ _ Hm c _ (cpu_of_lookup c _ Hc)) as (? & ? & ?).
  split_and!; [by eapply mi_cpu_ok|lia|done|lia].
Qed.

(** The process that CPU [c] runs. *)
Definition runs c p s : Prop := (c < ncpu s)%nat ∧ c_proc (cpu_of c (ps_mach s)) = Some p.

Lemma curproc_run c p s :
  pinv s → runs c p s → ∃ s', curproc c s = Ok p s' ∧ noted c s s'.
Proof.
  intros Hs [Hc Hp]. destruct (pinv_cpu c s Hs Hc) as (Hok & Hn & Hif & _).
  destruct (myproc_run c s Hok Hif Hn) as (s' & H & Hno & _). exists s'. split; [|done].
  unfold curproc. rewrite (bind_run _ _ _ _ _ H). by rewrite Hp.
Qed.

Lemma msec_curproc c n p s :
  msec c n (ps_mach s) → c_proc (cpu_of c (ps_mach s)) = Some p → curproc c s = Ok p s.
Proof.
  intros Hm Hp. destruct (msec_cpu c n _ Hm) as (Hok & Hif & Hn & Hpos & _).
  destruct (myproc_run c s Hok) as (s' & H & _ & Heq); [done|lia|].
  unfold curproc. rewrite (bind_run _ _ _ _ _ H), Hp, Heq by lia. done.
Qed.

(** ** The primitives inside a section *)

Lemma switchkvm_run s : ∃ e, switchkvm s = Ok tt (put_env e s).
Proof.
  destruct (env_lcr3_ok (env_kpgdir (ps_env s)) (ps_env s)) as (e & He). exists e.
  unfold switchkvm. run. by apply ee_run.
Qed.

Lemma switchuvm_run c n p s :
  msec c n (ps_mach s) → p_kstack (proc_of p s) ≠ 0 → p_pgdir (proc_of p s) ≠ 0 →
  ∃ e, switchuvm c p s = Ok tt (put_env e s).
Proof.
  intros Hm Hk Hp. destruct (msec_cpu c n _ Hm) as (Hok & Hif & Hn & Hpos & _).
  destruct (push_pop_id c (ps_mach s) Hok Hif ltac:(lia)) as [H1 H2].
  destruct (env_ltr_ok (p_kstack (proc_of p s) + KSTACKSIZE) (ps_env s)) as (e1 & He1).
  destruct (env_lcr3_ok (p_pgdir (proc_of p s)) e1) as (e2 & He2). exists e2.
  unfold switchuvm. run. rewrite !run_panic_if by (by apply Z.eqb_neq).
  set (s1 := put_mach (on_cpu c pushed (ps_mach s)) s).
  rewrite (bind_run _ _ _ _ s1 (mm_run _ s _ _ H1)).
  rewrite (bind_run _ _ _ _ (put_env e1 s1) (ee_run (env_ltr _) s1 tt e1 He1)).
  rewrite (bind_run _ _ _ _ (put_env e2 s1) (ee_run (env_lcr3 _) (put_env e1 s1) tt e2 He2)).
  rewrite (mm_run (popcli c) (put_env e2 s1) tt (ps_mach s) H2). by destruct s.
Qed.

Lemma sched_enter_run c p s :
  msec c 1 (ps_mach s) → c_proc (cpu_of c (ps_mach s)) = Some p → p_state (proc_of p s) ≠ RUNNING →
  ∃ b, sched_enter c s = Ok b s.
Proof.
  intros Hm Hp Hst. destruct (msec_cpu c 1 _ Hm) as (Hok & Hif & Hn & _ & Hl). eexists.
  unfold sched_enter. rewrite (bind_run _ _ _ _ _ (msec_curproc c 1 p s Hm Hp)).
  rewrite (bind_run _ _ _ _ _ (mm_run _ s _ _ (holding_run c PTLOCK _ Hok Hif))), put_mach_id.
  rewrite Hl. cbn [lk_locked lk_cpu]. rewrite bool_decide_true by done. rewrite run_panic_if by done.
  rewrite (bind_run _ _ _ _ _ (mm_run (mycpu c) s _ _ (mycpu_run c _ Hok Hif))), put_mach_id.
  rewrite (bind_run _ _ _ _ _ (mm_run (gets (λ m, c_ncli (cpu_of c m))) s _ _ eq_refl)), put_mach_id.
  rewrite Hn, run_panic_if by done. run. rewrite bool_decide_false, run_panic_if by done.
  rewrite (bind_run _ _ _ _ _ (mm_run (readeflags c) s _ _ eq_refl)), put_mach_id.
  rewrite run_panic_if by done.
  rewrite (bind_run _ _ _ _ _ (mm_run (mycpu c) s _ _ (mycpu_run c _ Hok Hif))), put_mach_id.
  rewrite (mm_run (gets (λ m, c_intena (cpu_of c m))) s _ _ eq_refl), put_mach_id. done.
Qed.

Lemma sched_return_run c n b s :
  msec c n (ps_mach s) →
  sched_return c b s = Ok tt (put_mach (on_cpu c (set_intena b) (ps_mach s)) s).
Proof.
  intros Hm. destruct (msec_cpu c n _ Hm) as (Hok & Hif & _). unfold sched_return.
  rewrite (bind_run _ _ _ _ _ (mm_run (mycpu c) s _ _ (mycpu_run c _ Hok Hif))), put_mach_id.
  by apply mm_run.
Qed.

(** The end of a section. *)
Lemma pt_release c n s :
  msec c n (ps_mach s) → ∃ m, mm (release c PTLOCK) s = Ok tt (put_mach m s) ∧ mfree m ∧
    mframe c (ps_mach s) m ∧ length (held_by c m) = (n - 1)%nat ∧
    c_proc (cpu_of c m) = c_proc (cpu_of c (ps_mach s)).
Proof.
  intros Hm. destruct (ptlock_release c n _ Hm) as (m & H & ?). exists m. split; [by apply mm_run|done].
Qed.

Lemma pt_acquire c n s :
  mfree (ps_mach s) → (c < ncpu s)%nat → length (held_by c (ps_mach s)) = n →
  ∃ m, mm (acquire c PTLOCK) s = Ok tt (put_mach m s) ∧ msec c (S n) m ∧
    mframe c (ps_mach s) m ∧ c_proc (cpu_of c m) = c_proc (cpu_of c (ps_mach s)).
Proof.
  intros Hm Hc Hn. destruct (ptlock_acquire c n _ Hm Hc Hn) as (m & H & ?).
  exists m. split; [by apply mm_run|done].
Qed.

(** ** The scan of wait *)

Definition reap (y : proc) : proc :=
  set_state UNUSED (set_killed false (set_name (<[0%nat := 0]> (p_name y))
    (set_parent None (set_pid 0 (set_kstack 0 y))))).

Definition zombie_child p (y : proc) : Prop := p_parent y = Some p ∧ p_state y = ZOMBIE.

(** What the scan does to the table, and its result. *)
Definition scan_result (p : nat) (ps ps' : list proc) (l : list nat) (r : Z) : Prop :=
  (ps' = ps ∧ r = -1) ∨
  ∃ q y, q ∈ l ∧ ps !! q = Some y ∧ zombie_child p y ∧ r = p_pid y ∧ ps' = alter reap q ps.

Lemma wait_scan_run c n p l hk s :
  msec c n (ps_mach s) → Forall (λ q, q < length (ps_table s))%nat l →
  (∀ q y, ps_table s !! q = Some y → p_state y = ZOMBIE → p_kstack y ≠ 0 ∧ p_pgdir y ≠ 0) →
  ∃ r s', wait_scan c p l hk s = Ok r s' ∧
    match r with
    | None => s' = s ∧ p_killed (proc_of p s) = false ∧
        (∀ q, q ∈ l → ¬ zombie_child p (proc_of q s)) ∧
        (hk = true ∨ ∃ q, q ∈ l ∧ p_parent (proc_of q s) = Some p)
    | Some r => ∃ m e ps', s' = put_mach m (put_env e (put_table ps' s)) ∧ mfree m ∧
        mframe c (ps_mach s) m ∧ length (held_by c m) = (n - 1)%nat ∧
        c_proc (cpu_of c m) = c_proc (cpu_of c (ps_mach s)) ∧ scan_result p (ps_table s) ps' l r
    end.
Proof.
  intros Hm Hl Hz. revert hk. induction Hl as [|q l Hq Hl IH]; intros hk; cbn [wait_scan]; run.
  - destruct (negb hk || p_killed (proc_of p s)) eqn:Hk.
    + destruct (pt_release c n s Hm) as (m & H & Hmf & Hfr & Hh & Hc).
      exists (Some (-1)), (put_mach m s). split; [by rewrite (bind_run _ _ _ _ _ H)|].
      exists m, (ps_env s), (ps_table s). split_and!; [by destruct s|done..|by left].
    + exists None, s. apply orb_false_iff in Hk as [Hk1 Hk2]. split_and!; [done..| |].
      * intros q []%elem_of_nil.
      * left. by destruct hk.
  - assert (ps_table s !! q = Some (proc_of q s)) as Hlq by (by apply list_lookup_lookup_total_lt).
    case_bool_decide as Hpar.
    { destruct (IH hk) as (r & s' & H & Hr). exists r, s'. split; [done|]. destruct r as [r|].
      - destruct Hr as (m & e & ps' & ? & ? & ? & ? & ? & Hsc). exists m, e, ps'.
        split_and!; [done..|]. destruct Hsc as [?|(q' & y & ? & ?)]; [by left|].
        right. exists q', y. split; [by right|done].
      - destruct Hr as (? & ? & Hnz & Hk). split_and!; [done..| |].
        + intros q' [->|Hin]%elem_of_cons; [|by apply Hnz]. by intros [? _].
        + destruct Hk as [?|(q' & ? & ?)]; [by left|]. right. exists q'. split; [by right|done]. }
    case_bool_decide as Hst.
    + destruct (Hz q _ Hlq Hst) as [Hks Hpg].
      destruct (env_kfree_ok (p_kstack (proc_of q s)) (ps_env s) Hks) as (e1 & He1).
      set (s1 := put_env e1 s). set (s2 := put_table (alter (set_kstack 0) q (ps_table s)) s1).
      destruct (env_freevm_ok (p_pgdir (proc_of q s)) e1 Hpg) as (e2 & He2).
      set (s3 := put_env e2 s2).
      set (f := λ y, set_state UNUSED (set_killed false
          (set_name (<[0%nat := 0]> (p_name y)) (set_parent None (set_pid 0 y))))).
      set (s4 := put_table (alter f q (ps_table s3)) s3).
      destruct (pt_release c n s4 Hm) as (m & H & Hmf & Hfr & Hh & Hc).
      exists (Some (p_pid (proc_of q s))), (put_mach m s4). split.
      * rewrite (bind_run _ _ _ _ _ (ee_run (env_kfree _) s tt e1 He1)). fold s1.
        unfold upd_proc. run. fold s2.
        rewrite (bind_run _ _ _ _ _ (ee_run (env_freevm _) s2 tt e2 He2)). fold s3. run. fold f s4.
        by rewrite (bind_run _ _ _ _ _ H).
      * exists m, e2, (alter reap q (ps_table s)). split_and!; try done.
        -- unfold s4, s3, s2, s1. simpl. by rewrite list_alter_alter_eq.
        -- right. exists q, (proc_of q s). split; [by left|]. by split_and!.
    + destruct (IH true) as (r & s' & H & Hr). exists r, s'. split; [done|]. destruct r as [r|].
      * destruct Hr as (m & e & ps' & ? & ? & ? & ? & ? & Hsc). exists m, e, ps'.
        split_and!; [done..|]. destruct Hsc as [?|(q' & y & ? & ?)]; [by left|].
        right. exists q', y. split; [by right|done].
      * destruct Hr as (? & ? & Hnz & Hk). split_and!; [done..| |].
        -- intros q' [->|Hin]%elem_of_cons; [|by apply Hnz]. by intros [_ ?].
        -- right. exists q. split; [by left|done].
Qed.

(** ** Switching to a process *)

Lemma tab_alter ps npid init p x g :
  tab_inv ps npid init → ps !! p = Some x → pchange x (g x) → proc_ok npid (g x) →
  tab_inv (alter g p ps) npid init.
Proof.
  intros Ht Hx Hc Hok. apply (tab_inv_change ps); [done|by eapply Forall2_alter|].
  eapply Forall_alter_ok; [apply Ht|done|done].
Qed.

Lemma runs_alter ex m ps p x g :
  runs_ok ex m ps → ps !! p = Some x → (p_state (g x) = RUNNING ↔ p_state x = RUNNING) →
  runs_ok ex m (alter g p ps).
Proof.
  intros [Hs Hc Hu] Hx Hg. split; [| |done].
  - intros i q Hi Hne Hq. destruct (Hs i q Hi Hne Hq) as (y & Hy & Hr).
    destruct (decide (q = p)) as [->|Hqp].
    + exists (g x). rewrite list_lookup_alter_eq, Hx. simplify_eq. naive_solver.
    + exists y. by rewrite list_lookup_alter_ne.
  - intros q y Hy Hr. destruct (decide (q = p)) as [->|Hqp].
    + rewrite list_lookup_alter_eq, Hx in Hy. simplify_eq/=. apply (Hc p x); naive_solver.
    + rewrite list_lookup_alter_ne in Hy by done. by apply (Hc q y).
Qed.

Lemma tab_reap ps npid init q y :
  tab_inv ps npid init → ps !! q = Some y → p_state y = ZOMBIE → tab_inv (alter reap q ps) npid init.
Proof.
  intros [Hl Hok Hpid Hpar Hi Hn1] Hy Hz. assert (¬ live (p_state y)) as Hnl by (rewrite Hz; by intros [|[|]]).
  assert (∀ p x, p ≠ q → alter reap q ps !! p = Some x → ps !! p = Some x) as Hne.
  { intros p x Hp Hx. by rewrite list_lookup_alter_ne in Hx. }
  assert (∀ x, alter reap q ps !! q = Some x → x = reap y) as Heq.
  { intros x Hx. rewrite list_lookup_alter_eq, Hy in Hx. by simplify_eq/=. }
  assert (∀ p x, ps !! p = Some x → live (p_state x) → ∃ z, alter reap q ps !! p = Some z ∧ live (p_state z)) as Hlv.
  { intros p x Hx Hlx. exists x. rewrite list_lookup_alter_ne; [done|]. intros ->. by simplify_eq. }
  split.
  - by rewrite length_alter.
  - eapply Forall_alter_ok; [done|done|]. intros [].
    split; try done; unfold reap; simpl; [by intros [[|[|]]|]|auto].
  - intros p r x z Hx Hz' Hux Huz He. destruct (decide (p = q)) as [->|Hp].
    { apply Heq in Hx as ->. done. }
    destruct (decide (r = q)) as [->|Hr]; [by apply Heq in Hz' as ->|]. by eapply Hpid; eauto.
  - intros p x r Hx Hr. destruct (decide (p = q)) as [->|Hp]; [by apply Heq in Hx as ->|].
    destruct (Hpar p x r) as (z & Hz' & Hlz); [by apply Hne|done|]. by eapply Hlv.
  - intros i Hi'. destruct (Hi i Hi') as (x & Hx & Hlx). by eapply Hlv.
  - done.
Qed.

Lemma scan_tab p ps ps' l r npid init :
  tab_inv ps npid init → scan_result p ps ps' l r → tab_inv ps' npid init.
Proof.
  intros Ht [[-> _]|(q & y & _ & Hy & [_ Hz] & _ & ->)]; [done|]. by eapply tab_reap.
Qed.

Lemma scan_runs p ps ps' l r ex m :
  runs_ok ex m ps → scan_result p ps ps' l r → runs_ok ex m ps'.
Proof.
  intros Hr [[-> _]|(q & y & _ & Hy & [_ Hz] & _ & ->)]; [done|].
  eapply runs_alter; [done|done|]. unfold reap. simpl. by rewrite Hz.
Qed.

(** The process that starts to run keeps its entry through the scan. *)
Lemma scan_alter p x f ps ps' l r :
  ps !! p = Some x → p_state (f x) ≠ ZOMBIE → p_state x ≠ ZOMBIE → (∀ y, p_parent (f y) = p_parent y) →
  scan_result p (alter f p ps) ps' l r → ∃ ps0, scan_result p ps ps0 l r ∧ ps' = alter f p ps0 ∧
    ps0 !! p = Some x.
Proof.
  intros Hx Hf Hnz Hpar [[-> ->]|(q & y & Hq & Hy & [Hy1 Hy2] & -> & ->)].
  - exists ps. split_and!; [by left|done|done].
  - assert (q ≠ p) as Hqp.
    { intros ->. rewrite list_lookup_alter_eq, Hx in Hy. by simplify_eq/=. }
    rewrite list_lookup_alter_ne in Hy by done. exists (alter reap q ps). split_and!.
    + right. exists q, y. by split_and!.
    + by apply list_alter_alter_ne.
    + by rewrite list_lookup_alter_ne.
Qed.

(** The states between the choice of a process and its run: [s1] is [s0] with
    process [p] chosen by CPU [c]. *)
Record chosen c p s0 s1 : Prop := {
  ch_sec : psec c 1 s0;
  ch_lt : (p < NPROC)%nat;
  ch_runnable : p_state (proc_of p s0) = RUNNABLE;
  ch_mach : ps_mach s1 = on_cpu c (set_cproc (Some p)) (ps_mach s0);
  ch_table : ps_table s1 = alter (set_state RUNNING) p (ps_table s0);
  ch_npid : ps_nextpid s1 = ps_nextpid s0;
  ch_init : ps_init s1 = ps_init s0;
  ch_loop : loops_ok s1
}.

(** The fields that the scheduler leaves alone. *)
Definition same_fields (x y : proc) : Prop :=
  p_pid y = p_pid x ∧ p_kstack y = p_kstack x ∧ p_pgdir y = p_pgdir x ∧ p_parent y = p_parent x ∧
  p_ofile y = p_ofile x.

Lemma live_ok npid x y :
  proc_ok npid x → live (p_state x) → live (p_state y) → context_ok (p_state y) (p_context y) →
  same_fields x y → pchange x y ∧ proc_ok npid y.
Proof.
  intros [H1 H2 H3 H4 H5 H6 H7 H8] Hx Hy Hc (E1 & E2 & E3 & E4 & E5).
  assert (∀ st, live st → st ≠ UNUSED) as Hl by (by intros st [->|[->| ->]]).
  assert (p_state y = UNUSED ∨ p_state y = ZOMBIE ∨ p_state y = EMBRYO ∧ p_parent y = None → False) as Hcl.
  { destruct Hy as [->|[->| ->]]; intros [|[|[? _]]]; done. }
  pose proof (Hl _ Hx). pose proof (Hl _ Hy).
  split; split; rewrite ?E1, ?E2, ?E3, ?E4, ?E5 in *; auto; try done.
Qed.

(** How a resume ends: the process runs, outside of every section. *)
Lemma chosen_runs c p s0 s1 m ps0 g s2 :
  chosen c p s0 s1 → mfree m → mframe c (ps_mach s1) m → c_proc (cpu_of c m) = Some p →
  tab_inv ps0 (ps_nextpid s0) (ps_init s0) → runs_ok c (ps_mach s0) ps0 →
  ps0 !! p = Some (proc_of p s0) →
  p_state (g (proc_of p s0)) = RUNNING → context_ok RUNNING (p_context (g (proc_of p s0))) →
  same_fields (proc_of p s0) (g (proc_of p s0)) →
  ps_mach s2 = m → ps_table s2 = alter g p ps0 → ps_nextpid s2 = ps_nextpid s0 →
  ps_init s2 = ps_init s0 → ps_loop s2 = ps_loop s1 →
  pinv s2 ∧ runs c p s2.
Proof.
  intros [Hsec Hlt Hst Hm1 Ht1 Hn1 Hi1 Hlp] Hmf Hfr Hcp Htab Hruns Hp Hgr Hgc Hsf Em Et En Ei El.
  destruct (msec_cpu c 1 _ (se_mach _ _ _ Hsec)) as ([Hc _] & _).
  assert (length (m_cpus m) = ncpu s0) as Hlen.
  { rewrite (mf_cpus _ _ _ Hfr), Hm1, length_on_cpu. done. }
  assert (ncpu s2 = ncpu s0) as Hn2 by (unfold ncpu at 1; by rewrite Em).
  split; [split|].
  - by rewrite Em.
  - unfold table_inv. rewrite Et, En, Ei.
    destruct (live_ok (ps_nextpid s0) (proc_of p s0) (g (proc_of p s0))) as [Hpc Hgok]; try done.
    + apply proc_inv; [exact (se_tab _ _ _ Hsec)|done].
    + rewrite Hst. by right; left.
    + rewrite Hgr. by right; right.
    + by rewrite Hgr.
    + by eapply tab_alter.
  - unfold ncpu. rewrite Em, Et. eapply (runs_enter (ps_mach s0)); [done|done|done| |done|done| |done].
    + intros i Hi. rewrite (mf_proc _ _ _ Hfr i Hi), Hm1. by rewrite cpu_of_on_ne.
    + by rewrite Hst.
  - destruct Hlp as [Hl1 Hl2]. split; [|by rewrite El]. rewrite El, Hl1, Hn2.
    unfold ncpu. by rewrite Hm1, length_on_cpu.
  - split; [rewrite Hn2; exact Hc|]. by rewrite Em.
Qed.

(** A process that was sleeping in wait may go back to sleep when it is resumed. *)
Definition in_wait (x : proc) : Prop := ∃ b, p_context x = ctx_sleep PTLOCK b.

(** A process that sleeps in wait is resumed: it reaps a child, or sleeps again. *)
Lemma resume_wait c p s0 s1 s3 :
  chosen c p s0 s1 → msec c 1 (ps_mach s3) → mframe c (ps_mach s1) (ps_mach s3) →
  c_proc (cpu_of c (ps_mach s3)) = Some p →
  ps_table s3 = alter (set_chan 0 ∘ set_state RUNNING) p (ps_table s0) →
  ps_nextpid s3 = ps_nextpid s0 → ps_init s3 = ps_init s0 → ps_loop s3 = ps_loop s1 →
  ∃ b s', (r ← wait_scan c p (seq 0 NPROC) false;
    match r with
    | Some pid =>
        upd_proc p (λ x, set_context ctx_none (set_tf (wait_ret pid (p_tf x)) x));; mret true
    | None =>
        sleep_on p (chan_of p);;
        intena ← sched_enter c;
        upd_proc p (set_context (ctx_sleep PTLOCK intena));;
        mret false
    end) s3 = Ok b s' ∧ if b then pinv s' ∧ runs c p s'
      else psec c 1 s' ∧ ∀ q, q ≠ p → proc_of q s' = proc_of q s0.
Proof.
  intros Hch Hms Hfr Hcp Ht3 Hn3 Hi3 Hl3. pose proof Hch as [Hsec Hlt Hst Hm1 Ht1 Hn1 Hi1 Hlp].
  pose proof (proc_lookup s0 p (se_tab _ _ _ Hsec) Hlt) as Hx.
  pose proof (proc_inv s0 p (se_tab _ _ _ Hsec) Hlt) as Hok.
  pose proof (se_tab _ _ _ Hsec) as Htab. set (x := proc_of p s0) in *.
  set (f := set_chan 0 ∘ set_state RUNNING) in *.
  destruct (wait_scan_run c 1 p (seq 0 NPROC) false s3) as (r & s4 & H & Hr); [done| | |].
  { apply Forall_seq. intros q Hq. rewrite Ht3, length_alter, (tab_len _ _ _ Htab). lia. }
  { intros q y Hy Hz. destruct (decide (q = p)) as [->|Hne].
    - rewrite Ht3, list_lookup_alter_eq, Hx in Hy. by simplify_eq/=.
    - rewrite Ht3, list_lookup_alter_ne in Hy by done.
      pose proof (tab_ok _ _ _ Htab) as Hall. rewrite Forall_lookup in Hall.
      destruct (Hall q y Hy). split; [apply ok_kstack0; by rewrite Hz|apply ok_pgdir0; by right]. }
  rewrite (bind_run _ _ _ _ _ H). destruct r as [r|].
  - destruct Hr as (m & e & ps' & -> & Hmf & Hfr' & _ & Hcp' & Hsc). rewrite Ht3 in Hsc.
    destruct (scan_alter p x f _ _ _ _ Hx ltac:(done) ltac:(by rewrite Hst) ltac:(done) Hsc) as (ps0 & Hsc0 & -> & Hx0).
    eexists true, _. split; [done|].
    set (g := λ x, set_context ctx_none (set_tf (wait_ret r (p_tf x)) x)).
    apply (chosen_runs c p s0 s1 m ps0 (g ∘ f)); try done.
    + by eapply mframe_trans.
    + by rewrite Hcp'.
    + by eapply scan_tab.
    + eapply scan_runs; [exact (se_runs _ _ _ Hsec)|done].
    + by left.
    + simpl. by rewrite list_alter_alter_eq.
  - destruct Hr as (-> & _). unfold sleep_on, upd_proc. run.
    set (s5 := put_table (alter (set_state SLEEPING) p (ps_table (put_table (alter (set_chan (chan_of p)) p (ps_table s3)) s3)))
      (put_table (alter (set_chan (chan_of p)) p (ps_table s3)) s3)).
    assert (ps_table s5 = alter (set_state SLEEPING ∘ (set_chan (chan_of p) ∘ f)) p (ps_table s0)) as Ht5.
    { simpl. by rewrite Ht3, !list_alter_alter_eq. }
    destruct (sched_enter_run c p s5) as (b & Hb); [done|done| |].
    { unfold proc_of. rewrite Ht5, list_lookup_total_alter_eq; [done|].
      by rewrite (tab_len _ _ _ Htab). }
    rewrite (bind_run _ _ _ _ _ Hb). run. eexists false, _. split; [done|].
    set (g := set_context (ctx_sleep PTLOCK b) ∘ (set_state SLEEPING ∘ (set_chan (chan_of p) ∘ f))).
    assert (alter (set_context (ctx_sleep PTLOCK b)) p (ps_table s5) = alter g p (ps_table s0)) as Ht6.
    { by rewrite Ht5, list_alter_alter_eq. }
    destruct (live_ok (ps_nextpid s0) x (g x)) as [Hpc Hgok]; try done.
    { rewrite Hst. by right; left. } { by left. } { by eexists _, _. }
    split; [|intros q Hq; unfold proc_of; simpl; simpl in Ht6; rewrite Ht6; by apply list_lookup_total_alter_ne].
    split; simpl.
    + done.
    + unfold table_inv. simpl. simpl in Ht6. rewrite Ht6, Hn3, Hi3. by eapply tab_alter.
    + simpl in Ht6. rewrite Ht6. eapply runs_alter; [|done|by simpl; rewrite Hst].
      apply (runs_ok_mach c (ps_mach s0)); [| |exact (se_runs _ _ _ Hsec)].
      * by rewrite (mf_cpus _ _ _ Hfr), Hm1, length_on_cpu.
      * intros i Hi. rewrite (mf_proc _ _ _ Hfr i Hi), Hm1. by rewrite cpu_of_on_ne.
    + destruct Hlp as [Hl1 Hl2]. split; simpl; rewrite Hl3; [|done].
      rewrite Hl1. unfold ncpu. simpl. by rewrite (mf_cpus _ _ _ Hfr).
Qed.

Lemma resume_run c p s0 s1 :
  chosen c p s0 s1 →
  ∃ b s', resume c p (p_context (proc_of p s1)) s1 = Ok b s' ∧
    if b then pinv s' ∧ runs c p s'
    else psec c 1 s' ∧ in_wait (proc_of p s0) ∧ ∀ q, q ≠ p → proc_of q s' = proc_of q s0.
Proof.
  intros Hch. pose proof Hch as [Hsec Hlt Hst Hm1 Ht1 Hn1 Hi1 Hlp].
  pose proof (proc_lookup s0 p (se_tab _ _ _ Hsec) Hlt) as Hx.
  pose proof (proc_inv s0 p (se_tab _ _ _ Hsec) Hlt) as Hok. set (x := proc_of p s0) in *.
  assert (proc_of p s1 = set_state RUNNING x) as Hx1.
  { unfold proc_of. rewrite Ht1. apply list_lookup_total_correct. by rewrite list_lookup_alter_eq, Hx. }
  assert (msec c 1 (ps_mach s1)) as Hms1 by (rewrite Hm1; by apply msec_on; [apply (se_mach _ _ _ Hsec)|..]).
  destruct (msec_cpu c 1 _ Hms1) as ([Hc1 _] & _).
  assert (c_proc (cpu_of c (ps_mach s1)) = Some p) as Hcp1.
  { rewrite Hm1, cpu_of_on; [done|]. by rewrite Hm1, length_on_cpu in Hc1. }
  pose proof (ok_context _ _ Hok) as Hctx. rewrite Hst in Hctx. rewrite Hx1. cbn [p_context set_state].
  assert (live (p_state x)) as Hlive by (rewrite Hst; by right; left).
  destruct Hctx as [Hctx|[(b & Hctx)|(lk & b & Hctx)]]; rewrite Hctx; cbn [resume].
  - (* forkret *)
    unfold upd_proc. run. set (s2 := put_table (alter (set_context ctx_none) p (ps_table s1)) s1).
    destruct (pt_release c 1 s2 Hms1) as (m & H & Hmf & Hfr & _ & Hcp). simpl in Hcp.
    rewrite (bind_run _ _ _ _ _ H). run.
    assert (∀ fi e, pinv (put_env e (put_first fi (put_mach m s2))) ∧ runs c p (put_env e (put_first fi (put_mach m s2)))) as Hfin.
    { intros fi e. eapply (chosen_runs c p s0 s1 m (ps_table s0) (set_context ctx_none ∘ set_state RUNNING)); try done.
      - simpl. congruence. - exact (se_tab _ _ _ Hsec). - exact (se_runs _ _ _ Hsec).
      - by left.
      - simpl. by rewrite Ht1, list_alter_alter_eq. }
    destruct (ps_first (put_mach m s2)) eqn:Efirst.
    + run. destruct (env_init_ok (ps_env s2)) as (e & He). set (s3 := put_first false (put_mach m s2)).
      exists true, (put_env e s3). split; [|apply Hfin].
      by rewrite (bind_run _ _ _ _ _ (ee_run env_init s3 tt e He)).
    + exists true, (put_mach m s2). split; [done|].
      replace (put_mach m s2) with (put_env (ps_env s2) (put_first (ps_first s2) (put_mach m s2)))
        by (by destruct s2). apply Hfin.
  - (* yield *)
    unfold upd_proc. run. set (s2 := put_table (alter (set_context ctx_none) p (ps_table s1)) s1).
    rewrite (bind_run _ _ _ _ _ (sched_return_run c 1 b s2 Hms1)).
    set (s3 := put_mach (on_cpu c (set_intena b) (ps_mach s2)) s2).
    assert (msec c 1 (ps_mach s3)) as Hms3 by (by apply msec_on).
    destruct (pt_release c 1 s3 Hms3) as (m & H & Hmf & Hfr & _ & Hcp). simpl in Hcp.
    rewrite (bind_run _ _ _ _ _ H). exists true, (put_mach m s3). split; [done|].
    eapply (chosen_runs c p s0 s1 m (ps_table s0) (set_context ctx_none ∘ set_state RUNNING)); try done.
    + eapply mframe_trans; [apply (mframe_cpu c (set_intena b))|exact Hfr].
    + rewrite Hcp, cpu_of_on by done. done.
    + exact (se_tab _ _ _ Hsec).
    + exact (se_runs _ _ _ Hsec).
    + by left.
    + simpl. by rewrite Ht1, list_alter_alter_eq.
  - (* sleep *)
    rewrite (bind_run _ _ _ _ _ (sched_return_run c 1 b s1 Hms1)).
    set (s2 := put_mach (on_cpu c (set_intena b) (ps_mach s1)) s1).
    unfold upd_proc. run.
    set (s3 := put_table (alter (set_chan 0) p (ps_table s2)) s2).
    assert (msec c 1 (ps_mach s3)) as Hms3 by (by apply msec_on).
    assert (mframe c (ps_mach s1) (ps_mach s3)) as Hf3 by apply mframe_cpu.
    assert (c_proc (cpu_of c (ps_mach s3)) = Some p) as Hcp3 by (simpl; by rewrite cpu_of_on).
    assert (ps_table s3 = alter (set_chan 0 ∘ set_state RUNNING) p (ps_table s0)) as Ht3.
    { simpl. by rewrite Ht1, list_alter_alter_eq. }
    case_decide as Hlk.
    + destruct (resume_wait c p s0 s1 s3) as (b' & s' & H & Hb'); [done..|]. exists b', s'. split; [done|].
      destruct b'; [done|]. destruct Hb'. split_and!; [done| |done]. exists b. fold x. by rewrite Hctx, Hlk.
    + set (s4 := put_table (alter (set_context (ctx_acquire lk)) p (ps_table s3)) s3).
      destruct (pt_release c 1 s4 Hms3) as (m & H & Hmf & Hfr & _ & Hcp). simpl in Hcp.
      run. rewrite (bind_run _ _ _ _ _ H). exists true, (put_mach m s4). split; [done|].
      eapply (chosen_runs c p s0 s1 m (ps_table s0)
        (set_context (ctx_acquire lk) ∘ (set_chan 0 ∘ set_state RUNNING))); try done.
      * by eapply mframe_trans.
      * by rewrite Hcp, cpu_of_on.
      * exact (se_tab _ _ _ Hsec).
      * exact (se_runs _ _ _ Hsec).
      * right; by exists lk.
      * change (ps_table (put_mach m s4)) with (alter (set_context (ctx_acquire lk)) p (ps_table s3)).
        by rewrite Ht3, list_alter_alter_eq.
Qed.

(** ** The scheduler *)

Lemma psec_release c n s :
  psec c n s → c_proc (cpu_of c (ps_mach s)) = None →
  ∃ m, mm (release c PTLOCK) s = Ok tt (put_mach m s) ∧ pinv (put_mach m s) ∧
    length (held_by c m) = (n - 1)%nat.
Proof.
  intros [Hm Ht Hr Hl] Hn. destruct (pt_release c n s Hm) as (m & H & Hmf & Hfr & Hh & Hc).
  exists m. split_and!; [done| |done]. split; simpl; [done|done| |].
  - unfold ncpu. simpl. apply (runs_idle _ _ c); [|congruence].
    apply (runs_ok_mach c (ps_mach s)); [apply Hfr|apply Hfr|done].
  - apply loops_ok_mach; [apply Hfr|done].
Qed.

Lemma psec_env c n e s : psec c n s → psec c n (put_env e s).
Proof. by intros []. Qed.

(** Leaving the process: the CPU belongs to its scheduler. *)
Lemma psec_idle c n s :
  psec c n s → psec c n (put_mach (on_cpu c (set_cproc None) (ps_mach s)) s).
Proof.
  intros [Hm Ht Hr Hl]. split; simpl; [by apply msec_on|done| |].
  - apply (runs_ok_mach c (ps_mach s)); [by rewrite length_on_cpu| |done].
    intros i Hi. by rewrite cpu_of_on_ne.
  - apply loops_ok_mach; [|done]. by rewrite length_on_cpu.
Qed.

Lemma choose_run c p l s :
  psec c 1 s → (p < NPROC)%nat → Forall (λ q, q < NPROC)%nat l → p_state (proc_of p s) = RUNNABLE →
  ∃ s1, chosen c p s s1 ∧
    ∀ k : M (pst E) unit, (mm (modify (on_cpu c (set_cproc (Some p))));;
      switchuvm c p;;
      upd_proc p (set_state RUNNING);;
      modify (λ s, put_loop (<[c := l]> (ps_loop s)) s);; k) s = k s1.
Proof.
  intros Hs Hp Hl Hst. pose proof Hs as [Hm Ht Hr Hlp].
  pose proof (proc_inv s p Ht Hp) as Hok. destruct (msec_cpu c 1 _ Hm) as ([Hc _] & _).
  set (s1 := put_mach (on_cpu c (set_cproc (Some p)) (ps_mach s)) s).
  assert (msec c 1 (ps_mach s1)) as Hm1 by (by apply msec_on).
  destruct (switchuvm_run c 1 p s1 Hm1) as (e & He).
  { apply (ok_kstack _ _ Hok). by rewrite Hst. }
  { apply (ok_pgdir _ _ Hok). left. rewrite Hst. by right; left. }
  eexists. split; [|intros k].
  2: { rewrite (bind_run _ _ s tt s1) by done. rewrite (bind_run _ _ _ _ _ He).
       unfold upd_proc. run. reflexivity. }
  split; try done. destruct Hlp as [Hl1 Hl2]. split; simpl.
  - rewrite length_insert, Hl1. unfold ncpu. simpl. by rewrite length_alter.
  - by apply Forall_insert.
Qed.

(** The loop runs a process if one is ready to go on. *)
Definition ready (x : proc) : Prop := p_state x = RUNNABLE ∧ ¬ in_wait x.

Lemma loop_run c l s :
  psec c 1 s → c_proc (cpu_of c (ps_mach s)) = None → Forall (λ q, q < NPROC)%nat l →
  ∃ s', scheduler_loop c l s = Ok tt s' ∧ pinv s' ∧
    ∀ q, q ∈ l → ready (proc_of q s) → ∃ p, runs c p s'.
Proof.
  intros Hs Hc Hl. revert s Hs Hc. induction Hl as [|p l Hp Hl IH]; intros s Hs Hc; cbn [scheduler_loop].
  - destruct (psec_release c 1 s Hs Hc) as (m & H & Hi & _). eexists. split_and!; [done|done|].
    by intros q []%elem_of_nil.
  - run. case_bool_decide as Hst.
    { destruct (IH s Hs Hc) as (s' & H & Hi & Hq). exists s'. split_and!; [done|done|].
      intros q [->|Hin]%elem_of_cons Hr; [by destruct Hr|by apply (Hq q)]. }
    destruct (choose_run c p l s Hs Hp Hl) as (s1 & Hch & Hrun); [by destruct (p_state (proc_of p s)); naive_solver|].
    rewrite Hrun. run. destruct (resume_run c p s s1 Hch) as (b & s2 & H2 & Hb).
    rewrite (bind_run _ _ _ _ _ H2). destruct b.
    { exists s2. destruct Hb as [? ?]. split_and!; [done|done|]. intros q _ _. by exists p. }
    destruct Hb as (Hb & Hw & Hoth).
    destruct (switchkvm_run s2) as (e & He). rewrite (bind_run _ _ _ _ _ He).
    set (s3 := put_env e s2). assert (psec c 1 s3) as Hs3 by (by apply psec_env).
    set (s4 := put_mach (on_cpu c (set_cproc None) (ps_mach s3)) s3).
    rewrite (bind_run _ _ s3 tt s4) by done. destruct (IH s4) as (s' & H & Hi & Hq); [by apply psec_idle| |].
    { simpl. rewrite cpu_of_on; [done|]. destruct (msec_cpu c 1 _ (se_mach _ _ _ Hs3)) as ([? _] & _). done. }
    exists s'. split_and!; [done|done|]. intros q Hin Hr. destruct (decide (q = p)) as [->|Hne]; [by destruct Hr|].
    apply elem_of_cons in Hin as [|Hin]; [done|]. apply (Hq q Hin).
    change (proc_of q s4) with (proc_of q s2). by rewrite Hoth.
Qed.

Lemma swtch_scheduler_run c s :
  psec c 1 s → ∃ s', swtch_scheduler c s = Ok tt s' ∧ pinv s'.
Proof.
  intros Hs. destruct (switchkvm_run s) as (e & He). unfold swtch_scheduler.
  rewrite (bind_run _ _ _ _ _ He). set (s1 := put_env e s).
  assert (psec c 1 s1) as Hs1 by (by apply psec_env).
  set (s2 := put_mach (on_cpu c (set_cproc None) (ps_mach s1)) s1).
  rewrite (bind_run _ _ s1 tt s2) by done. run.
  destruct (msec_cpu c 1 _ (se_mach _ _ _ Hs1)) as ([Hc _] & _).
  destruct (loop_run c (ps_loop s2 !!! c) s2) as (s' & ? & ? & _); [by apply psec_idle|simpl; by rewrite cpu_of_on| |by eauto].
  destruct (se_loop _ _ _ Hs) as [Hl Hf]. rewrite Forall_lookup in Hf. simpl.
  apply (Hf c). apply list_lookup_lookup_total_lt. rewrite Hl. exact Hc.
Qed.

(** A round of the scheduler on an idle CPU. *)
Lemma scheduler_run c s :
  pinv s → (c < ncpu s)%nat → c_proc (cpu_of c (ps_mach s)) = None →
  held_by c (ps_mach s) = [] → ∃ s', scheduler c s = Ok tt s' ∧ pinv s' ∧
    ∀ q, (q < NPROC)%nat → ready (proc_of q s) → ∃ p, runs c p s'.
Proof.
  intros Hs Hc Hn Hh. pose proof Hs as [[Hm Hpt Hf] Ht Hr Hl].
  destruct (pinv_cpu c s Hs Hc) as (Hok & _ & _ & Hncli). rewrite Hh in Hncli.
  set (s1 := put_mach (on_cpu c (set_if true) (ps_mach s)) s).
  assert (mfree (ps_mach s1)) as Hmf1.
  { split; [|done|done]. apply (mach_inv_cpu (ps_mach s) (λ _, 0)); try done; simpl; rewrite ?Hh, Hncli; simpl; lia. }
  destruct (pt_acquire c 0 s1 Hmf1) as (m & H & Hms & Hfr & Hcp).
  { unfold ncpu. simpl. by rewrite length_alter. }
  { change (length (held_by c (ps_mach s)) = 0%nat). by rewrite Hh. }
  unfold scheduler. rewrite (bind_run _ _ s tt s1) by done. rewrite (bind_run _ _ _ _ _ H).
  destruct (loop_run c (seq 0 NPROC) (put_mach m s1)) as (s' & H1 & H2 & H3); cycle -1.
  { exists s'. split_and!; [done|done|]. intros q Hq. apply (H3 q). apply elem_of_seq. lia. }
  1: split; simpl; [done|done| |].
  - apply (runs_ok_mach c (ps_mach s)).
    + rewrite (mf_cpus _ _ _ Hfr). simpl. by rewrite length_alter.
    + intros i Hi. rewrite (mf_proc _ _ _ Hfr i Hi). simpl. by rewrite cpu_of_on_ne.
    + destruct Hr as [Hr1 Hr2 Hr3]. split.
      * intros i p Hi _. apply Hr1; [done|unfold ncpu; lia].
      * intros p x Hx Hst. destruct (Hr2 p x Hx Hst) as (i & Hi & _ & Hip).
        exists i. split_and!; [done| |done]. intros ->. congruence.
      * intros i j p Hi Hj _ _. apply Hr3; unfold ncpu; lia.
  - apply loops_ok_mach; [apply (mf_cpus _ _ _ Hfr)|].
    apply loops_ok_mach; [by rewrite length_on_cpu|done].
  - simpl. rewrite Hcp. simpl. by rewrite cpu_of_on.
  - apply Forall_seq. lia.
Qed.

(** ** Sections of a running process *)

Lemma run_upd {A} p f (k : unit → M (pst E) A) s :
  (upd_proc p f ≫= k) s = k tt (put_table (alter f p (ps_table s)) s).
Proof. done. Qed.

Lemma put_alter_alter p f g s :
  put_table (alter f p (ps_table (put_table (alter g p (ps_table s)) s)))
    (put_table (alter g p (ps_table s)) s) = put_table (alter (f ∘ g) p (ps_table s)) s.
Proof. unfold put_table. cbn [ps_table]. by rewrite <-list_alter_alter_eq. Qed.

(** Inside a section, with every running process counted. *)
Record pin (c n : nat) s : Prop := {
  in_mach : msec c n (ps_mach s);
  in_tab : table_inv s;
  in_runs : runs_ok (ncpu s) (ps_mach s) (ps_table s);
  in_loop : loops_ok s
}.

Lemma pin_enter c n s :
  pinv s → (c < ncpu s)%nat → length (held_by c (ps_mach s)) = n →
  ∃ m, mm (acquire c PTLOCK) s = Ok tt (put_mach m s) ∧ pin c (S n) (put_mach m s) ∧
    mframe c (ps_mach s) m ∧ c_proc (cpu_of c m) = c_proc (cpu_of c (ps_mach s)).
Proof.
  intros [Hm Ht Hr Hl] Hc Hn. destruct (pt_acquire c n s Hm Hc Hn) as (m & H & Hms & Hfr & Hcp).
  exists m. split_and!; [done| |done|done]. split; simpl; [done|done| |].
  - unfold ncpu in *. simpl. rewrite (mf_cpus _ _ _ Hfr).
    apply (runs_ok_mach _ (ps_mach s)); [apply Hfr| |done].
    intros i Hi. destruct (decide (i = c)) as [->|Hne]; [done|by apply Hfr].
  - apply loops_ok_mach; [apply Hfr|done].
Qed.

Lemma pin_leave c n s :
  pin c n s → ∃ m, mm (release c PTLOCK) s = Ok tt (put_mach m s) ∧ pinv (put_mach m s) ∧
    mframe c (ps_mach s) m ∧ length (held_by c m) = (n - 1)%nat ∧
    c_proc (cpu_of c m) = c_proc (cpu_of c (ps_mach s)).
Proof.
  intros [Hm Ht Hr Hl]. destruct (pt_release c n s Hm) as (m & H & Hmf & Hfr & Hh & Hcp).
  exists m. split_and!; [done| |done..]. split; simpl; [done|done| |].
  - unfold ncpu in *. simpl. rewrite (mf_cpus _ _ _ Hfr).
    apply (runs_ok_mach _ (ps_mach s)); [apply Hfr| |done].
    intros i Hi. destruct (decide (i = c)) as [->|Hne]; [done|by apply Hfr].
  - apply loops_ok_mach; [apply Hfr|done].
Qed.

(** A table change that keeps who runs. *)
Lemma pin_table c n s t :
  pin c n s → tab_inv t (ps_nextpid s) (ps_init s) → runs_ok (ncpu s) (ps_mach s) t →
  pin c n (put_table t s).
Proof. by intros []. Qed.

Lemma runs_state c p s :
  table_inv s → runs_ok (ncpu s) (ps_mach s) (ps_table s) → runs c p s →
  (p < NPROC)%nat ∧ p_state (proc_of p s) = RUNNING.
Proof.
  intros Ht Hr [Hc Hp]. destruct (runs_sound _ _ _ Hr c p Hc) as (x & Hx & Hst);
    [intros Heq; unfold ncpu in *; lia|done|].
  split; [by eapply table_lt|]. unfold proc_of. by rewrite (list_lookup_total_correct _ _ _ Hx).
Qed.

(** sched up to its swtch, from the state in which the process has stopped to
    run: ptable.lock is held in [s1], where the scheduler goes on. *)
Definition sched c p (ctx : bool → context) : M (pst E) unit :=
  intena ← sched_enter c; upd_proc p (set_context (ctx intena));; swtch_scheduler c.

Lemma sched_switch_gen c p s g (ctx : bool → context) :
  pin c 1 s → c_proc (cpu_of c (ps_mach s)) = Some p → p_state (g (proc_of p s)) ≠ RUNNING →
  (∀ b, tab_inv (alter (set_context (ctx b) ∘ g) p (ps_table s)) (ps_nextpid s) (ps_init s)) →
  ∃ b, let s1 := put_table (alter (set_context (ctx b) ∘ g) p (ps_table s)) s in
    sched c p ctx (put_table (alter g p (ps_table s)) s) = swtch_scheduler c s1 ∧ psec c 1 s1.
Proof.
  intros [Hm Ht Hr Hl] Hp Hnr Htab. destruct (msec_cpu c 1 _ Hm) as ([Hc _] & _).
  destruct (runs_state c p s Ht Hr) as [Hlt Hst]; [by split|].
  pose proof (proc_lookup s p Ht Hlt) as Hx. set (s1 := put_table (alter g p (ps_table s)) s).
  destruct (sched_enter_run c p s1) as (b & Hb); [done|done| |].
  { unfold proc_of. simpl. rewrite list_lookup_total_alter_eq by (by rewrite (tab_len _ _ _ Ht)). done. }
  exists b. unfold sched. rewrite (bind_run _ _ _ _ _ Hb), run_upd.
  unfold s1. rewrite put_alter_alter. split; [done|]. split; simpl; [done|apply Htab| |done].
  by eapply runs_leave.
Qed.

Lemma sched_switch c p s g (ctx : bool → context) :
  pin c 1 s → c_proc (cpu_of c (ps_mach s)) = Some p →
  live (p_state (g (proc_of p s))) → p_state (g (proc_of p s)) ≠ RUNNING →
  (∀ b, context_ok (p_state (g (proc_of p s))) (ctx b)) →
  same_fields (proc_of p s) (g (proc_of p s)) →
  ∃ b, let s1 := put_table (alter (set_context (ctx b) ∘ g) p (ps_table s)) s in
    sched c p ctx (put_table (alter g p (ps_table s)) s) = swtch_scheduler c s1 ∧ psec c 1 s1.
Proof.
  intros Hs Hp Hlive Hnr Hctx Hsf. apply sched_switch_gen; [done..|]. intros b.
  destruct Hs as [Hm Ht Hr Hl]. destruct (msec_cpu c 1 _ Hm) as ([Hc _] & _).
  destruct (runs_state c p s Ht Hr) as [Hlt Hst]; [by split|].
  destruct (live_ok (ps_nextpid s) (proc_of p s) ((set_context (ctx b) ∘ g) (proc_of p s))) as [Hpc Hok].
  { by apply proc_inv. } { rewrite Hst. by right; right. } { done. } { apply Hctx. } { done. }
  eapply tab_alter; [done|by apply proc_lookup|done|done].
Qed.

(** A routine that gives up the CPU: it keeps ptable.lock up to the scheduler, to
    which it leaves the table [t]. *)
Definition gives_up c (m : M (pst E) unit) s (t : bool → list proc) : Prop :=
  ∃ b s1, m s = swtch_scheduler c s1 ∧ psec c 1 s1 ∧ ps_table s1 = t b.

Lemma gives_up_run c m s t : gives_up c m s t → ∃ s', m s = Ok tt s' ∧ pinv s'.
Proof. intros (b & s1 & -> & Hs1 & _). by apply swtch_scheduler_run. Qed.

Lemma yield_run c p s :
  pinv s → runs c p s → held_by c (ps_mach s) = [] →
  gives_up c (yield c) s (λ b, alter (set_context (ctx_yield b) ∘ set_state RUNNABLE) p (ps_table s)).
Proof.
  intros Hs [Hc Hp] Hh. destruct (pin_enter c 0 s Hs Hc) as (m & H & Hin & _ & Hcp); [by rewrite Hh|].
  unfold gives_up, yield. rewrite (bind_run _ _ _ _ _ H). set (s1 := put_mach m s) in *.
  assert (c_proc (cpu_of c (ps_mach s1)) = Some p) as Hp1 by (simpl; congruence).
  rewrite (bind_run _ _ _ _ _ (msec_curproc c 1 p s1 (in_mach _ _ _ Hin) Hp1)).
  rewrite run_upd.
  destruct (sched_switch c p s1 (set_state RUNNABLE) ctx_yield) as (b & Hb & Hs2); try done.
  { by right; left. } { intros b. right; left. by exists b. }
  eexists b, _. by split_and!.
Qed.

(** Giving back another lock inside a section. *)
Lemma release_other c n lk s :
  pin c (S (S n)) s → lk ≠ PTLOCK → (lk < length (m_locks (ps_mach s)))%nat →
  lk_cpu (lock_of lk (ps_mach s)) = Some c →
  ∃ m, mm (release c lk) s = Ok tt (put_mach m s) ∧ pin c (S n) (put_mach m s) ∧
    lock_of lk m = Spinlock false None ∧ c_proc (cpu_of c m) = c_proc (cpu_of c (ps_mach s)).
Proof.
  intros [Hm Ht Hr Hl] Hne Hlk Ho. destruct (msec_cpu c _ _ Hm) as (Hok & Hif & Hn & _ & _).
  pose proof Hm as [Hmi Hpt Hpo Hh]. pose proof Hok as [Hc _].
  destruct (holder_spec _ _ c lk Hmi Hlk Ho) as (_ & _ & _ & Hlv).
  set (v := Spinlock false None). set (m := on_cpu c popped (on_lock lk v (ps_mach s))).
  pose proof (held_by_on_lock c lk v (ps_mach s) Hlk) as Hhh.
  rewrite Ho, decide_True in Hhh by done. simpl in Hhh.
  exists m. split_and!; [|split; simpl| |].
  - apply mm_run. apply release_run; [done|done|lia|done].
  - split; [by apply release_inv|simpl; by rewrite length_insert| |].
    + unfold m, lock_of. simpl. by rewrite list_lookup_total_insert_ne.
    + unfold m. rewrite held_by_on_cpu. lia.
  - done.
  - unfold ncpu in *. simpl. rewrite length_alter. apply (runs_ok_mach _ (ps_mach s)); [| |done].
    + simpl. by rewrite length_alter.
    + intros i Hi. unfold m. destruct (decide (i = c)) as [->|]; [by rewrite cpu_of_on|by rewrite cpu_of_on_ne].
  - apply loops_ok_mach; [|done]. simpl. by rewrite length_alter.
  - unfold m, lock_of. simpl. by apply list_lookup_total_insert_eq.
  - unfold m. by rewrite cpu_of_on.
Qed.

(** sleep never loses the lock it was called with: it blocks the process and
    gives the lock back in one section. *)
Lemma sleep_run c p chan lk s :
  pinv s → runs c p s → length (held_by c (ps_mach s)) = 1%nat → lk ≠ PTLOCK →
  (lk < length (m_locks (ps_mach s)))%nat → lk_cpu (lock_of lk (ps_mach s)) = Some c →
  ∃ b s1, sleep c chan lk s = swtch_scheduler c s1 ∧ psec c 1 s1 ∧
    lock_of lk (ps_mach s1) = Spinlock false None ∧
    ps_table s1 = alter (set_context (ctx_sleep lk b) ∘ (set_state SLEEPING ∘ set_chan chan)) p (ps_table s).
Proof.
  intros Hs [Hc Hp] Hh Hne Hlk Ho. destruct (pinv_cpu c s Hs Hc) as (Hok & Hn0 & Hif & Hn).
  destruct (myproc_run c s Hok Hif Hn0) as (s0 & H0 & _ & Heq). rewrite Heq in H0 by lia.
  destruct (pin_enter c 1 s Hs Hc Hh) as (m & H & Hin & Hfr & Hcp).
  unfold sleep. rewrite (bind_run _ _ _ _ _ H0), Hp, (bind_run _ _ _ _ _ H).
  destruct (release_other c 0 lk (put_mach m s) Hin Hne) as (m' & H' & Hin' & Hlf & Hcp'); simpl.
  { by rewrite (mf_locks _ _ _ Hfr). } { by rewrite (mf_lock _ _ _ Hfr). }
  rewrite (bind_run _ _ _ _ _ H'). unfold sleep_on. run. rewrite !run_upd.
  set (s1 := put_mach m' (put_mach m s)) in *.
  destruct (sched_switch c p s1 (set_state SLEEPING ∘ set_chan chan) (ctx_sleep lk)) as (b & Hb & Hs2); try done.
  { simpl in *. congruence. } { by left. } { intros b. by exists lk, b. }
  exists b. eexists. split_and!; [|exact Hs2|done|done]. rewrite <-Hb. by rewrite put_alter_alter.
Qed.

(** ** wakeup and kill *)

Lemma wakeup1_rel chan npid ps :
  Forall (proc_ok npid) ps →
  Forall2 pchange ps (wakeup1_table chan ps) ∧ Forall2 same_running ps (wakeup1_table chan ps) ∧
  Forall (proc_ok npid) (wakeup1_table chan ps).
Proof.
  unfold wakeup1_table. induction 1 as [|x ps Hx Hps IH]; [by repeat constructor|].
  destruct IH as (IH1 & IH2 & IH3). rewrite fmap_cons. cbv beta.
  assert (∃ y, (if decide (p_state x = SLEEPING ∧ p_chan x = chan) then set_state RUNNABLE x else x) = y ∧
    pchange x y ∧ same_running x y ∧ proc_ok npid y) as (y & -> & ? & ? & ?);
    [|by split_and!; (apply Forall2_cons || apply Forall_cons)].
  eexists. split; [done|]. case_decide as Hd; [|by split_and!].
  destruct Hd as [Hst _]. destruct (live_ok npid x (set_state RUNNABLE x)) as [? ?]; try done.
  - rewrite Hst. by left.
  - by right; left.
  - pose proof (ok_context _ _ Hx) as Hc. rewrite Hst in Hc. right; right. exact Hc.
  - split_and!; [done| |done]. unfold same_running. simpl. by rewrite Hst.
Qed.

Lemma pin_wakeup1 c n chan s :
  pin c n s → pin c n (put_table (wakeup1_table chan (ps_table s)) s).
Proof.
  intros [Hm Ht Hr Hl]. destruct (wakeup1_rel chan _ _ (tab_ok _ _ _ Ht)) as (H1 & H2 & H3).
  split; simpl; [done| | |done].
  - by eapply tab_inv_change.
  - by eapply runs_ok_change.
Qed.

Lemma wakeup_run c chan s :
  pinv s → (c < ncpu s)%nat → ∃ s', wakeup c chan s = Ok tt s' ∧ pinv s' ∧
    ps_table s' = wakeup1_table chan (ps_table s) ∧ mframe c (ps_mach s) (ps_mach s') ∧
    c_proc (cpu_of c (ps_mach s')) = c_proc (cpu_of c (ps_mach s)).
Proof.
  intros Hs Hc. destruct (pin_enter c _ s Hs Hc eq_refl) as (m & H & Hin & Hfr & Hcp).
  unfold wakeup, wakeup1. rewrite (bind_run _ _ _ _ _ H). run.
  destruct (pin_leave c _ _ (pin_wakeup1 c _ chan _ Hin)) as (m' & H' & Hi' & Hfr' & _ & Hcp').
  eexists. split; [exact H'|]. split_and!; [done|done| |].
  - by eapply mframe_trans.
  - simpl in *. congruence.
Qed.

(** kill marks the first process with the pid, and wakes it if it sleeps. *)
Definition kill_entry (y : proc) : proc :=
  let y := set_killed true y in if decide (p_state y = SLEEPING) then set_state RUNNABLE y else y.

Lemma kill_run c pid s :
  pinv s → (c < ncpu s)%nat → ∃ r s', kill c pid s = Ok r s' ∧ pinv s' ∧ ncpu s' = ncpu s ∧
    match list_find (λ p, p_pid p = pid) (ps_table s) with
    | Some (q, _) => r = 0 ∧ ps_table s' = alter kill_entry q (ps_table s)
    | None => r = -1 ∧ ps_table s' = ps_table s
    end.
Proof.
  intros Hs Hc. destruct (pin_enter c _ s Hs Hc eq_refl) as (m & H & Hin & Hfr & Hcp).
  unfold kill. rewrite (bind_run _ _ _ _ _ H). run. cbn [ps_table put_mach].
  destruct (list_find _ (ps_table s)) as [[q y]|] eqn:Ef.
  - apply list_find_Some in Ef as (Hy & _ & _). rewrite run_upd. run.
    set (s1 := put_table _ _).
    assert (proc_of q s1 = set_killed true y) as Hq.
    { unfold proc_of, s1. simpl. apply list_lookup_total_correct. by rewrite list_lookup_alter_eq, Hy. }
    rewrite Hq.
    assert (∃ s2, (if bool_decide (p_state (set_killed true y) = SLEEPING)
      then upd_proc q (set_state RUNNABLE) else mret tt) s1 = Ok tt s2 ∧
      s2 = put_table (alter kill_entry q (ps_table s)) (put_mach m s)) as (s2 & H2 & Hs2).
    { assert (∀ f, f (set_killed true y) = kill_entry y →
        alter f q (alter (set_killed true) q (ps_table s)) = alter kill_entry q (ps_table s)) as Hf.
      { intros f Hf. rewrite list_alter_alter_eq. apply list_alter_ext; [|done].
        intros y' Hy'. by simplify_eq. }
      case_bool_decide as Hst; eexists; (split; [done|]).
      - unfold s1. unfold put_table. cbn [ps_table put_mach]. f_equal. apply Hf.
        unfold kill_entry. by rewrite decide_True.
      - unfold s1. unfold put_table. cbn [ps_table put_mach]. f_equal. rewrite <-(Hf id).
        + by rewrite (list_alter_id id).
        + unfold kill_entry. by rewrite decide_False. }
    rewrite (bind_run _ _ _ _ _ H2), Hs2.
    assert (proc_ok (ps_nextpid s) y) as Hok.
    { pose proof (tab_ok _ _ _ (in_tab _ _ _ Hin)) as Hall. rewrite Forall_lookup in Hall. by apply (Hall q). }
    assert (pchange y (kill_entry y) ∧ proc_ok (ps_nextpid s) (kill_entry y) ∧ same_running y (kill_entry y)) as (H3 & H4 & H5).
    { unfold kill_entry. case_decide as Hst; simpl in Hst.
      - destruct (live_ok (ps_nextpid s) y (set_state RUNNABLE (set_killed true y))) as [? ?]; try done.
        + rewrite Hst. by left. + by right; left.
        + pose proof (ok_context _ _ Hok) as Hx. rewrite Hst in Hx. right; right. exact Hx.
        + split_and!; [done..|]. unfold same_running. simpl. by rewrite Hst.
      - split_and!; [by split|by destruct Hok; split|done]. }
    destruct (pin_leave c (S (length (held_by c (ps_mach s))))
      (put_table (alter kill_entry q (ps_table s)) (put_mach m s))) as (m' & H' & Hi' & Hfr' & _).
    { apply pin_table; [done| |].
      - eapply tab_alter; [apply Hin|done|done|done].
      - eapply runs_alter; [apply Hin|done|done]. }
    rewrite (bind_run _ _ _ _ _ H'). eexists _, _. split; [done|].
    split; [done|split; [exact (mf_cpus _ _ _ (mframe_trans _ _ _ _ Hfr Hfr'))|done]].
  - destruct (pin_leave c _ _ Hin) as (m' & H' & Hi' & Hfr' & _).
    rewrite (bind_run _ _ _ _ _ H'). eexists _, _. split; [done|].
    split; [done|split; [exact (mf_cpus _ _ _ (mframe_trans _ _ _ _ Hfr Hfr'))|done]].
Qed.
End inv.
