(* ===== verification/ProcSpec.v ===== *)
(** * Processes: fork, wait, exit, and every interleaving

    The remaining routines of proc.c as sections, the step relation of the
    kernel on processes, and what holds in every reachable state. *)

From S2P Require Import Prelude Cstring Spinlock Proc ProcInv.

Section ops.
Context {E : Type} `{!ProcEnv E, !ProcEnvLaws E}.
Implicit Types (s : pst E).

(** The start of a routine that the running process calls: its own entry is
    found, and ptable.lock is taken. *)
Lemma curproc_enter c p s :
  pinv s → runs c p s → ∃ s0, curproc c s = Ok p s0 ∧ pinv s0 ∧ runs c p s0 ∧
    ps_table s0 = ps_table s ∧ ps_nextpid s0 = ps_nextpid s ∧ ps_init s0 = ps_init s ∧
    ps_loop s0 = ps_loop s ∧ ps_env s0 = ps_env s ∧
    held_by c (ps_mach s0) = held_by c (ps_mach s) ∧ ncpu s0 = ncpu s.
Proof.
  intros Hs Hr. pose proof Hr as [Hc Hp]. destruct (curproc_run c p s Hs Hr) as (s0 & H & Hn).
  exists s0. pose proof (pinv_noted c s s0 Hs Hc Hn) as Hs0. destruct Hn as [v ->].
  assert (ncpu (put_mach (on_cpu c (set_intena v) (ps_mach s)) s) = ncpu s) as Hnc
    by (unfold ncpu; simpl; by rewrite length_alter).
  split_and!; try done. split; [by rewrite Hnc|]. simpl. by rewrite cpu_of_on.
Qed.

(** A run with a result appended. *)
Lemma bind3_ret {A B} (m1 : M (pst E) A) (m2 : A → M (pst E) unit) m3 (r : B) s s' :
  (a ← m1; m2 a;; m3) s = Ok tt s' → (a ← m1; m2 a;; m3;; mret r) s = Ok r s'.
Proof.
  unfold mbind, M_bind. destruct (m1 s) as [a s1| | |]; [|done..].
  destruct (m2 a s1) as [[] s2| | |]; [|done..]. by intros ->.
Qed.

(** ** wait *)

(** The scan fails only without children to wait for, or for a killed process. *)
Lemma wait_scan_fails c p l hk s s' :
  (∀ q, q ∈ l → p_state (proc_of q s) = ZOMBIE → 1 <= p_pid (proc_of q s)) →
  wait_scan c p l hk s = Ok (Some (-1)) s' →
  p_killed (proc_of p s) = true ∨ hk = false ∧ ∀ q, q ∈ l → p_parent (proc_of q s) ≠ Some p.
Proof.
  intros Hpid. revert hk. induction l as [|q l IH]; intros hk; simpl wait_scan; run.
  - destruct hk; simpl; [|right; split; [done|by intros q Hq%elem_of_nil]].
    destruct (p_killed (proc_of p s)); [by left|done].
  - assert (∀ r, r ∈ l → p_state (proc_of r s) = ZOMBIE → 1 <= p_pid (proc_of r s)) as Hpid'
      by (intros r Hr; apply Hpid; by right).
    case_bool_decide as Hpar.
    { intros H. destruct (IH Hpid' hk H) as [?|[? Hl]]; [by left|right; split; [done|]].
      intros r [->|Hr]%elem_of_cons; [done|by apply Hl]. }
    case_bool_decide as Hz; [|intros H; destruct (IH Hpid' true H) as [?|[? _]]; [by left|done]].
    intros H. pose proof (Hpid q ltac:(by left) Hz).
    repeat (apply bind_Ok in H as (? & ? & _ & H)). injection H. lia.
Qed.

Definition no_child p s : Prop := ∀ q, (q < NPROC)%nat → p_parent (proc_of q s) ≠ Some p.

(** What wait does: it frees a dead child and returns its pid, or fails, or gives
    up the CPU. *)
Definition wait_post c p s (r : option Z) s' : Prop :=
  match r with
  | Some r => runs c p s' ∧ length (held_by c (ps_mach s')) = 0%nat ∧
      ((∃ q, (q < NPROC)%nat ∧ zombie_child p (proc_of q s) ∧ r = p_pid (proc_of q s) ∧
         ps_table s' = alter reap q (ps_table s)) ∨
       (r = -1 ∧ ps_table s' = ps_table s ∧ (p_killed (proc_of p s) = true ∨ no_child p s)))
  | None => p_killed (proc_of p s) = false ∧ (∀ q, (q < NPROC)%nat → ¬ zombie_child p (proc_of q s)) ∧
      ∃ q, (q < NPROC)%nat ∧ p_parent (proc_of q s) = Some p
  end.

Lemma wait_run c p s :
  pinv s → runs c p s → held_by c (ps_mach s) = [] →
  ∃ r s', wait c s = Ok r s' ∧ pinv s' ∧ wait_post c p s r s'.
Proof.
  intros Hs Hr Hh. destruct (curproc_enter c p s Hs Hr) as
    (s0 & H0 & Hs0 & Hr0 & Ht & Hn & Hi & Hl & _ & Hh0 & Hnc).
  destruct (pin_enter c 0 s0 Hs0 (proj1 Hr0)) as (m & H & Hin & Hfr & Hcp); [by rewrite Hh0, Hh|].
  unfold wait. rewrite (bind_run _ _ _ _ _ H0), (bind_run _ _ _ _ _ H).
  set (s1 := put_mach m s0) in *. pose proof (in_tab _ _ _ Hin) as Htab.
  assert (c_proc (cpu_of c (ps_mach s1)) = Some p) as Hcp1 by (simpl; rewrite Hcp; apply Hr0).
  assert (ps_table s1 = ps_table s) as Ht1 by (simpl; done).
  destruct (wait_scan_run c 1 p (seq 0 NPROC) false s1 (in_mach _ _ _ Hin)) as (r & s2 & H2 & Hsc).
  { apply Forall_seq. intros q Hq. rewrite (tab_len _ _ _ Htab). lia. }
  { intros q y Hy Hz. pose proof (tab_ok _ _ _ Htab) as Hall. rewrite Forall_lookup in Hall.
    destruct (Hall q y Hy). split; [apply ok_kstack; by rewrite Hz|apply ok_pgdir; by right]. }
  rewrite (bind_run _ _ _ _ _ H2). destruct r as [r|].
  - destruct Hsc as (m' & e & ps' & -> & Hmf & Hfr' & Hhd & Hcp' & Hsc).
    eexists (Some r), _. split; [done|].
    assert (ncpu (put_mach m' (put_env e (put_table ps' s1))) = ncpu s1) as Hnc'.
    { unfold ncpu. simpl. apply Hfr'. }
    split; [|split; [|split]].
    + split; simpl; [done| | |].
      * by eapply scan_tab.
      * eapply scan_runs; [|done]. rewrite Hnc'.
        apply (runs_ok_mach _ (ps_mach s1)); [apply Hfr'| |apply Hin].
        intros i Hi'. destruct (decide (i = c)) as [->|]; [done|by apply Hfr'].
      * destruct (in_loop _ _ _ Hin) as [Hl1 Hl2]. split; [by rewrite Hnc'|done].
    + split; [rewrite Hnc'; apply (msec_cpu c 1 _ (in_mach _ _ _ Hin))|]. simpl. by rewrite Hcp'.
    + simpl. by rewrite Hhd.
    + simpl. assert (∀ q, proc_of q s1 = proc_of q s) as Hpe by (intros q; unfold proc_of; by rewrite Ht1).
      destruct Hsc as [[-> ->]|(q & y & Hq & Hy & Hz & -> & ->)].
      * right. apply wait_scan_fails in H2 as [Hk|[_ Hno]].
        -- split_and!; [done..|]. left. by rewrite <-Hpe.
        -- split_and!; [done..|]. right. intros q Hq. rewrite <-Hpe. apply Hno, elem_of_seq. lia.
        -- intros q _ Hz. assert ((q < NPROC)%nat) as Hq.
           { destruct (decide (q < NPROC)%nat) as [|Hge]; [done|]. exfalso. revert Hz. unfold proc_of.
             rewrite list_lookup_total_alt, lookup_ge_None_2; [done|]. rewrite (tab_len _ _ _ Htab). lia. }
           apply (ok_pid _ _ (proc_inv s1 q Htab Hq)). by rewrite Hz.
      * left. exists q. assert (proc_of q s = y) as Hqy.
        { unfold proc_of. rewrite <-Ht1. by apply list_lookup_total_correct. }
        rewrite Hqy. apply elem_of_seq in Hq. split_and!; [lia|done|done|by rewrite <-Ht1].
  - destruct Hsc as (-> & Hk & Hnz & Hkid). run. unfold sleep_on. run. rewrite !run_upd, put_alter_alter.
    destruct (sched_switch c p s1 (set_state SLEEPING ∘ set_chan (chan_of p)) (ctx_sleep PTLOCK))
      as (b & Hb & Hs2); try done.
    { by left. } { intros b. by eexists _, _. }
    destruct (swtch_scheduler_run c _ Hs2) as (s3 & H3 & Hs3).
    exists None, s3. split; [|split].
    + apply (bind3_ret (sched_enter c)
        (λ b, upd_proc p (set_context (ctx_sleep PTLOCK b))) (swtch_scheduler c)).
      etrans; [exact Hb|exact H3].
    + done.
    + assert (∀ q, proc_of q s1 = proc_of q s) as Hpe by (intros q; unfold proc_of; by rewrite Ht1).
      rewrite Hpe in Hk. split_and!; [done| |].
      * intros q Hq. rewrite <-Hpe. apply Hnz. apply elem_of_seq. lia.
      * destruct Hkid as [?|(q & Hq & Hpar)]; [done|]. exists q. rewrite <-Hpe.
        apply elem_of_seq in Hq. split; [lia|done].
Qed.

(** ** exit *)

(** The children of a process that exits are passed to init. *)
Definition reparented (p init : nat) (x : proc) : proc :=
  if decide (p_parent x = Some p) then set_parent (Some init) x else x.

Lemma tab_reparent ps npid init q x :
  tab_inv ps npid (Some init) → ps !! q = Some x → p_parent x ≠ None →
  tab_inv (alter (set_parent (Some init)) q ps) npid (Some init).
Proof.
  intros [Hl Hok Hpid Hpar Hi Hn1] Hx Hux.
  assert (∀ p y, alter (set_parent (Some init)) q ps !! p = Some y → ∃ z, ps !! p = Some z ∧
    p_state y = p_state z ∧ p_pid y = p_pid z ∧
    (p_parent y = p_parent z ∨ p_parent y = Some init)) as Hlk.
  { intros p y. destruct (decide (p = q)) as [->|Hne].
    - rewrite list_lookup_alter_eq, Hx. intros [= <-]. exists x. by split_and!; [..|right].
    - rewrite list_lookup_alter_ne by done. intros Hy. exists y. by split_and!; [..|left]. }
  assert (∀ p z, ps !! p = Some z → ∃ y, alter (set_parent (Some init)) q ps !! p = Some y ∧
    p_state y = p_state z) as Hlk'.
  { intros p z Hz. destruct (decide (p = q)) as [->|Hne].
    - rewrite list_lookup_alter_eq, Hx. simplify_eq. by eexists.
    - rewrite list_lookup_alter_ne by done. by exists z. }
  split.
  - by rewrite length_alter.
  - eapply Forall_alter_ok; [done|done|]. intros [? ? ? ? Hu He ? Hcl]. split; simpl; try done.
    + intros E0. by destruct (Hu E0).
    + intros E0 _. by apply He.
    + intros [?|[?|[_ ?]]]; [by apply Hcl; left|by apply Hcl; right; left|done].
  - intros p r y z Hy Hz Huy Huz Heq. apply Hlk in Hy as (y' & Hy & Ey & Epy & _).
    apply Hlk in Hz as (z' & Hz & Ez & Epz & _). apply (Hpid p r y' z'); congruence.
  - assert (∀ r, (∃ y, ps !! r = Some y ∧ live (p_state y)) →
      ∃ y, alter (set_parent (Some init)) q ps !! r = Some y ∧ live (p_state y)) as Hlv.
    { intros r (y & Hy & Hly). destruct (Hlk' r y Hy) as (y' & ? & E'). exists y'. by rewrite E'. }
    intros p y r Hy Hr. apply Hlv. apply Hlk in Hy as (z & Hz & _ & _ & [E'|E']); rewrite E' in Hr.
    + by apply (Hpar p z).
    + simplify_eq. by apply Hi.
  - intros i [= <-]. destruct (Hi init eq_refl) as (y & Hy & Hly).
    destruct (Hlk' init y Hy) as (y' & ? & E'). exists y'. by rewrite E'.
  - done.
Qed.

(** The process that has no child left becomes a zombie. *)
Lemma tab_zombie ps npid init p x :
  tab_inv ps npid (Some init) → ps !! p = Some x → live (p_state x) → init ≠ p →
  p_ofile x = replicate NOFILE None → (∀ q y, ps !! q = Some y → p_parent y ≠ Some p) →
  tab_inv (alter (set_context ctx_exit ∘ set_state ZOMBIE) p ps) npid (Some init).
Proof.
  intros [Hl Hok Hpid Hpar Hi Hn1] Hx Hlive Hne Hof Hno. set (f := set_context ctx_exit ∘ set_state ZOMBIE).
  assert (∀ q y, alter f p ps !! q = Some y → ∃ z, ps !! q = Some z ∧
    p_pid y = p_pid z ∧ p_parent y = p_parent z ∧ (p_state y ≠ UNUSED → p_state z ≠ UNUSED)) as Hlk.
  { intros q y. destruct (decide (q = p)) as [->|Hq].
    - rewrite list_lookup_alter_eq, Hx. intros [= <-]. exists x. split_and!; try done.
      intros _. by destruct Hlive as [->|[->| ->]].
    - rewrite list_lookup_alter_ne by done. by exists y. }
  assert (∀ r, r ≠ p → alter f p ps !! r = ps !! r) as Hoth by (intros; by apply list_lookup_alter_ne).
  split.
  - by rewrite length_alter.
  - eapply Forall_alter_ok; [done|done|]. intros [H1 H2 H3 H4 H5 H6].
    assert (p_state x ≠ UNUSED) by (by destruct Hlive as [->|[->| ->]]).
    split; simpl; auto; done.
  - intros q r y z Hy Hz Huy Huz Heq. apply Hlk in Hy as (y' & Hy & Epy & _ & Hu1).
    apply Hlk in Hz as (z' & Hz & Epz & _ & Hu2). apply (Hpid q r y' z'); auto; congruence.
  - intros q y r Hy Hr. apply Hlk in Hy as (z & Hz & _ & Epar & _). rewrite Epar in Hr.
    destruct (Hpar q z r Hz Hr) as (y' & Hy' & Hly'). exists y'. split; [|done].
    rewrite Hoth; [done|]. intros ->. by destruct (Hno q z Hz).
  - intros i [= <-]. rewrite Hoth by done. by apply Hi.
  - done.
Qed.

(** A process that waits for a child. *)
Definition waits (r : nat) (x : proc) : Prop := p_state x = SLEEPING ∧ p_chan x = chan_of r.
#[local] Instance waits_dec r x : Decision (waits r x).
Proof. unfold waits. apply _. Defined.

(** A waiting process after a wakeup, if there was one. *)
Definition roused (b : bool) (r : nat) (x : proc) : proc :=
  if decide (b = true ∧ waits r x) then set_state RUNNABLE x else x.

Lemma proc_of_wakeup1 chan q s :
  table_inv s → (q < NPROC)%nat →
  proc_of q (put_table (wakeup1_table chan (ps_table s)) s) =
    if decide (p_state (proc_of q s) = SLEEPING ∧ p_chan (proc_of q s) = chan)
    then set_state RUNNABLE (proc_of q s) else proc_of q s.
Proof.
  intros Ht Hq. unfold proc_of at 1. simpl. apply list_lookup_total_correct.
  unfold wakeup1_table. by rewrite list_lookup_fmap, (proc_lookup s q Ht Hq).
Qed.

Lemma proc_of_alter f p q s :
  table_inv s → (p < NPROC)%nat → (q < NPROC)%nat →
  proc_of q (put_table (alter f p (ps_table s)) s) = if decide (q = p) then f (proc_of p s) else proc_of q s.
Proof.
  intros Ht Hp Hq. apply list_lookup_total_correct. simpl. case_decide as Hd; [subst q|].
  - by rewrite list_lookup_alter_eq, (proc_lookup s p Ht Hp).
  - by rewrite list_lookup_alter_ne, (proc_lookup s q Ht Hq).
Qed.

Lemma wake_roused r x : (if decide (p_state x = SLEEPING ∧ p_chan x = chan_of r) then set_state RUNNABLE x else x) = roused true r x.
Proof.
  unfold roused. change (p_state x = SLEEPING ∧ p_chan x = chan_of r) with (waits r x).
  destruct (decide (true = true ∧ waits r x)) as [[_ Hw]|Hw]; case_decide as Hd; tauto.
Qed.
Lemma roused_parent b r x : p_parent (roused b r x) = p_parent x.
Proof. unfold roused. by case_decide. Qed.
Lemma roused_zombie b r x : p_state (roused b r x) = ZOMBIE ↔ p_state x = ZOMBIE.
Proof. unfold roused. case_decide as Hd; [|done]. destruct Hd as [_ [Hw _]]. rewrite Hw. by split. Qed.
Lemma roused_again b r x : roused true r (roused b r x) = roused true r x.
Proof.
  assert (∀ b x, roused b r x = if decide (b = true ∧ waits r x) then set_state RUNNABLE x else x) as Hro by done.
  rewrite (Hro b x). case_decide as Hd; [|done]. destruct Hd as [_ Hw]. rewrite !Hro.
  rewrite decide_False by (intros [_ [? _]]; done). by rewrite decide_True.
Qed.
Lemma roused_set_parent b r q x : roused b r (set_parent q x) = set_parent q (roused b r x).
Proof.
  unfold roused. change (waits r (set_parent q x)) with (waits r x).
  by destruct (decide (b = true ∧ waits r x)) as [Hd|Hd].
Qed.

(** The loop over the children: [s0] is the state before it, [l] are the entries to
    come, and the flag says whether init was woken. *)
Record reparenting c p init s0 (l : list nat) s : Prop := {
  rp_in : pin c 1 s;
  rp_cur : c_proc (cpu_of c (ps_mach s)) = Some p;
  rp_init : ps_init s = Some init;
  rp_exact : ∃ b : bool, (b = true ↔ (∃ r, (r < NPROC)%nat ∧ (r ∉ l) ∧ zombie_child p (proc_of r s0))) ∧
    ∀ q, (q < NPROC)%nat → proc_of q s =
      roused b init (if decide (q ∈ l) then proc_of q s0 else reparented p init (proc_of q s0))
}.

Lemma reparent_step c p init s0 q l s :
  (q < NPROC)%nat → q ∉ l → reparenting c p init s0 (q :: l) s →
  p_parent (proc_of q s) = Some p →
  let s1 := put_table (alter (set_parent (Some init)) q (ps_table s)) s in
  let s2 := if bool_decide (p_state (proc_of q s) = ZOMBIE)
            then put_table (wakeup1_table (chan_of init) (ps_table s1)) s1 else s1 in
  reparenting c p init s0 l s2.
Proof.
  intros Hq Hql [Hin Hc Hi (b & Hb & Hx)] Hpar s1 s2. pose proof (in_tab _ _ _ Hin) as Ht.
  pose proof (proc_lookup s q Ht Hq) as Hlq.
  assert (pin c 1 s1) as Hin1.
  { apply pin_table; [done| |].
    - rewrite Hi. eapply tab_reparent; [|done|by rewrite Hpar]. rewrite <-Hi. apply Ht.
    - eapply runs_alter; [apply Hin|done|done]. }
  pose proof (in_tab _ _ _ Hin1) as Ht1.
  pose proof (Hx q Hq) as Hxq. rewrite decide_True in Hxq by (by left).
  assert (p_parent (proc_of q s0) = Some p) as Hpar0 by (by rewrite Hxq, roused_parent in Hpar).
  assert (∀ r, (r < NPROC)%nat → proc_of r s1 =
    roused b init (if decide (r ∈ l) then proc_of r s0 else reparented p init (proc_of r s0))) as H1.
  { intros r Hr. unfold s1. rewrite proc_of_alter by done. case_decide as Hd.
    - subst r. rewrite decide_False by done. unfold reparented. rewrite decide_True by done.
      by rewrite roused_set_parent, Hxq.
    - rewrite (Hx r Hr). destruct (decide (r ∈ l)) as [Hl|Hl].
      + by rewrite decide_True by (by right).
      + rewrite decide_False; [done|]. intros [?|?]%elem_of_cons; done. }
  set (z := bool_decide (p_state (proc_of q s) = ZOMBIE)) in *.
  split.
  - unfold s2. destruct z; [by apply pin_wakeup1|done].
  - unfold s2. by destruct z.
  - unfold s2. by destruct z.
  - exists (b || z). split.
    + rewrite orb_true_iff, Hb. unfold z. rewrite bool_decide_eq_true, Hxq, roused_zombie. split.
      * intros [(r & Hr & Hrl & Hz)|Hz]; [exists r; set_solver|]. by exists q.
      * intros (r & Hr & Hrl & Hz). destruct (decide (r = q)) as [->|Hne]; [right; apply Hz|left].
        exists r. split_and!; [done| |done]. intros [?|?]%elem_of_cons; done.
    + intros r Hr. unfold s2. destruct z; [|by rewrite orb_false_r, H1].
      rewrite proc_of_wakeup1 by done. by rewrite wake_roused, H1, roused_again, orb_true_r.
Qed.

Lemma reparent_run c p init s :
  pin c 1 s → c_proc (cpu_of c (ps_mach s)) = Some p → ps_init s = Some init →
  ∃ s', reparent p init s = Ok tt s' ∧ reparenting c p init s [] s' ∧
    ps_nextpid s' = ps_nextpid s ∧ ps_mach s' = ps_mach s ∧ ps_env s' = ps_env s.
Proof.
  intros Hin Hc Hi.
  destruct (for_each_inv (λ l s', (NoDup l ∧ Forall (λ q, q < NPROC)%nat l) ∧ reparenting c p init s l s' ∧
    ps_nextpid s' = ps_nextpid s ∧ ps_mach s' = ps_mach s ∧ ps_env s' = ps_env s) (seq 0 NPROC) (λ q,
    y ← gets (proc_of q);
    if bool_decide (p_parent y = Some p) then
      upd_proc q (set_parent (Some init));;
      if bool_decide (p_state y = ZOMBIE) then wakeup1 (chan_of init) else mret tt
    else mret tt) s) as (s' & H & _ & Hr & Hn & Hm).
  - split; [split; [apply NoDup_seq|apply Forall_seq; lia]|]. split_and!; try done. split; try done.
    exists false. split; [split; [done|]|].
    + intros (r & Hr & Hn & _). exfalso. apply Hn, elem_of_seq. lia.
    + intros q Hq. rewrite decide_True by (apply elem_of_seq; lia). unfold roused. by rewrite decide_False by naive_solver.
  - intros q l s1 ([Hnd Hall] & Hr & Hn & Hm). apply Forall_cons in Hall as [Hq Hall]. apply NoDup_cons in Hnd as [Hql Hnd].
    run. case_bool_decide as Hpar.
    + pose proof (reparent_step c p init s q l s1 Hq Hql Hr Hpar) as Hst. cbv zeta in Hst.
      rewrite run_upd. case_bool_decide; (eexists; split; [done|]; split; [done|]; split; [exact Hst|done]).
    + eexists. split; [done|]. split_and!; try done; try apply Hm. destruct Hr as [A B C (b & Hb & Hx)]. split; try done.
      pose proof (Hx q Hq) as Hxq. rewrite decide_True in Hxq by (by left).
      assert (p_parent (proc_of q s) ≠ Some p) as Hpar0 by (by rewrite Hxq, roused_parent in Hpar).
      exists b. split.
      * rewrite Hb. split; intros (r & Hr & Hrl & Hz); exists r; split_and!; try done; [set_solver|].
        intros [->|?]%elem_of_cons; [|done]. by destruct Hz.
      * intros r Hr. rewrite (Hx r Hr). destruct (decide (r = q)) as [->|].
        -- rewrite decide_True by (by left). rewrite decide_False by done. unfold reparented. by rewrite decide_False.
        -- destruct (decide (r ∈ l)); [by rewrite decide_True by (by right)|].
           rewrite decide_False; [done|]. intros [?|?]%elem_of_cons; done.
  - exists s'. tauto.
Qed.

(** The channel on which the parent waits. *)
Definition parent_chan (x : proc) : Z := match p_parent x with Some q => chan_of q | None => 0 end.

(** What exit makes of the table, entry by entry: those that sleep on the parent's channel are
    woken, the children get init as their parent, init is woken if it waits and got a dead
    child, and the process itself is a zombie. *)
Definition woken_on (chan : Z) (x : proc) : proc :=
  if decide (p_state x = SLEEPING ∧ p_chan x = chan) then set_state RUNNABLE x else x.
Definition exit_entry (p init q : nat) (b : bool) s : proc :=
  let x := roused b init (reparented p init (woken_on (parent_chan (proc_of p s)) (proc_of q s))) in
  if decide (q = p) then set_context ctx_exit (set_state ZOMBIE x) else x.

(** The table that exit leaves to the scheduler. *)
Record exited (p init : nat) s (t : list proc) : Prop := {
  ex_len : length t = NPROC;
  ex_exact : ∃ b : bool, (b = true ↔ ∃ r, (r < NPROC)%nat ∧ zombie_child p (proc_of r s)) ∧
    ∀ q, (q < NPROC)%nat → t !!! q = exit_entry p init q b s;
  ex_zombie : p_state (t !!! p) = ZOMBIE ∧ p_pid (t !!! p) = p_pid (proc_of p s);
  ex_orphans : ∀ q, (q < NPROC)%nat → p_parent (t !!! q) ≠ Some p;
  ex_children : ∀ q, (q < NPROC)%nat → p_parent (proc_of q s) = Some p → p_parent (t !!! q) = Some init;
  ex_parent : ∀ r, p_parent (proc_of p s) = Some r → r ≠ p → (r < NPROC)%nat → ¬ waits r (t !!! r);
  ex_init : ∀ q, (q < NPROC)%nat → zombie_child p (proc_of q s) → ¬ waits init (t !!! init)
}.

Lemma woken_on_same chan x : p_parent (woken_on chan x) = p_parent x ∧ (p_state (woken_on chan x) = ZOMBIE ↔ p_state x = ZOMBIE).
Proof. unfold woken_on. case_decide as Hd; [|done]. destruct Hd as [Hd _]. rewrite Hd. by split. Qed.

Lemma exit_entry_parent p init q b s :
  p_parent (exit_entry p init q b s) = if decide (p_parent (proc_of q s) = Some p) then Some init else p_parent (proc_of q s).
Proof.
  unfold exit_entry. set (x := woken_on _ _). assert (p_parent x = p_parent (proc_of q s)) as <- by apply woken_on_same.
  transitivity (p_parent (reparented p init x)).
  - case_decide; [change (p_parent (roused b init (reparented p init x)) = p_parent (reparented p init x))|]; apply roused_parent.
  - unfold reparented. by case_decide.
Qed.

Lemma waits_roused r b r' x : waits r (roused b r' x) → waits r x.
Proof. unfold roused. case_decide; [|done]. by intros [? _]. Qed.
Lemma waits_reparented r p init x : waits r (reparented p init x) ↔ waits r x.
Proof. unfold reparented. by case_decide. Qed.

Lemma exit_entry_waits p init q b s r : waits r (exit_entry p init q b s) →
  q ≠ p ∧ waits r (woken_on (parent_chan (proc_of p s)) (proc_of q s)) ∧ (r = init → b = false).
Proof.
  unfold exit_entry. case_decide; [by intros [? _]|]. intros Hw. split; [done|]. split.
  - by apply waits_roused, waits_reparented in Hw.
  - intros ->. revert Hw. unfold roused. case_decide as Hd; [by intros [? _]|]. destruct b; [|done]. intros Hw. by destruct Hd.
Qed.

Lemma exited_intro p init s t (b : bool) :
  (p < NPROC)%nat → (init < NPROC)%nat → init ≠ p → length t = NPROC → (b = true ↔ ∃ r, (r < NPROC)%nat ∧ zombie_child p (proc_of r s)) →
  (∀ q, (q < NPROC)%nat → t !!! q = exit_entry p init q b s) → exited p init s t.
Proof.
  intros Hp Hi Hne Hl Hb Ht. split.
  - done.
  - by exists b.
  - rewrite Ht by done. unfold exit_entry. rewrite decide_True by done. split; [done|]. simpl.
    unfold roused, reparented, woken_on. by repeat case_decide.
  - intros q Hq. rewrite Ht, exit_entry_parent by done. case_decide; congruence.
  - intros q Hq Hpar. rewrite Ht, exit_entry_parent by done. by rewrite decide_True.
  - intros r Hr Hrp Hrl Hw. rewrite Ht in Hw by done. apply exit_entry_waits in Hw as (_ & Hw & _).
    unfold parent_chan in Hw. rewrite Hr in Hw. revert Hw. unfold woken_on.
    case_decide as Hd; intros [? ?]; [done|by apply Hd].
  - intros q Hq Hz Hw. rewrite Ht in Hw by done. apply exit_entry_waits in Hw as (_ & _ & Hf).
    assert (b = true) as Hbt by (apply Hb; by exists q). by rewrite Hf in Hbt.
Qed.

Lemma exit_switch_run c p init s :
  pinv s → runs c p s → held_by c (ps_mach s) = [] → ps_init s = Some init → init ≠ p →
  p_ofile (proc_of p s) = replicate NOFILE None →
  ∃ s1, exit_switch c p init s = swtch_scheduler c s1 ∧ psec c 1 s1 ∧ ps_env s1 = ps_env s ∧ exited p init s (ps_table s1).
Proof.
  intros Hs [Hc Hp] Hh Hi Hne Hof. destruct (pin_enter c 0 s Hs Hc) as (m & H & Hin & _ & Hcp); [by rewrite Hh|].
  set (s1 := put_mach m s) in *. pose proof (in_tab _ _ _ Hin) as Ht1.
  assert (c_proc (cpu_of c (ps_mach s1)) = Some p) as Hp1 by (simpl; congruence).
  destruct (runs_state c p s1 Ht1 (in_runs _ _ _ Hin)) as [Hlt Hst1].
  { split; [apply (msec_cpu c 1 _ (in_mach _ _ _ Hin))|done]. }
  set (ch := parent_chan (proc_of p s1)).
  pose proof (pin_wakeup1 c 1 ch s1 Hin) as Hin2. set (s2 := put_table (wakeup1_table ch (ps_table s1)) s1) in *.
  assert (∀ q, (q < NPROC)%nat → proc_of q s2 = woken_on ch (proc_of q s)) as H2.
  { intros q Hq. unfold s2. by rewrite proc_of_wakeup1. }
  destruct (reparent_run c p init s2 Hin2 Hp1 Hi) as (s3 & H3 & [Hin3 Hp3 Hi3 (b & Hb & Hx)] & Hnp & Hm3 & He3).
  pose proof (in_tab _ _ _ Hin3) as Ht3.
  destruct (runs_state c p s3 Ht3 (in_runs _ _ _ Hin3)) as [_ Hst3].
  { split; [apply (msec_cpu c 1 _ (in_mach _ _ _ Hin3))|done]. }
  assert (∀ q, (q < NPROC)%nat → proc_of q s3 = roused b init (reparented p init (woken_on ch (proc_of q s)))) as Hx3.
  { intros q Hq. rewrite (Hx q Hq), decide_False, H2 by (done || set_solver). done. }
  destruct (sched_switch_gen c p s3 (set_state ZOMBIE) (λ _, ctx_exit)) as (b' & Hb' & Hs4); try done.
  { intros _. rewrite Hi3. eapply tab_zombie; [rewrite <-Hi3; exact Ht3|by apply proc_lookup|..].
    - rewrite Hst3. by right; right.
    - done.
    - rewrite Hx3 by done. unfold roused, reparented, woken_on. by repeat case_decide.
    - intros q y Hy. pose proof (table_lt _ _ _ Ht3 Hy) as Hq.
      rewrite <-(list_lookup_total_correct _ _ _ Hy). change (ps_table s3 !!! q) with (proc_of q s3).
      rewrite Hx3, roused_parent by done. unfold reparented. case_decide; [simpl; congruence|done]. }
  eexists. split; [|split; [exact Hs4|split; [exact He3|]]].
  - unfold exit_switch. rewrite (bind_run _ _ _ _ _ H). fold s1. run.
    rewrite (bind_run _ _ s1 tt s2) by done. rewrite (bind_run _ _ _ _ _ H3), run_upd. exact Hb'.
  - assert (init < NPROC)%nat as Hini.
    { destruct (tab_init _ _ _ Ht1 init Hi) as (x & Hxi & _). exact (table_lt s1 init x Ht1 Hxi). }
    apply (exited_intro p init s _ b); try done.
    + cbn [put_table ps_table]. rewrite length_alter. apply (tab_len _ _ _ Ht3).
    + rewrite Hb. split; intros (r & Hr & Hz); exists r; (split; [done|]).
      * destruct Hz as [_ [Hz1 Hz2]]. rewrite H2 in Hz1, Hz2 by done. destruct (woken_on_same ch (proc_of r s)) as [E1 E2].
        split; [congruence|by apply E2].
      * split; [set_solver|]. rewrite H2 by done. destruct (woken_on_same ch (proc_of r s)) as [E1 E2].
        destruct Hz as [Hz1 Hz2]. split; [congruence|by apply E2].
    + intros q Hq. set (f := set_context ctx_exit ∘ set_state ZOMBIE).
      transitivity (if decide (q = p) then f (proc_of p s3) else proc_of q s3); [by apply (proc_of_alter f p q s3)|].
      unfold exit_entry. case_decide as Hd; [subst q|]; by rewrite Hx3.
Qed.

(** ** allocproc *)

Lemma tab_fresh ps npid init p x f :
  tab_inv ps npid init → ps !! p = Some x → p_state x = UNUSED →
  p_state (f x) = UNUSED ∨ p_state (f x) = EMBRYO ∧ p_pid (f x) = npid →
  p_parent (f x) = None → proc_ok (npid + 1) (f x) → tab_inv (alter f p ps) (npid + 1) init.
Proof.
  intros [Hl Hok Hpid Hpar Hi Hn1] Hx Hux Hf Hfp Hfok.
  assert (∀ q y, q ≠ p → alter f p ps !! q = Some y → ps !! q = Some y) as Hne.
  { intros q y Hq Hy. by rewrite list_lookup_alter_ne in Hy. }
  assert (∀ y, alter f p ps !! p = Some y → y = f x) as Heq.
  { intros y Hy. rewrite list_lookup_alter_eq, Hx in Hy. by simplify_eq/=. }
  assert (∀ q y, ps !! q = Some y → live (p_state y) → ∃ z, alter f p ps !! q = Some z ∧ live (p_state z)) as Hlv.
  { intros q y Hy Hly. exists y. rewrite list_lookup_alter_ne; [done|]. intros ->. simplify_eq.
    rewrite Hux in Hly. by destruct Hly as [|[|]]. }
  assert (∀ q y, ps !! q = Some y → p_state y ≠ UNUSED → p_pid y ≠ npid) as Hlt.
  { intros q y Hy Hu. rewrite Forall_lookup in Hok. pose proof (ok_pid _ _ (Hok q y Hy) Hu). lia. }
  split.
  - by rewrite length_alter.
  - apply Forall_alter; [|intros y Hy _; by simplify_eq].
    eapply Forall_impl; [exact Hok|]. intros y [H1 H2 H3 H4 H5 H6]. split; auto.
    intros Hu. pose proof (H1 Hu). lia.
  - intros q r y z Hy Hz Huy Huz He. destruct (decide (q = p)) as [->|Hq], (decide (r = p)) as [->|Hr].
    + done.
    + apply Heq in Hy as ->. apply Hne in Hz; [|done]. destruct Hf as [?|[_ Hfn]]; [done|].
      destruct (Hlt r z Hz Huz). congruence.
    + apply Heq in Hz as ->. apply Hne in Hy; [|done]. destruct Hf as [?|[_ Hfn]]; [done|].
      destruct (Hlt q y Hy Huy). congruence.
    + apply (Hpid q r y z); auto.
  - intros q y r Hy Hr. destruct (decide (q = p)) as [->|Hq].
    + apply Heq in Hy as ->. congruence.
    + apply Hne in Hy; [|done]. destruct (Hpar q y r Hy Hr) as (z & Hz & Hlz). by eapply Hlv.
  - intros i Hi'. destruct (Hi i Hi') as (y & Hy & Hly). by eapply Hlv.
  - lia.
Qed.

(** The entry of a new process. *)
Definition embryo (pid ks : Z) (x : proc) : proc :=
  set_context ctx_forkret (set_kstack ks (set_pid pid (set_state EMBRYO x))).
Definition stillborn (pid : Z) (x : proc) : proc :=
  set_state UNUSED (set_kstack 0 (set_pid pid (set_state EMBRYO x))).

Lemma allocproc_run c s :
  pinv s → (c < ncpu s)%nat → ps_nextpid s < 2147483647 →
  ∃ r s', allocproc c s = Ok r s' ∧ pinv s' ∧ mframe c (ps_mach s) (ps_mach s') ∧
    c_proc (cpu_of c (ps_mach s')) = c_proc (cpu_of c (ps_mach s)) ∧ ps_init s' = ps_init s ∧
    match r with
    | Some p => (p < NPROC)%nat ∧ p_state (proc_of p s) = UNUSED ∧ ps_nextpid s' = ps_nextpid s + 1 ∧
        ∃ ks, ks ≠ 0 ∧ ps_table s' = alter (embryo (ps_nextpid s) ks) p (ps_table s) ∧
          env_kalloc (ps_env s) = Ok ks (ps_env s')
    | None => (ps_table s' = ps_table s ∧ ps_env s' = ps_env s ∧ ∀ p, (p < NPROC)%nat → p_state (proc_of p s) ≠ UNUSED) ∨
        ∃ p, (p < NPROC)%nat ∧ p_state (proc_of p s) = UNUSED ∧
          ps_table s' = alter (stillborn (ps_nextpid s)) p (ps_table s) ∧ env_kalloc (ps_env s) = Ok 0 (ps_env s')
    end.
Proof.
  intros Hs Hc Hn. pose proof (tab_npid _ _ _ (pi_tab _ Hs)) as Hn1. destruct (pin_enter c _ s Hs Hc eq_refl) as (m & H & Hin & Hfr & Hcp).
  unfold allocproc. rewrite (bind_run _ _ _ _ _ H). run. cbn [ps_table put_mach].
  pose proof (pi_tab _ Hs) as Ht. destruct (list_find _ _) as [[p x]|] eqn:Ef.
  2: { destruct (pin_leave c _ _ Hin) as (m' & H' & Hi & Hfr' & _ & Hcp').
    rewrite (bind_run _ _ _ _ _ H'). eexists None, _. split; [done|]. split_and!; try done.
    - by eapply mframe_trans.
    - simpl in *. congruence.
    - left. split_and!; [done|done|]. intros p Hp. apply list_find_None in Ef. rewrite Forall_lookup in Ef.
      apply (Ef p). by apply (proc_lookup s p Ht). }
  apply list_find_Some in Ef as (Hx & Hux & _). pose proof (table_lt s p x Ht Hx) as Hlt.
  pose proof (list_lookup_total_correct _ _ _ Hx) as Hpx. change (proc_of p s = x) in Hpx.
  run. rewrite run_upd. run. set (pid := ps_nextpid s).
  assert (s32 (pid + 1) = pid + 1) as Hs32 by (unfold pid; zmod).
  set (s2 := put_nextpid _ _). destruct (pt_release c _ s2 (in_mach _ _ _ Hin)) as (m' & H' & Hmf & Hfr' & _ & Hcp').
  rewrite (bind_run _ _ _ _ _ H'). set (s3 := put_mach m' s2).
  destruct (env_kalloc_ok (ps_env s3)) as (ks & e & He). rewrite (bind_run _ _ _ _ _ (ee_run _ s3 ks e He)), run_upd.
  assert (mframe c (ps_mach s) m') as Hfr2 by (by eapply mframe_trans).
  assert (∀ f t, t = alter f p (ps_table s) → (p_state (f x) = UNUSED ∨ p_state (f x) = EMBRYO ∧ p_pid (f x) = pid) →
    p_parent (f x) = None → proc_ok (pid + 1) (f x) → pinv (put_table t (put_env e s3))) as Hfin.
  { intros f t -> Hst Hpar Hok. split; simpl; [done| | |].
    - change (tab_inv (alter f p (ps_table s)) (s32 (pid + 1)) (ps_init s)). rewrite Hs32. by eapply tab_fresh.
    - unfold ncpu. simpl. rewrite (mf_cpus _ _ _ Hfr2).
      eapply runs_alter; [|done|rewrite Hux; by destruct Hst as [->|[-> _]]].
      apply (runs_ok_mach _ (ps_mach s)); [apply Hfr2| |apply Hs].
      intros i _. destruct (decide (i = c)) as [->|Hi]; [simpl in *; congruence|by apply Hfr2].
    - destruct (pi_loop _ Hs) as [Hl1 Hl2]. split; [|done]. unfold ncpu. simpl.
      rewrite (mf_cpus _ _ _ Hfr2). apply Hl1. }
  assert (proc_ok pid x) as Hok.
  { pose proof (tab_ok _ _ _ Ht) as Hall. rewrite Forall_lookup in Hall. by apply (Hall p). }
  destruct (ok_unused _ _ Hok Hux) as [Hpar0 Hks0]. destruct (Z.eqb_spec ks 0) as [->|Hks].
  - rewrite run_upd. eexists None, _. split; [done|]. split; [|split_and!].
    + unfold put_table. cbn [ps_table ps_mach]. eapply (Hfin (stillborn pid)).
      * simpl. by rewrite !list_alter_alter_eq.
      * by left.
      * done.
      * split; simpl; try done; [by intros [[|[|]]|]|exact (ok_ofile _ _ Hok)|by intros _; apply (ok_closed _ _ Hok); left].
    + done.
    + simpl in *. congruence.
    + done.
    + right. exists p. split_and!; [done|by rewrite Hpx| |exact He]. simpl. by rewrite !list_alter_alter_eq.
  - rewrite run_upd. eexists (Some p), _. split; [done|]. split; [|split_and!].
    + unfold put_table. cbn [ps_table ps_mach]. eapply (Hfin (embryo pid ks)).
      * simpl. by rewrite !list_alter_alter_eq.
      * by right.
      * done.
      * split; simpl; try done; [lia|by intros [[|[|]]|]|exact (ok_ofile _ _ Hok)|by intros _; apply (ok_closed _ _ Hok); left].
    + done.
    + simpl in *. congruence.
    + done.
    + done.
    + by rewrite Hpx.
    + done.
    + exists ks. split; [done|]. split; [simpl; by rewrite !list_alter_alter_eq|exact He].
Qed.

(** ** fork *)

(** What filedup and idup return. *)
Class ProcEnvDup : Prop := {
  env_filedup_ret : ∀ f e f' e', env_filedup f e = Ok f' e' → f' = f;
  env_idup_ret : ∀ i e i' e', env_idup i e = Ok i' e' → i' = i
}.

(** The open files of a process, in the order of its descriptors. *)
Definition open_from (x : proc) (k n : nat) : list nat := omap (λ i, p_ofile x !!! i) (seq k n).
Definition open_files (x : proc) : list nat := open_from x 0 NOFILE.

Lemma open_from_S x k n : open_from x k (S n) = match p_ofile x !!! k with Some f => f :: open_from x (S k) n | None => open_from x (S k) n end.
Proof. reflexivity. Qed.

(** What fork asks of the rest of the kernel to copy the process [x] into an entry with the
    kernel stack [ks]: the page table of the copy, or None without memory for it. *)
Definition env_dups (l : list nat) : M E unit := for_each l (λ f, _ ← env_filedup f; mret tt).
Definition env_fork (x : proc) (ks : Z) : M E (option Z) :=
  pg ← env_copyuvm (p_pgdir x) (p_sz x);
  if pg =? 0 then env_kfree ks;; mret None
  else
    env_dups (open_files x);;
    match p_cwd x with Some ip => _ ← env_idup ip; mret (Some pg) | None => panic "no inode" end.

(** The child that fork makes of the entry [y] for the parent [x], number [p], with the page
    table [pg]. *)
Record child p pg (x y z : proc) : Prop := {
  cd_kept : p_state z = p_state y ∧ p_pid z = p_pid y ∧ p_kstack z = p_kstack y ∧ p_context z = p_context y;
  cd_mem : p_sz z = p_sz x ∧ p_pgdir z = pg ∧ pg ≠ 0;
  cd_tf : p_tf z = fork_eax (p_tf x);
  cd_parent : p_parent z = Some p;
  cd_ofile : length (p_ofile z) = NOFILE ∧
    (p_ofile y = replicate NOFILE None → length (p_ofile x) = NOFILE → p_ofile z = p_ofile x);
  cd_cwd : p_cwd z = p_cwd x;
  cd_name : p_name z = safe_name (p_name x) (p_name y)
}.

(** Files, memory and page tables apart, only the child's entry changes. *)
Definition entry_only np s s' : Prop := ∃ e f, s' = put_env e (put_table (alter f np (ps_table s)) s).

Lemma wlp_ee {A} (m : M E A) Q s :
  (∀ a e, m (ps_env s) = Ok a e → Q a (put_env e s)) → wlp (ee m) Q s.
Proof. intros H. unfold wlp, ee, zoom. destruct (m (ps_env s)); auto. Qed.

Lemma put_alter_env np f e s :
  put_table (alter f np (ps_table (put_env e s))) (put_env e s) = put_env e (put_table (alter f np (ps_table s)) s).
Proof. done. Qed.

Lemma proc_of_alter_lt f p q s :
  (p < length (ps_table s))%nat → proc_of q (put_table (alter f p (ps_table s)) s) =
    if decide (q = p) then f (proc_of p s) else proc_of q s.
Proof.
  intros Hp. unfold proc_of. simpl. case_decide as Hd; [subst q|].
  - by apply list_lookup_total_alter_eq.
  - by apply list_lookup_total_alter_ne.
Qed.

(** An entry with the files that it has. *)
Lemma alter_same_files np s : alter (set_ofile (p_ofile (proc_of np s))) np (ps_table s) = ps_table s.
Proof.
  rewrite <-(list_alter_id id (ps_table s) np) at 2 by done. apply list_alter_ext; [|done].
  intros x Hx. unfold proc_of. rewrite (list_lookup_total_correct _ _ _ Hx). by destruct x.
Qed.

(** The entry of the child when the descriptors from [k] on are still to be copied. *)
Definition dup_loop p np s (k : nat) (e : E) (s1 : pst E) : Prop :=
  ∃ o, s1 = put_env e (put_table (alter (set_ofile o) np (ps_table s)) s) ∧
    length o = NOFILE ∧ ∀ i, (i < NOFILE)%nat → o !!! i = match p_ofile (proc_of p s) !!! i with
      Some f => if decide (i < k)%nat then Some f else p_ofile (proc_of np s) !!! i
      | None => p_ofile (proc_of np s) !!! i end.

Lemma dup_loop_step p np s k e e' s1 f :
  dup_loop p np s k e s1 → (k < NOFILE)%nat → p_ofile (proc_of p s) !!! k = Some f →
  dup_loop p np s (S k) e' (put_table (alter (λ y, set_ofile (<[k := Some f]> (p_ofile y)) y) np (ps_table s1)) (put_env e' s1)).
Proof.
  intros (o & -> & Hl & Ho) Hk Ef. exists (<[k := Some f]> o). split_and!.
  - unfold put_env, put_table. simpl. by rewrite list_alter_alter_eq.
  - by rewrite length_insert.
  - intros i Hi. destruct (decide (i = k)) as [->|Hik].
    + rewrite list_lookup_total_insert_eq by lia. by rewrite Ef, decide_True by lia.
    + rewrite list_lookup_total_insert_ne, Ho by done. case_match; [|done].
      repeat case_decide; done || lia.
Qed.

Lemma dup_loop_skip p np s k e s1 :
  dup_loop p np s k e s1 → p_ofile (proc_of p s) !!! k = None → dup_loop p np s (S k) e s1.
Proof.
  intros (o & -> & Hl & Ho) Ef. exists o. split_and!; [done..|]. intros i Hi. rewrite Ho by done.
  destruct (decide (i = k)) as [->|Hik]; [by rewrite Ef|]. case_match; [|done]. repeat case_decide; done || lia.
Qed.

Lemma dup_loop_parent p np s k e s1 : p ≠ np → (np < length (ps_table s))%nat → dup_loop p np s k e s1 → proc_of p s1 = proc_of p s.
Proof.
  intros Hne Hnp (o & -> & _). change (proc_of p (put_env e ?t)) with (proc_of p t). by rewrite proc_of_alter_lt, decide_False.
Qed.

Definition dup_body p np (i : nat) : M (pst E) unit :=
  x ← gets (proc_of p);
  match p_ofile x !!! i with
  | Some f => f' ← ee (env_filedup f);
      upd_proc np (λ y, set_ofile (<[i := Some f']> (p_ofile y)) y)
  | None => mret tt
  end.

(** A run of the process that returns exactly when the calls it makes do. *)
Definition follows {A B} (o : outcome E A) (r : outcome (pst E) B) (Q : A → E → B → pst E → Prop) : Prop :=
  match o with
  | Ok a e => ∃ b s, r = Ok b s ∧ Q a e b s
  | _ => ∀ b s, r ≠ Ok b s
  end.

Lemma follows_mono {A B} (o : outcome E A) (r : outcome (pst E) B) (Q Q' : A → E → B → pst E → Prop) :
  follows o r Q → (∀ a e b s, Q a e b s → Q' a e b s) → follows o r Q'.
Proof. unfold follows. destruct o; [|done..]. intros (b & t & ? & ?) HQ. exists b, t. auto. Qed.

Lemma follows_bind {A A' B B'} (m : M E A) (k : A → M E A') (n : M (pst E) B) (k' : B → M (pst E) B') Q R e s :
  follows (m e) (n s) Q → (∀ a e1 b s1, Q a e1 b s1 → follows (k a e1) (k' b s1) R) → follows ((m ≫= k) e) ((n ≫= k') s) R.
Proof.
  unfold follows, mbind, M_bind. intros H Hk. destruct (m e) as [a e1| | |].
  - destruct H as (b & s1 & -> & HQ). by apply Hk.
  - intros b t Hn. destruct (n s) as [b' s'| | |]; try done. by destruct (H b' s').
  - intros b t Hn. destruct (n s) as [b' s'| | |]; try done. by destruct (H b' s').
  - intros b t Hn. destruct (n s) as [b' s'| | |]; try done. by destruct (H b' s').
Qed.

Lemma follows_ee {A} (m : M E A) s : follows (m (ps_env s)) (ee m s) (λ a e b t, m (ps_env s) = Ok a e ∧ b = a ∧ t = put_env e s).
Proof. unfold follows, ee, zoom. destruct (m (ps_env s)); [|done..]. by eexists _, _. Qed.

(** The loop over the descriptors does the filedups. *)
Lemma dup_files_from `{!ProcEnvDup} p np s : p ≠ np → (np < length (ps_table s))%nat →
  ∀ n k e s1, (k + n = NOFILE)%nat → dup_loop p np s k e s1 →
  follows (env_dups (open_from (proc_of p s) k n) e) (for_each (seq k n) (dup_body p np) s1) (λ _ e' _ s', dup_loop p np s NOFILE e' s').
Proof.
  intros Hne Hnp. induction n as [|n IH]; intros k e s1 Hk HI.
  { cbn. exists tt, s1. split; [done|]. by replace NOFILE with k by lia. }
  rewrite open_from_S. cbn [seq for_each].
  assert (ps_env s1 = e) as He by (by destruct HI as (o & -> & _)).
  assert (dup_body p np k = (x ← gets (proc_of p); match p_ofile x !!! k with
    | Some f => f' ← ee (env_filedup f); upd_proc np (λ y, set_ofile (<[k := Some f']> (p_ofile y)) y)
    | None => mret tt end)) as -> by done.
  rewrite run_assoc, run_gets, (dup_loop_parent p np s k e s1) by done.
  destruct (p_ofile (proc_of p s) !!! k) as [f|] eqn:Ef.
  2: { rewrite run_ret. by apply IH; [lia|apply dup_loop_skip]. }
  unfold env_dups. cbn [for_each]. rewrite !run_assoc. rewrite <-He at 1.
  eapply follows_bind; [apply follows_ee|]. intros f1 e1 f2 s2 (->%env_filedup_ret & -> & ->).
  rewrite run_ret. unfold upd_proc. rewrite run_modify. apply IH; [lia|]. exact (dup_loop_step p np s k e e1 s1 f HI ltac:(lia) Ef).
Qed.

Definition copied p np s (ok : bool) s' : Prop :=
  ∃ f r, env_fork (proc_of p s) (p_kstack (proc_of np s)) (ps_env s) = Ok r (ps_env s') ∧
    s' = put_env (ps_env s') (put_table (alter f np (ps_table s)) s) ∧
    match r with
    | Some pg => ok = true ∧ child p pg (proc_of p s) (proc_of np s) (f (proc_of np s))
    | None => ok = false ∧
        f (proc_of np s) = set_state UNUSED (set_kstack 0 (set_mem (p_sz (proc_of np s)) 0 (proc_of np s)))
    end.

(** fork_copy returns exactly when what it asks for does. *)
Lemma fork_copy_follows `{!ProcEnvDup} p np s :
  p ≠ np → (np < length (ps_table s))%nat → length (p_ofile (proc_of np s)) = NOFILE →
  follows (env_fork (proc_of p s) (p_kstack (proc_of np s)) (ps_env s)) (fork_copy p np s) (λ r e ok s', e = ps_env s' ∧
    ∃ f, s' = put_env e (put_table (alter f np (ps_table s)) s) ∧
    match r with
    | Some pg => ok = true ∧ child p pg (proc_of p s) (proc_of np s) (f (proc_of np s))
    | None => ok = false ∧
        f (proc_of np s) = set_state UNUSED (set_kstack 0 (set_mem (p_sz (proc_of np s)) 0 (proc_of np s)))
    end).
Proof.
  intros Hne Hnp Ho. unfold fork_copy, env_fork. rewrite run_gets. set (x := proc_of p s). set (y := proc_of np s) in *.
  eapply follows_bind; [apply follows_ee|]. intros pg e1 pg' s' (_ & -> & ->). rewrite run_upd.
  set (s1 := put_table _ _).
  assert (∀ q, proc_of q s1 = if decide (q = np) then set_mem (p_sz y) pg y else proc_of q s) as Hq1.
  { intros q. exact (proc_of_alter_lt (λ z, set_mem (p_sz z) pg z) np q (put_env e1 s) Hnp). }
  destruct (Z.eqb_spec pg 0) as [->|Hpg].
  - rewrite run_gets, Hq1, decide_True by done. cbn [p_kstack set_mem].
    change e1 with (ps_env s1) at 1.
    eapply follows_bind; [apply follows_ee|]. intros [] e2 [] s2 (_ & _ & ->). exists false.
    eexists. split; [reflexivity|]. split; [done|].
    exists (λ z, set_state UNUSED (set_kstack 0 (set_mem (p_sz z) 0 z))). split; [|done].
    unfold s1, put_env, put_table. simpl. by rewrite list_alter_alter_eq.
  - rewrite run_upd. set (s2 := put_table _ _).
    set (g := λ z, set_tf (fork_eax (p_tf x)) (set_parent (Some p) (set_mem (p_sz x) pg z))).
    assert (s2 = put_env e1 (put_table (alter g np (ps_table s)) s)) as Hs2.
    { unfold s2, s1, put_env, put_table. simpl. by rewrite list_alter_alter_eq. }
    assert (∀ q, proc_of q s2 = if decide (q = np) then g y else proc_of q s) as Hq.
    { intros q. rewrite Hs2. change (proc_of q (put_env e1 ?t)) with (proc_of q t). by rewrite proc_of_alter_lt. }
    assert (length (ps_table s2) = length (ps_table s)) as Hl2 by (rewrite Hs2; simpl; by rewrite length_alter).
    assert (proc_of p s2 = x) as Hxp by (by rewrite Hq, decide_False).
    assert (dup_loop p np s2 0 e1 s2) as HI.
    { exists (p_ofile (proc_of np s2)). split_and!.
      - rewrite alter_same_files. by rewrite Hs2.
      - by rewrite Hq, decide_True.
      - intros i Hi. case_match; [|done]. by rewrite decide_False by lia. }
    pose proof (dup_files_from p np s2 Hne ltac:(by rewrite Hl2) NOFILE 0 e1 s2 eq_refl HI) as Hd. rewrite Hxp in Hd.
    eapply follows_bind; [exact Hd|]. intros [] e2 [] s3 (o & -> & Hol & Hoi). rewrite Hxp, Hq, decide_True in Hoi by done.
    destruct (p_cwd x) as [ip|] eqn:Ecwd; [|done]. rewrite run_assoc.
    change e2 with (ps_env (put_env e2 (put_table (alter (set_ofile o) np (ps_table s2)) s2))) at 1.
    eapply follows_bind; [apply follows_ee|]. intros ip' e3 cwd s4 (->%env_idup_ret & -> & ->). rewrite !run_upd.
    exists true. eexists. split; [reflexivity|]. split; [done|].
    exists ((λ z, set_name (safe_name (p_name x) (p_name z)) z) ∘ (set_pcwd (Some ip) ∘ (set_ofile o ∘ g))). split.
    + rewrite Hs2. unfold put_env, put_table. simpl. by rewrite !list_alter_alter_eq.
    + split; [done|]. cbv beta. split; simpl; try done.
      split; [done|]. intros Ho0 Hox. apply list_eq_same_length with NOFILE; [done|done|].
      intros i a b Hi Ha Hb. apply list_lookup_total_correct in Ha, Hb. subst.
      rewrite Hoi by done. destruct (p_ofile x !!! i) eqn:Ex; [by rewrite decide_True|].
      change (p_ofile (g y)) with (p_ofile y). rewrite Ho0. change (replicate NOFILE (@None nat) !!! i = None). by apply lookup_total_replicate_2.
Qed.

Lemma fork_copy_wlp `{!ProcEnvDup} p np s ok s' :
  p ≠ np → (np < length (ps_table s))%nat → length (p_ofile (proc_of np s)) = NOFILE →
  fork_copy p np s = Ok ok s' → copied p np s ok s'.
Proof.
  intros Hne Hnp Ho Hrun. pose proof (fork_copy_follows p np s Hne Hnp Ho) as Hf. unfold follows in Hf. rewrite Hrun in Hf.
  destruct (env_fork _ _ _) as [r e|msg e|e|] eqn:Er; [|by destruct (Hf ok s')..].
  destruct Hf as (ok' & s2 & [= <- <-] & -> & f & Hs & Hr). exists f, r. by split_and!.
Qed.

(** ** The whole of exit *)

(** What exit asks of the rest of the kernel, before it gives up the CPU for good. *)
Definition env_closes (l : list nat) : M E unit := for_each l env_fileclose.
Definition env_exit (x : proc) : M E unit :=
  env_closes (open_files x);;
  env_begin_op;;
  match p_cwd x with Some ip => env_iput ip | None => panic "no inode" end;;
  env_end_op.

(** The entry of the process when the descriptors from [k] on are still open. *)
Definition close_loop p s (k : nat) (e : E) (s1 : pst E) : Prop :=
  ∃ o, s1 = put_env e (put_table (alter (set_ofile o) p (ps_table s)) s) ∧
    length o = NOFILE ∧ ∀ i, (i < NOFILE)%nat → o !!! i = if decide (i < k)%nat then None else p_ofile (proc_of p s) !!! i.

Definition close_body p (fd : nat) : M (pst E) unit :=
  x ← gets (proc_of p);
  match p_ofile x !!! fd with
  | Some f =>
      ee (env_fileclose f);;
      upd_proc p (λ x, set_ofile (<[fd := None]> (p_ofile x)) x)
  | None => mret tt
  end.

Lemma close_loop_file p s k e s1 : (p < length (ps_table s))%nat → (k < NOFILE)%nat → close_loop p s k e s1 →
  p_ofile (proc_of p s1) !!! k = p_ofile (proc_of p s) !!! k.
Proof.
  intros Hp Hk (o & -> & _ & Ho). change (proc_of p (put_env e ?t)) with (proc_of p t).
  rewrite proc_of_alter_lt, decide_True by done. simpl. by rewrite Ho, decide_False by lia.
Qed.

Lemma close_loop_step p s k e e' s1 : close_loop p s k e s1 → (k < NOFILE)%nat →
  close_loop p s (S k) e' (put_table (alter (λ x, set_ofile (<[k := None]> (p_ofile x)) x) p (ps_table s1)) (put_env e' s1)).
Proof.
  intros (o & -> & Hl & Ho) Hk. exists (<[k := None]> o). split_and!.
  - unfold put_env, put_table. simpl. by rewrite list_alter_alter_eq.
  - by rewrite length_insert.
  - intros i Hi. destruct (decide (i = k)) as [->|Hik].
    + rewrite list_lookup_total_insert_eq by lia. by rewrite decide_True by lia.
    + rewrite list_lookup_total_insert_ne, Ho by done. repeat case_decide; done || lia.
Qed.

Lemma close_loop_skip p s k e s1 : close_loop p s k e s1 → (k < NOFILE)%nat → p_ofile (proc_of p s) !!! k = None → close_loop p s (S k) e s1.
Proof.
  intros (o & -> & Hl & Ho) Hk Ef. exists o. split_and!; [done..|]. intros i Hi. rewrite Ho by done.
  destruct (decide (i = k)) as [->|Hik]; [by repeat case_decide|]. repeat case_decide; done || lia.
Qed.

Lemma close_files_from p s : (p < length (ps_table s))%nat → ∀ n k e s1, (k + n = NOFILE)%nat → close_loop p s k e s1 →
  follows (env_closes (open_from (proc_of p s) k n) e) (for_each (seq k n) (close_body p) s1) (λ _ e' _ s', close_loop p s NOFILE e' s').
Proof.
  intros Hp. induction n as [|n IH]; intros k e s1 Hk HI.
  { cbn. exists tt, s1. split; [done|]. by replace NOFILE with k by lia. }
  rewrite open_from_S. cbn [seq for_each].
  assert (ps_env s1 = e) as He by (by destruct HI as (o & -> & _)).
  assert (close_body p k = (x ← gets (proc_of p); match p_ofile x !!! k with
    | Some f => ee (env_fileclose f);; upd_proc p (λ x, set_ofile (<[k := None]> (p_ofile x)) x)
    | None => mret tt end)) as -> by done.
  rewrite run_assoc, run_gets, (close_loop_file p s k e s1) by (done || lia).
  destruct (p_ofile (proc_of p s) !!! k) as [f|] eqn:Ef.
  2: { rewrite run_ret. apply IH; [lia|]. apply close_loop_skip; [done|lia|done]. }
  unfold env_closes. cbn [for_each]. rewrite !run_assoc. rewrite <-He at 1.
  eapply follows_bind; [apply follows_ee|]. intros [] e1 [] s2 (_ & _ & ->). rewrite run_upd.
  apply IH; [lia|]. by apply (close_loop_step p s k e e1 s1 HI); lia.
Qed.

(** A process that has given back its files and its directory. *)
Definition closed p s : pst E :=
  put_table (alter (λ x, set_pcwd None (set_ofile (replicate NOFILE None) x)) p (ps_table s)) s.

Lemma close_loop_end p s e s1 : close_loop p s NOFILE e s1 →
  s1 = put_env e (put_table (alter (set_ofile (replicate NOFILE None)) p (ps_table s)) s).
Proof.
  intros (o & -> & Hl & Ho). assert (o = replicate NOFILE None) as ->; [|done].
  apply list_eq_same_length with NOFILE; [done|done|]. intros i a b Hi Ha Hb. apply list_lookup_total_correct in Ha, Hb. subst.
  rewrite Ho, decide_True by done. symmetry. by apply lookup_total_replicate_2.
Qed.

(** exit up to exit_switch, when what it asks for returns. *)
Lemma exit_enter c p init s s0 e :
  curproc c s = Ok p s0 → ps_init s0 = Some init → init ≠ p → (p < length (ps_table s0))%nat →
  length (p_ofile (proc_of p s0)) = NOFILE → env_exit (proc_of p s0) (ps_env s0) = Ok tt e →
  exit c s = exit_switch c p init (put_env e (closed p s0)).
Proof.
  intros H0 Hi Hne Hp Ho He. unfold exit. rewrite (bind_run _ _ _ _ _ H0), run_gets, Hi.
  rewrite run_panic_if by (apply bool_decide_eq_false; congruence).
  apply bind_Ok in He as ([] & e1 & H1 & He). apply bind_Ok in He as ([] & e2 & H2 & He).
  apply bind_Ok in He as ([] & e3 & H3 & H4).
  pose proof (close_files_from p s0 Hp NOFILE 0 (ps_env s0) s0 eq_refl) as Hc. unfold follows in Hc.
  change (open_from _ 0 NOFILE) with (open_files (proc_of p s0)) in Hc. rewrite H1 in Hc.
  destruct Hc as ([] & s1 & Hc & ->%close_loop_end).
  { exists (p_ofile (proc_of p s0)). split_and!; [rewrite alter_same_files; by destruct s0|done|].
    intros i _. by rewrite decide_False by lia. }
  change (for_each (seq 0 NOFILE) (close_body p)) with (close_files p) in Hc. rewrite (bind_run _ _ _ _ _ Hc).
  set (s1 := put_env e1 _). rewrite (bind_run _ _ _ _ _ (ee_run env_begin_op s1 tt e2 H2)), run_gets.
  assert (p_cwd (proc_of p (put_env e2 s1)) = p_cwd (proc_of p s0)) as ->.
  { pose proof (proc_of_alter_lt (set_ofile (replicate NOFILE None)) p p s0 Hp) as Hl. rewrite decide_True in Hl by done.
    exact (f_equal p_cwd Hl). }
  destruct (p_cwd (proc_of p s0)) as [ip|]; [|done].
  rewrite (bind_run _ _ _ _ _ (ee_run (env_iput ip) (put_env e2 s1) tt e3 H3)).
  rewrite (bind_run _ _ _ _ _ (ee_run env_end_op (put_env e3 (put_env e2 s1)) tt e H4)), run_upd.
  f_equal. unfold s1, closed, put_env, put_table. simpl. by rewrite list_alter_alter_eq.
Qed.

(** The entry of a new process survives the copy, and its failure frees it. *)
Lemma fork_copy_inv p np s ok s' :
  pinv s → p_state (proc_of p s) = RUNNING → (p < NPROC)%nat → (np < NPROC)%nat →
  p_state (proc_of np s) = EMBRYO → p_parent (proc_of np s) = None →
  copied p np s ok s' → pinv s'.
Proof.
  intros Hs Hst Hp Hnp Hem Hpar (f & r & _ & -> & Hf). set (e := ps_env s'). clearbody e. clear s'. pose proof (pi_tab _ Hs) as Ht.
  pose proof (proc_lookup s np Ht Hnp) as Hy. pose proof (proc_lookup s p Ht Hp) as Hx.
  set (y := proc_of np s) in *. pose proof (proc_inv s np Ht Hnp) as Hok. fold y in Hok.
  assert (p_state (f y) = EMBRYO ∧ p_pid (f y) = p_pid y ∧ p_kstack (f y) = p_kstack y ∧
      p_context (f y) = p_context y ∧ p_pgdir (f y) ≠ 0 ∧ p_parent (f y) = Some p ∨
    p_state (f y) = UNUSED ∧ p_kstack (f y) = 0 ∧ p_parent (f y) = None) as Hcase.
  { destruct r; destruct Hf as [_ Hf].
    - destruct Hf as [(? & ? & ? & ?) (? & ? & ?) ? ? ? ? ?]. left. split_and!; congruence.
    - rewrite Hf. right. by split_and!. }
  assert (length (p_ofile (f y)) = NOFILE) as Hof.
  { destruct r; destruct Hf as [_ Hf]; [apply (cd_ofile _ _ _ _ _ Hf)|rewrite Hf; exact (ok_ofile _ _ Hok)]. }
  assert (p_state (f y) = UNUSED → p_ofile (f y) = replicate NOFILE None) as Hoc.
  { destruct r; destruct Hf as [_ Hf].
    - destruct (cd_kept _ _ _ _ _ Hf) as (-> & _). by rewrite Hem.
    - rewrite Hf. intros _. apply (ok_closed _ _ Hok). right; right. by split. }
  assert (∀ q z, alter f np (ps_table s) !! q = Some z → ∃ z', ps_table s !! q = Some z' ∧
    (q ≠ np ∧ z = z' ∨ q = np ∧ z' = y ∧ z = f y)) as Hlk.
  { intros q z. destruct (decide (q = np)) as [->|Hq].
    - rewrite list_lookup_alter_eq, Hy. intros [= <-]. exists y. split; [done|]. by right.
    - rewrite list_lookup_alter_ne by done. intros Hz. exists z. split; [done|]. by left. }
  assert (∀ q z, ps_table s !! q = Some z → live (p_state z) → ∃ z', alter f np (ps_table s) !! q = Some z' ∧ live (p_state z')) as Hlv.
  { intros q z Hz Hl. exists z. rewrite list_lookup_alter_ne; [done|]. intros ->. simplify_eq.
    rewrite Hem in Hl. by destruct Hl as [|[|]]. }
  destruct Hs as [Hm _ Hr Hl]. split; [done| | |done].
  - destruct Ht as [Hlen Hall Hpid Hpars Hini Hn1]. split; simpl.
    + by rewrite length_alter.
    + eapply Forall_alter_ok; [done|done|]. intros [H1 H2 H3 H4 H5 H6 _].
      destruct Hcase as [(E1 & E2 & E3 & E4 & E5 & E6)|(E1 & E2 & E3)].
      * split; rewrite ?E1, ?E2, ?E3, ?E4, ?E6; try done; rewrite Hem in *; auto. by intros [|[|[_ ?]]].
      * split; rewrite ?E1, ?E2, ?E3; try done; [by intros [[|[|]]|]|by intros _; apply Hoc].
    + intros q r' z1 z2 H1 H2 Hu1 Hu2 He.
      apply Hlk in H1 as (z1' & H1 & [[? ->]|(-> & -> & ->)]);
        apply Hlk in H2 as (z2' & H2 & [[? ->]|(-> & -> & ->)]).
      * by apply (Hpid q r' z1' z2').
      * destruct Hcase as [(E1 & E2 & _)|(E1 & _)]; [|done].
        apply (Hpid q np z1' y); try done; rewrite ?Hem; congruence.
      * destruct Hcase as [(E1 & E2 & _)|(E1 & _)]; [|done].
        apply (Hpid np r' y z2'); try done; rewrite ?Hem; congruence.
      * done.
    + intros q z r' H1 Hrp. apply Hlk in H1 as (z' & H1 & [[? ->]|(-> & -> & ->)]).
      * destruct (Hpars q z' r' H1 Hrp) as (w & Hw & Hlw). by eapply Hlv.
      * destruct Hcase as [(_ & _ & _ & _ & _ & E6)|(_ & _ & E6)]; rewrite E6 in Hrp; [|done].
        simplify_eq. eapply Hlv; [exact Hx|]. rewrite Hst. by right; right.
    + intros i Hi. destruct (Hini i Hi) as (w & Hw & Hlw). by eapply Hlv.
    + done.
  - eapply runs_alter; [exact Hr|exact Hy|]. rewrite Hem.
    destruct Hcase as [(-> & _)|(-> & _)]; done.
Qed.

(** The child starts. *)
Lemma fork_start_run c np s :
  pinv s → (c < ncpu s)%nat → (np < NPROC)%nat → p_state (proc_of np s) = EMBRYO → p_parent (proc_of np s) ≠ None →
  ∃ s', fork_start c np s = Ok (p_pid (proc_of np s)) s' ∧ pinv s' ∧
    ps_table s' = alter (set_state RUNNABLE) np (ps_table s) ∧ mframe c (ps_mach s) (ps_mach s') ∧
    c_proc (cpu_of c (ps_mach s')) = c_proc (cpu_of c (ps_mach s)) ∧ ps_env s' = ps_env s.
Proof.
  intros Hs Hc Hnp Hem Hpar. destruct (pin_enter c _ s Hs Hc eq_refl) as (m & H & Hin & Hfr & Hcp).
  pose proof (pi_tab _ Hs) as Ht. pose proof (proc_lookup s np Ht Hnp) as Hy.
  pose proof (proc_inv s np Ht Hnp) as Hok. set (y := proc_of np s) in *.
  unfold fork_start. run. fold y. rewrite (bind_run _ _ _ _ _ H), run_upd.
  set (s1 := put_table _ _).
  assert (pin c (S (length (held_by c (ps_mach s)))) s1) as Hin1.
  { apply pin_table; [done| |].
    - eapply tab_alter; [apply Hin|exact Hy| |].
      + split; simpl; try done; [by rewrite Hem|by right; left].
      + destruct Hok as [H1 H2 H3 H4 H5 H6 H7 H8]. rewrite Hem in *. split; simpl; auto; try done. by intros [|[|[? _]]].
    - eapply runs_alter; [apply Hin|exact Hy|]. simpl. by rewrite Hem. }
  destruct (pin_leave c _ _ Hin1) as (m' & H' & Hi' & Hfr' & _ & Hcp').
  rewrite (bind_run _ _ _ _ _ H'). eexists. split; [done|]. split_and!; [done|done| | |done].
  - by eapply mframe_trans.
  - simpl in *. congruence.
Qed.
End ops.
