(* ===== verification/ProcRun.v ===== *)
(** * Every interleaving of the processes

    The step relation of the kernel on its processes, the invariant of every
    reachable state, and the theorems on the process calls. *)

From S2P Require Import Prelude Cstring Spinlock Proc ProcInv ProcSpec.

Section run.
Context {E : Type} `{!ProcEnv E, !ProcEnvLaws E} {Hdup : ProcEnvDup (E:=E)}.
Implicit Types (s : pst E).

(** What a running process may do to its own entry outside of proc.c: its trap
    frame, memory, files, directory and name. *)
Record own_change (x y : proc) : Prop := {
  oc_state : p_state y = p_state x; oc_pid : p_pid y = p_pid x; oc_kstack : p_kstack y = p_kstack x;
  oc_parent : p_parent y = p_parent x; oc_context : p_context y = p_context x;
  oc_chan : p_chan y = p_chan x; oc_killed : p_killed y = p_killed x;
  oc_pgdir : p_pgdir y ≠ 0; oc_ofile : length (p_ofile y) = NOFILE
}.

(** The steps. A step of a CPU is a whole section under ptable.lock, or code that
    works on an entry that no other CPU writes. A CPU that spins in acquire takes
    its step once it gets the lock. *)
Inductive kstep s : pst E → Prop :=
  | k_userinit c s' : (c < ncpu s)%nat → ps_init s = None → ps_nextpid s < 2147483647 →
      userinit c s = Ok tt s' → kstep s s'
  | k_scheduler c s' : (c < ncpu s)%nat → c_proc (cpu_of c (ps_mach s)) = None →
      held_by c (ps_mach s) = [] → scheduler c s = Ok tt s' → kstep s s'
  | k_yield c p s' : runs c p s → held_by c (ps_mach s) = [] → yield c s = Ok tt s' → kstep s s'
  | k_sleep c p chan lk s' : runs c p s → length (held_by c (ps_mach s)) = 1%nat → lk ≠ PTLOCK →
      (lk < length (m_locks (ps_mach s)))%nat → lk_cpu (lock_of lk (ps_mach s)) = Some c →
      sleep c chan lk s = Ok tt s' → kstep s s'
  | k_sleep_end c p lk s' : runs c p s → p_context (proc_of p s) = ctx_acquire lk →
      (lk < length (m_locks (ps_mach s)))%nat → sleep_end c s = Ok tt s' → kstep s s'
  | k_wait c p r s' : runs c p s → held_by c (ps_mach s) = [] → wait c s = Ok r s' → kstep s s'
  | k_exit c p init s' : runs c p s → held_by c (ps_mach s) = [] → ps_init s = Some init → init ≠ p →
      p_ofile (proc_of p s) = replicate NOFILE None → exit_switch c p init s = Ok tt s' → kstep s s'
  | k_wakeup c chan s' : (c < ncpu s)%nat → wakeup c chan s = Ok tt s' → kstep s s'
  | k_kill c pid r s' : (c < ncpu s)%nat → kill c pid s = Ok r s' → kstep s s'
  | k_alloc c p r s' : runs c p s → ps_nextpid s < 2147483647 → allocproc c s = Ok r s' → kstep s s'
  | k_copy c p np ok s' : runs c p s → (np < NPROC)%nat → p_state (proc_of np s) = EMBRYO →
      p_parent (proc_of np s) = None → fork_copy p np s = Ok ok s' → kstep s s'
  | k_start c p np r s' : runs c p s → (np < NPROC)%nat → p_state (proc_of np s) = EMBRYO →
      p_parent (proc_of np s) = Some p → fork_start c np s = Ok r s' → kstep s s'
  | k_own c p y : runs c p s → own_change (proc_of p s) y →
      kstep s (put_table (<[p := y]> (ps_table s)) s)
  | k_acquire c lk s' : (c < ncpu s)%nat → lk ≠ PTLOCK → (lk < length (m_locks (ps_mach s)))%nat →
      mm (acquire c lk) s = Ok tt s' → kstep s s'
  | k_release c lk s' : (c < ncpu s)%nat → lk ≠ PTLOCK → (lk < length (m_locks (ps_mach s)))%nat →
      mm (release c lk) s = Ok tt s' → kstep s s'
  | k_intr c b : (c < ncpu s)%nat → c_ncli (cpu_of c (ps_mach s)) = 0 →
      kstep s (put_mach (on_cpu c (set_if b) (ps_mach s)) s)
  | k_env e : kstep s (put_env e s).

(** After pinit: no process, and idle CPUs. *)
Record kinit s : Prop := {
  ki_apic : NoDup (c_apicid <$> m_cpus (ps_mach s));
  ki_locks : m_locks (ps_mach s) ≠ [] ∧ ∀ l, l ∈ m_locks (ps_mach s) → l = Spinlock false None;
  ki_cpus : ∀ c, c ∈ m_cpus (ps_mach s) → c_ncli c = 0 ∧ c_proc c = None;
  ki_table : ps_table s = replicate NPROC proc0;
  ki_pid : ps_nextpid s = 1;
  ki_init : ps_init s = None;
  ki_loop : ps_loop s = replicate (ncpu s) []
}.

(** ** Steps outside of ptable.lock *)

Lemma pinv_mach s m :
  pinv s → mfree m → length (m_cpus m) = ncpu s →
  (∀ i, c_proc (cpu_of i m) = c_proc (cpu_of i (ps_mach s))) → pinv (put_mach m s).
Proof.
  intros [Hm Ht Hr Hl] Hm' Hlen Hp. split; simpl; [done|done| |by apply loops_ok_mach].
  unfold ncpu in *. simpl. rewrite Hlen. by apply (runs_ok_mach _ (ps_mach s)).
Qed.

Lemma c_proc_on c f m i :
  (c < length (m_cpus m))%nat → (∀ x, c_proc (f x) = c_proc x) →
  c_proc (cpu_of i (on_cpu c f m)) = c_proc (cpu_of i m).
Proof.
  intros Hc Hf. destruct (decide (i = c)) as [->|]; [by rewrite cpu_of_on|by rewrite cpu_of_on_ne].
Qed.

Lemma acquire_other c lk s s' :
  pinv s → (c < ncpu s)%nat → lk ≠ PTLOCK → (lk < length (m_locks (ps_mach s)))%nat →
  mm (acquire c lk) s = Ok tt s' → ∃ m, s' = put_mach m s ∧ pinv (put_mach m s) ∧
    c_proc (cpu_of c m) = c_proc (cpu_of c (ps_mach s)).
Proof.
  intros Hs Hc Hne Hlk H. destruct (pinv_cpu c s Hs Hc) as (Hok & _). pose proof (pi_mach _ Hs) as [Hm Hpt Hf].
  revert H. unfold mm, zoom. rewrite acquire_run by done.
  destruct (lk_locked (lock_of lk (ps_mach s))) eqn:Elk; [by case_bool_decide|]. intros [= <-].
  eexists. split_and!; [done| |by rewrite c_proc_on].
  apply pinv_mach; [done| |apply length_alter|].
  - split; [by apply acquire_inv|simpl; by rewrite length_insert|].
    unfold lock_of. simpl. by rewrite list_lookup_total_insert_ne.
  - intros i. by rewrite c_proc_on.
Qed.

Lemma release_free c lk s s' :
  pinv s → (c < ncpu s)%nat → lk ≠ PTLOCK → (lk < length (m_locks (ps_mach s)))%nat →
  mm (release c lk) s = Ok tt s' → pinv s'.
Proof.
  intros Hs Hc Hne Hlk H. destruct (pinv_cpu c s Hs Hc) as (Hok & _). pose proof (pi_mach _ Hs) as [Hm Hpt Hf].
  revert H. unfold mm, zoom. destruct (decide (lk_cpu (lock_of lk (ps_mach s)) = Some c)) as [Ho|Ho].
  - destruct (holder_spec _ _ c lk Hm Hlk Ho) as (_ & Hif & Hn & Hl). rewrite release_run by done.
    intros [= <-]. apply pinv_mach; [done| |apply length_alter|].
    + split; [by apply release_inv|simpl; by rewrite length_insert|].
      unfold lock_of. simpl. by rewrite list_lookup_total_insert_ne.
    + intros i. by rewrite c_proc_on.
  - destruct (c_if (cpu_of c (ps_mach s))) eqn:Hif; [|by rewrite release_panics].
    destruct (lk_locked (lock_of lk (ps_mach s))) eqn:El; [by rewrite release_if|].
    unfold release, holding. run. by rewrite El.
Qed.

Lemma sleep_end_inv c p lk s s' :
  pinv s → runs c p s → p_context (proc_of p s) = ctx_acquire lk →
  (lk < length (m_locks (ps_mach s)))%nat → sleep_end c s = Ok tt s' → pinv s'.
Proof.
  intros Hs Hr Hx Hlk Hse. destruct (curproc_run c p s Hs Hr) as (s0 & H0 & Hno).
  unfold sleep_end in Hse. rewrite (bind_run _ _ _ _ _ H0) in Hse. revert Hse. run.
  pose proof (pinv_noted c s s0 Hs (proj1 Hr) Hno) as Hs0.
  assert (proc_of p s0 = proc_of p s ∧ length (m_locks (ps_mach s0)) = length (m_locks (ps_mach s)) ∧ runs c p s0) as (Hpe & Hll & Hr0).
  { destruct Hno as [v ->]. split_and!; [done|done|]. destruct Hr as [Hc Hp].
    split; [unfold ncpu in *; simpl; by rewrite length_alter|]. simpl. by rewrite cpu_of_on. }
  destruct (runs_state c p s0 (pi_tab _ Hs0) (pi_runs _ Hs0) Hr0) as [Hlt Hst].
  pose proof (proc_inv s0 p (pi_tab _ Hs0) Hlt) as Hok.
  pose proof (ok_context _ _ Hok) as Hctx. rewrite Hst, Hpe, Hx in Hctx. rewrite Hpe, Hx.
  destruct Hctx as [|(lk' & [= <-] & Hne)]; [done|]. rewrite <-Hll in Hlk.
  intros (a & s1 & Ha & H)%bind_Ok. injection H as <-. destruct a.
  destruct (acquire_other c lk s0 s1 Hs0 (proj1 Hr0) Hne Hlk Ha) as (m & -> & [Hm Ht Hrr Hl] & _).
  split; simpl; [done| | |done].
  - destruct (live_ok (ps_nextpid s0) (proc_of p s0) (set_context ctx_none (proc_of p s0))) as [Hpc Hok'].
    { done. } { rewrite Hst. by right; right. } { simpl. rewrite Hst. by right; right. }
    { simpl. rewrite Hst. by left. } { done. }
    eapply tab_alter; [apply Ht|by apply (proc_lookup (put_mach m s0))|done|done].
  - eapply runs_alter; [exact Hrr|by apply (proc_lookup (put_mach m s0))|done].
Qed.

(** ** userinit *)

Lemma tab_set_init ps npid p x :
  tab_inv ps npid None → ps !! p = Some x → live (p_state x) → tab_inv ps npid (Some p).
Proof. intros [] Hx Hl. split; try done. intros i [= <-]. by exists x. Qed.

Lemma userinit_inv c s s' :
  pinv s → (c < ncpu s)%nat → ps_init s = None → ps_nextpid s < 2147483647 →
  userinit c s = Ok tt s' → pinv s'.
Proof.
  intros Hs Hc Hi Hn H. destruct (allocproc_run c s Hs Hc Hn) as (r & s1 & H1 & Hs1 & Hfr & _ & Hi1 & Hr).
  unfold userinit in H. rewrite (bind_run _ _ _ _ _ H1) in H. destruct r as [p|]; [|done].
  destruct Hr as (Hp & Hst & Hn1 & ks & Hks & Ht1 & _). revert H. run.
  intros (pg & s2 & H2 & H)%bind_Ok. unfold ee, zoom in H2.
  destruct (env_setupkvm _) as [pg' e2| | |] eqn:E2; try done. injection H2 as <- <-.
  revert H. rewrite run_upd. destruct (Z.eqb_spec pg' 0) as [->|Hpg]; [done|]. rewrite run_panic_if by done.
  intros (? & s3 & H3 & H)%bind_Ok. unfold ee, zoom in H3.
  destruct (env_inituvm _ _) as [? e3| | |] eqn:E3; try done. injection H3 as _ <-.
  revert H. rewrite !run_upd. intros (cwd & s4 & H4 & H)%bind_Ok. unfold ee, zoom in H4.
  destruct (env_namei_root _) as [cwd' e4| | |] eqn:E4; try done. injection H4 as <- <-.
  revert H. rewrite run_upd.
  match goal with |- _ ?x = Ok tt s' → _ => set (s5 := x) end.
  set (g := set_pcwd cwd' ∘ ((λ x, set_name (safe_name initcode_name (p_name x)) x) ∘
    ((λ x, set_tf (user_tf (p_tf x)) (set_mem 4096 pg' x)) ∘ (λ x, set_mem (p_sz x) pg' x)))).
  assert (ps_table s5 = alter g p (ps_table s1)) as Ht5 by (simpl; by rewrite !list_alter_alter_eq).
  assert (ps_mach s5 = ps_mach s1 ∧ ps_nextpid s5 = ps_nextpid s1 ∧ ps_init s5 = Some p ∧
    ps_loop s5 = ps_loop s1) as (Hm5 & Hn5 & Hi5 & Hl5) by done.
  clearbody s5. clear E2 E3 E4. pose proof Hs1 as [Hmf Ht Hrr Hlp].
  assert (proc_of p s1 = embryo (ps_nextpid s) ks (proc_of p s)) as Hp1.
  { unfold proc_of. rewrite Ht1. apply list_lookup_total_alter_eq. by rewrite (tab_len _ _ _ (pi_tab _ Hs)). }
  pose proof (proc_lookup s1 p Ht Hp) as Hx1. pose proof (proc_inv s1 p Ht Hp) as Hok1.
  destruct (pt_acquire c (length (held_by c (ps_mach s5))) s5) as (m & Ha & Hms & Hfr5 & Hcp5); [by rewrite Hm5| |reflexivity|].
  { unfold ncpu in *. rewrite Hm5, (mf_cpus _ _ _ Hfr). done. }
  rewrite (bind_run _ _ _ _ _ Ha), run_upd. set (s6 := put_table _ _).
  destruct (pt_release c _ s6 Hms) as (m' & Hrl & Hmf' & Hfr6 & _ & Hcp6). rewrite Hrl. intros [= <-].
  assert (mframe c (ps_mach s1) m') as Hfr' by (rewrite <-Hm5; by eapply mframe_trans).
  set (f := set_state RUNNABLE ∘ g).
  assert (ps_table s6 = alter f p (ps_table s1)) as Ht6 by (simpl; by rewrite Ht5, list_alter_alter_eq).
  split; [done| | |].
  - unfold table_inv. cbn [ps_table ps_nextpid ps_init put_mach]. rewrite Ht6.
    change (ps_nextpid s6) with (ps_nextpid s5). change (ps_init s6) with (ps_init s5). rewrite Hn5, Hi5.
    eapply (tab_set_init _ _ _ (f (proc_of p s1))).
    + rewrite <-Hi, <-Hi1. eapply tab_alter; [exact Ht|exact Hx1| |].
      * split; simpl; try done; [by rewrite Hp1|by right; left].
      * destruct Hok1 as [H1' H2' H3' H4' H5' H6' H7']. rewrite Hp1 in H1', H2', H7' |- *.
        split; simpl in *; auto; try done. by intros [|[|[? _]]].
    + by rewrite list_lookup_alter_eq, Hx1.
    + by right; left.
  - cbn [ps_table ps_mach put_mach]. unfold ncpu. cbn [ps_mach put_mach]. rewrite Ht6, (mf_cpus _ _ _ Hfr').
    eapply runs_alter; [|exact Hx1|by rewrite Hp1]. apply (runs_ok_mach _ (ps_mach s1)); [apply Hfr'| |done].
    intros i _. destruct (decide (i = c)) as [->|Hne]; [|by apply Hfr'].
    rewrite Hcp6. change (ps_mach s6) with m. by rewrite Hcp5, Hm5.
  - destruct Hlp as [Hl1 Hl2]. split.
    + cbn [ps_loop put_mach]. change (ps_loop s6) with (ps_loop s5). unfold ncpu. cbn [ps_mach put_mach].
      by rewrite Hl5, (mf_cpus _ _ _ Hfr').
    + cbn [ps_loop put_mach]. change (ps_loop s6) with (ps_loop s5). by rewrite Hl5.
Qed.
(** ** Every reachable state *)

(** A routine has one outcome. *)
Ltac same_run := match goal with
  | H1 : ?m = Ok _ _, H2 : ?m = Ok _ _ |- _ => rewrite H1 in H2; simplify_eq; done
  end.

Lemma kinit_inv s : kinit s → pinv s.
Proof.
  intros [Ha [Hne Hl] Hc Ht Hn Hi Hlp].
  assert (∀ i, (i < ncpu s)%nat → c_proc (cpu_of i (ps_mach s)) = None) as Hnone.
  { intros i Hi'. apply Hc. eapply list_elem_of_lookup_2, cpu_of_lookup, Hi'. }
  assert (∀ p x, ps_table s !! p = Some x → x = proc0) as Hp0.
  { intros p x Hx. rewrite Ht in Hx. by apply lookup_replicate in Hx as [-> _]. }
  split.
  - split.
    + apply (spin_init_inv _ (λ _, 0)). split_and!; [done|done| |done]. intros c Hin. by apply Hc.
    + destruct (m_locks (ps_mach s)); [done|simpl; unfold PTLOCK; lia].
    + destruct (m_locks (ps_mach s)) as [|l ls] eqn:El; [done|]. unfold lock_of. rewrite El. simpl.
      by rewrite (Hl l) by (by left).
  - split; rewrite ?Hn, ?Hi; try done.
    + by rewrite Ht, length_replicate.
    + rewrite Ht. apply Forall_replicate. split; try done. by intros [[|[|]]|].
    + intros p q x y Hx _ Hu. by rewrite (Hp0 p x Hx) in Hu.
    + intros p x q Hx Hq. by rewrite (Hp0 p x Hx) in Hq.
  - split.
    + intros i p Hi' _ Hp. rewrite Hnone in Hp by done. done.
    + intros p x Hx Hr. by rewrite (Hp0 p x Hx) in Hr.
    + intros i j p Hi' _ _ _ Hp. rewrite Hnone in Hp by done. done.
  - split; [by rewrite Hlp, length_replicate|]. rewrite Hlp. apply Forall_replicate. constructor.
Qed.

Lemma gives_up_inv c m s t s' : gives_up c m s t → m s = Ok tt s' → pinv s'.
Proof. intros Hg H. destruct (gives_up_run _ _ _ _ Hg) as (s1 & H1 & Hs1). rewrite H in H1. by injection H1 as ->. Qed.

Lemma own_inv c p s y :
  pinv s → runs c p s → own_change (proc_of p s) y → pinv (put_table (<[p := y]> (ps_table s)) s).
Proof.
  intros Hs Hr [H1 H2 H3 H4 H5 H6 H7 H8 H9].
  destruct (runs_state c p s (pi_tab _ Hs) (pi_runs _ Hs) Hr) as [Hlt Hst].
  pose proof (proc_lookup s p (pi_tab _ Hs) Hlt) as Hx. pose proof (proc_inv s p (pi_tab _ Hs) Hlt) as Hok.
  rewrite list_insert_alter.
  destruct Hs as [Hm Ht Hrr Hl]. split; simpl; [done| | |done].
  - eapply tab_alter; [exact Ht|exact Hx| |].
    + split; [done|done|by rewrite H1|by rewrite H1].
    + destruct Hok as [K1 K2 K3 K4 K5 K6 K7 K8]. split; rewrite ?H1, ?H2, ?H3, ?H4, ?H5; auto.
      rewrite Hst. by intros [|[|[? _]]].
  - eapply runs_alter; [exact Hrr|exact Hx|]. by rewrite H1.
Qed.

Lemma kstep_inv s s' : pinv s → kstep s s' → pinv s'.
Proof.
  intros Hs Hst. destruct Hst as [c s' Hc Hi Hn H|c s' Hc Hn Hh H|c p s' Hr Hh H|c p chan lk s' Hr Hh Hne Hlk Ho H
    |c p lk s' Hr Hx Hlk H|c p r s' Hr Hh H|c p init s' Hr Hh Hi Hne Hof H|c chan s' Hc H|c pid r s' Hc H
    |c p r s' Hr Hn H|c p np ok s' Hr Hnp Hem Hpar H|c p np r s' Hr Hnp Hem Hpar H|c p y Hr Ho
    |c lk s' Hc Hne Hlk H|c lk s' Hc Hne Hlk H|c b Hc Hn|e].
  - by eapply userinit_inv.
  - destruct (scheduler_run c s Hs Hc Hn Hh) as (s1 & H1 & ? & _). same_run.
  - eapply gives_up_inv; [by eapply yield_run|done].
  - destruct (sleep_run c p chan lk s Hs Hr Hh Hne Hlk Ho) as (b & s1 & E1 & Hs1 & _).
    destruct (swtch_scheduler_run c s1 Hs1) as (s2 & H2 & ?). rewrite E1 in H. same_run.
  - by eapply sleep_end_inv.
  - destruct (wait_run c p s Hs Hr Hh) as (r' & s1 & H1 & ? & _). same_run.
  - destruct (exit_switch_run c p init s Hs Hr Hh Hi Hne Hof) as (s1 & E1 & Hs1 & _).
    destruct (swtch_scheduler_run c s1 Hs1) as (s2 & H2 & ?). rewrite E1 in H. same_run.
  - destruct (wakeup_run c chan s Hs Hc) as (s1 & H1 & ? & _). same_run.
  - destruct (kill_run c pid s Hs Hc) as (r' & s1 & H1 & ? & _). same_run.
  - destruct (allocproc_run c s Hs (proj1 Hr) Hn) as (r' & s1 & H1 & ? & _). same_run.
  - destruct (runs_state c p s (pi_tab _ Hs) (pi_runs _ Hs) Hr) as [Hlt Hsr].
    assert (p ≠ np) as Hpn by (intros ->; congruence).
    eapply (fork_copy_inv p np s ok); try done. apply fork_copy_wlp; [done| | |done].
    + by rewrite (tab_len _ _ _ (pi_tab _ Hs)).
    + exact (ok_ofile _ _ (proc_inv s np (pi_tab _ Hs) Hnp)).
  - destruct (fork_start_run c np s Hs (proj1 Hr) Hnp Hem) as (s1 & H1 & ? & _); [by rewrite Hpar|]. same_run.
  - by eapply own_inv.
  - by destruct (acquire_other c lk s s' Hs Hc Hne Hlk H) as (m & -> & ? & _).
  - by eapply release_free.
  - destruct Hs as [[Hm Hpt Hf] Ht Hr Hl]. split; simpl; [|done| |].
    + split; [|done|done]. apply (mach_inv_cpu _ (λ _, 0)); try done; simpl; [|lia].
      by destruct (mi_ncli _ _ Hm c _ (cpu_of_lookup c _ Hc)) as (_ & ? & _).
    + unfold ncpu. simpl. rewrite length_alter. apply (runs_ok_mach _ (ps_mach s)); [by rewrite length_on_cpu| |done].
      intros i _. by rewrite c_proc_on.
    + apply loops_ok_mach; [by rewrite length_on_cpu|done].
  - by destruct Hs.
Qed.

Definition reachable s : Prop := ∃ s0, kinit s0 ∧ rtc kstep s0 s.

Lemma reachable_inv s : reachable s → pinv s.
Proof.
  intros (s0 & H0%kinit_inv & Hst). revert H0.
  induction Hst as [|s0 s1 s2 H1 _ IH]; [done|]. intros H0. apply IH. by eapply kstep_inv.
Qed.

(** C4. In every reachable state: the process of a CPU is RUNNING, and a RUNNING
    process is the process of exactly one CPU; the pids of the processes are
    distinct; a parent is alive; a process that can run has a kernel stack and a
    page table, and a context to go on from exactly when it does not run. *)
Theorem proc_invariant s :
  reachable s →
  (∀ c p, runs c p s → (p < NPROC)%nat ∧ p_state (proc_of p s) = RUNNING) ∧
  (∀ p, (p < NPROC)%nat → p_state (proc_of p s) = RUNNING → ∃ c, runs c p s ∧ ∀ c', runs c' p s → c' = c) ∧
  (∀ p q, (p < NPROC)%nat → (q < NPROC)%nat → p_state (proc_of p s) ≠ UNUSED →
     p_state (proc_of q s) ≠ UNUSED → p_pid (proc_of p s) = p_pid (proc_of q s) → p = q) ∧
  (∀ p q, (p < NPROC)%nat → p_parent (proc_of p s) = Some q →
     (q < NPROC)%nat ∧ live (p_state (proc_of q s))) ∧
  ∀ p, (p < NPROC)%nat → live (p_state (proc_of p s)) →
    p_kstack (proc_of p s) ≠ 0 ∧ p_pgdir (proc_of p s) ≠ 0 ∧
    context_ok (p_state (proc_of p s)) (p_context (proc_of p s)).
Proof.
  intros Hs%reachable_inv. pose proof Hs as [_ Ht Hr _]. pose proof Hr as [_ Hrc Hru].
  split_and!.
  - intros c p. by apply runs_state.
  - intros p Hp Hst. destruct (Hrc p _ (proc_lookup s p Ht Hp) Hst) as (c & Hc & _ & Hcp).
    exists c. split; [by split|]. intros c' [Hc' Hcp']. unfold ncpu in *. apply (Hru c' c p); (done || lia).
  - intros p q Hp Hq. apply (tab_pids _ _ _ Ht); by apply proc_lookup.
  - intros p q Hp Hpar. destruct (tab_parents _ _ _ Ht p _ q (proc_lookup s p Ht Hp) Hpar) as (y & Hy & Hl).
    split; [by eapply table_lt|]. unfold proc_of. by rewrite (list_lookup_total_correct _ _ _ Hy).
  - intros p Hp Hl. pose proof (proc_inv s p Ht Hp) as Hok. split_and!.
    + apply (ok_kstack _ _ Hok). by destruct Hl as [->|[->| ->]].
    + apply (ok_pgdir _ _ Hok). by left.
    + apply (ok_context _ _ Hok).
Qed.

(** C36. A round of the scheduler on an idle CPU ends, and if a process was ready to
    go on, the CPU runs a process afterwards; a process that yields gives up the
    CPU and can be run again. None of the checks of sched fails. *)
Theorem scheduler_progress s c :
  reachable s → (c < ncpu s)%nat → held_by c (ps_mach s) = [] →
  match c_proc (cpu_of c (ps_mach s)) with
  | None => ∃ s', scheduler c s = Ok tt s' ∧
      ((∃ q, (q < NPROC)%nat ∧ ready (proc_of q s)) →
       ∃ p, runs c p s' ∧ p_state (proc_of p s') = RUNNING)
  | Some p => ∃ b s1 s', yield c s = Ok tt s' ∧ yield c s = swtch_scheduler c s1 ∧
      ps_table s1 = alter (set_context (ctx_yield b) ∘ set_state RUNNABLE) p (ps_table s)
  end.
Proof.
  intros Hs%reachable_inv Hc Hh. destruct (c_proc (cpu_of c (ps_mach s))) as [p|] eqn:Hp.
  - assert (runs c p s) as Hr by done. pose proof (yield_run c p s Hs Hr Hh) as Hg.
    destruct (gives_up_run _ _ _ _ Hg) as (s' & H & _). destruct Hg as (b & s1 & H1 & _ & Ht).
    by exists b, s1, s'.
  - destruct (scheduler_run c s Hs Hc Hp Hh) as (s' & H & Hs' & Hq). exists s'. split; [done|].
    intros (q & Hlt & Hrd). destruct (Hq q Hlt Hrd) as [p Hr]. exists p. split; [done|].
    by apply (runs_state c p s' (pi_tab _ Hs') (pi_runs _ Hs')).
Qed.

(** A CPU that finds ptable.lock taken spins in sleep with its own lock still held. *)
Lemma sleep_spins s c c2 p chan lk m :
  pinv s → runs c p s → lk ≠ PTLOCK → lk_cpu (lock_of lk (ps_mach s)) = Some c → c2 ≠ c → (c2 < ncpu s)%nat →
  acquire c2 PTLOCK (ps_mach s) = Ok tt m →
  ∃ s2, sleep c chan lk (put_mach m s) = Blocked s2 ∧ lock_of lk (ps_mach s2) = lock_of lk (ps_mach s) ∧
    lk_cpu (lock_of PTLOCK (ps_mach s2)) = Some c2 ∧ ps_table s2 = ps_table s.
Proof.
  intros Hs Hr Hne Ho Hc2 Hlt Ha. destruct (ptlock_acquire c2 _ (ps_mach s) (pi_mach _ Hs) Hlt eq_refl) as (m' & Ha' & Hms & Hfr & _).
  rewrite Ha in Ha'. injection Ha' as <-. destruct Hms as [Hm Hpt Hown _]. set (s1 := put_mach m s). pose proof Hr as [Hc Hp].
  assert (c < length (m_cpus m))%nat as Hcm by (rewrite (mf_cpus _ _ _ Hfr); exact Hc).
  assert (c_proc (cpu_of c m) = Some p) as Hcp by (rewrite (mf_proc _ _ _ Hfr) by done; exact Hp).
  destruct (mi_ncli _ _ Hm c _ (cpu_of_lookup c _ Hcm)) as (_ & Hn & Hif).
  destruct (myproc_run c s1) as (s2 & H2 & [v ->] & _); [by eapply mi_cpu_ok|exact Hif|simpl; lia|]. simpl in H2. rewrite Hcp in H2.
  unfold sleep. rewrite (bind_run _ _ _ _ _ H2). set (s3 := put_mach (on_cpu c (set_intena v) m) s1).
  assert (acquire c PTLOCK (ps_mach s3) = Blocked (on_cpu c pushed (ps_mach s3))) as Hb.
  { rewrite acquire_run by (apply cpu_ok_on; [done|by eapply mi_cpu_ok]).
    change (lock_of PTLOCK (ps_mach s3)) with (lock_of PTLOCK m).
    destruct (holder_spec m _ c2 PTLOCK Hm Hpt Hown) as (_ & _ & _ & ->). cbn [lk_locked lk_cpu]. by rewrite bool_decide_false by congruence. }
  exists (put_mach (on_cpu c pushed (ps_mach s3)) s3). split.
  - unfold mbind, M_bind, mm, zoom. by rewrite Hb.
  - split; [exact (mf_lock _ _ _ Hfr lk Hne)|by split].
Qed.

(** C5. No lost wakeup. sleep gives its lock back only while it holds
    ptable.lock: as long as another CPU has ptable.lock, it spins and its own lock is still
    taken, and nothing has changed. Once it got ptable.lock it keeps it until the process is
    asleep on the channel, and only then the lock is free. So whoever takes the lock after
    it, and calls wakeup, finds the sleeper: wakeup returns, and makes exactly the
    processes asleep on the channel RUNNABLE. *)
Theorem sleep_wakeup s c p chan lk :
  reachable s → runs c p s → length (held_by c (ps_mach s)) = 1%nat → lk ≠ PTLOCK →
  (lk < length (m_locks (ps_mach s)))%nat → lk_cpu (lock_of lk (ps_mach s)) = Some c →
  (∀ c2, c2 ≠ c → (c2 < ncpu s)%nat → ∃ m s2, acquire c2 PTLOCK (ps_mach s) = Ok tt m ∧
    sleep c chan lk (put_mach m s) = Blocked s2 ∧ lk_cpu (lock_of lk (ps_mach s2)) = Some c ∧
    lk_cpu (lock_of PTLOCK (ps_mach s2)) = Some c2 ∧ ps_table s2 = ps_table s) ∧
  (∃ s1, sleep c chan lk s = swtch_scheduler c s1 ∧ (∃ s2, swtch_scheduler c s1 = Ok tt s2) ∧
    lk_cpu (lock_of PTLOCK (ps_mach s1)) = Some c ∧ lock_of lk (ps_mach s1) = Spinlock false None ∧
    p_state (proc_of p s1) = SLEEPING ∧ p_chan (proc_of p s1) = chan) ∧
  ∀ s2 c2, reachable s2 → (c2 < ncpu s2)%nat → ∃ s3, wakeup c2 chan s2 = Ok tt s3 ∧
    ∀ q, (q < NPROC)%nat → proc_of q s3 =
      if decide (p_state (proc_of q s2) = SLEEPING ∧ p_chan (proc_of q s2) = chan)
      then set_state RUNNABLE (proc_of q s2) else proc_of q s2.
Proof.
  intros Hs%reachable_inv Hr Hh Hne Hlk Ho. split_and!.
  - intros c2 Hc2 Hlt. destruct (ptlock_acquire c2 _ (ps_mach s) (pi_mach _ Hs) Hlt eq_refl) as (m & Ha & _).
    destruct (sleep_spins s c c2 p chan lk m Hs Hr Hne Ho Hc2 Hlt Ha) as (s2 & H1 & H2 & H3 & H4).
    exists m, s2. by rewrite H2.
  - destruct (sleep_run c p chan lk s Hs Hr Hh Hne Hlk Ho) as (b & s1 & E1 & Hs1 & Hl & Ht).
    destruct (swtch_scheduler_run c s1 Hs1) as (s2 & H2 & _). exists s1.
    destruct (runs_state c p s (pi_tab _ Hs) (pi_runs _ Hs) Hr) as [Hlt _].
    assert (proc_of p s1 = set_context (ctx_sleep lk b) (set_state SLEEPING (set_chan chan (proc_of p s)))) as Hp.
    { unfold proc_of. rewrite Ht. rewrite list_lookup_total_alter_eq; [done|]. by rewrite (tab_len _ _ _ (pi_tab _ Hs)). }
    rewrite Hp. split_and!; [done|by exists s2|exact (ms_own _ _ _ (se_mach _ _ _ Hs1))|done..].
  - intros s2 c2 Hs2%reachable_inv Hc2. destruct (wakeup_run c2 chan s2 Hs2 Hc2) as (s3 & H & _ & Ht & _).
    exists s3. split; [done|]. intros q Hq. rewrite <-(proc_of_wakeup1 chan q s2 (pi_tab _ Hs2) Hq).
    unfold proc_of. by rewrite Ht.
Qed.

(** wait frees one dead child and returns its pid; it fails, and changes no
    process, only if the caller has no child or is killed; otherwise, when there
    are children and none is dead, it gives up the CPU. *)
Theorem wait_correct s c p :
  reachable s → runs c p s → held_by c (ps_mach s) = [] →
  ∃ r s', wait c s = Ok r s' ∧ wait_post c p s r s'.
Proof.
  intros Hs%reachable_inv Hr Hh. destruct (wait_run c p s Hs Hr Hh) as (r & s' & H & _ & Hp).
  by exists r, s'.
Qed.

Lemma closed_inv c p s e : pinv s → runs c p s → pinv (put_env e (closed p s)).
Proof.
  intros Hs Hr. destruct (runs_state c p s (pi_tab _ Hs) (pi_runs _ Hs) Hr) as [Hlt Hst].
  pose proof (proc_lookup s p (pi_tab _ Hs) Hlt) as Hx.
  assert (pinv (closed p s)) as [? ? ? ?]; [|by split].
  unfold closed. replace (alter _ p (ps_table s)) with (<[p := set_pcwd None (set_ofile (replicate NOFILE None) (proc_of p s))]> (ps_table s)).
  - apply (own_inv c p s); [done|done|]. split; try done. apply (ok_pgdir _ _ (proc_inv s p (pi_tab _ Hs) Hlt)). left. rewrite Hst. by right; right.
  - rewrite list_insert_alter. apply list_alter_ext; [|done]. intros x Hx'. by simplify_eq.
Qed.

Lemma closed_ofile c p s e : pinv s → runs c p s → p_ofile (proc_of p (put_env e (closed p s))) = replicate NOFILE None.
Proof.
  intros Hs Hr. destruct (runs_state c p s (pi_tab _ Hs) (pi_runs _ Hs) Hr) as [Hlt _].
  unfold closed. change (proc_of p (put_env e ?t)) with (proc_of p t).
  by rewrite proc_of_alter_lt, decide_True by (by rewrite ?(tab_len _ _ _ (pi_tab _ Hs))).
Qed.

(** C35. exit closes every open file of the process once, in order, and drops its directory
    inside an operation of the log; then, in one section, it makes exactly these changes to the table
    of processes: it becomes a zombie without files and directory; its children get init as
    their parent; those asleep on its parent's channel are woken, and those on init's if it had
    a dead child. Every other process is as before, and the CPU goes to the scheduler for good. *)
Theorem exit_correct s c p init e :
  reachable s → runs c p s → held_by c (ps_mach s) = [] → ps_init s = Some init → init ≠ p →
  env_exit (proc_of p s) (ps_env s) = Ok tt e →
  ∃ s1 s', exit c s = swtch_scheduler c s1 ∧ swtch_scheduler c s1 = Ok tt s' ∧ ps_env s1 = e ∧
    exited p init (closed p s) (ps_table s1).
Proof.
  intros Hs%reachable_inv Hr Hh Hi Hne He.
  destruct (curproc_enter c p s Hs Hr) as (s0 & H0 & Hs0 & Hr0 & Ht0 & Hn0 & Hi0 & Hl0 & He0 & Hh0 & _).
  destruct (runs_state c p s0 (pi_tab _ Hs0) (pi_runs _ Hs0) Hr0) as [Hlt _].
  assert (proc_of p s0 = proc_of p s) as Hp by (unfold proc_of; by rewrite Ht0).
  rewrite (exit_enter c p init s s0 e H0).
  2: { by rewrite Hi0. } 2: { done. } 2: { by rewrite (tab_len _ _ _ (pi_tab _ Hs0)). }
  2: { exact (ok_ofile _ _ (proc_inv s0 p (pi_tab _ Hs0) Hlt)). } 2: { by rewrite Hp, He0. }
  set (s2 := put_env e (closed p s0)).
  destruct (exit_switch_run c p init s2) as (s1 & H1 & Hs1 & He1 & Hex); [by eapply closed_inv|exact Hr0|by change (held_by c (ps_mach s0) = []); rewrite Hh0|
    by change (ps_init s0 = Some init); rewrite Hi0|done|by eapply closed_ofile|].
  destruct (swtch_scheduler_run c s1 Hs1) as (s' & H' & _). exists s1, s'. split_and!; [done|done|by rewrite He1|].
  assert (∀ q, proc_of q s2 = proc_of q (closed p s)) as Hq.
  { intros q. unfold proc_of, s2, closed. simpl. by rewrite Ht0. }
  destruct Hex as [E1 (b & Hb & E2) [E3 E3'] E4 E5 E6 E7].
  apply (exited_intro p init _ _ b); [done| |done|done| |].
  - destruct (tab_init _ _ _ (pi_tab _ Hs0) init) as (x & Hx & _); [by rewrite Hi0|]. by eapply table_lt, Hx; apply Hs0.
  - rewrite Hb. by setoid_rewrite Hq.
  - intros q Hlq. rewrite (E2 q Hlq). unfold exit_entry. by rewrite !Hq.
Qed.

(** kill marks the first entry with the pid, makes it RUNNABLE if it sleeps,
    and returns 0; without one it returns -1 and changes no process. No other
    process changes. An unused entry counts: with pid 0 the next process that is
    made in the entry is born killed. *)
Theorem kill_correct s c pid :
  reachable s → (c < ncpu s)%nat →
  ∃ r s', kill c pid s = Ok r s' ∧
    ((r = -1 ∧ ps_table s' = ps_table s ∧ ∀ q, (q < NPROC)%nat → p_pid (proc_of q s) ≠ pid) ∨
     (∃ q, r = 0 ∧ (q < NPROC)%nat ∧ p_pid (proc_of q s) = pid ∧ (∀ q', (q' < q)%nat → p_pid (proc_of q' s) ≠ pid) ∧
        (∀ q', (q' < NPROC)%nat → q' ≠ q → proc_of q' s' = proc_of q' s) ∧
        p_killed (proc_of q s') = true ∧
        p_state (proc_of q s') = (if decide (p_state (proc_of q s) = SLEEPING) then RUNNABLE else p_state (proc_of q s)))) ∧
    ∀ p s2, ps_nextpid s' < 2147483647 → allocproc c s' = Ok (Some p) s2 →
      p_killed (proc_of p s2) = p_killed (proc_of p s').
Proof.
  intros Hs%reachable_inv Hc. destruct (kill_run c pid s Hs Hc) as (r & s' & H & Hs' & Hnc & Hr).
  exists r, s'. split; [done|]. pose proof (pi_tab _ Hs) as Ht. split.
  - destruct (list_find _ _) as [[q y]|] eqn:Ef; destruct Hr as [-> Hr].
    + right. exists q. apply list_find_Some in Ef as (Hy & Hpid & Hfirst). pose proof (table_lt _ _ _ Ht Hy) as Hq.
      assert (proc_of q s = y) as Hqy by (by apply list_lookup_total_correct).
      assert (proc_of q s' = kill_entry y) as Hqy'.
      { unfold proc_of. rewrite Hr, list_lookup_total_alter_eq by (by rewrite (tab_len _ _ _ Ht)). by rewrite <-Hqy. }
      rewrite Hqy', Hqy. split_and!; try done.
      * intros q' Hq'. apply (Hfirst q' _); [|done]. apply proc_lookup; [done|lia].
      * intros q' _ Hne. unfold proc_of. rewrite Hr. by apply list_lookup_total_alter_ne.
      * unfold kill_entry. by case_decide.
      * unfold kill_entry. simpl. by case_decide.
    + left. split_and!; [done..|]. intros q Hq. apply list_find_None in Ef. rewrite Forall_lookup in Ef.
      by apply (Ef q), proc_lookup.
  - intros p s2 Hn Ha. assert (c < ncpu s')%nat as Hc' by (by rewrite Hnc).
    destruct (allocproc_run c s' Hs' Hc' Hn) as (r' & s3 & H3 & _ & _ & _ & _ & Hr').
    rewrite Ha in H3. injection H3 as <- <-. destruct Hr' as (Hp & _ & _ & ks & _ & Ht3 & _).
    unfold proc_of. rewrite Ht3, list_lookup_total_alter_eq; [done|]. by rewrite (tab_len _ _ _ (pi_tab _ Hs')).
Qed.
(** ** fork *)

(** What fork asks of the rest of the kernel, in the order of its calls: a kernel stack, a
    copy of the caller's memory at its page table and size, another use of each of its
    open files and of its directory. The stack and the page table, or None. *)
Definition env_forks (x : proc) : M E (option (Z * Z)) :=
  ks ← env_kalloc;
  if ks =? 0 then mret None
  else r ← env_fork x ks; mret ((λ pg, (ks, pg)) <$> r).

(** The child [np] that fork made, with the stack and the page table it got. *)
Definition forked p ks pg s r s' : Prop :=
  ∃ np, (np < NPROC)%nat ∧ p_state (proc_of np s) = UNUSED ∧ r = ps_nextpid s ∧
    (∀ q, (q < NPROC)%nat → q ≠ np → proc_of q s' = proc_of q s) ∧
    let x := proc_of p s in let z := proc_of np s' in
    p_state z = RUNNABLE ∧ p_context z = ctx_forkret ∧ p_pid z = r ∧ p_parent z = Some p ∧
    p_sz z = p_sz x ∧ p_pgdir z = pg ∧ pg ≠ 0 ∧ p_kstack z = ks ∧ ks ≠ 0 ∧ p_cwd z = p_cwd x ∧
    p_name z = safe_name (p_name x) (p_name (proc_of np s)) ∧ p_ofile z = p_ofile x ∧
    let t := p_tf x in p_tf z = Trapframe 0 (tf_cs t) (tf_ds t) (tf_es t) (tf_ss t) (tf_eflags t) (tf_esp t)
      (tf_eip t) (tf_regs t) (tf_trapno t).

(** An unused entry may change without a process in it. *)
Definition no_child_made s s' : Prop := ∀ q, (q < NPROC)%nat → proc_of q s' = proc_of q s ∨
  p_state (proc_of q s) = UNUSED ∧ p_state (proc_of q s') = UNUSED.

(** The start of the child in its entry, after allocproc and fork_copy. *)
Lemma fork_finish c p np s s1 s2 ks pg f :
  pinv s → runs c p s → pinv s1 → (c < ncpu s1)%nat → (np < NPROC)%nat → p_state (proc_of np s) = UNUSED → ks ≠ 0 →
  (∀ q, proc_of q s1 = if decide (q = np) then embryo (ps_nextpid s) ks (proc_of np s) else proc_of q s) →
  s2 = put_env (ps_env s2) (put_table (alter f np (ps_table s1)) s1) → pinv s2 →
  child p pg (proc_of p s1) (proc_of np s1) (f (proc_of np s1)) →
  ∃ s', fork_start c np s2 = Ok (ps_nextpid s) s' ∧ ps_env s' = ps_env s2 ∧ forked p ks pg s (ps_nextpid s) s'.
Proof.
  intros Hs Hr Hs1 Hc Hnp Hu Hks Hlk Hs2e Hs2 Hch. destruct (runs_state c p s (pi_tab _ Hs) (pi_runs _ Hs) Hr) as [Hp Hst].
  assert (p ≠ np) as Hne by (intros ->; congruence).
  assert (proc_of p s1 = proc_of p s) as Hx by (by rewrite Hlk, decide_False).
  assert (proc_of np s1 = embryo (ps_nextpid s) ks (proc_of np s)) as Hy by (by rewrite Hlk, decide_True).
  assert (∀ q, proc_of q s2 = if decide (q = np) then f (proc_of np s1) else proc_of q s1) as Hlk2.
  { intros q. rewrite Hs2e. change (proc_of q (put_env ?e ?t)) with (proc_of q t).
    apply proc_of_alter_lt. by rewrite (tab_len _ _ _ (pi_tab _ Hs1)). }
  destruct Hch as [(F1 & F2 & F3 & F4) (F5 & F6 & F6') F7 F8 [_ F9] F10 F11].
  pose proof (Hlk2 np) as Hz. rewrite decide_True in Hz by done.
  destruct (fork_start_run c np s2 Hs2) as (s3 & H3 & Hs3 & Ht3 & _ & _ & He3).
  { unfold ncpu in *. rewrite Hs2e. exact Hc. } { done. } { by rewrite Hz, F1, Hy. } { by rewrite Hz, F8. }
  rewrite Hz, F2, Hy in H3. exists s3. split; [exact H3|]. split; [exact He3|]. exists np.
  assert (∀ q, proc_of q s3 = if decide (q = np) then set_state RUNNABLE (proc_of np s2) else proc_of q s2) as Hlk3.
  { intros q. rewrite <-proc_of_alter_lt by (by rewrite (tab_len _ _ _ (pi_tab _ Hs2))). unfold proc_of. by rewrite Ht3. }
  split_and!; [done|done|done| |].
  { intros q Hq Hqn. by rewrite Hlk3, decide_False, Hlk2, decide_False, Hlk, decide_False by done. }
  rewrite Hlk3, decide_True, Hz by done. cbv zeta. rewrite Hx in F5, F7, F9, F10, F11. rewrite Hy in *.
  cbn [p_state p_context p_pid p_parent p_sz p_pgdir p_kstack p_tf p_cwd p_name p_ofile set_state].
  split_and!; try done. apply F9.
  - apply (ok_closed _ _ (proc_inv s np (pi_tab _ Hs) Hnp)). by left.
  - exact (ok_ofile _ _ (proc_inv s p (pi_tab _ Hs) Hp)).
Qed.

(** C34. fork makes a copy of its caller in an unused entry and returns the fresh
    pid: the child is ready to run from forkret, on its own kernel stack, with the page
    table that copyuvm makes of the caller's memory (its page table and its size), and with the
    caller's size, registers (eax 0), open files, each with another filedup, directory and
    name. Without an entry, a kernel stack or memory it returns -1, and then no process
    is made and every entry in use is as before. It asks the rest of the kernel for exactly
    these things, and returns when they do. *)
Theorem fork_correct s c p :
  reachable s → runs c p s → ps_nextpid s < 2147483647 →
  ((∀ q, (q < NPROC)%nat → p_state (proc_of q s) ≠ UNUSED) →
     ∃ s', fork c s = Ok (-1) s' ∧ ps_env s' = ps_env s ∧ ps_table s' = ps_table s) ∧
  (∀ q r e, (q < NPROC)%nat → p_state (proc_of q s) = UNUSED → env_forks (proc_of p s) (ps_env s) = Ok r e →
     ∃ v s', fork c s = Ok v s' ∧ ps_env s' = e ∧
       match r with
       | Some (ks, pg) => forked p ks pg s v s'
       | None => v = -1 ∧ no_child_made s s'
       end).
Proof.
  intros Hs%reachable_inv Hr Hn.
  destruct (curproc_enter c p s Hs Hr) as (s0 & H0 & Hs0 & Hr0 & Ht0 & Hn0 & _ & _ & He0 & _ & _).
  assert (∀ q, proc_of q s0 = proc_of q s) as Hp0 by (intros q; unfold proc_of; by rewrite Ht0).
  unfold fork. rewrite (bind_run _ _ _ _ _ H0).
  destruct (allocproc_run c s0 Hs0 (proj1 Hr0)) as (r1 & s1 & H1 & Hs1 & Hfr & Hcp1 & Hi1 & Hr1); [by rewrite Hn0|].
  rewrite (bind_run _ _ _ _ _ H1). pose proof (pi_tab _ Hs0) as Htab0.
  assert (∀ f q' q, (q' < NPROC)%nat → ps_table s1 = alter f q' (ps_table s0) →
    proc_of q s1 = if decide (q = q') then f (proc_of q' s) else proc_of q s) as Hlk.
  { intros f q' q Hq' Ht1. rewrite <-!Hp0, <-proc_of_alter_lt by (by rewrite (tab_len _ _ _ Htab0)).
    unfold proc_of. by rewrite Ht1. }
  split.
  { intros Hfull. destruct r1 as [np|].
    - destruct Hr1 as (Hnp & Hu & _). rewrite Hp0 in Hu. by destruct (Hfull np).
    - destruct Hr1 as [(Ht1 & He1 & _)|(q & Hq & Hu & _)]; [|rewrite Hp0 in Hu; by destruct (Hfull q)].
      exists s1. split; [done|]. by rewrite He1, Ht1. }
  intros q r e Hq Hu He. unfold env_forks in He.
  destruct r1 as [np|].
  2: { destruct Hr1 as [(_ & _ & Hno)|(q' & Hq' & Hu' & Ht1 & Hk)]; [destruct (Hno q Hq); by rewrite Hp0|].
    rewrite He0 in Hk. rewrite (bind_run _ _ _ _ _ Hk) in He. injection He as <- <-.
    exists (-1), s1. split; [done|]. split; [done|]. split; [done|]. intros i Hi.
    rewrite (Hlk _ q' i Hq' Ht1). case_decide as Hd; [subst i; right|by left]. rewrite Hp0 in Hu'. by split. }
  destruct Hr1 as (Hnp & Hun & Hn1 & ks & Hks & Ht1 & Hk). rewrite Hp0 in Hun. rewrite He0 in Hk.
  rewrite (bind_run _ _ _ _ _ Hk), (proj2 (Z.eqb_neq _ _) Hks) in He. apply bind_Ok in He as (r2 & e2 & He & Hret).
  injection Hret as <- <-. pose proof (pi_tab _ Hs1) as Htab1.
  destruct (runs_state c p s (pi_tab _ Hs) (pi_runs _ Hs) Hr) as [Hp Hst].
  assert (p ≠ np) as Hne by (intros ->; congruence).
  pose proof (Hlk _ np np Hnp Ht1) as Hy. rewrite decide_True in Hy by done.
  pose proof (Hlk _ np p Hnp Ht1) as Hx. rewrite decide_False in Hx by done.
  pose proof (fork_copy_follows p np s1 Hne) as Hf. rewrite Hx, Hy in Hf. cbn [p_kstack embryo set_context set_kstack] in Hf.
  rewrite He in Hf. destruct Hf as (ok & s2 & H2 & -> & f & Hs2e & Hf).
  { by rewrite (tab_len _ _ _ Htab1). } { rewrite <-Hy. exact (ok_ofile _ _ (proc_inv s1 np Htab1 Hnp)). }
  rewrite (bind_run _ _ _ _ _ H2).
  assert (copied p np s1 ok s2) as Hcopied.
  { apply fork_copy_wlp; [done|by rewrite (tab_len _ _ _ Htab1)|exact (ok_ofile _ _ (proc_inv s1 np Htab1 Hnp))|done]. }
  assert (p_parent (proc_of np s) = None) as Hpar by (by apply (ok_unused _ _ (proc_inv s np (pi_tab _ Hs) Hnp))).
  assert (pinv s2) as Hs2.
  { apply (fork_copy_inv p np s1 ok s2); [exact Hs1|rewrite Hx; exact Hst|done|done|by rewrite Hy|by rewrite Hy|exact Hcopied]. }
  destruct r2 as [pg|]; destruct Hf as [-> Hf].
  - rewrite <-Hy, <-Hx in Hf.
    destruct (fork_finish c p np s s1 s2 ks pg f Hs Hr Hs1) as (s3 & H3 & He3 & Hfk); try done.
    { unfold ncpu. rewrite (mf_cpus _ _ _ Hfr). apply Hr0. }
    { intros i. rewrite (Hlk _ np i Hnp Ht1), Hn0. done. }
    exists (ps_nextpid s), s3. split; [exact H3|]. by split.
  - exists (-1), s2. split; [done|]. split; [done|]. split; [done|]. intros i Hi.
    assert (proc_of i s2 = if decide (i = np) then f (proc_of np s1) else proc_of i s1) as ->.
    { rewrite Hs2e. change (proc_of i (put_env ?e ?t)) with (proc_of i t). apply proc_of_alter_lt. by rewrite (tab_len _ _ _ Htab1). }
    case_decide as Hd; [subst i; right; split; [done|]; by rewrite Hy, Hf|left]. by rewrite (Hlk _ np i Hnp Ht1), decide_False.
Qed.
End run.

(** ** A run on two CPUs *)

(** A kernel whose pages are the multiples of 4096. *)
#[local] Instance env_ex : ProcEnv Z := {|
  env_kalloc := λ e, Ok (4096 * (e + 1)) (e + 1);
  env_kfree := λ _, mret tt;
  env_setupkvm := λ e, Ok (4096 * (e + 1)) (e + 1);
  env_inituvm := λ _, mret tt;
  env_allocuvm := λ _ _ n, mret n;
  env_deallocuvm := λ _ _ n, mret n;
  env_copyuvm := λ _ _ e, Ok (4096 * (e + 1)) (e + 1);
  env_freevm := λ _, mret tt;
  env_ltr := λ _, mret tt;
  env_lcr3 := λ _, mret tt;
  env_kpgdir := λ _, 4096;
  env_filedup := λ f, mret f;
  env_fileclose := λ _, mret tt;
  env_idup := λ i, mret i;
  env_iput := λ _, mret tt;
  env_begin_op := mret tt;
  env_end_op := mret tt;
  env_namei_root := mret (Some 1%nat);
  env_init := mret tt
|}.

#[local] Instance env_ex_laws : ProcEnvLaws Z.
Proof. split; intros; repeat eexists. Qed.
#[local] Instance env_ex_dup : ProcEnvDup (E:=Z).
Proof. split; by intros ???? [= <- _]. Qed.

Definition state_of {A} (o : outcome (pst Z) A) : pst Z :=
  match o with Ok _ s => s | Panic _ s => s | Blocked s => s
  | NoFuel => Pst (Mach [] []) [] 0 None true [] 0 end.

Definition boot : pst Z :=
  Pst (Mach [Cpu 0 true 0 false None; Cpu 1 true 0 false None] (replicate 3 (Spinlock false None)))
    (replicate NPROC proc0) 1 None true [[]; []] 0.

(** init is made and runs on CPU 0, where it forks. *)
Definition st_init : pst Z := state_of (userinit 0 boot).
Definition st_run : pst Z := state_of (scheduler 0 st_init).
Definition st_alloc : pst Z := state_of (allocproc 0 st_run).
Definition st_copy : pst Z := state_of (fork_copy 0 1 st_alloc).
Definition st_fork : pst Z := state_of (fork_start 0 1 st_copy).
(** The child runs on CPU 1, and exits. *)
Definition st_child : pst Z := state_of (scheduler 1 st_fork).
Definition st_exit : pst Z := state_of (exit_switch 1 1 0 st_child).
(** init takes a lock to sleep with. *)
Definition st_lock : pst Z := state_of (mm (acquire 0 1) st_run).

Ltac reach := clear; first [by vm_compute | by (apply (bool_decide_unpack _); vm_compute)].

Lemma boot_init : kinit boot.
Proof.
  split; try reach.
  - split; [done|]. intros l Hl. simpl in Hl. set_solver.
  - intros c Hc. simpl in Hc. set_solver.
Qed.

Lemma reach_run : reachable st_run.
Proof.
  exists boot. split; [apply boot_init|]. eapply rtc_l; [apply (k_userinit boot 0 st_init); reach|].
  eapply rtc_once, (k_scheduler st_init 0); reach.
Qed.

Lemma reach_step s s' : reachable s → kstep s s' → reachable s'.
Proof. intros (s0 & H0 & Hs) Hst. exists s0. split; [done|]. by eapply rtc_r. Qed.

Lemma run_0 : runs 0 0 st_run.
Proof. split; reach. Qed.

Lemma reach_child : reachable st_child.
Proof.
  eapply reach_step; [|apply (k_scheduler st_fork 1 st_child); reach].
  eapply reach_step; [|apply (k_start st_copy 0 0 1 2 st_fork); [split|..]; reach].
  eapply reach_step; [|apply (k_copy st_alloc 0 0 1 true st_copy); [split|..]; reach].
  eapply reach_step; [apply reach_run|apply (k_alloc st_run 0 0 (Some 1%nat) st_alloc); [split|..]; reach].
Qed.

Lemma reach_exit : reachable st_exit.
Proof.
  eapply reach_step; [apply reach_child|].
  apply (k_exit st_child 1 1 0 st_exit); [split|..]; reach.
Qed.

Lemma proc_invariant_witness :
  reachable st_child ∧ ∃ c, runs c 1 st_child ∧ ∀ c', runs c' 1 st_child → c' = c.
Proof.
  split; [apply reach_child|]. destruct (proc_invariant st_child reach_child) as (_ & H & _).
  apply H; reach.
Defined.

Lemma scheduler_progress_witness : ∃ s' p, scheduler 1 st_fork = Ok tt s' ∧ runs 1 p s'.
Proof.
  assert (reachable st_fork) as Hr.
  { eapply reach_step; [|apply (k_start st_copy 0 0 1 2 st_fork); [split|..]; reach].
    eapply reach_step; [|apply (k_copy st_alloc 0 0 1 true st_copy); [split|..]; reach].
    eapply reach_step; [apply reach_run|apply (k_alloc st_run 0 0 (Some 1%nat) st_alloc); [split|..]; reach]. }
  pose proof (scheduler_progress st_fork 1 Hr ltac:(reach) ltac:(reach)) as Hp.
  assert (c_proc (cpu_of 1 (ps_mach st_fork)) = None) as Hn by reach. rewrite Hn in Hp.
  destruct Hp as (s' & H & Hq).
  destruct Hq as (p & Hp & _); [|exists s', p; exact (conj H Hp)].
  exists 1%nat. split; [reach|]. split; [reach|]. intros [b Hb]. vm_compute in Hb. discriminate.
Defined.

Lemma sleep_wakeup_witness : ∃ s1 s2, sleep 0 77 1 st_lock = swtch_scheduler 0 s1 ∧
  swtch_scheduler 0 s1 = Ok tt s2.
Proof.
  assert (reachable st_lock) as Hr.
  { eapply reach_step; [apply reach_run|]. apply (k_acquire st_run 0 1 st_lock); reach. }
  destruct (sleep_wakeup st_lock 0 0 77 1 Hr) as (_ & (s1 & H1 & [s2 H2] & _) & _); [split; reach|reach..|].
  exists s1, s2. exact (conj H1 H2).
Defined.

Lemma wait_correct_witness : ∃ s', wait 0 st_exit = Ok (Some 2) s'.
Proof.
  destruct (wait_correct st_exit 0 0 reach_exit) as (r & s' & H & Hp); [split; reach|reach|].
  exists s'. destruct r as [r|]; rewrite H.
  - destruct Hp as (_ & _ & [(q & Hq & [Hz1 Hz2] & -> & _)|(_ & _ & [Hk|Hn])]).
    + do 2 f_equal. destruct q as [|[|q]]; [by vm_compute in Hz2|by vm_compute|exfalso].
      assert (bool_decide (Forall (λ x, p_state x ≠ ZOMBIE) (drop 2 (ps_table st_exit))) = true) as Hall by reach.
      apply bool_decide_eq_true in Hall. rewrite Forall_lookup in Hall.
      apply (Hall q (proc_of (S (S q)) st_exit)); [|done]. rewrite lookup_drop.
      by apply (proc_lookup st_exit), Hq; apply reachable_inv, reach_exit.
    + by vm_compute in Hk.
    + destruct (Hn 1%nat); reach.
  - destruct Hp as (_ & Hz & _). destruct (Hz 1%nat); [reach|split; reach].
Defined.

Lemma exit_correct_witness : ∃ s1, exit 1 st_child = swtch_scheduler 1 s1 ∧
  p_state (ps_table s1 !!! 1%nat) = ZOMBIE.
Proof.
  destruct (exit_correct st_child 1 1 0 (ps_env st_child) reach_child) as (s1 & s' & H & _ & _ & Hx); [split; reach|reach..|].
  exists s1. split; [exact H|]. apply (ex_zombie _ _ _ _ Hx).
Defined.

Lemma kill_correct_witness : ∃ s', kill 0 2 st_child = Ok 0 s'.
Proof.
  destruct (kill_correct st_child 0 2 reach_child) as (r & s' & H & Hr & _); [reach|].
  exists s'. rewrite H. destruct Hr as [(_ & _ & Hn)|(q & -> & _)]; [|done].
  destruct (Hn 1%nat); reach.
Defined.

Lemma fork_correct_witness : ∃ s' ks pg, fork 0 st_run = Ok 2 s' ∧ forked 0 ks pg st_run 2 s'.
Proof.
  destruct (fork_correct st_run 0 0 reach_run run_0) as [_ H]; [reach|].
  destruct (env_forks (proc_of 0 st_run) (ps_env st_run)) as [[[ks pg]|] e| | |] eqn:Ef; try (by vm_compute in Ef).
  destruct (H 1%nat (Some (ks, pg)) e ltac:(reach) ltac:(reach) eq_refl) as (v & s' & Hf & _ & Hk).
  exists s', ks, pg. pose proof Hk as (_ & _ & _ & Hv & _). assert (ps_nextpid st_run = 2) as E by reach.
  rewrite E in Hv. subst v. by split.
Defined.
