(* ===== verification/Pipe.v ===== *)
(** * Pipes (pipe.c)

    A pipe with the threads that read and write it. The code that runs between
    p->lock being taken, or sleep coming back, and the lock being given back, or
    sleep being called, is one section: a routine runs to its return or to its
    next sleep. pipealloc is in File.v. *)

From S2P Require Import Prelude.

Definition PIPESIZE : Z := 512.

Record pipe := Pipe { data : list Z; nread : Z; nwrite : Z; readopen : bool; writeopen : bool }.

(** The two channels of a pipe: the addresses of its counters. *)
Inductive pchan := NREAD | NWRITE.
#[export] Instance pchan_eq_dec : EqDecision pchan.
Proof. solve_decision. Defined.

(** A thread: not in the pipe, in pipewrite(addr, n) with the bytes [rest] still to
    write, or in piperead(addr, n); inside, it is asleep or about to go on. *)
Inductive pthread :=
  | T_out
  | T_write (n : Z) (rest : list Z) (asleep : bool)
  | T_read (n : Z) (asleep : bool).
#[export] Instance pthread_inhabited : Inhabited pthread := populate T_out.

Record pipesys := PipeSys { pp : pipe; threads : list pthread }.

Definition asleep_on (c : pchan) (t : pthread) : bool :=
  match t, c with
  | T_write _ _ a, NWRITE => a
  | T_read _ a, NREAD => a
  | _, _ => false
  end.
Definition wake (t : pthread) : pthread :=
  match t with
  | T_out => T_out
  | T_write n rest _ => T_write n rest false
  | T_read n _ => T_read n false
  end.

(** wakeup of proc.c, on these threads. *)
Definition wakeup (c : pchan) : M pipesys unit :=
  modify (λ s, PipeSys (pp s) ((λ t, if asleep_on c t then wake t else t) <$> threads s)).
Definition on_pipe (f : pipe → pipe) : M pipesys unit := modify (λ s, PipeSys (f (pp s)) (threads s)).

Definition push (b : Z) (p : pipe) : pipe :=
  Pipe (setZ (data p) (nwrite p mod PIPESIZE) b) (nread p) (u32 (nwrite p + 1)) (readopen p) (writeopen p).
Definition pop (p : pipe) : pipe :=
  Pipe (data p) (u32 (nread p + 1)) (nwrite p) (readopen p) (writeopen p).

(** What a section ends with: the routine returns, or it sleeps. *)
Inductive section_end (A : Type) := Return (a : A) | Sleep.
Arguments Return {A} a.
Arguments Sleep {A}.

(** pipewrite from the test of its for loop; [l] is what is left of addr. It goes
    to sleep with the bytes it has not written. *)
Fixpoint pipewrite_loop (killed : bool) (n : Z) (l : list Z) : M pipesys (section_end Z * list Z) :=
  match l with
  | [] => wakeup NREAD;; mret (Return n, [])
  | b :: l' =>
      p ← gets pp;
      if nwrite p =? u32 (nread p + PIPESIZE) then
        if negb (readopen p) || killed then mret (Return (-1), l)
        else wakeup NREAD;; mret (Sleep, l)
      else
        on_pipe (push b);;
        pipewrite_loop killed n l'
  end.

Definition pipewrite (killed : bool) (addr : list Z) (n : Z) : M pipesys (section_end Z * list Z) :=
  pipewrite_loop killed n (take (Z.to_nat n) addr).

(** The copy loop of piperead: the bytes it stores at addr. *)
Fixpoint piperead_copy (n : nat) : M pipesys (list Z) :=
  match n with
  | O => mret []
  | S n =>
      p ← gets pp;
      if nread p =? nwrite p then mret []
      else
        on_pipe pop;;
        l ← piperead_copy n;
        mret (getZ (data p) (nread p mod PIPESIZE) :: l)
  end.

(** The result of piperead with the bytes it stored. *)
Definition piperead (killed : bool) (n : Z) : M pipesys (section_end (Z * list Z)) :=
  p ← gets pp;
  if (nread p =? nwrite p) && writeopen p then
    mret (if killed then Return (-1, []) else Sleep)
  else
    l ← piperead_copy (Z.to_nat n);
    wakeup NWRITE;;
    mret (Return (Z.of_nat (length l), l)).

(** pipeclose; the pipe is freed when both ends are closed. *)
Definition pipeclose (writable : bool) : M pipesys bool :=
  (if writable then
     on_pipe (λ p, Pipe (data p) (nread p) (nwrite p) (readopen p) false);;
     wakeup NREAD
   else
     on_pipe (λ p, Pipe (data p) (nread p) (nwrite p) false (writeopen p));;
     wakeup NWRITE);;
  p ← gets pp;
  mret (negb (readopen p) && negb (writeopen p)).

(** A new pipe: its page holds whatever it held. *)
Definition pipe_init (page : list Z) : pipe := Pipe page 0 0 true true.

(** ** The pipe as a queue of bytes *)

Record pipe_rep (p : pipe) (q : list Z) : Prop := {
  rep_data : length (data p) = 512%nat;
  rep_nread : is_u32 (nread p);
  rep_len : (length q <= 512)%nat;
  rep_nwrite : nwrite p = u32 (nread p + Z.of_nat (length q));
  rep_bytes : ∀ i, (i < length q)%nat → getZ (data p) ((nread p + Z.of_nat i) mod 512) = q !!! i
}.

Lemma rep_empty p q : pipe_rep p q → (nread p =? nwrite p) = bool_decide (q = []).
Proof.
  intros [_ Hn Hl Hw _]. destruct q as [|b q]; cbn [length] in *.
  - rewrite bool_decide_true by done. apply Z.eqb_eq. rewrite Hw, Z.add_0_r. by rewrite u32_small.
  - rewrite bool_decide_false by done. apply Z.eqb_neq. rewrite Hw. zmod.
Qed.

Lemma rep_full p q :
  pipe_rep p q → (nwrite p =? u32 (nread p + PIPESIZE)) = bool_decide (length q = 512%nat).
Proof.
  intros [_ Hn Hl Hw _]. unfold PIPESIZE. destruct (decide (length q = 512%nat)) as [E|E].
  - rewrite bool_decide_true by done. apply Z.eqb_eq. by rewrite Hw, E.
  - rewrite bool_decide_false by done. apply Z.eqb_neq. rewrite Hw. zmod.
Qed.

(** The counters wrap at 2^32, a multiple of PIPESIZE. *)
Lemma u32_mod512 x : u32 x mod 512 = x mod 512.
Proof. unfold u32. Z.to_euclidean_division_equations; lia. Qed.

Lemma rep_push p q b : pipe_rep p q → (length q < 512)%nat → pipe_rep (push b p) (q ++ [b]).
Proof.
  intros [Hd Hn Hl Hw Hb] Hlt. split; simpl.
  - unfold setZ. by rewrite length_insert.
  - done.
  - rewrite length_app. simpl. lia.
  - rewrite length_app, Hw. simpl. zmod.
  - intros i Hi. rewrite length_app in Hi. simpl in Hi. unfold getZ, setZ, PIPESIZE in *.
    rewrite Hw, u32_mod512. destruct (decide (i = length q)) as [->|Hne].
    + rewrite list_lookup_total_insert_eq; [by rewrite lookup_total_app_r, Nat.sub_diag by lia|].
      rewrite Hd. pose proof (Z.mod_pos_bound (nread p + Z.of_nat (length q)) 512). lia.
    + rewrite list_lookup_total_insert_ne, Hb; [by rewrite lookup_total_app_l by lia|lia|].
      intros He. apply Z2Nat.inj in He; [|by apply Z.mod_pos_bound..].
      Z.to_euclidean_division_equations; lia.
Qed.

Lemma rep_pop p b q :
  pipe_rep p (b :: q) → getZ (data p) (nread p mod PIPESIZE) = b ∧ pipe_rep (pop p) q.
Proof.
  intros [Hd Hn Hl Hw Hb]. simpl in *. split.
  - unfold PIPESIZE. rewrite <-(Z.add_0_r (nread p)). by apply (Hb 0%nat); lia.
  - split; simpl; [done|apply u32_range|lia| |].
    + rewrite Hw. zmod.
    + intros i Hi. rewrite Zplus_mod, u32_mod512, <-Zplus_mod.
      replace (nread p + 1 + Z.of_nat i) with (nread p + Z.of_nat (S i)) by lia.
      apply (Hb (S i)). lia.
Qed.

(** ** The sections *)

Definition woken (c : pchan) (l : list pthread) : list pthread :=
  (λ t, if asleep_on c t then wake t else t) <$> l.

(** pipewrite appends a prefix [l1] of its bytes to the queue. It stops at the
    end, or at a full pipe, where it sleeps, or fails if nobody can read or the
    process is killed. *)
Lemma pipewrite_loop_run killed n l s q :
  pipe_rep (pp s) q →
  ∃ r rest l1 s', pipewrite_loop killed n l s = Ok (r, rest) s' ∧ l = l1 ++ rest ∧
    pipe_rep (pp s') (q ++ l1) ∧ readopen (pp s') = readopen (pp s) ∧
    writeopen (pp s') = writeopen (pp s) ∧
    match r with
    | Return v => (v = n ∧ rest = [] ∧ threads s' = woken NREAD (threads s)) ∨
        (v = -1 ∧ rest ≠ [] ∧ length (q ++ l1) = 512%nat ∧ threads s' = threads s ∧
         (readopen (pp s) = false ∨ killed = true))
    | Sleep => rest ≠ [] ∧ length (q ++ l1) = 512%nat ∧ readopen (pp s) = true ∧
        killed = false ∧ threads s' = woken NREAD (threads s)
    end.
Proof.
  revert s q. induction l as [|b l IH]; intros s q Hq; cbn [pipewrite_loop].
  - eexists (Return n), [], [], _. rewrite ?(app_nil_r q). split; [done|]. split_and!; try done. by left.
  - run. rewrite (rep_full _ q Hq). case_bool_decide as Hf.
    + destruct (readopen (pp s)) eqn:Ero, killed eqn:Ek; cbn [negb orb].
      * eexists (Return (-1)), (b :: l), [], s. rewrite ?(app_nil_r q). split_and!; try done. right. split_and!; try done. by right.
      * eexists Sleep, (b :: l), [], _. rewrite ?(app_nil_r q). split; [done|]. by split_and!.
      * eexists (Return (-1)), (b :: l), [], s. rewrite ?(app_nil_r q). split_and!; try done. right. split_and!; try done. by left.
      * eexists (Return (-1)), (b :: l), [], s. rewrite ?(app_nil_r q). split_and!; try done. right. split_and!; try done. by left.
    + set (s1 := PipeSys (push b (pp s)) (threads s)).
      destruct (IH s1 (q ++ [b])) as (r & rest & l1 & s' & H & -> & Hq' & Hro & Hwo & Hr).
      { apply rep_push; [done|]. pose proof (rep_len _ _ Hq). lia. }
      exists r, rest, (b :: l1), s'. rewrite (bind_run _ _ s tt s1) by done.
      rewrite <-app_assoc in Hq', Hr. simpl in Hq', Hr. by split_and!.
Qed.

(** piperead takes the first [n] bytes of the queue. *)
Lemma piperead_copy_run n s q :
  pipe_rep (pp s) q →
  ∃ s', piperead_copy n s = Ok (take n q) s' ∧ pipe_rep (pp s') (drop n q) ∧ threads s' = threads s ∧
    readopen (pp s') = readopen (pp s) ∧ writeopen (pp s') = writeopen (pp s).
Proof.
  revert s q. induction n as [|n IH]; intros s q Hq; cbn [piperead_copy].
  - exists s. by rewrite take_0, drop_0.
  - run. rewrite (rep_empty _ q Hq). case_bool_decide as He.
    + subst q. exists s. by rewrite take_nil, drop_nil.
    + destruct q as [|b q]; [done|]. destruct (rep_pop _ _ _ Hq) as [Hb Hq'].
      set (s1 := PipeSys (pop (pp s)) (threads s)). destruct (IH s1 q Hq') as (s' & H & Hrep & Ht & Hr & Hw).
      exists s'. rewrite (bind_run _ _ s tt s1) by done. rewrite (bind_run _ _ _ _ _ H), Hb. by split_and!.
Qed.

Lemma piperead_run killed n s q :
  pipe_rep (pp s) q →
  ∃ r s', piperead killed n s = Ok r s' ∧ readopen (pp s') = readopen (pp s) ∧
    writeopen (pp s') = writeopen (pp s) ∧
    match r with
    | Sleep => q = [] ∧ writeopen (pp s) = true ∧ killed = false ∧ s' = s
    | Return (v, l) =>
        (q = [] ∧ writeopen (pp s) = true ∧ killed = true ∧ v = -1 ∧ l = [] ∧ s' = s) ∨
        (¬ (q = [] ∧ writeopen (pp s) = true) ∧ l = take (Z.to_nat n) q ∧ v = Z.of_nat (length l) ∧
         pipe_rep (pp s') (drop (Z.to_nat n) q) ∧ threads s' = woken NWRITE (threads s))
    end.
Proof.
  intros Hq. unfold piperead. run. rewrite (rep_empty _ q Hq).
  destruct (bool_decide (q = []) && writeopen (pp s)) eqn:E.
  - apply andb_true_iff in E as [He%bool_decide_eq_true Hw]. destruct killed.
    + eexists (Return (-1, [])), s. split_and!; try done. left. by split_and!.
    + by eexists Sleep, s.
  - destruct (piperead_copy_run (Z.to_nat n) s q Hq) as (s1 & H & Hrep & Ht & Hr & Hw).
    rewrite (bind_run _ _ _ _ _ H). eexists (Return _), _. split; [done|].
    split_and!; [done|done|]. right. split_and!; try done; [|by rewrite <-Ht].
    intros [-> Hwo]. rewrite Hwo in E. done.
Qed.

(** ** Readers and writers side by side *)

(** A thread's place after a section of pipewrite or piperead. *)
Definition after_write (n : Z) (r : section_end Z) (rest : list Z) : pthread :=
  match r with Return _ => T_out | Sleep => T_write n rest true end.
Definition after_read (n : Z) (r : section_end (Z * list Z)) : pthread :=
  match r with Return _ => T_out | Sleep => T_read n true end.
Definition set_thread (t : nat) (x : pthread) (s : pipesys) : pipesys :=
  PipeSys (pp s) (<[t := x]> (threads s)).

Definition is_reader (t : pthread) : bool := match t with T_read _ _ => true | _ => false end.
Definition is_writer (t : pthread) : bool := match t with T_write _ _ _ => true | _ => false end.

(** A section of pipewrite that leaves with -1, because the process is killed,
    after it put bytes in the pipe, while one of the threads [ts] sleeps for bytes. *)
Definition strands (killed : bool) (l : list Z) (r : section_end Z) (rest : list Z)
    (ts : list pthread) : bool :=
  killed && match r with Return v => v =? -1 | Sleep => false end && (length rest <? length l)%nat &&
  existsb (asleep_on NREAD) ts.

(** The steps, with the bytes that were written and read so far. An end is
    closed when no thread is inside it, and a call comes through an open end. A
    writer may strand a sleeping reader only if [kw]. *)
Inductive pipe_step (kw : bool) : pipesys * list Z * list Z → pipesys * list Z * list Z → Prop :=
  | step_write t l n killed r rest s s' w rd :
      threads s !! t = Some T_out ∧ writeopen (pp s) = true ∧ (∃ addr, l = take (Z.to_nat n) addr) ∨
      threads s !! t = Some (T_write n l false) →
      pipewrite_loop killed n l s = Ok (r, rest) s' →
      (strands killed l r rest (threads s) = true → kw = true) →
      pipe_step kw (s, w, rd)
        (set_thread t (after_write n r rest) s', w ++ take (length l - length rest) l, rd)
  | step_read t n killed r s s' w rd :
      threads s !! t = Some T_out ∧ readopen (pp s) = true ∨ threads s !! t = Some (T_read n false) →
      piperead killed n s = Ok r s' →
      pipe_step kw (s, w, rd)
        (set_thread t (after_read n r) s', w, rd ++ match r with Return (_, l) => l | Sleep => [] end)
  | step_close (writable freed : bool) s s' w rd :
      (if writable then writeopen (pp s) else readopen (pp s)) = true →
      Forall (λ t, (if writable then is_writer t else is_reader t) = false) (threads s) →
      pipeclose writable s = Ok freed s' → pipe_step kw (s, w, rd) (s', w, rd)
  | step_kill t s w rd :
      pipe_step kw (s, w, rd) (PipeSys (pp s) (alter wake t (threads s)), w, rd).

Definition pipe_start (s : pipesys) : Prop :=
  (∃ page, length page = 512%nat ∧ pp s = pipe_init page) ∧ Forall (λ t, t = T_out) (threads s).

(** The threads fit the pipe: a reader that sleeps has nothing to read, if none
    was stranded, a writer that sleeps has no room, and each could still be served. *)
Record thread_ok (kw : bool) (q : list Z) (p : pipe) (t : pthread) : Prop := {
  to_reader : is_reader t = true → readopen p = true;
  to_nread : asleep_on NREAD t = true → (kw = false → q = []) ∧ writeopen p = true;
  to_nwrite : asleep_on NWRITE t = true → length q = 512%nat ∧ readopen p = true
}.

Lemma Forall_woken (P : pthread → Prop) c l :
  Forall P l → (∀ t, P t → asleep_on c t = true → P (wake t)) → Forall P (woken c l).
Proof.
  intros Hl Hw. apply Forall_fmap. eapply Forall_impl; [exact Hl|]. intros t Ht. simpl.
  destruct (asleep_on c t) eqn:E; auto.
Qed.

Lemma wake_ok kw q p t : thread_ok kw q p t → thread_ok kw q p (wake t).
Proof. intros [H1 H2 H3]. by destruct t; split. Qed.

(** The threads after a wakeup, on a pipe that changed. *)
Lemma woken_ok kw c q p q' p' l :
  Forall (thread_ok kw q p) l →
  (∀ t, thread_ok kw q p t → asleep_on c t = false → thread_ok kw q' p' t) →
  (∀ t, thread_ok kw q p t → asleep_on c t = true → thread_ok kw q' p' (wake t)) →
  Forall (thread_ok kw q' p') (woken c l).
Proof.
  intros Hl H1 H2. apply Forall_fmap. eapply Forall_impl; [exact Hl|]. intros t Ht. simpl.
  destruct (asleep_on c t) eqn:E; auto.
Qed.

Definition pipe_inv (kw : bool) (st : pipesys * list Z * list Z) : Prop :=
  let '(s, w, rd) := st in
  ∃ q, pipe_rep (pp s) q ∧ w = rd ++ q ∧ Forall (thread_ok kw q (pp s)) (threads s).

Lemma out_ok kw q p : thread_ok kw q p T_out.
Proof. by split. Qed.

(** A killed writer that fails strands the readers that sleep, or did nothing. *)
Lemma fails_strands l1 rest ts x :
  strands true (l1 ++ rest) (Return (-1)) rest ts = false → x ∈ ts → asleep_on NREAD x = true → l1 = [].
Proof.
  intros H Hx Ha. unfold strands in H.
  replace (existsb (asleep_on NREAD) ts) with true in H
    by (symmetry; apply existsb_exists; exists x; by rewrite <-list_elem_of_In).
  destruct l1; [done|]. rewrite length_app in H. simpl in H. rewrite andb_true_r in H.
  apply Nat.ltb_ge in H. lia.
Qed.

Lemma write_inv kw t l n killed r rest s s' q :
  pipe_rep (pp s) q → pipewrite_loop killed n l s = Ok (r, rest) s' →
  (strands killed l r rest (threads s) = true → kw = true) →
  Forall (thread_ok kw q (pp s)) (threads s) →
  ∃ l1, l = l1 ++ rest ∧ pipe_rep (pp s') (q ++ l1) ∧
    Forall (thread_ok kw (q ++ l1) (pp s')) (<[t := after_write n r rest]> (threads s')).
Proof.
  intros Hq H Hk Hth. destruct (pipewrite_loop_run killed n l s q Hq) as (r' & rest' & l1 & s1 & H1 & -> & Hq' & Hro & Hwo & Hr).
  rewrite H in H1. injection H1 as <- <- <-. exists l1. split_and!; [done..|].
  pose proof (rep_len _ _ Hq') as Hlen. rewrite length_app in Hlen.
  assert (Forall (thread_ok kw (q ++ l1) (pp s')) (woken NREAD (threads s))) as Hwk.
  { eapply woken_ok; [exact Hth|..]; intros x [X1 X2 X3] Ha.
    - split; rewrite ?Hro, ?Hwo; [done|by rewrite Ha|].
      intros Hx. destruct (X3 Hx). split; [|done]. rewrite length_app. lia.
    - by destruct x; split; rewrite ?Hro. }
  destruct r as [v|].
  - apply Forall_insert; [|apply out_ok]. destruct Hr as [(_ & _ & ->)|(-> & _ & _ & -> & Hc)]; [done|].
    apply Forall_forall. intros x Hx. rewrite Forall_forall in Hth. destruct (Hth x Hx) as [X1 X2 X3].
    split; rewrite ?Hro, ?Hwo; [done| |].
    + intros Ha. destruct (X2 Ha) as [Y1 Y2]. split; [|done]. intros Hkw. rewrite (Y1 Hkw).
      destruct Hc as [Hc| ->]; [rewrite X1 in Hc; [done|by destruct x]|].
      apply (fails_strands l1 rest (threads s) x); [|done|done]. destruct strands; [by rewrite Hk in Hkw|done].
    + intros Ha. destruct (X3 Ha). split; [|done]. rewrite length_app. lia.
  - destruct Hr as (_ & Hfull & Hr1 & _ & ->). apply Forall_insert; [done|]. split; simpl; try done.
    by rewrite Hro.
Qed.

Lemma read_inv kw t n killed r s s' q :
  pipe_rep (pp s) q → piperead killed n s = Ok r s' → readopen (pp s) = true →
  Forall (thread_ok kw q (pp s)) (threads s) →
  ∃ q', pipe_rep (pp s') q' ∧ q = match r with Return (_, l) => l | Sleep => [] end ++ q' ∧
    Forall (thread_ok kw q' (pp s')) (<[t := after_read n r]> (threads s')).
Proof.
  intros Hq H Hopen Hth. destruct (piperead_run killed n s q Hq) as (r' & s1 & H1 & Hro & Hwo & Hr).
  rewrite H in H1. injection H1 as <- <-. destruct r as [[v l]|].
  - destruct Hr as [(-> & Hw & _ & _ & -> & ->)|(Hne & -> & _ & Hq' & Ht)].
    + exists []. split_and!; [done..|]. by apply Forall_insert; [|apply out_ok].
    + eexists. split; [exact Hq'|]. split; [by rewrite take_drop|].
      apply Forall_insert; [|apply out_ok]. rewrite Ht.
      eapply woken_ok; [exact Hth|..]; intros x [X1 X2 X3] Ha.
      * split; rewrite ?Hro, ?Hwo; [done| |by rewrite Ha]. intros [Y1 Y2]%X2. split; [|done].
        intros Hkw. by rewrite (Y1 Hkw), drop_nil.
      * by destruct x; split.
  - destruct Hr as (-> & Hw & _ & ->). exists []. split_and!; [done..|].
    apply Forall_insert; [done|]. by split.
Qed.

Lemma pipe_step_inv kw st st' : pipe_inv kw st → pipe_step kw st st' → pipe_inv kw st'.
Proof.
  intros Hi Hst. destruct Hst as [t l n killed r rest s s' w rd _ H Hk|t n killed r s s' w rd Ht H
    |writable freed s s' w rd Ho Hn H|t s w rd]; destruct Hi as (q & Hq & -> & Hth).
  - destruct (write_inv kw t l n killed r rest s s' q Hq H Hk Hth) as (l1 & -> & Hq' & Hth').
    exists (q ++ l1). split_and!; [done| |done].
    rewrite length_app, Nat.add_sub, take_app_length. by rewrite app_assoc.
  - destruct (read_inv kw t n killed r s s' q Hq H) as (q' & Hq' & -> & Hth'); [|done|].
    + destruct Ht as [[_ Ho]|Ht]; [done|]. rewrite Forall_lookup in Hth.
      by apply (to_reader _ _ _ _ (Hth t _ Ht)).
    + exists q'. split_and!; [done|by rewrite app_assoc|done].
  - exists q. revert H. unfold pipeclose. destruct writable; run.
    all: intros [= _ <-]; cbn [pp threads]; split_and!; [by destruct Hq|done|].
    all: rewrite Forall_forall in Hn, Hth.
    all: apply Forall_fmap, Forall_forall; intros x Hx; specialize (Hth x Hx); specialize (Hn x Hx); destruct Hth as [X1 X2 X3].
    + destruct x as [| |? []]; split; try done; simpl in *; intros; by destruct X3.
    + destruct x as [|? ? []|]; split; try done; simpl in *; intros; by destruct X2.
  - exists q. split_and!; [done..|]. apply Forall_alter; [done|].
    intros x _. apply wake_ok.
Qed.

Lemma pipe_reach_inv kw s0 st :
  pipe_start s0 → rtc (pipe_step kw) (s0, [], []) st → pipe_inv kw st.
Proof.
  intros [(page & Hp & H0) Ht] Hs. assert (pipe_inv kw (s0, [], [])) as Hi.
  { exists []. rewrite H0. split_and!; [split; simpl; [done|unfold is_u32; lia|lia|done|intros; lia]|done|].
    eapply Forall_impl; [exact Ht|]. intros x ->. apply out_ok. }
  revert Hi. induction Hs as [|x y z H1 _ IH]; [done|]. intros Hi. apply IH. by eapply pipe_step_inv.
Qed.

(** ** Two threads at a new pipe *)

Definition pipe_ex : pipesys := PipeSys (pipe_init (replicate 512 0)) [T_out; T_out].

Definition pipe_ex_sleep : pipesys := set_thread 0 (T_read 4 true) pipe_ex.

Lemma pipe_ex_start : pipe_start pipe_ex.
Proof. split; [by exists (replicate 512 0)|]. by repeat constructor. Qed.

Lemma pipe_ex_sleeps kw : pipe_step kw (pipe_ex, [], []) (pipe_ex_sleep, [], []).
Proof. apply (step_read kw 0 4 false Sleep pipe_ex pipe_ex [] []); [left; by split|by vm_compute]. Qed.

(** A killed process that fills the pipe fails without waking the readers: one
    that sleeps goes on sleeping at a full pipe. *)
Lemma stranded_reader : ∃ s,
  rtc (pipe_step true) (pipe_ex, [], []) (s, replicate 512 7, []) ∧
  threads s !! 0%nat = Some (T_read 4 true) ∧ nwrite (pp s) = u32 (nread (pp s) + PIPESIZE).
Proof.
  destruct (pipewrite_loop true 513 (replicate 513 7) pipe_ex_sleep) as [[r rest] s| | |] eqn:H; try by vm_compute in H.
  exists (set_thread 1 (after_write 513 r rest) s). split; [|vm_compute in H; by injection H as <- <- <-].
  eapply rtc_l; [apply pipe_ex_sleeps|]. apply rtc_once.
  replace (replicate 512 7) with ([] ++ take (length (replicate 513 7) - length rest) (replicate 513 7))
    by (vm_compute in H; by injection H as <- <- <-).
  eapply step_write; [left|exact H|done]. split_and!; [done|done|]. by exists (replicate 513 7).
Qed.

(** C11. First in, first out. However readers and writers interleave, with sleeps,
    kills and closes, and with counters that wrap at 2^32, the pipe holds exactly
    the bytes that were written and not yet read, in order, and at most PIPESIZE of
    them. *)
Theorem pipe_fifo kw s0 s w rd :
  pipe_start s0 → rtc (pipe_step kw) (s0, [], []) (s, w, rd) →
  ∃ q, pipe_rep (pp s) q ∧ w = rd ++ q.
Proof. intros H0 Hs. destruct (pipe_reach_inv kw _ _ H0 Hs) as (q & ? & ? & _). by exists q. Qed.

(** C40. No reader and no writer sleeps in vain, with one exception that the code
    has. In every interleaving a reader that sleeps has an open write end, and a
    writer that sleeps has a full pipe with an open read end. As long as no killed
    writer returns -1 after it put bytes in the pipe while a reader sleeps
    ([strands]), a reader that sleeps has an empty pipe, and never do a reader and a
    writer both sleep. With such a writer (pipe.c returns there without
    wakeup(&p->nread)) a reader is left asleep at a full pipe. *)
Theorem pipe_no_lost_wakeup :
  (∀ kw s0 s w rd t x, pipe_start s0 → rtc (pipe_step kw) (s0, [], []) (s, w, rd) →
   threads s !! t = Some x →
   (asleep_on NREAD x = true → writeopen (pp s) = true ∧ (kw = false → nread (pp s) = nwrite (pp s))) ∧
   (asleep_on NWRITE x = true → nwrite (pp s) = u32 (nread (pp s) + PIPESIZE) ∧ readopen (pp s) = true) ∧
   (kw = false → asleep_on NREAD x = true → Forall (λ x', asleep_on NWRITE x' = false) (threads s))) ∧
  (∃ s0 s w n, pipe_start s0 ∧ rtc (pipe_step true) (s0, [], []) (s, w, []) ∧
   threads s !! 0%nat = Some (T_read n true) ∧ 0 < n ∧
   nwrite (pp s) = u32 (nread (pp s) + PIPESIZE)).
Proof.
  split.
  - intros kw s0 s w rd t x H0 Hs Hx. destruct (pipe_reach_inv kw _ _ H0 Hs) as (q & Hq & _ & Hth).
    rewrite Forall_lookup in Hth. pose proof (Hth t x Hx) as [_ X2 X3]. split_and!.
    + intros [Y1 Hw]%X2. split; [done|]. intros ->%Y1. rewrite (rep_nwrite _ _ Hq). cbn [length].
      rewrite Z.add_0_r. symmetry. apply u32_small, (rep_nread _ _ Hq).
    + intros [Hl Hr]%X3. split; [|done]. by rewrite (rep_nwrite _ _ Hq), Hl.
    + intros Hkw [Y1 _]%X2. apply Forall_lookup. intros t' x' Hx'.
      destruct (asleep_on NWRITE x') eqn:E; [|done]. pose proof (Hth t' x' Hx') as [_ _ X3'].
      destruct (X3' E) as [Hl _]. by rewrite (Y1 Hkw) in Hl.
  - destruct stranded_reader as (s & Hs & Ht & Hf). exists pipe_ex, s, (replicate 512 7), 4.
    by split_and!; [apply pipe_ex_start|..].
Qed.

(** ** A reader that waits for a writer *)

Lemma pipe_ex_steps : ∃ s, rtc (pipe_step false) (pipe_ex, [], []) (s, [1; 2; 3], [1; 2]) ∧
  nwrite (pp s) = 3 ∧ threads s !! 0%nat = Some T_out.
Proof.
  eexists. split; [|split].
  - eapply rtc_l.
    { eapply (step_read _ 0 2 false); [left; split; vm_compute; reflexivity|vm_compute; reflexivity]. }
    eapply rtc_l.
    { eapply (step_write _ 1 [1; 2; 3] 3 false); [left|vm_compute; reflexivity|done].
      split_and!; [done|done|]. by exists [1; 2; 3]. }
    apply rtc_once. refine (step_read false 0 2 false (Return (2, [1; 2])) _ _ [1; 2; 3] [] _ _);
      [right|]; vm_compute; reflexivity.
  - done.
  - done.
Qed.

Lemma pipe_fifo_witness : ∃ s q, rtc (pipe_step false) (pipe_ex, [], []) (s, [1; 2; 3], [1; 2]) ∧
  pipe_rep (pp s) q ∧ q = [3].
Proof.
  destruct pipe_ex_steps as (s & Hs & _ & _).
  destruct (pipe_fifo false pipe_ex s _ _ pipe_ex_start Hs) as (q & Hq & Hw).
  exists s, q. split_and!; [done|done|]. by injection Hw.
Defined.

Lemma pipe_no_lost_wakeup_witness : ∃ s, rtc (pipe_step false) (pipe_ex, [], []) (s, [], []) ∧
  nread (pp s) = nwrite (pp s).
Proof.
  exists pipe_ex_sleep.
  assert (rtc (pipe_step false) (pipe_ex, [], []) (pipe_ex_sleep, [], [])) as Hs
    by apply rtc_once, pipe_ex_sleeps.
  split; [exact Hs|].
  destruct (proj1 pipe_no_lost_wakeup false pipe_ex pipe_ex_sleep [] [] 0%nat _ pipe_ex_start Hs eq_refl) as (H & _).
  by apply H.
Defined.
