(* ===== verification/File.v ===== *)
(** * Open files (file.c; pipealloc of pipe.c)

    The file table with the pipes that it refers to. ftable.lock makes filealloc,
    filedup and the first part of fileclose atomic sections. What file.c needs of
    the rest of the kernel is the interface [FileEnv]; a routine that sleeps in a
    pipe is [Blocked]. *)

From S2P Require Import Prelude Pipe.

Definition NFILE : nat := 100.
Definition MAXOPBLOCKS : Z := 10.

Inductive ftype := FD_NONE | FD_PIPE | FD_INODE.
#[export] Instance ftype_eq_dec : EqDecision ftype.
Proof. solve_decision. Defined.

(** struct file; [f_pipe] is the address of the pipe, [f_ip] an inode. *)
Record file := File {
  f_type : ftype; f_ref : Z; f_readable : bool; f_writable : bool; f_pipe : Z; f_ip : nat; f_off : Z
}.
Definition file0 : file := File FD_NONE 0 false false 0 0 0.
#[export] Instance file_inhabited : Inhabited file := populate file0.

Definition set_ref v f := File (f_type f) v (f_readable f) (f_writable f) (f_pipe f) (f_ip f) (f_off f).
Definition set_type v f := File v (f_ref f) (f_readable f) (f_writable f) (f_pipe f) (f_ip f) (f_off f).
Definition set_off v f := File (f_type f) (f_ref f) (f_readable f) (f_writable f) (f_pipe f) (f_ip f) v.
Definition set_pipe rd wr p f := File FD_PIPE (f_ref f) rd wr p (f_ip f) (f_off f).

(** log.c, fs.c and kalloc.c; [fe_page] is what memory a new pipe finds in the
    place of its data. *)
Class FileEnv (E : Type) := {
  fe_begin_op : M E unit;
  fe_end_op : M E unit;
  fe_ilock : nat → M E unit;
  fe_iunlock : nat → M E unit;
  fe_iput : nat → M E unit;
  fe_stati : nat → E → Z * Z * Z * Z * Z;
  fe_readi : nat → Z → Z → M E (Z * list Z);
  fe_writei : nat → list Z → Z → Z → M E Z;
  fe_kalloc : M E Z;
  fe_kfree : Z → M E unit;
  fe_page : Z → E → list Z
}.

Record filest (E : Type) := Filest { ftable : list file; pipes : gmap Z pipesys; fenv : E }.
Arguments Filest {E} _ _ _.
Arguments ftable {E} _.
Arguments pipes {E} _.
Arguments fenv {E} _.

Section file.
Context {E : Type} `{!FileEnv E}.
(** myproc()->killed. *)
Variable killed : bool.
Implicit Types (s : filest E).

Definition put_env (e : E) (s : filest E) : filest E := Filest (ftable s) (pipes s) e.
Definition fe {A} (m : M E A) : M (filest E) A := zoom fenv put_env m.
Definition file_of f s : file := ftable s !!! f.
Definition upd_file f (g : file → file) : M (filest E) unit :=
  modify (λ s, Filest (alter g f (ftable s)) (pipes s) (fenv s)).

(** A routine of pipe.c on the pipe at an address. *)
Definition on_pipe_at {A} (a : Z) (m : M pipesys A) : M (filest E) A := λ s,
  match pipes s !! a with
  | None => Panic "no pipe" s
  | Some x => zoom (λ _, x) (λ x s, Filest (ftable s) (<[a := x]> (pipes s)) (fenv s)) m s
  end.

Definition filealloc : M (filest E) (option nat) :=
  l ← gets ftable;
  match list_find (λ f, f_ref f = 0) l with
  | Some (f, _) => upd_file f (set_ref 1);; mret (Some f)
  | None => mret None
  end.

Definition filedup (f : nat) : M (filest E) nat :=
  x ← gets (file_of f);
  panic_if (f_ref x <? 1) "filedup";;
  upd_file f (λ x, set_ref (f_ref x + 1) x);;
  mret f.

(** pipeclose, with its kfree. *)
Definition file_pipeclose (a : Z) (writable : bool) : M (filest E) unit :=
  freed ← on_pipe_at a (pipeclose writable);
  if freed : bool then
    modify (λ s, Filest (ftable s) (delete a (pipes s)) (fenv s));;
    fe (fe_kfree a)
  else mret tt.

Definition fileclose (f : nat) : M (filest E) unit :=
  x ← gets (file_of f);
  panic_if (f_ref x <? 1) "fileclose";;
  upd_file f (λ x, set_ref (f_ref x - 1) x);;
  if 0 <? f_ref x - 1 then mret tt
  else
    ff ← gets (file_of f);
    upd_file f (λ x, set_type FD_NONE (set_ref 0 x));;
    match f_type ff with
    | FD_PIPE => file_pipeclose (f_pipe ff) (f_writable ff)
    | FD_INODE => fe fe_begin_op;; fe (fe_iput (f_ip ff));; fe fe_end_op
    | FD_NONE => mret tt
    end.

(** pipe.c: the code after the label bad. *)
Definition pipealloc_bad (p : Z) (f0 f1 : option nat) : M (filest E) (Z * option nat * option nat) :=
  (if negb (p =? 0) then fe (fe_kfree p) else mret tt);;
  match f0 with Some f => fileclose f | None => mret tt end;;
  match f1 with Some f => fileclose f | None => mret tt end;;
  mret (-1, f0, f1).

Definition pipealloc : M (filest E) (Z * option nat * option nat) :=
  f0 ← filealloc;
  match f0 with
  | None => pipealloc_bad 0 None None
  | Some x0 =>
      f1 ← filealloc;
      match f1 with
      | None => pipealloc_bad 0 f0 None
      | Some x1 =>
          p ← fe fe_kalloc;
          if p =? 0 then pipealloc_bad 0 f0 f1
          else
            modify (λ s, Filest (ftable s) (<[p := PipeSys (pipe_init (fe_page p (fenv s))) []]> (pipes s)) (fenv s));;
            upd_file x0 (set_pipe true false p);;
            upd_file x1 (set_pipe false true p);;
            mret (0, f0, f1)
      end
  end.

Definition filestat (f : nat) : M (filest E) (Z * option (Z * Z * Z * Z * Z)) :=
  x ← gets (file_of f);
  match f_type x with
  | FD_INODE =>
      fe (fe_ilock (f_ip x));;
      st ← gets (λ s, fe_stati (f_ip x) (fenv s));
      fe (fe_iunlock (f_ip x));;
      mret (0, Some st)
  | _ => mret (-1, None)
  end.

(** The result and the bytes stored at addr. *)
Definition fileread (f : nat) (n : Z) : M (filest E) (Z * list Z) :=
  x ← gets (file_of f);
  if negb (f_readable x) then mret (-1, [])
  else match f_type x with
  | FD_PIPE =>
      r ← on_pipe_at (f_pipe x) (piperead killed n);
      match r with Return v => mret v | Sleep => blocked end
  | FD_INODE =>
      fe (fe_ilock (f_ip x));;
      r ← fe (fe_readi (f_ip x) (f_off x) n);
      (if 0 <? r.1 then upd_file f (λ x, set_off (u32 (f_off x + r.1)) x) else mret tt);;
      fe (fe_iunlock (f_ip x));;
      mret r
  | FD_NONE => panic "fileread"
  end.

(** The most bytes of one transaction. *)
Definition write_max : Z := ((MAXOPBLOCKS - 1 - 1 - 2) `quot` 2) * 512.

Fixpoint filewrite_loop (fuel : nat) (f : nat) (addr : list Z) (n i : Z) : M (filest E) Z :=
  match fuel with
  | O => no_fuel
  | S fuel =>
      if i <? n then
        let n1 := Z.min (n - i) write_max in
        x ← gets (file_of f);
        fe fe_begin_op;;
        fe (fe_ilock (f_ip x));;
        r ← fe (fe_writei (f_ip x) (sub addr (Z.to_nat i) (Z.to_nat n1)) (f_off x) n1);
        (if 0 <? r then upd_file f (λ x, set_off (u32 (f_off x + r)) x) else mret tt);;
        fe (fe_iunlock (f_ip x));;
        fe fe_end_op;;
        if r <? 0 then mret i
        else
          panic_if (negb (r =? n1)) "short filewrite";;
          filewrite_loop fuel f addr n (i + r)
      else mret i
  end.

Definition filewrite (f : nat) (addr : list Z) (n : Z) : M (filest E) Z :=
  x ← gets (file_of f);
  if negb (f_writable x) then mret (-1)
  else match f_type x with
  | FD_PIPE =>
      r ← on_pipe_at (f_pipe x) (pipewrite killed addr n);
      match r.1 with Return v => mret v | Sleep => blocked end
  | FD_INODE =>
      i ← filewrite_loop (S (Z.to_nat n)) f addr n 0;
      mret (if i =? n then n else -1)
  | FD_NONE => panic "filewrite"
  end.
End file.
