(* ===== verification/FileSpec.v ===== *)
(** * Open files: reference counts, pipes and offsets *)

From S2P Require Import Prelude Pipe File.

(** What file.c relies on: the file of an inode is a list of bytes; a transaction
    of at most [write_max] bytes fits the log. *)
Class FileLaws (E : Type) `{!FileEnv E} := {
  fe_inode : nat → E → Prop;
  fe_view : nat → E → list Z;
  fe_same (e e' : E) : Prop := ∀ i, (fe_inode i e → fe_inode i e') ∧ fe_view i e' = fe_view i e;
  fl_begin_op : ∀ e, ∃ e', fe_begin_op e = Ok tt e' ∧ fe_same e e';
  fl_end_op : ∀ e, ∃ e', fe_end_op e = Ok tt e' ∧ fe_same e e';
  fl_ilock : ∀ ip e, fe_inode ip e → ∃ e', fe_ilock ip e = Ok tt e' ∧ fe_same e e';
  fl_iunlock : ∀ ip e, fe_inode ip e → ∃ e', fe_iunlock ip e = Ok tt e' ∧ fe_same e e';
  fl_kalloc : ∀ e, ∃ p e', fe_kalloc e = Ok p e' ∧ fe_same e e' ∧ (p ≠ 0 → length (fe_page p e') = 512%nat);
  fl_readi : ∀ ip off n e, fe_inode ip e → 0 <= off <= Z.of_nat (length (fe_view ip e)) → 0 <= n →
    off + n < 4294967296 →
    let m := Z.min n (Z.of_nat (length (fe_view ip e)) - off) in
    ∃ e', fe_readi ip off n e = Ok (m, sub (fe_view ip e) (Z.to_nat off) (Z.to_nat m)) e' ∧ fe_same e e';
  fl_writei : ∀ ip src off n e, fe_inode ip e → Z.of_nat (length src) = n → 0 < n <= write_max →
    0 <= off <= Z.of_nat (length (fe_view ip e)) → off + n <= 71680 →
    ∃ e', fe_writei ip src off n e = Ok n e' ∧ (∀ i, fe_inode i e → fe_inode i e') ∧
      fe_view ip e' = splice (fe_view ip e) (Z.to_nat off) src ∧
      ∀ i, i ≠ ip → fe_view i e' = fe_view i e
}.

Section spec.
Context {E : Type} `{!FileEnv E, !FileLaws E}.
Implicit Types (s : filest E) (e : E).

Lemma fe_run {A} (m : M E A) s a e : m (fenv s) = Ok a e → fe m s = Ok a (put_env e s).
Proof. intros H. unfold fe, zoom. by rewrite H. Qed.

Lemma run_upd_file {A} f g (k : unit → M (filest E) A) s :
  (upd_file f g ≫= k) s = k tt (Filest (alter g f (ftable s)) (pipes s) (fenv s)).
Proof. done. Qed.

(** ** Reference counts *)

(** [h f] is how many descriptors refer to file [f]. *)
Record files_ok (h : nat → Z) s : Prop := {
  fo_len : length (ftable s) = NFILE;
  fo_ref : ∀ f, (f < NFILE)%nat → f_ref (file_of f s) = h f ∧ 0 <= h f;
  fo_none : ∀ f, (f < NFILE)%nat → h f = 0 → f_type (file_of f s) = FD_NONE
}.

Lemma file_lookup h s f : files_ok h s → (f < NFILE)%nat → ftable s !! f = Some (file_of f s).
Proof. intros Ho Hf. apply list_lookup_lookup_total_lt. by rewrite (fo_len _ _ Ho). Qed.

Lemma file_of_alter h s f g f' ps e :
  files_ok h s → (f < NFILE)%nat →
  file_of f' (Filest (alter g f (ftable s)) ps e) = if decide (f' = f) then g (file_of f s) else file_of f' s.
Proof.
  intros Ho Hf. unfold file_of. simpl. case_decide as Hd; [subst f'|].
  - apply list_lookup_total_alter_eq. by rewrite (fo_len _ _ Ho).
  - by apply list_lookup_total_alter_ne.
Qed.

(** A change of one file, with its count. *)
Lemma files_ok_alter h s f g v ps e :
  files_ok h s → (f < NFILE)%nat → f_ref (g (file_of f s)) = v → 0 <= v →
  (v = 0 → f_type (g (file_of f s)) = FD_NONE) → files_ok (fupd h f v) (Filest (alter g f (ftable s)) ps e).
Proof.
  intros Ho Hf Hr Hv Hn. split.
  - simpl. by rewrite length_alter, (fo_len _ _ Ho).
  - intros f' Hf'. rewrite (file_of_alter h) by done. unfold fupd. case_decide; [done|by apply Ho].
  - intros f' Hf'. rewrite (file_of_alter h) by done. unfold fupd. case_decide; [done|by apply Ho].
Qed.

Lemma files_ok_ext h h' s s' :
  (∀ f, h f = h' f) → ftable s' = ftable s → files_ok h s → files_ok h' s'.
Proof.
  intros Hh Ht [H1 H2 H3]. assert (∀ f, file_of f s' = file_of f s) as Hf by (intros f; unfold file_of; by rewrite Ht).
  split; [by rewrite Ht|..]; intros f; rewrite Hf, <-Hh; auto.
Qed.

Lemma filealloc_run h s :
  files_ok h s → ∃ r s', filealloc s = Ok r s' ∧
    match r with
    | Some f => (f < NFILE)%nat ∧ h f = 0 ∧ files_ok (fupd h f 1) s' ∧
        s' = Filest (alter (set_ref 1) f (ftable s)) (pipes s) (fenv s)
    | None => s' = s ∧ ∀ f, (f < NFILE)%nat → 0 < h f
    end.
Proof.
  intros Ho. unfold filealloc. run. destruct (list_find _ _) as [[f x]|] eqn:Ef.
  - apply list_find_Some in Ef as (Hx & Hr & _).
    assert (f < NFILE)%nat as Hf by (rewrite <-(fo_len _ _ Ho); by eapply lookup_lt_Some).
    rewrite run_upd_file. eexists (Some f), _. split; [done|].
    assert (h f = 0) as Hh.
    { destruct (fo_ref _ _ Ho f Hf) as [Hrf _]. rewrite <-Hrf. unfold file_of.
      by rewrite (list_lookup_total_correct _ _ _ Hx). }
    split_and!; [done|done| |done]. by apply files_ok_alter.
  - exists None, s. split_and!; [done|done|]. intros f Hf. apply list_find_None in Ef.
    rewrite Forall_lookup in Ef. pose proof (Ef f _ (file_lookup h s f Ho Hf)) as Hne.
    destruct (fo_ref _ _ Ho f Hf) as [Hrf Hge]. rewrite Hrf in Hne. lia.
Qed.

Lemma filedup_run h s f :
  files_ok h s → (f < NFILE)%nat → 0 < h f →
  ∃ s', filedup f s = Ok f s' ∧ files_ok (fupd h f (h f + 1)) s' ∧
    s' = Filest (alter (λ x, set_ref (f_ref x + 1) x) f (ftable s)) (pipes s) (fenv s).
Proof.
  intros Ho Hf Hh. destruct (fo_ref _ _ Ho f Hf) as [Hr _]. unfold filedup. run.
  rewrite run_panic_if by (apply Z.ltb_ge; lia). rewrite run_upd_file. eexists. split_and!; [done| |done].
  apply files_ok_alter; simpl; (done || lia).
Qed.

(** What fileclose does with the last descriptor of a file. *)
Definition close_object (x : file) : M (filest E) unit :=
  match f_type x with
  | FD_PIPE => file_pipeclose (f_pipe x) (f_writable x)
  | FD_INODE => fe fe_begin_op;; fe (fe_iput (f_ip x));; fe fe_end_op
  | FD_NONE => mret tt
  end.

Lemma fileclose_run h s f :
  files_ok h s → (f < NFILE)%nat → 0 < h f →
  let g := λ x, if f_ref x =? 1 then set_type FD_NONE (set_ref 0 x) else set_ref (f_ref x - 1) x in
  let s1 := Filest (alter g f (ftable s)) (pipes s) (fenv s) in
  files_ok (fupd h f (h f - 1)) s1 ∧
  fileclose f s = if h f =? 1 then close_object (file_of f s) s1 else Ok tt s1.
Proof.
  intros Ho Hf Hh g s1. destruct (fo_ref _ _ Ho f Hf) as [Hr _]. split.
  - apply files_ok_alter; [done|done|..]; unfold g; rewrite ?Hr; destruct (Z.eqb_spec (h f) 1); simpl; (done || lia).
  - unfold fileclose. run. rewrite run_panic_if by (apply Z.ltb_ge; lia). rewrite run_upd_file, Hr.
    pose proof (file_lookup h s f Ho Hf) as Hx. destruct (Z.eqb_spec (h f) 1) as [E1|E1].
    + rewrite (proj2 (Z.ltb_ge _ _)) by lia. run. rewrite run_upd_file, (file_of_alter h) by done.
      rewrite decide_True by done. unfold close_object. cbn [f_type f_pipe f_writable f_ip set_ref ftable pipes fenv].
      assert (alter (λ x, set_type FD_NONE (set_ref 0 x)) f (alter (λ x, set_ref (f_ref x - 1) x) f (ftable s)) =
        alter g f (ftable s)) as ->; [|done].
      rewrite list_alter_alter_eq. apply list_alter_ext; [|done]. intros x Hx'. simplify_eq.
      unfold g, compose. by rewrite Hr, E1.
    + rewrite (proj2 (Z.ltb_lt _ _)) by lia. unfold mret, M_ret, s1. do 2 f_equal.
      apply list_alter_ext; [|done]. intros x Hx'. simplify_eq. unfold g. by rewrite Hr, (proj2 (Z.eqb_neq _ _) E1).
Qed.

(** ** Every sequence of operations *)

Definition keeps_table {A} (m : M (filest E) A) : Prop := ∀ s a s', m s = Ok a s' → ftable s' = ftable s.

Lemma keeps_fe {A} (m : M E A) : keeps_table (fe m).
Proof. intros s a s'. unfold fe, zoom. destruct (m (fenv s)); try done. by intros [= _ <-]. Qed.

Lemma keeps_bind {A B} (m : M (filest E) A) (k : A → M (filest E) B) :
  keeps_table m → (∀ a, keeps_table (k a)) → keeps_table (m ≫= k).
Proof. intros Hm Hk s b s' (a & s1 & H1 & H2)%bind_Ok. rewrite (Hk _ _ _ _ H2). by eapply Hm. Qed.

Lemma keeps_close x : keeps_table (close_object x).
Proof.
  unfold close_object. destruct (f_type x).
  - by intros s a s' [= _ <-].
  - unfold file_pipeclose. apply keeps_bind.
    + intros s a s'. unfold on_pipe_at, zoom. destruct (pipes s !! f_pipe x); [|done].
      destruct (pipeclose _ _); try done. by intros [= _ <-].
    + intros [|]; [|by intros s a s' [= _ <-]]. apply keeps_bind; [by intros s a s' [= _ <-]|]. intros _. apply keeps_fe.
  - apply keeps_bind; [apply keeps_fe|]. intros _. apply keeps_bind; [apply keeps_fe|]. intros _. apply keeps_fe.
Qed.

(** The descriptors of all processes use the table: they take a file, copy a
    descriptor, drop one, and set up an open file (sys_open and pipealloc); the
    rest of the state changes at will. *)
Inductive file_step : filest E * (nat → Z) → filest E * (nat → Z) → Prop :=
  | step_alloc f s s' h : filealloc s = Ok (Some f) s' → file_step (s, h) (s', fupd h f 1)
  | step_dup f f' s s' h : (f < NFILE)%nat → 0 < h f → filedup f s = Ok f' s' →
      file_step (s, h) (s', fupd h f (h f + 1))
  | step_fclose f s s' h : (f < NFILE)%nat → 0 < h f → fileclose f s = Ok tt s' →
      file_step (s, h) (s', fupd h f (h f - 1))
  | step_setup f x s h : (f < NFILE)%nat → 0 < h f → f_ref x = f_ref (file_of f s) →
      file_step (s, h) (Filest (alter (λ _, x) f (ftable s)) (pipes s) (fenv s), h)
  | step_rest ps e s h : file_step (s, h) (Filest (ftable s) ps e, h).

Definition file_reach s (h : nat → Z) : Prop :=
  ∃ ps e, rtc file_step (Filest (replicate NFILE file0) ps e, λ _, 0) (s, h).

Lemma file_step_inv st st' : files_ok st.2 st.1 → file_step st st' → files_ok st'.2 st'.1.
Proof.
  intros Ho Hst. destruct Hst as [f s s' h H|f f' s s' h Hf Hh H|f s s' h Hf Hh H|f x s h Hf Hh Hx|ps e s h]; cbn [fst snd] in *.
  - destruct (filealloc_run h s Ho) as (r & s1 & H1 & Hr). rewrite H in H1. injection H1 as <- <-.
    by destruct Hr as (_ & _ & Hr & _).
  - destruct (filedup_run h s f Ho Hf Hh) as (s1 & H1 & Hr & _). rewrite H in H1. by injection H1 as <- <-.
  - destruct (fileclose_run h s f Ho Hf Hh) as [Hr H1]. rewrite H in H1.
    destruct (h f =? 1).
    + symmetry in H1. apply keeps_close in H1. by eapply files_ok_ext.
    + by injection H1 as ->.
  - destruct (fo_ref _ _ Ho f Hf) as [Hr _].
    eapply (files_ok_ext (fupd h f (h f))); [|reflexivity|].
    + intros f'. unfold fupd. case_decide; [by subst|done].
    + apply files_ok_alter; [done|done|congruence|lia|lia].
  - by apply (files_ok_ext h h s).
Qed.

Lemma file_reach_ok s h : file_reach s h → files_ok h s.
Proof.
  intros (ps & e & Hs). change (files_ok (s, h).2 (s, h).1).
  remember (Filest (replicate NFILE file0) ps e, λ _, 0) as st0 eqn:E0.
  assert (files_ok st0.2 st0.1) as H0.
  { subst st0. assert (∀ f, (f < NFILE)%nat → file_of f (Filest (replicate NFILE file0) ps e) = file0) as Hf.
    { intros f Hf. by apply lookup_total_replicate_2. }
    split; [apply length_replicate|..]; intros f Hl; cbn [fst snd]; by rewrite Hf. }
  clear E0. revert H0. induction Hs as [|x y z H1 _ IH]; [done|]. intros H0. by eapply IH, file_step_inv.
Qed.

(** C37. The reference count of an open file is the number of its descriptors,
    however they are opened, copied and closed: filealloc gives out a file that
    has none, and fails only if every file has one; a file with descriptors can be
    duplicated and closed without a panic, and its pipe or inode is let go of
    exactly when the last one is closed. *)
Theorem file_refs s h :
  file_reach s h →
  (∀ f, (f < NFILE)%nat → f_ref (file_of f s) = h f) ∧
  (∃ r s', filealloc s = Ok r s' ∧
    match r with
    | Some f => (f < NFILE)%nat ∧ h f = 0 ∧ f_type (file_of f s') = FD_NONE ∧ f_ref (file_of f s') = 1 ∧
        ∀ f', f' ≠ f → file_of f' s' = file_of f' s
    | None => s' = s ∧ ∀ f, (f < NFILE)%nat → 0 < h f
    end) ∧
  ∀ f, (f < NFILE)%nat → 0 < h f →
    (∃ s', filedup f s = Ok f s' ∧ f_ref (file_of f s') = h f + 1) ∧
    ∃ s1, fileclose f s = (if h f =? 1 then close_object (file_of f s) s1 else Ok tt s1) ∧
      f_ref (file_of f s1) = h f - 1 ∧ (∀ f', f' ≠ f → file_of f' s1 = file_of f' s) ∧
      pipes s1 = pipes s ∧ fenv s1 = fenv s.
Proof.
  intros Ho%file_reach_ok. split_and!; [apply Ho| |].
  - destruct (filealloc_run h s Ho) as (r & s' & H & Hr). exists r, s'. split; [done|].
    destruct r as [f|]; [|done]. destruct Hr as (Hf & Hh & _ & ->).
    split_and!; [done|done|..]; rewrite ?(file_of_alter h), ?decide_True by done; try done.
    + by apply (fo_none _ _ Ho f Hf).
    + intros f' Hne. by rewrite (file_of_alter h), decide_False by done.
  - intros f Hf Hh. destruct (fo_ref _ _ Ho f Hf) as [Hr _]. split.
    + destruct (filedup_run h s f Ho Hf Hh) as (s' & H & _ & ->). eexists. split; [done|].
      rewrite (file_of_alter h), decide_True by done. simpl. by rewrite Hr.
    + destruct (fileclose_run h s f Ho Hf Hh) as [_ H]. eexists. split; [exact H|].
      rewrite (file_of_alter h), decide_True by done. split_and!; [|..|done|done].
      * rewrite Hr. destruct (Z.eqb_spec (h f) 1); simpl; lia.
      * intros f' Hne. by rewrite (file_of_alter h), decide_False by done.
Qed.

(** ** Reading and writing *)

Lemma fe_same_trans e1 e2 e3 : fe_same e1 e2 → fe_same e2 e3 → fe_same e1 e3.
Proof.
  intros H1 H2 i. destruct (H1 i) as [? E1], (H2 i) as [? E2]. split; [auto|by rewrite E2, E1].
Qed.

(** Bytes written at [off + length a], after [a] at [off]. *)
Lemma splice_next (l a b : list Z) off :
  (off <= length l)%nat → splice (splice l off a) (off + length a) b = splice l off (a ++ b).
Proof.
  intros Ho. unfold splice. assert (length (take off l) = off) as Hl by (rewrite length_take; lia).
  rewrite take_app_ge, Hl by (rewrite Hl; lia).
  replace (off + length a - off)%nat with (length a) by lia. rewrite take_app_length.
  rewrite drop_app_ge, Hl by (rewrite Hl; lia). rewrite drop_app_ge by lia. rewrite drop_drop.
  rewrite length_app, <-!app_assoc. do 4 f_equal. lia.
Qed.

Lemma length_splice_ge (l a : list Z) off :
  (off <= length l)%nat → (off + length a <= length (splice l off a))%nat.
Proof. intros. unfold splice. rewrite !length_app, length_take, length_drop. lia. Qed.

(** The state after a transfer on file [f]: its offset, the contents [v] of its
    inode, and nothing else of the table or of other inodes. *)
Record transferred (f : nat) (off : Z) (v : list Z) s s' : Prop := {
  tr_file : file_of f s' = set_off off (file_of f s);
  tr_others : ∀ f', f' ≠ f → file_of f' s' = file_of f' s;
  tr_pipes : pipes s' = pipes s;
  tr_view : fe_view (f_ip (file_of f s)) (fenv s') = v;
  tr_views : ∀ i, i ≠ f_ip (file_of f s) → fe_view i (fenv s') = fe_view i (fenv s);
  tr_inodes : ∀ i, fe_inode i (fenv s) → fe_inode i (fenv s');
  tr_len : length (ftable s') = length (ftable s)
}.

Lemma table_upd (g : file → file) f s ps e :
  (f < length (ftable s))%nat →
  let s' := Filest (alter g f (ftable s)) ps e in
  file_of f s' = g (file_of f s) ∧ ∀ f', f' ≠ f → file_of f' s' = file_of f' s.
Proof.
  intros Hf s'. split; [by apply list_lookup_total_alter_eq|].
  intros f' Hne. by apply list_lookup_total_alter_ne.
Qed.

(** fileread of an open inode returns the bytes at the file's offset, as many
    as there are up to [n], and moves the offset past them; the contents stay. *)
Theorem fileread_correct killed f n s :
  let x := file_of f s in let v := fe_view (f_ip x) (fenv s) in
  (f < length (ftable s))%nat → f_readable x = true → f_type x = FD_INODE → fe_inode (f_ip x) (fenv s) →
  0 <= f_off x <= Z.of_nat (length v) → 0 <= n → f_off x + n < 4294967296 →
  let m := Z.min n (Z.of_nat (length v) - f_off x) in
  ∃ s', fileread killed f n s = Ok (m, sub v (Z.to_nat (f_off x)) (Z.to_nat m)) s' ∧
    transferred f (f_off x + m) v s s'.
Proof.
  intros x v Hf Hrd Hty Hin Hoff Hn Hmax m. unfold fileread. run. fold x. rewrite Hrd, Hty. cbn [negb].
  destruct (fl_ilock (f_ip x) (fenv s) Hin) as (e1 & H1 & S1). rewrite (bind_run _ _ _ _ _ (fe_run _ s tt e1 H1)).
  destruct (S1 (f_ip x)) as [I1 V1]. fold v in V1.
  destruct (fl_readi (f_ip x) (f_off x) n e1) as (e2 & H2 & S2); [auto|by rewrite V1|done|done|].
  rewrite V1 in H2. fold m in H2. rewrite (bind_run _ _ _ _ _ (fe_run _ (put_env e1 s) _ e2 H2)).
  destruct (S2 (f_ip x)) as [I2 V2]. cbn [fst snd].
  assert (∃ t, (if 0 <? m then upd_file f (λ y, set_off (u32 (f_off y + m)) y) else mret tt) (put_env e2 s) =
    Ok tt (Filest t (pipes s) e2) ∧ t = alter (set_off (f_off x + m)) f (ftable s)) as (t & H3 & ->).
  { destruct (Z.ltb_spec 0 m) as [Hm|Hm]; (eexists; split; [done|]).
    - apply list_alter_ext; [|done]. intros y Hy. simpl in Hy.
      assert (y = x) as -> by (unfold x, file_of; by rewrite (list_lookup_total_correct _ _ _ Hy)).
      f_equal. unfold m in *. apply u32_small. unfold is_u32. lia.
    - assert (m = 0) as -> by lia. symmetry.
      rewrite <-(list_alter_id id (ftable s) f) at 2 by done. apply list_alter_ext; [|done].
      intros y Hy. assert (y = x) as -> by (unfold x, file_of; by rewrite (list_lookup_total_correct _ _ _ Hy)).
      rewrite Z.add_0_r. by destruct x. }
  rewrite (bind_run _ _ _ _ _ H3). set (s3 := Filest _ _ _).
  destruct (fl_iunlock (f_ip x) e2) as (e4 & H4 & S4); [auto|].
  rewrite (bind_run _ _ _ _ _ (fe_run _ s3 tt e4 H4)). eexists. split; [done|].
  assert (fe_same (fenv s) e4) as Hsame by (eapply fe_same_trans; [exact S1|]; by eapply fe_same_trans).
  destruct (table_upd (set_off (f_off x + m)) f s (pipes s) e4 Hf) as [Ht1 Ht2].
  split; try done; [apply Hsame|intros i _; apply Hsame|intros i; apply Hsame|simpl; by rewrite length_alter].
Qed.

(** One transaction of filewrite. *)
Lemma filewrite_step fuel f addr n i s :
  let x := file_of f s in let v := fe_view (f_ip x) (fenv s) in let n1 := Z.min (n - i) write_max in
  (f < length (ftable s))%nat → fe_inode (f_ip x) (fenv s) →
  0 <= i < n → n <= Z.of_nat (length addr) →
  0 <= f_off x <= Z.of_nat (length v) → f_off x + (n - i) <= 71680 →
  ∃ s', filewrite_loop (S fuel) f addr n i s = filewrite_loop fuel f addr n (i + n1) s' ∧
    transferred f (f_off x + n1) (splice v (Z.to_nat (f_off x)) (sub addr (Z.to_nat i) (Z.to_nat n1))) s s'.
Proof.
  intros x v n1 Hf Hin Hi Hn Hoff Hmax. cbn [filewrite_loop]. rewrite (proj2 (Z.ltb_lt i n)) by lia. run. fold x n1.
  assert (write_max = 1536) as Hwm by done. assert (0 < n1 <= write_max) as Hn1 by (unfold n1; lia).
  destruct (fl_begin_op (fenv s)) as (e0 & H0 & S0). rewrite (bind_run _ _ _ _ _ (fe_run _ s tt e0 H0)).
  destruct (S0 (f_ip x)) as [I0 V0].
  destruct (fl_ilock (f_ip x) e0) as (e1 & H1 & S1); [auto|].
  rewrite (bind_run _ _ _ _ _ (fe_run _ (put_env e0 s) tt e1 H1)). destruct (S1 (f_ip x)) as [I1 V1].
  set (src := sub addr (Z.to_nat i) (Z.to_nat n1)).
  destruct (fl_writei (f_ip x) src (f_off x) n1 e1) as (e2 & H2 & I2 & V2 & O2).
  { auto. } { unfold src. rewrite length_sub; lia. } { done. } { by rewrite V1, V0. } { unfold n1. lia. }
  rewrite (bind_run _ _ _ _ _ (fe_run _ (put_env e1 (put_env e0 s)) _ e2 H2)).
  rewrite (proj2 (Z.ltb_lt 0 n1)) by lia. rewrite run_upd_file. set (s3 := Filest _ _ _).
  destruct (fl_iunlock (f_ip x) e2) as (e4 & H4 & S4); [auto|].
  rewrite (bind_run _ _ _ _ _ (fe_run _ s3 tt e4 H4)).
  destruct (fl_end_op e4) as (e5 & H5 & S5). rewrite (bind_run _ _ _ _ _ (fe_run _ (put_env e4 s3) tt e5 H5)).
  rewrite (proj2 (Z.ltb_ge n1 0)) by lia. rewrite run_panic_if by (apply negb_false_iff, Z.eqb_refl).
  eexists. split; [done|].
  assert (fe_same e2 e5) as Hsame by (by eapply fe_same_trans).
  destruct (table_upd (λ x, set_off (u32 (f_off x + n1)) x) f s (pipes s) e5 Hf) as [Ht1 Ht2].
  split; try done.
  - unfold put_env, s3. cbn [ftable pipes fenv put_env]. rewrite Ht1. f_equal. apply u32_small.
    fold x. unfold is_u32, n1. lia.
  - cbn [fenv put_env]. destruct (Hsame (f_ip x)) as [_ Hv]. fold x. rewrite Hv, V2. unfold v. by rewrite V1, V0.
  - intros j Hj. fold x in Hj. cbn [fenv put_env]. destruct (Hsame j) as [_ ->]. rewrite O2 by done.
    destruct (S1 j) as [_ ->]. apply S0.
  - intros j Hj. cbn [fenv put_env]. apply Hsame, I2, S1, S0, Hj.
  - simpl. by rewrite length_alter.
Qed.

Lemma filewrite_loop_run fuel f addr n i s :
  let x := file_of f s in let v := fe_view (f_ip x) (fenv s) in
  (f < length (ftable s))%nat → fe_inode (f_ip x) (fenv s) →
  0 <= i <= n → n <= Z.of_nat (length addr) → n - i < Z.of_nat fuel →
  0 <= f_off x <= Z.of_nat (length v) → f_off x + (n - i) <= 71680 →
  ∃ s', filewrite_loop fuel f addr n i s = Ok n s' ∧
    transferred f (f_off x + (n - i)) (splice v (Z.to_nat (f_off x)) (sub addr (Z.to_nat i) (Z.to_nat (n - i)))) s s'.
Proof.
  revert i s. induction fuel as [|fuel IH]; intros i s x v Hf Hin Hi Hn Hfu Hoff Hmax; [lia|].
  destruct (decide (i = n)) as [->|Hne].
  - cbn [filewrite_loop]. rewrite Z.ltb_irrefl. exists s. split; [done|].
    replace (n - n) with 0 by lia. rewrite Z.add_0_r. split; try done.
    + fold x. by destruct x.
    + fold x. fold v. unfold splice, sub. cbn [Z.to_nat take length app].
      rewrite take_0. cbn [length app]. by rewrite Nat.add_0_r, take_drop.
  - destruct (filewrite_step fuel f addr n i s) as (s1 & H1 & T1); try done; [lia|]. fold x v in T1.
    rewrite H1. set (n1 := Z.min (n - i) write_max) in *. assert (write_max = 1536) as Hwm by done.
    assert (0 < n1 <= n - i) as Hn1 by (unfold n1; lia).
    pose proof T1 as [Tf To Tp Tv Tvs Ti Tl]. fold x in Tf, Tv, Tvs.
    assert (f_ip (file_of f s1) = f_ip x ∧ f_off (file_of f s1) = f_off x + n1) as [Eip Eoff] by (by rewrite Tf).
    assert (length (sub addr (Z.to_nat i) (Z.to_nat n1)) = Z.to_nat n1) as Hls by (rewrite length_sub; lia).
    destruct (IH (i + n1) s1) as (s2 & H2 & T2).
    { by rewrite Tl. } { rewrite Eip. auto. } { lia. } { done. } { lia. }
    { rewrite Eoff, Eip, Tv. pose proof (length_splice_ge v (sub addr (Z.to_nat i) (Z.to_nat n1)) (Z.to_nat (f_off x))). lia. }
    { rewrite Eoff. lia. }
    exists s2. split; [done|]. destruct T2 as [Uf Uo Up Uv Uvs Ui Ul].
    rewrite Eip, Eoff, Tv in Uv. rewrite Eip in Uvs. rewrite Eoff, Tf in Uf. split.
    + rewrite Uf. fold x. unfold set_off. cbn [f_type f_ref f_readable f_writable f_pipe f_ip]. f_equal. lia.
    + intros f' Hf'. by rewrite Uo, To.
    + congruence.
    + fold x. rewrite Uv. replace (Z.to_nat (f_off x + n1)) with
        (Z.to_nat (f_off x) + length (sub addr (Z.to_nat i) (Z.to_nat n1)))%nat by lia.
      rewrite splice_next by lia. f_equal. unfold sub.
      replace (Z.to_nat (i + n1)) with (Z.to_nat i + Z.to_nat n1)%nat by lia. rewrite <-drop_drop.
      replace (Z.to_nat (n - i)) with (Z.to_nat n1 + Z.to_nat (n - (i + n1)))%nat by lia. by rewrite <-take_take_drop.
    + intros j Hj. fold x in Hj. by rewrite Uvs, Tvs.
    + auto.
    + congruence.
Qed.

(** filewrite of an open inode stores all [n] bytes at the file's offset, in
    transactions of at most 1536 bytes, moves the offset past them, returns [n],
    and changes no other file. *)
Theorem filewrite_correct killed f addr n s :
  let x := file_of f s in let v := fe_view (f_ip x) (fenv s) in
  (f < length (ftable s))%nat → f_writable x = true → f_type x = FD_INODE → fe_inode (f_ip x) (fenv s) →
  0 <= n <= Z.of_nat (length addr) → 0 <= f_off x <= Z.of_nat (length v) → f_off x + n <= 71680 →
  ∃ s', filewrite killed f addr n s = Ok n s' ∧
    transferred f (f_off x + n) (splice v (Z.to_nat (f_off x)) (take (Z.to_nat n) addr)) s s'.
Proof.
  intros x v Hf Hw Hty Hin Hn Hoff Hmax. unfold filewrite. run. fold x. rewrite Hw, Hty. cbn [negb].
  destruct (filewrite_loop_run (S (Z.to_nat n)) f addr n 0 s) as (s' & H & T); try done; [fold x; lia..|].
  fold x v in T. rewrite Z.sub_0_r in T. rewrite (bind_run _ _ _ _ _ H), Z.eqb_refl. by exists s'.
Qed.

(** ** pipealloc *)

(** A file that was just taken from the table is given back. *)
Lemma fileclose_fresh h s f s1 :
  files_ok h s → (f < NFILE)%nat → h f = 0 → ftable s1 = alter (set_ref 1) f (ftable s) →
  files_ok (fupd h f 1) s1 →
  fileclose f s1 = Ok tt (Filest (ftable s) (pipes s1) (fenv s1)).
Proof.
  intros Ho Hf Hh Ht Ho1. destruct (fileclose_run _ s1 f Ho1 Hf) as [_ H]; rewrite ?fupd_eq in *; [lia|].
  rewrite H. change (1 =? 1) with true. cbn beta iota.
  pose proof (file_lookup h s f Ho Hf) as Hx. destruct (fo_ref _ _ Ho f Hf) as [Hr _].
  pose proof (fo_none _ _ Ho f Hf Hh) as Hn. set (x := file_of f s) in *.
  assert (file_of f s1 = set_ref 1 x) as Hx1.
  { unfold file_of. rewrite Ht. rewrite list_lookup_total_alter_eq; [done|]. by rewrite (fo_len _ _ Ho). }
  unfold close_object. rewrite Hx1. cbn [f_type set_ref]. rewrite Hn. unfold mret, M_ret. do 2 f_equal.
  rewrite Ht, list_alter_alter_eq. rewrite <-(list_alter_id id (ftable s) f) at 2 by done.
  apply list_alter_ext; [|done]. intros y Hy. assert (y = x) as -> by congruence.
  unfold compose. cbn [f_ref set_ref]. change (1 =? 1) with true. cbn beta iota. rewrite Hh in Hr.
  destruct x. simpl in *. by subst.
Qed.

(** pipealloc gives two fresh files, the first to read and the second to write,
    of one new pipe that is empty and open at both ends; when a file or the page
    cannot be had it returns -1 and the table and the pipes are as before. *)
Theorem pipealloc_correct h s :
  files_ok h s →
  ∃ r f0 f1 s', pipealloc s = Ok (r, f0, f1) s' ∧
    ((r = -1 ∧ ftable s' = ftable s ∧ pipes s' = pipes s) ∨
     ∃ a b p x, r = 0 ∧ f0 = Some a ∧ f1 = Some b ∧ a ≠ b ∧ h a = 0 ∧ h b = 0 ∧ p ≠ 0 ∧
       file_of a s' = set_pipe true false p (set_ref 1 (file_of a s)) ∧
       file_of b s' = set_pipe false true p (set_ref 1 (file_of b s)) ∧
       (∀ f, f ≠ a → f ≠ b → file_of f s' = file_of f s) ∧
       pipes s' = <[p := x]> (pipes s) ∧ pipe_rep (pp x) [] ∧ readopen (pp x) = true ∧ writeopen (pp x) = true).
Proof.
  intros Ho. unfold pipealloc. destruct (filealloc_run h s Ho) as (r0 & s1 & H0 & Hr0).
  rewrite (bind_run _ _ _ _ _ H0). destruct r0 as [a|].
  2: { destruct Hr0 as [-> _]. eexists _, _, _, s. split; [done|]. by left. }
  destruct Hr0 as (Ha & Hha & Ho1 & Hs1). destruct (filealloc_run _ s1 Ho1) as (r1 & s2 & H1 & Hr1).
  rewrite (bind_run _ _ _ _ _ H1). destruct r1 as [b|].
  2: { destruct Hr1 as [-> _]. unfold pipealloc_bad. cbn [negb Z.eqb]. run.
    rewrite (bind_run _ _ _ _ _ (fileclose_fresh h s a s1 Ho Ha Hha ltac:(by rewrite Hs1) Ho1)). run.
    eexists _, _, _, _. split; [done|]. left. by rewrite Hs1. }
  destruct Hr1 as (Hb & Hhb & Ho2 & Hs2). assert (a ≠ b) as Hab.
  { intros ->. by rewrite fupd_eq in Hhb. }
  rewrite fupd_ne in Hhb by done. destruct (fl_kalloc (fenv s2)) as (p & e & H2 & _ & Hpg).
  rewrite (bind_run _ _ _ _ _ (fe_run _ s2 p e H2)). destruct (Z.eqb_spec p 0) as [->|Hp].
  - unfold pipealloc_bad. cbn [negb Z.eqb]. run.
    assert (ftable s2 = alter (set_ref 1) a (alter (set_ref 1) b (ftable s))) as Ht2.
    { rewrite Hs2, Hs1. simpl. by rewrite list_alter_alter_ne. }
    set (sb := Filest (alter (set_ref 1) b (ftable s)) (pipes s2) e).
    assert (files_ok (fupd h b 1) sb) as Hob by (by apply files_ok_alter).
    assert (files_ok (fupd (fupd h b 1) a 1) (put_env e s2)) as Hoa.
    { eapply (files_ok_ext (fupd (fupd h a 1) b 1)); [|reflexivity|exact (files_ok_ext _ _ s2 (put_env e s2) (λ _, eq_refl) eq_refl Ho2)].
      intros f. unfold fupd. repeat case_decide; congruence. }
    rewrite (bind_run _ _ _ _ _ (fileclose_fresh (fupd h b 1) sb a (put_env e s2) Hob Ha
      ltac:(by rewrite fupd_ne) Ht2 Hoa)). run.
    rewrite (bind_run _ _ _ _ _ (fileclose_fresh h s b (Filest (ftable sb) (pipes (put_env e s2)) (fenv (put_env e s2))) Ho Hb Hhb eq_refl Hob)). run.
    eexists _, _, _, _. split; [done|]. left. split_and!; [done|done|]. simpl. by rewrite Hs2, Hs1.
  - run. rewrite !run_upd_file. eexists _, _, _, _. split; [done|]. right.
    exists a, b, p. eexists. split_and!; try done; cbn [pipes ftable].
    + unfold file_of. cbn [ftable put_env]. rewrite list_lookup_total_alter_ne, list_lookup_total_alter_eq by
        (done || rewrite (fo_len _ _ Ho2); done).
      rewrite Hs2. cbn [ftable]. rewrite list_lookup_total_alter_ne by done. rewrite Hs1. cbn [ftable].
      by rewrite list_lookup_total_alter_eq by (by rewrite (fo_len _ _ Ho)).
    + unfold file_of. cbn [ftable put_env]. rewrite list_lookup_total_alter_eq by
        (rewrite length_alter, (fo_len _ _ Ho2); done).
      rewrite list_lookup_total_alter_ne by done. rewrite Hs2. cbn [ftable].
      rewrite list_lookup_total_alter_eq by (by rewrite (fo_len _ _ Ho1)). rewrite Hs1. cbn [ftable].
      by rewrite list_lookup_total_alter_ne by done.
    + intros f Hfa Hfb. unfold file_of. cbn [ftable put_env]. rewrite !list_lookup_total_alter_ne by done.
      rewrite Hs2. cbn [ftable]. rewrite list_lookup_total_alter_ne by done. rewrite Hs1. cbn [ftable].
      by rewrite list_lookup_total_alter_ne by done.
    + rewrite Hs2, Hs1. reflexivity.
    + cbn [pp fenv put_env]. split; simpl; [by apply Hpg|unfold is_u32; lia|lia|done|intros; lia].
    + done.
    + done.
Qed.
End spec.

(** ** Two files in memory *)

(** The contents of inodes, as a list of byte strings. *)
#[local] Instance file_env_ex : FileEnv (list (list Z)) := {|
  fe_begin_op := mret tt;
  fe_end_op := mret tt;
  fe_ilock := λ _, mret tt;
  fe_iunlock := λ _, mret tt;
  fe_iput := λ _, mret tt;
  fe_stati := λ ip e, (1, Z.of_nat ip, 2, 1, Z.of_nat (length (e !!! ip)));
  fe_readi := λ ip off n e,
    let m := Z.min n (Z.of_nat (length (e !!! ip)) - off) in Ok (m, sub (e !!! ip) (Z.to_nat off) (Z.to_nat m)) e;
  fe_writei := λ ip src off n e, Ok n (alter (λ v, splice v (Z.to_nat off) src) ip e);
  fe_kalloc := mret 8192;
  fe_kfree := λ _, mret tt;
  fe_page := λ _ _, replicate 512 0
|}.

#[local] Instance file_laws_ex : FileLaws (list (list Z)).
Proof.
  refine {| fe_inode := λ ip e, (ip < length e)%nat; fe_view := λ ip e, e !!! ip |}.
  1-2: intros e; by exists e.
  1-2: intros ip e _; by exists e.
  - intros e. by exists 8192, e.
  - intros ip off n e _ _ _ _ m. by exists e.
  - intros ip src off n e Hip _ _ _ _. eexists. split; [done|]. split_and!.
    + intros i. by rewrite length_alter.
    + by rewrite list_lookup_total_alter_eq.
    + intros i Hi. by rewrite list_lookup_total_alter_ne.
Defined.

Definition files_ex : filest (list (list Z)) :=
  Filest (File FD_INODE 1 true true 0 0 2 :: replicate 99 file0) ∅ [[10; 11; 12; 13]; [7]].

Lemma fileread_correct_witness : ∃ s', fileread false 0 9 files_ex = Ok (2, [12; 13]) s' ∧
  f_off (file_of 0 s') = 4.
Proof.
  destruct (fileread_correct false 0 9 files_ex) as (s' & H & T); try done; [simpl; lia..|].
  exists s'. split; [exact H|]. by rewrite (tr_file _ _ _ _ _ T).
Defined.

Lemma filewrite_correct_witness : ∃ s', filewrite false 0 [1; 2; 3] 3 files_ex = Ok 3 s' ∧
  fenv s' !!! 0%nat = [10; 11; 1; 2; 3].
Proof.
  destruct (filewrite_correct false 0 [1; 2; 3] 3 files_ex) as (s' & H & T); try done; [simpl; lia..|].
  exists s'. split; [exact H|]. exact (tr_view _ _ _ _ _ T).
Defined.

Definition files_start : filest (list (list Z)) := Filest (replicate NFILE file0) ∅ [].

Lemma file_refs_witness : ∃ s, filealloc files_start = Ok (Some 0%nat) s ∧
  fileclose 0 s = Ok tt (Filest (ftable files_start) ∅ []).
Proof.
  destruct (filealloc files_start) as [r s| | |] eqn:H; try done. exists s.
  assert (r = Some 0%nat) as -> by (vm_compute in H; by injection H as <-).
  assert (file_reach s (fupd (λ _, 0) 0%nat 1)) as Hr.
  { exists ∅, []. by apply rtc_once, step_alloc. }
  destruct (file_refs s _ Hr) as (_ & _ & Hf). destruct (Hf 0%nat) as (_ & s1 & Hc & _); [unfold NFILE; lia|by rewrite fupd_eq|].
  split; [done|]. vm_compute in H. injection H as <-. by vm_compute.
Defined.

Lemma pipealloc_correct_witness : ∃ s', pipealloc files_start = Ok (0, Some 0%nat, Some 1%nat) s'.
Proof.
  destruct (pipealloc_correct (λ _, 0) files_start) as (r & f0 & f1 & s' & H & Hr).
  { apply file_reach_ok. by exists ∅, []. }
  exists s'. rewrite H. vm_compute in H. by injection H as <- <- <- _.
Defined.
