(* ===== verification/Vm.v ===== *)
(** * Virtual memory (vm.c)

    Page tables are words of the kernel's memory, reached at their kernel
    addresses; the routines run on the page allocator's state. [kend] and [kdata]
    are the linker's symbols [end] and [data]. switchkvm and switchuvm are in
    Proc.v; a pointer is an address, 0 for none. *)

From S2P Require Import Prelude Cstring Kalloc.

Definition EXTMEM : Z := 0x100000.
Definition DEVSPACE : Z := 0xFE000000.
Definition KERNLINK : Z := KERNBASE + EXTMEM.
Definition NPDENTRIES : Z := 1024.
Definition PTE_P : Z := 1.
Definition PTE_W : Z := 2.
Definition PTE_U : Z := 4.

Definition PDX (va : Z) : Z := Z.land (Z.shiftr va 22) 0x3FF.
Definition PTX (va : Z) : Z := Z.land (Z.shiftr va 12) 0x3FF.
Definition PGADDR (d t o : Z) : Z := u32 (Z.lor (Z.lor (Z.shiftl d 22) (Z.shiftl t 12)) o).
Definition PTE_ADDR (pte : Z) : Z := Z.land pte (Z.lnot 0xFFF).
Definition PTE_FLAGS (pte : Z) : Z := Z.land pte 0xFFF.

(** *p for a word, as a value and as an assignment. *)
Definition rd32 (a : Z) : M kmst Z := gets (λ k, load32 (km_mem k) a).
Definition on_mem (f : mem → mem) : M kmst unit := modify (λ k, KmSt (f (km_mem k)) (use_lock k) (freelist k)).
Definition wr32 (a v : Z) : M kmst unit := on_mem (λ m, store32 m a v).

Section vm.
Variable kend kdata : Z.

(** The address of the PTE of [va]; 0 when there is none. *)
Definition walkpgdir (pgdir va : Z) (alloc : bool) : M kmst Z :=
  let pde := pgdir + 4 * PDX va in
  d ← rd32 pde;
  if negb (Z.land d PTE_P =? 0) then mret (P2V (PTE_ADDR d) + 4 * PTX va)
  else if negb alloc then mret 0
  else
    pgtab ← kalloc;
    if pgtab =? 0 then mret 0
    else
      on_mem (λ m, Kernel.memset m pgtab 0 PGSIZE);;
      wr32 pde (Z.lor (Z.lor (Z.lor (V2P pgtab) PTE_P) PTE_W) PTE_U);;
      mret (pgtab + 4 * PTX va).

Fixpoint mappages_loop (fuel : nat) (pgdir a last pa perm : Z) : M kmst Z :=
  match fuel with
  | O => no_fuel
  | S fuel =>
      pte ← walkpgdir pgdir a true;
      if pte =? 0 then mret (-1)
      else
        v ← rd32 pte;
        panic_if (negb (Z.land v PTE_P =? 0)) "remap";;
        wr32 pte (Z.lor (Z.lor pa perm) PTE_P);;
        if a =? last then mret 0
        else mappages_loop fuel pgdir (u32 (a + PGSIZE)) last (u32 (pa + PGSIZE)) perm
  end.

(** As many rounds as there are pages. *)
Definition npages : nat := Z.to_nat 1048577.

Definition mappages (pgdir va size pa perm : Z) : M kmst Z :=
  mappages_loop npages pgdir (PGROUNDDOWN va) (PGROUNDDOWN (u32 (va + size - 1))) pa perm.

Fixpoint deallocuvm_loop (fuel : nat) (pgdir oldsz a : Z) : M kmst unit :=
  match fuel with
  | O => no_fuel
  | S fuel =>
      if a <? oldsz then
        pte ← walkpgdir pgdir a false;
        if pte =? 0 then
          deallocuvm_loop fuel pgdir oldsz (u32 (u32 (PGADDR (PDX a + 1) 0 0 - PGSIZE) + PGSIZE))
        else
          v ← rd32 pte;
          (if negb (Z.land v PTE_P =? 0) then
             panic_if (PTE_ADDR v =? 0) "kfree";;
             kfree kend (P2V (PTE_ADDR v));;
             wr32 pte 0
           else mret tt);;
          deallocuvm_loop fuel pgdir oldsz (u32 (a + PGSIZE))
      else mret tt
  end.

Definition deallocuvm (pgdir oldsz newsz : Z) : M kmst Z :=
  if oldsz <=? newsz then mret oldsz
  else deallocuvm_loop npages pgdir oldsz (PGROUNDUP newsz);; mret newsz.

Definition freevm (pgdir : Z) : M kmst unit :=
  panic_if (pgdir =? 0) "freevm: no pgdir";;
  deallocuvm pgdir KERNBASE 0;;
  for_each (seqZ 0 NPDENTRIES) (λ i,
    d ← rd32 (pgdir + 4 * i);
    if negb (Z.land d PTE_P =? 0) then kfree kend (P2V (PTE_ADDR d)) else mret tt);;
  kfree kend pgdir.

(** struct kmap: virt, phys_start, phys_end, perm. *)
Definition kmap : list (Z * Z * Z * Z) :=
  [(KERNBASE, 0, EXTMEM, PTE_W);
   (KERNLINK, V2P KERNLINK, V2P kdata, 0);
   (kdata, V2P kdata, PHYSTOP, PTE_W);
   (DEVSPACE, DEVSPACE, 0, PTE_W)].

Definition setupkvm : M kmst Z :=
  pgdir ← kalloc;
  if pgdir =? 0 then mret 0
  else
    on_mem (λ m, Kernel.memset m pgdir 0 PGSIZE);;
    panic_if (DEVSPACE <? P2V PHYSTOP) "PHYSTOP too high";;
    r ← for_until kmap (λ '(virt, phys_start, phys_end, perm),
      r ← mappages pgdir virt (u32 (phys_end - phys_start)) phys_start perm;
      if r <? 0 then freevm pgdir;; mret (Some 0) else mret None);
    match r with Some v => mret v | None => mret pgdir end.

(** kvmalloc: the new value of kpgdir, which switchkvm loads. *)
Definition kvmalloc : M kmst Z := setupkvm.

Definition inituvm (pgdir init sz : Z) : M kmst unit :=
  panic_if (PGSIZE <=? sz) "inituvm: more than a page";;
  mem ← kalloc;
  on_mem (λ m, Kernel.memset m mem 0 PGSIZE);;
  _ ← mappages pgdir 0 PGSIZE (V2P mem) (Z.lor PTE_W PTE_U);
  on_mem (λ m, Kernel.memmove m mem init (Z.to_nat sz)).

(** loaduvm, in the state of a caller that has the memory and the files; [readi
    dst off n] reads the segment's file into memory. *)
Section loaduvm.
Context {T : Type} (km : ∀ A, M kmst A → M T A) (readi : Z → Z → Z → M T Z).

Fixpoint loaduvm_loop (fuel : nat) (pgdir addr offset sz i : Z) : M T Z :=
  match fuel with
  | O => no_fuel
  | S fuel =>
      if i <? sz then
        pte ← km _ (walkpgdir pgdir (u32 (addr + i)) false);
        panic_if (pte =? 0) "loaduvm: address should exist";;
        v ← km _ (rd32 pte);
        let n := if sz - i <? PGSIZE then sz - i else PGSIZE in
        r ← readi (P2V (PTE_ADDR v)) (u32 (offset + i)) n;
        if r =? n then loaduvm_loop fuel pgdir addr offset sz (u32 (i + PGSIZE)) else mret (-1)
      else mret 0
  end.

Definition loaduvm (pgdir addr offset sz : Z) : M T Z :=
  panic_if (negb (addr mod PGSIZE =? 0)) "loaduvm: addr must be page aligned";;
  loaduvm_loop npages pgdir addr offset sz 0.
End loaduvm.

Fixpoint allocuvm_loop (fuel : nat) (pgdir oldsz newsz a : Z) : M kmst Z :=
  match fuel with
  | O => no_fuel
  | S fuel =>
      if a <? newsz then
        mem ← kalloc;
        if mem =? 0 then
          _ ← deallocuvm pgdir newsz oldsz;
          mret 0
        else
          on_mem (λ m, Kernel.memset m mem 0 PGSIZE);;
          r ← mappages pgdir a PGSIZE (V2P mem) (Z.lor PTE_W PTE_U);
          if r <? 0 then
            _ ← deallocuvm pgdir newsz oldsz;
            kfree kend mem;;
            mret 0
          else allocuvm_loop fuel pgdir oldsz newsz (u32 (a + PGSIZE))
      else mret newsz
  end.

Definition allocuvm (pgdir oldsz newsz : Z) : M kmst Z :=
  if KERNBASE <=? newsz then mret 0
  else if newsz <? oldsz then mret oldsz
  else allocuvm_loop npages pgdir oldsz newsz (PGROUNDUP oldsz).

Definition clearpteu (pgdir uva : Z) : M kmst unit :=
  pte ← walkpgdir pgdir uva false;
  panic_if (pte =? 0) "clearpteu";;
  v ← rd32 pte;
  wr32 pte (Z.land v (Z.lnot PTE_U)).

Fixpoint copyuvm_loop (fuel : nat) (pgdir d sz i : Z) : M kmst Z :=
  match fuel with
  | O => no_fuel
  | S fuel =>
      if i <? sz then
        pte ← walkpgdir pgdir i false;
        panic_if (pte =? 0) "copyuvm: pte should exist";;
        v ← rd32 pte;
        panic_if (Z.land v PTE_P =? 0) "copyuvm: page not present";;
        mem ← kalloc;
        if mem =? 0 then freevm d;; mret 0
        else
          on_mem (λ m, Kernel.memmove m mem (P2V (PTE_ADDR v)) (Z.to_nat PGSIZE));;
          r ← mappages d i PGSIZE (V2P mem) (PTE_FLAGS v);
          if r <? 0 then freevm d;; mret 0
          else copyuvm_loop fuel pgdir d sz (u32 (i + PGSIZE))
      else mret d
  end.

Definition copyuvm (pgdir sz : Z) : M kmst Z :=
  d ← setupkvm;
  if d =? 0 then mret 0 else copyuvm_loop npages pgdir d sz 0.

Definition uva2ka (pgdir uva : Z) : M kmst Z :=
  pte ← walkpgdir pgdir uva false;
  v ← rd32 pte;
  if Z.land v PTE_P =? 0 then mret 0
  else if Z.land v PTE_U =? 0 then mret 0
  else mret (P2V (PTE_ADDR v)).

Fixpoint copyout_loop (fuel : nat) (pgdir va buf len : Z) : M kmst Z :=
  match fuel with
  | O => no_fuel
  | S fuel =>
      if 0 <? len then
        let va0 := PGROUNDDOWN va in
        pa0 ← uva2ka pgdir va0;
        if pa0 =? 0 then mret (-1)
        else
          let n := if len <? PGSIZE - (va - va0) then len else PGSIZE - (va - va0) in
          on_mem (λ m, Kernel.memmove m (pa0 + (va - va0)) buf (Z.to_nat n));;
          copyout_loop fuel pgdir (u32 (va0 + PGSIZE)) (buf + n) (len - n)
      else mret 0
  end.

Definition copyout (pgdir va p len : Z) : M kmst Z := copyout_loop npages pgdir va p len.
End vm.
