(* ===== verification/VmSpec.v ===== *)
(** * Page tables: ownership, translation, and the operations on them *)

From S2P Require Import Prelude Cstring Kalloc Vm.

(** ** Address arithmetic *)

Lemma PDX_eq va : PDX va = va / 4194304 mod 1024.
Proof.
  unfold PDX. rewrite Z.shiftr_div_pow2 by lia. change 0x3FF with (2 ^ 10 - 1).
  by rewrite (land_mask _ 10) by done.
Qed.
Lemma PTX_eq va : PTX va = va / 4096 mod 1024.
Proof.
  unfold PTX. rewrite Z.shiftr_div_pow2 by lia. change 0x3FF with (2 ^ 10 - 1).
  by rewrite (land_mask _ 10) by done.
Qed.
Lemma PDX_range va : 0 <= PDX va < 1024.
Proof. rewrite PDX_eq. by apply Z.mod_pos_bound. Qed.
Lemma PTX_range va : 0 <= PTX va < 1024.
Proof. rewrite PTX_eq. by apply Z.mod_pos_bound. Qed.

Lemma land_not_mask x : Z.land x (Z.lnot 4095) = x - x mod 4096.
Proof.
  change 4095 with (Z.ones 12). rewrite <-Z.ldiff_land, Z.ldiff_ones_r by lia.
  rewrite Z.shiftl_mul_pow2, Z.shiftr_div_pow2 by lia. change (2 ^ 12) with 4096.
  Z.to_euclidean_division_equations; lia.
Qed.
Lemma PTE_ADDR_eq x : PTE_ADDR x = x - x mod 4096.
Proof. apply land_not_mask. Qed.
Lemma PGROUNDDOWN_eq x : PGROUNDDOWN x = x - x mod 4096.
Proof. apply land_not_mask. Qed.
Lemma PTE_FLAGS_eq x : PTE_FLAGS x = x mod 4096.
Proof. unfold PTE_FLAGS. by rewrite (land_mask _ 12). Qed.

Lemma lor_page a f : 0 <= f < 4096 → a mod 4096 = 0 → Z.lor a f = a + f.
Proof.
  intros Hf Ha. replace a with (Z.shiftl (a / 4096) 12).
  - rewrite lor_0_add by (done || change (2 ^ 12) with 4096; lia).
    rewrite Z.shiftl_mul_pow2 by lia. lia.
  - rewrite Z.shiftl_mul_pow2 by lia. change (2 ^ 12) with 4096. Z.to_euclidean_division_equations; lia.
Qed.

(** A PTE or PDE of flags [f] for the physical page [pa]. *)
Definition present (v : Z) : bool := negb (Z.land v PTE_P =? 0).

Lemma present_odd v : present v = Z.odd v.
Proof.
  unfold present, PTE_P. change 1 with (Z.ones 1). rewrite Z.land_ones by lia. change (2 ^ 1) with 2.
  rewrite Zmod_odd. by destruct (Z.odd v).
Qed.

Section kend.
Variable kend : Z.

Abbreviation page := (is_page kend).

(** A page behind its PTE. *)
Lemma page_bounds p : page p → 0 <= p ∧ p + 4096 <= 4294967296 ∧ p mod 4096 = 0 ∧ p ≠ 0 ∧ 0x80000000 <= p.
Proof.
  intros (H1 & _ & H3). unfold KERNBASE, PHYSTOP in *. split_and!; try lia.
Qed.

Lemma V2P_page p : page p → V2P p = p - KERNBASE ∧ V2P p mod 4096 = 0 ∧ 0 <= V2P p < PHYSTOP.
Proof.
  intros (H1 & _ & H3). unfold V2P, KERNBASE, PHYSTOP in *. rewrite u32_small by (unfold is_u32; lia).
  split_and!; [done| |lia|lia]. Z.to_euclidean_division_equations; lia.
Qed.

Lemma pte_frame p f : page p → 0 <= f < 4096 →
  P2V (PTE_ADDR (V2P p + f)) = p ∧ PTE_FLAGS (V2P p + f) = f ∧ is_u32 (V2P p + f) ∧ PTE_ADDR (V2P p + f) = V2P p.
Proof.
  intros Hp Hf. destruct (V2P_page p Hp) as (E & H0 & Hr). unfold PHYSTOP in Hr.
  assert (PTE_ADDR (V2P p + f) = V2P p) as Ha.
  { rewrite PTE_ADDR_eq. rewrite Zplus_mod, H0, Z.add_0_l, Z.mod_mod, Z.mod_small by lia. lia. }
  rewrite Ha. split; [|split; [|split; [|done]]].
  - unfold P2V. rewrite E. unfold KERNBASE in *. rewrite u32_small; [lia|]. unfold is_u32. lia.
  - rewrite PTE_FLAGS_eq, Zplus_mod, H0, Z.add_0_l, Z.mod_mod, Z.mod_small by lia. done.
  - unfold is_u32. lia.
Qed.

(** ** What a page directory maps *)

Definition pde (m : mem) (pgdir i : Z) : Z := load32 m (pgdir + 4 * i).
Definition tab (m : mem) (pgdir i : Z) : Z := P2V (PTE_ADDR (pde m pgdir i)).
Definition pte (m : mem) (pgdir va : Z) : Z :=
  if present (pde m pgdir (PDX va)) then load32 m (tab m pgdir (PDX va) + 4 * PTX va) else 0.
Definition frame (m : mem) (pgdir va : Z) : Z := P2V (PTE_ADDR (pte m pgdir va)).

(** The user pages. *)
Definition upage (va : Z) : Prop := 0 <= va < KERNBASE ∧ va mod 4096 = 0.

(** [own] are the pages of an address space: its directory, its tables and the
    frames of its user pages, each once. *)
Record space (m : mem) (pgdir : Z) (own : gset Z) : Prop := {
  sp_dir : page pgdir ∧ pgdir ∈ own;
  sp_tab : ∀ i, 0 <= i < 1024 → present (pde m pgdir i) = true →
    page (tab m pgdir i) ∧ tab m pgdir i ∈ own ∧ tab m pgdir i ≠ pgdir;
  sp_tabs : ∀ i j, 0 <= i < 1024 → 0 <= j < 1024 → present (pde m pgdir i) = true →
    present (pde m pgdir j) = true → tab m pgdir i = tab m pgdir j → i = j;
  sp_frame : ∀ va, upage va → present (pte m pgdir va) = true →
    page (frame m pgdir va) ∧ frame m pgdir va ∈ own ∧ frame m pgdir va ≠ pgdir ∧
    ∀ i, 0 <= i < 1024 → present (pde m pgdir i) = true → frame m pgdir va ≠ tab m pgdir i;
  sp_frames : ∀ va va', upage va → upage va' → present (pte m pgdir va) = true →
    present (pte m pgdir va') = true → frame m pgdir va = frame m pgdir va' → va = va';
  sp_own : ∀ p, p ∈ own → p = pgdir ∨ (∃ i, 0 <= i < 1024 ∧ present (pde m pgdir i) = true ∧ p = tab m pgdir i) ∨
    ∃ va, upage va ∧ present (pte m pgdir va) = true ∧ p = frame m pgdir va
}.

(** [m'] agrees with [m] on the directory and the tables. *)
Definition skel (m : mem) (pgdir p : Z) : Prop :=
  p = pgdir ∨ ∃ i, 0 <= i < 1024 ∧ present (pde m pgdir i) = true ∧ p = tab m pgdir i.
Definition skel_same (pgdir : Z) (m m' : mem) : Prop :=
  ∀ p x, skel m pgdir p → p <= x < p + 4096 → m' x = m x.

Lemma skel_pde m m' pgdir i : skel_same pgdir m m' → 0 <= i < 1024 → pde m' pgdir i = pde m pgdir i.
Proof. intros Ha Hi. apply load32_ext. intros x Hx. apply (Ha pgdir); [by left|lia]. Qed.

Lemma skel_pte m m' pgdir va : skel_same pgdir m m' → pte m' pgdir va = pte m pgdir va.
Proof.
  intros Ha. pose proof (PDX_range va) as Hi. pose proof (PTX_range va).
  unfold pte, tab. rewrite (skel_pde m m') by done. destruct (present _) eqn:Ep; [|done].
  apply load32_ext. intros x Hx. apply (Ha (tab m pgdir (PDX va))); [right; by exists (PDX va)|].
  unfold tab. lia.
Qed.

Lemma skel_frame m m' pgdir va : skel_same pgdir m m' → frame m' pgdir va = frame m pgdir va.
Proof. intros Ha. unfold frame. by rewrite (skel_pte m m'). Qed.

Lemma skel_space own m m' pgdir : skel_same pgdir m m' → space m pgdir own → space m' pgdir own.
Proof.
  intros Ha Hs.
  assert (∀ i, 0 <= i < 1024 → pde m' pgdir i = pde m pgdir i) as Hd by (intros i Hi; by apply skel_pde).
  assert (∀ va, pte m' pgdir va = pte m pgdir va) as Hp by (intros va; by apply skel_pte).
  assert (∀ i, 0 <= i < 1024 → tab m' pgdir i = tab m pgdir i) as Ht by (intros i Hi; unfold tab; by rewrite Hd).
  assert (∀ va, frame m' pgdir va = frame m pgdir va) as Hf by (intros va; by apply skel_frame).
  destruct Hs as [H1 H2 H3 H4 H5 H6]. split.
  - done.
  - intros i Hi. rewrite Hd, Ht by done. by apply H2.
  - intros i j Hi Hj. rewrite !Hd, !Ht by done. by apply H3.
  - intros va Hva. rewrite Hp, Hf. intros Hpr. destruct (H4 va Hva Hpr) as (? & ? & ? & ?). split_and!; try done.
    intros i Hi. rewrite Hd, Ht by done. auto.
  - intros va va' Hva Hva'. rewrite !Hp, !Hf. by apply H5.
  - intros p Hin. destruct (H6 p Hin) as [?|[(i & Hi & ? & ?)|(va & ? & ? & ?)]]; [by left| |].
    + right; left. exists i. by rewrite Hd, Ht.
    + right; right. exists va. by rewrite Hp, Hf.
Qed.

Lemma skel_own m pgdir own p : space m pgdir own → skel m pgdir p → p ∈ own ∧ page p.
Proof.
  intros Hs [->|(i & Hi & Hp & ->)]; [split; apply Hs|]. by destruct (sp_tab _ _ _ Hs i Hi Hp) as (? & ? & _).
Qed.

Lemma frame_not_skel m pgdir own va :
  space m pgdir own → upage va → present (pte m pgdir va) = true → ¬ skel m pgdir (frame m pgdir va).
Proof.
  intros Hs Hva Hp. destruct (sp_frame _ _ _ Hs va Hva Hp) as (_ & _ & H3 & H4).
  intros [?|(i & Hi & Hpi & Heq)]; [done|]. by apply (H4 i).
Qed.

(** ** Stores into a table *)

Lemma is_page_apart p q x y :
  page p → page q → p ≠ q → p <= x < p + 4096 → q <= y < q + 4096 → x ≠ y.
Proof. intros Hp Hq Hne Hx Hy. destruct (page_apart kend p q Hp Hq Hne); lia. Qed.

Definition same_page (va va' : Z) : Prop := PDX va' = PDX va ∧ PTX va' = PTX va.
#[local] Instance same_page_dec va va' : Decision (same_page va va').
Proof. unfold same_page. apply _. Defined.

Lemma same_page_upage va va' : upage va → upage va' → same_page va va' → va' = va.
Proof.
  intros [H1 H2] [H3 H4]. unfold same_page, KERNBASE in *. rewrite !PDX_eq, !PTX_eq. intros [E1 E2].
  Z.to_euclidean_division_equations; lia.
Qed.

(** A page of the 32-bit address space. *)
Definition vpage (va : Z) : Prop := 0 <= va < 4294967296 ∧ va mod 4096 = 0.

Lemma upage_vpage va : upage va → vpage va.
Proof. unfold upage, vpage, KERNBASE. lia. Qed.

Lemma same_page_vpage va va' : vpage va → vpage va' → same_page va va' ↔ va' = va.
Proof.
  intros [H1 H2] [H3 H4]. split; [|by intros ->]. unfold same_page. rewrite !PDX_eq, !PTX_eq. intros [E1 E2].
  Z.to_euclidean_division_equations; lia.
Qed.

Lemma set_pte m pgdir own va v :
  space m pgdir own → present (pde m pgdir (PDX va)) = true → is_u32 v →
  let m' := store32 m (tab m pgdir (PDX va) + 4 * PTX va) v in
  (∀ i, 0 <= i < 1024 → pde m' pgdir i = pde m pgdir i) ∧
  (∀ va', pte m' pgdir va' = if decide (same_page va va') then v else pte m pgdir va') ∧
  (∀ x, ¬ tab m pgdir (PDX va) <= x < tab m pgdir (PDX va) + 4096 → m' x = m x).
Proof.
  intros Hs Hp Hv m'. pose proof (PDX_range va) as Hi. pose proof (PTX_range va) as Hj.
  destruct (sp_tab _ _ _ Hs _ Hi Hp) as (Ht & Hto & Htd). destruct (sp_dir _ _ _ Hs) as [Hd Hdo].
  set (t := tab m pgdir (PDX va)) in *.
  assert (∀ x, ¬ t <= x < t + 4096 → m' x = m x) as Hout by (intros x Hx; apply store32_ne; lia).
  assert (∀ i, 0 <= i < 1024 → pde m' pgdir i = pde m pgdir i) as Hpde.
  { intros i Hir. apply load32_ext. intros x Hx. apply Hout. intros Hxt.
    destruct (is_page_apart t pgdir x x Ht Hd Htd); (done || lia). }
  split_and!; [exact Hpde| |exact Hout]. intros va'. pose proof (PDX_range va') as Hi'. pose proof (PTX_range va') as Hj'.
  unfold pte. assert (tab m' pgdir (PDX va') = tab m pgdir (PDX va')) as -> by (unfold tab; by rewrite Hpde).
  rewrite Hpde by done. case_decide as Hsp.
  - destruct Hsp as [-> ->]. rewrite Hp. fold t. by apply load32_store32.
  - destruct (present (pde m pgdir (PDX va'))) eqn:Hp'; [|done]. unfold m'.
    destruct (sp_tab _ _ _ Hs _ Hi' Hp') as (Ht' & _ & _).
    destruct (decide (PDX va' = PDX va)) as [E|E].
    + rewrite E. fold t. apply load32_store32_ne. assert (PTX va' ≠ PTX va) by (intros ?; by apply Hsp). lia.
    + apply load32_ext. intros x Hx. apply Hout. intros Hxt.
      destruct (is_page_apart (tab m pgdir (PDX va')) t x x Ht' Ht); try done; [|lia].
      intros Heq. apply E. by apply (sp_tabs _ _ _ Hs).
Qed.

Lemma load32_zero m p j :
  (∀ x, p <= x < p + 4096 → m x = 0) → 0 <= j < 1024 → load32 m (p + 4 * j) = 0.
Proof. intros H Hj. unfold load32. by rewrite !H by lia. Qed.

(** A new table. *)
Lemma set_pde m pgdir own va p :
  space m pgdir own → present (pde m pgdir (PDX va)) = false → page p → p ∉ own → mem_ok m →
  let m' := store32 (Kernel.memset m p 0 PGSIZE) (pgdir + 4 * PDX va) (V2P p + 7) in
  space m' pgdir ({[p]} ∪ own) ∧ (∀ va', pte m' pgdir va' = pte m pgdir va') ∧
  tab m' pgdir (PDX va) = p ∧ present (pde m' pgdir (PDX va)) = true ∧
  (∀ x, ¬ p <= x < p + 4096 → ¬ pgdir <= x < pgdir + 4096 → m' x = m x) ∧
  (∀ i, 0 <= i < 1024 → i ≠ PDX va → pde m' pgdir i = pde m pgdir i).
Proof.
  intros Hs Hnp Hp Hpo Hok m'. pose proof (PDX_range va) as Hi.
  destruct (sp_dir _ _ _ Hs) as [Hd Hdo]. assert (p ≠ pgdir) as Hne by (intros ->; done).
  set (m1 := Kernel.memset m p 0 PGSIZE) in *.
  assert (∀ x, m1 x = if decide (p <= x < p + 4096) then 0 else m x) as Hm1.
  { intros x. apply (KernelSpec.memset_eq m p 0 PGSIZE x). done. }
  destruct (pte_frame p 7 Hp) as (Hfr & _ & Hu & _); [lia|].
  assert (∀ x, ¬ pgdir <= x < pgdir + 4096 → m' x = m1 x) as Hm'.
  { intros x Hx. apply store32_ne. lia. }
  assert (∀ i, 0 <= i < 1024 → pde m1 pgdir i = pde m pgdir i) as Hd1.
  { intros i Hir. apply load32_ext. intros x Hx. rewrite Hm1, decide_False; [done|].
    intros Hxp. destruct (is_page_apart p pgdir x x Hp Hd Hne); (done || lia). }
  assert (∀ i, 0 <= i < 1024 → pde m' pgdir i = if decide (i = PDX va) then V2P p + 7 else pde m pgdir i) as Hpde.
  { intros i Hir. case_decide as Hd'; [subst i; by apply load32_store32|]. rewrite <-Hd1 by done.
    apply load32_store32_ne. lia. }
  assert (present (V2P p + 7) = true) as Hp7.
  { rewrite present_odd. destruct (V2P_page p Hp) as (_ & H0 & _). rewrite Z.odd_add.
    assert (Z.odd (V2P p) = false) as ->; [|done].
    rewrite <-Z.negb_even. apply negb_false_iff, Z.even_spec. exists (V2P p / 2).
    Z.to_euclidean_division_equations; lia. }
  assert (tab m' pgdir (PDX va) = p ∧ present (pde m' pgdir (PDX va)) = true) as [Htab Hpr].
  { unfold tab. rewrite Hpde, decide_True by done. done. }
  assert (∀ i, 0 <= i < 1024 → i ≠ PDX va → tab m' pgdir i = tab m pgdir i) as Hto.
  { intros i Hir Hn. unfold tab. by rewrite Hpde, decide_False. }
  assert (∀ q x, q ∈ own → page q → q ≠ pgdir → q <= x < q + 4096 → m' x = m x) as Hown.
  { intros q x Hq Hqp Hqd Hx. rewrite Hm'.
    - rewrite Hm1, decide_False; [done|]. intros Hxp.
      destruct (is_page_apart p q x x Hp Hqp); [intros ->; done|done|done|done].
    - intros Hxp. destruct (is_page_apart pgdir q x x Hd Hqp); [congruence|done|done|done]. }
  assert (∀ va', pte m' pgdir va' = pte m pgdir va') as Hpte.
  { intros va'. pose proof (PDX_range va') as Hi'. pose proof (PTX_range va') as Hj'. unfold pte.
    destruct (decide (PDX va' = PDX va)) as [E|E].
    - rewrite E, Hpr, Hnp, Htab. apply load32_zero; [|done]. intros x Hx.
      rewrite Hm', Hm1, decide_True; [done|done|]. intros Hxd.
      destruct (is_page_apart p pgdir x x Hp Hd Hne); done.
    - rewrite Hpde, decide_False, Hto by done. destruct (present (pde m pgdir (PDX va'))) eqn:Epr; [|done].
      destruct (sp_tab _ _ _ Hs _ Hi' Epr) as (T1 & T2 & T3).
      apply load32_ext. intros x Hx. eapply Hown; [exact T2|done|done|lia]. }
  assert (∀ va', frame m' pgdir va' = frame m pgdir va') as Hfm by (intros va'; unfold frame; by rewrite Hpte).
  split_and!; [|exact Hpte|exact Htab|exact Hpr| |].
  - split.
    + split; [done|by apply elem_of_union_r].
    + intros i Hir Hip. destruct (decide (i = PDX va)) as [->|Hn]; [rewrite Htab; split_and!; [done|by apply elem_of_union_l, elem_of_singleton|done]|].
      rewrite Hto by done. rewrite Hpde, decide_False in Hip by done.
      destruct (sp_tab _ _ _ Hs i Hir Hip) as (? & ? & ?). split_and!; [done|by apply elem_of_union_r|done].
    + assert (∀ i, 0 <= i < 1024 → i ≠ PDX va → present (pde m' pgdir i) = true → tab m' pgdir i ≠ p) as Hnt.
      { intros i Hir Hn Hip. rewrite Hto by done. rewrite Hpde, decide_False in Hip by done.
        destruct (sp_tab _ _ _ Hs i Hir Hip) as (_ & Hin & _). intros E. by rewrite E in Hin. }
      intros i j Hir Hjr Hip Hjp Heq.
      destruct (decide (i = PDX va)) as [->|Hn], (decide (j = PDX va)) as [->|Hn']; [done|..].
      * rewrite Htab in Heq. symmetry in Heq. by destruct (Hnt j Hjr Hn' Hjp).
      * rewrite Htab in Heq. by destruct (Hnt i Hir Hn Hip).
      * rewrite !Hto in Heq by done. rewrite (Hpde i), decide_False in Hip by done. rewrite (Hpde j), decide_False in Hjp by done. by apply (sp_tabs _ _ _ Hs).
    + intros va' Hva Hpv. rewrite Hpte in Hpv. rewrite Hfm. destruct (sp_frame _ _ _ Hs va' Hva Hpv) as (F1 & F2 & F3 & F4).
      split_and!; [done|by apply elem_of_union_r|done|]. intros i Hir Hip.
      destruct (decide (i = PDX va)) as [->|Hn]; [rewrite Htab; intros E; by rewrite E in F2|].
      rewrite Hto by done. rewrite Hpde, decide_False in Hip by done. by apply F4.
    + intros v1 v2 H1 H2. rewrite !Hpte, !Hfm. by apply (sp_frames _ _ _ Hs).
    + intros q [->%elem_of_singleton|Hq]%elem_of_union.
      * right; left. exists (PDX va). by rewrite Htab.
      * destruct (sp_own _ _ _ Hs q Hq) as [?|[(i & Hir & Hip & ->)|(v1 & H1 & H2 & ->)]]; [by left| |].
        -- right; left. exists i. assert (i ≠ PDX va) by (intros ->; congruence).
           by rewrite Hpde, decide_False, Hto.
        -- right; right. exists v1. by rewrite Hpte, Hfm.
  - intros x Hx1 Hx2. by rewrite Hm', Hm1, decide_False.
  - intros i Hir Hn. by rewrite Hpde, decide_False.
Qed.

(** An address space after a change of one user PTE: the other pages are as
    before. *)
Lemma space_set m m' pgdir own own' va :
  space m pgdir own → upage va → pgdir ∈ own' →
  (∀ i, 0 <= i < 1024 → pde m' pgdir i = pde m pgdir i) →
  (∀ va', upage va' → va' ≠ va → pte m' pgdir va' = pte m pgdir va') →
  (∀ i, 0 <= i < 1024 → present (pde m pgdir i) = true → tab m pgdir i ∈ own') →
  (∀ va', upage va' → va' ≠ va → present (pte m pgdir va') = true → frame m pgdir va' ∈ own') →
  (∀ p, p ∈ own' → p ∈ own ∧ (present (pte m pgdir va) = true → p ≠ frame m pgdir va) ∨
    present (pte m' pgdir va) = true ∧ p = frame m' pgdir va) →
  (present (pte m' pgdir va) = true → let f := frame m' pgdir va in
     page f ∧ f ∈ own' ∧ (f ∈ own → present (pte m pgdir va) = true ∧ f = frame m pgdir va)) →
  space m' pgdir own'.
Proof.
  intros Hs Hva Hdo Hd Hp Ht Hfo Hin Hnew.
  assert (∀ i, 0 <= i < 1024 → tab m' pgdir i = tab m pgdir i) as Htab by (intros i Hi; unfold tab; by rewrite Hd).
  assert (∀ va', upage va' → va' ≠ va → frame m' pgdir va' = frame m pgdir va') as Hf.
  { intros va' Hv Hne. unfold frame. by rewrite Hp. }
  (* the frame of [va] is none of the other pages *)
  assert (present (pte m' pgdir va) = true → ∀ q, q ∈ own → (present (pte m pgdir va) = true → q ≠ frame m pgdir va) →
    frame m' pgdir va ≠ q) as Hap.
  { intros Hpr q Hq Hqf Heq. destruct (Hnew Hpr) as (_ & _ & Ho). rewrite Heq in Ho.
    destruct (Ho Hq) as [Hpo Hfq]. by apply (Hqf Hpo). }
  split.
  - split; [apply (sp_dir _ _ _ Hs)|done].
  - intros i Hi. rewrite Hd, Htab by done. intros Hip. destruct (sp_tab _ _ _ Hs i Hi Hip) as (? & _ & ?).
    split_and!; auto.
  - intros i j Hi Hj. rewrite !Hd, !Htab by done. by apply (sp_tabs _ _ _ Hs).
  - intros va' Hv Hpr. destruct (decide (va' = va)) as [->|Hne].
    + destruct (Hnew Hpr) as (H1 & H2 & _). split_and!; [done|done| |].
      * apply (Hap Hpr); [apply (sp_dir _ _ _ Hs)|]. intros Hpo. apply not_eq_sym, (sp_frame _ _ _ Hs va Hva Hpo).
      * intros i Hi. rewrite Hd, Htab by done. intros Hip. apply (Hap Hpr); [by apply (sp_tab _ _ _ Hs)|].
        intros Hpo. apply not_eq_sym. destruct (sp_frame _ _ _ Hs va Hva Hpo) as (_ & _ & _ & H4). by apply H4.
    + rewrite Hp in Hpr by done. rewrite Hf by done. destruct (sp_frame _ _ _ Hs va' Hv Hpr) as (F1 & F2 & F3 & F4).
      split_and!; [done|by apply Hfo|done|]. intros i Hi. rewrite Hd, Htab by done. by apply F4.
  - assert (∀ va', upage va' → va' ≠ va → present (pte m' pgdir va') = true → present (pte m' pgdir va) = true →
      frame m' pgdir va ≠ frame m' pgdir va') as Hpair.
    { intros va' Hv Hne Hpr Hprv. rewrite (Hp va') in Hpr by done. rewrite (Hf va') by done.
      apply (Hap Hprv); [by apply (sp_frame _ _ _ Hs)|]. intros Hpo Heq.
      by apply Hne, (sp_frames _ _ _ Hs). }
    intros v1 v2 H1 H2 P1 P2 Heq. destruct (decide (v1 = va)) as [->|N1], (decide (v2 = va)) as [->|N2]; [done|..].
    + by destruct (Hpair v2 H2 N2 P2 P1).
    + by destruct (Hpair v1 H1 N1 P1 P2).
    + rewrite Hp in P1 by done. rewrite Hp in P2 by done. rewrite !Hf in Heq by done. by apply (sp_frames _ _ _ Hs).
  - intros p Hpo. destruct (Hin p Hpo) as [[Hpi Hpf]|[Hpr ->]]; [|by right; right; exists va].
    destruct (sp_own _ _ _ Hs p Hpi) as [?|[(i & Hi & Hip & ->)|(v1 & H1 & P1 & ->)]]; [by left| |].
    + right; left. exists i. by rewrite Hd, Htab.
    + destruct (decide (v1 = va)) as [->|N1]; [by destruct (Hpf P1)|]. right; right. exists v1. by rewrite Hp, Hf.
Qed.

(** A user page is mapped to a new frame [q]. *)
Lemma space_map m pgdir own va v q :
  space m pgdir own → upage va → present (pde m pgdir (PDX va)) = true → present (pte m pgdir va) = false →
  page q → q ∉ own → is_u32 v → P2V (PTE_ADDR v) = q → present v = true →
  space (store32 m (tab m pgdir (PDX va) + 4 * PTX va) v) pgdir ({[q]} ∪ own).
Proof.
  intros Hs Hva Hpd Hnp Hq Hqo Hv Hfr Hpv. destruct (set_pte m pgdir own va v Hs Hpd Hv) as (Hd & Hp & _).
  set (m' := store32 _ _ _) in *.
  assert (pte m' pgdir va = v) as Hpva by (rewrite Hp; by rewrite decide_True).
  assert (frame m' pgdir va = q) as Hfva by (unfold frame; by rewrite Hpva).
  apply (space_set m m' pgdir own _ va); try done.
  - apply elem_of_union_r, Hs.
  - intros va' Hv' Hne. rewrite Hp, decide_False; [done|]. intros Hsp. by apply Hne, same_page_upage.
  - intros i Hi Hip. apply elem_of_union_r. by apply (sp_tab _ _ _ Hs).
  - intros va' Hv' _ Hpr. apply elem_of_union_r. by apply (sp_frame _ _ _ Hs).
  - rewrite Hpva, Hfva, Hnp. intros p [->%elem_of_singleton|?]%elem_of_union; [by right|by left].
  - rewrite Hpva, Hfva. intros _. split_and!; [done|by apply elem_of_union_l, elem_of_singleton|done].
Qed.

(** A user page is unmapped. *)
Lemma space_unmap m pgdir own va :
  space m pgdir own → upage va → present (pde m pgdir (PDX va)) = true → present (pte m pgdir va) = true →
  space (store32 m (tab m pgdir (PDX va) + 4 * PTX va) 0) pgdir (own ∖ {[frame m pgdir va]}).
Proof.
  intros Hs Hva Hpd Hpr. destruct (set_pte m pgdir own va 0 Hs Hpd) as (Hd & Hp & _); [unfold is_u32; lia|].
  set (m' := store32 _ _ _) in *. destruct (sp_frame _ _ _ Hs va Hva Hpr) as (F1 & F2 & F3 & F4).
  assert (pte m' pgdir va = 0) as Hpva by (rewrite Hp; by rewrite decide_True).
  apply (space_set m m' pgdir own _ va); try done.
  - apply elem_of_difference. split; [apply (sp_dir _ _ _ Hs)|]. by apply not_elem_of_singleton, not_eq_sym.
  - intros va' Hv' Hne. rewrite Hp, decide_False; [done|]. intros Hsp. by apply Hne, same_page_upage.
  - intros i Hi Hip. apply elem_of_difference. split; [by apply (sp_tab _ _ _ Hs)|].
    rewrite elem_of_singleton. apply not_eq_sym. by apply F4.
  - intros va' Hv' Hne Hpr'. apply elem_of_difference. split; [by apply (sp_frame _ _ _ Hs)|].
    rewrite elem_of_singleton. intros Heq. by apply Hne, (sp_frames _ _ _ Hs).
  - intros p [Hpi Hpf]%elem_of_difference. left. split; [done|]. intros _. by apply not_elem_of_singleton in Hpf.
  - rewrite Hpva. done.
Qed.

(** Only the flags of a user page change. *)
Lemma space_flags m pgdir own va v :
  space m pgdir own → upage va → present (pde m pgdir (PDX va)) = true → is_u32 v →
  present v = present (pte m pgdir va) → PTE_ADDR v = PTE_ADDR (pte m pgdir va) →
  space (store32 m (tab m pgdir (PDX va) + 4 * PTX va) v) pgdir own.
Proof.
  intros Hs Hva Hpd Hv Hpv Hfr. destruct (set_pte m pgdir own va v Hs Hpd Hv) as (Hd & Hp & _).
  set (m' := store32 _ _ _) in *.
  assert (pte m' pgdir va = v) as Hpva by (rewrite Hp; by rewrite decide_True).
  assert (frame m' pgdir va = frame m pgdir va) as Hfva by (unfold frame; by rewrite Hpva, Hfr).
  apply (space_set m m' pgdir own _ va); try done.
  - apply Hs.
  - intros va' Hv' Hne. rewrite Hp, decide_False; [done|]. intros Hsp. by apply Hne, same_page_upage.
  - intros i Hi Hip. by apply (sp_tab _ _ _ Hs).
  - intros va' Hv' _ Hpr. by apply (sp_frame _ _ _ Hs).
  - rewrite Hpva, Hfva, Hpv. intros p Hpo. destruct (present (pte m pgdir va)) eqn:Epr; [|by left].
    destruct (decide (p = frame m pgdir va)); [by right|by left].
  - rewrite Hpva, Hfva, Hpv. intros Hpr. destruct (sp_frame _ _ _ Hs va Hva Hpr) as (? & ? & _). by split_and!.
Qed.

(** A page of the kernel's part is mapped. *)
Lemma space_kernel m pgdir own va v :
  space m pgdir own → KERNBASE <= va < 4294967296 → present (pde m pgdir (PDX va)) = true → is_u32 v →
  space (store32 m (tab m pgdir (PDX va) + 4 * PTX va) v) pgdir own.
Proof.
  intros Hs Hva Hpd Hv. destruct (set_pte m pgdir own va v Hs Hpd Hv) as (Hd & Hp & _).
  set (m' := store32 _ _ _) in *.
  assert (∀ va', upage va' → pte m' pgdir va' = pte m pgdir va') as Hpu.
  { intros va' [Hr _]. rewrite Hp, decide_False; [done|]. intros [E _]. unfold KERNBASE in *.
    rewrite !PDX_eq in E. Z.to_euclidean_division_equations; lia. }
  assert (∀ i, 0 <= i < 1024 → tab m' pgdir i = tab m pgdir i) as Htab by (intros i Hi; unfold tab; by rewrite Hd).
  assert (∀ va', upage va' → frame m' pgdir va' = frame m pgdir va') as Hf by (intros va' H; unfold frame; by rewrite Hpu).
  destruct Hs as [H1 H2 H3 H4 H5 H6]. split.
  - done.
  - intros i Hi. rewrite Hd, Htab by done. by apply H2.
  - intros i j Hi Hj. rewrite !Hd, !Htab by done. by apply H3.
  - intros va' Hu. rewrite Hpu, Hf by done. intros Hpr. destruct (H4 va' Hu Hpr) as (? & ? & ? & ?).
    split_and!; try done. intros i Hi. rewrite Hd, Htab by done. auto.
  - intros v1 v2 U1 U2. rewrite !Hpu, !Hf by done. by apply H5.
  - intros p Hin. destruct (H6 p Hin) as [?|[(i & Hi & ? & ?)|(v1 & U1 & ? & ?)]]; [by left| |].
    + right; left. exists i. by rewrite Hd, Htab.
    + right; right. exists v1. by rewrite Hpu, Hf.
Qed.

(** ** The allocator and an address space *)

Record vinv (k : kmst) (l : list Z) (pgdir : Z) (own : gset Z) : Prop := {
  vi_km : km_inv kend k l;
  vi_sp : space (km_mem k) pgdir own;
  vi_dis : ∀ p, p ∈ own → p ∉ l
}.

(** The pages that a routine may use: those of the address space and the free
    ones. Other memory stays as it is. *)
Definition pool (own : gset Z) (l : list Z) (p : Z) : Prop := p ∈ own ∨ p ∈ l.
Definition outside (P : Z → Prop) (m m' : mem) : Prop :=
  ∀ x, (∀ p, P p → ¬ (p <= x < p + 4096)) → m' x = m x.
(** The frames that were mapped keep their contents. *)
Definition frames_same (pgdir : Z) (m m' : mem) : Prop :=
  ∀ va x, upage va → present (pte m pgdir va) = true →
    frame m pgdir va <= x < frame m pgdir va + 4096 → m' x = m x.

Lemma linked_agree m m' a l :
  (∀ p x, p ∈ l → p <= x < p + 4096 → m' x = m x) → linked m a l → linked m' a l.
Proof.
  revert a. induction l as [|p l IH]; intros a H; [done|]. intros [-> Hl]. split; [done|].
  rewrite (load32_ext m m') by (intros x Hx; apply (H p); [by left|lia]).
  apply IH; [|done]. intros q x Hq. apply H. by right.
Qed.

Lemma km_inv_mem k l m' :
  km_inv kend k l → mem_ok m' → (∀ p x, p ∈ l → p <= x < p + 4096 → m' x = km_mem k x) →
  km_inv kend (KmSt m' (use_lock k) (freelist k)) l.
Proof. intros [H1 H2 H3 H4] Hm Ha. split; simpl; try done. by eapply linked_agree. Qed.

(** kalloc, with the free list known. *)
Lemma kalloc_step k l :
  km_inv kend k l →
  match l with
  | [] => kalloc k = Ok 0 k
  | p :: l => ∃ k', kalloc k = Ok p k' ∧ p ≠ 0 ∧ page p ∧ (p ∉ l) ∧ km_inv kend k' l ∧ km_mem k' = km_mem k
  end.
Proof.
  intros [Hm Hnd Hp Hl]. pose proof (linked_cons _ _ _ _ Hp Hl) as Hc. unfold kalloc. run.
  destruct l as [|p l]; simpl in *.
  - rewrite Hc. by destruct k; simpl in *; subst.
  - destruct Hc as (-> & Hz & Hlk). rewrite (proj2 (Z.eqb_neq p 0)) by done. simpl. run.
    apply NoDup_cons in Hnd as [Hpl Hnd]. apply Forall_cons in Hp as [Hpp Hp].
    eexists. split; [done|]. by split_and!.
Qed.

Lemma on_mem_run {A} f (c : unit → M kmst A) k :
  (on_mem f ≫= c) k = c tt (KmSt (f (km_mem k)) (use_lock k) (freelist k)).
Proof. done. Qed.

(** A write to pages of the address space. *)
Lemma vinv_mem k l pgdir own own' m' :
  vinv k l pgdir own → mem_ok m' → space m' pgdir own' → (∀ p, p ∈ own' → p ∉ l) →
  (∀ p x, p ∈ l → p <= x < p + 4096 → m' x = km_mem k x) →
  vinv (KmSt m' (use_lock k) (freelist k)) l pgdir own'.
Proof. intros [Hk Hs Hd] Hm Hs' Hd' Ha. split; [by apply km_inv_mem|done|done]. Qed.

Lemma free_page k l p : km_inv kend k l → p ∈ l → page p.
Proof. intros Hk Hp. pose proof (km_pages _ _ _ Hk) as H. rewrite Forall_forall in H. by apply H. Qed.

(** ** walkpgdir *)

Definition slot (m : mem) (pgdir va : Z) : Z := tab m pgdir (PDX va) + 4 * PTX va.

Lemma slot_nonzero m pgdir own va :
  space m pgdir own → present (pde m pgdir (PDX va)) = true → slot m pgdir va ≠ 0.
Proof.
  intros Hs Hp. destruct (sp_tab _ _ _ Hs _ (PDX_range va) Hp) as (Ht & _ & _).
  destruct (page_bounds _ Ht) as (? & ? & ? & ? & ?). pose proof (PTX_range va). unfold slot. lia.
Qed.

Lemma walk_present pgdir va alloc k :
  present (pde (km_mem k) pgdir (PDX va)) = true →
  walkpgdir pgdir va alloc k = Ok (slot (km_mem k) pgdir va) k.
Proof. intros Hp. unfold walkpgdir, rd32. run. unfold present in Hp. fold (pde (km_mem k) pgdir (PDX va)). by rewrite Hp. Qed.

Lemma walk_absent pgdir va k :
  present (pde (km_mem k) pgdir (PDX va)) = false → walkpgdir pgdir va false k = Ok 0 k.
Proof. intros Hp. unfold walkpgdir, rd32. run. unfold present in Hp. fold (pde (km_mem k) pgdir (PDX va)). by rewrite Hp. Qed.

(** What a routine does to an address space whose mappings stay: it may take free
    pages for new tables. *)
Record grows (pgdir : Z) k l own k' l' own' : Prop := {
  gr_inv : vinv k' l' pgdir own';
  gr_own : ∀ p, p ∈ own → p ∈ own';
  gr_pool : ∀ p, pool own' l' p ↔ pool own l p;
  gr_free : ∀ p, p ∈ l' → p ∈ l;
  gr_pte : ∀ va, pte (km_mem k') pgdir va = pte (km_mem k) pgdir va;
  gr_out : outside (λ p, p = pgdir ∨ p ∈ l) (km_mem k) (km_mem k')
}.

Lemma grows_refl pgdir k l own : vinv k l pgdir own → grows pgdir k l own k l own.
Proof. intros H. by split. Qed.

Lemma outside_page (P : Z → Prop) m m' q x :
  (∀ p, P p → page p) → outside P m m' → page q → ¬ P q → q <= x < q + 4096 → m' x = m x.
Proof.
  intros HP Ho Hq Hn Hx. apply Ho. intros p Hp Hxp. destruct (decide (p = q)) as [->|Hne]; [done|].
  by destruct (is_page_apart p q x x (HP p Hp) Hq Hne Hxp Hx).
Qed.

Lemma walk_alloc k l pgdir own va :
  vinv k l pgdir own →
  (l = [] ∧ present (pde (km_mem k) pgdir (PDX va)) = false ∧ walkpgdir pgdir va true k = Ok 0 k) ∨
  ∃ k' l' own', walkpgdir pgdir va true k = Ok (slot (km_mem k') pgdir va) k' ∧
    present (pde (km_mem k') pgdir (PDX va)) = true ∧ grows pgdir k l own k' l' own'.
Proof.
  intros Hv. pose proof Hv as [Hk Hs Hd]. pose proof (PDX_range va) as Hi.
  destruct (present (pde (km_mem k) pgdir (PDX va))) eqn:Hp.
  { right. exists k, l, own. split; [by apply walk_present|]. split; [done|by apply grows_refl]. }
  unfold walkpgdir, rd32. run. fold (pde (km_mem k) pgdir (PDX va)). unfold present in Hp. rewrite Hp. cbn [negb].
  pose proof (kalloc_step k l Hk) as Ha. destruct l as [|p l].
  { left. split_and!; [done|done|]. by rewrite (bind_run _ _ _ _ _ Ha). }
  right. destruct Ha as (k1 & H1 & Hp0 & Hpp & Hpl & Hk1 & Hm1). rewrite (bind_run _ _ _ _ _ H1).
  rewrite (proj2 (Z.eqb_neq p 0)) by done. rewrite !on_mem_run. cbn [km_mem use_lock freelist].
  assert (Z.lor (Z.lor (Z.lor (V2P p) PTE_P) PTE_W) PTE_U = V2P p + 7) as ->.
  { rewrite <-!Z.lor_assoc. change (Z.lor PTE_P (Z.lor PTE_W PTE_U)) with 7.
    apply lor_page; [lia|]. by apply V2P_page. }
  assert (p ∉ own) as Hpo by (intros Hin; by destruct (Hd p Hin); left).
  unfold wr32. rewrite on_mem_run. cbn [km_mem use_lock freelist]. rewrite Hm1.
  destruct (set_pde (km_mem k) pgdir own va p Hs Hp Hpp Hpo (km_ok _ _ _ Hk)) as (Hs' & Hpte & Htab & Hpr & Hout & _).
  set (m' := store32 _ _ _) in *.
  exists (KmSt m' (use_lock k1) (freelist k1)), l, ({[p]} ∪ own). cbn [km_mem]. unfold slot. rewrite Htab.
  assert (∀ q x, page q → q ≠ p → q ≠ pgdir → q <= x < q + 4096 → m' x = km_mem k x) as Hoq.
  { intros q x Hq H2 H3 Hx. apply Hout; intros Hxp.
    - by destruct (is_page_apart p q x x Hpp Hq (not_eq_sym H2) Hxp Hx).
    - by destruct (is_page_apart pgdir q x x (proj1 (sp_dir _ _ _ Hs)) Hq (not_eq_sym H3) Hxp Hx). }
  split; [done|]. split; [done|]. split.
  - apply (vinv_mem k1 l pgdir own); [split; [done|by rewrite Hm1|]| |done| |].
    + intros q Hq Hql. apply (Hd q Hq). by right.
    + apply store32_ok. intros x. rewrite KernelSpec.memset_eq by done. case_decide; [apply u8_range|apply Hk].
    + intros q [->%elem_of_singleton|Hq]%elem_of_union; [done|]. intros Hql. apply (Hd q Hq). by right.
    + intros q x Hq Hx. rewrite Hm1. apply (Hoq q); [by eapply free_page|congruence| |done].
      intros ->. destruct (sp_dir _ _ _ Hs) as [_ Hdo]. apply (Hd pgdir Hdo). by right.
  - intros q Hq. by apply elem_of_union_r.
  - intros q. unfold pool. rewrite elem_of_union, elem_of_singleton, elem_of_cons. tauto.
  - intros q Hq. by right.
  - done.
  - intros x Hx. cbn [km_mem]. apply Hout; [apply (Hx p); right; by left|apply (Hx pgdir); by left].
Qed.

(** ** mappages, one page at a time *)

Lemma map_core fuel k l pgdir own va last pa f :
  vinv k l pgdir own → present (pte (km_mem k) pgdir va) = false →
  (l = [] ∧ present (pde (km_mem k) pgdir (PDX va)) = false ∧
   mappages_loop (S fuel) pgdir va last pa f k = Ok (-1) k) ∨
  ∃ k1 l1 own1, grows pgdir k l own k1 l1 own1 ∧ present (pde (km_mem k1) pgdir (PDX va)) = true ∧
    mappages_loop (S fuel) pgdir va last pa f k =
      (if va =? last then mret 0 else mappages_loop fuel pgdir (u32 (va + PGSIZE)) last (u32 (pa + PGSIZE)) f)
      (KmSt (store32 (km_mem k1) (slot (km_mem k1) pgdir va) (Z.lor (Z.lor pa f) PTE_P)) (use_lock k1) (freelist k1)).
Proof.
  intros Hv Hnp. cbn [mappages_loop].
  destruct (walk_alloc k l pgdir own va Hv) as [(-> & Hp & H)|(k1 & l1 & own1 & H & Hp & Hg)].
  - left. split_and!; [done|done|]. by rewrite (bind_run _ _ _ _ _ H).
  - right. exists k1, l1, own1. split; [done|]. split; [done|]. rewrite (bind_run _ _ _ _ _ H).
    rewrite (proj2 (Z.eqb_neq _ _)) by (eapply slot_nonzero; [apply Hg|done]).
    unfold rd32. run.
    assert (load32 (km_mem k1) (slot (km_mem k1) pgdir va) = pte (km_mem k1) pgdir va) as ->
      by (unfold pte; by rewrite Hp).
    rewrite (gr_pte _ _ _ _ _ _ _ Hg). unfold present in Hnp. rewrite run_panic_if by done.
    unfold wr32. rewrite on_mem_run. reflexivity.
Qed.

(** The state after a change of a PTE, as seen from before: which pages may have
    changed. *)
Record changes (pgdir : Z) k l own k' l' own' : Prop := {
  ch_inv : vinv k' l' pgdir own';
  ch_free : ∀ p, p ∈ l' → p ∈ l;
  ch_mem : ∀ z x, page z → ¬ skel (km_mem k') pgdir z → (z ∉ l) → z <= x < z + 4096 → km_mem k' x = km_mem k x;
  ch_out : outside (pool own l) (km_mem k) (km_mem k')
}.

(** The store of mappages: [v] is put in the PTE of [va], whose table exists. *)
Lemma grows_store k l pgdir own k1 l1 own1 own2 va v :
  grows pgdir k l own k1 l1 own1 → present (pde (km_mem k1) pgdir (PDX va)) = true → is_u32 v →
  let m2 := store32 (km_mem k1) (slot (km_mem k1) pgdir va) v in
  space m2 pgdir own2 → (∀ p, p ∈ own2 → p ∉ l1) →
  changes pgdir k l own (KmSt m2 (use_lock k1) (freelist k1)) l1 own2 ∧
  (∀ va', pte m2 pgdir va' = if decide (same_page va va') then v else pte (km_mem k) pgdir va').
Proof.
  intros [Hv1 Ho Hpool Hf Hpte Hout] Hp Hu m2 Hs2 Hd2. pose proof Hv1 as [Hk1 Hs1 Hd1].
  destruct (set_pte (km_mem k1) pgdir own1 va v Hs1 Hp Hu) as (Hd & Hp2 & Hm2).
  destruct (sp_tab _ _ _ Hs1 _ (PDX_range va) Hp) as (Ht & Hto & _).
  assert (∀ z x, page z → z ≠ tab (km_mem k1) pgdir (PDX va) → z <= x < z + 4096 → m2 x = km_mem k1 x) as Hz.
  { intros z x Hz Hne Hx. apply Hm2. intros Hxt. by destruct (is_page_apart _ _ x x Ht Hz (not_eq_sym Hne) Hxt Hx). }
  split; [split|].
  - apply (vinv_mem k1 l1 pgdir own1); [done|by apply store32_ok, Hk1|done|done|].
    intros p x Hpl Hx. apply (Hz p); [by eapply free_page|intros ->; by apply (Hd1 _ Hto)|done].
  - done.
  - cbn [km_mem]. intros z x Hzp Hns Hzl Hx. assert (tab m2 pgdir (PDX va) = tab (km_mem k1) pgdir (PDX va)) as Ht2.
    { unfold tab. rewrite Hd by apply PDX_range. done. }
    rewrite (Hz z); [|done| |done].
    + eapply (outside_page (λ p, p = pgdir ∨ p ∈ l)); [|exact Hout|exact Hzp| |exact Hx].
      * intros p [->|Hpl]; [apply (sp_dir _ _ _ Hs1)|].
        destruct (proj2 (Hpool p) (or_intror Hpl)) as [Hpo|Hpl1]; [|by eapply free_page].
        destruct (sp_own _ _ _ Hs1 p Hpo) as [->|[(i & Hi & Hpi & ->)|(v1 & U1 & P1 & ->)]].
        -- apply (sp_dir _ _ _ Hs1). -- by apply (sp_tab _ _ _ Hs1). -- by apply (sp_frame _ _ _ Hs1).
      * intros [->|?]; [|done]. apply Hns. by left.
    + intros ->. apply Hns. right. exists (PDX va). split; [apply PDX_range|]. split; [|done].
      unfold m2. by rewrite Hd by apply PDX_range.
  - cbn [km_mem]. intros x Hx. rewrite Hm2.
    + apply Hout. intros p [->|Hpl]; apply Hx; [|by right]. apply Hpool. left. apply (sp_dir _ _ _ Hs1).
    + apply Hx. apply Hpool. by left.
  - intros va'. unfold m2, slot. rewrite Hp2. by rewrite Hpte.
Qed.

Lemma pte_value q f : page q → 0 <= f < 4096 →
  Z.lor (Z.lor (V2P q) f) PTE_P = V2P q + Z.lor f 1 ∧ 0 <= Z.lor f 1 < 4096 ∧ present (V2P q + Z.lor f 1) = true.
Proof.
  intros Hq Hf. destruct (V2P_page q Hq) as (_ & H0 & _).
  assert (0 <= Z.lor f 1 < 4096) as Hl.
  { split; [apply Z.lor_nonneg; lia|]. change 4096 with (2 ^ 12).
    destruct (Z.eq_dec (Z.lor f 1) 0) as [->|Hne]; [done|].
    apply Z.log2_lt_pow2; [pose proof (Z.lor_nonneg f 1); lia|]. rewrite Z.log2_lor by lia.
    apply Z.max_lub_lt; [|done]. destruct (Z.eq_dec f 0) as [->|]; [done|]. apply Z.log2_lt_pow2; [lia|]. change (2 ^ 12) with 4096. lia. }
  split_and!; [|lia|lia|].
  - rewrite <-Z.lor_assoc. by apply lor_page.
  - rewrite present_odd, Z.odd_add.
    assert (Z.odd (V2P q) = false) as ->.
    { rewrite <-Z.negb_even. apply negb_false_iff, Z.even_spec. exists (V2P q / 2).
      Z.to_euclidean_division_equations; lia. }
    rewrite <-Z.bit0_odd, Z.lor_spec. change (Z.testbit 1 0) with true. by rewrite orb_true_r.
Qed.

(** A user page mapped to a page that nobody uses. *)
Lemma map_user fuel k l pgdir own va last q f :
  vinv k l pgdir own → upage va → present (pte (km_mem k) pgdir va) = false →
  page q → q ∉ own → q ∉ l → 0 <= f < 4096 →
  (l = [] ∧ mappages_loop (S fuel) pgdir va last (V2P q) f k = Ok (-1) k) ∨
  ∃ k' l' own', changes pgdir k l own k' l' ({[q]} ∪ own') ∧
    (∀ p, p ∈ own → p ∈ own') ∧ (∀ p, pool own' l' p ↔ pool own l p) ∧
    (∀ va', vpage va' → pte (km_mem k') pgdir va' = if decide (va' = va) then V2P q + Z.lor f 1 else pte (km_mem k) pgdir va') ∧
    mappages_loop (S fuel) pgdir va last (V2P q) f k =
      (if va =? last then mret 0 else mappages_loop fuel pgdir (u32 (va + PGSIZE)) last (u32 (V2P q + PGSIZE)) f) k'.
Proof.
  intros Hv Hva Hnp Hq Hqo Hql Hf. destruct (pte_value q f Hq Hf) as (Ev & Hfl & Hpv).
  destruct (pte_frame q (Z.lor f 1) Hq Hfl) as (Hfr & _ & Hu & _).
  destruct (map_core fuel k l pgdir own va last (V2P q) f Hv Hnp) as [(-> & _ & H)|(k1 & l1 & own1 & Hg & Hp & H)];
    [by left|right]. rewrite Ev in H.
  assert (q ∉ own1) as Hq1.
  { intros Hin. destruct (proj1 (gr_pool _ _ _ _ _ _ _ Hg q) (or_introl Hin)); done. }
  assert (q ∉ l1) as Hql1 by (intros Hin; by apply Hql, (gr_free _ _ _ _ _ _ _ Hg)).
  pose proof (gr_inv _ _ _ _ _ _ _ Hg) as Hv1.
  assert (present (pte (km_mem k1) pgdir va) = false) as Hnp1 by (by rewrite (gr_pte _ _ _ _ _ _ _ Hg)).
  pose proof (space_map (km_mem k1) pgdir own1 va _ q (vi_sp _ _ _ _ Hv1) Hva Hp Hnp1 Hq Hq1 Hu Hfr Hpv) as Hs2.
  destruct (grows_store k l pgdir own k1 l1 own1 ({[q]} ∪ own1) va _ Hg Hp Hu Hs2) as [Hc Hpte].
  { intros p [->%elem_of_singleton|Hin]%elem_of_union; [done|]. by apply (vi_dis _ _ _ _ Hv1). }
  eexists _, l1, own1. split; [exact Hc|]. split; [apply Hg|]. split; [apply Hg|]. split; [|exact H].
  intros va' Hva'. cbn [km_mem]. rewrite Hpte. pose proof (same_page_vpage va va' (upage_vpage _ Hva) Hva').
  repeat case_decide; tauto.
Qed.

(** ** deallocuvm *)

(** The user pages of [lo, hi) are unmapped, their frames free again; nothing else
    of the address space changes. *)
Record unmaps (pgdir lo hi : Z) k l own k' l' own' : Prop := {
  um_inv : vinv k' l' pgdir own';
  um_own : ∀ p, p ∈ own' → p ∈ own;
  um_pool : ∀ p, pool own' l' p ↔ pool own l p;
  um_pde : ∀ i, 0 <= i < 1024 → pde (km_mem k') pgdir i = pde (km_mem k) pgdir i;
  um_in : ∀ va, upage va → lo <= va < hi → present (pte (km_mem k') pgdir va) = false;
  um_pte : ∀ va, upage va → (lo <= va < hi → present (pte (km_mem k) pgdir va) = false) →
    pte (km_mem k') pgdir va = pte (km_mem k) pgdir va;
  um_frames : frames_same pgdir (km_mem k') (km_mem k);
  um_out : outside (pool own l) (km_mem k) (km_mem k')
}.

Lemma unmaps_refl pgdir lo hi k l own :
  vinv k l pgdir own → (∀ va, upage va → lo <= va < hi → present (pte (km_mem k) pgdir va) = false) →
  unmaps pgdir lo hi k l own k l own.
Proof. intros H Hn. by split. Qed.

Lemma unmaps_same pgdir lo hi k l own k' l' own' va :
  unmaps pgdir lo hi k l own k' l' own' → upage va → present (pte (km_mem k') pgdir va) = true →
  pte (km_mem k') pgdir va = pte (km_mem k) pgdir va ∧ ¬ (lo <= va < hi).
Proof.
  intros H Hu Hp. assert (¬ lo <= va < hi) as Hn.
  { intros Hr. by rewrite (um_in _ _ _ _ _ _ _ _ _ H va Hu Hr) in Hp. }
  split; [|done]. by apply (um_pte _ _ _ _ _ _ _ _ _ H).
Qed.

Lemma unmaps_trans pgdir lo mid hi k l own k1 l1 own1 k2 l2 own2 :
  lo <= mid → (∀ va, upage va → lo <= va < mid → va < hi) →
  unmaps pgdir lo mid k l own k1 l1 own1 → unmaps pgdir mid hi k1 l1 own1 k2 l2 own2 →
  unmaps pgdir lo hi k l own k2 l2 own2.
Proof.
  intros Hlo Hmid HA HB. pose proof HA as [A1 A2 A3 A4 A5 A6 A7 A8]. pose proof HB as [B1 B2 B3 B4 B5 B6 B7 B8].
  split; [done|auto| | | | | |].
  - intros p. by rewrite B3, A3.
  - intros i Hi. by rewrite B4, A4.
  - intros va Hu Hva. destruct (Z.lt_ge_cases va mid); [|apply B5; [done|lia]].
    rewrite B6 by (done || lia). apply A5; [done|lia].
  - intros va Hu Hn. assert (pte (km_mem k1) pgdir va = pte (km_mem k) pgdir va) as E.
    { apply A6; [done|]. intros Hr. apply Hn. split; [lia|]. by apply Hmid. }
    rewrite <-E. apply B6; [done|]. intros Hr. rewrite E. apply Hn. lia.
  - intros va x Hu Hp Hx. destruct (unmaps_same _ _ _ _ _ _ _ _ _ va HB Hu Hp) as [E _].
    rewrite (A7 va); [by rewrite (B7 va)|done|by rewrite <-E|]. unfold frame in *. by rewrite <-E.
  - intros x Hx. rewrite B8; [by apply A8|]. intros p Hp. by apply Hx, A3.
Qed.

(** One mapped page. *)
Lemma unmap_one k l pgdir own va :
  KERNBASE < kend → vinv k l pgdir own → upage va → present (pte (km_mem k) pgdir va) = true →
  ∃ k1, walkpgdir pgdir va false k = Ok (slot (km_mem k) pgdir va) k ∧
    (PTE_ADDR (pte (km_mem k) pgdir va) =? 0) = false ∧
    slot (km_mem k) pgdir va ≠ 0 ∧
    load32 (km_mem k) (slot (km_mem k) pgdir va) = pte (km_mem k) pgdir va ∧
    kfree kend (frame (km_mem k) pgdir va) k = Ok tt k1 ∧
    let f := frame (km_mem k) pgdir va in
    let k2 := KmSt (store32 (km_mem k1) (slot (km_mem k) pgdir va) 0) (use_lock k1) (freelist k1) in
    unmaps pgdir va (va + 4096) k l own k2 (f :: l) (own ∖ {[f]}).
Proof.
  intros Hkend Hv Hu Hp. pose proof Hv as [Hk Hs Hd].
  assert (present (pde (km_mem k) pgdir (PDX va)) = true) as Hpd.
  { unfold pte in Hp. by destruct (present (pde _ _ _)). }
  destruct (sp_frame _ _ _ Hs va Hu Hp) as (F1 & F2 & F3 & F4).
  set (f := frame (km_mem k) pgdir va) in *.
  destruct (kfree_run kend k l f Hk F1 (Hd f F2)) as (k1 & Hf & Hk1 & Hout & _).
  assert (skel_same pgdir (km_mem k) (km_mem k1)) as Hsk.
  { intros p x Hps Hx. apply Hout. intros Hxf. destruct (skel_own _ _ _ _ Hs Hps) as [_ Hpp].
    destruct (is_page_apart f p x x F1 Hpp); [|done..]. intros E. subst p.
    by apply (frame_not_skel _ _ _ _ Hs Hu Hp). }
  exists k1. split; [by apply walk_present|]. split.
  { apply Z.eqb_neq. intros E. destruct F1 as (_ & F1 & _). unfold f, frame in F1. rewrite E in F1.
    change (P2V 0) with KERNBASE in F1. lia. }
  split; [by eapply slot_nonzero|]. split; [unfold pte; by rewrite Hpd|]. split; [done|]. cbv zeta.
  pose proof (skel_space own _ _ pgdir Hsk Hs) as Hs1.
  assert (slot (km_mem k) pgdir va = slot (km_mem k1) pgdir va) as Esl.
  { unfold slot, tab. by rewrite (skel_pde _ _ _ _ Hsk) by apply PDX_range. }
  assert (frame (km_mem k1) pgdir va = f) as Ef by (by apply skel_frame).
  rewrite Esl. set (m2 := store32 (km_mem k1) _ 0).
  assert (present (pde (km_mem k1) pgdir (PDX va)) = true) as Hpd1 by (by rewrite (skel_pde _ _ _ _ Hsk (PDX_range va))).
  assert (present (pte (km_mem k1) pgdir va) = true) as Hp1 by (by rewrite (skel_pte _ _ _ _ Hsk)).
  pose proof (space_unmap (km_mem k1) pgdir own va Hs1 Hu Hpd1 Hp1) as Hs2. rewrite Ef in Hs2.
  destruct (set_pte (km_mem k1) pgdir own va 0 Hs1 Hpd1) as (Hd2 & Hpte2 & Hout2); [unfold is_u32; lia|].
  fold (slot (km_mem k1) pgdir va) in Hs2, Hd2, Hpte2, Hout2. fold m2 in Hs2, Hd2, Hpte2, Hout2.
  destruct (sp_tab _ _ _ Hs1 _ (PDX_range va) Hpd1) as (T1 & T2 & T3).
  assert (∀ z x, page z → z ≠ f → z ≠ tab (km_mem k1) pgdir (PDX va) → z <= x < z + 4096 → m2 x = km_mem k x) as Hz.
  { intros z x Hzp Hzf Hzt Hx. rewrite Hout2, Hout; [done|..].
    - intros Hxf. by destruct (is_page_apart f z x x F1 Hzp (not_eq_sym Hzf) Hxf Hx).
    - intros Hxt. by destruct (is_page_apart _ z x x T1 Hzp (not_eq_sym Hzt) Hxt Hx). }
  assert (∀ va', upage va' → pte m2 pgdir va' = if decide (va' = va) then 0 else pte (km_mem k) pgdir va') as Hpte.
  { intros va' Hu'. rewrite Hpte2, (skel_pte _ _ _ _ Hsk). repeat case_decide; try done; subst.
    - exfalso. by apply H0, same_page_upage.
    - exfalso. apply H. by split. }
  split; cbn [km_mem].
  - split; cbn [km_mem]; [|done|].
    + apply km_inv_mem; [done|by apply store32_ok, Hk1|]. intros p x Hpl Hx. apply Hout2. intros Hxt.
      destruct (is_page_apart (tab (km_mem k1) pgdir (PDX va)) p x x T1); [by eapply free_page| |done..].
      intros E. subst p. apply elem_of_cons in Hpl as [E|Hpl]; [|by apply (Hd _ T2)].
      apply (F4 (PDX va)); [apply PDX_range|done|]. rewrite <-E. unfold tab.
      by rewrite (skel_pde _ _ _ _ Hsk) by apply PDX_range.
    + intros p [Hpo Hpf]%elem_of_difference [->|Hpl]%elem_of_cons; [by apply Hpf, elem_of_singleton|by apply (Hd p)].
  - by intros p [Hpo _]%elem_of_difference.
  - intros p. unfold pool. rewrite elem_of_difference, elem_of_singleton, elem_of_cons.
    destruct (decide (p = f)) as [->|]; tauto.
  - intros i Hi. by rewrite Hd2, (skel_pde _ _ _ _ Hsk).
  - intros va' Hu' Hr. rewrite Hpte by done. assert (va' = va) as ->; [|by rewrite decide_True].
    destruct Hu, Hu'. unfold KERNBASE in *. Z.to_euclidean_division_equations; lia.
  - intros va' Hu' Hn. rewrite Hpte by done. case_decide; [|done]. subst. rewrite Hn in Hp; [done|lia].
  - intros va' x Hu' Hpr Hx. unfold frame in Hx. rewrite Hpte in Hpr, Hx by done. case_decide as Hne; [done|].
    fold (frame (km_mem k) pgdir va') in Hx. destruct (sp_frame _ _ _ Hs va' Hu' Hpr) as (G1 & G2 & G3 & G4).
    symmetry. apply (Hz (frame (km_mem k) pgdir va')); [done| | |done].
    + intros E. by apply Hne, (sp_frames _ _ _ Hs).
    + unfold tab. rewrite (skel_pde _ _ _ _ Hsk) by apply PDX_range. apply G4; [apply PDX_range|done].
  - intros x Hx. rewrite Hout2, Hout; [done| |]; apply Hx; by left.
Qed.

(** The routine: from any page on, in as many rounds as there are pages. *)
Lemma PGADDR_next va : 0 <= va < KERNBASE →
  u32 (u32 (PGADDR (PDX va + 1) 0 0 - PGSIZE) + PGSIZE) = (va / 4194304 + 1) * 4194304.
Proof.
  intros Hr. unfold KERNBASE in Hr. assert (PDX va = va / 4194304) as ->.
  { rewrite PDX_eq. Z.to_euclidean_division_equations; lia. }
  unfold PGADDR, PGSIZE. change (Z.shiftl 0 12) with 0. rewrite !Z.lor_0_r, Z.shiftl_mul_pow2 by lia.
  change (2 ^ 22) with 4194304. zmod.
Qed.

Lemma dealloc_loop_run fuel pgdir hi a k l own :
  KERNBASE < kend → vinv k l pgdir own → 0 <= a → a mod 4096 = 0 → hi <= KERNBASE →
  Z.max 0 (hi - a) + 4096 <= 4096 * Z.of_nat fuel →
  ∃ k' l' own', deallocuvm_loop kend fuel pgdir hi a k = Ok tt k' ∧ unmaps pgdir a hi k l own k' l' own'.
Proof.
  intros Hkend. revert a k l own. induction fuel as [|fuel IH]; intros a k l own Hv Ha0 Ha Hhi Hf.
  { lia. }
  cbn [deallocuvm_loop]. destruct (Z.ltb_spec a hi) as [Hlt|Hge].
  2: { exists k, l, own. split; [done|]. apply unmaps_refl; [done|lia]. }
  assert (upage a) as Hu by (unfold upage; lia).
  assert (u32 (a + PGSIZE) = a + 4096) as Ea.
  { unfold PGSIZE, KERNBASE in *. apply u32_small. unfold is_u32. lia. }
  assert (∀ va, upage va → a <= va < a + 4096 → va = a) as Honly.
  { intros va [_ Hv1] Hr. Z.to_euclidean_division_equations; lia. }
  destruct (present (pde (km_mem k) pgdir (PDX a))) eqn:Hpd.
  - rewrite (bind_run _ _ _ _ _ (walk_present pgdir a false k Hpd)).
    rewrite (proj2 (Z.eqb_neq _ _)) by (eapply slot_nonzero; [apply Hv|done]).
    unfold rd32. run.
    assert (load32 (km_mem k) (slot (km_mem k) pgdir a) = pte (km_mem k) pgdir a) as ->
      by (unfold pte; by rewrite Hpd).
    fold (present (pte (km_mem k) pgdir a)). rewrite Ea.
    destruct (present (pte (km_mem k) pgdir a)) eqn:Hp.
    + destruct (unmap_one k l pgdir own a Hkend Hv Hu Hp) as (k1 & _ & Hz & _ & _ & Hfr & H1). cbv zeta in H1.
      rewrite Hz. set (k2 := KmSt _ _ _) in H1.
      destruct (IH (a + 4096) k2 _ _ (um_inv _ _ _ _ _ _ _ _ _ H1)) as (k' & l' & own' & H2 & Hu2);
        [lia|rewrite Z.add_mod, Ha by done; done|done|lia|].
      exists k', l', own'. split.
      * rewrite <-H2. unfold k2. unfold panic_if. run. fold (frame (km_mem k) pgdir a). by rewrite (bind_run _ _ _ _ _ Hfr).
      * eapply unmaps_trans; [|  |exact H1|exact Hu2]; [lia|]. intros va Hva Hr. by rewrite (Honly va).
    + destruct (IH (a + 4096) k l own Hv) as (k' & l' & own' & H2 & Hu2);
        [lia|rewrite Z.add_mod, Ha by done; done|done|lia|].
      exists k', l', own'. run. split; [exact H2|].
      eapply unmaps_trans; [| |apply (unmaps_refl pgdir a (a + 4096)); [exact Hv|]|exact Hu2]; [lia| |].
      * intros va Hva Hr. by rewrite (Honly va).
      * intros va Hva Hr. by rewrite (Honly va).
  - rewrite (bind_run _ _ _ _ _ (walk_absent pgdir a k Hpd)). change (0 =? 0) with true. cbv iota.
    destruct Hu as [Hua _]. rewrite PGADDR_next by done. set (a' := (a / 4194304 + 1) * 4194304).
    assert (a < a' <= a + 4194304 ∧ a' mod 4096 = 0 ∧ a + 4096 <= a') as (Ha' & Hm' & Hle).
    { unfold a'. Z.to_euclidean_division_equations; lia. }
    assert (∀ va, upage va → a <= va < a' → present (pte (km_mem k) pgdir va) = false) as Hno.
    { intros va [Hva _] Hr. assert (PDX va = PDX a) as E.
      { rewrite !PDX_eq. f_equal. unfold a' in Hr. Z.to_euclidean_division_equations; lia. }
      unfold pte. by rewrite E, Hpd. }
    destruct (IH a' k l own Hv) as (k' & l' & own' & H2 & Hu2); [lia|done|done|lia|].
    exists k', l', own'. split; [exact H2|].
    (* the pages of the absent table are not mapped *)
    split; try apply Hu2.
    + intros va Hva Hr. destruct (Z.lt_ge_cases va a'); [|apply (um_in _ _ _ _ _ _ _ _ _ Hu2); [done|lia]].
      rewrite (um_pte _ _ _ _ _ _ _ _ _ Hu2) by (done || lia). apply Hno; [done|lia].
    + intros va Hva Hn. apply (um_pte _ _ _ _ _ _ _ _ _ Hu2); [done|]. intros Hr. apply Hn. lia.
Qed.

Lemma npages_S : npages = S (Z.to_nat 1048576).
Proof. unfold npages. lia. Qed.

Lemma PGROUNDUP_user x : 0 <= x <= KERNBASE →
  PGROUNDUP x mod 4096 = 0 ∧ x <= PGROUNDUP x < x + 4096 ∧ PGROUNDUP x <= KERNBASE.
Proof.
  intros Hx. unfold KERNBASE in *. rewrite PGROUNDUP_eq by lia. rewrite Z.mod_mul by done.
  Z.to_euclidean_division_equations; lia.
Qed.

Lemma deallocuvm_run pgdir oldsz newsz k l own :
  KERNBASE < kend → vinv k l pgdir own → 0 <= newsz < oldsz → oldsz <= KERNBASE →
  ∃ k' l' own', deallocuvm kend pgdir oldsz newsz k = Ok newsz k' ∧
    unmaps pgdir (PGROUNDUP newsz) oldsz k l own k' l' own'.
Proof.
  intros Hkend Hv Hn Ho. destruct (PGROUNDUP_user newsz) as (Hm & Hr & _); [lia|].
  destruct (dealloc_loop_run npages pgdir oldsz (PGROUNDUP newsz) k l own) as (k' & l' & own' & H & Hu);
    [done|done|lia|done|done|unfold npages, KERNBASE in *; lia|].
  exists k', l', own'. split; [|done]. unfold deallocuvm.
  rewrite (proj2 (Z.leb_gt _ _)) by lia. by rewrite (bind_run _ _ _ _ _ H).
Qed.

(** Shrinking an address space: deallocuvm succeeds on every address space,
    returns the new size, and afterwards no page between the rounded-up new size
    and the old one is mapped, while every other user page has the PTE and the
    contents it had; the frames are free again and no page is lost. When the
    size does not shrink, nothing happens. *)
Theorem deallocuvm_correct pgdir oldsz newsz k l own :
  KERNBASE < kend → vinv k l pgdir own → 0 <= newsz → 0 <= oldsz <= KERNBASE →
  (oldsz <= newsz → deallocuvm kend pgdir oldsz newsz k = Ok oldsz k) ∧
  (newsz < oldsz → ∃ k' l' own', deallocuvm kend pgdir oldsz newsz k = Ok newsz k' ∧
     vinv k' l' pgdir own' ∧ (∀ p, p ∈ own' ∨ p ∈ l' ↔ p ∈ own ∨ p ∈ l) ∧
     (∀ va, upage va → PGROUNDUP newsz <= va < oldsz → present (pte (km_mem k') pgdir va) = false) ∧
     (∀ va, upage va → ¬ (PGROUNDUP newsz <= va < oldsz) →
        pte (km_mem k') pgdir va = pte (km_mem k) pgdir va ∧
        (present (pte (km_mem k) pgdir va) = true → ∀ x, frame (km_mem k) pgdir va <= x < frame (km_mem k) pgdir va + 4096 →
           km_mem k' x = km_mem k x))).
Proof.
  intros Hkend Hv Hn Ho. split; intros Hlt.
  - unfold deallocuvm. by rewrite (proj2 (Z.leb_le _ _)).
  - destruct (deallocuvm_run pgdir oldsz newsz k l own) as (k' & l' & own' & H & Hu); [done|done|lia|lia|].
    exists k', l', own'. split; [done|]. split; [apply Hu|]. split; [apply Hu|]. split; [apply Hu|].
    intros va Hva Hr. assert (pte (km_mem k') pgdir va = pte (km_mem k) pgdir va) as E.
    { apply (um_pte _ _ _ _ _ _ _ _ _ Hu); [done|]. intros Hin. by destruct Hr. }
    split; [done|]. intros Hp x Hx. symmetry. apply (um_frames _ _ _ _ _ _ _ _ _ Hu va); [done|by rewrite E|].
    unfold frame. by rewrite E.
Qed.

(** ** freevm *)

(** The tables are freed one by one; the directory keeps its entries. *)
Lemma free_tables pgdir own k l :
  vinv k l pgdir own →
  ∃ k' l', for_each (seqZ 0 NPDENTRIES) (λ i,
      rd32 (pgdir + 4 * i) ≫= λ d,
      if negb (Z.land d PTE_P =? 0) then kfree kend (P2V (PTE_ADDR d)) else mret tt) k = Ok tt k' ∧
    km_inv kend k' l' ∧
    (∀ p, p ∈ l' ↔ p ∈ l ∨ ∃ i, 0 <= i < 1024 ∧ present (pde (km_mem k) pgdir i) = true ∧ p = tab (km_mem k) pgdir i) ∧
    outside (λ p, skel (km_mem k) pgdir p ∧ p ≠ pgdir) (km_mem k) (km_mem k').
Proof.
  intros Hv. pose proof Hv as [Hk Hs Hd].
  set (freed := λ n p, ∃ i, 0 <= i < n ∧ present (pde (km_mem k) pgdir i) = true ∧ p = tab (km_mem k) pgdir i).
  set (I := λ (js : list Z) (k1 : kmst), ∃ n l1, 0 <= n <= 1024 ∧ js = seqZ n (1024 - n) ∧ km_inv kend k1 l1 ∧
    (∀ p, p ∈ l1 ↔ p ∈ l ∨ freed n p) ∧
    outside (λ p, skel (km_mem k) pgdir p ∧ p ≠ pgdir) (km_mem k) (km_mem k1)).
  destruct (for_each_inv I (seqZ 0 NPDENTRIES) (λ i,
      rd32 (pgdir + 4 * i) ≫= λ d,
      if negb (Z.land d PTE_P =? 0) then kfree kend (P2V (PTE_ADDR d)) else mret tt) k) as (k' & H & n & l1 & Hn & Hnil & Hk' & Hl & Ho).
  - exists 0, l. split; [lia|]. split; [done|]. split; [done|]. split; [|done].
    intros p. split; [by left|]. intros [?|(i & Hi & _)]; [done|lia].
  - intros i js k1 (n & l1 & Hn & His & Hk1 & Hl & Ho). assert (n < 1024) as Hn1.
    { destruct (Z.lt_ge_cases n 1024); [done|]. rewrite seqZ_nil in His by lia. done. }
    rewrite seqZ_cons in His by lia. injection His as -> ->.
    assert (load32 (km_mem k1) (pgdir + 4 * n) = pde (km_mem k) pgdir n) as E.
    { apply load32_ext. intros x Hx. apply Ho. intros p [Hps Hpd] Hxp.
      destruct (skel_own _ _ _ _ Hs Hps) as [_ Hpp].
      destruct (is_page_apart p pgdir x x Hpp (proj1 (sp_dir _ _ _ Hs)) Hpd Hxp); [lia|done]. }
    unfold rd32. run. rewrite E. fold (present (pde (km_mem k) pgdir n)).
    assert (∀ p, freed (Z.succ n) p ↔ freed n p ∨ present (pde (km_mem k) pgdir n) = true ∧ p = tab (km_mem k) pgdir n) as Hfr.
    { intros p. split.
      - intros (i & Hi & Hp & ->). destruct (decide (i = n)) as [->|]; [by right|]. left. exists i. split; [lia|done].
      - intros [(i & Hi & Hp & ->)|[Hp ->]]; [exists i; split; [lia|done]|exists n; split; [lia|done]]. }
    destruct (present (pde (km_mem k) pgdir n)) eqn:Hp.
    + destruct (sp_tab _ _ _ Hs n) as (T1 & T2 & T3); [lia|done|].
      assert (tab (km_mem k) pgdir n ∉ l1) as Hnot.
      { rewrite Hl. intros [?|(j & Hj & Hpj & Et)]; [by apply (Hd _ T2)|].
        apply (sp_tabs _ _ _ Hs) in Et; [lia..|done|done]. }
      destruct (kfree_run kend k1 l1 _ Hk1 T1 Hnot) as (k2 & H2 & Hk2 & Ho2 & _).
      exists k2. split; [exact H2|]. exists (Z.succ n), (tab (km_mem k) pgdir n :: l1).
      split; [lia|]. split; [f_equal; lia|]. split; [done|]. split.
      * intros p. rewrite elem_of_cons, Hl, Hfr. naive_solver.
      * intros x Hx. rewrite Ho2; [by apply Ho|]. apply (Hx (tab (km_mem k) pgdir n)).
        split; [right; exists n; split; [lia|done]|done].
    + exists k1. split; [done|]. exists (Z.succ n), l1. split; [lia|]. split; [f_equal; lia|]. split; [done|].
      split; [|done]. intros p. rewrite Hl, Hfr. naive_solver.
  - exists k', l1. split; [exact H|]. split; [done|]. split; [|done]. assert (n = 1024) as ->.
    { destruct (Z.lt_ge_cases n 1024); [|lia]. rewrite seqZ_cons in Hnil by lia. done. }
    exact Hl.
Qed.

(** Destroying an address space: freevm of the directory of an address space
    gives every page it owns - the frames of its user pages, its tables and the
    directory - back to the allocator, each once, and touches no other memory. *)
Theorem freevm_correct pgdir k l own :
  KERNBASE < kend → vinv k l pgdir own →
  ∃ k' l', freevm kend pgdir k = Ok tt k' ∧ km_inv kend k' l' ∧
    (∀ p, p ∈ l' ↔ p ∈ own ∨ p ∈ l) ∧
    (∀ x, (∀ p, p ∈ own ∨ p ∈ l → ¬ (p <= x < p + 4096)) → km_mem k' x = km_mem k x).
Proof.
  intros Hkend Hv. pose proof (sp_dir _ _ _ (vi_sp _ _ _ _ Hv)) as [Hdp Hdo].
  destruct (deallocuvm_run pgdir KERNBASE 0 k l own Hkend Hv) as (k1 & l1 & own1 & H1 & Hu); [unfold KERNBASE; lia|lia|].
  pose proof (um_inv _ _ _ _ _ _ _ _ _ Hu) as Hv1. pose proof (um_pool _ _ _ _ _ _ _ _ _ Hu) as Hpool.
  pose proof (vi_sp _ _ _ _ Hv1) as Hs1.
  destruct (free_tables pgdir own1 k1 l1 Hv1) as (k2 & l2 & H2 & Hk2 & Hl2 & Ho2).
  assert (pgdir ∈ own1) as Hd1 by apply Hs1.
  assert (pgdir ∉ l2) as Hn2.
  { rewrite Hl2. intros [Hin|(i & Hi & Hp & E)]; [by apply (vi_dis _ _ _ _ Hv1 pgdir)|].
    destruct (sp_tab _ _ _ Hs1 i Hi Hp) as (_ & _ & Hne). by apply Hne. }
  destruct (kfree_run kend k2 l2 pgdir Hk2 Hdp Hn2) as (k3 & H3 & Hk3 & Ho3 & _).
  exists k3, (pgdir :: l2). split.
  { unfold freevm. rewrite run_panic_if by (apply Z.eqb_neq; destruct (page_bounds _ Hdp) as (? & ? & ? & ? & ?); lia).
    rewrite (bind_run _ _ _ _ _ H1), (bind_run _ _ _ _ _ H2). exact H3. }
  split; [done|]. split.
  - intros p. change (p ∈ own ∨ p ∈ l) with (pool own l p). rewrite <-Hpool. unfold pool.
    rewrite elem_of_cons, Hl2. split.
    + intros [->|[?|(i & Hi & Hp & ->)]]; [by left|by right|]. left. by apply (sp_tab _ _ _ Hs1).
    + intros [Hin|?]; [|by right; left]. destruct (sp_own _ _ _ Hs1 p Hin) as [->|[?|(va & Hva & Hp & _)]]; [by left|by right; right|].
      rewrite (um_in _ _ _ _ _ _ _ _ _ Hu) in Hp; [done|done|].
      destruct Hva. change (PGROUNDUP 0) with 0. unfold KERNBASE in *. lia.
  - intros x Hx. rewrite Ho3 by (apply Hx; by left). rewrite Ho2.
    + apply (um_out _ _ _ _ _ _ _ _ _ Hu). exact Hx.
    + intros p [Hp _]. apply Hx. apply Hpool. left. by apply (skel_own _ _ _ _ Hs1).
Qed.

(** ** allocuvm *)

(** The user pages of [lo, hi) become mapped, each to a zeroed page that was free;
    nothing else of the address space changes. *)
Record maps (pgdir lo hi : Z) k l own k' l' own' : Prop := {
  mp_inv : vinv k' l' pgdir own';
  mp_free : ∀ p, p ∈ l' → p ∈ l;
  mp_pool : ∀ p, pool own' l' p ↔ pool own l p;
  mp_in : ∀ va, upage va → lo <= va < hi → let f := frame (km_mem k') pgdir va in
    pte (km_mem k') pgdir va = V2P f + 7 ∧ f ∈ l ∧ ∀ x, f <= x < f + 4096 → km_mem k' x = 0;
  mp_pte : ∀ va, upage va → ¬ (lo <= va < hi) → pte (km_mem k') pgdir va = pte (km_mem k) pgdir va;
  mp_kern : ∀ va, vpage va → KERNBASE <= va → pte (km_mem k') pgdir va = pte (km_mem k) pgdir va;
  mp_frames : ∀ va x, upage va → ¬ (lo <= va < hi) → present (pte (km_mem k) pgdir va) = true →
    frame (km_mem k) pgdir va <= x < frame (km_mem k) pgdir va + 4096 → km_mem k' x = km_mem k x;
  mp_out : outside (pool own l) (km_mem k) (km_mem k')
}.

Lemma maps_refl pgdir lo hi k l own : vinv k l pgdir own → hi <= lo → maps pgdir lo hi k l own k l own.
Proof. intros Hv Hr. split; [done..| |done|done|done|done]. intros va _ H. lia. Qed.

(** A PTE that allocuvm writes. *)
Lemma present_7 p : page p → present (V2P p + 7) = true.
Proof. intros Hp. by destruct (pte_value p 6 Hp) as (_ & _ & H). Qed.

Lemma maps_snoc pgdir lo a k0 l0 own0 k l own k' l' own' :
  km_inv kend k0 l0 → lo <= a → maps pgdir lo a k0 l0 own0 k l own → maps pgdir a (a + 4096) k l own k' l' own' →
  maps pgdir lo (a + 4096) k0 l0 own0 k' l' own'.
Proof.
  intros Hk0 Hlo [A1 A2 A3 A4 A5 AK A6 A7] [B1 B2 B3 B4 B5 BK B6 B7].
  split; [done|auto| | | | | |].
  - intros p. by rewrite B3, A3.
  - intros va Hu Hr. destruct (Z.lt_ge_cases va a).
    + assert (pte (km_mem k') pgdir va = pte (km_mem k) pgdir va) as E by (apply B5; [done|lia]).
      assert (frame (km_mem k') pgdir va = frame (km_mem k) pgdir va) as Ef by (unfold frame; by rewrite E).
      cbv zeta. rewrite Ef, E. destruct (A4 va Hu) as (H1 & H2 & H3); [lia|]. split; [done|]. split; [done|].
      intros x Hx. rewrite (B6 va); [by apply H3|done|lia| |done]. rewrite H1. apply present_7.
      by eapply free_page.
    + destruct (B4 va Hu) as (H1 & H2 & H3); [lia|]. cbv zeta. split; [done|]. split; [by apply A2|done].
  - intros va Hu Hr. rewrite B5 by (done || lia). apply A5; [done|lia].
  - intros va Hu Hr. by rewrite BK, AK.
  - intros va x Hu Hr Hp Hx. assert (pte (km_mem k) pgdir va = pte (km_mem k0) pgdir va) as E by (apply A5; [done|lia]).
    rewrite (B6 va); [apply (A6 va); (done || lia)|done|lia|by rewrite E|]. unfold frame. by rewrite E.
  - intros x Hx. rewrite B7; [by apply A7|]. intros p Hp. by apply Hx, A3.
Qed.

Lemma mappages_page pgdir a pa f :
  upage a → mappages pgdir a PGSIZE pa f = mappages_loop (S (Z.to_nat 1048576)) pgdir a a pa f.
Proof.
  intros [Ha Hm]. unfold KERNBASE in *. unfold mappages. rewrite npages_S.
  assert (PGROUNDDOWN a = a) as -> by (rewrite PGROUNDDOWN_eq; lia).
  assert (PGROUNDDOWN (u32 (a + PGSIZE - 1)) = a) as ->; [|done].
  unfold PGSIZE. rewrite u32_small, PGROUNDDOWN_eq by (unfold is_u32; lia).
  Z.to_euclidean_division_equations; lia.
Qed.

(** One page: a free page [q] is zeroed and mapped, or the memory is exhausted. *)
Lemma map_zeroed k l pgdir own va q :
  vinv k (q :: l) pgdir own → upage va → present (pte (km_mem k) pgdir va) = false →
  ∃ k1, kalloc k = Ok q k1 ∧ q ≠ 0 ∧ page q ∧ (q ∉ own) ∧ (q ∉ l) ∧
    let kz := KmSt (Kernel.memset (km_mem k1) q 0 PGSIZE) (use_lock k1) (freelist k1) in
    vinv kz l pgdir own ∧ skel_same pgdir (km_mem k) (km_mem kz) ∧ same_outside q (km_mem k) (km_mem kz) ∧
    (∀ x, q <= x < q + 4096 → km_mem kz x = 0) ∧
    (mappages pgdir va PGSIZE (V2P q) (Z.lor PTE_W PTE_U) kz = Ok (-1) kz ∨
     ∃ k' l' own', mappages pgdir va PGSIZE (V2P q) (Z.lor PTE_W PTE_U) kz = Ok 0 k' ∧
       maps pgdir va (va + 4096) k (q :: l) own k' l' own').
Proof.
  intros Hv Hu Hnp. pose proof Hv as [Hk Hs Hd].
  destruct (kalloc_step k (q :: l) Hk) as (k1 & H1 & Hq0 & Hqp & Hql & Hk1 & Hm1).
  assert (q ∉ own) as Hqo by (intros Hin; by destruct (Hd q Hin); left).
  exists k1. do 5 (split; [done|]). intros kz.
  assert (∀ x, km_mem kz x = if decide (q <= x < q + 4096) then 0 else km_mem k x) as Hmz.
  { intros x. unfold kz. cbn [km_mem]. rewrite Hm1. by apply KernelSpec.memset_eq. }
  assert (same_outside q (km_mem k) (km_mem kz)) as Hout by (intros x Hx; by rewrite Hmz, decide_False).
  assert (∀ z x, page z → z ≠ q → z <= x < z + 4096 → km_mem kz x = km_mem k x) as Hz.
  { intros z x Hzp Hzq Hx. apply Hout. intros Hxq. by destruct (is_page_apart q z x x Hqp Hzp (not_eq_sym Hzq) Hxq Hx). }
  assert (skel_same pgdir (km_mem k) (km_mem kz)) as Hsk.
  { intros p x Hps Hx. destruct (skel_own _ _ _ _ Hs Hps) as [Hpo Hpp]. apply (Hz p); [done| |done]. congruence. }
  assert (vinv kz l pgdir own) as Hvz.
  { split; [|by eapply skel_space|].
    - apply (km_inv_mem k1 l); [done| |].
      + intros x. change (is_u8 (km_mem kz x)). rewrite Hmz. case_decide; [unfold is_u8; lia|apply Hk].
      + intros p x Hpl Hx. change (km_mem kz x = km_mem k1 x). rewrite Hm1. apply (Hz p); [by eapply free_page|congruence|done].
    - intros p Hpo Hpl. apply (Hd p Hpo). by right. }
  split; [done|]. split; [done|]. split; [done|]. split; [intros x Hx; by rewrite Hmz, decide_True|].
  rewrite mappages_page by done.
  destruct (map_user (Z.to_nat 1048576) kz l pgdir own va va q (Z.lor PTE_W PTE_U) Hvz Hu) as
    [[_ H]|(k' & l' & own' & Hc & Ho & Hpool & Hpte & H)]; [by rewrite (skel_pte _ _ _ _ Hsk)|done|done|done|done| |].
  { by left. }
  right. rewrite Z.eqb_refl in H. change (Z.lor (Z.lor PTE_W PTE_U) 1) with 7 in Hpte. rename Hpte into Hpk.
  assert (∀ va', upage va' → pte (km_mem k') pgdir va' = if decide (va' = va) then V2P q + 7 else pte (km_mem kz) pgdir va')
    as Hpte by (intros va' Hu'; by apply Hpk, upage_vpage).
  exists k', l', ({[q]} ∪ own'). split; [exact H|]. pose proof Hc as [C1 C2 C3 C4].
  destruct (pte_frame q 7 Hqp) as (Hfr & _); [lia|].
  assert (frame (km_mem k') pgdir va = q) as Efr by (unfold frame; by rewrite Hpte, decide_True).
  assert (∀ va', upage va' → va' ≠ va → frame (km_mem k') pgdir va' = frame (km_mem k) pgdir va') as Efr'.
  { intros va' Hu' Hne. unfold frame. by rewrite Hpte, decide_False, (skel_pte _ _ _ _ Hsk). }
  split.
  - done.
  - intros p Hp. right. by apply C2.
  - intros p. specialize (Hpool p). unfold pool in *. rewrite elem_of_union, elem_of_singleton, elem_of_cons. tauto.
  - intros va' Hu' Hr. assert (va' = va) as ->.
    { destruct Hu, Hu'. Z.to_euclidean_division_equations; lia. }
    cbv zeta. rewrite Efr, Hpte, decide_True by done. split; [done|]. split; [by left|].
    intros x Hx. rewrite (C3 q); [by rewrite Hmz, decide_True|done| |done|done].
    rewrite <-Efr. eapply frame_not_skel; [apply C1|done|]. rewrite Hpte, decide_True by done. by apply present_7.
  - intros va' Hu' Hr. rewrite Hpte, decide_False, (skel_pte _ _ _ _ Hsk); [done| |done]. intros ->. lia.
  - intros va' Hu' Hr. rewrite Hpk, decide_False, (skel_pte _ _ _ _ Hsk); [done| |done]. intros ->. destruct Hu. lia.
  - intros va' x Hu' Hr Hp Hx. assert (va' ≠ va) as Hne by (intros ->; lia).
    destruct (sp_frame _ _ _ Hs va' Hu' Hp) as (F1 & F2 & _).
    rewrite (C3 _ _ F1); [apply (Hz _ _ F1); [congruence|done]| | |done].
    + rewrite <-Efr' by done. eapply frame_not_skel; [apply C1|done|].
      by rewrite Hpte, decide_False, (skel_pte _ _ _ _ Hsk).
    + intros Hin. apply (Hd _ F2). by right.
  - intros x Hx. rewrite C4; [apply Hout, Hx; right; by left|]. intros p [?|?]; apply Hx; [by left|right; by right].
Qed.

(** The pages of [lo, hi) are not mapped, everything else is as it was. *)
Record restores (pgdir lo hi : Z) k l own k' l' own' : Prop := {
  rs_inv : vinv k' l' pgdir own';
  rs_pool : ∀ p, pool own' l' p ↔ pool own l p;
  rs_in : ∀ va, upage va → lo <= va < hi → present (pte (km_mem k') pgdir va) = false;
  rs_pte : ∀ va, upage va → ¬ (lo <= va < hi) → pte (km_mem k') pgdir va = pte (km_mem k) pgdir va;
  rs_frames : ∀ va x, upage va → ¬ (lo <= va < hi) → present (pte (km_mem k) pgdir va) = true →
    frame (km_mem k) pgdir va <= x < frame (km_mem k) pgdir va + 4096 → km_mem k' x = km_mem k x;
  rs_out : outside (pool own l) (km_mem k) (km_mem k')
}.

Lemma maps_unmaps pgdir lo a hi k0 l0 own0 k l own k' l' own' :
  a <= hi → maps pgdir lo a k0 l0 own0 k l own → unmaps pgdir lo hi k l own k' l' own' →
  restores pgdir lo hi k0 l0 own0 k' l' own'.
Proof.
  intros Ha [A1 A2 A3 A4 A5 _ A6 A7] [B1 B2 B3 B4 B5 B6 B7 B8].
  assert (∀ va, upage va → ¬ (lo <= va < hi) → pte (km_mem k') pgdir va = pte (km_mem k) pgdir va) as Hk'.
  { intros va Hu Hr. apply B6; [done|]. intros ?. by destruct Hr. }
  split; [done| |done| | |].
  - intros p. by rewrite B3, A3.
  - intros va Hu Hr. rewrite Hk' by done. apply A5; [done|lia].
  - intros va x Hu Hr Hp Hx.
    assert (pte (km_mem k') pgdir va = pte (km_mem k0) pgdir va) as E by (rewrite Hk' by done; apply A5; [done|lia]).
    rewrite <-(B7 va); [apply (A6 va); (done || lia)|done|by rewrite E|]. unfold frame. by rewrite E.
  - intros x Hx. rewrite B8; [by apply A7|]. intros p Hp. by apply Hx, A3.
Qed.

(** A free page that was taken and zeroed goes back after the others. *)
Lemma unmaps_with pgdir lo hi k l own kz q k1 l1 own1 :
  vinv k (q :: l) pgdir own → page q → q ∉ own → q ∉ l →
  skel_same pgdir (km_mem k) (km_mem kz) → same_outside q (km_mem k) (km_mem kz) →
  unmaps pgdir lo hi kz l own k1 l1 own1 →
  ∃ k', kfree kend q k1 = Ok tt k' ∧ unmaps pgdir lo hi k (q :: l) own k' (q :: l1) own1.
Proof.
  intros Hv Hq Hqo Hql Hsk Hout [B1 B2 B3 B4 B5 B6 B7 B8]. pose proof B1 as [Hk1 Hs1 Hd1].
  assert (q ∉ own1) as Hqo1 by auto.
  assert (q ∉ l1) as Hql1.
  { intros Hin. destruct (proj1 (B3 q) (or_intror Hin)); done. }
  destruct (kfree_run kend k1 l1 q Hk1 Hq Hql1) as (k' & Hf & Hk' & Hout' & _).
  assert (∀ z x, page z → z ≠ q → z <= x < z + 4096 → km_mem k' x = km_mem k1 x) as Hz.
  { intros z x Hzp Hzq Hx. apply Hout'. intros Hxq. by destruct (is_page_apart q z x x Hq Hzp (not_eq_sym Hzq) Hxq Hx). }
  assert (skel_same pgdir (km_mem k1) (km_mem k')) as Hsk'.
  { intros p x Hps Hx. destruct (skel_own _ _ _ _ Hs1 Hps) as [Hpo Hpp]. apply (Hz p); [done|congruence|done]. }
  exists k'. split; [done|]. split.
  - split; [done|by eapply skel_space|]. intros p Hpo [->|Hpl]%elem_of_cons; [done|]. by apply (Hd1 p).
  - done.
  - intros p. specialize (B3 p). unfold pool in *. rewrite !elem_of_cons. tauto.
  - intros i Hi. by rewrite (skel_pde _ _ _ _ Hsk'), B4, (skel_pde _ _ _ _ Hsk).
  - intros va Hu Hr. rewrite (skel_pte _ _ _ _ Hsk'). by apply B5.
  - intros va Hu Hr. rewrite (skel_pte _ _ _ _ Hsk'), <-(skel_pte _ _ _ _ Hsk). apply B6; [done|].
    rewrite (skel_pte _ _ _ _ Hsk). exact Hr.
  - intros va x Hu Hp Hx. rewrite (skel_pte _ _ _ _ Hsk') in Hp. rewrite (skel_frame _ _ _ _ Hsk') in Hx.
    destruct (sp_frame _ _ _ Hs1 va Hu Hp) as (F1 & F2 & _).
    assert (frame (km_mem k1) pgdir va ≠ q) as Hne by congruence.
    rewrite (Hz _ _ F1) by done. rewrite <-(B7 va) by done. symmetry. apply Hout. intros Hxq.
    by destruct (is_page_apart _ _ x x Hq F1 (not_eq_sym Hne) Hxq Hx).
  - intros x Hx. rewrite Hout', B8, Hout; [done| | |].
    + apply Hx. right. by left.
    + intros p [?|?]; apply Hx; [by left|right; by right].
    + apply Hx. right. by left.
Qed.

Lemma alloc_loop_run fuel pgdir oldsz newsz lo a k0 l0 own0 k l own :
  KERNBASE < kend → vinv k0 l0 pgdir own0 → 0 <= oldsz < newsz → newsz < KERNBASE → lo = PGROUNDUP oldsz →
  (∀ va, upage va → lo <= va < newsz → present (pte (km_mem k0) pgdir va) = false) →
  maps pgdir lo a k0 l0 own0 k l own → lo <= a → a mod 4096 = 0 → a < newsz + 4096 →
  Z.max 0 (newsz - a) + 4096 <= 4096 * Z.of_nat fuel →
  ∃ k' l' own',
    (allocuvm_loop kend fuel pgdir oldsz newsz a k = Ok newsz k' ∧
       maps pgdir lo (PGROUNDUP newsz) k0 l0 own0 k' l' own') ∨
    (allocuvm_loop kend fuel pgdir oldsz newsz a k = Ok 0 k' ∧
       restores pgdir lo newsz k0 l0 own0 k' l' own').
Proof.
  intros Hkend Hv0 Ho Hn Hlo Hno. revert a k l own.
  induction fuel as [|fuel IH]; intros a k l own Hm Hla Ha Han Hf; [lia|]. cbn [allocuvm_loop].
  destruct (PGROUNDUP_user oldsz) as (Ho1 & Ho2 & _); [unfold KERNBASE in *; lia|].
  destruct (PGROUNDUP_user newsz) as (Hn1 & Hn2 & _); [unfold KERNBASE in *; lia|].
  destruct (Z.ltb_spec a newsz) as [Hlt|Hge].
  2: { exists k, l, own. left. split; [done|]. assert (PGROUNDUP newsz = a) as ->; [|done].
       Z.to_euclidean_division_equations; lia. }
  assert (upage a) as Hu by (unfold upage; split; [lia|done]).
  pose proof (mp_inv _ _ _ _ _ _ _ _ _ Hm) as Hv.
  assert (present (pte (km_mem k) pgdir a) = false) as Hnp.
  { rewrite (mp_pte _ _ _ _ _ _ _ _ _ Hm) by (done || lia). apply Hno; [done|lia]. }
  destruct l as [|q l].
  - (* no page for the frame *)
    pose proof (kalloc_step k [] (vi_km _ _ _ _ Hv)) as H1. cbn in H1. rewrite (bind_run _ _ _ _ _ H1).
    change (0 =? 0) with true. cbv iota.
    destruct (deallocuvm_run pgdir newsz oldsz k [] own Hkend Hv) as (k' & l' & own' & H2 & Hum); [lia|lia|].
    exists k', l', own'. right. rewrite (bind_run _ _ _ _ _ H2). split; [done|].
    subst lo. eapply maps_unmaps; [|exact Hm|exact Hum]. lia.
  - destruct (map_zeroed k l pgdir own a q Hv Hu Hnp) as (k1 & H1 & Hq0 & Hqp & Hqo & Hql & Hz). cbv zeta in Hz.
    set (kz := KmSt _ _ _) in Hz. destruct Hz as (Hvz & Hsk & Hout & _ & Hmap).
    rewrite (bind_run _ _ _ _ _ H1). rewrite (proj2 (Z.eqb_neq q 0)) by done.
    rewrite on_mem_run. fold kz. destruct Hmap as [H2|(k2 & l2 & own2 & H2 & Hm2)].
    + (* no page for the table *)
      rewrite (bind_run _ _ _ _ _ H2). change (-1 <? 0) with true. cbv iota.
      destruct (deallocuvm_run pgdir newsz oldsz kz l own Hkend Hvz) as (k3 & l3 & own3 & H3 & Hum); [lia|lia|].
      destruct (unmaps_with _ _ _ _ _ _ _ _ _ _ _ Hv Hqp Hqo Hql Hsk Hout Hum) as (k4 & H4 & Hum4).
      exists k4, (q :: l3), own3. right. rewrite (bind_run _ _ _ _ _ H3), (bind_run _ _ _ _ _ H4). split; [done|].
      subst lo. eapply maps_unmaps; [|exact Hm|exact Hum4]. lia.
    + rewrite (bind_run _ _ _ _ _ H2). change (0 <? 0) with false. cbv iota.
      assert (u32 (a + PGSIZE) = a + 4096) as ->.
      { unfold PGSIZE, KERNBASE in *. apply u32_small. unfold is_u32. lia. }
      apply (IH (a + 4096) k2 l2 own2); [|lia|rewrite Z.add_mod, Ha by done; done|lia|lia].
      eapply maps_snoc; [apply Hv0|exact Hla|exact Hm|exact Hm2].
Qed.

(** C17. Growing an address space: where the pages between the rounded-up old size
    and the new size are free, allocuvm either maps each of them, user and writable,
    to a zeroed page that was free - no two to the same one - and returns the new
    size, or runs out of memory, returns 0 and leaves none of them mapped. In both
    cases every other user page keeps its PTE and its contents, no page is lost
    and no other memory changes. A size in the kernel's part gives 0 and a smaller
    size changes nothing. *)
Theorem allocuvm_correct pgdir oldsz newsz k l own :
  KERNBASE < kend → vinv k l pgdir own → 0 <= oldsz → is_u32 newsz →
  (KERNBASE <= newsz → allocuvm kend pgdir oldsz newsz k = Ok 0 k) ∧
  (newsz < oldsz → newsz < KERNBASE → allocuvm kend pgdir oldsz newsz k = Ok oldsz k) ∧
  (oldsz < newsz → newsz < KERNBASE →
   let lo := PGROUNDUP oldsz in
   (∀ va, upage va → lo <= va < newsz → present (pte (km_mem k) pgdir va) = false) →
   ∃ r k' l' own', allocuvm kend pgdir oldsz newsz k = Ok r k' ∧
     vinv k' l' pgdir own' ∧ (∀ p, p ∈ own' ∨ p ∈ l' ↔ p ∈ own ∨ p ∈ l) ∧
     (r = newsz ∧ (∀ va, upage va → lo <= va < newsz → let f := frame (km_mem k') pgdir va in
        pte (km_mem k') pgdir va = V2P f + 7 ∧ f ∈ l ∧ ∀ x, f <= x < f + 4096 → km_mem k' x = 0) ∨
      r = 0 ∧ (∀ va, upage va → lo <= va < newsz → present (pte (km_mem k') pgdir va) = false)) ∧
     (∀ va, upage va → ¬ (lo <= va < newsz) → pte (km_mem k') pgdir va = pte (km_mem k) pgdir va ∧
        (present (pte (km_mem k) pgdir va) = true → ∀ x, frame (km_mem k) pgdir va <= x < frame (km_mem k) pgdir va + 4096 →
           km_mem k' x = km_mem k x)) ∧
     (∀ x, (∀ p, p ∈ own ∨ p ∈ l → ¬ (p <= x < p + 4096)) → km_mem k' x = km_mem k x)).
Proof.
  intros Hkend Hv Ho Hn. unfold allocuvm. split; [intros H; by rewrite (proj2 (Z.leb_le _ _))|]. split.
  { intros H1 H2. by rewrite (proj2 (Z.leb_gt _ _)), (proj2 (Z.ltb_lt _ _)). }
  intros Hlt Hk Hno. rewrite (proj2 (Z.leb_gt _ _)), (proj2 (Z.ltb_ge _ _)) by lia. set (lo := PGROUNDUP oldsz) in *.
  destruct (PGROUNDUP_user oldsz) as (Ho1 & Ho2 & _); [unfold KERNBASE in *; lia|].
  destruct (PGROUNDUP_user newsz) as (Hn1 & Hn2 & _); [unfold KERNBASE in *; lia|].
  assert (∀ va, upage va → (lo <= va < PGROUNDUP newsz ↔ lo <= va < newsz)) as Hrange.
  { intros va [_ Hva]. Z.to_euclidean_division_equations; lia. }
  destruct (alloc_loop_run npages pgdir oldsz newsz lo lo k l own k l own Hkend Hv) as (k' & l' & own' & H);
    [lia|done|done|done|apply maps_refl; [done|lia]|lia|done|unfold lo; lia|unfold npages, KERNBASE in *; lia|].
  destruct H as [[H [M1 M2 M3 M4 M5 _ M6 M7]]|[H [R1 R3 R4 R5 R6 R7]]]; eexists _, k', l', own'; (split; [exact H|]);
    (split; [done|]); (split; [done|]); (split; [|split; [|done]]).
  - left. split; [done|]. intros va Hu Hr. apply M4; [done|]. by apply Hrange.
  - intros va Hu Hr. split; [apply M5; [done|by rewrite Hrange]|]. intros Hp x. apply M6; [done|by rewrite Hrange|done].
  - right. done.
  - intros va Hu Hr. split; [by apply R5|]. intros Hp x. by apply R6.
Qed.

(** ** copyout *)

(** The kernel address of a user address, and whether a user may use it. *)
Definition translate (m : mem) (pgdir va : Z) : Z := frame m pgdir (PGROUNDDOWN va) + va mod 4096.
Definition user_ok (m : mem) (pgdir va : Z) : Prop :=
  present (pde m pgdir (PDX va)) = true ∧ present (pte m pgdir va) = true ∧ Z.land (pte m pgdir va) PTE_U ≠ 0.

Lemma PGROUNDDOWN_user va : 0 <= va < KERNBASE →
  upage (PGROUNDDOWN va) ∧ va = PGROUNDDOWN va + va mod 4096 ∧ 0 <= va mod 4096 < 4096.
Proof.
  intros Hva. rewrite PGROUNDDOWN_eq. pose proof (Z.mod_pos_bound va 4096 ltac:(done)).
  split; [|lia]. unfold upage. Z.to_euclidean_division_equations; lia.
Qed.

Lemma translate_inj m pgdir own va va' :
  space m pgdir own → 0 <= va < KERNBASE → 0 <= va' < KERNBASE →
  present (pte m pgdir (PGROUNDDOWN va)) = true → present (pte m pgdir (PGROUNDDOWN va')) = true →
  translate m pgdir va = translate m pgdir va' → va = va'.
Proof.
  intros Hs Hva Hva' Hp Hp' Heq. unfold translate in Heq.
  destruct (PGROUNDDOWN_user va Hva) as (Hu & E & Hr). destruct (PGROUNDDOWN_user va' Hva') as (Hu' & E' & Hr').
  destruct (sp_frame _ _ _ Hs _ Hu Hp) as (F & _). destruct (sp_frame _ _ _ Hs _ Hu' Hp') as (F' & _).
  destruct (decide (frame m pgdir (PGROUNDDOWN va) = frame m pgdir (PGROUNDDOWN va'))) as [Ef|Hne].
  - rewrite E, E'. rewrite (sp_frames _ _ _ Hs _ _ Hu Hu' Hp Hp' Ef). lia.
  - destruct (page_apart kend _ _ F F' Hne); lia.
Qed.

Lemma uva2ka_ok pgdir va k : user_ok (km_mem k) pgdir va → uva2ka pgdir va k = Ok (frame (km_mem k) pgdir va) k.
Proof.
  intros (Hd & Hp & Hu). unfold uva2ka. rewrite (bind_run _ _ _ _ _ (walk_present pgdir va false k Hd)).
  unfold rd32. run.
  assert (load32 (km_mem k) (slot (km_mem k) pgdir va) = pte (km_mem k) pgdir va) as -> by (unfold pte; by rewrite Hd).
  unfold present in Hp. apply negb_true_iff in Hp. rewrite Hp. by rewrite (proj2 (Z.eqb_neq _ _)).
Qed.

(** Bytes stored in a frame leave the tables and the free pages alone. *)
Lemma frame_write k l pgdir own va m' :
  vinv k l pgdir own → upage va → present (pte (km_mem k) pgdir va) = true → mem_ok m' →
  (∀ x, ¬ (frame (km_mem k) pgdir va <= x < frame (km_mem k) pgdir va + 4096) → m' x = km_mem k x) →
  vinv (KmSt m' (use_lock k) (freelist k)) l pgdir own ∧ skel_same pgdir (km_mem k) m'.
Proof.
  intros Hv Hu Hp Hm Hout. pose proof Hv as [Hk Hs Hd]. destruct (sp_frame _ _ _ Hs va Hu Hp) as (F1 & F2 & _).
  assert (∀ p x, page p → p ≠ frame (km_mem k) pgdir va → p <= x < p + 4096 → m' x = km_mem k x) as Hz.
  { intros p x Hpp Hne Hx. apply Hout. intros Hxf. by destruct (is_page_apart _ p x x F1 Hpp (not_eq_sym Hne) Hxf Hx). }
  assert (skel_same pgdir (km_mem k) m') as Hsk.
  { intros p x Hps Hx. destruct (skel_own _ _ _ _ Hs Hps) as [_ Hpp]. apply (Hz p); [done| |done].
    intros ->. by apply (frame_not_skel _ _ _ _ Hs Hu Hp). }
  split; [|done]. apply (vinv_mem k l pgdir own); [done|done|by eapply skel_space|done|].
  intros p x Hpl Hx. apply (Hz p); [by eapply free_page| |done]. intros ->. by apply (Hd _ F2).
Qed.

(** The [len] bytes at [p] appear at the user addresses from [va] on, and nowhere
    else. *)
Definition copied (pgdir va p len : Z) (m m' : mem) : Prop :=
  (∀ i, 0 <= i < len → m' (translate m pgdir (va + i)) = m (p + i)) ∧
  (∀ x, (∀ i, 0 <= i < len → x ≠ translate m pgdir (va + i)) → m' x = m x).

Lemma skel_translate m m' pgdir va : skel_same pgdir m m' → translate m' pgdir va = translate m pgdir va.
Proof. intros H. unfold translate. by rewrite (skel_frame _ _ _ _ H). Qed.

Lemma skel_user_ok m m' pgdir va : skel_same pgdir m m' → user_ok m pgdir va → user_ok m' pgdir va.
Proof.
  intros H. unfold user_ok. by rewrite (skel_pte _ _ _ _ H), (skel_pde _ _ _ _ H) by apply PDX_range.
Qed.

(** The part of the copy that lies in one page. *)
Lemma copy_page k l pgdir own va p n :
  vinv k l pgdir own → 0 <= va < KERNBASE → user_ok (km_mem k) pgdir (PGROUNDDOWN va) →
  0 <= n → va mod 4096 + n <= 4096 →
  let k' := KmSt (Kernel.memmove (km_mem k) (translate (km_mem k) pgdir va) p (Z.to_nat n)) (use_lock k) (freelist k) in
  vinv k' l pgdir own ∧ skel_same pgdir (km_mem k) (km_mem k') ∧ copied pgdir va p n (km_mem k) (km_mem k') ∧
  (∀ q x, page q → q ∉ own → q <= x < q + 4096 → km_mem k' x = km_mem k x).
Proof.
  intros Hv Hva (Hd & Hp & _) Hn Hle k'. destruct (PGROUNDDOWN_user va Hva) as (Hu & E & Hr).
  pose proof Hv as [Hk Hs Hdis]. destruct (sp_frame _ _ _ Hs _ Hu Hp) as (F1 & F2 & _).
  assert (∀ x, km_mem k' x = if decide (translate (km_mem k) pgdir va <= x < translate (km_mem k) pgdir va + n)
    then km_mem k (p + (x - translate (km_mem k) pgdir va)) else km_mem k x) as Hk'.
  { intros x. unfold k'. cbn [km_mem]. rewrite KernelSpec.memmove_eq by apply Hk. by rewrite Z2Nat.id. }
  destruct (frame_write k l pgdir own _ (km_mem k') Hv Hu Hp) as [Hv' Hsk].
  { intros x. rewrite Hk'. case_decide; apply Hk. }
  { intros x Hx. rewrite Hk', decide_False; [done|]. unfold translate. lia. }
  assert (∀ i, 0 <= i < n → translate (km_mem k) pgdir (va + i) = translate (km_mem k) pgdir va + i) as Ht.
  { intros i Hi. unfold translate. assert ((va + i) mod 4096 = va mod 4096 + i) as Em.
    { Z.to_euclidean_division_equations; lia. }
    assert (PGROUNDDOWN (va + i) = PGROUNDDOWN va) as -> by (rewrite !PGROUNDDOWN_eq; lia). lia. }
  split; [exact Hv'|]. split; [exact Hsk|]. split; [split|].
  - intros i Hi. rewrite Hk', Ht by done. rewrite decide_True by lia. f_equal. lia.
  - intros x Hx. rewrite Hk', decide_False; [done|]. intros Hxr.
    apply (Hx (x - translate (km_mem k) pgdir va)); [lia|]. rewrite Ht; lia.
  - intros q x Hq Hqo Hx. rewrite Hk', decide_False; [done|]. intros Hxr. unfold translate in Hxr.
    apply (is_page_apart _ q x x F1 Hq); [by intros <-|lia|done|done].
Qed.

Lemma copyout_loop_run fuel k l pgdir own va p len :
  vinv k l pgdir own → 0 <= va → 0 <= len → va + len <= KERNBASE →
  (∀ i, 0 <= i < len → user_ok (km_mem k) pgdir (PGROUNDDOWN (va + i))) →
  (∀ i q, 0 <= i < len → q ∈ own → ¬ (q <= p + i < q + 4096)) →
  va mod 4096 + len + 4096 <= 4096 * Z.of_nat fuel →
  ∃ k', copyout_loop fuel pgdir va p len k = Ok 0 k' ∧ vinv k' l pgdir own ∧
    skel_same pgdir (km_mem k) (km_mem k') ∧ copied pgdir va p len (km_mem k) (km_mem k').
Proof.
  revert k va p len. induction fuel as [|fuel IH]; intros k va p len Hv Hva Hlen Hend Hok Hsrc Hf;
    [pose proof (Z.mod_pos_bound va 4096 ltac:(done)); lia|].
  cbn [copyout_loop]. destruct (Z.ltb_spec 0 len) as [Hpos|Hz].
  2: { exists k. split; [done|]. split; [done|]. split; [done|]. split; [lia|done]. }
  assert (0 <= va < KERNBASE) as Hvr by lia. destruct (PGROUNDDOWN_user va Hvr) as (Hu & E & Hr).
  assert (user_ok (km_mem k) pgdir (PGROUNDDOWN va)) as Hok0 by (rewrite <-(Z.add_0_r va); apply Hok; lia).
  rewrite (bind_run _ _ _ _ _ (uva2ka_ok pgdir _ k Hok0)). pose proof Hok0 as (_ & Hp & _).
  destruct (sp_frame _ _ _ (vi_sp _ _ _ _ Hv) _ Hu Hp) as (F1 & F2 & _).
  rewrite (proj2 (Z.eqb_neq _ _)) by (destruct (page_bounds _ F1) as (? & ? & ? & ? & ?); lia).
  set (n := if len <? PGSIZE - (va - PGROUNDDOWN va) then len else PGSIZE - (va - PGROUNDDOWN va)).
  assert (0 < n <= len ∧ va mod 4096 + n <= 4096 ∧ (n < len → va + n = PGROUNDDOWN va + 4096)) as (Hn & Hnp & Hnl).
  { unfold n, PGSIZE. destruct (Z.ltb_spec len (4096 - (va - PGROUNDDOWN va))); lia. }
  clearbody n. rewrite on_mem_run. replace (frame (km_mem k) pgdir (PGROUNDDOWN va) + (va - PGROUNDDOWN va))
    with (translate (km_mem k) pgdir va) by (unfold translate; lia).
  destruct (copy_page k l pgdir own va p n Hv Hvr Hok0) as (Hv1 & Hsk1 & [Hc1 Hx1] & Ho1); [lia|lia|].
  set (k1 := KmSt _ _ _) in *.
  assert (∀ i, 0 <= i < len → present (pte (km_mem k) pgdir (PGROUNDDOWN (va + i))) = true) as Hpr
    by (intros i Hi; apply Hok; lia).
  (* the source is in no frame of the address space *)
  assert (∀ i, 0 <= i < len → km_mem k1 (p + i) = km_mem k (p + i)) as Hs1.
  { intros i Hi. apply Hx1. intros j Hj Heq.
    destruct (PGROUNDDOWN_user (va + j)) as (Uj & _ & Rj); [lia|].
    destruct (sp_frame _ _ _ (vi_sp _ _ _ _ Hv) _ Uj) as (G1 & G2 & _); [apply Hpr; lia|].
    apply (Hsrc i _ Hi G2). unfold translate in Heq. lia. }
  destruct (decide (n = len)) as [->|Hne].
  - exists k1. destruct fuel as [|fuel]; [lia|]. cbn [copyout_loop]. rewrite Z.sub_diag. change (0 <? 0) with false.
    split; [done|]. split; [done|]. by split.
  - assert (u32 (PGROUNDDOWN va + PGSIZE) = va + n) as ->.
    { rewrite Hnl by lia. unfold PGSIZE. apply u32_small. unfold is_u32, KERNBASE in *. lia. }
    assert ((va + n) mod 4096 = 0) as Hm0.
    { rewrite Hnl by lia. destruct Hu as [_ Hu]. by rewrite Z.add_mod, Hu by done. }
    destruct (IH k1 (va + n) (p + n) (len - n) Hv1) as (k2 & H2 & Hv2 & Hsk2 & Hc2 & Hx2); [lia|lia|lia| | |lia|].
    + intros i Hi. eapply skel_user_ok; [exact Hsk1|]. rewrite <-Z.add_assoc. apply Hok. lia.
    + intros i q Hi. rewrite <-Z.add_assoc. apply Hsrc. lia.
    + exists k2. split; [exact H2|]. split; [done|]. split.
      { intros q x Hq Hx. rewrite (Hsk2 q); [by apply (Hsk1 q)| |done].
        destruct Hq as [->|(i & Hi & Hpi & ->)]; [by left|right; exists i].
        unfold tab. by rewrite (skel_pde _ _ _ _ Hsk1). }
      split.
      * intros i Hi. destruct (Z.lt_ge_cases i n).
        -- rewrite Hx2, Hc1; [done|lia|]. intros j Hj. rewrite (skel_translate _ _ _ _ Hsk1). intros Heq.
           apply (translate_inj _ _ _ _ _ (vi_sp _ _ _ _ Hv)) in Heq; [lia|lia|lia|apply Hpr; lia|].
           rewrite <-Z.add_assoc. apply Hpr. lia.
        -- specialize (Hc2 (i - n)). rewrite (skel_translate _ _ _ _ Hsk1) in Hc2.
           replace (va + n + (i - n)) with (va + i) in Hc2 by lia. rewrite Hc2 by lia.
           replace (p + n + (i - n)) with (p + i) by lia. apply Hs1. lia.
      * intros x Hx. rewrite Hx2, Hx1; [done| |].
        -- intros i Hi. apply Hx. lia.
        -- intros i Hi. rewrite (skel_translate _ _ _ _ Hsk1), <-Z.add_assoc. apply Hx. lia.
Qed.

Lemma copyout_bad fuel pgdir va p len k :
  0 < len → present (pde (km_mem k) pgdir (PDX (PGROUNDDOWN va))) = true → ¬ user_ok (km_mem k) pgdir (PGROUNDDOWN va) →
  copyout_loop (S fuel) pgdir va p len k = Ok (-1) k.
Proof.
  intros Hlen Hd Hno. cbn [copyout_loop]. rewrite (proj2 (Z.ltb_lt _ _)) by done.
  assert (uva2ka pgdir (PGROUNDDOWN va) k = Ok 0 k) as H0; [|by rewrite (bind_run _ _ _ _ _ H0)].
  unfold uva2ka. rewrite (bind_run _ _ _ _ _ (walk_present _ _ false k Hd)). unfold rd32. run.
  set (m := km_mem k) in *.
  assert (load32 m (slot m pgdir (PGROUNDDOWN va)) = pte m pgdir (PGROUNDDOWN va)) as ->
    by (unfold pte; by rewrite Hd).
  unfold user_ok, present in Hno, Hd. destruct (Z.eqb_spec (Z.land (pte m pgdir (PGROUNDDOWN va)) PTE_P) 0) as [|N]; [done|].
  destruct (Z.eqb_spec (Z.land (pte m pgdir (PGROUNDDOWN va)) PTE_U) 0) as [|N2]; [done|].
  destruct Hno. split; [done|]. split; [|done]. done.
Qed.
(** Copying to a user: when every page of the range is a present user page and
    the source lies outside of the address space's own pages, copyout returns 0,
    the bytes are at the physical places the range translates to, across page
    boundaries, and no other byte changes, so every mapping is as before. A first
    page that the user may not use gives -1 and changes nothing. *)
Theorem copyout_correct k l pgdir own va p len :
  vinv k l pgdir own → 0 <= va → 0 < len → va + len <= KERNBASE →
  ((∀ i, 0 <= i < len → user_ok (km_mem k) pgdir (PGROUNDDOWN (va + i))) →
   (∀ i q, 0 <= i < len → q ∈ own → ¬ (q <= p + i < q + 4096)) →
   ∃ k', copyout pgdir va p len k = Ok 0 k' ∧ vinv k' l pgdir own ∧
     (∀ va', pte (km_mem k') pgdir va' = pte (km_mem k) pgdir va') ∧
     (∀ i, 0 <= i < len → km_mem k' (translate (km_mem k') pgdir (va + i)) = km_mem k (p + i)) ∧
     (∀ x, (∀ i, 0 <= i < len → x ≠ translate (km_mem k) pgdir (va + i)) → km_mem k' x = km_mem k x)) ∧
  (present (pde (km_mem k) pgdir (PDX (PGROUNDDOWN va))) = true → ¬ user_ok (km_mem k) pgdir (PGROUNDDOWN va) →
   copyout pgdir va p len k = Ok (-1) k).
Proof.
  intros Hv Hva Hlen Hend. split.
  - intros Hok Hsrc. destruct (copyout_loop_run npages k l pgdir own va p len) as (k' & H & Hv' & Hsk & Hc & Hx);
      [done|done|lia|done|done|done| |].
    { pose proof (Z.mod_pos_bound va 4096 ltac:(done)). unfold npages, KERNBASE in *. lia. }
    exists k'. split; [done|]. split; [done|]. split; [intros va'; by apply skel_pte|]. split; [|done].
    intros i Hi. rewrite (skel_translate _ _ _ _ Hsk). by apply Hc.
  - intros Hd Hno. unfold copyout. rewrite npages_S. by apply copyout_bad.
Qed.
End kend.

(** ** A concrete address space

    The directory at 0x80102000, one table, one user page at address 0, and two free
    pages. *)

Definition vm_mem : mem :=
  store32 (store32 (store32 mem0 0x80102000 0x103007) 0x80103000 0x104007) 0x80105000 0x80106000.
Definition vm_ex : kmst := KmSt vm_mem false 0x80105000.
Definition vm_own : gset Z := {[0x80102000; 0x80103000; 0x80104000]}.

Lemma upage_0 : upage 0.
Proof. done. Qed.

Lemma vm_page n : 0 <= n < 16 → is_page 0x80101000 (0x80102000 + 4096 * n).
Proof.
  intros Hn. unfold is_page, KERNBASE, PHYSTOP. split; [|lia].
  rewrite (Z.mul_comm 4096), Z.mod_add by done. done.
Qed.

Lemma vm_pde i : 0 <= i < 1024 → pde vm_mem 0x80102000 i = if decide (i = 0) then 0x103007 else 0.
Proof.
  intros Hi. apply Z.eqb_eq.
  assert (forallb (λ i, pde vm_mem 0x80102000 i =? if decide (i = 0) then 0x103007 else 0) (seqZ 0 1024) = true) as H
    by (by vm_compute).
  rewrite forallb_forall in H. apply (H i), list_elem_of_In, elem_of_seqZ. lia.
Qed.

Lemma vm_entry j : 0 <= j < 1024 → load32 vm_mem (0x80103000 + 4 * j) = if decide (j = 0) then 0x104007 else 0.
Proof.
  intros Hi. apply Z.eqb_eq.
  assert (forallb (λ i, load32 vm_mem (0x80103000 + 4 * i) =? if decide (i = 0) then 0x104007 else 0) (seqZ 0 1024) = true) as H
    by (by vm_compute).
  rewrite forallb_forall in H. apply (H j), list_elem_of_In, elem_of_seqZ. lia.
Qed.

Lemma vm_pte va : upage va → pte vm_mem 0x80102000 va = if decide (va = 0) then 0x104007 else 0.
Proof.
  intros Hu. unfold pte, tab. rewrite vm_pde by apply PDX_range. case_decide as Hd.
  - change (present 0x103007) with true. change (P2V (PTE_ADDR 0x103007)) with 0x80103000. cbv iota.
    rewrite vm_entry by apply PTX_range. repeat case_decide; try done.
    + destruct H0. apply same_page_upage; [done|done|]. by split.
    + by subst.
  - change (present 0) with false. cbv iota. case_decide; [by subst|done].
Qed.

Lemma vm_ex_inv : vinv 0x80101000 vm_ex [0x80105000; 0x80106000] 0x80102000 vm_own.
Proof.
  assert (∀ i, 0 <= i < 1024 → present (pde vm_mem 0x80102000 i) = true → i = 0) as Hi.
  { intros i Hi. rewrite vm_pde by done. by case_decide. }
  assert (∀ va, upage va → present (pte vm_mem 0x80102000 va) = true → va = 0) as Hva.
  { intros va Hu. rewrite vm_pte by done. by case_decide. }
  assert (tab vm_mem 0x80102000 0 = 0x80103000) as Ht by (by vm_compute).
  assert (frame vm_mem 0x80102000 0 = 0x80104000) as Hf by (by vm_compute).
  split.
  - split; [apply store32_ok, store32_ok, store32_ok, mem0_ok| | |vm_compute; split_and!; reflexivity].
    { apply (bool_decide_unpack _). vm_compute. exact I. }
    apply Forall_cons; split; [apply (vm_page 3); lia|]. apply Forall_cons; split; [apply (vm_page 4); lia|]. done.
  - change (km_mem vm_ex) with vm_mem. split.
    + split; [apply (vm_page 0); lia|]. by apply (bool_decide_unpack _); vm_compute.
    + intros i Hir Hp. rewrite (Hi i) by done. rewrite Ht. split; [apply (vm_page 1); lia|].
      split; [by apply (bool_decide_unpack _); vm_compute|done].
    + intros i j H1 H2 H3 H4 _. by rewrite (Hi i), (Hi j).
    + intros va Hu Hp. rewrite (Hva va) by done. rewrite Hf. split; [apply (vm_page 2); lia|].
      split; [by apply (bool_decide_unpack _); vm_compute|]. split; [done|].
      intros i Hir Hpi. rewrite (Hi i) by done. by rewrite Ht.
    + intros va va' U U' H1 H2 _. by rewrite (Hva va), (Hva va').
    + intros p [[->%elem_of_singleton| ->%elem_of_singleton]%elem_of_union| ->%elem_of_singleton]%elem_of_union; [by left| |].
      * right; left. exists 0. rewrite Ht. split; [lia|]. split; [by vm_compute|reflexivity].
      * right; right. exists 0. rewrite Hf. split; [apply upage_0|]. split; [by vm_compute|reflexivity].
  - intros p Hp. rewrite !elem_of_cons, elem_of_nil. revert Hp. unfold vm_own.
    rewrite !elem_of_union, !elem_of_singleton. lia.
Qed.

Lemma deallocuvm_correct_witness :
  ∃ k' l' own', deallocuvm 0x80101000 0x80102000 4096 0 vm_ex = Ok 0 k' ∧
    vinv 0x80101000 k' l' 0x80102000 own' ∧ present (pte (km_mem k') 0x80102000 0) = false.
Proof.
  destruct (deallocuvm_correct 0x80101000 0x80102000 4096 0 vm_ex [0x80105000; 0x80106000] vm_own) as [_ H];
    [done|apply vm_ex_inv|done|done|].
  destruct H as (k' & l' & own' & H & Hv & _ & Hp & _); [done|]. exists k', l', own'. split; [exact H|]. split; [exact Hv|].
  clear H. apply (Hp 0 upage_0). change (PGROUNDUP 0) with 0. lia.
Defined.

Lemma freevm_correct_witness :
  ∃ k' l', freevm 0x80101000 0x80102000 vm_ex = Ok tt k' ∧ km_inv 0x80101000 k' l' ∧
    0x80104000 ∈ l' ∧ 0x80102000 ∈ l'.
Proof.
  destruct (freevm_correct 0x80101000 0x80102000 vm_ex [0x80105000; 0x80106000] vm_own) as (k' & l' & H & Hk & Hl & _);
    [done|apply vm_ex_inv|].
  exists k', l'. split; [exact H|]. split; [exact Hk|]. rewrite !Hl.
  clear H. split; left; by apply (bool_decide_unpack _); vm_compute.
Defined.

Lemma allocuvm_correct_witness :
  ∃ r k' l' own', allocuvm 0x80101000 0x80102000 4096 8192 vm_ex = Ok r k' ∧
    vinv 0x80101000 k' l' 0x80102000 own' ∧ pte (km_mem k') 0x80102000 0 = 0x104007.
Proof.
  destruct (allocuvm_correct 0x80101000 0x80102000 4096 8192 vm_ex [0x80105000; 0x80106000] vm_own) as (_ & _ & H);
    [done|apply vm_ex_inv|done|done|].
  assert (PGROUNDUP 4096 = 4096) as E by (by vm_compute). rewrite E in H.
  destruct H as (r & k' & l' & own' & H & Hv & _ & _ & Hp & _); [done|done| |].
  { intros va Hu Hr. change (km_mem vm_ex) with vm_mem. rewrite vm_pte by done. case_decide; [lia|done]. }
  exists r, k', l', own'. split; [exact H|]. split; [exact Hv|]. clear H.
  rewrite (proj1 (Hp 0 upage_0 ltac:(lia))).   change (km_mem vm_ex) with vm_mem. by rewrite vm_pte by exact upage_0.
Defined.

Lemma copyout_correct_witness :
  ∃ k', copyout 0x80102000 4090 0x80105000 6 vm_ex = Ok 0 k' ∧
    km_mem k' 0x80104fff = 0 ∧ km_mem k' 0x80104ffb = 0x60 ∧ km_mem k' 0x80104ffd = 0x80.
Proof.
  destruct (copyout_correct 0x80101000 vm_ex [0x80105000; 0x80106000] 0x80102000 vm_own 4090 0x80105000 6) as [H _];
    [apply vm_ex_inv|done|done|done|].
  assert (∀ i, 0 <= i < 6 → PGROUNDDOWN (4090 + i) = 0) as Hd.
  { intros i Hi. rewrite PGROUNDDOWN_eq. Z.to_euclidean_division_equations; lia. }
  destruct H as (k' & H & _ & Hp & Hc & _).
  - intros i Hi. rewrite Hd by done. split; [by vm_compute|]. split; by vm_compute.
  - intros i q Hi. unfold vm_own. rewrite !elem_of_union, !elem_of_singleton. lia.
  - assert (∀ i, 0 <= i < 6 → km_mem k' (0x80104ffa + i) = vm_mem (0x80105000 + i)) as Hc'.
    { clear H. intros i Hi. specialize (Hc i Hi). unfold translate, frame in Hc. rewrite Hp, Hd in Hc by done.
      assert ((4090 + i) mod 4096 = 4090 + i) as E by (apply Z.mod_small; lia). rewrite E in Hc.
      change (km_mem vm_ex) with vm_mem in Hc. rewrite vm_pte, decide_True in Hc by done.
      change (P2V (PTE_ADDR 0x104007)) with 0x80104000 in Hc. rewrite <-Hc. f_equal. lia. }
    exists k'. split; [exact H|]. split; [exact (Hc' 5 ltac:(lia))|]. split; [exact (Hc' 1 ltac:(lia))|exact (Hc' 3 ltac:(lia))].
Defined.
