(* ===== verification/VmCopy.v ===== *)
(** * New address spaces (vm.c)

    setupkvm builds a directory that maps the kernel; copyuvm copies the user part
    of an address space into one. The theorems are over the ownership of pages of
    VmSpec.v. *)

From S2P Require Import Prelude Cstring Kalloc Vm VmSpec.

(** The PTE that mappages writes for [pa]. *)
Definition leaf (pa f : Z) : Z := Z.lor (Z.lor pa f) PTE_P.

Lemma leaf_eq pa f : 0 <= pa < 4294967296 → pa mod 4096 = 0 → 0 <= f < 4096 →
  leaf pa f = pa + Z.lor f 1 ∧ 0 <= Z.lor f 1 < 4096 ∧ is_u32 (leaf pa f) ∧ present (leaf pa f) = true ∧
  PTE_ADDR (leaf pa f) = pa.
Proof.
  intros Hpa Hm Hf.
  assert (0 <= Z.lor f 1 < 4096) as Hl.
  { destruct (pte_value 0x80000000 0x80000000 f) as (_ & H & _); [split; [done|unfold KERNBASE, PHYSTOP; lia]|done|done]. }
  assert (leaf pa f = pa + Z.lor f 1) as E.
  { unfold leaf. rewrite <-Z.lor_assoc. by apply lor_page. }
  rewrite E. split; [done|]. split; [done|]. split.
  { unfold is_u32. Z.to_euclidean_division_equations; lia. }
  split.
  - rewrite present_odd, Z.odd_add. assert (Z.odd pa = false) as ->.
    { rewrite <-Z.negb_even. apply negb_false_iff, Z.even_spec. exists (pa / 2).
      Z.to_euclidean_division_equations; lia. }
    rewrite <-Z.bit0_odd, Z.lor_spec. change (Z.testbit 1 0) with true. by rewrite orb_true_r.
  - rewrite PTE_ADDR_eq, Zplus_mod, Hm, Z.add_0_l, Z.mod_mod, (Z.mod_small (Z.lor f 1)) by lia. lia.
Qed.

Section kend.
Variable kend : Z.
Abbreviation page := (is_page kend).
Abbreviation vinv := (vinv kend).

(** ** The kernel's part *)

(** What setupkvm does to its directory: pages come from the free list, and the
    user part stays as it is. *)
Record kstep (pgdir : Z) k l own k' l' own' : Prop := {
  ks_inv : vinv k' l' pgdir own';
  ks_free : ∀ p, p ∈ l' → p ∈ l;
  ks_pool : ∀ p, pool own' l' p ↔ pool own l p;
  ks_user : ∀ va, upage va → pte (km_mem k') pgdir va = pte (km_mem k) pgdir va;
  ks_out : outside (pool own l) (km_mem k) (km_mem k')
}.

Lemma kstep_refl pgdir k l own : vinv k l pgdir own → kstep pgdir k l own k l own.
Proof. intros H. by split. Qed.

Lemma kstep_trans pgdir k l own k1 l1 own1 k2 l2 own2 :
  kstep pgdir k l own k1 l1 own1 → kstep pgdir k1 l1 own1 k2 l2 own2 → kstep pgdir k l own k2 l2 own2.
Proof.
  intros [A1 A2 A3 A4 A5] [B1 B2 B3 B4 B5]. split; [done|auto| | |].
  - intros p. by rewrite B3, A3.
  - intros va Hu. by rewrite B4, A4.
  - intros x Hx. rewrite B5; [by apply A5|]. intros p Hp. by apply Hx, A3.
Qed.

(** One page. *)
Lemma kmap_one fuel k l pgdir own va last pa f :
  vinv k l pgdir own → vpage va → KERNBASE <= va → present (pte (km_mem k) pgdir va) = false →
  0 <= pa < 4294967296 → pa mod 4096 = 0 → 0 <= f < 4096 →
  mappages_loop (S fuel) pgdir va last pa f k = Ok (-1) k ∨
  ∃ k' l' own', kstep pgdir k l own k' l' own' ∧
    (∀ va', vpage va' → pte (km_mem k') pgdir va' = if decide (va' = va) then leaf pa f else pte (km_mem k) pgdir va') ∧
    mappages_loop (S fuel) pgdir va last pa f k =
      (if va =? last then mret 0 else mappages_loop fuel pgdir (u32 (va + PGSIZE)) last (u32 (pa + PGSIZE)) f) k'.
Proof.
  intros Hv Hva Hk Hnp Hpa Hpm Hf. destruct (leaf_eq pa f Hpa Hpm Hf) as (_ & _ & Hu & Hpv & _).
  destruct (map_core kend fuel k l pgdir own va last pa f Hv Hnp) as [(-> & _ & H)|(k1 & l1 & own1 & Hg & Hp & H)];
    [by left|right]. fold (leaf pa f) in H.
  pose proof (gr_inv _ _ _ _ _ _ _ _ Hg) as Hv1.
  pose proof (space_kernel kend (km_mem k1) pgdir own1 va (leaf pa f) (vi_sp _ _ _ _ _ Hv1)) as Hs2.
  specialize (Hs2 ltac:(destruct Hva; lia) Hp Hu).
  destruct (grows_store kend k l pgdir own k1 l1 own1 own1 va _ Hg Hp Hu Hs2) as [[C1 C2 _ C4] Hpte].
  { intros p. by apply (vi_dis _ _ _ _ _ Hv1). }
  eexists _, l1, own1. split; [|split; [|exact H]].
  - split; [exact C1|exact C2| | |exact C4].
    + apply (gr_pool _ _ _ _ _ _ _ _ Hg).
    + intros va' Hva'. cbn [km_mem]. rewrite Hpte. case_decide as Hsp; [|done].
      apply (same_page_vpage va va' Hva (upage_vpage _ Hva')) in Hsp as ->. destruct Hva'. lia.
  - intros va' Hva'. cbn [km_mem]. rewrite Hpte.
    destruct (decide (same_page va va')) as [Hsp|Hsp]; rewrite (same_page_vpage va va') in Hsp by done;
      [by rewrite decide_True|by rewrite decide_False].
Qed.

(** The pages of [a, last]. *)
Lemma kmap_loop fuel k l pgdir own a last pa f :
  vinv k l pgdir own → vpage a → vpage last → KERNBASE <= a <= last → pa mod 4096 = 0 →
  0 <= pa → pa + (last - a) < 4294967296 → 0 <= f < 4096 →
  (∀ va, vpage va → a <= va <= last → present (pte (km_mem k) pgdir va) = false) →
  last - a + 4096 <= 4096 * Z.of_nat fuel →
  ∃ r k' l' own', mappages_loop fuel pgdir a last pa f k = Ok r k' ∧ kstep pgdir k l own k' l' own' ∧
    (r = -1 ∨ r = 0 ∧ ∀ va, vpage va →
       pte (km_mem k') pgdir va = if decide (a <= va <= last) then leaf (pa + (va - a)) f else pte (km_mem k) pgdir va).
Proof.
  revert k l own a pa. induction fuel as [|fuel IH]; intros k l own a pa Hv Ha Hl Hr Hpm Hpa Hpe Hf Hno Hfu; [lia|].
  destruct (kmap_one fuel k l pgdir own a last pa f Hv Ha) as [H|(k1 & l1 & own1 & Hk1 & Hp1 & H)];
    [lia|apply Hno; [done|lia]|lia|done|done| |].
  { exists (-1), k, l, own. split; [done|]. split; [by apply kstep_refl|by left]. }
  rewrite H. destruct (Z.eqb_spec a last) as [->|Hne].
  - exists 0, k1, l1, own1. split; [done|]. split; [done|]. right. split; [done|]. intros va Hva. rewrite Hp1 by done.
    repeat case_decide; subst; try lia; try done. f_equal. lia.
  - assert (a + 4096 <= last) as Hal.
    { destruct Ha as [_ Ha], Hl as [_ Hl]. Z.to_euclidean_division_equations; lia. }
    assert (u32 (a + PGSIZE) = a + 4096 ∧ u32 (pa + PGSIZE) = pa + 4096) as [-> ->].
    { destruct Ha, Hl. unfold PGSIZE. rewrite !u32_small by (unfold is_u32; lia). done. }
    destruct (IH k1 l1 own1 (a + 4096) (pa + 4096)) as (r & k2 & l2 & own2 & H2 & Hk2 & Hres).
    + apply Hk1.
    + destruct Ha, Hl. split; [lia|]. by rewrite Z.add_mod, H1.
    + done.
    + lia.
    + by rewrite Z.add_mod, Hpm.
    + lia.
    + lia.
    + done.
    + intros va Hva Hin. rewrite Hp1, decide_False by (done || lia). apply Hno; [done|lia].
    + lia.
    + exists r, k2, l2, own2. split; [done|]. split; [by eapply kstep_trans|].
      destruct Hres as [->|[-> Hres]]; [by left|right]. split; [done|]. intros va Hva. rewrite Hres, Hp1 by done.
      assert (a <= va <= last → va ≠ a → a + 4096 <= va) as Hstep.
      { destruct Ha as [_ Ha], Hva as [_ Hva]. Z.to_euclidean_division_equations; lia. }
      repeat case_decide; try lia; try done; f_equal; lia.
Qed.

(** mappages of the kernel range [virt, virt + sz). *)
Lemma kmap_range k l pgdir own virt sz ps f :
  vinv k l pgdir own → vpage virt → KERNBASE <= virt → 0 < sz → sz mod 4096 = 0 → virt + sz <= 4294967296 →
  ps mod 4096 = 0 → 0 <= ps → ps + sz <= 4294967296 → 0 <= f < 4096 →
  (∀ va, vpage va → virt <= va < virt + sz → present (pte (km_mem k) pgdir va) = false) →
  ∃ r k' l' own', mappages pgdir virt sz ps f k = Ok r k' ∧ kstep pgdir k l own k' l' own' ∧
    (r = -1 ∨ r = 0 ∧ ∀ va, vpage va → pte (km_mem k') pgdir va =
       if decide (virt <= va < virt + sz) then leaf (ps + (va - virt)) f else pte (km_mem k) pgdir va).
Proof.
  intros Hv Hva Hk Hsz Hsm Hend Hpm Hp0 Hpe Hf Hno. unfold mappages. pose proof Hva as [Hvr Hvm].
  assert (PGROUNDDOWN virt = virt) as -> by (rewrite PGROUNDDOWN_eq; lia).
  assert (PGROUNDDOWN (u32 (virt + sz - 1)) = virt + sz - 4096) as ->.
  { rewrite u32_small, PGROUNDDOWN_eq by (unfold is_u32; lia). Z.to_euclidean_division_equations; lia. }
  assert (∀ va, vpage va → virt <= va <= virt + sz - 4096 ↔ virt <= va < virt + sz) as Hrng.
  { intros va [_ Hm]. Z.to_euclidean_division_equations; lia. }
  assert (4096 <= sz) as Hsz1 by (Z.to_euclidean_division_equations; lia).
  destruct (kmap_loop npages k l pgdir own virt (virt + sz - 4096) ps f) as (r & k' & l' & own' & H & Hs & Hr);
    [done|done| |lia|done|done|lia|done| | |].
  - split; [lia|]. Z.to_euclidean_division_equations; lia.
  - intros va Hvp Hin. apply Hno; [done|by apply Hrng].
  - unfold npages, KERNBASE in *. lia.
  - exists r, k', l', own'. split; [exact H|]. split; [exact Hs|]. destruct Hr as [->|[-> Hr]]; [by left|right].
    split; [done|]. intros va Hvp. rewrite Hr by done.
    destruct (decide (virt <= va < virt + sz)) as [Hd|Hd]; rewrite <-Hrng in Hd by done;
      [by rewrite decide_True|by rewrite decide_False].
Qed.

(** A directory of zeros. *)
Lemma empty_dir k l q :
  km_inv kend k l → page q → q ∉ l → (∀ x, q <= x < q + 4096 → km_mem k x = 0) →
  vinv k l q {[q]} ∧ ∀ va, pte (km_mem k) q va = 0.
Proof.
  intros Hk Hq Hql Hz.
  assert (∀ i, 0 <= i < 1024 → pde (km_mem k) q i = 0) as Hd by (intros i Hi; by apply load32_zero).
  assert (∀ va, pte (km_mem k) q va = 0) as Hp by (intros va; unfold pte; by rewrite Hd by apply PDX_range).
  split; [|done]. split; [done| |by intros p ->%elem_of_singleton]. split.
  - split; [done|by apply elem_of_singleton].
  - intros i Hi. by rewrite Hd.
  - intros i j Hi Hj. by rewrite (Hd i).
  - intros va Hu. by rewrite Hp.
  - intros va va' Hu Hu'. by rewrite Hp.
  - intros p ->%elem_of_singleton. by left.
Qed.

(** ** The rows of kmap *)

Definition kmap_row : Type := Z * Z * Z * Z.

(** The rows are in order, from [b] on, and of whole pages. *)
Fixpoint rows_ok (b : Z) (rows : list kmap_row) : Prop :=
  match rows with
  | [] => True
  | (virt, ps, pe, perm) :: rows =>
      let sz := u32 (pe - ps) in
      b <= virt ∧ vpage virt ∧ 0 < sz ∧ sz mod 4096 = 0 ∧ virt + sz <= 4294967296 ∧
      ps mod 4096 = 0 ∧ 0 <= ps ∧ ps + sz <= 4294967296 ∧ 0 <= perm < 4096 ∧ rows_ok (virt + sz) rows
  end.

(** The PTE the rows ask for. *)
Fixpoint rows_pte (rows : list kmap_row) (va : Z) : Z :=
  match rows with
  | [] => 0
  | (virt, ps, pe, perm) :: rows =>
      if decide (virt <= va < virt + u32 (pe - ps)) then leaf (ps + (va - virt)) perm else rows_pte rows va
  end.

Lemma rows_pte_below b rows va : rows_ok b rows → va < b → rows_pte rows va = 0.
Proof.
  revert b. induction rows as [|[[[virt ps] pe] perm] rows IH]; intros b; [done|]. cbn [rows_ok rows_pte].
  intros (Hb & _ & Hs & _ & _ & _ & _ & _ & _ & Hr) Hva. rewrite decide_False by lia. apply (IH _ Hr). lia.
Qed.

Definition map_row (pgdir : Z) : kmap_row → M kmst (option Z) := λ '(virt, ps, pe, perm),
  r ← mappages pgdir virt (u32 (pe - ps)) ps perm;
  if r <? 0 then freevm kend pgdir;; mret (Some 0) else mret None.

Lemma map_rows b rows k l pgdir own :
  KERNBASE < kend → KERNBASE <= b → rows_ok b rows → vinv k l pgdir own →
  (∀ va, vpage va → b <= va → pte (km_mem k) pgdir va = 0) →
  (∃ k' l', for_until rows (map_row pgdir) k = Ok (Some 0) k' ∧ km_inv kend k' l' ∧
     (∀ p, p ∈ l' ↔ pool own l p) ∧ outside (pool own l) (km_mem k) (km_mem k')) ∨
  ∃ k' l' own', for_until rows (map_row pgdir) k = Ok None k' ∧ kstep pgdir k l own k' l' own' ∧
    ∀ va, vpage va → pte (km_mem k') pgdir va = if decide (b <= va) then rows_pte rows va else pte (km_mem k) pgdir va.
Proof.
  intros Hkend. revert b k l own. induction rows as [|[[[virt ps] pe] perm] rows IH]; intros b k l own Hb Hok Hv Hno.
  { right. exists k, l, own. split; [done|]. split; [by apply kstep_refl|]. intros va Hva. case_decide; [by apply Hno|done]. }
  cbn [rows_ok] in Hok. destruct Hok as (Hbv & Hvp & Hsz & Hsm & Hend & Hpm & Hp0 & Hpe & Hf & Hok).
  set (sz := u32 (pe - ps)) in *. cbn [for_until].
  destruct (kmap_range k l pgdir own virt sz ps perm) as (r & k1 & l1 & own1 & H & Hs & Hr); try done; [lia| |].
  { intros va Hva Hin. by rewrite Hno by (done || lia). }
  assert (map_row pgdir (virt, ps, pe, perm) k = (if r <? 0 then freevm kend pgdir;; mret (Some 0) else mret None) k1) as Hrow.
  { unfold map_row. fold sz. by rewrite (bind_run _ _ _ _ _ H). }
  pose proof Hs as [S1 S2 S3 S4 S5]. destruct Hr as [->|[-> Hr]].
  - change (-1 <? 0) with true in Hrow. cbv iota in Hrow. left. destruct (freevm_correct kend pgdir k1 l1 own1 Hkend S1) as (k2 & l2 & H2 & Hk2 & Hl2 & Ho2).
    rewrite (bind_run _ _ _ _ _ H2) in Hrow. exists k2, l2. split; [by rewrite (bind_run _ _ _ _ _ Hrow)|].
    split; [done|]. split; [intros p; by rewrite Hl2, <-S3|].
    intros x Hx. rewrite Ho2; [by apply S5|]. intros p Hp. apply Hx. by apply S3.
  - change (0 <? 0) with false in Hrow. cbv iota in Hrow.
    assert (∀ va, vpage va → virt + sz <= va → pte (km_mem k1) pgdir va = 0) as Hno1.
    { intros va Hva Hge. rewrite Hr, decide_False by (done || lia). apply Hno; [done|lia]. }
    destruct (IH (virt + sz) k1 l1 own1 ltac:(lia) Hok S1 Hno1) as [(k2 & l2 & H2 & Hk2 & Hl2 & Ho2)|(k2 & l2 & own2 & H2 & Hs2 & Hp2)].
    + left. exists k2, l2. split; [by rewrite (bind_run _ _ _ _ _ Hrow)|]. split; [done|].
      split; [intros p; by rewrite Hl2|]. intros x Hx. rewrite Ho2; [by apply S5|]. intros p Hp. by apply Hx, S3.
    + right. exists k2, l2, own2. split; [by rewrite (bind_run _ _ _ _ _ Hrow)|].
      split; [by eapply kstep_trans|]. intros va Hva. rewrite Hp2, Hr by done. cbn [rows_pte]. fold sz.
      repeat case_decide; try lia; try done.
      rewrite (rows_pte_below _ _ _ Hok) by lia. apply Hno; [done|lia].
Qed.

(** ** setupkvm *)

Section kdata.
Variable kdata : Z.
(** The linker puts [data] on a page boundary, after the kernel's text. *)
Hypothesis kdata_ok : KERNLINK < kdata < KERNBASE + PHYSTOP ∧ kdata mod 4096 = 0.
Hypothesis kend_ok : KERNBASE < kend.

(** The kernel's view of memory: low memory and text at KERNBASE, the text read
    only, devices where they are. *)
Definition kernel_pte (va : Z) : Z :=
  if decide (va < KERNLINK) then leaf (va - KERNBASE) PTE_W
  else if decide (va < kdata) then leaf (va - KERNBASE) 0
  else if decide (va < KERNBASE + PHYSTOP) then leaf (va - KERNBASE) PTE_W
  else if decide (va < DEVSPACE) then 0 else leaf va PTE_W.
Definition maps_kernel (m : mem) (pgdir : Z) : Prop :=
  ∀ va, vpage va → KERNBASE <= va → pte m pgdir va = kernel_pte va.

Lemma V2P_kdata : V2P kdata = kdata - KERNBASE ∧ V2P KERNLINK = EXTMEM ∧ u32 (V2P kdata - V2P KERNLINK) = kdata - KERNLINK ∧
  u32 (PHYSTOP - V2P kdata) = KERNBASE + PHYSTOP - kdata.
Proof.
  destruct kdata_ok as [H _]. unfold KERNLINK, EXTMEM in *.
  assert (V2P kdata = kdata - KERNBASE) as ->.
  { unfold V2P, KERNBASE, PHYSTOP in *. apply u32_small. unfold is_u32. lia. }
  change (V2P (KERNBASE + 1048576)) with 1048576. unfold KERNBASE, PHYSTOP in *.
  rewrite !u32_small by (unfold is_u32; lia). lia.
Qed.

Lemma kmap_rows_ok : rows_ok KERNBASE (kmap kdata).
Proof.
  destruct V2P_kdata as (E1 & E2 & E3 & E4). destruct kdata_ok as [H Hm].
  unfold kmap. cbn [rows_ok]. rewrite E3, E4, E2, E1.
  change (u32 (EXTMEM - 0)) with 1048576. change (u32 (0 - DEVSPACE)) with 33554432. unfold vpage.
  unfold KERNLINK, EXTMEM, KERNBASE, PHYSTOP, DEVSPACE, PTE_W in *.
  split_and!; try done; try lia; Z.to_euclidean_division_equations; lia.
Qed.

Lemma kmap_rows_pte va : KERNBASE <= va < 4294967296 → rows_pte (kmap kdata) va = kernel_pte va.
Proof.
  intros Hva. destruct V2P_kdata as (E1 & E2 & E3 & E4). destruct kdata_ok as [H Hm].
  unfold kmap, kernel_pte. cbn [rows_pte]. rewrite E3, E4, E2, E1.
  change (u32 (EXTMEM - 0)) with 1048576. change (u32 (0 - DEVSPACE)) with 33554432.
  unfold KERNLINK, EXTMEM, KERNBASE, PHYSTOP, DEVSPACE in *.
  repeat case_decide; try lia; try done; f_equal; lia.
Qed.

Lemma setupkvm_run k l :
  km_inv kend k l →
  ∃ r k', setupkvm kend kdata k = Ok r k' ∧ outside (λ p, p ∈ l) (km_mem k) (km_mem k') ∧
    ((r = 0 ∧ ∃ l', km_inv kend k' l' ∧ ∀ p, p ∈ l' ↔ p ∈ l) ∨
     (r ∈ l ∧ ∃ l' own, vinv k' l' r own ∧ (∀ p, pool own l' p ↔ p ∈ l) ∧
        (∀ va, upage va → pte (km_mem k') r va = 0) ∧ maps_kernel (km_mem k') r)).
Proof.
  intros Hk. unfold setupkvm. pose proof (kalloc_step kend k l Hk) as Ha. destruct l as [|q l].
  { exists 0, k. rewrite (bind_run _ _ _ _ _ Ha). split; [done|]. split; [done|]. left. split; [done|]. by exists []. }
  destruct Ha as (k1 & H1 & Hq0 & Hqp & Hql & Hk1 & Hm1). rewrite (bind_run _ _ _ _ _ H1).
  rewrite (proj2 (Z.eqb_neq q 0)) by done. rewrite on_mem_run. rewrite run_panic_if by done.
  set (kz := KmSt _ _ _).
  assert (∀ x, km_mem kz x = if decide (q <= x < q + 4096) then 0 else km_mem k x) as Hmz.
  { intros x. unfold kz. cbn [km_mem]. rewrite Hm1. by apply KernelSpec.memset_eq. }
  assert (km_inv kend kz l) as Hkz.
  { apply (km_inv_mem kend k1 l); [done| |].
    - intros x. change (is_u8 (km_mem kz x)). rewrite Hmz. case_decide; [unfold is_u8; lia|apply Hk].
    - intros p x Hp Hx. change (km_mem kz x = km_mem k1 x). rewrite Hmz, decide_False, Hm1; [done|].
      intros Hxq. eapply (is_page_apart kend q p x x); [done|by eapply free_page|congruence|done|done|done]. }
  destruct (empty_dir kz l q Hkz Hqp Hql) as [Hv Hz].
  { intros x Hx. by rewrite Hmz, decide_True. }
  assert (outside (λ p, p ∈ q :: l) (km_mem k) (km_mem kz)) as Hoz.
  { intros x Hx. rewrite Hmz, decide_False; [done|]. apply Hx. by left. }
  assert (∀ p, pool {[q]} l p ↔ p ∈ q :: l) as Hpool by (intros p; unfold pool; by rewrite elem_of_singleton, elem_of_cons).
  assert (∀ m', outside (pool {[q]} l) (km_mem kz) m' → outside (λ p, p ∈ q :: l) (km_mem k) m') as Hout.
  { intros m' Ho x Hx. rewrite Ho; [by apply Hoz|]. intros p Hp. by apply Hx, Hpool. }
  change (for_until (kmap kdata) _) with (for_until (kmap kdata) (map_row q)).
  destruct (map_rows KERNBASE (kmap kdata) kz l q {[q]}) as [(k2 & l2 & H2 & Hk2 & Hl2 & Ho2)|(k2 & l2 & own2 & H2 & Hs2 & Hp2)];
    [done|done|by apply kmap_rows_ok|done|intros va _ _; apply Hz| |]; rewrite (bind_run _ _ _ _ _ H2).
  - exists 0, k2. split; [done|]. split; [by apply Hout|]. left. split; [done|]. exists l2. split; [done|].
    intros p. by rewrite Hl2.
  - exists q, k2. split; [done|]. destruct Hs2 as [S1 S2 S3 S4 S5]. split; [by apply Hout|]. right. split; [by left|].
    exists l2, own2. split; [done|]. split; [intros p; by rewrite S3|]. split.
    + intros va Hu. by rewrite S4.
    + intros va Hva Hge. rewrite Hp2, decide_True by done. apply kmap_rows_pte. destruct Hva. lia.
Qed.

(** ** copyuvm *)

Lemma lor_1_odd f : Z.odd f = true → Z.lor f 1 = f.
Proof.
  intros Ho. apply Z.bits_inj'. intros n Hn. rewrite Z.lor_spec. change 1 with (2 ^ 0).
  destruct (decide (n = 0)) as [->|Hne].
  - by rewrite Z.bit0_odd, Ho.
  - rewrite Z.pow2_bits_false by lia. apply orb_false_r.
Qed.

Lemma flags_present v : present v = true → 0 <= PTE_FLAGS v < 4096 ∧ Z.lor (PTE_FLAGS v) 1 = PTE_FLAGS v.
Proof.
  rewrite present_odd, PTE_FLAGS_eq. intros Ho. split; [by apply Z.mod_pos_bound|]. apply lor_1_odd. rewrite <-Ho.
  rewrite (Z.div_mod v 4096) at 2 by done. rewrite Z.add_comm, Z.odd_add_mul_even; [done|]. by exists 2048.
Qed.

Lemma pte_pde m pgdir va : present (pte m pgdir va) = true → present (pde m pgdir (PDX va)) = true.
Proof. unfold pte. by destruct (present (pde m pgdir (PDX va))). Qed.

(** An address space none of whose pages is written stays. *)
Lemma space_outside k l pgdir own m' :
  vinv k l pgdir own → outside (λ p, p ∈ l) (km_mem k) m' →
  (∀ p x, page p → p ∉ l → p <= x < p + 4096 → m' x = km_mem k x) ∧ skel_same pgdir (km_mem k) m'.
Proof.
  intros [Hk Hs Hd] Ho.
  assert (∀ p x, page p → p ∉ l → p <= x < p + 4096 → m' x = km_mem k x) as Hp.
  { intros p x Hpp Hpl Hx. eapply (outside_page kend (λ p, p ∈ l)); [|exact Ho|exact Hpp|exact Hpl|exact Hx].
    intros p' Hp'. by eapply free_page. }
  split; [done|]. intros p x Hps Hx. destruct (skel_own _ _ _ _ _ Hs Hps) as [Hpo Hpp]. apply (Hp p); auto.
Qed.

(** A page taken from the free list and written keeps the rest. *)
Lemma take_page k l pgdir own q :
  vinv k (q :: l) pgdir own →
  ∃ k1, kalloc k = Ok q k1 ∧ q ≠ 0 ∧ page q ∧ (q ∉ own) ∧ (q ∉ l) ∧ km_mem k1 = km_mem k ∧
    ∀ m', mem_ok m' → same_outside q (km_mem k) m' →
      vinv (KmSt m' (use_lock k1) (freelist k1)) l pgdir own ∧ skel_same pgdir (km_mem k) m' ∧
      (∀ z x, page z → z ≠ q → z <= x < z + 4096 → m' x = km_mem k x).
Proof.
  intros Hv. pose proof Hv as [Hk Hs Hd].
  destruct (kalloc_step kend k (q :: l) Hk) as (k1 & H1 & Hq0 & Hqp & Hql & Hk1 & Hm1).
  assert (q ∉ own) as Hqo by (intros Hin; by destruct (Hd q Hin); left).
  exists k1. do 6 (split; [done|]). intros m' Hok Hout.
  assert (∀ z x, page z → z ≠ q → z <= x < z + 4096 → m' x = km_mem k x) as Hz.
  { intros z x Hzp Hzq Hx. apply Hout. intros Hxq.
    by destruct (is_page_apart kend q z x x Hqp Hzp (not_eq_sym Hzq) Hxq Hx). }
  assert (skel_same pgdir (km_mem k) m') as Hsk.
  { intros p x Hps Hx. destruct (skel_own _ _ _ _ _ Hs Hps) as [Hpo Hpp]. apply (Hz p); [done|congruence|done]. }
  split; [|by split]. split; [|by eapply skel_space|].
  - apply (km_inv_mem kend k1 l); [done|done|]. intros p x Hpl Hx. rewrite Hm1.
    apply (Hz p); [by eapply free_page|congruence|done].
  - intros p Hpo Hpl. apply (Hd p Hpo). by right.
Qed.

(** The child's address space after the pages below [i] have been copied. [k0] and
    [l0] are the allocator's state at the call. *)
Record copying (pgdir d i : Z) k0 (l0 : list Z) k (l : list Z) (cown : gset Z) : Prop := {
  cy_inv : vinv k l d cown;
  cy_pool : ∀ p, pool cown l p ↔ p ∈ l0;
  cy_out : outside (λ p, p ∈ l0) (km_mem k0) (km_mem k);
  cy_in : ∀ va, upage va → va < i → present (pte (km_mem k) d va) = true ∧
    pte (km_mem k) d va = V2P (frame (km_mem k) d va) + PTE_FLAGS (pte (km_mem k0) pgdir va) ∧
    ∀ j, 0 <= j < 4096 → km_mem k (frame (km_mem k) d va + j) = km_mem k0 (frame (km_mem k0) pgdir va + j);
  cy_no : ∀ va, upage va → i <= va → present (pte (km_mem k) d va) = false;
  cy_kern : maps_kernel (km_mem k) d
}.

(** What a failed copyuvm gives back: the allocator's pages but at most one. *)
Definition gives_back (l0 l' : list Z) : Prop :=
  (∀ p, p ∈ l' → p ∈ l0) ∧ ∀ p p', p ∈ l0 → p' ∈ l0 → p ∉ l' → p' ∉ l' → p = p'.

(** The page [i] after the copy is mapped to [q]. *)
Lemma copying_snoc pgdir d i k0 l0 k q l cown kc k' l' own' :
  let v := pte (km_mem k0) pgdir i in
  copying pgdir d i k0 l0 k (q :: l) cown → upage i → present v = true → page q → q ∉ l → q ∈ l0 →
  skel_same d (km_mem k) (km_mem kc) → same_outside q (km_mem k) (km_mem kc) →
  (∀ j, 0 <= j < 4096 → km_mem kc (q + j) = km_mem k0 (frame (km_mem k0) pgdir i + j)) →
  changes kend d kc l cown k' l' ({[q]} ∪ own') → (∀ p, pool own' l' p ↔ pool cown l p) →
  (∀ va, vpage va → pte (km_mem k') d va = if decide (va = i) then V2P q + PTE_FLAGS v else pte (km_mem kc) d va) →
  copying pgdir d (i + 4096) k0 l0 k' l' ({[q]} ∪ own').
Proof.
  intros v [C1 C2 C3 C4 C5 C6] Hi Hpr Hqp Hql Hq0l Hsk Hout Hq [D1 D2 D3 D4] Hpool Hpte.
  destruct (flags_present v Hpr) as [Hf Hf1]. destruct (pte_frame kend q (PTE_FLAGS v) Hqp Hf) as (Hfr & _).
  assert (∀ z x, page z → z ≠ q → z <= x < z + 4096 → km_mem kc x = km_mem k x) as Hz.
  { intros z x Hzp Hzq Hx. apply Hout. intros Hxq.
    by destruct (is_page_apart kend q z x x Hqp Hzp (not_eq_sym Hzq) Hxq Hx). }
  assert (∀ va, vpage va → va ≠ i → pte (km_mem k') d va = pte (km_mem k) d va) as Hpo.
  { intros va Hu Hne. by rewrite Hpte, decide_False, (skel_pte _ _ _ _ Hsk). }
  assert (pte (km_mem k') d i = V2P q + PTE_FLAGS v) as Hpi by (by rewrite Hpte, decide_True by (done || by apply upage_vpage)).
  assert (present (pte (km_mem k') d i) = true) as Hppi.
  { rewrite Hpi, <-Hf1. by destruct (pte_value kend q (PTE_FLAGS v) Hqp Hf) as (_ & _ & ?). }
  split.
  - done.
  - intros p. rewrite <-C2. specialize (Hpool p). unfold pool in *. rewrite elem_of_union, elem_of_singleton, elem_of_cons. tauto.
  - intros x Hx. rewrite D4, Hout; [by apply C3|by apply Hx|].
    intros p Hp. apply Hx. apply C2. unfold pool in *. rewrite elem_of_cons. tauto.
  - intros va Hu Hr. assert (va = i ∨ va < i) as [->|Hr'].
    { destruct Hu as [_ Hm], Hi as [_ Hm']. Z.to_euclidean_division_equations; lia. }
    + assert (frame (km_mem k') d i = q) as Efr by (unfold frame; by rewrite Hpi). rewrite Efr. split; [done|]. split; [done|].
      intros j Hj. rewrite (D3 q); [by apply Hq|done| |done|lia]. rewrite <-Efr. eapply frame_not_skel; [apply D1|done|done].
    + assert (pte (km_mem k') d va = pte (km_mem k) d va) as E by (apply Hpo; [by apply upage_vpage|lia]).
      assert (frame (km_mem k') d va = frame (km_mem k) d va) as Ef by (unfold frame; by rewrite E).
      rewrite E, Ef. destruct (C4 va Hu Hr') as (Hpv & G1 & G2). split; [done|]. split; [done|]. intros j Hj.
      destruct (sp_frame _ _ _ _ (vi_sp _ _ _ _ _ C1) va Hu Hpv) as (K1 & K2 & _).
      assert (frame (km_mem k) d va ∉ q :: l) as Hnl by (by apply (vi_dis _ _ _ _ _ C1)).
      apply not_elem_of_cons in Hnl as [Hnq Hnl].
      rewrite (D3 _ _ K1); [rewrite (Hz _ _ K1 Hnq); [by apply G2|lia]| |done|lia].
      rewrite <-Ef. eapply frame_not_skel; [apply D1|done|by rewrite E].
  - intros va Hu Hr. destruct Hi. rewrite Hpo by (by apply upage_vpage || lia). apply C5; [done|lia].
  - intros va Hva Hge. rewrite Hpo; [by apply C6|done|]. intros ->. destruct Hi. lia.
Qed.

Lemma copy_one pgdir own d i k0 l0 k q l cown :
  vinv k0 l0 pgdir own → upage i → present (pte (km_mem k0) pgdir i) = true →
  copying pgdir d i k0 l0 k (q :: l) cown →
  let v := pte (km_mem k0) pgdir i in
  ∃ k1, kalloc k = Ok q k1 ∧ q ≠ 0 ∧
    let kc := KmSt (Kernel.memmove (km_mem k1) q (P2V (PTE_ADDR v)) (Z.to_nat PGSIZE)) (use_lock k1) (freelist k1) in
    vinv kc l d cown ∧ outside (λ p, p ∈ l0) (km_mem k0) (km_mem kc) ∧ (q ∉ l) ∧ (q ∉ cown) ∧
    (mappages d i PGSIZE (V2P q) (PTE_FLAGS v) kc = Ok (-1) kc ∨
     ∃ k' l' own', mappages d i PGSIZE (V2P q) (PTE_FLAGS v) kc = Ok 0 k' ∧
       copying pgdir d (i + 4096) k0 l0 k' l' own').
Proof.
  intros Hv0 Hi Hpr Hc v. pose proof Hc as [C1 C2 C3 C4 C5 C6].
  destruct (take_page k l d cown q C1) as (k1 & H1 & Hq0 & Hqp & Hqo & Hql & Hm1 & Htake).
  exists k1. split; [done|]. split; [done|]. intros kc.
  destruct (space_outside k0 l0 pgdir own _ Hv0 C3) as [Hpar _].
  destruct (sp_frame _ _ _ _ (vi_sp _ _ _ _ _ Hv0) i Hi Hpr) as (F1 & F2 & _).
  assert (∀ x, km_mem kc x = if decide (q <= x < q + 4096) then km_mem k0 (frame (km_mem k0) pgdir i + (x - q)) else km_mem k x) as Hkc.
  { intros x. unfold kc. cbn [km_mem]. rewrite Hm1, KernelSpec.memmove_eq by apply C1. change (Z.of_nat (Z.to_nat PGSIZE)) with 4096.
    change (P2V (PTE_ADDR v)) with (frame (km_mem k0) pgdir i). case_decide; [|done]. apply (Hpar _ _ F1); [by apply (vi_dis _ _ _ _ _ Hv0)|lia]. }
  assert (same_outside q (km_mem k) (km_mem kc)) as Hout by (intros x Hx; by rewrite Hkc, decide_False).
  destruct (Htake (km_mem kc)) as (Hvc & Hsk & _); [intros x; rewrite Hkc; case_decide; [apply Hv0|apply C1]|done|].
  change (KmSt _ _ _) with kc in Hvc.
  assert (q ∈ l0) as Hq0l by (apply C2; right; by left).
  split; [done|]. split.
  { intros x Hx. rewrite Hout; [by apply C3|by apply Hx]. }
  split; [done|]. split; [done|]. rewrite (mappages_page d i _ _ Hi). destruct (flags_present v Hpr) as [Hf Hf1].
  destruct (map_user kend (Z.to_nat 1048576) kc l d cown i i q (PTE_FLAGS v) Hvc Hi) as
    [[_ H]|(k' & l' & own' & Hch & _ & Hpool & Hpte & H)]; [by rewrite (skel_pte _ _ _ _ Hsk), C5|done|done|done|done| |].
  { by left. }
  right. rewrite Z.eqb_refl in H. rewrite Hf1 in Hpte. exists k', l', ({[q]} ∪ own'). split; [exact H|].
  eapply (copying_snoc pgdir d i k0 l0 k q l cown kc); try done.
  intros j Hj. rewrite Hkc, decide_True by lia. f_equal. lia.
Qed.

(** freevm of the child, when [l0] is what it owns and what is free, but for one
    page at most. *)
Lemma free_child d k l cown k0 (l0 : list Z) :
  vinv k l d cown → outside (λ p, p ∈ l0) (km_mem k0) (km_mem k) →
  (∀ p, pool cown l p → p ∈ l0) → (∀ p p', p ∈ l0 → p' ∈ l0 → ¬ pool cown l p → ¬ pool cown l p' → p = p') →
  ∃ k' l', (freevm kend d;; mret 0) k = Ok 0 k' ∧ km_inv kend k' l' ∧ gives_back l0 l' ∧
    outside (λ p, p ∈ l0) (km_mem k0) (km_mem k').
Proof.
  intros Hv Ho Hp H1. destruct (freevm_correct kend d k l cown kend_ok Hv) as (k' & l' & H & Hk' & Hl' & Ho').
  exists k', l'. rewrite (bind_run _ _ _ _ _ H). split; [done|]. split; [done|]. split.
  - split; [intros p Hin; by apply Hp, Hl'|]. intros p p' P1 P2 N1 N2. apply H1; [done|done|by rewrite <-(Hl' p) in *|].
    intros Hin. by apply N2, Hl'.
  - intros x Hx. rewrite Ho'; [by apply Ho|]. intros p Hpp. by apply Hx, Hp.
Qed.

Lemma copy_loop_run fuel pgdir own d sz i k0 l0 k l cown :
  vinv k0 l0 pgdir own → sz <= KERNBASE → (∀ va, upage va → va < sz → present (pte (km_mem k0) pgdir va) = true) →
  0 <= i < sz + 4096 → i mod 4096 = 0 → copying pgdir d i k0 l0 k l cown → Z.max 0 (sz - i) + 4096 <= 4096 * Z.of_nat fuel →
  ∃ r k' l', copyuvm_loop kend fuel pgdir d sz i k = Ok r k' ∧
    (r = 0 ∧ km_inv kend k' l' ∧ gives_back l0 l' ∧ outside (λ p, p ∈ l0) (km_mem k0) (km_mem k') ∨
     r = d ∧ ∃ cown', copying pgdir d sz k0 l0 k' l' cown').
Proof.
  intros Hv0 Hsz Hpres. revert i k l cown. induction fuel as [|fuel IH]; intros i k l cown Hi Him Hc Hf; [lia|].
  cbn [copyuvm_loop]. pose proof Hc as [C1 C2 C3 C4 C5 C6]. destruct (Z.ltb_spec i sz) as [Hlt|Hge].
  2: { exists d, k, l. split; [done|]. right. split; [done|]. exists cown. split; try done.
       - intros va Hu Hr. apply C4; [done|lia].
       - intros va Hu Hr. apply C5; [done|]. destruct Hu as [_ Hm]. Z.to_euclidean_division_equations; lia. }
  assert (upage i) as Hu by (split; [lia|done]). pose proof (Hpres i Hu Hlt) as Hpr.
  destruct (space_outside k0 l0 pgdir own _ Hv0 C3) as [_ Hsk].
  assert (pte (km_mem k) pgdir i = pte (km_mem k0) pgdir i) as Ep by (by apply skel_pte).
  assert (present (pde (km_mem k) pgdir (PDX i)) = true) as Hpd by (apply pte_pde; by rewrite Ep).
  rewrite (bind_run _ _ _ _ _ (walk_present pgdir i false k Hpd)).
  rewrite run_panic_if.
  2: { apply Z.eqb_neq. apply (slot_nonzero kend (km_mem k) pgdir own); [by eapply skel_space; [|apply Hv0]|done]. }
  unfold rd32 at 1. run.
  assert (load32 (km_mem k) (slot (km_mem k) pgdir i) = pte (km_mem k0) pgdir i) as -> by (rewrite <-Ep; unfold pte; by rewrite Hpd).
  rewrite run_panic_if by (unfold present in Hpr; by apply negb_true_iff in Hpr).
  destruct l as [|q l].
  - pose proof (kalloc_step kend k [] (vi_km _ _ _ _ _ C1)) as H1. cbn in H1. rewrite (bind_run _ _ _ _ _ H1).
    change (0 =? 0) with true. cbv iota.
    destruct (free_child d k [] cown k0 l0 C1 C3) as (k' & l' & H & R); [intros p; apply C2|intros p p' P1 P2 N1; by apply C2 in P1|].
    exists 0, k', l'. split; [exact H|]. by left.
  - destruct (copy_one pgdir own d i k0 l0 k q l cown Hv0 Hu Hpr Hc) as (k1 & H1 & Hq0 & Hz). cbv zeta in Hz.
    set (kc := KmSt _ _ _) in Hz. destruct Hz as (Hvc & Hoc & Hql & Hqo & Hmap).
    rewrite (bind_run _ _ _ _ _ H1). rewrite (proj2 (Z.eqb_neq q 0)) by done. rewrite on_mem_run. fold kc.
    destruct Hmap as [H2|(k2 & l2 & own2 & H2 & Hc2)]; rewrite (bind_run _ _ _ _ _ H2).
    + change (-1 <? 0) with true. cbv iota.
      assert (∀ p, p ∈ l0 ↔ p = q ∨ pool cown l p) as Hpq.
      { intros p. rewrite <-C2. unfold pool. rewrite elem_of_cons. tauto. }
      destruct (free_child d kc l cown k0 l0 Hvc Hoc) as (k' & l' & H & R).
      * intros p Hp. apply Hpq. by right.
      * intros p p' P1 P2 N1 N2. apply Hpq in P1 as [->|P1]; [|done]. by apply Hpq in P2 as [->|P2].
      * exists 0, k', l'. split; [exact H|]. by left.
    + change (0 <? 0) with false. cbv iota.
      assert (u32 (i + PGSIZE) = i + 4096) as ->.
      { unfold PGSIZE, KERNBASE in *. apply u32_small. unfold is_u32. lia. }
      apply (IH (i + 4096) k2 l2 own2); [lia|by rewrite Z.add_mod, Him|done|lia].
Qed.

(** C27. The kernel's part of an address space: setupkvm either runs out of memory,
    returns 0 and gives every page back, or returns a directory in which each page
    from KERNBASE on maps as kernel_pte says - memory up to PHYSTOP at its physical
    address, the kernel's text read only, the devices at their addresses, none of
    it accessible to the user - and no user page is mapped. Every page it uses was
    free, none is lost, and no other memory changes. *)
Theorem setupkvm_correct k l :
  km_inv kend k l →
  ∃ r k', setupkvm kend kdata k = Ok r k' ∧
    (∀ x, (∀ p, p ∈ l → ¬ (p <= x < p + 4096)) → km_mem k' x = km_mem k x) ∧
    ((r = 0 ∧ ∃ l', km_inv kend k' l' ∧ ∀ p, p ∈ l' ↔ p ∈ l) ∨
     (r ∈ l ∧ ∃ l' own, vinv k' l' r own ∧ (∀ p, p ∈ own ∨ p ∈ l' ↔ p ∈ l) ∧
        (∀ va, upage va → pte (km_mem k') r va = 0) ∧
        (∀ va, vpage va → KERNBASE <= va → pte (km_mem k') r va = kernel_pte va ∧ Z.land (kernel_pte va) PTE_U = 0 ∧
           (va < KERNBASE + PHYSTOP → PTE_ADDR (kernel_pte va) = V2P va)))).
Proof.
  intros Hk. destruct (setupkvm_run k l Hk) as (r & k' & H & Ho & Hr). exists r, k'. split; [done|]. split; [done|].
  destruct Hr as [?|(Hr & l' & own & Hv & Hp & Hu & Hm)]; [by left|right]. split; [done|]. exists l', own.
  do 3 (split; [done|]). intros va Hva Hge. split; [by apply Hm|]. pose proof Hva as [Hvr Hvm]. clear - Hvr Hvm Hge kdata_ok.
  assert (0 <= va - KERNBASE ∧ (va - KERNBASE) mod 4096 = 0) as [? ?].
  { unfold KERNBASE in *. Z.to_euclidean_division_equations; lia. }
  assert (∀ pa f, 0 <= pa < 4294967296 → pa mod 4096 = 0 → f = 0 ∨ f = PTE_W →
    Z.land (leaf pa f) PTE_U = 0 ∧ PTE_ADDR (leaf pa f) = pa) as Hleaf.
  { intros pa f Hpa Hpm Hf. destruct (leaf_eq pa f Hpa Hpm) as (E & _ & _ & _ & Ha); [unfold PTE_W in *; lia|].
    split; [|done]. assert (PTE_FLAGS (leaf pa f) = Z.lor f 1) as Ef.
    { rewrite PTE_FLAGS_eq, E, Zplus_mod, Hpm, Z.add_0_l, Z.mod_mod by done. by destruct Hf as [-> | ->]. }
    change PTE_U with (Z.land 0xFFF PTE_U). rewrite Z.land_assoc. fold (PTE_FLAGS (leaf pa f)). rewrite Ef.
    by destruct Hf as [-> | ->]. }
  assert (va < KERNBASE + PHYSTOP → V2P va = va - KERNBASE) as Hpa.
  { unfold V2P, KERNBASE, PHYSTOP in *. intros ?. apply u32_small. unfold is_u32. lia. }
  unfold kernel_pte. destruct kdata_ok as [? ?]. unfold KERNLINK, EXTMEM, DEVSPACE, KERNBASE, PHYSTOP in *.
  repeat case_decide; (split; [try done; apply Hleaf; solve [lia|auto]|intros Hlt; try lia; rewrite Hpa by done; apply Hleaf; solve [lia|auto]]).
Qed.

(** C18. fork's copy of an address space: when the pages below sz are mapped,
    copyuvm leaves the parent's pages, PTEs and contents as they are and either
    runs out of memory and returns 0, with all but at most one page given back
    (the frame it could not map), or returns a new directory in which each page
    below sz is mapped to a frame of its own with the same flags and the same
    4096 bytes, nothing is mapped from sz on, and the kernel's part is mapped. The
    two address spaces share no page. *)
Theorem copyuvm_correct k l pgdir own sz :
  vinv k l pgdir own → 0 <= sz <= KERNBASE →
  (∀ va, upage va → va < sz → present (pte (km_mem k) pgdir va) = true) →
  ∃ r k' l', copyuvm kend kdata pgdir sz k = Ok r k' ∧ vinv k' l' pgdir own ∧
    (∀ va, pte (km_mem k') pgdir va = pte (km_mem k) pgdir va) ∧
    (∀ p x, p ∈ own → page p → p <= x < p + 4096 → km_mem k' x = km_mem k x) ∧
    (r = 0 ∧ gives_back l l' ∨
     r ≠ 0 ∧ ∃ own', vinv k' l' r own' ∧ (∀ p, p ∈ own' → p ∉ own) ∧ (∀ p, p ∈ own' ∨ p ∈ l' ↔ p ∈ l) ∧
       maps_kernel (km_mem k') r ∧
       (∀ va, upage va → va < sz → present (pte (km_mem k') r va) = true ∧
          PTE_FLAGS (pte (km_mem k') r va) = PTE_FLAGS (pte (km_mem k) pgdir va) ∧
          ∀ j, 0 <= j < 4096 → km_mem k' (frame (km_mem k') r va + j) = km_mem k (frame (km_mem k) pgdir va + j)) ∧
       (∀ va, upage va → sz <= va → present (pte (km_mem k') r va) = false)).
Proof.
  intros Hv Hsz Hpres. pose proof Hv as [Hk Hs Hd].
  assert (∀ k' l', km_inv kend k' l' → (∀ p, p ∈ l' → p ∈ l) → outside (λ p, p ∈ l) (km_mem k) (km_mem k') →
    vinv k' l' pgdir own ∧ (∀ va, pte (km_mem k') pgdir va = pte (km_mem k) pgdir va) ∧
    (∀ p x, p ∈ own → page p → p <= x < p + 4096 → km_mem k' x = km_mem k x)) as Hpar.
  { intros k' l' Hk' Hl' Ho. destruct (space_outside k l pgdir own _ Hv Ho) as [Hp Hsk].
    split; [split; [done|by eapply skel_space|]; intros p Hpo Hpl; by apply (Hd p Hpo), Hl'|].
    split; [intros va; by apply skel_pte|]. intros p x Hpo Hpp. apply Hp; auto. }
  destruct (setupkvm_run k l Hk) as (d & k1 & H1 & Ho1 & Hr). unfold copyuvm. rewrite (bind_run _ _ _ _ _ H1).
  destruct Hr as [[-> (l1 & Hk1 & Hl1)]|(Hd1 & l1 & own1 & Hv1 & Hp1 & Hu1 & Hm1)].
  - exists 0, k1, l1. split; [done|]. destruct (Hpar k1 l1 Hk1) as (? & ? & ?); [intros p; apply Hl1|done|].
    do 3 (split; [done|]). left. split; [done|]. split; [intros p; apply Hl1|]. intros p p' P1 _ N1. by destruct N1; apply Hl1.
  - assert (page d) as Hdp by (by eapply free_page). destruct (page_bounds _ _ Hdp) as (_ & _ & _ & Hd0 & _).
    rewrite (proj2 (Z.eqb_neq d 0)) by done.
    destruct (copy_loop_run npages pgdir own d sz 0 k l k1 l1 own1) as (r & k2 & l2 & H2 & Hr2); [done|lia|done|lia|done| | |].
    { split; [done|done|done| |intros va Hu _; by rewrite Hu1|done]. intros va [Hu _]. lia. }
    { unfold npages, KERNBASE in *. lia. }
    exists r, k2, l2. split; [exact H2|]. destruct Hr2 as [(-> & Hk2 & Hg & Ho2)|(-> & own2 & [C1 C2 C3 C4 C5 C6])].
    + destruct (Hpar k2 l2 Hk2) as (? & ? & ?); [apply Hg|done|]. do 3 (split; [done|]). by left.
    + destruct (Hpar k2 l2) as (? & ? & ?); [apply C1|intros p Hp; apply C2; by right|done|]. do 3 (split; [done|]). right.
      split; [done|]. exists own2. split; [done|]. split; [intros p Hp Hpo; apply (Hd p Hpo), C2; by left|].
      split; [done|]. split; [done|]. split; [|done]. intros va Hu Hlt. destruct (C4 va Hu Hlt) as (P & E & Hc).
      split; [done|]. split; [|done]. destruct (sp_frame _ _ _ _ (vi_sp _ _ _ _ _ C1) va Hu P) as (F1 & _).
      destruct (flags_present _ (Hpres va Hu Hlt)) as [Hf _]. rewrite E.
      by destruct (pte_frame kend _ _ F1 Hf) as (_ & ? & _).
Qed.
End kdata.
End kend.

(** ** The concrete address space of VmSpec.v, with two free pages *)

Lemma setupkvm_correct_witness :
  ∃ r k', setupkvm 0x80101000 0x80101000 vm_ex = Ok r k' ∧ km_mem k' 0x80103000 = 7.
Proof.
  destruct (setupkvm_correct 0x80101000 0x80101000 ltac:(done) ltac:(done) vm_ex [0x80105000; 0x80106000])
    as (r & k' & H & Ho & _); [apply vm_ex_inv|].
  exists r, k'. split; [exact H|]. rewrite Ho; [by vm_compute|]. intros p. rewrite !elem_of_cons, elem_of_nil. lia.
Defined.

Lemma copyuvm_correct_witness :
  ∃ r k' l', copyuvm 0x80101000 0x80101000 0x80102000 4096 vm_ex = Ok r k' ∧
    vinv 0x80101000 k' l' 0x80102000 vm_own ∧ pte (km_mem k') 0x80102000 0 = 0x104007.
Proof.
  destruct (copyuvm_correct 0x80101000 0x80101000 ltac:(done) ltac:(done) vm_ex [0x80105000; 0x80106000] 0x80102000 vm_own 4096)
    as (r & k' & l' & H & Hv & Hp & _).
  - apply vm_ex_inv.
  - done.
  - intros va [Hu Hm] Hlt. assert (va = 0) as -> by (Z.to_euclidean_division_equations; lia).
    change (km_mem vm_ex) with vm_mem. by rewrite (vm_pte 0 upage_0).
  - exists r, k', l'. split; [exact H|]. split; [exact Hv|]. rewrite Hp. change (km_mem vm_ex) with vm_mem.
    by rewrite (vm_pte 0 upage_0).
Defined.
