(* ===== verification/Grep.v ===== *)
(** * grep (grep.c)

    The matcher of Kernighan and Pike on C strings, and the loop that cuts the
    input into lines. The meaning of a pattern is given apart from the matcher,
    as the set of texts it accepts; [read] and [write] of the loop are what the
    kernel delivers and what arrives at descriptor 1. *)

From S2P Require Import Prelude Cstring.

(** ** The program *)

Fixpoint matchhere (fuel : nat) (m : mem) (re text : Z) : option Z :=
  match fuel with
  | O => None
  | S fuel =>
      if m re =? 0 then Some 1
      else if m (re + 1) =? 42 then matchstar fuel m (m re) (re + 2) text
      else if (m re =? 36) && (m (re + 1) =? 0) then Some (if m text =? 0 then 1 else 0)
      else if negb (m text =? 0) && ((m re =? 46) || (m re =? m text)) then
        matchhere fuel m (re + 1) (text + 1)
      else Some 0
  end
with matchstar (fuel : nat) (m : mem) (c re text : Z) : option Z :=
  match fuel with
  | O => None
  | S fuel =>
      r ← matchhere fuel m re text;
      if negb (r =? 0) then Some 1
      else if negb (m text =? 0) && ((m text =? c) || (c =? 46)) then matchstar fuel m c re (text + 1)
      else Some 0
  end.

Fixpoint match_loop (fuel : nat) (m : mem) (re text : Z) : option Z :=
  match fuel with
  | O => None
  | S fuel' =>
      r ← matchhere fuel m re text;
      if negb (r =? 0) then Some 1
      else if negb (m text =? 0) then match_loop fuel' m re (text + 1)
      else Some 0
  end.

(** match *)
Definition match_ (fuel : nat) (m : mem) (re text : Z) : option Z :=
  if m re =? 94 then matchhere fuel m (re + 1) text else match_loop fuel m re text.

Definition BUFSZ : Z := 1024.

(** while((q = strchr(p, '\n')) != 0): the memory, the start of the rest, the output. *)
Fixpoint grep_scan (fuel inner : nat) (m : mem) (pattern p : Z) (out : list Z) : option (mem * Z * list Z) :=
  match fuel with
  | O => None
  | S fuel =>
      q ← User.strchr inner m p 10;
      if q =? 0 then Some (m, p, out)
      else
        let m := mset m q 0 in
        r ← match_ inner m pattern p;
        let '(m, out) :=
          if negb (r =? 0) then let m := mset m q 10 in (m, out ++ bytes_at m p (Z.to_nat (q + 1 - p)))
          else (m, out) in
        grep_scan fuel inner m pattern (q + 1) out
  end.

Section grep.
(** [buf] is the address of the static buffer; [chunk input n] is how many bytes
    read(fd, _, n) delivers when [input] is left. *)
Variable buf : Z.
Variable chunk : list Z → Z → nat.

Fixpoint grep_loop (fuel inner : nat) (mm : mem) (pattern m : Z) (input out : list Z) : option (list Z) :=
  match fuel with
  | O => None
  | S fuel =>
      let n := chunk input (BUFSZ - m - 1) in
      if (n =? 0)%nat then Some out
      else
        let mm := store_bytes mm (buf + m) (take n input) in
        let m := m + Z.of_nat n in
        let mm := mset mm (buf + m) 0 in
        '(mm, p, out) ← grep_scan inner inner mm pattern buf out;
        let m := if p =? buf then 0 else m in
        let '(mm, m) :=
          if 0 <? m then
            let m := m - (p - buf) in (User.memmove mm buf p m, m)
          else (mm, m) in
        grep_loop fuel inner mm pattern m (drop n input) out
  end.

Definition grep (fuel inner : nat) (mm : mem) (pattern : Z) (input : list Z) : option (list Z) :=
  grep_loop fuel inner mm pattern 0 input [].
End grep.

(** ** What a pattern means *)

Inductive item := One (c : Z) | Star (c : Z) | Eol.

Fixpoint parse (n : nat) (re : list Z) : list item :=
  match n, re with
  | S n, c :: r =>
      match r with
      | d :: r' => if d =? 42 then Star c :: parse n r' else One c :: parse n r
      | [] => [if c =? 36 then Eol else One c]
      end
  | _, _ => []
  end.

(** The characters that [c] stands for. *)
Definition stands (c x : Z) : Prop := c = 46 ∨ c = x.

(** [text] begins with a string of the items. *)
Fixpoint accepts (items : list item) (text : list Z) : Prop :=
  match items with
  | [] => True
  | One c :: items => ∃ x t, text = x :: t ∧ stands c x ∧ accepts items t
  | Star c :: items => ∃ u t, text = u ++ t ∧ Forall (stands c) u ∧ accepts items t
  | Eol :: _ => text = []
  end.

Definition pattern_items (re : list Z) : list item := parse (length re) re.

Definition grep_matches (re text : list Z) : Prop :=
  match re with
  | 94 :: re => accepts (pattern_items re) text
  | _ => ∃ u t, text = u ++ t ∧ accepts (pattern_items re) t
  end.

(** ** The matcher *)

Definition is_bool (r : Z) (P : Prop) : Prop := r = 1 ∧ P ∨ r = 0 ∧ ¬ P.

Lemma is_bool_iff r P Q : (P ↔ Q) → is_bool r P → is_bool r Q.
Proof. unfold is_bool. tauto. Qed.

Lemma parse_enough n re : (length re <= n)%nat → parse n re = pattern_items re.
Proof.
  unfold pattern_items. revert n. induction re as [re IH] using (induction_ltof1 _ (@length Z)).
  intros n Hn. destruct re as [|c r]; [by destruct n|]. destruct n as [|n]; [simpl in Hn; lia|].
  cbn [length parse]. destruct r as [|d r']; [done|].
  destruct (d =? 42); f_equal.
  - etrans; [apply (IH r'); unfold ltof; simpl in *; lia|symmetry; apply (IH r'); unfold ltof; simpl; lia].
  - etrans; [apply (IH (d :: r')); unfold ltof; simpl in *; lia|symmetry; apply (IH (d :: r')); unfold ltof; simpl; lia].
Qed.

Lemma items_star c r : pattern_items (c :: 42 :: r) = Star c :: pattern_items r.
Proof.
  change (parse (S (S (length r))) (c :: 42 :: r) = Star c :: pattern_items r). rewrite <-(parse_enough (S (length r)) r) by lia. cbn [parse].
  by rewrite Z.eqb_refl.
Qed.

Lemma items_one c d r : d ≠ 42 → pattern_items (c :: d :: r) = One c :: pattern_items (d :: r).
Proof.
  intros Hd. unfold pattern_items. cbn [length]. cbn [parse]. by rewrite (proj2 (Z.eqb_neq d 42)).
Qed.

Lemma accepts_star c items text :
  accepts (Star c :: items) text ↔
  accepts items text ∨ ∃ x t, text = x :: t ∧ stands c x ∧ accepts (Star c :: items) t.
Proof.
  cbn [accepts]. split.
  - intros (u & t & -> & Hu & Ht). destruct u as [|x u]; [by left|right].
    apply Forall_cons in Hu as [Hx Hu]. exists x, (u ++ t). split; [done|]. split; [done|]. by exists u, t.
  - intros [H|(x & t & -> & Hx & u & t' & -> & Hu & Ht)]; [by exists [], text|].
    exists (x :: u), t'. split; [done|]. split; [by constructor|done].
Qed.

Lemma cstr_head m a l : cstr m a l →
  (m a =? 0) = match l with [] => true | _ => false end ∧ m a = hd 0 l ∧ (l ≠ [] → cstr m (a + 1) (tl l)).
Proof.
  destruct l as [|c l]; simpl.
  - by intros ->.
  - intros (-> & Hc & Hl). by rewrite (proj2 (Z.eqb_neq c 0)) by lia.
Qed.

Lemma matcher_correct fuel m :
  (∀ re text lre lt, cstr m re lre → cstr m text lt → (2 * (length lre + length lt) < fuel)%nat →
     ∃ r, matchhere fuel m re text = Some r ∧ is_bool r (accepts (pattern_items lre) lt)) ∧
  (∀ c re text lre lt, cstr m re lre → cstr m text lt → (2 * (length lre + length lt) + 1 < fuel)%nat →
     ∃ r, matchstar fuel m c re text = Some r ∧ is_bool r (accepts (Star c :: pattern_items lre) lt)).
Proof.
  induction fuel as [|fuel [IHh IHs]]; [split; intros; lia|]. split.
  - intros re text lre lt Hre Ht Hf. cbn [matchhere].
    destruct (cstr_head _ _ _ Hre) as (-> & Hc & Hre1). destruct lre as [|c r]; [eexists; split; [done|by left]|].
    specialize (Hre1 ltac:(done)). simpl in Hre1, Hc, Hf. rewrite Hc.
    destruct (cstr_head _ _ _ Hre1) as (Hz & Hd & Hre2). rewrite Hz, Hd.
    destruct (cstr_head _ _ _ Ht) as (Htz & Htc & Ht1). rewrite Htz, Htc.
    (* the last two branches *)
    assert (∀ r', (∀ t, accepts (pattern_items (c :: r)) t ↔ ∃ x t', t = x :: t' ∧ stands c x ∧ accepts (pattern_items r) t') →
      r' = (if negb (match lt with [] => true | _ => false end) && ((c =? 46) || (c =? hd 0 lt))
            then matchhere fuel m (re + 1) (text + 1) else Some 0) →
      ∃ b, r' = Some b ∧ is_bool b (accepts (pattern_items (c :: r)) lt)) as Hone.
    { intros r' Hacc ->. destruct lt as [|x t].
      - simpl. eexists. split; [done|]. right. split; [done|]. rewrite Hacc. by intros (? & ? & ? & _).
      - simpl. specialize (Ht1 ltac:(done)). simpl in Ht1, Hf.
        destruct ((c =? 46) || (c =? x)) eqn:E.
        + destruct (IHh (re + 1) (text + 1) r t Hre1 Ht1) as (b & Hb & Hbb); [lia|]. exists b. split; [done|].
          eapply is_bool_iff; [|exact Hbb]. rewrite Hacc.
          apply orb_true_iff in E. rewrite !Z.eqb_eq in E. unfold stands. naive_solver.
        + eexists. split; [done|]. right. split; [done|]. rewrite Hacc. intros (x' & t' & [= <- <-] & Hs & _).
          apply orb_false_iff in E. rewrite !Z.eqb_neq in E. unfold stands in Hs. lia. }
    destruct r as [|d r']; simpl in *.
    + change (0 =? 42) with false. cbv iota. rewrite andb_true_r. destruct (Z.eqb_spec c 36) as [->|Hne].
      * eexists. split; [done|]. unfold pattern_items. simpl. destruct lt; [by left|by right].
      * apply Hone; [|done]. intros t. reflexivity.
    + rewrite andb_false_r. destruct (Z.eqb_spec d 42) as [->|Hne].
      * specialize (Hre2 ltac:(done)). replace (re + 1 + 1) with (re + 2) in Hre2 by lia.
        rewrite items_star. apply IHs; [done|done|lia].
      * apply Hone; [|done]. intros t. by rewrite items_one.
  - intros c re text lre lt Hre Ht Hf. cbn [matchstar].
    destruct (IHh re text lre lt Hre Ht) as (r & -> & Hr); [lia|]. simpl.
    destruct Hr as [[-> Hr]|[-> Hr]]; simpl.
    { eexists. split; [done|]. left. split; [done|]. apply accepts_star. by left. }
    destruct (cstr_head _ _ _ Ht) as (-> & -> & Ht1). destruct lt as [|x t]; simpl.
    { eexists. split; [done|]. right. split; [done|]. intros [?|(? & ? & ? & _)]%accepts_star; done. }
    specialize (Ht1 ltac:(done)). simpl in Ht1, Hf. destruct ((x =? c) || (c =? 46)) eqn:E.
    + destruct (IHs c re (text + 1) lre t Hre Ht1) as (b & Hb & Hbb); [lia|]. exists b. split; [done|].
      eapply is_bool_iff; [|exact Hbb]. symmetry. etrans; [apply (accepts_star c _ (x :: t))|].
      apply orb_true_iff in E. rewrite !Z.eqb_eq in E. unfold stands. naive_solver.
    + eexists. split; [done|]. right. split; [done|]. intros [?|(x' & t' & [= <- <-] & Hs & _)]%(accepts_star c _ (x :: t)); [done|].
      apply orb_false_iff in E. rewrite !Z.eqb_neq in E. unfold stands in Hs. lia.
Qed.

Lemma match_loop_correct fuel m re text lre lt :
  cstr m re lre → cstr m text lt → (2 * (length lre + length lt) + 1 < fuel)%nat →
  ∃ r, match_loop fuel m re text = Some r ∧ is_bool r (∃ u t, lt = u ++ t ∧ accepts (pattern_items lre) t).
Proof.
  revert text lt. induction fuel as [|fuel IH]; intros text lt Hre Ht Hf; [lia|]. cbn [match_loop].
  destruct (proj1 (matcher_correct (S fuel) m) re text lre lt Hre Ht) as (r & -> & Hr); [lia|]. simpl.
  destruct Hr as [[-> Hr]|[-> Hr]]; simpl.
  { eexists. split; [done|]. left. split; [done|]. by exists [], lt. }
  destruct (cstr_head _ _ _ Ht) as (-> & _ & Ht1). destruct lt as [|x t]; simpl.
  { eexists. split; [done|]. right. split; [done|]. intros (u & t & E & Ha). symmetry in E.
    apply app_eq_nil in E as [-> ->]. done. }
  specialize (Ht1 ltac:(done)). simpl in Ht1, Hf. destruct (IH (text + 1) t Hre Ht1) as (b & Hb & Hbb); [lia|].
  exists b. split; [done|]. eapply is_bool_iff; [|exact Hbb]. split.
  - intros (u & t' & -> & Ha). by exists (x :: u), t'.
  - intros ([|y u] & t' & E & Ha); simpl in E; [by subst|]. injection E as -> ->. by exists u, t'.
Qed.

Lemma match_run fuel m re text lre lt :
  cstr m re lre → cstr m text lt → (2 * (length lre + length lt) + 1 < fuel)%nat →
  ∃ r, match_ fuel m re text = Some r ∧ is_bool r (grep_matches lre lt).
Proof.
  intros Hre Ht Hf. unfold match_. destruct (cstr_head _ _ _ Hre) as (_ & -> & Hre1).
  destruct lre as [|c r]; simpl.
  - change (0 =? 94) with false. cbv iota. apply (match_loop_correct fuel m re text [] lt Hre Ht Hf).
  - destruct (Z.eqb_spec c 94) as [->|Hne].
    + apply matcher_correct; [by apply Hre1|done|simpl in Hf; lia].
    + destruct (match_loop_correct fuel m re text (c :: r) lt Hre Ht Hf) as (b & Hb & Hbb).
      exists b. split; [done|]. eapply is_bool_iff; [|exact Hbb].
      by repeat (case_match; try done).
Qed.

(** C38. The matcher decides the language of the pattern: on every pair of C strings
    it terminates, with a recursion depth linear in their lengths, and answers 1
    exactly when some part of the text - a beginning of it under ^ - is a string of
    the pattern's items: a character for itself, . for any, c* for a run of it, and
    a final $ for the end of the text. *)
Theorem match_correct fuel m re text lre lt :
  cstr m re lre → cstr m text lt → (2 * (length lre + length lt) + 1 < fuel)%nat →
  ∃ r, match_ fuel m re text = Some r ∧ (r = 1 ∧ grep_matches lre lt ∨ r = 0 ∧ ¬ grep_matches lre lt).
Proof. apply match_run. Qed.

(** ** The lines of the input *)

Definition unlines (ls : list (list Z)) : list Z := concat ((λ l, l ++ [10]) <$> ls).

(** Text without newlines and NULs. *)
Definition line_ok (l : list Z) : Prop := Forall (λ c, 0 < c < 256 ∧ c ≠ 10) l.

Instance accepts_dec items text : Decision (accepts items text).
Proof.
  revert text. induction items as [|[c|c|] items IH]; intros text; cbn [accepts]; [by left| | |apply _].
  - destruct text as [|x t]; [right; by intros (? & ? & ? & _)|].
    destruct (decide ((c = 46 ∨ c = x) ∧ accepts items t)) as [[H1 H2]|H].
    + left. by exists x, t.
    + right. intros (? & ? & [= <- <-] & Hs & Ha). by apply H.
  - revert text. fix GO 1. intros text. destruct (IH text) as [H|H]; [left; by exists [], text|].
    destruct text as [|x t]; [right; intros (u & t & E & _ & Ha); symmetry in E; apply app_eq_nil in E as [-> ->]; done|].
    destruct (decide (c = 46 ∨ c = x)) as [Hs|Hs].
    + destruct (GO t) as [H1|H1].
      * left. destruct H1 as (u & t' & -> & Hu & Ha). exists (x :: u), t'. split; [done|]. split; [by constructor|done].
      * right. intros ([|y u] & t' & E & Hu & Ha); simpl in E; [by subst|]. injection E as -> ->.
        apply Forall_cons in Hu as [_ Hu]. apply H1. by exists u, t'.
    + right. intros ([|y u] & t' & E & Hu & Ha); simpl in E; [by subst|]. injection E as -> ->.
      by apply Forall_cons in Hu as [? _].
Defined.

Instance suffix_accepts_dec items text : Decision (∃ u t, text = u ++ t ∧ accepts items t).
Proof.
  induction text as [|x t IH].
  - destruct (decide (accepts items [])) as [H|H]; [left; by exists [], []|].
    right. intros (u & t & E & Ha). symmetry in E. apply app_eq_nil in E as [-> ->]. done.
  - destruct (decide (accepts items (x :: t))) as [H|H]; [left; by exists [], (x :: t)|].
    destruct IH as [H1|H1].
    + left. destruct H1 as (u & t' & -> & Ha). by exists (x :: u), t'.
    + right. intros ([|y u] & t' & E & Ha); simpl in E; [by subst|]. injection E as -> ->. apply H1. by exists u, t'.
Defined.

Instance grep_matches_dec re text : Decision (grep_matches re text).
Proof. unfold grep_matches. repeat case_match; apply _. Defined.

(** The output that the lines ask for. *)
Definition selected (re : list Z) (ls : list (list Z)) : list Z := unlines (filter (grep_matches re) ls).

Lemma unlines_cons l ls : unlines (l :: ls) = l ++ 10 :: unlines ls.
Proof. unfold unlines. simpl. by rewrite <-app_assoc. Qed.

Lemma unlines_app ls ls' : unlines (ls ++ ls') = unlines ls ++ unlines ls'.
Proof. unfold unlines. by rewrite fmap_app, concat_app. Qed.

(** The lines that a part of the text contains. *)
Lemma cut_lines ls tail pre suf :
  pre ++ suf = unlines ls ++ tail → line_ok tail → Forall line_ok ls →
  ∃ ls1 ls2 t, ls = ls1 ++ ls2 ∧ pre = unlines ls1 ++ t ∧ t ++ suf = unlines ls2 ++ tail ∧ line_ok t.
Proof.
  revert pre. induction ls as [|l ls IH]; intros pre E Ht Hls; simpl in E.
  - exists [], [], pre. split; [done|]. split; [done|]. split; [done|]. subst. by apply Forall_app in Ht as [? _].
  - apply Forall_cons in Hls as [Hl Hls]. rewrite unlines_cons in E.
    replace (l ++ 10 :: unlines ls) with ((l ++ [10]) ++ unlines ls) in E by (by rewrite <-app_assoc).
    rewrite <-app_assoc in E. destruct (app_eq_inv _ _ _ _ E) as [(k & -> & Hk)|(k & Hk & Hs)].
    + destruct (IH k (eq_sym Hk) Ht Hls) as (ls1 & ls2 & t & -> & -> & Hr & Hto).
      exists (l :: ls1), ls2, t. rewrite unlines_cons, <-!app_assoc. by split_and!.
    + destruct k as [|k1 k] using rev_ind.
      * (* the part ends with the line *)
        rewrite app_nil_r in Hk. subst pre. simpl in Hs. exists [l], ls, []. split; [done|].
        split; [rewrite unlines_cons; by rewrite app_nil_r|]. split; [done|constructor].
      * rewrite app_assoc in Hk. apply app_inj_tail in Hk as [Hk _]. exists [], (l :: ls), pre.
        split; [done|]. split; [done|]. split.
        -- rewrite E, unlines_cons. by rewrite <-!app_assoc.
        -- unfold line_ok in *. rewrite Hk in Hl. by apply Forall_app in Hl as [? _].
Qed.

Lemma cstr_make m a l :
  Forall (λ c, 0 < c < 256) l → (∀ i c, l !! i = Some c → m (a + Z.of_nat i) = c) →
  m (a + Z.of_nat (length l)) = 0 → cstr m a l.
Proof.
  revert a. induction l as [|c l IH]; intros a Hl Hi Hz; cbn [cstr].
  - rewrite Z.add_0_r in Hz. done.
  - apply Forall_cons in Hl as [Hc Hl]. split; [rewrite <-(Z.add_0_r a); by apply (Hi 0%nat c)|].
    split; [done|]. apply IH; [done| |].
    + intros i d Hd. rewrite <-(Hi (S i) d) by done. f_equal. lia.
    + rewrite <-Hz. f_equal. simpl. lia.
Qed.

Lemma cstr_split m a l1 l2 : cstr m a (l1 ++ l2) → cstr m (a + Z.of_nat (length l1)) l2.
Proof.
  revert a. induction l1 as [|c l IH]; intros a; cbn [app cstr length].
  - by rewrite Z.add_0_r.
  - intros (_ & _ & H%IH). replace (a + Z.of_nat (S (length l))) with (a + 1 + Z.of_nat (length l)) by lia. done.
Qed.

Lemma cstr_chars m a l : cstr m a l → Forall (λ c, 0 < c < 256) l.
Proof. revert a. induction l as [|c l IH]; intros a; cbn [cstr]; [constructor|]. intros (_ & ? & ?%IH). by constructor. Qed.

Lemma strchr_nl fuel m p l :
  line_ok l → (length l < fuel)%nat →
  (∀ r, cstr m p (l ++ 10 :: r) → User.strchr fuel m p 10 = Some (p + Z.of_nat (length l))) ∧
  (cstr m p l → User.strchr fuel m p 10 = Some 0).
Proof.
  revert p l. induction fuel as [|fuel IH]; intros p l Hl Hf; [lia|]. cbn [User.strchr]. split.
  - intros r H. destruct l as [|c l]; simpl in H; destruct H as (-> & Hc & H).
    + simpl. by rewrite Z.add_0_r.
    + apply Forall_cons in Hl as [[_ Hn] Hl]. rewrite !(proj2 (Z.eqb_neq _ _)) by lia.
      rewrite (proj1 (IH (p + 1) l Hl ltac:(simpl in Hf; lia)) r H). f_equal. simpl. lia.
  - intros H. destruct l as [|c l]; simpl in H; [by rewrite H|]. destruct H as (-> & Hc & H).
    apply Forall_cons in Hl as [[_ Hn] Hl]. rewrite !(proj2 (Z.eqb_neq _ _)) by lia.
    by apply (IH (p + 1) l); [|simpl in Hf; lia|].
Qed.

(** A byte put back leaves the memory as it was. *)
Lemma cstr_agree m m' a l :
  (∀ x, a <= x <= a + Z.of_nat (length l) → m' x = m x) → cstr m a l → cstr m' a l.
Proof. intros H. apply cstr_ext. intros x Hx. symmetry. apply H. lia. Qed.

Lemma bytes_at_list m a l :
  (∀ i c, l !! i = Some c → m (a + Z.of_nat i) = c) → bytes_at m a (length l) = l.
Proof.
  intros H. apply list_eq. intros i. destruct (decide (i < length l)%nat) as [Hi|Hi].
  - destruct (lookup_lt_is_Some_2 l i Hi) as [c Hc]. by rewrite lookup_bytes_at, (H i c), Hc.
  - rewrite !(proj2 (lookup_ge_None _ _)); [done|lia|rewrite length_bytes_at; lia].
Qed.

Lemma scan_run fuel inner m pat re p out ls tail :
  mem_ok m → cstr m pat re → cstr m p (unlines ls ++ tail) → Forall line_ok ls → line_ok tail → 0 < p →
  pat + Z.of_nat (length re) < p ∨ p + Z.of_nat (length (unlines ls ++ tail)) < pat →
  (length ls < fuel)%nat → (2 * (length re + length (unlines ls ++ tail)) + 1 < inner)%nat →
  ∃ m', grep_scan fuel inner m pat p out = Some (m', p + Z.of_nat (length (unlines ls)), out ++ selected re ls) ∧
    mem_ok m' ∧ (∀ x, ¬ p <= x < p + Z.of_nat (length (unlines ls)) → m' x = m x).
Proof.
  revert m p out fuel. induction ls as [|l ls IH]; intros m p out fuel Hok Hpat Hp Hls Htl Hp0 Hdis Hf Hin;
    (destruct fuel as [|fuel]; [lia|]); cbn [grep_scan].
  - destruct (strchr_nl inner m p tail Htl) as [_ H]; [simpl in Hin; lia|].
    rewrite (H Hp). simpl. exists m. split; [|done]. do 2 f_equal; [f_equal; lia|by rewrite app_nil_r].
  - apply Forall_cons in Hls as [Hl Hls]. rewrite unlines_cons, <-app_assoc in Hp, Hdis, Hin. simpl in Hp, Hdis, Hin.
    rewrite length_app in Hdis, Hin. simpl in Hdis, Hin. rewrite length_app in Hdis, Hin.
    destruct (strchr_nl inner m p l Hl) as [H _]; [lia|]. rewrite (H _ Hp). simpl.
    set (q := p + Z.of_nat (length l)). rewrite (proj2 (Z.eqb_neq q 0)) by lia.
    pose proof (cstr_split _ _ _ _ Hp) as Hq. destruct Hq as (Hq & _ & Hrest). fold q in Hq, Hrest.
    set (m1 := mset m q 0).
    assert (∀ x, x ≠ q → m1 x = m x) as Hm1 by (intros x Hx; by apply mset_ne).
    assert (cstr m1 p l) as Hl1.
    { apply cstr_make; [eapply Forall_impl; [exact Hl|by intros c []]| |unfold m1; apply mset_eq].
      intros i c Hi. apply lookup_lt_Some in Hi as Hlt. rewrite Hm1 by lia.
      eapply cstr_byte; [exact Hp|]. by rewrite lookup_app_l. }
    assert (cstr m1 pat re) as Hpat1 by (eapply cstr_agree; [|exact Hpat]; intros x Hx; apply Hm1; lia).
    destruct (match_run inner m1 pat p re l Hpat1 Hl1) as (r & Hr & Hb); [lia|]. rewrite Hr. simpl.
    assert (∃ m2, (if negb (r =? 0) then (mset m1 q 10, out ++ bytes_at (mset m1 q 10) p (Z.to_nat (q + 1 - p))) else (m1, out))
      = (m2, out ++ selected re [l]) ∧ mem_ok m2 ∧ ∀ x, ¬ p <= x < q + 1 → m2 x = m x) as (m2 & E2 & Hok2 & Hm2).
    { unfold selected. destruct Hb as [[-> Hb]|[-> Hb]]; simpl.
      - rewrite filter_cons_True by done. eexists. split; [f_equal|split; [by apply mset_ok, mset_ok|]].
        + f_equal. unfold unlines. simpl. rewrite app_nil_r. replace (Z.to_nat (q + 1 - p)) with (length (l ++ [10])).
          2: { rewrite length_app. simpl. lia. }
          apply bytes_at_list. intros i c Hi. apply lookup_lt_Some in Hi as Hlt. rewrite length_app in Hlt. simpl in Hlt.
          destruct (decide (i < length l)%nat).
          * rewrite mset_ne, Hm1 by lia. eapply cstr_byte; [exact Hp|]. rewrite lookup_app_l in Hi |- * by done. done.
          * assert (i = length l) as -> by lia. rewrite list_lookup_middle in Hi by done. injection Hi as <-.
            unfold q. apply mset_eq.
        + intros x Hx. rewrite mset_ne, Hm1 by lia. done.
      - rewrite filter_cons_False by done. eexists. split; [by rewrite filter_nil, app_nil_r|].
        split; [by apply mset_ok|]. intros x Hx. apply Hm1. lia. }
    rewrite E2.
    destruct (IH m2 (q + 1) (out ++ selected re [l]) fuel Hok2) as (m3 & H3 & Hok3 & Hm3).
    + eapply cstr_agree; [|exact Hpat]. intros x Hx. apply Hm2. lia.
    + eapply cstr_agree; [|exact Hrest]. intros x Hx. apply Hm2. lia.
    + done.
    + done.
    + lia.
    + rewrite length_app. lia.
    + simpl in Hf. lia.
    + rewrite length_app. lia.
    + exists m3. rewrite H3. split.
      * f_equal. f_equal; [f_equal|].
        -- unfold q. rewrite unlines_cons, length_app. simpl. lia.
        -- rewrite <-app_assoc. f_equal. unfold selected. rewrite <-unlines_app. f_equal. rewrite <-filter_app. done.
      * split; [done|]. rewrite unlines_cons, length_app. simpl. intros x Hx. rewrite Hm3, Hm2 by lia. done.
Qed.

Lemma store_bytes_eq m a l x : Forall is_u8 l →
  store_bytes m a l x = if decide (a <= x < a + Z.of_nat (length l)) then getZ l (x - a) else m x.
Proof.
  intros Hl. rewrite store_bytes_spec. case_decide as Hx; [|done]. apply u8_small.
  rewrite Forall_forall in Hl. apply Hl. unfold getZ. apply list_elem_of_lookup_total_2. lia.
Qed.

Lemma length_unlines ls : (length ls <= length (unlines ls))%nat.
Proof. induction ls as [|l ls IH]; [done|]. rewrite unlines_cons, length_app. simpl. lia. Qed.

Lemma line_ok_u8 l : line_ok l → Forall is_u8 l.
Proof. intros H. eapply Forall_impl; [exact H|]. intros c [Hc _]. unfold is_u8. lia. Qed.

Lemma unlines_chars ls : Forall line_ok ls → Forall (λ c, 0 < c < 256) (unlines ls).
Proof.
  induction 1 as [|l ls Hl Hls IH]; [constructor|]. rewrite unlines_cons. apply Forall_app. split.
  - eapply Forall_impl; [exact Hl|]. by intros c [].
  - constructor; [lia|done].
Qed.

(** The buffer after a read. *)
Lemma filled mm buf pend new :
  mem_ok mm → (∀ i c, pend !! i = Some c → mm (buf + Z.of_nat i) = c) →
  Forall (λ c, 0 < c < 256) (pend ++ new) →
  let m1 := mset (store_bytes mm (buf + Z.of_nat (length pend)) new) (buf + Z.of_nat (length pend) + Z.of_nat (length new)) 0 in
  mem_ok m1 ∧ cstr m1 buf (pend ++ new) ∧
  (∀ x, ¬ buf <= x <= buf + Z.of_nat (length (pend ++ new)) → m1 x = mm x).
Proof.
  intros Hok Hp Hc m1. pose proof Hc as Hc'. apply Forall_app in Hc' as [_ Hcn].
  assert (Forall is_u8 new) as Hu by (eapply Forall_impl; [exact Hcn|]; intros c Hcc; simpl in Hcc; unfold is_u8; lia).
  assert (∀ x, x ≠ buf + Z.of_nat (length pend) + Z.of_nat (length new) → m1 x =
    if decide (buf + Z.of_nat (length pend) <= x < buf + Z.of_nat (length pend) + Z.of_nat (length new))
    then getZ new (x - (buf + Z.of_nat (length pend))) else mm x) as Hm.
  { intros x Hx. unfold m1. rewrite mset_ne by done. by apply store_bytes_eq. }
  split; [|split].
  - apply mset_ok. intros x. rewrite store_bytes_eq by done. case_decide; [|apply Hok].
    unfold getZ. rewrite Forall_forall in Hu. apply Hu. apply list_elem_of_lookup_total_2. lia.
  - apply cstr_make; [done| |].
    + intros i c Hi. apply lookup_lt_Some in Hi as Hlt. rewrite length_app in Hlt. rewrite Hm by lia.
      destruct (decide (i < length pend)%nat).
      * rewrite decide_False by lia. apply Hp. by rewrite lookup_app_l in Hi.
      * rewrite decide_True by lia. rewrite lookup_app_r in Hi by lia. unfold getZ. apply list_lookup_total_correct.
        rewrite <-Hi. f_equal. lia.
    + unfold m1. rewrite length_app, Nat2Z.inj_add, Z.add_assoc. apply mset_eq.
  - intros x Hx. rewrite length_app in Hx. rewrite Hm, decide_False by lia. done.
Qed.

Section loop.
Variable buf : Z.
Variable chunk : list Z → Z → nat.
(** read fills the room it is given as far as there is input, as it does for a
    file. *)
Hypothesis Hchunk : ∀ input n, 0 <= n → chunk input n = Nat.min (Z.to_nat n) (length input).

Lemma grep_loop_run fuel inner mm pat re pend input out ls tail :
  mem_ok mm → 0 < buf → cstr mm pat re →
  pat + Z.of_nat (length re) < buf ∨ buf + BUFSZ <= pat →
  (∀ i c, pend !! i = Some c → mm (buf + Z.of_nat i) = c) → (length pend <= 1022)%nat → line_ok pend →
  pend ++ input = unlines ls ++ tail → Forall line_ok ls → line_ok tail → Forall (λ l, (length l <= 1022)%nat) ls →
  (length input < fuel)%nat → (2 * (length re + 1024) + 1 < inner)%nat →
  grep_loop buf chunk fuel inner mm pat (Z.of_nat (length pend)) input out = Some (out ++ selected re ls).
Proof.
  revert mm pend input out ls tail. induction fuel as [|fuel IH];
    intros mm pend input out ls tail Hok Hb Hpat Hdis Hpend Hlp Hpo Hall Hls Htl Hlen Hf Hin; [lia|].
  cbn [grep_loop]. unfold BUFSZ in *. rewrite Hchunk by lia.
  set (n := Nat.min (Z.to_nat (1024 - Z.of_nat (length pend) - 1)) (length input)).
  assert (n = Nat.min (1023 - length pend) (length input)) as Hn by (unfold n; lia). clearbody n.
  (* the lines that are complete after the read *)
  assert ((pend ++ take n input) ++ drop n input = unlines ls ++ tail) as Hcut by (by rewrite <-app_assoc, take_drop).
  destruct (cut_lines ls tail _ _ Hcut Htl Hls) as (ls1 & ls2 & t & -> & Hpre & Hsuf & Ht).
  apply Forall_app in Hls as [Hls1 Hls2]. apply Forall_app in Hlen as [_ Hlen2].
  assert (length (pend ++ take n input) = length pend + n)%nat as Hlpre by (rewrite length_app, length_take; lia).
  (* without a newline in the buffer there is no complete line left *)
  assert (ls1 = [] → ls2 = []) as Hnone.
  { intros ->. destruct ls2 as [|l ls2]; [done|exfalso]. apply Forall_cons in Hlen2 as [Hl _].
    simpl in Hpre. rewrite unlines_cons in Hsuf.
    assert (length t <= length l)%nat as Htl'.
    { rewrite <-app_assoc in Hsuf. destruct (app_eq_inv _ _ _ _ Hsuf) as [(k & -> & Hk)|(k & -> & _)]; [|rewrite length_app; lia].
      destruct k as [|x k]; [rewrite app_nil_r; lia|]. simpl in Hk. injection Hk as <- _.
      apply Forall_app in Ht as [_ Ht]. apply Forall_cons in Ht as [[_ Hx] _]. done. }
    rewrite Hpre in Hlpre. apply (f_equal length) in Hsuf. rewrite !length_app, length_drop in Hsuf. simpl in Hsuf. lia. }
  destruct (Nat.eqb_spec n 0) as [Hz|Hnz].
  - assert (input = []) as ->.
    { destruct input; [done|]. simpl in Hn. lia. }
    assert (ls1 = []) as ->.
    { destruct ls1 as [|l ls1]; [done|exfalso]. rewrite take_nil, app_nil_r in Hpre. rewrite Hpre, unlines_cons in Hpo.
      rewrite <-app_assoc in Hpo. apply Forall_app in Hpo as [_ Hpo]. apply Forall_cons in Hpo as [[_ Hx] _]. done. }
    rewrite (Hnone eq_refl). unfold selected. simpl. by rewrite app_nil_r.
  - set (new := take n input) in *. assert (length new = n) as Hnew by (unfold new; rewrite length_take; lia).
    destruct (filled mm buf pend new Hok Hpend) as (Hok1 & Hc1 & Hx1).
    { rewrite Hpre. apply Forall_app. split; [by apply unlines_chars|]. eapply Forall_impl; [exact Ht|]. by intros c []. }
    rewrite Hnew in Hok1, Hc1, Hx1. set (m1 := mset (store_bytes _ _ _) _ _) in *.
    replace (buf + (Z.of_nat (length pend) + Z.of_nat n)) with (buf + Z.of_nat (length pend) + Z.of_nat n) by lia. fold m1.
    rewrite Hpre in Hc1, Hx1, Hlpre.
    assert (cstr m1 pat re) as Hpat1 by (eapply cstr_agree; [|exact Hpat]; intros x Hx; apply Hx1; lia).
    pose proof (length_unlines ls1) as Hls1l. rewrite length_app in Hlpre.
    destruct (scan_run inner inner m1 pat re buf out ls1 t Hok1 Hpat1 Hc1 Hls1 Ht Hb) as (m2 & H2 & Hok2 & Hx2);
      [rewrite length_app; lia|lia|rewrite length_app; lia|].
    rewrite H2. simpl.
    assert (cstr m2 pat re) as Hpat2 by (eapply cstr_agree; [|exact Hpat1]; intros x Hx; apply Hx2; lia).
    assert (out ++ selected re (ls1 ++ ls2) = (out ++ selected re ls1) ++ selected re ls2) as ->.
    { unfold selected. by rewrite filter_app, unlines_app, <-app_assoc. }
    destruct (decide (ls1 = [])) as [->|Hne].
    + (* no newline came: the buffer is dropped, and nothing more will come *)
      rewrite (Hnone eq_refl) in *. simpl. rewrite Z.add_0_r, Z.eqb_refl. change (0 <? 0) with false. cbv iota.
      simpl in Hsuf. subst tail. apply Forall_app in Htl as [_ Htl].
      apply (IH m2 [] (drop n input) _ [] (drop n input)); try done; [simpl; lia|constructor|rewrite length_drop; lia].
    + assert (0 < length (unlines ls1))%nat as Hpos by (destruct ls1; [done|simpl in Hls1l; lia]).
      rewrite (proj2 (Z.eqb_neq _ _)) by lia. rewrite (proj2 (Z.ltb_lt _ _)) by lia.
      replace (Z.of_nat (length pend) + Z.of_nat n - (buf + Z.of_nat (length (unlines ls1)) - buf)) with (Z.of_nat (length t)) by lia.
      assert (∀ x, User.memmove m2 buf (buf + Z.of_nat (length (unlines ls1))) (Z.of_nat (length t)) x =
        if decide (buf <= x < buf + Z.of_nat (length t)) then m2 (buf + Z.of_nat (length (unlines ls1)) + (x - buf)) else m2 x) as Hmv.
      { intros x. apply UserSpec.user_memmove_spec; [done|lia|lia]. }
      apply (IH _ t (drop n input) _ ls2 tail); try done.
      * intros x. rewrite Hmv. case_decide; apply Hok2.
      * eapply cstr_agree; [|exact Hpat2]. intros x Hx. rewrite Hmv, decide_False; [done|lia].
      * intros i c Hi. apply lookup_lt_Some in Hi as Hlt. rewrite Hmv, decide_True by lia. rewrite Hx2 by lia.
        destruct (cstr_byte m1 buf (unlines ls1 ++ t) (length (unlines ls1) + i)%nat c Hc1) as [<- _].
        { rewrite lookup_app_r by lia. rewrite <-Hi. f_equal. lia. }
        f_equal. lia.
      * lia.
      * rewrite length_drop. lia.
Qed.

(** C39. grep prints exactly the matching lines: for a file of lines of up to 1022
    characters without NULs, whatever the boundaries of the 1023-byte reads, the
    loop ends at the end of the file and its output is the lines that the pattern
    matches, in order and each with its newline; text after the last newline is
    not printed. *)
Theorem grep_correct fuel inner mm pat re ls tail :
  mem_ok mm → 0 < buf → cstr mm pat re →
  pat + Z.of_nat (length re) < buf ∨ buf + BUFSZ <= pat →
  Forall line_ok ls → line_ok tail → Forall (λ l, (length l <= 1022)%nat) ls →
  (length (unlines ls ++ tail) < fuel)%nat → (2 * (length re + 1024) + 1 < inner)%nat →
  grep buf chunk fuel inner mm pat (unlines ls ++ tail) = Some (unlines (filter (grep_matches re) ls)).
Proof.
  intros Hok Hb Hpat Hdis Hls Htl Hlen Hf Hin. unfold grep.
  apply (grep_loop_run fuel inner mm pat re [] (unlines ls ++ tail) [] ls tail); try done; [simpl; lia|constructor].
Qed.
End loop.

(** *** Concrete runs *)

(** The pattern "a.*c$" at 16, a file of two lines and a part. *)
Definition pat_ex : list Z := [97; 46; 42; 99; 36].
Definition grep_mem : mem := λ x, u8 (default 0 (pat_ex !! Z.to_nat (x - 16))).
Definition read_file (input : list Z) (n : Z) : nat := Nat.min (Z.to_nat n) (length input).

Lemma grep_correct_witness :
  grep 100 read_file 20 3000 grep_mem 16 [97; 120; 99; 10; 97; 98; 10; 97; 99] = Some [97; 120; 99; 10].
Proof.
  etrans; [apply (grep_correct 100 read_file ltac:(done) 20 3000 grep_mem 16 pat_ex [[97; 120; 99]; [97; 98]] [97; 99])|by vm_compute].
  - intros x. apply u8_range.
  - lia.
  - vm_compute. repeat split.
  - left. simpl. lia.
  - unfold line_ok. repeat (apply Forall_nil_2 || apply Forall_cons_2); lia.
  - unfold line_ok. repeat (apply Forall_nil_2 || apply Forall_cons_2); lia.
  - repeat (apply Forall_nil_2 || apply Forall_cons_2); simpl; lia.
  - simpl. lia.
  - simpl. lia.
Defined.

Lemma match_correct_witness :
  ∃ r, match_ 40 grep_mem 16 17 = Some r ∧ (r = 1 ∧ grep_matches pat_ex [46; 42; 99; 36] ∨ r = 0 ∧ ¬ grep_matches pat_ex [46; 42; 99; 36]).
Proof. apply (match_correct 40 grep_mem 16 17 pat_ex [46; 42; 99; 36]); [vm_compute; repeat split|vm_compute; repeat split|simpl; lia]. Defined.

(** When read delivers one byte at a time, as the console or a pipe may, the start
    of a line is dropped although the buffer has room: "ab" is not found in "ab". *)
Lemma grep_partial_line_lost :
  grep 100 (λ input n, Nat.min 1 (length input)) 20 30 (λ x, u8 (default 0 ([97; 98] !! Z.to_nat (x - 16)))) 16 [97; 98; 10] = Some [].
Proof. by vm_compute. Qed.
