(* ===== verification/Umalloc.v ===== *)
(** * The user-level allocator (umalloc.c)

    Headers are pairs of words in the memory of the process: the address of the
    next free block and the size in units of 8 bytes. The free blocks form a ring
    that starts at the static header [base]. sbrk is the system call: [sbrk_ok brk n]
    tells whether the kernel can grow the process, of size [brk], by [n] bytes. *)

From stdpp Require Import sorting.
From S2P Require Import Prelude Cstring.
#[local] Open Scope Z_scope.

Record ust := USt { u_mem : mem; u_freep : Z; u_brk : Z }.

(** sizeof(Header) *)
Definition HDR : Z := 8.

Definition urd (a : Z) : M ust Z := gets (λ s, load32 (u_mem s) a).
Definition uwr (a v : Z) : M ust unit := modify (λ s, USt (store32 (u_mem s) a v) (u_freep s) (u_brk s)).
Definition set_freep (p : Z) : M ust unit := modify (λ s, USt (u_mem s) p (u_brk s)).
(** p->s.ptr is the word at [p], p->s.size the one after it. *)
Definition ptr_of (p : Z) : M ust Z := urd p.
Definition size_of (p : Z) : M ust Z := urd (p + 4).
Definition set_ptr (p v : Z) : M ust unit := uwr p v.
Definition set_size (p v : Z) : M ust unit := uwr (p + 4) v.

Section umalloc.
Variable base : Z.
Variable sbrk_ok : Z → Z → bool.

(** sbrk(n) is the old size, or -1. *)
Definition sbrk (n : Z) : M ust Z :=
  b ← gets u_brk;
  if sbrk_ok b n then modify (λ s, USt (u_mem s) (u_freep s) (b + n));; mret b else mret (u32 (-1)).

(** The free block after which [bp] belongs. *)
Fixpoint free_search (fuel : nat) (bp p : Z) : M ust Z :=
  match fuel with
  | O => no_fuel
  | S fuel =>
      nx ← ptr_of p;
      if (p <? bp) && (bp <? nx) then mret p
      else if (nx <=? p) && ((p <? bp) || (bp <? nx)) then mret p
      else free_search fuel bp nx
  end.

Definition free_join_next (bp p : Z) : M ust unit :=
  n ← size_of bp;
  nx ← ptr_of p;
  if u32 (bp + HDR * n) =? nx then
    s ← size_of nx;
    set_size bp (u32 (n + s));;
    q ← ptr_of nx;
    set_ptr bp q
  else set_ptr bp nx.

Definition free_join_prev (bp p : Z) : M ust unit :=
  s ← size_of p;
  if u32 (p + HDR * s) =? bp then
    n ← size_of bp;
    set_size p (u32 (s + n));;
    q ← ptr_of bp;
    set_ptr p q
  else set_ptr p bp.

Definition free (fuel : nat) (ap : Z) : M ust unit :=
  let bp := u32 (ap - HDR) in
  fp ← gets u_freep;
  p ← free_search fuel bp fp;
  free_join_next bp p;;
  free_join_prev bp p;;
  set_freep p.

Definition morecore (fuel : nat) (nu : Z) : M ust Z :=
  let nu := if nu <? 4096 then 4096 else nu in
  p ← sbrk (s32 (nu * HDR));
  if p =? u32 (-1) then mret 0
  else
    set_size p nu;;
    free fuel (u32 (p + HDR));;
    gets u_freep.

(** The body of malloc's loop once a block that is large enough is found. *)
Definition malloc_take (nunits prevp p : Z) : M ust Z :=
  s ← size_of p;
  p ← (if s =? nunits then
         q ← ptr_of p;
         set_ptr prevp q;;
         mret p
       else
         set_size p (u32 (s - nunits));;
         s' ← size_of p;
         let p' := u32 (p + HDR * s') in
         set_size p' nunits;;
         mret p');
  set_freep prevp;;
  mret (u32 (p + HDR)).

Fixpoint malloc_loop (fuel : nat) (nunits prevp p : Z) : M ust Z :=
  match fuel with
  | O => no_fuel
  | S fuel' =>
      s ← size_of p;
      if nunits <=? s then malloc_take nunits prevp p
      else
        fp ← gets u_freep;
        p ← (if p =? fp then morecore fuel nunits else mret p);
        if p =? 0 then mret 0
        else
          q ← ptr_of p;
          malloc_loop fuel' nunits p q
  end.

Definition units (nbytes : Z) : Z := u32 (u32 (nbytes + HDR - 1) / HDR + 1).

Definition malloc (fuel : nat) (nbytes : Z) : M ust Z :=
  let nunits := units nbytes in
  fp ← gets u_freep;
  prevp ← (if fp =? 0 then
             set_ptr base base;;
             set_freep base;;
             set_size base 0;;
             mret base
           else mret fp);
  p ← ptr_of prevp;
  malloc_loop fuel nunits prevp p.

(** ** The ring of free blocks *)

(** A block: its address and its size in units. *)
Abbreviation block := (Z * Z)%type.

Definition hd_addr (L : list block) (e : Z) : Z := match L with [] => e | b :: _ => b.1 end.

(** The headers of [L], each pointing to the next, the last one to [e]. *)
Fixpoint chain (m : mem) (L : list block) (e : Z) : Prop :=
  match L with
  | [] => True
  | b :: L => load32 m b.1 = hd_addr L e ∧ load32 m (b.1 + 4) = b.2 ∧ chain m L e
  end.

Lemma free_chain_app m L1 L2 e : chain m (L1 ++ L2) e ↔ chain m L1 (hd_addr L2 e) ∧ chain m L2 e.
Proof.
  induction L1 as [|b L1 IH]; [simpl; tauto|]. cbn [app chain]. rewrite IH.
  assert (hd_addr (L1 ++ L2) e = hd_addr L1 (hd_addr L2 e)) as -> by (by destruct L1). tauto.
Qed.

Lemma hd_addr_app L1 L2 e : hd_addr (L1 ++ L2) e = hd_addr L1 (hd_addr L2 e).
Proof. by destruct L1. Qed.

Lemma free_chain_ext m m' L e :
  (∀ b x, b ∈ L → b.1 <= x < b.1 + 8 → m' x = m x) → chain m L e → chain m' L e.
Proof.
  induction L as [|b L IH]; intros H; [done|]. cbn [chain]. intros (H1 & H2 & H3).
  assert (∀ a, b.1 <= a → a + 4 <= b.1 + 8 → load32 m' a = load32 m a) as Hw.
  { intros a Ha Hb. unfold load32. by rewrite !(H b) by (left || lia). }
  rewrite !Hw by lia. split; [done|]. split; [done|]. apply IH; [|done]. intros c x Hc. apply H. by right.
Qed.

(** Any rotation of a ring is one. *)
Lemma ring_rotate m L1 L2 e :
  L1 ≠ [] → L2 ≠ [] → e = hd_addr (L1 ++ L2) 0 → chain m (L1 ++ L2) e → chain m (L2 ++ L1) (hd_addr L2 0).
Proof.
  intros H1 H2 -> H. apply free_chain_app in H as [Ha Hb]. apply free_chain_app. destruct L1, L2; done.
Qed.

(** ** The heap *)

Section heap.
(** The heap starts at [hlo], behind the static data of the program. *)
Variable hlo : Z.
Hypothesis Hbase : 0 < base ∧ base + 8 <= hlo ∧ hlo <= 0x80000000.

Definition before (a b : block) : Prop := a.1 + 8 * a.2 < b.1.
Definition apart (a b : block) : Prop := a.1 + 8 * a.2 <= b.1 ∨ b.1 + 8 * b.2 <= a.1.
Definition in_heap (brk : Z) (b : block) : Prop := hlo <= b.1 ∧ 0 < b.2 ∧ b.1 + 8 * b.2 <= brk.

(** [F] are the free blocks, in the order of their addresses and never touching
    each other; [A] are the blocks the program holds. *)
Record uinv (st : ust) (F : list block) (A : gset block) : Prop := {
  ui_brk : hlo <= u_brk st <= 0x80000000;
  ui_ring : chain (u_mem st) ((base, 0) :: F) base;
  ui_freep : ∃ s, (u_freep st, s) ∈ (base, 0) :: F;
  ui_sorted : StronglySorted before F;
  ui_free : ∀ b, b ∈ F → in_heap (u_brk st) b;
  ui_alloc : ∀ b, b ∈ A → in_heap (u_brk st) b ∧ load32 (u_mem st) (b.1 + 4) = b.2;
  ui_apart : ∀ a b, a ∈ A → b ∈ F → apart a b;
  ui_aparts : ∀ a b, a ∈ A → b ∈ A → a ≠ b → apart a b
}.

(** The program may store in the blocks it holds, behind their headers. *)
Definition payload_only (A : gset block) (m m' : mem) : Prop :=
  ∀ x, (∀ b, b ∈ A → ¬ (b.1 + 8 <= x < b.1 + 8 * b.2)) → m' x = m x.
(** What the program stored stays. *)
Definition kept (A : gset block) (m m' : mem) : Prop :=
  ∀ b x, b ∈ A → b.1 <= x < b.1 + 8 * b.2 → m' x = m x.

Lemma ring_sorted st F A : uinv st F A → StronglySorted before ((base, 0) :: F).
Proof.
  intros H. constructor; [apply H|]. apply Forall_forall. intros b Hb.
  destruct (ui_free _ _ _ H b Hb). unfold before. simpl. lia.
Qed.

(** An address behind the first block of a list has one predecessor in it. *)
Lemma ring_split a s L bp :
  StronglySorted before ((a, s) :: L) → 0 <= s → (∀ b, b ∈ L → 0 < b.2) → a < bp → (∀ b, b ∈ L → b.1 ≠ bp) →
  ∃ L1 p t L2, (a, s) :: L = L1 ++ (p, t) :: L2 ∧ p < bp ∧
    (∀ b, b ∈ L2 → bp < b.1) ∧ (∀ b, b ∈ L1 → b.1 < p).
Proof.
  revert a s. induction L as [|[q t] L IH]; intros a s Hs H0 Hpos Hb Hne.
  - exists [], a, s, []. split; [done|]. split; [done|]. split; intros b Hb'; by apply elem_of_nil in Hb'.
  - apply StronglySorted_cons in Hs as [Ha Hs]. rewrite Forall_forall in Ha.
    pose proof (Hpos (q, t) ltac:(by left)) as Ht. simpl in Ht. destruct (Z.lt_ge_cases bp q) as [Hlt|Hge].
    + exists [], a, s, ((q, t) :: L). split; [done|]. split; [done|].
      split; [|intros b Hb'; by apply elem_of_nil in Hb'].
      intros b [->|Hin]%elem_of_cons; [done|]. apply StronglySorted_cons in Hs as [Hq _].
      rewrite Forall_forall in Hq. specialize (Hq b Hin). unfold before in Hq. simpl in Hq. lia.
    + pose proof (Hne (q, t) ltac:(by left)) as Hqne. simpl in Hqne.
      destruct (IH q t Hs) as (L1 & p & t' & L2 & E & Hp & H2 & H1); [lia| |lia| |].
      { intros b Hb'. apply Hpos. by right. }
      { intros b Hb'. apply Hne. by right. }
      exists ((a, s) :: L1), p, t', L2. split; [by rewrite E|]. split; [done|]. split; [done|].
      intros b [->|Hin]%elem_of_cons; [|by apply H1]. simpl.
      assert ((p, t') ∈ (q, t) :: L) as Hin by (rewrite E; apply elem_of_app; right; by left).
      specialize (Ha _ Hin). unfold before in Ha. simpl in Ha. lia.
Qed.

(** The search passes the blocks that are not the predecessor. *)
Lemma search_skip fuel bp Ra st q t Rb e :
  chain (u_mem st) (Ra ++ (q, t) :: Rb) e →
  (∀ L1 b L2, Ra ++ [(q, t)] = L1 ++ b :: L2 → L2 ≠ [] →
     ¬ (b.1 < bp ∧ bp < hd_addr L2 0) ∧ ¬ (hd_addr L2 0 <= b.1 ∧ (b.1 < bp ∨ bp < hd_addr L2 0))) →
  free_search (length Ra + fuel) bp (hd_addr Ra q) st = free_search fuel bp q st.
Proof.
  induction Ra as [|[p s] Ra IH]; intros Hc Hno; [done|]. cbn [length Nat.add free_search hd_addr fst].
  cbn [app chain fst snd] in Hc. destruct Hc as (Hn & _ & Hc). unfold ptr_of, urd. run. rewrite Hn.
  assert (hd_addr (Ra ++ (q, t) :: Rb) e = hd_addr Ra q) as Eh by (by destruct Ra). rewrite Eh.
  destruct (Hno [] (p, s) (Ra ++ [(q, t)]) eq_refl) as [N1 N2]; [by destruct Ra|]. simpl in N1, N2.
  assert (hd_addr (Ra ++ [(q, t)]) 0 = hd_addr Ra q) as Eh' by (by destruct Ra). rewrite Eh' in N1, N2.
  destruct (Z.ltb_spec p bp), (Z.ltb_spec bp (hd_addr Ra q)), (Z.leb_spec (hd_addr Ra q) p); simpl; try lia;
    (apply IH; [done|]; intros L1 b L2 E; apply (Hno ((p, s) :: L1) b L2); simpl; by rewrite E).
Qed.

Lemma sorted_split X a Y :
  StronglySorted before (X ++ a :: Y) → (∀ b, b ∈ X ++ a :: Y → 0 <= b.2) →
  (∀ x, x ∈ X → x.1 < a.1) ∧ (∀ y, y ∈ Y → a.1 < y.1).
Proof.
  intros Hs H0. split.
  - intros x Hx. assert (before x a) as Hb by (eapply StronglySorted_app_1_elem_of; [exact Hs|done|by left]).
    specialize (H0 x ltac:(apply elem_of_app; by left)). unfold before in Hb. lia.
  - intros y Hy. apply StronglySorted_app_1_r, StronglySorted_cons in Hs as [Hs _]. rewrite Forall_forall in Hs.
    specialize (Hs y Hy). specialize (H0 a ltac:(apply elem_of_app; right; by left)). unfold before in Hs. lia.
Qed.

(** The successor of a block in the ring. *)
Lemma ring_next m L X b Y e : chain m L e → L = X ++ b :: Y → load32 m b.1 = hd_addr Y e.
Proof. intros H ->. by apply free_chain_app in H as [_ [H _]]. Qed.

Lemma search_run fuel st F A bp L1 p t L2 :
  uinv st F A → hlo <= bp → (base, 0) :: F = L1 ++ (p, t) :: L2 → p < bp →
  (∀ b, b ∈ L2 → bp < b.1) → (∀ b, b ∈ L1 → b.1 < p) → (length F < fuel)%nat →
  free_search fuel bp (u_freep st) st = Ok p st.
Proof.
  intros H Hbp EL Hp H2 H1 Hf. pose proof (ring_sorted _ _ _ H) as Hs.
  assert (∀ b, b ∈ (base, 0) :: F → 0 <= b.2) as H0.
  { intros b [->|Hb]%elem_of_cons; [done|]. destruct (ui_free _ _ _ H b Hb). lia. }
  destruct (ui_freep _ _ _ H) as [s Hfp]. pose proof (ui_ring _ _ _ H) as Hring.
  set (L := (base, 0) :: F) in *. set (m := u_mem st) in *.
  (* the stop condition fails at every block but [p] *)
  assert (∀ b nx, b ∈ L → b.1 ≠ p → load32 m b.1 = nx →
    ¬ (b.1 < bp ∧ bp < nx) ∧ ¬ (nx <= b.1 ∧ (b.1 < bp ∨ bp < nx))) as Hno.
  { intros b nx Hb Hbp' <-. apply list_elem_of_split in Hb as (P1 & P2 & EP).
    rewrite (ring_next m L P1 b P2 base Hring EP).
    destruct (sorted_split P1 b P2) as [S1 S2]; [by rewrite <-EP|by rewrite <-EP|].
    assert (b.1 < p ∨ bp < b.1) as Hside.
    { assert (b ∈ L) as Hb by (rewrite EP; apply elem_of_app; right; by left). rewrite EL in Hb.
      apply elem_of_app in Hb as [Hb|[->|Hb]%elem_of_cons]; [left; by apply H1|done|right; by apply H2]. }
    assert ((p, t) ∈ L) as Hpl by (rewrite EL; apply elem_of_app; right; by left). rewrite EP in Hpl.
    assert (b.1 < p → (p, t) ∈ P2) as Hafter.
    { intros Hlt. apply elem_of_app in Hpl as [Hx|[Hx|Hx]%elem_of_cons]; [apply S1 in Hx; simpl in Hx; lia|by subst b|done]. }
    destruct P2 as [|c P2]; cbn [hd_addr].
    - destruct Hside as [Hlt|Hlt]; [by apply Hafter, elem_of_nil in Hlt|]. lia.
    - assert (b.1 < c.1) as Hbc by (apply S2; by left).
      assert (b.1 < p → c.1 <= p) as Hcp.
      { intros Hlt. apply Hafter in Hlt as [Hx|Hx]%elem_of_cons; [by subst c|].
        destruct (sorted_split (P1 ++ [b]) c P2) as [_ S3]; [rewrite <-app_assoc; simpl; by rewrite <-EP|rewrite <-app_assoc; simpl; by rewrite <-EP|].
        apply S3 in Hx. simpl in Hx. lia. }
      lia. }
  apply list_elem_of_split in Hfp as (X & Y & EX).
  assert (chain m ((u_freep st, s) :: Y ++ X) (u_freep st)) as Hrot.
  { destruct X as [|x X]; [rewrite app_nil_r; simpl in EX; rewrite <-EX; unfold L in EX; by injection EX as <- <- _|].
    apply (ring_rotate m (x :: X) ((u_freep st, s) :: Y) base); [done|done|by injection EX as <- _|by rewrite <-EX]. }
  assert ((p, t) ∈ (u_freep st, s) :: Y ++ X) as Hin.
  { assert ((p, t) ∈ L) as Hpl by (rewrite EL; apply elem_of_app; right; by left). rewrite EX in Hpl.
    change ((u_freep st, s) :: Y ++ X) with (((u_freep st, s) :: Y) ++ X). rewrite elem_of_app in *. tauto. }
  apply list_elem_of_split_l in Hin as (Ra & Rb & ER & Hnin).
  assert (length Ra + S (length Rb) = S (length F))%nat as Hlen.
  { apply (f_equal length) in ER. rewrite length_app in ER. simpl in ER. rewrite length_app in ER.
    unfold L in EX. apply (f_equal length) in EX. rewrite length_app in EX. simpl in EX. lia. }
  replace fuel with (length Ra + (fuel - length Ra))%nat by lia.
  assert (u_freep st = hd_addr Ra p) as Efp by (destruct Ra as [|r Ra]; simpl in ER; [simpl; congruence|by injection ER as <- _]).
  rewrite Efp at 1. rewrite ER in Hrot.
  assert (∀ b, b ∈ (u_freep st, s) :: Y ++ X → b ∈ L) as HRL.
  { intros b Hb. rewrite EX. change ((u_freep st, s) :: Y ++ X) with (((u_freep st, s) :: Y) ++ X) in Hb.
    rewrite elem_of_app in *. tauto. }
  rewrite (search_skip _ bp Ra st p t Rb (u_freep st) Hrot).
  - (* at [p] it stops *)
    destruct (fuel - length Ra)%nat as [|f] eqn:Ef; [lia|]. cbn [free_search]. unfold ptr_of, urd. run.
    fold m. pose proof (ring_next m L L1 (p, t) L2 base Hring EL) as Hnx. simpl in Hnx. rewrite Hnx.
    rewrite (proj2 (Z.ltb_lt p bp)) by done. destruct L2 as [|c L2]; simpl.
    + rewrite (proj2 (Z.ltb_ge bp base)) by lia. rewrite (proj2 (Z.leb_le base p)); [done|].
      assert ((p, t) ∈ L) as Hpl by (rewrite EL; apply elem_of_app; right; by left).
      apply elem_of_cons in Hpl as [[= -> _]|Hpl]; [done|]. destruct (ui_free _ _ _ H _ Hpl) as [Hlo _]. simpl in Hlo. lia.
    + by rewrite (proj2 (Z.ltb_lt bp c.1)) by (apply H2; by left).
  - intros L1' b L2' E HL2. assert (b ∈ Ra) as HbRa.
    { destruct L2' as [|z L2'] using rev_ind; [done|]. rewrite app_comm_cons, app_assoc in E.
      apply app_inj_tail in E as [-> _]. apply elem_of_app. right. by left. }
    assert (b ∈ L) as HbL by (apply HRL; rewrite ER; apply elem_of_app; by left).
    apply (Hno b _ HbL).
    + intros Heq. apply Hnin. assert ((p, t) = b) as ->; [|done].
      assert ((p, t) ∈ L) as Hpl by (rewrite EL; apply elem_of_app; right; by left).
      apply list_elem_of_split in HbL as (P1 & P2 & EP).
      destruct (sorted_split P1 b P2) as [S1 S2]; [by rewrite <-EP|by rewrite <-EP|]. rewrite EP in Hpl.
      apply elem_of_app in Hpl as [Hx|[Hx|Hx]%elem_of_cons]; [apply S1 in Hx; simpl in Hx; lia|done|apply S2 in Hx; simpl in Hx; lia].
    + replace (Ra ++ (p, t) :: Rb) with ((Ra ++ [(p, t)]) ++ Rb) in Hrot by (by rewrite <-app_assoc).
      rewrite E, <-app_assoc in Hrot. simpl in Hrot. rewrite (ring_next _ _ L1' b (L2' ++ Rb) _ Hrot eq_refl).
      by destruct L2'.
Qed.

Definition in_block (b : block) (x : Z) : Prop := b.1 <= x < b.1 + 8 * b.2.
Definition covers (L : list block) (x : Z) : Prop := ∃ b, b ∈ L ∧ in_block b x.

Lemma covers_cons b L x : covers (b :: L) x ↔ in_block b x ∨ covers L x.
Proof.
  unfold covers. split.
  - intros (c & [->|Hc]%elem_of_cons & Hx); [by left|right; by exists c].
  - intros [H|(c & Hc & Hx)]; [exists b; split; [by left|done]|exists c; split; [by right|done]].
Qed.
Lemma covers_app L L' x : covers (L ++ L') x ↔ covers L x ∨ covers L' x.
Proof.
  unfold covers. split.
  - intros (c & [Hc|Hc]%elem_of_app & Hx); [left|right]; by exists c.
  - intros [(c & Hc & Hx)|(c & Hc & Hx)]; exists c; (split; [apply elem_of_app; tauto|done]).
Qed.

(** Memory that changes only in the header at [p]. *)
Definition header_only (p : Z) (m m' : mem) : Prop := ∀ x, ¬ (p <= x < p + 8) → m' x = m x.

Lemma header_only_store p m a v : p <= a → a + 4 <= p + 8 → header_only p m (store32 m a v).
Proof. intros H1 H2 x Hx. apply store32_ne. lia. Qed.
Lemma header_only_trans p m m1 m2 : header_only p m m1 → header_only p m1 m2 → header_only p m m2.
Proof. intros H1 H2 x Hx. rewrite H2, H1; done. Qed.
Lemma header_load p m m' a : header_only p m m' → a + 4 <= p ∨ p + 8 <= a → load32 m' a = load32 m a.
Proof. intros H Ha. apply load32_ext. intros x Hx. apply H. lia. Qed.
Lemma header_chain p m m' L e :
  header_only p m m' → (∀ b, b ∈ L → b.1 + 8 <= p ∨ p + 8 <= b.1) → chain m L e → chain m' L e.
Proof. intros H Hp. apply free_chain_ext. intros b x Hb Hx. apply H. destruct (Hp b Hb); lia. Qed.

Lemma header_load_lo p m v w : is_u32 v → is_u32 w →
  load32 (store32 (store32 m (p + 4) w) p v) p = v ∧ load32 (store32 (store32 m (p + 4) w) p v) (p + 4) = w.
Proof.
  intros Hv Hw. split; [by apply load32_store32|].
  rewrite load32_store32_ne by lia. by apply load32_store32.
Qed.

(** The block at [bp] absorbs the free block that follows it. *)
Record joined_next (b : block) (L2 : list block) (n' : Z) (L2' : list block) : Prop := {
  jn_pos : b.2 <= n';
  jn_len : (length L2' <= length L2)%nat;
  jn_sub : ∀ y, y ∈ L2' → y ∈ L2;
  jn_sorted : StronglySorted before ((b.1, n') :: L2');
  jn_apart : ∀ a, 0 < a.2 → apart a b → (∀ y, y ∈ L2 → apart a y) → apart a (b.1, n');
  jn_heap : ∀ brk, in_heap brk b → (∀ y, y ∈ L2 → in_heap brk y) → in_heap brk (b.1, n');
  jn_covers : ∀ x, covers ((b.1, n') :: L2') x ↔ in_block b x ∨ covers L2 x
}.

Lemma join_next_run b p L2 st :
  load32 (u_mem st) (b.1 + 4) = b.2 → load32 (u_mem st) p = hd_addr L2 base →
  chain (u_mem st) L2 base → StronglySorted before L2 →
  in_heap (u_brk st) b → (∀ y, y ∈ L2 → in_heap (u_brk st) y) → u_brk st <= 0x80000000 →
  (∀ y, y ∈ L2 → b.1 < y.1 ∧ apart y b) →
  ∃ m1 n' L2', free_join_next b.1 p st = Ok tt (USt m1 (u_freep st) (u_brk st)) ∧
    header_only b.1 (u_mem st) m1 ∧ chain m1 ((b.1, n') :: L2') base ∧ joined_next b L2 n' L2'.
Proof.
  intros Hn Hp Hc Hs (Hb1 & Hb2 & Hb3) HL2 Hbrk Hafter. destruct b as [bp n]. cbn [fst snd] in *.
  assert (is_u32 base) as Hbu by (unfold is_u32; lia).
  assert (∀ y, y ∈ L2 → bp + 8 * n <= y.1 ∧ is_u32 y.1) as Hge.
  { intros y Hy. destruct (Hafter y Hy) as [H1 [H2|H2]], (HL2 y Hy) as (H3 & H4 & H5); simpl in H2; unfold is_u32; [lia|lia]. }
  unfold free_join_next, size_of, ptr_of, set_size, set_ptr, urd, uwr. run. cbn [u_mem u_freep u_brk].
  rewrite Hn, Hp. unfold HDR. rewrite u32_small by (unfold is_u32; lia).
  destruct L2 as [|[q t] L3]; cbn [hd_addr fst].
  - rewrite (proj2 (Z.eqb_neq _ _)) by lia. exists (store32 (u_mem st) bp base), n, [].
    split; [done|]. split; [apply header_only_store; lia|]. split.
    + cbn [chain hd_addr fst snd]. rewrite load32_store32 by done. rewrite load32_store32_ne by lia. done.
    + split; simpl; try done; [repeat constructor|].
      intros x. rewrite covers_cons. tauto.
  - destruct (Hge (q, t) ltac:(by left)) as [Hq Hqu]. cbn [fst] in Hq, Hqu. destruct Hc as (Hc1 & Hc2 & Hc3). cbn [fst snd] in Hc1, Hc2.
    destruct (HL2 (q, t) ltac:(by left)) as (Hq1 & Hq2 & Hq3). cbn [fst snd] in Hq1, Hq2, Hq3.
    apply StronglySorted_cons in Hs as [Hs1 Hs]. rewrite Forall_forall in Hs1.
    assert (is_u32 (hd_addr L3 base)) as Hu3.
    { destruct L3 as [|y L3]; [done|]. apply (Hge y). right. by left. }
    destruct (Z.eqb_spec (bp + 8 * n) q) as [Heq|Hne].
    + (* they touch *)
      run. cbn [u_mem u_freep u_brk]. rewrite Hc2. rewrite (u32_small (n + t)) by (unfold is_u32; lia).
      rewrite (load32_store32_ne (u_mem st) (bp + 4)) by lia. rewrite Hc1.
      eexists _, (n + t), L3. split; [reflexivity|]. split; [|split].
      * cbn [u_mem]. eapply header_only_trans; apply header_only_store; lia.
      * cbn [chain fst snd u_mem]. destruct (header_load_lo bp (u_mem st) (hd_addr L3 base) (n + t) Hu3) as [-> ->]; [unfold is_u32; lia|].
        split; [done|]. split; [done|]. eapply free_chain_ext; [|exact Hc3]. intros y x Hy Hx.
        specialize (Hs1 y Hy). unfold before in Hs1. cbn [fst snd] in Hs1. rewrite !store32_ne by lia. done.
      * split; cbn [fst snd].
        -- lia.
        -- simpl. lia.
        -- intros y Hy. by right.
        -- constructor; [done|]. apply Forall_forall. intros y Hy. specialize (Hs1 y Hy). unfold before in *. cbn [fst snd] in *. lia.
        -- intros a Ha Hab Hall. specialize (Hall (q, t) ltac:(by left)). unfold apart in *. cbn [fst snd] in *. lia.
        -- intros brk (B1 & B2 & B3) Hall. destruct (Hall (q, t) ltac:(by left)) as (D1 & D2 & D3). unfold in_heap. cbn [fst snd] in *. lia.
        -- intros x. rewrite !covers_cons. unfold in_block. cbn [fst snd].
           assert (bp <= x < bp + 8 * (n + t) ↔ bp <= x < bp + 8 * n ∨ q <= x < q + 8 * t) as -> by lia. tauto.
    + eexists _, n, ((q, t) :: L3). split; [reflexivity|]. split; [apply header_only_store; lia|]. split.
      * cbn [chain hd_addr fst snd]. rewrite load32_store32 by done. rewrite load32_store32_ne by lia.
        split; [done|]. split; [done|]. rewrite !load32_store32_ne by lia.
        split; [done|]. split; [done|]. eapply free_chain_ext; [|exact Hc3]. intros y x Hy Hx.
        specialize (Hs1 y Hy). unfold before in Hs1. cbn [fst snd] in Hs1. rewrite store32_ne by lia. done.
      * split; cbn [fst snd]; try done.
        -- constructor; [constructor; [done|by apply Forall_forall]|]. apply Forall_forall.
           intros y [->|Hy]%elem_of_cons; unfold before; cbn [fst snd]; [lia|].
           specialize (Hs1 y Hy). unfold before in Hs1. cbn [fst snd] in Hs1. lia.
        -- intros x. rewrite covers_cons. unfold in_block at 1. done.
Qed.

(** The block before it absorbs it, or points to it. *)
Lemma join_prev_run p t bp n L2 st :
  load32 (u_mem st) (p + 4) = t → chain (u_mem st) ((bp, n) :: L2) base →
  0 <= p → 0 <= t → p + 8 <= bp → p + 8 * t <= bp → 0 < n → bp + 8 * n <= 0x80000000 →
  (∀ y, y ∈ L2 → bp + 8 <= y.1 < 0x80000000) →
  ∃ m2 t' M, free_join_prev bp p st = Ok tt (USt m2 (u_freep st) (u_brk st)) ∧
    header_only p (u_mem st) m2 ∧ chain m2 ((p, t') :: M) base ∧
    (t' = t ∧ M = (bp, n) :: L2 ∧ p + 8 * t < bp ∨ t' = t + n ∧ M = L2 ∧ p + 8 * t = bp).
Proof.
  intros Ht Hc Hp0 Ht0 Hpb Hle Hn Hend HL2. cbn [chain fst snd] in Hc. destruct Hc as (Hc1 & Hc2 & Hc3).
  assert (is_u32 (hd_addr L2 base)) as Hu.
  { destruct L2 as [|y L2]; cbn [hd_addr]; [unfold is_u32; lia|]. specialize (HL2 y ltac:(by left)). unfold is_u32. lia. }
  unfold free_join_prev, size_of, ptr_of, set_size, set_ptr, urd, uwr. run. cbn [u_mem u_freep u_brk].
  rewrite Ht. unfold HDR. rewrite u32_small by (unfold is_u32; lia).
  destruct (Z.eqb_spec (p + 8 * t) bp) as [Heq|Hne].
  - run. cbn [u_mem u_freep u_brk]. rewrite Hc2, (u32_small (t + n)) by (unfold is_u32; lia).
    rewrite (load32_store32_ne (u_mem st) (p + 4)) by lia. rewrite Hc1.
    eexists _, (t + n), L2. split; [reflexivity|]. cbn [u_mem]. split; [|split; [|by right]].
    + eapply header_only_trans; apply header_only_store; lia.
    + cbn [chain fst snd]. destruct (header_load_lo p (u_mem st) (hd_addr L2 base) (t + n) Hu) as [-> ->]; [unfold is_u32; lia|].
      split; [done|]. split; [done|]. eapply free_chain_ext; [|exact Hc3]. intros y x Hy Hx.
      specialize (HL2 y Hy). rewrite !store32_ne by lia. done.
  - eexists _, t, ((bp, n) :: L2). split; [reflexivity|]. split; [apply header_only_store; lia|]. split; [|left; split_and!; [done|done|lia]].
    cbn [chain hd_addr fst snd]. rewrite load32_store32 by (unfold is_u32; lia). rewrite !load32_store32_ne by lia.
    split; [done|]. split; [done|]. split; [done|]. split; [done|]. eapply free_chain_ext; [|exact Hc3]. intros y x Hy Hx.
    specialize (HL2 y Hy). rewrite store32_ne by lia. done.
Qed.

(** free: the block is free again, merged with its neighbours. *)
Lemma free_run fuel st F A b :
  uinv st F A → b ∈ A → (length F < fuel)%nat →
  ∃ st' F', free fuel (b.1 + 8) st = Ok tt st' ∧ uinv st' F' (A ∖ {[b]}) ∧ u_brk st' = u_brk st ∧
    (length F' <= S (length F))%nat ∧ kept (A ∖ {[b]}) (u_mem st) (u_mem st') ∧
    (∀ x, covers F' x ↔ in_block b x ∨ covers F x) ∧ (∃ y, y ∈ F' ∧ b.2 <= y.2).
Proof.
  intros H Hb Hf. destruct (ui_alloc _ _ _ H b Hb) as [Hbh Hbn]. pose proof (ui_brk _ _ _ H) as Hbrk.
  pose proof (ring_sorted _ _ _ H) as Hs. destruct b as [bp n]. pose proof Hbh as (B1 & B2 & B3). cbn [fst snd] in *.
  assert (∀ y, y ∈ F → apart (bp, n) y) as HbF by (intros y Hy; by apply (ui_apart _ _ _ H)).
  destruct (ring_split base 0 F bp Hs) as (L1 & p & t & L2 & EL & Hp & Haft & Hbef); [done| |lia| |].
  { intros y Hy. by destruct (ui_free _ _ _ H y Hy) as (_ & ? & _). }
  { intros y Hy. destruct (ui_free _ _ _ H y Hy) as (_ & Hy2 & _), (HbF y Hy) as [Ha|Ha]; cbn [fst snd] in Ha; lia. }
  (* the ring around [p] *)
  pose proof (ui_ring _ _ _ H) as Hring. rewrite EL in Hring. apply free_chain_app in Hring as [Hc1 Hc2].
  cbn [chain hd_addr fst snd] in Hc1, Hc2. destruct Hc2 as (Hpn & Hpt & Hc2).
  rewrite EL in Hs. apply StronglySorted_app in Hs as (Hs12 & Hs1 & Hs2). apply StronglySorted_cons in Hs2 as [Hps Hs2].
  assert (∀ y, y ∈ L2 → y ∈ F) as H2F.
  { intros y Hy. destruct L1 as [|z L1]; simpl in EL; injection EL as _ EF; subst F; [done|]. apply elem_of_app. right. by right. }
  assert (∀ y, y ∈ (base, 0) :: F → y.1 + 8 <= bp ∧ y.1 + 8 * y.2 <= bp ∨ bp + 8 * n <= y.1) as Hhdr.
  { intros y [->|Hy]%elem_of_cons; [left; simpl; lia|].
    destruct (ui_free _ _ _ H y Hy) as (_ & Hy2 & _), (HbF y Hy) as [Ha|Ha]; cbn [fst snd] in Ha; [by right|left; lia]. }
  destruct (Hhdr (p, t)) as [[Hp8 Hpe]|?]; [rewrite EL; apply elem_of_app; right; by left| |simpl in *; lia]. cbn [fst snd] in Hp8, Hpe.
  assert (0 <= p ∧ 0 <= t ∧ ((p, t) = (base, 0) ∨ (p, t) ∈ F)) as (Hp0 & Ht0 & HpF).
  { assert ((p, t) ∈ (base, 0) :: F) as Hin by (rewrite EL; apply elem_of_app; right; by left).
    apply elem_of_cons in Hin as [Heq|Hin]; [injection Heq as -> ->; split_and!; [lia|lia|by left]|].
    destruct (ui_free _ _ _ H _ Hin) as (? & ? & _). cbn [fst snd] in *. split_and!; [lia|lia|by right]. }
  destruct (join_next_run (bp, n) p L2 st Hbn Hpn Hc2 Hs2 Hbh) as (m1 & n' & L2' & HJ1 & Hm1 & Hcm1 & [J1 Jl J2 J3 J4 J5 J6]).
  { intros y Hy. by apply (ui_free _ _ _ H), H2F. }
  { lia. }
  { intros y Hy. split; [by apply Haft|]. specialize (HbF y (H2F y Hy)). unfold apart in *. tauto. }
  cbn [fst snd] in *. set (st1 := USt m1 (u_freep st) (u_brk st)) in *.
  assert (in_heap (u_brk st) (bp, n')) as (D1 & D2 & D3).
  { apply J5; [done|]. intros y Hy. by apply (ui_free _ _ _ H), H2F. }
  cbn [fst snd] in D1, D2, D3.
  destruct (join_prev_run p t bp n' L2' st1) as (m2 & t' & M & HJ2 & Hm2 & Hcm2 & Hcase); cbn [u_mem st1]; try lia.
  { rewrite <-Hpt. apply (header_load bp); [exact Hm1|lia]. }
  { done. }
  { intros y Hy. destruct (ui_free _ _ _ H y (H2F y (J2 y Hy))) as (_ & Hy2 & Hy3).
    apply StronglySorted_cons in J3 as [J3 _]. rewrite Forall_forall in J3. specialize (J3 y Hy). unfold before in J3. cbn [fst snd] in J3. lia. }
  (* the new list *)
  assert (∃ F', L1 ++ (p, t') :: M = (base, 0) :: F' ∧
    (L1 = [] ∧ p = base ∧ t = 0 ∧ F' = M ∧ F = L2 ∨ ∃ L1', F' = L1' ++ (p, t') :: M ∧ F = L1' ++ (p, t) :: L2)) as (F' & ER & HF).
  { destruct L1 as [|z L1]; simpl in EL |- *.
    - injection EL as Ep Et ->. destruct Hcase as [(-> & _)|(_ & _ & ?)]; [|lia]. exists M. subst. split; [done|by left].
    - injection EL as <- ->. eexists. split; [done|]. right. by eexists. }
  assert (∀ y, y ∈ M → y = (bp, n') ∨ y ∈ L2') as HM.
  { intros y Hy. destruct Hcase as [(_ & -> & _)|(_ & -> & _)]; [by apply elem_of_cons in Hy|by right]. }
  assert (∀ y, y ∈ F' → y ∈ F ∨ y = (bp, n') ∨ y = (p, t + n') ∧ (p, t) ∈ F ∧ p + 8 * t = bp) as HF'.
  { intros y Hy. destruct HF as [(_ & _ & _ & -> & ->)|(L1' & -> & ->)].
    - destruct (HM y Hy) as [->|Hin]; [by right; left|left; by apply J2].
    - apply elem_of_app in Hy as [Hy|[->|Hy]%elem_of_cons].
      + left. apply elem_of_app. by left.
      + destruct Hcase as [(-> & _)|(-> & _ & ?)]; [left|right; right; split; [done|split; [|done]]];
          (apply elem_of_app; right; by left).
      + destruct (HM y Hy) as [->|Hin]; [by right; left|]. left. apply elem_of_app. right. right. by apply J2. }
  assert (StronglySorted before (L1 ++ (p, t') :: M)) as HsR.
  { pose proof J3 as J3'. apply StronglySorted_cons in J3' as [J31 J32]. rewrite Forall_forall in J31, Hps.
    apply StronglySorted_app_2; [|done|].
    - intros x y Hx Hy. pose proof (Hs12 x (p, t) Hx ltac:(by left)) as Hxp. unfold before in Hxp |- *. cbn [fst] in Hxp.
      apply elem_of_cons in Hy as [->|Hy]; [done|]. destruct (HM y Hy) as [->|Hin]; [cbn [fst]; lia|].
      apply (Hs12 x y Hx). right. by apply J2.
    - destruct Hcase as [(-> & -> & Hlt)|(-> & -> & Heq)].
      + constructor; [done|]. apply Forall_forall. intros y [->|Hy]%elem_of_cons; [done|]. by apply Hps, J2.
      + constructor; [done|]. apply Forall_forall. intros y Hy. specialize (J31 y Hy). unfold before in *. cbn [fst snd] in *. lia. }
  assert (kept (A ∖ {[(bp, n)]}) (u_mem st) m2) as Hkept.
  { intros a x [Ha Hne]%elem_of_difference Hx. rewrite elem_of_singleton in Hne.
    destruct (ui_alloc _ _ _ H a Ha) as [(A1 & A2 & A3) _].
    pose proof (ui_aparts _ _ _ H a (bp, n) Ha Hb Hne) as Hab. unfold apart in Hab. cbn [fst snd] in Hab.
    rewrite Hm2, Hm1; [done| |]; [lia|]. destruct HpF as [[= -> ->]|HpF]; [lia|].
    pose proof (ui_apart _ _ _ H a (p, t) Ha HpF) as Hap. destruct (ui_free _ _ _ H _ HpF) as (_ & Hpos & _).
    unfold apart in Hap. cbn [fst snd] in Hap, Hpos. lia. }
  exists (USt m2 p (u_brk st)), F'. split; [|split; [|split; [done|split; [|split; [exact Hkept|split]]]]].
  - unfold free, HDR. rewrite u32_small by (unfold is_u32; lia). replace (bp + 8 - 8) with bp by lia. run.
    rewrite (bind_run _ _ _ _ _ (search_run fuel st F A bp L1 p t L2 H B1 EL Hp Haft Hbef Hf)).
    rewrite (bind_run _ _ _ _ _ HJ1), (bind_run _ _ _ _ _ HJ2). done.
  - split; cbn [u_mem u_freep u_brk].
    + done.
    + rewrite <-ER. apply free_chain_app. split; [|done]. cbn [hd_addr fst].
      apply (header_chain p m1); [exact Hm2| |].
      * intros z Hz. pose proof (Hs12 z (p, t) Hz ltac:(by left)) as Hzp. unfold before in Hzp. cbn [fst] in Hzp.
        assert (z ∈ (base, 0) :: F) as Hin by (rewrite EL; apply elem_of_app; by left).
        apply elem_of_cons in Hin as [->|Hin]; [|destruct (ui_free _ _ _ H z Hin) as (_ & ? & _); lia].
        destruct HpF as [[= -> ->]|HpF]; [cbn [fst snd] in Hzp; lia|]. destruct (ui_free _ _ _ H _ HpF) as (? & _). cbn [fst snd] in *. lia.
      * apply (header_chain bp (u_mem st)); [exact Hm1| |done].
        intros z Hz. assert (z ∈ (base, 0) :: F) as Hin by (rewrite EL; apply elem_of_app; by left).
        destruct (Hhdr z Hin) as [[? _]|?]; [by left|right; lia].
    + exists t'. rewrite <-ER. apply elem_of_app. right. by left.
    + rewrite ER in HsR. by apply StronglySorted_cons in HsR as [_ ?].
    + intros y Hy. destruct (HF' y Hy) as [Hin|[->|(-> & Hin & Heq)]]; [by apply (ui_free _ _ _ H)|done|].
      destruct (ui_free _ _ _ H _ Hin) as (? & ? & ?). unfold in_heap. cbn [fst snd] in *. lia.
    + intros a Ha. pose proof Ha as [Ha1 Hne]%elem_of_difference. destruct (ui_alloc _ _ _ H a Ha1) as [(A1 & A2 & A3) A4].
      split; [done|]. rewrite <-A4. apply load32_ext. intros x Hx. apply (Hkept a x Ha). lia.
    + intros a y Ha Hy. apply elem_of_difference in Ha as [Ha Hne]. rewrite elem_of_singleton in Hne.
      destruct (ui_alloc _ _ _ H a Ha) as [(A1 & A2 & A3) _]. pose proof (ui_aparts _ _ _ H a (bp, n) Ha Hb Hne) as Hab.
      assert (apart a (bp, n')) as Hd.
      { apply J4; [done|done|]. intros z Hz. apply (ui_apart _ _ _ H); [done|by apply H2F]. }
      destruct (HF' y Hy) as [Hin|[->|(-> & Hin & Heq)]]; [by apply (ui_apart _ _ _ H)|done|].
      pose proof (ui_apart _ _ _ H a (p, t) Ha Hin) as Hap. unfold apart in *. cbn [fst snd] in *. lia.
    + intros a c [Ha _]%elem_of_difference [Hc' _]%elem_of_difference. by apply (ui_aparts _ _ _ H).
  - apply (f_equal length) in ER. apply (f_equal length) in EL. rewrite length_app in ER, EL. simpl in ER, EL.
    destruct Hcase as [(_ & -> & _)|(_ & -> & _)]; simpl in ER; lia.
  - intros x. specialize (J6 x). rewrite covers_cons in J6. destruct HF as [(_ & -> & -> & -> & ->)|(L1' & -> & ->)].
    + destruct Hcase as [(_ & -> & _)|(_ & _ & Heq)]; [by rewrite covers_cons|lia].
    + rewrite !covers_app, !covers_cons. destruct Hcase as [(-> & -> & _)|(-> & -> & Heq)].
      * rewrite covers_cons. tauto.
      * assert (in_block (p, t + n') x ↔ in_block (p, t) x ∨ in_block (bp, n') x) as ->; [|tauto].
        unfold in_block. cbn [fst snd]. lia.
  - assert (∃ y, y ∈ (base, 0) :: F' ∧ n' <= y.2) as (y & Hy & Hny).
    { destruct Hcase as [(-> & -> & _)|(-> & -> & _)].
      - exists (bp, n'). rewrite <-ER. split; [apply elem_of_app; right; right; by left|done].
      - exists (p, t + n'). rewrite <-ER. split; [apply elem_of_app; right; by left|simpl; lia]. }
    apply elem_of_cons in Hy as [->|Hy]; [simpl in Hny; lia|]. exists y. split; [done|]. simpl. lia.
Qed.

(** *** malloc *)

(** What malloc promises of the block it returns. *)
Definition allocated (nunits : Z) (st st' : ust) (F F' : list block) (A : gset block) (q : Z) : Prop :=
  uinv st' F' ({[(q, nunits)]} ∪ A) ∧ ((q, nunits) ∉ A) ∧ u_brk st' = u_brk st ∧ kept A (u_mem st) (u_mem st') ∧
  ∀ x, covers F' x ∨ in_block (q, nunits) x ↔ covers F x.

Lemma alloc_inv n st F A F1 q t Y M r m' fp :
  uinv st F A → F = F1 ++ (q, t) :: Y → 0 < n <= t →
  (n = t ∧ M = Y ∧ r = q ∨ n < t ∧ M = (q, t - n) :: Y ∧ r = q + 8 * (t - n)) →
  chain m' ((base, 0) :: F1 ++ M) base → kept A (u_mem st) m' → load32 m' (r + 4) = n →
  (∃ s, (fp, s) ∈ (base, 0) :: F1 ++ M) →
  allocated n st (USt m' fp (u_brk st)) F (F1 ++ M) A r.
Proof.
  intros H EF Hn HM Hc Hk Hr Hfp. assert ((q, t) ∈ F) as HqF by (rewrite EF; apply elem_of_app; right; by left).
  destruct (ui_free _ _ _ H _ HqF) as (Q1 & Q2 & Q3). cbn [fst snd] in *.
  pose proof (ui_sorted _ _ _ H) as Hs. rewrite EF in Hs. apply StronglySorted_app in Hs as (Hs12 & Hs1 & Hs2).
  apply StronglySorted_cons in Hs2 as [HqY HsY]. rewrite Forall_forall in HqY.
  assert (∀ y, y ∈ F1 ++ M → y ∈ F ∧ apart y (q, t) ∨ n < t ∧ y = (q, t - n)) as HFM.
  { intros y Hy. assert (y ∈ F1 ∨ y ∈ Y ∨ n < t ∧ y = (q, t - n)) as [Hin|[Hin|?]]; [| | |by right].
    - apply elem_of_app in Hy as [Hy|Hy]; [by left|right]. destruct HM as [(_ & -> & _)|(? & -> & _)]; [by left|].
      apply elem_of_cons in Hy as [->|Hy]; [by right|by left].
    - left. split; [rewrite EF; apply elem_of_app; by left|]. specialize (Hs12 y (q, t) Hin ltac:(by left)).
      unfold before, apart in *. cbn [fst snd] in *. lia.
    - left. split; [rewrite EF; apply elem_of_app; right; by right|]. specialize (HqY y Hin).
      unfold before, apart in *. cbn [fst snd] in *. lia. }
  assert (∀ a, a ∈ A → apart a (r, n)) as HA.
  { intros a Ha. pose proof (ui_apart _ _ _ H a (q, t) Ha HqF) as Hap. unfold apart in *. cbn [fst snd] in *.
    destruct HM as [(-> & _ & ->)|(? & _ & ->)]; lia. }
  split; [|split; [|split; [done|split; [exact Hk|]]]]; [split; cbn [u_mem u_brk u_freep]|..].
  - apply H.
  - exact Hc.
  - exact Hfp.
  - apply StronglySorted_app_2; [|done|].
    + intros x y Hx Hy. assert (y ∈ (q, t - n) :: Y) as [->|Hin]%elem_of_cons.
      { destruct HM as [(_ & -> & _)|(_ & -> & _)]; [by right|done]. }
      * apply (Hs12 x (q, t) Hx). by left.
      * apply (Hs12 x y Hx). by right.
    + destruct HM as [(_ & -> & _)|(? & -> & _)]; [done|]. constructor; [done|]. apply Forall_forall. intros y Hy.
      specialize (HqY y Hy). unfold before in *. cbn [fst snd] in *. lia.
  - intros y Hy. destruct (HFM y Hy) as [[Hin _]|[? ->]]; [by apply (ui_free _ _ _ H)|]. unfold in_heap. cbn [fst snd]. lia.
  - intros a [->%elem_of_singleton|Ha]%elem_of_union.
    + cbn [fst snd]. split; [|done]. unfold in_heap. cbn [fst snd]. destruct HM as [(-> & _ & ->)|(? & _ & ->)]; lia.
    + destruct (ui_alloc _ _ _ H a Ha) as [(A1 & A2 & A3) A4]. split; [done|]. rewrite <-A4. apply load32_ext.
      intros x Hx. apply (Hk a x Ha). lia.
  - intros a y [->%elem_of_singleton|Ha]%elem_of_union Hy.
    + destruct (HFM y Hy) as [[_ Hap]|[? ->]]; unfold apart in *; cbn [fst snd] in *; destruct HM as [(-> & _ & ->)|(? & _ & ->)]; lia.
    + destruct (HFM y Hy) as [[Hin _]|[? ->]]; [by apply (ui_apart _ _ _ H)|].
      pose proof (ui_apart _ _ _ H a (q, t) Ha HqF) as Hap. unfold apart in *. cbn [fst snd] in *. lia.
  - intros a c [->%elem_of_singleton|Ha]%elem_of_union [->%elem_of_singleton|Hc']%elem_of_union Hne; [done| | |by apply (ui_aparts _ _ _ H)].
    + specialize (HA c Hc'). unfold apart in *. cbn [fst snd] in *. lia.
    + by apply HA.
  - intros Hin. specialize (HA _ Hin). unfold apart in HA. cbn [fst snd] in HA. lia.
  - intros x. rewrite EF, !covers_app, !covers_cons. destruct HM as [(-> & -> & ->)|(? & -> & ->)]; [tauto|].
    rewrite covers_cons. assert (in_block (q, t) x ↔ in_block (q, t - n) x ∨ in_block (q + 8 * (t - n), n) x) as ->; [|tauto].
    unfold in_block. cbn [fst snd]. lia.
Qed.

Lemma take_run n st F A X pp s q t Y :
  uinv st F A → (base, 0) :: F = X ++ (pp, s) :: (q, t) :: Y → 0 < n <= t →
  ∃ st' F' r, malloc_take n pp q st = Ok (r + 8) st' ∧ allocated n st st' F F' A r.
Proof.
  intros H EL Hn. pose proof (ui_ring _ _ _ H) as Hring. pose proof (ring_sorted _ _ _ H) as Hs.
  pose proof (ui_brk _ _ _ H) as Hbrk. rewrite EL in Hring, Hs.
  assert (∃ F1, F = F1 ++ (q, t) :: Y ∧ (base, 0) :: F1 = X ++ [(pp, s)]) as (F1 & EF & EX).
  { destruct X as [|x X]; simpl in EL; injection EL as <- ->; [exists []; by subst|].
    exists (X ++ [(pp, s)]). by rewrite <-app_assoc. }
  assert ((q, t) ∈ F) as HqF by (rewrite EF; apply elem_of_app; right; by left).
  destruct (ui_free _ _ _ H _ HqF) as (Q1 & Q2 & Q3). cbn [fst snd] in *.
  apply free_chain_app in Hring as [Hc1 Hc2]. cbn [chain hd_addr fst snd] in Hc1, Hc2.
  destruct Hc2 as (Hp1 & Hp2 & Hq1 & Hq2 & Hc3).
  (* the headers before [q] are apart from it, those after it behind it *)
  assert (∀ z, z ∈ X ++ [(pp, s)] → z.1 + 8 <= q ∧ 0 < z.1) as Hbq.
  { intros z Hz. assert (before z (q, t)) as Hzq.
    { replace (X ++ (pp, s) :: (q, t) :: Y) with ((X ++ [(pp, s)]) ++ (q, t) :: Y) in Hs by (by rewrite <-app_assoc).
      eapply StronglySorted_app_1_elem_of; [exact Hs|done|by left]. }
    rewrite <-EX in Hz. unfold before in Hzq. cbn [fst] in Hzq.
    apply elem_of_cons in Hz as [->|Hz]; [simpl; lia|]. assert (z ∈ F) as Hin by (rewrite EF; apply elem_of_app; by left).
    destruct (ui_free _ _ _ H z Hin) as (? & ? & _). lia. }
  apply StronglySorted_app in Hs as (Hs12 & _ & Hs2). apply StronglySorted_cons in Hs2 as [_ Hs2].
  apply StronglySorted_cons in Hs2 as [HqY _]. rewrite Forall_forall in HqY.
  destruct (Hbq (pp, s)) as [Hpq Hpp]; [apply elem_of_app; right; by left|]. cbn [fst snd] in Hpq, Hpp.
  assert (∀ a, a ∈ A → apart a (q, t)) as HAq by (intros a Ha; by apply (ui_apart _ _ _ H)).
  unfold malloc_take, size_of, ptr_of, set_size, set_ptr, set_freep, urd, uwr. run. rewrite Hq2.
  destruct (Z.eqb_spec t n) as [->|Hne].
  - run. cbn [u_mem u_freep u_brk]. rewrite Hq1.
    assert (is_u32 (hd_addr Y base)) as Hu.
    { destruct Y as [|y Y]; cbn [hd_addr]; unfold is_u32; [lia|].
      destruct (ui_free _ _ _ H y) as (? & ? & ?); [rewrite EF; apply elem_of_app; right; right; by left|]. lia. }
    eexists _, (F1 ++ Y), q. split; [unfold HDR; rewrite u32_small by (unfold is_u32; lia); reflexivity|].
    apply (alloc_inv n st F A F1 q n Y Y); [done|done|done|by left| | | |].
    + rewrite app_comm_cons, EX, <-app_assoc. apply free_chain_app. simpl. cbn [chain fst snd]. split.
      * apply (header_chain pp (u_mem st)); [apply header_only_store; lia| |done].
        intros z Hz. pose proof (Hs12 z (pp, s) Hz ltac:(by left)) as Hzp. unfold before in Hzp. cbn [fst] in Hzp.
        assert (z ∈ (base, 0) :: F1) as Hin by (rewrite EX; apply elem_of_app; by left).
        assert ((pp, s) ∈ (base, 0) :: F1) as Hin2 by (rewrite EX; apply elem_of_app; right; by left).
        left. apply elem_of_cons in Hin as [->|Hin]; [|destruct (ui_free _ _ _ H z) as (_ & ? & _); [rewrite EF; apply elem_of_app; by left|lia]].
        cbn [fst snd] in *. apply elem_of_cons in Hin2 as [[= -> _]|Hin2]; [lia|].
        destruct (ui_free _ _ _ H (pp, s)) as (? & _); [rewrite EF; apply elem_of_app; by left|]. cbn [fst] in *. lia.
      * rewrite load32_store32 by done. rewrite load32_store32_ne by lia. split; [done|]. split; [done|].
        apply (header_chain pp (u_mem st)); [apply header_only_store; lia| |done].
        intros y Hy. specialize (HqY y Hy). unfold before in HqY. cbn [fst snd] in HqY. right. lia.
    + intros a x Ha Hx. rewrite store32_ne; [done|]. destruct (ui_alloc _ _ _ H a Ha) as [(A1 & A2 & A3) _].
      assert ((pp, s) ∈ (base, 0) :: F1) as Hin2 by (rewrite EX; apply elem_of_app; right; by left).
      apply elem_of_cons in Hin2 as [[= -> _]|Hin2]; [lia|].
      assert ((pp, s) ∈ F) as Hin by (rewrite EF; apply elem_of_app; by left).
      destruct (ui_free _ _ _ H _ Hin) as (? & ? & ?). pose proof (ui_apart _ _ _ H a _ Ha Hin) as Hap.
      unfold apart in Hap. cbn [fst snd] in *. lia.
    + rewrite load32_store32_ne by lia. done.
    + exists s. rewrite app_comm_cons, EX, <-app_assoc. apply elem_of_app. right. by left.
  - run. cbn [u_mem u_freep u_brk]. rewrite (u32_small (t - n)) by (unfold is_u32; lia).
    rewrite (load32_store32 (u_mem st) (q + 4)) by (unfold is_u32; lia).
    unfold HDR. rewrite (u32_small (q + 8 * (t - n))) by (unfold is_u32; lia).
    eexists _, (F1 ++ (q, t - n) :: Y), (q + 8 * (t - n)). split; [rewrite u32_small by (unfold is_u32; lia); reflexivity|].
    apply (alloc_inv n st F A F1 q t Y); [done|done|done|right; split_and!; [lia|done|done]| | | |].
    + rewrite app_comm_cons, EX, <-app_assoc. simpl.
      replace (X ++ (pp, s) :: (q, t - n) :: Y) with ((X ++ [(pp, s)]) ++ (q, t - n) :: Y) by (by rewrite <-app_assoc).
      apply free_chain_app. cbn [chain hd_addr fst snd]. split; [|split; [|split]].
      * eapply free_chain_ext; [|apply free_chain_app; split; [exact Hc1|cbn [chain hd_addr fst snd]; split; [exact Hp1|split; [exact Hp2|done]]]].
        intros z x Hz Hx. destruct (Hbq z Hz). rewrite !store32_ne by lia. done.
      * rewrite !load32_store32_ne by lia. done.
      * rewrite load32_store32_ne by lia. apply load32_store32. unfold is_u32. lia.
      * eapply free_chain_ext; [|exact Hc3]. intros y x Hy Hx. specialize (HqY y Hy). unfold before in HqY. cbn [fst snd] in HqY.
        rewrite !store32_ne by lia. done.
    + intros a x Ha Hx. specialize (HAq a Ha). unfold apart in HAq. cbn [fst snd] in HAq. rewrite !store32_ne by lia. done.
    + apply load32_store32. unfold is_u32. lia.
    + exists s. rewrite app_comm_cons, EX, <-app_assoc. apply elem_of_app. right. by left.
Qed.

Definition last_addr (pp : Z) (R : list block) : Z := match last R with Some b => b.1 | None => pp end.

Lemma last_addr_cons pp y R : last_addr pp (y :: R) = last_addr y.1 R.
Proof. unfold last_addr. destruct R as [|z R]; [done|]. rewrite last_cons. by destruct (last (z :: R)) eqn:E; [|by apply last_None in E]. Qed.

(** malloc passes the blocks that are too small. *)
Lemma scan_skip fuel n Ra q t Rb e pp st :
  chain (u_mem st) (Ra ++ (q, t) :: Rb) e →
  (∀ y, y ∈ Ra → y.2 < n ∧ y.1 ≠ u_freep st ∧ y.1 ≠ 0) →
  malloc_loop (length Ra + fuel) n pp (hd_addr Ra q) st = malloc_loop fuel n (last_addr pp Ra) q st.
Proof.
  revert pp. induction Ra as [|[p s] Ra IH]; intros pp Hc Hsm; [done|].
  cbn [app chain fst snd] in Hc. destruct Hc as (Hn & Hsz & Hc).
  destruct (Hsm (p, s) ltac:(by left)) as (H1 & H2 & H3). cbn [fst snd] in H1, H2, H3.
  cbn [length Nat.add malloc_loop hd_addr fst]. unfold size_of, urd. run. rewrite Hsz.
  rewrite (proj2 (Z.leb_gt n s)) by done. run. rewrite (proj2 (Z.eqb_neq p _)) by done. run.
  rewrite (proj2 (Z.eqb_neq p 0)) by done. unfold ptr_of, urd. run. rewrite Hn, last_addr_cons.
  assert (hd_addr (Ra ++ (q, t) :: Rb) e = hd_addr Ra q) as -> by (by destruct Ra).
  apply IH; [done|]. intros y Hy. apply Hsm. by right.
Qed.

Lemma first_big (n : Z) (R : list block) :
  (∃ y, y ∈ R ∧ n <= y.2) → ∃ Ra q t Rb, R = Ra ++ (q, t) :: Rb ∧ n <= t ∧ ∀ y, y ∈ Ra → y.2 < n.
Proof.
  induction R as [|[p s] R IH]; intros (y & Hy & Hn); [by apply elem_of_nil in Hy|].
  destruct (Z.le_gt_cases n s) as [Hle|Hgt].
  - exists [], p, s, R. split; [done|]. split; [done|]. intros z Hz. by apply elem_of_nil in Hz.
  - apply elem_of_cons in Hy as [->|Hy]; [simpl in Hn; lia|].
    destruct IH as (Ra & q & t & Rb & -> & Ht & Hsm); [by exists y|].
    exists ((p, s) :: Ra), q, t, Rb. split; [done|]. split; [done|]. intros z [->|Hz]%elem_of_cons; [done|by apply Hsm].
Qed.

(** The ring from the block after freep on. *)
Lemma ring_from_freep st F A :
  uinv st F A → ∃ X s Y, (base, 0) :: F = X ++ (u_freep st, s) :: Y ∧
    let R := Y ++ X ++ [(u_freep st, s)] in
    chain (u_mem st) R (hd_addr R 0) ∧ load32 (u_mem st) (u_freep st) = hd_addr R 0 ∧ length R = S (length F) ∧
    load32 (u_mem st) (u_freep st + 4) = s ∧
    ∀ y, y ∈ Y ++ X → y ∈ (base, 0) :: F ∧ y.1 ≠ u_freep st ∧ y.1 ≠ 0.
Proof.
  intros H. destruct (ui_freep _ _ _ H) as [s Hfp]. apply list_elem_of_split in Hfp as (X & Y & EL).
  pose proof (ui_ring _ _ _ H) as Hring. pose proof (ring_sorted _ _ _ H) as Hs.
  exists X, s, Y. split; [done|]. cbv zeta.
  assert (load32 (u_mem st) (u_freep st) = hd_addr Y base) as Hnx by exact (ring_next _ _ X (u_freep st, s) Y _ Hring EL).
  assert (hd_addr (X ++ [(u_freep st, s)]) 0 = base) as Hhd.
  { destruct X as [|x X]; simpl in EL; [by injection EL|by injection EL as <- _]. }
  assert ((base, 0) :: F = (X ++ [(u_freep st, s)]) ++ Y) as EL' by (by rewrite <-app_assoc).
  split; [|split; [|split; [|split]]].
  - destruct Y as [|y Y].
    + rewrite app_nil_l, Hhd. rewrite <-(app_nil_r (X ++ _)), <-EL'. exact Hring.
    + change (hd_addr ((y :: Y) ++ X ++ [(u_freep st, s)]) 0) with (hd_addr (y :: Y) 0).
      apply (ring_rotate _ (X ++ [(u_freep st, s)]) (y :: Y) base); [by destruct X|done| |by rewrite <-EL'].
      by rewrite <-EL'.
  - rewrite Hnx. by destruct Y.
  - apply (f_equal length) in EL. rewrite !length_app. rewrite length_app in EL. simpl in *. lia.
  - rewrite EL in Hring. apply free_chain_app in Hring as [_ Hring]. by destruct Hring as (_ & ? & _).
  - intros y Hy. assert (y ∈ (base, 0) :: F) as Hin.
    { rewrite EL, elem_of_app. apply elem_of_app in Hy as [?|?]; [right; by right|by left]. }
    split; [done|]. split.
    + rewrite EL in Hs. destruct (sorted_split X (u_freep st, s) Y Hs) as [S1 S2].
      { rewrite <-EL. intros b [->|Hb]%elem_of_cons; [done|]. destruct (ui_free _ _ _ H b Hb). lia. }
      apply elem_of_app in Hy as [Hy|Hy]; [specialize (S2 y Hy)|specialize (S1 y Hy)]; simpl in *; lia.
    + apply elem_of_cons in Hin as [->|Hin]; [simpl; lia|]. destruct (ui_free _ _ _ H y Hin) as (? & _). lia.
Qed.

(** A block that is large enough is found within one round. *)
Lemma found_run fuel n st F A :
  uinv st F A → 0 < n → (∃ y, y ∈ F ∧ n <= y.2) → (S (length F) < fuel)%nat →
  ∃ st' F' r, malloc_loop fuel n (u_freep st) (load32 (u_mem st) (u_freep st)) st = Ok (r + 8) st' ∧
    allocated n st st' F F' A r.
Proof.
  intros H Hn (y & Hy & Hyn) Hf. destruct (ring_from_freep _ _ _ H) as (X & s & Y & EL & Hc & Hnx & Hlen & _ & Hdiff).
  set (W := X ++ [(u_freep st, s)]) in *.
  assert ((base, 0) :: F = W ++ Y) as EL' by (unfold W; by rewrite <-app_assoc).
  destruct (first_big n (Y ++ W)) as (Ra & q & t & Rb & ER & Ht & Hsm).
  { exists y. split; [|done]. assert (y ∈ (base, 0) :: F) as Hin by (by right). rewrite EL' in Hin.
    rewrite elem_of_app in *. tauto. }
  rewrite ER in Hc.
  assert (∀ z, z ∈ Ra → z.2 < n ∧ z.1 ≠ u_freep st ∧ z.1 ≠ 0) as HRa.
  { intros z Hz. split; [by apply Hsm|]. apply Hdiff. destruct Rb as [|z' Rb _] using rev_ind.
    - unfold W in ER. rewrite app_assoc in ER. apply app_inj_tail in ER as [-> _]. done.
    - unfold W in ER. rewrite app_assoc, app_comm_cons, app_assoc in ER. apply app_inj_tail in ER as [-> _]. apply elem_of_app. by left. }
  assert (∃ X' s' Y', (base, 0) :: F = X' ++ (last_addr (u_freep st) Ra, s') :: (q, t) :: Y') as (X' & s' & Y' & EX).
  { assert (∀ W', W = (q, t) :: W' → False) as Hnb.
    { intros W' EW. rewrite EW in EL'. injection EL' as _ <- _. lia. }
    destruct Ra as [|z Ra _] using rev_ind.
    - simpl in ER. destruct Y as [|y0 Y]; [by destruct (Hnb Rb)|]. injection ER as -> _. by exists X, s, Y.
    - unfold last_addr. rewrite last_snoc. rewrite <-app_assoc in ER. simpl in ER. destruct z as [z zs].
      destruct (app_eq_inv _ _ _ _ ER) as [(k & EY & EW)|(k & EY & EW)].
      + destruct k as [|c [|d k]]; simpl in EW.
        * exists [], zs, (Rb ++ Y). by rewrite EL', <-EW.
        * injection EW as _ EW. by destruct (Hnb Rb).
        * injection EW as <- <- EW. exists (W ++ Ra), zs, k. by rewrite EL', EY, <-app_assoc.
      + exists k, zs, (Rb ++ Y). by rewrite EL', EW, <-app_assoc. }
  rewrite Hnx, ER. replace (hd_addr (Ra ++ (q, t) :: Rb) 0) with (hd_addr Ra q) by (by destruct Ra).
  assert (length Ra < S (length F))%nat as Hlr.
  { rewrite ER in Hlen. rewrite length_app in Hlen. simpl in Hlen. lia. }
  replace fuel with (length Ra + S (fuel - length Ra - 1))%nat by lia. rewrite (scan_skip _ n Ra q t Rb _ _ st Hc HRa).
  apply free_chain_app in Hc as [_ Hc]. cbn [chain fst snd] in Hc. destruct Hc as (_ & Hsz & _).
  cbn [malloc_loop]. unfold size_of at 1, urd. run. rewrite Hsz, (proj2 (Z.leb_le n t)) by done.
  by apply (take_run n st F A X' _ s' q t Y').
Qed.

(** sbrk: a process grows within the user half of the address space. *)
Hypothesis Hsbrk : ∀ brk n, sbrk_ok brk n = true → 0 < n → brk + n <= 0x80000000.

Lemma morecore_run fuel n st F A :
  uinv st F A → 0 < n → 8 * n < 0x80000000 → (length F < fuel)%nat →
  (∃ k, sbrk_ok (u_brk st) k = false ∧ morecore fuel n st = Ok 0 st) ∨
  ∃ st' F', morecore fuel n st = Ok (u_freep st') st' ∧ uinv st' F' A ∧ u_freep st' ≠ 0 ∧ u_brk st < u_brk st' ∧
    (length F' <= S (length F))%nat ∧ kept A (u_mem st) (u_mem st') ∧
    (∀ x, covers F' x ↔ covers F x ∨ u_brk st <= x < u_brk st') ∧ (∃ y, y ∈ F' ∧ n <= y.2).
Proof.
  intros H Hn Hbig Hf. pose proof (ui_brk _ _ _ H) as Hbrk. unfold morecore.
  set (nu := if n <? 4096 then 4096 else n).
  assert (n <= nu ∧ 0 < nu ∧ 8 * nu < 0x80000000) as (Hnu1 & Hnu2 & Hnu3).
  { unfold nu. destruct (Z.ltb_spec n 4096); lia. }
  clearbody nu. assert (s32 (nu * HDR) = 8 * nu) as -> by (unfold HDR; zmod).
  unfold sbrk. run. destruct (sbrk_ok (u_brk st) (8 * nu)) eqn:Esb.
  2: { left. exists (8 * nu). split; [done|]. run. by rewrite Z.eqb_refl. }
  right. run. pose proof (Hsbrk _ _ Esb ltac:(lia)) as Hend.
  assert ((u_brk st =? u32 (-1)) = false) as -> by (apply Z.eqb_neq; change (u32 (-1)) with 4294967295; lia).
  unfold set_size, uwr. run. cbn [u_mem u_freep u_brk].
  set (b := (u_brk st, nu)). set (st1 := USt (store32 (u_mem st) (u_brk st + 4) nu) (u_freep st) (u_brk st + 8 * nu)).
  assert (b ∉ A) as HbA.
  { intros Hin. destruct (ui_alloc _ _ _ H b Hin) as [(_ & _ & Hx) _]. simpl in Hx. lia. }
  assert (∀ z x, in_heap (u_brk st) z → z.1 <= x < z.1 + 8 * z.2 → u_mem st1 x = u_mem st x) as Hm.
  { intros z x (Z1 & Z2 & Z3) Hx. cbn [u_mem st1]. apply store32_ne. lia. }
  assert (uinv st1 F ({[b]} ∪ A)) as H1.
  { split; cbn [u_brk u_freep st1].
    - lia.
    - eapply free_chain_ext; [|apply H]. intros z x Hz Hx. apply elem_of_cons in Hz as [->|Hz].
      + cbn [u_mem st1]. apply store32_ne. simpl in Hx. lia.
      + pose proof (ui_free _ _ _ H z Hz) as Hh. apply (Hm z x Hh). destruct Hh. lia.
    - apply H.
    - apply H.
    - intros z Hz. destruct (ui_free _ _ _ H z Hz) as (? & ? & ?). unfold in_heap. lia.
    - intros z [->%elem_of_singleton|Hz]%elem_of_union.
      + split; [unfold in_heap; simpl; lia|]. simpl. apply load32_store32. unfold is_u32. lia.
      + destruct (ui_alloc _ _ _ H z Hz) as [Hh Hl]. split; [destruct Hh as (? & ? & ?); unfold in_heap; lia|].
        rewrite <-Hl. apply load32_ext. intros x Hx. apply (Hm z x Hh). destruct Hh. lia.
    - intros a y [->%elem_of_singleton|Ha]%elem_of_union Hy; [|by apply (ui_apart _ _ _ H)].
      destruct (ui_free _ _ _ H y Hy) as (? & ? & ?). right. simpl. lia.
    - intros a c [->%elem_of_singleton|Ha]%elem_of_union [->%elem_of_singleton|Hc]%elem_of_union Hne; [done| | |by apply (ui_aparts _ _ _ H)].
      + destruct (ui_alloc _ _ _ H c Hc) as [(? & ? & ?) _]. right. simpl. lia.
      + destruct (ui_alloc _ _ _ H a Ha) as [(? & ? & ?) _]. left. simpl. lia. }
  destruct (free_run fuel st1 F _ b H1) as (st' & F' & HR & H' & Hb' & Hl' & Hk' & Hc' & y & Hy & Hyn); [by apply elem_of_union_l, elem_of_singleton|done|].
  assert ((({[b]} ∪ A) ∖ {[b]} : gset block) = A) as EA.
  { apply set_eq. intros z. rewrite elem_of_difference, elem_of_union, elem_of_singleton. split; [tauto|]. intros Hz. split; [by right|]. by intros ->. }
  rewrite EA in H', Hk'. exists st', F'.
  assert (u_freep st' ≠ 0) as Hfp.
  { destruct (ui_freep _ _ _ H') as [s [Hx|Hx]%elem_of_cons]; [injection Hx as -> _; lia|].
    destruct (ui_free _ _ _ H' _ Hx) as (? & _). simpl in *. lia. }
  split; [|split; [done|split; [done|split; [|split; [done|split; [|split]]]]]].
  - unfold HDR. rewrite u32_small by (unfold is_u32; lia). cbn [fst b] in HR. by rewrite (bind_run _ _ _ _ _ HR).
  - rewrite Hb'. simpl. lia.
  - intros a x Ha Hx. rewrite (Hk' a x Ha Hx). destruct (ui_alloc _ _ _ H a Ha) as [Hh _]. by apply (Hm a).
  - intros x. rewrite Hc'. rewrite Hb'. cbn [u_brk st1]. unfold in_block. cbn [fst snd b]. tauto.
  - exists y. split; [done|]. cbn [snd b] in Hyn. lia.
Qed.

(** The state before the first malloc, and after it. *)
Definition heap_ok (st : ust) (F : list block) (A : gset block) : Prop :=
  uinv st F A ∨ u_freep st = 0 ∧ F = [] ∧ A = ∅ ∧ hlo <= u_brk st <= 0x80000000.

Lemma units_eq nbytes : 0 <= nbytes < 0x7fffff00 →
  0 < units nbytes ∧ nbytes <= 8 * units nbytes - 8 < nbytes + 8 ∧ 8 * units nbytes < 0x80000000.
Proof. intros Hn. unfold units, HDR. zmod. Qed.

Lemma malloc_loop_run fuel n st F A :
  uinv st F A → 0 < n → 8 * n < 0x80000000 → (2 * length F + 5 < fuel)%nat →
  ∃ r st' F' A', malloc_loop fuel n (u_freep st) (load32 (u_mem st) (u_freep st)) st = Ok r st' ∧ uinv st' F' A' ∧
    kept A (u_mem st) (u_mem st') ∧ u_brk st <= u_brk st' ∧
    (r = 0 ∧ A' = A ∧ u_brk st' = u_brk st ∧ (∃ k, sbrk_ok (u_brk st) k = false) ∧ (∀ x, covers F' x ↔ covers F x) ∨
     ∃ q, r = q + 8 ∧ A' = {[(q, n)]} ∪ A ∧ ((q, n) ∉ A) ∧
       ∀ x, covers F' x ∨ in_block (q, n) x ↔ covers F x ∨ u_brk st <= x < u_brk st').
Proof.
  intros H Hn Hbig Hf.
  destruct (decide (Exists (λ y : block, n <= y.2) F)) as [Hex|Hno].
  - apply Exists_exists in Hex. destruct (found_run fuel n st F A H Hn Hex) as (st' & F' & q & HR & Ha & Hnin & Hbrk & Hk & Hc); [lia|].
    exists (q + 8), st', F', ({[(q, n)]} ∪ A). split; [done|]. split; [done|]. split; [done|]. split; [lia|].
    right. exists q. split; [done|]. split; [done|]. split; [done|]. intros x. rewrite Hc, Hbrk. split; [by left|intros [?|?]; [done|lia]].
  - (* every block is too small: the search comes back to freep *)
    destruct (ring_from_freep _ _ _ H) as (X & s & Y & EL & Hc & Hnx & Hlen & Hsz & Hdiff).
    assert (∀ y, y ∈ (base, 0) :: F → y.2 < n) as Hsm.
    { intros y [->|Hy]%elem_of_cons; [done|]. destruct (Z.lt_ge_cases y.2 n); [done|]. destruct Hno. apply Exists_exists. by exists y. }
    rewrite Hnx. rewrite app_assoc in Hc, Hlen |- *. rewrite length_app in Hlen. simpl in Hlen.
    replace (hd_addr ((Y ++ X) ++ [(u_freep st, s)]) 0) with (hd_addr (Y ++ X) (u_freep st)) by (by destruct (Y ++ X)).
    replace fuel with (length (Y ++ X) + S (fuel - length (Y ++ X) - 1))%nat by lia.
    rewrite (scan_skip _ n (Y ++ X) (u_freep st) s [] _ _ st Hc).
    2: { intros y Hy. destruct (Hdiff y Hy) as (Hin & ? & ?). split; [by apply Hsm|done]. }
    set (fuel' := (fuel - length (Y ++ X) - 1)%nat). cbn [malloc_loop]. unfold size_of, urd. run. rewrite Hsz.
    rewrite (proj2 (Z.leb_gt n s)) by (apply (Hsm (u_freep st, s)); rewrite EL; apply elem_of_app; right; by left).
    run. rewrite Z.eqb_refl.
    destruct (morecore_run (S fuel') n st F A H Hn Hbig) as [(k & Hk & HM)|(st1 & F1 & HM & H1 & Hfp1 & Hb1 & Hl1 & Hk1 & Hc1 & Hex)]; [lia| |].
    + rewrite (bind_run _ _ _ _ _ HM). exists 0, st, F, A. split; [done|]. split; [done|]. split; [done|]. split; [lia|].
      left. split; [done|]. split; [done|]. split; [done|]. split; [by exists k|done].
    + rewrite (bind_run _ _ _ _ _ HM). rewrite (proj2 (Z.eqb_neq _ _)) by done. unfold ptr_of, urd. run.
      destruct (found_run fuel' n st1 F1 A H1 Hn Hex) as (st' & F' & q & HR & Ha & Hnin & Hbrk & Hk & Hc'); [lia|].
      exists (q + 8), st', F', ({[(q, n)]} ∪ A). split; [exact HR|]. split; [done|]. split.
      { intros a x Ha' Hx. by rewrite (Hk a x Ha' Hx), (Hk1 a x Ha' Hx). }
      split; [lia|]. right. exists q. split; [done|]. split; [done|]. split; [done|].
      intros x. by rewrite Hc', Hc1, Hbrk.
Qed.

(** The first call makes the ring of one block. *)
Lemma malloc_run fuel nbytes st F A :
  heap_ok st F A → 0 <= nbytes < 0x7fffff00 →
  ∃ st1, malloc fuel nbytes st =
      malloc_loop fuel (units nbytes) (u_freep st1) (load32 (u_mem st1) (u_freep st1)) st1 ∧
    uinv st1 F A ∧ kept A (u_mem st) (u_mem st1) ∧ u_brk st1 = u_brk st.
Proof.
  intros [H|(Hfp & -> & -> & Hbrk)] Hn; unfold malloc; run.
  - destruct (ui_freep _ _ _ H) as [s Hs]. exists st. split; [|done].
    assert (u_freep st ≠ 0) as Hne.
    { apply elem_of_cons in Hs as [Hx|Hx]; [injection Hx as -> _; lia|].
      destruct (ui_free _ _ _ H _ Hx) as (? & _). simpl in *. lia. }
    rewrite (proj2 (Z.eqb_neq _ _)) by done. unfold ptr_of, urd. by run.
  - rewrite Hfp. change (0 =? 0) with true. cbv iota. unfold set_ptr, set_freep, set_size, ptr_of, uwr, urd. run.
    cbn [u_mem u_freep u_brk]. exists (USt (store32 (store32 (u_mem st) base base) (base + 4) 0) base (u_brk st)).
    split; [reflexivity|]. split; [|done].
    assert (is_u32 base) as Hu by (unfold is_u32; lia).
    split; cbn [u_mem u_freep u_brk]; try (intros ? []%elem_of_nil || intros ? []%elem_of_empty || intros ? ? []%elem_of_empty); try done.
    + cbn [chain hd_addr fst snd]. rewrite load32_store32_ne by lia. rewrite !load32_store32 by (done || unfold is_u32; lia). done.
    + exists 0. by left.
    + constructor.
Qed.

(** C23. malloc of any size up to 2 GB returns, and either the kernel refused more
    memory, the result is 0 and nothing the program holds changed, or the result is
    a new block, 8 bytes behind its header, with room for the request and less
    than 8 bytes more: it overlaps no block that the program holds and none that is
    still free, it was cut from the free memory or the memory sbrk added, and the
    blocks that the program holds keep their contents. *)
Theorem malloc_correct fuel nbytes st F A :
  heap_ok st F A → 0 <= nbytes < 0x7fffff00 → (2 * length F + 5 < fuel)%nat →
  ∃ r st' F' A', malloc fuel nbytes st = Ok r st' ∧ uinv st' F' A' ∧
    kept A (u_mem st) (u_mem st') ∧ u_brk st <= u_brk st' ∧
    (r = 0 ∧ A' = A ∧ u_brk st' = u_brk st ∧ (∃ k, sbrk_ok (u_brk st) k = false) ∧ (∀ x, covers F' x ↔ covers F x) ∨
     ∃ q n, r = q + 8 ∧ nbytes <= 8 * n - 8 < nbytes + 8 ∧ A' = {[(q, n)]} ∪ A ∧ ((q, n) ∉ A) ∧
       ∀ x, covers F' x ∨ in_block (q, n) x ↔ covers F x ∨ u_brk st <= x < u_brk st').
Proof.
  intros H Hn Hf. destruct (malloc_run fuel nbytes st F A H Hn) as (st1 & HM & H1 & Hk1 & Hb1).
  destruct (units_eq nbytes Hn) as (Hu1 & Hu2 & Hu3).
  destruct (malloc_loop_run fuel (units nbytes) st1 F A H1 Hu1 Hu3 Hf) as (r & st' & F' & A' & HR & H' & Hk & Hb & Hres).
  exists r, st', F', A'. rewrite HM. split; [done|]. split; [done|]. split; [|split; [lia|]].
  - intros a x Ha Hx. by rewrite (Hk a x Ha Hx), (Hk1 a x Ha Hx).
  - destruct Hres as [Hz|(q & Hq & HA & Hnin & Hc)]; [left; by rewrite <-Hb1|right].
    exists q, (units nbytes). split_and!; try done; [lia..|]. intros x. by rewrite Hc, Hb1.
Qed.

(** free gives a block back: called with an address that malloc returned and the
    program still holds, it ends, the memory of the block joins the free memory,
    merged with the free blocks it touches so that no two free blocks are
    adjacent, the ring stays a ring of disjoint blocks in address order, and the
    other blocks of the program keep their contents. *)
Theorem free_correct fuel st F A b :
  uinv st F A → b ∈ A → (length F < fuel)%nat →
  ∃ st' F', free fuel (b.1 + 8) st = Ok tt st' ∧ uinv st' F' (A ∖ {[b]}) ∧ u_brk st' = u_brk st ∧
    kept (A ∖ {[b]}) (u_mem st) (u_mem st') ∧ ∀ x, covers F' x ↔ in_block b x ∨ covers F x.
Proof.
  intros H Hb Hf. destruct (free_run fuel st F A b H Hb Hf) as (st' & F' & H1 & H2 & H3 & _ & H4 & H5 & _).
  by exists st', F'.
Qed.

(** The program's own stores keep the heap. *)
Lemma client_store st F A m' :
  uinv st F A → payload_only A (u_mem st) m' → uinv (USt m' (u_freep st) (u_brk st)) F A.
Proof.
  intros H Hm. destruct H as [H1 H2 H3 H4 H5 H6 H7 H8].
  split; cbn [u_mem u_freep u_brk]; try done.
  - eapply free_chain_ext; [|exact H2]. intros z x Hz Hx. apply Hm. intros a Ha.
    destruct (H6 a Ha) as [(A1 & A2 & A3) _]. apply elem_of_cons in Hz as [->|Hz]; [simpl in Hx; lia|].
    destruct (H5 z Hz) as (Z1 & Z2 & Z3), (H7 a z Ha Hz); lia.
  - intros a Ha. destruct (H6 a Ha) as [(A1 & A2 & A3) Hl]. split; [done|]. rewrite <-Hl. apply load32_ext.
    intros x Hx. apply Hm. intros c Hc. destruct (decide (a = c)) as [->|Hne]; [lia|].
    destruct (H6 c Hc) as [(C1 & C2 & C3) _], (H8 a c Ha Hc Hne); lia.
Qed.
End heap.
End umalloc.

(** A request near 4 GB wraps around: the block has no room at all. *)
Lemma units_wrap : units 4294967295 = 1.
Proof. done. Qed.

(** *** Concrete runs: [base] at 256, the heap at 4096 *)

Definition sbrk_ex (brk n : Z) : bool := brk + n <=? 0x80000000.
Lemma sbrk_ex_ok brk n : sbrk_ex brk n = true → 0 < n → brk + n <= 0x80000000.
Proof. intros H _. by apply Z.leb_le. Qed.

Lemma malloc_correct_witness :
  ∃ r st' F' A', malloc 256 sbrk_ex 10 100 (USt (λ _, 0) 0 4096) = Ok r st' ∧ uinv 256 4096 st' F' A'.
Proof.
  destruct (malloc_correct 256 sbrk_ex 4096 ltac:(lia) sbrk_ex_ok 10 100 (USt (λ _, 0) 0 4096) [] ∅)
    as (r & st' & F' & A' & H & Hi & _).
  - right. simpl. split_and!; done.
  - lia.
  - simpl. lia.
  - exists r, st', F', A'. by split.
Defined.

Definition heap_ex : ust := USt (store32 (store32 (λ _, 0) 256 256) 4100 3) 256 8192.

Lemma heap_ex_inv : uinv 256 4096 heap_ex [] {[(4096, 3)]}.
Proof.
  split; cbn [u_mem u_freep u_brk heap_ex]; try (intros ? []%elem_of_nil); try (intros ? ? ? []%elem_of_nil).
  - lia.
  - vm_compute. by split_and!.
  - exists 0. by left.
  - constructor.
  - intros b ->%elem_of_singleton. split; [unfold in_heap; simpl; lia|by vm_compute].
  - intros a b ->%elem_of_singleton ->%elem_of_singleton. done.
Qed.

Lemma free_correct_witness :
  ∃ st' F', free 5 4104 heap_ex = Ok tt st' ∧ uinv 256 4096 st' F' ∅ ∧ covers F' 4110.
Proof.
  destruct (free_correct 256 sbrk_ex 4096 ltac:(lia) 5 heap_ex [] {[(4096, 3)]} (4096, 3)) as (st' & F' & H & Hi & _ & _ & Hc).
  - apply heap_ex_inv.
  - by apply elem_of_singleton.
  - simpl. lia.
  - exists st', F'. split; [exact H|]. rewrite difference_diag_L in Hi. split; [exact Hi|].
    apply Hc. left. unfold in_block. simpl. lia.
Defined.
