(* ===== verification/Syscall.v ===== *)
(** * System call arguments and dispatch (syscall.c, syscall.h, sysproc.c)

    [uview] is what a system call reads of the current process: its memory, its
    size and its stack pointer. A fetch is [None] where the source returns -1. *)

From S2P Require Import Prelude Cstring Kalloc.

Record uview := UView { uv_mem : mem; uv_sz : Z; uv_esp : Z }.

Section args.
Variable u : uview.

Definition fetchint (addr : Z) : option Z :=
  if (uv_sz u <=? addr) || (uv_sz u <? u32 (addr + 4)) then None else Some (s32 (load32 (uv_mem u) addr)).

(** for(s = *pp; s < ep; s++), [n] bytes before ep. *)
Fixpoint fetchstr_loop (n : nat) (pp s : Z) : option Z :=
  match n with
  | O => None
  | S n => if uv_mem u s =? 0 then Some (s - pp) else fetchstr_loop n pp (s + 1)
  end.

(** The length and the pointer. *)
Definition fetchstr (addr : Z) : option (Z * Z) :=
  if uv_sz u <=? addr then None
  else len ← fetchstr_loop (Z.to_nat (uv_sz u - addr)) addr addr; Some (len, addr).

Definition argint (n : Z) : option Z := fetchint (u32 (uv_esp u + 4 + 4 * n)).

Definition argptr (n size : Z) : option Z :=
  i ← argint n;
  if (size <? 0) || (uv_sz u <=? u32 i) || (uv_sz u <? u32 (u32 i + size)) then None else Some (u32 i).

Definition argstr (n : Z) : option (Z * Z) :=
  addr ← argint n;
  fetchstr (u32 addr).

(** sys_exec (sysfile.c): the loop that fetches argv; [acc] are the pointers so far. *)
Definition MAXARG : nat := 32.
Fixpoint fetch_argv (fuel : nat) (uargv i : Z) (acc : list Z) : option (list Z) :=
  match fuel with
  | O => None
  | S fuel =>
      uarg ← fetchint (u32 (uargv + 4 * i));
      if uarg =? 0 then Some acc
      else
        p ← fetchstr (u32 uarg);
        fetch_argv fuel uargv (i + 1) (acc ++ [p.2])
  end.

Definition sys_exec_args : option (Z * list Z) :=
  path ← argstr 0;
  uargv ← argint 1;
  argv ← fetch_argv MAXARG (u32 uargv) 0 [];
  Some (path.2, argv).
End args.

(** ** The table *)

Inductive sysfn :=
  | sys_fork | sys_exit | sys_wait | sys_pipe | sys_read | sys_kill | sys_exec | sys_fstat | sys_chdir
  | sys_dup | sys_getpid | sys_sbrk | sys_sleep | sys_uptime | sys_open | sys_write | sys_mknod
  | sys_unlink | sys_link | sys_mkdir | sys_close | sys_arp | sys_checknic | sys_icmptest.

(** syscall.h *)
Definition SYS (f : sysfn) : Z :=
  match f with
  | sys_fork => 1 | sys_exit => 2 | sys_wait => 3 | sys_pipe => 4 | sys_read => 5 | sys_kill => 6
  | sys_exec => 7 | sys_fstat => 8 | sys_chdir => 9 | sys_dup => 10 | sys_getpid => 11 | sys_sbrk => 12
  | sys_sleep => 13 | sys_uptime => 14 | sys_open => 15 | sys_write => 16 | sys_mknod => 17
  | sys_unlink => 18 | sys_link => 19 | sys_mkdir => 20 | sys_close => 21 | sys_arp => 22
  | sys_checknic => 23 | sys_icmptest => 24
  end.

(** The entries of the array; the indices without one are null pointers. *)
Definition syscalls : gmap Z sysfn := list_to_map ((λ f, (SYS f, f)) <$>
  [sys_fork; sys_exit; sys_wait; sys_pipe; sys_read; sys_kill; sys_exec; sys_fstat; sys_chdir; sys_dup;
   sys_getpid; sys_sbrk; sys_sleep; sys_uptime; sys_open; sys_write; sys_mknod; sys_unlink; sys_link;
   sys_mkdir; sys_close; sys_arp; sys_checknic; sys_icmptest]).
Definition NELEM_syscalls : Z := 25.

Section dispatch.
Context {S : Type}.
Variable eax : S → Z.
Variable set_eax : Z → S → S.
Variable run_sys : sysfn → M S Z.

(** syscall; the message on the console is left out. *)
Definition syscall : M S unit :=
  num ← gets (λ s, s32 (eax s));
  match (if (0 <? num) && (num <? NELEM_syscalls) then syscalls !! num else None) with
  | Some f => r ← run_sys f; modify (set_eax (u32 r))
  | None => modify (set_eax (u32 (-1)))
  end.
End dispatch.

(** ** sysproc.c: sleeping for clock ticks

    The thread sleeps on [ticks] and tests again each time it is woken: at each test
    it finds the number of ticks and whether it was killed. *)
Definition sys_sleep_test (n ticks0 ticks : Z) (killed : bool) : option Z :=
  if u32 (ticks - ticks0) <? u32 n then (if killed then Some (-1) else None) else Some 0.

(** The result with the tests used up to it. *)
Fixpoint sys_sleep_loop (n ticks0 : Z) (tests : list (Z * bool)) : option (Z * nat) :=
  match tests with
  | [] => None
  | (t, k) :: tests =>
      match sys_sleep_test n ticks0 t k with
      | Some r => Some (r, 0%nat)
      | None => x ← sys_sleep_loop n ticks0 tests; Some (x.1, S x.2)
      end
  end.

(** ** What the fetches guarantee *)

Section spec.
Variable u : uview.
Hypothesis Hsz : 0 <= uv_sz u <= KERNBASE.

Lemma fetchint_eq addr : is_u32 addr →
  fetchint u addr = if decide (addr + 4 <= uv_sz u) then Some (s32 (load32 (uv_mem u) addr)) else None.
Proof.
  intros Ha. unfold fetchint, KERNBASE, is_u32 in *. destruct (Z.leb_spec (uv_sz u) addr); simpl.
  - by rewrite decide_False by lia.
  - rewrite u32_small by (unfold is_u32; lia). destruct (Z.ltb_spec (uv_sz u) (addr + 4)).
    + by rewrite decide_False by lia.
    + by rewrite decide_True by lia.
Qed.

Lemma fetchstr_loop_spec n pp s : pp <= s →
  match fetchstr_loop u n pp s with
  | Some len => s - pp <= len < s - pp + Z.of_nat n ∧ uv_mem u (pp + len) = 0 ∧
      ∀ x, s <= x < pp + len → uv_mem u x ≠ 0
  | None => ∀ x, s <= x < s + Z.of_nat n → uv_mem u x ≠ 0
  end.
Proof.
  revert s. induction n as [|n IH]; intros s Hs; cbn [fetchstr_loop]; [intros; lia|].
  destruct (Z.eqb_spec (uv_mem u s) 0) as [Hz|Hz].
  - split; [lia|]. split; [by replace (pp + (s - pp)) with s by lia|]. intros; lia.
  - specialize (IH (s + 1) ltac:(lia)). destruct (fetchstr_loop u n pp (s + 1)) as [len|].
    + destruct IH as (H1 & H2 & H3). split; [lia|]. split; [done|]. intros x Hx.
      destruct (decide (x = s)) as [->|]; [done|]. apply H3. lia.
    + intros x Hx. destruct (decide (x = s)) as [->|]; [done|]. apply IH. lia.
Qed.

(** C16. System call arguments stay inside the process. A word is fetched exactly
    when all of it is below the process's size; a pointer is accepted exactly when the
    size is not negative and the whole block is inside, without wrap-around, for
    every value the user may pass; a string is accepted exactly when its NUL is
    inside the process, and then its length is returned. *)
Theorem args_in_process n size : is_u32 (uv_esp u) → 0 <= n < 8 → is_s32 size →
  let a := u32 (uv_esp u + 4 + 4 * n) in let w := load32 (uv_mem u) a in
  (argint u n = if decide (a + 4 <= uv_sz u) then Some (s32 w) else None) ∧
  (∀ p, argptr u n size = Some p ↔
     a + 4 <= uv_sz u ∧ p = u32 (s32 w) ∧ 0 <= size ∧ p < uv_sz u ∧ p + size <= uv_sz u) ∧
  (∀ len p, argstr u n = Some (len, p) ↔
     a + 4 <= uv_sz u ∧ p = u32 (s32 w) ∧ 0 <= len ∧ p + len < uv_sz u ∧ uv_mem u (p + len) = 0 ∧
     ∀ x, p <= x < p + len → uv_mem u x ≠ 0).
Proof.
  intros He Hn Hs a w. assert (is_u32 a) as Ha by apply u32_range.
  assert (argint u n = if decide (a + 4 <= uv_sz u) then Some (s32 w) else None) as Hi by (by apply fetchint_eq).
  split; [done|]. unfold argptr, argstr. rewrite Hi. case_decide as Hd; simpl.
  2: { split; intros; (split; [done|intros (? & _); done]). }
  set (v := u32 (s32 w)). assert (is_u32 v) as Hv by apply u32_range. unfold is_u32, is_s32, KERNBASE in *.
  split.
  - intros p. destruct (Z.ltb_spec size 0); simpl; [split; [done|lia]|].
    destruct (Z.leb_spec (uv_sz u) v); simpl; [split; [done|intros (_ & -> & _ & ? & _); lia]|].
    rewrite u32_small by (unfold is_u32; lia). destruct (Z.ltb_spec (uv_sz u) (v + size)).
    + split; [done|]. intros (_ & -> & _ & _ & ?). lia.
    + split; [intros [= <-]; split_and!; (done || lia)|]. by intros (_ & -> & _).
  - intros len p. unfold fetchstr. destruct (Z.leb_spec (uv_sz u) v).
    { split; [done|]. intros (_ & -> & ? & ? & _). lia. }
    pose proof (fetchstr_loop_spec (Z.to_nat (uv_sz u - v)) v v ltac:(lia)) as Hl.
    rewrite Z2Nat.id in Hl by lia. destruct (fetchstr_loop u _ v v) as [len'|]; simpl.
    + destruct Hl as (H1 & H2 & H3). split.
      * intros [= <- <-]. split_and!; (done || lia).
      * intros (_ & -> & H4 & H5 & H6 & H7). do 2 f_equal. destruct (Z.lt_trichotomy len len') as [|[|]]; [|done|].
        -- destruct (H3 (v + len)); [lia|done].
        -- destruct (H7 (v + len')); [lia|done].
    + split; [done|]. intros (_ & -> & H4 & H5 & H6 & _). destruct (Hl (v + len)); [lia|done].
Qed.
End spec.

(** fetch_argv: at most 31 strings, each inside the process. *)
Lemma fetch_argv_spec u fuel uargv i acc argv :
  0 <= uv_sz u <= KERNBASE → fetch_argv u fuel uargv i acc = Some argv →
  ∃ new, argv = acc ++ new ∧ (length new < fuel)%nat ∧
    ∀ p, p ∈ new → ∃ len, 0 <= len ∧ p + len < uv_sz u ∧ uv_mem u (p + len) = 0.
Proof.
  intros Hsz. revert i acc. induction fuel as [|fuel IH]; intros i acc; cbn [fetch_argv]; [done|].
  destruct (fetchint u _) as [w|]; simpl; [|done]. destruct (w =? 0).
  - intros [= <-]. exists []. rewrite app_nil_r. split; [done|]. split; [simpl; lia|]. intros p Hp. by apply elem_of_nil in Hp.
  - unfold fetchstr. destruct (Z.leb_spec (uv_sz u) (u32 w)) as [|Hw]; simpl; [done|].
    pose proof (fetchstr_loop_spec u (Z.to_nat (uv_sz u - u32 w)) (u32 w) (u32 w) ltac:(lia)) as Hl.
    pose proof (u32_range w) as Hr. unfold is_u32 in Hr. rewrite Z2Nat.id in Hl by lia.
    destruct (fetchstr_loop u _ _ _) as [len|]; simpl; [|done]. intros H.
    apply IH in H as (new & -> & Hn & Hp). exists (u32 w :: new). rewrite <-app_assoc. split; [done|]. split; [simpl; lia|].
    intros p [->|Hin]%elem_of_cons; [|by apply Hp]. exists len. destruct Hl as (? & ? & _). split_and!; (done || lia).
Qed.

(** The numbers of the table: each call has its own, and no other number has one. *)
Lemma syscalls_spec n f : syscalls !! n = Some f ↔ n = SYS f.
Proof.
  unfold syscalls. rewrite <-elem_of_list_to_map by (apply (bool_decide_unpack _); by vm_compute).
  rewrite list_elem_of_fmap. split; [by intros (g & [= -> ->] & _)|]. intros ->. exists f. split; [done|].
  destruct f; repeat (apply list_elem_of_here || apply list_elem_of_further).
Qed.

(** syscall runs the call that eax names, and -1 is the result of every other number. *)
Lemma syscall_run {S} (eax : S → Z) set_eax run_sys s :
  syscall eax set_eax run_sys s =
    match syscalls !! s32 (eax s) with
    | Some f => (run_sys f ≫= λ r, modify (set_eax (u32 r))) s
    | None => Ok tt (set_eax 4294967295 s)
    end.
Proof.
  unfold syscall. run. destruct (syscalls !! s32 (eax s)) as [f|] eqn:E.
  - apply syscalls_spec in E. rewrite E. assert ((0 <? SYS f) && (SYS f <? NELEM_syscalls) = true) as -> by (by destruct f). done.
  - by destruct ((0 <? s32 (eax s)) && _).
Qed.

(** sleep(n) returns 0 at the n-th clock tick, also when the tick counter wraps
    around on the way: a thread that tests at every tick and is not killed goes
    through exactly n tests before the one that lets it go. A negative n is taken
    as an unsigned number: the thread does not return within 2^31 ticks. *)
Theorem sys_sleep_ticks n ticks0 :
  let tests := λ k, (λ i, (u32 (ticks0 + i), false)) <$> seqZ 0 k in
  (0 <= n < 2147483648 → sys_sleep_loop n ticks0 (tests (n + 1)) = Some (0, Z.to_nat n)) ∧
  (-2147483648 <= n < 0 → ∀ k, k <= 2147483648 → sys_sleep_loop n ticks0 (tests k) = None).
Proof.
  intros tests.
  assert (∀ i, 0 <= i < 4294967296 → u32 (u32 (ticks0 + i) - ticks0) = i) as Hel by (intros i Hi; zmod).
  assert (∀ len i, 0 <= i → (∀ j, i <= j < i + Z.of_nat len → j < u32 n ∧ j < 4294967296) →
    ∀ rest, sys_sleep_loop n ticks0 (((λ i, (u32 (ticks0 + i), false)) <$> seqZ i (Z.of_nat len)) ++ rest) =
      (x ← sys_sleep_loop n ticks0 rest; Some (x.1, (len + x.2)%nat))) as Hskip.
  { intros len. induction len as [|len IH]; intros i Hi Hj rest.
    - simpl. by destruct (sys_sleep_loop n ticks0 rest) as [[]|].
    - rewrite Nat2Z.inj_succ, seqZ_cons, Z.pred_succ by lia. cbn [fmap list_fmap app sys_sleep_loop]. unfold sys_sleep_test.
      destruct (Hj i) as [H1 H2]; [lia|]. rewrite Hel by lia. rewrite (proj2 (Z.ltb_lt i (u32 n))) by done.
      rewrite IH by (try lia; intros j Hj'; apply Hj; lia). by destruct (sys_sleep_loop n ticks0 rest) as [[]|]. }
  split.
  - intros Hn. unfold tests. rewrite seqZ_app, fmap_app by lia. rewrite <-(Z2Nat.id n) at 2 by lia.
    rewrite Hskip by (try lia; intros j Hj; rewrite u32_small by (unfold is_u32; lia); lia).
    rewrite Z.add_0_l. cbn [fmap list_fmap]. change (seqZ n 1) with [n]. cbn [fmap list_fmap sys_sleep_loop].
    unfold sys_sleep_test. rewrite Hel, u32_small by (unfold is_u32; lia). rewrite Z.ltb_irrefl. simpl. do 2 f_equal. lia.
  - intros Hn k Hk. destruct (Z.le_gt_cases k 0) as [|Hk0]; [unfold tests; by rewrite seqZ_nil|].
    unfold tests. rewrite <-(Z2Nat.id k), <-(app_nil_r (_ <$> _)) by lia. rewrite Hskip; [done|lia|].
    intros j Hj. split; [zmod|lia].
Qed.

(** *** Concrete runs: a stack at 8188 of a process of 8192 bytes *)

Definition u_ex : uview := UView (λ x, if x =? 8180 then 16 else if x =? 16 then 104 else 0) 8192 8172.

Lemma args_in_process_witness : argint u_ex 1 = Some 16 ∧ argptr u_ex 1 100 = Some 16 ∧ argstr u_ex 1 = Some (1, 16).
Proof.
  destruct (args_in_process u_ex ltac:(simpl; unfold KERNBASE; lia) 1 100) as (Hi & Hp & Hs);
    [simpl; unfold is_u32; lia|lia|unfold is_s32; lia|].
  split; [rewrite Hi; by vm_compute|]. split.
  - apply Hp. vm_compute. by split_and!.
  - apply Hs. split; [vm_compute; done|]. split; [by vm_compute|]. split; [done|]. split; [done|]. split; [by vm_compute|].
    intros x Hx. assert (x = 16) as -> by lia. by vm_compute.
Defined.

Lemma sys_sleep_ticks_witness : sys_sleep_loop 2 4294967295 [(4294967295, false); (0, false); (1, false)] = Some (0, 2%nat).
Proof. exact (proj1 (sys_sleep_ticks 2 4294967295) ltac:(lia)). Defined.
