(* ===== verification/Sysfile.v ===== *)
(** * System calls on file descriptors (sysfile.c)

    The state of the calling process that these calls use - its descriptors and
    its memory - next to the file table. A descriptor is an index into ofile; an
    entry is the index of a struct file, [None] for a null pointer. *)

From S2P Require Import Prelude Cstring Kalloc Pipe File FileSpec Syscall.

Definition NOFILE : nat := 16.

Record fdst (E : Type) := Fdst { fd_ofile : list (option nat); fd_view : uview; fd_files : filest E }.
Arguments Fdst {E} _ _ _.
Arguments fd_ofile {E} _.
Arguments fd_view {E} _.
Arguments fd_files {E} _.

Section sysfile.
Context {E : Type} `{!FileEnv E}.
(** myproc()->killed. *)
Variable killed : bool.
Implicit Types (s : fdst E).

Definition put_files (t : filest E) (s : fdst E) : fdst E := Fdst (fd_ofile s) (fd_view s) t.
(** A routine of file.c. *)
Definition ff {A} (m : M (filest E) A) : M (fdst E) A := zoom fd_files put_files m.
Definition set_fd (fd : nat) (v : option nat) : M (fdst E) unit :=
  modify (λ s, Fdst (<[fd := v]> (fd_ofile s)) (fd_view s) (fd_files s)).
(** A store to the memory of the process. *)
Definition copy_to_user (f : mem → mem) : M (fdst E) unit :=
  modify (λ s, let u := fd_view s in Fdst (fd_ofile s) (UView (f (uv_mem u)) (uv_sz u) (uv_esp u)) (fd_files s)).
Definition arg {A} (f : uview → A) : M (fdst E) A := gets (λ s, f (fd_view s)).

Definition argfd (n : Z) : M (fdst E) (option (nat * nat)) :=
  i ← arg (λ u, argint u n);
  match i with
  | None => mret None
  | Some fd =>
      if (fd <? 0) || (Z.of_nat NOFILE <=? fd) then mret None
      else
        l ← gets fd_ofile;
        match l !! Z.to_nat fd with
        | Some (Some f) => mret (Some (Z.to_nat fd, f))
        | _ => mret None
        end
  end.

Definition fdalloc (f : nat) : M (fdst E) (option nat) :=
  l ← gets fd_ofile;
  match list_find (λ x, x = None) l with
  | Some (fd, _) => set_fd fd (Some f);; mret (Some fd)
  | None => mret None
  end.

Definition sys_dup : M (fdst E) Z :=
  x ← argfd 0;
  match x with
  | None => mret (-1)
  | Some (_, f) =>
      r ← fdalloc f;
      match r with
      | None => mret (-1)
      | Some fd => _ ← ff (filedup f); mret (Z.of_nat fd)
      end
  end.

Definition sys_read : M (fdst E) Z :=
  x ← argfd 0;
  n ← arg (λ u, argint u 2);
  p ← arg (λ u, n ← n; argptr u 1 n);
  match x, n, p with
  | Some (_, f), Some n, Some p =>
      r ← ff (fileread killed f n);
      copy_to_user (λ m, store_bytes m p r.2);;
      mret r.1
  | _, _, _ => mret (-1)
  end.

Definition sys_write : M (fdst E) Z :=
  x ← argfd 0;
  n ← arg (λ u, argint u 2);
  p ← arg (λ u, n ← n; argptr u 1 n);
  match x, n, p with
  | Some (_, f), Some n, Some p =>
      m ← gets (λ s, uv_mem (fd_view s));
      ff (filewrite killed f (bytes_at m p (Z.to_nat n)) n)
  | _, _, _ => mret (-1)
  end.

Definition sys_close : M (fdst E) Z :=
  x ← argfd 0;
  match x with
  | None => mret (-1)
  | Some (fd, f) => set_fd fd None;; ff (fileclose f);; mret 0
  end.

(** struct stat: type, dev, ino, nlink and size at 0, 4, 8, 12 and 16. *)
Definition store_stat (m : mem) (st dev ino type nlink size : Z) : mem :=
  store_bytes (store_bytes (store_bytes (store_bytes (store_bytes m st (le_bytes 2 type))
    (st + 4) (le_bytes 4 dev)) (st + 8) (le_bytes 4 ino)) (st + 12) (le_bytes 2 nlink)) (st + 16) (le_bytes 4 size).

Definition sys_fstat : M (fdst E) Z :=
  x ← argfd 0;
  st ← arg (λ u, argptr u 1 20);
  match x, st with
  | Some (_, f), Some st =>
      r ← ff (filestat f);
      (match r.2 with
       | Some (dev, ino, type, nlink, size) => copy_to_user (λ m, store_stat m st dev ino type nlink size)
       | None => mret tt
       end);;
      mret r.1
  | _, _ => mret (-1)
  end.

Definition sys_pipe : M (fdst E) Z :=
  p ← arg (λ u, argptr u 0 8);
  match p with
  | None => mret (-1)
  | Some p =>
      r ← ff pipealloc;
      match r with
      | (0, Some rf, Some wf) =>
          fd0 ← fdalloc rf;
          match fd0 with
          | None => ff (fileclose rf);; ff (fileclose wf);; mret (-1)
          | Some fd0 =>
              fd1 ← fdalloc wf;
              match fd1 with
              | None => set_fd fd0 None;; ff (fileclose rf);; ff (fileclose wf);; mret (-1)
              | Some fd1 =>
                  copy_to_user (λ m, store32 (store32 m p (Z.of_nat fd0)) (p + 4) (Z.of_nat fd1));;
                  mret 0
              end
          end
      | _ => mret (-1)
      end
  end.

(** ** Descriptors and reference counts *)

(** How many entries of [l] refer to [f]. *)
Definition refs (l : list (option nat)) (f : nat) : Z := Z.of_nat (length (filter (λ x, x = Some f) l)).

(** [others f] counts the descriptors that other processes have of [f]. *)
Record fds_ok (others : nat → Z) s : Prop := {
  fk_len : length (fd_ofile s) = NOFILE;
  fk_files : files_ok (λ f, others f + refs (fd_ofile s) f) (fd_files s);
  fk_others : ∀ f, 0 <= others f;
  fk_used : ∀ f, Some f ∈ fd_ofile s → (f < NFILE)%nat
}.

Lemma refs_pos l f : Some f ∈ l → 0 < refs l f.
Proof.
  intros H. unfold refs. assert (Some f ∈ filter (λ x, x = Some f) l) as Hf by (by apply list_elem_of_filter).
  destruct (filter _ l); [by apply elem_of_nil in Hf|]. simpl. lia.
Qed.

(** A change of one entry. *)
Lemma refs_insert l fd x y f :
  l !! fd = Some x →
  refs (<[fd := y]> l) f = refs l f - (if decide (x = Some f) then 1 else 0) + (if decide (y = Some f) then 1 else 0).
Proof.
  intros Hx. unfold refs. rewrite <-(take_drop_middle l fd x Hx) at 2.
  rewrite (insert_take_drop l fd y) by (by eapply lookup_lt_Some).
  rewrite !filter_app, !length_app, !filter_cons. repeat case_decide; simpl; lia.
Qed.

Lemma argfd_run s n :
  ∃ r, argfd n s = Ok r s ∧
    match r with
    | Some (fd, f) => argint (fd_view s) n = Some (Z.of_nat fd) ∧ fd_ofile s !! fd = Some (Some f)
    | None => ∀ fd f, argint (fd_view s) n = Some (Z.of_nat fd) → fd_ofile s !! fd = Some (Some f) → (NOFILE <= fd)%nat
    end.
Proof.
  unfold argfd, arg. run. destruct (argint (fd_view s) n) as [fd|] eqn:Ei; [|eexists; split; [done|]; by intros ? ? [=]].
  destruct (Z.ltb_spec fd 0); cbn [orb]; [eexists; split; [done|]; intros ? ? [= ->]; lia|].
  destruct (Z.leb_spec (Z.of_nat NOFILE) fd); [eexists; split; [done|]; intros ? ? [= ->] _; lia|].
  run. destruct (fd_ofile s !! Z.to_nat fd) as [[f|]|] eqn:El; eexists; (split; [done|]); try (split; [by rewrite Z2Nat.id by lia|done]);
    intros fd' f [= ->] Hf; rewrite Nat2Z.id in El; congruence.
Qed.

Lemma fdalloc_run f s :
  ∃ r s', fdalloc f s = Ok r s' ∧
    match r with
    | Some fd => fd_ofile s !! fd = Some None ∧ (∀ k, (k < fd)%nat → fd_ofile s !! k ≠ Some None) ∧
        s' = Fdst (<[fd := Some f]> (fd_ofile s)) (fd_view s) (fd_files s)
    | None => s' = s ∧ None ∉ fd_ofile s
    end.
Proof.
  unfold fdalloc. run. destruct (list_find _ _) as [[fd x]|] eqn:Ef.
  - apply list_find_Some in Ef as (Hx & -> & Hmin). eexists (Some fd), _. split_and!; [done|done| |done].
    intros k Hk Hk'. by apply (Hmin k None).
  - apply list_find_None in Ef. exists None, s. split_and!; [done|done|]. intros Hin.
    rewrite Forall_forall in Ef. by apply (Ef None).
Qed.

(** A routine of file.c that returns. *)
Lemma ff_run {A} (m : M (filest E) A) s a t : m (fd_files s) = Ok a t → ff m s = Ok a (put_files t s).
Proof. intros H. unfold ff, zoom. by rewrite H. Qed.

(** A call whose first argument names an open descriptor, and any other. *)
Lemma argfd_open s n fd f : length (fd_ofile s) = NOFILE →
  argint (fd_view s) n = Some (Z.of_nat fd) → fd_ofile s !! fd = Some (Some f) → argfd n s = Ok (Some (fd, f)) s.
Proof.
  intros Hl Ha Hf. destruct (argfd_run s n) as (r & Hr & H). rewrite Hr. destruct r as [[fd' f']|].
  - destruct H as [H1 H2]. rewrite Ha in H1. injection H1 as H1. apply Nat2Z.inj in H1 as <-. congruence.
  - pose proof (lookup_lt_Some _ _ _ Hf). specialize (H fd f Ha Hf). lia.
Qed.

Section laws.
Context `{!FileLaws E}.

(** fileclose of a file that another descriptor still refers to undoes filedup. *)
Lemma filedup_fileclose h (t : filest E) f :
  files_ok h t → (f < NFILE)%nat → 0 < h f →
  ∃ t', filedup f t = Ok f t' ∧ files_ok (fupd h f (h f + 1)) t' ∧ fileclose f t' = Ok tt t.
Proof.
  intros Ho Hf Hh. destruct (filedup_run h t f Ho Hf Hh) as (t' & H & Ho' & Ht'). exists t'. split_and!; [done|done|].
  destruct (fileclose_run _ t' f Ho' Hf) as [_ Hc]; [rewrite fupd_eq; lia|]. rewrite Hc, fupd_eq.
  rewrite (proj2 (Z.eqb_neq _ _)) by lia. f_equal. rewrite Ht'. cbn [ftable pipes fenv]. destruct t as [l ps e].
  f_equal. rewrite list_alter_alter_eq. rewrite <-(list_alter_id id l f) at 2 by done.
  apply list_alter_ext; [|done]. intros x Hx. unfold compose.
  destruct (fo_ref _ _ Ho f Hf) as [Hr _]. unfold file_of in Hr. cbn [ftable] in *.
  rewrite (list_lookup_total_correct _ _ _ Hx) in Hr. cbn [f_ref set_ref]. rewrite (proj2 (Z.eqb_neq _ _)) by lia.
  destruct x. unfold set_ref, id. simpl in *. f_equal. lia.
Qed.

(** dup gives the lowest free descriptor for the same open file and counts
    it; it fails, and changes nothing, exactly when the argument is not an open
    descriptor or all sixteen are in use. Closing the new descriptor gives back the
    state before the call. The reference counts agree with the descriptors all along. *)
Theorem sys_dup_correct others s : fds_ok others s →
  ∃ r s', sys_dup s = Ok r s' ∧ fds_ok others s' ∧
    ((r = -1 ∧ s' = s ∧
      ((∀ fd f, argint (fd_view s) 0 = Some (Z.of_nat fd) → fd_ofile s !! fd ≠ Some (Some f)) ∨ None ∉ fd_ofile s)) ∨
     ∃ fd f new, argint (fd_view s) 0 = Some (Z.of_nat fd) ∧ fd_ofile s !! fd = Some (Some f) ∧
       r = Z.of_nat new ∧ fd_ofile s !! new = Some None ∧ (∀ k, (k < new)%nat → fd_ofile s !! k ≠ Some None) ∧
       fd_ofile s' = <[new := Some f]> (fd_ofile s) ∧ fd_view s' = fd_view s ∧
       f_ref (file_of f (fd_files s')) = f_ref (file_of f (fd_files s)) + 1 ∧
       ∀ u, argint u 0 = Some r →
         sys_close (Fdst (fd_ofile s') u (fd_files s')) = Ok 0 (Fdst (fd_ofile s) u (fd_files s))).
Proof.
  intros Hk. destruct (argfd_run s 0) as (r & Hr & Ha). unfold sys_dup. rewrite (bind_run _ _ _ _ _ Hr).
  destruct r as [[fd f]|].
  2: { exists (-1), s. split_and!; [done|done|]. left. split_and!; [done|done|]. left. intros fd f H1 H2.
    pose proof (lookup_lt_Some _ _ _ H2). specialize (Ha fd f H1 H2). rewrite (fk_len _ _ Hk) in *. lia. }
  destruct Ha as [Ha Hf]. destruct (fdalloc_run f s) as (r & s1 & H1 & Hd). rewrite (bind_run _ _ _ _ _ H1).
  destruct r as [new|]; [|destruct Hd as [-> Hd]; exists (-1), s; split_and!; [done|done|]; left; by auto].
  destruct Hd as (Hnew & Hmin & ->).
  assert (Some f ∈ fd_ofile s) as Hin by (by eapply list_elem_of_lookup_2).
  pose proof (fk_used _ _ Hk f Hin) as Hfn. pose proof (refs_pos _ _ Hin) as Hp. pose proof (fk_others _ _ Hk f) as Hot.
  destruct (filedup_fileclose _ (fd_files s) f (fk_files _ _ Hk) Hfn) as (t & Ht & Hot' & Hcl); [lia|].
  rewrite (bind_run _ _ _ _ _ (ff_run _ (Fdst (<[new := Some f]> (fd_ofile s)) (fd_view s) (fd_files s)) _ t Ht)).
  exists (Z.of_nat new), (Fdst (<[new := Some f]> (fd_ofile s)) (fd_view s) t).
  split; [done|]. split.
  { split; cbn [fd_ofile fd_files].
    - by rewrite length_insert, (fk_len _ _ Hk).
    - eapply files_ok_ext; [|reflexivity|exact Hot']. intros f'. rewrite (refs_insert _ _ _ _ _ Hnew).
      unfold fupd. rewrite (decide_False (P := None = Some f')) by done. repeat case_decide; simplify_eq; lia.
    - exact (fk_others _ _ Hk).
    - intros f' Hf'. apply list_elem_of_lookup in Hf' as [i Hi].
      destruct (decide (i = new)) as [->|Hne].
      + rewrite list_lookup_insert_eq in Hi by (by eapply lookup_lt_Some). by injection Hi as <-.
      + rewrite list_lookup_insert_ne in Hi by done. apply (fk_used _ _ Hk), list_elem_of_lookup. by exists i. }
  right. exists fd, f, new. split_and!; try done.
  - cbn [fd_files]. destruct (fo_ref _ _ Hot' f Hfn) as [-> _]. rewrite fupd_eq.
    by destruct (fo_ref _ _ (fk_files _ _ Hk) f Hfn) as [-> _].
  - intros u Hu. unfold sys_close. cbn [fd_ofile fd_files].
    rewrite (bind_run _ _ _ _ _ (argfd_open (Fdst (<[new := Some f]> (fd_ofile s)) u t) 0 new f
      ltac:(cbn; by rewrite length_insert, (fk_len _ _ Hk)) Hu
      ltac:(cbn; apply list_lookup_insert_eq; by eapply lookup_lt_Some))).
    unfold set_fd. run. cbn [fd_ofile fd_view fd_files].
    rewrite (bind_run _ _ _ _ _ (ff_run _ (Fdst (<[new := None]> (<[new := Some f]> (fd_ofile s))) u t) tt (fd_files s) Hcl)).
    unfold mret, M_ret, put_files. cbn [fd_ofile fd_view]. by rewrite list_insert_insert_eq, list_insert_id.
Qed.

(** read(fd, p, n) from an open file stores the next bytes of the file, up to
    [n] of them, at [p], moves the offset past them and returns how many there were;
    no other byte of the process, no other file and no descriptor changes. When the
    descriptor is not open or the buffer is not inside the process, read returns -1
    and changes nothing. *)
Theorem sys_read_correct others s fd f n p :
  fds_ok others s → let x := file_of f (fd_files s) in let v := fe_view (f_ip x) (fenv (fd_files s)) in
  let u := fd_view s in
  ((argint u 0 = None ∨ argint u 2 = None ∨ (argint u 2 = Some n ∧ argptr u 1 n = None) ∨
    (∀ d g, argint u 0 = Some (Z.of_nat d) → fd_ofile s !! d ≠ Some (Some g))) → sys_read s = Ok (-1) s) ∧
  (argint u 0 = Some (Z.of_nat fd) → fd_ofile s !! fd = Some (Some f) → argint u 2 = Some n → argptr u 1 n = Some p →
   f_readable x = true → f_type x = FD_INODE → fe_inode (f_ip x) (fenv (fd_files s)) →
   0 <= f_off x <= Z.of_nat (length v) → f_off x + n < 4294967296 → Forall is_u8 v →
   let m := Z.min n (Z.of_nat (length v) - f_off x) in
   ∃ s', sys_read s = Ok m s' ∧ fd_ofile s' = fd_ofile s ∧ uv_sz (fd_view s') = uv_sz u ∧ uv_esp (fd_view s') = uv_esp u ∧
     transferred f (f_off x + m) v (fd_files s) (fd_files s') ∧
     ∀ a, uv_mem (fd_view s') a =
       if decide (p <= a < p + m) then v !!! Z.to_nat (f_off x + (a - p)) else uv_mem u a).
Proof.
  intros Hk x v u. split.
  - intros Hbad. unfold sys_read, arg. destruct (argfd_run s 0) as (r & Hr & Ha). rewrite (bind_run _ _ _ _ _ Hr). run.
    fold u in Ha |- *. destruct r as [[d g]|]; [|done]. destruct Ha as [Ha Hg].
    destruct Hbad as [H|[H|[[H1 H2]|H]]]; [congruence|by rewrite H|rewrite H1; simpl; by rewrite H2|by destruct (H d g)].
  - intros H0 Hf H2 H1 Hrd Hty Hin Hoff Hmax Hv m.
    assert (0 <= n) as Hn.
    { unfold argptr in H1. destruct (argint u 1); simpl in H1; [|done]. destruct (Z.ltb_spec n 0); simpl in H1; [done|lia]. }
    assert (f < NFILE)%nat as Hfn by (by eapply (fk_used _ _ Hk), list_elem_of_lookup_2).
    destruct (fileread_correct killed f n (fd_files s)) as (t & Ht & T); try done;
      [by rewrite (fo_len _ _ (fk_files _ _ Hk))|]. fold x v m in Ht, T.
    unfold sys_read, arg. rewrite (bind_run _ _ _ _ _ (argfd_open s 0 fd f (fk_len _ _ Hk) H0 Hf)). run. fold u.
    rewrite H2. simpl. rewrite H1. rewrite (bind_run _ _ _ _ _ (ff_run _ s _ t Ht)).
    unfold copy_to_user. run. eexists. split; [done|]. cbn [fst snd fd_ofile fd_view fd_files put_files uv_sz uv_esp uv_mem].
    split_and!; [done|done|done|done|]. intros a.
    assert (length (sub v (Z.to_nat (f_off x)) (Z.to_nat m)) = Z.to_nat m) as Hl by (unfold m; rewrite length_sub; lia).
    rewrite store_bytes_spec, Hl. repeat case_decide; try lia; [|done].
    assert (Z.to_nat (f_off x + (a - p)) < length v)%nat as Hlt by (unfold m in *; lia).
    apply list_lookup_lookup_total_lt in Hlt. unfold getZ.
    assert (sub v (Z.to_nat (f_off x)) (Z.to_nat m) !! Z.to_nat (a - p) = Some (v !!! Z.to_nat (f_off x + (a - p)))) as Hs.
    { rewrite lookup_sub, decide_True by lia. rewrite <-Hlt. f_equal. lia. }
    rewrite (list_lookup_total_correct _ _ _ Hs). apply u8_small. rewrite Forall_lookup in Hv. by eapply Hv.
Qed.
End laws.
End sysfile.

(** *** One process with one open file *)

#[local] Existing Instance file_env_ex.
#[local] Existing Instance file_laws_ex.

(** Arguments 0, 16 and 3 on the stack. *)
Definition fd_view_ex (d : Z) : uview :=
  UView (λ x, if x =? 8176 then d else if x =? 8180 then 16 else if x =? 8184 then 3 else 0) 8192 8172.
Definition fds_ex : fdst (list (list Z)) := Fdst (Some 0%nat :: replicate 15 None) (fd_view_ex 0) files_ex.

Lemma fds_ex_ok : fds_ok (λ _, 0) fds_ex.
Proof.
  assert (∀ f, (S f < NFILE)%nat → file_of (S f) files_ex = file0) as Hf.
  { intros f Hlt. apply lookup_total_replicate_2. unfold NFILE in Hlt. lia. }
  split; [done| |done|].
  - split; [done|..]; intros [|f] Hlt; cbv beta; rewrite ?Hf by done; [by vm_compute|by vm_compute|by vm_compute|done].
  - intros f [[= ->]|H]%elem_of_cons; [unfold NFILE; lia|]. by apply elem_of_replicate in H as [? _].
Qed.

Lemma sys_dup_correct_witness : ∃ s', sys_dup fds_ex = Ok 1 s' ∧
  sys_close (Fdst (fd_ofile s') (fd_view_ex 1) (fd_files s')) = Ok 0 (Fdst (fd_ofile fds_ex) (fd_view_ex 1) files_ex).
Proof.
  destruct (sys_dup_correct (λ _, 0) fds_ex fds_ex_ok) as (r & s' & H & _ & Hr).
  assert (r = 1) as -> by (vm_compute in H; congruence).
  exists s'. split; [exact H|]. destruct Hr as [(? & _)|(fd & f & new & _ & _ & _ & _ & _ & _ & _ & _ & Hc)]; [done|].
  apply Hc. by vm_compute.
Defined.

Lemma sys_read_correct_witness : ∃ s', sys_read false fds_ex = Ok 2 s' ∧ uv_mem (fd_view s') 17 = 13.
Proof.
  destruct (proj2 (sys_read_correct false (λ _, 0) fds_ex 0 0 3 16 fds_ex_ok)) as (s' & H & _ & _ & _ & _ & Hm).
  - by vm_compute.
  - done.
  - by vm_compute.
  - by vm_compute.
  - done.
  - done.
  - simpl. lia.
  - simpl. lia.
  - simpl. lia.
  - change (Forall is_u8 [10; 11; 12; 13]). repeat (apply Forall_cons_2; [unfold is_u8; lia|]). apply Forall_nil_2.
  - exists s'. split; [exact H|]. rewrite Hm. by vm_compute.
Defined.
