(* ===== verification/Syspath.v ===== *)
(** * System calls on paths (sysfile.c)

    The second half of sysfile.c: the calls that create, remove and open files.
    [fsenv] is the kernel below the file table: the file system over a block layer,
    and the page allocator, from which the pipes come; [fs_env] makes it the
    environment of file.c. A path is the list of the characters of a C string. *)

From S2P Require Import Prelude Cstring Kalloc Disk Log Blocks Fs Pipe File Syscall Sysfile.

Definition O_WRONLY : Z := 1.
Definition O_RDWR : Z := 2.
Definition O_CREATE : Z := 512.
Definition O_RDONLY : Z := 0.

Record fsenv (K : Type) := FsEnv { en_fs : fsst K; en_km : kmst }.
Arguments FsEnv {K} _ _.
Arguments en_fs {K} _.
Arguments en_km {K} _.

Section syspath.
Context {K : Type} `{!BlockLayer K}.
Context (devsw_read : Z → option (nat → Z → M (fsst K) (Z * list Z))).
Context (devsw_write : Z → option (nat → list Z → M (fsst K) Z)).
(** The linker's symbol end, and myproc()->killed. *)
Context (kend : Z) (killed : bool).
(** What the uninitialised array name[DIRSIZ] holds. *)
Context (name0 : list Z).
Implicit Types (f : fsst K).

Definition infs {A} (m : M (fsst K) A) : M (fsenv K) A := zoom en_fs (λ f e, FsEnv f (en_km e)) m.
Definition inkm {A} (m : M kmst A) : M (fsenv K) A := zoom en_km (λ k e, FsEnv (en_fs e) k) m.

Definition fs_env : FileEnv (fsenv K) := {|
  fe_begin_op := infs (kk bl_begin_op);
  fe_end_op := infs (kk bl_end_op);
  fe_ilock := λ ip, infs (ilock ip);
  fe_iunlock := λ ip, infs (iunlock ip);
  fe_iput := λ ip, infs (iput ip);
  fe_stati := λ ip e, stati ip (en_fs e);
  fe_readi := λ ip off n, infs (readi devsw_read ip off n);
  fe_writei := λ ip src off n, infs (writei devsw_write ip src off n);
  fe_kalloc := inkm kalloc;
  fe_kfree := λ p, inkm (kfree kend p);
  fe_page := λ p e, bytes_at (km_mem (en_km e)) p 512
|}.
#[local] Existing Instance fs_env.

Definition fs_begin_op : M (fsst K) unit := kk bl_begin_op.
Definition fs_end_op : M (fsst K) unit := kk bl_end_op.

(** ip->nlink += n, in a short. *)
Definition nlink_add (ip : nat) (n : Z) : M (fsst K) unit := upd_d ip (λ d, set_nlink (s16 (d_nlink d + n)) d).

(** The code of sys_link after the label bad. *)
Definition link_bad (ip : nat) : M (fsst K) Z :=
  ilock ip;;
  nlink_add ip (-1);;
  iupdate ip;;
  iunlockput ip;;
  fs_end_op;;
  mret (-1).

Definition link_op (old new : list Z) : M (fsst K) Z :=
  fs_begin_op;;
  r ← namei devsw_read old;
  match r with
  | None => fs_end_op;; mret (-1)
  | Some ip =>
      ilock ip;;
      i ← gets (inode_of ip);
      if d_type (i_d i) =? T_DIR then iunlockput ip;; fs_end_op;; mret (-1)
      else
        nlink_add ip 1;;
        iupdate ip;;
        iunlock ip;;
        r ← nameiparent devsw_read new name0;
        match r with
        | None => link_bad ip
        | Some (dp, name) =>
            ilock dp;;
            d ← gets (inode_of dp);
            i ← gets (inode_of ip);
            r ← (if negb (i_dev d =? i_dev i) then mret (-1)
                 else dirlink devsw_read devsw_write dp name (i_inum i));
            if r <? 0 then iunlockput dp;; link_bad ip
            else iunlockput dp;; iput ip;; fs_end_op;; mret 0
        end
  end.

(** Is the directory dp empty except for "." and ".." ? *)
Definition isdirempty (dp : nat) : M (fsst K) bool :=
  d ← gets (inode_of dp);
  r ← for_until ((λ i, 32 + i * 16) <$> seqZ 0 ((d_size (i_d d) - 32 + 15) / 16)) (λ off,
    r ← readi devsw_read dp off 16;
    panic_if (negb (r.1 =? 16)) "isdirempty: readi";;
    mret (if negb (de_inum r.2 =? 0) then Some tt else None));
  mret (match r with Some _ => false | None => true end).

(** The code of sys_unlink after the label bad. *)
Definition unlink_bad (dp : nat) : M (fsst K) Z := iunlockput dp;; fs_end_op;; mret (-1).

Definition unlink_op (path : list Z) : M (fsst K) Z :=
  fs_begin_op;;
  r ← nameiparent devsw_read path name0;
  match r with
  | None => fs_end_op;; mret (-1)
  | Some (dp, name) =>
      ilock dp;;
      if (namecmp name [46] =? 0) || (namecmp name [46; 46] =? 0) then unlink_bad dp
      else
        r ← dirlookup devsw_read dp name;
        match r with
        | None => unlink_bad dp
        | Some (ip, off) =>
            ilock ip;;
            i ← gets (inode_of ip);
            panic_if (d_nlink (i_d i) <? 1) "unlink: nlink < 1";;
            empty ← (if d_type (i_d i) =? T_DIR then isdirempty ip else mret true);
            if negb empty then iunlockput ip;; unlink_bad dp
            else
              r ← writei devsw_write dp (replicate 16 0) off 16;
              panic_if (negb (r =? 16)) "unlink: writei";;
              i ← gets (inode_of ip);
              (if d_type (i_d i) =? T_DIR then nlink_add dp (-1);; iupdate dp else mret tt);;
              iunlockput dp;;
              nlink_add ip (-1);;
              iupdate ip;;
              iunlockput ip;;
              fs_end_op;;
              mret 0
        end
  end.

(** The result is locked. ialloc panics where the source tests for 0. *)
Definition create (path : list Z) (type major minor : Z) : M (fsst K) (option nat) :=
  r ← nameiparent devsw_read path name0;
  match r with
  | None => mret None
  | Some (dp, name) =>
      ilock dp;;
      r ← dirlookup devsw_read dp name;
      match r with
      | Some (ip, _) =>
          iunlockput dp;;
          ilock ip;;
          i ← gets (inode_of ip);
          if (type =? T_FILE) && (d_type (i_d i) =? T_FILE) then mret (Some ip)
          else iunlockput ip;; mret None
      | None =>
          d ← gets (inode_of dp);
          ip ← ialloc (i_dev d) type;
          ilock ip;;
          upd_d ip (set_majmin major minor);;
          upd_d ip (set_nlink 1);;
          iupdate ip;;
          (if type =? T_DIR then
             nlink_add dp 1;;
             iupdate dp;;
             i ← gets (inode_of ip);
             r ← dirlink devsw_read devsw_write ip [46] (i_inum i);
             panic_if (r <? 0) "create dots";;
             d ← gets (inode_of dp);
             r ← dirlink devsw_read devsw_write ip [46; 46] (i_inum d);
             panic_if (r <? 0) "create dots"
           else mret tt);;
          i ← gets (inode_of ip);
          r ← dirlink devsw_read devsw_write dp name (i_inum i);
          panic_if (r <? 0) "create: dirlink";;
          iunlockput dp;;
          mret (Some ip)
      end
  end.

(** ** The system calls *)

Definition sf {A} (m : M (fsst K) A) : M (fdst (fsenv K)) A := ff (fe (infs m)).
(** argstr, with the string itself. *)
Definition arg_path (n : Z) : M (fdst (fsenv K)) (option (list Z)) :=
  arg (λ u, x ← argstr u n; Some (bytes_at (uv_mem u) x.2 (Z.to_nat x.1))).

Definition sys_link : M (fdst (fsenv K)) Z :=
  old ← arg_path 0;
  new ← arg_path 1;
  match old, new with
  | Some old, Some new => sf (link_op old new)
  | _, _ => mret (-1)
  end.

Definition sys_unlink : M (fdst (fsenv K)) Z :=
  path ← arg_path 0;
  match path with Some path => sf (unlink_op path) | None => mret (-1) end.

(** The inode that sys_open opens, locked. *)
Definition open_inode (path : list Z) (omode : Z) : M (fsst K) (option nat) :=
  if negb (Z.land omode O_CREATE =? 0) then create path T_FILE 0 0
  else
    r ← namei devsw_read path;
    match r with
    | None => mret None
    | Some ip =>
        ilock ip;;
        i ← gets (inode_of ip);
        if (d_type (i_d i) =? T_DIR) && negb (omode =? O_RDONLY) then iunlockput ip;; mret None
        else mret (Some ip)
    end.

Definition open_file (omode : Z) (ip : nat) (x : file) : file :=
  File FD_INODE (f_ref x) (Z.land omode O_WRONLY =? 0)
    (negb (Z.land omode O_WRONLY =? 0) || negb (Z.land omode O_RDWR =? 0)) (f_pipe x) ip 0.

Definition sys_open : M (fdst (fsenv K)) Z :=
  path ← arg_path 0;
  omode ← arg (λ u, argint u 1);
  match path, omode with
  | Some path, Some omode =>
      sf fs_begin_op;;
      ip ← sf (open_inode path omode);
      match ip with
      | None => sf fs_end_op;; mret (-1)
      | Some ip =>
          f ← ff filealloc;
          fd ← match f with Some f => fdalloc f | None => mret None end;
          match f, fd with
          | Some f, Some fd =>
              sf (iunlock ip);;
              sf fs_end_op;;
              ff (upd_file f (open_file omode ip));;
              mret (Z.of_nat fd)
          | _, _ =>
              match f with Some f => ff (fileclose f) | None => mret tt end;;
              sf (iunlockput ip);;
              sf fs_end_op;;
              mret (-1)
          end
      end
  | _, _ => mret (-1)
  end.

Definition sys_mkdir : M (fdst (fsenv K)) Z :=
  sf fs_begin_op;;
  path ← arg_path 0;
  ip ← match path with Some path => sf (create path T_DIR 0 0) | None => mret None end;
  match ip with
  | None => sf fs_end_op;; mret (-1)
  | Some ip => sf (iunlockput ip);; sf fs_end_op;; mret 0
  end.

Definition sys_mknod : M (fdst (fsenv K)) Z :=
  sf fs_begin_op;;
  path ← arg_path 0;
  major ← arg (λ u, argint u 1);
  minor ← arg (λ u, argint u 2);
  ip ← match path, major, minor with
       | Some path, Some major, Some minor => sf (create path T_DEV (s16 major) (s16 minor))
       | _, _, _ => mret None
       end;
  match ip with
  | None => sf fs_end_op;; mret (-1)
  | Some ip => sf (iunlockput ip);; sf fs_end_op;; mret 0
  end.

Definition sys_chdir : M (fdst (fsenv K)) Z :=
  sf fs_begin_op;;
  path ← arg_path 0;
  r ← match path with Some path => sf (namei devsw_read path) | None => mret None end;
  match r with
  | None => sf fs_end_op;; mret (-1)
  | Some ip =>
      sf (ilock ip);;
      i ← sf (gets (inode_of ip));
      if negb (d_type (i_d i) =? T_DIR) then sf (iunlockput ip);; sf fs_end_op;; mret (-1)
      else
        sf (iunlock ip);;
        cwd ← sf (gets fs_cwd);
        sf (iput cwd);;
        sf fs_end_op;;
        sf (modify (set_cwd ip));;
        mret 0
  end.
End syspath.
