(* ===== verification/SyspathSpec.v ===== *)
(** * System calls on paths: what they hold is given back

    A ledger of the inode locks, the references of the cached inodes and the
    operations open in the log. Every routine of fs.c that a system call uses is
    followed through all its branches; a routine that panics or sleeps does not
    return, and [wlp] then says nothing of it. *)

From S2P Require Import Prelude Cstring Kalloc Sleeplock Disk Bio Log Blocks Fs FsSpec Pipe File FileSpec.
From S2P Require Import Syscall Sysfile Syspath.

(** ** Operations open in the log *)

(** begin_op and end_op count; nothing else in the block layer does. *)
Class TxLayer (K : Type) `{!BlockLayer K} := {
  tx_depth : K → Z;
  tx_begin : ∀ k, wlp bl_begin_op (λ _ k', tx_depth k' = tx_depth k + 1) k;
  tx_end : ∀ k, wlp bl_end_op (λ _ k', tx_depth k' = tx_depth k - 1) k;
  tx_bread : ∀ dev n k, wlp (bl_bread dev n) (λ _ k', tx_depth k' = tx_depth k) k;
  tx_upd : ∀ b g k, wlp (bl_upd b g) (λ _ k', tx_depth k' = tx_depth k) k;
  tx_log_write : ∀ b k, wlp (bl_log_write b) (λ _ k', tx_depth k' = tx_depth k) k;
  tx_brelse : ∀ b k, wlp (bl_brelse b) (λ _ k', tx_depth k' = tx_depth k) k
}.

Section same.
Context {S T : Type} (g : S → T).
(** [g] is the same after [m]. *)
Definition same {A} (m : M S A) : Prop := ∀ s, wlp m (λ _ s', g s' = g s) s.

Lemma same_ret {A} (a : A) : same (mret a).
Proof. done. Qed.
Lemma same_gets {A} (h : S → A) : same (gets h).
Proof. done. Qed.
Lemma same_panic {A} msg : same (panic msg : M S A).
Proof. done. Qed.
Lemma same_no_fuel {A} : same (no_fuel : M S A).
Proof. done. Qed.
Lemma same_panic_if b msg : same (panic_if b msg).
Proof. by destruct b. Qed.
Lemma same_modify h : (∀ s, g (h s) = g s) → same (modify h).
Proof. intros H s. apply H. Qed.
Lemma same_bind {A B} (m : M S A) (k : A → M S B) : same m → (∀ a, same (k a)) → same (m ≫= k).
Proof.
  intros Hm Hk s. apply wlp_bind. eapply wlp_mono; [apply Hm|]. intros a s1 H1. cbv beta.
  eapply wlp_mono; [apply Hk|]. intros b s2 H2. cbv beta in *. congruence.
Qed.
Lemma same_for_each {X} (l : list X) (body : X → M S unit) : (∀ x, same (body x)) → same (for_each l body).
Proof. intros H. induction l; [apply same_ret|]. by apply same_bind. Qed.
Lemma same_for_until {X R} (l : list X) (body : X → M S (option R)) :
  (∀ x, same (body x)) → same (for_until l body).
Proof. intros H. induction l; [apply same_ret|]. apply same_bind; [done|]. by intros [r|]; [apply same_ret|]. Qed.
End same.

Create HintDb same.
#[export] Hint Resolve same_ret same_gets same_panic same_no_fuel same_panic_if same_bind
  same_for_each same_for_until : same.
Ltac same := repeat (intros; first
  [ solve [auto 2 with same]
  | apply same_bind | apply same_for_each | apply same_for_until
  | match goal with |- context [match ?x with _ => _ end] => destruct x end ]).

(** *** The log is such a layer *)

Section log_tx.
Context {D : Type} `{!DiskDriver D}.

Lemma same_bc {A} (m : M (bcache D) A) : same (@lg_outstanding D) (bc m).
Proof. intros l. unfold wlp, bc, zoom. by destruct (m (lg_bc l)). Qed.

#[local] Hint Resolve same_bc : same.
#[local] Hint Extern 1 (same _ (modify _)) => apply same_modify; done : same.

Lemma same_write_log : same (@lg_outstanding D) write_log.
Proof. unfold write_log, get_log. same. Qed.
Lemma same_install_trans : same (@lg_outstanding D) install_trans.
Proof. unfold install_trans, get_log. same. Qed.
Lemma same_write_head : same (@lg_outstanding D) write_head.
Proof. unfold write_head, get_log. same. Qed.
#[local] Hint Resolve same_write_log same_install_trans same_write_head : same.
Lemma same_end_op_commit : same (@lg_outstanding D) end_op_commit.
Proof. unfold end_op_commit, commit. same. Qed.
Lemma same_log_write b : same (@lg_outstanding D) (log_write b).
Proof. unfold log_write, get_log. same. Qed.

#[export] Instance log_tx `{!DiskDriverLaws D} : TxLayer (logst D).
Proof.
  refine {| tx_depth := lg_outstanding |}; intros; simpl; try apply same_bc; [| |apply same_log_write].
  - unfold Log.begin_op, get_log, wlp, mbind, M_bind, gets. simpl. destruct (lg_committing k); [done|].
    by destruct (LOGSIZE <? _).
  - unfold Log.end_op. apply wlp_bind. unfold end_op_enter, wlp, mbind, M_bind, gets, modify, panic_if. simpl.
    destruct (lg_committing k); [done|]. simpl. destruct (_ =? 0); [|done]. simpl. apply same_end_op_commit.
Defined.
End log_tx.

(** ** The ledger *)

(** Which cached inodes are locked, how often each is referenced, how many
    operations are open, and the current directory. *)
Record led := Led { ld_lock : nat → bool; ld_ref : nat → Z; ld_depth : Z; ld_cwd : nat }.
Definition ld_hold (ip : nat) (b : bool) (l : led) : led := Led (fupd (ld_lock l) ip b) (ld_ref l) (ld_depth l) (ld_cwd l).
Definition ld_add (ip : nat) (n : Z) (l : led) : led :=
  Led (ld_lock l) (fupd (ld_ref l) ip (ld_ref l ip + n)) (ld_depth l) (ld_cwd l).
Definition ld_open (n : Z) (l : led) : led := Led (ld_lock l) (ld_ref l) (ld_depth l + n) (ld_cwd l).
Definition ld_dir (c : nat) (l : led) : led := Led (ld_lock l) (ld_ref l) (ld_depth l) c.

Section ledger.
Context {K : Type} `{!BlockLayer K, !TxLayer K}.
Context (devsw_read : Z → option (nat → Z → M (fsst K) (Z * list Z))).
Context (devsw_write : Z → option (nat → list Z → M (fsst K) Z)).
Context (name0 : list Z).
Implicit Types (f : fsst K) (ip : nat) (l : led).

Record holds l f : Prop := {
  ho_len : length (fs_icache f) = NINODE;
  ho_lock : ∀ ip, (ip < NINODE)%nat → sl_locked (i_lock (inode_of ip f)) = ld_lock l ip;
  ho_ref : ∀ ip, (ip < NINODE)%nat → i_ref (inode_of ip f) = ld_ref l ip;
  ho_depth : tx_depth (fs_k f) = ld_depth l;
  ho_cwd : fs_cwd f = ld_cwd l
}.

(** What the ledger sees of the state. *)
Definition snap f : list (bool * Z) * Z * nat :=
  ((λ i, (sl_locked (i_lock i), i_ref i)) <$> fs_icache f, tx_depth (fs_k f), fs_cwd f).

Lemma holds_snap l f f' : snap f' = snap f → holds l f → holds l f'.
Proof.
  intros [= Hi Hd Hc] [H1 H2 H3 H4 H5].
  assert (length (fs_icache f') = length (fs_icache f)) as Hl.
  { apply (f_equal length) in Hi. by rewrite !length_fmap in Hi. }
  assert (∀ ip, (ip < NINODE)%nat → sl_locked (i_lock (inode_of ip f')) = sl_locked (i_lock (inode_of ip f)) ∧
    i_ref (inode_of ip f') = i_ref (inode_of ip f)) as Hip.
  { intros ip Hip. apply (f_equal (lookup ip)) in Hi. rewrite !list_lookup_fmap in Hi.
    rewrite !(list_lookup_lookup_total_lt _ ip) in Hi by lia. simpl in Hi. by injection Hi. }
  split; [lia|..|congruence|congruence]; intros ip Hip'; destruct (Hip ip Hip') as [E1 E2]; rewrite ?E1, ?E2; auto.
Qed.

Lemma holds_ext l l' f :
  (∀ ip, (ip < NINODE)%nat → ld_lock l ip = ld_lock l' ip) → (∀ ip, (ip < NINODE)%nat → ld_ref l ip = ld_ref l' ip) →
  ld_depth l = ld_depth l' → ld_cwd l = ld_cwd l' → holds l f → holds l' f.
Proof. intros H1 H2 H3 H4 [? Hl Hr ? ?]. split; intros; rewrite <-?H1, <-?H2 by done; auto; congruence. Qed.

(** *** Routines that the ledger does not see *)

Lemma snap_kk {A} (m : M K A) : same tx_depth m → same snap (kk m).
Proof.
  intros H f. specialize (H (fs_k f)). unfold wlp, kk, zoom in *. destruct (m (fs_k f)); try done.
  unfold snap. simpl. by rewrite H.
Qed.
Lemma tx_same_bread dev n : same tx_depth (bl_bread dev n).
Proof. intros k. apply tx_bread. Qed.
Lemma tx_same_upd b g : same tx_depth (bl_upd b g).
Proof. intros k. apply tx_upd. Qed.
Lemma tx_same_log_write b : same tx_depth (bl_log_write b).
Proof. intros k. apply tx_log_write. Qed.
Lemma tx_same_brelse b : same tx_depth (bl_brelse b).
Proof. intros k. apply tx_brelse. Qed.
Lemma snap_upd_inode ip g :
  (∀ i, sl_locked (i_lock (g i)) = sl_locked (i_lock i) ∧ i_ref (g i) = i_ref i) → same snap (upd_inode ip g).
Proof.
  intros H. apply same_modify. intros f. unfold snap. simpl. do 2 f_equal. apply list_eq. intros j.
  rewrite !list_lookup_fmap. destruct (decide (j = ip)) as [->|Hj].
  - rewrite list_lookup_alter_eq. destruct (fs_icache f !! ip) as [i|]; [|done]. simpl.
    by destruct (H i) as [-> ->].
  - by rewrite list_lookup_alter_ne.
Qed.
Lemma snap_upd_d ip g : same snap (upd_d ip g).
Proof. by apply snap_upd_inode. Qed.
#[local] Hint Resolve snap_kk tx_same_bread tx_same_upd tx_same_log_write tx_same_brelse snap_upd_d : same.
#[local] Hint Extern 1 (same _ (modify _)) => apply same_modify; done : same.
#[local] Hint Extern 1 (same _ (upd_inode _ _)) => apply snap_upd_inode; done : same.

Ltac kk := repeat (intros; first [apply snap_kk | progress same]).

Lemma snap_balloc dev : same snap (balloc dev).
Proof. unfold balloc, balloc_bits, bzero. kk. Qed.
Lemma snap_bfree dev b : same snap (bfree dev b).
Proof. unfold bfree, fs_readsb. kk. Qed.
Lemma snap_iupdate ip : same snap (iupdate ip).
Proof. unfold iupdate. kk. Qed.
#[local] Hint Resolve snap_balloc snap_bfree snap_iupdate : same.
Lemma snap_bmap ip bn : same snap (bmap ip bn).
Proof. unfold bmap. kk. Qed.
Lemma snap_itrunc ip : same snap (itrunc ip).
Proof. unfold itrunc. kk. Qed.
#[local] Hint Resolve snap_bmap : same.
Lemma snap_readi_loop fuel ip tot off n acc : same snap (readi_loop fuel ip tot off n acc).
Proof. revert tot off acc. induction fuel as [|fuel IH]; intros; cbn [readi_loop]; kk. Qed.
Lemma snap_writei_loop fuel ip tot off n src : same snap (writei_loop fuel ip tot off n src).
Proof. revert tot off src. induction fuel as [|fuel IH]; intros; cbn [writei_loop]; kk. Qed.

(** The functions of a device leave locks and references as they find them. *)
Hypothesis devsw_read_snap : ∀ major rd ip n, devsw_read major = Some rd → same snap (rd ip n).
Hypothesis devsw_write_snap : ∀ major wr ip src, devsw_write major = Some wr → same snap (wr ip src).

Lemma snap_readi ip off n : same snap (readi devsw_read ip off n).
Proof.
  unfold readi. apply same_bind; [apply same_gets|]. intros i. destruct (_ =? T_DEV).
  - destruct (_ || _); [apply same_ret|]. destruct (devsw_read _) eqn:E; [by eapply devsw_read_snap|apply same_ret].
  - destruct (_ || _); [apply same_ret|]. apply same_bind; [apply snap_readi_loop|]. intros. apply same_ret.
Qed.
Lemma snap_writei ip src off n : same snap (writei devsw_write ip src off n).
Proof.
  unfold writei. apply same_bind; [apply same_gets|]. intros i. destruct (_ =? T_DEV).
  - destruct (_ || _); [apply same_ret|]. destruct (devsw_write _) eqn:E; [by eapply devsw_write_snap|apply same_ret].
  - destruct (_ || _); [apply same_ret|]. destruct (_ <? _); [apply same_ret|].
    apply same_bind; [apply snap_writei_loop|]. same.
Qed.
#[local] Hint Resolve snap_readi snap_writei : same.
Lemma snap_isdirempty dp : same snap (isdirempty devsw_read dp).
Proof. unfold isdirempty. same. Qed.

Lemma keep {A} (m : M (fsst K) A) l f : same snap m → holds l f → wlp m (λ _ f', holds l f') f.
Proof. intros Hm Hl. eapply wlp_mono; [apply Hm|]. intros a f' H. exact (holds_snap _ _ _ H Hl). Qed.

(** *** Locks, references and transactions *)

Lemma wlp_seq {S A B} (m : M S A) (k : A → M S B) (P : A → S → Prop) (Q : B → S → Prop) s :
  wlp m P s → (∀ a s', P a s' → wlp (k a) Q s') → wlp (m ≫= k) Q s.
Proof. intros Hm Hk. apply wlp_bind. by eapply wlp_mono. Qed.

Lemma led_seq {A B} (m : M (fsst K) A) (k : A → M (fsst K) B) l' Q f :
  wlp m (λ _ f', holds l' f') f → (∀ a f', holds l' f' → wlp (k a) Q f') → wlp (m ≫= k) Q f.
Proof. intros Hm Hk. exact (wlp_seq _ _ _ _ _ Hm Hk). Qed.

(** The next routine, by its rule; [led_keep] when the ledger does not see it. *)
#[local] Tactic Notation "led" uconstr(rule) := eapply wlp_seq; [by eapply rule|cbv beta].
#[local] Ltac led_keep := eapply wlp_seq; [eapply keep; [solve [kk]|eassumption]|cbv beta].

Lemma led_begin l f : holds l f → wlp fs_begin_op (λ _ f', holds (ld_open 1 l) f') f.
Proof.
  intros [H1 H2 H3 H4 H5]. pose proof (tx_begin (fs_k f)) as H. unfold wlp, fs_begin_op, kk, zoom in *.
  destruct (bl_begin_op (fs_k f)); try done. split; simpl; auto. lia.
Qed.
Lemma led_end l f : holds l f → wlp fs_end_op (λ _ f', holds (ld_open (-1) l) f') f.
Proof.
  intros [H1 H2 H3 H4 H5]. pose proof (tx_end (fs_k f)) as H. unfold wlp, fs_end_op, kk, zoom in *.
  destruct (bl_end_op (fs_k f)); try done. split; simpl; auto. lia.
Qed.

(** A change of one entry of the cache. *)
Lemma holds_alter l f ip (g : inode → inode) b n :
  holds l f → (ip < NINODE)%nat → sl_locked (i_lock (g (inode_of ip f))) = b → i_ref (g (inode_of ip f)) = n →
  holds (Led (fupd (ld_lock l) ip b) (fupd (ld_ref l) ip n) (ld_depth l) (ld_cwd l))
    (set_icache (alter g ip (fs_icache f)) f).
Proof.
  intros [H1 H2 H3 H4 H5] Hip Hb Hn.
  assert (∀ j, inode_of j (set_icache (alter g ip (fs_icache f)) f) =
    if decide (j = ip) then g (inode_of ip f) else inode_of j f) as Hj.
  { intros j. case_decide; [subst; by rewrite inode_of_alter by lia|].
    unfold inode_of. simpl. by rewrite list_lookup_total_alter_ne. }
  split; [by simpl; rewrite length_alter|..|done|done]; intros j Hlt; rewrite Hj; unfold fupd; simpl;
    case_decide; auto.
Qed.

Lemma acquire_inode_run ip f : (ip < length (fs_icache f))%nat →
  acquiresleep_inode ip f = if sl_locked (i_lock (inode_of ip f)) then Blocked f
    else Ok tt (set_icache (alter (set_ilock (Sleeplock true (fs_pid f))) ip (fs_icache f)) f).
Proof.
  intros Hip. unfold acquiresleep_inode, acquiresleep.
  destruct (i_lock (inode_of ip f)) as [lk pid]. by destruct lk.
Qed.

Lemma led_acquire l f ip : holds l f → (ip < NINODE)%nat →
  wlp (acquiresleep_inode ip) (λ _ f', ld_lock l ip = false ∧ holds (ld_hold ip true l) f') f.
Proof.
  intros Hl Hip. unfold wlp. rewrite acquire_inode_run by (rewrite (ho_len _ _ Hl); done).
  destruct (sl_locked _) eqn:E; [done|]. rewrite (ho_lock _ _ Hl) in E by done. split; [done|].
  eapply holds_ext; [..|by eapply (holds_alter l f ip); [| |reflexivity..]]; simpl; try done.
  intros j Hj. unfold fupd. case_decide; [by subst; apply (ho_ref _ _ Hl)|done].
Qed.
Lemma led_release l f ip : holds l f → (ip < NINODE)%nat →
  wlp (releasesleep_inode ip) (λ _ f', holds (ld_hold ip false l) f') f.
Proof.
  intros Hl Hip. unfold releasesleep_inode, upd_inode, wlp, modify.
  eapply holds_ext; [..|by eapply (holds_alter l f ip); [| |reflexivity..]]; simpl; try done.
  intros j Hj. unfold fupd. case_decide; [by subst; apply (ho_ref _ _ Hl)|done].
Qed.
Lemma led_addref l f ip n : holds l f → (ip < NINODE)%nat →
  wlp (upd_inode ip (λ i, Fs.set_ref (i_ref i + n) i)) (λ _ f', holds (ld_add ip n l) f') f.
Proof.
  intros Hl Hip. unfold upd_inode, wlp, modify.
  eapply holds_ext; [..|by eapply (holds_alter l f ip); [| |reflexivity..]]; simpl; try done;
    intros j Hj; unfold fupd; case_decide; try done; subst; [by apply (ho_lock _ _ Hl)|].
  by rewrite (ho_ref _ _ Hl).
Qed.

Lemma led_ilock l f ip : holds l f → (ip < NINODE)%nat →
  wlp (ilock ip) (λ _ f', ld_lock l ip = false ∧ holds (ld_hold ip true l) f') f.
Proof.
  intros Hl Hip. unfold ilock. led_keep. intros i f1 H1. led_keep. intros _ f2 H2.
  led led_acquire. intros _ f3 [H3 H4]. eapply wlp_mono; [eapply keep; [|exact H4]|by intros]. kk.
Qed.
Lemma led_iunlock l f ip : holds l f → (ip < NINODE)%nat →
  wlp (iunlock ip) (λ _ f', holds (ld_hold ip false l) f') f.
Proof. intros Hl Hip. unfold iunlock. led_keep. intros i f1 H1. led_keep. intros _ f2 H2. by apply led_release. Qed.
#[local] Hint Resolve snap_itrunc : same.
Lemma led_iput l f ip : holds l f → (ip < NINODE)%nat →
  wlp (iput ip) (λ _ f', holds (ld_add ip (-1) l) f') f.
Proof.
  intros Hl Hip. unfold iput. led led_acquire. intros _ f1 [H0 H1]. led_keep. intros i f2 H2.
  led_keep. intros _ f3 H3. led led_release. intros _ f4 H4.
  eapply wlp_mono; [exact (led_addref _ f4 ip (-1) H4 Hip)|]. cbv beta. intros _ f5. apply holds_ext; simpl; try done.
  intros j _. unfold fupd. case_decide; [by subst|done].
Qed.
Lemma led_iunlockput l f ip : holds l f → (ip < NINODE)%nat →
  wlp (iunlockput ip) (λ _ f', holds (ld_add ip (-1) (ld_hold ip false l)) f') f.
Proof. intros Hl Hip. unfold iunlockput. led led_iunlock. intros _ f1 H1. by apply led_iput. Qed.

Lemma led_iget l f dev inum : holds l f →
  wlp (iget dev inum) (λ ip f', (ip < NINODE)%nat ∧ holds (ld_add ip 1 l) f') f.
Proof.
  intros Hl. unfold iget. apply wlp_bind. unfold gets, wlp at 1.
  pose proof (iget_scan_spec dev inum (fs_icache f) 0 None) as Hs.
  destruct (iget_scan _ _ _ _ _) as [[ip|] e].
  - destruct Hs as (j & x & -> & Hj & _). apply lookup_lt_Some in Hj. rewrite (ho_len _ _ Hl) in Hj.
    eapply wlp_seq; [exact (led_addref _ f (0 + j) 1 Hl Hj)|]. cbv beta. by intros _ f1 H1.
  - destruct e as [ip|]; [|done]. destruct Hs as (_ & j & x & -> & Hj & Hr).
    pose proof (lookup_lt_Some _ _ _ Hj) as Hlt. rewrite (ho_len _ _ Hl) in Hlt.
    unfold upd_inode, modify, wlp, mbind, M_bind. split; [done|].
    assert (inode_of j f = x) as Hx by (by apply list_lookup_total_correct).
    eapply holds_ext; [..|by eapply (holds_alter l f j); [| |reflexivity..]]; simpl; try done;
      intros i Hi; unfold fupd; case_decide; try done; subst i; [by apply (ho_lock _ _ Hl)|].
    rewrite <-(ho_ref _ _ Hl) by done. by rewrite Hx, Hr.
Qed.

(** *** Directories and paths *)

Lemma wlp_for_until {S X R} (I : S → Prop) (xs : list X) (body : X → M S (option R)) (Q : option R → S → Prop) s :
  I s → (∀ x s, I s → wlp (body x) (λ r s', match r with Some v => Q (Some v) s' | None => I s' end) s) →
  (∀ s, I s → Q None s) → wlp (for_until xs body) Q s.
Proof.
  intros HI Hb HQ. revert s HI. induction xs as [|x xs IH]; intros s HI; cbn [for_until]; [by apply HQ|].
  eapply wlp_seq; [by apply Hb|]. cbv beta. intros [v|] s'; [done|apply IH].
Qed.

(** A reference to the inode that a search found, if it found one. *)
Definition found {A} l (r : option (nat * A)) f : Prop :=
  match r with Some (ip, _) => (ip < NINODE)%nat ∧ holds (ld_add ip 1 l) f | None => holds l f end.

(** Two ledgers that agree. *)
Ltac led_eq :=
  eapply holds_ext; [..|eassumption]; simpl in *; try done; intros; unfold fupd in *;
    repeat case_decide; subst; simpl in *; try (done || lia || congruence).

Lemma led_dirlookup l f dp name : holds l f → wlp (dirlookup devsw_read dp name) (found l) f.
Proof.
  intros Hl. unfold dirlookup. led_keep. intros d f1 H1. led_keep. intros _ f2 H2.
  apply (wlp_for_until (holds l)); [done| |done]. clear f f1 f2 Hl H1 H2. intros off f Hl.
  led_keep. intros r f1 H1. led_keep. intros _ f2 H2. destruct (_ =? 0); [done|]. destruct (_ =? 0); [|done].
  led led_iget. by intros ip f3 [H3 H4].
Qed.

Lemma led_dirlink l f dp name inum : holds l f →
  wlp (dirlink devsw_read devsw_write dp name inum) (λ _ f', holds l f') f.
Proof.
  intros Hl. unfold dirlink. led led_dirlookup. intros [[ip off]|] f1 H1; simpl in H1.
  - destruct H1 as [Hip H1]. led led_iput. intros _ f2 H2. unfold wlp, mret, M_ret. led_eq.
  - eapply keep; [|exact H1]. kk.
Qed.

Lemma led_idup l f ip : holds l f → (ip < NINODE)%nat → wlp (idup ip) (λ ip' f', ip' = ip ∧ holds (ld_add ip 1 l) f') f.
Proof.
  intros Hl Hip. unfold idup. eapply wlp_seq; [exact (led_addref _ f ip 1 Hl Hip)|]. cbv beta. by intros _ f1 H1.
Qed.

Lemma led_ialloc l f dev type : holds l f →
  wlp (ialloc dev type) (λ ip f', (ip < NINODE)%nat ∧ holds (ld_add ip 1 l) f') f.
Proof.
  intros Hl. unfold ialloc. led_keep. intros sb f1 H1.
  eapply (wlp_seq _ _ (λ r f', match r with Some ip => (ip < NINODE)%nat ∧ holds (ld_add ip 1 l) f' | None => holds l f' end)).
  2: { by intros [ip|] f2 H2. }
  apply (wlp_for_until (holds l)); [done| |done]. clear f f1 Hl H1. intros inum f Hl.
  led_keep. intros b f1 H1. led_keep. intros d f2 H2. destruct (_ =? 0).
  - led_keep. intros _ f3 H3. led led_iget. by intros ip f4 H4.
  - led_keep. by intros _ f3 H3.
Qed.

Lemma skipelem_shrinks path name path' name' :
  skipelem path name = Some (path', name') → (length path' < length path)%nat.
Proof.
  unfold skipelem. destruct (skip_slashes path) as [|c rest] eqn:E; [done|].
  pose proof (length_skip_slashes path) as H1. rewrite E in H1. pose proof (skip_slashes_hd _ _ _ E) as Hc.
  destruct (span_elem (c :: rest)) as [s1 r1] eqn:E1. cbn zeta beta. intros [= <- _].
  pose proof (length_skip_slashes r1) as H2. simpl in E1. rewrite (proj2 (Z.eqb_neq c 47) Hc) in E1.
  destruct (span_elem rest) as [s2 r2] eqn:E2. injection E1 as _ <-.
  apply span_elem_spec in E2 as [-> _]. simpl in H1. rewrite length_app in H1. lia.
Qed.

Lemma bind_ext {S A B} (m : M S A) (k k' : A → M S B) s :
  (∀ a s', k a s' = k' a s') → (m ≫= k) s = (m ≫= k') s.
Proof. intros H. unfold mbind, M_bind. by destruct (m s). Qed.

(** The walk along a path does not depend on the fuel: every round takes an element. *)
Lemma namex_loop_fuel n m b ip path name f :
  (length path < n)%nat → (length path < m)%nat →
  namex_loop devsw_read n b ip path name f = namex_loop devsw_read m b ip path name f.
Proof.
  revert m ip path name f. induction n as [|n IH]; intros [|m] ip path name f Hn Hm; try lia. cbn [namex_loop].
  destruct (skipelem path name) as [[path' name']|] eqn:E; [|done]. apply skipelem_shrinks in E.
  apply bind_ext. intros _ f1. apply bind_ext. intros i f2. destruct (negb _); [done|]. destruct (b && _); [done|].
  apply bind_ext. intros [[next off]|] f3; [|done]. apply bind_ext. intros _ f4. apply IH; lia.
Qed.

Lemma led_namex_loop fuel b ip path name : ∀ l f, holds (ld_add ip 1 l) f → (ip < NINODE)%nat →
  wlp (namex_loop devsw_read fuel b ip path name) (found l) f.
Proof.
  revert ip path name. induction fuel as [|fuel IH]; intros ip path name l f Hl Hip; cbn [namex_loop]; [done|].
  destruct (skipelem path name) as [[path' name']|].
  - led led_ilock. intros _ f1 [H0 H1]. led_keep. intros i f2 H2. destruct (negb _).
    { led led_iunlockput. intros _ f3 H3. unfold wlp, mret, M_ret, found. led_eq. }
    destruct (b && _).
    { led led_iunlock. intros _ f3 H3. unfold wlp, mret, M_ret, found. split; [done|]. led_eq. }
    led led_dirlookup. intros [[next off]|] f3 H3; simpl in H3.
    + destruct H3 as [Hn H3]. led led_iunlockput. intros _ f4 H4. apply IH; [|done]. led_eq.
    + led led_iunlockput. intros _ f4 H4. unfold wlp, mret, M_ret, found. led_eq.
  - destruct b; [|by unfold wlp, mret, M_ret, found].
    led led_iput. intros _ f1 H1. unfold wlp, mret, M_ret, found. led_eq.
Qed.

Lemma led_namex l f path b name : holds l f → (ld_cwd l < NINODE)%nat →
  wlp (namex devsw_read path b name) (found l) f.
Proof.
  intros Hl Hc. unfold namex. destruct (_ =? 47).
  - led led_iget. intros ip f1 [H0 H1]. by apply led_namex_loop.
  - eapply (wlp_seq _ _ (λ ip f', (ip < NINODE)%nat ∧ holds (ld_add ip 1 l) f')).
    2: { intros ip f1 [H0 H1]. by apply led_namex_loop. }
    apply wlp_bind. unfold gets, wlp at 1. rewrite (ho_cwd _ _ Hl).
    eapply wlp_mono; [by apply led_idup|]. by intros ? f1 [-> H1].
Qed.

Lemma led_namei l f path : holds l f → (ld_cwd l < NINODE)%nat →
  wlp (namei devsw_read path) (λ r f', match r with Some ip => (ip < NINODE)%nat ∧ holds (ld_add ip 1 l) f' | None => holds l f' end) f.
Proof.
  intros Hl Hc. unfold namei. led led_namex. by intros [[ip name]|] f1 H1.
Qed.

(** ** The system calls *)

Lemma snap_nlink_add ip n : same snap (nlink_add ip n).
Proof. apply snap_upd_d. Qed.
#[local] Hint Resolve snap_nlink_add : same.

(** A part of a system call that leaves the ledger as it was. *)
Definition balanced {A} (m : M (fsst K) A) : Prop :=
  ∀ l f, holds l f → (ld_cwd l < NINODE)%nat → wlp m (λ _ f', holds l f') f.

Lemma led_link_bad l f ip : holds (ld_open 1 (ld_add ip 1 l)) f → (ip < NINODE)%nat →
  wlp (link_bad ip) (λ _ f', holds l f') f.
Proof.
  intros Hl Hip. unfold link_bad. led led_ilock. intros _ f1 [H0 H1]. led_keep. intros _ f2 H2.
  led_keep. intros _ f3 H3. led led_iunlockput. intros _ f4 H4. led led_end. intros _ f5 H5.
  unfold wlp, mret, M_ret. led_eq.
Qed.

Lemma led_link_op old new : balanced (link_op devsw_read devsw_write name0 old new).
Proof.
  intros l f Hl Hc. unfold link_op. led led_begin. intros _ f1 H1. led led_namei. intros [ip|] f2 H2.
  2: { led led_end. intros _ f3 H3. unfold wlp, mret, M_ret. led_eq. }
  destruct H2 as [Hip H2]. led led_ilock. intros _ f3 [H0 H3]. led_keep. intros i f4 H4. destruct (_ =? T_DIR).
  { led led_iunlockput. intros _ f5 H5. led led_end. intros _ f6 H6. unfold wlp, mret, M_ret. led_eq. }
  led_keep. intros _ f5 H5. led_keep. intros _ f6 H6. led led_iunlock. intros _ f7 H7.
  led led_namex. intros [[dp name]|] f8 H8; simpl in H8.
  2: { apply led_link_bad; [led_eq|done]. }
  destruct H8 as [Hdp H8]. led led_ilock. intros _ f9 [H9 H10]. led_keep. intros d f10 H11. led_keep. intros i' f11 H12.
  eapply led_seq.
  { destruct (negb _); [unfold wlp, mret, M_ret; exact H12|by apply led_dirlink]. }
  cbv beta. intros r f12 H13. destruct (r <? 0).
  - led led_iunlockput. intros _ f13 H14. apply led_link_bad; [led_eq|done].
  - led led_iunlockput. intros _ f13 H14. led led_iput. intros _ f14 H15. led led_end. intros _ f15 H16.
    unfold wlp, mret, M_ret. led_eq.
Qed.

Lemma led_unlink_bad l f dp : holds (ld_hold dp true (ld_open 1 (ld_add dp 1 l))) f → (dp < NINODE)%nat →
  ld_lock l dp = false → wlp (unlink_bad dp) (λ _ f', holds l f') f.
Proof.
  intros Hl Hip H0. unfold unlink_bad. led led_iunlockput. intros _ f1 H1. led led_end. intros _ f2 H2.
  unfold wlp, mret, M_ret. led_eq.
Qed.

Lemma led_unlink_op path : balanced (unlink_op devsw_read devsw_write name0 path).
Proof.
  intros l f Hl Hc. unfold unlink_op. led led_begin. intros _ f1 H1. led led_namex. intros [[dp name]|] f2 H2; simpl in H2.
  2: { led led_end. intros _ f3 H3. unfold wlp, mret, M_ret. led_eq. }
  destruct H2 as [Hdp H2]. led led_ilock. intros _ f3 [H0 H3]. simpl in H0.
  destruct (_ || _); [apply led_unlink_bad; [led_eq|done..]|].
  led led_dirlookup. intros [[ip off]|] f4 H4; simpl in H4; [|apply led_unlink_bad; [led_eq|done..]].
  destruct H4 as [Hip H4]. led led_ilock. intros _ f5 [H5 H6]. led_keep. intros i f6 H7. led_keep. intros _ f7 H8.
  eapply led_seq.
  { eapply keep; [|exact H8]. destruct (_ =? T_DIR); [apply snap_isdirempty|apply same_ret]. }
  cbv beta. intros e f8 H9. destruct (negb e).
  { led led_iunlockput. intros _ f9 H10. apply led_unlink_bad; [led_eq|done..]. }
  led_keep. intros r f9 H10. led_keep. intros _ f10 H11. led_keep. intros i' f11 H12. led_keep. intros _ f12 H13.
  led led_iunlockput. intros _ f13 H14. led_keep. intros _ f14 H15. led_keep. intros _ f15 H16.
  led led_iunlockput. intros _ f16 H17. led led_end. intros _ f17 H18. unfold wlp, mret, M_ret. led_eq.
Qed.

(** create and the start of sys_open return an inode that is locked and referenced. *)
Definition got l (r : option nat) f : Prop :=
  match r with
  | Some ip => (ip < NINODE)%nat ∧ ld_lock l ip = false ∧ holds (ld_hold ip true (ld_add ip 1 l)) f
  | None => holds l f
  end.

Lemma led_create l f path type major minor : holds l f → (ld_cwd l < NINODE)%nat →
  wlp (create devsw_read devsw_write name0 path type major minor) (got l) f.
Proof.
  intros Hl Hc. unfold create. led led_namex. intros [[dp name]|] f1 H1; simpl in H1; [|done].
  destruct H1 as [Hdp H1]. led led_ilock. intros _ f2 [H0 H2]. simpl in H0.
  led led_dirlookup. intros [[ip off]|] f3 H3; simpl in H3.
  - destruct H3 as [Hip H3]. led led_iunlockput. intros _ f4 H4. led led_ilock. intros _ f5 [H5 H6].
    led_keep. intros i f6 H7. destruct (_ && _).
    + unfold wlp, mret, M_ret, got. split_and!; [done| |led_eq].
      simpl in H5. unfold fupd in H5. case_decide; [by subst|done].
    + led led_iunlockput. intros _ f7 H8. unfold wlp, mret, M_ret, got. led_eq.
  - led_keep. intros d f4 H4. led led_ialloc. intros ip f5 [Hip H5]. led led_ilock. intros _ f6 [H6 H7].
    simpl in H6. unfold fupd in H6. case_decide as Hne; [done|].
    led_keep. intros _ f7 H8. led_keep. intros _ f8 H9. led_keep. intros _ f9 H10.
    eapply led_seq.
    { destruct (type =? T_DIR); [|unfold wlp, mret, M_ret; exact H10].
      led_keep. intros _ f10 H11. led_keep. intros _ f11 H12. led_keep. intros i f12 H13.
      led led_dirlink. intros r f13 H14. led_keep. intros _ f14 H15. led_keep. intros d' f15 H16.
      led led_dirlink. intros r' f16 H17. eapply keep; [|exact H17]. kk. }
    cbv beta. intros _ f10 H11. led_keep. intros i f11 H12. led led_dirlink. intros r f12 H13. led_keep. intros _ f13 H14.
    led led_iunlockput. intros _ f14 H15. unfold wlp, mret, M_ret, got. split_and!; [done|done|led_eq].
Qed.

Lemma led_open_inode l f path omode : holds l f → (ld_cwd l < NINODE)%nat →
  wlp (open_inode devsw_read devsw_write name0 path omode) (got l) f.
Proof.
  intros Hl Hc. unfold open_inode. destruct (negb _); [by apply led_create|].
  led led_namei. intros [ip|] f1 H1; [|done]. destruct H1 as [Hip H1]. led led_ilock. intros _ f2 [H2 H3].
  led_keep. intros i f3 H4. destruct (_ && _).
  - led led_iunlockput. intros _ f4 H5. unfold wlp, mret, M_ret, got. led_eq.
  - by unfold wlp, mret, M_ret, got.
Qed.

(** *** In the state of the process *)

Abbreviation pst := (fdst (fsenv K)).
Definition fs_of (s : pst) : fsst K := en_fs (fenv (fd_files s)).
Definition with_fs f (s : pst) : pst :=
  Fdst (fd_ofile s) (fd_view s) (Filest (ftable (fd_files s)) (pipes (fd_files s)) (FsEnv f (en_km (fenv (fd_files s))))).

(** The descriptors and the open files are as before. *)
Definition fds_same (s s' : pst) : Prop := fd_ofile s' = fd_ofile s ∧ ftable (fd_files s') = ftable (fd_files s).
Definition keeps_all l s s' : Prop := holds l (fs_of s') ∧ fds_same s s'.

Lemma wlp_sf {A} (m : M (fsst K) A) (P : A → pst → Prop) s :
  wlp m (λ a f', P a (with_fs f' s)) (fs_of s) → wlp (sf m) P s.
Proof. unfold wlp, sf, ff, fe, infs, zoom, fs_of. destruct (m (en_fs (fenv (fd_files s)))); try done. Qed.

Lemma wlp_sf_seq {A B} (m : M (fsst K) A) (k : A → M pst B) (P : A → fsst K → Prop) Q s0 s :
  fds_same s0 s → wlp m P (fs_of s) → (∀ a s', fds_same s0 s' → fd_view s' = fd_view s → P a (fs_of s') → wlp (k a) Q s') →
  wlp (sf m ≫= k) Q s.
Proof.
  intros Hs Hm Hk. apply wlp_bind, wlp_sf. eapply wlp_mono; [exact Hm|]. cbv beta. intros a f' H. by apply Hk.
Qed.

Lemma wlp_sf_last {A} (m : M (fsst K) A) l s0 s :
  fds_same s0 s → wlp m (λ _ f', holds l f') (fs_of s) → wlp (sf m) (λ _ s', keeps_all l s0 s') s.
Proof. intros Hs Hm. apply wlp_sf. eapply wlp_mono; [exact Hm|]. by intros a f' H. Qed.

#[local] Tactic Notation "sys" uconstr(rule) := eapply wlp_sf_seq; [eassumption|by eapply rule|cbv beta].

Lemma sys_done l s0 s (r : Z) : fds_same s0 s → holds (ld_open (-1) (ld_open 1 l)) (fs_of s) →
  wlp (mret r) (λ _ s', keeps_all l s0 s') s.
Proof. intros Hs Hl. unfold wlp, mret, M_ret. split; [led_eq|done]. Qed.

Lemma wlp_run {S A B} (m : M S A) (k : A → M S B) (Q : B → S → Prop) s a s1 :
  m s = Ok a s1 → wlp (k a) Q s1 → wlp (m ≫= k) Q s.
Proof. intros H1 Hk. apply wlp_bind. unfold wlp at 1. by rewrite H1. Qed.

Lemma arg_path_run n (s : pst) : ∃ p, arg_path n s = Ok p s.
Proof. eexists. reflexivity. Qed.

(** The calls that make a node: mkdir and mknod. *)
Lemma led_make l s0 s (m : M (fsst K) (option nat)) : fds_same s0 s →
  wlp m (got (ld_open 1 l)) (fs_of s) →
  wlp (ip ← sf m; match ip with
                  | None => sf fs_end_op;; mret (-1)
                  | Some ip => sf (iunlockput ip);; sf fs_end_op;; mret 0
                  end) (λ _ s', keeps_all l s0 s') s.
Proof.
  intros Hs Hm. eapply wlp_sf_seq; [done|exact Hm|]. intros [ip|] s1 Hs1 _ H1; simpl in H1.
  - destruct H1 as (Hip & H0 & H1). sys led_iunlockput. intros _ s2 Hs2 _ H2. sys led_end. intros _ s3 Hs3 _ H3.
    apply sys_done; [done|]. led_eq.
  - sys led_end. intros _ s2 Hs2 _ H2. by apply sys_done.
Qed.

(** C14. The calls that change directories give back what they take: on every path on
    which link, unlink, mkdir or mknod returns, with success or with an error, the
    same inodes are locked as before, every cached inode has as many references as
    before, no file-system operation is left open, and the descriptors and open
    files are untouched. *)
Theorem path_calls_balanced l s c :
  holds l (fs_of s) → (ld_cwd l < NINODE)%nat →
  c ∈ [sys_link devsw_read devsw_write name0; sys_unlink devsw_read devsw_write name0;
       sys_mkdir devsw_read devsw_write name0; sys_mknod devsw_read devsw_write name0] →
  wlp c (λ _ s', keeps_all l s s') s.
Proof.
  intros Hl Hc Hin. assert (fds_same s s) as Hs by done.
  repeat (apply elem_of_cons in Hin as [->|Hin]); [..|by apply elem_of_nil in Hin].
  - unfold sys_link. destruct (arg_path_run 0 s) as [old H0]. eapply wlp_run; [exact H0|].
    destruct (arg_path_run 1 s) as [new H1]. eapply wlp_run; [exact H1|].
    destruct old as [old|], new as [new|]; try done. by apply wlp_sf_last, led_link_op.
  - unfold sys_unlink. destruct (arg_path_run 0 s) as [old H0]. eapply wlp_run; [exact H0|].
    destruct old as [old|]; try done. by apply wlp_sf_last, led_unlink_op.
  - unfold sys_mkdir. sys led_begin. intros _ s1 Hs1 _ H1.
    destruct (arg_path_run 0 s1) as [p H0]. eapply wlp_run; [exact H0|].
    destruct p as [p|]; [by apply led_make; [|apply led_create]|].
    sys led_end. intros _ s2 Hs2 _ H2. by apply sys_done.
  - unfold sys_mknod. sys led_begin. intros _ s1 Hs1 _ H1.
    destruct (arg_path_run 0 s1) as [p H0]. eapply wlp_run; [exact H0|]. unfold arg.
    do 2 (eapply wlp_run; [reflexivity|]).
    destruct p as [p|], (argint (fd_view s1) 1), (argint (fd_view s1) 2);
      [by apply led_make; [|apply led_create]|..];
      sys led_end; intros _ s2 Hs2 _ H2; by apply sys_done.
Qed.

Lemma holds_cwd l f ip : holds l f → holds (ld_dir ip l) (set_cwd ip f).
Proof. by intros [H1 H2 H3 H4 H5]. Qed.

Lemma led_chdir l s : holds l (fs_of s) → (ld_cwd l < NINODE)%nat →
  wlp (sys_chdir devsw_read) (λ r s', fds_same s s' ∧
    if r =? 0 then ∃ ip, (ip < NINODE)%nat ∧ holds (ld_dir ip (ld_add (ld_cwd l) (-1) (ld_add ip 1 l))) (fs_of s')
    else holds l (fs_of s')) s.
Proof.
  intros Hl Hc. unfold sys_chdir. assert (fds_same s s) as Hs by done. sys led_begin. intros _ s1 Hs1 _ H1.
  destruct (arg_path_run 0 s1) as [p H0]. eapply wlp_run; [exact H0|].
  destruct p as [p|].
  2: { sys led_end. intros _ s2 Hs2 _ H2. split; [done|]. simpl. led_eq. }
  sys led_namei. intros [ip|] s2 Hs2 _ H2; [destruct H2 as [Hip H2]|].
  2: { sys led_end. intros _ s3 Hs3 _ H3. split; [done|]. simpl. led_eq. }
  sys led_ilock. intros _ s3 Hs3 _ [H3 H4]. eapply wlp_sf_seq; [eassumption|eapply keep; [apply same_gets|eassumption]|cbv beta].
  intros i s4 Hs4 _ H5. destruct (negb _).
  { sys led_iunlockput. intros _ s5 Hs5 _ H6. sys led_end. intros _ s6 Hs6 _ H7. split; [done|]. simpl. led_eq. }
  sys led_iunlock. intros _ s5 Hs5 _ H6. eapply wlp_run; [reflexivity|].
  change (en_fs (fenv (fd_files s5))) with (fs_of s5). rewrite (ho_cwd _ _ H6). simpl.
  sys led_iput. intros _ s6 Hs6 _ H7. sys led_end. intros _ s7 Hs7 _ H8.
  eapply wlp_run; [reflexivity|]. split; [done|]. exists ip. split; [done|].
  apply (holds_cwd _ _ ip) in H8. led_eq.
Qed.

(** sys_open once it has the inode, the file and the descriptor. *)
Lemma led_open_file l s ip fd fi (g : file → file) :
  (ip < NINODE)%nat → ld_lock l ip = false →
  holds (ld_hold ip true (ld_add ip 1 (ld_open 1 l))) (fs_of s) →
  wlp (sf (iunlock ip);; sf fs_end_op;; ff (upd_file fi g);; mret (Z.of_nat fd)) (λ r s',
    r = Z.of_nat fd ∧ fd_ofile s' = fd_ofile s ∧ holds (ld_add ip 1 l) (fs_of s') ∧
    ftable (fd_files s') = alter g fi (ftable (fd_files s))) s.
Proof.
  intros Hip H0 Hl. assert (fds_same s s) as Hss by done.
  sys led_iunlock. intros _ s1 Hs1 _ H1. sys led_end. intros _ s2 [Ho2 Ht2] _ H2.
  eapply wlp_run; [reflexivity|]. unfold wlp, mret, M_ret. cbn [fd_ofile fd_files put_files ftable].
  split_and!; [done|done| |by rewrite Ht2].
  change (holds (ld_add ip 1 l) (fs_of s2)). led_eq.
Qed.

(** C24. chdir moves the reference that the current directory holds to the new
    directory; open leaves one reference, in the new open file, to the inode it
    opens. When either fails it gives back everything, the file and the descriptor
    included. Neither leaves a lock held or an operation open. *)
Theorem open_chdir_balanced kend others l s :
  let H := fs_env devsw_read devsw_write kend in
  fds_ok others s → holds l (fs_of s) → (ld_cwd l < NINODE)%nat →
  wlp (sys_chdir devsw_read) (λ r s', fds_same s s' ∧
    if r =? 0 then ∃ ip, (ip < NINODE)%nat ∧ holds (ld_dir ip (ld_add (ld_cwd l) (-1) (ld_add ip 1 l))) (fs_of s')
    else holds l (fs_of s')) s ∧
  wlp (sys_open devsw_read devsw_write kend name0) (λ r s',
    (r = -1 ∧ keeps_all l s s') ∨
    ∃ fd fi ip, r = Z.of_nat fd ∧ (ip < NINODE)%nat ∧ holds (ld_add ip 1 l) (fs_of s') ∧
      fd_ofile s !! fd = Some None ∧ fd_ofile s' = <[fd := Some fi]> (fd_ofile s) ∧
      f_type (file_of fi (fd_files s')) = FD_INODE ∧ f_ip (file_of fi (fd_files s')) = ip ∧
      f_ref (file_of fi (fd_files s')) = 1 ∧ f_off (file_of fi (fd_files s')) = 0 ∧
      (∀ g, g ≠ fi → file_of g (fd_files s') = file_of g (fd_files s))) s.
Proof.
  intros H Hk Hl Hc. split; [by apply led_chdir|]. unfold sys_open. assert (fds_same s s) as Hs by done.
  destruct (arg_path_run 0 s) as [p H0]. eapply wlp_run; [exact H0|]. unfold arg. eapply wlp_run; [reflexivity|].
  destruct p as [p|], (argint (fd_view s) 1) as [omode|]; try (left; done).
  sys led_begin. intros _ s1 Hs1 _ H1. sys led_open_inode. intros [ip|] s2 Hs2 _ H2; simpl in H2.
  2: { sys led_end. intros _ s3 Hs3 _ H3. left. split; [done|]. split; [led_eq|done]. }
  destruct H2 as (Hip & Hlk & H2). set (h := λ g : nat, others g + refs (fd_ofile s) g).
  assert (files_ok h (fd_files s2)) as Ho by (eapply files_ok_ext; [done|apply Hs2|apply Hk]).
  destruct (filealloc_run h (fd_files s2) Ho) as (r & t & Hr & Hfa).
  eapply wlp_run; [exact (ff_run _ s2 _ t Hr)|]. destruct r as [fi|].
  2: { destruct Hfa as [-> _]. eapply wlp_run; [reflexivity|]. eapply wlp_run; [reflexivity|].
    eapply (wlp_sf_seq _ _ _ _ s); [exact Hs2|by apply led_iunlockput|cbv beta]. intros _ s3 Hs3 _ H3.
    sys led_end. intros _ s4 Hs4 _ H4. left. split; [done|]. split; [led_eq|done]. }
  destruct Hfa as (Hfi & Hh & Ho3 & Ht). set (s3 := put_files t s2).
  assert (fs_of s3 = fs_of s2) as Hf3 by (by unfold s3, fs_of; simpl; rewrite Ht).
  destruct (fdalloc_run fi s3) as (r & s4 & H3 & Hfd). eapply wlp_run; [exact H3|]. destruct r as [fd|].
  - destruct Hfd as (Hnew & _ & ->). eapply wlp_mono.
    { apply (led_open_file l); [done|done|].
      change (holds (ld_hold ip true (ld_add ip 1 (ld_open 1 l))) (fs_of s3)). by rewrite Hf3. }
    cbv beta. intros r s' (-> & Ho' & Hl' & Ht'). right. exists fd, fi, ip.
    destruct Hs2 as [Hof Hft]. rewrite Ho'. change (fd_ofile s3) with (fd_ofile s2) in *. rewrite Hof in *.
    change (fd_files s3) with t in *. simpl in Ht'.
    assert (∀ g, file_of g (fd_files s') =
      if decide (g = fi) then open_file omode ip (set_ref 1 (file_of fi (fd_files s))) else file_of g (fd_files s)) as Hfo.
    { intros g. unfold file_of. rewrite Ht', Ht, <-Hft. simpl. case_decide; subst.
      - rewrite !list_lookup_total_alter_eq; [done|rewrite (fo_len _ _ Ho); done|].
        by rewrite length_alter, (fo_len _ _ Ho).
      - by rewrite !list_lookup_total_alter_ne. }
    split_and!; try done; intros; rewrite Hfo; [by rewrite decide_True..|by rewrite decide_False].
  - destruct Hfd as [-> _]. eapply wlp_run.
    { apply ff_run. exact (fileclose_fresh h (fd_files s2) fi t Ho Hfi Hh ltac:(by rewrite Ht) Ho3). }
    set (s5 := put_files _ s3). assert (fds_same s s5) as Hs5 by exact Hs2.
    assert (holds (ld_hold ip true (ld_add ip 1 (ld_open 1 l))) (fs_of s5)) as H5.
    { unfold s5, fs_of. simpl. by rewrite Ht. }
    sys led_iunlockput. intros _ s6 Hs6 _ H6.
    sys led_end. intros _ s7 Hs7 _ H7. left. split; [done|]. split; [led_eq|done].
Qed.
End ledger.
