(* ===== verification/SyspathRun.v ===== *)
(** * System calls on paths: runs on a small file system

    The block layer is a map from block numbers to blocks, where the buffer of a
    block is the block's number; the disk is the one of FsRun. *)

From S2P Require Import Prelude Cstring Kalloc Sleeplock Disk Log Blocks Fs FsSpec FsRun Pipe File FileSpec.
From S2P Require Import Syscall Sysfile Syspath SyspathSpec.

Record ram := Ram { ram_block : gmap Z block; ram_ops : Z }.
Definition ram_get (n : Z) (r : ram) : block := default zero_block (ram_block r !! n).

#[local] Instance ram_layer : BlockLayer ram := {
  bl_dev := 1;
  bl_bread := λ _ n, mret (Z.to_nat n);
  bl_data := λ b, ram_get (Z.of_nat b);
  bl_upd := λ b g, modify (λ r, Ram (<[Z.of_nat b := g (ram_get (Z.of_nat b) r)]> (ram_block r)) (ram_ops r));
  bl_log_write := λ _, mret tt;
  bl_brelse := λ _, mret tt;
  bl_begin_op := modify (λ r, Ram (ram_block r) (ram_ops r + 1));
  bl_end_op := modify (λ r, Ram (ram_block r) (ram_ops r - 1));
  bl_inv := λ _, True;
  bl_view := λ r n, ram_get n r;
  bl_held := λ _, [];
  bl_logged := λ _, [];
  bl_block := λ _ n, 0 <= n;
  bl_open := λ r, 0 < ram_ops r;
  bl_stable := λ _ _, True;
  bl_bufs := 30;
  bl_cap := λ _, 30%nat
}.
#[local] Instance ram_tx : TxLayer ram.
Proof. by refine {| tx_depth := ram_ops |}. Defined.

(** The process has the path /b at 16 and the path a at 32; its first argument
    is the address [p], its second [q]. *)
Definition path_view (p q : Z) : uview :=
  UView (λ x, if x =? 8176 then p else if x =? 8180 then q
              else if x =? 16 then 47 else if x =? 17 then 98 else if x =? 32 then 97 else 0) 8192 8172.

(** The root directory is the current directory, in entry 0 of the cache. *)
Definition root_cache : list inode := Inode 1 1 1 initsleeplock false (i_d inode0) :: replicate 49 inode0.
Definition path_state (u : uview) : fdst (fsenv ram) :=
  Fdst (replicate 16 None) u
    (Filest (replicate 100 file0) ∅ (FsEnv (FsSt (Ram (Memide.memdisk fs_disk) 0) sb_ex root_cache 5 0) (KmSt (λ _, 0) true 0))).
Definition root_led : led := Led (λ _, false) (λ ip, if decide (ip = 0%nat) then 1 else 0) 0 0.

Definition no_devs {A B} (major : Z) : option (nat → A → M (fsst ram) B) := None.

(** What a call returned, and the names in the root directory after it. *)
Definition names (s : fdst (fsenv ram)) : list (Z * list Z) :=
  let d := content (λ n, ram_get n (fs_k (fs_of s))) (dinode_at sb_ex (λ n, ram_get n (fs_k (fs_of s))) 1) in
  (λ j, let e := d <$> seqZ (16 * j) 16 in (de_inum e, upto_nul (de_name e))) <$>
    seqZ 0 (d_size (dinode_at sb_ex (λ n, ram_get n (fs_k (fs_of s))) 1) / 16).
Definition result (o : outcome (fdst (fsenv ram)) Z) : option (Z * list (Z * list Z)) :=
  match o with Ok r s => Some (r, names s) | _ => None end.

Lemma mkdir_run : result (sys_mkdir no_devs no_devs (replicate 14 0) (path_state (path_view 16 0))) =
  Some (0, [(1, [46]); (2, [97]); (3, [98])]).
Proof. by vm_compute. Qed.
Lemma unlink_run : result (sys_unlink no_devs no_devs (replicate 14 0) (path_state (path_view 32 0))) =
  Some (0, [(1, [46]); (0, [])]).
Proof. by vm_compute. Qed.
Lemma link_run : result (sys_link no_devs no_devs (replicate 14 0) (path_state (path_view 32 16))) =
  Some (0, [(1, [46]); (2, [97]); (2, [98])]).
Proof. by vm_compute. Qed.
Lemma open_missing_run : result (sys_open no_devs no_devs 0 (replicate 14 0) (path_state (path_view 16 0))) =
  Some (-1, [(1, [46]); (2, [97])]).
Proof. by vm_compute. Qed.
Lemma open_create_run : result (sys_open no_devs no_devs 0 (replicate 14 0) (path_state (path_view 16 514))) =
  Some (0, [(1, [46]); (2, [97]); (3, [98])]).
Proof. by vm_compute. Qed.

(** ** The theorems on these runs *)

Lemma root_holds u : holds root_led (fs_of (path_state u)).
Proof.
  assert (∀ ip (f : fsst ram), (S ip < NINODE)%nat → fs_icache f = root_cache → inode_of (S ip) f = inode0) as Hi.
  { intros ip f Hip Hf. unfold inode_of. rewrite Hf. apply lookup_total_replicate_2. unfold NINODE in Hip. lia. }
  split; [done|..|done|done]; intros [|ip] Hip; [done| |done|]; by rewrite Hi.
Qed.

Lemma path_fds_ok u : fds_ok (λ _, 0) (path_state u).
Proof.
  assert (∀ f, (f < NFILE)%nat → file_of f (fd_files (path_state u)) = file0) as Hf.
  { intros f Hf. by apply lookup_total_replicate_2. }
  split; [done| |done|].
  - split; [done|..]; intros f Hlt; rewrite Hf by done; done.
  - intros f Hin. by apply elem_of_replicate in Hin as [? _].
Qed.

Lemma wlp_returns {S A} (m : M S A) P s : wlp m P s → (if m s is Ok _ _ then true else false) = true →
  ∃ a s', m s = Ok a s' ∧ P a s'.
Proof. unfold wlp. destruct (m s) as [a s'| | |]; try done. intros H _. by exists a, s'. Qed.

Lemma path_calls_balanced_witness : ∃ r s',
  sys_unlink no_devs no_devs (replicate 14 0) (path_state (path_view 32 0)) = Ok r s' ∧ holds root_led (fs_of s').
Proof.
  destruct (wlp_returns _ _ _ (path_calls_balanced no_devs no_devs (replicate 14 0) ltac:(done) ltac:(done) root_led
    (path_state (path_view 32 0)) (sys_unlink no_devs no_devs (replicate 14 0)) (root_holds _)
    ltac:(simpl; unfold NINODE; lia) ltac:(apply list_elem_of_further, list_elem_of_here))) as (r & s' & H & Hl & _);
    [by vm_compute|].
  exists r, s'. by split.
Defined.

Lemma open_chdir_balanced_witness : ∃ r s',
  sys_open no_devs no_devs 0 (replicate 14 0) (path_state (path_view 32 0)) = Ok r s' ∧
    (r = -1 ∨ ∃ ip, holds (ld_add ip 1 root_led) (fs_of s')).
Proof.
  destruct (wlp_returns _ _ _ (proj2 (open_chdir_balanced no_devs no_devs (replicate 14 0) ltac:(done) ltac:(done) 0 (λ _, 0) root_led
    (path_state (path_view 32 0)) (path_fds_ok _) (root_holds _) ltac:(simpl; unfold NINODE; lia)))) as (r & s' & H & Hl);
    [by vm_compute|].
  exists r, s'. split; [exact H|]. destruct Hl as [[-> _]|(fd & fi & ip & _ & _ & Hl & _)]; [by left|right].
  by exists ip.
Defined.
