(* ===== verification/Exec.v ===== *)
(** * Running programs (exec.c) and the kernel put together

    [kenv] is the kernel below the process table: the open files over the file
    system and the page allocator, and the processor's registers. [kernel_env]
    makes it the environment of proc.c, each operation with the routine of the
    component that has it. exec works in the state of both. *)

From S2P Require Import Prelude Cstring Kalloc Vm Disk Log Blocks Fs Pipe File Spinlock Proc Syscall Sysfile Syspath.

(** The task's kernel stack, cr3, and the scheduler's page table. *)
Record kenv (K : Type) := KEnv { ke_files : filest (fsenv K); ke_esp0 : Z; ke_cr3 : Z; ke_kpgdir : Z }.
Arguments KEnv {K} _ _ _ _.
Arguments ke_files {K} _.
Arguments ke_esp0 {K} _.
Arguments ke_cr3 {K} _.
Arguments ke_kpgdir {K} _.

(** struct elfhdr and struct proghdr, the fields that exec reads. *)
Record elfhdr := Elfhdr { e_magic : Z; e_entry : Z; e_phoff : Z; e_phnum : Z }.
Record proghdr := Proghdr { ph_type : Z; ph_off : Z; ph_vaddr : Z; ph_filesz : Z; ph_memsz : Z }.
Definition uint_at (b : list Z) (off : nat) : Z := u32 (getw 4 b off).
Definition elf_of (b : list Z) : elfhdr := Elfhdr (uint_at b 0) (uint_at b 24) (uint_at b 28) (u16 (getw 2 b 44)).
Definition ph_of (b : list Z) : proghdr :=
  Proghdr (uint_at b 0) (uint_at b 4) (uint_at b 8) (uint_at b 16) (uint_at b 20).
Definition ELF_MAGIC : Z := 0x464C457F.
Definition ELF_PROG_LOAD : Z := 1.

(** *** The argument stack *)

(** strlen of a user's string, which is shorter than the user's memory. *)
Definition user_strlen (m : mem) (s : Z) : option Z := Kernel.strlen (Z.to_nat KERNBASE) m s.

(** The loop over argv; [ustack] is the array on the kernel's stack. The result is
    argc and sp, or None for goto bad. *)
Fixpoint push_args (pgdir ustack : Z) (argv : list Z) (argc sp : Z) : M kmst (option (Z * Z)) :=
  match argv with
  | [] => mret (Some (argc, sp))
  | a :: argv =>
      if Z.of_nat MAXARG <=? argc then mret None
      else
        n ← gets (λ k, user_strlen (km_mem k) a);
        match n with
        | None => no_fuel
        | Some n =>
            let sp := Z.land (u32 (sp - (n + 1))) (Z.lnot 3) in
            r ← copyout pgdir sp a (u32 (n + 1));
            if r <? 0 then mret None
            else
              wr32 (ustack + 4 * (3 + argc)) sp;;
              push_args pgdir ustack argv (argc + 1) sp
        end
  end.

(** Push argument strings, prepare rest of stack in ustack: the new sp. *)
Definition exec_stack (pgdir ustack : Z) (argv : list Z) (sz : Z) : M kmst (option Z) :=
  r ← push_args pgdir ustack argv 0 sz;
  match r with
  | None => mret None
  | Some (argc, sp) =>
      wr32 (ustack + 4 * (3 + argc)) 0;;
      wr32 ustack 0xffffffff;;
      wr32 (ustack + 4) argc;;
      wr32 (ustack + 8) (u32 (sp - (argc + 1) * 4));;
      let sp := u32 (sp - (3 + argc + 1) * 4) in
      r ← copyout pgdir sp ustack ((3 + argc + 1) * 4);
      if r <? 0 then mret None else mret (Some sp)
  end.

(** for(last=s=path; *s; s++): what follows the last slash. *)
Fixpoint last_elem (path last : list Z) : list Z :=
  match path with
  | [] => last
  | s :: rest => if s =? 47 then last_elem rest rest else last_elem rest last
  end.

Definition set_eip_esp (eip esp : Z) (t : trapframe) : trapframe :=
  Trapframe (tf_eax t) (tf_cs t) (tf_ds t) (tf_es t) (tf_ss t) (tf_eflags t) esp eip (tf_regs t) (tf_trapno t).

Section exec.
Context {K : Type} `{!BlockLayer K}.
Context (devsw_read : Z → option (nat → Z → M (fsst K) (Z * list Z))).
Context (devsw_write : Z → option (nat → list Z → M (fsst K) Z)).
(** The linker's symbols end and data, the linked-in initcode, and initlog. *)
Context (kend kdata : Z) (initcode initsize : Z) (initlog : M K unit).
(** The CPU, and where the array ustack is on the process's kernel stack. *)
Context (c : nat) (ustack : Z).

(** A part of the kernel run in the whole of it. *)
Definition put_files (t : filest (fsenv K)) (e : kenv K) : kenv K := KEnv t (ke_esp0 e) (ke_cr3 e) (ke_kpgdir e).
Definition kfiles {A} (m : M (filest (fsenv K)) A) : M (kenv K) A := zoom ke_files put_files m.
Definition kfs {A} (m : M (fsst K) A) : M (kenv K) A := kfiles (fe (infs m)).
Definition kmem {A} (m : M kmst A) : M (kenv K) A := kfiles (fe (inkm m)).

Definition kernel_env : ProcEnv (kenv K) := {|
  env_kalloc := kmem kalloc;
  env_kfree := λ v, kmem (kfree kend v);
  env_setupkvm := kmem (setupkvm kend kdata);
  env_inituvm := λ pgdir, kmem (inituvm pgdir initcode initsize);
  env_allocuvm := λ pgdir oldsz newsz, kmem (allocuvm kend pgdir oldsz newsz);
  env_deallocuvm := λ pgdir oldsz newsz, kmem (deallocuvm kend pgdir oldsz newsz);
  env_copyuvm := λ pgdir sz, kmem (copyuvm kend kdata pgdir sz);
  env_freevm := λ pgdir, kmem (freevm kend pgdir);
  env_ltr := λ esp0, modify (λ e, KEnv (ke_files e) esp0 (ke_cr3 e) (ke_kpgdir e));
  env_lcr3 := λ pgdir, modify (λ e, KEnv (ke_files e) (ke_esp0 e) (V2P pgdir) (ke_kpgdir e));
  env_kpgdir := ke_kpgdir;
  env_filedup := λ f, kfiles (filedup f);
  env_fileclose := λ f, let H := fs_env devsw_read devsw_write kend in kfiles (fileclose f);
  env_idup := λ ip, kfs (idup ip);
  env_iput := λ ip, kfs (iput ip);
  env_begin_op := kfs fs_begin_op;
  env_end_op := kfs fs_end_op;
  env_namei_root := kfs (namei devsw_read [47]);
  env_init := kfs (iinit ROOTDEV;; kk initlog)
|}.
#[local] Existing Instance kernel_env.

(** ** exec *)

Abbreviation X := (M (pst (kenv K))).

(** The code of exec after the label bad. *)
Definition exec_bad (pgdir : Z) (ip : option nat) : X Z :=
  (if negb (pgdir =? 0) then ee (kmem (freevm kend pgdir)) else mret tt);;
  match ip with
  | Some ip => ee (kfs (iunlockput ip));; ee (kfs fs_end_op)
  | None => mret tt
  end;;
  mret (-1).

(** readi of loaduvm: the bytes go to [dst]. *)
Definition read_to (ip : nat) (dst off n : Z) : X Z :=
  r ← ee (kfs (readi devsw_read ip off n));
  ee (kmem (on_mem (λ m, store_bytes m dst r.2)));;
  mret r.1.

(** The loop that loads the program; [n] headers are left. None is goto bad. *)
Fixpoint load_segments (n : nat) (pgdir : Z) (ip : nat) (off sz : Z) : X (option Z) :=
  match n with
  | O => mret (Some sz)
  | S n =>
      r ← ee (kfs (readi devsw_read ip off 32));
      if negb (r.1 =? 32) then mret None
      else
        let ph := ph_of r.2 in
        if negb (ph_type ph =? ELF_PROG_LOAD) then load_segments n pgdir ip (u32 (off + 32)) sz
        else if ph_memsz ph <? ph_filesz ph then mret None
        else if u32 (ph_vaddr ph + ph_memsz ph) <? ph_vaddr ph then mret None
        else
          sz ← ee (kmem (allocuvm kend pgdir sz (u32 (ph_vaddr ph + ph_memsz ph))));
          if sz =? 0 then mret None
          else if negb (ph_vaddr ph mod PGSIZE =? 0) then mret None
          else
            r ← loaduvm (λ A m, ee (kmem m)) (read_to ip) pgdir (ph_vaddr ph) (ph_off ph) (ph_filesz ph);
            if r <? 0 then mret None else load_segments n pgdir ip (u32 (off + 32)) sz
  end.

(** Two pages at the next page boundary, the first inaccessible, and the stack. *)
Definition exec_image (pgdir : Z) (argv : list Z) (sz : Z) : M kmst (option (Z * Z)) :=
  let sz := PGROUNDUP sz in
  sz ← allocuvm kend pgdir sz (u32 (sz + 2 * PGSIZE));
  if sz =? 0 then mret None
  else
    clearpteu pgdir (u32 (sz - 2 * PGSIZE));;
    r ← exec_stack pgdir ustack argv sz;
    mret (match r with Some sp => Some (sz, sp) | None => None end).

(** Commit to the user image. *)
Definition exec_commit (curproc : nat) (path : list Z) (pgdir sz entry sp : Z) : X Z :=
  upd_proc curproc (λ x, set_name (safe_name (last_elem path path) (p_name x)) x);;
  x ← gets (proc_of curproc);
  upd_proc curproc (λ x, set_tf (set_eip_esp entry sp (p_tf x)) (set_mem sz pgdir x));;
  switchuvm c curproc;;
  ee (kmem (freevm kend (p_pgdir x)));;
  mret 0.

(** From the program headers on. *)
Definition exec_program (curproc ip : nat) (elf : elfhdr) (pgdir : Z) (path argv : list Z) : X Z :=
  sz ← load_segments (Z.to_nat (e_phnum elf)) pgdir ip (e_phoff elf) 0;
  match sz with
  | None => exec_bad pgdir (Some ip)
  | Some sz =>
      ee (kfs (iunlockput ip));;
      ee (kfs fs_end_op);;
      r ← ee (kmem (exec_image pgdir argv sz));
      match r with
      | None => exec_bad pgdir None
      | Some (sz, sp) => exec_commit curproc path pgdir sz (e_entry elf) sp
      end
  end.

Definition exec (path : list Z) (argv : list Z) : X Z :=
  p ← curproc c;
  ee (kfs fs_begin_op);;
  r ← ee (kfs (namei devsw_read path));
  match r with
  | None => ee (kfs fs_end_op);; mret (-1)
  | Some ip =>
      ee (kfs (ilock ip));;
      r ← ee (kfs (readi devsw_read ip 0 52));
      let elf := elf_of r.2 in
      if negb (r.1 =? 52) then exec_bad 0 (Some ip)
      else if negb (e_magic elf =? ELF_MAGIC) then exec_bad 0 (Some ip)
      else
        pgdir ← ee (kmem (setupkvm kend kdata));
        if pgdir =? 0 then exec_bad 0 (Some ip)
        else
          exec_program p ip elf pgdir path argv
  end.

(** sysfile.c: the arguments, then exec. *)
Definition sys_exec (u : uview) : X Z :=
  match sys_exec_args u with
  | None => mret (-1)
  | Some (path, argv) =>
      exec (bytes_at (uv_mem u) path (default 0%nat (Z.to_nat <$> user_strlen (uv_mem u) path))) argv
  end.
End exec.
