(* ===== verification/ExecStack.v ===== *)
(** * The argument stack of exec

    What exec_stack leaves in the new address space, seen through its page table:
    the frame that main(argc, argv) finds. *)

From S2P Require Import Prelude Cstring Kalloc Vm VmSpec Syscall Fs Syspath Proc Exec.

Lemma land_not_3 x : Z.land x (Z.lnot 3) = x - x mod 4.
Proof.
  change 3 with (Z.ones 2). rewrite <-Z.ldiff_land, Z.ldiff_ones_r by lia.
  rewrite Z.shiftl_mul_pow2, Z.shiftr_div_pow2 by lia. change (2 ^ 2) with 4.
  Z.to_euclidean_division_equations; lia.
Qed.

(** A string copied elsewhere. *)
Lemma cstr_move m m' a b s :
  (∀ i, 0 <= i <= Z.of_nat (length s) → m' (b + i) = m (a + i)) → cstr m a s → cstr m' b s.
Proof.
  intros H Hs. apply KernelSpec.cstr_intro.
  - intros i c Hi. pose proof (lookup_lt_Some _ _ _ Hi). rewrite H by lia. by apply (cstr_byte m a s).
  - rewrite H by lia. by apply KernelSpec.cstr_end.
Qed.

(** The room of a string on the stack: its bytes and the NUL, in whole words. *)
Definition room (s : list Z) : Z := (Z.of_nat (length s) + 4) / 4 * 4.
Definition rooms (strs : list (list Z)) : Z := foldr (λ s n, room s + n) 0 strs.

Lemma room_eq s : room s mod 4 = 0 ∧ Z.of_nat (length s) + 1 <= room s <= Z.of_nat (length s) + 4.
Proof. unfold room. Z.to_euclidean_division_equations; lia. Qed.
Lemma rooms_nonneg strs : 0 <= rooms strs ∧ rooms strs mod 4 = 0.
Proof.
  induction strs as [|s strs [H1 H2]]; [done|]. destruct (room_eq s) as [H3 H4]. cbn [rooms foldr].
  fold (rooms strs). Z.to_euclidean_division_equations; lia.
Qed.

Lemma rooms_take strs i s :
  strs !! i = Some s → room s <= rooms (take (S i) strs) <= rooms strs.
Proof.
  revert i. induction strs as [|s' strs IH]; intros [|i]; cbn [lookup list_lookup]; try done.
  - intros [= ->]. cbn [take rooms foldr]. rewrite take_0. cbn [foldr]. pose proof (rooms_nonneg strs). fold (rooms strs). lia.
  - intros Hi. specialize (IH i Hi). pose proof (room_eq s'). cbn [take rooms foldr]. fold (rooms strs) (rooms (take (S i) strs)). lia.
Qed.

(** The push of a string of [n] characters. *)
Lemma push_sp sp s : sp mod 4 = 0 → Z.land (sp - (Z.of_nat (length s) + 1)) (Z.lnot 3) = sp - room s.
Proof. rewrite land_not_3. unfold room. intros H. Z.to_euclidean_division_equations; lia. Qed.

(** ** Memory of the kernel beside an address space and the free pages *)

Section stack.
Variable kend : Z.
Abbreviation page := (is_page kend).
Abbreviation vinv := (vinv kend).

Definition aside (own : gset Z) (l : list Z) (x : Z) : Prop := ∀ p, pool own l p → ¬ (p <= x < p + 4096).

Lemma vinv_aside k l pgdir own m' :
  vinv k l pgdir own → mem_ok m' → (∀ x, ¬ aside own l x → m' x = km_mem k x) →
  vinv (KmSt m' (use_lock k) (freelist k)) l pgdir own ∧ skel_same pgdir (km_mem k) m'.
Proof.
  intros Hv Hm Ha. pose proof Hv as [Hk Hs Hd].
  assert (skel_same pgdir (km_mem k) m') as Hsk.
  { intros p x Hps Hx. destruct (skel_own _ _ _ _ _ Hs Hps) as [Hpo _]. apply Ha. intros H. by apply (H p (or_introl Hpo)). }
  split; [|done]. apply (vinv_mem kend k l pgdir own); [done|done|by eapply skel_space|done|].
  intros p x Hp Hx. apply Ha. intros H. by apply (H p (or_intror Hp)).
Qed.

Lemma wr32_aside k l pgdir own a v :
  vinv k l pgdir own → (∀ x, a <= x < a + 4 → aside own l x) →
  ∃ k', wr32 a v k = Ok tt k' ∧ km_mem k' = store32 (km_mem k) a v ∧ vinv k' l pgdir own ∧ skel_same pgdir (km_mem k) (km_mem k').
Proof.
  intros Hv Ha. destruct (vinv_aside k l pgdir own (store32 (km_mem k) a v) Hv) as [Hv' Hsk].
  - apply store32_ok, Hv.
  - intros x Hx. apply store32_ne. intros Hr. by apply Hx, Ha.
  - by exists (KmSt (store32 (km_mem k) a v) (use_lock k) (freelist k)).
Qed.

(** ** The stack page

    [st] is a page the user may use, [fr] its frame. *)

Section page.
Variables (l : list Z) (pgdir : Z) (own : gset Z) (st fr : Z).

Record stk (k : kmst) : Prop := {
  sk_inv : vinv k l pgdir own;
  sk_page : upage st ∧ user_ok (km_mem k) pgdir st;
  sk_frame : frame (km_mem k) pgdir st = fr
}.

Lemma stk_skel k k' : stk k → vinv k' l pgdir own → skel_same pgdir (km_mem k) (km_mem k') → stk k'.
Proof.
  intros [H1 [H2 H3] H4] Hv Hsk. split; [done| |by rewrite (skel_frame _ _ _ _ Hsk)].
  split; [done|]. by eapply skel_user_ok.
Qed.

Lemma stk_down va : upage st → st <= va < st + 4096 → PGROUNDDOWN va = st ∧ va mod 4096 = va - st.
Proof. intros [H1 H2] Hva. rewrite PGROUNDDOWN_eq. Z.to_euclidean_division_equations; lia. Qed.

Lemma stk_translate k va : stk k → st <= va < st + 4096 → translate (km_mem k) pgdir va = fr + (va - st).
Proof.
  intros [_ [Hu _] Hf] Hva. destruct (stk_down va Hu Hva) as [E1 E2]. unfold translate. by rewrite E1, E2, Hf.
Qed.

Lemma stk_own k : stk k → page fr ∧ fr ∈ own.
Proof.
  intros [Hv [Hu (_ & Hp & _)] <-]. destruct (sp_frame _ _ _ _ (vi_sp _ _ _ _ _ Hv) st Hu Hp) as (? & ? & _). done.
Qed.

Lemma aside_frame k x : stk k → aside own l x → ¬ (fr <= x < fr + 4096).
Proof. intros Hk Hx. apply Hx. left. by eapply stk_own. Qed.

(** copyout within the page. *)
Lemma copy_stack k va p len :
  stk k → st <= va → 0 <= len → va + len <= st + 4096 → (∀ i, 0 <= i < len → aside own l (p + i)) →
  ∃ k', copyout pgdir va p len k = Ok 0 k' ∧ stk k' ∧
    (∀ i, 0 <= i < len → km_mem k' (fr + (va - st) + i) = km_mem k (p + i)) ∧
    (∀ x, ¬ (fr + (va - st) <= x < fr + (va - st) + len) → km_mem k' x = km_mem k x).
Proof.
  intros Hk Hva Hlen Hend Hsrc. pose proof Hk as [Hv [Hu Hok] Hf].
  destruct (copyout_loop_run kend npages k l pgdir own va p len) as (k' & H & Hv' & Hsk & Hc & Hx).
  - done.
  - destruct Hu. lia.
  - done.
  - destruct Hu as [Hu1 Hu2]. unfold KERNBASE in *. Z.to_euclidean_division_equations; lia.
  - intros i Hi. by destruct (stk_down (va + i) Hu ltac:(lia)) as [-> _].
  - intros i q Hi Hq. apply (Hsrc i Hi q). by left.
  - pose proof (Z.mod_pos_bound va 4096 ltac:(done)). unfold npages. lia.
  - exists k'. split; [done|]. split; [by eapply stk_skel|]. split.
    + intros i Hi. rewrite <-Hc by done. rewrite (stk_translate k) by (done || lia). f_equal. lia.
    + intros x Hxr. apply Hx. intros i Hi. rewrite (stk_translate k) by (done || lia). lia.
Qed.

(** *** The loop over argv *)

Variable ustack : Z.
(** The array ustack[3+MAXARG+1] is on the process's kernel stack. *)
Hypothesis ustack_aside : ∀ x, ustack <= x < ustack + 144 → aside own l x.

(** A string of the caller: not in the new pages, nor in ustack. *)
Record source (m : mem) (a : Z) (s : list Z) : Prop := {
  so_str : cstr m a s;
  so_aside : ∀ i, 0 <= i <= Z.of_nat (length s) → aside own l (a + i) ∧ ¬ (ustack <= a + i < ustack + 144)
}.

(** Where the bytes below [sp] of the page and the words of ustack from [argc] on
    may differ. *)
Definition pushed (lo hi argc n : Z) (m m' : mem) : Prop :=
  ∀ x, ¬ (fr + (lo - st) <= x < fr + (hi - st)) → ¬ (ustack + 12 + 4 * argc <= x < ustack + 12 + 4 * n) → m' x = m x.

(** The string [s] is at [p], and its pointer is ustack[3+i]. *)
Definition arg_at (m : mem) (i p : Z) (s : list Z) : Prop :=
  load32 m (ustack + 12 + 4 * i) = p ∧ cstr m (fr + (p - st)) s.

Lemma source_pushed m m' a s lo hi argc n :
  (∀ x, aside own l x → ¬ (fr <= x < fr + 4096)) → st <= lo → hi <= st + 4096 → 0 <= argc → n <= 33 →
  pushed lo hi argc n m m' → source m a s → source m' a s.
Proof.
  intros Hfr Hlo Hhi Ha Hn Hp [H1 H2]. split; [|done]. eapply (cstr_move m); [|exact H1].
  intros i Hi. destruct (H2 i Hi) as [H3 H4]. apply Hfr in H3. apply Hp; lia.
Qed.

(** What was pushed before stays. *)
Lemma arg_at_pushed m m' lo hi argc n i p s :
  (∀ x, aside own l x → ¬ (fr <= x < fr + 4096)) → pushed lo hi argc n m m' → 0 <= i < argc → argc <= n → n <= 33 →
  st <= lo <= hi → hi <= p → p + Z.of_nat (length s) < st + 4096 → arg_at m i p s → arg_at m' i p s.
Proof.
  intros Hfr Hp Hi Ha Hn Hlo Hhi Hend [H1 H2].
  assert (∀ x, ustack <= x < ustack + 144 → ¬ (fr <= x < fr + 4096)) as Hu by (intros x Hx; by apply Hfr, ustack_aside).
  split.
  - rewrite <-H1. apply load32_ext. intros x Hx. apply Hp; [|lia]. pose proof (Hu x ltac:(lia)). lia.
  - eapply cstr_move; [|exact H2]. intros j Hj. apply Hp; [lia|]. intros Hx.
    apply (Hu (fr + (p - st) + j)); lia.
Qed.

(** One string. *)
Lemma push_one k a s argc sp :
  stk k → source (km_mem k) a s → sp mod 4 = 0 → st <= sp - room s → sp <= st + 4096 → 0 <= argc < 32 →
  ∃ k1 k2, copyout pgdir (sp - room s) a (Z.of_nat (length s) + 1) k = Ok 0 k1 ∧
    wr32 (ustack + 4 * (3 + argc)) (sp - room s) k1 = Ok tt k2 ∧ stk k2 ∧
    pushed (sp - room s) sp argc (argc + 1) (km_mem k) (km_mem k2) ∧ arg_at (km_mem k2) argc (sp - room s) s.
Proof.
  intros Hk [Hs Hsrc] Hm Hlo Hhi Hargc. destruct (room_eq s) as [_ Hr].
  destruct (copy_stack k (sp - room s) a (Z.of_nat (length s) + 1) Hk) as (k1 & H1 & Hk1 & Hc1 & Hx1); [lia|lia|lia| |].
  { intros i Hi. apply Hsrc. lia. }
  destruct (wr32_aside k1 l pgdir own (ustack + 4 * (3 + argc)) (sp - room s)) as (k2 & H2 & Hm2 & Hv2 & Hsk2).
  { apply Hk1. } { intros x Hx. apply ustack_aside. lia. }
  exists k1, k2. split; [done|]. split; [done|]. split; [by eapply stk_skel|]. split; [|split].
  - intros x Hxf Hxu. rewrite Hm2, store32_ne by lia. apply Hx1. lia.
  - rewrite Hm2. replace (ustack + 12 + 4 * argc) with (ustack + 4 * (3 + argc)) by lia. apply load32_store32.
    pose proof Hk as [_ [[Hu _] _] _]. unfold is_u32, KERNBASE in *. lia.
  - eapply cstr_move; [|exact Hs]. intros i Hi. rewrite Hm2, store32_ne; [apply Hc1; lia|].
    intros Hxu. apply (aside_frame k (fr + (sp - room s - st) + i) Hk); [|lia]. apply ustack_aside. lia.
Qed.

Lemma push_args_run strs : ∀ argv k argc sp,
  stk k → Forall2 (source (km_mem k)) argv strs → 0 <= argc → argc + Z.of_nat (length strs) <= 32 →
  sp mod 4 = 0 → st <= sp - rooms strs → sp <= st + 4096 →
  ∃ k', push_args pgdir ustack argv argc sp k = Ok (Some (argc + Z.of_nat (length strs), sp - rooms strs)) k' ∧ stk k' ∧
    pushed (sp - rooms strs) sp argc (argc + Z.of_nat (length strs)) (km_mem k) (km_mem k') ∧
    ∀ i s, strs !! i = Some s → arg_at (km_mem k') (argc + Z.of_nat i) (sp - rooms (take (S i) strs)) s.
Proof.
  induction strs as [|s strs IH]; intros argv k argc sp Hk Hsrc Hargc Hlen Hm Hlo Hhi; inversion Hsrc as [|a ? argv' ? Hs Hsrc' E1 E2]; subst.
  { exists k. cbn [push_args length rooms foldr]. rewrite Z.add_0_r, Z.sub_0_r. split; [done|]. split; [done|].
    split; [by intros x _ _|]. intros i s Hi. by rewrite lookup_nil in Hi. }
  cbn [length rooms foldr] in *. fold (rooms strs) in *. destruct (room_eq s) as [Hr0 Hr]. destruct (rooms_nonneg strs) as [Hrs _].
  destruct (push_one k a s argc sp) as (k1 & k2 & H1 & H2 & Hk2 & Hp2 & Ha2); [done|done|done|lia|lia|lia|].
  assert (∀ x, aside own l x → ¬ (fr <= x < fr + 4096)) as Hfr by (intros x; by apply (aside_frame k)).
  destruct (IH argv' k2 (argc + 1) (sp - room s) Hk2) as (k3 & H3 & Hk3 & Hp3 & Ha3).
  { eapply Forall2_impl; [exact Hsrc'|]. intros a' s'. eapply source_pushed; [exact Hfr| | | | |exact Hp2]; lia. }
  { lia. } { lia. } { Z.to_euclidean_division_equations; lia. } { lia. } { lia. }
  exists k3. split; [|split; [done|split]].
  - cbn [push_args]. rewrite (proj2 (Z.leb_gt _ _)) by (unfold MAXARG; lia).
    assert (user_strlen (km_mem k) a = Some (Z.of_nat (length s))) as Hlen1.
    { apply KernelSpec.strlen_spec; [apply Hs|]. unfold KERNBASE. lia. }
    pose proof Hk as [_ [[Hu _] _] _]. unfold KERNBASE in Hu.
    run. rewrite Hlen1. rewrite (u32_small (sp - _)) by (unfold is_u32; lia).
    rewrite push_sp by done. rewrite u32_small by (unfold is_u32; lia).
    rewrite (bind_run _ _ _ _ _ H1). change (0 <? 0) with false. cbv iota. rewrite (bind_run _ _ _ _ _ H2), H3.
    do 3 f_equal; lia.
  - intros x Hxf Hxu. rewrite Hp3 by lia. apply Hp2; lia.
  - intros [|i] s' Hi; cbn [lookup list_lookup] in Hi.
    + injection Hi as <-. rewrite Z.add_0_r. cbn [take rooms foldr]. rewrite take_0. cbn [foldr].
      replace (sp - (room s + 0)) with (sp - room s) by lia.
      eapply (arg_at_pushed (km_mem k2)); [exact Hfr|exact Hp3| | | | | | |exact Ha2]; lia.
    + cbn [take rooms foldr]. fold (rooms (take (S i) strs)).
      replace (sp - (room s + rooms (take (S i) strs))) with (sp - room s - rooms (take (S i) strs)) by lia.
      replace (argc + Z.of_nat (S i)) with (argc + 1 + Z.of_nat i) by lia. by apply Ha3.
Qed.

(** *** The rest of the stack *)

Lemma load32_move m m' a b : (∀ i, 0 <= i < 4 → m' (b + i) = m (a + i)) → load32 m' b = load32 m a.
Proof.
  intros H. unfold load32. rewrite <-(Z.add_0_r b), <-(Z.add_0_r a) at 1. rewrite !H by lia. reflexivity.
Qed.

(** The words of ustack that are not argument pointers. *)
Lemma ustack_words k argc sp :
  stk k → 0 <= argc <= 32 → is_u32 sp →
  ∃ k', (∀ B (c : M kmst B), (wr32 (ustack + 4 * (3 + argc)) 0;; wr32 ustack 0xffffffff;; wr32 (ustack + 4) argc;;
      wr32 (ustack + 8) sp;; c) k = c k') ∧
    stk k' ∧ (∀ x, ¬ (ustack <= x < ustack + 12) → ¬ (ustack + 12 + 4 * argc <= x < ustack + 16 + 4 * argc) → km_mem k' x = km_mem k x) ∧
    load32 (km_mem k') ustack = 0xffffffff ∧ load32 (km_mem k') (ustack + 4) = argc ∧
    load32 (km_mem k') (ustack + 8) = sp ∧ load32 (km_mem k') (ustack + 12 + 4 * argc) = 0.
Proof.
  intros Hk Ha Hsp.
  assert (∀ a v k, stk k → ustack <= a → a + 4 <= ustack + 144 →
    ∃ k', wr32 a v k = Ok tt k' ∧ km_mem k' = store32 (km_mem k) a v ∧ stk k') as Hwr.
  { intros a v k0 Hk0 H1 H2. destruct (wr32_aside k0 l pgdir own a v) as (k' & H & Hm & Hv & Hsk).
    { apply Hk0. } { intros x Hx. apply ustack_aside. lia. }
    exists k'. split; [done|]. split; [done|]. by eapply stk_skel. }
  destruct (Hwr (ustack + 4 * (3 + argc)) 0 k Hk) as (k1 & H1 & M1 & Hk1); [lia|lia|].
  destruct (Hwr ustack 0xffffffff k1 Hk1) as (k2 & H2 & M2 & Hk2); [lia|lia|].
  destruct (Hwr (ustack + 4) argc k2 Hk2) as (k3 & H3 & M3 & Hk3); [lia|lia|].
  destruct (Hwr (ustack + 8) sp k3 Hk3) as (k4 & H4 & M4 & Hk4); [lia|lia|].
  exists k4. split; [intros B c; by rewrite (bind_run _ _ _ _ _ H1), (bind_run _ _ _ _ _ H2), (bind_run _ _ _ _ _ H3), (bind_run _ _ _ _ _ H4)|].
  split; [done|]. rewrite M4, M3, M2, M1. split.
  - intros x Hx1 Hx2. by rewrite !store32_ne by lia.
  - replace (ustack + 12 + 4 * argc) with (ustack + 4 * (3 + argc)) by lia.
    split; [by rewrite !load32_store32_ne by lia; apply load32_store32|].
    split; [rewrite load32_store32_ne by lia; apply load32_store32; unfold is_u32; lia|].
    split; [by apply load32_store32|]. by rewrite !load32_store32_ne by lia; apply load32_store32.
Qed.

Lemma exec_stack_run strs argv k :
  stk k → Forall2 (source (km_mem k)) argv strs → Z.of_nat (length strs) <= 32 →
  rooms strs + 4 * (Z.of_nat (length strs) + 4) <= 4096 →
  let argc := Z.of_nat (length strs) in
  let sp := st + 4096 - rooms strs - 4 * (argc + 4) in
  ∃ k', exec_stack pgdir ustack argv (st + 4096) k = Ok (Some sp) k' ∧ stk k' ∧
    (∀ x, ¬ (fr <= x < fr + 4096) → ¬ (ustack <= x < ustack + 144) → km_mem k' x = km_mem k x) ∧
    load32 (km_mem k') (fr + (sp - st)) = 0xffffffff ∧ load32 (km_mem k') (fr + (sp - st) + 4) = argc ∧
    load32 (km_mem k') (fr + (sp - st) + 8) = sp + 12 ∧ load32 (km_mem k') (fr + (sp - st) + 12 + 4 * argc) = 0 ∧
    ∀ i s, strs !! i = Some s → let p := st + 4096 - rooms (take (S i) strs) in
      load32 (km_mem k') (fr + (sp - st) + 12 + 4 * Z.of_nat i) = p ∧ cstr (km_mem k') (fr + (p - st)) s.
Proof.
  intros Hk Hsrc Hlen Hfit argc sp. destruct (rooms_nonneg strs) as [Hr Hrm]. pose proof Hk as [_ [[Hu Hum] _] _].
  assert (∀ x, ustack <= x < ustack + 144 → ¬ (fr <= x < fr + 4096)) as Hfu by (intros x Hx; by eapply aside_frame, ustack_aside).
  assert (0 <= argc) as Hac by (unfold argc; lia). fold argc in Hlen, Hfit. unfold KERNBASE in Hu.
  destruct (push_args_run strs argv k 0 (st + 4096)) as (k1 & H1 & Hk1 & Hp1 & Ha1); [done|done|lia|unfold argc in *; lia| |lia|lia|].
  { Z.to_euclidean_division_equations; lia. }
  rewrite Z.add_0_l in H1, Hp1. fold argc in H1, Hp1.
  destruct (ustack_words k1 argc (u32 (st + 4096 - rooms strs - (argc + 1) * 4))) as (k2 & H2 & Hk2 & Hm2 & W0 & W1 & W2 & W3);
    [done|lia|apply u32_range|]. rewrite u32_small in W2 by (unfold is_u32; lia).
  destruct (copy_stack k2 sp ustack (4 * (argc + 4)) Hk2) as (k3 & H3 & Hk3 & Hc3 & Hx3); [lia|lia|lia| |].
  { intros i Hi. apply ustack_aside. lia. }
  assert (∀ j, 0 <= j < argc + 4 → load32 (km_mem k3) (fr + (sp - st) + 4 * j) = load32 (km_mem k2) (ustack + 4 * j)) as Hw.
  { intros j Hj. apply load32_move. intros i Hi. rewrite <-!Z.add_assoc, !Z.add_assoc.
    rewrite <-(Z.add_assoc (fr + (sp - st))), <-(Z.add_assoc ustack). apply Hc3. lia. }
  exists k3. split.
  { unfold exec_stack. rewrite (bind_run _ _ _ _ _ H1). rewrite H2. cbv zeta.
    replace (u32 (st + 4096 - rooms strs - (3 + argc + 1) * 4)) with sp by (rewrite u32_small; unfold is_u32, sp; lia).
    replace ((3 + argc + 1) * 4) with (4 * (argc + 4)) by lia. by rewrite (bind_run _ _ _ _ _ H3). }
  split; [done|]. split.
  { intros x Hxf Hxu. rewrite Hx3, Hm2 by lia. apply Hp1; lia. }
  split; [pose proof (Hw 0 ltac:(lia)) as E; rewrite Z.mul_0_r, !Z.add_0_r in E; by rewrite E|].
  split; [pose proof (Hw 1 ltac:(lia)) as E; rewrite Z.mul_1_r in E; by rewrite E|].
  split; [pose proof (Hw 2 ltac:(lia)) as E; change (4 * 2) with 8 in E; rewrite E, W2; unfold sp; lia|].
  split; [pose proof (Hw (3 + argc) ltac:(lia)) as E; replace (4 * (3 + argc)) with (12 + 4 * argc) in E by lia;
    rewrite !Z.add_assoc in E; by rewrite E|].
  intros i s Hi p. pose proof (lookup_lt_Some _ _ _ Hi) as Hil. destruct (Ha1 i s Hi) as [A1 A2]. fold p in A1, A2. rewrite Z.add_0_l in A1.
  assert (sp + 4 * (argc + 4) <= p ∧ p + Z.of_nat (length s) < st + 4096) as [Hp_lo Hp_hi].
  { pose proof (rooms_take strs i s Hi). pose proof (room_eq s). unfold p, sp. lia. }
  split.
  - rewrite <-A1. replace (fr + (sp - st) + 12 + 4 * Z.of_nat i) with (fr + (sp - st) + 4 * (3 + Z.of_nat i)) by lia.
    rewrite Hw by lia. replace (ustack + 4 * (3 + Z.of_nat i)) with (ustack + 12 + 4 * Z.of_nat i) by lia.
    apply load32_ext. intros x Hx. apply Hm2; lia.
  - eapply cstr_move; [|exact A2]. intros j Hj. rewrite Hx3, Hm2; [done|..].
    + intros Hx. apply (Hfu (fr + (p - st) + j)); lia.
    + intros Hx. apply (Hfu (fr + (p - st) + j)); lia.
    + lia.
Qed.
End page.

(** C26. The frame of main: when the stack page is mapped for the user, and the
    argument strings - at most 32 - fit in it with their pointers, exec_stack
    succeeds and leaves at the new stack pointer, read through the new page table, a
    return address of all ones, argc, the address of the array argv right above, its
    pointers, each to a NUL-terminated copy of the string, and a null pointer after
    them. sp is a multiple of 4 inside the page, every string and pointer is in the
    page, and no memory outside of the page's frame and of ustack changes. *)
Theorem exec_stack_correct k l pgdir own st ustack argv strs :
  vinv k l pgdir own → upage st → user_ok (km_mem k) pgdir st →
  (∀ x, ustack <= x < ustack + 144 → aside own l x) → Forall2 (source l own ustack (km_mem k)) argv strs →
  Z.of_nat (length strs) <= 32 → rooms strs + 4 * (Z.of_nat (length strs) + 4) <= 4096 →
  ∃ sp k', exec_stack pgdir ustack argv (st + 4096) k = Ok (Some sp) k' ∧ vinv k' l pgdir own ∧
    (∀ va, pte (km_mem k') pgdir va = pte (km_mem k) pgdir va) ∧
    let word va := load32 (km_mem k') (translate (km_mem k') pgdir va) in
    st <= sp ∧ sp mod 4 = 0 ∧ word sp = 0xffffffff ∧ word (sp + 4) = Z.of_nat (length strs) ∧ word (sp + 8) = sp + 12 ∧
    word (sp + 12 + 4 * Z.of_nat (length strs)) = 0 ∧
    (∀ i s, strs !! i = Some s → let p := word (sp + 12 + 4 * Z.of_nat i) in
       sp <= p ∧ p + Z.of_nat (length s) < st + 4096 ∧ cstr (km_mem k') (translate (km_mem k') pgdir p) s) ∧
    (∀ x, ¬ (frame (km_mem k) pgdir st <= x < frame (km_mem k) pgdir st + 4096) → ¬ (ustack <= x < ustack + 144) →
       km_mem k' x = km_mem k x).
Proof.
  intros Hv Hu Hok Hus Hsrc Hlen Hfit. set (fr := frame (km_mem k) pgdir st).
  assert (stk l pgdir own st fr k) as Hk by by split.
  destruct (exec_stack_run l pgdir own st fr ustack Hus strs argv k Hk Hsrc Hlen Hfit) as (k' & H & Hk' & Hx & W0 & W1 & W2 & W3 & Ha).
  set (sp := st + 4096 - rooms strs - 4 * (Z.of_nat (length strs) + 4)) in *. exists sp, k'. split; [exact H|].
  split; [apply Hk'|]. pose proof (rooms_nonneg strs) as [Hr Hrm].
  assert (∀ va, st <= va < st + 4096 → translate (km_mem k') pgdir va = fr + (va - st)) as Ht by (intros va; by apply (stk_translate l _ own)).
  split.
  { intros va. apply skel_pte. intros p x Hps Hxp. pose proof Hk as [_ [_ (_ & Hp & _)] _].
    destruct (skel_own _ _ _ _ _ (vi_sp _ _ _ _ _ Hv) Hps) as [Hpo Hpp]. apply Hx.
    - intros Hxf. destruct (stk_own l pgdir own st fr k Hk) as [Hfp _].
      apply (is_page_apart kend p fr x x Hpp Hfp); [|done|done|done]. intros ->.
      by apply (frame_not_skel _ _ _ _ _ (vi_sp _ _ _ _ _ Hv) Hu Hp).
    - intros Hxu. by apply (Hus x Hxu p (or_introl Hpo)). }
  cbv zeta. split; [unfold sp; lia|]. split.
  { unfold sp. destruct Hu as [_ Hum]. Z.to_euclidean_division_equations; lia. }
  rewrite !Ht by (unfold sp; lia).
  replace (fr + (sp + 4 - st)) with (fr + (sp - st) + 4) by lia. replace (fr + (sp + 8 - st)) with (fr + (sp - st) + 8) by lia.
  replace (fr + (sp + 12 + 4 * Z.of_nat (length strs) - st)) with (fr + (sp - st) + 12 + 4 * Z.of_nat (length strs)) by lia.
  do 4 (split; [done|]). split; [|done].
  intros i s Hi. pose proof (lookup_lt_Some _ _ _ Hi). pose proof (rooms_take strs i s Hi). pose proof (room_eq s).
  destruct (Ha i s Hi) as [A1 A2]. rewrite (Ht (sp + 12 + 4 * Z.of_nat i)) by (unfold sp; lia).
  replace (fr + (sp + 12 + 4 * Z.of_nat i - st)) with (fr + (sp - st) + 12 + 4 * Z.of_nat i) by lia. rewrite A1.
  rewrite Ht by lia. split; [unfold sp; lia|]. split; [lia|done].
Qed.
End stack.

(** ** The concrete address space of VmSpec.v, with the strings a and the empty one *)

Definition stack_ex : kmst := KmSt (mset vm_mem 0x80107200 97) false 0x80105000.

Lemma ex_aside x : 0x80107000 <= x < 0x80108000 → aside vm_own [0x80105000; 0x80106000] x.
Proof.
  intros Hx p. unfold pool, vm_own. rewrite !elem_of_union, !elem_of_singleton, !elem_of_cons, elem_of_nil. lia.
Qed.

Lemma stack_ex_inv : vinv 0x80101000 stack_ex [0x80105000; 0x80106000] 0x80102000 vm_own ∧
  skel_same 0x80102000 vm_mem (km_mem stack_ex).
Proof.
  apply (vinv_aside 0x80101000 vm_ex [0x80105000; 0x80106000] 0x80102000 vm_own (mset vm_mem 0x80107200 97)).
  - apply vm_ex_inv.
  - apply mset_ok, vm_ex_inv.
  - intros x Hx. apply mset_ne. intros ->. apply Hx, ex_aside. lia.
Qed.

Lemma exec_stack_correct_witness : ∃ sp k',
  exec_stack 0x80102000 0x80107000 [0x80107200; 0x80107201] 4096 stack_ex = Ok (Some sp) k' ∧
  load32 (km_mem k') (translate (km_mem k') 0x80102000 (sp + 4)) = 2 ∧
  cstr (km_mem k') (translate (km_mem k') 0x80102000 (load32 (km_mem k') (translate (km_mem k') 0x80102000 (sp + 12)))) [97].
Proof.
  destruct (exec_stack_correct 0x80101000 stack_ex [0x80105000; 0x80106000] 0x80102000 vm_own 0 0x80107000
    [0x80107200; 0x80107201] [[97]; []]) as (sp & k' & H & _ & _ & Hr).
  - apply stack_ex_inv.
  - done.
  - eapply skel_user_ok; [apply stack_ex_inv|]. split; [by vm_compute|]. split; by vm_compute.
  - intros x Hx. apply ex_aside. lia.
  - assert (∀ a s, (a = 0x80107200 ∧ s = [97]) ∨ (a = 0x80107201 ∧ s = []) →
      source [0x80105000; 0x80106000] vm_own 0x80107000 (km_mem stack_ex) a s) as Hs.
    { intros a s Ha. split.
      - destruct Ha as [[-> ->]|[-> ->]]; by vm_compute.
      - intros i Hi. assert (a + i = 0x80107200 ∨ a + i = 0x80107201) as Hai by (destruct Ha as [[-> ->]|[-> ->]]; cbn in Hi; lia).
        split; [apply ex_aside; lia|lia]. }
    constructor; [apply Hs; by left|]. constructor; [apply Hs; by right|constructor].
  - cbn [length]. lia.
  - vm_compute. intros [=].
  - destruct Hr as (_ & _ & _ & H4 & _ & _ & Hs & _). exists sp, k'. split; [exact H|]. split; [exact H4|].
    destruct (Hs 0%nat [97] eq_refl) as (_ & _ & Hc). rewrite Z.add_0_r in Hc. exact Hc.
Defined.
