(* ===== verification/ExecImage.v ===== *)
(** * The new image of exec: memory

    The steps of exec that work on the new address space, for any program headers
    and any arguments. [l0] are the pages that were free at the call: the new space
    is made of them, and everything outside of them and of the array ustack stays. *)

From S2P Require Import Prelude Cstring Kalloc Vm VmSpec VmCopy Syscall Fs Syspath Proc Exec ExecStack.

(** The tables are the same after two steps that keep them. *)
Lemma skel_trans pgdir m1 m2 m3 : skel_same pgdir m1 m2 → skel_same pgdir m2 m3 → skel_same pgdir m1 m3.
Proof.
  intros H1 H2 p x Hp Hx. rewrite (H2 p); [by apply (H1 p)| |done].
  destruct Hp as [->|(i & Hi & Hpi & ->)]; [by left|right; exists i].
  unfold tab. by rewrite (skel_pde _ _ _ _ H1).
Qed.

Lemma skel_user_ok' m m' pgdir va : skel_same pgdir m m' → user_ok m' pgdir va → user_ok m pgdir va.
Proof.
  intros H. unfold user_ok. by rewrite (skel_pte _ _ _ _ H), (skel_pde _ _ _ _ H) by apply PDX_range.
Qed.

Section image.
Variables (kend kdata : Z).
Hypothesis kdata_ok : KERNLINK < kdata < KERNBASE + PHYSTOP ∧ kdata mod 4096 = 0.
Hypothesis kend_ok : KERNBASE < kend.
Abbreviation page := (is_page kend).
Abbreviation vinv := (vinv kend).

Variables (m0 : mem) (l0 : list Z) (ustack : Z).
(** An address that the new image does not use. *)
Definition kept (x : Z) : Prop := (∀ p, p ∈ l0 → ¬ (p <= x < p + 4096)) ∧ ¬ (ustack <= x < ustack + 144).

Section pgdir.
Variable pgdir : Z.

Record xbase k l own : Prop := {
  xb_inv : vinv k l pgdir own;
  xb_pool : ∀ p, pool own l p ↔ p ∈ l0;
  xb_out : ∀ x, kept x → km_mem k x = m0 x
}.

(** [sz] bytes from address 0 on are mapped, all of them for the user. *)
Record xmem (sz : Z) k l own : Prop := {
  xm_base : xbase k l own;
  xm_sz : 0 <= sz <= KERNBASE;
  xm_in : ∀ va, upage va → present (pte (km_mem k) pgdir va) = true ↔ va < sz;
  xm_user : ∀ va, upage va → va < sz → pte (km_mem k) pgdir va = V2P (frame (km_mem k) pgdir va) + 7;
  xm_kern : maps_kernel kdata (km_mem k) pgdir
}.

Lemma xbase_out k l own m' :
  xbase k l own → outside (pool own l) (km_mem k) m' → ∀ x, kept x → m' x = m0 x.
Proof.
  intros [Hv Hp Ho] Hout x Hx. rewrite Hout; [by apply Ho|]. intros p Hpp. apply Hx. by apply Hp.
Qed.

Lemma xfree k l own :
  xbase k l own → ∃ k' l', freevm kend pgdir k = Ok tt k' ∧ km_inv kend k' l' ∧ (∀ p, p ∈ l' ↔ p ∈ l0) ∧
    ∀ x, kept x → km_mem k' x = m0 x.
Proof.
  intros Hb. pose proof Hb as [Hv Hp Ho].
  destruct (freevm_correct kend pgdir k l own kend_ok Hv) as (k' & l' & H & Hk & Hl & Hout).
  exists k', l'. split; [done|]. split; [done|]. split; [intros p; rewrite Hl; apply Hp|].
  by apply (xbase_out k l own).
Qed.

(** *** allocuvm *)

Lemma PGROUNDUP_below x va : 0 <= x <= KERNBASE → upage va → va < PGROUNDUP x ↔ va < x.
Proof.
  intros Hx [_ Hm]. destruct (PGROUNDUP_user x Hx) as (H1 & H2 & _). Z.to_euclidean_division_equations; lia.
Qed.

Lemma alloc_none n sz k : 0 <= sz <= KERNBASE → allocuvm_loop kend (S n) pgdir sz sz (PGROUNDUP sz) k = Ok sz k.
Proof.
  intros Hsz. cbn [allocuvm_loop]. destruct (PGROUNDUP_user sz Hsz) as (_ & ? & _). by rewrite (proj2 (Z.ltb_ge _ _)) by lia.
Qed.

Lemma xalloc sz newsz k l own :
  xmem sz k l own → is_u32 newsz →
  ∃ r k' l' own', allocuvm kend pgdir sz newsz k = Ok r k' ∧
    (r = 0 ∧ xbase k' l' own' ∨ r = Z.max sz newsz ∧ xmem r k' l' own').
Proof.
  intros Hx Hn. pose proof Hx as [Hb Hsz Hin Hus Hkn]. pose proof Hb as [Hv Hp Ho]. unfold allocuvm.
  destruct (Z.leb_spec KERNBASE newsz).
  { exists 0, k, l, own. split; [done|]. by left. }
  destruct (Z.ltb_spec newsz sz).
  { exists sz, k, l, own. split; [done|]. right. rewrite Z.max_l by lia. by split. }
  destruct (decide (newsz = sz)) as [->|Hne].
  { exists sz, k, l, own. split; [|by right; rewrite Z.max_id]. rewrite npages_S. apply alloc_none. lia. }
  assert (sz < newsz) as Hlt by lia. destruct (PGROUNDUP_user sz) as (Ho1 & Ho2 & _); [lia|].
  destruct (alloc_loop_run kend npages pgdir sz newsz (PGROUNDUP sz) (PGROUNDUP sz) k l own k l own kend_ok Hv)
    as (k' & l' & own' & H'); [lia|done|done| |apply maps_refl; [done|lia]|lia|done|lia|unfold npages, KERNBASE in *; lia|].
  { intros va Hu Hr. apply not_true_iff_false. rewrite Hin by done. lia. }
  destruct H' as [[H' [M1 M2 M3 M4 M5 MK M6 M7]]|[H' [R1 R3 R4 R5 R6 R7]]]; eexists _, k', l', own'; (split; [exact H'|]).
  - right. split; [lia|]. split.
    + split; [done|intros p; by rewrite M3|]. by apply (xbase_out k l own).
    + lia.
    + intros va Hu. rewrite <-(PGROUNDUP_below newsz) by (done || lia). destruct (decide (PGROUNDUP sz <= va < PGROUNDUP newsz)) as [Hr|Hr].
      * destruct (M4 va Hu Hr) as (E & Hf & _). rewrite E. split; [lia|intros _]. apply (present_7 kend).
        eapply free_page; [apply Hv|exact Hf].
      * rewrite M5 by done. rewrite Hin by done. rewrite <-(PGROUNDUP_below sz) by (done || lia).
        assert (PGROUNDUP sz <= PGROUNDUP newsz); [|lia]. destruct (PGROUNDUP_user newsz) as (? & ? & _); [lia|].
        Z.to_euclidean_division_equations; lia.
    + intros va Hu Hr. destruct (decide (PGROUNDUP sz <= va < PGROUNDUP newsz)) as [Hr'|Hr'].
      * by destruct (M4 va Hu Hr') as (E & _).
      * unfold frame. rewrite !M5 by done. apply Hus; [done|].
        rewrite <-(PGROUNDUP_below newsz) in Hr by (done || lia). rewrite <-(PGROUNDUP_below sz) by (done || lia). lia.
    + intros va Hva Hge. rewrite MK by done. by apply Hkn.
  - left. split; [done|]. split; [done|intros p; by rewrite R3|]. by apply (xbase_out k l own).
Qed.

(** *** Stores into the frame of a user page *)

Lemma xwrite sz k l own va m' :
  xmem sz k l own → upage va → va < sz → mem_ok m' →
  (∀ x, ¬ (frame (km_mem k) pgdir va <= x < frame (km_mem k) pgdir va + 4096) → m' x = km_mem k x) →
  xmem sz (KmSt m' (use_lock k) (freelist k)) l own.
Proof.
  intros Hx Hu Hlt Hok Hout. pose proof Hx as [[Hv Hp Ho] Hsz Hin Hus Hkn].
  assert (present (pte (km_mem k) pgdir va) = true) as Hpr by (by apply Hin).
  destruct (frame_write kend k l pgdir own va m' Hv Hu Hpr Hok Hout) as [Hv' Hsk].
  split.
  - split; [done|done|]. intros x Hxk. cbn [km_mem]. rewrite Hout; [by apply Ho|]. intros Hxf.
    destruct (sp_frame _ _ _ _ (vi_sp _ _ _ _ _ Hv) va Hu Hpr) as (_ & F2 & _).
    apply (proj1 Hxk (frame (km_mem k) pgdir va)); [|done]. apply Hp. by left.
  - done.
  - intros v Hv1. cbn [km_mem]. rewrite (skel_pte _ _ _ _ Hsk). by apply Hin.
  - intros v Hv1 Hr. cbn [km_mem]. rewrite (skel_pte _ _ _ _ Hsk), (skel_frame _ _ _ _ Hsk). by apply Hus.
  - intros v Hv1 Hge. cbn [km_mem]. rewrite (skel_pte _ _ _ _ Hsk). by apply Hkn.
Qed.

(** *** copyout to any range below the top *)

Lemma copyout_any fuel hi k l own va len p :
  vinv k l pgdir own → 0 <= va → 0 <= len → va + len <= hi → hi <= KERNBASE →
  (∀ va', upage va' → va' < hi → present (pte (km_mem k) pgdir va') = true) →
  va mod 4096 + len + 4096 <= 4096 * Z.of_nat fuel →
  ∃ r k', copyout_loop fuel pgdir va p len k = Ok r k' ∧ vinv k' l pgdir own ∧ skel_same pgdir (km_mem k) (km_mem k') ∧
    outside (pool own l) (km_mem k) (km_mem k') ∧
    (r = -1 ∨ r = 0 ∧ ∀ i, 0 <= i < len → user_ok (km_mem k) pgdir (PGROUNDDOWN (va + i))).
Proof.
  revert k va p len. induction fuel as [|fuel IH]; intros k va p len Hv Hva Hlen Hend Hhi Hpres Hf;
    [pose proof (Z.mod_pos_bound va 4096 ltac:(done)); lia|].
  destruct (decide (len = 0)) as [->|Hl0].
  { exists 0, k. cbn [copyout_loop]. split; [done|]. split; [done|]. split; [done|]. split; [done|]. right. split; [done|lia]. }
  assert (0 <= va < KERNBASE) as Hvr by lia. destruct (PGROUNDDOWN_user va Hvr) as (Hu & E & Hr).
  assert (present (pte (km_mem k) pgdir (PGROUNDDOWN va)) = true) as Hpr by (apply Hpres; [done|lia]).
  destruct (decide (Z.land (pte (km_mem k) pgdir (PGROUNDDOWN va)) PTE_U = 0)) as [Hnu|Hus].
  { exists (-1), k. split; [|split; [done|split; [done|split; [done|by left]]]].
    apply copyout_bad; [lia|by apply pte_pde|]. intros (_ & _ & ?). done. }
  assert (user_ok (km_mem k) pgdir (PGROUNDDOWN va)) as Hok by (split; [by apply pte_pde|done]).
  cbn [copyout_loop]. rewrite (proj2 (Z.ltb_lt 0 len)) by lia. rewrite (bind_run _ _ _ _ _ (uva2ka_ok pgdir _ k Hok)).
  destruct (sp_frame _ _ _ _ (vi_sp _ _ _ _ _ Hv) _ Hu Hpr) as (F1 & F2 & _).
  rewrite (proj2 (Z.eqb_neq _ _)) by (destruct (page_bounds _ _ F1) as (? & ? & ? & ? & ?); lia).
  set (n := if len <? PGSIZE - (va - PGROUNDDOWN va) then len else PGSIZE - (va - PGROUNDDOWN va)).
  assert (0 < n <= len ∧ va mod 4096 + n <= 4096 ∧ (n < len → va + n = PGROUNDDOWN va + 4096)) as (Hn & Hnp & Hnl).
  { unfold n, PGSIZE. destruct (Z.ltb_spec len (4096 - (va - PGROUNDDOWN va))); lia. }
  clearbody n. rewrite on_mem_run. replace (frame (km_mem k) pgdir (PGROUNDDOWN va) + (va - PGROUNDDOWN va))
    with (translate (km_mem k) pgdir va) by (unfold translate; lia).
  destruct (copy_page kend k l pgdir own va p n Hv Hvr Hok) as (Hv1 & Hsk1 & [_ Hx1] & _); [lia|lia|].
  set (k1 := KmSt _ _ _) in *.
  assert (∀ i, 0 <= i < n → PGROUNDDOWN (va + i) = PGROUNDDOWN va ∧ (va + i) mod 4096 = va mod 4096 + i) as Hpg.
  { intros i Hi. rewrite !PGROUNDDOWN_eq. Z.to_euclidean_division_equations; lia. }
  assert (outside (pool own l) (km_mem k) (km_mem k1)) as Ho1.
  { intros x Hx. apply Hx1. intros i Hi ->. apply (Hx _ (or_introl F2)). unfold translate.
    destruct (Hpg i Hi) as [-> ->]. lia. }
  destruct (decide (n = len)) as [->|Hne].
  - exists 0, k1. destruct fuel as [|fuel]; [lia|]. cbn [copyout_loop]. rewrite Z.sub_diag. change (0 <? 0) with false.
    split; [done|]. split; [done|]. split; [done|]. split; [done|]. right. split; [done|].
    intros i Hi. by destruct (Hpg i Hi) as [-> _].
  - assert (u32 (PGROUNDDOWN va + PGSIZE) = va + n) as ->.
    { rewrite Hnl by lia. unfold PGSIZE. apply u32_small. unfold is_u32, KERNBASE in *. lia. }
    assert ((va + n) mod 4096 = 0) as Hm0.
    { rewrite Hnl by lia. destruct Hu as [_ Hu]. by rewrite Z.add_mod, Hu by done. }
    destruct (IH k1 (va + n) (p + n) (len - n) Hv1) as (r & k2 & H2 & Hv2 & Hsk2 & Ho2 & Hr2); [lia|lia|lia|done| |lia|].
    { intros va' Hu' Hlt. rewrite (skel_pte _ _ _ _ Hsk1). by apply Hpres. }
    exists r, k2. split; [done|]. split; [done|]. split; [by eapply skel_trans|]. split.
    { intros x Hx. rewrite Ho2 by done. by apply Ho1. }
    destruct Hr2 as [->|[-> Hr2]]; [by left|right]. split; [done|]. intros i Hi. destruct (Z.lt_ge_cases i n) as [Hin|Hin].
    { by destruct (Hpg i ltac:(lia)) as [-> _]. }
    eapply skel_user_ok'; [exact Hsk1|]. replace (va + i) with (va + n + (i - n)) by lia. apply Hr2. lia.
Qed.

(** *** The finished image

    [sz] bytes from 0 on are mapped for the user, but for the guard page below the
    stack page. *)
Record ximg (sz : Z) k l own : Prop := {
  xi_base : xbase k l own;
  xi_sz : 8192 <= sz < KERNBASE ∧ sz mod 4096 = 0;
  xi_in : ∀ va, upage va → present (pte (km_mem k) pgdir va) = true ↔ va < sz;
  xi_user : ∀ va, upage va → va < sz → Z.land (pte (km_mem k) pgdir va) PTE_U ≠ 0 ↔ va ≠ sz - 8192;
  xi_kern : maps_kernel kdata (km_mem k) pgdir
}.

Lemma ximg_skel sz k l own k' :
  ximg sz k l own → vinv k' l pgdir own → skel_same pgdir (km_mem k) (km_mem k') →
  (∀ x, kept x → km_mem k' x = km_mem k x) → ximg sz k' l own.
Proof.
  intros [[Hv Hp Ho] Hsz Hin Hus Hkn] Hv' Hsk Hout. split; [split; [done|done|]|done|..].
  - intros x Hx. rewrite Hout by done. by apply Ho.
  - intros va Hu. rewrite (skel_pte _ _ _ _ Hsk). by apply Hin.
  - intros va Hu Hr. rewrite (skel_pte _ _ _ _ Hsk). by apply Hus.
  - intros va Hu Hr. rewrite (skel_pte _ _ _ _ Hsk). by apply Hkn.
Qed.

Lemma land_4_page f : page f → Z.land (V2P f + 7) (Z.lnot PTE_U) = V2P f + 3 ∧ Z.land (V2P f + 7) PTE_U ≠ 0 ∧ Z.land (V2P f + 3) PTE_U = 0.
Proof.
  intros Hf. destruct (V2P_page _ _ Hf) as (_ & Hm & Hr).
  assert (∀ j, 0 <= j < 4096 → Z.land (V2P f + j) PTE_U = Z.land j PTE_U) as Hl.
  { intros j Hj. change PTE_U with (Z.land 0xFFF PTE_U) at 1. rewrite Z.land_assoc.
    change (Z.land (V2P f + j) 0xFFF) with (PTE_FLAGS (V2P f + j)). by destruct (pte_frame _ f j Hf Hj) as (_ & -> & _). }
  split; [|split; [rewrite Hl by lia; done|rewrite Hl by lia; done]].
  rewrite <-(lor_page (V2P f) 7), <-(lor_page (V2P f) 3) by (done || lia). rewrite Z.land_lor_distr_l.
  change (Z.land 7 (Z.lnot PTE_U)) with 3. f_equal. rewrite <-Z.ldiff_land.
  pose proof (Z.lor_ldiff_and (V2P f) PTE_U) as H. pose proof (Hl 0 ltac:(lia)) as H0.
  rewrite Z.add_0_r in H0. rewrite H0 in H. change (Z.land 0 PTE_U) with 0 in H. by rewrite Z.lor_0_r in H.
Qed.

(** clearpteu of the page two below the top. *)
Lemma xguard sz k l own :
  xmem sz k l own → 8192 <= sz → sz mod 4096 = 0 → sz < KERNBASE →
  ∃ k', clearpteu pgdir (sz - 8192) k = Ok tt k' ∧ ximg sz k' l own.
Proof.
  intros [[Hv Hp Ho] Hsz Hin Hus Hkn] H8 Hm Hlt. set (g := sz - 8192).
  assert (upage g) as Hu by (unfold g, upage; Z.to_euclidean_division_equations; lia).
  assert (present (pte (km_mem k) pgdir g) = true) as Hpr by (apply Hin; [done|unfold g; lia]).
  pose proof (pte_pde _ _ _ Hpr) as Hpd. pose proof (vi_sp _ _ _ _ _ Hv) as Hs.
  destruct (sp_frame _ _ _ _ Hs g Hu Hpr) as (F1 & _). pose proof (Hus g Hu ltac:(unfold g; lia)) as Eg.
  destruct (land_4_page _ F1) as (E3 & E7 & E0). destruct (pte_frame kend _ 3 F1) as (_ & _ & Hu3 & Ha3); [lia|].
  destruct (pte_frame kend _ 7 F1) as (_ & _ & _ & Ha7); [lia|].
  set (v := V2P (frame (km_mem k) pgdir g) + 3) in *.
  destruct (set_pte kend (km_mem k) pgdir own g v Hs Hpd Hu3) as (_ & Hpte & Hout).
  set (m' := store32 (km_mem k) (tab (km_mem k) pgdir (PDX g) + 4 * PTX g) v) in *.
  assert (present v = true) as Hpv by (by destruct (pte_value kend _ 3 F1) as (_ & _ & ?)).
  assert (space kend m' pgdir own) as Hs'.
  { apply space_flags; [done|done|done|done|by rewrite Hpv, Hpr|]. rewrite Eg, Ha7. exact Ha3. }
  destruct (sp_tab _ _ _ _ Hs _ (PDX_range g) Hpd) as (T1 & T2 & _).
  assert (vinv (KmSt m' (use_lock k) (freelist k)) l pgdir own) as Hv'.
  { apply (vinv_mem kend k l pgdir own); [done|apply store32_ok, Hv|done|apply Hv|]. intros p x Hpl Hx.
    apply Hout. intros Hxt. apply (is_page_apart kend p (tab (km_mem k) pgdir (PDX g)) x x); try done.
    - eapply free_page; [apply Hv|done]. - intros ->. by apply (vi_dis _ _ _ _ _ Hv _ T2). }
  assert (∀ va, vpage va → pte m' pgdir va = if decide (va = g) then v else pte (km_mem k) pgdir va) as Hpte'.
  { intros va Hva. rewrite Hpte. pose proof (same_page_vpage g va (upage_vpage _ Hu) Hva). repeat case_decide; tauto. }
  eexists. split; [|split; [split; [exact Hv'|done|]|split; [lia|done]|..]]; cbn [km_mem].
  - unfold clearpteu. rewrite (bind_run _ _ _ _ _ (walk_present pgdir g false k Hpd)).
    rewrite run_panic_if by (apply Z.eqb_neq; by apply (slot_nonzero kend _ _ own)). unfold rd32. run.
    assert (load32 (km_mem k) (slot (km_mem k) pgdir g) = pte (km_mem k) pgdir g) as -> by (unfold pte; by rewrite Hpd).
    rewrite Eg, E3. reflexivity.
  - intros x Hx. rewrite Hout; [by apply Ho|]. apply (proj1 Hx). apply Hp. by left.
  - intros va Hva. rewrite Hpte' by by apply upage_vpage. case_decide as Hd; [|by apply Hin].
    subst va. rewrite Hpv. split; [unfold g; lia|done].
  - intros va Hva Hr. rewrite Hpte' by by apply upage_vpage. fold g. case_decide as Hd; [subst va; by rewrite E0|].
    assert (present (pte (km_mem k) pgdir va) = true) as Hpr' by (by apply Hin).
    destruct (sp_frame _ _ _ _ Hs va Hva Hpr') as (F1' & _). destruct (land_4_page _ F1') as (_ & E7' & _).
    rewrite (Hus va Hva Hr). tauto.
  - intros va Hva Hge. rewrite Hpte' by done. rewrite decide_False; [by apply Hkn|]. intros ->. destruct Hu. lia.
Qed.

(** *** The arguments *)

(** ustack is not in the pages that were free. *)
Hypothesis ustack_l0 : ∀ x p, ustack <= x < ustack + 144 → p ∈ l0 → ¬ (p <= x < p + 4096).

(** A string of the caller, of less than 32 MB. *)
Record arg_ok (a : Z) (s : list Z) : Prop := {
  ar_str : cstr m0 a s;
  ar_len : Z.of_nat (length s) + 5 <= 0x2000000;
  ar_kept : ∀ i, 0 <= i <= Z.of_nat (length s) → kept (a + i)
}.

Lemma arg_now sz k l own a s : ximg sz k l own → arg_ok a s → cstr (km_mem k) a s.
Proof.
  intros Hx [H1 H2 H3]. eapply (cstr_move m0); [|exact H1]. intros i Hi. apply (xb_out _ _ _ (xi_base _ _ _ _ Hx)). by apply H3.
Qed.

Lemma ximg_copyout sz k l own va p len :
  ximg sz k l own → 0 <= len → (0 <= va ∧ va + len <= sz) ∨ (0 < len ∧ DEVSPACE <= va < 4294967296) →
  ∃ r k', copyout pgdir va p len k = Ok r k' ∧ ximg sz k' l own ∧
    (r = -1 ∨ r = 0 ∧ 0 <= va ∧ va + len <= sz ∧ ∀ i, 0 <= i < len → PGROUNDDOWN (va + i) ≠ sz - 8192).
Proof.
  intros Hx Hlen Hva. pose proof Hx as [[Hv Hp Ho] [Hsz Hm] Hin Hus Hkn]. destruct Hva as [[Hva Hend]|[Hl0 Hva]].
  - destruct (copyout_any npages sz k l own va len p) as (r & k' & H & Hv' & Hsk & Hout & Hr); [done|done|done|done|lia| | |].
    { intros va' Hu' Hlt. by apply Hin. }
    { pose proof (Z.mod_pos_bound va 4096 ltac:(done)). unfold npages, KERNBASE in *. lia. }
    exists r, k'. split; [exact H|]. split.
    { eapply ximg_skel; [exact Hx|done|done|]. intros x Hxk. apply Hout. intros q Hq. apply Hxk. by apply Hp. }
    destruct Hr as [->|[-> Hr]]; [by left|right]. do 3 (split; [done|]). intros i Hi.
    destruct (Hr i Hi) as (_ & Hpr & Hu). destruct (PGROUNDDOWN_user (va + i)) as (Hup & _ & _); [lia|].
    apply Hus; [done|by apply Hin|done].
  - exists (-1), k. split; [|split; [done|by left]]. unfold copyout. rewrite npages_S.
    assert (vpage (PGROUNDDOWN va) ∧ DEVSPACE <= PGROUNDDOWN va) as [Hvp Hge].
    { unfold DEVSPACE in *. rewrite PGROUNDDOWN_eq. unfold vpage. Z.to_euclidean_division_equations; lia. }
    assert (pte (km_mem k) pgdir (PGROUNDDOWN va) = leaf (PGROUNDDOWN va) PTE_W) as E.
    { rewrite Hkn by (done || (unfold DEVSPACE, KERNBASE in *; lia)). unfold kernel_pte.
      destruct kdata_ok as [? _]. unfold KERNLINK, EXTMEM, DEVSPACE, KERNBASE, PHYSTOP in *. by repeat case_decide; try lia. }
    destruct Hvp as [Hr1 Hr2]. destruct (leaf_eq (PGROUNDDOWN va) PTE_W) as (El & _ & _ & Hpr & _); [done|done|done|].
    apply copyout_bad; [done|apply pte_pde; by rewrite E|]. intros (_ & _ & Hu). apply Hu. rewrite E, El.
    change PTE_U with (Z.land 0xFFF PTE_U). rewrite Z.land_assoc. fold (PTE_FLAGS (PGROUNDDOWN va + Z.lor PTE_W 1)).
    rewrite PTE_FLAGS_eq, Zplus_mod, Hr2, Z.add_0_l, Z.mod_mod by done. done.
Qed.

Lemma ximg_ustack sz k l own i v :
  ximg sz k l own → 0 <= i <= 35 → ∃ k', wr32 (ustack + 4 * i) v k = Ok tt k' ∧ ximg sz k' l own.
Proof.
  intros Hx Hi. pose proof Hx as [[Hv Hp Ho] _ _ _ _].
  destruct (wr32_aside kend k l pgdir own (ustack + 4 * i) v Hv) as (k' & H & Hm & Hv' & Hsk).
  { intros x Hxr p Hpp. apply ustack_l0; [lia|by apply Hp]. }
  exists k'. split; [done|]. eapply ximg_skel; [exact Hx|done|done|]. intros x [_ Hxk]. rewrite Hm. apply store32_ne. lia.
Qed.

(** Below the stack page lies the guard page: what fits is in the stack page. *)
Lemma push_args_any sz strs : ∀ argv k l own argc sp,
  ximg sz k l own → Forall2 arg_ok argv strs → 0 <= argc <= 32 → sz - 4096 <= sp <= sz →
  ∃ r k', push_args pgdir ustack argv argc sp k = Ok r k' ∧ ximg sz k' l own ∧
    match r with None => True | Some (argc', sp') => argc <= argc' <= 32 ∧ sz - 4096 <= sp' <= sp end.
Proof.
  induction strs as [|s strs IH]; intros argv k l own argc sp Hx Hargs Hac Hsp; inversion Hargs as [|a ? argv' ? Ha Hargs' E1 E2]; subst.
  { exists (Some (argc, sp)), k. cbn [push_args]. split; [done|]. split; [done|lia]. }
  cbn [push_args]. destruct (Z.leb_spec (Z.of_nat MAXARG) argc) as [Hmax|Hmax]; [exists None, k; split; [reflexivity|by split]|].
  assert (argc < 32) as Hac' by (unfold MAXARG in Hmax; lia). clear Hmax.
  assert (user_strlen (km_mem k) a = Some (Z.of_nat (length s))) as Hlen.
  { apply KernelSpec.strlen_spec; [by eapply arg_now|]. destruct Ha as [_ Ha _]. unfold KERNBASE. lia. }
  run. rewrite Hlen. clear Hlen. destruct Ha as [_ Hl _]. pose proof Hx as [_ [Hsz Hszm] _ _ _].
  set (n := Z.of_nat (length s)) in *. assert (0 <= n) by (unfold n; lia). clearbody n. unfold KERNBASE in Hsz.
  rewrite (u32_small (n + 1)) by (unfold is_u32; lia). set (sp' := Z.land (u32 (sp - (n + 1))) (Z.lnot 3)).
  assert (sp' = u32 (sp - (n + 1)) - u32 (sp - (n + 1)) mod 4) as Esp by (unfold sp'; by rewrite land_not_3).
  assert ((0 <= sp' ∧ sp - (n + 1) - 3 <= sp' <= sp - (n + 1)) ∨ DEVSPACE <= sp' < 4294967296) as Hsp'.
  { unfold DEVSPACE. destruct (Z.lt_ge_cases (sp - (n + 1)) 0) as [Hneg|Hpos]; [right|left].
    - assert (u32 (sp - (n + 1)) = sp - (n + 1) + 4294967296) as Eu.
      { unfold u32. symmetry. apply (Z.mod_unique _ _ (-1)); lia. }
      rewrite Esp, Eu. Z.to_euclidean_division_equations; lia.
    - rewrite Esp, u32_small by (unfold is_u32; lia). Z.to_euclidean_division_equations; lia. }
  clearbody sp'. clear Esp.
  destruct (ximg_copyout sz k l own sp' a (n + 1) Hx) as (r & k1 & H1 & Hx1 & Hr); [lia|destruct Hsp'; lia|].
  rewrite (bind_run _ _ _ _ _ H1). destruct Hr as [->|(-> & Hpos & Hend & Hg)].
  { exists None, k1. split; [reflexivity|]. split; [exact Hx1|exact I]. }
  change (0 <? 0) with false. cbv iota.
  destruct (ximg_ustack sz k1 l own (3 + argc) sp' Hx1) as (k2 & H2 & Hx2); [lia|]. rewrite (bind_run _ _ _ _ _ H2).
  assert (sz - 4096 <= sp' <= sp) as Hin.
  { assert (sp - (n + 1) - 3 <= sp' <= sp - (n + 1)) as Hs1 by (unfold DEVSPACE in Hsp'; lia).
    split; [|lia]. destruct (Z.lt_ge_cases sp' (sz - 4096)) as [Hlow|]; [|done]. exfalso.
    apply (Hg (Z.max 0 (sz - 8192 - sp'))); [lia|]. rewrite PGROUNDDOWN_eq. Z.to_euclidean_division_equations; lia. }
  destruct (IH argv' k2 l own (argc + 1) sp' Hx2 Hargs') as (r & k3 & H3 & Hx3 & Hr3); [lia|lia|].
  exists r, k3. split; [exact H3|]. split; [done|]. destruct r as [[argc' sp'']|]; [lia|done].
Qed.

Lemma exec_stack_any sz strs argv k l own :
  ximg sz k l own → Forall2 arg_ok argv strs →
  ∃ r k', exec_stack pgdir ustack argv sz k = Ok r k' ∧ ximg sz k' l own ∧
    match r with None => True | Some sp => sz - 4096 <= sp < sz end.
Proof.
  intros Hx Hargs. unfold exec_stack.
  destruct (push_args_any sz strs argv k l own 0 sz Hx Hargs) as (r & k1 & H1 & Hx1 & Hr); [lia|lia|].
  rewrite (bind_run _ _ _ _ _ H1). destruct r as [[argc sp]|]; [|exists None, k1; split; [reflexivity|by split]].
  pose proof Hx as [_ [Hsz Hm] _ _ _]. unfold KERNBASE in Hsz.
  destruct (ximg_ustack sz k1 l own (3 + argc) 0 Hx1) as (k2 & H2 & Hx2); [lia|]. rewrite (bind_run _ _ _ _ _ H2).
  destruct (ximg_ustack sz k2 l own 0 0xffffffff Hx2) as (k3 & H3 & Hx3); [lia|]. rewrite Z.mul_0_r, Z.add_0_r in H3.
  rewrite (bind_run _ _ _ _ _ H3).
  destruct (ximg_ustack sz k3 l own 1 argc Hx3) as (k4 & H4 & Hx4); [lia|]. rewrite (bind_run _ _ _ _ _ H4).
  destruct (ximg_ustack sz k4 l own 2 (u32 (sp - (argc + 1) * 4)) Hx4) as (k5 & H5 & Hx5); [lia|].
  rewrite (bind_run _ _ _ _ _ H5). cbv zeta. rewrite u32_small by (unfold is_u32; lia).
  set (sp' := sp - (3 + argc + 1) * 4). assert (sz - 4096 - 144 <= sp' <= sz - 16) as Hsp by (unfold sp'; lia).
  destruct (ximg_copyout sz k5 l own sp' ustack ((3 + argc + 1) * 4) Hx5) as (r & k6 & H6 & Hx6 & Hr6); [lia|unfold sp' in *; lia|].
  rewrite (bind_run _ _ _ _ _ H6). destruct Hr6 as [->|(-> & _ & _ & Hg)].
  - exists None, k6. split; [reflexivity|by split].
  - exists (Some sp'), k6. split; [reflexivity|]. split; [done|]. split; [|lia].
    destruct (Z.lt_ge_cases sp' (sz - 4096)) as [Hlow|]; [|done]. exfalso. apply (Hg 0); [lia|].
    rewrite PGROUNDDOWN_eq. Z.to_euclidean_division_equations; lia.
Qed.

Lemma xround sz k l own : xmem sz k l own → xmem (PGROUNDUP sz) k l own.
Proof.
  intros [Hb Hsz Hin Hus Hkn]. destruct (PGROUNDUP_user sz Hsz) as (_ & ? & ?). split; [done|lia| | |done].
  - intros va Hu. rewrite PGROUNDUP_below by done. by apply Hin.
  - intros va Hu. rewrite PGROUNDUP_below by done. by apply Hus.
Qed.

(** The second half of exec, whatever the arguments: the image or nothing. *)
Lemma exec_image_any sz strs argv k l own :
  xmem sz k l own → Forall2 arg_ok argv strs →
  ∃ r k' l' own', exec_image kend ustack pgdir argv sz k = Ok r k' ∧
    match r with
    | None => xbase k' l' own'
    | Some (sz', sp) => sz' = PGROUNDUP sz + 8192 ∧ ximg sz' k' l' own' ∧ sz' - 4096 <= sp < sz'
    end.
Proof.
  intros Hx Hargs. pose proof (xm_sz _ _ _ _ Hx) as Hsz. destruct (PGROUNDUP_user sz Hsz) as (Hm & Hr & Hk).
  unfold exec_image. cbv zeta. unfold KERNBASE in Hsz, Hk.
  rewrite (u32_small (PGROUNDUP sz + 2 * PGSIZE)) by (unfold is_u32, PGSIZE; lia).
  destruct (xalloc (PGROUNDUP sz) (PGROUNDUP sz + 2 * PGSIZE) k l own (xround _ _ _ _ Hx)) as (r & k1 & l1 & own1 & H1 & Hr1).
  { unfold is_u32, PGSIZE. lia. }
  rewrite (bind_run _ _ _ _ _ H1). change (2 * PGSIZE) with 8192 in *. destruct Hr1 as [[-> Hb]|[-> Hx1]].
  { exists None, k1, l1, own1. split; [reflexivity|done]. }
  rewrite Z.max_r in * by lia. rewrite (proj2 (Z.eqb_neq _ _)) by lia. set (sz' := PGROUNDUP sz + 8192) in *.
  assert (sz' mod 4096 = 0) as Hm' by (unfold sz'; rewrite Z.add_mod, Hm by done; done).
  assert (sz' < KERNBASE) as Hlt.
  { destruct (Z.lt_ge_cases sz' KERNBASE) as [|Hge]; [done|]. exfalso. unfold allocuvm in H1.
    rewrite (proj2 (Z.leb_le _ _)) in H1 by done. injection H1. unfold sz'. lia. }
  rewrite u32_small by (unfold is_u32, sz', KERNBASE in *; lia).
  destruct (xguard sz' k1 l1 own1 Hx1) as (k2 & H2 & Hx2); [unfold sz'; lia|done|done|]. rewrite (bind_run _ _ _ _ _ H2).
  destruct (exec_stack_any sz' strs argv k2 l1 own1 Hx2 Hargs) as (r & k3 & H3 & Hx3 & Hr3). rewrite (bind_run _ _ _ _ _ H3).
  destruct r as [sp|]; eexists _, k3, l1, own1; (split; [reflexivity|]).
  - split; [done|]. by split.
  - apply Hx3.
Qed.
End pgdir.
End image.
