(* ===== verification/ExecSpec.v ===== *)
(** * exec keeps the kernel's books

    Every path through exec, with the inodes and transactions of the ledger of
    SyspathSpec.v and the pages of VmSpec.v. *)

From S2P Require Import Prelude Cstring Kalloc Vm VmSpec VmCopy Sleeplock Disk Bio Log Blocks Fs FsSpec Pipe File FileSpec.
From S2P Require Import Spinlock Proc Syscall Sysfile Syspath SyspathSpec Exec ExecStack ExecImage.

Section exec.
Context {K : Type} `{!BlockLayer K, !TxLayer K}.
Context (devsw_read : Z → option (nat → Z → M (fsst K) (Z * list Z))).
Context (devsw_write : Z → option (nat → list Z → M (fsst K) Z)).
Context (kend kdata : Z) (initcode initsize : Z) (initlog : M K unit) (c : nat) (ustack : Z).
#[local] Instance env : ProcEnv (kenv K) := kernel_env devsw_read devsw_write kend kdata initcode initsize initlog.
Implicit Types (f : fsst K) (s : pst (kenv K)) (l : led).

(** ** The parts of the state that exec works on *)

Definition fs_at s : fsst K := en_fs (fenv (ke_files (ps_env s))).
Definition km_at s : kmst := en_km (fenv (ke_files (ps_env s))).
Definition put_ex f k s : pst (kenv K) :=
  let t := ke_files (ps_env s) in
  Proc.put_env (Exec.put_files (Filest (ftable t) (pipes t) (FsEnv f k)) (ps_env s)) s.

Lemma put_ex_id s : s = put_ex (fs_at s) (km_at s) s.
Proof. by destruct s as [? ? ? ? ? ? [[? ? [? ?]] ? ? ?]]. Qed.

Lemma wlp_kfs {A} (m : M (fsst K) A) (P : A → fsst K → Prop) f k s :
  wlp m P f → wlp (ee (kfs m)) (λ a s', ∃ f', s' = put_ex f' k s ∧ P a f') (put_ex f k s).
Proof.
  intros H. unfold wlp, ee, kfs, kfiles, fe, infs, zoom in *. cbn. destruct (m f); try done. by eexists.
Qed.

Lemma wlp_kfs_seq {A B} (m : M (fsst K) A) (n : A → M (pst (kenv K)) B) (P : A → fsst K → Prop) Q f k s :
  wlp m P f → (∀ a f', P a f' → wlp (n a) Q (put_ex f' k s)) → wlp (ee (kfs m) ≫= n) Q (put_ex f k s).
Proof. intros Hm Hn. eapply wlp_seq; [by apply wlp_kfs|]. cbv beta. intros a s' (f' & -> & H). by apply Hn. Qed.

Lemma wlp_kmem_seq {A B} (m : M kmst A) (n : A → M (pst (kenv K)) B) Q f k s a k' :
  m k = Ok a k' → wlp (n a) Q (put_ex f k' s) → wlp (ee (kmem m) ≫= n) Q (put_ex f k s).
Proof.
  intros Hm Hn. eapply wlp_run; [|exact Hn]. unfold ee, kmem, kfiles, fe, inkm, zoom. cbn. rewrite Hm. reflexivity.
Qed.

Lemma wlp_both {T A} (m : M T A) (P Q : A → T → Prop) (t : T) : wlp m P t → wlp m Q t → wlp m (λ a t', P a t' ∧ Q a t') t.
Proof. unfold wlp. by destruct (m t). Qed.

Lemma curproc_wlp s : wlp (curproc c) (λ p s', (∃ m, s' = put_mach m s) ∧ ∃ s1, curproc c s = Ok p s1) s.
Proof.
  unfold wlp. destruct (curproc c s) as [p s'| | |] eqn:E; try done. split; [|by exists s'].
  unfold curproc, myproc, mm, zoom, mbind, M_bind in E. cbn in E.
  destruct (pushcli c (ps_mach s)) as [[] m1| | |]; try done. destruct (mycpu c m1) as [i m2| | |]; try done. cbn in E.
  destruct (popcli c m2) as [[] m3| | |]; try done. cbn in E. destruct (c_proc (cpu_of i m2)); [|done].
  injection E as _ <-. by exists m3.
Qed.

Lemma switchuvm_wlp p s : wlp (switchuvm c p) (λ _ s', p_kstack (proc_of p s) ≠ 0 ∧ ps_table s' = ps_table s ∧
  ke_files (ps_env s') = ke_files (ps_env s) ∧ ke_cr3 (ps_env s') = V2P (p_pgdir (proc_of p s))) s.
Proof.
  unfold wlp. destruct (switchuvm c p s) as [[] s'| | |] eqn:E; try done.
  unfold switchuvm, mbind, M_bind, gets, panic_if in E.
  destruct (Z.eqb_spec (p_kstack (proc_of p s)) 0) as [|Hk]; [done|]. cbn in E.
  destruct (p_pgdir (proc_of p s) =? 0); [done|]. cbn in E. unfold mm, ee, zoom in E. cbn in E.
  destruct (pushcli c (ps_mach s)) as [[] m1| | |]; try done. cbn in E.
  destruct (popcli c m1) as [[] m2| | |]; try done. injection E as <-. done.
Qed.

(** ** readi *)

Hypothesis devsw_read_snap : ∀ major rd ip n, devsw_read major = Some rd → same snap (rd ip n).
Hypothesis devsw_read_len : ∀ major rd ip n f, devsw_read major = Some rd →
  wlp (rd ip n) (λ r _, Z.of_nat (length r.2) <= Z.max 0 n) f.

Lemma readi_loop_len fuel ip : ∀ tot off n acc f,
  wlp (readi_loop fuel ip tot off n acc) (λ r _, Z.of_nat (length r) <= Z.of_nat (length acc) + Z.max 0 (n - tot)) f.
Proof.
  induction fuel as [|fuel IH]; intros tot off n acc f; cbn [readi_loop]; [done|].
  destruct (Z.ltb_spec tot n) as [Hlt|Hge]; [|unfold wlp, mret, M_ret; lia].
  eapply (wlp_seq _ _ (λ _ _, True)); [by unfold wlp, gets|]. intros i f1 _.
  eapply (wlp_seq _ _ (λ _ _, True)); [by unfold wlp; destruct (bmap _ _ _)|]. intros a f2 _.
  eapply (wlp_seq _ _ (λ _ _, True)); [by unfold wlp; destruct (kk _ _)|]. intros b f3 _.
  eapply (wlp_seq _ _ (λ _ _, True)); [by unfold wlp, gets|]. intros d f4 _.
  eapply (wlp_seq _ _ (λ _ _, True)); [by unfold wlp; destruct (kk _ _)|]. intros [] f5 _.
  set (m := Z.min _ _). assert (0 <= m <= n - tot) as Hm.
  { unfold m. pose proof (Z.mod_pos_bound off BSZ ltac:(done)). unfold BSZ in *. lia. }
  eapply wlp_mono; [apply IH|]. cbv beta. intros r f6 Hr. rewrite length_app in Hr.
  assert (length (sub d (Z.to_nat (off mod BSZ)) (Z.to_nat m)) <= Z.to_nat m)%nat.
  { unfold sub. rewrite length_take. lia. }
  lia.
Qed.

Lemma readi_len ip off n f : wlp (readi devsw_read ip off n) (λ r _, Z.of_nat (length r.2) <= Z.max 0 n) f.
Proof.
  unfold readi. eapply (wlp_seq _ _ (λ _ _, True)); [by unfold wlp, gets|]. intros i f1 _.
  destruct (_ =? T_DEV).
  - destruct (_ || _); [unfold wlp, mret, M_ret; simpl; lia|].
    destruct (devsw_read _) eqn:E; [by eapply devsw_read_len|unfold wlp, mret, M_ret; simpl; lia].
  - destruct (_ || _); [unfold wlp, mret, M_ret; simpl; lia|].
    set (n' := if _ <? _ then _ else n). assert (n' <= n) as Hn by (unfold n'; destruct (Z.ltb_spec (d_size (i_d i)) (off + n)); lia).
    eapply wlp_seq; [apply readi_loop_len|]. cbv beta. intros r f2 Hr. unfold wlp, mret, M_ret. cbn [snd length] in *. lia.
Qed.

Lemma readi_led l f ip off n : holds l f →
  wlp (readi devsw_read ip off n) (λ r f', holds l f' ∧ Z.of_nat (length r.2) <= Z.max 0 n) f.
Proof.
  intros Hl. apply wlp_both; [|apply readi_len]. eapply keep; [|exact Hl]. by apply snap_readi.
Qed.

(** ** Loading *)

Hypothesis kdata_ok : KERNLINK < kdata < KERNBASE + PHYSTOP ∧ kdata mod 4096 = 0.
Hypothesis kend_ok : KERNBASE < kend.
Abbreviation vinv := (vinv kend).

Lemma store_bytes_ok m a b : mem_ok m → mem_ok (store_bytes m a b).
Proof. intros Hm x. rewrite store_bytes_spec. case_decide; [apply u8_range|apply Hm]. Qed.

Section image.
Variables (m0 : mem) (l0 : list Z).
Abbreviation xbase := (xbase kend m0 l0 ustack).
Abbreviation xmem := (xmem kend kdata m0 l0 ustack).

(** One page of a segment. *)
Lemma load_page pgdir sz k fl own va (b : list Z) :
  xmem pgdir sz k fl own → upage va → va < sz → Z.of_nat (length b) <= 4096 →
  ∃ fr, walkpgdir pgdir va false k = Ok (slot (km_mem k) pgdir va) k ∧ slot (km_mem k) pgdir va ≠ 0 ∧
    P2V (PTE_ADDR (load32 (km_mem k) (slot (km_mem k) pgdir va))) = fr ∧
    xmem pgdir sz (KmSt (store_bytes (km_mem k) fr b) (use_lock k) (freelist k)) fl own.
Proof.
  intros Hx Hu Hlt Hb. pose proof Hx as [[Hv _ _] _ Hin _ _].
  assert (present (pte (km_mem k) pgdir va) = true) as Hpr by (by apply Hin). pose proof (pte_pde _ _ _ Hpr) as Hpd.
  exists (frame (km_mem k) pgdir va). split; [by apply walk_present|]. split; [by apply (slot_nonzero kend _ _ own); [apply Hv|]|].
  split; [unfold frame, pte; by rewrite Hpd|].
  eapply xwrite; [exact Hx|exact Hu|done|apply store_bytes_ok, Hv|].
  intros x Hxf. rewrite store_bytes_spec, decide_False; [done|lia].
Qed.

Lemma loaduvm_wlp l ip pgdir va off n sz fl own s fuel : ∀ i f k,
  holds l f → xmem pgdir sz k fl own → va mod 4096 = 0 → i mod 4096 = 0 → 0 <= i → 0 <= va → va + n <= sz →
  wlp (loaduvm_loop (λ A m, ee (kmem m)) (read_to devsw_read ip) fuel pgdir va off n i)
    (λ _ s', ∃ f' k', s' = put_ex f' k' s ∧ holds l f' ∧ xmem pgdir sz k' fl own) (put_ex f k s).
Proof.
  induction fuel as [|fuel IH]; intros i f k Hl Hx Hva Hi Hi0 Hva0 Hend; cbn [loaduvm_loop]; [done|].
  destruct (Z.ltb_spec i n) as [Hlt|Hge]; [|by exists f, k].
  pose proof (xm_sz _ _ _ _ _ _ _ _ _ _ Hx) as Hsz.
  assert (upage (va + i)) as Hu by (split; [lia|by rewrite Z.add_mod, Hva, Hi]).
  unfold KERNBASE in Hsz. rewrite (u32_small (va + i)) by (unfold is_u32; lia).
  destruct (load_page pgdir sz k fl own (va + i) [] Hx Hu) as (fr & Hw & Hs0 & Hfr & _); [lia|simpl; lia|].
  eapply wlp_kmem_seq; [exact Hw|]. rewrite (proj2 (Z.eqb_neq _ _)) by done. eapply wlp_run; [reflexivity|].
  eapply wlp_kmem_seq; [reflexivity|]. cbv zeta. rewrite Hfr.
  set (m := if n - i <? PGSIZE then n - i else PGSIZE). assert (0 < m <= 4096) as Hm.
  { unfold m, PGSIZE. destruct (Z.ltb_spec (n - i) 4096); lia. }
  unfold read_to. apply wlp_bind, wlp_bind. eapply wlp_mono.
  { apply wlp_kfs. by apply (readi_led l). }
  cbv beta. intros r s1 (f1 & -> & Hl1 & Hlen). 
  eapply (wlp_kmem_seq _ _ _ _ _ _ tt); [reflexivity|]. unfold wlp at 1, mret at 1, M_ret at 1.
  destruct (load_page pgdir sz k fl own (va + i) r.2 Hx Hu) as (fr' & _ & _ & Hfr' & Hx1); [lia|lia|].
  rewrite Hfr in Hfr'. subst fr'. destruct (_ =? m).
  - assert (u32 (i + PGSIZE) = i + 4096) as -> by (unfold PGSIZE; apply u32_small; unfold is_u32; lia).
    apply IH; [done|done|done|by rewrite Z.add_mod, Hi|lia|lia|lia].
  - by eexists f1, _.
Qed.

Lemma uint_range b off : is_u32 (uint_at b off).
Proof. apply u32_range. Qed.

(** The loop over the program headers. *)
Lemma load_segments_wlp l ip pgdir s n : ∀ off sz f k fl own,
  holds l f → xmem pgdir sz k fl own →
  wlp (load_segments devsw_read kend n pgdir ip off sz) (λ r s', ∃ f' k' fl' own', s' = put_ex f' k' s ∧ holds l f' ∧
    match r with Some sz' => xmem pgdir sz' k' fl' own' | None => xbase pgdir k' fl' own' end) (put_ex f k s).
Proof.
  induction n as [|n IH]; intros off sz f k fl own Hl Hx; cbn [load_segments]; [by exists f, k, fl, own|].
  pose proof (xm_base _ _ _ _ _ _ _ _ _ _ Hx) as Hb.
  eapply wlp_kfs_seq; [by apply (readi_led l)|]. cbv beta. intros r f1 [Hl1 _].
  destruct (negb _); [by exists f1, k, fl, own|]. cbv zeta. set (ph := ph_of r.2).
  destruct (negb _); [exact (IH _ _ _ _ _ _ Hl1 Hx)|]. destruct (Z.ltb_spec (ph_memsz ph) (ph_filesz ph)) as [|Hfs]; [by exists f1, k, fl, own|].
  destruct (Z.ltb_spec (u32 (ph_vaddr ph + ph_memsz ph)) (ph_vaddr ph)) as [|Hov]; [by exists f1, k, fl, own|].
  pose proof (uint_range r.2 8) as Hv. pose proof (uint_range r.2 20) as Hms.
  change (uint_at r.2 8) with (ph_vaddr ph) in Hv. change (uint_at r.2 20) with (ph_memsz ph) in Hms. unfold is_u32 in Hv, Hms.
  assert (u32 (ph_vaddr ph + ph_memsz ph) = ph_vaddr ph + ph_memsz ph) as Hsum.
  { unfold u32 in *. Z.to_euclidean_division_equations; lia. }
  rewrite Hsum in *.
  destruct (xalloc kend kdata kend_ok m0 l0 ustack pgdir sz (ph_vaddr ph + ph_memsz ph) k fl own Hx) as (r' & k1 & fl1 & own1 & H1 & Hr).
  { rewrite <-Hsum. apply u32_range. }
  eapply wlp_kmem_seq; [exact H1|]. destruct (Z.eqb_spec r' 0) as [->|Hr0].
  { exists f1, k1, fl1, own1. split; [done|]. split; [done|]. destruct Hr as [[_ ?]|[_ Hx1]]; [done|apply Hx1]. }
  destruct Hr as [[? _]|[Hmax Hx1]]; [done|]. pose proof (xm_base _ _ _ _ _ _ _ _ _ _ Hx1) as Hb1.
  destruct (Z.eqb_spec (ph_vaddr ph mod PGSIZE) 0) as [Hal|]; cbn [negb]; [|by exists f1, k1, fl1, own1].
  apply wlp_bind. unfold loaduvm. rewrite Hal. eapply wlp_run; [reflexivity|].
  eapply wlp_mono; [apply (loaduvm_wlp l ip pgdir _ _ _ r' fl1 own1 s npages 0 f1 k1 Hl1 Hx1); [exact Hal|done|lia|lia|lia]|].
  cbv beta. intros r2 s2 (f2 & k2 & -> & Hl2 & Hx2). destruct (r2 <? 0).
  - exists f2, k2, fl1, own1. split; [done|]. split; [done|apply Hx2].
  - exact (IH _ _ _ _ _ _ Hl2 Hx2).
Qed.

(** ** The two address spaces *)

Abbreviation page := (is_page kend).

Lemma own_page m pgdir own p : space kend m pgdir own → p ∈ own → page p.
Proof.
  intros Hs Hp. destruct (sp_own _ _ _ _ Hs p Hp) as [->|[(i & Hi & Hpi & ->)|(v1 & U1 & P1 & ->)]].
  - apply (sp_dir _ _ _ _ Hs). - by apply (sp_tab _ _ _ _ Hs). - by apply (sp_frame _ _ _ _ Hs).
Qed.

(** Freeing one of two address spaces keeps the other. *)
Lemma free_other k fl pgA ownA pgB ownB :
  vinv k fl pgA ownA → vinv k fl pgB ownB → (∀ p, p ∈ ownA → p ∉ ownB) →
  ∃ k' fl', freevm kend pgA k = Ok tt k' ∧ vinv k' fl' pgB ownB ∧ (∀ p, p ∈ fl' ↔ p ∈ ownA ∨ p ∈ fl) ∧
    skel_same pgB (km_mem k) (km_mem k') ∧ (∀ p x, p ∈ ownB → p <= x < p + 4096 → km_mem k' x = km_mem k x).
Proof.
  intros HA HB Hd. destruct (freevm_correct kend pgA k fl ownA kend_ok HA) as (k' & fl' & H & Hk & Hl & Ho).
  assert (∀ p x, p ∈ ownB → p <= x < p + 4096 → km_mem k' x = km_mem k x) as Hsame.
  { intros p x Hp Hx. apply Ho. intros q Hq Hqx. pose proof (own_page _ _ _ p (vi_sp _ _ _ _ _ HB) Hp) as Hpp.
    assert (page q) as Hqp by (destruct Hq; [by eapply own_page; [apply HA|]|by eapply free_page; [apply HA|]]).
    assert (q ≠ p) as Hne.
    { intros ->. destruct Hq as [Hq|Hq]; [by apply (Hd p)|by apply (vi_dis _ _ _ _ _ HB p)]. }
    by destruct (is_page_apart kend q p x x Hqp Hpp Hne Hqx Hx). }
  assert (skel_same pgB (km_mem k) (km_mem k')) as Hsk.
  { intros p x Hps Hx. destruct (skel_own _ _ _ _ _ (vi_sp _ _ _ _ _ HB) Hps) as [Hpo _]. by apply (Hsame p). }
  exists k', fl'. split; [done|]. split; [|done]. split; [done|eapply skel_space; [exact Hsk|apply HB]|].
  intros p Hp Hpl. apply Hl in Hpl as [Hpl|Hpl]; [by apply (Hd p)|by apply (vi_dis _ _ _ _ _ HB p)].
Qed.

Section old.
Variables (k0 : kmst) (oldpg : Z) (oldown : gset Z).
Hypothesis m0_eq : m0 = km_mem k0.
Hypothesis old_inv : vinv k0 l0 oldpg oldown.
Hypothesis ustack_ok : ∀ x p, ustack <= x < ustack + 144 → p ∈ oldown ∨ p ∈ l0 → ¬ (p <= x < p + 4096).
Hypothesis ustack_l0 : ∀ x p, ustack <= x < ustack + 144 → p ∈ l0 → ¬ (p <= x < p + 4096).
Abbreviation kept := (kept l0 ustack).

Lemma old_kept p x : p ∈ oldown → p <= x < p + 4096 → kept x.
Proof.
  intros Hp Hx. pose proof (own_page _ _ _ p (vi_sp _ _ _ _ _ old_inv) Hp) as Hpp. split.
  - intros q Hq Hqx. assert (page q) as Hqp by (eapply free_page; [apply old_inv|done]).
    apply (is_page_apart kend q p x x Hqp Hpp); [|done|done|done]. intros ->. by apply (vi_dis _ _ _ _ _ old_inv p).
  - intros Hu. by apply (ustack_ok x p Hu (or_introl Hp)).
Qed.

Lemma old_space k fl :
  km_inv kend k fl → (∀ p, p ∈ fl → p ∈ l0) → (∀ x, kept x → km_mem k x = m0 x) → vinv k fl oldpg oldown.
Proof.
  intros Hk Hl Hx. split; [done| |intros p Hp Hpl; by apply (vi_dis _ _ _ _ _ old_inv p), Hl].
  eapply skel_space; [|apply old_inv]. intros p x Hps Hxp.
  destruct (skel_own _ _ _ _ _ (vi_sp _ _ _ _ _ old_inv) Hps) as [Hpo _]. rewrite Hx, m0_eq; [done|]. by eapply old_kept.
Qed.

(** ** exec *)

(** What exec leaves behind when it fails: everything that it took is back. *)
Definition undone l s s' : Prop := ∃ f' k' fl', s' = put_ex f' k' s ∧ holds l f' ∧
  km_inv kend k' fl' ∧ (∀ p, p ∈ fl' ↔ p ∈ l0) ∧ ∀ x, kept x → km_mem k' x = m0 x.

Lemma exec_bad_wlp l pgdir ip f k s :
  match ip with
  | Some ip => (ip < NINODE)%nat ∧ ld_lock l ip = false ∧ holds (ld_hold ip true (ld_add ip 1 (ld_open 1 l))) f
  | None => holds l f
  end →
  (pgdir = 0 ∧ (∃ fl, km_inv kend k fl ∧ (∀ p, p ∈ fl ↔ p ∈ l0)) ∧ (∀ x, kept x → km_mem k x = m0 x) ∨
   pgdir ≠ 0 ∧ ∃ fl own, xbase pgdir k fl own) →
  wlp (exec_bad kend pgdir ip) (λ r s', r = -1 ∧ undone l s s') (put_ex f k s).
Proof.
  intros Hip Hk. unfold exec_bad.
  eapply (wlp_seq _ _ (λ _ s', ∃ k', s' = put_ex f k' s ∧ (∃ fl, km_inv kend k' fl ∧ (∀ p, p ∈ fl ↔ p ∈ l0)) ∧
    ∀ x, kept x → km_mem k' x = m0 x)).
  { destruct Hk as [(-> & Hfl & Hx)|(Hp & fl & own & Hb)]; [by exists k|]. rewrite (proj2 (Z.eqb_neq _ _)) by done. cbn [negb].
    destruct (xfree kend kend_ok m0 l0 ustack pgdir k fl own Hb) as (k' & fl' & H & Hki & Hfl & Hx).
    unfold wlp, ee, kmem, kfiles, fe, inkm, zoom. cbn. rewrite H. exists k'. split; [done|]. split; [by exists fl'|done]. }
  cbv beta. intros _ s1 (k' & -> & (fl & Hki & Hfl) & Hx). destruct ip as [ip|].
  - destruct Hip as (Hlt & Hlk & Hh). apply wlp_bind, wlp_bind. eapply wlp_mono; [apply wlp_kfs; by apply led_iunlockput|].
    cbv beta. intros _ s2 (f2 & -> & H2). eapply wlp_mono; [apply wlp_kfs; by apply led_end|].
    cbv beta. intros _ s3 (f3 & -> & H3). unfold wlp, mret, M_ret. split; [done|]. exists f3, k', fl.
    split; [done|]. split; [|done]. eapply holds_ext; [..|exact H3]; simpl; try done; try lia.
    + intros j _. unfold fupd. case_decide; [by subst|done].
    + intros j _. unfold fupd. case_decide; [subst; rewrite decide_True by done; lia|done].
  - eapply wlp_run; [reflexivity|]. unfold wlp, mret, M_ret. split; [done|]. by exists f, k', fl.
Qed.

(** What it leaves behind when it succeeds. *)
Record installed (p : nat) l s (path : list Z) s' : Prop := {
  is_led : holds l (fs_at s');
  is_mem : ∃ pgdir sz sp entry fl own,
    ps_table s' = alter (λ x, set_tf (set_eip_esp entry sp (p_tf x)) (set_mem sz pgdir
      (set_name (safe_name (last_elem path path) (p_name x)) x))) p (ps_table s) ∧
    ke_cr3 (ps_env s') = V2P pgdir ∧ vinv (km_at s') fl pgdir own ∧
    (∀ q, q ∈ own ∨ q ∈ fl ↔ q ∈ oldown ∨ q ∈ l0) ∧
    sz mod 4096 = 0 ∧ 8192 <= sz < KERNBASE ∧ sz - 4096 <= sp < sz ∧
    (∀ va, upage va → present (pte (km_mem (km_at s')) pgdir va) = true ↔ va < sz) ∧
    (∀ va, upage va → va < sz → Z.land (pte (km_mem (km_at s')) pgdir va) PTE_U ≠ 0 ↔ va ≠ sz - 8192) ∧
    maps_kernel kdata (km_mem (km_at s')) pgdir
}.

Lemma exec_commit_wlp l p path pgdir sz entry sp f k fl own s :
  p_pgdir (proc_of p s) = oldpg → holds l f → ximg kend kdata m0 l0 ustack pgdir sz k fl own → sz - 4096 <= sp < sz →
  wlp (exec_commit devsw_read devsw_write kend kdata initcode initsize initlog c p path pgdir sz entry sp)
    (λ r s', r = 0 ∧ installed p l s path s') (put_ex f k s).
Proof.
  intros Hold Hl [[Hv Hp Hx] [Hsz Hszm] Hin Hus Hkn] Hsp. unfold exec_commit.
  eapply wlp_run; [reflexivity|]. eapply wlp_run; [reflexivity|]. eapply wlp_run; [reflexivity|].
  match goal with |- wlp (switchuvm c p ≫= _) _ ?t => set (s2 := t) end.
  eapply wlp_seq; [apply switchuvm_wlp|]. cbv beta. intros _ s3 (Hks & Ht3 & Hf3 & Hc3).
  assert (ps_table s2 = alter (λ x, set_tf (set_eip_esp entry sp (p_tf x)) (set_mem sz pgdir
      (set_name (safe_name (last_elem path path) (p_name x)) x))) p (ps_table s)) as Ht2.
  { unfold s2. cbn [ps_table put_table]. by rewrite list_alter_alter_eq. }
  assert (p < length (ps_table s))%nat as Hlt.
  { destruct (decide (p < length (ps_table s))%nat) as [|Hge]; [done|]. exfalso. apply Hks. unfold proc_of. rewrite Ht2.
    rewrite list_lookup_total_alt, list_lookup_alter_eq, lookup_ge_None_2 by lia. done. }
  match goal with |- wlp (ee (kmem (freevm kend ?x)) ≫= _) _ _ => assert (x = oldpg) as -> end.
  { rewrite <-Hold. unfold proc_of. cbn [ps_table put_table put_ex Proc.put_env]. by rewrite list_lookup_total_alter_eq by done. }
  assert (p_pgdir (proc_of p s2) = pgdir) as Hpg.
  { unfold proc_of. rewrite Ht2, list_lookup_total_alter_eq by done. done. }
  rewrite Hpg in Hc3. rewrite (put_ex_id s3).
  assert (fs_at s3 = f ∧ km_at s3 = k) as [Ef Ek] by (unfold fs_at, km_at; rewrite Hf3; done). rewrite Ef, Ek.
  assert (vinv k fl oldpg oldown) as Hvo.
  { apply old_space; [apply Hv|intros q Hq; apply Hp; by right|done]. }
  assert (∀ q, q ∈ oldown → q ∉ own) as Hdis.
  { intros q Hq Hqo. apply (vi_dis _ _ _ _ _ old_inv q Hq). apply Hp. by left. }
  destruct (free_other k fl oldpg oldown pgdir own Hvo Hv Hdis) as (k' & fl' & H & Hv' & Hl' & Hsk & _).
  eapply wlp_kmem_seq; [exact H|]. unfold wlp, mret, M_ret. split; [done|]. split; [exact Hl|].
  exists pgdir, sz, sp, entry, fl', own. split; [by rewrite <-Ht2|]. split; [exact Hc3|]. split; [exact Hv'|]. split.
  { intros q. rewrite Hl'. specialize (Hp q). unfold pool in Hp. tauto. }
  split; [done|]. split; [done|]. split; [done|]. change (km_at (put_ex f k' s3)) with k'. split; [|split].
  - intros va Hu. rewrite (skel_pte _ _ _ _ Hsk). by apply Hin.
  - intros va Hu Hr. rewrite (skel_pte _ _ _ _ Hsk). by apply Hus.
  - intros va Hu Hr. rewrite (skel_pte _ _ _ _ Hsk). by apply Hkn.
Qed.
Lemma exec_program_wlp l p ip elf pgdir path argv strs f k fl own s :
  p_pgdir (proc_of p s) = oldpg → pgdir ≠ 0 → (ip < NINODE)%nat → ld_lock l ip = false →
  holds (ld_hold ip true (ld_add ip 1 (ld_open 1 l))) f → xmem pgdir 0 k fl own → Forall2 (arg_ok m0 l0 ustack) argv strs →
  wlp (exec_program devsw_read devsw_write kend kdata initcode initsize initlog c ustack p ip elf pgdir path argv)
    (λ r s', r = -1 ∧ undone l s s' ∨ r = 0 ∧ installed p l s path s') (put_ex f k s).
Proof.
  intros Hpg Hp0 Hip Hlk H4 Hx1 Hargs. unfold exec_program.
  assert (∀ oip f k fl own, match oip with
      | Some ip => (ip < NINODE)%nat ∧ ld_lock l ip = false ∧ holds (ld_hold ip true (ld_add ip 1 (ld_open 1 l))) f
      | None => holds l f end → xbase pgdir k fl own →
    wlp (exec_bad kend pgdir oip) (λ r s', r = -1 ∧ undone l s s' ∨ r = 0 ∧ installed p l s path s') (put_ex f k s)) as Hbad.
  { intros oip f' k' fl' own' Hoip Hb. eapply wlp_mono; [apply (exec_bad_wlp l pgdir oip f' k' s Hoip)|by intros r s2 H; left].
    right. split; [done|]. by exists fl', own'. }
  eapply wlp_seq; [by eapply (load_segments_wlp (ld_hold ip true (ld_add ip 1 (ld_open 1 l))))|]. cbv beta.
  intros [sz|] s2 (f5 & k2 & fl2 & own2 & -> & H5 & Hx2); [|by apply (Hbad (Some ip) f5 k2 fl2 own2)].
  eapply wlp_kfs_seq; [by eapply led_iunlockput|cbv beta]. intros _ f6 H6.
  eapply wlp_kfs_seq; [by eapply led_end|cbv beta]. intros _ f7 H7.
  assert (holds l f7) as Hl7.
  { eapply holds_ext; [..|exact H7]; simpl; try done; try lia.
    - intros j _. unfold fupd. case_decide; [by subst|done].
    - intros j _. unfold fupd. case_decide; [subst; rewrite decide_True by done; lia|done]. }
  destruct (exec_image_any kend kdata kdata_ok kend_ok m0 l0 ustack pgdir ustack_l0 sz strs argv k2 fl2 own2 Hx2 Hargs)
    as (r3 & k3 & fl3 & own3 & Hi & Hr3).
  eapply wlp_kmem_seq; [exact Hi|]. destruct r3 as [[sz' sp]|]; [|by apply (Hbad None f7 k3 fl3 own3)].
  destruct Hr3 as (_ & Hx3 & Hsp). eapply wlp_mono; [|intros r2 s2 H; right; exact H]. by eapply exec_commit_wlp.
Qed.
End old.
End image.

(** The process [p] is as before a failed exec. *)
Definition unchanged (p : nat) (l0 : list Z) (oldown : gset Z) l s s' : Prop :=
  ps_table s' = ps_table s ∧ holds l (fs_at s') ∧ ∃ fl, vinv (km_at s') fl (p_pgdir (proc_of p s)) oldown ∧
    (∀ q, q ∈ fl ↔ q ∈ l0) ∧ ∀ q x, q ∈ oldown → q <= x < q + 4096 → km_mem (km_at s') x = km_mem (km_at s) x.

#[local] Tactic Notation "ex" uconstr(rule) := eapply wlp_kfs_seq; [by eapply rule|cbv beta].

(** C15. exec, on every path on which it returns: with -1, the process is as before -
    its table entry, its page table and every byte of its memory - and every page,
    inode lock, inode reference and transaction that exec took is given back; with 0,
    the process has the new image. The image maps the user addresses below its size
    and no others, all accessible but for the guard page under the stack page, in
    which the stack pointer lies; it maps the kernel; it is what cr3 holds; the pages
    of the old image are free again, no page is lost; and the inode is released and
    the transaction ended. Any program headers may be in the file, and any
    arguments, if they are strings of less than 32 MB. *)
Theorem exec_balanced l s (l0 : list Z) oldown path argv strs :
  holds l (fs_at s) → (ld_cwd l < NINODE)%nat →
  (∀ p s1, curproc c s = Ok p s1 → vinv (km_at s) l0 (p_pgdir (proc_of p s)) oldown) →
  (∀ x p, ustack <= x < ustack + 144 → p ∈ oldown ∨ p ∈ l0 → ¬ (p <= x < p + 4096)) →
  Forall2 (arg_ok (km_mem (km_at s)) l0 ustack) argv strs →
  wlp (exec devsw_read devsw_write kend kdata initcode initsize initlog c ustack path argv) (λ r s',
    ∃ p s1, curproc c s = Ok p s1 ∧
      (r = -1 ∧ unchanged p l0 oldown l s s' ∨ r = 0 ∧ installed l0 oldown p l s path s')) s.
Proof.
  intros Hl Hc Hold Hus Hargs. unfold exec. eapply wlp_seq; [apply curproc_wlp|]. cbv beta.
  intros p s' ((m & ->) & s1 & Hcur). specialize (Hold p s1 Hcur). set (oldpg := p_pgdir (proc_of p s)) in *.
  set (k0 := km_at s) in *. set (m0 := km_mem k0) in *. set (t := put_mach m s).
  assert (∀ x q, ustack <= x < ustack + 144 → q ∈ l0 → ¬ (q <= x < q + 4096)) as Hus0 by (intros x q H1 H2; by apply Hus; [|right]).
  eapply wlp_mono with (P := λ r s', r = -1 ∧ undone m0 l0 l t s' ∨ r = 0 ∧ installed l0 oldown p l t path s').
  2: { intros r s2 H. exists p, s1. split; [done|]. destruct H as [[-> (f' & k' & fl & -> & Hf & Hk & Hfl & Hx)]|[-> [H1 H2]]].
    - left. split; [done|]. split; [done|]. split; [exact Hf|]. exists fl. split; [|split; [done|]].
      + eapply (old_space m0 l0 k0 oldpg oldown); [done|exact Hold|exact Hus|exact Hk|intros q; apply Hfl|exact Hx].
      + intros q x Hq Hqx. apply Hx. by eapply (old_kept l0 k0 oldpg oldown).
    - right. split; [done|]. by split. }
  match goal with |- wlp ?prog ?Q _ => refine (eq_ind_r (λ z, wlp prog Q z) _ (put_ex_id t)) end. change (fs_at t) with (fs_at s). change (km_at t) with k0. set (f0 := fs_at s) in *.
  assert (∀ ip f k, (ip < NINODE)%nat ∧ ld_lock l ip = false ∧ holds (ld_hold ip true (ld_add ip 1 (ld_open 1 l))) f →
    k = k0 → wlp (exec_bad kend 0 (Some ip)) (λ r s', r = -1 ∧ undone m0 l0 l t s' ∨ r = 0 ∧ installed l0 oldown p l t path s') (put_ex f k t)) as Hbad0.
  { intros ip f k Hip ->. eapply wlp_mono; [apply (exec_bad_wlp m0 l0 k0 eq_refl l 0 (Some ip) f k0 t Hip)|by intros r s2 H; left].
    left. split; [done|]. split; [|done]. exists l0. split; [apply Hold|done]. }
  ex led_begin. intros _ f1 H1. ex led_namei. intros [ip|] f2 H2.
  2: { ex led_end. intros _ f3 H3. unfold wlp, mret, M_ret. left. split; [done|]. exists f3, k0, l0. split; [done|].
    split; [|split; [apply Hold|done]]. eapply holds_ext; [..|exact H3]; simpl; try done. lia. }
  destruct H2 as [Hip H2]. ex led_ilock. intros _ f3 [Hlk H3]. simpl in Hlk.
  assert (∀ f, holds (ld_hold ip true (ld_add ip 1 (ld_open 1 l))) f →
    (ip < NINODE)%nat ∧ ld_lock l ip = false ∧ holds (ld_hold ip true (ld_add ip 1 (ld_open 1 l))) f) as Hst by done.
  eapply wlp_kfs_seq; [by apply (readi_led (ld_hold ip true (ld_add ip 1 (ld_open 1 l))))|]. cbv beta zeta. intros r f4 [H4 _].
  destruct (negb _); [apply Hbad0; [by apply Hst|done]|]. destruct (negb _); [apply Hbad0; [by apply Hst|done]|].
  destruct (setupkvm_run kend kdata kdata_ok kend_ok k0 l0 (vi_km _ _ _ _ _ Hold)) as (pgdir & k1 & Hsk & Ho1 & Hr1).
  eapply wlp_kmem_seq; [exact Hsk|].
  assert (∀ x, kept l0 ustack x → km_mem k1 x = m0 x) as Hk1 by (intros x [Hx _]; by apply Ho1).
  destruct Hr1 as [[-> (fl & Hki & Hfl)]|(Hin & fl & own & Hv1 & Hp1 & Hu1 & Hm1)].
  { cbn [Z.eqb]. eapply wlp_mono; [apply (exec_bad_wlp m0 l0 k0 eq_refl l 0 (Some ip) f4 k1 t (Hst _ H4))|by intros r2 s2 H; left].
    left. split; [done|]. split; [by exists fl|done]. }
  assert (is_page kend pgdir) as Hpp by (eapply free_page; [apply Hold|done]).
  destruct (page_bounds _ _ Hpp) as (_ & _ & _ & Hp0 & _). rewrite (proj2 (Z.eqb_neq pgdir 0)) by done.
  eapply wlp_mono; [|intros r2 s2 H; exact H].
  apply (exec_program_wlp m0 l0 k0 oldpg oldown eq_refl Hold Hus Hus0 l p ip (elf_of r.2) pgdir path argv strs f4 k1 fl own t); try done.
  split; [by split|unfold KERNBASE; lia| |intros va [Hu _] ?; lia|done]. intros va Hu. rewrite Hu1 by done. destruct Hu. split; [done|lia].
Qed.
End exec.

