(* ===== verification/ExecRun.v ===== *)
(** * A run of exec

    On the file system of SyspathRun.v and the memory of VmSpec.v: the file a is no
    program, so exec gives everything back and returns -1. *)

From S2P Require Import Prelude Cstring Kalloc Vm VmSpec Sleeplock Disk Log Blocks Fs FsSpec FsRun Pipe File FileSpec Spinlock Proc.
From S2P Require Import Syscall Sysfile Syspath SyspathSpec SyspathRun Exec ExecStack ExecImage ExecSpec.

#[local] Existing Instance ram_layer.
#[local] Existing Instance ram_tx.

(** One CPU runs the process 0, whose address space is the one of VmSpec.v. *)
Definition exec_proc : proc := set_kstack 0x80107000 (set_mem 4096 0x80102000 (set_state RUNNING proc0)).
Definition exec_state : pst (kenv ram) :=
  Pst (Mach [Cpu 0 false 0 false (Some 0%nat)] [Spinlock false None]) [exec_proc] 2 (Some 0%nat) false []
    (KEnv (Filest (replicate 100 file0) ∅ (FsEnv (fs_of (path_state (path_view 16 0))) vm_ex)) 0 0 0).
Definition exec_a : M (pst (kenv ram)) Z :=
  exec no_devs no_devs 0x80101000 0x80101000 0 0 (mret tt) 0 0x80107000 [97] [0x80107200].

Lemma exec_state_cur p s1 : curproc 0 exec_state = Ok p s1 → p = 0%nat.
Proof.
  intros H. assert ((if curproc 0 exec_state is Ok p _ then Nat.eqb p 0 else true) = true) as E by (vm_compute; reflexivity).
  rewrite H in E. by apply Nat.eqb_eq.
Qed.

Lemma exec_a_returns : (if exec_a exec_state is Ok (-1) s' then bool_decide (p_name <$> ps_table s' = [replicate 16 0]) else false) = true.
Proof. vm_compute. reflexivity. Qed.

Lemma exec_balanced_witness : ∃ r s', exec_a exec_state = Ok r s' ∧ holds root_led (fs_at s').
Proof.
  destruct (wlp_returns _ _ _ (exec_balanced no_devs no_devs 0x80101000 0x80101000 0 0 (mret tt) 0 0x80107000
    ltac:(done) ltac:(done) ltac:(done) ltac:(done) root_led exec_state [0x80105000; 0x80106000] vm_own [97] [0x80107200] [[]]
    (root_holds _) ltac:(simpl; unfold NINODE; lia)
    ltac:(intros p s1 Hc; apply exec_state_cur in Hc as ->; exact vm_ex_inv)
    ltac:(intros x p Hx Hp; apply (ex_aside x ltac:(lia) p); exact Hp)
    ltac:(constructor; [|constructor]; split;
      [by vm_compute|simpl; lia|intros i Hi; simpl in Hi; split; [intros p Hp; apply (ex_aside (0x80107200 + i) ltac:(lia) p); by right|lia]])))
    as (r & s' & H & p & s1 & _ & Hr); [vm_compute; reflexivity|].
  exists r, s'. split; [exact H|]. destruct Hr as [[_ (_ & Hl & _)]|[_ [Hl _]]]; exact Hl.
Defined.
