(* ===== verification/Format.v ===== *)
(** * Formatted output (printf.c; printint and cprintf of console.c)

    Both printers are written against the routine that puts one character. A format
    is the list of its bytes; [args i] is the i-th word after it on the stack. What
    a format means is given apart from the two loops: [items_of] reads it and
    [renders] relates it to the characters to be printed. *)

From S2P Require Import Prelude Cstring.

(** 0123456789abcdef and 0123456789ABCDEF *)
Definition lower_digits : list Z := [48; 49; 50; 51; 52; 53; 54; 55; 56; 57; 97; 98; 99; 100; 101; 102].
Definition upper_digits : list Z := [48; 49; 50; 51; 52; 53; 54; 55; 56; 57; 65; 66; 67; 68; 69; 70].
(** (null) *)
Definition null_string : list Z := [40; 110; 117; 108; 108; 41].

(** do { buf[i++] = digits[x % base]; } while((x /= base) != 0) *)
Fixpoint digit_loop (fuel : nat) (digits : list Z) (x base : Z) (buf : list Z) : option (list Z) :=
  match fuel with
  | O => None
  | S fuel =>
      let buf := buf ++ [getZ digits (x mod base)] in
      if x / base =? 0 then Some buf else digit_loop fuel digits (x / base) base buf
  end.

(** The contents of buf; printint has room for 16 characters. *)
Definition printint_buf (digits : list Z) (xx base : Z) (sign : bool) : option (list Z) :=
  let neg := sign && (xx <? 0) in
  let x := if neg then u32 (- xx) else u32 xx in
  buf ← digit_loop 32 digits x base [];
  Some (if neg then buf ++ [45] else buf).

Section format.
Context {S : Type} (putc : Z → M S unit).
Variable m : mem.
Variable args : Z → Z.

Definition printint (digits : list Z) (xx base : Z) (sign : bool) : M S unit :=
  match printint_buf digits xx base sign with
  | None => no_fuel
  | Some buf => for_each (reverse buf) putc
  end.

(** for(; *s; s++) *)
Fixpoint put_string (fuel : nat) (s : Z) : M S unit :=
  match fuel with
  | O => no_fuel
  | Datatypes.S fuel => if m s =? 0 then mret tt else putc (s8 (m s));; put_string fuel (s + 1)
  end.

Definition put_arg (fuel : nat) (s : Z) : M S unit :=
  if s =? 0 then for_each null_string putc else put_string fuel s.

(** console.c: the loop of cprintf. *)
Fixpoint cprintf_loop (fuel : nat) (fmt : list Z) (argp : Z) : M S unit :=
  match fmt with
  | [] => mret tt
  | c :: fmt =>
      if negb (c =? 37) then putc c;; cprintf_loop fuel fmt argp
      else match fmt with
      | [] => mret tt
      | c :: fmt =>
          if c =? 100 then printint lower_digits (s32 (args argp)) 10 true;; cprintf_loop fuel fmt (argp + 1)
          else if (c =? 120) || (c =? 112) then
            printint lower_digits (s32 (args argp)) 16 false;; cprintf_loop fuel fmt (argp + 1)
          else if c =? 115 then put_arg fuel (args argp);; cprintf_loop fuel fmt (argp + 1)
          else if c =? 37 then putc 37;; cprintf_loop fuel fmt argp
          else putc 37;; putc c;; cprintf_loop fuel fmt argp
      end
  end.

(** printf.c: the loop of printf; [state] says that the last character was %. *)
Fixpoint printf_loop (fuel : nat) (fmt : list Z) (state : bool) (ap : Z) : M S unit :=
  match fmt with
  | [] => mret tt
  | c :: fmt =>
      if negb state then
        if c =? 37 then printf_loop fuel fmt true ap
        else putc c;; printf_loop fuel fmt false ap
      else if c =? 100 then printint upper_digits (s32 (args ap)) 10 true;; printf_loop fuel fmt false (ap + 1)
      else if (c =? 120) || (c =? 112) then
        printint upper_digits (s32 (args ap)) 16 false;; printf_loop fuel fmt false (ap + 1)
      else if c =? 115 then put_arg fuel (args ap);; printf_loop fuel fmt false (ap + 1)
      else if c =? 99 then putc (args ap);; printf_loop fuel fmt false (ap + 1)
      else if c =? 37 then putc c;; printf_loop fuel fmt false ap
      else putc 37;; putc c;; printf_loop fuel fmt false ap
  end.
Definition printf (fuel : nat) (fmt : list Z) : M S unit := printf_loop fuel fmt false 0.
End format.

(** ** What a format means *)

Inductive item := Lit (c : Z) | Dec | Hex | Str | Chr.

(** [chr]: whether %c is known. A % at the end is dropped; an unknown sequence
    stands for itself. *)
Fixpoint items_of (chr : bool) (fmt : list Z) : list item :=
  match fmt with
  | [] => []
  | c :: fmt =>
      if c =? 37 then
        match fmt with
        | [] => []
        | c :: fmt =>
            (if c =? 100 then [Dec] else if (c =? 120) || (c =? 112) then [Hex]
             else if c =? 115 then [Str] else if chr && (c =? 99) then [Chr]
             else if c =? 37 then [Lit 37] else [Lit 37; Lit c]) ++ items_of chr fmt
        end
      else Lit c :: items_of chr fmt
  end.

(** The number that digits stand for, the most significant one first. *)
Definition digits_value (base : Z) (l : list Z) : Z := foldl (λ n d, n * base + d) 0 l.

(** [l] is the numeral of [x]: digits below the base, no zero in front. *)
Record numeral (base x : Z) (l : list Z) : Prop := {
  nu_value : digits_value base l = x;
  nu_digit : Forall (λ d, 0 <= d < base) l;
  nu_first : ∃ d rest, l = d :: rest ∧ (rest ≠ [] → d ≠ 0)
}.

(** The sign of a negative number. *)
Definition minus (neg : bool) : list Z := if neg then [45] else [].

Section renders.
Variables (digits : list Z) (m : mem) (args : Z → Z).
Definition chars (l : list Z) : list Z := getZ digits <$> l.

Inductive renders : list item → Z → list Z → Prop :=
  | renders_nil a : renders [] a []
  | renders_lit c its a out : renders its a out → renders (Lit c :: its) a (c :: out)
  | renders_dec l its a out : numeral 10 (Z.abs (s32 (args a))) l → renders its (a + 1) out →
      renders (Dec :: its) a (minus (s32 (args a) <? 0) ++ chars l ++ out)
  | renders_hex l its a out : numeral 16 (u32 (args a)) l → renders its (a + 1) out →
      renders (Hex :: its) a (chars l ++ out)
  | renders_str l its a out : (if args a =? 0 then l = null_string else ∃ s, cstr m (args a) s ∧ l = s8 <$> s) →
      renders its (a + 1) out → renders (Str :: its) a (l ++ out)
  | renders_chr its a out : renders its (a + 1) out → renders (Chr :: its) a (args a :: out).
End renders.

(** ** Numerals *)

Lemma digits_value_snoc base l d : digits_value base (l ++ [d]) = digits_value base l * base + d.
Proof. unfold digits_value. by rewrite foldl_app. Qed.

Lemma digits_value_bound base l : 2 <= base → Forall (λ d, 0 <= d < base) l →
  0 <= digits_value base l < base ^ Z.of_nat (length l).
Proof.
  intros Hb. induction l as [|d l IH] using rev_ind; intros Hl; [by unfold digits_value|].
  apply Forall_app in Hl as [Hl [Hd _]%Forall_cons]. specialize (IH Hl).
  rewrite digits_value_snoc, length_app, Nat2Z.inj_add. change (Z.of_nat (length [d])) with 1.
  rewrite Z.pow_add_r, Z.pow_1_r by lia. nia.
Qed.

Lemma digits_value_first base d rest : 2 <= base → Forall (λ d, 0 <= d < base) (d :: rest) → d ≠ 0 →
  base ^ Z.of_nat (length rest) <= digits_value base (d :: rest).
Proof.
  intros Hb. induction rest as [|e rest IH] using rev_ind; intros Hl Hd.
  - apply Forall_cons in Hl as [Hl _]. unfold digits_value. simpl. lia.
  - change (d :: rest ++ [e]) with ((d :: rest) ++ [e]) in *. apply Forall_app in Hl as [Hl [He _]%Forall_cons].
    specialize (IH Hl Hd). rewrite digits_value_snoc, length_app, Nat2Z.inj_add. change (Z.of_nat (length [e])) with 1.
    rewrite Z.pow_add_r, Z.pow_1_r by lia. nia.
Qed.

(** The loop finds the digits of the numeral, from the last to the first. *)
Lemma digit_loop_run fuel digits base l : ∀ buf, 2 <= base → numeral base (digits_value base l) l → (length l <= fuel)%nat →
  digit_loop fuel digits (digits_value base l) base buf = Some (buf ++ reverse (chars digits l)).
Proof.
  revert fuel. induction l as [|d l IH] using rev_ind; intros fuel buf Hb [_ Hd (d0 & rest & Hf & H0)] Hfu; [done|].
  rewrite length_app in Hfu. simpl in Hfu. destruct fuel as [|fuel]; [lia|]. cbn [digit_loop].
  apply Forall_app in Hd as [Hl [Hd _]%Forall_cons]. rewrite digits_value_snoc.
  rewrite Z.add_comm, Z.mod_add, Z.div_add, Z.mod_small, Z.div_small by lia. rewrite Z.add_0_l.
  unfold chars in *. rewrite fmap_app, reverse_app. simpl. destruct l as [|e l].
  - simpl. done.
  - simpl in Hf. injection Hf as -> Hr.
    assert (d0 ≠ 0) as Hne by (apply H0; rewrite <-Hr; by destruct l).
    pose proof (digits_value_first base d0 l Hb Hl Hne) as Hge. pose proof (Z.pow_pos_nonneg base (Z.of_nat (length l))).
    rewrite (proj2 (Z.eqb_neq _ _)) by lia. rewrite IH; [by rewrite <-app_assoc|done| |simpl in *; lia].
    split; [done|done|]. by exists d0, l.
Qed.

Lemma numeral_length base x l k : 2 <= base → numeral base x l → x < base ^ Z.of_nat k → (0 < k)%nat → (length l <= k)%nat.
Proof.
  intros Hb [Hv Hd (d & rest & -> & Hf)] Hx Hk. destruct rest as [|e rest]; [simpl; lia|].
  assert (d ≠ 0) as H0 by (by apply Hf). pose proof (digits_value_first base d (e :: rest) Hb Hd H0) as Hge.
  rewrite Hv in Hge. destruct (decide (length (d :: e :: rest) <= k)%nat); [done|]. exfalso.
  assert (base ^ Z.of_nat k <= base ^ Z.of_nat (length (e :: rest))) by (apply Z.pow_le_mono_r; simpl in *; lia). lia.
Qed.

(** A numeral exists for every number. *)
Lemma numeral_exists base x : 2 <= base → 0 <= x → ∃ l, numeral base x l.
Proof.
  intros Hb. induction (Z.lt_wf 0 x) as [x _ IH]. intros Hx. destruct (Z.lt_ge_cases x base).
  - exists [x]. split; [unfold digits_value; simpl; lia|by repeat constructor|]. by exists x, [].
  - assert (0 < x / base) as Hq by (apply Z.div_str_pos; lia).
    destruct (IH (x / base)) as (l & [Hv Hd (d & rest & -> & Hf)]); [split; [lia|apply Z.div_lt; lia]|lia|].
    exists ((d :: rest) ++ [x mod base]). pose proof (Z.mod_pos_bound x base).
    split.
    + rewrite digits_value_snoc, Hv. pose proof (Z.div_mod x base). lia.
    + apply Forall_app. split; [done|]. repeat constructor; lia.
    + exists d, (rest ++ [x mod base]). split; [done|]. intros _. destruct rest; [|by apply Hf].
      unfold digits_value in Hv. simpl in Hv. lia.
Qed.

(** printint stores at most 11 characters in its array of 16, and prints the
    numeral, after a minus sign where one is due. *)
Lemma printint_buf_run digits xx base (sign : bool) l :
  is_s32 xx → (base = 10 ∨ base = 16) → numeral base (if sign then Z.abs xx else u32 xx) l →
  printint_buf digits xx base sign =
    Some (reverse (chars digits l) ++ minus (sign && (xx <? 0))) ∧
  Z.of_nat (length (reverse (chars digits l) ++ minus (sign && (xx <? 0)))) <= 11.
Proof.
  intros Hx Hb Hn. unfold printint_buf. set (neg := sign && (xx <? 0)).
  assert ((if neg then u32 (- xx) else u32 xx) = if sign then Z.abs xx else u32 xx) as ->.
  { unfold neg. destruct sign, (Z.ltb_spec xx 0); simpl; try done; unfold is_s32 in *; rewrite u32_small by (unfold is_u32; lia); lia. }
  set (x := if sign then Z.abs xx else u32 xx) in *.
  assert (is_u32 x) as Hx32 by (unfold x; destruct sign; [unfold is_u32, is_s32 in *; lia|apply u32_range]).
  assert (length l <= 10)%nat as Hl'.
  { unfold is_u32 in *. destruct Hb as [-> | ->]; (refine (numeral_length _ x l 10 _ Hn _ _); [lia| |lia]);
      change (Z.of_nat 10) with 10; lia. }
  rewrite <-(nu_value _ _ _ Hn), digit_loop_run; [|destruct Hb; lia|by rewrite (nu_value _ _ _ Hn)|lia].
  simpl. split; [by destruct neg; rewrite ?app_nil_r|].
  rewrite length_app, length_reverse. unfold chars. rewrite length_fmap. destruct neg; unfold minus; cbn [length]; lia.
Qed.

(** ** The two printers *)

Section run.
Context {S : Type} (putc : Z → M S unit) (m : mem) (args : Z → Z).

Lemma for_each_app_run {X} (l1 l2 : list X) (body : X → M S unit) s :
  for_each (l1 ++ l2) body s = (for_each l1 body;; for_each l2 body) s.
Proof.
  revert s. induction l1 as [|x l1 IH]; intros s; [done|]. cbn [app for_each].
  rewrite run_assoc. unfold mbind, M_bind. destruct (body x s); [|done..]. apply IH.
Qed.

Lemma printint_run digits xx base (sign : bool) l s :
  is_s32 xx → (base = 10 ∨ base = 16) → numeral base (if sign then Z.abs xx else u32 xx) l →
  printint putc digits xx base sign s =
    for_each (minus (sign && (xx <? 0)) ++ chars digits l) putc s.
Proof.
  intros Hx Hb Hn. unfold printint. destruct (printint_buf_run digits xx base sign l Hx Hb Hn) as [-> _].
  rewrite reverse_app, reverse_involutive. by destruct (sign && (xx <? 0)).
Qed.

Lemma put_string_run fuel a l s : cstr m a l → (length l < fuel)%nat →
  put_string putc m fuel a s = for_each (s8 <$> l) putc s.
Proof.
  revert a l s. induction fuel as [|fuel IH]; intros a l s Hl Hf; [lia|]. cbn [put_string].
  destruct l as [|c l]; simpl in *; [by rewrite Hl|]. destruct Hl as (-> & Hc & Hl).
  rewrite (proj2 (Z.eqb_neq c 0)) by lia. unfold mbind, M_bind. destruct (putc (s8 c) s); [|done..].
  apply IH; [done|lia].
Qed.

Lemma put_arg_run fuel a l s :
  (if a =? 0 then l = null_string else ∃ t, cstr m a t ∧ l = s8 <$> t) → (length l < fuel)%nat →
  put_arg putc m fuel a s = for_each l putc s.
Proof.
  unfold put_arg. destruct (a =? 0); [by intros ->|]. intros (t & Ht & ->) Hl.
  rewrite length_fmap in Hl. by apply put_string_run.
Qed.

(** One item, and the rest of the format. *)
Lemma item_run (m1 : M S unit) (k : M S unit) o1 o2 s :
  m1 s = for_each o1 putc s → (∀ s', k s' = for_each o2 putc s') → (m1;; k) s = for_each (o1 ++ o2) putc s.
Proof. intros H1 H2. rewrite for_each_app_run. unfold mbind, M_bind. rewrite H1. by destruct (for_each o1 putc s). Qed.

Lemma putc_run c s : putc c s = for_each [c] putc s.
Proof. cbn [for_each]. unfold mbind, M_bind. destruct (putc c s) as [[] s'| | |]; done. Qed.
(** What an item prints. *)
Inductive item_out (digits : list Z) (a : Z) : item → list Z → Prop :=
  | out_lit c : item_out digits a (Lit c) [c]
  | out_dec l : numeral 10 (Z.abs (s32 (args a))) l → item_out digits a Dec (minus (s32 (args a) <? 0) ++ chars digits l)
  | out_hex l : numeral 16 (u32 (args a)) l → item_out digits a Hex (chars digits l)
  | out_str l : (if args a =? 0 then l = null_string else ∃ s, cstr m (args a) s ∧ l = s8 <$> s) → item_out digits a Str l
  | out_chr : item_out digits a Chr [args a].
Definition takes (i : item) : Z := match i with Lit _ => 0 | _ => 1 end.

Lemma renders_inv digits i its a out : renders digits m args (i :: its) a out →
  ∃ o1 o2, out = o1 ++ o2 ∧ item_out digits a i o1 ∧ renders digits m args its (a + takes i) o2.
Proof.
  intros H. inversion H as [|c its' a' o Ho|l its' a' o Hn Ho|l its' a' o Hn Ho|l its' a' o Hn Ho|its' a' o Ho]; subst; simpl.
  - exists [c], o. rewrite Z.add_0_r. split_and!; [done|constructor|done].
  - exists (minus (s32 (args a) <? 0) ++ chars digits l), o. rewrite <-app_assoc. split_and!; [done|by constructor|done].
  - exists (chars digits l), o. split_and!; [done|by constructor|done].
  - exists l, o. split_and!; [done|by constructor|done].
  - exists [args a], o. split_and!; [done|constructor|done].
Qed.

Lemma s32_is_s32 x : is_s32 (s32 x).
Proof. zmod. Qed.
Lemma u32_s32 x : u32 (s32 x) = u32 x.
Proof. zmod. Qed.

(** A format: its next item, and the text of the rest. *)
Lemma out_dec_run digits a o s : item_out digits a Dec o → printint putc digits (s32 (args a)) 10 true s = for_each o putc s.
Proof. inversion 1; subst. apply printint_run; [apply s32_is_s32|by left|done]. Qed.
Lemma out_hex_run digits a o s : item_out digits a Hex o → printint putc digits (s32 (args a)) 16 false s = for_each o putc s.
Proof. inversion 1; subst. erewrite printint_run; [done|apply s32_is_s32|by right|by rewrite u32_s32]. Qed.
Lemma out_str_run digits fuel a o s : item_out digits a Str o → (length o < fuel)%nat →
  put_arg putc m fuel (args a) s = for_each o putc s.
Proof. inversion 1; subst. by apply put_arg_run. Qed.

Ltac next_item Hr :=
  let o1 := fresh "o" in let o2 := fresh "o" in let Ho := fresh "Ho" in
  apply renders_inv in Hr as (o1 & o2 & -> & Ho & Hr); rewrite length_app in *.

Lemma cprintf_run fuel n : ∀ fmt a out s, (length fmt <= n)%nat →
  renders lower_digits m args (items_of false fmt) a out → (length out < fuel)%nat →
  cprintf_loop putc m args fuel fmt a s = for_each out putc s.
Proof.
  induction n as [|n IH]; intros [|c fmt] a out s Hn Hr Hf; simpl in Hn; try lia;
    try (inversion Hr; subst; done).
  cbn [cprintf_loop items_of] in *. destruct (Z.eqb_spec c 37) as [->|]; cbn [negb] in *.
  2: { next_item Hr. inversion Ho; subst. apply item_run; [apply putc_run|]. intros s'. rewrite Z.add_0_r in Hr.
    apply IH; [lia|done|lia]. }
  destruct fmt as [|c fmt]; [by inversion Hr|]. simpl in Hn.
  destruct (c =? 100); [|destruct (_ || _); [|destruct (c =? 115); [|cbn [andb] in Hr; destruct (c =? 37)]]];
    cbn [app] in Hr; next_item Hr.
  - apply item_run; [by apply out_dec_run|]. intros s'. apply IH; [lia|done|lia].
  - apply item_run; [by apply out_hex_run|]. intros s'. apply IH; [lia|done|lia].
  - apply item_run; [apply (out_str_run _ _ _ _ _ Ho); lia|]. intros s'. apply IH; [lia|done|lia].
  - inversion Ho; subst. apply item_run; [apply putc_run|]. intros s'. rewrite Z.add_0_r in Hr. apply IH; [lia|done|lia].
  - inversion Ho; subst. apply item_run; [apply putc_run|]. intros s'. rewrite Z.add_0_r in Hr. clear Ho.
    next_item Hr. inversion Ho; subst. apply item_run; [apply putc_run|]. intros s2. rewrite Z.add_0_r in Hr.
    apply IH; [lia|done|lia].
Qed.

Lemma printf_run fuel n : ∀ fmt a out s, (length fmt <= n)%nat →
  renders upper_digits m args (items_of true fmt) a out → (length out < fuel)%nat →
  printf_loop putc m args fuel fmt false a s = for_each out putc s.
Proof.
  induction n as [|n IH]; intros [|c fmt] a out s Hn Hr Hf; simpl in Hn; try lia;
    try (inversion Hr; subst; done).
  cbn [printf_loop items_of negb] in *. destruct (Z.eqb_spec c 37) as [->|].
  2: { next_item Hr. inversion Ho; subst. apply item_run; [apply putc_run|]. intros s'. rewrite Z.add_0_r in Hr.
    apply IH; [lia|done|lia]. }
  destruct fmt as [|c fmt]; [by inversion Hr|]. simpl in Hn. cbn [printf_loop negb].
  destruct (c =? 100); [|destruct (_ || _); [|destruct (c =? 115); [|cbn [andb] in Hr;
    destruct (c =? 99); [|destruct (Z.eqb_spec c 37)]]]]; cbn [app] in Hr; next_item Hr.
  - apply item_run; [by apply out_dec_run|]. intros s'. apply IH; [lia|done|lia].
  - apply item_run; [by apply out_hex_run|]. intros s'. apply IH; [lia|done|lia].
  - apply item_run; [apply (out_str_run _ _ _ _ _ Ho); lia|]. intros s'. apply IH; [lia|done|lia].
  - inversion Ho; subst. apply item_run; [apply putc_run|]. intros s'. apply IH; [lia|done|lia].
  - inversion Ho; subst. apply item_run; [apply putc_run|]. intros s'. rewrite Z.add_0_r in Hr. apply IH; [lia|done|lia].
  - inversion Ho; subst. apply item_run; [apply putc_run|]. intros s'. rewrite Z.add_0_r in Hr. clear Ho.
    next_item Hr. inversion Ho; subst. apply item_run; [apply putc_run|]. intros s2. rewrite Z.add_0_r in Hr.
    apply IH; [lia|done|lia].
Qed.

(** C31. Both printers put exactly the characters that the format and its arguments
    denote, in order: the kernel's cprintf with lower-case digits, the user's printf
    with upper-case digits and %c. Numbers come out as their numerals, the most
    negative one included, without leading zeros; a null string is (null), and an
    unknown sequence stands for itself. Every number has a numeral, and printint
    never needs more than 11 of the 16 characters of its array. *)
Theorem printers_correct fuel fmt out s :
  (length out < fuel)%nat →
  (renders lower_digits m args (items_of false fmt) 0 out → cprintf_loop putc m args fuel fmt 0 s = for_each out putc s) ∧
  (renders upper_digits m args (items_of true fmt) 0 out → printf putc m args fuel fmt s = for_each out putc s) ∧
  (∀ x, 0 <= x → (∃ l, numeral 10 x l) ∧ ∃ l, numeral 16 x l) ∧
  ∀ digits xx base sign, is_s32 xx → (base = 10 ∨ base = 16) →
    ∃ buf, printint_buf digits xx base sign = Some buf ∧ Z.of_nat (length buf) <= 11.
Proof.
  intros Hf. split_and!.
  - intros Hr. by apply (cprintf_run fuel (length fmt)).
  - intros Hr. by apply (printf_run fuel (length fmt)).
  - intros x Hx. split; by apply numeral_exists.
  - intros digits xx base sign Hx Hb.
    destruct (numeral_exists base (if sign then Z.abs xx else u32 xx)) as [l Hl]; [destruct Hb; lia| |].
    { destruct sign; [lia|apply u32_range]. }
    destruct (printint_buf_run digits xx base sign l Hx Hb Hl) as [H1 H2]. eexists. by split.
Qed.
End run.

(** %d=%x. with -2147483648 and 255 *)
Lemma printers_correct_witness : ∃ out : list Z,
  printf (λ c, modify (λ s, s ++ [c])) (λ _, 0) (λ i, if i =? 0 then 2147483648 else 255) 20
    [37; 100; 61; 37; 120; 46] [] = Ok tt out ∧
  out = [45; 50; 49; 52; 55; 52; 56; 51; 54; 52; 56; 61; 70; 70; 46].
Proof.
  destruct (printers_correct (λ c, modify (λ s, s ++ [c])) (λ _, 0) (λ i, if i =? 0 then 2147483648 else 255) 20
    [37; 100; 61; 37; 120; 46] [45; 50; 49; 52; 55; 52; 56; 51; 54; 52; 56; 61; 70; 70; 46] ([] : list Z)) as (_ & H & _).
  { simpl. lia. }
  eexists. split; [rewrite H|reflexivity]; [by vm_compute|].
  set (A := λ i : Z, if i =? 0 then 2147483648 else 255).
  assert (numeral 10 (Z.abs (s32 (A 0))) [2; 1; 4; 7; 4; 8; 3; 6; 4; 8]) as N1.
  { split; [by vm_compute|by repeat constructor|]. eexists _, _. by split. }
  assert (numeral 16 (u32 (A 1)) [15; 15]) as N2.
  { split; [by vm_compute|by repeat constructor|]. eexists _, _. by split. }
  assert (renders upper_digits (λ _, 0) A [Lit 46] 2 [46]) as H2 by apply renders_lit, renders_nil.
  pose proof (renders_lit _ _ _ 61 _ _ _ (renders_hex upper_digits _ _ _ _ _ _ N2 H2)) as H1.
  exact (renders_dec upper_digits _ _ _ _ _ _ N1 H1).
Defined.
