(* ===== verification/UserProgs.v ===== *)
(** * Small user programs

    cat.c, wc.c, ls.c, echo.c, rm.c, mkdir.c, ln.c, kill.c, zombie.c and init.c,
    over the system calls they use ([UserSys]; the calls reach the kernel through the
    stubs of usys.S). The memory [m] holds the strings of argv and the literals;
    a function that writes to memory returns the new one. exit() is [Blocked]: it does
    not return. [fuel] bounds the length of the strings. *)

From S2P Require Import Prelude Cstring Format.

(** struct stat, without dev and nlink, which no program looks at. *)
Record ustat := Ustat { us_type : Z; us_ino : Z; us_size : Z }.

Class UserSys (S : Type) := {
  u_read : Z → Z → M S (Z * list Z);
  u_write : Z → list Z → M S Z;
  u_open : list Z → Z → M S Z;
  u_close : Z → M S Z;
  u_fstat : Z → M S (Z * ustat);
  u_dup : Z → M S Z;
  u_link : list Z → list Z → M S Z;
  u_unlink : list Z → M S Z;
  u_mkdir : list Z → M S Z;
  u_mknod : list Z → Z → Z → M S Z;
  u_kill : Z → M S Z;
  u_fork : M S Z;
  u_exec : list Z → list (list Z) → M S Z;
  u_wait : M S Z;
  u_sleep : Z → M S Z
}.

(** The bytes of a string literal of the source; [nl] is \n. *)
Definition lit (s : string) : list Z := (λ a, Z.of_N (Ascii.N_of_ascii a)) <$> String.list_ascii_of_string s.
Definition nl : list Z := [10].

Section programs.
Context {S : Type} `{!UserSys S} (fuel : nat).
Implicit Types (m : mem) (argv : list Z).

Definition u_exit {A} : M S A := blocked.

(** What the kernel fetches for a string argument. *)
Definition c_str m (a : Z) : list Z :=
  match User.strlen fuel m a with Some n => bytes_at m a (Z.to_nat n) | None => [] end.

(** printf.c: putc writes one character; [args] are the arguments after the format. *)
Definition u_putc (fd c : Z) : M S unit := _ ← u_write fd [u8 c]; mret tt.
Definition uprintf m (fd : Z) (fmt : list Z) (args : list Z) : M S unit :=
  printf (u_putc fd) m (getZ args) fuel fmt.

(** ** cat.c *)

Fixpoint cat (n : nat) m (fd : Z) : M S unit :=
  match n with
  | O => no_fuel
  | Datatypes.S n =>
      r ← u_read fd 512;
      if 0 <? r.1 then
        w ← u_write 1 r.2;
        if negb (w =? r.1) then uprintf m 1 (lit "cat: write error" ++ nl) [];; u_exit
        else cat n m fd
      else if r.1 <? 0 then uprintf m 1 (lit "cat: read error" ++ nl) [];; u_exit
      else mret tt
  end.

Definition cat_main (n : nat) m argv : M S unit :=
  match argv with
  | _ :: arg :: args =>
      for_each (arg :: args) (λ a,
        fd ← u_open (c_str m a) 0;
        if fd <? 0 then uprintf m 1 (lit "cat: cannot open %s" ++ nl) [a];; u_exit
        else cat n m fd;; _ ← u_close fd; mret tt);;
      u_exit
  | _ => cat n m 0;; u_exit
  end.

(** ** wc.c *)

(** The characters of the set in strchr. *)
Definition spaces : list Z := [32; 13; 9; 10; 11].

(** The counters l, w and c, and inword. *)
Record wcst := Wcst { wc_l : Z; wc_w : Z; wc_c : Z; wc_inword : bool }.

(** The body of for(i=0; i<n; i++). *)
Definition wc_char (s : wcst) (x : Z) : wcst :=
  let c := s32 (wc_c s + 1) in
  let l := if x =? 10 then s32 (wc_l s + 1) else wc_l s in
  if bool_decide (x ∈ spaces) then Wcst l (wc_w s) c false
  else if negb (wc_inword s) then Wcst l (s32 (wc_w s + 1)) c true
  else Wcst l (wc_w s) c true.

Fixpoint wc_loop (n : nat) m (fd : Z) (s : wcst) : M S wcst :=
  match n with
  | O => no_fuel
  | Datatypes.S n =>
      r ← u_read fd 512;
      if 0 <? r.1 then wc_loop n m fd (foldl wc_char s r.2)
      else if r.1 <? 0 then uprintf m 1 (lit "wc: read error" ++ nl) [];; u_exit
      else mret s
  end.

Definition wc (n : nat) m (fd name : Z) : M S unit :=
  s ← wc_loop n m fd (Wcst 0 0 0 false);
  uprintf m 1 (lit "%d %d %d %s" ++ nl) [wc_l s; wc_w s; wc_c s; name].

(** [empty] is where the literal of no characters is. *)
Definition wc_main (n : nat) m (empty : Z) argv : M S unit :=
  match argv with
  | _ :: arg :: args =>
      for_each (arg :: args) (λ a,
        fd ← u_open (c_str m a) 0;
        if fd <? 0 then uprintf m 1 (lit "wc: cannot open %s" ++ nl) [a];; u_exit
        else wc n m fd a;; _ ← u_close fd; mret tt);;
      u_exit
  | _ => wc n m 0 empty;; u_exit
  end.

(** ** ls.c *)

(** for(p=path+strlen(path); p >= path && *p != '/'; p--), with [n] = p - path. *)
Fixpoint last_slash m (path : Z) (n : nat) : Z :=
  if m (path + Z.of_nat n) =? 47 then path + Z.of_nat n
  else match n with O => path - 1 | Datatypes.S n => last_slash m path n end.

(** [nbuf] is the static array of 15 bytes. *)
Definition fmtname m (nbuf path : Z) : option (mem * Z) :=
  n ← User.strlen fuel m path;
  let p := last_slash m path (Z.to_nat n) + 1 in
  n ← User.strlen fuel m p;
  if 14 <=? n then Some (m, p)
  else
    let m := User.memmove m nbuf p n in
    Some (User.memset m (nbuf + n) 32 (14 - n), nbuf).

Definition ls_print m (nbuf path : Z) (st : ustat) : M S mem :=
  match fmtname m nbuf path with
  | None => no_fuel
  | Some (m, p) => uprintf m 1 (lit "%s %d %d %d" ++ nl) [p; us_type st; us_ino st; us_size st];; mret m
  end.

(** ulib.c *)
Definition u_stat (path : list Z) : M S (Z * ustat) :=
  fd ← u_open path 0;
  if fd <? 0 then mret (-1, Ustat 0 0 0)
  else
    r ← u_fstat fd;
    _ ← u_close fd;
    mret r.

(** The entries of a directory; [p] is where names go in [buf]. *)
Fixpoint ls_entries (n : nat) m (nbuf buf p fd : Z) : M S mem :=
  match n with
  | O => no_fuel
  | Datatypes.S n =>
      r ← u_read fd 16;
      if negb (r.1 =? 16) then mret m
      else if getw 2 r.2 0 =? 0 then ls_entries n m nbuf buf p fd
      else
        let m := mset (store_bytes m p (sub r.2 2 14)) (p + 14) 0 in
        st ← u_stat (c_str m buf);
        if st.1 <? 0 then
          uprintf m 1 (lit "ls: cannot stat %s" ++ nl) [buf];;
          ls_entries n m nbuf buf p fd
        else
          m ← ls_print m nbuf buf st.2;
          ls_entries n m nbuf buf p fd
  end.

(** [buf] is the local array of 512 bytes. *)
Definition ls (n : nat) m (nbuf buf path : Z) : M S mem :=
  fd ← u_open (c_str m path) 0;
  if fd <? 0 then uprintf m 2 (lit "ls: cannot open %s" ++ nl) [path];; mret m
  else
    st ← u_fstat fd;
    if st.1 <? 0 then
      uprintf m 2 (lit "ls: cannot stat %s" ++ nl) [path];;
      _ ← u_close fd;
      mret m
    else
      m ← (if us_type st.2 =? 2 then ls_print m nbuf path st.2
           else if us_type st.2 =? 1 then
             match User.strlen fuel m path with
             | None => no_fuel
             | Some len =>
                 if 512 <? len + 1 + 14 + 1 then uprintf m 1 (lit "ls: path too long" ++ nl) [];; mret m
                 else
                   match User.strcpy fuel m buf path with
                   | None => no_fuel
                   | Some m =>
                       let p := buf + len in
                       let m := mset m p 47 in
                       ls_entries n m nbuf buf (p + 1) fd
                   end
             end
           else mret m);
      _ ← u_close fd;
      mret m.

(** [dot] is where the literal . is. *)
Definition ls_main (n : nat) m (nbuf buf dot : Z) argv : M S unit :=
  (match argv with
   | _ :: arg :: args => for_acc (arg :: args) m (λ m a, ls n m nbuf buf a)
   | _ => ls n m nbuf buf dot
   end);;
  u_exit.

(** ** echo.c, rm.c, mkdir.c, ln.c, kill.c, zombie.c *)

(** [sp] and [eol] are where the two literals of echo are. *)
Fixpoint echo_args m (sp eol : Z) (args : list Z) : M S unit :=
  match args with
  | [] => mret tt
  | a :: args =>
      uprintf m 1 (lit "%s%s") [a; match args with [] => eol | _ => sp end];;
      echo_args m sp eol args
  end.
Definition echo_main m (sp eol : Z) argv : M S unit := echo_args m sp eol (tail argv);; u_exit.

(** The loop of rm and mkdir: it stops at the first failure. *)
Fixpoint each_name (call : list Z → M S Z) (fmt : list Z) m (args : list Z) : M S unit :=
  match args with
  | [] => mret tt
  | a :: args =>
      r ← call (c_str m a);
      if r <? 0 then uprintf m 2 fmt [a] else each_name call fmt m args
  end.
Definition rm_main m argv : M S unit :=
  if Z.of_nat (length argv) <? 2 then uprintf m 2 (lit "Usage: rm files..." ++ nl) [];; u_exit
  else each_name u_unlink (lit "rm: %s failed to delete" ++ nl) m (tail argv);; u_exit.
Definition mkdir_main m argv : M S unit :=
  if Z.of_nat (length argv) <? 2 then uprintf m 2 (lit "Usage: mkdir files..." ++ nl) [];; u_exit
  else each_name u_mkdir (lit "mkdir: %s failed to create" ++ nl) m (tail argv);; u_exit.

Definition ln_main m argv : M S unit :=
  match argv with
  | [_; old; new] =>
      r ← u_link (c_str m old) (c_str m new);
      (if r <? 0 then uprintf m 2 (lit "link %s %s: failed" ++ nl) [old; new] else mret tt);;
      u_exit
  | _ => uprintf m 2 (lit "Usage: ln old new" ++ nl) [];; u_exit
  end.

Definition kill_main m argv : M S unit :=
  if Z.of_nat (length argv) <? 2 then uprintf m 2 (lit "usage: kill pid..." ++ nl) [];; u_exit
  else
    for_each (tail argv) (λ a,
      match User.atoi fuel m a with Some pid => _ ← u_kill pid; mret tt | None => no_fuel end);;
    u_exit.

Definition zombie_main : M S unit :=
  pid ← u_fork;
  (if 0 <? pid then _ ← u_sleep 5; mret tt else mret tt);;
  u_exit.

(** ** init.c *)

(** while((wpid=wait()) >= 0 && wpid != pid) *)
Fixpoint reap (n : nat) m (pid : Z) : M S unit :=
  match n with
  | O => no_fuel
  | Datatypes.S n =>
      wpid ← u_wait;
      if (0 <=? wpid) && negb (wpid =? pid) then uprintf m 1 (lit "zombie!" ++ nl) [];; reap n m pid
      else mret tt
  end.

(** The rounds of for(;;), [n] of them. *)
Fixpoint init_rounds (n : nat) m : M S unit :=
  match n with
  | O => no_fuel
  | Datatypes.S n =>
      uprintf m 1 (lit "init: starting sh" ++ nl) [];;
      pid ← u_fork;
      if pid <? 0 then uprintf m 1 (lit "init: fork failed" ++ nl) [];; u_exit
      else if pid =? 0 then
        _ ← u_exec (lit "sh") [lit "sh"];
        uprintf m 1 (lit "init: exec sh failed" ++ nl) [];;
        u_exit
      else reap n m pid;; init_rounds n m
  end.

Definition init_main (n : nat) m : M S unit :=
  fd ← u_open (lit "console") 2;
  (if fd <? 0 then
     _ ← u_mknod (lit "console") 1 1;
     _ ← u_open (lit "console") 2;
     mret tt
   else mret tt);;
  _ ← u_dup 0;
  _ ← u_dup 0;
  init_rounds n m.
End programs.
