(* ===== verification/UserProgsSpec.v ===== *)
(** * What the small user programs do

    [Streams] is what a program may expect of read and write on files, pipes and the
    console: read delivers at least one byte until the end, write takes all. *)

From S2P Require Import Prelude Cstring Format UserProgs.

Class Streams (S : Type) `{!UserSys S} := {
  st_left : S → Z → list Z;
  st_out : S → Z → list Z;
  st_read fd n s : 0 < n → ∃ k s', u_read fd n s = Ok (Z.of_nat k, take k (st_left s fd)) s' ∧
    (k <= length (st_left s fd))%nat ∧ Z.of_nat k <= n ∧ (k = 0%nat → st_left s fd = []) ∧
    (∀ f, st_left s' f = if decide (f = fd) then drop k (st_left s fd) else st_left s f) ∧ ∀ f, st_out s' f = st_out s f;
  st_write fd l s : ∃ s', u_write fd l s = Ok (Z.of_nat (length l)) s' ∧
    (∀ f, st_left s' f = st_left s f) ∧ ∀ f, st_out s' f = if decide (f = fd) then st_out s f ++ l else st_out s f
}.

(** The words of a text: its maximal parts without white space. *)
Fixpoint split_words (data : list Z) : list (list Z) :=
  match data with
  | [] => [[]]
  | x :: data =>
      if bool_decide (x ∈ spaces) then [] :: split_words data
      else match split_words data with w :: ws => (x :: w) :: ws | [] => [[x]] end
  end.
Definition words (data : list Z) : list (list Z) := filter (λ w, w ≠ []) (split_words data).
Definition newlines (data : list Z) : list Z := filter (λ x, x = 10) data.

Lemma newlines_cons x data : Z.of_nat (length (newlines (x :: data))) = (if x =? 10 then 1 else 0) + Z.of_nat (length (newlines data)).
Proof. unfold newlines. rewrite filter_cons. case_decide as E; [rewrite (proj2 (Z.eqb_eq _ _) E); cbn [length]; lia|by rewrite (proj2 (Z.eqb_neq _ _) E)]. Qed.

Lemma split_words_cons data : ∃ w ws, split_words data = w :: ws.
Proof. destruct data as [|x data]; [by exists [], []|]. simpl. case_bool_decide; [by eexists _, _|]. destruct (split_words data); by eexists _, _. Qed.

(** A word begins at a character that is no space and does not follow a word's character. *)
Definition begins (b : bool) (data : list Z) : Z := if b && bool_decide (hd [] (split_words data) ≠ []) then 1 else 0.

Lemma words_cons x data b : Z.of_nat (length (words (x :: data))) - begins b (x :: data) =
  if bool_decide (x ∈ spaces) then Z.of_nat (length (words data)) - begins false data
  else (if b then 0 else 1) + (Z.of_nat (length (words data)) - begins true data).
Proof.
  unfold words, begins. destruct (split_words_cons data) as (w & ws & E). cbn [split_words]. rewrite E.
  destruct (bool_decide (x ∈ spaces)); cbn [hd].
  - rewrite filter_cons. rewrite decide_False by tauto. rewrite bool_decide_false by tauto. by rewrite andb_false_r.
  - rewrite filter_cons_True by done. rewrite (bool_decide_true (x :: w ≠ [])) by done. rewrite filter_cons. cbn [length andb].
    destruct w as [|y w]; [rewrite decide_False by tauto; rewrite bool_decide_false by tauto|rewrite decide_True, bool_decide_true by done];
      destruct b; cbn [andb length]; lia.
Qed.

Lemma wc_char_run data : ∀ l w c b, 0 <= l → 0 <= w → 0 <= c →
  l + Z.of_nat (length data) < 2147483648 → w + Z.of_nat (length data) < 2147483648 → c + Z.of_nat (length data) < 2147483648 →
  let s := foldl wc_char (Wcst l w c b) data in
  wc_l s = l + Z.of_nat (length (newlines data)) ∧ wc_c s = c + Z.of_nat (length data) ∧
  wc_w s = w + (Z.of_nat (length (words data)) - begins b data).
Proof.
  induction data as [|x data IH]; intros l w c b Hl Hw Hc Bl Bw Bc; cbn [length] in *.
  { unfold begins. simpl. rewrite andb_false_r. split_and!; simpl; lia. }
  assert (∀ z, 0 <= z → z + Z.of_nat (Datatypes.S (length data)) < 2147483648 → s32 (z + 1) = z + 1) as H1
    by (intros z ? ?; zmod).
  cbn [foldl]. assert (wc_char (Wcst l w c b) x = let l := if x =? 10 then l + 1 else l in
    if bool_decide (x ∈ spaces) then Wcst l w (c + 1) false else if negb b then Wcst l (w + 1) (c + 1) true else Wcst l w (c + 1) true) as ->
    by (unfold wc_char; cbn [wc_l wc_w wc_c wc_inword]; by rewrite (H1 c), (H1 l), (H1 w) by done).
  cbv zeta.
  rewrite newlines_cons, words_cons.
  assert (∀ w' b', 0 <= w' <= w + 1 → let s := foldl wc_char (Wcst (if x =? 10 then l + 1 else l) w' (c + 1) b') data in
    wc_l s = l + ((if x =? 10 then 1 else 0) + Z.of_nat (length (newlines data))) ∧ wc_c s = c + Z.of_nat (Datatypes.S (length data)) ∧
    wc_w s = w' + (Z.of_nat (length (words data)) - begins b' data)) as H2.
  { intros w' b' Hw'. destruct (IH (if x =? 10 then l + 1 else l) w' (c + 1) b') as (E1 & E2 & E3);
      [destruct (x =? 10); lia|lia|lia|destruct (x =? 10); lia|lia|lia|]. cbv zeta. rewrite E1, E2, E3.
    destruct (x =? 10); split_and!; lia. }
  destruct (bool_decide (x ∈ spaces)); [exact (H2 w false ltac:(lia))|]. destruct b; cbn [negb].
  - exact (H2 w true ltac:(lia)).
  - destruct (H2 (w + 1) true ltac:(lia)) as (E1 & E2 & E3). split_and!; [exact E1|exact E2|rewrite E3; lia].
Qed.

Section streams.
Context {S : Type} `{!UserSys S, !Streams S} (fuel : nat).
Implicit Types (m : mem) (s : S).

(** The bytes that are left for [fd] in [s] are taken, nothing else changes. *)
Definition drained (fd : Z) (s s' : S) : Prop :=
  (∀ f, st_left s' f = if decide (f = fd) then [] else st_left s f).

Lemma wc_loop_run fd m : ∀ n s st, (length (st_left s fd) < n)%nat →
  ∃ s', wc_loop fuel n m fd st s = Ok (foldl wc_char st (st_left s fd)) s' ∧ drained fd s s' ∧ ∀ f, st_out s' f = st_out s f.
Proof.
  induction n as [|n IH]; intros s st Hn; [lia|]. cbn [wc_loop].
  destruct (st_read fd 512 s) as (k & s1 & Hr & Hk & Hkn & H0 & Hl & Ho); [lia|]. rewrite (bind_run _ _ _ _ _ Hr). cbn [fst snd].
  destruct k as [|k].
  - cbn [Z.of_nat]. change (0 <? 0) with false. cbv iota. specialize (H0 eq_refl). rewrite H0. exists s1. split; [done|].
    split; [|done]. intros f. rewrite Hl. by case_decide; [rewrite H0|].
  - rewrite (proj2 (Z.ltb_lt _ _)) by lia. destruct (IH s1 (foldl wc_char st (take (Datatypes.S k) (st_left s fd)))) as (s2 & H2 & Hd & Ho2).
    { rewrite Hl, decide_True by done. rewrite length_drop. lia. }
    exists s2. rewrite H2. rewrite Hl, decide_True by done. rewrite <-foldl_app, take_drop. split; [done|]. split.
    + intros f. rewrite Hd. case_decide; [done|]. rewrite Hl. by rewrite decide_False.
    + intros f. by rewrite Ho2.
Qed.

Lemma put_all fd out : ∀ s, ∃ s', for_each out (u_putc fd) s = Ok tt s' ∧
  (∀ f, st_left s' f = st_left s f) ∧ ∀ f, st_out s' f = if decide (f = fd) then st_out s f ++ (u8 <$> out) else st_out s f.
Proof.
  induction out as [|c out IH]; intros s; cbn [for_each].
  - exists s. split_and!; [done|done|]. intros f. case_decide; [by rewrite app_nil_r|done].
  - destruct (st_write fd [u8 c] s) as (s1 & Hw & Hl & Ho). destruct (IH s1) as (s2 & H2 & Hl2 & Ho2).
    exists s2.
    assert (u_putc fd c s = Ok tt s1) as Hc by (unfold u_putc; by rewrite (bind_run _ _ _ _ _ Hw)).
    rewrite (bind_run _ _ _ _ _ Hc). split; [exact H2|]. split.
    + intros f. by rewrite Hl2.
    + intros f. rewrite Ho2, Ho. case_decide; [|done]. by rewrite <-app_assoc.
Qed.

(** A message whose items come out as [out]. *)
Lemma uprintf_run m fd fmt args out s : renders upper_digits m (getZ args) (items_of true fmt) 0 out → (length out < fuel)%nat →
  ∃ s', uprintf fuel m fd fmt args s = Ok tt s' ∧ (∀ f, st_left s' f = st_left s f) ∧
    ∀ f, st_out s' f = if decide (f = fd) then st_out s f ++ (u8 <$> out) else st_out s f.
Proof.
  intros Hr Hf. unfold uprintf, printf. rewrite (printf_run _ m (getZ args) fuel (length fmt) fmt 0 out s) by done. apply put_all.
Qed.

(** cat copies its input, in whatever pieces it comes. *)
Theorem cat_correct n m fd s : (length (st_left s fd) < n)%nat →
  ∃ s', cat fuel n m fd s = Ok tt s' ∧ drained fd s s' ∧
    ∀ f, st_out s' f = if decide (f = 1) then st_out s f ++ st_left s fd else st_out s f.
Proof.
  revert s. induction n as [|n IH]; intros s Hn; [lia|]. cbn [cat].
  destruct (st_read fd 512 s) as (k & s1 & Hr & Hk & Hkn & H0 & Hl & Ho); [lia|]. rewrite (bind_run _ _ _ _ _ Hr). cbn [fst snd].
  destruct k as [|k].
  - cbn [Z.of_nat]. change (0 <? 0) with false. cbv iota. specialize (H0 eq_refl). rewrite H0. exists s1. split; [done|]. split.
    + intros f. rewrite Hl. by case_decide; [rewrite H0|].
    + intros f. rewrite Ho. case_decide; [by rewrite app_nil_r|done].
  - rewrite (proj2 (Z.ltb_lt _ _)) by lia. set (p := take (Datatypes.S k) (st_left s fd)).
    assert (length p = Datatypes.S k) as Hp by (unfold p; rewrite length_take; lia).
    destruct (st_write 1 p s1) as (s2 & Hw & Hl2 & Ho2). rewrite (bind_run _ _ _ _ _ Hw). rewrite Hp, Z.eqb_refl. cbn [negb].
    assert (st_left s2 fd = drop (Datatypes.S k) (st_left s fd)) as Hrest by (by rewrite Hl2, Hl, decide_True).
    destruct (IH s2) as (s3 & H3 & Hd & Ho3); [rewrite Hrest, length_drop; lia|].
    exists s3. split; [exact H3|]. split.
    + intros f. rewrite Hd. case_decide; [done|]. rewrite Hl2, Hl. by rewrite decide_False.
    + intros f. rewrite Ho3, Ho2, Ho, Hrest. case_decide; [|done]. rewrite <-app_assoc. unfold p. by rewrite take_drop.
Qed.

(** C32. wc counts what it says: for any input of less than 2^31 bytes, read in any pieces,
    it prints one line with the number of newline characters, the number of maximal
    runs of characters other than white space, the number of bytes, and the name. A
    word that is cut by the end of a piece is counted once. The input is consumed and
    nothing else is printed. *)
Theorem wc_correct n m fd name s out : let data := st_left s fd in
  (length data < n)%nat → Z.of_nat (length data) < 2147483648 → (length out < fuel)%nat →
  renders upper_digits m
    (getZ [Z.of_nat (length (newlines data)); Z.of_nat (length (words data)); Z.of_nat (length data); name])
    [Dec; Lit 32; Dec; Lit 32; Dec; Lit 32; Str; Lit 10] 0 out →
  ∃ s', wc fuel n m fd name s = Ok tt s' ∧ drained fd s s' ∧
    ∀ f, st_out s' f = if decide (f = 1) then st_out s f ++ (u8 <$> out) else st_out s f.
Proof.
  intros data Hn Hmax Hout Hr. destruct (wc_loop_run fd m n s (Wcst 0 0 0 false) Hn) as (s1 & H1 & Hd & Ho).
  unfold wc. rewrite (bind_run _ _ _ _ _ H1). fold data.
  destruct (wc_char_run data 0 0 0 false) as (E1 & E2 & E3); [lia..|]. rewrite E1, E2, E3. unfold begins. cbn [andb].
  rewrite Z.sub_0_r, !Z.add_0_l.
  destruct (uprintf_run m 1 (lit "%d %d %d %s" ++ nl) _ out s1 Hr Hout) as (s2 & H2 & Hl2 & Ho2).
  exists s2. split; [exact H2|]. split.
  - intros f. by rewrite Hl2, Hd.
  - intros f. by rewrite Ho2, Ho.
Qed.
End streams.

(** ** The names that ls prints *)

(** What follows the last slash. *)
Fixpoint basename (l : list Z) : list Z :=
  match l with
  | [] => []
  | x :: r => if bool_decide (47 ∈ l) then basename r else l
  end.

Lemma basename_spec l : ∃ j, (j <= length l)%nat ∧ basename l = drop j l ∧ (47 ∉ basename l) ∧ (j = 0%nat ∨ l !! pred j = Some 47).
Proof.
  induction l as [|x l (j & Hj & E & Hn & Hs)].
  { exists 0%nat. split_and!; [simpl; lia|done|apply not_elem_of_nil|by left]. }
  cbn [basename]. case_bool_decide as H; [|by exists 0%nat; split_and!; [simpl; lia|done|done|left]].
  exists (S j). split_and!; [simpl; lia|done|done|]. right. destruct Hs as [-> |Hs].
  - simpl. apply elem_of_cons in H as [<-|H]; [done|]. rewrite E, drop_0 in Hn. done.
  - destruct j as [|j]; [|done]. simpl in *. rewrite E, drop_0 in Hn. apply list_elem_of_lookup_2 in Hs. done.
Qed.

Lemma cstr_at m a l n : cstr m a l → (n <= length l)%nat → m (a + Z.of_nat n) = default 0 (l !! n).
Proof.
  intros Hl Hn. destruct (decide (n = length l)) as [->|].
  - rewrite lookup_ge_None_2 by done. by apply KernelSpec.cstr_end.
  - destruct (lookup_lt_is_Some_2 l n) as [c Hc]; [lia|]. rewrite Hc. by apply (cstr_byte m a l n c).
Qed.

Lemma cstr_drop m a l j : cstr m a l → (j <= length l)%nat → cstr m (a + Z.of_nat j) (drop j l).
Proof.
  revert a l. induction j as [|j IH]; intros a l Hl Hj; [by rewrite Z.add_0_r|]. destruct l as [|c l]; [simpl in Hj; lia|].
  destruct Hl as (_ & _ & Hl). replace (a + Z.of_nat (Datatypes.S j)) with (a + 1 + Z.of_nat j) by lia. apply IH; [done|simpl in Hj; lia].
Qed.

Lemma last_slash_run m path l j : cstr m path l → 47 ∉ drop j l → (j = 0%nat ∨ l !! pred j = Some 47) →
  ∀ n, (pred j <= n <= length l)%nat → last_slash m path n + 1 = path + Z.of_nat j.
Proof.
  intros Hl Hd Hs n. assert (∀ n, (j <= n <= length l)%nat → (m (path + Z.of_nat n) =? 47) = false) as Hno.
  { intros i Hi. rewrite (cstr_at m path l i) by (done || lia). apply Z.eqb_neq. intros E. apply Hd.
    destruct (l !! i) as [c|] eqn:Hc; [|done]. simpl in E. subst c. apply (list_elem_of_lookup_2 _ (i - j)).
    rewrite lookup_drop. by replace (j + (i - j))%nat with i by lia. }
  assert ((0 < j)%nat → (m (path + Z.of_nat (pred j)) =? 47) = true) as Hyes.
  { intros Hj. destruct Hs as [?|Hs]; [lia|]. pose proof (lookup_lt_Some _ _ _ Hs).
    rewrite (cstr_at m path l (pred j)) by (done || lia). by rewrite Hs. }
  induction n as [|n IH]; intros Hj; cbn [last_slash].
  - destruct j as [|[|j]]; [rewrite Hno by lia; lia|specialize (Hyes ltac:(lia)); change (pred 1) with 0%nat in Hyes; rewrite Hyes; lia|simpl in Hj; lia].
  - destruct (decide (pred j = Datatypes.S n)) as [E|]; [rewrite <-E, Hyes by lia; lia|]. rewrite Hno by lia. apply IH. lia.
Qed.

(** ls prints the last element of a path, padded with blanks to 14 characters; the
    array [nbuf] of 15 bytes ends with a NUL. *)
Theorem fmtname_correct fuel m nbuf path l :
  mem_ok m → cstr m path l → (length l < fuel)%nat → m (nbuf + 14) = 0 →
  (nbuf + 15 <= path ∨ path + Z.of_nat (length l) < nbuf) →
  let b := basename l in
  ∃ m' p, fmtname fuel m nbuf path = Some (m', p) ∧
    cstr m' p (b ++ replicate (14 - length b) 32) ∧ (∀ x, ¬ (nbuf <= x < nbuf + 14) → m' x = m x).
Proof.
  intros Hm Hl Hf Hz Hap b. destruct (basename_spec l) as (j & Hj & E & Hn & Hs). fold b in E, Hn.
  unfold fmtname. change (User.strlen fuel m path) with (Kernel.strlen fuel m path).
  rewrite (KernelSpec.strlen_spec m path l fuel Hl Hf). simpl. rewrite Nat2Z.id.
  rewrite (last_slash_run m path l j Hl) by (by rewrite <-E || done || lia).
  pose proof (cstr_drop m path l j Hl Hj) as Hb. rewrite <-E in Hb. set (p := path + Z.of_nat j) in *.
  assert (length b = length l - j)%nat as Hlb by (rewrite E; apply length_drop).
  change (User.strlen fuel m p) with (Kernel.strlen fuel m p). rewrite (KernelSpec.strlen_spec m p b fuel Hb) by lia. simpl.
  destruct (Z.leb_spec 14 (Z.of_nat (length b))) as [Hge|Hlt].
  { exists m, p. split; [done|]. split; [|done]. replace (14 - length b)%nat with 0%nat by lia. by rewrite app_nil_r. }
  eexists _, nbuf. split; [done|].
  assert (∀ x, User.memset (User.memmove m nbuf p (Z.of_nat (length b))) (nbuf + Z.of_nat (length b)) 32 (14 - Z.of_nat (length b)) x =
    if decide (nbuf + Z.of_nat (length b) <= x < nbuf + 14) then 32 else if decide (nbuf <= x < nbuf + Z.of_nat (length b)) then m (p + (x - nbuf)) else m x) as Hx.
  { intros x. unfold User.memset. rewrite stosb_spec. rewrite Z2Nat.id by lia. rewrite UserSpec.user_memmove_spec by (done || lia).
    repeat case_decide; try done; lia. }
  split.
  - apply KernelSpec.cstr_intro.
    + intros i c Hi. rewrite Hx. apply lookup_app_Some in Hi as [Hi|[Hge Hi]].
      * pose proof (lookup_lt_Some _ _ _ Hi). rewrite decide_False, decide_True by lia.
        replace (nbuf + Z.of_nat i - nbuf) with (Z.of_nat i) by lia. by apply (cstr_byte m p b i c).
      * apply lookup_replicate in Hi as [-> Hi]. rewrite decide_True by lia. split; [done|lia].
    + rewrite length_app, length_replicate. rewrite Hx, !decide_False by lia. replace (length b + (14 - length b))%nat with 14%nat by lia. exact Hz.
  - intros x Hne. rewrite Hx. by rewrite !decide_False by lia.
Qed.

(** ** A run *)

(** Standard input, delivered three bytes at a time, and all that is written. *)
Record stdio := Stdio { io_in : list Z; io_out : Z → list Z }.

#[export] Instance stdio_sys : UserSys stdio := {|
  u_read := λ fd n s,
    if fd =? 0 then
      let k := Nat.min (Z.to_nat n) 3 in
      Ok (Z.of_nat (length (take k (io_in s))), take k (io_in s)) (Stdio (drop k (io_in s)) (io_out s))
    else Ok (0, []) s;
  u_write := λ fd l s, Ok (Z.of_nat (length l)) (Stdio (io_in s) (fupd (io_out s) fd (io_out s fd ++ l)));
  u_open := λ _ _, mret (-1); u_close := λ _, mret (-1); u_fstat := λ _, mret (-1, Ustat 0 0 0); u_dup := λ _, mret (-1);
  u_link := λ _ _, mret (-1); u_unlink := λ _, mret (-1); u_mkdir := λ _, mret (-1); u_mknod := λ _ _ _, mret (-1);
  u_kill := λ _, mret (-1); u_fork := mret (-1); u_exec := λ _ _, mret (-1); u_wait := mret (-1); u_sleep := λ _, mret 0
|}.

#[export] Instance stdio_streams : Streams stdio.
Proof.
  refine {| st_left := λ s fd, if fd =? 0 then io_in s else []; st_out := io_out |}.
  - intros fd n s Hn. simpl. destruct (Z.eqb_spec fd 0) as [->|Hfd].
    + set (k := Nat.min (Z.to_nat n) 3). set (q := take k (io_in s)).
      assert (length q <= k)%nat as Hq by (unfold q; rewrite length_take; lia).
      assert (length q <= length (io_in s))%nat as Hq2 by (unfold q; rewrite length_take; lia).
      assert (q = take (length q) (io_in s) ∧ drop k (io_in s) = drop (length q) (io_in s)) as [Et Ed].
      { unfold q. rewrite length_take. destruct (decide (k <= length (io_in s))%nat); [by rewrite Nat.min_l|].
        rewrite Nat.min_r by lia. by rewrite !take_ge, !drop_ge by lia. }
      exists (length q). eexists. rewrite <-Et. split; [done|].
      split; [exact Hq2|]. split; [unfold k in Hq; lia|]. split; [|split; [|done]].
      * intros H0. unfold q in H0. rewrite length_take in H0. destruct (io_in s); [done|]. simpl in H0. unfold k in H0. lia.
      * intros f. simpl. case_decide as E; [subst f; simpl|by rewrite (proj2 (Z.eqb_neq _ _) E)].
        exact Ed.
    + exists 0%nat, s. split; [done|]. split; [simpl; lia|]. split; [simpl; lia|]. split; [done|]. split; [|done].
      intros f. case_decide as E; [subst f; by rewrite (proj2 (Z.eqb_neq _ _) Hfd)|done].
  - intros fd l s. simpl. eexists. split; [done|]. split; [done|]. intros f. simpl. unfold fupd. case_decide as E; [by rewrite E|done].
Defined.

(** "a bc d" and a newline, of a file f: 1 3 7 f. *)
Lemma wc_correct_witness : ∃ s', wc 20 10 (mem_of [0; 102; 0]) 0 1 (Stdio [97; 32; 98; 99; 32; 100; 10] (λ _, [])) = Ok tt s' ∧
  io_out s' 1 = [49; 32; 51; 32; 55; 32; 102; 10].
Proof.
  set (m := mem_of [0; 102; 0]). set (s := Stdio [97; 32; 98; 99; 32; 100; 10] (λ _, [])).
  set (A := getZ [1; 3; 7; 1]).
  assert (∀ x, 1 <= x < 10 → numeral 10 (Z.abs (s32 x)) [x]) as Hnum.
  { intros x Hx. split; [unfold digits_value; simpl; zmod|by repeat constructor; lia|]. by exists x, []. }
  assert (renders upper_digits m A [Dec; Lit 32; Dec; Lit 32; Dec; Lit 32; Str; Lit 10] 0 [49; 32; 51; 32; 55; 32; 102; 10]) as Hr.
  { refine (renders_dec _ _ _ [1] _ 0 [32; 51; 32; 55; 32; 102; 10] (Hnum 1 ltac:(lia)) (renders_lit _ _ _ 32 _ _ [51; 32; 55; 32; 102; 10] _)).
    refine (renders_dec _ _ _ [3] _ 1 [32; 55; 32; 102; 10] (Hnum 3 ltac:(lia)) (renders_lit _ _ _ 32 _ _ [55; 32; 102; 10] _)).
    refine (renders_dec _ _ _ [7] _ 2 [32; 102; 10] (Hnum 7 ltac:(lia)) (renders_lit _ _ _ 32 _ _ [102; 10] _)).
    refine (renders_str _ _ _ [102] _ 3 [10] _ (renders_lit _ _ _ 10 _ _ [] (renders_nil _ _ _ _))).
    change (A 3) with 1. exists [102]. split; [by vm_compute|done]. }
  destruct (wc_correct 20 10 m 0 1 s [49; 32; 51; 32; 55; 32; 102; 10]) as (s' & H & _ & Ho).
  - apply Nat.ltb_lt. reflexivity. - apply Z.ltb_lt. reflexivity. - apply Nat.ltb_lt. reflexivity.
  - exact Hr.
  - exists s'. split; [exact H|exact (Ho 1)].
Defined.
