(* ===== verification/Kbd.v ===== *)
(** * The keyboard (kbd.c, kbd.h)

    kbdgetc turns scan codes into characters. Its state is the static variable
    [shift]: which modifiers are down, which locks are on, and whether the last
    byte was the escape 0xE0. *)

From S2P Require Import Prelude Hw.

Definition KBSTATP : Z := 0x64.
Definition KBS_DIB : Z := 0x01.
Definition KBDATAP : Z := 0x60.
Definition SHIFT : Z := 1.
Definition CTL : Z := 2.
Definition ALT : Z := 4.
Definition CAPSLOCK : Z := 8.
Definition NUMLOCK : Z := 16.
Definition SCROLLLOCK : Z := 32.
Definition E0ESC : Z := 64.

(** A table of 256 bytes: its first entries, and some given by their index. *)
Definition key_table (first : list Z) (more : list (Z * Z)) : list Z :=
  foldl (λ t x, setZ t x.1 x.2) (first ++ replicate (256 - length first) 0) more.

(** Keys that set a modifier while they are down. *)
Definition shiftcode : list Z := Eval vm_compute in key_table
  []
  [(29, 2); (42, 1); (54, 1); (56, 4); (157, 2); (184, 4)].

(** Keys that switch a lock. *)
Definition togglecode : list Z := Eval vm_compute in key_table
  []
  [(58, 8); (69, 16); (70, 32)].

(** Without modifiers; 0 is no character. *)
Definition normalmap : list Z := Eval vm_compute in key_table
  [0; 27; 49; 50; 51; 52; 53; 54; 55; 56; 57; 48; 45; 61; 8; 9; 113; 119; 101; 114; 116; 121; 117; 105; 111;
   112; 91; 93; 10; 0; 97; 115; 100; 102; 103; 104; 106; 107; 108; 59; 39; 96; 0; 92; 122; 120; 99; 118; 98;
   110; 109; 44; 46; 47; 0; 42; 0; 32; 0; 0; 0; 0; 0; 0; 0; 0; 0; 0; 0; 0; 0; 55; 56; 57; 45; 52; 53; 54; 43;
   49; 50; 51; 48; 46; 0; 0; 0; 0]
  [(156, 10); (181, 47); (200, 226); (208, 227); (201, 230); (209, 231); (203, 228); (205, 229); (151, 224);
   (207, 225); (210, 232); (211, 233)].

(** With shift. *)
Definition shiftmap : list Z := Eval vm_compute in key_table
  [0; 27; 33; 64; 35; 36; 37; 94; 38; 42; 40; 41; 95; 43; 8; 9; 81; 87; 69; 82; 84; 89; 85; 73; 79; 80; 123;
   125; 10; 0; 65; 83; 68; 70; 71; 72; 74; 75; 76; 58; 34; 126; 0; 124; 90; 88; 67; 86; 66; 78; 77; 60; 62;
   63; 0; 42; 0; 32; 0; 0; 0; 0; 0; 0; 0; 0; 0; 0; 0; 0; 0; 55; 56; 57; 45; 52; 53; 54; 43; 49; 50; 51; 48;
   46; 0; 0; 0; 0]
  [(156, 10); (181, 47); (200, 226); (208, 227); (201, 230); (209, 231); (203, 228); (205, 229); (151, 224);
   (207, 225); (210, 232); (211, 233)].

(** With control: C(x) is x - 64 in a byte. *)
Definition ctlmap : list Z := Eval vm_compute in key_table
  [0; 0; 0; 0; 0; 0; 0; 0; 0; 0; 0; 0; 0; 0; 0; 0; 17; 23; 5; 18; 20; 25; 21; 9; 15; 16; 0; 0; 13; 0; 1; 19;
   4; 6; 7; 8; 10; 11; 12; 0; 0; 0; 0; 28; 26; 24; 3; 22; 2; 14; 13; 0; 0; 239; 0; 0]
  [(156, 13); (181, 239); (200, 226); (208, 227); (201, 230); (209, 231); (203, 228); (205, 229); (151, 224);
   (207, 225); (210, 232); (211, 233)].

Definition charcode (i : Z) : list Z := if i =? 0 then normalmap else if i =? 1 then shiftmap else ctlmap.

Record kbdst (H : Type) := KbdSt { kb_hw : H; shift : Z }.
Arguments KbdSt {H} _ _.
Arguments kb_hw {H} _.
Arguments shift {H} _.

(** Case is turned around under caps lock. *)
Definition caps (c : Z) : Z :=
  if (97 <=? c) && (c <=? 122) then c - 32
  else if (65 <=? c) && (c <=? 90) then c + 32 else c.

Section kbd.
Context {H : Type} `{!Machine H}.

Definition kb {A} (m : M H A) : M (kbdst H) A := zoom kb_hw (λ h k, KbdSt h (shift k)) m.
Definition set_shift (v : Z) : M (kbdst H) unit := modify (λ k, KbdSt (kb_hw k) v).

Definition kbdgetc : M (kbdst H) Z :=
  st ← kb (inb KBSTATP);
  if Z.land st KBS_DIB =? 0 then mret (-1)
  else
    data ← kb (inb KBDATAP);
    sh ← gets shift;
    if data =? 0xE0 then set_shift (Z.lor sh E0ESC);; mret 0
    else if negb (Z.land data 0x80 =? 0) then
      let data := if negb (Z.land sh E0ESC =? 0) then data else Z.land data 0x7F in
      set_shift (Z.land sh (Z.lnot (Z.lor (getZ shiftcode data) E0ESC)));;
      mret 0
    else
      let '(data, sh) := if negb (Z.land sh E0ESC =? 0) then (Z.lor data 0x80, Z.land sh (Z.lnot E0ESC))
                         else (data, sh) in
      let sh := Z.lxor (Z.lor sh (getZ shiftcode data)) (getZ togglecode data) in
      set_shift sh;;
      let c := getZ (charcode (Z.land sh (Z.lor CTL SHIFT))) data in
      mret (if negb (Z.land sh CAPSLOCK =? 0) then caps c else c).
End kbd.

(** ** Key events

    A scan code names a key, numbered from 128 on after the escape, and says
    whether it went down or up. *)

Definition event : Type := Z * bool.
Fixpoint events (esc : bool) (bs : list Z) : list event :=
  match bs with
  | [] => []
  | b :: bs =>
      if b =? 0xE0 then events true bs
      else (b mod 128 + (if esc then 128 else 0), b <? 128) :: events false bs
  end.
Fixpoint pending (esc : bool) (bs : list Z) : bool :=
  match bs with [] => esc | b :: bs => pending (b =? 0xE0) bs end.

(** ** The keyboard

    A US keyboard with the scan codes of set 1, independently of the tables: what is
    engraved on the keys, row by row from a first code, without and with shift. *)

Definition codes (s : string) : list Z := map (λ a, Z.of_N (Ascii.N_of_ascii a)) (String.list_ascii_of_string s).
Definition rows : list (Z * list Z * list Z) := [
  (0x02, codes "1234567890-=", codes "!@#$%^&*()_+");
  (0x10, codes "qwertyuiop[]", codes "QWERTYUIOP{}");
  (0x1E, codes "asdfghjkl;'`", codes "ASDFGHJKL:" ++ [34; 126]);
  (0x2B, codes "\zxcvbnm,./", codes "|ZXCVBNM<>?");
  (0x37, codes "*", codes "*"); (0x39, codes " ", codes " ");
  (0x47, codes "789-456+1230.", codes "789-456+1230.")].
Fixpoint engraved (rs : list (Z * list Z * list Z)) (k : Z) : option (Z * Z) :=
  match rs with
  | [] => None
  | (lo, plain, shifted) :: rs =>
      if (lo <=? k) && (k <? lo + Z.of_nat (length plain)) then Some (getZ plain (k - lo), getZ shifted (k - lo))
      else engraved rs k
  end.

(** A key behind the escape. *)
Definition ext (k : Z) : Z := 128 + k.
(** The keys with a name: Esc, Backspace, Tab, the two Enters, the / of the number pad,
    and the cursor keys, with their characters and those under control. The key of
    E0 17 stands for Home; Home itself, E0 47, has no character. *)
Definition named : list (Z * (Z * Z)) := [
  (0x01, (27, 0)); (0x0E, (8, 0)); (0x0F, (9, 0)); (0x1C, (10, 13)); (ext 0x1C, (10, 13)); (ext 0x35, (47, 239));
  (ext 0x17, (0xE0, 0xE0)); (ext 0x4F, (0xE1, 0xE1)); (ext 0x48, (0xE2, 0xE2)); (ext 0x50, (0xE3, 0xE3));
  (ext 0x4B, (0xE4, 0xE4)); (ext 0x4D, (0xE5, 0xE5)); (ext 0x49, (0xE6, 0xE6)); (ext 0x51, (0xE7, 0xE7));
  (ext 0x52, (0xE8, 0xE8)); (ext 0x53, (0xE9, 0xE9))].
Definition name_of (k : Z) : Z * Z :=
  match List.find (λ x, x.1 =? k) named with Some x => x.2 | None => (0, 0) end.

Definition lower (c : Z) : bool := (97 <=? c) && (c <=? 122).
Definition upper (c : Z) : bool := (65 <=? c) && (c <=? 90).
(** Control makes ^A to ^Z of the letters, and works on the backslash and the slash. *)
Definition control (c : Z) : Z := if lower c then c - 96 else if c =? 92 then 28 else if c =? 47 then 239 else 0.
Definition turn_case (c : Z) : Z := if lower c then c - 32 else if upper c then c + 32 else c.

(** The character of a key that goes down; 0 when there is none. *)
Definition typed (ctl shifted lock : bool) (k : Z) : Z :=
  match engraved rows k with
  | Some (c, c') =>
      if ctl then (if k <? 0x37 then control c else 0)
      else let c := if shifted then c' else c in if lock then turn_case c else c
  | None => if ctl then (name_of k).2 else (name_of k).1
  end.

Definition shift_keys : list Z := [0x2A; 0x36].
Definition ctl_keys : list Z := [0x1D; ext 0x1D].
Definition alt_keys : list Z := [0x38; ext 0x38].
Definition caps_key : Z := 0x3A.
Definition num_key : Z := 0x45.
Definition scroll_key : Z := 0x46.

(** Whether the last event of one of the keys was a press; whether the key was pressed
    an odd number of times. *)
Definition held (keys : list Z) (es : list event) : bool :=
  foldl (λ b e, if bool_decide (e.1 ∈ keys) then e.2 else b) false es.
Definition toggled (key : Z) (es : list event) : bool :=
  foldl (λ b e, if e.2 && (e.1 =? key) then negb b else b) false es.
(** The character that the last event gives. *)
Definition last_char (es : list event) : Z :=
  match last es with
  | Some (k, true) => typed (held ctl_keys es) (held shift_keys es) (toggled caps_key es) k
  | _ => 0
  end.

(** ** One event on the tables *)

(** The modifiers after one event. *)
Definition event_mods (mods : Z) (e : event) : Z :=
  if e.2 then Z.lxor (Z.lor mods (getZ shiftcode e.1)) (getZ togglecode e.1)
  else Z.land mods (Z.lnot (getZ shiftcode e.1)).
(** The character of an event. *)
Definition event_char (mods : Z) (e : event) : Z :=
  if e.2 then
    let mods := event_mods mods e in
    let c := getZ (charcode (Z.land mods (Z.lor CTL SHIFT))) e.1 in
    if negb (Z.land mods CAPSLOCK =? 0) then caps c else c
  else 0.

Section spec.
Context {H : Type} `{!Machine H}.

(** The controller has the bytes [bs] to deliver. *)
Inductive delivers : H → list Z → H → Prop :=
  | delivers_nil h : delivers h [] h
  | delivers_cons h st h1 b h2 bs h3 :
      hw_inb KBSTATP h = (st, h1) → Z.land (u8 st) KBS_DIB ≠ 0 → hw_inb KBDATAP h1 = (b, h2) → is_u8 b →
      delivers h2 bs h3 → delivers h (b :: bs) h3.

(** [n] calls of kbdgetc. *)
Fixpoint getcs (n : nat) : M (kbdst H) (list Z) :=
  match n with
  | O => mret []
  | S n => c ← kbdgetc; cs ← getcs n; mret (c :: cs)
  end.

(** The characters of a byte sequence. *)
Fixpoint chars_of (esc : bool) (mods : Z) (bs : list Z) : list Z :=
  match bs with
  | [] => []
  | b :: bs =>
      if b =? 0xE0 then 0 :: chars_of true mods bs
      else let e := (b mod 128 + (if esc then 128 else 0), b <? 128) in
           event_char mods e :: chars_of false (event_mods mods e) bs
  end.

Definition shift_of (esc : bool) (mods : Z) : Z := mods + if esc then 64 else 0.

(** The tables: what an entry may be. *)
Definition key_ok (k : Z) : bool :=
  bool_decide (getZ shiftcode k ∈ [0; 1; 2; 4]) && bool_decide (getZ togglecode k ∈ [0; 8; 16; 32]) &&
  forallb (λ t, let c := getZ t k in (0 <=? c) && (c <? 256) && (0 <=? caps c) && (caps c <? 256))
    [normalmap; shiftmap; ctlmap].
Lemma keys_ok : forallb key_ok (seqZ 0 256) = true.
Proof. by vm_compute. Qed.

(** The scan codes, and the bits of [shift]. *)
Definition code_ok (b : Z) : bool :=
  (Z.land b 0x7F =? b mod 128) && bool_decide ((Z.land b 0x80 =? 0) = (b <? 128)) &&
  ((Z.lor b 0x80 =? b mod 128 + 128)).
Lemma codes_ok : forallb code_ok (seqZ 0 256) = true.
Proof. by vm_compute. Qed.

Definition bits_ok (mods : Z) : bool :=
  forallb (λ esc,
    let sh := shift_of esc mods in
    (Z.lor sh E0ESC =? shift_of true mods) && bool_decide ((Z.land sh E0ESC =? 0) = negb esc) &&
    (Z.land sh (Z.lnot E0ESC) =? mods) &&
    forallb (λ sc, let m := Z.land mods (Z.lnot sc) in
      (Z.land sh (Z.lnot (Z.lor sc E0ESC)) =? m) && (0 <=? m) && (m <? 64) &&
      forallb (λ tc, let m := Z.lxor (Z.lor mods sc) tc in (0 <=? m) && (m <? 64)) [0; 8; 16; 32]) [0; 1; 2; 4])
    [false; true].
Lemma mods_ok : forallb bits_ok (seqZ 0 64) = true.
Proof. by vm_compute. Qed.

Lemma forallb_Z (P : Z → bool) lo n x : forallb P (seqZ lo n) = true → lo <= x < lo + n → P x = true.
Proof. intros H0 Hx. rewrite forallb_forall in H0. apply H0, list_elem_of_In, elem_of_seqZ. lia. Qed.

Lemma bit_mods esc mods : 0 <= mods < 64 →
  let sh := shift_of esc mods in
  Z.lor sh E0ESC = shift_of true mods ∧ (Z.land sh E0ESC =? 0) = negb esc ∧ Z.land sh (Z.lnot E0ESC) = mods.
Proof.
  intros Hm sh. pose proof (forallb_Z _ 0 64 mods mods_ok ltac:(lia)) as Hb. unfold bits_ok in Hb.
  rewrite forallb_forall in Hb. specialize (Hb esc ltac:(destruct esc; simpl; auto)).
  fold sh in Hb. rewrite !andb_true_iff in Hb. destruct Hb as [[[H1 H2] H3] _].
  apply Z.eqb_eq in H1, H3. apply bool_decide_eq_true in H2. done.
Qed.

Lemma bit_event esc mods k : 0 <= mods < 64 → 0 <= k < 256 →
  let sh := shift_of esc mods in
  Z.land sh (Z.lnot (Z.lor (getZ shiftcode k) E0ESC)) = event_mods mods (k, false) ∧
  ∀ p, 0 <= event_mods mods (k, p) < 64.
Proof.
  intros Hm Hk sh. pose proof (forallb_Z _ 0 64 mods mods_ok ltac:(lia)) as Hb. unfold bits_ok in Hb.
  rewrite forallb_forall in Hb. specialize (Hb esc ltac:(destruct esc; simpl; auto)).
  fold sh in Hb. rewrite !andb_true_iff in Hb. destruct Hb as [_ Hb].
  pose proof (forallb_Z _ 0 256 k keys_ok ltac:(lia)) as Hko. unfold key_ok in Hko. rewrite !andb_true_iff in Hko.
  destruct Hko as [[Hs Ht] _]. apply bool_decide_eq_true in Hs, Ht.
  rewrite forallb_forall in Hb. specialize (Hb _ (proj1 (list_elem_of_In _ _) Hs)).
  rewrite !andb_true_iff in Hb. destruct Hb as [[[H1 H2] H3] H4]. rewrite forallb_forall in H4.
  specialize (H4 _ (proj1 (list_elem_of_In _ _) Ht)). rewrite andb_true_iff in H4. destruct H4 as [H4 H5].
  unfold event_mods; simpl. split; [lia|]. intros [|]; simpl; lia.
Qed.

Lemma code_bits b : is_u8 b →
  Z.land b 0x7F = b mod 128 ∧ (Z.land b 0x80 =? 0) = (b <? 128) ∧ Z.lor b 0x80 = b mod 128 + 128.
Proof.
  intros Hb. pose proof (forallb_Z _ 0 256 b codes_ok ltac:(unfold is_u8 in Hb; lia)) as Hc. unfold code_ok in Hc.
  rewrite !andb_true_iff in Hc. destruct Hc as [[H1 H2] H3]. apply bool_decide_eq_true in H2. lia.
Qed.

Lemma char_byte mods k p : 0 <= k < 256 → is_u8 (event_char mods (k, p)).
Proof.
  intros Hk. unfold event_char; simpl. destruct p; [|unfold is_u8; lia].
  pose proof (forallb_Z _ 0 256 k keys_ok ltac:(lia)) as Hko. unfold key_ok in Hko. rewrite !andb_true_iff in Hko.
  destruct Hko as [_ Hc]. rewrite forallb_forall in Hc.
  set (i := Z.land _ (Z.lor CTL SHIFT)). unfold charcode, is_u8.
  assert (∀ t, In t [normalmap; shiftmap; ctlmap] → 0 <= getZ t k < 256 ∧ 0 <= caps (getZ t k) < 256) as Ht.
  { intros t Hin. specialize (Hc t Hin). rewrite !andb_true_iff in Hc. lia. }
  destruct (i =? 0); [|destruct (i =? 1)]; match goal with |- context [getZ ?t k] =>
    destruct (Ht t) as [H1 H2]; [simpl; auto|] end; by case_match.
Qed.

(** One byte. *)
Lemma kbdgetc_byte h h1 st b h2 esc mods :
  hw_inb KBSTATP h = (st, h1) → Z.land (u8 st) KBS_DIB ≠ 0 → hw_inb KBDATAP h1 = (b, h2) → is_u8 b → 0 <= mods < 64 →
  kbdgetc (KbdSt h (shift_of esc mods)) =
    if b =? 0xE0 then Ok 0 (KbdSt h2 (shift_of true mods))
    else let e := (b mod 128 + (if esc then 128 else 0), b <? 128) in
         Ok (event_char mods e) (KbdSt h2 (shift_of false (event_mods mods e))).
Proof.
  intros H1 Hst H2 Hb Hm. unfold kbdgetc. 
  assert (∀ sh, kb (inb KBSTATP) (KbdSt h sh) = Ok (u8 st) (KbdSt h1 sh)) as E1.
  { intros sh. unfold kb, zoom, inb. simpl. by rewrite H1. }
  assert (∀ sh, kb (inb KBDATAP) (KbdSt h1 sh) = Ok b (KbdSt h2 sh)) as E2.
  { intros sh. unfold kb, zoom, inb. simpl. rewrite H2. by rewrite u8_small. }
  rewrite (bind_run _ _ _ _ _ (E1 _)). rewrite (proj2 (Z.eqb_neq _ _) Hst).
  rewrite (bind_run _ _ _ _ _ (E2 _)). rewrite run_gets. cbn [shift].
  destruct (bit_mods esc mods Hm) as (B1 & B2 & B3). destruct (code_bits b Hb) as (C1 & C2 & C3).
  destruct (Z.eqb_spec b 0xE0) as [->|Hne].
  { unfold set_shift. run. cbn [kb_hw]. by rewrite B1. }
  rewrite C2, B2, !negb_involutive. set (k := b mod 128 + (if esc then 128 else 0)).
  assert (0 <= k < 256) as Hk by (unfold k; destruct esc; pose proof (Z.mod_pos_bound b 128); lia).
  destruct (bit_event esc mods k Hm Hk) as [D1 D2]. unfold set_shift, is_u8 in *.
  destruct (Z.ltb_spec b 128) as [Hlt|Hge]; cbn [negb].
  - assert ((if esc then (Z.lor b 128, Z.land (shift_of esc mods) (Z.lnot E0ESC)) else (b, shift_of esc mods)) = (k, mods)) as ->.
    { unfold k. destruct esc; [by rewrite C3, B3|]. rewrite Z.mod_small by lia. unfold shift_of. f_equal; lia. }
    run. unfold event_char, event_mods, shift_of. simpl. by rewrite ?Z.add_0_r.
  - assert ((if esc then b else Z.land b 127) = k) as ->.
    { unfold k. destruct esc; [|rewrite C1; lia]. replace b with (b - 128 + 1 * 128) at 2 by lia.
      rewrite Z.mod_add, Z.mod_small by lia. lia. }
    run. cbn [kb_hw]. rewrite D1. unfold event_char, shift_of. simpl. by rewrite ?Z.add_0_r.
Qed.

Lemma getcs_run h bs h' : delivers h bs h' → ∀ esc mods, 0 <= mods < 64 →
  getcs (length bs) (KbdSt h (shift_of esc mods)) =
    Ok (chars_of esc mods bs) (KbdSt h' (shift_of (pending esc bs) (foldl event_mods mods (events esc bs)))) ∧
  Forall is_u8 (chars_of esc mods bs) ∧ 0 <= foldl event_mods mods (events esc bs) < 64.
Proof.
  induction 1 as [h|h st h1 b h2 bs h3 H1 Hst H2 Hb _ IH]; intros esc mods Hm; [done|].
  cbn [length getcs chars_of pending events].
  pose proof (kbdgetc_byte h h1 st b h2 esc mods H1 Hst H2 Hb Hm) as Hstep. destruct (b =? 224).
  - rewrite (bind_run _ _ _ _ _ Hstep). destruct (IH true mods Hm) as (Hg & Hc & Hr). rewrite (bind_run _ _ _ _ _ Hg). split; [done|split; [|done]].
    constructor; [unfold is_u8; lia|done].
  - cbv zeta in Hstep. set (e := (b mod 128 + (if esc then 128 else 0), b <? 128)) in *.
    assert (0 <= e.1 < 256) as Hk by (simpl; destruct esc; pose proof (Z.mod_pos_bound b 128); lia).
    assert (0 <= event_mods mods e < 64) as Hm' by (by apply (bit_event esc mods e.1 Hm Hk)).
    rewrite (bind_run _ _ _ _ _ Hstep). destruct (IH false (event_mods mods e) Hm') as (Hg & Hc & Hr).
    rewrite (bind_run _ _ _ _ _ Hg). split; [done|split; [|done]]. constructor; [by apply char_byte|done].
Qed.

(** ** What the modifiers mean *)

Lemma events_key esc bs e : Forall is_u8 bs → e ∈ events esc bs → 0 <= e.1 < 256.
Proof.
  intros Hb. revert esc. induction Hb as [|b bs Hb _ IH]; intros esc He; simpl in He; [by apply elem_of_nil in He|].
  destruct (b =? 224); [by eapply IH|]. apply elem_of_cons in He as [->|He]; [|by eapply IH].
  simpl. destruct esc; pose proof (Z.mod_pos_bound b 128); lia.
Qed.

(** A bit of the modifiers after an event; no key is both a modifier and a lock. *)
Definition key_bits (k : Z) : bool :=
  forallb (λ m, forallb (λ t,
    let sc := getZ shiftcode k in let tc := getZ togglecode k in
    (Z.land sc t =? 0) && (Z.land tc m =? 0)) [CAPSLOCK; NUMLOCK; SCROLLLOCK]) [SHIFT; CTL; ALT].
Lemma key_bits_ok : forallb key_bits (seqZ 0 256) = true.
Proof. by vm_compute. Qed.

Lemma land_pow2 x n : 0 <= n → (Z.land x (2 ^ n) =? 0) = negb (Z.testbit x n).
Proof.
  intros Hn. destruct (Z.testbit x n) eqn:E; simpl.
  - apply Z.eqb_neq. intros H0. apply (f_equal (λ z, Z.testbit z n)) in H0.
    rewrite Z.land_spec, Z.pow2_bits_true, E, Z.bits_0 in H0 by done. done.
  - apply Z.eqb_eq. apply Z.bits_inj'. intros i Hi. rewrite Z.land_spec, Z.bits_0.
    destruct (decide (i = n)) as [->|]; [by rewrite E|]. by rewrite Z.pow2_bits_false, andb_false_r.
Qed.

Lemma event_down n mods e : n ∈ [0; 1; 2] → 0 <= e.1 < 256 →
  Z.testbit (event_mods mods e) n = if Z.land (getZ shiftcode e.1) (2 ^ n) =? 0 then Z.testbit mods n else e.2.
Proof.
  intros Hn Hk. assert (0 <= n) as Hn0 by (repeat (apply elem_of_cons in Hn as [->|Hn]; [lia|]); by apply elem_of_nil in Hn).
  pose proof (forallb_Z _ 0 256 e.1 key_bits_ok ltac:(lia)) as Hb. unfold key_bits in Hb. rewrite forallb_forall in Hb.
  assert (In (2 ^ n) [SHIFT; CTL; ALT]) as Hin.
  { repeat (apply elem_of_cons in Hn as [->|Hn]; [simpl; auto|]). by apply elem_of_nil in Hn. }
  specialize (Hb _ Hin). simpl in Hb. rewrite !andb_true_iff in Hb.
  assert ((Z.land (getZ togglecode e.1) (2 ^ n) =? 0) = true) as Ht by tauto. clear Hb Hin. rename Ht into Hb.
  rewrite land_pow2 in * by done. apply negb_true_iff in Hb. unfold event_mods.
  destruct (Z.testbit (getZ shiftcode e.1) n) eqn:Es; destruct e.2; simpl;
    rewrite ?Z.lxor_spec, ?Z.lor_spec, ?Z.land_spec, ?Z.lnot_spec by done; rewrite Es, ?Hb;
    rewrite ?orb_true_r, ?orb_false_r, ?xorb_false_r, ?andb_false_r, ?andb_true_r; done.
Qed.

Lemma event_lock n mods e : n ∈ [3; 4; 5] → 0 <= e.1 < 256 →
  Z.testbit (event_mods mods e) n =
    if e.2 && negb (Z.land (getZ togglecode e.1) (2 ^ n) =? 0) then negb (Z.testbit mods n) else Z.testbit mods n.
Proof.
  intros Hn Hk. assert (0 <= n) as Hn0 by (repeat (apply elem_of_cons in Hn as [->|Hn]; [lia|]); by apply elem_of_nil in Hn).
  pose proof (forallb_Z _ 0 256 e.1 key_bits_ok ltac:(lia)) as Hb. unfold key_bits in Hb. rewrite forallb_forall in Hb.
  specialize (Hb SHIFT ltac:(simpl; auto)). rewrite forallb_forall in Hb. assert (In (2 ^ n) [CAPSLOCK; NUMLOCK; SCROLLLOCK]) as Hin.
  { repeat (apply elem_of_cons in Hn as [->|Hn]; [simpl; auto|]). by apply elem_of_nil in Hn. }
  specialize (Hb _ Hin). cbv zeta in Hb. apply andb_true_iff in Hb as [Hb _]. clear Hin. rewrite land_pow2 in * by done. apply negb_true_iff in Hb.
  unfold event_mods. rewrite negb_involutive.
  destruct (Z.testbit (getZ togglecode e.1) n) eqn:Es; destruct e.2; simpl;
    rewrite ?Z.lxor_spec, ?Z.lor_spec, ?Z.land_spec, ?Z.lnot_spec by done; rewrite ?Es, ?Hb;
    rewrite ?orb_false_r, ?xorb_false_r, ?xorb_true_r, ?andb_true_r; done.
Qed.

Lemma delivers_bytes h bs h' : delivers h bs h' → Forall is_u8 bs.
Proof. induction 1; by constructor. Qed.

(** The tables say which keys are modifiers and locks. *)
Definition mod_of (n : Z) : list Z := if n =? 0 then shift_keys else if n =? 1 then ctl_keys else alt_keys.
Definition lock_of (n : Z) : Z := if n =? 3 then caps_key else if n =? 4 then num_key else scroll_key.
Lemma mod_keys : forallb (λ n, forallb (λ k,
  bool_decide ((Z.land (getZ shiftcode k) (2 ^ n) =? 0) = negb (bool_decide (k ∈ mod_of n)))) (seqZ 0 256)) [0; 1; 2] = true.
Proof. by vm_compute. Qed.
Lemma lock_keys : forallb (λ n, forallb (λ k,
  bool_decide ((Z.land (getZ togglecode k) (2 ^ n) =? 0) = negb (k =? lock_of n))) (seqZ 0 256)) [3; 4; 5] = true.
Proof. by vm_compute. Qed.

(** The characters of the tables are those of the keyboard. *)
Definition map_char (mods k : Z) : Z :=
  let c := getZ (charcode (Z.land mods (Z.lor CTL SHIFT))) k in
  if negb (Z.land mods CAPSLOCK =? 0) then caps c else c.
Lemma map_chars : forallb (λ mods, forallb (λ k,
  map_char mods k =? typed (Z.testbit mods 1) (Z.testbit mods 0) (Z.testbit mods 3) k) (seqZ 0 256)) (seqZ 0 64) = true.
Proof. by vm_compute. Qed.

Lemma forallb_in {A} (P : A → bool) l x : forallb P l = true → In x l → P x = true.
Proof. rewrite forallb_forall. auto. Qed.

Lemma foldl_held n es : n ∈ [0; 1; 2] → (∀ e, e ∈ es → 0 <= e.1 < 256) →
  Z.testbit (foldl event_mods 0 es) n = held (mod_of n) es.
Proof.
  intros Hn Hk. unfold held. assert (∀ m b, Z.testbit m n = b → Z.testbit (foldl event_mods m es) n =
    foldl (λ b e, if bool_decide (e.1 ∈ mod_of n) then e.2 else b) b es) as H0; [|apply H0, Z.bits_0].
  induction es as [|e es IH]; intros m b Hm; simpl; [done|]. apply IH; [set_solver|].
  assert (0 <= e.1 < 256) as He by set_solver. rewrite event_down by done.
  pose proof (forallb_Z _ 0 256 e.1 (forallb_in _ _ n mod_keys (proj1 (list_elem_of_In _ _) Hn)) ltac:(lia)) as Hb. cbv beta in Hb.
  apply bool_decide_eq_true in Hb. rewrite Hb. by destruct (bool_decide (e.1 ∈ mod_of n)).
Qed.
Lemma foldl_toggled n es : n ∈ [3; 4; 5] → (∀ e, e ∈ es → 0 <= e.1 < 256) →
  Z.testbit (foldl event_mods 0 es) n = toggled (lock_of n) es.
Proof.
  intros Hn Hk. unfold toggled. assert (∀ m b, Z.testbit m n = b → Z.testbit (foldl event_mods m es) n =
    foldl (λ b e, if e.2 && (e.1 =? lock_of n) then negb b else b) b es) as H0; [|apply H0, Z.bits_0].
  induction es as [|e es IH]; intros m b Hm; simpl; [done|]. apply IH; [set_solver|].
  assert (0 <= e.1 < 256) as He by set_solver. rewrite event_lock by done.
  pose proof (forallb_Z _ 0 256 e.1 (forallb_in _ _ n lock_keys (proj1 (list_elem_of_In _ _) Hn)) ltac:(lia)) as Hb. cbv beta in Hb.
  apply bool_decide_eq_true in Hb. rewrite Hb, negb_involutive, Hm. done.
Qed.

Lemma event_char_typed es e : (∀ x, x ∈ es ++ [e] → 0 <= x.1 < 256) →
  0 <= foldl event_mods 0 (es ++ [e]) < 64 →
  event_char (foldl event_mods 0 es) e = last_char (es ++ [e]).
Proof.
  intros Hk Hm. unfold last_char. rewrite last_snoc.
  rewrite <-(foldl_held 0), <-(foldl_held 1), <-(foldl_toggled 3) by (done || set_solver).
  assert (0 <= e.1 < 256) as He by set_solver.
  rewrite foldl_app in *. cbn [foldl] in *. destruct e as [k [|]]; [|done].
  pose proof (forallb_Z _ 0 256 k (forallb_Z _ 0 64 (event_mods (foldl event_mods 0 es) (k, true)) map_chars ltac:(lia)) ltac:(simpl in He; lia)) as Hc.
  cbv beta in Hc. apply Z.eqb_eq in Hc. by rewrite <-Hc.
Qed.

Lemma key_range b (esc : bool) : 0 <= b mod 128 + (if esc then 128 else 0) < 256.
Proof. destruct esc; pose proof (Z.mod_pos_bound b 128); lia. Qed.

(** The events of the bytes up to number [j], and what call [j] returns. *)
Lemma chars_typed bs : Forall is_u8 bs → ∀ esc es j b,
  (∀ e, e ∈ es → 0 <= e.1 < 256) → 0 <= foldl event_mods 0 es < 64 → bs !! j = Some b →
  chars_of esc (foldl event_mods 0 es) bs !! j =
    Some (if b =? 0xE0 then 0 else last_char (es ++ events esc (take (S j) bs))).
Proof.
  induction 1 as [|b0 bs Hb Hbs IH]; intros esc es j b Hes Hm Hj; [done|]. cbn [chars_of].
  destruct j as [|j].
  - injection Hj as ->. cbn [take events]. destruct (Z.eqb_spec b 0xE0) as [->|Hne]; [done|]. cbv zeta.
    set (e := (b mod 128 + (if esc then 128 else 0), b <? 128)).
    assert (0 <= e.1 < 256) as Hk by apply key_range.
    cbn. f_equal. apply event_char_typed.
    + intros e' [H0|H0]%elem_of_app; [auto|]. by apply list_elem_of_singleton in H0 as ->.
    + rewrite foldl_app. by apply (bit_event esc _ e.1 Hm Hk).
  - cbn [take lookup list_lookup] in *. change (events esc (b0 :: take (S j) bs)) with
      (if b0 =? 0xE0 then events true (take (S j) bs) else (b0 mod 128 + (if esc then 128 else 0), b0 <? 128) :: events false (take (S j) bs)).
    destruct (Z.eqb_spec b0 0xE0) as [->|Hne]; [by apply (IH true es j b)|]. cbv zeta.
    set (e := (b0 mod 128 + (if esc then 128 else 0), b0 <? 128)).
    assert (0 <= e.1 < 256) as Hk by apply key_range.
    pose proof (IH false (es ++ [e]) j b) as IH'. rewrite foldl_app in IH'. cbn [foldl] in IH'.
    rewrite <-app_assoc in IH'. apply IH'; [|by apply (bit_event esc _ e.1 Hm Hk)|done].
    intros e' [H0|H0]%elem_of_app; [auto|]. by apply list_elem_of_singleton in H0 as ->.
Qed.

Lemma length_chars_of esc mods bs : length (chars_of esc mods bs) = length bs.
Proof.
  revert esc mods. induction bs as [|b bs IH]; intros esc m; simpl; [done|]. destruct (b =? 224); simpl; by rewrite IH.
Qed.

(** C30. kbdgetc is the decoder of the keyboard. Whatever bytes the controller delivers,
    every call returns a byte: the character that is on the key of the last scan code
    when it went down - the upper one under shift, the control character under control,
    case turned around by caps lock - and 0 when the key went up, has no character, or
    only the escape came. Afterwards [shift] says of shift, control and alt whether the
    last event of such a key was a press, of the three locks whether they were
    switched an odd number of times, and whether an escape is pending. With no byte to
    read kbdgetc returns -1 and changes nothing. *)
Theorem kbdgetc_correct h bs h' :
  delivers h bs h' →
  ∃ cs sh, getcs (length bs) (KbdSt h 0) = Ok cs (KbdSt h' sh) ∧ length cs = length bs ∧ Forall is_u8 cs ∧
    (∀ j b, bs !! j = Some b → cs !! j = Some (if b =? 0xE0 then 0 else last_char (events false (take (S j) bs)))) ∧
    let es := events false bs in
    0 <= sh < 128 ∧
    Z.testbit sh 0 = held shift_keys es ∧ Z.testbit sh 1 = held ctl_keys es ∧ Z.testbit sh 2 = held alt_keys es ∧
    Z.testbit sh 3 = toggled caps_key es ∧ Z.testbit sh 4 = toggled num_key es ∧ Z.testbit sh 5 = toggled scroll_key es ∧
    Z.testbit sh 6 = pending false bs ∧
    ∀ st h'' sh', hw_inb KBSTATP h' = (st, h'') → Z.land (u8 st) KBS_DIB = 0 →
      kbdgetc (KbdSt h' sh') = Ok (-1) (KbdSt h'' sh').
Proof.
  intros Hd. destruct (getcs_run h bs h' Hd false 0 ltac:(lia)) as (Hg & Hc & Hr).
  change (shift_of false 0) with 0 in Hg. pose proof (delivers_bytes _ _ _ Hd) as Hbs.
  exists (chars_of false 0 bs), (shift_of (pending false bs) (foldl event_mods 0 (events false bs))).
  assert (∀ n, 0 <= n < 6 → Z.testbit (shift_of (pending false bs) (foldl event_mods 0 (events false bs))) n =
    Z.testbit (foldl event_mods 0 (events false bs)) n) as Hbit.
  { intros n Hn. unfold shift_of. destruct (pending false bs); [|by rewrite Z.add_0_r].
    change 64 with (1 * 2 ^ 6). set (mods := foldl _ _ _). rewrite <-(Z.mod_pow2_bits_low _ 6), <-(Z.mod_pow2_bits_low mods 6 n) by lia.
    by rewrite Z.mod_add by lia. }
  assert (∀ e, e ∈ events false bs → 0 <= e.1 < 256) as Hk by (intros e; by apply events_key).
  split; [done|]. split; [apply length_chars_of|]. split; [done|]. split.
  { intros j b. apply (chars_typed bs Hbs false []); [|done]. intros e []%elem_of_nil. }
  intros es. split; [unfold shift_of; destruct (pending false bs); lia|].
  rewrite !(Hbit 0), !(Hbit 1), !(Hbit 2), !(Hbit 3), !(Hbit 4), !(Hbit 5) by lia. split_and!.
  - by apply (foldl_held 0 es); [set_solver|].
  - by apply (foldl_held 1 es); [set_solver|].
  - by apply (foldl_held 2 es); [set_solver|].
  - by apply (foldl_toggled 3 es); [set_solver|].
  - by apply (foldl_toggled 4 es); [set_solver|].
  - by apply (foldl_toggled 5 es); [set_solver|].
  - set (mods := foldl _ _ _) in *. unfold shift_of. rewrite Z.testbit_eqb by lia. change (2 ^ 6) with 64. destruct (pending false bs).
    + by replace ((mods + 64) / 64) with 1 by (Z.to_euclidean_division_equations; lia).
    + by replace ((mods + 0) / 64) with 0 by (Z.to_euclidean_division_equations; lia).
  - intros st h'' sh' H1 H2. unfold kbdgetc, kb, zoom, inb, mbind, M_bind. simpl. rewrite H1, H2. done.
Qed.
End spec.

(** A controller with a queue of bytes. *)
Record kbd_ex := KbdEx { kq : list Z }.
#[local] Instance kbd_machine : Machine kbd_ex := {
  hw_inb := λ p k, if p =? KBSTATP then (if bool_decide (kq k = []) then 0 else 1, k) else (hd 0 (kq k), KbdEx (tl (kq k)));
  hw_outb := λ _ _ k, k; hw_inl := λ _ k, (0, k); hw_outl := λ _ _ k, k;
  hw_read := λ _ k, (0, k); hw_write := λ _ _ k, k
}.

(** Shift down, a, shift up, a, control down: the characters are A and a. *)
Lemma kbdgetc_correct_witness : ∃ sh,
  getcs 5 (KbdSt (KbdEx [0x2A; 0x1E; 0xAA; 0x1E; 0x1D]) 0) = Ok [0; 65; 0; 97; 0] (KbdSt (KbdEx []) sh) ∧
  Z.testbit sh 0 = false ∧ Z.testbit sh 1 = true.
Proof.
  destruct (kbdgetc_correct (KbdEx [0x2A; 0x1E; 0xAA; 0x1E; 0x1D]) [0x2A; 0x1E; 0xAA; 0x1E; 0x1D] (KbdEx []))
    as (cs & sh & H & _ & _ & _ & _ & H0 & H1 & _).
  { repeat (eapply delivers_cons; [reflexivity|done|reflexivity|unfold is_u8; lia|]). apply delivers_nil. }
  exists sh. rewrite H0, H1. split; [|done]. vm_compute in H. injection H as <- <-. by vm_compute.
Defined.
