(* ===== verification/Console.v ===== *)
(** * The console and the serial port (console.c, uart.c)

    Characters go to the serial port and to the CGA screen; they come from the
    keyboard or the serial port into a line buffer that processes read. cons.lock
    makes consoleintr and the parts of consoleread between two sleeps atomic
    sections. [E] is the rest of the kernel that consoleread uses: the locks of
    inodes. A cell of the screen is a 16-bit word. *)

From S2P Require Import Prelude Cstring Hw Irq Kbd Format.

Definition COM1 : Z := 0x3f8.
Definition IRQ_COM1 : Z := 4.
Definition IRQ_KBD : Z := 1.
Definition BACKSPACE : Z := 0x100.
Definition CRTPORT : Z := 0x3d4.
Definition INPUT_BUF : Z := 128.
(** C('P'), C('U'), C('H'), C('D') *)
Definition C (x : Z) : Z := x - 64.

Record consst (H E : Type) := Consst {
  c_kbd : kbdst H; c_uart : bool; c_crt : Z → Z; c_panicked : bool;
  in_buf : list Z; in_r : Z; in_w : Z; in_e : Z;
  c_wakes : nat;   (** calls of wakeup(&input.r) *)
  c_env : E
}.
Arguments Consst {H E} _ _ _ _ _ _ _ _ _ _.
Arguments c_kbd {H E} _.
Arguments c_uart {H E} _.
Arguments c_crt {H E} _.
Arguments c_panicked {H E} _.
Arguments in_buf {H E} _.
Arguments in_r {H E} _.
Arguments in_w {H E} _.
Arguments in_e {H E} _.
Arguments c_wakes {H E} _.
Arguments c_env {H E} _.

Section console.
Context {H E : Type} `{!Machine H}.
Implicit Types (s : consst H E).

Definition put_kbd k s : consst H E :=
  Consst k (c_uart s) (c_crt s) (c_panicked s) (in_buf s) (in_r s) (in_w s) (in_e s) (c_wakes s) (c_env s).
Definition put_uart u s : consst H E :=
  Consst (c_kbd s) u (c_crt s) (c_panicked s) (in_buf s) (in_r s) (in_w s) (in_e s) (c_wakes s) (c_env s).
Definition put_crt c s : consst H E :=
  Consst (c_kbd s) (c_uart s) c (c_panicked s) (in_buf s) (in_r s) (in_w s) (in_e s) (c_wakes s) (c_env s).
Definition put_panicked p s : consst H E :=
  Consst (c_kbd s) (c_uart s) (c_crt s) p (in_buf s) (in_r s) (in_w s) (in_e s) (c_wakes s) (c_env s).
Definition put_input b r w e s : consst H E :=
  Consst (c_kbd s) (c_uart s) (c_crt s) (c_panicked s) b r w e (c_wakes s) (c_env s).
Definition put_wakes n s : consst H E :=
  Consst (c_kbd s) (c_uart s) (c_crt s) (c_panicked s) (in_buf s) (in_r s) (in_w s) (in_e s) n (c_env s).
Definition put_cenv v s : consst H E :=
  Consst (c_kbd s) (c_uart s) (c_crt s) (c_panicked s) (in_buf s) (in_r s) (in_w s) (in_e s) (c_wakes s) v.

(** The machine's I/O, and the keyboard driver. *)
Definition hw {A} (m : M H A) : M (consst H E) A :=
  zoom (λ s, kb_hw (c_kbd s)) (λ h s, put_kbd (KbdSt h (shift (c_kbd s))) s) m.
Definition kbdgetc : M (consst H E) Z := zoom c_kbd put_kbd Kbd.kbdgetc.
Definition in_env {A} (m : M E A) : M (consst H E) A := zoom c_env put_cenv m.

(** ** uart.c *)

(** for(i = 0; i < 128 && !(inb(COM1+5) & 0x20); i++) *)
Fixpoint uart_wait (n : nat) : M (consst H E) unit :=
  match n with
  | O => mret tt
  | S n => v ← hw (inb (COM1 + 5)); if Z.land v 0x20 =? 0 then uart_wait n else mret tt
  end.

Definition uartputc (c : Z) : M (consst H E) unit :=
  u ← gets c_uart;
  if negb u then mret tt
  else uart_wait 128;; hw (outb (COM1 + 0) c).

Definition uartgetc : M (consst H E) Z :=
  u ← gets c_uart;
  if negb u then mret (-1)
  else
    v ← hw (inb (COM1 + 5));
    if Z.land v 0x01 =? 0 then mret (-1) else hw (inb (COM1 + 0)).

Definition uartinit : M (consst H E) unit :=
  hw (outb (COM1 + 2) 0;;
      outb (COM1 + 3) 0x80;;
      outb (COM1 + 0) (115200 / 9600);;
      outb (COM1 + 1) 0;;
      outb (COM1 + 3) 0x03;;
      outb (COM1 + 4) 0;;
      outb (COM1 + 1) 0x01);;
  v ← hw (inb (COM1 + 5));
  if v =? 0xFF then mret tt
  else
    modify (put_uart true);;
    hw (_ ← inb (COM1 + 2); _ ← inb (COM1 + 0); ioapicenable IRQ_COM1 0);;
    for_each [120; 118; 54; 46; 46; 46; 10] uartputc.

(** ** The screen *)

(** memmove(crt, crt+80, sizeof(crt[0])*23*80), on the cells. *)
Definition crt_scroll (crt : Z → Z) : Z → Z :=
  λ i, if (0 <=? i) && (i <? 23 * 80) then crt (i + 80) else crt i.
(** memset(crt+pos, 0, sizeof(crt[0])*(24*80 - pos)) *)
Definition crt_clear (pos : Z) (crt : Z → Z) : Z → Z :=
  λ i, if (pos <=? i) && (i <? 24 * 80) then 0 else crt i.

(** cgaputc, once it has the cursor's position. *)
Definition cga_put (c pos : Z) : M (consst H E) unit :=
  pos ← (if c =? 10 then mret (pos + (80 - pos mod 80))
         else if c =? BACKSPACE then mret (if 0 <? pos then pos - 1 else pos)
         else modify (λ s, put_crt (fupd (c_crt s) pos (Z.lor (Z.land c 0xff) 0x0700)) s);; mret (pos + 1));
  panic_if ((pos <? 0) || (25 * 80 <? pos)) "pos under/overflow";;
  pos ← (if 24 <=? pos / 80 then
           modify (λ s, put_crt (crt_clear (pos - 80) (crt_scroll (c_crt s))) s);; mret (pos - 80)
         else mret pos);
  hw (outb CRTPORT 14);;
  hw (outb (CRTPORT + 1) (Z.shiftr pos 8));;
  hw (outb CRTPORT 15);;
  hw (outb (CRTPORT + 1) pos);;
  modify (λ s, put_crt (fupd (c_crt s) pos (Z.lor 32 0x0700)) s).

Definition cgaputc (c : Z) : M (consst H E) unit :=
  hw (outb CRTPORT 14);;
  hi ← hw (inb (CRTPORT + 1));
  hw (outb CRTPORT 15);;
  lo ← hw (inb (CRTPORT + 1));
  cga_put c (Z.lor (Z.shiftl hi 8) lo).

(** After a panic the processor stops here. *)
Definition consputc (c : Z) : M (consst H E) unit :=
  p ← gets c_panicked;
  if p : bool then blocked
  else
    (if c =? BACKSPACE then uartputc 8;; uartputc 32;; uartputc 8 else uartputc c);;
    cgaputc c.

(** cprintf, between taking and releasing cons.lock. *)
Definition cprintf (m : mem) (args : Z → Z) (fuel : nat) (fmt : list Z) : M (consst H E) unit :=
  cprintf_loop consputc m args fuel fmt 0.

(** ** The input *)

(** The loop of ^U: [n] characters are left before input.w. *)
Fixpoint kill_line (n : nat) : M (consst H E) unit :=
  match n with
  | O => mret tt
  | S n =>
      s ← gets id;
      if getZ (in_buf s) (u32 (in_e s - 1) mod INPUT_BUF) =? 10 then mret tt
      else
        modify (λ s, put_input (in_buf s) (in_r s) (in_w s) (u32 (in_e s - 1)) s);;
        consputc BACKSPACE;;
        kill_line n
  end.

(** One character; the result says whether it asks for a process listing. *)
Definition cons_char (c : Z) : M (consst H E) bool :=
  s ← gets id;
  if c =? C 80 then mret true
  else if c =? C 85 then kill_line (Z.to_nat (u32 (in_e s - in_w s)));; mret false
  else if (c =? C 72) || (c =? 127) then
    (if negb (in_e s =? in_w s) then
       modify (λ s, put_input (in_buf s) (in_r s) (in_w s) (u32 (in_e s - 1)) s);;
       consputc BACKSPACE
     else mret tt);;
    mret false
  else
    (if negb (c =? 0) && (u32 (in_e s - in_r s) <? INPUT_BUF) then
       let c := if c =? 13 then 10 else c in
       modify (λ s, put_input (setZ (in_buf s) (in_e s mod INPUT_BUF) (u8 c)) (in_r s) (in_w s) (u32 (in_e s + 1)) s);;
       consputc c;;
       s ← gets id;
       if (c =? 10) || (c =? C 68) || (in_e s =? u32 (in_r s + INPUT_BUF)) then
         modify (λ s, put_wakes (S (c_wakes s)) (put_input (in_buf s) (in_r s) (in_e s) (in_e s) s))
       else mret tt
     else mret tt);;
    mret false.

(** while((c = getc()) >= 0); the result says whether procdump is called after. *)
Fixpoint consoleintr (fuel : nat) (getc : M (consst H E) Z) (doprocdump : bool) : M (consst H E) bool :=
  match fuel with
  | O => no_fuel
  | S fuel =>
      c ← getc;
      if c <? 0 then mret doprocdump
      else d ← cons_char c; consoleintr fuel getc (doprocdump || d)
  end.
Definition kbdintr (fuel : nat) : M (consst H E) bool := consoleintr fuel kbdgetc false.
Definition uartintr (fuel : nat) : M (consst H E) bool := consoleintr fuel uartgetc false.

(** ** Reading and writing *)

(** A section of consoleread ends with the return value and the bytes stored, or
    in sleep with [n] bytes still wanted. *)
Inductive cread := CDone (r : Z) (bytes : list Z) | CSleep (n : nat) (bytes : list Z).

(** while(n > 0), from where [acc] has been stored. *)
Fixpoint cread_loop (killed : bool) (target : Z) (n : nat) (acc : list Z) : M (consst H E) cread :=
  match n with
  | O => mret (CDone target acc)
  | S n' =>
      s ← gets id;
      if in_r s =? in_w s then
        mret (if killed then CDone (-1) acc else CSleep n acc)
      else
        let c := getZ (in_buf s) (in_r s mod INPUT_BUF) in
        modify (λ s, put_input (in_buf s) (u32 (in_r s + 1)) (in_w s) (in_e s) s);;
        if c =? C 68 then
          (if Z.of_nat n <? target then
             modify (λ s, put_input (in_buf s) (u32 (in_r s - 1)) (in_w s) (in_e s) s)
           else mret tt);;
          mret (CDone (target - Z.of_nat n) acc)
        else if c =? 10 then mret (CDone (target - Z.of_nat n') (acc ++ [c]))
        else cread_loop killed target n' (acc ++ [c])
  end.

Context (iunlock ilock : nat → M E unit).

(** The end of consoleread, where it did not sleep. *)
Definition cread_end (ip : nat) (x : cread) : M (consst H E) cread :=
  match x with
  | CDone r b => in_env (ilock ip);; mret x
  | CSleep _ _ => mret x
  end.
(** For n <= 0 the result target - n is 0. *)
Definition consoleread (killed : bool) (ip : nat) (n : Z) : M (consst H E) cread :=
  in_env (iunlock ip);;
  x ← cread_loop killed (Z.max 0 n) (Z.to_nat n) [];
  cread_end ip x.
(** A thread that slept in consoleread goes on. *)
Definition consoleread_wake (killed : bool) (ip : nat) (target : Z) (n : nat) (acc : list Z) : M (consst H E) cread :=
  x ← cread_loop killed target n acc;
  cread_end ip x.

Definition consolewrite (ip : nat) (buf : list Z) : M (consst H E) Z :=
  in_env (iunlock ip);;
  for_each buf (λ c, consputc (Z.land c 0xff));;
  in_env (ilock ip);;
  mret (Z.of_nat (length buf)).

Definition consoleinit : M (consst H E) unit := hw (ioapicenable IRQ_KBD 0).
End console.
