(* ===== verification/ConsoleSpec.v ===== *)
(** * The console: the screen and the line discipline *)

From S2P Require Import Prelude Cstring Hw Irq Kbd Format Console.

(** ** The screen *)

(** The cursor registers of the CRT controller: port 0x3d4 selects a register, port
    0x3d5 reads and writes it; 14 and 15 are the high and the low byte of the
    cursor. Other ports do not touch them. *)
Class CgaLaws (H : Type) `{!Machine H} := {
  cga_index : H → Z; cga_hi : H → Z; cga_lo : H → Z;
  cga_same (h h' : H) : Prop := cga_index h' = cga_index h ∧ cga_hi h' = cga_hi h ∧ cga_lo h' = cga_lo h;
  cga_bytes : ∀ h, is_u8 (cga_hi h) ∧ is_u8 (cga_lo h);
  cga_select : ∀ v h, let h' := hw_outb CRTPORT v h in
    cga_index h' = v ∧ cga_hi h' = cga_hi h ∧ cga_lo h' = cga_lo h;
  cga_set : ∀ v h, is_u8 v → let h' := hw_outb (CRTPORT + 1) v h in cga_index h' = cga_index h ∧
    cga_hi h' = (if cga_index h =? 14 then v else cga_hi h) ∧
    cga_lo h' = (if cga_index h =? 15 then v else cga_lo h);
  cga_get : ∀ h, cga_same h (hw_inb (CRTPORT + 1) h).2 ∧
    (cga_index h = 14 → (hw_inb (CRTPORT + 1) h).1 = cga_hi h) ∧
    (cga_index h = 15 → (hw_inb (CRTPORT + 1) h).1 = cga_lo h);
  cga_out : ∀ p v h, p ≠ CRTPORT → p ≠ CRTPORT + 1 → cga_same h (hw_outb p v h);
  cga_in : ∀ p h, p ≠ CRTPORT + 1 → cga_same h (hw_inb p h).2
}.

Section spec.
Context {H E : Type} `{!Machine H, !CgaLaws H}.
Implicit Types (s : consst H E) (h : H).

Definition cursor h : Z := 256 * cga_hi h + cga_lo h.
Definition hw_of s : H := kb_hw (c_kbd s).
Definition with_hw h s : consst H E := put_kbd (KbdSt h (shift (c_kbd s))) s.

Lemma con_hw_run {A} (m : M H A) s a h : m (hw_of s) = Ok a h → hw m s = Ok a (with_hw h s).
Proof. intros H0. unfold hw, zoom. fold (hw_of s). by rewrite H0. Qed.
Lemma hw_of_with h s : hw_of (with_hw h s) = h.
Proof. done. Qed.
Lemma with_hw_hw h h' s : with_hw h (with_hw h' s) = with_hw h s.
Proof. done. Qed.

(** The routines that only use the machine's ports. *)
Lemma cursor_same h h' : cga_same h h' → cursor h' = cursor h.
Proof. intros (_ & H1 & H2). unfold cursor. by rewrite H1, H2. Qed.

Lemma uart_wait_run n s : ∃ h, uart_wait n s = Ok tt (with_hw h s) ∧ cursor h = cursor (hw_of s).
Proof.
  revert s. induction n as [|n IH]; intros s; cbn [uart_wait].
  - exists (hw_of s). split; [|done]. by destruct s as [[]].
  - pose proof (cga_in (COM1 + 5) (hw_of s) ltac:(done)) as Hin.
    destruct (hw_inb (COM1 + 5) (hw_of s)) as [v h] eqn:Ei. apply cursor_same in Hin. simpl in Hin.
    rewrite (bind_run _ _ _ _ _ (con_hw_run (inb (COM1 + 5)) s (u8 v) h ltac:(unfold inb; by rewrite Ei))).
    destruct (_ =? 0); [|by exists h]. destruct (IH (with_hw h s)) as (h' & H1 & H2).
    rewrite H1. exists h'. by rewrite <-Hin.
Qed.

Lemma uartputc_run c s : ∃ h, uartputc c s = Ok tt (with_hw h s) ∧ cursor h = cursor (hw_of s).
Proof.
  unfold uartputc. run. destruct (c_uart s); cbn [negb].
  - destruct (uart_wait_run 128 s) as (h & H1 & H2). rewrite (bind_run _ _ _ _ _ H1).
    exists (hw_outb (u16 (COM1 + 0)) (u8 c) h).
    split; [exact (con_hw_run (outb (COM1 + 0) c) (with_hw h s) tt _ eq_refl)|].
    rewrite <-H2. apply cursor_same, cga_out; done.
  - exists (hw_of s). split; [|done]. by destruct s as [[]].
Qed.

(** The position after a character, and the cells, before a scroll. *)
Definition next_pos (c pos : Z) : Z :=
  if c =? 10 then (pos / 80 + 1) * 80 else if c =? BACKSPACE then Z.max 0 (pos - 1) else pos + 1.
Definition put_cell (c pos : Z) (crt : Z → Z) : Z → Z :=
  if (c =? 10) || (c =? BACKSPACE) then crt else fupd crt pos (Z.land c 0xff + 0x0700).
Definition blank : Z := 0x0720.

(** The screen has 24 rows of 80 cells. *)
Definition screen_pos (c pos : Z) : Z := if next_pos c pos <? 1920 then next_pos c pos else next_pos c pos - 80.
Definition screen_cells (c pos : Z) (crt : Z → Z) (i : Z) : Z :=
  if i =? screen_pos c pos then blank
  else if next_pos c pos <? 1920 then put_cell c pos crt i
  else if (0 <=? i) && (i <? 1840) then put_cell c pos crt (i + 80)
  else if (1840 <=? i) && (i <? 1920) then 0
  else put_cell c pos crt i.

Lemma cursor_range h : 0 <= cursor h < 65536.
Proof. unfold cursor. destruct (cga_bytes h) as [H1 H2]. unfold is_u8 in *. lia. Qed.

(** Reading and setting the cursor. *)
Lemma cursor_get_run {B} s (k : Z → M (consst H E) B) :
  ∃ h, cursor h = cursor (hw_of s) ∧
    (hw (outb CRTPORT 14);; hi ← hw (inb (CRTPORT + 1)); hw (outb CRTPORT 15);; lo ← hw (inb (CRTPORT + 1));
     k (Z.lor (Z.shiftl hi 8) lo)) s = k (cursor (hw_of s)) (with_hw h s).
Proof.
  set (h0 := hw_of s). destruct (cga_bytes h0) as [B1 B2].
  set (h1 := hw_outb CRTPORT 14 h0). destruct (cga_select 14 h0) as (I1 & Hi1 & Lo1). fold h1 in I1, Hi1, Lo1.
  destruct (cga_get h1) as ((I2 & Hi2 & Lo2) & G1 & _). specialize (G1 I1).
  destruct (hw_inb (CRTPORT + 1) h1) as [v1 h2] eqn:E1. simpl in *.
  set (h3 := hw_outb CRTPORT 15 h2). destruct (cga_select 15 h2) as (I3 & Hi3 & Lo3). fold h3 in I3, Hi3, Lo3.
  destruct (cga_get h3) as ((I4 & Hi4 & Lo4) & _ & G2). specialize (G2 I3).
  destruct (hw_inb (CRTPORT + 1) h3) as [v2 h4] eqn:E2. simpl in *.
  exists h4. split; [unfold cursor; congruence|].
  rewrite (bind_run _ _ _ _ _ (con_hw_run (outb CRTPORT 14) s tt h1 eq_refl)).
  rewrite (bind_run _ _ _ _ _ (con_hw_run (inb (CRTPORT + 1)) (with_hw h1 s) (u8 v1) h2 ltac:(unfold inb; by rewrite hw_of_with, E1))).
  rewrite (bind_run _ _ _ _ _ (con_hw_run (outb CRTPORT 15) (with_hw h2 (with_hw h1 s)) tt h3 eq_refl)).
  rewrite (bind_run _ _ _ _ _ (con_hw_run (inb (CRTPORT + 1)) (with_hw h3 (with_hw h2 (with_hw h1 s))) (u8 v2) h4 ltac:(unfold inb; by rewrite hw_of_with, E2))).
  rewrite !with_hw_hw. do 2 f_equal. rewrite lor_0_add by (try lia; apply u8_range).
  unfold cursor. rewrite G1, G2, !u8_small by congruence. rewrite Hi1, Lo3, Lo2, Lo1. lia.
Qed.

Lemma cursor_set_run {B} s pos (k : M (consst H E) B) : 0 <= pos < 65536 →
  ∃ h, cursor h = pos ∧
    (hw (outb CRTPORT 14);; hw (outb (CRTPORT + 1) (Z.shiftr pos 8));; hw (outb CRTPORT 15);;
     hw (outb (CRTPORT + 1) pos);; k) s = k (with_hw h s).
Proof.
  intros Hp. set (h0 := hw_of s). set (h1 := hw_outb CRTPORT 14 h0).
  destruct (cga_select 14 h0) as (I1 & _). fold h1 in I1.
  set (h2 := hw_outb (CRTPORT + 1) (u8 (Z.shiftr pos 8)) h1).
  destruct (cga_set (u8 (Z.shiftr pos 8)) h1 (u8_range _)) as (_ & Hi2 & _). fold h2 in Hi2. rewrite I1 in Hi2.
  set (h3 := hw_outb CRTPORT 15 h2). destruct (cga_select 15 h2) as (I3 & Hi3 & _). fold h3 in I3, Hi3.
  set (h4 := hw_outb (CRTPORT + 1) (u8 pos) h3).
  destruct (cga_set (u8 pos) h3 (u8_range _)) as (_ & Hi4 & Lo4). fold h4 in Hi4, Lo4. rewrite I3 in Hi4, Lo4.
  exists h4. split.
  - unfold cursor. rewrite Hi4, Lo4. cbn [Z.eqb Pos.eqb]. rewrite Hi3, Hi2. cbn [Z.eqb Pos.eqb].
    rewrite Z.shiftr_div_pow2 by lia. change (2 ^ 8) with 256. unfold u8. Z.to_euclidean_division_equations; lia.
  - rewrite (bind_run _ _ _ _ _ (con_hw_run (outb CRTPORT 14) s tt h1 eq_refl)).
    rewrite (bind_run _ _ _ _ _ (con_hw_run (outb (CRTPORT + 1) (Z.shiftr pos 8)) (with_hw h1 s) tt h2 eq_refl)).
    rewrite (bind_run _ _ _ _ _ (con_hw_run (outb CRTPORT 15) (with_hw h2 (with_hw h1 s)) tt h3 eq_refl)).
    rewrite (bind_run _ _ _ _ _ (con_hw_run (outb (CRTPORT + 1) pos) (with_hw h3 (with_hw h2 (with_hw h1 s))) tt h4 eq_refl)).
    by rewrite !with_hw_hw.
Qed.

(** Only the machine and the cells of the screen change. *)
Definition with_screen h (crt : Z → Z) s : consst H E := put_crt crt (with_hw h s).

Lemma lor_color c : Z.lor (Z.land c 0xff) 0x0700 = Z.land c 0xff + 0x0700.
Proof.
  change 0x0700 with (Z.shiftl 7 8) at 1. rewrite lor_shiftl_add; [lia|lia|].
  change 0xff with (Z.ones 8). rewrite Z.land_ones by lia. by apply Z.mod_pos_bound.
Qed.

(** The character is put, and the position moves. *)
Lemma cga_char_run {B} c pos s (k : Z → M (consst H E) B) : 0 <= pos < 1920 →
  ((if c =? 10 then mret (pos + (80 - pos mod 80))
    else if c =? BACKSPACE then mret (if 0 <? pos then pos - 1 else pos)
    else modify (λ s, put_crt (fupd (c_crt s) pos (Z.lor (Z.land c 0xff) 0x0700)) s);; mret (pos + 1)) ≫= k) s =
  k (next_pos c pos) (put_crt (put_cell c pos (c_crt s)) s) ∧ 0 <= next_pos c pos <= 1920.
Proof.
  intros Hp. assert (put_crt (c_crt s) s = s) as Hid by (by destruct s). unfold next_pos, put_cell.
  destruct (c =? 10); cbn [orb].
  - rewrite run_ret, Hid. split; [f_equal|]; Z.to_euclidean_division_equations; lia.
  - destruct (c =? BACKSPACE); cbn [orb].
    + rewrite run_ret, Hid. split; [|lia]. f_equal. destruct (Z.ltb_spec 0 pos); lia.
    + run. rewrite lor_color. split; [done|lia].
Qed.

Lemma cgaputc_run c s : 0 <= cursor (hw_of s) < 1920 →
  ∃ h crt, cgaputc c s = Ok tt (with_screen h crt s) ∧ cursor h = screen_pos c (cursor (hw_of s)) ∧
    (∀ i, crt i = screen_cells c (cursor (hw_of s)) (c_crt s) i) ∧ 0 <= cursor h < 1920.
Proof.
  intros Hc. unfold cgaputc. set (pos := cursor (hw_of s)) in *.
  destruct (cursor_get_run s (cga_put c)) as (h0 & _ & ->). fold pos. unfold cga_put.
  match goal with |- context [(_ ≫= ?k) (with_hw h0 s)] =>
    destruct (cga_char_run c pos (with_hw h0 s) k Hc) as [-> Hn] end.
  set (p1 := next_pos c pos) in *. set (s1 := put_crt _ _).
  rewrite run_panic_if by (rewrite (proj2 (Z.ltb_ge _ _)), (proj2 (Z.ltb_ge _ _)) by lia; done).
  assert (∀ crt1 p, c_crt s1 = put_cell c pos (c_crt s) → 0 <= p < 1920 → p = screen_pos c pos →
    (∀ i, i ≠ p → crt1 i = screen_cells c pos (c_crt s) i) →
    ∃ h crt, (hw (outb CRTPORT 14);; hw (outb (CRTPORT + 1) (Z.shiftr p 8));; hw (outb CRTPORT 15);;
      hw (outb (CRTPORT + 1) p);; modify (λ s, put_crt (fupd (c_crt s) p (Z.lor 32 0x0700)) s)) (put_crt crt1 s1) =
      Ok tt (with_screen h crt s) ∧ cursor h = screen_pos c pos ∧
      (∀ i, crt i = screen_cells c pos (c_crt s) i) ∧ 0 <= cursor h < 1920) as Hend.
  { intros crt1 p _ Hp Hsp Hcells.
    destruct (cursor_set_run (put_crt crt1 s1) p (modify (λ s, put_crt (fupd (c_crt s) p (Z.lor 32 0x0700)) s))) as (h & Hh & ->); [lia|].
    exists h, (fupd crt1 p (Z.lor 32 0x0700)). split; [done|]. rewrite Hh. split; [done|]. split; [|done].
    intros i. unfold fupd. case_decide as Hi.
    - unfold screen_cells. by rewrite <-Hsp, (proj2 (Z.eqb_eq i p) Hi).
    - by apply Hcells. }
  destruct (Z.leb_spec 24 (p1 / 80)) as [Hs|Hs].
  - assert (p1 = 1920) as Hp1 by (Z.to_euclidean_division_equations; lia).
    assert (screen_pos c pos = 1840) as Hsp by (unfold screen_pos; fold p1; rewrite Hp1; done).
    run. rewrite Hp1. apply Hend; [done|lia|by rewrite Hsp|]. intros i Hi.
    unfold screen_cells. rewrite Hsp. fold p1. rewrite Hp1. rewrite (proj2 (Z.eqb_neq i 1840)) by lia.
    change (1920 <? 1920) with false. cbn iota. unfold crt_clear, crt_scroll. change (1920 - 80) with 1840.
    change (24 * 80) with 1920. change (23 * 80) with 1840. change (c_crt s1) with (put_cell c pos (c_crt s)).
    destruct (Z.leb_spec 1840 i), (Z.ltb_spec i 1920), (Z.leb_spec 0 i), (Z.ltb_spec i 1840); cbn [andb]; try lia; done.
  - assert (p1 < 1920) as Hp1 by (Z.to_euclidean_division_equations; lia).
    assert (screen_pos c pos = p1) as Hsp by (unfold screen_pos; fold p1; by rewrite (proj2 (Z.ltb_lt _ _)) by lia).
    rewrite run_ret. assert (s1 = put_crt (c_crt s1) s1) as -> by (by destruct s1). apply Hend; [done|lia|done|].
    intros i Hi. unfold screen_cells. rewrite Hsp. fold p1. rewrite (proj2 (Z.eqb_neq _ _)) by done.
    by rewrite (proj2 (Z.ltb_lt _ _)) by lia.
Qed.

(** The CPU has not panicked and the cursor is on the screen. *)
Record screen_ok s : Prop := {
  so_panic : c_panicked s = false;
  so_cursor : 0 <= cursor (hw_of s) < 1920
}.

Lemma consputc_run c s : screen_ok s →
  ∃ h crt, consputc c s = Ok tt (with_screen h crt s) ∧ cursor h = screen_pos c (cursor (hw_of s)) ∧
    (∀ i, crt i = screen_cells c (cursor (hw_of s)) (c_crt s) i) ∧ 0 <= cursor h < 1920.
Proof.
  intros [Hp Hc]. unfold consputc. run. rewrite Hp.
  assert (∃ h, (if c =? BACKSPACE then uartputc 8;; uartputc 32;; uartputc 8 else uartputc c) s = Ok tt (with_hw h s) ∧
    cursor h = cursor (hw_of s)) as (h & H1 & H2).
  { destruct (c =? BACKSPACE); [|by apply uartputc_run].
    destruct (uartputc_run 8 s) as (h1 & E1 & C1). destruct (uartputc_run 32 (with_hw h1 s)) as (h2 & E2 & C2).
    destruct (uartputc_run 8 (with_hw h2 s)) as (h3 & E3 & C3). exists h3.
    rewrite (bind_run _ _ _ _ _ E1), (bind_run _ _ _ _ _ E2). rewrite with_hw_hw. rewrite E3, with_hw_hw.
    split; [done|]. by rewrite C3, hw_of_with, C2, hw_of_with. }
  rewrite (bind_run _ _ _ _ _ H1). destruct (cgaputc_run c (with_hw h s)) as (h' & crt & H3 & H4).
  { by rewrite hw_of_with, H2. }
  rewrite hw_of_with, H2 in H4. by exists h', crt.
Qed.

(** ** The line discipline

    What the input buffer means: the characters that wait to be read, and the line
    that is still being edited. Together they are at most 128. *)

Record ldisc := Ldisc { ld_ready : list Z; ld_line : list Z }.

(** A typed character: the new state, and whether a waiting reader is woken. *)
Definition ld_char (d : ldisc) (c : Z) : ldisc * bool :=
  let q := ld_ready d in let l := ld_line d in
  if c =? 16 then (d, false)
  else if c =? 21 then (Ldisc q [], false)
  else if (c =? 8) || (c =? 127) then (Ldisc q (take (length l - 1) l), false)
  else if (c =? 0) || (128 <=? Z.of_nat (length q + length l)) then (d, false)
  else
    let c := if c =? 13 then 10 else c in
    if (c =? 10) || (c =? 4) || (Z.of_nat (length q + length l) =? 127)
    then (Ldisc (q ++ l ++ [c]) [], true) else (Ldisc q (l ++ [c]), false).

(** A read of [n] more characters, [acc] being there already. *)
Fixpoint ld_read (killed : bool) (target : Z) (n : nat) (acc q : list Z) : cread * list Z :=
  match n with
  | O => (CDone target acc, q)
  | S n' =>
      match q with
      | [] => (if killed then CDone (-1) acc else CSleep n acc, [])
      | c :: q' =>
          if c =? 4 then (CDone (target - Z.of_nat n) acc, if Z.of_nat n <? target then q else q')
          else if c =? 10 then (CDone (target - Z.of_nat n') (acc ++ [c]), q')
          else ld_read killed target n' (acc ++ [c]) q'
      end
  end.

(** [l] is in the ring from index [r] on. *)
Definition in_ring (buf : list Z) (r : Z) (l : list Z) : Prop :=
  ∀ i, (i < length l)%nat → getZ buf ((r + Z.of_nat i) mod 128) = l !!! i.

Record rep (d : ldisc) s : Prop := {
  rep_buf : length (in_buf s) = 128%nat;
  rep_r : is_u32 (in_r s);
  rep_w : in_w s = u32 (in_r s + Z.of_nat (length (ld_ready d)));
  rep_e : in_e s = u32 (in_w s + Z.of_nat (length (ld_line d)));
  rep_len : Z.of_nat (length (ld_ready d) + length (ld_line d)) <= 128;
  rep_ring : in_ring (in_buf s) (in_r s) (ld_ready d ++ ld_line d);
  rep_line : (10 ∉ ld_line d)
}.

Lemma mod_u32 x : u32 x mod 128 = x mod 128.
Proof. unfold u32. change 4294967296 with (128 * 33554432). rewrite Z.rem_mul_r by lia. rewrite Z.mul_comm, Z.mod_add by lia. by rewrite Z.mod_mod. Qed.
Lemma u32_add_u32 a b : u32 (u32 a + b) = u32 (a + b).
Proof. unfold u32. by rewrite Z.add_mod_idemp_l. Qed.

Lemma in_ring_ext buf r r' l : r mod 128 = r' mod 128 → in_ring buf r l → in_ring buf r' l.
Proof.
  intros Hr H0 i Hi. rewrite <-H0 by done. f_equal. rewrite <-(Z.add_mod_idemp_l r'), <-Hr by lia.
  by rewrite Z.add_mod_idemp_l.
Qed.
Lemma in_ring_snoc buf r l c : length buf = 128%nat → Z.of_nat (length l) < 128 → in_ring buf r l →
  in_ring (setZ buf ((r + Z.of_nat (length l)) mod 128) c) r (l ++ [c]).
Proof.
  intros Hb Hl H0 i Hi. rewrite length_app in Hi. simpl in Hi.
  pose proof (Z.mod_pos_bound (r + Z.of_nat i) 128). pose proof (Z.mod_pos_bound (r + Z.of_nat (length l)) 128).
  rewrite getZ_setZ by lia. case_decide as Heq.
  - assert (i = length l) as ->; [|by rewrite list_lookup_total_middle].
    destruct (decide (i = length l)); [done|]. exfalso. Z.to_euclidean_division_equations; lia.
  - rewrite lookup_total_app_l; [by apply H0; destruct (decide (i = length l)); [subst|lia]|].
    destruct (decide (i = length l)); [by subst|lia].
Qed.
Lemma in_ring_app buf r l1 l2 : in_ring buf r (l1 ++ l2) → in_ring buf r l1.
Proof. intros H0 i Hi. rewrite H0 by (rewrite length_app; lia). by rewrite lookup_total_app_l. Qed.
Lemma in_ring_tail buf r c l : in_ring buf r (c :: l) → getZ buf (r mod 128) = c ∧ in_ring buf (r + 1) l.
Proof.
  intros H0. split; [specialize (H0 0%nat); rewrite Z.add_0_r in H0; apply H0; simpl; lia|].
  intros i Hi. change (l !!! i) with ((c :: l) !!! S i). rewrite <-H0 by (simpl; lia). do 2 f_equal. lia.
Qed.

(** Everything but the machine and the screen. *)
Definition same_input s s' : Prop :=
  in_buf s' = in_buf s ∧ in_r s' = in_r s ∧ in_w s' = in_w s ∧ in_e s' = in_e s ∧ c_wakes s' = c_wakes s ∧
  c_env s' = c_env s ∧ shift (c_kbd s') = shift (c_kbd s).

Lemma echo_run c s : screen_ok s → ∃ s', consputc c s = Ok tt s' ∧ screen_ok s' ∧ same_input s s'.
Proof.
  intros Hs. destruct (consputc_run c s Hs) as (h & crt & H1 & _ & _ & H4). exists (with_screen h crt s).
  split; [done|]. split; [split; [apply Hs|done]|done].
Qed.

Lemma rep_same d s s' : same_input s s' → rep d s → rep d s'.
Proof. intros (H1 & H2 & H3 & H4 & _) [? ? ? ? ? ? ?]. split; rewrite ?H1, ?H2, ?H3, ?H4; done. Qed.

Lemma rep_intro d s r w e :
  length (in_buf s) = 128%nat → is_u32 r → w = u32 (r + Z.of_nat (length (ld_ready d))) →
  e = u32 (w + Z.of_nat (length (ld_line d))) → Z.of_nat (length (ld_ready d) + length (ld_line d)) <= 128 →
  in_ring (in_buf s) r (ld_ready d ++ ld_line d) → (10 ∉ ld_line d) →
  rep d (put_input (in_buf s) r w e s).
Proof. intros. by split. Qed.

(** One character of the line is taken back. *)
Lemma rep_erase q l c s : rep (Ldisc q (l ++ [c])) s →
  rep (Ldisc q l) (put_input (in_buf s) (in_r s) (in_w s) (u32 (in_e s - 1)) s) ∧
  getZ (in_buf s) (u32 (in_e s - 1) mod 128) ≠ 10 ∧ in_e s ≠ in_w s.
Proof.
  intros [Hb Hr Hw He Hl Hring Hn]. simpl in *. rewrite length_app in *. simpl in *.
  assert (u32 (in_e s - 1) = u32 (in_w s + Z.of_nat (length l))) as He1.
  { rewrite He. unfold u32. rewrite Zminus_mod_idemp_l. f_equal. lia. }
  split; [|split].
  - apply rep_intro; simpl; try done; [lia|by rewrite app_assoc in Hring; apply in_ring_app in Hring|set_solver].
  - rewrite He1, mod_u32, Hw. rewrite <-Z.add_mod_idemp_l, mod_u32, Z.add_mod_idemp_l by lia.
    replace (in_r s + Z.of_nat (length q) + Z.of_nat (length l)) with (in_r s + Z.of_nat (length q + length l)) by lia.
    rewrite Hring by (rewrite !length_app; simpl; lia). rewrite app_assoc.
    rewrite list_lookup_total_middle by (by rewrite length_app). set_solver.
  - rewrite He. intros Heq. assert (is_u32 (in_w s)) as Hwr by (rewrite Hw; apply u32_range). unfold is_u32 in *. zmod.
Qed.

Lemma kill_line_run q l : ∀ s, screen_ok s → rep (Ldisc q l) s →
  ∃ s', kill_line (length l) s = Ok tt s' ∧ screen_ok s' ∧ rep (Ldisc q []) s' ∧ c_wakes s' = c_wakes s ∧ c_env s' = c_env s.
Proof.
  induction l as [|c l IH] using rev_ind; intros s Hs Hr; [by exists s|].
  rewrite length_app, Nat.add_comm. cbn [length Nat.add kill_line]. run.
  destruct (rep_erase _ _ _ _ Hr) as (Hr1 & H10 & _). unfold INPUT_BUF. rewrite (proj2 (Z.eqb_neq _ _) H10). run.
  destruct (echo_run BACKSPACE _ (ltac:(split; apply Hs) : screen_ok (put_input (in_buf s) (in_r s) (in_w s) (u32 (in_e s - 1)) s)))
    as (s1 & H1 & Hs1 & Hsame). rewrite (bind_run _ _ _ _ _ H1).
  destruct (IH s1 Hs1 (rep_same _ _ _ Hsame Hr1)) as (s2 & H2 & Hs2 & Hr2 & Hw2 & He2).
  exists s2. split_and!; try done; [rewrite Hw2|rewrite He2]; apply Hsame.
Qed.

Lemma cons_char_run d c s : screen_ok s → rep d s → is_u8 c →
  ∃ s', cons_char c s = Ok (c =? 16) s' ∧ screen_ok s' ∧ rep (ld_char d c).1 s' ∧
    c_wakes s' = (c_wakes s + if (ld_char d c).2 then 1 else 0)%nat ∧ c_env s' = c_env s.
Proof.
  intros Hs Hr Hc. pose proof Hr as [Hb Hrr Hw He Hl Hring Hn]. destruct d as [q l]. cbn [ld_ready ld_line] in *.
  unfold cons_char, ld_char, C. cbn [ld_ready ld_line]. run. change (80 - 64) with 16. change (85 - 64) with 21.
  change (72 - 64) with 8. change (68 - 64) with 4.
  destruct (Z.eqb_spec c 16) as [->|]; [exists s; split_and!; (done || simpl; lia)|].
  destruct (Z.eqb_spec c 21) as [->|].
  { assert (Z.to_nat (u32 (in_e s - in_w s)) = length l) as ->.
    { rewrite He. unfold u32. rewrite Zminus_mod_idemp_l. rewrite Z.mod_small by lia. lia. }
    destruct (kill_line_run q l s Hs Hr) as (s' & H1 & H2 & H3 & H4 & H5). rewrite (bind_run _ _ _ _ _ H1).
    exists s'. split_and!; try done. simpl. lia. }
  destruct ((c =? 8) || (c =? 127)) eqn:Ebs.
  { destruct l as [|a l' _] using rev_ind.
    - assert (in_e s = in_w s) as E1.
      { rewrite He, Z.add_0_r. apply u32_small. rewrite Hw. apply u32_range. }
      rewrite (proj2 (Z.eqb_eq _ _) E1). exists s. split_and!; (done || (simpl; lia)).
    - destruct (rep_erase _ _ _ _ Hr) as (Hr1 & _ & Hne). rewrite (proj2 (Z.eqb_neq _ _) Hne). cbn [negb]. run.
      destruct (echo_run BACKSPACE _ (ltac:(split; apply Hs) : screen_ok (put_input (in_buf s) (in_r s) (in_w s) (u32 (in_e s - 1)) s)))
        as (s1 & H1 & Hs1 & Hsame). rewrite (bind_run _ _ _ _ _ H1). exists s1.
      rewrite length_app. cbn [length]. replace (length l' + 1 - 1)%nat with (length l') by lia. rewrite take_app_length.
      split_and!; try done; [by eapply rep_same|cbn [snd]; rewrite Nat.add_0_r|]; apply Hsame. }
  (* an ordinary character *)
  assert (u32 (in_e s - in_r s) = Z.of_nat (length q + length l)) as Hused.
  { rewrite He, Hw. unfold u32. rewrite Z.add_mod_idemp_l, Zminus_mod_idemp_l, Z.mod_small; lia. }
  rewrite Hused. unfold INPUT_BUF.
  destruct (Z.eqb_spec c 0) as [->|Hc0]; cbn [negb andb orb]; [exists s; split_and!; (done || (simpl; lia))|].
  destruct (Z.ltb_spec (Z.of_nat (length q + length l)) 128) as [Hlt|Hge].
  2: { rewrite (proj2 (Z.leb_le _ _)) by lia. exists s. split_and!; (done || (simpl; lia)). }
  rewrite (proj2 (Z.leb_gt _ _)) by lia. set (c' := if c =? 13 then 10 else c).
  assert (is_u8 c') as Hc' by (unfold c', is_u8 in *; destruct (c =? 13); lia).
  run. set (s0 := put_input _ _ _ _ s).
  destruct (echo_run c' s0 (ltac:(split; apply Hs))) as (s1 & H1 & Hs1 & Hsame). rewrite (bind_run _ _ _ _ _ H1). run.
  assert (rep (Ldisc q l) s → in_ring (in_buf s0) (in_r s) ((q ++ l) ++ [c'])) as Hring1.
  { intros _. unfold s0. simpl. rewrite u8_small by done.
    replace (in_e s mod 128) with ((in_r s + Z.of_nat (length (q ++ l))) mod 128); [apply in_ring_snoc; rewrite ?length_app; (done || lia)|].
    rewrite He, Hw, u32_add_u32, mod_u32, length_app. f_equal. lia. }
  specialize (Hring1 Hr). pose proof Hsame as (S1 & S2 & S3 & S4 & S5 & S6 & _).
  assert (in_e s1 = u32 (in_w s + Z.of_nat (length (l ++ [c'])))) as He1.
  { rewrite S4. unfold s0. simpl. rewrite He, u32_add_u32, length_app. f_equal. simpl. lia. }
  assert ((in_e s1 =? u32 (in_r s1 + 128)) = (Z.of_nat (length q + length l) =? 127)) as ->.
  { rewrite He1, S2. change (in_r s0) with (in_r s). rewrite Hw, u32_add_u32, length_app. simpl.
    unfold is_u32 in Hrr. destruct (Z.eqb_spec (Z.of_nat (length q + length l)) 127).
    - apply Z.eqb_eq. f_equal. lia.
    - apply Z.eqb_neq. intros Heq. zmod. }
  assert (∀ w, in_buf s1 = in_buf s0) as Hbuf by done. clear Hbuf.
  change (in_r s0) with (in_r s) in S2. change (in_w s0) with (in_w s) in S3. change (c_wakes s0) with (c_wakes s) in S5.
  assert (length (in_buf s1) = 128%nat) as Hb1 by (rewrite S1; unfold s0; simpl; by rewrite length_setZ).
  rewrite <-S1 in Hring1.
  destruct ((c' =? 10) || (c' =? 4) || _) eqn:Ecommit.
  - unfold modify. eexists. split; [done|]. split; [split; apply Hs1|]. split; [|split; [cbn [snd c_wakes put_wakes]; lia|done]].
    split; cbn [fst ld_ready ld_line put_wakes put_input in_buf in_r in_w in_e]; rewrite ?app_nil_r, ?length_app in *; simpl in *.
    + done.
    + by rewrite S2.
    + rewrite He1, S2, Hw, u32_add_u32. f_equal. lia.
    + rewrite Z.add_0_r. symmetry. apply u32_small. rewrite He1. apply u32_range.
    + lia.
    + rewrite S2. by rewrite <-app_assoc in Hring1.
    + apply not_elem_of_nil.
  - exists s1. split; [done|]. split; [done|]. rewrite Nat.add_0_r. split; [|done].
    apply orb_false_iff in Ecommit as [Ecommit E127]. apply orb_false_iff in Ecommit as [E10 E4].
    split; cbn [fst ld_ready ld_line]; rewrite ?S2, ?S3; try done.
    + rewrite length_app. simpl. lia.
    + by rewrite app_assoc.
    + intros [Hin|Hin%list_elem_of_singleton]%elem_of_app; [done|]. lia.
Qed.

(** *** Interrupts *)

(** Everything but the keyboard's modifiers, the machine and the screen's cells. *)
Definition same_console s s' : Prop :=
  in_buf s' = in_buf s ∧ in_r s' = in_r s ∧ in_w s' = in_w s ∧ in_e s' = in_e s ∧ c_wakes s' = c_wakes s ∧
  c_env s' = c_env s ∧ c_panicked s' = c_panicked s ∧ cursor (hw_of s') = cursor (hw_of s).

Lemma console_same d s s' : same_console s s' → screen_ok s → rep d s → screen_ok s' ∧ rep d s'.
Proof.
  intros (H1 & H2 & H3 & H4 & H5 & H6 & H7 & H8) [? ?] [? ? ? ? ? ? ?].
  split; split; rewrite ?H1, ?H2, ?H3, ?H4, ?H7, ?H8; done.
Qed.

(** As the loop of consoleintr runs, [getc] delivers these characters and then -1. *)
Inductive feeds (getc : M (consst H E) Z) : list Z → consst H E → Prop :=
| feeds_end s s' : getc s = Ok (-1) s' → same_console s s' → feeds getc [] s
| feeds_char c cs s s' : getc s = Ok c s' → same_console s s' → is_u8 c →
    (∀ b s'', cons_char c s' = Ok b s'' → feeds getc cs s'') → feeds getc (c :: cs) s.

(** What the characters do to the line discipline, and how many wakeups they are. *)
Fixpoint ld_type (d : ldisc) (cs : list Z) : ldisc * nat :=
  match cs with
  | [] => (d, O)
  | c :: cs => let '(d, w) := ld_char d c in let '(d, n) := ld_type d cs in (d, ((if w then 1 else 0) + n)%nat)
  end.

Lemma consoleintr_run getc cs : ∀ fuel d s pd, screen_ok s → rep d s → feeds getc cs s → (length cs < fuel)%nat →
  ∃ s', consoleintr fuel getc pd s = Ok (pd || existsb (Z.eqb 16) cs) s' ∧ screen_ok s' ∧ rep (ld_type d cs).1 s' ∧
    c_wakes s' = (c_wakes s + (ld_type d cs).2)%nat ∧ c_env s' = c_env s.
Proof.
  induction cs as [|c cs IH]; intros [|fuel] d s pd Hs Hr Hf Hfuel; try (simpl in Hfuel; lia); cbn [consoleintr ld_type existsb].
  - inversion Hf as [s0 s' Hg Hsame|]; subst. rewrite (bind_run _ _ _ _ _ Hg). exists s'.
    destruct (console_same d s s' Hsame Hs Hr). change (-1 <? 0) with true. cbn iota. rewrite orb_false_r, Nat.add_0_r.
    split_and!; try done; apply Hsame.
  - inversion Hf as [|c0 cs0 s0 s' Hg Hsame Hc Hk]; subst. rewrite (bind_run _ _ _ _ _ Hg).
    destruct (console_same d s s' Hsame Hs Hr) as [Hs' Hr'].
    rewrite (proj2 (Z.ltb_ge c 0)) by (unfold is_u8 in Hc; lia).
    destruct (cons_char_run d c s' Hs' Hr' Hc) as (s2 & H1 & H2 & H3 & H4 & H5). rewrite (bind_run _ _ _ _ _ H1).
    destruct (IH fuel (ld_char d c).1 s2 (pd || (c =? 16)) H2 H3 (Hk _ _ H1) ltac:(simpl in Hfuel; lia))
      as (s3 & G1 & G2 & G3 & G4 & G5).
    destruct (ld_char d c) as [d1 w]. destruct (ld_type d1 cs) as [d2 n] eqn:Et. cbn [fst snd] in *. rewrite Et in *. cbn [fst snd] in *.
    exists s3. rewrite G1, <-orb_assoc, (Z.eqb_sym 16). split_and!; try done.
    + destruct Hsame as (_ & _ & _ & _ & Hw & _). rewrite G4, H4, Hw. lia.
    + rewrite G5, H5. apply Hsame.
Qed.

(** *** Reading *)

Lemma cread_loop_run killed target q l : ∀ n acc s, rep (Ldisc q l) s → ∃ r,
  cread_loop killed target n acc s =
    Ok (ld_read killed target n acc q).1 (put_input (in_buf s) r (in_w s) (in_e s) s) ∧
  rep (Ldisc (ld_read killed target n acc q).2 l) (put_input (in_buf s) r (in_w s) (in_e s) s).
Proof.
  assert (∀ s, put_input (in_buf s) (in_r s) (in_w s) (in_e s) s = s) as Hid by (by intros []).
  induction q as [|c q IH]; intros [|n] acc s Hr; cbn [cread_loop ld_read].
  1,3: exists (in_r s); rewrite Hid; done.
  all: pose proof Hr as [Hb Hrr Hw He Hl Hring Hn]; cbn [ld_ready ld_line] in *; run.
  - rewrite (proj2 (Z.eqb_eq _ _)) by (rewrite Hw, Z.add_0_r; by rewrite u32_small).
    exists (in_r s). rewrite Hid. by destruct killed.
  - assert (in_r s ≠ in_w s) as Hne by (rewrite Hw; unfold is_u32 in Hrr; simpl in *; zmod).
    rewrite (proj2 (Z.eqb_neq _ _) Hne). cbn [app] in Hring. apply in_ring_tail in Hring as [Hc Hring].
    unfold INPUT_BUF, C. change (68 - 64) with 4. rewrite Hc. run.
    assert (rep (Ldisc q l) (put_input (in_buf s) (u32 (in_r s + 1)) (in_w s) (in_e s) s)) as Hr1.
    { apply rep_intro; simpl in *; try done; [apply u32_range|rewrite u32_add_u32, Hw; f_equal; lia|lia|].
      eapply in_ring_ext; [|exact Hring]. by rewrite mod_u32. }
    destruct (c =? 4).
    + destruct (Z.of_nat (S n) <? target).
      * run. exists (in_r s). cbn [in_buf in_r in_w in_e put_input].
        assert (u32 (u32 (in_r s + 1) - 1) = in_r s) as ->.
        { unfold u32. rewrite Zminus_mod_idemp_l. replace (in_r s + 1 - 1) with (in_r s) by lia. by apply u32_small. }
        rewrite Hid. split; [|done]. by destruct s.
      * exists (u32 (in_r s + 1)). done.
    + destruct (c =? 10); [by exists (u32 (in_r s + 1))|].
      destruct (IH n (acc ++ [c]) _ Hr1) as (r & H1 & H2). exists r. rewrite H1. done.
Qed.

(** ** What the console promises *)

(** The screen after a text: the cursor and the cells. *)
Definition screen_put (d : Z * (Z → Z)) (c : Z) : Z * (Z → Z) := (screen_pos c d.1, screen_cells c d.1 d.2).
Definition screen_text (d : Z * (Z → Z)) (cs : list Z) : Z * (Z → Z) := foldl screen_put d cs.

Lemma screen_cells_ext c pos f g i : (∀ i, f i = g i) → screen_cells c pos f i = screen_cells c pos g i.
Proof.
  intros H0. unfold screen_cells, put_cell, fupd. repeat (case_match; try done); repeat case_decide; by rewrite ?H0.
Qed.
Lemma screen_text_ext cs : ∀ pos f g, (∀ i, f i = g i) →
  (screen_text (pos, f) cs).1 = (screen_text (pos, g) cs).1 ∧
  ∀ i, (screen_text (pos, f) cs).2 i = (screen_text (pos, g) cs).2 i.
Proof.
  induction cs as [|c cs IH]; intros pos f g H0; [done|]. apply IH. intros i. by apply screen_cells_ext.
Qed.

Lemma write_run cs : ∀ s, screen_ok s → ∃ h crt,
  for_each cs (λ c, consputc (Z.land c 0xff)) s = Ok tt (with_screen h crt s) ∧
  cursor h = (screen_text (cursor (hw_of s), c_crt s) (map (λ c, Z.land c 0xff) cs)).1 ∧
  (∀ i, crt i = (screen_text (cursor (hw_of s), c_crt s) (map (λ c, Z.land c 0xff) cs)).2 i) ∧ 0 <= cursor h < 1920.
Proof.
  induction cs as [|c cs IH]; intros s Hs.
  - exists (hw_of s), (c_crt s). split_and!; try done; try apply Hs. by destruct s as [[]].
  - cbn [for_each]. destruct (consputc_run (Z.land c 0xff) s Hs) as (h & crt & H1 & H2 & H3 & H4).
    rewrite (bind_run _ _ _ _ _ H1).
    destruct (IH (with_screen h crt s) ltac:(split; [apply Hs|done])) as (h' & crt' & G1 & G2 & G3 & G4).
    exists h', crt'. rewrite G1. cbn [map]. change (cursor (hw_of (with_screen h crt s))) with (cursor h) in *.
    change (c_crt (with_screen h crt s)) with crt in *. rewrite H2 in G2, G3.
    destruct (screen_text_ext (map (λ c, Z.land c 0xff) cs) (screen_pos (Z.land c 0xff) (cursor (hw_of s)))
      crt _ H3) as [E1 E2].
    split; [done|]. split; [by rewrite G2, E1|]. split; [|done]. intros i. by rewrite G3, E2.
Qed.

(** consolewrite writes the whole buffer: it gives back and retakes the inode's
    lock, the screen becomes what the text makes of it - each byte at the cursor in
    the standard colour, a newline to the next row, and where the text runs past the
    last of 24 rows the rows move up and the bottom one is cleared - with the cursor
    always inside the 1920 cells, and the input side is untouched. The routine's own
    panic (position under/overflow) does not happen. *)
Theorem consolewrite_correct iunlock ilock ip buf s e1 e2 :
  screen_ok s → iunlock ip (c_env s) = Ok tt e1 → ilock ip e1 = Ok tt e2 →
  let txt := screen_text (cursor (hw_of s), c_crt s) (map (λ c, Z.land c 0xff) buf) in
  ∃ s', consolewrite iunlock ilock ip buf s = Ok (Z.of_nat (length buf)) s' ∧ screen_ok s' ∧
    cursor (hw_of s') = txt.1 ∧ (∀ i, c_crt s' i = txt.2 i) ∧ c_env s' = e2 ∧
    same_input (put_cenv e2 s) s'.
Proof.
  intros Hs H1 H2 txt. unfold consolewrite.
  assert (in_env (iunlock ip) s = Ok tt (put_cenv e1 s)) as E1 by (unfold in_env, zoom; by rewrite H1).
  rewrite (bind_run _ _ _ _ _ E1).
  destruct (write_run buf (put_cenv e1 s) ltac:(split; apply Hs)) as (h & crt & G1 & G2 & G3 & G4).
  rewrite (bind_run _ _ _ _ _ G1). unfold in_env, zoom, mbind, M_bind. simpl. rewrite H2.
  eexists. split; [done|]. split; [split; [apply Hs|done]|]. done.
Qed.

(** C12. The console implements its line discipline. Interrupts that deliver any
    characters edit the line as [ld_type] says - erase, kill, newline, end of file,
    the limit of 128 - wake readers once for each line completed and ask for a
    process listing exactly on ^P; consoleread then returns what [ld_read] of the
    completed characters says, sleeping only when there are none, and the buffer
    keeps representing the rest. consoleintr ends as soon as the device has no more
    characters. *)
Theorem console_line_discipline iunlock ilock getc cs fuel d s ip n killed e1 e2 :
  screen_ok s → rep d s → feeds getc cs s → (length cs < fuel)%nat →
  iunlock ip (c_env s) = Ok tt e1 → ilock ip e1 = Ok tt e2 →
  let d1 := (ld_type d cs).1 in
  let r := ld_read killed (Z.max 0 n) (Z.to_nat n) [] (ld_ready d1) in
  ∃ s1 s2, consoleintr fuel getc false s = Ok (existsb (Z.eqb 16) cs) s1 ∧ rep d1 s1 ∧
    c_wakes s1 = (c_wakes s + (ld_type d cs).2)%nat ∧
    consoleread iunlock ilock killed ip n s1 = Ok r.1 s2 ∧ rep (Ldisc r.2 (ld_line d1)) s2 ∧ screen_ok s2 ∧
    c_env s2 = (match r.1 with CDone _ _ => e2 | CSleep _ _ => e1 end).
Proof.
  intros Hs Hr Hf Hfuel H1 H2 d1 r.
  destruct (consoleintr_run getc cs fuel d s false Hs Hr Hf Hfuel) as (s1 & G1 & G2 & G3 & G4 & G5). exists s1.
  assert (in_env (iunlock ip) s1 = Ok tt (put_cenv e1 s1)) as E1.
  { unfold in_env, zoom. by rewrite G5, H1. }
  assert (rep (Ldisc (ld_ready d1) (ld_line d1)) (put_cenv e1 s1)) as Hr1.
  { unfold d1 in *. destruct (ld_type d cs) as [[] ?]. destruct G3. by split. }
  destruct (cread_loop_run killed (Z.max 0 n) (ld_ready d1) (ld_line d1) (Z.to_nat n) [] _ Hr1) as (r0 & L1 & L2).
  fold r in L1, L2. set (s2 := put_input _ _ _ _ _) in L1, L2.
  assert (screen_ok s2) as Hs2 by (split; apply G2).
  unfold consoleread. rewrite (bind_run _ _ _ _ _ E1), (bind_run _ _ _ _ _ L1).
  destruct (r.1) as [x b|m b] eqn:Er; cbn [cread_end].
  - exists (put_cenv e2 s2). split; [done|]. split; [done|]. split; [done|].
    unfold in_env, zoom, mbind, M_bind. simpl. rewrite H2.
    split; [done|]. split; [by destruct L2; split|]. split; [split; apply Hs2|done].
  - by exists s2.
Qed.

Lemma ld_type_plain cs : ∀ q l, Forall (λ c, 32 <= c < 127) cs → Z.of_nat (length q + length l + length cs) < 128 →
  ld_type (Ldisc q l) cs = (Ldisc q (l ++ cs), O).
Proof.
  induction cs as [|c cs IH]; intros q l Hp Hl; [by rewrite app_nil_r|]. apply Forall_cons in Hp as [Hc Hp].
  cbn [ld_type ld_char ld_ready ld_line length] in *. unfold ld_char. cbn [ld_ready ld_line].
  repeat (rewrite (proj2 (Z.eqb_neq c _)) by lia). rewrite (proj2 (Z.leb_gt _ _)) by lia.
  cbn [orb]. rewrite (proj2 (Z.eqb_neq (Z.of_nat (length q + length l)) 127)) by lia.
  repeat (rewrite (proj2 (Z.eqb_neq c _)) by lia). cbn [orb].
  rewrite IH by (done || (rewrite length_app; simpl; lia)). by rewrite <-app_assoc.
Qed.

Lemma ld_read_line killed target l q : ∀ n acc, Forall (λ c, 32 <= c < 127) l → (length l < n)%nat →
  ld_read killed target n acc (l ++ 10 :: q) = (CDone (target - Z.of_nat n + Z.of_nat (length l) + 1) (acc ++ l ++ [10]), q).
Proof.
  induction l as [|c l IH]; intros [|n] acc Hp Hn; simpl in Hn; try lia; cbn [app ld_read].
  - change (10 =? 4) with false. change (10 =? 10) with true. cbn iota.
    by replace (target - Z.of_nat (S n) + Z.of_nat (length (@nil Z)) + 1) with (target - Z.of_nat n) by (simpl; lia).
  - apply Forall_cons in Hp as [Hc Hp]. repeat (rewrite (proj2 (Z.eqb_neq c _)) by lia).
    rewrite IH by (done || lia). rewrite <-app_assoc.
    by replace (target - Z.of_nat (S n) + Z.of_nat (length (c :: l)) + 1) with (target - Z.of_nat n + Z.of_nat (length l) + 1) by (simpl; lia).
Qed.

Lemma ld_type_app cs1 cs2 : ∀ d, ld_type d (cs1 ++ cs2) =
  (let '(d1, n1) := ld_type d cs1 in let '(d2, n2) := ld_type d1 cs2 in (d2, (n1 + n2)%nat)).
Proof.
  induction cs1 as [|c cs1 IH]; intros d; cbn [app ld_type]; [by destruct (ld_type d cs2)|].
  destruct (ld_char d c) as [d1 w]. rewrite IH. destruct (ld_type d1 cs1) as [d2 n2], (ld_type d2 cs2) as [d3 n3]. by rewrite Nat.add_assoc.
Qed.

Lemma ld_type_line l : Forall (λ c, 32 <= c < 127) l → Z.of_nat (length l) < 127 →
  ld_type (Ldisc [] []) (l ++ [13]) = (Ldisc (l ++ [10]) [], 1%nat).
Proof.
  intros Hp Hl. rewrite ld_type_app, ld_type_plain by (done || (simpl; lia)). cbn [app ld_type].
  unfold ld_char. cbn [ld_ready ld_line]. rewrite (proj2 (Z.leb_gt _ _)) by (simpl; lia). done.
Qed.

(** A typed line comes back as typed: characters, then Return, into an empty
    console wake the reader once, and a read with room for the line returns exactly
    those characters and a newline, and leaves the console empty. *)
Theorem console_line_roundtrip iunlock ilock getc l fuel s ip n e1 e2 :
  screen_ok s → rep (Ldisc [] []) s → Forall (λ c, 32 <= c < 127) l → Z.of_nat (length l) < 127 →
  feeds getc (l ++ [13]) s → (length l + 1 < fuel)%nat → Z.of_nat (length l) < n →
  iunlock ip (c_env s) = Ok tt e1 → ilock ip e1 = Ok tt e2 →
  ∃ s1 s2, consoleintr fuel getc false s = Ok false s1 ∧ c_wakes s1 = S (c_wakes s) ∧
    consoleread iunlock ilock false ip n s1 = Ok (CDone (Z.of_nat (length l) + 1) (l ++ [10])) s2 ∧
    rep (Ldisc [] []) s2 ∧ screen_ok s2.
Proof.
  intros Hs Hr Hp Hl Hf Hfuel Hn H1 H2.
  destruct (consoleintr_run getc _ fuel _ s false Hs Hr Hf ltac:(rewrite length_app; simpl; lia)) as (s1 & G1 & G2 & G3 & G4 & G5).
  rewrite ld_type_line in G3, G4 by done. cbn [fst snd] in G3, G4.
  assert (existsb (Z.eqb 16) (l ++ [13]) = false) as Hx.
  { rewrite existsb_app. apply orb_false_iff. split; [|done]. clear -Hp. induction Hp as [|c l Hc Hp IH]; [done|].
    cbn [existsb]. rewrite IH. by rewrite (proj2 (Z.eqb_neq _ _)) by lia. }
  rewrite Hx in G1. exists s1.
  assert (in_env (iunlock ip) s1 = Ok tt (put_cenv e1 s1)) as E1 by (unfold in_env, zoom; by rewrite G5, H1).
  assert (rep (Ldisc (l ++ [10]) []) (put_cenv e1 s1)) as Hr1 by (destruct G3; by split).
  destruct (cread_loop_run false (Z.max 0 n) _ [] (Z.to_nat n) [] _ Hr1) as (r0 & L1 & L2).
  rewrite (ld_read_line false _ l []) in L1, L2 by (done || lia). cbn [fst snd app] in L1, L2.
  replace (Z.max 0 n - Z.of_nat (Z.to_nat n) + Z.of_nat (length l) + 1) with (Z.of_nat (length l) + 1) in L1 by lia.
  set (s2 := put_input _ _ _ _ _) in L1, L2. exists (put_cenv e2 s2). unfold consoleread.
  rewrite (bind_run _ _ _ _ _ E1), (bind_run _ _ _ _ _ L1). unfold cread_end, in_env, zoom, mbind, M_bind. simpl. rewrite H2.
  split; [done|]. split; [rewrite G4; lia|]. split; [done|]. split; [by destruct L2; split|]. split; apply G2.
Qed.
End spec.

(** A console with a CRT controller, and characters waiting at the serial port. *)
Record con_ex := ConEx { ce_index : Z; ce_hi : Z; ce_lo : Z; ce_q : list Z }.
#[local] Instance con_machine : Machine con_ex := {
  hw_inb := λ p h,
    if p =? CRTPORT + 1 then (if ce_index h =? 14 then u8 (ce_hi h) else u8 (ce_lo h), h)
    else if p =? COM1 + 5 then (if bool_decide (ce_q h = []) then 0x20 else 0x21, h)
    else if p =? COM1 then (hd 0 (ce_q h), ConEx (ce_index h) (ce_hi h) (ce_lo h) (tl (ce_q h))) else (0, h);
  hw_outb := λ p v h,
    if p =? CRTPORT then ConEx v (ce_hi h) (ce_lo h) (ce_q h)
    else if p =? CRTPORT + 1 then
      ConEx (ce_index h) (if ce_index h =? 14 then v else ce_hi h) (if ce_index h =? 15 then v else ce_lo h) (ce_q h)
    else h;
  hw_inl := λ _ h, (0, h); hw_outl := λ _ _ h, h; hw_read := λ _ h, (0, h); hw_write := λ _ _ h, h
}.
#[local] Instance con_laws : CgaLaws con_ex.
Proof.
  refine {| cga_index := ce_index; cga_hi := λ h, u8 (ce_hi h); cga_lo := λ h, u8 (ce_lo h) |}.
  - intros h. split; apply u8_range.
  - done.
  - intros v h Hv. cbn. rewrite Z.eqb_refl. change (CRTPORT + 1 =? CRTPORT) with false.
    cbn. split; [done|]. split; destruct (_ =? _); (done || by apply u8_small).
  - intros h. cbn. rewrite Z.eqb_refl. split; [done|]. split; intros Hi; cbn in Hi |- *; by rewrite Hi.
  - intros p v h H1 H2. cbn. by rewrite (proj2 (Z.eqb_neq _ _) H1), (proj2 (Z.eqb_neq _ _) H2).
  - intros p h H1. cbn. rewrite (proj2 (Z.eqb_neq _ _) H1). repeat case_match; done.
Defined.

Definition con_start (q : list Z) : consst con_ex nat :=
  Consst (KbdSt (ConEx 0 0 0 q) 0) true (λ _, 0) false (replicate 128 0) 0 0 0 O O.
Definition lock_ex (ip : nat) : M nat unit := λ n, Ok tt (n + 1)%nat.

Lemma con_start_ok q : screen_ok (con_start q) ∧ rep (Ldisc [] []) (con_start q).
Proof.
  split; split; try done; try (vm_compute; split; discriminate).
  - intros i Hi. simpl in Hi. lia.
  - apply not_elem_of_nil.
Qed.

(** Echoing leaves what waits at the serial port. *)
Definition keeps {A} (m : M (consst con_ex nat) A) : Prop := ∀ s a s', m s = Ok a s' →
  ce_q (hw_of s') = ce_q (hw_of s) ∧ c_uart s' = c_uart s.
Lemma keeps_seq {A B} (m : M (consst con_ex nat) A) (k : A → M _ B) : keeps m → (∀ a, keeps (k a)) → keeps (m ≫= k).
Proof.
  intros Hm Hk s b s' (a & s1 & E1 & E2)%bind_Ok.
  destruct (Hm _ _ _ E1) as [H1 H2], (Hk a _ _ _ E2) as [H3 H4]. split; congruence.
Qed.
Lemma keeps_outb p v : keeps (hw (outb p v)).
Proof. intros s a s' E. injection E as <- <-. cbn. by repeat case_match. Qed.
Lemma keeps_inb p : p ≠ COM1 → keeps (hw (inb p)).
Proof.
  intros Hp s a s' E. unfold hw, zoom, inb in E. simpl in E. rewrite (proj2 (Z.eqb_neq _ _) Hp) in E.
  repeat case_match; simplify_eq; done.
Qed.
Lemma keeps_simple {A} (m : M (consst con_ex nat) A) :
  (∀ s a s', m s = Ok a s' → c_kbd s' = c_kbd s ∧ c_uart s' = c_uart s) → keeps m.
Proof. intros H0 s a s' E. unfold hw_of. by destruct (H0 _ _ _ E) as [-> ->]. Qed.
Ltac keeps :=
  repeat lazymatch goal with
  | |- ∀ _, _ => intros ?
  | |- keeps (_ ≫= _) => apply keeps_seq
  | |- keeps (hw (outb _ _)) => apply keeps_outb
  | |- keeps (hw (inb _)) => apply keeps_inb; done
  | H : ∀ x, keeps (?f x) |- keeps (?f _) => apply H
  | H : keeps ?m |- keeps ?m => exact H
  | |- keeps (if ?b then _ else _) => destruct b
  | |- keeps (let _ := _ in _) => cbv zeta
  | |- keeps _ => apply keeps_simple; intros s ? s' E; first [discriminate E | injection E as <- <-; done]
  end.

Lemma keeps_uart_wait n : keeps (uart_wait n).
Proof. induction n; cbn [uart_wait]; keeps. Qed.
Lemma keeps_uartputc c : keeps (uartputc c).
Proof. pose proof keeps_uart_wait. unfold uartputc. keeps. Qed.
Lemma keeps_cgaputc c : keeps (cgaputc c).
Proof. unfold cgaputc, cga_put, panic_if. keeps. Qed.
Lemma keeps_consputc c : keeps (consputc c).
Proof. pose proof keeps_uartputc. pose proof keeps_cgaputc. unfold consputc. keeps. Qed.
Lemma keeps_kill_line n : keeps (kill_line n).
Proof. pose proof keeps_consputc. induction n; cbn [kill_line]; keeps. Qed.
Lemma keeps_cons_char c : keeps (cons_char c).
Proof. pose proof keeps_consputc. pose proof keeps_kill_line. unfold cons_char. keeps. Qed.

Lemma feeds_uart cs : Forall is_u8 cs → ∀ s : consst con_ex nat, c_uart s = true → ce_q (hw_of s) = cs → feeds uartgetc cs s.
Proof.
  induction 1 as [|c cs Hc Hcs IH]; intros [[[i hi lo q] sh] u crt p b r w e wk env] Hu Hq; cbn in Hu, Hq; subst.
  - eapply feeds_end; [vm_compute; reflexivity|done].
  - set (s := Consst _ _ _ _ _ _ _ _ _ _).
    assert (uartgetc s = Ok (u8 c) (with_hw (ConEx i hi lo cs) s)) as E by reflexivity. rewrite u8_small in E by done.
    refine (feeds_char _ _ _ _ _ E _ Hc _); [done|].
    intros x s'' E2. destruct (keeps_cons_char _ _ _ _ E2) as [Hq Hu]. by apply IH.
Qed.

Lemma consolewrite_correct_witness : ∃ s',
  consolewrite lock_ex lock_ex 1 [104; 105; 10] (con_start []) = Ok 3 s' ∧ cursor (hw_of s') = 80 ∧ c_crt s' 1 = 0x0769.
Proof.
  destruct (consolewrite_correct lock_ex lock_ex 1 [104; 105; 10] (con_start []) 1%nat 2%nat) as (s' & H1 & _ & H2 & H3 & _).
  - apply con_start_ok.
  - done.
  - done.
  - exists s'. split; [exact H1|]. rewrite H2, H3. split; [by vm_compute|by vm_compute].
Defined.

(** ab, Backspace, c, Control-D, then d. *)
Lemma console_line_discipline_witness : ∃ s1 s2,
  consoleintr 7 uartgetc false (con_start [97; 98; 8; 99; 4; 100]) = Ok false s1 ∧ c_wakes s1 = 1%nat ∧
  consoleread lock_ex lock_ex false 1 10 s1 = Ok (CDone 2 [97; 99]) s2 ∧ rep (Ldisc [4] [100]) s2.
Proof.
  destruct (console_line_discipline lock_ex lock_ex uartgetc [97; 98; 8; 99; 4; 100] 7 (Ldisc [] [])
    (con_start [97; 98; 8; 99; 4; 100]) 1 10 false 1%nat 2%nat) as (s1 & s2 & H1 & _ & H2 & H3 & H4 & _).
  - apply con_start_ok.
  - apply con_start_ok.
  - apply feeds_uart; [repeat constructor; done|done|done].
  - simpl. lia.
  - done.
  - done.
  - exact (ex_intro _ s1 (ex_intro _ s2 (conj H1 (conj H2 (conj H3 H4))))).
Defined.

Lemma console_line_roundtrip_witness : ∃ s1 s2,
  consoleintr 4 uartgetc false (con_start [108; 115; 13]) = Ok false s1 ∧ c_wakes s1 = 1%nat ∧
  consoleread lock_ex lock_ex false 1 100 s1 = Ok (CDone 3 [108; 115; 10]) s2.
Proof.
  destruct (console_line_roundtrip lock_ex lock_ex uartgetc [108; 115] 4 (con_start [108; 115; 13]) 1 100 1%nat 2%nat)
    as (s1 & s2 & H1 & H2 & H3 & _).
  - apply con_start_ok.
  - apply con_start_ok.
  - repeat (constructor; [lia|]). constructor.
  - done.
  - apply feeds_uart; [repeat constructor; done|done|done].
  - simpl. lia.
  - done.
  - done.
  - done.
  - exact (ex_intro _ s1 (ex_intro _ s2 (conj H1 (conj H2 H3)))).
Defined.
