(* ===== verification/Ide.v ===== *)
(** * The IDE disk driver (ide.c; insl and outsl of x86.h)

    Requests are buffers in a queue that is linked through [qnext]; its head is the
    request the disk works on. A thread puts its buffer at the end and sleeps until
    the interrupt handler has completed it. idelock makes iderw up to its sleep, each
    of its tests after a wakeup, and ideintr atomic sections. *)

From S2P Require Import Prelude Sleeplock Disk Hw Irq.

Definition SECTOR_SIZE : Z := 512.
Definition IDE_BSY : Z := 0x80.
Definition IDE_DRDY : Z := 0x40.
Definition IDE_DF : Z := 0x20.
Definition IDE_ERR : Z := 0x01.
Definition IDE_CMD_READ : Z := 0x20.
Definition IDE_CMD_WRITE : Z := 0x30.
Definition IDE_CMD_RDMUL : Z := 0xc4.
Definition IDE_CMD_WRMUL : Z := 0xc5.
Definition IRQ_IDE : Z := 14.
Definition FSSIZE : Z := 1000.

Record idest (H : Type) := IdeSt {
  i_hw : H;
  i_buf : nat → buf;
  i_qnext : nat → option nat;
  idequeue : option nat;
  havedisk1 : bool;
  i_wakes : list nat   (** the channels of wakeup, oldest first *)
}.
Arguments IdeSt {H} _ _ _ _ _ _.
Arguments i_hw {H} _.
Arguments i_buf {H} _.
Arguments i_qnext {H} _.
Arguments idequeue {H} _.
Arguments havedisk1 {H} _.
Arguments i_wakes {H} _.

Section ide.
Context {H : Type} `{!Machine H}.
Implicit Types (s : idest H) (b : nat).

(** [cnt] words from a port, and to a port, as the bytes of memory they are. *)
Fixpoint insl (port : Z) (cnt : nat) : M H (list Z) :=
  match cnt with
  | O => mret []
  | S cnt => w ← inl port; l ← insl port cnt; mret (le_bytes 4 w ++ l)
  end.
Fixpoint outsl (port : Z) (addr : list Z) (cnt : nat) : M H unit :=
  match cnt with
  | O => mret tt
  | S cnt => outl port (le_val (take 4 addr));; outsl port (drop 4 addr) cnt
  end.

Definition upd_buf b (f : buf → buf) s : idest H :=
  IdeSt (i_hw s) (fupd (i_buf s) b (f (i_buf s b))) (i_qnext s) (idequeue s) (havedisk1 s) (i_wakes s).
Definition set_queue q s : idest H := IdeSt (i_hw s) (i_buf s) (i_qnext s) q (havedisk1 s) (i_wakes s).
Definition set_qnext b q s : idest H :=
  IdeSt (i_hw s) (i_buf s) (fupd (i_qnext s) b q) (idequeue s) (havedisk1 s) (i_wakes s).
Definition set_havedisk1 v s : idest H := IdeSt (i_hw s) (i_buf s) (i_qnext s) (idequeue s) v (i_wakes s).
Definition set_hw h s : idest H := IdeSt h (i_buf s) (i_qnext s) (idequeue s) (havedisk1 s) (i_wakes s).
Definition wakeup b : M (idest H) unit := modify (λ s,
  IdeSt (i_hw s) (i_buf s) (i_qnext s) (idequeue s) (havedisk1 s) (i_wakes s ++ [b])).
Definition hw {A} (m : M H A) : M (idest H) A := zoom i_hw set_hw m.

(** while(((r = inb(0x1f7)) & (IDE_BSY|IDE_DRDY)) != IDE_DRDY) *)
Fixpoint idewait (fuel : nat) (checkerr : bool) : M (idest H) Z :=
  match fuel with
  | O => no_fuel
  | S fuel =>
      r ← hw (inb 0x1f7);
      if negb (Z.land r (Z.lor IDE_BSY IDE_DRDY) =? IDE_DRDY) then idewait fuel checkerr
      else if checkerr && negb (Z.land r (Z.lor IDE_DF IDE_ERR) =? 0) then mret (-1) else mret 0
  end.

(** for(i=0; i<1000; i++) *)
Fixpoint ide_probe (n : nat) : M (idest H) unit :=
  match n with
  | O => mret tt
  | S n =>
      r ← hw (inb 0x1f7);
      if negb (r =? 0) then modify (set_havedisk1 true) else ide_probe n
  end.

Definition ideinit (fuel : nat) (ncpu : Z) : M (idest H) unit :=
  hw (ioapicenable IRQ_IDE (ncpu - 1));;
  _ ← idewait fuel false;
  hw (outb 0x1f6 (Z.lor 0xe0 (Z.shiftl 1 4)));;
  ide_probe 1000;;
  hw (outb 0x1f6 (Z.lor 0xe0 (Z.shiftl 0 4))).

Definition idestart (fuel : nat) (b : option nat) : M (idest H) unit :=
  match b with
  | None => panic "idestart"
  | Some b =>
      x ← gets (λ s, i_buf s b);
      panic_if (FSSIZE <=? b_blockno x) "incorrect blockno";;
      let sector_per_block := Z.of_nat BSIZE / SECTOR_SIZE in
      let sector := b_blockno x * sector_per_block in
      let read_cmd := if sector_per_block =? 1 then IDE_CMD_READ else IDE_CMD_RDMUL in
      let write_cmd := if sector_per_block =? 1 then IDE_CMD_WRITE else IDE_CMD_WRMUL in
      panic_if (7 <? sector_per_block) "idestart";;
      _ ← idewait fuel false;
      hw (outb 0x3f6 0);;
      hw (outb 0x1f2 sector_per_block);;
      hw (outb 0x1f3 (Z.land sector 0xff));;
      hw (outb 0x1f4 (Z.land (Z.shiftr sector 8) 0xff));;
      hw (outb 0x1f5 (Z.land (Z.shiftr sector 16) 0xff));;
      hw (outb 0x1f6 (Z.lor 0xe0 (Z.lor (Z.shiftl (Z.land (b_dev x) 1) 4) (Z.land (Z.shiftr sector 24) 0x0f))));;
      if has_flag x B_DIRTY then
        hw (outb 0x1f7 write_cmd);;
        hw (outsl 0x1f0 (b_data x) (BSIZE / 4))
      else hw (outb 0x1f7 read_cmd)
  end.

Definition ideintr (fuel : nat) : M (idest H) unit :=
  q ← gets idequeue;
  match q with
  | None => mret tt
  | Some b =>
      next ← gets (λ s, i_qnext s b);
      modify (set_queue next);;
      x ← gets (λ s, i_buf s b);
      (if negb (has_flag x B_DIRTY) then
         r ← idewait fuel true;
         if 0 <=? r then d ← hw (insl 0x1f0 (BSIZE / 4)); modify (upd_buf b (set_data d)) else mret tt
       else mret tt);;
      modify (upd_buf b (λ x, set_flags (Z.lor (b_flags x) B_VALID) x));;
      modify (upd_buf b (λ x, set_flags (Z.land (b_flags x) (Z.lnot B_DIRTY)) x));;
      wakeup b;;
      q ← gets idequeue;
      match q with Some _ => idestart fuel q | None => mret tt end
  end.

(** The loop that moves pp to the null link at the end of the queue, and the store
    of b there; [pp] is None for &idequeue and Some c for the qnext field of c. *)
Fixpoint ide_append (fuel : nat) (pp : option nat) (b : nat) : M (idest H) unit :=
  match fuel with
  | O => no_fuel
  | S fuel =>
      v ← gets (λ s, match pp with None => idequeue s | Some c => i_qnext s c end);
      match v with
      | Some c => ide_append fuel (Some c) b
      | None => modify (match pp with None => set_queue (Some b) | Some c => set_qnext c (Some b) end)
      end
  end.

(** The test of while((b->flags & (B_VALID|B_DIRTY)) != B_VALID); the thread sleeps
    on b where it holds. *)
Definition iderw_wait b : M (idest H) unit :=
  x ← gets (λ s, i_buf s b);
  if negb (Z.land (b_flags x) (Z.lor B_VALID B_DIRTY) =? B_VALID) then blocked else mret tt.

(** iderw before its loop. *)
Definition iderw_submit (fuel : nat) b : M (idest H) unit :=
  x ← gets (λ s, i_buf s b);
  panic_if (negb (sl_locked (b_lock x))) "iderw: buf not locked";;
  panic_if (Z.land (b_flags x) (Z.lor B_VALID B_DIRTY) =? B_VALID) "iderw: nothing to do";;
  disk1 ← gets havedisk1;
  panic_if (negb (b_dev x =? 0) && negb disk1) "iderw: ide disk 1 not present";;
  modify (set_qnext b None);;
  ide_append fuel None b;;
  q ← gets idequeue;
  if decide (q = Some b) then idestart fuel q else mret tt.
Definition iderw (fuel : nat) b : M (idest H) unit := iderw_submit fuel b;; iderw_wait b.
End ide.
