(* ===== verification/Bootmain.v ===== *)
(** * The boot loader (bootmain.c)

    It runs before paging: memory is physical. The disk is behind ports; [Pio] is a
    drive in the mode the loader uses, for the theorem. The loader's arithmetic is on
    32-bit pointers. *)

From S2P Require Import Prelude Cstring Hw Ide Exec.

Definition SECTSIZE : Z := 512.

Record bootst (H : Type) := BootSt { bt_hw : H; bt_mem : mem }.
Arguments BootSt {H} _ _.
Arguments bt_hw {H} _.
Arguments bt_mem {H} _.

Section boot.
Context {H : Type} `{!Machine H} (fuel : nat).

Definition bt_io {A} (m : M H A) : M (bootst H) A := zoom bt_hw (λ h s, BootSt h (bt_mem s)) m.
Definition bt_set (f : mem → mem) : M (bootst H) unit := modify (λ s, BootSt (bt_hw s) (f (bt_mem s))).

(** while((inb(0x1F7) & 0xC0) != 0x40), at most [fuel] times. *)
Fixpoint waitdisk (fuel : nat) : M H unit :=
  match fuel with
  | O => no_fuel
  | S fuel => r ← inb 0x1F7; if Z.land r 0xC0 =? 0x40 then mret tt else waitdisk fuel
  end.

(** Read a single sector at offset into dst. *)
Definition readsect (dst offset : Z) : M (bootst H) unit :=
  l ← bt_io (
    waitdisk fuel;;
    outb 0x1F2 1;;
    outb 0x1F3 offset;;
    outb 0x1F4 (Z.shiftr offset 8);;
    outb 0x1F5 (Z.shiftr offset 16);;
    outb 0x1F6 (Z.lor (Z.shiftr offset 24) 0xE0);;
    outb 0x1F7 0x20;;
    waitdisk fuel;;
    insl 0x1F0 (Z.to_nat (SECTSIZE / 4)));
  bt_set (λ m, store_bytes m dst l).

Fixpoint readseg_loop (n : nat) (pa epa offset : Z) : M (bootst H) unit :=
  match n with
  | O => no_fuel
  | S n =>
      if pa <? epa then readsect pa offset;; readseg_loop n (u32 (pa + SECTSIZE)) epa (u32 (offset + 1))
      else mret tt
  end.

(** Read count bytes at offset from the kernel to physical address pa. *)
Definition readseg (pa count offset : Z) : M (bootst H) unit :=
  let epa := u32 (pa + count) in
  let pa := u32 (pa - offset mod SECTSIZE) in
  let offset := u32 (offset / SECTSIZE + 1) in
  readseg_loop (Z.to_nat ((count + 511) / 512) + 2) pa epa offset.

(** The program headers from [ph] on, [n] of them, in the memory as it is. *)
Fixpoint load_phs (n : nat) (ph : Z) : M (bootst H) unit :=
  match n with
  | O => mret tt
  | S n =>
      m ← gets bt_mem;
      let pa := load32 m (ph + 12) in
      let filesz := load32 m (ph + 16) in
      let memsz := load32 m (ph + 20) in
      readseg pa filesz (load32 m (ph + 4));;
      (if filesz <? memsz then bt_set (λ m, stosb m (u32 (pa + filesz)) 0 (Z.to_nat (memsz - filesz))) else mret tt);;
      load_phs n (ph + 32)
  end.

(** The entry point that is called, or None where bootmain returns. *)
Definition bootmain : M (bootst H) (option Z) :=
  let elf := 0x10000 in
  readseg elf 4096 0;;
  m ← gets bt_mem;
  if negb (load32 m elf =? ELF_MAGIC) then mret None
  else
    let ph := u32 (elf + load32 m (elf + 28)) in
    load_phs (Z.to_nat (m (elf + 44) + 256 * m (elf + 45))) ph;;
    m ← gets bt_mem;
    mret (Some (load32 m (elf + 24))).
End boot.

(** ** A drive *)

(** [pio_disk n] is sector n; after a command the drive is busy for [pio_delay] polls. *)
Record pio := Pio {
  pio_disk : Z → list Z; pio_delay : nat; pio_busy : nat; pio_regs : Z → Z; pio_fifo : list Z
}.

Definition pio_lba (r : Z → Z) : Z := r 0x1F3 + 256 * r 0x1F4 + 65536 * r 0x1F5 + 16777216 * (r 0x1F6 mod 16).

#[export] Instance pio_machine : Machine pio := {
  hw_inb := λ p d,
    if p =? 0x1F7 then
      match pio_busy d with
      | O => (0x40, d)
      | S n => (0x80, Pio (pio_disk d) (pio_delay d) n (pio_regs d) (pio_fifo d))
      end
    else (0, d);
  hw_outb := λ p v d,
    if p =? 0x1F7 then
      if v =? 0x20 then Pio (pio_disk d) (pio_delay d) (pio_delay d) (pio_regs d)
                          (mjoin (pio_disk d <$> seqZ (pio_lba (pio_regs d)) (pio_regs d 0x1F2)))
      else d
    else Pio (pio_disk d) (pio_delay d) (pio_busy d) (fupd (pio_regs d) p v) (pio_fifo d);
  hw_inl := λ p d,
    if p =? 0x1F0 then
      (le_val (take 4 (pio_fifo d)), Pio (pio_disk d) (pio_delay d) (pio_busy d) (pio_regs d) (drop 4 (pio_fifo d)))
    else (0, d);
  hw_outl := λ _ _ d, d;
  hw_read := λ _ d, (0, d);
  hw_write := λ _ _ d, d
}.

(** ** Loading *)

Section spec.
Context (disk : Z → list Z) (delay fuel : nat).
Context (disk_ok : ∀ n, length (disk n) = 512%nat ∧ Forall is_u8 (disk n)) (fuel_ok : (delay < fuel)%nat).

(** The drive between two commands. *)
Definition idle (d : pio) : Prop :=
  pio_disk d = disk ∧ pio_delay d = delay ∧ (pio_busy d <= delay)%nat.

Lemma waitdisk_run n : ∀ d, (pio_busy d < n)%nat →
  waitdisk n d = Ok tt (Pio (pio_disk d) (pio_delay d) 0 (pio_regs d) (pio_fifo d)).
Proof.
  induction n as [|n IH]; intros d Hd; [lia|]. cbn [waitdisk]. unfold mbind, M_bind, inb. simpl.
  destruct d as [dk dl b r f]. destruct b as [|b]; simpl in *; [done|]. by rewrite IH by (simpl; lia).
Qed.

Lemma pio_insl_run n : ∀ d, length (pio_fifo d) = (4 * n)%nat → Forall is_u8 (pio_fifo d) →
  insl 0x1F0 n d = Ok (pio_fifo d) (Pio (pio_disk d) (pio_delay d) (pio_busy d) (pio_regs d) []).
Proof.
  induction n as [|n IH]; intros [dk dl b r f] Hl Hu; cbn [insl pio_fifo] in *.
  - destruct f; [done|simpl in Hl; lia].
  - assert (length (take 4 f) = 4%nat) as H4 by (rewrite length_take; lia).
    assert (inl 0x1F0 (Pio dk dl b r f) = Ok (le_val (take 4 f)) (Pio dk dl b r (drop 4 f))) as H1.
    { unfold inl. cbn. f_equal. apply u32_small. unfold is_u32. pose proof (le_val_range (take 4 f)) as Hr. rewrite H4 in Hr. exact Hr. }
    rewrite (bind_run _ _ _ _ _ H1).
    pose proof (IH (Pio dk dl b r (drop 4 f)) ltac:(cbn; rewrite length_drop; lia) ltac:(cbn; by apply Forall_drop)) as H2.
    rewrite (bind_run _ _ _ _ _ H2). cbn [pio_fifo pio_disk pio_delay pio_busy pio_regs].
    pose proof (le_bytes_val (take 4 f) ltac:(by apply Forall_take)) as E. rewrite H4 in E. rewrite E, take_drop. done.
Qed.

Lemma lba_byte k : 0 <= k < 16 → u8 (Z.lor k 0xE0) mod 16 = k.
Proof.
  intros Hk. assert (k = 0 ∨ k = 1 ∨ k = 2 ∨ k = 3 ∨ k = 4 ∨ k = 5 ∨ k = 6 ∨ k = 7 ∨ k = 8 ∨ k = 9 ∨ k = 10 ∨ k = 11 ∨ k = 12 ∨ k = 13 ∨ k = 14 ∨ k = 15) as H by lia.
  repeat (destruct H as [->|H]; [done|]). by subst.
Qed.

Lemma lba_eq off : 0 <= off < 268435456 →
  u8 off + 256 * u8 (Z.shiftr off 8) + 65536 * u8 (Z.shiftr off 16) + 16777216 * (u8 (Z.lor (Z.shiftr off 24) 0xE0) mod 16) = off.
Proof.
  intros Ho. rewrite !Z.shiftr_div_pow2 by lia. change (2 ^ 8) with 256. change (2 ^ 16) with 65536. change (2 ^ 24) with 16777216.
  rewrite lba_byte by (Z.to_euclidean_division_equations; lia). unfold u8. Z.to_euclidean_division_equations; lia.
Qed.

Lemma readsect_run dst off d m : idle d → 0 <= off < 268435456 →
  ∃ d', readsect fuel dst off (BootSt d m) = Ok tt (BootSt d' (store_bytes m dst (disk off))) ∧ idle d'.
Proof.
  intros (Hd & Hde & Hb) Ho. destruct (disk_ok off) as [Hl Hu].
  set (d1 := Pio (pio_disk d) (pio_delay d) 0 (pio_regs d) (pio_fifo d)).
  assert (waitdisk fuel d = Ok tt d1) as H1 by (apply waitdisk_run; lia).
  set (r := fupd (fupd (fupd (fupd (fupd (pio_regs d) 0x1F2 1) 0x1F3 (u8 off)) 0x1F4 (u8 (Z.shiftr off 8))) 0x1F5 (u8 (Z.shiftr off 16)))
    0x1F6 (u8 (Z.lor (Z.shiftr off 24) 0xE0))).
  assert (pio_lba r = off) as Hlba by (etrans; [|exact (lba_eq off Ho)]; reflexivity).
  set (d2 := Pio (pio_disk d) (pio_delay d) (pio_delay d) r (mjoin (pio_disk d <$> seqZ (pio_lba r) 1))).
  assert (pio_fifo d2 = disk off) as Hf by (unfold d2; cbn [pio_fifo]; rewrite Hd, Hlba; simpl; by rewrite app_nil_r).
  assert (waitdisk fuel d2 = Ok tt (Pio (pio_disk d2) (pio_delay d2) 0 (pio_regs d2) (pio_fifo d2))) as H3.
  { apply waitdisk_run. unfold d2. cbn [pio_busy]. lia. }
  set (d3 := Pio (pio_disk d2) (pio_delay d2) 0 (pio_regs d2) (pio_fifo d2)) in *.
  assert (insl 0x1F0 (Z.to_nat (SECTSIZE / 4)) d3 = Ok (disk off) (Pio (pio_disk d3) (pio_delay d3) (pio_busy d3) (pio_regs d3) [])) as H4.
  { rewrite <-Hf. apply (pio_insl_run (Z.to_nat (SECTSIZE / 4)) d3); cbn [d3 pio_fifo]; rewrite Hf; [by rewrite Hl|done]. }
  eexists. split.
  - unfold readsect. rewrite (bind_run _ _ (BootSt d m) (disk off) (BootSt (Pio (pio_disk d3) (pio_delay d3) (pio_busy d3) (pio_regs d3) []) m)); [reflexivity|].
    unfold bt_io, zoom. cbn [bt_hw bt_mem]. rewrite (bind_run _ _ _ _ _ H1).
    match goal with |- match ?prog d1 with _ => _ end = _ => change (prog d1) with ((waitdisk fuel;; insl 0x1F0 (Z.to_nat (SECTSIZE / 4))) d2) end.
    rewrite (bind_run _ _ _ _ _ H3), H4. reflexivity.
  - unfold d3, d2. split; [done|]. split; [done|]. cbn. lia.
Qed.

(** Byte [o] of the kernel's file, which begins at sector 1. *)
Definition file_byte (o : Z) : Z := getZ (disk (o / 512 + 1)) (o mod 512).

Lemma file_byte_u8 o : is_u8 (file_byte o).
Proof.
  destruct (disk_ok (o / 512 + 1)) as [Hl Hu]. rewrite Forall_lookup in Hu. apply (Hu (Z.to_nat (o mod 512))).
  unfold file_byte, getZ. apply list_lookup_lookup_total_lt. pose proof (Z.mod_pos_bound o 512). lia.
Qed.

Lemma readseg_loop_run epa : ∀ n d m pa off, idle d → 0 <= pa → epa + 511 < 4294967296 → 0 <= off → off + (epa - pa) / 512 + 1 < 268435456 →
  epa - pa <= 512 * (Z.of_nat n - 1) → (0 < n)%nat →
  ∃ d' m', readseg_loop fuel n pa epa off (BootSt d m) = Ok tt (BootSt d' m') ∧ idle d' ∧
    ∀ x, m' x = if decide (pa <= x < pa + 512 * Z.max 0 ((epa - pa + 511) / 512))
                then getZ (disk (off + (x - pa) / 512)) ((x - pa) mod 512) else m x.
Proof.
  induction n as [|n IH]; intros d m pa off Hd Hpa He Hoff Hs Hn Hn0; [lia|]. cbn [readseg_loop].
  destruct (Z.ltb_spec pa epa) as [Hlt|Hge].
  2: { exists d, m. split; [done|]. split; [done|]. intros x. rewrite decide_False; [done|]. Z.to_euclidean_division_equations; lia. }
  destruct (readsect_run pa off d m Hd) as (d1 & H1 & Hd1); [Z.to_euclidean_division_equations; lia|].
  rewrite (bind_run _ _ _ _ _ H1). change SECTSIZE with 512. rewrite !u32_small by (unfold is_u32; Z.to_euclidean_division_equations; lia).
  destruct (IH d1 (store_bytes m pa (disk off)) (pa + 512) (off + 1)) as (d2 & m2 & H2 & Hd2 & Hx); try done; try lia;
    [Z.to_euclidean_division_equations; lia|].
  exists d2, m2. split; [exact H2|]. split; [done|]. intros x. rewrite Hx, store_bytes_spec. destruct (disk_ok off) as [Hl Hu]. rewrite Hl.
  assert (Z.max 0 ((epa - pa + 511) / 512) = 1 + Z.max 0 ((epa - (pa + 512) + 511) / 512)) as -> by (Z.to_euclidean_division_equations; lia).
  repeat case_decide; try lia; [|].
  - f_equal; [f_equal|]; Z.to_euclidean_division_equations; lia.
  - assert ((x - pa) / 512 = 0 ∧ (x - pa) mod 512 = x - pa) as [-> ->] by (Z.to_euclidean_division_equations; lia). rewrite Z.add_0_r.
    apply u8_small. rewrite Forall_lookup in Hu. apply (Hu (Z.to_nat (x - pa))). unfold getZ. apply list_lookup_lookup_total_lt. lia.
Qed.

(** The memory that readseg writes, rounded to sectors on both sides. *)
Definition seg_lo (pa off : Z) : Z := pa - off mod 512.
Definition seg_hi (pa count off : Z) : Z := seg_lo pa off + 512 * ((count + off mod 512 + 511) / 512).

Lemma readseg_run pa count off d m : idle d → 0 <= seg_lo pa off → 0 <= count → 0 <= off → pa + count + 511 < 4294967296 → off < 4294967296 →
  ∃ d' m', readseg fuel pa count off (BootSt d m) = Ok tt (BootSt d' m') ∧ idle d' ∧
    ∀ x, m' x = if decide (seg_lo pa off <= x < seg_hi pa count off) then file_byte (off + (x - pa)) else m x.
Proof.
  unfold seg_hi, seg_lo. intros Hd Hlo Hc Ho Hpa Hof. pose proof (Z.mod_pos_bound off 512 ltac:(lia)) as Hm. pose proof (Z.div_mod off 512 ltac:(lia)) as Hdm.
  unfold readseg. change SECTSIZE with 512. rewrite !u32_small by (unfold is_u32; Z.to_euclidean_division_equations; lia).
  destruct (readseg_loop_run (pa + count) (Z.to_nat ((count + 511) / 512) + 2) d m (pa - off mod 512) (off / 512 + 1)) as (d' & m' & H & Hd' & Hx);
    [done|lia|lia|Z.to_euclidean_division_equations; lia|Z.to_euclidean_division_equations; lia|Z.to_euclidean_division_equations; lia|lia|].
  exists d', m'. split; [exact H|]. split; [done|]. intros x. rewrite Hx.
  replace (pa + count - (pa - off mod 512) + 511) with (count + off mod 512 + 511) by lia.
  rewrite Z.max_r by (apply Z.div_pos; lia). case_decide; [|done]. unfold file_byte.
  replace (off + (x - pa)) with ((x - (pa - off mod 512)) + (off / 512) * 512) by lia. rewrite Z.div_add, Z.mod_add by lia. do 2 f_equal. lia.
Qed.

Definition file_word (o : Z) : Z := file_byte o + 256 * file_byte (o + 1) + 65536 * file_byte (o + 2) + 16777216 * file_byte (o + 3).
(** Program header [i]: its fields, and what its segment puts at [x]. *)
Definition phdr (i : nat) : Z := file_word 28 + 32 * Z.of_nat i.
Definition s_off i : Z := file_word (phdr i + 4).
Definition s_pa i : Z := file_word (phdr i + 12).
Definition s_filesz i : Z := file_word (phdr i + 16).
Definition s_memsz i : Z := file_word (phdr i + 20).
Definition seg_byte (i : nat) (x : Z) : option Z :=
  if decide (s_pa i + s_filesz i <= x < s_pa i + s_memsz i) then Some 0
  else if decide (seg_lo (s_pa i) (s_off i) <= x < seg_hi (s_pa i) (s_filesz i) (s_off i)) then Some (file_byte (s_off i + (x - s_pa i)))
  else None.

(** A segment that lies above the page of the headers and does not wrap around. *)
Record seg_ok (i : nat) : Prop := {
  so_low : 0x11000 <= seg_lo (s_pa i) (s_off i);
  so_file : s_pa i + s_filesz i + 511 < 4294967296
}.

Lemma file_word_u32 o : is_u32 (file_word o).
Proof.
  unfold file_word, is_u32. pose proof (file_byte_u8 o). pose proof (file_byte_u8 (o + 1)). pose proof (file_byte_u8 (o + 2)).
  pose proof (file_byte_u8 (o + 3)). unfold is_u8 in *. lia.
Qed.

Definition headers (m : mem) : Prop := ∀ o, 0 <= o < 4096 → m (0x10000 + o) = file_byte o.

Lemma headers_word m o : headers m → 0 <= o → o + 4 <= 4096 → load32 m (0x10000 + o) = file_word o.
Proof.
  intros Hh H1 H2. unfold load32. replace (0x10000 + o + 1) with (0x10000 + (o + 1)) by lia.
  replace (0x10000 + o + 2) with (0x10000 + (o + 2)) by lia. replace (0x10000 + o + 3) with (0x10000 + (o + 3)) by lia.
  by rewrite !Hh by lia.
Qed.

Lemma seg_byte_low i x : seg_ok i → x < 0x11000 → seg_byte i x = None.
Proof.
  intros [H1 H2] Hx. unfold seg_byte. pose proof (Z.mod_pos_bound (s_off i) 512 ltac:(lia)). unfold seg_lo in *.
  pose proof (file_word_u32 (phdr i + 16)) as Hu. unfold is_u32 in Hu. fold (s_filesz i) in Hu. by rewrite !decide_False by lia.
Qed.

Lemma load_phs_run n : ∀ i d m, idle d → headers m → 0 <= phdr i → phdr (i + n) <= 4096 → (∀ j, (i <= j < i + n)%nat → seg_ok j) →
  ∃ d' m', load_phs fuel n (0x10000 + phdr i) (BootSt d m) = Ok tt (BootSt d' m') ∧
    ∀ x, m' x = foldl (λ v j, default v (seg_byte j x)) (m x) (seq i n).
Proof.
  induction n as [|n IH]; intros i d m Hd Hh Hi0 Hin Hok; [by exists d, m|]. cbn [load_phs seq foldl].
  assert (phdr (S i) = phdr i + 32) as Hs by (unfold phdr; lia).
  assert (phdr i + 32 <= 4096) as Hfit by (unfold phdr in *; lia).
  pose proof (Hok i ltac:(lia)) as [Hlow Hfile].
  pose proof (file_word_u32 (phdr i + 4)) as U1. pose proof (file_word_u32 (phdr i + 16)) as U2. pose proof (file_word_u32 (phdr i + 20)) as U3.
  fold (s_off i) in U1. fold (s_filesz i) in U2. fold (s_memsz i) in U3. unfold is_u32 in U1, U2, U3.
  run. cbn [bt_mem]. rewrite <-!Z.add_assoc. rewrite !headers_word by (done || lia). fold (s_off i) (s_pa i) (s_filesz i) (s_memsz i).
  destruct (readseg_run (s_pa i) (s_filesz i) (s_off i) d m) as (d1 & m1 & H1 & Hd1 & Hx1); [done|lia..|].
  rewrite (bind_run _ _ _ _ _ H1). pose proof (Z.mod_pos_bound (s_off i) 512 ltac:(lia)) as Hmod. assert (s_pa i >= 0x11000) by (unfold seg_lo in *; lia).
  rewrite (u32_small (s_pa i + s_filesz i)) by (unfold is_u32; lia).
  set (m2 := if s_filesz i <? s_memsz i then stosb m1 (s_pa i + s_filesz i) 0 (Z.to_nat (s_memsz i - s_filesz i)) else m1).
  assert (∀ x, m2 x = default (m x) (seg_byte i x)) as Hx2.
  { intros x. unfold seg_byte, m2. destruct (Z.ltb_spec (s_filesz i) (s_memsz i)).
    - rewrite stosb_spec, Z2Nat.id by lia. rewrite Hx1. repeat case_decide; try lia; done.
    - rewrite Hx1. repeat case_decide; try lia; done. }
  assert (headers m2) as Hh2 by (intros o Ho; rewrite Hx2, seg_byte_low by (apply Hok || idtac; lia); by apply Hh).
  destruct (IH (S i) d1 m2 Hd1 Hh2) as (d' & m' & H2 & Hx'); [lia|by replace (S i + n)%nat with (i + S n)%nat by lia|intros j Hj; apply Hok; lia|].
  exists d', m'. split.
  - rewrite (bind_run _ _ (BootSt d1 m1) tt (BootSt d1 m2)) by (unfold m2; by destruct (s_filesz i <? s_memsz i)).
    rewrite <-Hs. exact H2.
  - intros x. by rewrite Hx', Hx2.
Qed.

Lemma fold_last {A} (f : nat → option A) l : ∀ v i a, i ∈ l → f i = Some a → (∀ j, j ∈ l → j ≠ i → f j = None) →
  foldl (λ v j, default v (f j)) v l = a.
Proof.
  induction l as [|k l IH] using rev_ind; intros v i a Hi Hf Ho; [by apply not_elem_of_nil in Hi|].
  rewrite foldl_app. cbn [foldl]. destruct (decide (k = i)) as [->|Hne]; [by rewrite Hf|].
  rewrite (Ho k) by (done || (apply elem_of_app; right; by apply list_elem_of_singleton)). cbn [default].
  apply (IH v i a); [|done|].
  - apply elem_of_app in Hi as [?|Hi]; [done|]. apply list_elem_of_singleton in Hi. congruence.
  - intros j Hj. apply Ho. apply elem_of_app. by left.
Qed.

Definition phnum : Z := file_byte 44 + 256 * file_byte 45.

(** bootmain loads the kernel: when the first page of the file has the magic number and
    all the program headers, and the memory that the segments take, rounded to
    sectors, is above that page and does not overlap, it calls the entry point with
    each segment's bytes at its physical address and zeros behind them up to its size
    in memory. Without the magic number it returns. *)
Theorem bootmain_correct d m : idle d →
  (file_word 0 ≠ ELF_MAGIC → ∃ s', bootmain fuel (BootSt d m) = Ok None s') ∧
  (file_word 0 = ELF_MAGIC → file_word 28 + 32 * phnum <= 4096 →
   (∀ i, Z.of_nat i < phnum → seg_ok i) →
   (∀ i j x, Z.of_nat i < phnum → Z.of_nat j < phnum → i ≠ j → seg_byte i x = None ∨ seg_byte j x = None) →
   ∃ d' m', bootmain fuel (BootSt d m) = Ok (Some (file_word 24)) (BootSt d' m') ∧
     ∀ i x, Z.of_nat i < phnum →
       (0 <= x < s_filesz i → m' (s_pa i + x) = file_byte (s_off i + x)) ∧
       (s_filesz i <= x < s_memsz i → m' (s_pa i + x) = 0)).
Proof.
  intros Hd. destruct (readseg_run 0x10000 4096 0 d m) as (d1 & m1 & H1 & Hd1 & Hx1); [done|by vm_compute|lia|lia|lia|lia|].
  assert (headers m1) as Hh.
  { intros o Ho. rewrite Hx1. change (seg_lo 0x10000 0) with 0x10000. change (seg_hi 0x10000 4096 0) with 0x11000.
    rewrite decide_True by lia. f_equal. lia. }
  pose proof (file_word_u32 28) as U. unfold is_u32 in U. pose proof (file_byte_u8 44). pose proof (file_byte_u8 45). unfold is_u8 in *.
  assert (load32 m1 0x10000 = file_word 0) as E0 by (apply (headers_word m1 0); [done|lia|lia]).
  split; intros Hmag.
  - unfold bootmain. rewrite (bind_run _ _ _ _ _ H1). run. cbn [bt_mem]. rewrite E0, (proj2 (Z.eqb_neq _ _) Hmag). by eexists.
  - intros Hph Hok Hdis. assert (phdr 0 = file_word 28) as E28 by (unfold phdr; lia).
    assert (Z.of_nat (Z.to_nat phnum) = phnum) as Epn by (apply Z2Nat.id; unfold phnum; lia).
    destruct (load_phs_run (Z.to_nat phnum) 0 d1 m1 Hd1 Hh) as (d2 & m2 & H2 & Hx2); [lia|unfold phdr; simpl; lia|intros j Hj; apply Hok; lia|].
    assert (∀ x, x < 0x11000 → m2 x = m1 x) as Hlow.
    { intros x Hx. rewrite Hx2. assert (∀ l v, (∀ j, j ∈ l → Z.of_nat j < phnum) → foldl (λ v j, default v (seg_byte j x)) v l = v) as Hf.
      { induction l as [|j l IH]; intros v Hl; [done|]. cbn [foldl]. rewrite (seg_byte_low j x) by (done || (apply Hok, Hl; left)).
        apply IH. intros k Hk. apply Hl. by right. }
      apply Hf. intros j Hj. apply elem_of_seq in Hj. lia. }
    assert (headers m2) as Hh2 by (intros o Ho; rewrite Hlow by lia; by apply Hh).
    exists d2, m2. split.
    + unfold bootmain. rewrite (bind_run _ _ _ _ _ H1). run. cbn [bt_mem]. rewrite E0, Hmag. cbn [Z.eqb]. rewrite Z.eqb_refl. cbn [negb].
      change (0x10000 + 28) with (0x10000 + 28). rewrite (headers_word m1 28) by (done || lia).
      rewrite (Hh 44), (Hh 45) by lia. rewrite u32_small by (unfold is_u32, phnum in *; lia). rewrite <-E28. fold phnum.
      rewrite (bind_run _ _ _ _ _ H2). run. cbn [bt_mem]. by rewrite (headers_word m2 24) by (done || lia).
    + intros i x Hi. pose proof (file_word_u32 (phdr i + 16)) as U2. fold (s_filesz i) in U2. unfold is_u32 in U2.
      assert (∀ y v, seg_byte i y = Some v → m2 y = v) as Hseg.
      { intros y v Hv. rewrite Hx2. apply (fold_last _ _ _ i); [apply elem_of_seq; lia|done|].
        intros j Hj Hne. apply elem_of_seq in Hj. destruct (Hdis i j y) as [E|E]; [done|lia|done|congruence|done]. }
      pose proof (Z.mod_pos_bound (s_off i) 512 ltac:(lia)) as Hm.
      split; intros Hx; apply Hseg; unfold seg_byte.
      * rewrite decide_False by lia. rewrite decide_True; [do 2 f_equal; lia|]. unfold seg_hi, seg_lo. Z.to_euclidean_division_equations; lia.
      * by rewrite decide_True by lia.
Qed.
End spec.

(** A kernel of one segment: 1 2 3 and two zeros at 1 MB. *)
Definition boot_disk (n : Z) : list Z :=
  let pad l := l ++ replicate (512 - length l) 0 in
  if n =? 1 then pad (le_bytes 4 ELF_MAGIC ++ replicate 20 0 ++ le_bytes 4 0x100000 ++ le_bytes 4 52 ++ replicate 12 0 ++ le_bytes 2 1 ++ replicate 6 0
                      ++ le_bytes 4 1 ++ le_bytes 4 512 ++ le_bytes 4 0 ++ le_bytes 4 0x100000 ++ le_bytes 4 3 ++ le_bytes 4 5)
  else if n =? 2 then pad [1; 2; 3] else pad [].

Lemma forallb_u8 l : forallb (λ x, (0 <=? x) && (x <? 256)) l = true → Forall is_u8 l.
Proof.
  induction l as [|x l IH]; intros H; [done|]. simpl in H. apply andb_true_iff in H as [[H1 H2]%andb_true_iff H].
  constructor; [unfold is_u8; lia|by apply IH].
Qed.

Lemma bootmain_run : ∃ d' m', bootmain 4 (BootSt (Pio boot_disk 2 1 (λ _, 0) []) (λ _, 7)) = Ok (Some 0x100000) (BootSt d' m') ∧
  bytes_at m' 0x100000 5 = [1; 2; 3; 0; 0].
Proof.
  assert (∀ n, length (boot_disk n) = 512%nat ∧ Forall is_u8 (boot_disk n)) as Hok.
  { intros n. unfold boot_disk. destruct (n =? 1); [|destruct (n =? 2)]; (split; [done|]);
      by apply forallb_u8; vm_compute. }
  set (d := Pio boot_disk 2 1 (λ _, 0) []).
  assert (idle boot_disk 2 d) as Hd by (split; [reflexivity|split; [reflexivity|simpl; lia]]).
  destruct (bootmain_correct boot_disk 2 4 Hok (ltac:(lia) : (2 < 4)%nat) d (λ _, 7) Hd) as [_ Hb0].
  destruct Hb0 as (d' & m' & H & Hb).
  - by vm_compute.
  - by vm_compute.
  - intros i Hi. change (phnum boot_disk) with 1 in Hi. assert (i = 0%nat) as -> by lia. by split; vm_compute.
  - intros i j x Hi Hj. change (phnum boot_disk) with 1 in *. lia.
  - exists d', m'. split; [exact H|]. assert (∀ x, (0 <= x < 3 → m' (0x100000 + x) = file_byte boot_disk (512 + x)) ∧ (3 <= x < 5 → m' (0x100000 + x) = 0)) as Hx
      by (intros x; exact (Hb 0%nat x eq_refl)).
    pose proof (proj1 (Hx 0) ltac:(lia)) as A0. pose proof (proj1 (Hx 1) ltac:(lia)) as A1. pose proof (proj1 (Hx 2) ltac:(lia)) as A2.
    pose proof (proj2 (Hx 3) ltac:(lia)) as A3. pose proof (proj2 (Hx 4) ltac:(lia)) as A4.
    change (0x100000 + 0) with 0x100000 in A0. cbn [bytes_at]. rewrite A0. change (0x100000 + 1) with 0x100001 in *. rewrite A1.
    change (0x100001 + 1) with (0x100000 + 2). rewrite A2. change (0x100000 + 2 + 1) with (0x100000 + 3). rewrite A3.
    change (0x100000 + 3 + 1) with (0x100000 + 4). rewrite A4. by vm_compute.
Qed.
