(* ===== verification/IdeSpec.v ===== *)
(** * The IDE driver's contract

    [Ata] states what the driver relies on of a disk controller. Against it: the
    queue is served in order, each request moves its block, and a thread's
    call with the interrupt that ends its sleep is what the buffer cache expects of a
    driver. *)

From S2P Require Import Prelude Sleeplock Disk Hw Irq Ide.

(** ** The controller *)

(** A command moves one sector of 512 bytes; [AIn] and [AOut] are transfers under
    way, with the bytes still to come or already taken. *)
Inductive ata_phase := AIdle | AIn (l : list Z) | AOut (sect : Z * Z) (l : list Z).

(** The registers, the transfer, the sectors by drive and number, and the writes. *)
Record ata := MkAta {
  a_reg : Z → Z; a_phase : ata_phase; a_disk : Z * Z → block; a_hist : list (Z * Z * block)
}.
Definition a_set_phase p a := MkAta (a_reg a) p (a_disk a) (a_hist a).
Definition a_set_reg p v a := MkAta (fupd (a_reg a) p v) (a_phase a) (a_disk a) (a_hist a).
(** The sector that the registers name: bit 4 of the sixth is the drive. *)
Definition a_sector (a : ata) : Z * Z :=
  (a_reg a 0x1f6 / 16 mod 2,
   a_reg a 0x1f3 + a_reg a 0x1f4 * 2 ^ 8 + a_reg a 0x1f5 * 2 ^ 16 + a_reg a 0x1f6 mod 16 * 2 ^ 24).
Definition a_store (sect : Z * Z) (l : block) (a : ata) : ata :=
  MkAta (a_reg a) AIdle (fupd (a_disk a) sect l) (a_hist a ++ [(sect, l)]).

(** A write that fails. *)
Definition a_spoil (sect : Z * Z) (l : block) (a : ata) : ata :=
  MkAta (a_reg a) AIdle (fupd (a_disk a) sect l) (a_hist a).

(** [ata_busy] is how often the status will still be read as busy; the status then
    says whether the last command failed. A word written to the data port is taken
    only while the controller asks for data ([ata_drq]), which it does not while it is
    busy; it goes on asking until it has the sector, and loses what comes while it does
    not ask. When it has the sector it writes it, or fails and reports it: then the
    sector holds whatever it may. [ata_prompt] says of a controller that it asks as
    soon as it has been given the command, before its status is read again. *)
Class Ata (H : Type) `{!Machine H} := {
  ata_of : H → ata; ata_busy : H → nat; ata_failed : H → bool; ata_drq : H → bool; ata_prompt : bool;
  ata_poll : ∀ h v h', hw_inb 0x1f7 h = (v, h') → ata_of h' = ata_of h ∧ ata_failed h' = ata_failed h ∧
    match ata_busy h with
    | O => Z.land (u8 v) 0xc0 = 0x40 ∧ (Z.land (u8 v) 0x21 = 0 ↔ ata_failed h = false) ∧ ata_busy h' = O
    | S n => Z.land (u8 v) 0xc0 ≠ 0x40 ∧ ata_busy h' = n
    end;
  ata_register : ∀ p v h, p ∈ [0x1f2; 0x1f3; 0x1f4; 0x1f5; 0x1f6] → ata_busy h = O →
    ata_of (hw_outb p v h) = a_set_reg p v (ata_of h) ∧ ata_busy (hw_outb p v h) = O;
  ata_control : ∀ h, ata_busy h = O → ata_of (hw_outb 0x3f6 0 h) = ata_of h ∧ ata_busy (hw_outb 0x3f6 0 h) = O;
  ata_read : ∀ h, ata_busy h = O → a_reg (ata_of h) 0x1f2 = 1 →
    ata_of (hw_outb 0x1f7 0x20 h) = a_set_phase (AIn (a_disk (ata_of h) (a_sector (ata_of h)))) (ata_of h);
  ata_write : ∀ h, ata_busy h = O → a_reg (ata_of h) 0x1f2 = 1 →
    ata_of (hw_outb 0x1f7 0x30 h) = a_set_phase (AOut (a_sector (ata_of h)) []) (ata_of h) ∧
    (ata_prompt = true → ata_drq (hw_outb 0x1f7 0x30 h) = true);
  ata_drq_idle : ∀ h, ata_drq h = true → ata_busy h = O;
  ata_in : ∀ h l v h', ata_busy h = O → ata_failed h = false → a_phase (ata_of h) = AIn l → (4 <= length l)%nat →
    hw_inl 0x1f0 h = (v, h') → v = le_val (take 4 l) ∧ ata_of h' = a_set_phase (AIn (drop 4 l)) (ata_of h) ∧
      ata_busy h' = O ∧ ata_failed h' = false;
  ata_out : ∀ h sect l v, a_phase (ata_of h) = AOut sect l → is_u32 v →
    let l' := l ++ le_bytes 4 v in let h' := hw_outl 0x1f0 v h in
    if negb (ata_drq h) then ata_of h' = ata_of h
    else if (length l' =? BSIZE)%nat then
      if ata_failed h' then ∃ l'', ata_of h' = a_spoil sect l'' (ata_of h) else ata_of h' = a_store sect l' (ata_of h)
    else ata_of h' = a_set_phase (AOut sect l') (ata_of h) ∧ ata_drq h' = true;
  ata_sectors : ∀ h sect, length (a_disk (ata_of h) sect) = BSIZE ∧ Forall is_u8 (a_disk (ata_of h) sect)
}.

Section spec.
Context {H : Type} `{!Machine H, !Ata H}.
Implicit Types (s : idest H) (b : nat) (h : H) (x : buf).

Definition ata_st s : ata := ata_of (i_hw s).

Lemma ide_hw_run {A} (m : M H A) s a h : m (i_hw s) = Ok a h → hw m s = Ok a (set_hw h s).
Proof. intros H0. unfold hw, zoom. by rewrite H0. Qed.
Lemma set_hw_hw h h' s : set_hw h (set_hw h' s) = set_hw h s.
Proof. done. Qed.
Lemma set_hw_id s : set_hw (i_hw s) s = s.
Proof. by destruct s. Qed.

(** Waiting ends when the controller is no longer busy. *)
Lemma idewait_run fuel chk s : (ata_busy (i_hw s) < fuel)%nat → ∃ h,
  idewait fuel chk s = Ok (if chk && ata_failed (i_hw s) then -1 else 0) (set_hw h s) ∧
  ata_of h = ata_st s ∧ ata_busy h = O ∧ ata_failed h = ata_failed (i_hw s).
Proof.
  revert s. induction fuel as [|fuel IH]; intros s Hf; [lia|]. cbn [idewait].
  destruct (hw_inb 0x1f7 (i_hw s)) as [v h] eqn:Ei. destruct (ata_poll _ _ _ Ei) as (H1 & H2 & H3).
  rewrite (bind_run _ _ _ _ _ (ide_hw_run (inb 0x1f7) s (u8 v) h ltac:(unfold inb; by rewrite Ei))).
  change (Z.lor IDE_BSY IDE_DRDY) with 0xc0. change IDE_DRDY with 0x40. change (Z.lor IDE_DF IDE_ERR) with 0x21.
  destruct (ata_busy (i_hw s)) as [|n].
  - destruct H3 as (-> & He & Hb). change (0x40 =? 0x40) with true. cbn [negb]. exists h. split; [|done].
    destruct chk; [|done]. cbn [andb]. destruct (Z.eqb_spec (Z.land (u8 v) 0x21) 0) as [E|E]; cbn [negb].
    + by rewrite (proj1 He E).
    + destruct (ata_failed (i_hw s)); [done|]. by destruct E; apply He.
  - destruct H3 as [Hv Hb]. rewrite (proj2 (Z.eqb_neq _ _) Hv). cbn [negb].
    destruct (IH (set_hw h s)) as (h' & G1 & G2 & G3 & G4); [cbn; lia|]. cbn in G4. exists h'. rewrite G1.
    cbn [i_hw set_hw]. rewrite H2 in *. unfold ata_st in *. cbn in G2. by rewrite G2.
Qed.

(** *** The string transfers *)

Lemma insl_run cnt : ∀ l h, ata_busy h = O → ata_failed h = false → a_phase (ata_of h) = AIn l →
  length l = (4 * cnt)%nat → Forall is_u8 l → ∃ h', insl 0x1f0 cnt h = Ok l h' ∧ ata_busy h' = O ∧
    ata_of h' = a_set_phase (AIn []) (ata_of h).
Proof.
  induction cnt as [|cnt IH]; intros l h Hb Hf Hp Hl Hu; cbn [insl].
  - destruct l; [|done]. exists h. split_and!; try done. rewrite <-Hp. by destruct (ata_of h).
  - unfold mbind, M_bind, inl. destruct (hw_inl 0x1f0 h) as [v h1] eqn:Ei.
    destruct (ata_in _ _ _ _ Hb Hf Hp ltac:(lia) Ei) as (-> & H1 & H2 & H3).
    destruct (IH (drop 4 l) h1) as (h' & G1 & G2 & G3); [done..|by rewrite H1|rewrite length_drop; lia|by apply Forall_drop|].
    rewrite G1. exists h'. rewrite G3, H1. split_and!; try done. unfold mret, M_ret. f_equal.
    assert (length (take 4 l) = 4%nat) as Ht by (rewrite length_take; lia).
    rewrite u32_small by (pose proof (le_val_range (take 4 l)) as Hr; rewrite Ht in Hr; exact Hr).
    rewrite <-Ht at 1. rewrite le_bytes_val by (by apply Forall_take). by rewrite take_drop.
Qed.

(** What is left of a write after the words [acc ++ l]. *)
Definition sent (sect : Z * Z) (l : block) (a : ata) (h' : H) : Prop :=
  if ata_failed h' then ∃ l', ata_of h' = a_spoil sect l' a else ata_of h' = a_store sect l a.

(** Words to a controller that asks for them. *)
Lemma outsl_run cnt : ∀ acc l h sect, a_phase (ata_of h) = AOut sect acc → ata_drq h = true → cnt ≠ O →
  length l = (4 * cnt)%nat → (length acc + length l = BSIZE)%nat → Forall is_u8 l →
  ∃ h', outsl 0x1f0 l cnt h = Ok tt h' ∧ sent sect (acc ++ l) (ata_of h) h'.
Proof.
  induction cnt as [|cnt IH]; intros acc l h sect Hp Hq Hc Hl Hlen Hu; [done|]. cbn [outsl].
  assert (length (take 4 l) = 4%nat) as Ht by (rewrite length_take; lia).
  assert (is_u32 (le_val (take 4 l))) as Hv by (pose proof (le_val_range (take 4 l)) as Hr; rewrite Ht in Hr; exact Hr).
  assert (le_bytes 4 (le_val (take 4 l)) = take 4 l) as Hle by (rewrite <-Ht at 1; apply le_bytes_val; by apply Forall_take).
  pose proof (ata_out h sect acc _ Hp Hv) as Ho. cbn zeta in Ho. rewrite Hle, Hq in Ho. cbn [negb] in Ho.
  unfold mbind, M_bind, outl. rewrite (u32_small _ Hv). change (u16 0x1f0) with 0x1f0.
  destruct (Nat.eqb_spec (length (acc ++ take 4 l)) BSIZE) as [E|E]; rewrite length_app, Ht in E.
  - destruct cnt as [|cnt]; [|exfalso; lia]. eexists. split; [done|]. rewrite firstn_all2 in Ho |- * by lia. done.
  - destruct Ho as [Ho Hq']. destruct (IH (acc ++ take 4 l) (drop 4 l) (hw_outl 0x1f0 (le_val (take 4 l)) h) sect) as (h' & G1 & G2).
    + by rewrite Ho.
    + done.
    + intros ->. unfold BSIZE in *. lia.
    + rewrite length_drop. lia.
    + rewrite length_app, length_drop, Ht. lia.
    + by apply Forall_drop.
    + exists h'. rewrite G1. split; [done|]. unfold sent in *. rewrite <-app_assoc, take_drop, Ho in G2.
      by destruct (ata_of h).
Qed.

(** To any controller: at most the sector of the command changes. *)
Lemma outsl_any cnt : ∀ acc l h sect, a_phase (ata_of h) = AOut sect acc →
  length l = (4 * cnt)%nat → (length acc + length l <= BSIZE)%nat → Forall is_u8 l →
  ∃ h', outsl 0x1f0 l cnt h = Ok tt h' ∧ ∀ n, n ≠ sect → a_disk (ata_of h') n = a_disk (ata_of h) n.
Proof.
  induction cnt as [|cnt IH]; intros acc l h sect Hp Hl Hlen Hu; cbn [outsl]; [by exists h|].
  assert (length (take 4 l) = 4%nat) as Ht by (rewrite length_take; lia).
  assert (is_u32 (le_val (take 4 l))) as Hv by (pose proof (le_val_range (take 4 l)) as Hr; rewrite Ht in Hr; exact Hr).
  pose proof (ata_out h sect acc _ Hp Hv) as Ho. cbn zeta in Ho.
  unfold mbind, M_bind, outl. rewrite (u32_small _ Hv). change (u16 0x1f0) with 0x1f0.
  set (h1 := hw_outl _ _ h) in *.
  assert (∀ acc', a_phase (ata_of h1) = AOut sect acc' → (length acc' <= length acc + 4)%nat →
    a_disk (ata_of h1) = a_disk (ata_of h) →
    ∃ h', outsl 0x1f0 (drop 4 l) cnt h1 = Ok tt h' ∧ ∀ n, n ≠ sect → a_disk (ata_of h') n = a_disk (ata_of h) n) as Hgo.
  { intros acc' Hp' Hl' Hd. rewrite <-Hd. apply (IH acc'); [done|rewrite length_drop; lia..|by apply Forall_drop]. }
  destruct (ata_drq h); cbn [negb] in Ho; [|apply (Hgo acc); rewrite ?Ho; (done || lia)].
  rewrite length_app, length_le_bytes in Ho.
  destruct (Nat.eqb_spec (length acc + 4) BSIZE) as [E|E].
  - assert (cnt = O) as -> by lia. exists h1. split; [done|]. intros n Hn.
    destruct (ata_failed h1); [destruct Ho as [l'' ->]|rewrite Ho]; cbn; by apply fupd_ne.
  - destruct Ho as [Ho _]. apply (Hgo (acc ++ le_bytes 4 (le_val (take 4 l)))); rewrite ?Ho; [done| |done].
    rewrite length_app, length_le_bytes. lia.
Qed.

(** *** Starting a request *)

(** What a request must be: locked, with something to do, on a disk that exists. *)
Record req_ok x : Prop := {
  rq_locked : sl_locked (b_lock x) = true;
  rq_flags : b_flags x ∈ [0; 4; 6];
  rq_dev : b_dev x = 0 ∨ b_dev x = 1;
  rq_block : 0 <= b_blockno x < FSSIZE;
  rq_data : length (b_data x) = BSIZE ∧ Forall is_u8 (b_data x)
}.
Definition req_sector x : Z * Z := (b_dev x, b_blockno x).

(** The machine once the controller has been given the request. A write has
    happened if the controller asked for the data at once and reports no failure; in
    any case no other sector changes. *)
Definition issued x (a : ata) (h' : H) : Prop :=
  let a' := ata_of h' in
  if has_flag x B_DIRTY
  then (∀ n, n ≠ req_sector x → a_disk a' n = a_disk a n) ∧
       (ata_prompt = true → ata_failed h' = false →
        a_disk a' (req_sector x) = b_data x ∧ a_hist a' = a_hist a ++ [(req_sector x, b_data x)])
  else a_disk a' = a_disk a ∧ a_hist a' = a_hist a ∧ a_phase a' = AIn (a_disk a (req_sector x)).

Lemma land_flags x : req_ok x → (Z.land (b_flags x) (Z.lor B_VALID B_DIRTY) =? B_VALID) = false.
Proof. intros [_ Hf _ _ _]. repeat (apply elem_of_cons in Hf as [->|Hf]; [done|]). by apply elem_of_nil in Hf. Qed.

Lemma lba_bytes n : 0 <= n < FSSIZE →
  Z.land n 0xff = n mod 256 ∧ Z.land (Z.shiftr n 8) 0xff = n / 256 ∧ Z.land (Z.shiftr n 16) 0xff = 0 ∧
  Z.land (Z.shiftr n 24) 0x0f = 0.
Proof.
  intros Hn. unfold FSSIZE in Hn. rewrite !Z.shiftr_div_pow2 by lia.
  rewrite !(land_mask _ 8 0xff) by done. rewrite (land_mask _ 4 0x0f) by done.
  change (2 ^ 24) with 16777216. change (2 ^ 16) with 65536. change (2 ^ 8) with 256. change (2 ^ 4) with 16.
  rewrite (Z.div_small n 65536), (Z.div_small n 16777216) by lia. split_and!; try done.
  apply Z.mod_small. split; [by apply Z.div_pos; lia|]. apply Z.div_lt_upper_bound; lia.
Qed.

Lemma outb_run {B} p v s (k : unit → M (idest H) B) : is_u16 p → is_u8 v →
  (hw (outb p v) ≫= k) s = k tt (set_hw (hw_outb p v (i_hw s)) s).
Proof. intros Hp Hv. unfold hw, zoom, outb, mbind, M_bind. by rewrite (u16_small _ Hp), (u8_small _ Hv). Qed.

Lemma idestart_run fuel b s : req_ok (i_buf s b) → (ata_busy (i_hw s) < fuel)%nat →
  ∃ h, idestart fuel (Some b) s = Ok tt (set_hw h s) ∧ issued (i_buf s b) (ata_st s) h.
Proof.
  intros Hr Hb. pose proof Hr as [_ Hf Hd Hn [Hl Hu]]. unfold idestart. set (x := i_buf s b) in *. run. fold x.
  rewrite run_panic_if by (apply Z.leb_gt; lia). change (Z.of_nat BSIZE / SECTOR_SIZE) with 1. rewrite Z.mul_1_r.
  change (1 =? 1) with true. change (7 <? 1) with false. cbn iota. rewrite run_panic_if by done.
  destruct (idewait_run fuel false s Hb) as (h & G1 & G2 & G3 & _). rewrite (bind_run _ _ _ _ _ G1).
  destruct (lba_bytes (b_blockno x) Hn) as (-> & -> & -> & ->). rewrite Z.lor_0_r.
  set (n := b_blockno x) in *. set (v6 := Z.lor 0xe0 (Z.shiftl (Z.land (b_dev x) 1) 4)).
  assert (v6 = 0xe0 + 16 * b_dev x) as Hv6 by (unfold v6; by destruct Hd as [-> | ->]).
  unfold FSSIZE in Hn.
  do 6 (rewrite outb_run by (unfold is_u16, is_u8; (lia || (rewrite Hv6; destruct Hd as [-> | ->]; lia) || zmod))).
  cbn [i_hw set_hw]. rewrite !set_hw_hw.
  destruct (ata_control h G3) as [C1 B1]. set (h1 := hw_outb 0x3f6 0 h) in *.
  destruct (ata_register 0x1f2 1 h1 ltac:(set_solver) B1) as [C2 B2]. set (h2 := hw_outb 0x1f2 1 h1) in *.
  destruct (ata_register 0x1f3 (n mod 256) h2 ltac:(set_solver) B2) as [C3 B3]. set (h3 := hw_outb 0x1f3 _ h2) in *.
  destruct (ata_register 0x1f4 (n / 256) h3 ltac:(set_solver) B3) as [C4 B4]. set (h4 := hw_outb 0x1f4 _ h3) in *.
  destruct (ata_register 0x1f5 0 h4 ltac:(set_solver) B4) as [C5 B5]. set (h5 := hw_outb 0x1f5 _ h4) in *.
  destruct (ata_register 0x1f6 v6 h5 ltac:(set_solver) B5) as [C6 B6]. set (h6 := hw_outb 0x1f6 _ h5) in *.
  assert (a_sector (ata_of h6) = req_sector x ∧ a_reg (ata_of h6) 0x1f2 = 1 ∧ a_disk (ata_of h6) = a_disk (ata_st s) ∧
    a_hist (ata_of h6) = a_hist (ata_st s)) as (Hsec & Hcnt & Hdisk & Hhist).
  { rewrite C6, C5, C4, C3, C2, C1, G2. unfold a_sector, a_set_reg, req_sector. cbn [a_reg a_disk a_hist].
    split_and!; try done. unfold fupd. repeat (case_decide; [try done; try lia|]; try done).
    rewrite Hv6. fold n. destruct Hd as [-> | ->]; f_equal; try done; zmod. }
  unfold issued. destruct (has_flag x B_DIRTY).
  - rewrite outb_run by done. cbn [i_hw set_hw]. destruct (ata_write h6 B6 Hcnt) as [Hw Hpr]. rewrite Hsec in Hw.
    destruct (outsl_any 128 [] (b_data x) (hw_outb 0x1f7 0x30 h6) (req_sector x)) as (h' & O1 & O2);
      [by rewrite Hw|done|by rewrite Hl|done|].
    exists h'. split; [by rewrite (ide_hw_run _ (set_hw (hw_outb 0x1f7 0x30 h6) _) _ _ O1)|]. split.
    + intros m Hm. rewrite O2 by done. by rewrite Hw, <-Hdisk.
    + intros Hq%Hpr Hfl. destruct (outsl_run 128 [] (b_data x) (hw_outb 0x1f7 0x30 h6) (req_sector x)) as (h2' & O3 & O4);
        [by rewrite Hw|done..|]. rewrite O1 in O3. injection O3 as <-. unfold sent in O4. rewrite Hfl in O4.
      rewrite O4, Hw. cbn. by rewrite fupd_eq, Hhist.
  - exists (hw_outb 0x1f7 0x20 h6). split; [done|]. rewrite (ata_read h6 B6 Hcnt), Hsec. cbn. by rewrite Hdisk, Hhist.
Qed.

(** *** The queue *)

(** Following qnext from [q] gives the buffers [l]. *)
Fixpoint linked (qn : nat → option nat) (q : option nat) (l : list nat) : Prop :=
  match l with [] => q = None | b :: l => q = Some b ∧ linked qn (qn b) l end.

Definition link s (pp : option nat) : option nat := match pp with None => idequeue s | Some c => i_qnext s c end.
Definition set_link (pp v : option nat) s : idest H :=
  match pp with None => set_queue v s | Some c => set_qnext c v s end.
Definition last_link (pp : option nat) (l : list nat) : option nat := foldl (λ _ c, Some c) pp l.

Lemma ide_append_run l b s : ∀ pp fuel, linked (i_qnext s) (link s pp) l → (length l < fuel)%nat →
  ide_append fuel pp b s = Ok tt (set_link (last_link pp l) (Some b) s).
Proof.
  induction l as [|c l IH]; intros pp [|fuel] Hl Hf; simpl in Hf; try lia; cbn [ide_append]; run; fold (link s pp).
  - simpl in Hl. rewrite Hl. by destruct pp.
  - destruct Hl as [-> Hl]. apply (IH (Some c)); [done|lia].
Qed.

Lemma queue_ext qn qn' l : ∀ q, (∀ c, c ∈ l → qn' c = qn c) → linked qn q l → linked qn' q l.
Proof.
  induction l as [|c l IH]; intros q He Hl; [done|]. destruct Hl as [-> Hl]. split; [done|].
  rewrite He by set_solver. apply IH; [|done]. set_solver.
Qed.

Lemma linked_snoc b l s : linked (i_qnext s) (idequeue s) l → NoDup (l ++ [b]) → i_qnext s b = None →
  let s' := set_link (last_link None l) (Some b) s in linked (i_qnext s') (idequeue s') (l ++ [b]).
Proof.
  intros Hl Hn Hb. destruct l as [|c l _] using rev_ind; [by simpl|].
  unfold last_link. rewrite foldl_app. cbn [foldl set_link set_qnext i_qnext idequeue].
  apply NoDup_app in Hn as (Hn & Hd & _). apply NoDup_app in Hn as (_ & Hc & _).
  assert (c ≠ b) as Hcb by set_solver. revert Hl Hc. generalize (idequeue s). clear Hd.
  induction l as [|d l IH]; intros q Hl Hc.
  - destruct Hl as [-> Hl]. simpl. rewrite fupd_eq, (fupd_ne _ _ _ _ (not_eq_sym Hcb)). done.
  - destruct Hl as [-> Hl]. cbn [app linked]. split; [done|]. rewrite fupd_ne by set_solver. apply IH; [done|set_solver].
Qed.

(** *** The invariant *)

(** The head of the queue is what the controller works on. *)
Definition started x h : Prop :=
  if has_flag x B_DIRTY
  then ata_prompt = true → ata_failed h = false → a_disk (ata_of h) (req_sector x) = b_data x
  else a_phase (ata_of h) = AIn (a_disk (ata_of h) (req_sector x)).
Record ide_inv s (l : list nat) : Prop := {
  iv_link : linked (i_qnext s) (idequeue s) l;
  iv_nodup : NoDup l;
  iv_ok : ∀ b, b ∈ l → req_ok (i_buf s b);
  iv_head : match l with [] => True | b :: _ => started (i_buf s b) (i_hw s) end
}.

Lemma issued_started x a h : issued x a h → started x h.
Proof.
  unfold issued, started. destruct (has_flag x B_DIRTY).
  - intros [_ Hw] Hp Hf. by apply Hw.
  - intros (-> & _ & ->). done.
Qed.

(** The buffer after its request. *)
Definition completed s b : buf :=
  let x := i_buf s b in
  set_flags B_VALID (if has_flag x B_DIRTY || ata_failed (i_hw s) then x
                     else set_data (a_disk (ata_st s) (req_sector x)) x).

Lemma iderw_run fuel b l s : ide_inv s l → b ∉ l → req_ok (i_buf s b) →
  b_dev (i_buf s b) = 0 ∨ havedisk1 s = true → (length l < fuel)%nat → (ata_busy (i_hw s) < fuel)%nat →
  ∃ s', iderw fuel b s = Blocked s' ∧ ide_inv s' (l ++ [b]) ∧ i_buf s' = i_buf s ∧ i_wakes s' = i_wakes s ∧
    havedisk1 s' = havedisk1 s ∧
    match l with [] => issued (i_buf s b) (ata_st s) (i_hw s') | _ => i_hw s' = i_hw s end.
Proof.
  intros [Hl Hn Ho Hh] Hb Hr Hd Hf Hbusy. unfold iderw, iderw_submit. run.
  rewrite (rq_locked _ Hr), (land_flags _ Hr). rewrite run_panic_if by done. run. rewrite run_panic_if by done.
  run. rewrite run_panic_if.
  2: { destruct Hd as [-> | ->]; [done|]. by rewrite andb_false_r. }
  run. set (s1 := set_qnext b None s).
  assert (linked (i_qnext s1) (idequeue s1) l) as Hl1.
  { apply (queue_ext (i_qnext s)); [|done]. intros c Hc. cbn. rewrite fupd_ne; [done|]. by intros ->. }
  rewrite (bind_run _ _ _ _ _ (ide_append_run l b s1 None fuel Hl1 Hf)).
  assert (NoDup (l ++ [b])) as Hnd.
  { apply NoDup_app. split_and!; [done| |apply NoDup_singleton]. intros x Hx ->%list_elem_of_singleton. done. }
  pose proof (linked_snoc b l s1 Hl1 Hnd ltac:(cbn; apply fupd_eq)) as Hl2. cbn zeta in Hl2.
  set (s2 := set_link (last_link None l) (Some b) s1) in *.
  assert (i_buf s2 = i_buf s ∧ i_hw s2 = i_hw s ∧ i_wakes s2 = i_wakes s ∧ havedisk1 s2 = havedisk1 s) as (E1 & E2 & E3 & E4).
  { unfold s2. by destruct (last_link None l). }
  assert (∀ s', i_buf s' = i_buf s → iderw_wait b s' = Blocked s') as Hwait.
  { intros s' E. unfold iderw_wait. run. by rewrite E, (land_flags _ Hr). }
  assert (∀ c, c ∈ l ++ [b] → req_ok (i_buf s c)) as Hok.
  { intros c [Hc|Hc%list_elem_of_singleton]%elem_of_app; [by apply Ho|by subst]. }
  run. destruct l as [|c l].
  - destruct Hl2 as [-> Hl2]. rewrite decide_True by done.
    destruct (idestart_run fuel b s2 ltac:(by rewrite E1) ltac:(by rewrite E2)) as (h & G1 & G2).
    rewrite (bind_run _ _ _ _ _ G1), Hwait by done. exists (set_hw h s2). rewrite E1 in G2. unfold ata_st in *. rewrite E2 in G2.
    split_and!; try done. split; cbn [app i_buf i_qnext idequeue set_hw]; rewrite ?E1; try done.
    by eapply issued_started.
  - pose proof Hl2 as [-> _]. rewrite decide_False by set_solver. run. rewrite Hwait by done. exists s2.
    split_and!; try done. split; try done; rewrite ?E1; [done|]. by rewrite E2.
Qed.

Lemma flags_done f : f ∈ [0; 4; 6] → Z.land (Z.lor f B_VALID) (Z.lnot B_DIRTY) = B_VALID.
Proof. intros Hf. repeat (apply elem_of_cons in Hf as [->|Hf]; [done|]). by apply elem_of_nil in Hf. Qed.

(** Everything but the machine and one buffer. *)
Definition same_queue b s s' : Prop :=
  i_qnext s' = i_qnext s ∧ idequeue s' = idequeue s ∧ havedisk1 s' = havedisk1 s ∧ i_wakes s' = i_wakes s ∧
  ∀ c, c ≠ b → i_buf s' c = i_buf s c.

(** The part of ideintr that fills the buffer. *)
Lemma fill_run fuel b s : req_ok (i_buf s b) → started (i_buf s b) (i_hw s) → (ata_busy (i_hw s) < fuel)%nat →
  ∃ s', (if negb (has_flag (i_buf s b) B_DIRTY) then
       r ← idewait fuel true;
       if 0 <=? r then d ← hw (insl 0x1f0 (BSIZE / 4)); modify (upd_buf b (set_data d)) else mret tt
     else mret tt) s = Ok tt s' ∧ same_queue b s s' ∧
    set_flags B_VALID (i_buf s' b) = completed s b ∧ b_flags (i_buf s' b) = b_flags (i_buf s b) ∧
    a_disk (ata_st s') = a_disk (ata_st s) ∧ a_hist (ata_st s') = a_hist (ata_st s) ∧ (ata_busy (i_hw s') < fuel)%nat.
Proof.
  intros Hr Hs Hb. unfold completed. unfold started in Hs. destruct (has_flag (i_buf s b) B_DIRTY); cbn [negb orb].
  - exists s. done.
  - destruct (idewait_run fuel true s Hb) as (h & G1 & G2 & G3 & G4). rewrite (bind_run _ _ _ _ _ G1). cbn [andb].
    destruct (ata_failed (i_hw s)) eqn:Ef; cbn [orb].
    + exists (set_hw h s). unfold ata_st in *. cbn. rewrite G2. split_and!; (done || lia).
    + change (0 <=? 0) with true. cbn iota. destruct (ata_sectors (i_hw s) (req_sector (i_buf s b))) as [Hl Hu].
      destruct (insl_run 128 _ h G3 G4 ltac:(rewrite G2; exact Hs) Hl Hu) as (h' & I1 & I2 & I3).
      rewrite (bind_run _ _ _ _ _ (ide_hw_run (insl 0x1f0 (BSIZE / 4)) (set_hw h s) _ h' I1)). eexists. split; [done|].
      rewrite set_hw_hw. unfold ata_st, same_queue in *. cbn. rewrite fupd_eq, I3, G2, I2. split_and!; try done; [|lia].
      intros c Hc. cbn. by rewrite fupd_ne.
Qed.

(** One interrupt with a request at work. *)
Lemma ideintr_run fuel b l s : ide_inv s (b :: l) → (ata_busy (i_hw s) < fuel)%nat →
  ∃ s', ideintr fuel s = Ok tt s' ∧ ide_inv s' l ∧ i_wakes s' = i_wakes s ++ [b] ∧ havedisk1 s' = havedisk1 s ∧
    i_buf s' b = completed s b ∧ (∀ c, c ≠ b → i_buf s' c = i_buf s c) ∧
    match l with
    | [] => a_disk (ata_st s') = a_disk (ata_st s) ∧ a_hist (ata_st s') = a_hist (ata_st s)
    | c :: _ => issued (i_buf s c) (ata_st s) (i_hw s')
    end.
Proof.
  intros [[Hq Hl] Hn Ho Hh] Hb. unfold ideintr. run. rewrite Hq. run.
  set (s0 := set_queue (i_qnext s b) s). apply NoDup_cons in Hn as [Hbl Hn].
  assert (req_ok (i_buf s b)) as Hr by (apply Ho; repeat constructor).
  destruct (fill_run fuel b s0 Hr Hh Hb) as (s1 & F1 & (S1 & S2 & S3 & S4 & S5) & F2 & F3 & F4 & F5 & F6).
  change (i_buf s0 b) with (i_buf s b) in F1. rewrite (bind_run _ _ _ _ _ F1). unfold wakeup. run.
  change (completed s0 b) with (completed s b) in F2. change (i_buf s0) with (i_buf s) in *.
  match goal with |- context [match idequeue ?st with _ => _ end] => set (s2 := st) end.
  assert (i_buf s2 b = completed s b) as Hb2.
  { unfold s2. cbn. rewrite !fupd_eq. cbn. rewrite F3, (flags_done _ (rq_flags _ Hr)), <-F2. by destruct (i_buf s1 b). }
  assert (∀ c, c ≠ b → i_buf s2 c = i_buf s c) as Hc2.
  { intros c Hc. unfold s2. cbn. rewrite !fupd_ne by done. by apply S5. }
  assert (idequeue s2 = i_qnext s b ∧ i_qnext s2 = i_qnext s ∧ i_wakes s2 = i_wakes s ++ [b] ∧ havedisk1 s2 = havedisk1 s ∧
    i_hw s2 = i_hw s1) as (Q1 & Q2 & Q3 & Q4 & Q5).
  { unfold s2. cbn. by rewrite S1, S2, S3, S4. }
  assert (∀ c, c ∈ l → i_buf s2 c = i_buf s c) as Hcl by (intros c Hc; apply Hc2; by intros ->).
  rewrite Q1. destruct l as [|c l].
  - cbn in Hl. rewrite Hl. exists s2. unfold ata_st in *. rewrite Q5. split_and!; try done.
    split; try done; [by rewrite Q1|intros ? []%elem_of_nil].
  - destruct Hl as [Hl Hl']. rewrite Hl. assert (req_ok (i_buf s c)) as Hrc by (apply Ho; repeat constructor).
    destruct (idestart_run fuel c s2 ltac:(rewrite Hcl; [done|constructor]) ltac:(by rewrite Q5)) as (h & G1 & G2).
    rewrite G1. exists (set_hw h s2). rewrite Hcl in G2 by constructor. unfold ata_st in *. rewrite Q5 in G2.
    assert (issued (i_buf s c) (ata_of (i_hw s)) h) as G3.
    { unfold issued in *. by rewrite F4, F5 in G2. }
    split_and!; try done. split; try done.
    + change (linked (i_qnext s2) (idequeue s2) (c :: l)). by rewrite Q1, Q2.
    + intros d Hd. change (i_buf (set_hw h s2)) with (i_buf s2). rewrite Hcl by done. apply Ho. by constructor.
    + change (i_buf (set_hw h s2)) with (i_buf s2). rewrite Hcl by constructor. by eapply issued_started.
Qed.

(** ** What the driver promises *)

(** What can happen: a thread that holds a buffer calls iderw; the interrupt comes;
    the controller gets on with its work; a buffer that is not queued is changed by
    its owner. The label is the buffer that iderw puts into the queue. *)
Definition queued s b : Prop := ∃ l, linked (i_qnext s) (idequeue s) l ∧ b ∈ l.
Definition set_buf b x s : idest H := upd_buf b (λ _, x) s.
Inductive ide_step (fuel : nat) : idest H → list nat → idest H → Prop :=
| step_iderw b s s' : ¬ queued s b → req_ok (i_buf s b) → b_dev (i_buf s b) = 0 ∨ havedisk1 s = true →
    iderw fuel b s = Blocked s' → ide_step fuel s [b] s'
| step_ideintr s s' : ideintr fuel s = Ok tt s' → ide_step fuel s [] s'
| step_controller h s : ata_of h = ata_st s → ata_failed h = ata_failed (i_hw s) → ide_step fuel s [] (set_hw h s)
| step_owner b x s : ¬ queued s b → ide_step fuel s [] (set_buf b x s).
Inductive ide_steps (fuel : nat) : idest H → list nat → idest H → Prop :=
| steps_nil s : ide_steps fuel s [] s
| steps_cons s1 l1 s2 l2 s3 : ide_step fuel s1 l1 s2 → ide_steps fuel s2 l2 s3 → ide_steps fuel s1 (l1 ++ l2) s3.

Lemma not_queued s l b : ide_inv s l → ¬ queued s b → b ∉ l.
Proof. intros [Hl _ _ _] Hq Hb. apply Hq. by exists l. Qed.

Lemma ide_step_inv fuel s l e s' : (∀ h, (ata_busy h < fuel)%nat) → (length l < fuel)%nat → ide_inv s l →
  ide_step fuel s e s' →
  ∃ l', ide_inv s' l' ∧ i_wakes s ++ l ++ e = i_wakes s' ++ l' ∧ (length l' <= length l + length e)%nat.
Proof.
  intros Hb Hf Hi Hs. inversion Hs as [b s0 s1 Hq Hr Hd E|s0 s1 E|h s0 E E'|b x s0 Hq]; subst.
  - destruct (iderw_run fuel b l s Hi (not_queued _ _ _ Hi Hq) Hr Hd Hf (Hb _)) as (s2 & G1 & G2 & _ & G3 & _).
    rewrite G1 in E. injection E as <-. exists (l ++ [b]). by rewrite G3, length_app.
  - destruct l as [|b l].
    + unfold ideintr in E. destruct Hi as [Hq ? ? ?]. simpl in Hq. rewrite run_gets, Hq in E.
      injection E as <-. by exists [].
    + destruct (ideintr_run fuel b l s Hi (Hb _)) as (s2 & G1 & G2 & G3 & _). rewrite G1 in E. injection E as <-.
      exists l. rewrite G3, !app_nil_r, <-app_assoc. simpl. split_and!; (done || lia).
  - exists l. rewrite app_nil_r. split_and!; [|done|lia]. destruct Hi as [? ? ? Hh]. split; try done.
    destruct l; [done|]. unfold started in *. cbn. unfold ata_st in E. by rewrite E, E'.
  - exists l. rewrite app_nil_r. pose proof (not_queued _ _ _ Hi Hq) as Hbl. split_and!; [|done|lia].
    assert (∀ c, c ∈ l → i_buf (set_buf b x s) c = i_buf s c) as Hc.
    { intros c Hc. cbn. rewrite fupd_ne; [done|]. by intros ->. }
    destruct Hi as [? ? Ho Hh]. split; try done.
    + intros c Hcl. rewrite Hc by done. by apply Ho.
    + destruct l as [|c l]; [done|]. rewrite Hc by constructor. done.
Qed.

(** Requests are served in order: whatever sequence of iderw calls, interrupts and
    controller activity happens, the queue is a list of distinct buffers that still
    need service, its head is the request the controller has been given, and the
    buffers for which threads were woken, followed by the queue, are exactly the
    buffers that were queued, in the order of the calls. An interrupt never fails
    and never waits for ever. *)
Theorem ide_in_order fuel s l e s' :
  (∀ h, (ata_busy h < fuel)%nat) → ide_inv s l → (length l + length e < fuel)%nat → ide_steps fuel s e s' →
  (∃ l', ide_inv s' l' ∧ i_wakes s ++ l ++ e = i_wakes s' ++ l') ∧ ∃ s'', ideintr fuel s' = Ok tt s''.
Proof.
  intros Hb Hi Hf Hs.
  assert (∃ l', ide_inv s' l' ∧ i_wakes s ++ l ++ e = i_wakes s' ++ l') as (l' & Hi' & Hw).
  { revert l Hi Hf. induction Hs as [s|s1 l1 s2 l2 s3 H1 H2 IH]; intros l Hi Hf.
    - exists l. by rewrite app_nil_r.
    - rewrite length_app in Hf. destruct (ide_step_inv fuel s1 l l1 s2 Hb ltac:(lia) Hi H1) as (l' & Hi' & Hw & Hlen).
      destruct (IH l' Hi' ltac:(lia)) as (l3 & Hi3 & Hw3). exists l3. split; [done|].
      by rewrite <-Hw3, !app_assoc, <-Hw, !app_assoc. }
  split; [by exists l'|]. destruct l' as [|b l'].
  - exists s'. unfold ideintr. destruct Hi' as [Hq _ _ _]. simpl in Hq. by rewrite run_gets, Hq.
  - destruct (ideintr_run fuel b l' s' Hi' (Hb _)) as (s2 & G1 & _). by exists s2.
Qed.

(** C20. What the buffer cache gets from the driver. With an idle disk, a call of
    iderw sleeps, the interrupt wakes exactly that thread, and the call then returns,
    with the buffer marked valid and clean. No other buffer and no other sector
    changes. If the request was a write, the controller asks for the data as soon as
    it has the command, and it reports no failure, then the sector holds the
    buffer's bytes, written once; if it was a read, then without a failure the buffer
    holds the bytes of its sector. If the controller reports a failure the buffer is
    valid and clean all the same: after a read with the bytes it held before the call,
    after a write whatever the sector holds. *)
Theorem ide_driver_contract fuel b s :
  (∀ h, (ata_busy h < fuel)%nat) → ide_inv s [] → req_ok (i_buf s b) →
  b_dev (i_buf s b) = 0 ∨ havedisk1 s = true →
  let x := i_buf s b in
  ∃ s1 s2, iderw fuel b s = Blocked s1 ∧ ideintr fuel s1 = Ok tt s2 ∧ iderw_wait b s2 = Ok tt s2 ∧
    i_wakes s2 = i_wakes s ++ [b] ∧ ide_inv s2 [] ∧ (∀ c, c ≠ b → i_buf s2 c = i_buf s c) ∧
    (∀ n, n ≠ req_sector x → a_disk (ata_st s2) n = a_disk (ata_st s) n) ∧
    if has_flag x B_DIRTY
    then i_buf s2 b = set_flags B_VALID x ∧
         (ata_prompt = true → ata_failed (i_hw s1) = false →
          a_disk (ata_st s2) (req_sector x) = b_data x ∧
          a_hist (ata_st s2) = a_hist (ata_st s) ++ [(req_sector x, b_data x)])
    else a_disk (ata_st s2) = a_disk (ata_st s) ∧ a_hist (ata_st s2) = a_hist (ata_st s) ∧
         i_buf s2 b = set_flags B_VALID (if ata_failed (i_hw s1) then x else set_data (a_disk (ata_st s) (req_sector x)) x).
Proof.
  intros Hb Hi Hr Hd x.
  destruct (iderw_run fuel b [] s Hi ltac:(apply not_elem_of_nil) Hr Hd ltac:(specialize (Hb (i_hw s)); simpl; lia) (Hb _))
    as (s1 & G1 & G2 & G3 & G4 & G5 & G6).
  destruct (ideintr_run fuel b [] s1 G2 (Hb _)) as (s2 & K1 & K2 & K3 & K4 & K5 & K6 & K7 & K8).
  exists s1, s2. split; [done|]. split; [done|]. split.
  { unfold iderw_wait. rewrite run_gets, K5. done. }
  rewrite K3, G4. split; [done|]. split; [done|]. split; [by intros c Hc; rewrite K6, G3|].
  unfold completed in K5. rewrite G3 in K5. rewrite K7, K8, K5. fold x. fold x in G6. unfold issued in G6.
  change (ata_of (i_hw s1)) with (ata_st s1) in G6. destruct (has_flag x B_DIRTY); cbn [orb].
  - destruct G6 as [G6 G7]. done.
  - destruct G6 as (-> & -> & _). done.
Qed.
End spec.

(** ** A controller

    A read, and a write once it has the data, keep it busy for two readings of the
    status; it asks for the data of a write at once. Sector 13 of disk 1 is bad. *)
Record ata_bytes (a : ata) : Prop := {
  ab_disk : ∀ n, length (a_disk a n) = BSIZE ∧ Forall is_u8 (a_disk a n);
  ab_phase : match a_phase a with AOut _ l => Forall is_u8 l | _ => True end
}.
Record ctl := Ctl { ct : ata; ct_busy : nat; ct_err : bool; ct_ok : ata_bytes ct }.

Definition bad (sect : Z * Z) : bool := bool_decide (sect = (1, 13)).
Definition ctl_drq (h : ctl) : bool :=
  match a_phase (ct h), ct_busy h with AOut _ _, O => true | _, _ => false end.
Definition ctl_command (v : Z) (a : ata) : ata :=
  if v =? 0x20 then a_set_phase (AIn (a_disk a (a_sector a))) a
  else if v =? 0x30 then a_set_phase (AOut (a_sector a) []) a else a.
Definition ctl_word (v : Z) (a : ata) : ata :=
  match a_phase a with
  | AOut sect l =>
      let l' := l ++ le_bytes 4 v in
      if (length l' =? BSIZE)%nat then if bad sect then a_spoil sect (a_disk a sect) a else a_store sect l' a
      else a_set_phase (AOut sect l') a
  | _ => a
  end.
Definition ctl_taken (a : ata) : ata :=
  match a_phase a with AIn l => a_set_phase (AIn (drop 4 l)) a | _ => a end.

Lemma ctl_reg_ok p v a : ata_bytes a → ata_bytes (a_set_reg p v a).
Proof. by intros []. Qed.
Lemma ctl_command_ok v a : ata_bytes a → ata_bytes (ctl_command v a).
Proof. intros [Hd Hp]. unfold ctl_command. destruct (v =? 0x20); [by split|]. destruct (v =? 0x30); [split; [done|constructor]|by split]. Qed.
Lemma ctl_word_ok v a : ata_bytes a → ata_bytes (ctl_word v a).
Proof.
  intros [Hd Hp]. unfold ctl_word. destruct (a_phase a) as [|l|sect l] eqn:Ep; [by split; rewrite ?Ep..|].
  assert (Forall is_u8 (l ++ le_bytes 4 v)) as Hl by (apply Forall_app; split; [done|apply le_bytes_is_u8]).
  cbn zeta. destruct (Nat.eqb_spec (length (l ++ le_bytes 4 v)) BSIZE) as [E|E]; [|split; [exact Hd|done]].
  destruct (bad sect); (split; [|done]); intros n; cbn; unfold fupd; case_decide; done || apply Hd.
Qed.
Lemma ctl_taken_ok a : ata_bytes a → ata_bytes (ctl_taken a).
Proof. intros [Hd Hp]. unfold ctl_taken. destruct (a_phase a) eqn:E; split; rewrite ?E; done. Qed.

#[local] Instance ctl_machine : Machine ctl := {
  hw_inb := λ p h,
    if p =? 0x1f7 then
      match Nat.min (ct_busy h) 2 with
      | O => (if ct_err h then 0x41 else 0x40, Ctl (ct h) 0 (ct_err h) (ct_ok h))
      | S n => (0x80, Ctl (ct h) n (ct_err h) (ct_ok h))
      end
    else (0, h);
  hw_outb := λ p v h,
    if p =? 0x1f7 then
      Ctl (ctl_command v (ct h)) (if v =? 0x20 then 2 else 0) ((v =? 0x20) && bad (a_sector (ct h)))
        (ctl_command_ok v _ (ct_ok h))
    else if p =? 0x3f6 then h else Ctl (a_set_reg p v (ct h)) (ct_busy h) (ct_err h) (ctl_reg_ok p v _ (ct_ok h));
  hw_inl := λ p h,
    (match a_phase (ct h) with AIn l => le_val (take 4 l) | _ => 0 end,
     Ctl (ctl_taken (ct h)) (ct_busy h) (ct_err h) (ctl_taken_ok _ (ct_ok h)));
  hw_outl := λ p v h,
    if ctl_drq h then
      let a := ctl_word v (ct h) in
      Ctl a (match a_phase a with AIdle => 2 | _ => 0 end)
        (match a_phase (ct h), a_phase a with AOut sect _, AIdle => bad sect | _, _ => ct_err h end)
        (ctl_word_ok v _ (ct_ok h))
    else h;
  hw_read := λ _ h, (0, h); hw_write := λ _ _ h, h
}.
#[local] Instance ctl_ata : Ata ctl.
Proof.
  refine {| ata_of := ct; ata_busy := λ h, Nat.min (ct_busy h) 2; ata_failed := ct_err; ata_drq := ctl_drq;
            ata_prompt := true |}.
  - intros h v h' E. cbn in E. destruct (Nat.min (ct_busy h) 2) as [|n] eqn:Eb; injection E as <- <-; cbn.
    + by destruct (ct_err h).
    + split_and!; (done || lia).
  - intros p v h Hp Hb. cbn. unfold a_set_reg. repeat (apply elem_of_cons in Hp as [->|Hp]; [by split|]). by apply elem_of_nil in Hp.
  - done.
  - done.
  - done.
  - intros h. unfold ctl_drq. destruct (a_phase (ct h)); [done..|]. by destruct (ct_busy h).
  - intros h l v h' Hb Hf Hp Hl E. cbn in E. rewrite Hp in E. injection E as <- <-. cbn. unfold ctl_taken. by rewrite Hp.
  - intros [[reg ph dk hist] busy err ok] sect l v Hp _. cbn in Hp. subst ph. cbn [hw_outl ctl_machine].
    unfold ctl_drq. cbn [a_phase ct ct_busy ct_err]. destruct busy; cbn [negb]; [|done]. cbn [a_phase ct ct_busy ct_err].
    unfold ctl_word. cbn [a_phase a_disk].
    destruct (length (l ++ le_bytes 4 v) =? BSIZE)%nat; [|done]. destruct (bad sect); [by eexists|done].
  - intros h. apply (ct_ok h).
Defined.

Lemma ctl0_ok : ata_bytes (MkAta (λ _, 0) AIdle (λ _, zero_block) []).
Proof. split; [|done]. intros n. split; [done|]. apply Forall_replicate. done. Qed.
(** Buffer 7 is to be written to block 3 of disk 1; the others are to be read. *)
Definition ide_ex : idest ctl :=
  IdeSt (Ctl _ 0 false ctl0_ok)
    (λ b, Buf (if decide (b = 7%nat) then 6 else 0) 1 (if decide (b = 7%nat) then 3 else 4)
            (Sleeplock true 1) 1 0 0 (replicate BSIZE 9))
    (λ _, None) None true [].

Lemma ide_ex_ok : ide_inv ide_ex [] ∧ ∀ b, req_ok (i_buf ide_ex b).
Proof.
  split; [split; try done; [constructor|by intros b Hb%elem_of_nil]|]. intros b.
  split; cbn -[replicate]; try done; [case_decide; set_solver|by right|unfold FSSIZE; case_decide; lia|].
  split; [done|]. by apply Forall_replicate.
Qed.

Lemma ctl_latency h : (ata_busy (H:=ctl) h < 9)%nat.
Proof. change (Nat.min (ct_busy h) 2 < 9)%nat. lia. Qed.

Lemma ide_driver_contract_witness : ∃ s1 s2,
  iderw 9 7 ide_ex = Blocked s1 ∧ ideintr 9 s1 = Ok tt s2 ∧ iderw_wait 7 s2 = Ok tt s2 ∧
  a_disk (ata_st s2) (1, 3) = replicate BSIZE 9 ∧ b_flags (i_buf s2 7%nat) = B_VALID.
Proof.
  destruct (ide_driver_contract 9 7%nat ide_ex) as (s1 & s2 & H1 & H2 & H3 & _ & _ & _ & _ & H4 & H5).
  - apply ctl_latency.
  - apply ide_ex_ok.
  - apply ide_ex_ok.
  - by right.
  - assert (match iderw 9 7 ide_ex with Blocked s => ata_failed (i_hw s) | _ => true end = false) as Hf by (by vm_compute).
    rewrite H1 in Hf. destruct (H5 eq_refl Hf) as [H6 _].
    exists s1, s2. split; [exact H1|]. split; [exact H2|]. split; [exact H3|]. split; [exact H6|by rewrite H4].
Defined.

Ltac not_in := apply (bool_decide_unpack _); vm_compute; exact I.

(** Two requests, the interrupt, the next request. *)
Lemma ide_in_order_witness : ∃ s', ide_steps 9 ide_ex [7; 8; 5]%nat s' ∧ i_wakes s' = [7%nat] ∧ ide_inv s' [8; 5]%nat.
Proof.
  destruct ide_ex_ok as [Hi Hr].
  assert (∀ s l b, ide_inv s l → b ∉ l → ¬ queued s b) as Hnq.
  { intros s l b [Hl _ _ _] Hb (l' & Hl' & Hb'). destruct Hb. clear -Hl Hl' Hb'. revert Hl Hl'.
    generalize (idequeue s). revert l. induction l' as [|c l' IH]; intros l q Hl Hl'; [by apply elem_of_nil in Hb'|].
    destruct Hl' as [-> Hl']. destruct l as [|d l]; [done|]. destruct Hl as [[= ->] Hl].
    apply elem_of_cons in Hb' as [->|Hb']; [left|right; by eapply IH]. }
  destruct (iderw_run 9 7%nat [] ide_ex Hi ltac:(not_in) (Hr _) ltac:(by right) ltac:(simpl; lia) (ctl_latency _))
    as (s1 & E1 & I1 & B1 & W1 & D1 & _).
  destruct (iderw_run 9 8%nat [7]%nat s1 I1 ltac:(not_in) ltac:(by rewrite B1) ltac:(by right) ltac:(simpl; lia) (ctl_latency _))
    as (s2 & E2 & I2 & B2 & W2 & D2 & _).
  destruct (ideintr_run 9 7%nat [8]%nat s2 I2 (ctl_latency _)) as (s3 & E3 & I3 & W3 & D3 & B3 & C3 & _).
  assert (i_buf s3 5%nat = i_buf ide_ex 5%nat) as B5 by (rewrite C3 by done; by rewrite B2, B1).
  destruct (iderw_run 9 5%nat [8]%nat s3 I3 ltac:(not_in) ltac:(by rewrite B5) ltac:(right; by rewrite D3, D2, D1) ltac:(simpl; lia) (ctl_latency _))
    as (s4 & E4 & I4 & B4 & W4 & D4 & _).
  assert (ide_steps 9 ide_ex [7; 8; 5]%nat s4) as Hs.
  { apply (steps_cons _ _ [7%nat] s1 [8; 5]%nat).
    { apply step_iderw; [eapply Hnq; [done|not_in]|done|by right|done]. }
    apply (steps_cons _ _ [8%nat] s2 [5]%nat).
    { apply step_iderw; [eapply Hnq; [exact I1|not_in]|by rewrite B1|right; by rewrite D1|done]. }
    apply (steps_cons _ _ [] s3 [5]%nat); [by apply step_ideintr|].
    apply (steps_cons _ _ [5%nat] s4 []); [|apply steps_nil].
    apply step_iderw; [eapply Hnq; [exact I3|not_in]|by rewrite B5|right; by rewrite D3, D2, D1|done]. }
  destruct (ide_in_order 9 ide_ex [] [7; 8; 5]%nat s4 ctl_latency Hi ltac:(simpl; lia) Hs) as [(l' & I' & W') _].
  exists s4. split; [exact Hs|]. rewrite W4, W3, W2, W1 in *. split; [done|]. exact I4.
Defined.
