(* ===== verification/Sh.v ===== *)
(** * The shell's parser (sh.c)

    The parser walks through the command line with one pointer [sh_ps] and builds
    commands in memory: [sh_heap] holds the structures that malloc returned, and
    pointers to them are indices. A structure of an EXEC command is filled in after
    pointers to it exist. Pointers into the line are indices of [sh_buf]; the byte at
    its end is the terminating NUL, and the end is [es]. panic ends the process. *)

From S2P Require Import Prelude.

Definition MAXARGS : nat := 10.

(** struct execcmd, redircmd, pipecmd, listcmd, backcmd; None is a null pointer. *)
Inductive cnode :=
| NExec (argv eargv : list (option nat))
| NRedir (cmd : nat) (file efile : nat) (mode fd : Z)
| NPipe (left right : nat)
| NList (left right : nat)
| NBack (cmd : nat).

Record shst := ShSt { sh_ps : nat; sh_heap : list cnode; sh_buf : list Z }.

Definition set_ps p s : shst := ShSt p (sh_heap s) (sh_buf s).
Definition set_heap h s : shst := ShSt (sh_ps s) h (sh_buf s).
Definition set_shbuf b s : shst := ShSt (sh_ps s) (sh_heap s) b.

(** The byte at an index of the line. *)
Definition ch (buf : list Z) (p : nat) : Z := default 0 (buf !! p).
(** strchr(set, c) != 0; the NUL is in no set. *)
Definition in_set (l : list Z) (c : Z) : bool := existsb (Z.eqb c) l.

(** Space, tab, CR, LF, VT; and <|>&;() *)
Definition whitespace : list Z := [32; 9; 13; 10; 11].
Definition symbols : list Z := [60; 124; 62; 38; 59; 40; 41].

(** while(s < es) and [f] of the byte there, s++; [n] is es - s. *)
Fixpoint skip_while (n : nat) (f : Z → bool) (buf : list Z) (s : nat) : nat :=
  match n with
  | O => s
  | S n => if f (ch buf s) then skip_while n f buf (S s) else s
  end.

Section sh.
Variable es : nat.

Definition skip (f : Z → bool) (buf : list Z) (s : nat) : nat := skip_while (es - s) f buf s.

(** The token, and where it begins and ends; 97 is 'a', 43 is '+'. *)
Definition gettoken : M shst (Z * nat * nat) :=
  st ← gets id;
  let buf := sh_buf st in
  let s := skip (in_set whitespace) buf (sh_ps st) in
  let q := s in
  let c := ch buf s in
  let '(ret, s) :=
    if c =? 0 then (c, s)
    else if in_set [124; 40; 41; 59; 38; 60] c then (c, S s)
    else if c =? 62 then (if ch buf (S s) =? 62 then (43, S (S s)) else (c, S s))
    else (97, skip (λ c, negb (in_set whitespace c) && negb (in_set symbols c)) buf s) in
  let eq := s in
  let s := skip (in_set whitespace) buf s in
  modify (set_ps s);;
  mret (ret, q, eq).

Definition peek (toks : list Z) : M shst bool :=
  st ← gets id;
  let s := skip (in_set whitespace) (sh_buf st) (sh_ps st) in
  modify (set_ps s);;
  mret (negb (ch (sh_buf st) s =? 0) && in_set toks (ch (sh_buf st) s)).

(** malloc, and the assignments of a constructor. *)
Definition new_cmd (x : cnode) : M shst nat :=
  h ← gets sh_heap;
  modify (set_heap (h ++ [x]));;
  mret (length h).
Definition execcmd : M shst nat := new_cmd (NExec (replicate MAXARGS None) (replicate MAXARGS None)).
Definition redircmd (subcmd file efile : nat) (mode fd : Z) : M shst nat := new_cmd (NRedir subcmd file efile mode fd).
Definition pipecmd (left right : nat) : M shst nat := new_cmd (NPipe left right).
Definition listcmd (left right : nat) : M shst nat := new_cmd (NList left right).
Definition backcmd (subcmd : nat) : M shst nat := new_cmd (NBack subcmd).

(** cmd->argv[i] = q; cmd->eargv[i] = eq; *)
Definition set_arg (cmd i : nat) (q eq : option nat) : M shst unit := modify (λ s,
  set_heap (alter (λ x, match x with
                        | NExec a e => NExec (<[i := q]> a) (<[i := eq]> e)
                        | x => x
                        end) cmd (sh_heap s)) s).

(** fcntl.h *)
Definition O_RDONLY : Z := 0.
Definition O_WRONLY : Z := 1.
Definition O_CREATE : Z := 0x200.

Fixpoint parseredirs (fuel : nat) (cmd : nat) : M shst nat :=
  match fuel with
  | O => no_fuel
  | S fuel =>
      more ← peek [60; 62];
      if negb (more : bool) then mret cmd
      else
        '(tok, _, _) ← gettoken;
        '(t, q, eq) ← gettoken;
        panic_if (negb (t =? 97)) "missing file for redirection";;
        cmd ← (if tok =? 60 then redircmd cmd q eq O_RDONLY 0
               else if tok =? 62 then redircmd cmd q eq (Z.lor O_WRONLY O_CREATE) 1
               else if tok =? 43 then redircmd cmd q eq (Z.lor O_WRONLY O_CREATE) 1
               else mret cmd);
        parseredirs fuel cmd
  end.

(** The loop of parseexec: [cmd] is the structure, [ret] the command so far. The
    result is argc and the command. *)
Fixpoint args_loop (fuel : nat) (cmd ret argc : nat) : M shst (nat * nat) :=
  match fuel with
  | O => no_fuel
  | S fuel =>
      stop ← peek [124; 41; 38; 59];
      if stop : bool then mret (argc, ret)
      else
        '(tok, q, eq) ← gettoken;
        if tok =? 0 then mret (argc, ret)
        else
          panic_if (negb (tok =? 97)) "syntax";;
          set_arg cmd argc (Some q) (Some eq);;
          panic_if (MAXARGS <=? S argc)%nat "too many args";;
          ret ← parseredirs fuel ret;
          args_loop fuel cmd ret (S argc)
  end.

(** while(peek(ps, es, "&")) *)
Fixpoint back_loop (fuel : nat) (cmd : nat) : M shst nat :=
  match fuel with
  | O => no_fuel
  | S fuel =>
      more ← peek [38];
      if negb (more : bool) then mret cmd
      else _ ← gettoken; cmd ← backcmd cmd; back_loop fuel cmd
  end.

Fixpoint parseline (fuel : nat) : M shst nat :=
  match fuel with
  | O => no_fuel
  | S fuel =>
      cmd ← parsepipe fuel;
      cmd ← back_loop fuel cmd;
      more ← peek [59];
      if negb (more : bool) then mret cmd
      else _ ← gettoken; right ← parseline fuel; listcmd cmd right
  end
with parsepipe (fuel : nat) : M shst nat :=
  match fuel with
  | O => no_fuel
  | S fuel =>
      cmd ← parseexec fuel;
      more ← peek [124];
      if negb (more : bool) then mret cmd
      else _ ← gettoken; right ← parsepipe fuel; pipecmd cmd right
  end
with parseexec (fuel : nat) : M shst nat :=
  match fuel with
  | O => no_fuel
  | S fuel =>
      block ← peek [40];
      if block : bool then parseblock fuel
      else
        cmd ← execcmd;
        ret ← parseredirs fuel cmd;
        '(argc, ret) ← args_loop fuel cmd ret 0;
        set_arg cmd argc None None;;
        mret ret
  end
with parseblock (fuel : nat) : M shst nat :=
  match fuel with
  | O => no_fuel
  | S fuel =>
      here ← peek [40];
      panic_if (negb here) "parseblock";;
      _ ← gettoken;
      cmd ← parseline fuel;
      closed ← peek [41];
      panic_if (negb closed) "syntax - missing )";;
      _ ← gettoken;
      parseredirs fuel cmd
  end.

(** *p = 0 *)
Definition put_nul (p : nat) : M shst unit := modify (λ s, set_shbuf (<[p := 0]> (sh_buf s)) s).

(** for(i=0; ecmd->argv[i]; i++) *ecmd->eargv[i] = 0: over the rest of the arrays. *)
Fixpoint nul_args (argv eargv : list (option nat)) : M shst unit :=
  match argv, eargv with
  | Some _ :: argv, Some e :: eargv => put_nul e;; nul_args argv eargv
  | _, _ => mret tt
  end.

Fixpoint nulterminate (fuel : nat) (cmd : nat) : M shst unit :=
  match fuel with
  | O => no_fuel
  | S fuel =>
      h ← gets sh_heap;
      match h !! cmd with
      | None => mret tt
      | Some (NExec argv eargv) => nul_args argv eargv
      | Some (NRedir c _ e _ _) => nulterminate fuel c;; put_nul e
      | Some (NPipe l r) => nulterminate fuel l;; nulterminate fuel r
      | Some (NList l r) => nulterminate fuel l;; nulterminate fuel r
      | Some (NBack c) => nulterminate fuel c
      end
  end.

(** parsecmd, with es = s + strlen(s). *)
Definition parsecmd_es (fuel : nat) : M shst nat :=
  cmd ← parseline fuel;
  _ ← peek [];
  p ← gets sh_ps;
  panic_if (negb (p =? es)%nat) "syntax";;
  nulterminate fuel cmd;;
  mret cmd.
End sh.

Definition parsecmd (fuel : nat) (line : list Z) : outcome shst nat :=
  parsecmd_es (length line) fuel (ShSt 0 [] line).

(** ** Running a command

    A shell process is its table of descriptors and the number of its children that it
    has not waited for. fork copies the table, and the child starts without children.
    [rs_log] lists what the processes do: a program started with a table, and a call of
    wait with so many children left and with a table. The deeds of a child are listed
    where the child is forked; those of different processes are not ordered. [rs_pipes]
    counts the pipes made. Which files can be opened, and with what mode, is the file
    system's; fork succeeds here. *)

Inductive fdobj := FInit (n : nat) | FFile (file : nat) (mode : Z) | FPipeR (id : nat) | FPipeW (id : nat).
Definition fdtab : Type := list (option fdobj).
Inductive deed := Execs (argv : list (option nat)) (t : fdtab) | Waits (kids : nat) (t : fdtab).
Record runst := RunSt { rs_pipes : nat; rs_log : list deed }.
Record shproc := ShProc { p_fds : fdtab; p_kids : nat }.

Definition close (fd : nat) (t : fdtab) : fdtab := <[fd := None]> t.
(** The lowest free descriptor. *)
Fixpoint fd_alloc (x : fdobj) (t : fdtab) : option (nat * fdtab) :=
  match t with
  | [] => None
  | None :: t => Some (O, Some x :: t)
  | y :: t => match fd_alloc x t with Some (n, t) => Some (S n, y :: t) | None => None end
  end.
Definition dup (fd : nat) (t : fdtab) : fdtab :=
  match t !! fd with Some (Some x) => match fd_alloc x t with Some (_, t) => t | None => t end | _ => t end.
(** The two descriptors of a new pipe, or None for -1. *)
Definition pipe (id : nat) (t : fdtab) : option (nat * nat * fdtab) :=
  match fd_alloc (FPipeR id) t with
  | Some (p0, t) => match fd_alloc (FPipeW id) t with Some (p1, t) => Some (p0, p1, t) | None => None end
  | None => None
  end.

Definition on_fds (f : fdtab → fdtab) (p : shproc) : shproc := ShProc (f (p_fds p)) (p_kids p).
Definition log_deed (d : deed) : M runst unit := modify (λ s, RunSt (rs_pipes s) (rs_log s ++ [d])).
(** if(fork1() == 0) child(...): the parent goes on with one more child. *)
Definition fork1 (child : shproc → M runst unit) (p : shproc) : M runst shproc :=
  child (ShProc (p_fds p) 0);;
  mret (ShProc (p_fds p) (S (p_kids p))).
Definition wait_child (p : shproc) : M runst shproc :=
  log_deed (Waits (p_kids p) (p_fds p));;
  mret (ShProc (p_fds p) (pred (p_kids p))).

Section run.
Variable heap : list cnode.
Variable can_open : nat → Z → bool.

Fixpoint runcmd (fuel : nat) (cmd : nat) (p : shproc) : M runst unit :=
  match fuel with
  | O => no_fuel
  | S fuel =>
      match heap !! cmd with
      | None => panic "runcmd"
      | Some (NExec argv _) =>
          match argv !! O with
          | Some (Some _) => log_deed (Execs argv (p_fds p))
          | _ => mret tt
          end
      | Some (NRedir c file _ mode fd) =>
          let p := on_fds (close (Z.to_nat fd)) p in
          if can_open file mode
          then match fd_alloc (FFile file mode) (p_fds p) with
               | Some (_, t) => runcmd fuel c (ShProc t (p_kids p))
               | None => mret tt
               end
          else mret tt
      | Some (NList l r) =>
          p ← fork1 (runcmd fuel l) p;
          p ← wait_child p;
          runcmd fuel r p
      | Some (NPipe l r) =>
          id ← gets rs_pipes;
          match pipe id (p_fds p) with
          | None => panic "pipe"
          | Some (p0, p1, t) =>
              modify (λ s, RunSt (S (rs_pipes s)) (rs_log s));;
              p ← fork1 (λ q, runcmd fuel l (on_fds (λ t, close p1 (close p0 (dup p1 (close 1 t)))) q)) (ShProc t (p_kids p));
              p ← fork1 (λ q, runcmd fuel r (on_fds (λ t, close p1 (close p0 (dup p0 (close 0 t)))) q)) p;
              p ← wait_child (on_fds (λ t, close p1 (close p0 t)) p);
              _ ← wait_child p;
              mret tt
          end
      | Some (NBack c) =>
          _ ← fork1 (runcmd fuel c) p;
          mret tt
      end
  end.
End run.
