(* ===== verification/ShSpec.v ===== *)
(** * The shell's grammar, and the parser's correctness

    [lex] cuts a line into tokens in one pass. The grammar is given by syntax trees
    and the tokens they stand for; [repr_line] says that the structures in memory
    are a tree. The parser is shown to find the tree of every line that has one, and
    to stop with a syntax error on every other. *)

From S2P Require Import Prelude Sh.

(** ** Tokens *)

(** A word is given by where it begins and ends; [TSym 43] is >>. *)
Inductive tok := TWord (q e : nat) | TSym (c : Z).

Definition word_char (c : Z) : bool := negb (in_set whitespace c) && negb (in_set symbols c).
Definition close (w : option nat) (p : nat) (r : list tok) : list tok :=
  match w with Some q => TWord q p :: r | None => r end.

(** [w]: where the word begins that the last byte belongs to. *)
Fixpoint lex (w : option nat) (p : nat) (l : list Z) : list tok :=
  match l with
  | [] => close w p []
  | c :: l' =>
      if in_set whitespace c then close w p (lex None (S p) l')
      else if in_set symbols c then
        close w p
          match l' with
          | c2 :: l'' => if (c =? 62) && (c2 =? 62) then TSym 43 :: lex None (S (S p)) l'' else TSym c :: lex None (S p) l'
          | [] => [TSym c]
          end
      else lex (Some (default p w)) (S p) l'
  end.
Definition tokens (line : list Z) : list tok := lex None 0 line.

(** ** Syntax trees

    [n] in a line is the number of & after its pipeline; the arguments of a simple
    command have the redirections that follow them. *)
Inductive rkind := RIn | ROut | RApp.
Inductive redir := Redir (k : rkind) (q e : nat).
Inductive aline := LEnd (p : apipe) (n : nat) | LSeq (p : apipe) (n : nat) (rest : aline)
with apipe := POne (x : aexec) | PCons (x : aexec) (rest : apipe)
with aexec := Simple (rs : list redir) (args : list (nat * nat * list redir)) | Block (l : aline) (rs : list redir).

Scheme aline_mut := Induction for aline Sort Prop
  with apipe_mut := Induction for apipe Sort Prop
  with aexec_mut := Induction for aexec Sort Prop.
Combined Scheme syntax_ind from aline_mut, apipe_mut, aexec_mut.

(** The tokens < > >>, and what a redirection opens. *)
Definition rcode (k : rkind) : Z := match k with RIn => 60 | ROut => 62 | RApp => 43 end.
Definition rmode (k : rkind) : Z := match k with RIn => O_RDONLY | _ => Z.lor O_WRONLY O_CREATE end.
Definition rfd (k : rkind) : Z := match k with RIn => 0 | _ => 1 end.

Definition toks_redirs (rs : list redir) : list tok :=
  flat_map (λ r, let '(Redir k q e) := r in [TSym (rcode k); TWord q e]) rs.
Definition toks_args (args : list (nat * nat * list redir)) : list tok :=
  flat_map (λ a, let '(q, e, rs) := a in TWord q e :: toks_redirs rs) args.
Fixpoint toks_line (l : aline) : list tok :=
  match l with
  | LEnd p n => toks_pipe p ++ replicate n (TSym 38)
  | LSeq p n rest => toks_pipe p ++ replicate n (TSym 38) ++ TSym 59 :: toks_line rest
  end
with toks_pipe (p : apipe) : list tok :=
  match p with POne x => toks_exec x | PCons x rest => toks_exec x ++ TSym 124 :: toks_pipe rest end
with toks_exec (x : aexec) : list tok :=
  match x with
  | Simple rs args => toks_redirs rs ++ toks_args args
  | Block l rs => TSym 40 :: toks_line l ++ TSym 41 :: toks_redirs rs
  end.

(** No simple command has more than nine words. *)
Fixpoint fits_line (l : aline) : Prop :=
  match l with LEnd p _ => fits_pipe p | LSeq p _ rest => fits_pipe p ∧ fits_line rest end
with fits_pipe (p : apipe) : Prop :=
  match p with POne x => fits_exec x | PCons x rest => fits_exec x ∧ fits_pipe rest end
with fits_exec (x : aexec) : Prop :=
  match x with Simple _ args => (length args < MAXARGS)%nat | Block l _ => fits_line l end.

Section lexer.
Variable buf : list Z.
Hypothesis Hbuf : Forall (λ c, c ≠ 0) buf.
Abbreviation es := (length buf).
Definition lexfrom (p : nat) : list tok := lex None p (drop p buf).

Lemma drop_ch p : (p < es)%nat → drop p buf = ch buf p :: drop (S p) buf.
Proof. intros Hp. unfold ch. destruct (lookup_lt_is_Some_2 buf p Hp) as [c Hc]. rewrite Hc. by apply drop_S. Qed.
Lemma ch_nonzero p : (p < es)%nat → ch buf p ≠ 0.
Proof.
  intros Hp. unfold ch. destruct (lookup_lt_is_Some_2 buf p Hp) as [c Hc]. rewrite Hc. simpl.
  rewrite Forall_forall in Hbuf. apply Hbuf. by eapply list_elem_of_lookup_2.
Qed.
Lemma ch_end : ch buf es = 0.
Proof. unfold ch. by rewrite lookup_ge_None_2. Qed.
Lemma lexfrom_end : lexfrom es = [].
Proof. unfold lexfrom. by rewrite drop_all. Qed.
Lemma lexfrom_ws p : (p < es)%nat → in_set whitespace (ch buf p) = true → lexfrom p = lexfrom (S p).
Proof. intros Hp Hw. unfold lexfrom. rewrite drop_ch by done. cbn [lex]. by rewrite Hw. Qed.
Lemma lexfrom_word p : (p < es)%nat → word_char (ch buf p) = true → lexfrom p = lex (Some p) (S p) (drop (S p) buf).
Proof.
  intros Hp [Hw Hs]%andb_true_iff. apply negb_true_iff in Hw, Hs. unfold lexfrom. rewrite drop_ch by done. cbn [lex]. by rewrite Hw, Hs.
Qed.

Lemma skip_while_spec f n : ∀ p, (p + n = es)%nat → let e := skip_while n f buf p in
  (p <= e <= es)%nat ∧ (∀ i, (p <= i < e)%nat → f (ch buf i) = true) ∧ ((e < es)%nat → f (ch buf e) = false).
Proof.
  induction n as [|n IH]; intros p Hp; cbn [skip_while]; [split_and!; try lia; intros; lia|].
  destruct (f (ch buf p)) eqn:Ef; [|split_and!; try lia; done].
  destruct (IH (S p) ltac:(lia)) as (H1 & H2 & H3). split_and!; try lia; [|done].
  intros i Hi. destruct (decide (i = p)) as [->|]; [done|]. apply H2. lia.
Qed.
Lemma skip_spec f p : (p <= es)%nat → let e := skip es f buf p in
  (p <= e <= es)%nat ∧ (∀ i, (p <= i < e)%nat → f (ch buf i) = true) ∧ ((e < es)%nat → f (ch buf e) = false).
Proof. intros Hp. apply skip_while_spec. lia. Qed.

Lemma lex_skip_ws p : (p <= es)%nat → lexfrom (skip es (in_set whitespace) buf p) = lexfrom p.
Proof.
  unfold skip. intros Hp. assert (p + (es - p) = es)%nat as H0 by lia. revert H0. generalize (es - p)%nat. clear Hp.
  intros n. revert p. induction n as [|n IH]; intros p Hn; cbn [skip_while]; [done|].
  destruct (in_set whitespace (ch buf p)) eqn:E; [|done]. rewrite (lexfrom_ws p) by (done || lia). apply IH. lia.
Qed.

Lemma lex_word q p : (p <= es)%nat → let e := skip es word_char buf p in
  lex (Some q) p (drop p buf) = TWord q e :: lexfrom e.
Proof.
  unfold skip. intros Hp. assert (p + (es - p) = es)%nat as H0 by lia. revert H0. generalize (es - p)%nat. clear Hp.
  intros n. revert p. induction n as [|n IH]; intros p Hn; cbn [skip_while].
  - replace p with es by lia. rewrite lexfrom_end, drop_all. done.
  - destruct (word_char (ch buf p)) eqn:E.
    + cbn zeta. rewrite <-IH by lia. apply andb_true_iff in E as [Hw Hs]. apply negb_true_iff in Hw, Hs.
      rewrite (drop_ch p) by lia. cbn [lex]. by rewrite Hw, Hs.
    + unfold lexfrom. rewrite (drop_ch p) by lia. cbn [lex].
      destruct (in_set whitespace (ch buf p)) eqn:Hw; [done|].
      destruct (in_set symbols (ch buf p)) eqn:Hs; [done|]. unfold word_char in E. by rewrite Hw, Hs in E.
Qed.

(** What a word token says of the line. *)
Definition is_word (q e : nat) : Prop :=
  (q < e <= es)%nat ∧ (∀ i, (q <= i < e)%nat → word_char (ch buf i) = true) ∧ (e = es ∨ word_char (ch buf e) = false).

(** The first token from a place where there is no space. *)
Lemma lexfrom_sym p : (p < es)%nat → in_set symbols (ch buf p) = true →
  lexfrom p = if (ch buf p =? 62) && (ch buf (S p) =? 62) then TSym 43 :: lexfrom (S (S p)) else TSym (ch buf p) :: lexfrom (S p).
Proof.
  intros Hp Hs. unfold lexfrom. rewrite (drop_ch p) by done. cbn [lex].
  assert (in_set whitespace (ch buf p) = false) as ->.
  { assert (∀ x, in_set symbols x = true → in_set whitespace x = false) as H0; [|by apply H0].
    intros x. unfold in_set, symbols, whitespace. cbn [existsb]. lia. }
  rewrite Hs. cbn [close]. destruct (decide (S p < es)%nat) as [Hlt|Hge].
  - by rewrite (drop_ch (S p)) by done.
  - rewrite (drop_ge buf (S p)) by lia. assert (ch buf (S p) = 0) as -> by (unfold ch; by rewrite lookup_ge_None_2 by lia).
    change (0 =? 62) with false. by rewrite andb_false_r.
Qed.

Lemma lexfrom_first p : (p < es)%nat → word_char (ch buf p) = true →
  let e := skip es word_char buf p in lexfrom p = TWord p e :: lexfrom e ∧ is_word p e.
Proof.
  intros Hp Hw e. assert (e = skip es word_char buf (S p)) as He.
  { unfold e, skip. replace (es - p)%nat with (S (es - S p)) by lia. cbn [skip_while]. by rewrite Hw. }
  rewrite (lexfrom_word p) by done. rewrite lex_word by lia. rewrite <-He. split; [done|].
  destruct (skip_spec word_char p ltac:(lia)) as (H1 & H2 & H3). fold e in H1, H2, H3.
  assert (e ≠ p) as Hne by (intros Hep; rewrite Hep in H3; rewrite H3 in Hw; [done|lia]).
  split; [lia|]. split; [done|]. destruct (decide (e = es)); [by left|right; apply H3; lia].
Qed.

Lemma lex_ind (P : nat → Prop) :
  P es → (∀ p, (p < es)%nat → (∀ p', (p < p' <= es)%nat → P p') → P p) → ∀ p, (p <= es)%nat → P p.
Proof.
  intros H1 H2 p Hp. remember (es - p)%nat as n eqn:Hn. revert p Hp Hn. induction n as [n IH] using lt_wf_ind; intros p Hp Hn.
  destruct (decide (p = es)) as [->|]; [done|]. apply H2; [lia|]. intros p' Hp'. by apply (IH (es - p')%nat); lia.
Qed.

Definition tok_ok (t : tok) : Prop :=
  match t with TWord q e => is_word q e | TSym c => in_set (43 :: symbols) c = true end.
Lemma lex_tokens p : (p <= es)%nat → Forall tok_ok (lexfrom p).
Proof.
  revert p. apply (lex_ind (λ p, Forall tok_ok (lexfrom p))).
  - by rewrite lexfrom_end.
  - intros p Hp IH. destruct (word_char (ch buf p)) eqn:Hw.
    + destruct (lexfrom_first p Hp Hw) as [-> Hi]. constructor; [done|]. apply IH. destruct Hi. lia.
    + destruct (in_set whitespace (ch buf p)) eqn:Hws; [rewrite lexfrom_ws by done; apply IH; lia|].
      assert (in_set symbols (ch buf p) = true) as Hs by (unfold word_char in Hw; rewrite Hws in Hw; by apply negb_false_iff in Hw).
      rewrite (lexfrom_sym p Hp Hs). case_match eqn:E; constructor; try done.
      * apply andb_true_iff in E as [_ E]. apply IH.
        destruct (decide (S p < es)%nat); [lia|]. unfold ch in E. rewrite lookup_ge_None_2 in E by lia. done.
      * cbn [tok_ok]. unfold in_set in *. cbn [existsb] in *. by rewrite Hs, orb_true_r.
      * apply IH. lia.
Qed.

Lemma length_lexfrom p : (p <= es)%nat → (length (lexfrom p) <= es - p)%nat.
Proof.
  revert p. apply (lex_ind (λ p, length (lexfrom p) <= es - p)%nat).
  - rewrite lexfrom_end. simpl. lia.
  - intros p Hp IH. destruct (word_char (ch buf p)) eqn:Hw.
    + destruct (lexfrom_first p Hp Hw) as [E [Hi _]]. rewrite E. cbn [length].
      specialize (IH (skip es word_char buf p) ltac:(lia)). lia.
    + destruct (in_set whitespace (ch buf p)) eqn:Hws.
      { rewrite lexfrom_ws by done. specialize (IH (S p) ltac:(lia)). lia. }
      assert (in_set symbols (ch buf p) = true) as Hs by (unfold word_char in Hw; rewrite Hws in Hw; by apply negb_false_iff in Hw).
      rewrite (lexfrom_sym p Hp Hs). case_match eqn:E; cbn [length].
      * apply andb_true_iff in E as [_ E]. assert (S p < es)%nat as Hlt.
        { destruct (decide (S p < es)%nat); [done|]. unfold ch in E. rewrite lookup_ge_None_2 in E by lia. done. }
        specialize (IH (S (S p)) ltac:(lia)). lia.
      * specialize (IH (S p) ltac:(lia)). lia.
Qed.

(** *** gettoken and peek on tokens *)

(** The parser stands before the tokens [T]. *)
Definition at_ (s : shst) (T : list tok) : Prop := sh_buf s = buf ∧ (sh_ps s <= es)%nat ∧ lexfrom (sh_ps s) = T.
Definition code (T : list tok) : Z := match T with [] => 0 | TSym c :: _ => c | TWord _ _ :: _ => 97 end.
(** peek looks at a byte, which is > also before >>. *)
Definition hd_in (toks : list Z) (T : list tok) : bool :=
  match T with TSym c :: _ => in_set toks (if c =? 43 then 62 else c) | _ => false end.

Lemma peek_at toks s T : at_ s T → forallb (in_set symbols) toks = true →
  ∃ s', peek es toks s = Ok (hd_in toks T) s' ∧ at_ s' T ∧ sh_heap s' = sh_heap s ∧ (sh_ps s' = es ↔ T = []).
Proof.
  intros (Hb & Hp & HT) Htoks. unfold peek. run. rewrite Hb.
  destruct (skip_spec (in_set whitespace) (sh_ps s) Hp) as (H1 & _ & H3). pose proof (lex_skip_ws (sh_ps s) Hp) as Hl.
  set (p := skip es (in_set whitespace) buf (sh_ps s)) in *. rewrite HT in Hl.
  assert (∀ c, in_set toks c = true → in_set symbols c = true) as Hsub.
  { intros c Hc. rewrite forallb_forall in Htoks. unfold in_set in Hc. apply existsb_exists in Hc as (x & Hx & ->%Z.eqb_eq). by apply Htoks. }
  exists (set_ps p s). split; [|split; [split; [done|split; [cbn; lia|done]]|split; [done|]]].
  - unfold mret, M_ret. f_equal. destruct (decide (p = es)) as [->|Hne].
    + rewrite ch_end, <-Hl, lexfrom_end. done.
    + rewrite (proj2 (Z.eqb_neq _ _)) by (apply ch_nonzero; lia). cbn [negb andb]. specialize (H3 ltac:(lia)).
      destruct (in_set symbols (ch buf p)) eqn:Hs.
      * rewrite <-Hl, (lexfrom_sym p) by (done || lia). assert (ch buf p ≠ 43) as H43 by (intros E; by rewrite E in Hs).
        destruct (Z.eqb_spec (ch buf p) 62) as [->|]; cbn [andb hd_in]; [by destruct (ch buf (S p) =? 62)|].
        by rewrite (proj2 (Z.eqb_neq _ _) H43).
      * destruct (lexfrom_first p ltac:(lia)) as [E _]; [unfold word_char; by rewrite H3, Hs|]. rewrite <-Hl, E. cbn [hd_in].
        destruct (in_set toks (ch buf p)) eqn:Ht; [|done]. by rewrite (Hsub _ Ht) in Hs.
  - cbn [set_ps sh_ps]. split; [intros Hpe; by rewrite <-Hl, Hpe, lexfrom_end|]. intros ->. destruct (decide (p = es)); [done|].
    specialize (H3 ltac:(lia)). exfalso. destruct (in_set symbols (ch buf p)) eqn:Hs.
    + rewrite (lexfrom_sym p) in Hl by (done || lia). by case_match.
    + destruct (lexfrom_first p ltac:(lia)) as [E _]; [unfold word_char; by rewrite H3, Hs|]. by rewrite E in Hl.
Qed.

Lemma gettoken_at s T : at_ s T → ∃ q e s', gettoken es s = Ok (code T, q, e) s' ∧ at_ s' (tl T) ∧
  sh_heap s' = sh_heap s ∧ match T with TWord q' e' :: _ => q = q' ∧ e = e' | _ => True end.
Proof.
  intros (Hb & Hp & HT). unfold gettoken. run. rewrite Hb.
  destruct (skip_spec (in_set whitespace) (sh_ps s) Hp) as (H1 & _ & H3). pose proof (lex_skip_ws (sh_ps s) Hp) as Hl.
  set (p := skip es (in_set whitespace) buf (sh_ps s)) in *. rewrite HT in Hl. clear HT.
  assert (∀ x p', (p' <= es)%nat → lexfrom p' = tl T → x = code T → (∀ q e, hd_error T = Some (TWord q e) → p = q ∧ p' = e) →
    ∃ q e s', (modify (set_ps (skip es (in_set whitespace) buf p'));; mret (x, p, p')) s = Ok (code T, q, e) s' ∧
      at_ s' (tl T) ∧ sh_heap s' = sh_heap s ∧ match T with TWord q' e' :: _ => q = q' ∧ e = e' | _ => True end) as Hend.
  { intros x p' Hp' Hl' -> Hw. destruct (skip_spec (in_set whitespace) p' Hp') as (G1 & _ & _).
    eexists _, _, _. split; [done|]. split; [split; [done|cbn [sh_ps set_ps]; split; [lia|by rewrite lex_skip_ws]]|]. split; [done|].
    destruct T as [|[]]; try done. by apply Hw. }
  destruct (decide (p = es)) as [Hpe|Hne].
  - rewrite Hpe, ch_end in *. change (0 =? 0) with true. cbn iota. rewrite lexfrom_end in Hl. subst T. by apply Hend; [|apply lexfrom_end|..].
  - assert (p < es)%nat as Hlt by lia. specialize (H3 Hlt). rewrite (proj2 (Z.eqb_neq _ _) (ch_nonzero p Hlt)).
    destruct (in_set symbols (ch buf p)) eqn:Hs.
    + rewrite (lexfrom_sym p Hlt Hs) in Hl. destruct (in_set [124; 40; 41; 59; 38; 60] (ch buf p)) eqn:Hsix.
      * destruct (Z.eqb_spec (ch buf p) 62) as [E|E]; [by rewrite E in Hsix|]. cbn [andb] in Hl. subst T. apply Hend; try done; lia.
      * assert (ch buf p = 62) as E.
        { revert Hs Hsix. unfold in_set, symbols. cbn [existsb]. lia. }
        rewrite E in *. change (62 =? 62) with true in *. cbn [andb] in Hl. cbn iota.
        destruct (Z.eqb_spec (ch buf (S p)) 62) as [E2|E2]; subst T; apply Hend; try done; try lia.
        assert (S p < es)%nat as Hlt2; [|lia]. destruct (decide (S p < es)%nat); [done|].
        unfold ch in E2. rewrite lookup_ge_None_2 in E2 by lia. done.
    + assert (word_char (ch buf p) = true) as Hw by (unfold word_char; by rewrite H3, Hs).
      destruct (lexfrom_first p Hlt Hw) as [E [Hi _]]. rewrite E in Hl. clear E.
      assert (in_set [124; 40; 41; 59; 38; 60] (ch buf p) = false ∧ ch buf p ≠ 62) as [-> E62].
      { revert Hs. unfold in_set, symbols. cbn [existsb]. lia. }
      rewrite (proj2 (Z.eqb_neq _ _) E62). change (λ c, negb (in_set whitespace c) && negb (in_set symbols c)) with word_char.
      subst T. apply Hend; try done; [lia|]. by intros q e [= -> ->].
Qed.

(** ** What the parser accepts has a tree *)

(** [m] returns, or ends in a syntax error: it does not run out of fuel. *)
Definition runs {A} (m : M shst A) (s : shst) (Q : A → shst → Prop) : Prop :=
  match m s with Ok a s' => Q a s' | Panic _ _ => True | _ => False end.
Lemma runs_bind {A B} (m : M shst A) (k : A → M shst B) s Q :
  runs m s (λ a s', runs (k a) s' Q) → runs (m ≫= k) s Q.
Proof. unfold runs, mbind, M_bind. by destruct (m s). Qed.
Lemma runs_mono {A} (m : M shst A) s (P Q : A → shst → Prop) : runs m s P → (∀ a s', P a s' → Q a s') → runs m s Q.
Proof. unfold runs. destruct (m s); naive_solver. Qed.
Lemma runs_peek {A} toks (k : bool → M shst A) s T Q : at_ s T → forallb (in_set symbols) toks = true →
  (∀ s', at_ s' T → runs (k (hd_in toks T)) s' Q) → runs (peek es toks ≫= k) s Q.
Proof.
  intros H1 H2 H3. destruct (peek_at _ _ _ H1 H2) as (s' & E & Ha & _ & _). apply runs_bind. unfold runs at 1. rewrite E. by apply H3.
Qed.
Lemma runs_gettoken {A} (k : Z * nat * nat → M shst A) s T Q : at_ s T →
  (∀ q e s', at_ s' (tl T) → match T with TWord q' e' :: _ => q = q' ∧ e = e' | _ => True end → runs (k (code T, q, e)) s' Q) →
  runs (gettoken es ≫= k) s Q.
Proof.
  intros H1 H2. destruct (gettoken_at _ _ H1) as (q & e & s' & E & Ha & _ & Hw). apply runs_bind. unfold runs at 1. rewrite E. by apply H2.
Qed.
Lemma runs_new {A} x (k : nat → M shst A) s T Q : at_ s T → (∀ c s', at_ s' T → runs (k c) s' Q) → runs (new_cmd x ≫= k) s Q.
Proof. intros H1 H2. apply runs_bind. unfold new_cmd, runs. run. by apply H2. Qed.
Lemma runs_set_arg {A} c i q e (k : unit → M shst A) s T Q : at_ s T → (∀ s', at_ s' T → runs (k tt) s' Q) → runs (set_arg c i q e ≫= k) s Q.
Proof. intros H1 H2. apply runs_bind. unfold set_arg, modify, runs. by apply H2. Qed.
Lemma runs_panic_if {A} b msg (k : unit → M shst A) s Q : (b = false → runs (k tt) s Q) → runs (panic_if b msg ≫= k) s Q.
Proof. intros H0. apply runs_bind. unfold panic_if, runs. destruct b; [done|]. by apply H0. Qed.

Lemma hd_in_redir T : hd_in [60; 62] T = true → ∃ k r, T = TSym (rcode k) :: r.
Proof.
  destruct T as [|[|c] r]; try done. cbn. intros H0. destruct (Z.eqb_spec c 43) as [->|]; [by exists RApp, r|].
  destruct (Z.eqb_spec c 60) as [->|]; [by exists RIn, r|]. destruct (Z.eqb_spec c 62) as [->|]; [by exists ROut, r|]. done.
Qed.
Lemma hd_in_one c T : c ≠ 62 → hd_in [c] T = true → ∃ r, T = TSym c :: r.
Proof.
  intros Hc. destruct T as [|[|c'] r]; try done. cbn. intros H0. exists r. do 2 f_equal.
  destruct (Z.eqb_spec c' 43); lia.
Qed.

(** A word is the only token with the code 'a'. *)
Lemma code_word s T : at_ s T → code T = 97 → ∃ q e r, T = TWord q e :: r.
Proof.
  intros (_ & Hp & <-) Hc. pose proof (lex_tokens _ Hp) as Hok. destruct (lexfrom (sh_ps s)) as [|[q e|c] r]; [done|by eauto|].
  apply Forall_cons in Hok as [Hok _]. cbn in Hc, Hok. by subst c.
Qed.
Lemma code_end s T : at_ s T → code T = 0 → T = [].
Proof.
  intros (_ & Hp & <-) Hc. pose proof (lex_tokens _ Hp) as Hok. destruct (lexfrom (sh_ps s)) as [|[q e|c] r]; [done..|].
  apply Forall_cons in Hok as [Hok _]. cbn in Hc, Hok. by subst c.
Qed.

Lemma sound_redirs fuel : ∀ T c s, at_ s T → (length T < fuel)%nat →
  runs (parseredirs es fuel c) s (λ _ s', ∃ rs rest, T = toks_redirs rs ++ rest ∧ at_ s' rest).
Proof.
  induction fuel as [|fuel IH]; intros T c s Ha Hf; [lia|]. cbn [parseredirs]. eapply runs_peek; [done|done|].
  intros s1 Ha1. destruct (hd_in [60; 62] T) eqn:Hh; cbn [negb]; [|by exists [], T].
  destruct (hd_in_redir T Hh) as (k & r & ->). eapply runs_gettoken; [done|]. intros q0 e0 s2 Ha2 _. cbn [tl code] in *.
  eapply runs_gettoken; [done|]. intros q e s3 Ha3 Hw. apply runs_panic_if. intros Ht%negb_false_iff%Z.eqb_eq.
  destruct (code_word _ _ Ha2 Ht) as (q' & e' & r' & ->). destruct Hw as [-> ->]. cbn [tl] in Ha3. simpl in Hf.
  assert (∀ c' s4, at_ s4 r' → runs (parseredirs es fuel c') s4 (λ _ s', ∃ rs rest,
    TSym (rcode k) :: TWord q' e' :: r' = toks_redirs rs ++ rest ∧ at_ s' rest)) as Hrest.
  { intros c' s4 Ha4. eapply runs_mono; [apply (IH r'); [done|lia]|]. intros _ s' (rs & rest & -> & Har).
    by exists (Redir k q' e' :: rs), rest. }
  unfold redircmd. destruct k; cbn [rcode]; (eapply runs_new; [done|]; intros c' s4 Ha4; by apply Hrest).
Qed.

Lemma sound_args fuel : ∀ T cmd ret argc s, at_ s T → (length T < fuel)%nat → (argc < MAXARGS)%nat →
  runs (args_loop es fuel cmd ret argc) s
    (λ _ s', ∃ args rest, T = toks_args args ++ rest ∧ (argc + length args < MAXARGS)%nat ∧ at_ s' rest).
Proof.
  induction fuel as [|fuel IH]; intros T cmd ret argc s Ha Hf Hargc; [lia|]. cbn [args_loop]. eapply runs_peek; [done|done|].
  intros s1 Ha1. destruct (hd_in _ T); [exists [], T; rewrite Nat.add_0_r; done|].
  eapply runs_gettoken; [done|]. intros q e s2 Ha2 Hw.
  destruct (Z.eqb_spec (code T) 0) as [Hc|Hc].
  { pose proof (code_end _ _ Ha Hc) as ->. exists [], []. rewrite Nat.add_0_r. done. }
  apply runs_panic_if. intros Ht%negb_false_iff%Z.eqb_eq.
  destruct (code_word _ _ Ha Ht) as (q' & e' & r & ->). destruct Hw as [-> ->]. cbn [tl] in Ha2. simpl in Hf.
  eapply runs_set_arg; [done|]. intros s3 Ha3. apply runs_panic_if. intros Hn%Nat.leb_gt.
  apply runs_bind. eapply runs_mono; [apply (sound_redirs fuel r); [done|lia]|].
  intros ret' s4 (rs & rest & -> & Ha4). rewrite length_app in Hf.
  eapply runs_mono; [apply (IH rest); [done|lia|done]|]. intros _ s5 (args & rest' & -> & Hl & Ha5).
  exists ((q', e', rs) :: args), rest'. cbn [toks_args flat_map length]. split; [|split; [lia|done]].
  cbn [app]. by rewrite <-app_assoc.
Qed.

Lemma sound_back fuel : ∀ T c s, at_ s T → (length T < fuel)%nat →
  runs (back_loop es fuel c) s (λ _ s', ∃ n rest, T = replicate n (TSym 38) ++ rest ∧ at_ s' rest).
Proof.
  induction fuel as [|fuel IH]; intros T c s Ha Hf; [lia|]. cbn [back_loop]. eapply runs_peek; [done|done|].
  intros s1 Ha1. destruct (hd_in [38] T) eqn:Hh; cbn [negb]; [|by exists O, T].
  destruct (hd_in_one 38 T ltac:(done) Hh) as [r ->]. eapply runs_gettoken; [done|]. intros q e s2 Ha2 _. cbn [tl] in Ha2.
  unfold backcmd. eapply runs_new; [done|]. intros c' s3 Ha3. simpl in Hf.
  eapply runs_mono; [apply (IH r); [done|lia]|]. intros _ s4 (n & rest & -> & Ha4). by exists (S n), rest.
Qed.

Lemma sound_parse fuel :
  (∀ T s, at_ s T → (4 * length T + 4 <= fuel)%nat →
    runs (parseline es fuel) s (λ _ s', ∃ l rest, T = toks_line l ++ rest ∧ fits_line l ∧ at_ s' rest)) ∧
  (∀ T s, at_ s T → (4 * length T + 3 <= fuel)%nat →
    runs (parsepipe es fuel) s (λ _ s', ∃ p rest, T = toks_pipe p ++ rest ∧ fits_pipe p ∧ at_ s' rest)) ∧
  (∀ T s, at_ s T → (4 * length T + 2 <= fuel)%nat →
    runs (parseexec es fuel) s (λ _ s', ∃ x rest, T = toks_exec x ++ rest ∧ fits_exec x ∧ at_ s' rest)) ∧
  (∀ T s, at_ s T → (4 * length T + 1 <= fuel)%nat →
    runs (parseblock es fuel) s (λ _ s', ∃ x rest, T = toks_exec x ++ rest ∧ fits_exec x ∧ at_ s' rest)).
Proof.
  induction fuel as [|fuel (IHl & IHp & IHx & IHb)]; [split_and!; intros; lia|].
  split_and!; intros T s Ha Hf; cbn [parseline parsepipe parseexec parseblock].
  - apply runs_bind. eapply runs_mono; [apply (IHp T); [done|lia]|]. intros c1 s1 (p & r1 & -> & Hp & Ha1). rewrite length_app in Hf.
    apply runs_bind. eapply runs_mono; [apply (sound_back fuel r1); [done|lia]|]. intros c2 s2 (n & r2 & -> & Ha2).
    rewrite length_app in Hf. eapply runs_peek; [done|done|]. intros s3 Ha3.
    destruct (hd_in [59] r2) eqn:Hh; cbn [negb]; [|exists (LEnd p n), r2; cbn [toks_line]; by rewrite <-app_assoc].
    destruct (hd_in_one 59 r2 ltac:(done) Hh) as [r3 ->]. eapply runs_gettoken; [done|]. intros q e s4 Ha4 _. cbn [tl length] in *.
    apply runs_bind. eapply runs_mono; [apply (IHl r3); [done|lia]|]. intros c3 s5 (l & r4 & -> & Hl & Ha5).
    unfold listcmd, new_cmd, runs. run. exists (LSeq p n l), r4. cbn [toks_line]. rewrite <-!app_assoc. done.
  - apply runs_bind. eapply runs_mono; [apply (IHx T); [done|lia]|]. intros c1 s1 (x & r1 & -> & Hx & Ha1). rewrite length_app in Hf.
    eapply runs_peek; [done|done|]. intros s2 Ha2.
    destruct (hd_in [124] r1) eqn:Hh; cbn [negb]; [|by exists (POne x), r1].
    destruct (hd_in_one 124 r1 ltac:(done) Hh) as [r2 ->]. eapply runs_gettoken; [done|]. intros q e s3 Ha3 _. cbn [tl length] in *.
    apply runs_bind. eapply runs_mono; [apply (IHp r2); [done|lia]|]. intros c2 s4 (p & r3 & -> & Hp & Ha4).
    unfold pipecmd, new_cmd, runs. run. exists (PCons x p), r3. cbn [toks_pipe]. rewrite <-!app_assoc. done.
  - eapply runs_peek; [done|done|]. intros s1 Ha1. destruct (hd_in [40] T); [apply IHb; [done|lia]|].
    unfold execcmd. eapply runs_new; [done|]. intros c s2 Ha2. apply runs_bind.
    eapply runs_mono; [apply (sound_redirs fuel T); [done|lia]|]. intros c1 s3 (rs & r1 & -> & Ha3). rewrite length_app in Hf.
    apply runs_bind. eapply runs_mono; [apply (sound_args fuel r1); [done|lia|unfold MAXARGS; lia]|].
    intros [argc c2] s4 (args & r2 & -> & Hl & Ha4). eapply runs_set_arg; [done|]. intros s5 Ha5.
    exists (Simple rs args), r2. cbn [toks_exec]. rewrite <-app_assoc. done.
  - eapply runs_peek; [done|done|]. intros s1 Ha1. apply runs_panic_if. intros Hh%negb_false_iff.
    destruct (hd_in_one 40 T ltac:(done) Hh) as [r1 ->]. eapply runs_gettoken; [done|]. intros q e s2 Ha2 _. cbn [tl length] in *.
    apply runs_bind. eapply runs_mono; [apply (IHl r1); [done|lia]|]. intros c s3 (l & r2 & -> & Hl & Ha3). rewrite length_app in Hf.
    eapply runs_peek; [done|done|]. intros s4 Ha4. apply runs_panic_if. intros Hh2%negb_false_iff.
    destruct (hd_in_one 41 r2 ltac:(done) Hh2) as [r3 ->]. eapply runs_gettoken; [done|]. intros q2 e2 s5 Ha5 _. cbn [tl length] in *.
    eapply runs_mono; [apply (sound_redirs fuel r3); [done|lia]|]. intros c2 s6 (rs & r4 & -> & Ha6).
    exists (Block l rs), r4. cbn [toks_exec]. split; [|done]. cbn [app]. by rewrite <-app_assoc.
Qed.

(** ** The structures in memory *)

(** The arrays of a command with these words. *)
Definition argv_of (f : nat * nat * list redir → nat) (args : list (nat * nat * list redir)) : list (option nat) :=
  map (λ a, Some (f a)) args ++ replicate (MAXARGS - length args) None.
Definition arg_q (a : nat * nat * list redir) : nat := a.1.1.
Definition arg_e (a : nat * nat * list redir) : nat := a.1.2.

(** [c] is the command [n] inside the redirections [rs], the first one innermost. *)
Inductive wraps (h : list cnode) (n : nat) : list redir → nat → Prop :=
| wraps_nil : wraps h n [] n
| wraps_snoc rs c k q e c' : wraps h n rs c → (n < c')%nat → h !! c' = Some (NRedir c q e (rmode k) (rfd k)) →
    wraps h n (rs ++ [Redir k q e]) c'.
(** [c] is [n] behind so many BACK structures. *)
Inductive backs (h : list cnode) (n : nat) : nat → nat → Prop :=
| backs_O : backs h n 0 n
| backs_S k c c' : backs h n k c → h !! c' = Some (NBack c) → backs h n (S k) c'.

Fixpoint repr_line (h : list cnode) (c : nat) (l : aline) : Prop :=
  match l with
  | LEnd p n => ∃ a, repr_pipe h a p ∧ backs h a n c
  | LSeq p n rest => ∃ a b r, repr_pipe h a p ∧ backs h a n b ∧ repr_line h r rest ∧ h !! c = Some (NList b r)
  end
with repr_pipe (h : list cnode) (c : nat) (p : apipe) : Prop :=
  match p with
  | POne x => repr_exec h c x
  | PCons x rest => ∃ a b, repr_exec h a x ∧ repr_pipe h b rest ∧ h !! c = Some (NPipe a b)
  end
with repr_exec (h : list cnode) (c : nat) (x : aexec) : Prop :=
  match x with
  | Simple rs args => ∃ n, h !! n = Some (NExec (argv_of arg_q args) (argv_of arg_e args)) ∧ wraps h n (rs ++ flat_map snd args) c
  | Block l rs => ∃ n, repr_line h n l ∧ wraps h n rs c
  end.

(** What is in memory stays there. *)
Definition ext (h h' : list cnode) : Prop := ∀ i x, h !! i = Some x → h' !! i = Some x.
Lemma ext_refl h : ext h h.
Proof. by intros i x. Qed.
Lemma ext_trans h1 h2 h3 : ext h1 h2 → ext h2 h3 → ext h1 h3.
Proof. intros H1 H2 i x Hx. by apply H2, H1. Qed.
Lemma ext_new h x : ext h (h ++ [x]).
Proof. intros i y Hy. by apply lookup_app_l_Some. Qed.
Lemma lookup_new (h : list cnode) x : (h ++ [x]) !! length h = Some x.
Proof. by apply list_lookup_middle. Qed.
Lemma ext_length h h' : ext h h' → (length h <= length h')%nat.
Proof.
  intros He. destruct h as [|x h] using rev_ind; [simpl; lia|]. rewrite length_app. simpl.
  pose proof (He _ _ (lookup_new h x)) as H1. apply lookup_lt_Some in H1. lia.
Qed.

Lemma wraps_ext h h' n rs c : ext h h' → wraps h n rs c → wraps h' n rs c.
Proof. intros He. induction 1; econstructor; eauto. Qed.
Lemma backs_ext h h' n k c : ext h h' → backs h n k c → backs h' n k c.
Proof. intros He. induction 1; econstructor; eauto. Qed.
Lemma repr_ext h h' : ext h h' →
  (∀ l c, repr_line h c l → repr_line h' c l) ∧ (∀ p c, repr_pipe h c p → repr_pipe h' c p) ∧
  (∀ x c, repr_exec h c x → repr_exec h' c x).
Proof.
  intros He. apply syntax_ind; cbn [repr_line repr_pipe repr_exec].
  - intros p IH n c (a & H1 & H2). exists a. split; [by apply IH|by eapply backs_ext].
  - intros p IHp n l IHl c (a & b & r & H1 & H2 & H3 & H4). exists a, b, r. split_and!; auto. by eapply backs_ext.
  - auto.
  - intros x IHx p IHp c (a & b & H1 & H2 & H3). exists a, b. auto.
  - intros rs args c (n & H1 & H2). exists n. split; [auto|by eapply wraps_ext].
  - intros l IHl rs c (n & H1 & H2). exists n. split; [auto|by eapply wraps_ext].
Qed.

Lemma wraps_lt h n rs c : wraps h n rs c → (n < length h)%nat → (c < length h)%nat.
Proof. destruct 1; [done|]. intros _. by eapply lookup_lt_Some. Qed.
Lemma backs_lt h n k c : backs h n k c → (n < length h)%nat → (c < length h)%nat.
Proof. destruct 1; [done|]. intros _. by eapply lookup_lt_Some. Qed.
Lemma repr_lt :
  (∀ l h c, repr_line h c l → (c < length h)%nat) ∧ (∀ p h c, repr_pipe h c p → (c < length h)%nat) ∧
  (∀ x h c, repr_exec h c x → (c < length h)%nat).
Proof.
  apply syntax_ind; cbn [repr_line repr_pipe repr_exec].
  - intros p IH n h c (a & H1 & H2). eapply backs_lt; [done|]. by eapply IH.
  - intros p _ n l _ h c (a & b & r & _ & _ & _ & H4). by eapply lookup_lt_Some.
  - auto.
  - intros x _ p _ h c (a & b & _ & _ & H3). by eapply lookup_lt_Some.
  - intros rs args h c (n & H1 & H2). eapply wraps_lt; [done|]. by eapply lookup_lt_Some.
  - intros l IH rs h c (n & H1 & H2). eapply wraps_lt; [done|]. by eapply IH.
Qed.

(** *** The parser builds the tree *)

Definition at_heap s T h : Prop := at_ s T ∧ sh_heap s = h.
Lemma peek_run {A} toks (k : bool → M shst A) s T h : at_heap s T h → forallb (in_set symbols) toks = true →
  ∃ s', (peek es toks ≫= k) s = k (hd_in toks T) s' ∧ at_heap s' T h.
Proof.
  intros [Ha <-] Ht. destruct (peek_at _ _ _ Ha Ht) as (s' & E & Ha' & Hh & _). exists s'.
  by rewrite (bind_run _ _ _ _ _ E).
Qed.
Lemma gettoken_run {A} (k : Z * nat * nat → M shst A) s T h : at_heap s T h →
  ∃ q e s', (gettoken es ≫= k) s = k (code T, q, e) s' ∧ at_heap s' (tl T) h ∧
    match T with TWord q' e' :: _ => q = q' ∧ e = e' | _ => True end.
Proof.
  intros [Ha <-]. destruct (gettoken_at _ _ Ha) as (q & e & s' & E & Ha' & Hh & Hw). exists q, e, s'.
  by rewrite (bind_run _ _ _ _ _ E).
Qed.
Lemma new_run {A} x (k : nat → M shst A) s T h : at_heap s T h →
  ∃ s', (new_cmd x ≫= k) s = k (length h) s' ∧ at_heap s' T (h ++ [x]).
Proof. intros [Ha <-]. eexists. split; [reflexivity|]. by split. Qed.

Ltac step_peek Ha s' Ha' :=
  match goal with |- context [(peek es ?t ≫= ?k) ?s] => destruct (peek_run t k s _ _ Ha eq_refl) as (s' & -> & Ha') end.
Ltac step_token Ha q e s' Ha' Hw :=
  match goal with |- context [(gettoken es ≫= ?k) ?s] =>
    destruct (gettoken_run k s _ _ Ha) as (q & e & s' & -> & Ha' & Hw); cbn [tl code app] in Ha', Hw |- * end.
Ltac step_new Ha s' Ha' :=
  match goal with |- context [(new_cmd ?x ≫= ?k) ?s] => destruct (new_run x k s _ _ Ha) as (s' & -> & Ha') end.

Lemma complete_redirs rs : ∀ fuel rest c s h, at_heap s (toks_redirs rs ++ rest) h → hd_in [60; 62] rest = false →
  (length rs < fuel)%nat → ∃ s' c' h', parseredirs es fuel c s = Ok c' s' ∧ at_heap s' rest h' ∧ ext h h' ∧
    ∀ n rs0, (n < length h)%nat → wraps h n rs0 c → wraps h' n (rs0 ++ rs) c'.
Proof.
  induction rs as [|[k q e] rs IH]; intros [|fuel] rest c s h Ha Hr Hf; simpl in Hf; try lia; cbn [parseredirs].
  - step_peek Ha s1 Ha1. cbn [toks_redirs flat_map app] in *. rewrite Hr. cbn [negb].
    exists s1, c, h. split_and!; [done|done|apply ext_refl|]. intros n rs0 _ Hw. by rewrite app_nil_r.
  - cbn [toks_redirs flat_map app] in Ha. step_peek Ha s1 Ha1.
    assert (hd_in [60; 62] (TSym (rcode k) :: TWord q e :: flat_map (λ r, let '(Redir k q e) := r in [TSym (rcode k); TWord q e]) rs ++ rest) = true)
      as -> by (by destruct k).
    cbn [negb]. step_token Ha1 q0 e0 s2 Ha2 Hw0. step_token Ha2 q1 e1 s3 Ha3 Hw1. destruct Hw1 as [-> ->].
    rewrite run_panic_if by done. unfold redircmd.
    assert (∃ s4, ∀ f : nat → M shst nat, ((if rcode k =? 60 then new_cmd (NRedir c q e O_RDONLY 0)
       else if rcode k =? 62 then new_cmd (NRedir c q e (Z.lor O_WRONLY O_CREATE) 1)
       else if rcode k =? 43 then new_cmd (NRedir c q e (Z.lor O_WRONLY O_CREATE) 1) else mret c) ≫= f) s3 = f (length h) s4 ∧
       at_heap s4 (toks_redirs rs ++ rest) (h ++ [NRedir c q e (rmode k) (rfd k)])) as (s4 & H4).
    { exists (set_heap (h ++ [NRedir c q e (rmode k) (rfd k)]) s3). intros f. destruct Ha3 as [? Hh]. split; [|by split].
      destruct k; cbn; unfold new_cmd, gets, modify, mbind, M_bind, mret, M_ret; cbn; by rewrite Hh. }
    destruct (H4 (λ c, parseredirs es fuel c)) as [-> Ha4].
    destruct (IH fuel rest (length h) s4 _ Ha4 Hr ltac:(lia)) as (s' & c' & h' & E & Ha' & He & Hw).
    exists s', c', h'. split; [done|]. split; [done|]. split; [by eapply ext_trans; [apply ext_new|]|].
    intros n rs0 Hn Hwr. rewrite (cons_middle (Redir k q e)), app_assoc. apply Hw; [rewrite length_app; lia|].
    econstructor; [by eapply wraps_ext; [apply ext_new|]|done|apply lookup_new].
Qed.

Lemma length_argv f args : (length args <= MAXARGS)%nat → length (argv_of f args) = MAXARGS.
Proof. intros Hl. unfold argv_of. rewrite length_app, length_map, length_replicate. lia. Qed.
Lemma argv_snoc f args a : (length args < MAXARGS)%nat → <[length args := Some (f a)]> (argv_of f args) = argv_of f (args ++ [a]).
Proof.
  intros Hl. unfold argv_of. rewrite map_app, length_app. simpl.
  rewrite insert_app_r_alt by (by rewrite length_map). rewrite length_map, Nat.sub_diag.
  replace (MAXARGS - length args)%nat with (S (MAXARGS - (length args + 1))) by lia. simpl. by rewrite <-app_assoc.
Qed.
Lemma argv_end f args : (length args < MAXARGS)%nat → <[length args := None]> (argv_of f args) = argv_of f args.
Proof.
  intros Hl. apply list_insert_id. unfold argv_of. rewrite lookup_app_r by (by rewrite length_map). rewrite length_map, Nat.sub_diag.
  by rewrite lookup_replicate_2 by lia.
Qed.

(** Filling in a structure leaves the redirections around it. *)
Lemma wraps_alter h n rs c f : wraps h n rs c → wraps (alter f n h) n rs c.
Proof. induction 1; econstructor; eauto. rewrite list_lookup_alter_ne by lia. done. Qed.

(** The command whose words are being read. *)
Definition filling h n done ret rs : Prop :=
  h !! n = Some (NExec (argv_of arg_q done) (argv_of arg_e done)) ∧ wraps h n rs ret.
Definition below n (h h' : list cnode) : Prop := ∀ i x, (i < n)%nat → h !! i = Some x → h' !! i = Some x.
Definition ends_args (T : list tok) : bool := match T with [] => true | TSym c :: _ => in_set [124; 41; 38; 59] c | _ => false end.

Lemma ends_args_in T : ends_args T = true → T = [] ∨ hd_in [124; 41; 38; 59] T = true.
Proof.
  destruct T as [|[q e|c] T]; [by left|done|]. intros H0. right. cbn in *. destruct (Z.eqb_spec c 43) as [->|]; [done|exact H0].
Qed.
Lemma ends_args_redir T : ends_args T = true → hd_in [60; 62] T = false.
Proof. destruct T as [|[q e|c] T]; [done..|]. cbn. destruct (Z.eqb_spec c 43) as [->|]; [done|]. lia. Qed.

Lemma complete_args args : ∀ fuel rest n ret dn rs s h, at_heap s (toks_args args ++ rest) h → ends_args rest = true →
  (length (toks_args args) < fuel)%nat → (length dn + length args < MAXARGS)%nat → filling h n dn ret rs →
  ∃ s' ret' h', args_loop es fuel n ret (length dn) s = Ok (length (dn ++ args), ret') s' ∧ at_heap s' rest h' ∧
    below n h h' ∧ filling h' n (dn ++ args) ret' (rs ++ flat_map snd args).
Proof.
  induction args as [|[[q e] ars] args IH]; intros [|fuel] rest n ret dn rs s h Ha Hr Hf Hl Hfill; try lia; cbn [args_loop].
  - cbn [toks_args flat_map app] in *. step_peek Ha s1 Ha1. destruct (ends_args_in rest Hr) as [-> | ->].
    + cbn [hd_in]. step_token Ha1 q0 e0 s2 Ha2 Hw. change (0 =? 0) with true. cbn iota.
      exists s2, ret, h. rewrite !app_nil_r. split; [done|]. split; [done|]. split; [by intros i x|done].
    + exists s1, ret, h. rewrite !app_nil_r. split; [done|]. split; [done|]. split; [by intros i x|done].
  - cbn [toks_args flat_map app] in Ha. step_peek Ha s1 Ha1. cbn [hd_in]. step_token Ha1 q0 e0 s2 Ha2 Hw.
    destruct Hw as [-> ->]. change (97 =? 0) with false. cbn iota. rewrite run_panic_if by done.
    unfold set_arg. rewrite run_modify. rewrite run_panic_if by (apply Nat.leb_gt; simpl in Hl; lia).
    set (h1 := alter _ n (sh_heap s2)). destruct Ha2 as [Ha2 Hh2]. destruct Hfill as [Hn Hw].
    assert (at_heap (set_heap h1 s2) (toks_redirs ars ++ (toks_args args ++ rest)) h1) as Ha3.
    { split; [|done]. by rewrite app_assoc. }
    assert (filling h1 n (dn ++ [(q, e, ars)]) ret rs) as Hfill1.
    { unfold h1. rewrite Hh2. split; [|by apply wraps_alter]. rewrite list_lookup_alter_eq, Hn. cbn [fmap option_fmap option_map].
      rewrite <-!argv_snoc by (simpl in Hl; lia). done. }
    assert (hd_in [60; 62] (toks_args args ++ rest) = false) as Hnr.
    { destruct args as [|[[]] args]; [by apply ends_args_redir|done]. }
    cbn [toks_args flat_map length] in Hf. rewrite length_app in Hf. cbn [length] in Hf.
    assert (length ars <= length (toks_redirs ars))%nat as Hrl.
    { clear. induction ars as [|[] ars IH]; simpl in *; lia. }
    destruct (complete_redirs ars fuel _ ret _ h1 Ha3 Hnr ltac:(lia)) as (s4 & c4 & h4 & E4 & Ha4 & He4 & Hw4).
    rewrite (bind_run _ _ _ _ _ E4).
    assert (n < length h1)%nat as Hlt by (destruct Hfill1 as [Hx _]; by apply lookup_lt_Some in Hx).
    destruct (IH fuel rest n c4 (dn ++ [(q, e, ars)]) (rs ++ ars) s4 h4 Ha4 Hr) as (s' & ret' & h' & E' & Ha' & Hb' & Hf').
    + unfold toks_args. lia.
    + rewrite length_app. simpl in *. lia.
    + destruct Hfill1 as [Hx Hy]. split; [by apply He4|by apply Hw4].
    + rewrite length_app, Nat.add_1_r in E'. rewrite E'. exists s', ret', h'. rewrite <-!app_assoc in *.
      split; [done|]. split; [done|]. split; [|done]. intros i x Hi Hx. apply Hb'; [done|]. apply He4. unfold h1. rewrite Hh2, list_lookup_alter_ne by lia. done.
Qed.

Lemma complete_back n : ∀ fuel rest c s h, at_heap s (replicate n (TSym 38) ++ rest) h → hd_in [38] rest = false → (n < fuel)%nat →
  ∃ s' c' h', back_loop es fuel c s = Ok c' s' ∧ at_heap s' rest h' ∧ ext h h' ∧ ∀ a k, backs h a k c → backs h' a (n + k) c'.
Proof.
  induction n as [|n IH]; intros [|fuel] rest c s h Ha Hr Hf; try lia; cbn [back_loop].
  - cbn [replicate app] in Ha. step_peek Ha s1 Ha1. rewrite Hr. cbn [negb].
    exists s1, c, h. split; [done|]. split; [done|]. split; [apply ext_refl|done].
  - cbn [replicate app] in Ha. step_peek Ha s1 Ha1. change (hd_in [38] (TSym 38 :: replicate n (TSym 38) ++ rest)) with true. cbn [negb].
    step_token Ha1 q e s2 Ha2 Hw. unfold backcmd. step_new Ha2 s3 Ha3.
    destruct (IH fuel rest (length h) s3 _ Ha3 Hr ltac:(lia)) as (s' & c' & h' & E & Ha' & He & Hb).
    exists s', c', h'. split; [done|]. split; [done|]. split; [by eapply ext_trans; [apply ext_new|]|].
    intros a k Hk. replace (S n + k)%nat with (n + S k)%nat by lia. apply Hb.
    econstructor; [by eapply backs_ext; [apply ext_new|]|apply lookup_new].
Qed.

Definition ends_pipe (T : list tok) : bool := match T with [] => true | TSym c :: _ => in_set [41; 38; 59] c | _ => false end.
Definition ends_line (T : list tok) : bool := match T with [] => true | TSym c :: _ => c =? 41 | _ => false end.

Lemma ends_pipe_back n rest : ends_line rest = true → ends_pipe (replicate n (TSym 38) ++ rest) = true.
Proof. destruct n; [|done]. destruct rest as [|[q e|c] rest]; [done..|]. cbn. lia. Qed.
Lemma ends_pipe_not T : ends_pipe T = true → hd_in [124] T = false ∧ ends_args T = true.
Proof. destruct T as [|[q e|c] T]; [done..|]. cbn. destruct (Z.eqb_spec c 43) as [->|]; [done|]. lia. Qed.
Lemma ends_line_not T : ends_line T = true → hd_in [38] T = false ∧ hd_in [59] T = false.
Proof. destruct T as [|[q e|c] T]; [done..|]. cbn. intros ->%Z.eqb_eq. done. Qed.
Lemma simple_not_block rs args rest : ends_args rest = true → hd_in [40] (toks_redirs rs ++ toks_args args ++ rest) = false.
Proof.
  intros Hr. destruct rs as [|[k q e] rs]; [|by destruct k]. destruct args as [|[[q e] rs] args]; [|done].
  destruct rest as [|[q e|c] rest]; [done..|]. cbn in *. destruct (Z.eqb_spec c 43) as [->|]; [done|]. lia.
Qed.
Lemma args_not_redir args rest : ends_args rest = true → hd_in [60; 62] (toks_args args ++ rest) = false.
Proof. destruct args as [|[[q e] rs] args]; [apply ends_args_redir|done]. Qed.
Lemma length_toks_redirs rs : (length rs <= length (toks_redirs rs))%nat.
Proof. induction rs as [|[] rs IH]; simpl in *; lia. Qed.

Lemma length_toks_args args : (length (flat_map snd args) <= length (toks_args args))%nat.
Proof.
  induction args as [|[[q e] rs] args IH]; [done|]. cbn [flat_map toks_args snd] in *. rewrite !length_app. cbn [length].
  pose proof (length_toks_redirs rs). unfold toks_args in IH. lia.
Qed.

Lemma complete_simple rs args fuel rest s h :
  at_heap s ((toks_redirs rs ++ toks_args args) ++ rest) h → (length args < MAXARGS)%nat → ends_args rest = true →
  (4 * length (toks_redirs rs ++ toks_args args) + 2 <= fuel)%nat →
  ∃ s' c h', parseexec es fuel s = Ok c s' ∧ at_heap s' rest h' ∧ ext h h' ∧ repr_exec h' c (Simple rs args).
Proof.
  intros Ha Hl Hr Hf. destruct fuel as [|fuel]; [lia|]. cbn [parseexec]. rewrite <-app_assoc in Ha. step_peek Ha s1 Ha1.
  rewrite simple_not_block by done. unfold execcmd. step_new Ha1 s2 Ha2. set (h1 := h ++ [_]) in *. rewrite length_app in Hf.
  pose proof (length_toks_redirs rs).
  destruct (complete_redirs rs fuel _ (length h) s2 h1 Ha2 ltac:(by apply args_not_redir) ltac:(lia)) as (s3 & c3 & h3 & E3 & Ha3 & He3 & Hw3).
  rewrite (bind_run _ _ _ _ _ E3).
  assert (h1 !! length h = Some (NExec (argv_of arg_q []) (argv_of arg_e []))) as Hn by apply lookup_new.
  assert (length h < length h1)%nat as Hlt by (by apply lookup_lt_Some in Hn).
  destruct (complete_args args fuel rest (length h) c3 [] rs s3 h3 Ha3 Hr ltac:(lia) ltac:(done)) as (s4 & c4 & h4 & E4 & Ha4 & Hb4 & Hn4 & Hw4).
  { split; [by apply He3|]. apply (Hw3 _ []); [done|constructor]. }
  cbn [length app] in *. rewrite (bind_run _ _ _ _ _ E4). cbn iota beta. unfold set_arg. rewrite run_modify.
  destruct Ha4 as [Ha4 Hh4]. rewrite Hh4. set (h5 := alter _ _ h4).
  exists (set_heap h5 s4), c4, h5. split; [done|]. split; [by split|]. split.
  - intros i x Hx. pose proof (lookup_lt_Some _ _ _ Hx). unfold h5. rewrite list_lookup_alter_ne by lia.
    apply Hb4; [done|]. apply He3, ext_new, Hx.
  - exists (length h). split; [|by apply wraps_alter]. unfold h5. rewrite list_lookup_alter_eq, Hn4. cbn [fmap option_fmap option_map].
    by rewrite !argv_end.
Qed.

Lemma complete_parse :
  (∀ l fuel rest s h, at_heap s (toks_line l ++ rest) h → fits_line l → ends_line rest = true →
    (4 * length (toks_line l) + 4 <= fuel)%nat →
    ∃ s' c h', parseline es fuel s = Ok c s' ∧ at_heap s' rest h' ∧ ext h h' ∧ repr_line h' c l) ∧
  (∀ p fuel rest s h, at_heap s (toks_pipe p ++ rest) h → fits_pipe p → ends_pipe rest = true →
    (4 * length (toks_pipe p) + 3 <= fuel)%nat →
    ∃ s' c h', parsepipe es fuel s = Ok c s' ∧ at_heap s' rest h' ∧ ext h h' ∧ repr_pipe h' c p) ∧
  (∀ x fuel rest s h, at_heap s (toks_exec x ++ rest) h → fits_exec x → ends_args rest = true →
    (4 * length (toks_exec x) + 2 <= fuel)%nat →
    ∃ s' c h', parseexec es fuel s = Ok c s' ∧ at_heap s' rest h' ∧ ext h h' ∧ repr_exec h' c x).
Proof.
  apply syntax_ind.
  - intros p IH n [|fuel] rest s h Ha Hfit Hr Hf; [lia|]. cbn [toks_line fits_line parseline] in *. rewrite <-app_assoc in Ha.
    rewrite length_app, length_replicate in Hf. destruct (ends_line_not _ Hr) as [H38 H59].
    destruct (IH fuel _ s h Ha Hfit ltac:(by apply ends_pipe_back) ltac:(lia)) as (s1 & c1 & h1 & E1 & Ha1 & He1 & Hp1).
    rewrite (bind_run _ _ _ _ _ E1).
    destruct (complete_back n fuel rest c1 s1 h1 Ha1 H38 ltac:(lia)) as (s2 & c2 & h2 & E2 & Ha2 & He2 & Hb2).
    rewrite (bind_run _ _ _ _ _ E2). step_peek Ha2 s3 Ha3. rewrite H59. cbn [negb].
    exists s3, c2, h2. split; [done|]. split; [done|]. split; [by eapply ext_trans|].
    exists c1. split; [by eapply (proj1 (proj2 (repr_ext _ _ He2)))|]. rewrite <-(Nat.add_0_r n). apply Hb2. constructor.
  - intros p IHp n l IHl [|fuel] rest s h Ha [Hfp Hfl] Hr Hf; [lia|]. cbn [toks_line parseline] in *. rewrite <-!app_assoc in Ha.
    rewrite !length_app, length_replicate in Hf. cbn [length app] in Hf, Ha.
    assert (ends_pipe (replicate n (TSym 38) ++ TSym 59 :: toks_line l ++ rest) = true) as Hep by (by destruct n).
    destruct (IHp fuel _ s h Ha Hfp Hep ltac:(lia)) as (s1 & c1 & h1 & E1 & Ha1 & He1 & Hp1).
    rewrite (bind_run _ _ _ _ _ E1).
    destruct (complete_back n fuel _ c1 s1 h1 Ha1 ltac:(done) ltac:(lia)) as (s2 & c2 & h2 & E2 & Ha2 & He2 & Hb2).
    rewrite (bind_run _ _ _ _ _ E2). step_peek Ha2 s3 Ha3. change (hd_in [59] (TSym 59 :: toks_line l ++ rest)) with true. cbn [negb].
    step_token Ha3 q e s4 Ha4 Hw. destruct (IHl fuel rest s4 h2 Ha4 Hfl Hr ltac:(lia)) as (s5 & c5 & h5 & E5 & Ha5 & He5 & Hl5).
    rewrite (bind_run _ _ _ _ _ E5). unfold listcmd. destruct Ha5 as [Ha5 Hh5]. unfold new_cmd. run. rewrite Hh5.
    eexists _, _, (h5 ++ [NList c2 c5]). split; [done|]. split; [by split|].
    pose proof (ext_new h5 (NList c2 c5)) as He6.
    split; [exact (ext_trans _ _ _ He1 (ext_trans _ _ _ He2 (ext_trans _ _ _ He5 He6)))|].
    exists c1, c2, c5. split; [|split; [|split; [|apply lookup_new]]].
    + eapply (proj1 (proj2 (repr_ext _ _ He6))), (proj1 (proj2 (repr_ext _ _ He5))). by eapply (proj1 (proj2 (repr_ext _ _ He2))).
    + eapply backs_ext; [exact He6|]. eapply backs_ext; [exact He5|]. rewrite <-(Nat.add_0_r n). apply Hb2. constructor.
    + by eapply (proj1 (repr_ext _ _ He6)).
  - intros x IH [|fuel] rest s h Ha Hfit Hr Hf; [lia|]. cbn [toks_pipe fits_pipe parsepipe] in *. destruct (ends_pipe_not _ Hr) as [H124 Hea].
    destruct (IH fuel rest s h Ha Hfit Hea ltac:(lia)) as (s1 & c1 & h1 & E1 & Ha1 & He1 & Hx1).
    rewrite (bind_run _ _ _ _ _ E1). step_peek Ha1 s2 Ha2. rewrite H124. cbn [negb]. by exists s2, c1, h1.
  - intros x IHx p IHp [|fuel] rest s h Ha [Hfx Hfp] Hr Hf; [lia|]. cbn [toks_pipe parsepipe] in *. rewrite <-app_assoc in Ha.
    rewrite length_app in Hf. cbn [length app] in Hf, Ha.
    destruct (IHx fuel _ s h Ha Hfx ltac:(done) ltac:(lia)) as (s1 & c1 & h1 & E1 & Ha1 & He1 & Hx1).
    rewrite (bind_run _ _ _ _ _ E1). step_peek Ha1 s2 Ha2. change (hd_in [124] (TSym 124 :: toks_pipe p ++ rest)) with true. cbn [negb].
    step_token Ha2 q e s3 Ha3 Hw. destruct (IHp fuel rest s3 h1 Ha3 Hfp Hr ltac:(lia)) as (s4 & c4 & h4 & E4 & Ha4 & He4 & Hp4).
    rewrite (bind_run _ _ _ _ _ E4). unfold pipecmd. destruct Ha4 as [Ha4 Hh4]. unfold new_cmd. run. rewrite Hh4.
    eexists _, _, (h4 ++ [NPipe c1 c4]). split; [done|]. split; [by split|].
    pose proof (ext_new h4 (NPipe c1 c4)) as He5.
    split; [exact (ext_trans _ _ _ He1 (ext_trans _ _ _ He4 He5))|].
    exists c1, c4. split; [|split; [|apply lookup_new]].
    + eapply (proj2 (proj2 (repr_ext _ _ He5))). by eapply (proj2 (proj2 (repr_ext _ _ He4))).
    + by eapply (proj1 (proj2 (repr_ext _ _ He5))).
  - intros rs args fuel rest s h Ha Hfit Hr Hf. by apply complete_simple.
  - intros l IH rs [|fuel] rest s h Ha Hfit Hr Hf; [lia|]. cbn [toks_exec fits_exec parseexec length app] in *.
    rewrite length_app in Hf. cbn [length] in Hf. rewrite <-app_assoc in Ha. cbn [app] in Ha. step_peek Ha s1 Ha1.
    change (hd_in [40] (TSym 40 :: toks_line l ++ TSym 41 :: toks_redirs rs ++ rest)) with true. cbn iota.
    destruct fuel as [|fuel]; [lia|]. cbn [parseblock]. step_peek Ha1 s2 Ha2.
    change (hd_in [40] (TSym 40 :: toks_line l ++ TSym 41 :: toks_redirs rs ++ rest)) with true. rewrite run_panic_if by done.
    step_token Ha2 q e s3 Ha3 Hw. destruct (IH fuel _ s3 h Ha3 Hfit ltac:(done) ltac:(lia)) as (s4 & c4 & h4 & E4 & Ha4 & He4 & Hl4).
    rewrite (bind_run _ _ _ _ _ E4). step_peek Ha4 s5 Ha5. change (hd_in [41] (TSym 41 :: toks_redirs rs ++ rest)) with true.
    rewrite run_panic_if by done. step_token Ha5 q2 e2 s6 Ha6 Hw2. pose proof (length_toks_redirs rs).
    destruct (complete_redirs rs fuel rest c4 s6 h4 Ha6 (ends_args_redir _ Hr) ltac:(lia)) as (s7 & c7 & h7 & E7 & Ha7 & He7 & Hw7).
    exists s7, c7, h7. split; [done|]. split; [done|]. split; [by eapply ext_trans|].
    exists c4. split; [by eapply (proj1 (repr_ext _ _ He7))|]. apply (Hw7 c4 []); [|constructor].
    by eapply (proj1 repr_lt).
Qed.

(** *** Terminating the words *)

Definition redir_e (r : redir) : nat := let '(Redir _ _ e) := r in e.
Definition redir_word (r : redir) : nat * nat := let '(Redir _ q e) := r in (q, e).
(** Where nulterminate writes, in its order. *)
Fixpoint nuls_line (l : aline) : list nat :=
  match l with LEnd p _ => nuls_pipe p | LSeq p _ rest => nuls_pipe p ++ nuls_line rest end
with nuls_pipe (p : apipe) : list nat :=
  match p with POne x => nuls_exec x | PCons x rest => nuls_exec x ++ nuls_pipe rest end
with nuls_exec (x : aexec) : list nat :=
  match x with
  | Simple rs args => map arg_e args ++ map redir_e (rs ++ flat_map snd args)
  | Block l rs => nuls_line l ++ map redir_e rs
  end.
Definition put_nuls (b : list Z) (l : list nat) : list Z := foldl (λ b e, <[e := 0]> b) b l.
Definition nulled (l : list nat) (s : shst) : shst := set_shbuf (put_nuls (sh_buf s) l) s.

Lemma nulled_app l1 l2 s : nulled l2 (nulled l1 s) = nulled (l1 ++ l2) s.
Proof. unfold nulled, put_nuls. simpl. by rewrite foldl_app. Qed.
Lemma nulled_nil s : nulled [] s = s.
Proof. by destruct s. Qed.

(** nulterminate of this command, with this much fuel, writes there. *)
Definition nuls (h : list cnode) (k c : nat) (l : list nat) : Prop :=
  ∀ fuel s, (k <= fuel)%nat → sh_heap s = h → nulterminate fuel c s = Ok tt (nulled l s).

Lemma nul_args_run args : ∀ m s, nul_args (map (λ a, Some (arg_q a)) args ++ replicate m None) (map (λ a, Some (arg_e a)) args ++ replicate m None) s
  = Ok tt (nulled (map arg_e args) s).
Proof.
  induction args as [|a args IH]; intros m s.
  - rewrite nulled_nil. by destruct m.
  - cbn [map app nul_args]. unfold put_nul. rewrite run_modify, IH. change (arg_e a :: map arg_e args) with ([arg_e a] ++ map arg_e args).
    by rewrite <-nulled_app.
Qed.

Lemma nuls_wraps h n rs c k l : wraps h n rs c → nuls h k n l → nuls h (k + length rs) c (l ++ map redir_e rs).
Proof.
  intros Hw Hn. induction Hw as [|rs c kd q e c' Hw IH Hlt Hc]; [by rewrite app_nil_r, Nat.add_0_r|].
  intros [|fuel] s Hf Hh; rewrite length_app in Hf; simpl in Hf; [lia|]. cbn [nulterminate]. run. rewrite Hh, Hc.
  rewrite (bind_run _ _ _ _ _ (IH fuel s ltac:(lia) Hh)). unfold put_nul, modify. f_equal.
  by rewrite map_app, app_assoc, <-(nulled_app (l ++ map redir_e rs)).
Qed.
Lemma nuls_backs h n m c k l : backs h n m c → nuls h k n l → nuls h (k + m) c l.
Proof.
  intros Hb Hn. induction Hb as [|m c c' Hb IH Hc]; [by rewrite Nat.add_0_r|].
  intros [|fuel] s Hf Hh; [lia|]. cbn [nulterminate]. run. rewrite Hh, Hc. apply IH; [lia|done].
Qed.
Lemma nuls_mono h k k' c l : nuls h k c l → (k <= k')%nat → nuls h k' c l.
Proof. intros Hn Hk fuel s Hf. apply Hn. lia. Qed.
Lemma nuls_two h k1 k2 a b c l1 l2 : nuls h k1 a l1 → nuls h k2 b l2 → (h !! c = Some (NPipe a b) ∨ h !! c = Some (NList a b)) →
  nuls h (S (Nat.max k1 k2)) c (l1 ++ l2).
Proof.
  intros H1 H2 Hc [|fuel] s Hf Hh; [lia|]. cbn [nulterminate]. run. rewrite Hh.
  destruct Hc as [-> | ->]; rewrite (bind_run _ _ _ _ _ (H1 fuel s ltac:(lia) Hh)), (H2 fuel (nulled l1 s)) by (lia || done);
    by rewrite nulled_app.
Qed.

Lemma nulterminate_run :
  (∀ l h c, repr_line h c l → nuls h (S (length (toks_line l))) c (nuls_line l)) ∧
  (∀ p h c, repr_pipe h c p → nuls h (S (length (toks_pipe p))) c (nuls_pipe p)) ∧
  (∀ x h c, repr_exec h c x → nuls h (S (length (toks_exec x))) c (nuls_exec x)).
Proof.
  apply syntax_ind; cbn [repr_line repr_pipe repr_exec toks_line toks_pipe toks_exec nuls_line nuls_pipe nuls_exec].
  - intros p IH n h c (a & H1 & H2). eapply nuls_mono; [eapply nuls_backs; [exact H2|by apply IH]|].
    rewrite length_app, length_replicate. lia.
  - intros p IHp n l IHl h c (a & b & r & H1 & H2 & H3 & H4).
    eapply nuls_mono; [eapply nuls_two; [eapply nuls_backs; [exact H2|by apply IHp]|by apply IHl|by right]|].
    rewrite !length_app, length_replicate. cbn [length]. lia.
  - auto.
  - intros x IHx p IHp h c (a & b & H1 & H2 & H3).
    eapply nuls_mono; [eapply nuls_two; [by apply IHx|by apply IHp|by left]|]. rewrite length_app. cbn [length]. lia.
  - intros rs args h c (n & H1 & H2). eapply nuls_mono; [eapply nuls_wraps; [exact H2|]|].
    + intros [|fuel] s Hf Hh; [|cbn [nulterminate]; run; rewrite Hh, H1; apply nul_args_run]. instantiate (1 := 1%nat) in Hf. lia.
    + rewrite !length_app. pose proof (length_toks_redirs rs).
      pose proof (length_toks_args args). lia.
  - intros l IH rs h c (n & H1 & H2). eapply nuls_mono; [eapply nuls_wraps; [exact H2|by apply IH]|].
    cbn [length]. rewrite length_app. cbn [length]. pose proof (length_toks_redirs rs). lia.
Qed.

(** *** The words *)

Definition words_args (args : list (nat * nat * list redir)) : list (nat * nat) :=
  flat_map (λ a, let '(q, e, rs) := a in (q, e) :: map redir_word rs) args.
Fixpoint words_line (l : aline) : list (nat * nat) :=
  match l with LEnd p _ => words_pipe p | LSeq p _ rest => words_pipe p ++ words_line rest end
with words_pipe (p : apipe) : list (nat * nat) :=
  match p with POne x => words_exec x | PCons x rest => words_exec x ++ words_pipe rest end
with words_exec (x : aexec) : list (nat * nat) :=
  match x with Simple rs args => map redir_word rs ++ words_args args | Block l rs => words_line l ++ map redir_word rs end.

Lemma words_toks :
  (∀ l, (∀ q e, (q, e) ∈ words_line l → TWord q e ∈ toks_line l) ∧ ∀ e, e ∈ nuls_line l ↔ ∃ q, (q, e) ∈ words_line l) ∧
  (∀ p, (∀ q e, (q, e) ∈ words_pipe p → TWord q e ∈ toks_pipe p) ∧ ∀ e, e ∈ nuls_pipe p ↔ ∃ q, (q, e) ∈ words_pipe p) ∧
  (∀ x, (∀ q e, (q, e) ∈ words_exec x → TWord q e ∈ toks_exec x) ∧ ∀ e, e ∈ nuls_exec x ↔ ∃ q, (q, e) ∈ words_exec x).
Proof.
  assert (∀ rs q e, (q, e) ∈ map redir_word rs → TWord q e ∈ toks_redirs rs) as Hr.
  { intros rs q e Hin. induction rs as [|[k q' e'] rs IH]; [by apply elem_of_nil in Hin|]. cbn [map redir_word toks_redirs flat_map] in *.
    apply elem_of_cons in Hin as [[= -> ->]|Hin]; [right; left|]. right. right. by apply IH. }
  assert (∀ rs e, e ∈ map redir_e rs ↔ ∃ q, (q, e) ∈ map redir_word rs) as Hn.
  { intros rs e. induction rs as [|[k q' e'] rs IH]; cbn [map redir_e redir_word].
    - split; [by intros ?%elem_of_nil|by intros [q ?%elem_of_nil]].
    - rewrite elem_of_cons, IH. split.
      + intros [-> | [q Hq]]; [exists q'; by left|exists q; by right].
      + intros [q [[= -> ->]|Hq]%elem_of_cons]; [by left|right; by exists q]. }
  apply syntax_ind; cbn [words_line words_pipe words_exec toks_line toks_pipe toks_exec nuls_line nuls_pipe nuls_exec].
  - intros p [H1 H2] n. split; [|done]. intros q e Hin. apply elem_of_app. left. auto.
  - intros p [H1 H2] n l [H3 H4]. split.
    + intros q e [Hin|Hin]%elem_of_app; rewrite !elem_of_app, elem_of_cons; auto.
    + intros e. rewrite elem_of_app, H2, H4. setoid_rewrite elem_of_app. naive_solver.
  - auto.
  - intros x [H1 H2] p [H3 H4]. split.
    + intros q e [Hin|Hin]%elem_of_app; rewrite !elem_of_app, elem_of_cons; auto.
    + intros e. rewrite elem_of_app, H2, H4. setoid_rewrite elem_of_app. naive_solver.
  - intros rs args. split.
    + intros q e [Hin|Hin]%elem_of_app; rewrite elem_of_app; [left; auto|right].
      induction args as [|[[q' e'] ars] args IH]; [by apply elem_of_nil in Hin|]. cbn [words_args toks_args flat_map] in *.
      apply elem_of_app in Hin as [Hin|Hin]; apply elem_of_app; [left|right; auto].
      apply elem_of_cons in Hin as [[= -> ->]|Hin]; [left|right; auto].
    + intros e. rewrite map_app, !elem_of_app, Hn. setoid_rewrite elem_of_app.
      assert ((e ∈ map arg_e args ∨ e ∈ map redir_e (flat_map snd args)) ↔ ∃ q, (q, e) ∈ words_args args) as Ha; [|naive_solver].
      induction args as [|[[q' e'] ars] args IH]; cbn [map flat_map words_args snd arg_e fst].
      * split; [by intros [?%elem_of_nil|?%elem_of_nil]|by intros [q ?%elem_of_nil]].
      * rewrite map_app, elem_of_app, !elem_of_cons, Hn. setoid_rewrite elem_of_app. setoid_rewrite elem_of_cons.
        unfold words_args in IH. naive_solver.
  - intros l [H1 H2] rs. split.
    + intros q e [Hin|Hin]%elem_of_app; rewrite !elem_of_cons, elem_of_app, elem_of_cons; auto.
    + intros e. rewrite elem_of_app, H2, Hn. setoid_rewrite elem_of_app. naive_solver.
Qed.

(** The word is a C string of the terminated line. *)
Definition is_string (buf' : list Z) (w : nat * nat) : Prop :=
  (w.1 < w.2)%nat ∧ (∀ i, (w.1 <= i < w.2)%nat → ch buf' i = ch buf i ∧ ch buf i ≠ 0) ∧ ch buf' w.2 = 0.

Lemma ch_put_nuls l : ∀ b i, ch (put_nuls b l) i = if decide (i ∈ l) then 0 else ch b i.
Proof.
  induction l as [|e l IH]; intros b i; [by rewrite decide_False by apply not_elem_of_nil|].
  unfold put_nuls in *. cbn [foldl]. rewrite IH.
  assert (ch (<[e:=0]> b) i = if decide (i = e) then 0 else ch b i) as ->.
  { unfold ch. case_decide as Hie; [subst|by rewrite list_lookup_insert_ne].
    destruct (decide (e < length b)%nat); [by rewrite list_lookup_insert_eq|].
    rewrite list_insert_ge by lia. by rewrite lookup_ge_None_2 by lia. }
  destruct (decide (i ∈ l)) as [H1|H1]; [by rewrite decide_True by (by right)|].
  destruct (decide (i = e)) as [->|H2]; [by rewrite decide_True by left|].
  by rewrite decide_False by (by apply not_elem_of_cons).
Qed.

Lemma words_strings l : lexfrom 0 = toks_line l → Forall (is_string (put_nuls buf (nuls_line l))) (words_line l).
Proof.
  intros HT. destruct (proj1 words_toks l) as [Hw Hn]. pose proof (lex_tokens 0 ltac:(lia)) as Hok. rewrite HT, Forall_forall in Hok.
  apply Forall_forall. intros [q e] Hin. destruct (Hok _ (Hw _ _ Hin)) as (H1 & H2 & H3).
  split; [simpl; lia|]. split; cbn [fst snd].
  - intros i Hi. split; [|apply ch_nonzero; lia]. rewrite ch_put_nuls. rewrite decide_False; [done|].
    intros [q' Hi']%Hn. destruct (Hok _ (Hw _ _ Hi')) as (G1 & G2 & [->|G3]); [lia|]. by rewrite H2 in G3.
  - rewrite ch_put_nuls. rewrite decide_True; [done|]. apply Hn. by exists q.
Qed.

Lemma parsecmd_accepts fuel l : lexfrom 0 = toks_line l → fits_line l → (4 * es + 4 <= fuel)%nat →
  ∃ c s, parsecmd fuel buf = Ok c s ∧ repr_line (sh_heap s) c l ∧ Forall (is_string (sh_buf s)) (words_line l).
Proof.
  intros HT Hfit Hf. pose proof (length_lexfrom 0 ltac:(lia)) as Hlen. rewrite HT in Hlen.
  assert (at_heap (ShSt 0 [] buf) (toks_line l ++ []) []) as Ha by (rewrite app_nil_r; split; [|done]; split; [done|split; [simpl; lia|done]]).
  destruct (proj1 complete_parse l fuel [] _ [] Ha Hfit eq_refl ltac:(lia)) as (s1 & c & h & E & [Ha1 Hh1] & _ & Hrep).
  unfold parsecmd, parsecmd_es. rewrite (bind_run _ _ _ _ _ E).
  destruct (peek_at [] _ _ Ha1 eq_refl) as (s2 & E2 & Ha2 & Hh2 & Hps). rewrite (bind_run _ _ _ _ _ E2).
  run. rewrite (proj2 Hps eq_refl), run_panic_if by (by rewrite Nat.eqb_refl).
  rewrite Hh1 in Hh2. rewrite (bind_run _ _ _ _ _ (proj1 nulterminate_run l h c Hrep fuel s2 ltac:(lia) Hh2)).
  eexists c, _. split; [done|]. split; [by cbn; rewrite Hh2|]. cbn. destruct Ha2 as [-> _]. by apply words_strings.
Qed.
End lexer.

Lemma parsecmd_cases fuel line : Forall (λ c, c ≠ 0) line → (4 * length line + 4 <= fuel)%nat →
  (∃ msg s, parsecmd fuel line = Panic msg s) ∨ ∃ l, fits_line l ∧ lexfrom line 0 = toks_line l.
Proof.
  intros Hb Hf. pose proof (length_lexfrom line 0 ltac:(lia)) as Hlen.
  assert (at_ line (ShSt 0 [] line) (lexfrom line 0)) as Ha by (split; [done|split; [simpl; lia|done]]).
  pose proof (proj1 (sound_parse line Hb fuel) _ _ Ha ltac:(lia)) as Hs. unfold runs in Hs.
  unfold parsecmd, parsecmd_es. unfold mbind at 1, M_bind at 1.
  destruct (parseline (length line) fuel (ShSt 0 [] line)) as [c1 s1|msg1 s1|s1|]; [|left; by exists msg1, s1|done..].
  destruct Hs as (l & rest & HT & Hfit & Ha1).
  destruct (peek_at line Hb [] _ _ Ha1 eq_refl) as (s2 & E2 & Ha2 & _ & Hps). rewrite (bind_run _ _ _ _ _ E2). run.
  destruct (Nat.eqb_spec (sh_ps s2) (length line)) as [Heq|Hne]; cbn [negb].
  - right. exists l. split; [done|]. by rewrite HT, (proj1 Hps Heq), app_nil_r.
  - left. by exists "syntax", s2.
Qed.

Lemma parsecmd_tree fuel line c s : Forall (λ c, c ≠ 0) line → (4 * length line + 4 <= fuel)%nat → parsecmd fuel line = Ok c s →
  ∃ l, tokens line = toks_line l ∧ fits_line l ∧ repr_line (sh_heap s) c l ∧ Forall (is_string line (sh_buf s)) (words_line l).
Proof.
  intros Hb Hf E. destruct (parsecmd_cases fuel line Hb Hf) as [(msg & s' & E')|(l & Hfit & HT)]; [by rewrite E in E'|].
  destruct (parsecmd_accepts line Hb fuel l HT Hfit Hf) as (c' & s' & E' & H1). rewrite E in E'. injection E' as <- <-. by exists l.
Qed.

(** C13. The parser is correct for every command line: with fuel linear in its length it
    returns exactly if the line's tokens are those of a syntax tree whose commands
    have fewer than ten words; the structures it then leaves in memory are that tree
    - commands, redirections with their modes and descriptors, pipelines, lists and
    background commands, the arguments in place although they were filled in after
    the redirections were wrapped around them - and every word has become the C
    string that it was in the line. On every other line it stops with an error. *)
Theorem parsecmd_correct fuel line :
  Forall (λ c, c ≠ 0) line → (4 * length line + 4 <= fuel)%nat →
  match parsecmd fuel line with
  | Ok c s => ∃ l, tokens line = toks_line l ∧ fits_line l ∧ repr_line (sh_heap s) c l ∧
      Forall (is_string line (sh_buf s)) (words_line l)
  | Panic _ _ => ∀ l, fits_line l → tokens line ≠ toks_line l
  | _ => False
  end.
Proof.
  intros Hb Hf. change (tokens line) with (lexfrom line 0).
  assert (∀ l, fits_line l → lexfrom line 0 = toks_line l → ∃ c s, parsecmd fuel line = Ok c s ∧ repr_line (sh_heap s) c l ∧
    Forall (is_string line (sh_buf s)) (words_line l)) as Hacc by (intros l H1 H2; by apply parsecmd_accepts).
  destruct (parsecmd_cases fuel line Hb Hf) as [(msg & s & E)|(l & Hfit & HT)].
  - rewrite E. intros l Hl HT. destruct (Hacc l Hl HT) as (c & s' & E' & _). by rewrite E in E'.
  - destruct (Hacc l Hfit HT) as (c & s' & -> & H1). by exists l.
Qed.

(** ** Running *)

(** What the tree has done: the words of each program started, and what is behind its
    descriptors 0, 1 and 2; and what is behind those of a shell when it waits with so
    many children left. A shell waits once for the left side of a list, before it goes
    on with the rest, and twice for a pipeline. The first redirection of each kind is the one that counts,
    since the last one is carried out first; a file that cannot be opened keeps the
    command from running. A pipeline [k] connects its two sides. *)
Inductive launch := Start (words : list nat) (i o e : fdobj) | Wait (kids : nat) (i o e : fdobj).
Section launches.
Variable can_open : nat → Z → bool.
Definition redirect (r : redir) (io : option (fdobj * fdobj)) : option (fdobj * fdobj) :=
  let '(Redir k q _) := r in
  match io with
  | None => None
  | Some (i, o) =>
      if can_open q (rmode k) then Some (match k with RIn => (FFile q (rmode k), o) | _ => (i, FFile q (rmode k)) end) else None
  end.
Definition redirects (rs : list redir) (i o : fdobj) : option (fdobj * fdobj) := foldr redirect (Some (i, o)) rs.
Fixpoint launch_line (l : aline) (i o e : fdobj) (k : nat) : list launch * nat :=
  match l with
  | LEnd p _ => launch_pipe p i o e k
  | LSeq p _ rest =>
      let '(l1, k) := launch_pipe p i o e k in
      let '(l2, k) := launch_line rest i o e k in (l1 ++ Wait 1 i o e :: l2, k)
  end
with launch_pipe (p : apipe) (i o e : fdobj) (k : nat) : list launch * nat :=
  match p with
  | POne x => launch_exec x i o e k
  | PCons x rest =>
      let '(l1, k1) := launch_exec x i (FPipeW k) e (S k) in
      let '(l2, k2) := launch_pipe rest (FPipeR k) o e k1 in (l1 ++ l2 ++ [Wait 2 i o e; Wait 1 i o e], k2)
  end
with launch_exec (x : aexec) (i o e : fdobj) (k : nat) : list launch * nat :=
  match x with
  | Simple rs args =>
      (match redirects (rs ++ flat_map snd args) i o with
       | Some (i, o) => if args is [] then [] else [Start (map arg_q args) i o e]
       | None => []
       end, k)
  | Block l rs => match redirects rs i o with Some (i, o) => launch_line l i o e k | None => ([], k) end
  end.
End launches.

(** A process with three descriptors open. *)
Definition std (i o e : fdobj) : fdtab := [Some i; Some o; Some e] ++ replicate 13 None.
Definition started (x : launch) : deed :=
  match x with
  | Start words i o e => Execs (map Some words ++ replicate (MAXARGS - length words) None) (std i o e)
  | Wait kids i o e => Waits kids (std i o e)
  end.

Lemma fork1_bind {A} (child : shproc → M runst unit) t n s s' (k : shproc → M runst A) :
  child (ShProc t 0) s = Ok tt s' → (fork1 child (ShProc t n) ≫= k) s = k (ShProc t (S n)) s'.
Proof. intros E. unfold mbind at 1, M_bind at 1, fork1. cbn [p_fds p_kids]. by rewrite (bind_run _ _ _ _ _ E). Qed.
Lemma wait_bind {A} p s (k : shproc → M runst A) :
  (wait_child p ≫= k) s =
    k (ShProc (p_fds p) (pred (p_kids p))) (RunSt (rs_pipes s) (rs_log s ++ [Waits (p_kids p) (p_fds p)])).
Proof. done. Qed.

Section running.
Variable h : list cnode.
Variable can_open : nat → Z → bool.
(** runcmd of this command does this, from three descriptors. *)
Definition does (n c : nat) (f : fdobj → fdobj → fdobj → nat → list launch * nat) : Prop :=
  ∀ fuel i o e s, (n <= fuel)%nat → runcmd h can_open fuel c (ShProc (std i o e) 0) s =
    Ok tt (RunSt (f i o e (rs_pipes s)).2 (rs_log s ++ map started (f i o e (rs_pipes s)).1)).

Lemma does_mono n n' c f : does n c f → (n <= n')%nat → does n' c f.
Proof. intros H0 Hn fuel i o e s Hf. apply H0. lia. Qed.

Lemma does_wraps n rs c k f : wraps h n rs c → does k n f →
  does (k + length rs) c (λ i o e p, match redirects can_open rs i o with Some (i, o) => f i o e p | None => ([], p) end).
Proof.
  intros Hw Hn. induction Hw as [|rs c kd q e0 c' Hw IH Hlt Hc]; [by rewrite Nat.add_0_r|].
  intros [|fuel] i o e s Hf; rewrite length_app in Hf; simpl in Hf; [lia|]. cbn [runcmd]. rewrite Hc.
  unfold redirects. rewrite foldr_app. cbn [foldr redirect].
  assert (foldr (redirect can_open) None rs = None) as Hnone.
  { clear. induction rs as [|[k q e] rs IH]; [done|]. cbn [foldr redirect]. by rewrite IH. }
  destruct (can_open q (rmode kd)).
  - specialize (IH fuel). unfold redirects in IH. destruct kd; cbn; apply IH; lia.
  - rewrite Hnone. cbn. rewrite app_nil_r. by destruct s.
Qed.

Lemma does_backs n m c k f : backs h n m c → does k n f → does (k + m) c f.
Proof.
  intros Hb Hn. induction Hb as [|m c c' Hb IH Hc]; [by rewrite Nat.add_0_r|].
  intros [|fuel] i o e s Hf; [lia|]. cbn [runcmd]. rewrite Hc.
  by rewrite (fork1_bind _ _ _ _ _ _ (IH fuel i o e s ltac:(lia))).
Qed.

Lemma does_tree :
  (∀ l c, repr_line h c l → fits_line l → does (S (length (toks_line l))) c (launch_line can_open l)) ∧
  (∀ p c, repr_pipe h c p → fits_pipe p → does (S (length (toks_pipe p))) c (launch_pipe can_open p)) ∧
  (∀ x c, repr_exec h c x → fits_exec x → does (S (length (toks_exec x))) c (launch_exec can_open x)).
Proof.
  apply syntax_ind; cbn [repr_line repr_pipe repr_exec toks_line toks_pipe toks_exec launch_line launch_pipe launch_exec fits_line fits_pipe fits_exec].
  - intros p IH n c (a & H1 & H2) Hf. eapply does_mono; [eapply does_backs; [exact H2|by apply IH]|].
    rewrite length_app, length_replicate. lia.
  - intros p IHp n l IHl c (a & b & r & H1 & H2 & H3 & H4) [Hf1 Hf2] [|fuel] i o e s Hf; [lia|].
    rewrite !length_app, length_replicate in Hf. cbn [length runcmd] in *. rewrite H4.
    rewrite (fork1_bind _ _ _ _ _ _ (does_backs _ _ _ _ _ H2 (IHp a H1 Hf1) fuel i o e s ltac:(lia))), wait_bind.
    cbn [p_fds p_kids pred rs_pipes rs_log].
    rewrite (IHl r H3 Hf2 fuel) by lia. cbn [rs_pipes rs_log].
    destruct (launch_pipe can_open p i o e (rs_pipes s)) as [l1 k1]. cbn [fst snd].
    destruct (launch_line can_open l i o e k1) as [l2 k2]. cbn [fst snd]. by rewrite map_app, <-!app_assoc.
  - auto.
  - intros x IHx p IHp c (a & b & H1 & H2 & H3) [Hf1 Hf2] [|fuel] i o e s Hf; [lia|].
    rewrite length_app in Hf. cbn [length runcmd] in *. rewrite H3. run. cbn [p_fds pipe fd_alloc std app replicate].
    run. erewrite fork1_bind by (refine (IHx a H1 Hf1 fuel i (FPipeW (rs_pipes s)) e (RunSt (S (rs_pipes s)) (rs_log s)) _); lia).
    cbn [rs_pipes rs_log].
    destruct (launch_exec can_open x i (FPipeW (rs_pipes s)) e (S (rs_pipes s))) as [l1 k1]. cbn [fst snd].
    erewrite fork1_bind by (refine (IHp b H2 Hf2 fuel (FPipeR (rs_pipes s)) o e (RunSt k1 (rs_log s ++ map started l1)) _); lia).
    rewrite !wait_bind.
    cbn [rs_pipes rs_log].
    destruct (launch_pipe can_open p (FPipeR (rs_pipes s)) o e k1) as [l2 k2]. cbn [fst snd].
    rewrite !map_app, <-!app_assoc. done.
  - intros rs args c (n & H1 & H2) Hl.
    assert (does 1 n (λ i o e k, (if args is [] then [] else [Start (map arg_q args) i o e], k))) as Hn.
    { intros [|fuel] i o e s Hf; [lia|]. cbn [runcmd]. rewrite H1. destruct args as [|a args].
      - cbn. rewrite app_nil_r. by destruct s.
      - cbn [argv_of map app lookup list_lookup]. unfold log_deed, modify. do 2 f_equal. cbn [fst snd map started].
        cbn [length app]. by rewrite length_map, map_map. }
    intros fuel i o e s Hf. rewrite (does_wraps _ _ _ _ _ H2 Hn fuel i o e s).
    + by destruct (redirects can_open (rs ++ flat_map snd args) i o) as [[]|].
    + rewrite !length_app in *. pose proof (length_toks_redirs rs). pose proof (length_toks_args args). lia.
  - intros l IH rs c (n & H1 & H2) Hl fuel i o e s Hf. cbn [length] in Hf. rewrite length_app in Hf. cbn [length] in Hf.
    pose proof (length_toks_redirs rs). apply (does_wraps _ _ _ _ _ H2 (IH n H1 Hl)). lia.
Qed.
End running.

(** C25. Running a command line does exactly what its tree says. The programs started
    are those of the tree, with their words and with the right descriptors: in a
    pipeline the output of each command and the input of the next are the two ends of
    one new pipe, and redirections are applied. Every shell of the line waits exactly
    for its foreground children: once for the left side of a list before it goes on,
    twice for a pipeline, never for a background command. No program is started with an
    extra descriptor, and no shell waits with one: neither a program nor a shell that
    waits for it holds an end of a pipe that is not its own descriptor 0 or 1, so
    readers see the end of file. *)
Theorem runcmd_correct can_open fuel fuel2 line c s i o e st :
  Forall (λ c, c ≠ 0) line → (4 * length line + 4 <= fuel)%nat → (length line < fuel2)%nat →
  parsecmd fuel line = Ok c s →
  ∃ l, tokens line = toks_line l ∧
    runcmd (sh_heap s) can_open fuel2 c (ShProc (std i o e) 0) st =
      Ok tt (RunSt (launch_line can_open l i o e (rs_pipes st)).2
               (rs_log st ++ map started (launch_line can_open l i o e (rs_pipes st)).1)).
Proof.
  intros Hb Hf Hf2 E. destruct (parsecmd_tree fuel line c s Hb Hf E) as (l & HT & Hfit & Hrep & _).
  exists l. split; [done|]. apply (proj1 (does_tree (sh_heap s) can_open) l c Hrep Hfit).
  rewrite <-HT. pose proof (length_lexfrom line 0 ltac:(lia)) as Hlen. change (lexfrom line 0) with (tokens line) in Hlen. lia.
Qed.

(** ls -l < b; a&: an EXEC, a REDIR around it, and a LIST with a background command. *)
Definition sh_line : list Z := [108; 115; 32; 60; 98; 32; 45; 108; 59; 32; 97; 38].
Lemma parsecmd_correct_witness : ∃ s,
  parsecmd 60 sh_line = Ok 4%nat s ∧ sh_buf s = [108; 115; 0; 60; 98; 0; 45; 108; 0; 32; 97; 0] ∧
  ∃ l, tokens sh_line = toks_line l ∧ repr_line (sh_heap s) 4 l.
Proof.
  assert (Forall (λ c, c ≠ 0) sh_line) as Hb by (repeat (constructor; [done|]); constructor).
  pose proof (parsecmd_correct 60 sh_line Hb ltac:(simpl; lia)) as H.
  destruct (parsecmd 60 sh_line) as [c s| | |] eqn:E; [|vm_compute in E; discriminate..].
  vm_compute in E. injection E as <- <-. eexists. split; [reflexivity|]. split; [reflexivity|].
  destruct H as (l & H1 & _ & H2 & _). by exists l.
Defined.

(** a|b *)
Lemma runcmd_correct_witness : ∃ s l,
  parsecmd 60 [97; 124; 98] = Ok 2%nat s ∧ tokens [97; 124; 98] = toks_line l ∧
  let ran := [Execs (Some 0%nat :: replicate 9 None) (std (FInit 0) (FPipeW 0) (FInit 2));
              Execs (Some 2%nat :: replicate 9 None) (std (FPipeR 0) (FInit 1) (FInit 2));
              Waits 2 (std (FInit 0) (FInit 1) (FInit 2)); Waits 1 (std (FInit 0) (FInit 1) (FInit 2))] in
  runcmd (sh_heap s) (λ _ _, true) 10 2 (ShProc (std (FInit 0) (FInit 1) (FInit 2)) 0) (RunSt 0 []) = Ok tt (RunSt 1 ran) ∧
  map started (launch_line (λ _ _, true) l (FInit 0) (FInit 1) (FInit 2) 0).1 = ran.
Proof.
  assert (Forall (λ c, c ≠ 0) [97; 124; 98]) as Hb by (repeat (constructor; [done|]); constructor).
  destruct (parsecmd 60 [97; 124; 98]) as [c s| | |] eqn:E; [|vm_compute in E; discriminate..].
  destruct (runcmd_correct (λ _ _, true) 60 10 [97; 124; 98] c s (FInit 0) (FInit 1) (FInit 2) (RunSt 0 []) Hb
    ltac:(simpl; lia) ltac:(simpl; lia) E) as (l & H1 & H2).
  exists s, l. vm_compute in E. injection E as <- <-. split; [reflexivity|]. split; [exact H1|].
  intros ran. set (L := map started _) in *. cbn [rs_log app rs_pipes] in H2. split; [vm_compute; reflexivity|].
  vm_compute (runcmd _ _ _ _ _ _) in H2. injection H2 as _ H2. symmetry. exact H2.
Defined.
