(* ===== verification/Mp.v ===== *)
(** * Multiprocessor tables, the local interrupt controller and the clock (mp.c, lapic.c)

    The BIOS's tables are bytes of physical memory, read at their kernel addresses.
    [mp_lapic] is the pointer lapic (0 before mpinit), [mp_cpus] the apic ids of the
    array cpus up to ncpu. *)

From S2P Require Import Prelude Cstring Kalloc Hw.

Definition NCPU : Z := 8.
Definition MPPROC : Z := 0.
Definition MPBUS : Z := 1.
Definition MPIOAPIC : Z := 2.
Definition MPIOINTR : Z := 3.
Definition MPLINTR : Z := 4.

Record mpst (H : Type) := MpSt { mp_hw : H; mp_mem : mem; mp_lapic : Z; mp_cpus : list Z; mp_ioapicid : Z }.
Arguments MpSt {H} _ _ _ _ _.
Arguments mp_hw {H} _.
Arguments mp_mem {H} _.
Arguments mp_lapic {H} _.
Arguments mp_cpus {H} _.
Arguments mp_ioapicid {H} _.

Definition byte16 (m : mem) (p : Z) : Z := u8 (m p) + 256 * u8 (m (p + 1)).

(** The sum of [len] bytes, as a byte. *)
Definition sum (m : mem) (addr len : Z) : Z := u8 (foldl (λ s i, s32 (s + u8 (m (addr + i)))) 0 (seqZ 0 len)).
(** memcmp(p, sig, length) == 0 *)
Definition sig_at (m : mem) (p : Z) (sig : list Z) : bool := bool_decide (map (λ i, u8 (m (p + i))) (seqZ 0 (Z.of_nat (length sig))) = sig).
(** _MP_ and PCMP *)
Definition sig_mp : list Z := [95; 77; 80; 95].
Definition sig_conf : list Z := [80; 67; 77; 80].

(** for(p = addr; p < e; p += sizeof(struct mp)): [n] steps are left. *)
Fixpoint mpsearch1_loop (n : nat) (m : mem) (p : Z) : Z :=
  match n with
  | O => 0
  | S n => if sig_at m p sig_mp && (sum m p 16 =? 0) then p else mpsearch1_loop n m (p + 16)
  end.
Definition mpsearch1 (m : mem) (a len : Z) : Z := mpsearch1_loop (Z.to_nat ((len + 15) / 16)) m (P2V a).

Definition mpsearch (m : mem) : Z :=
  let bda := P2V 0x400 in
  let p := Z.shiftl (Z.lor (Z.shiftl (u8 (m (bda + 0x0F))) 8) (u8 (m (bda + 0x0E)))) 4 in
  if negb (p =? 0) then
    let mp := mpsearch1 m p 1024 in
    if negb (mp =? 0) then mp else mpsearch1 m 0xF0000 0x10000
  else
    let p := Z.lor (Z.shiftl (u8 (m (bda + 0x14))) 8) (u8 (m (bda + 0x13))) * 1024 in
    let mp := mpsearch1 m (u32 (p - 1024)) 1024 in
    if negb (mp =? 0) then mp else mpsearch1 m 0xF0000 0x10000.

(** The structure and the table, or 0 for the table. *)
Definition mpconfig (m : mem) : Z * Z :=
  let mp := mpsearch m in
  if (mp =? 0) || (load32 m (mp + 4) =? 0) then (mp, 0)
  else
    let conf := P2V (load32 m (mp + 4)) in
    if negb (sig_at m conf sig_conf) then (mp, 0)
    else if negb (u8 (m (conf + 6)) =? 1) && negb (u8 (m (conf + 6)) =? 4) then (mp, 0)
    else if negb (sum m conf (byte16 m (conf + 4)) =? 0) then (mp, 0)
    else (mp, conf).

Section mp.
Context {H : Type} `{!Machine H}.
Implicit Types (s : mpst H).

Definition mphw {A} (m : M H A) : M (mpst H) A :=
  zoom mp_hw (λ h s, MpSt h (mp_mem s) (mp_lapic s) (mp_cpus s) (mp_ioapicid s)) m.
Definition set_lapic v s : mpst H := MpSt (mp_hw s) (mp_mem s) v (mp_cpus s) (mp_ioapicid s).
Definition add_cpu id s : mpst H := MpSt (mp_hw s) (mp_mem s) (mp_lapic s) (mp_cpus s ++ [id]) (mp_ioapicid s).
Definition set_ioapicid v s : mpst H := MpSt (mp_hw s) (mp_mem s) (mp_lapic s) (mp_cpus s) v.
Definition set_mpmem v s : mpst H := MpSt (mp_hw s) v (mp_lapic s) (mp_cpus s) (mp_ioapicid s).

(** The loop over the entries; the result is ismp. An unknown entry leaves the
    switch, and p where it is. *)
Fixpoint mp_entries (fuel : nat) (p e : Z) (ismp : bool) : M (mpst H) bool :=
  match fuel with
  | O => no_fuel
  | S fuel =>
      if p <? e then
        m ← gets mp_mem;
        let ty := u8 (m p) in
        if ty =? MPPROC then
          cpus ← gets mp_cpus;
          (if Z.of_nat (length cpus) <? NCPU then modify (add_cpu (u8 (m (p + 1)))) else mret tt);;
          mp_entries fuel (p + 20) e ismp
        else if ty =? MPIOAPIC then modify (set_ioapicid (u8 (m (p + 1))));; mp_entries fuel (p + 8) e ismp
        else if (ty =? MPBUS) || (ty =? MPIOINTR) || (ty =? MPLINTR) then mp_entries fuel (p + 8) e ismp
        else mp_entries fuel p e false
      else mret ismp
  end.

Definition mpinit (fuel : nat) : M (mpst H) unit :=
  m ← gets mp_mem;
  let '(mp, conf) := mpconfig m in
  panic_if (conf =? 0) "Expect to run on an SMP";;
  modify (set_lapic (load32 m (conf + 36)));;
  ismp ← mp_entries fuel (conf + 44) (conf + byte16 m (conf + 4)) true;
  panic_if (negb ismp) "Didn't find a suitable machine";;
  if negb (u8 (m (mp + 12)) =? 0) then
    mphw (outb 0x22 0x70;; v ← inb 0x23; outb 0x23 (Z.lor v 1))
  else mret tt.

(** ** lapic.c *)

Definition ID : Z := 0x0020 / 4.
Definition VER : Z := 0x0030 / 4.
Definition TPR : Z := 0x0080 / 4.
Definition EOI : Z := 0x00B0 / 4.
Definition SVR : Z := 0x00F0 / 4.
Definition ENABLE : Z := 0x100.
Definition ESR : Z := 0x0280 / 4.
Definition ICRLO : Z := 0x0300 / 4.
Definition INIT : Z := 0x500.
Definition STARTUP : Z := 0x600.
Definition DELIVS : Z := 0x1000.
Definition ASSERT : Z := 0x4000.
Definition LEVEL : Z := 0x8000.
Definition BCAST : Z := 0x80000.
Definition ICRHI : Z := 0x0310 / 4.
Definition TIMER : Z := 0x0320 / 4.
Definition X1 : Z := 0xB.
Definition PERIODIC : Z := 0x20000.
Definition PCINT : Z := 0x0340 / 4.
Definition LINT0 : Z := 0x0350 / 4.
Definition LINT1 : Z := 0x0360 / 4.
Definition ERROR : Z := 0x0370 / 4.
Definition MASKED : Z := 0x10000.
Definition TICR : Z := 0x0380 / 4.
Definition TDCR : Z := 0x03E0 / 4.
Definition IRQ_SPURIOUS : Z := 31.
Definition IRQ_TIMER : Z := 0.
Definition IRQ_ERROR : Z := 19.
Definition T_IRQ0 : Z := 32.

Definition lapicr (index : Z) : M (mpst H) Z := l ← gets mp_lapic; mphw (mmio_read (l + 4 * index)).
Definition lapicw (index value : Z) : M (mpst H) unit :=
  l ← gets mp_lapic;
  mphw (mmio_write (l + 4 * index) value);;
  _ ← lapicr ID; mret tt.

Fixpoint wait_delivs (fuel : nat) : M (mpst H) unit :=
  match fuel with
  | O => no_fuel
  | S fuel => v ← lapicr ICRLO; if negb (Z.land v DELIVS =? 0) then wait_delivs fuel else mret tt
  end.

Definition lapicinit (fuel : nat) : M (mpst H) unit :=
  l ← gets mp_lapic;
  if l =? 0 then mret tt
  else
    lapicw SVR (Z.lor ENABLE (T_IRQ0 + IRQ_SPURIOUS));;
    lapicw TDCR X1;;
    lapicw TIMER (Z.lor PERIODIC (T_IRQ0 + IRQ_TIMER));;
    lapicw TICR 10000000;;
    lapicw LINT0 MASKED;;
    lapicw LINT1 MASKED;;
    v ← lapicr VER;
    (if 4 <=? Z.land (Z.shiftr v 16) 0xFF then lapicw PCINT MASKED else mret tt);;
    lapicw ERROR (T_IRQ0 + IRQ_ERROR);;
    lapicw ESR 0;;
    lapicw ESR 0;;
    lapicw EOI 0;;
    lapicw ICRHI 0;;
    lapicw ICRLO (Z.lor (Z.lor BCAST INIT) LEVEL);;
    wait_delivs fuel;;
    lapicw TPR 0.

Definition lapicid : M (mpst H) Z :=
  l ← gets mp_lapic;
  if l =? 0 then mret 0 else v ← lapicr ID; mret (Z.shiftr v 24).

Definition lapiceoi : M (mpst H) unit :=
  l ← gets mp_lapic;
  if negb (l =? 0) then lapicw EOI 0 else mret tt.

Definition CMOS_PORT : Z := 0x70.
Definition CMOS_RETURN : Z := 0x71.

Definition lapicstartap (apicid addr : Z) : M (mpst H) unit :=
  mphw (outb CMOS_PORT 0xF);;
  mphw (outb (CMOS_PORT + 1) 0x0A);;
  let wrv := P2V (Z.lor (Z.shiftl 0x40 4) 0x67) in
  modify (λ s, set_mpmem (store_bytes (store_bytes (mp_mem s) wrv (le_bytes 2 0)) (wrv + 2) (le_bytes 2 (Z.shiftr addr 4))) s);;
  lapicw ICRHI (Z.shiftl apicid 24);;
  lapicw ICRLO (Z.lor (Z.lor INIT LEVEL) ASSERT);;
  lapicw ICRLO (Z.lor INIT LEVEL);;
  for_each [0; 1] (λ _,
    lapicw ICRHI (Z.shiftl apicid 24);;
    lapicw ICRLO (Z.lor STARTUP (Z.shiftr addr 12))).

Definition CMOS_STATA : Z := 0x0a.
Definition CMOS_STATB : Z := 0x0b.
Definition CMOS_UIP : Z := Z.shiftl 1 7.
Definition SECS : Z := 0x00.
Definition MINS : Z := 0x02.
Definition HOURS : Z := 0x04.
Definition DAY : Z := 0x07.
Definition MONTH : Z := 0x08.
Definition YEAR : Z := 0x09.

Definition cmos_read (reg : Z) : M (mpst H) Z :=
  mphw (outb CMOS_PORT reg);;
  mphw (inb CMOS_RETURN).

(** second, minute, hour, day, month, year *)
Record rtcdate := Rtcdate { r_second : Z; r_minute : Z; r_hour : Z; r_day : Z; r_month : Z; r_year : Z }.
#[export] Instance rtcdate_dec : EqDecision rtcdate.
Proof. solve_decision. Defined.

Definition fill_rtcdate : M (mpst H) rtcdate :=
  s ← cmos_read SECS; mi ← cmos_read MINS; h ← cmos_read HOURS;
  d ← cmos_read DAY; mo ← cmos_read MONTH; y ← cmos_read YEAR;
  mret (Rtcdate s mi h d mo y).

(** The loop that reads until the clock stands still. *)
Fixpoint cmos_loop (fuel : nat) : M (mpst H) rtcdate :=
  match fuel with
  | O => no_fuel
  | S fuel =>
      t1 ← fill_rtcdate;
      a ← cmos_read CMOS_STATA;
      if negb (Z.land a CMOS_UIP =? 0) then cmos_loop fuel
      else
        t2 ← fill_rtcdate;
        if decide (t1 = t2) then mret t1 else cmos_loop fuel
  end.

Definition conv (x : Z) : Z := Z.shiftr x 4 * 10 + Z.land x 0xf.
Definition cmostime (fuel : nat) : M (mpst H) rtcdate :=
  sb ← cmos_read CMOS_STATB;
  let bcd := Z.land sb (Z.shiftl 1 2) =? 0 in
  t1 ← cmos_loop fuel;
  let t1 := if bcd
            then Rtcdate (conv (r_second t1)) (conv (r_minute t1)) (conv (r_hour t1)) (conv (r_day t1)) (conv (r_month t1)) (conv (r_year t1))
            else t1 in
  mret (Rtcdate (r_second t1) (r_minute t1) (r_hour t1) (r_day t1) (r_month t1) (r_year t1 + 2000)).
End mp.
