(* ===== verification/MpSpec.v ===== *)
(** * What mpinit finds, and what the clock says *)

From S2P Require Import Prelude Cstring Kalloc Hw Mp.

(** A floating pointer structure: its signature, and bytes that add up to 0. *)
Definition is_mp (m : mem) (p : Z) : Prop := sig_at m p sig_mp = true ∧ sum m p 16 = 0.

Lemma mpsearch1_loop_spec m n : ∀ p,
  (∃ k, (k < n)%nat ∧ mpsearch1_loop n m p = p + 16 * Z.of_nat k ∧ is_mp m (p + 16 * Z.of_nat k) ∧
     ∀ j, (j < k)%nat → ¬ is_mp m (p + 16 * Z.of_nat j)) ∨
  (mpsearch1_loop n m p = 0 ∧ ∀ j, (j < n)%nat → ¬ is_mp m (p + 16 * Z.of_nat j)).
Proof.
  induction n as [|n IH]; intros p; cbn [mpsearch1_loop]; [right; split; [done|]; intros; lia|].
  destruct (sig_at m p sig_mp && (sum m p 16 =? 0)) eqn:E.
  - left. exists O. rewrite Z.mul_0_r, Z.add_0_r. apply andb_true_iff in E as [E1 E2%Z.eqb_eq].
    split; [lia|]. split; [done|]. split; [done|]. intros; lia.
  - assert (¬ is_mp m p) as Hno by (intros [E1 E2]; by rewrite E1, E2 in E).
    destruct (IH (p + 16)) as [(k & H1 & H2 & H3 & H4)|[H1 H2]].
    + left. exists (S k). replace (p + 16 * Z.of_nat (S k)) with (p + 16 + 16 * Z.of_nat k) by lia.
      split; [lia|]. split; [done|]. split; [done|]. intros [|j] Hj; [by rewrite Z.mul_0_r, Z.add_0_r|].
      replace (p + 16 * Z.of_nat (S j)) with (p + 16 + 16 * Z.of_nat j) by lia. apply H4. lia.
    + right. split; [done|]. intros [|j] Hj; [by rewrite Z.mul_0_r, Z.add_0_r|].
      replace (p + 16 * Z.of_nat (S j)) with (p + 16 + 16 * Z.of_nat j) by lia. apply H2. lia.
Qed.

(** The places where BIOSes put the structure: [a] is a physical address and [len] the
    length of the area. *)
Definition bios_area (m : mem) (a len : Z) : Prop :=
  let bda := P2V 0x400 in
  let ebda := Z.shiftl (Z.lor (Z.shiftl (u8 (m (bda + 0x0F))) 8) (u8 (m (bda + 0x0E)))) 4 in
  let base := Z.lor (Z.shiftl (u8 (m (bda + 0x14))) 8) (u8 (m (bda + 0x13))) * 1024 in
  (a = ebda ∧ ebda ≠ 0 ∧ len = 1024) ∨ (a = u32 (base - 1024) ∧ ebda = 0 ∧ len = 1024) ∨ (a = 0xF0000 ∧ len = 0x10000).

Lemma mpsearch_spec m : mpsearch m ≠ 0 →
  is_mp m (mpsearch m) ∧ ∃ a len k, bios_area m a len ∧ mpsearch m = P2V a + 16 * Z.of_nat k ∧ 0 <= 16 * Z.of_nat k < len.
Proof.
  assert (∀ a len, 0 <= len → mpsearch1 m a len ≠ 0 → is_mp m (mpsearch1 m a len) ∧ ∃ k, mpsearch1 m a len = P2V a + 16 * Z.of_nat k ∧
    0 <= 16 * Z.of_nat k < len) as H1.
  { intros a len Hlen Hne. unfold mpsearch1 in *. destruct (mpsearch1_loop_spec m (Z.to_nat ((len + 15) / 16)) (P2V a)) as [(k & Hk & -> & Hm & _)|[Hz _]].
    - split; [done|]. exists k. split; [done|]. assert (Z.of_nat k < (len + 15) / 16) by lia.
      pose proof (Z.mul_div_le (len + 15) 16). lia.
    - done. }
  unfold mpsearch, bios_area. set (ebda := Z.shiftl _ 4). set (base := Z.lor _ _ * 1024).
  destruct (Z.eqb_spec ebda 0) as [Ee|Ee]; cbn [negb].
  - destruct (Z.eqb_spec (mpsearch1 m (u32 (base - 1024)) 1024) 0) as [Em|Em]; cbn [negb]; intros Hne.
    + destruct (H1 0xF0000 0x10000 ltac:(lia) Hne) as (H2 & k & H3 & H4). split; [exact H2|]. exists 0xF0000, 0x10000, k. split; [right; right; split; reflexivity|exact (conj H3 H4)].
    + destruct (H1 _ 1024 ltac:(done) Hne) as (H2 & k & H3 & H4). split; [exact H2|]. exists (u32 (base - 1024)), 1024, k. split; [right; left; split; [reflexivity|split; [exact Ee|reflexivity]]|exact (conj H3 H4)].
  - destruct (Z.eqb_spec (mpsearch1 m ebda 1024) 0) as [Em|Em]; cbn [negb]; intros Hne.
    + destruct (H1 0xF0000 0x10000 ltac:(lia) Hne) as (H2 & k & H3 & H4). split; [exact H2|]. exists 0xF0000, 0x10000, k. split; [right; right; split; reflexivity|exact (conj H3 H4)].
    + destruct (H1 _ 1024 ltac:(done) Hne) as (H2 & k & H3 & H4). split; [exact H2|]. exists ebda, 1024, k. split; [left; split; [reflexivity|split; [exact Ee|reflexivity]]|exact (conj H3 H4)].
Qed.

(** A configuration table that may be used. *)
Definition conf_ok (m : mem) (conf : Z) : Prop :=
  sig_at m conf sig_conf = true ∧ (u8 (m (conf + 6)) = 1 ∨ u8 (m (conf + 6)) = 4) ∧ sum m conf (byte16 m (conf + 4)) = 0.

Lemma mpconfig_spec m mp conf : mpconfig m = (mp, conf) → conf ≠ 0 →
  is_mp m mp ∧ (∃ a len k, bios_area m a len ∧ mp = P2V a + 16 * Z.of_nat k ∧ 0 <= 16 * Z.of_nat k < len) ∧
  conf = P2V (load32 m (mp + 4)) ∧ conf_ok m conf.
Proof.
  unfold mpconfig. set (q := mpsearch m). intros E Hne.
  destruct (Z.eqb_spec q 0) as [Eq|Eq]; cbn [orb] in E; [by injection E as <- <-|].
  destruct (Z.eqb_spec (load32 m (q + 4)) 0); [by injection E as <- <-|]. set (c := P2V (load32 m (q + 4))) in *.
  destruct (sig_at m c sig_conf) eqn:Es; cbn [negb] in E; [|by injection E as <- <-].
  destruct (negb (u8 (m (c + 6)) =? 1) && negb (u8 (m (c + 6)) =? 4)) eqn:Ev; [by injection E as <- <-|].
  destruct (Z.eqb_spec (sum m c (byte16 m (c + 4))) 0) as [Ez|Ez]; cbn [negb] in E; [|by injection E as <- <-].
  injection E as <- <-. destruct (mpsearch_spec m Eq) as [H1 H2]. split; [done|]. split; [done|]. split; [done|].
  split; [done|]. split; [lia|done].
Qed.

(** ** The entries of a table *)

Inductive entry := EProc (apicid : Z) | EIoapic (id : Z) | EOther (ty : Z).
Definition entry_size (e : entry) : Z := match e with EProc _ => 20 | _ => 8 end.
Definition entry_at (m : mem) (p : Z) (e : entry) : Prop :=
  match e with
  | EProc id => u8 (m p) = MPPROC ∧ u8 (m (p + 1)) = id
  | EIoapic id => u8 (m p) = MPIOAPIC ∧ u8 (m (p + 1)) = id
  | EOther ty => u8 (m p) = ty ∧ ty ∈ [MPBUS; MPIOINTR; MPLINTR]
  end.
Fixpoint entries_at (m : mem) (p : Z) (es : list entry) : Prop :=
  match es with [] => True | e :: es => entry_at m p e ∧ entries_at m (p + entry_size e) es end.
Definition entries_size (es : list entry) : Z := foldr (λ e n, entry_size e + n) 0 es.
Definition processors (es : list entry) : list Z := omap (λ e, match e with EProc id => Some id | _ => None end) es.
Definition last_ioapic (v : Z) (es : list entry) : Z := foldl (λ v e, match e with EIoapic id => id | _ => v end) v es.

Section spec.
Context {H : Type} `{!Machine H}.
Implicit Types (s : mpst H).

Definition after s (es : list entry) : mpst H :=
  MpSt (mp_hw s) (mp_mem s) (mp_lapic s) (mp_cpus s ++ take (8 - length (mp_cpus s)) (processors es)) (last_ioapic (mp_ioapicid s) es).

Lemma entries_run es : ∀ fuel p e ismp s, entries_at (mp_mem s) p es → p + entries_size es <= e →
  mp_entries (length es + fuel) p e ismp s = mp_entries fuel (p + entries_size es) e ismp (after s es).
Proof.
  induction es as [|x es IH]; intros fuel p e ismp s He Hle.
  - unfold after. cbn. rewrite take_nil, app_nil_r, Z.add_0_r. by destruct s.
  - destruct He as [Hx He]. cbn [length Nat.add mp_entries entries_size foldr] in *. fold (entries_size es) in *.
    assert (0 <= entries_size es) as Hpos.
    { clear. induction es as [|y es IH]; [done|]. cbn. fold (entries_size es). destruct y; cbn; lia. }
    rewrite (proj2 (Z.ltb_lt p e)) by (destruct x; cbn in *; lia). run.
    destruct x as [id|id|ty]; cbn [entry_at entry_size] in *; destruct Hx as [Ht Hid]; rewrite Ht.
    + change (MPPROC =? MPPROC) with true. cbn iota. run.
      rewrite Z.add_assoc in Hle. destruct (Z.ltb_spec (Z.of_nat (length (mp_cpus s))) NCPU) as [Hl|Hl]; unfold NCPU in Hl.
      * run. rewrite IH by done. rewrite Hid, <-Z.add_assoc. f_equal. unfold after. cbn. f_equal.
        rewrite length_app, <-app_assoc. f_equal. replace (8 - length (mp_cpus s))%nat with (S (8 - (length (mp_cpus s) + 1))) by lia. done.
      * run. rewrite IH by done. rewrite <-Z.add_assoc. f_equal. unfold after. cbn.
        by replace (8 - length (mp_cpus s))%nat with O by lia.
    + change (MPIOAPIC =? MPPROC) with false. change (MPIOAPIC =? MPIOAPIC) with true. cbn iota. run.
      rewrite Z.add_assoc in Hle. rewrite IH by done. rewrite Hid, <-Z.add_assoc. done.
    + assert ((ty =? MPPROC) = false ∧ (ty =? MPIOAPIC) = false ∧ (ty =? MPBUS) || (ty =? MPIOINTR) || (ty =? MPLINTR) = true) as (-> & -> & ->).
      { repeat (apply elem_of_cons in Hid as [->|Hid]; [done|]). by apply elem_of_nil in Hid. }
      rewrite Z.add_assoc in Hle. rewrite IH by done. rewrite <-Z.add_assoc. done.
Qed.

Lemma unknown_hangs fuel p e ismp s : p < e → u8 (mp_mem s p) ∉ [MPPROC; MPBUS; MPIOAPIC; MPIOINTR; MPLINTR] →
  mp_entries fuel p e ismp s = NoFuel.
Proof.
  intros Hp Hty. revert ismp. induction fuel as [|fuel IH]; intros ismp; [done|]. cbn [mp_entries].
  rewrite (proj2 (Z.ltb_lt _ _) Hp). run. rewrite !not_elem_of_cons in Hty. destruct Hty as (H1 & H2 & H3 & H4 & H5 & _).
  repeat (rewrite (proj2 (Z.eqb_neq _ _)) by done). cbn [orb]. apply IH.
Qed.

(** C29. mpinit reads the BIOS's tables safely. It uses a table only if a floating
    pointer structure with signature and checksum is in one of the three areas the
    specification names and the table it points to has signature, version and
    checksum; otherwise it panics. From a table of any known entries it takes the
    first eight processors in order - the array cpus is never overrun - the last I/O
    APIC and the address of the local APIC, and returns. But an entry of another
    type makes it loop for ever, since it leaves only the switch. *)
Theorem mpinit_correct fuel s mp conf :
  mpconfig (mp_mem s) = (mp, conf) → mp_cpus s = [] →
  let m := mp_mem s in
  (conf = 0 → mpinit fuel s = Panic "Expect to run on an SMP" s) ∧
  (conf ≠ 0 →
   is_mp m mp ∧ (∃ a len k, bios_area m a len ∧ mp = P2V a + 16 * Z.of_nat k ∧ 0 <= 16 * Z.of_nat k < len) ∧ conf_ok m conf ∧
   ∀ es, entries_at m (conf + 44) es →
     (44 + entries_size es = byte16 m (conf + 4) → (length es < fuel)%nat →
      ∃ s', mpinit fuel s = Ok tt s' ∧ mp_cpus s' = take 8 (processors es) ∧ Z.of_nat (length (mp_cpus s')) <= NCPU ∧
        mp_ioapicid s' = last_ioapic (mp_ioapicid s) es ∧ mp_lapic s' = load32 m (conf + 36)) ∧
     (44 + entries_size es < byte16 m (conf + 4) → (length es < fuel)%nat →
      u8 (m (conf + 44 + entries_size es)) ∉ [MPPROC; MPBUS; MPIOAPIC; MPIOINTR; MPLINTR] → mpinit fuel s = NoFuel)).
Proof.
  intros Hc Hcpus m. fold m in Hc. split.
  - intros ->. unfold mpinit. run. fold m. by rewrite Hc.
  - intros Hne. destruct (mpconfig_spec m mp conf Hc Hne) as (H1 & H2 & _ & H4). split; [done|]. split; [done|]. split; [done|].
    intros es He. set (s1 := set_lapic (load32 m (conf + 36)) s).
    assert (∀ n, (length es < fuel)%nat → entries_size es + 44 <= n → mpinit fuel s = (ismp ← mp_entries (fuel - length es) (conf + 44 + entries_size es) (conf + n) true;
      panic_if (negb ismp) "Didn't find a suitable machine";;
      if negb (u8 (m (mp + 12)) =? 0) then mphw (outb 0x22 0x70;; v ← inb 0x23; outb 0x23 (Z.lor v 1)) else mret tt) (after s1 es) ∨ n ≠ byte16 m (conf + 4)) as Hrun.
    { intros n Hf Hn. destruct (decide (n = byte16 m (conf + 4))) as [->|]; [left|by right].
      unfold mpinit. run. fold m. rewrite Hc. cbv beta iota. rewrite run_panic_if by (by apply Z.eqb_neq). run. fold s1.
      replace fuel with (length es + (fuel - length es))%nat at 1 by lia. unfold mbind, M_bind.
      rewrite (entries_run es (fuel - length es) (conf + 44) (conf + byte16 m (conf + 4)) true s1) by (done || lia). done. }
    split.
    + intros Hsz Hf. destruct (Hrun (byte16 m (conf + 4)) Hf ltac:(lia)) as [->|]; [|done].
      destruct (fuel - length es)%nat as [|fu] eqn:Ef; [lia|]. cbn [mp_entries].
      rewrite (proj2 (Z.ltb_ge _ _)) by lia. rewrite run_ret, run_panic_if by done.
      assert (mp_cpus (after s1 es) = take 8 (processors es)) as Hcp by (cbn; by rewrite Hcpus).
      assert (Z.of_nat (length (mp_cpus (after s1 es))) <= NCPU) as Hle by (rewrite Hcp, length_take; unfold NCPU; lia).
      destruct (negb _); [|by exists (after s1 es)].
      unfold mphw, zoom, outb, inb, mbind, M_bind. destruct (hw_inb _ _) as [v h]. eexists. split; [done|]. done.
    + intros Hsz Hf Hty. destruct (Hrun (byte16 m (conf + 4)) Hf ltac:(lia)) as [->|]; [|done].
      unfold mbind, M_bind. rewrite unknown_hangs; [done|lia|done].
Qed.
End spec.

(** ** Two BCD digits *)
Lemma conv_bcd n : 0 <= n < 100 → conv (n / 10 * 16 + n mod 10) = n.
Proof.
  intros Hn. assert (∀ i, (i < 100)%nat → conv (Z.of_nat i / 10 * 16 + Z.of_nat i mod 10) = Z.of_nat i) as H.
  { intros i Hi. do 100 (destruct i as [|i]; [done|]). lia. }
  specialize (H (Z.to_nat n)). rewrite Z2Nat.id in H by lia. apply H. lia.
Qed.

(** A BIOS with a structure in the EBDA, and a table of a processor and an I/O APIC. *)
Definition mem_of (l : list (Z * list Z)) : mem := λ x,
  foldr (λ '(b, bs) v, if (b <=? x) && (x <? b + Z.of_nat (length bs)) then nth (Z.to_nat (x - b)) bs 0 else v) 0 l.
Definition bios_ex : mem := mem_of
  [(P2V 0x40E, [192; 159]);
   (P2V 0x9FC00, [95; 77; 80; 95; 0; 253; 9; 0; 1; 4; 154; 0; 0; 0; 0; 0]);
   (P2V 0x9FD00, [80; 67; 77; 80; 72; 0; 4; 159] ++ replicate 28 0 ++ [0; 0; 224; 254] ++ replicate 4 0 ++
      (0 :: 3 :: replicate 18 0) ++ (2 :: 2 :: replicate 6 0))].

Lemma mpinit_correct_witness : ∃ s',
  mpinit 3 (MpSt (Trace [] (λ _, 0) (λ _, 0)) bios_ex 0 [] 0) = Ok tt s' ∧ mp_cpus s' = [3] ∧ mp_ioapicid s' = 2 ∧ mp_lapic s' = 0xFEE00000.
Proof.
  destruct (mpinit_correct 3 (MpSt (Trace [] (λ _, 0) (λ _, 0)) bios_ex 0 [] 0) (P2V 0x9FC00) (P2V 0x9FD00)) as [_ H].
  - vm_compute. reflexivity.
  - reflexivity.
  - destruct H as (_ & _ & _ & H); [discriminate|]. destruct (H [EProc 3; EIoapic 2]) as [H1 _].
    + split; [by vm_compute|]. split; [by vm_compute|done].
    + destruct H1 as (s' & E & H2 & _ & H3 & H4); [by vm_compute|simpl; lia|]. exists s'.
      split; [exact E|]. split; [exact H2|]. split; [exact H3|]. rewrite H4. by vm_compute.
Defined.
