(* ===== verification/Trap.v ===== *)
(** * Traps and interrupts (trap.c; SETGATE of mmu.h)

    trap is the kernel's entry for everything that vectors.S and trapasm.S pass on.
    The routines that it calls are arbitrary runs on the machine; what this file follows
    is the order of what trap does itself, the tick counter, and the flags of the
    current process. *)

From S2P Require Import Prelude Hw Mp.

Definition T_SYSCALL : Z := 64.
Definition IRQ_KBD : Z := 1.
Definition IRQ_COM1 : Z := 4.
Definition IRQ_ETH : Z := 11.
Definition IRQ_IDE : Z := 14.
Definition DPL_USER : Z := 3.
Definition SEG_KCODE : Z := 1.
Definition STS_IG32 : Z := 0xE.
Definition STS_TG32 : Z := 0xF.

(** ** The interrupt descriptor table *)

Record gatedesc := Gatedesc {
  off_15_0 : Z; g_cs : Z; g_args : Z; g_rsv1 : Z; g_type : Z; g_s : Z; g_dpl : Z; g_p : Z; off_31_16 : Z
}.
(** Each field takes the low bits of the value. *)
Definition SETGATE (istrap : bool) (sel off d : Z) : gatedesc :=
  Gatedesc (Z.land (u32 off) 0xffff) (u16 sel) 0 0 (if istrap then STS_TG32 else STS_IG32) 0 (d mod 4) 1 (u16 (Z.shiftr (u32 off) 16)).
Definition tvinit (vectors : Z → Z) : Z → gatedesc :=
  fupd (λ i, SETGATE false (Z.shiftl SEG_KCODE 3) (vectors i) 0)
    T_SYSCALL (SETGATE true (Z.shiftl SEG_KCODE 3) (vectors T_SYSCALL) DPL_USER).

(** ** The dispatcher *)

(** The fields of the trap frame that trap looks at. *)
Record trapno_cs := TrapFrame { tf_trapno : Z; tf_cs : Z }.
(** killed, and whether the state is RUNNING, of the current process. *)
Record cur := Cur { cu_killed : bool; cu_running : bool }.
(** The machine: the tick counter, the current process, and the rest. *)
Record world (E : Type) := World { w_ticks : Z; w_proc : option cur; w_env : E }.
Arguments World {E} _ _ _.
Arguments w_ticks {E} _.
Arguments w_proc {E} _.
Arguments w_env {E} _.

(** What a call of trap does itself, each with the machine at that moment: it enters a
    handler, counts a tick and wakes its sleepers, acknowledges the interrupt, calls
    exit. *)
Inductive routine := Rsyscall | Ride | Rkbd | Ruart | Ryield.
Inductive act := Enter (r : routine) | Tick | Eoi | Exit.
Record trapst (E : Type) := TrapSt { ts_world : world E; ts_acts : list (act * world E) }.
Arguments TrapSt {E} _ _.
Arguments ts_world {E} _.
Arguments ts_acts {E} _.

Section trap.
Context {E : Type}.
Implicit Types (s : trapst E).
(** The routines that trap calls, each a whole run until it returns, if it does: other
    traps may be taken meanwhile, ticks may move, the process may be killed. *)
Variable call : routine → M (world E) unit.
Variable cpuid : Z.

Definition note (a : act) : M (trapst E) unit := modify (λ s, TrapSt (ts_world s) (ts_acts s ++ [(a, ts_world s)])).
Definition on_world (f : world E → world E) : M (trapst E) unit := modify (λ s, TrapSt (f (ts_world s)) (ts_acts s)).
Definition enter (r : routine) : M (trapst E) unit :=
  note (Enter r);;
  zoom ts_world (λ w s, TrapSt w (ts_acts s)) (call r).

Definition is_killed : M (trapst E) bool := gets (λ s, match w_proc (ts_world s) with Some p => cu_killed p | None => false end).
Definition has_proc : M (trapst E) bool := gets (λ s, match w_proc (ts_world s) with Some _ => true | None => false end).
Definition is_running : M (trapst E) bool := gets (λ s, match w_proc (ts_world s) with Some p => cu_running p | None => false end).
Definition set_killed : M (trapst E) unit := on_world (λ w,
  World (w_ticks w) (match w_proc w with Some p => Some (Cur true (cu_running p)) | None => None end) (w_env w)).
Definition lapiceoi : M (trapst E) unit := note Eoi.
(** exit does not return. *)
Definition exit : M (trapst E) unit := note Exit;; blocked.
(** ticks++; wakeup(&ticks) under tickslock. *)
Definition tick : M (trapst E) unit :=
  note Tick;;
  on_world (λ w, World (u32 (w_ticks w + 1)) (w_proc w) (w_env w)).

Definition exit_if_killed (tf : trapno_cs) : M (trapst E) unit :=
  p ← has_proc; k ← is_killed;
  if p && k && (Z.land (tf_cs tf) 3 =? DPL_USER) then exit else mret tt.

(** The switch. *)
Definition trap_dispatch (tf : trapno_cs) : M (trapst E) unit :=
  let n := tf_trapno tf in
  if n =? T_IRQ0 + IRQ_TIMER then (if cpuid =? 0 then tick else mret tt);; lapiceoi
  else if n =? T_IRQ0 + IRQ_IDE then enter Ride;; lapiceoi
  else if n =? T_IRQ0 + IRQ_IDE + 1 then mret tt
  else if n =? T_IRQ0 + IRQ_KBD then enter Rkbd;; lapiceoi
  else if n =? T_IRQ0 + IRQ_COM1 then enter Ruart;; lapiceoi
  else if n =? T_IRQ0 + IRQ_ETH then lapiceoi
  else if (n =? T_IRQ0 + 7) || (n =? T_IRQ0 + IRQ_SPURIOUS) then lapiceoi
  else
    p ← has_proc;
    panic_if (negb p || (Z.land (tf_cs tf) 3 =? 0)) "trap";;
    set_killed.

Definition trap (tf : trapno_cs) : M (trapst E) unit :=
  if tf_trapno tf =? T_SYSCALL then
    k ← is_killed;
    if k : bool then exit
    else
      enter Rsyscall;;
      k ← is_killed;
      if k : bool then exit else mret tt
  else
    trap_dispatch tf;;
    exit_if_killed tf;;
    p ← has_proc; r ← is_running;
    (if p && r && (tf_trapno tf =? T_IRQ0 + IRQ_TIMER) then enter Ryield else mret tt);;
    exit_if_killed tf.

End trap.

(** ** What it guarantees *)

Section spec.
Context {E : Type}.
Implicit Types (s : trapst E) (w : world E).
Variable call : routine → M (world E) unit.
Variable cpuid : Z.

(** The routine that serves an interrupt, and the interrupts that the controller must
    be told the end of. *)
Definition server (n : Z) : option routine :=
  if n =? 46 then Some Ride else if n =? 33 then Some Rkbd else if n =? 36 then Some Ruart else None.
Definition device_irq (n : Z) : bool := bool_decide (n ∈ [32; 33; 36; 39; 43; 46; 63]).
Definition known (n : Z) : bool := device_irq n || (n =? 47) || (n =? T_SYSCALL).
Definition in_user (tf : trapno_cs) : bool := Z.land (tf_cs tf) 3 =? DPL_USER.
Definition killed w : bool := match w_proc w with Some p => cu_killed p | None => false end.
Definition running w : bool := match w_proc w with Some p => cu_running p | None => false end.
(** The machine one tick later. *)
Definition ticked w : world E := World ((w_ticks w + 1) mod 2 ^ 32) (w_proc w) (w_env w).

(** The interrupt is served from [w] to [w'], and this is what trap does for it. *)
Inductive serves (n : Z) (w : world E) : world E → list (act * world E) → Prop :=
  | serves_timer0 : n = 32 → cpuid = 0 → serves n w (ticked w) [(Tick, w); (Eoi, ticked w)]
  | serves_timer : n = 32 → cpuid ≠ 0 → serves n w w [(Eoi, w)]
  | serves_device r w' : server n = Some r → call r w = Ok tt w' → serves n w w' [(Enter r, w); (Eoi, w')]
  | serves_quiet : n ≠ 32 → server n = None → device_irq n = true → serves n w w [(Eoi, w)]
  | serves_ide1 : n = 47 → serves n w w [].

(** The end of a run that does not come back. *)
Definition stops (r : outcome (trapst E) unit) (acts : list (act * world E)) : Prop :=
  match r with Ok _ _ => False | Panic _ s => ts_acts s = acts | Blocked s => ts_acts s = acts | NoFuel => True end.

Lemma note_bind {A} a (k : unit → M (trapst E) A) w l :
  (note a ≫= k) (TrapSt w l) = k tt (TrapSt w (l ++ [(a, w)])).
Proof. done. Qed.
Lemma enter_ok {A} r (k : unit → M (trapst E) A) w l w' :
  call r w = Ok tt w' → (enter call r ≫= k) (TrapSt w l) = k tt (TrapSt w' (l ++ [(Enter r, w)])).
Proof. intros Hc. unfold enter. rewrite run_assoc, note_bind. unfold mbind, M_bind, zoom. cbn. by rewrite Hc. Qed.
Lemma enter_stops {A} r (k : unit → M (trapst E) A) w l :
  (∀ w', call r w ≠ Ok tt w') →
  match (enter call r ≫= k) (TrapSt w l) with
  | Ok _ _ => False | Panic _ s | Blocked s => ts_acts s = l ++ [(Enter r, w)] | NoFuel => True end.
Proof.
  intros Hc. unfold enter. rewrite run_assoc, note_bind. unfold mbind, M_bind, zoom. cbn. specialize (Hc).
  destruct (call r w) as [[] w'| | |]; [by destruct (Hc w')|done..].
Qed.

Lemma exit_if_killed_bind {A} (k : unit → M (trapst E) A) tf w l :
  (exit_if_killed tf ≫= k) (TrapSt w l) =
    if killed w && in_user tf then Blocked (TrapSt w (l ++ [(Exit, w)])) else k tt (TrapSt w l).
Proof.
  unfold exit_if_killed, has_proc, is_killed, killed, in_user. run. cbn [ts_world]. destruct (w_proc w); [|done]. cbn [andb].
  by destruct (cu_killed _ && _).
Qed.
Lemma exit_if_killed_run tf w l :
  exit_if_killed tf (TrapSt w l) =
    if killed w && in_user tf then Blocked (TrapSt w (l ++ [(Exit, w)])) else Ok tt (TrapSt w l).
Proof.
  unfold exit_if_killed, has_proc, is_killed, killed, in_user. run. cbn [ts_world]. destruct (w_proc w); [|done]. cbn [andb].
  by destruct (cu_killed _ && _).
Qed.

Lemma dispatch_device tf f s : server (tf_trapno tf) = Some f →
  trap_dispatch call cpuid tf s = (enter call f;; lapiceoi) s.
Proof.
  destruct tf as [n cs]. unfold server. cbn [tf_trapno]. intros Hf.
  destruct (Z.eqb_spec n 46) as [->|_]; [by injection Hf as <-|].
  destruct (Z.eqb_spec n 33) as [->|_]; [by injection Hf as <-|].
  destruct (Z.eqb_spec n 36) as [->|_]; [by injection Hf as <-|done].
Qed.
Lemma dispatch_serves tf w w' l :
  serves (tf_trapno tf) w w' l → trap_dispatch call cpuid tf (TrapSt w []) = Ok tt (TrapSt w' l).
Proof.
  destruct tf as [n cs]. cbn [tf_trapno]. intros [-> -> | -> Hc|r w'' Hs Hr|H0 Hs Hd| ->]; [done| | | |done].
  - unfold trap_dispatch. cbn. by rewrite (proj2 (Z.eqb_neq _ _) Hc).
  - rewrite (dispatch_device (TrapFrame n cs) r _ Hs). by rewrite (enter_ok _ _ _ _ _ Hr).
  - unfold device_irq in Hd. apply bool_decide_eq_true in Hd.
    repeat (apply elem_of_cons in Hd as [->|Hd]; [done|]). by apply elem_of_nil in Hd.
Qed.

(** After the interrupt has been served. *)
Lemma trap_served tf w w' l :
  tf_trapno tf ≠ T_SYSCALL → serves (tf_trapno tf) w w' l →
  trap call cpuid tf (TrapSt w []) =
    if killed w' && in_user tf then Blocked (TrapSt w' (l ++ [(Exit, w')]))
    else if running w' && (tf_trapno tf =? 32) then (enter call Ryield;; exit_if_killed tf) (TrapSt w' l)
    else Ok tt (TrapSt w' l).
Proof.
  intros Hn Hs. unfold trap. rewrite (proj2 (Z.eqb_neq _ _) Hn). rewrite (bind_run _ _ _ _ _ (dispatch_serves tf w w' l Hs)).
  rewrite exit_if_killed_bind. destruct (killed w' && in_user tf) eqn:Ek; [done|].
  unfold has_proc, is_running. run. cbn [ts_world]. unfold running. change (T_IRQ0 + IRQ_TIMER) with 32.
  destruct (w_proc w'); cbn [andb]; [|by rewrite run_ret, exit_if_killed_run, Ek].
  destruct (cu_running _ && _); [done|]. by rewrite run_ret, exit_if_killed_run, Ek.
Qed.

(** An interrupt is known, or the dispatcher is in its default case. *)
Lemma dispatch_unknown tf s : known (tf_trapno tf) = false →
  trap_dispatch call cpuid tf s = (p ← has_proc; panic_if (negb p || (Z.land (tf_cs tf) 3 =? 0)) "trap";; set_killed) s.
Proof.
  intros Hk. unfold trap_dispatch. unfold known in Hk. apply orb_false_iff in Hk as [[Hdev H15]%orb_false_iff _].
  unfold device_irq in Hdev. apply bool_decide_eq_false in Hdev. rewrite !not_elem_of_cons in Hdev.
  destruct Hdev as (H1 & H2 & H3 & H4 & H5 & H6 & H7 & _). change (T_IRQ0 + IRQ_IDE + 1) with 47. rewrite H15.
  by do 7 (rewrite (proj2 (Z.eqb_neq (tf_trapno tf) _)) by done).
Qed.

Lemma known_serves n w : known n = true → n ≠ T_SYSCALL →
  (∃ w' l, serves n w w' l) ∨ ∃ r, server n = Some r ∧ ∀ w', call r w ≠ Ok tt w'.
Proof.
  intros Hk Hn. unfold known in Hk. rewrite (proj2 (Z.eqb_neq _ _) Hn), orb_false_r in Hk.
  apply orb_true_iff in Hk as [Hd|H15].
  - destruct (server n) as [r|] eqn:Es.
    + destruct (call r w) as [[] w'|m s|s|] eqn:Ec; [left; eexists _, _; by eapply serves_device|right; exists r; split; [done|]; congruence..].
    + destruct (decide (n = 32)) as [->|H0]; [|left; eexists _, _; by apply serves_quiet].
      destruct (decide (cpuid = 0)); left; eexists _, _; [by apply serves_timer0|by apply serves_timer].
  - apply Z.eqb_eq in H15. left. eexists _, _. by apply serves_ide1.
Qed.

Lemma stops_bind r (k : unit → M (trapst E) unit) w l :
  (∀ w', call r w ≠ Ok tt w') → stops ((enter call r ≫= k) (TrapSt w l)) (l ++ [(Enter r, w)]).
Proof.
  intros Hc. pose proof (enter_stops r k w l Hc) as Hs. unfold stops. by destruct ((enter call r ≫= k) _).
Qed.
Lemma stops_exit l f w l' w' s :
  stops (Blocked s) (l ++ [(Enter f, w)]) → ts_acts s = l' ++ [(Exit, w')] → False.
Proof. intros Hs Ha. simpl in Hs. rewrite Hs in Ha. by apply app_inj_tail in Ha as [_ ?]. Qed.

(** What trap does for a known interrupt. *)
Definition interrupt_done (tf : trapno_cs) w (r : outcome (trapst E) unit) : Prop :=
  let n := tf_trapno tf in
  (∃ f, server n = Some f ∧ (∀ w', call f w ≠ Ok tt w') ∧ stops r [(Enter f, w)]) ∨
  ∃ w' l, serves n w w' l ∧
    if killed w' && in_user tf then r = Blocked (TrapSt w' (l ++ [(Exit, w')]))
    else if running w' && (n =? 32) then
      match call Ryield w' with
      | Ok _ w2 =>
          if killed w2 && in_user tf then r = Blocked (TrapSt w2 (l ++ [(Enter Ryield, w'); (Exit, w2)]))
          else r = Ok tt (TrapSt w2 (l ++ [(Enter Ryield, w')]))
      | _ => stops r (l ++ [(Enter Ryield, w')])
      end
    else r = Ok tt (TrapSt w' l).

Lemma trap_known tf w : known (tf_trapno tf) = true → tf_trapno tf ≠ T_SYSCALL → interrupt_done tf w (trap call cpuid tf (TrapSt w [])).
Proof.
  intros Hk Hn. destruct (known_serves _ w Hk Hn) as [(w' & l & Hs)|(f & Hf & Hno)].
  - right. exists w', l. split; [done|]. rewrite (trap_served tf w w' l Hn Hs).
    destruct (killed w' && in_user tf); [done|]. destruct (running w' && _); [|done].
    destruct (call Ryield w') as [[] w2|m w2|w2|] eqn:Ec; [|apply stops_bind; congruence..].
    rewrite (enter_ok _ _ _ _ _ Ec), exit_if_killed_run, <-app_assoc. by destruct (killed w2 && in_user tf).
  - left. exists f. split_and!; [done|done|]. unfold trap. rewrite (proj2 (Z.eqb_neq _ _) Hn).
    unfold mbind at 1, M_bind at 1. rewrite (dispatch_device _ _ _ Hf). pose proof (stops_bind f (λ _, lapiceoi) w [] Hno) as Hs.
    by destruct ((enter call f ≫= λ _, lapiceoi) (TrapSt w [])).
Qed.

Lemma trap_unknown tf w : known (tf_trapno tf) = false →
  trap call cpuid tf (TrapSt w []) =
    match w_proc w with
    | None => Panic "trap" (TrapSt w [])
    | Some p =>
        let w' := World (w_ticks w) (Some (Cur true (cu_running p))) (w_env w) in
        if Z.land (tf_cs tf) 3 =? 0 then Panic "trap" (TrapSt w [])
        else if in_user tf then Blocked (TrapSt w' [(Exit, w')]) else Ok tt (TrapSt w' [])
    end.
Proof.
  intros Hk. assert (tf_trapno tf ≠ T_SYSCALL) as Hn by (intros E0; unfold known in Hk; rewrite E0 in Hk; done).
  assert (tf_trapno tf ≠ T_IRQ0 + IRQ_TIMER) as Hn' by (intros E0; unfold known in Hk; rewrite E0 in Hk; done).
  unfold trap. rewrite (proj2 (Z.eqb_neq _ _) Hn), (proj2 (Z.eqb_neq _ _) Hn'). unfold mbind at 1, M_bind at 1. rewrite dispatch_unknown by done.
  unfold has_proc. run. cbn [ts_world]. destruct (w_proc w) as [p|] eqn:Ep; [|done].
  destruct (Z.land (tf_cs tf) 3 =? 0) eqn:Ecs; [done|]. rewrite run_panic_if by done.
  unfold set_killed, on_world, modify. cbn [ts_world ts_acts]. rewrite Ep, exit_if_killed_bind. cbn [killed w_proc cu_killed andb].
  destruct (in_user tf) eqn:Eu; [done|]. unfold is_running. run. rewrite andb_false_r, run_ret, exit_if_killed_run. cbn. by rewrite Eu.
Qed.

Lemma trap_syscall tf w : tf_trapno tf = T_SYSCALL →
  if killed w then trap call cpuid tf (TrapSt w []) = Blocked (TrapSt w [(Exit, w)])
  else match call Rsyscall w with
       | Ok _ w' => trap call cpuid tf (TrapSt w []) = if killed w' then Blocked (TrapSt w' [(Enter Rsyscall, w); (Exit, w')]) else Ok tt (TrapSt w' [(Enter Rsyscall, w)])
       | _ => stops (trap call cpuid tf (TrapSt w [])) [(Enter Rsyscall, w)]
       end.
Proof.
  intros Hn. unfold trap. rewrite Hn. change (T_SYSCALL =? T_SYSCALL) with true. cbn iota.
  unfold is_killed. run. cbn [ts_world]. fold (killed w). destruct (killed w); [done|].
  destruct (call Rsyscall w) as [[] w'|m s|s|] eqn:Ec; [|apply (stops_bind _ _ _ []); congruence..].
  rewrite (enter_ok _ _ _ _ _ Ec). run. cbn [ts_world]. fold (killed w'). by destruct (killed w').
Qed.

(** A killed process does not get back to user space. *)
Lemma bind_ok {A B} (m : M (trapst E) A) (k : A → M (trapst E) B) s b s' :
  (m ≫= k) s = Ok b s' → ∃ a s1, m s = Ok a s1 ∧ k a s1 = Ok b s'.
Proof. unfold mbind, M_bind. destruct (m s) as [a s1| | |]; [by exists a, s1|done..]. Qed.
Lemma trap_returns tf w s' :
  trap call cpuid tf (TrapSt w []) = Ok tt s' → in_user tf = true ∨ tf_trapno tf = T_SYSCALL → killed (ts_world s') = false.
Proof.
  intros Hr Hu. destruct (decide (tf_trapno tf = T_SYSCALL)) as [Hn|Hn].
  - pose proof (trap_syscall tf w Hn) as Hs. rewrite Hr in Hs. destruct (killed w); [done|].
    destruct (call Rsyscall w); [|done..]. destruct (killed s) eqn:Ek; [done|]. by simplify_eq.
  - destruct Hu as [Hu|]; [|done]. unfold trap in Hr. rewrite (proj2 (Z.eqb_neq _ _) Hn) in Hr.
    do 5 (apply bind_ok in Hr as (? & ? & _ & Hr)). destruct x8 as [w1 l1]. rewrite exit_if_killed_run, Hu, andb_true_r in Hr.
    destruct (killed w1) eqn:Ek; [done|]. by simplify_eq.
Qed.
(** Only a killed process exits. *)
Lemma trap_exits tf w s' l w' :
  trap call cpuid tf (TrapSt w []) = Blocked s' → ts_acts s' = l ++ [(Exit, w')] →
  killed w' = true ∧ ts_world s' = w' ∧ (in_user tf = true ∨ tf_trapno tf = T_SYSCALL).
Proof.
  intros Hr Ha. destruct (decide (tf_trapno tf = T_SYSCALL)) as [Hn|Hn].
  - pose proof (trap_syscall tf w Hn) as Hs. rewrite Hr in Hs.
    destruct (killed w) eqn:Ek; [|destruct (call Rsyscall w) as [[] w1| | |]; [destruct (killed w1) eqn:Ek1; [|done]|..]].
    + simplify_eq. apply (app_inj_tail [] l) in Ha as [_ ?]. simplify_eq. auto.
    + simplify_eq. apply (app_inj_tail [_] l) in Ha as [_ ?]. simplify_eq. auto.
    + by destruct (stops_exit [] _ _ _ _ _ Hs Ha).
    + by destruct (stops_exit [] _ _ _ _ _ Hs Ha).
    + by destruct (stops_exit [] _ _ _ _ _ Hs Ha).
  - destruct (known (tf_trapno tf)) eqn:Hk.
    + pose proof (trap_known tf w Hk Hn) as Hd. rewrite Hr in Hd. destruct Hd as [(f & _ & _ & Hs)|(w1 & l1 & _ & Hs)].
      { by destruct (stops_exit [] _ _ _ _ _ Hs Ha). }
      destruct (killed w1 && in_user tf) eqn:Ek.
      { simplify_eq. simpl in Ha. apply app_inj_tail in Ha as [_ ?]. simplify_eq. apply andb_true_iff in Ek. tauto. }
      destruct (running w1 && _); [|done]. destruct (call Ryield w1) as [[] w2| | |]; [|by destruct (stops_exit l1 _ _ _ _ _ Hs Ha)..].
      destruct (killed w2 && in_user tf) eqn:Ek2; [|done]. simplify_eq. simpl in Ha.
      change (l1 ++ [(Enter Ryield, w1); (Exit, w2)]) with (l1 ++ [(Enter Ryield, w1)] ++ [(Exit, w2)]) in Ha.
      rewrite app_assoc in Ha. apply app_inj_tail in Ha as [_ ?]. simplify_eq. apply andb_true_iff in Ek2. tauto.
    + rewrite (trap_unknown tf w Hk) in Hr. destruct (w_proc w); [|done]. cbv zeta in Hr. destruct (_ =? 0); [done|].
      destruct (in_user tf); [|done]. simplify_eq. simpl in Ha. apply (app_inj_tail [] l) in Ha as [_ ?]. simplify_eq. auto.
Qed.

(** C28. Traps are handled safely, whatever the routines that trap calls do - they may
    kill the process, take other traps, let time pass, or not return at all. A return
    to user space is never with the killed flag set, and trap calls exit only for a
    killed process in user space or in a system call. A known interrupt is served
    first, by one tick on processor 0 or by its device's routine, and is acknowledged
    exactly once after that, the spurious ones of IDE1 never; then a killed process in
    user space exits, and otherwise only the timer makes a running process yield, and
    then the flag is looked at again. After a routine that does not return trap does
    nothing more. An unexpected trap panics in the kernel, and in user space it ends
    the process. A killed process gets no system call, and a system call is not
    acknowledged. *)
Theorem trap_correct tf w :
  let n := tf_trapno tf in
  let r := trap call cpuid tf (TrapSt w []) in
  (∀ s', r = Ok tt s' → in_user tf = true ∨ n = T_SYSCALL → killed (ts_world s') = false) ∧
  (∀ s' l w', r = Blocked s' → ts_acts s' = l ++ [(Exit, w')] →
     killed w' = true ∧ ts_world s' = w' ∧ (in_user tf = true ∨ n = T_SYSCALL)) ∧
  (known n = true → n ≠ T_SYSCALL → interrupt_done tf w r) ∧
  (known n = false →
   (w_proc w = None ∨ Z.land (tf_cs tf) 3 = 0 → r = Panic "trap" (TrapSt w [])) ∧
   (w_proc w ≠ None → in_user tf = true → ∃ w', r = Blocked (TrapSt w' [(Exit, w')]))) ∧
  (n = T_SYSCALL →
   if killed w then r = Blocked (TrapSt w [(Exit, w)])
   else match call Rsyscall w with
        | Ok _ w' => r = if killed w' then Blocked (TrapSt w' [(Enter Rsyscall, w); (Exit, w')]) else Ok tt (TrapSt w' [(Enter Rsyscall, w)])
        | _ => stops r [(Enter Rsyscall, w)]
        end).
Proof.
  intros n r. split_and!; [apply trap_returns|apply trap_exits|apply trap_known| |apply trap_syscall].
  intros Hk. unfold r. rewrite (trap_unknown tf w Hk). split.
  - intros [-> | Hcs]; [done|]. rewrite (proj2 (Z.eqb_eq _ _) Hcs). by destruct (w_proc w).
  - intros Hp Hu. destruct (w_proc w) as [p|]; [|done]. cbv zeta. rewrite Hu. unfold in_user in Hu. apply Z.eqb_eq in Hu.
    rewrite Hu. by eexists.
Qed.
End spec.

(** Routines that do not leave things alone: a system call that never returns, a disk
    interrupt that kills the process, and a yield while which five more ticks pass. *)
Definition busy (r : routine) : M (world nat) unit := λ w,
  match r with
  | Rsyscall => Blocked (World (w_ticks w + 9) (w_proc w) 1%nat)
  | Ride => Ok tt (World (w_ticks w) (Some (Cur true true)) 2%nat)
  | Ryield => Ok tt (World (w_ticks w + 5) (w_proc w) 3%nat)
  | _ => Ok tt w
  end.
Lemma trap_correct_witness :
  let w := World 7 (Some (Cur false true)) O in
  (∃ w', trap busy 0 (TrapFrame 32 27) (TrapSt w []) = Ok tt (TrapSt w' [(Tick, w); (Eoi, ticked w); (Enter Ryield, ticked w)]) ∧
     w_ticks w' = 13 ∧ killed w' = false) ∧
  (∃ s, trap busy 0 (TrapFrame 46 27) (TrapSt w []) = Blocked s ∧ killed (ts_world s) = true).
Proof.
  intros w. split.
  - destruct (trap_correct busy 0 (TrapFrame 32 27) w) as (_ & _ & H & _).
    destruct (H eq_refl ltac:(done)) as [(f & Hf & _)|(w' & l & Hs & Hr)]; [discriminate Hf|].
    destruct Hs as [_ _|_ Hc|r w' Hs _|Hc _ _|Hc]; [|by destruct Hc|discriminate Hs|by destruct Hc|discriminate Hc].
    eexists. split; [exact Hr|]. by split.
  - destruct (trap_correct busy 0 (TrapFrame 46 27) w) as (_ & H2 & _).
    eexists. split; [reflexivity|]. eapply (H2 _ _ _ eq_refl eq_refl).
Defined.

(** The interrupt table: every vector has a present gate to its entry point in the
    kernel's code segment; a user program can enter only through vector 64, and only
    that gate leaves interrupts enabled. *)
Theorem tvinit_correct vectors i :
  0 <= i < 256 → is_u32 (vectors i) →
  let g := tvinit vectors i in
  off_15_0 g + 65536 * off_31_16 g = vectors i ∧ g_cs g = 8 ∧ g_p g = 1 ∧ g_s g = 0 ∧
  (g_dpl g = DPL_USER ↔ i = T_SYSCALL) ∧ (g_type g = STS_TG32 ↔ i = T_SYSCALL) ∧ (g_dpl g ≠ DPL_USER → g_dpl g = 0 ∧ g_type g = STS_IG32).
Proof.
  intros Hi Hv g.
  assert (∀ b d, let g := SETGATE b (Z.shiftl SEG_KCODE 3) (vectors i) d in off_15_0 g + 65536 * off_31_16 g = vectors i) as Hoff.
  { intros b d. cbn. rewrite (u32_small _ Hv). rewrite (land_mask _ 16) by done. rewrite Z.shiftr_div_pow2 by lia.
    change (2 ^ 16) with 65536. unfold is_u32 in Hv. rewrite (u16_small (vectors i / 65536)).
    - pose proof (Z.div_mod (vectors i) 65536). lia.
    - split; [apply Z.div_pos; lia|apply Z.div_lt_upper_bound; lia]. }
  unfold g, tvinit, fupd. destruct (decide (i = T_SYSCALL)) as [->|Hne].
  - split; [apply Hoff|]. cbn. split_and!; done.
  - split; [apply Hoff|]. cbn. split_and!; try done; by split.
Qed.
Lemma tvinit_correct_witness : g_dpl (tvinit (λ i, 0x80106000 + 8 * i) 14) = 0.
Proof.
  destruct (tvinit_correct (λ i, 0x80106000 + 8 * i) 14 ltac:(lia) ltac:(done)) as (_ & _ & _ & _ & H1 & _ & H2).
  apply H2. intros H. by apply H1 in H.
Defined.
